(* ===== verification/_CoqProject ===== *)
-Q . S2P
Prelude.v
GoNum.v
TsHealth.v
Mpeg.v
CapCc.v
CapTs.v
CapDecoder.v
CapVtt.v
Ring.v
Crc.v
PsipText.v
PsipTables.v
Psip.v
DvbSections.v
DvbText.v
DvbSi.v
GoText.v
GoFloat.v
Dvr.v
DvrPlan.v
DvrConflict.v
Hdhr.v
LiveTs.v
LiveFilter.v
Fmp4.v
Fmp4Trim.v
Fmp4Edits.v
Timeline.v
LiveBits.v
LiveSps.v
LiveHevc.v
LiveRendition.v
LiveScan.v
LiveAudio.v
LivePlaylist.v
LivePack.v
LivePackFiles.v
LivePart.v
LivePackParts.v
LivePlan.v
Rooms.v
LiveSplit.v
LiveCuts.v
LiveDelta.v
LiveViews.v
LiveQueue.v
GoRegexp.v
Network.v
Twins.v
GuideMatch.v
Sports.v
