(* ===== verification/Prelude.v ===== *)
(** * Broadwave: a verification of its server's core

    Broadwave turns network tuners into a television server. A tuner sends a
    whole multiplex, a stream of 188-byte transport packets; the server keeps
    it on disk, cuts one program out of it for an encoder, packages the
    encoder's output as HLS, reads captions and the broadcast guide from it and
    plans recordings over the guide. This library models the parts of
    [server/internal] that decide something about those bytes and plans, and
    proves what makes each of them correct. File names below are those of the
    source under [src/server/internal].

    ** How the parts work together

    - A tuner is found and steered with small packets (Hdhr). Its multiplex is
      watched for damage (TsHealth) and kept in a ring of files on disk (Ring),
      which any number of readers follow.
    - Readers of the ring: the guide readers put the broadcast's tables together
      (Psip for ATSC, DvbSections and DvbSi for DVB, with their text in PsipText
      and DvbText); the program filter sends one program's packets to an encode
      (LiveTs, LiveFilter).
    - What the encoder gives back is packaged: the fragments of MP4 are read and
      the first one is trimmed (Fmp4, Fmp4Trim, Fmp4Edits), and they go out as
      parts, segments and a playlist (LivePlaylist, LivePack), read from one encode
      after another (LiveQueue); the captions of the source pictures are decoded
      (CapCc, CapTs, CapDecoder) and cut into WebVTT (CapVtt).
    - One encode serves several renditions of a channel: a view keeps some of its
      tracks (LiveSplit), names its own playlists and files (LiveViews), shares the
      cuts it makes among the screens that ask (LiveCuts) and can be sent as what
      is new since the last one (LiveDelta).
    - A channel's live session reads what the stream says of its picture and its
      sound (LiveBits, LiveSps, LiveHevc, LiveScan, LiveAudio), decides which form
      each viewer is sent (LiveRendition) and dates its playlists (Timeline). A wall
      of several channels asks first which of them the tuners can show (LivePlan);
      screens that watch together share one place in the stream (Rooms).
    - The recorder matches passes to the guide and shares the tuners out (Dvr,
      DvrPlan, DvrConflict).
    - A guide that comes from a file names stations, not tuners: what a call sign
      stands for (Network), which channel is which of the file's (GuideMatch), and
      which of the home's rows are one station, so that one of them is shown and a
      pass records a program once (Twins).
    - Scoreboards of live games are kept fresh, move the big tile of a wall and raise
      toasts (Sports).

    ** Files, and the source they model

    - Prelude: the outcome type [res] of a Go body ([Ok], [Panic] for an index
      out of range, [NoFuel]), its sequencing [let!], the judgement [returns]
      (it ends, without a panic, in a result such that ...), Go's slices, bytes
      and fixed-width integers, and the tactics [go_step] (one step of a body),
      [blia] (bytes and bit operations) and [dlia] (quotients).
    - TsHealth: [tshealth/counter.go]. [Counter] is a record; [Write] takes
      bytes to a new counter; [Summary] folds the map of PIDs in any order.
    - Mpeg: what several readers share, the 33-bit clock and the PES time.
      GoNum: decimal numbers as [fmt] writes them.
    - CapCc, CapTs, CapDecoder, CapVtt: [captions/cc.go], [ts.go], [decoder.go]
      and [vtt.go]. The reader's and the decoder's callbacks are the lists of
      their calls.
    - Ring: [ring/ring.go]. Each critical section is a function on the guarded
      state; tuner, flusher and reader are interleaved as steps ([sys], [step]).
    - Crc: the section checksum, bit by bit ([psip/parse.go],
      [dvbsi/section.go]) and by table ([live/programfilter.go]).
    - PsipText, PsipTables, Psip: [psip/text.go], [huffman.go],
      [huffman_tables.go], [parse.go], [harvest.go], [merge.go].
    - DvbSections, DvbText, DvbSi: [dvbsi/section.go], [text.go],
      [charsets.go], [parse.go], [lang.go], [genre.go], [harvest.go].
    - GoText: what the recorder uses of Go's [strings], [sort] and [time]. The
      Unicode tables past ASCII and the time-zone database are two classes,
      [Unicode] and [Zone]: theorems hold for every instance.
    - GoFloat: Go's [float64] over the Standard Library's floats, and
      [strconv.ParseFloat] of plain decimals; other text is a class, [FloatText].
    - Dvr, DvrPlan, DvrConflict: [dvr/start.go], [extend.go], [tick.go],
      [rules.go], [manual.go], [tuners.go]; [plan.go]; [conflict.go]; the rows
      of [store/dvr.go] and the matching of [sports/match.go].
    - Hdhr: [hdhr/control.go], [discover.go], [status.go], [streaminfo.go],
      [model.go].
    - LiveTs, LiveFilter: the packet readers of [live/scantype.go] and
      [audio.go]; [live/programfilter.go] whole. [programPipe] is a record, and
      what it does to the encoder and the hub is a list of events.
    - Fmp4, Fmp4Trim, Fmp4Edits: [live/fmp4.go]; the second file holds the proof
      that trimming keeps the media, the third is the header's edit lists.
    - LivePlaylist, LivePack, LivePart: [live/pack.go]. [Pack]'s local variables
      are the record [packer] (what its closures share) inside [reader] (its
      loop's), its directory a map of files with the writes in order ([disk]);
      a write that fails ends it ([run]). LivePackFiles and LivePackParts hold the
      proofs: [packs] is a run of it, fragment by fragment.
    - LiveQueue: [packInput] and [readAhead] of [live/pack.go]. The packager, the hub
      that queues an encode or waits for the packager to park, and the readers of
      the encodes' pipes are interleaved as steps ([world], [step]); the fields that
      place the encodes on the playlist are the record [places].
    - LiveSplit: [live/split.go]. LiveViews: [live/views.go] without its cache, and
      the names of [live/rendition.go]. LiveCuts: the cache, [cutCache], whose
      screens are interleaved; what is read and cut for a key is a relation it is
      given. LiveDelta: [live/delta.go].
    - LivePlan: [live/plan.go]. Rooms: [realtime/rooms.go]; wall
      times are instants, media times float64.
    - Timeline: [live/timeline.go]. The anchors of a channel's clock and the
      stamping of a playlist, line by line.
    - LiveBits, LiveSps, LiveHevc, LiveScan: [live/scantype.go] and [codecs.go].
      Bit readers are functions on a position in the bytes; the writers of the
      standards' syntax ([put_sps], [put_hevc]) are this library's.
    - LiveRendition: [live/rendition.go], [host.go] and the modes of
      [picture.go]. LiveAudio: [live/audio.go].
    - GoRegexp: Go's [regexp], leftmost and first alternative first, as a matcher and
      as a relation that it is proved to decide (MatchString_exact, find_some,
      find_none); what uses it proves what its expressions find.
    - Network: [network/network.go], [calls.go]. GuideMatch: [guide/match.go],
      [networks.go]; the order Go walks a map is the argument [walk]. Twins:
      [store/twins.go], [duplicates.go], [guide/twins.go]; a query's rows are an
      argument, an update is the rows after it. The upper case and the digits of
      letters past ASCII are arguments ([upper_rune], [digit_rune]).
    - Sports: [sports/sports.go], [focus.go], [alerts.go], [cache.go] and the looks
      of [httpapi/alerts.go].

    ** What the theorems show

    - Nothing panics and every loop ends on any input ([returns] with the fuel
      the definitions take): ring_never_panics, pipe_total, hdhr_total,
      reader_total, decoder_total, write_total, Parse_total, scan_total,
      audio_total.
    - What is written is read: section_roundtrip, packed_sections_read, view_names_resolve (a view's
      names lead back to the rendition's files and tracks),
      huffman_roundtrip, multiple_string_roundtrip, EIT_reads, exchange_reads,
      run_roundtrip, Text_reads, h264_header_reads, hevc_header_reads,
      ac3_header_reads, key_roundtrip, part_from_segment (a part read through the
      pointer that took its place).
    - What goes in comes out: reader_exact and copy_whole (a reader of the ring
      gets the multiplex's own bytes, all it asked for, through any
      interleaving with the tuner and the flusher), trim_keeps_media (every run of a
      trimmed fragment still finds its own samples' bytes), pack_conserves (the
      segments written are the fragments taken, in order, with a reason for each that
      is not), views_keep_their_media and init_keeps_tracks (a view
      has its tracks' samples, byte for byte, and no others), queue_in_order (the
      packager reads encode after encode, each whole), pictures_conserved,
      display_order, pop_on_shows_its_text.
    - How writes are split does not matter: write_split, reader_split,
      packets_any_reads, filter_split (and, where it does,
      first_lock_depends_on_split). What is not put together again:
      pointer_tail_dropped (a guide section that ends where the next starts).
    - Damage does not pass for data: crc_detects_byte, exchange_detects_byte,
      loss_counted, jump_needs_agreement, counters_stay_consecutive.
    - The state stays well formed: ring_accounts, names_never_reused,
      cues_in_order, showing_follows_screen, pipe_total, dates_in_order (the dates
      served of a channel's segments never overlap), scan_buffer_aligned,
      film_is_not_stored, cuts_sound (the cache's size is its files', within its
      bound), cache_is_lru, rooms_sound, offset_fits_all, encode_found.
    - Nobody sleeps for ever: cut_waiters_woken (a screen that waits for a cut is
      woken when it is made), sleepers_are_woken (the packager at the end of an
      encode, and the hub that waits for it).
    - A playlist keeps its promises: playlist_files_exist (what it names is on disk,
      with its bytes), split_part_lengths, independent_segments, targets_hold,
      ready_exact, delta_leaves_the_last (a delta playlist leaves out no segment
      within its skip boundary).
    - A viewer is served what the rules say: served_playlist, decision_playable,
      main_is_widest, majority_any_order (no order of Go's map changes it),
      late_facts_applied (memory, database and graph agree), extras_are_measured,
      swap_is_its_own_inverse, plan_exact and stops_are_needed (a wall's tiles are
      those the tuners can hold), controls_place_the_room, changes_are_versioned (over
      any run in which a room keeps a screen), easing_never_jumps.
    - The plan keeps its promises: plan_fits_tuners, skips_are_outranked,
      plan_determined, overflows_exact (against the set of channels on at an
      instant), suggestions_fit, match_records, fix_records, keep_last,
      retry_exact, start_covers.

    - Stations are told apart: branded_exact (the letters and the number of a name
      against a description of its forms), assign_stable (no channel and station
      would both rather have each other), one_row_is_shown, pairs_are_one_station,
      twins_share, passes_record_once, and two_tuners_record_twice for the homes
      where the last does not hold.
    - Live games: focus_exact (the tile goes to the first game of the highest rank),
      alerts_once (nothing is told twice of a game on the boards),
      boards_back_off (a failed service is left alone for half a minute and more).

    ** Bounds and fuel

    A loop whose recursion is not structural takes fuel: the length of the bytes
    it eats (each pass eats one at least: packets, sections, boxes, tags), a
    count read from the input where the loop runs to it (the samples of a run,
    whose fields each take bytes or whose count the source bounds), or the number
    of items it removes one by one (the eviction of airings, the files of the
    ring). The totality theorems prove that it is enough. Integers are [Z] with
    the width's wrap written out ([wrap8], [wrap32], [int64], ...), left out
    only where a bound in the statement or the data (a sum of 32-bit sizes) keeps it
    from mattering. trim_keeps_media and
    views_keep_their_media are for fragments up to 64 MiB, and views for runs whose
    bytes are below 2^30.

    ** Not modelled

    - The hub of live sessions ([live/hub.go], the players) and the processes behind
      the pipes of [pack.go]: goroutines around ffmpeg, sockets and files.
    - The databases ([store]): SQL. The HTTP API ([httpapi]) and its pages.
    - Commercial detection ([breaks]) and the ring's [At]: scores and interpolation
      in floating point, with transcendental functions. The bus that carries the
      rooms' messages ([realtime/bus.go]).
    - Sources, guide downloads and their XML, score services and their JSON,
      discovery, tunnels, updates: network and files.
    - [psip]'s TitleCase: Unicode tables of title case.

    ** Plan

    What could come next: the arguments of an encode ([live/picture.go]), the
    master playlists ([live/master.go]) and the clock of the library's own channels
    ([dvr/virtual.go]). *)
From stdpp Require Export base tactics list numbers option gmap strings.
From Stdlib Require Export ZArith Lia.
From Stdlib Require Import Ascii.
#[global] Set Default Goal Selector "!".
Local Open Scope Z_scope.

Declare Scope go_scope.
Delimit Scope go_scope with go.

(** ** Outcomes of Go code *)

(** The outcome of a Go function body. [Panic] is a run-time panic (an index
    or a slice out of range); [NoFuel] is a loop that was not given enough
    iterations.  A theorem that a body equals [Ok r] therefore states both
    that it terminates within its fuel and that it does not panic. *)
Inductive res (A : Type) : Type :=
  | Ok (a : A)
  | Panic
  | NoFuel.
Arguments Ok {A} a.
Arguments Panic {A}.
Arguments NoFuel {A}.

Definition rbind {A B : Type} (m : res A) (f : A -> res B) : res B :=
  match m with
  | Ok a => f a
  | Panic => Panic
  | NoFuel => NoFuel
  end.

Notation "'let!' x ':=' m 'in' k" := (rbind m (fun x => k))
  (at level 10, x name, m at level 100, k at level 200) : go_scope.
Notation "'let!' ' p ':=' m 'in' k" := (rbind m (fun p => k))
  (at level 10, p strict pattern, m at level 100, k at level 200) : go_scope.

(** [returns m Q]: [m] ends normally with a value that satisfies [Q]. *)
Definition returns {A : Type} (m : res A) (Q : A -> Prop) : Prop :=
  match m with
  | Ok a => Q a
  | Panic | NoFuel => False
  end.

Section returns_lemmas.
Context {A B : Type}.
Implicit Types (m : res A) (f : A -> res B).

Lemma returns_bind m f (Q : B -> Prop) :
  returns m (fun a => returns (f a) Q) -> returns (rbind m f) Q.
Proof. by destruct m. Qed.

Lemma returns_mono m (P Q : A -> Prop) :
  returns m P -> (forall a, P a -> Q a) -> returns m Q.
Proof. destruct m; naive_solver. Qed.

Lemma returns_and m (P Q : A -> Prop) :
  returns m P -> returns m Q -> returns m (fun a => P a /\ Q a).
Proof. by destruct m. Qed.

Lemma returns_Ok (a : A) (Q : A -> Prop) : Q a -> returns (Ok a) Q.
Proof. done. Qed.

Lemma returns_exists m (Q : A -> Prop) :
  returns m Q <-> exists a, m = Ok a /\ Q a.
Proof. destruct m; naive_solver. Qed.

Lemma rbind_Ok_inv m f (b : B) :
  rbind m f = Ok b -> exists a, m = Ok a /\ f a = Ok b.
Proof. destruct m; naive_solver. Qed.
End returns_lemmas.

(** ** Slices of bytes *)

(** Lengths and indices are Go's [int], far below its 63 bits here. *)
Definition zlen {A : Type} (l : list A) : Z := Z.of_nat (length l).

(** [b[i]] *)
Definition idx {A : Type} (b : list A) (i : Z) : res A :=
  if (i <? 0) then Panic
  else match b !! Z.to_nat i with Some v => Ok v | None => Panic end.

(** [b[i:j]], with no capacity beyond the length. *)
Definition slice {A : Type} (b : list A) (i j : Z) : res (list A) :=
  if ((0 <=? i) && (i <=? j) && (j <=? zlen b))%bool
  then Ok (take (Z.to_nat (j - i)) (drop (Z.to_nat i) b))
  else Panic.

(** [b[i:]] *)
Definition slice_from {A : Type} (b : list A) (i : Z) : res (list A) :=
  slice b i (zlen b).

Definition byte_ok (v : Z) : Prop := 0 <= v < 256.
Definition bytes_ok (b : list Z) : Prop := Forall byte_ok b.

(** [binary.BigEndian.Uint16], [Uint32] and [Uint64] of a byte slice. *)
Definition be16 (h l : Z) : Z := Z.lor (Z.shiftl h 8) l.
Definition uint16 (b : list Z) : res Z :=
  (let! l := idx b 1 in let! h := idx b 0 in Ok (be16 h l))%go.
Definition uint32 (b : list Z) : res Z :=
  (let! b3 := idx b 3 in let! b0 := idx b 0 in
   let! b1 := idx b 1 in let! b2 := idx b 2 in
   Ok (be16 (be16 (be16 b0 b1) b2) b3))%go.

(** Machine-width wrap-around. *)
Definition wrap8 (z : Z) : Z := z mod 2 ^ 8.
Definition wrap16 (z : Z) : Z := z mod 2 ^ 16.
Definition wrap32 (z : Z) : Z := z mod 2 ^ 32.
Definition wrap64 (z : Z) : Z := z mod 2 ^ 64.
Definition int64 (z : Z) : Z := (z + 2 ^ 63) mod 2 ^ 64 - 2 ^ 63.

(** ** Lengths, indices and slices *)

Section slices.
Context {A : Type}.
Implicit Types (b c : list A) (i j : Z).

Lemma zlen_nonneg b : 0 <= zlen b.
Proof. unfold zlen. lia. Qed.

Lemma zlen_nil : zlen (@nil A) = 0.
Proof. done. Qed.

Lemma zlen_cons (a : A) b : zlen (a :: b) = zlen b + 1.
Proof. unfold zlen. simpl. lia. Qed.

Lemma zlen_app b c : zlen (b ++ c) = zlen b + zlen c.
Proof. unfold zlen. rewrite length_app. lia. Qed.

Lemma zlen_take (n : nat) b : zlen (take n b) = Z.min (Z.of_nat n) (zlen b).
Proof. unfold zlen. rewrite length_take. lia. Qed.

Lemma zlen_drop (n : nat) b : zlen (drop n b) = Z.max 0 (zlen b - Z.of_nat n).
Proof. unfold zlen. rewrite length_drop. lia. Qed.

Lemma zlen_map {B} (f : A -> B) b : zlen (map f b) = zlen b.
Proof. unfold zlen. by rewrite length_map. Qed.

Lemma zlen_0_nil b : zlen b = 0 -> b = [].
Proof. unfold zlen. destruct b; [done | simpl; lia]. Qed.

Lemma idx_Ok b i (v : A) : 0 <= i -> b !! Z.to_nat i = Some v -> idx b i = Ok v.
Proof.
  intros Hi Hv. unfold idx. rewrite Hv.
  destruct (Z.ltb_spec i 0); [lia | done].
Qed.

Lemma idx_inv b i (v : A) :
  idx b i = Ok v -> 0 <= i < zlen b /\ b !! Z.to_nat i = Some v.
Proof.
  unfold idx. destruct (Z.ltb_spec i 0); [done |].
  destruct (b !! Z.to_nat i) as [w|] eqn:E; [| done].
  intros [= ->]. split; [| done].
  apply lookup_lt_Some in E. unfold zlen. lia.
Qed.

Lemma idx_in_range b i : 0 <= i < zlen b -> exists v, b !! Z.to_nat i = Some v /\ idx b i = Ok v.
Proof.
  intros Hi. destruct (lookup_lt_is_Some_2 b (Z.to_nat i)) as [v Hv].
  { unfold zlen in Hi. lia. }
  exists v. split; [done | apply idx_Ok; [lia | done]].
Qed.

Lemma slice_Ok b i j :
  0 <= i <= j -> j <= zlen b ->
  slice b i j = Ok (take (Z.to_nat (j - i)) (drop (Z.to_nat i) b)).
Proof.
  intros Hi Hj. unfold slice.
  destruct (Z.leb_spec 0 i); [| lia]. destruct (Z.leb_spec i j); [| lia].
  by destruct (Z.leb_spec j (zlen b)); [| lia].
Qed.

Lemma slice_from_Ok b i :
  0 <= i <= zlen b -> slice_from b i = Ok (drop (Z.to_nat i) b).
Proof.
  intros Hi. unfold slice_from. rewrite slice_Ok by lia.
  f_equal. apply take_ge. rewrite length_drop. unfold zlen in *. lia.
Qed.
End slices.

Lemma zlen_nat {A} (l : list A) : Z.to_nat (zlen l) = length l.
Proof. unfold zlen. lia. Qed.

Lemma idx_app_l {A} (b q : list A) i : i < zlen b -> idx (b ++ q) i = idx b i.
Proof.
  intros Hi. unfold idx. destruct (Z.ltb_spec i 0); [done |].
  by rewrite lookup_app_l by (unfold zlen in Hi; lia).
Qed.

Lemma slice_app_l {A} (b q : list A) i j : 0 <= i -> j <= zlen b -> slice (b ++ q) i j = slice b i j.
Proof.
  intros Hi Hj. unfold slice. rewrite zlen_app. pose proof (zlen_nonneg q).
  destruct (Z.leb_spec 0 i); [| lia].
  destruct (Z.leb_spec i j); [| done]. simpl.
  destruct (Z.leb_spec j (zlen b)); [| lia].
  destruct (Z.leb_spec j (zlen b + zlen q)); [| lia].
  rewrite drop_app_le by (unfold zlen in *; lia).
  by rewrite take_app_le by (rewrite length_drop; unfold zlen in *; lia).
Qed.

(** A slice that a list's parts name. *)
Lemma slice_parts {A} (a b c : list A) i j :
  zlen a = i -> i + zlen b = j -> slice (a ++ b ++ c) i j = Ok b.
Proof.
  intros Hi Hj. pose proof (zlen_nonneg a). pose proof (zlen_nonneg b). pose proof (zlen_nonneg c).
  rewrite slice_Ok by (rewrite ?zlen_app; lia). f_equal.
  rewrite drop_app_length' by (unfold zlen in *; lia). rewrite take_app_length' by (unfold zlen in *; lia). done.
Qed.

Lemma slice_from_parts {A} (a b : list A) i : zlen a = i -> slice_from (a ++ b) i = Ok b.
Proof.
  intros Hi. pose proof (zlen_nonneg a). pose proof (zlen_nonneg b).
  rewrite slice_from_Ok by (rewrite zlen_app; lia). f_equal. apply drop_app_length'. unfold zlen in *. lia.
Qed.

Lemma Forall_filter_list {A} (P Q : A -> Prop) `{!forall x, Decision (Q x)} (l : list A) :
  Forall P l -> Forall P (filter Q l).
Proof.
  intros Hl. apply list.Forall_forall. intros x Hx.
  apply list_elem_of_filter in Hx as [_ Hx]. by eapply list.Forall_forall in Hl.
Qed.

(** ** Bytes and bit fields *)

Create HintDb go.

Lemma bytes_ok_nil : bytes_ok [].
Proof. constructor. Qed.

Lemma bytes_ok_app b c : bytes_ok b -> bytes_ok c -> bytes_ok (b ++ c).
Proof. intros. by apply Forall_app. Qed.

Lemma bytes_ok_take n b : bytes_ok b -> bytes_ok (take n b).
Proof. apply Forall_take. Qed.

Lemma bytes_ok_drop n b : bytes_ok b -> bytes_ok (drop n b).
Proof. apply Forall_drop. Qed.

Lemma bytes_ok_cons v b : byte_ok v -> bytes_ok b -> bytes_ok (v :: b).
Proof. by constructor. Qed.

#[export] Hint Resolve bytes_ok_nil bytes_ok_app bytes_ok_take bytes_ok_drop
  bytes_ok_cons : go.

Lemma bytes_ok_lookup b (n : nat) v : bytes_ok b -> b !! n = Some v -> byte_ok v.
Proof. intros Hb Hv. by apply (Forall_lookup_1 _ _ _ _ Hb Hv). Qed.

(** Equalities of bitwise expressions, bit by bit. *)
Ltac bitwise_eq :=
  apply Z.bits_inj'; let n := fresh "n" in intros n ?;
  rewrite ?Z.land_spec, ?Z.lor_spec, ?Z.lxor_spec, ?Z.ldiff_spec, ?Z.land_spec,
    ?Z.ldiff_spec, ?Z.bits_0;
  repeat match goal with |- context [Z.testbit ?x n] => destruct (Z.testbit x n) end;
  done.

Lemma land_bound x m : 0 <= m -> 0 <= Z.land x m <= m.
Proof.
  intros Hm. split; [apply Z.land_nonneg; lia |].
  assert (Z.land x m + Z.ldiff m x = m) as Hsum.
  { rewrite Z.add_nocarry_lxor, Z.lxor_lor; [| bitwise_eq | bitwise_eq]. bitwise_eq. }
  assert (0 <= Z.ldiff m x) by (apply Z.ldiff_nonneg; lia). lia.
Qed.

(** A mask of [k] ones is a remainder. *)
Lemma land_mask x k : 0 <= k -> Z.land x (Z.pred (2 ^ k)) = x mod 2 ^ k.
Proof. intros Hk. rewrite <- Z.ones_equiv. by apply Z.land_ones. Qed.

Lemma lor_shiftl_add h l k :
  0 <= k -> 0 <= l < 2 ^ k -> Z.lor (Z.shiftl h k) l = h * 2 ^ k + l.
Proof.
  intros Hk Hl.
  assert (Z.land (Z.shiftl h k) l = 0) as Hdisj.
  { apply Z.bits_inj'. intros n Hn. rewrite Z.land_spec, Z.bits_0.
    destruct (Z.ltb_spec n k).
    - rewrite Z.shiftl_spec_low by lia. done.
    - rewrite <- (Z.mod_small l (2 ^ k)) by lia.
      rewrite Z.mod_pow2_bits_high by lia. apply andb_false_r. }
  rewrite <- Z.shiftl_mul_pow2 by done.
  rewrite <- Z.lxor_lor by done. rewrite Z.add_nocarry_lxor by done. done.
Qed.

Lemma lor_mul_add h l k :
  0 <= k -> 0 <= l < 2 ^ k -> Z.lor (h * 2 ^ k) l = h * 2 ^ k + l.
Proof.
  intros Hk Hl. pose proof (lor_shiftl_add h l k Hk Hl) as E.
  by rewrite Z.shiftl_mul_pow2 in E.
Qed.

Lemma be16_eq h l : byte_ok l -> be16 h l = h * 256 + l.
Proof. intros Hl. unfold be16. rewrite lor_shiftl_add; [done | done | exact Hl]. Qed.

Lemma be16_bound h l k : byte_ok l -> 0 <= h <= k -> 0 <= be16 h l <= k * 256 + 255.
Proof. intros Hl Hh. rewrite be16_eq by done. unfold byte_ok in Hl. lia. Qed.

Lemma wrap8_ok z : byte_ok (wrap8 z).
Proof. apply Z.mod_pos_bound. lia. Qed.

Lemma byte_land_ok v m : 0 <= m < 256 -> byte_ok (Z.land v m).
Proof. intros Hm. pose proof (land_bound v m). unfold byte_ok. lia. Qed.

Lemma byte_shiftr_ok v k : byte_ok v -> 0 <= k -> byte_ok (Z.shiftr v k).
Proof.
  unfold byte_ok. intros Hv Hk. rewrite Z.shiftr_div_pow2 by done.
  assert (0 < 2 ^ k) by lia. split; [apply Z.div_pos; lia |].
  apply Z.div_lt_upper_bound; nia.
Qed.

Lemma byte_lor_ok v w : byte_ok v -> byte_ok w -> byte_ok (Z.lor v w).
Proof.
  unfold byte_ok. intros Hv Hw. split; [apply Z.lor_nonneg; lia |].
  destruct (decide (Z.lor v w = 0)) as [-> | Hne]; [lia |].
  assert (0 <= Z.lor v w) by (apply Z.lor_nonneg; lia).
  change 256 with (2 ^ 8). apply Z.log2_lt_pow2; [lia |].
  rewrite Z.log2_lor by lia. apply Z.max_lub_lt.
  - destruct (decide (v = 0)) as [-> | ?]; [done |]. apply Z.log2_lt_pow2; lia.
  - destruct (decide (w = 0)) as [-> | ?]; [done |]. apply Z.log2_lt_pow2; lia.
Qed.

#[export] Hint Resolve wrap8_ok byte_land_ok byte_shiftr_ok byte_lor_ok : go.

Lemma byte_ok_not_neg v : byte_ok v -> 0 <= v.
Proof. unfold byte_ok. lia. Qed.

(** ** Reasoning about a body that must not panic *)

Lemma returns_idx b i (Q : Z -> Prop) :
  bytes_ok b -> 0 <= i < zlen b ->
  (forall v, byte_ok v -> b !! Z.to_nat i = Some v -> Q v) ->
  returns (idx b i) Q.
Proof.
  intros Hb Hi HQ. destruct (idx_in_range b i Hi) as (v & Hv & ->).
  apply HQ; [by eapply bytes_ok_lookup | done].
Qed.

Lemma returns_slice b i j (Q : list Z -> Prop) :
  bytes_ok b -> 0 <= i <= j -> j <= zlen b ->
  (forall s, bytes_ok s -> zlen s = j - i ->
     s = take (Z.to_nat (j - i)) (drop (Z.to_nat i) b) -> Q s) ->
  returns (slice b i j) Q.
Proof.
  intros Hb Hi Hj HQ. rewrite slice_Ok by done. apply HQ; [eauto with go | | done].
  rewrite zlen_take, zlen_drop. lia.
Qed.

Lemma returns_slice_from b i (Q : list Z -> Prop) :
  bytes_ok b -> 0 <= i <= zlen b ->
  (forall s, bytes_ok s -> zlen s = zlen b - i -> s = drop (Z.to_nat i) b -> Q s) ->
  returns (slice_from b i) Q.
Proof.
  intros Hb Hi HQ. rewrite slice_from_Ok by done. apply HQ; [eauto with go | | done].
  rewrite zlen_drop. lia.
Qed.

Lemma returns_uint16 b (Q : Z -> Prop) :
  bytes_ok b -> 2 <= zlen b ->
  (forall v, 0 <= v < 2 ^ 16 -> Q v) -> returns (uint16 b) Q.
Proof.
  intros Hb Hl HQ. unfold uint16.
  apply returns_bind, returns_idx; [done | lia |]. intros l Hlo _.
  apply returns_bind, returns_idx; [done | lia |]. intros h Hhi _.
  apply HQ. pose proof (be16_bound h l 255 Hlo). unfold byte_ok in *. lia.
Qed.

Lemma be32_bound b0 b1 b2 b3 :
  byte_ok b0 -> byte_ok b1 -> byte_ok b2 -> byte_ok b3 ->
  0 <= be16 (be16 (be16 b0 b1) b2) b3 < 2 ^ 32.
Proof. intros. rewrite !be16_eq by done. unfold byte_ok in *. lia. Qed.

Lemma returns_uint32 b (Q : Z -> Prop) :
  bytes_ok b -> 4 <= zlen b ->
  (forall v, 0 <= v < 2 ^ 32 -> Q v) -> returns (uint32 b) Q.
Proof.
  intros Hb Hl HQ. unfold uint32.
  do 4 (apply returns_bind, returns_idx; [done | lia |]; intros ? ? _).
  apply HQ, be32_bound; done.
Qed.

(** Bounds of the bit fields a goal or a hypothesis mentions, for [lia]. *)
Ltac pose_bits :=
  repeat match goal with
  | H : byte_ok ?v |- _ =>
      lazymatch goal with
      | _ : 0 <= v < 256 |- _ => fail
      | _ => pose proof (H : 0 <= v < 256)
      end
  | |- context [Z.land ?x ?m] =>
      lazymatch goal with
      | _ : 0 <= Z.land x m <= m |- _ => fail
      | _ => pose proof (land_bound x m ltac:(lia))
      end
  | _ : context [Z.land ?x ?m] |- _ =>
      lazymatch goal with
      | _ : 0 <= Z.land x m <= m |- _ => fail
      | _ => pose proof (land_bound x m ltac:(lia))
      end
  | |- context [be16 ?h ?l] =>
      lazymatch goal with
      | _ : be16 h l = h * 256 + l |- _ => fail
      | _ => pose proof (be16_eq h l ltac:(assumption || (unfold byte_ok; lia)))
      end
  | _ : context [be16 ?h ?l] |- _ =>
      lazymatch goal with
      | _ : be16 h l = h * 256 + l |- _ => fail
      | _ => pose proof (be16_eq h l ltac:(assumption || (unfold byte_ok; lia)))
      end
  end.

Ltac blia := pose_bits; unfold byte_ok in *; lia.

(** One step through a body whose result is described by [returns]. *)
Ltac go_step :=
  lazymatch goal with
  | |- returns (rbind _ _) _ => apply returns_bind
  | |- returns (Ok _) _ => apply returns_Ok
  | |- returns (idx _ _) _ => apply returns_idx; [by eauto with go | blia | intros ? ? ?]
  | |- returns (slice_from _ _) _ =>
      apply returns_slice_from; [by eauto with go | blia | intros ? ? ? ?]
  | |- returns (slice _ _ _) _ =>
      apply returns_slice; [by eauto with go | blia | blia | intros ? ? ? ?]
  | |- returns (uint16 _) _ => apply returns_uint16; [by eauto with go | blia | intros ? ?]
  | |- returns (uint32 _) _ => apply returns_uint32; [by eauto with go | blia | intros ? ?]
  | |- returns (if ?c then _ else _) _ => destruct c eqn:?
  end.
Ltac go_steps := repeat (go_step; cbv beta).

(** ** [bytes.Index], [bytes.HasPrefix] and friends *)

Fixpoint has_prefix (pat b : list Z) : bool :=
  match pat, b with
  | [], _ => true
  | p :: pat, v :: b => (p =? v) && has_prefix pat b
  | _ :: _, [] => false
  end%bool.

Fixpoint find_sub (pat b : list Z) : option nat :=
  if has_prefix pat b then Some O
  else match b with
       | [] => None
       | _ :: b => S <$> find_sub pat b
       end.

(** [bytes.Index(b, pat)] *)
Definition bytes_index (b pat : list Z) : Z :=
  match find_sub pat b with Some i => Z.of_nat i | None => -1 end.

Definition bytes_equal (a b : list Z) : bool := bool_decide (a = b).

Lemma has_prefix_spec pat b : has_prefix pat b = true <-> exists r, b = pat ++ r.
Proof.
  revert b. induction pat as [| p pat IH]; intros b; simpl.
  { split; [by exists b | done]. }
  destruct b as [| v b].
  { split; [done |]. by intros [r Hr]. }
  rewrite andb_true_iff, IH. split.
  - intros [Hp [r ->]]. exists r. assert (p = v) as -> by lia. done.
  - intros [r Hr]. injection Hr as -> ->. split; [lia | by exists r].
Qed.

Lemma find_sub_Some pat b i :
  find_sub pat b = Some i ->
  exists r, drop i b = pat ++ r /\ (i + length pat <= length b)%nat.
Proof.
  revert i. induction b as [| v b IH]; intros i; simpl.
  - destruct (has_prefix pat []) eqn:E; [| done]. intros [= <-].
    apply has_prefix_spec in E as [r Hr]. exists r.
    split; [done |]. apply (f_equal length) in Hr. rewrite length_app in Hr. simpl in *. lia.
  - destruct (has_prefix pat (v :: b)) eqn:E.
    + intros [= <-]. apply has_prefix_spec in E as [r Hr]. exists r.
      split; [done |]. apply (f_equal length) in Hr. rewrite length_app in Hr. simpl in *. lia.
    + destruct (find_sub pat b) as [j|]; [| done]. intros [= <-].
      destruct (IH j eq_refl) as (r & Hr & Hl). exists r. simpl. split; [done | lia].
Qed.

Lemma find_sub_None pat b i : find_sub pat b = None -> has_prefix pat (drop i b) = false.
Proof.
  revert i. induction b as [| v b IH]; intros i; simpl.
  - destruct (has_prefix pat []) eqn:E; [done |]. by rewrite drop_nil.
  - destruct (has_prefix pat (v :: b)) eqn:E; [done |].
    destruct (find_sub pat b) as [j|]; [done |]. intros _.
    destruct i as [| i]; simpl; [done | by apply IH].
Qed.

Lemma bytes_index_cases b pat :
  (bytes_index b pat = -1 /\ find_sub pat b = None) \/
  (exists i, bytes_index b pat = Z.of_nat i /\ find_sub pat b = Some i /\
     Z.of_nat i + zlen pat <= zlen b).
Proof.
  unfold bytes_index. destruct (find_sub pat b) as [i|] eqn:E; [right | by left].
  exists i. split; [done |]. split; [done |].
  apply find_sub_Some in E as (r & _ & Hl). unfold zlen. lia.
Qed.

(** ** Results mapped by a function, and loops over a counter *)

Definition res_map {A B} (f : A -> B) (m : res A) : res B := rbind m (fun a => Ok (f a)).

Lemma rbind_assoc {A B C} (m : res A) (f : A -> res B) (g : B -> res C) :
  rbind (rbind m f) g = rbind m (fun a => rbind (f a) g).
Proof. by destruct m. Qed.

Lemma bytes_ok_dec b : forallb (fun v => (0 <=? v) && (v <? 256))%bool b = true -> bytes_ok b.
Proof.
  intros H. rewrite forallb_forall in H. apply list.Forall_forall. intros v Hv.
  apply list_elem_of_In in Hv. apply H in Hv. unfold byte_ok. lia.
Qed.

(** Concrete byte strings are well formed by computation. *)
Ltac bytes_dec := apply bytes_ok_dec; vm_compute; reflexivity.

(** Arithmetic with quotients and remainders by constants. *)
Ltac dlia := Z.to_euclidean_division_equations; lia.

(** ** Literals *)

(** An ASCII literal, as code points (or bytes). *)
Fixpoint lit (s : string) : list Z :=
  match s with
  | EmptyString => []
  | String.String a s => Z.of_N (N_of_ascii a) :: lit s
  end.
