(* ===== verification/GoNum.v ===== *)
(** Numbers as [fmt] and [strconv] write them in decimal, and what reads them
    back. Text is a list of code points. *)
From S2P Require Import Prelude.
Local Open Scope Z_scope.

(** [%d] of a number that is not negative: at most [n] digits. *)
Fixpoint digits (n : nat) (v : Z) (acc : list Z) : list Z :=
  match n with
  | O => acc
  | S n => let acc := (48 + v mod 10) :: acc in if v <? 10 then acc else digits n (v / 10) acc
  end.
Definition dec (v : Z) : list Z := digits 20 v [].

(** [%0wd] *)
Definition padded (w : nat) (v : Z) : list Z :=
  let d := dec v in replicate (w - length d) 48 ++ d.

(** [%0wd] reads back. *)
Definition undec (l : list Z) : Z := fold_left (fun v c => 10 * v + (c - 48)) l 0.

Lemma fold_undec_app l r v :
  fold_left (fun v c => 10 * v + (c - 48)) (l ++ r) v =
  fold_left (fun v c => 10 * v + (c - 48)) r (fold_left (fun v c => 10 * v + (c - 48)) l v).
Proof. apply fold_left_app. Qed.

Lemma undec_zeros n l : undec (replicate n 48 ++ l) = undec l.
Proof. unfold undec. induction n as [| n IH]; [done | exact IH]. Qed.

Lemma undec_digits n v acc a :
  0 <= v < 10 ^ Z.of_nat n ->
  fold_left (fun v c => 10 * v + (c - 48)) (digits n v acc) a =
  fold_left (fun v c => 10 * v + (c - 48)) acc (a * 10 ^ zlen (digits n v []) + v).
Proof.
  assert (forall n v acc, digits n v acc = digits n v [] ++ acc) as Happ.
  { clear. induction n as [| n IH]; intros v acc; [done |]. simpl.
    destruct (v <? 10); [done |]. rewrite IH, (IH _ [_]), <- app_assoc. done. }
  revert v acc a. induction n as [| n IH]; intros v acc a Hv.
  - simpl. f_equal. change (zlen []) with 0. change (10 ^ Z.of_nat 0) with 1 in Hv. lia.
  - cbn [digits]. pose proof (Z.mod_pos_bound v 10 ltac:(lia)) as Hm.
    pose proof (Z.div_mod v 10 ltac:(lia)) as Hd.
    destruct (Z.ltb_spec v 10).
    + cbn [fold_left]. f_equal. change (zlen [48 + v mod 10]) with 1.
      rewrite Z.mod_small by lia. lia.
    + rewrite (Happ _ _ [_]), zlen_app. change (zlen [48 + v mod 10]) with 1.
      rewrite IH.
      * cbn [fold_left]. f_equal. rewrite Z.pow_add_r by (try lia; apply zlen_nonneg). lia.
      * split; [apply Z.div_pos; lia |]. apply Z.div_lt_upper_bound; [lia |].
        rewrite Nat2Z.inj_succ, Z.pow_succ_r in Hv by lia. lia.
Qed.

Lemma undec_padded w v : 0 <= v < 10 ^ 20 -> undec (padded w v) = v.
Proof.
  intros Hv. unfold padded. rewrite undec_zeros. unfold undec, dec.
  rewrite undec_digits by exact Hv. simpl. lia.
Qed.

