(* ===== verification/TsHealth.v ===== *)
(** Damage counting on a transport stream, [server/internal/tshealth/counter.go].

    [Counter] keeps the bytes not yet read as packets, the sync state and one
    [pidStat] per PID.  [write] appends bytes and runs [drain]; [summary] folds
    the per-PID statistics in some iteration order of the Go map. *)
From S2P Require Import Prelude.
Local Open Scope Z_scope.
Local Open Scope go_scope.

(** ** Data *)

Definition gapTicks : Z := 2 * 90000.
Definition maxGapTicks : Z := 10 * 60 * 90000.
Definition PacketSize : Z := 188.
Definition syncByte : Z := 0x47.
Definition nullPID : Z := 0x1FFF.

(** [LostSeconds] is kept in clock ticks; the code divides it by 90000. *)
Record Summary : Type := mkSummary {
  ContinuityErrors : Z;
  TransportErrors : Z;
  SyncLosses : Z;
  Packets : Z;
  WorstPID : Z;
  WorstContinuity : Z;
  WorstTransport : Z;
  Gaps : Z;
  LostTicks : Z }.

Record pidStat : Type := mkPidStat {
  packets : Z;
  ccErr : Z;
  tei : Z;
  have : bool;
  cc : Z;
  dup : bool;
  pcrs : Z;
  pcr : Z;
  gaps : Z;
  lost : Z;
  lostAt : Z }.

Definition newPidStat : pidStat := mkPidStat 0 0 0 false 0 false 0 0 0 0 0.

Record Counter : Type := mkCounter {
  buf : list Z;
  synced : bool;
  notedLoss : bool;
  syncLoss : Z;
  pids : gmap Z pidStat;
  ccErrs : Z }.

Definition newCounter : Counter := mkCounter [] false false 0 ∅ 0.

Definition set_buf (c : Counter) (b : list Z) : Counter :=
  mkCounter b (synced c) (notedLoss c) (syncLoss c) (pids c) (ccErrs c).
Definition set_counts (c : Counter) (ps : gmap Z pidStat) (e : Z) : Counter :=
  mkCounter (buf c) (synced c) (notedLoss c) (syncLoss c) ps e.
Definition set_sync (c : Counter) (s n : bool) (l : Z) : Counter :=
  mkCounter (buf c) s n l (pids c) (ccErrs c).

Definition set_cont (st : pidStat) (e : Z) (h : bool) (k : Z) (d : bool) : pidStat :=
  mkPidStat (packets st) e (tei st) h k d (pcrs st) (pcr st) (gaps st) (lost st) (lostAt st).
Definition set_clock (st : pidStat) (p g l at_ : Z) : pidStat :=
  mkPidStat (packets st) (ccErr st) (tei st) (have st) (cc st) (dup st)
    (pcrs st + 1) p g l at_.

(** ** One packet *)

(** The 33-bit PCR base in [pkt[6:11]]. *)
Definition pcr_base (b : list Z) : res Z :=
  let! b0 := idx b 0 in let! b1 := idx b 1 in let! b2 := idx b 2 in
  let! b3 := idx b 3 in let! b4 := idx b 4 in
  Ok (Z.lor (Z.lor (Z.lor (Z.lor (Z.shiftl b0 25) (Z.shiftl b1 17)) (Z.shiftl b2 9))
    (Z.shiftl b3 1)) (Z.shiftr b4 7)).

Definition clock (errs : Z) (st : pidStat) (b : list Z) (disc : bool) : res pidStat :=
  let! now := pcr_base b in
  let ahead := Z.land (wrap64 (now - pcr st)) (2 ^ 33 - 1) in
  if ((0 <? pcrs st) && negb disc && (lostAt st <? errs)
      && (gapTicks <? ahead) && (ahead <=? maxGapTicks))%bool
  then Ok (set_clock st now (gaps st + 1) (wrap64 (lost st + ahead)) errs)
  else Ok (set_clock st now (gaps st) (lost st) errs).

(** The continuity part of [packet]: the new statistics and whether an error
    was counted. *)
Definition continuity (st : pidStat) (payload disc : bool) (k : Z) : pidStat * bool :=
  if negb payload then
    ((if disc then set_cont st (ccErr st) false (cc st) false else st), false)
  else if (disc || negb (have st))%bool then
    (set_cont st (ccErr st) true k false, false)
  else if k =? cc st then
    if dup st
    then (set_cont st (ccErr st + 1) (have st) (cc st) (dup st), true)
    else (set_cont st (ccErr st) (have st) (cc st) true, false)
  else if negb (k =? Z.land (cc st + 1) 0x0f)
    then (set_cont st (ccErr st + 1) (have st) k false, true)
    else (set_cont st (ccErr st) (have st) k false, false).

Definition pkt_pid (b1 b2 : Z) : Z := be16 (Z.land b1 0x1f) b2.

(** The adaptation field of [packet]: the discontinuity flag, and the clock. *)
Definition adaptation (errs : Z) (st : pidStat) (afc : Z) (damaged : bool) (pkt : list Z)
    : res (pidStat * bool) :=
  if Z.land afc 2 =? 2 then
    let! b4 := idx pkt 4 in
    if 0 <? b4 then
      let! b5 := idx pkt 5 in
      let disc := negb (Z.land b5 0x80 =? 0) in
      if ((7 <=? b4) && negb (Z.land b5 0x10 =? 0) && negb damaged)%bool then
        let! f := slice pkt 6 11 in
        let! st := clock errs st f disc in
        Ok (st, disc)
      else Ok (st, disc)
    else Ok (st, false)
  else Ok (st, false).

(** [packet] without the receiver: the PID table and the error total. *)
Definition count_packet (ps : gmap Z pidStat) (errs : Z) (pkt : list Z)
    : res (gmap Z pidStat * Z) :=
  let! b1 := idx pkt 1 in let! b2 := idx pkt 2 in
  let pid := pkt_pid b1 b2 in
  let st := default newPidStat (ps !! pid) in
  let damaged := negb (Z.land b1 0x80 =? 0) in
  let st := mkPidStat (packets st + 1) (ccErr st) (tei st + (if damaged then 1 else 0))
    (have st) (cc st) (dup st) (pcrs st) (pcr st) (gaps st) (lost st) (lostAt st) in
  if pid =? nullPID then Ok (<[pid := st]> ps, errs) else
  let! b3 := idx pkt 3 in
  let afc := Z.land (Z.shiftr b3 4) 0x3 in
  let payload := Z.land afc 1 =? 1 in
  let! '(st, disc) := adaptation errs st afc damaged pkt in
  let '(st, err) := continuity st payload disc (Z.land b3 0x0f) in
  Ok (<[pid := st]> ps, errs + (if err : bool then 1 else 0)).

Definition packet (c : Counter) (pkt : list Z) : res Counter :=
  let! '(ps, errs) := count_packet (pids c) (ccErrs c) pkt in
  Ok (set_counts c ps errs).

(** ** Sync *)

Definition is_sync (b : list Z) (i : nat) : bool :=
  match b !! i with Some v => v =? syncByte | None => false end.

(** Three sync bytes 188 apart at the front of [b]. *)
Definition locked_at (b : list Z) : bool :=
  (is_sync b 0 && is_sync b 188 && is_sync b 376)%bool.

(** The first of the first [limit] offsets where a lock starts. *)
Fixpoint find_lock (limit : nat) (b : list Z) : option nat :=
  match limit with
  | O => None
  | S n => if locked_at b then Some O else S <$> find_lock n (drop 1 b)
  end.

Definition acquire (c : Counter) : bool * Counter :=
  let tail := PacketSize * 2 in
  if zlen (buf c) <? tail + 1 then (false, c) else
  let limit := Z.to_nat (zlen (buf c) - tail) in
  match find_lock limit (buf c) with
  | Some i =>
      let l := if ((0 <? i)%nat && negb (notedLoss c))%bool
               then syncLoss c + 1 else syncLoss c in
      (true, set_sync (set_buf c (drop i (buf c))) true false l)
  | None => (false, set_buf c (drop limit (buf c)))
  end.

(** One iteration of [drain]'s loop: [Some c'] to go round again with [c'],
    and [None] with the state the loop leaves behind. *)
Definition drain_step (c : Counter) : res (Counter + Counter) :=
  let '(ok, c) := if synced c then (true, c) else acquire c in
  if negb ok then Ok (inr c) else
  if zlen (buf c) <? PacketSize then Ok (inr c) else
  let! b0 := idx (buf c) 0 in
  if negb (b0 =? syncByte) then
    let l := if notedLoss c then syncLoss c else syncLoss c + 1 in
    Ok (inl (set_sync c false true l))
  else
    let! pkt := slice (buf c) 0 PacketSize in
    let! c := packet c pkt in
    let! rest := slice_from (buf c) PacketSize in
    Ok (inl (set_sync (set_buf c rest) (synced c) false (syncLoss c))).

Fixpoint drain (fuel : nat) (c : Counter) : res Counter :=
  match fuel with
  | O => NoFuel
  | S n =>
      let! r := drain_step c in
      match r with inl c' => drain n c' | inr c' => Ok c' end
  end.

(** An iteration either uses up a packet or gives up a lock it then has to
    find again further on, so twice the bytes and two are enough. *)
Definition drain_fuel (c : Counter) : nat := 2 * length (buf c) + 2.

Definition write (c : Counter) (p : list Z) : res Counter :=
  if zlen p =? 0 then Ok c else
  let c := set_buf c (buf c ++ p) in
  drain (drain_fuel c) c.

(** ** Summary *)

Definition worse (pid : Z) (st : pidStat) (s : Summary) : bool :=
  if ((WorstContinuity s =? 0) && (WorstTransport s =? 0))%bool then true
  else if negb (ccErr st =? WorstContinuity s) then WorstContinuity s <? ccErr st
  else if negb (tei st =? WorstTransport s) then WorstTransport s <? tei st
  else pid <? WorstPID s.

(** One iteration of the loop over the PID table, with the loop's [clock] and
    [clockPID] beside the summary. *)
Definition sum_step (a : Summary * Z * Z) (e : Z * pidStat) : Summary * Z * Z :=
  let '(s, clk, clkPID) := a in
  let '(pid, st) := e in
  let '(g, l, clk, clkPID) :=
    if ((clk <? pcrs st) || ((pcrs st =? clk) && (0 <? pcrs st) && (pid <? clkPID)))%bool
    then (gaps st, lost st, pcrs st, pid)
    else (Gaps s, LostTicks s, clk, clkPID) in
  let s := mkSummary (ContinuityErrors s + ccErr st) (TransportErrors s + tei st)
    (SyncLosses s) (Packets s + packets st)
    (WorstPID s) (WorstContinuity s) (WorstTransport s) g l in
  if ((ccErr st =? 0) && (tei st =? 0))%bool then (s, clk, clkPID) else
  if worse pid st s then
    (mkSummary (ContinuityErrors s) (TransportErrors s) (SyncLosses s) (Packets s)
       pid (ccErr st) (tei st) (Gaps s) (LostTicks s), clk, clkPID)
  else (s, clk, clkPID).

(** [Summary] when the map is visited in the order of [order]. *)
Definition summary_in (order : list (Z * pidStat)) (c : Counter) : Summary :=
  fst (fst (fold_left sum_step order (mkSummary 0 0 (syncLoss c) 0 0 0 0 0 0, 0, 0))).

Definition summary (c : Counter) : Summary := summary_in (map_to_list (pids c)) c.

(** ** Totality and the invariant of the statistics *)

(** What every [pidStat] satisfies.  [lost] is a [uint64]; the last clause is
    for streams of at most 2^38 packets of one PID (1.6 PB). *)
Definition stat_ok (st : pidStat) : Prop :=
  (0 <= tei st <= packets st /\ 0 <= ccErr st <= packets st /\ 0 <= cc st < 16) /\
  (0 <= gaps st <= pcrs st /\ pcrs st <= packets st /\ 0 <= pcr st < 2 ^ 33 /\ 0 <= lostAt st) /\
  (packets st <= 2 ^ 38 -> gapTicks * gaps st <= lost st <= maxGapTicks * gaps st).

Definition total_cc (ps : gmap Z pidStat) : Z :=
  map_fold (fun _ st a => ccErr st + a) 0 ps.

Record counter_ok (c : Counter) : Prop := {
  ok_buf : bytes_ok (buf c);
  ok_stats : map_Forall (fun _ st => stat_ok st) (pids c);
  ok_errs : ccErrs c = total_cc (pids c) }.

Implicit Types (ps : gmap Z pidStat) (c : Counter) (st : pidStat).

Ltac stat_simpl :=
  cbn [packets ccErr tei have cc dup pcrs pcr gaps lost lostAt set_cont set_clock
       newPidStat fst snd] in *.

Lemma newPidStat_ok : stat_ok newPidStat.
Proof. unfold stat_ok, gapTicks, maxGapTicks; stat_simpl. lia. Qed.

Lemma total_cc_insert_new ps k st :
  ps !! k = None -> total_cc (<[k := st]> ps) = ccErr st + total_cc ps.
Proof.
  intros Hk. unfold total_cc.
  rewrite (map_fold_insert_L (fun _ st a => ccErr st + a)); [done | intros; lia | done].
Qed.

Lemma total_cc_insert ps k st :
  total_cc (<[k := st]> ps) = total_cc ps + ccErr st - ccErr (default newPidStat (ps !! k)).
Proof.
  destruct (ps !! k) as [old|] eqn:E; simpl.
  - rewrite <- (insert_delete_id ps k old E) at 2.
    rewrite <- (insert_delete_eq ps k st).
    rewrite !total_cc_insert_new by apply lookup_delete_eq. lia.
  - rewrite total_cc_insert_new by done. lia.
Qed.

Lemma total_cc_nonneg ps : map_Forall (fun _ st => stat_ok st) ps -> 0 <= total_cc ps.
Proof.
  induction ps as [| k st ps Hk IH] using map_ind; [done |].
  intros Hall. rewrite total_cc_insert_new by done.
  apply map_Forall_insert in Hall as [Hst Hps]; [| done].
  specialize (IH Hps). unfold stat_ok in Hst. lia.
Qed.

Lemma default_stat_ok ps k :
  map_Forall (fun _ st => stat_ok st) ps -> stat_ok (default newPidStat (ps !! k)).
Proof.
  intros Hall. destruct (ps !! k) eqn:E; simpl; [by eapply Hall | apply newPidStat_ok].
Qed.

Lemma pcr_base_returns b :
  bytes_ok b -> zlen b = 5 -> returns (pcr_base b) (fun v => 0 <= v < 2 ^ 33).
Proof.
  intros Hb Hl. unfold pcr_base. go_steps. pose_bits.
  assert (0 <= Z.shiftr v3 7 < 2 ^ 1).
  { rewrite Z.shiftr_div_pow2 by lia. change (2 ^ 7) with 128.
    split; [apply Z.div_pos; lia | apply Z.div_lt_upper_bound; lia]. }
  rewrite !Z.shiftl_mul_pow2 by lia.
  rewrite <- !Z.lor_assoc.
  rewrite (lor_mul_add v2) by lia. rewrite (lor_mul_add v1 _ 9) by lia.
  rewrite (lor_mul_add v0 _ 17) by lia. rewrite lor_mul_add by lia. lia.
Qed.

Lemma set_clock_counts st p g l a :
  packets (set_clock st p g l a) = packets st /\ ccErr (set_clock st p g l a) = ccErr st.
Proof. done. Qed.

(** A statistic between the packet count and the continuity part: one more
    packet than clock readings. *)
Definition stat_pre (st : pidStat) : Prop :=
  stat_ok st /\ ccErr st + 1 <= packets st.

Lemma clock_returns errs st b disc :
  stat_pre st -> pcrs st + 1 <= packets st -> 0 <= errs -> bytes_ok b -> zlen b = 5 ->
  returns (clock errs st b disc) (fun st' => stat_pre st' /\ ccErr st' = ccErr st).
Proof.
  intros [Hok Hcc] Hp He Hb Hl. unfold clock. apply returns_bind.
  eapply returns_mono; [by apply pcr_base_returns |]. intros now Hnow. cbv beta zeta.
  unfold stat_pre, stat_ok, gapTicks, maxGapTicks, wrap64 in *.
  case_match eqn:E; apply returns_Ok; stat_simpl; [| lia].
  apply andb_true_iff in E as [E Ele]. apply andb_true_iff in E as [_ Egt].
  split; [| done]. split; [| lia]. split; [lia | split; [lia |]].
  intros Hbig. destruct Hok as (_ & Hg & Hlost). specialize (Hlost ltac:(lia)).
  rewrite Z.mod_small; nia.
Qed.

Lemma continuity_ok st payload disc k :
  stat_pre st -> 0 <= k < 16 ->
  let r := continuity st payload disc k in
  stat_ok (fst r) /\ ccErr (fst r) = ccErr st + (if snd r then 1 else 0).
Proof.
  unfold stat_pre, stat_ok, continuity. intros Hst Hk.
  repeat case_match; stat_simpl; lia.
Qed.

Lemma count_packet_returns ps errs pkt :
  bytes_ok pkt -> zlen pkt = PacketSize ->
  map_Forall (fun _ st => stat_ok st) ps -> errs = total_cc ps ->
  returns (count_packet ps errs pkt) (fun r =>
    map_Forall (fun _ st => stat_ok st) (fst r) /\ snd r = total_cc (fst r)).
Proof.
  unfold PacketSize. intros Hb Hl Hps He. unfold count_packet.
  apply returns_bind, returns_idx; [done | lia |]. intros b1 Hb1 _.
  apply returns_bind, returns_idx; [done | lia |]. intros b2 Hb2 _. cbv zeta.
  set (pid := pkt_pid b1 b2). set (old := default newPidStat (ps !! pid)).
  pose proof (default_stat_ok ps pid Hps) as Hold. fold old in Hold.
  set (st0 := mkPidStat (packets old + 1) _ _ _ _ _ _ _ _ _ _).
  assert (stat_pre st0 /\ pcrs st0 + 1 <= packets st0 /\ ccErr st0 = ccErr old) as (Hst0 & Hpc & Hcc0).
  { unfold stat_pre, stat_ok in *. subst st0; stat_simpl. case_match; lia. }
  clearbody st0.
  case_match.
  { apply returns_Ok; simpl. split.
    - apply map_Forall_insert_2; [by destruct Hst0 | done].
    - rewrite total_cc_insert. fold old. lia. }
  apply returns_bind, returns_idx; [done | lia |]. intros b3 Hb3 _. cbv zeta.
  apply returns_bind.
  apply returns_mono with (P := fun r => stat_pre (fst r) /\ ccErr (fst r) = ccErr old).
  { assert (forall d : bool, returns (Ok (st0, d)) (fun r => stat_pre (fst r) /\ ccErr (fst r) = ccErr old))
      as Hdone by (intros; apply returns_Ok; simpl; auto).
    unfold adaptation. case_match; [| apply Hdone].
    apply returns_bind, returns_idx; [done | lia |]. intros b4 Hb4 _.
    case_match; [| apply Hdone].
    apply returns_bind, returns_idx; [done | lia |]. intros b5 Hb5 _. cbv zeta.
    case_match; [| apply Hdone].
    apply returns_bind, returns_slice; [done | lia | lia |]. intros f Hf Hfl _.
    apply returns_bind. eapply returns_mono.
    { apply clock_returns; [done | done | | done | lia].
      rewrite He. by apply total_cc_nonneg. }
    intros st' [Hst' Hcc']. apply returns_Ok; simpl. split; [done | congruence]. }
  intros [st disc] [Hst Hcc]. simpl in Hst, Hcc.
  assert (0 <= Z.land b3 0x0f < 16) as Hk by (pose proof (land_bound b3 0x0f); lia).
  pose proof (continuity_ok st (Z.land (Z.land (Z.shiftr b3 4) 3) 1 =? 1) disc _ Hst Hk) as Hc.
  destruct (continuity _ _ _ _) as [st' err]; simpl in Hc. destruct Hc as [Hok' Hcc'].
  apply returns_Ok; simpl. split.
  - by apply map_Forall_insert_2.
  - rewrite total_cc_insert. fold old. lia.
Qed.

(** ** The loop of [drain] *)

Lemma find_lock_Some n b i :
  find_lock n b = Some i -> (i < n)%nat /\ locked_at (drop i b) = true.
Proof.
  revert b i. induction n as [| n IH]; intros b i; [done |]. simpl.
  destruct (locked_at b) eqn:E.
  - intros [= <-]. split; [lia | done].
  - destruct (find_lock n (drop 1 b)) as [j|] eqn:F; [| done].
    intros [= <-]. apply IH in F as [Hj HL]. split; [lia |].
    by rewrite drop_drop in HL.
Qed.

Lemma is_sync_lt b i : is_sync b i = true -> (i < length b)%nat.
Proof.
  unfold is_sync. destruct (b !! i) eqn:E; [| done]. intros _.
  by eapply lookup_lt_Some.
Qed.

Lemma locked_at_length b : locked_at b = true -> (377 <= length b)%nat.
Proof.
  unfold locked_at. intros H. apply andb_true_iff in H as [_ H].
  apply is_sync_lt in H. lia.
Qed.

Lemma locked_at_head b :
  locked_at b = true -> b !! 0%nat = Some syncByte.
Proof.
  unfold locked_at, is_sync. intros H.
  apply andb_true_iff in H as [H _]. apply andb_true_iff in H as [H _].
  destruct (b !! 0%nat); [| done]. f_equal. lia.
Qed.

Lemma locked_at_app b q : (377 <= length b)%nat -> locked_at (b ++ q) = locked_at b.
Proof.
  intros Hl. unfold locked_at, is_sync. rewrite !lookup_app_l by lia. done.
Qed.

Lemma find_lock_app n m b q i :
  (n + 376 <= length b)%nat -> find_lock n b = Some i ->
  find_lock (n + m) (b ++ q) = Some i.
Proof.
  revert b i. induction n as [| n IH]; intros b i Hl; [done |]. simpl.
  rewrite locked_at_app by lia.
  destruct (locked_at b); [done |].
  destruct (find_lock n (drop 1 b)) as [j|] eqn:F; [| done].
  intros [= <-]. rewrite drop_app_le by lia.
  erewrite IH; [done | | done]. rewrite length_drop. lia.
Qed.

Lemma find_lock_skip n m b q :
  (n + 376 <= length b)%nat -> find_lock n b = None ->
  find_lock (n + m) (b ++ q) = (Nat.add n) <$> find_lock m (drop n b ++ q).
Proof.
  revert b. induction n as [| n IH]; intros b Hl; simpl.
  { intros _. rewrite drop_0. by destruct (find_lock m (b ++ q)). }
  rewrite locked_at_app by lia.
  destruct (locked_at b); [done |].
  destruct (find_lock n (drop 1 b)) as [j|] eqn:F; [done |]. intros _.
  rewrite drop_app_le by lia. rewrite (IH (drop 1 b)) by (rewrite ?length_drop; lia || done).
  rewrite drop_drop. simpl. by destruct (find_lock m (drop (S n) b ++ q)).
Qed.

Definition drain_measure (c : Counter) : nat :=
  (2 * length (buf c) + if synced c then 1 else 0)%nat.

Lemma acquire_ok c :
  counter_ok c -> synced c = false ->
  let '(ok, c') := acquire c in
  counter_ok c' /\ synced c' = ok /\ (length (buf c') <= length (buf c))%nat /\
  (ok = true -> buf c' !! 0%nat = Some syncByte /\ (377 <= length (buf c'))%nat /\
     (buf c !! 0%nat <> Some syncByte -> length (buf c') < length (buf c))%nat).
Proof.
  intros [Hb Hs He] Hsync. unfold acquire, PacketSize.
  destruct (zlen (buf c) <? 188 * 2 + 1).
  { split_and!; done || by constructor. }
  destruct (find_lock _ _) as [i|] eqn:F.
  - apply find_lock_Some in F as [Hi HL].
    split; [constructor; simpl; eauto with go |]. split; [done |].
    simpl. rewrite length_drop. split; [lia |]. intros _.
    pose proof (locked_at_length _ HL) as H377. rewrite length_drop in H377.
    pose proof (locked_at_head _ HL) as Hh.
    split; [done |]. split; [lia |].
    intros Hne. destruct i; [by rewrite drop_0 in Hh |]. lia.
  - split; [constructor; simpl; eauto with go |]. split; [done |].
    simpl. rewrite length_drop. split; [lia | done].
Qed.

Lemma packet_returns c pkt :
  counter_ok c -> bytes_ok pkt -> zlen pkt = PacketSize ->
  returns (packet c pkt) (fun c' =>
    counter_ok c' /\ buf c' = buf c /\ synced c' = synced c /\
    notedLoss c' = notedLoss c /\ syncLoss c' = syncLoss c).
Proof.
  intros [Hb Hs He] Hp Hl. unfold packet. apply returns_bind.
  eapply returns_mono; [by apply count_packet_returns |].
  intros [ps e] [Hps Hsum]. simpl in *. by split; [constructor |].
Qed.

Lemma drain_step_returns c :
  counter_ok c ->
  returns (drain_step c) (fun r =>
    match r with
    | inl c' => counter_ok c' /\ (drain_measure c' < drain_measure c)%nat
    | inr c' => counter_ok c'
    end).
Proof.
  intros Hc. unfold drain_step.
  assert (exists ok c1, (if synced c then (true, c) else acquire c) = (ok, c1) /\
    counter_ok c1 /\ (ok = true -> synced c1 = true) /\
    (drain_measure c1 <= drain_measure c + (if synced c then 0 else 1))%nat /\
    (synced c = false -> ok = true ->
       buf c1 !! 0%nat = Some syncByte /\ (377 <= length (buf c1))%nat))
    as (ok & c1 & -> & Hc1 & Hok & Hm & Hhead).
  { destruct (synced c) eqn:Hs.
    - exists true, c. split_and!; try done. lia.
    - pose proof (acquire_ok c Hc Hs) as H. destruct (acquire c) as [ok c1].
      destruct H as (H1 & H2 & H3 & H4). exists ok, c1. split_and!; try done.
      + by intros ->.
      + unfold drain_measure. rewrite Hs. destruct (synced c1); lia.
      + intros _ Ht. by destruct (H4 Ht) as (? & ? & _). }
  destruct ok; simpl; [| done]. specialize (Hok eq_refl).
  unfold PacketSize. destruct (zlen (buf c1) <? 188) eqn:Hlen; [done |].
  destruct Hc1 as [Hb1 Hs1 He1].
  apply returns_bind, returns_idx; [done | lia |]. intros b0 _ Hb0.
  destruct (negb (b0 =? syncByte)) eqn:Hsy.
  - split; [by constructor |].
    unfold drain_measure in *. simpl. rewrite Hok in Hm.
    destruct (synced c); [lia |]. exfalso.
    destruct (Hhead eq_refl eq_refl) as [Hh _].
    change (Z.to_nat 0) with 0%nat in Hb0. rewrite Hb0 in Hh. injection Hh as ->.
    by rewrite Z.eqb_refl in Hsy.
  - apply returns_bind, returns_slice; [done | lia | lia |]. intros pkt Hp Hpl _.
    apply returns_bind. eapply returns_mono; [apply packet_returns; [by constructor | done | done] |].
    intros c2 (Hc2 & Hbuf & Hsy2 & _). rewrite Hbuf.
    apply returns_bind, returns_slice_from; [done | lia |]. intros rest Hr Hrl _.
    destruct Hc2 as [_ Hs2 He2]. split; [by constructor |].
    unfold drain_measure in *. simpl. rewrite Hsy2, Hok. rewrite Hok in Hm.
    unfold zlen in *. destruct (synced c); lia.
Qed.

Lemma drain_returns fuel c :
  counter_ok c -> (drain_measure c < fuel)%nat -> returns (drain fuel c) counter_ok.
Proof.
  revert c. induction fuel as [| n IH]; intros c Hc Hm; [lia |]. simpl.
  apply returns_bind. eapply returns_mono; [by apply drain_step_returns |].
  intros [c' | c'].
  - intros [Hc' Hlt]. apply IH; [done | lia].
  - done.
Qed.

Lemma set_buf_ok c b : counter_ok c -> bytes_ok b -> counter_ok (set_buf c b).
Proof. intros [? ? ?] ?. by constructor. Qed.

Lemma newCounter_ok : counter_ok newCounter.
Proof. constructor; [constructor | apply map_Forall_empty | done]. Qed.

#[export] Hint Resolve set_buf_ok newCounter_ok : go.

Lemma write_returns c p :
  counter_ok c -> bytes_ok p -> returns (write c p) counter_ok.
Proof.
  intros Hc Hp. unfold write. case_match; [done |]. cbv zeta.
  apply drain_returns.
  - destruct Hc; by apply set_buf_ok; [constructor | eauto with go].
  - unfold drain_measure, drain_fuel. destruct (synced _); lia.
Qed.

(** ** Splitting the input into writes *)

Definition ext (c : Counter) (q : list Z) : Counter := set_buf c (buf c ++ q).

(** A counter that has locked once: a later loss is noted when it happens. *)
Definition armed (c : Counter) : bool := synced c || notedLoss c.

Lemma drain_fuel_mono n m c c' :
  drain n c = Ok c' -> (n <= m)%nat -> drain m c = Ok c'.
Proof.
  revert m c. induction n as [| n IH]; intros m c H Hle; [done |].
  destruct m as [| m]; [lia |]. simpl in *.
  destruct (drain_step c) as [[c1 | c1] | |]; simpl in *; try done.
  apply IH; [done | lia].
Qed.

Lemma drain_det n m c a b : drain n c = Ok a -> drain m c = Ok b -> a = b.
Proof.
  intros Ha Hb. apply (drain_fuel_mono _ (n + m)) in Ha; [| lia].
  apply (drain_fuel_mono _ (n + m)) in Hb; [| lia]. congruence.
Qed.

Lemma acquire_ext_true c c' q :
  acquire c = (true, c') -> acquire (ext c q) = (true, ext c' q).
Proof.
  unfold acquire, PacketSize. simpl. change (188 * 2) with 376. change (376 + 1) with 377.
  destruct (zlen (buf c) <? _) eqn:Hlt; [done |].
  destruct (find_lock _ (buf c)) as [i|] eqn:F; [| done]. intros [= <-].
  rewrite zlen_app. pose proof (zlen_nonneg q).
  replace (zlen (buf c) + zlen q <? 377) with false by lia.
  replace (Z.to_nat (zlen (buf c) + zlen q - 376))
    with (Z.to_nat (zlen (buf c) - 376) + Z.to_nat (zlen q))%nat by lia.
  apply find_lock_Some in F as HL. destruct HL as [Hi HL].
  apply locked_at_length in HL. rewrite length_drop in HL.
  rewrite (find_lock_app _ _ _ _ i); [| unfold zlen in *; lia | done].
  unfold ext, set_sync, set_buf; simpl. by rewrite drop_app_le by lia.
Qed.

Lemma acquire_ext_false c c' q :
  acquire c = (false, c') -> notedLoss c = true ->
  acquire (ext c q) = acquire (ext c' q).
Proof.
  unfold acquire at 1, PacketSize. change (188 * 2) with 376. change (376 + 1) with 377. intros H Hn.
  destruct (zlen (buf c) <? _) eqn:Hlt; [by injection H as <- |].
  destruct (find_lock _ (buf c)) as [i|] eqn:F; [done |]. injection H as <-.
  set (k := Z.to_nat (zlen (buf c) - 376)) in *.
  assert (zlen (drop k (buf c)) = 376) as Hk by (rewrite zlen_drop; unfold zlen in *; lia).
  unfold acquire, PacketSize. simpl. change (188 * 2) with 376. change (376 + 1) with 377.
  rewrite !zlen_app, Hk, Hn. pose proof (zlen_nonneg q). simpl.
  replace (zlen (buf c) + zlen q <? 377) with false by lia.
  replace (Z.to_nat (zlen (buf c) + zlen q - 376)) with (k + Z.to_nat (zlen q))%nat by lia.
  rewrite find_lock_skip; [| unfold zlen in *; lia | done].
  replace (Z.to_nat (376 + zlen q - 376)) with (Z.to_nat (zlen q)) by lia.
  assert (forall j, drop (k + j) (buf c ++ q) = drop j (drop k (buf c) ++ q)) as Hdrop.
  { intros j. rewrite <- drop_drop. by rewrite (drop_app_le _ _ k) by (unfold zlen in *; lia). }
  destruct (376 + zlen q <? 377) eqn:Hq.
  - assert (q = []) as -> by (apply zlen_0_nil; lia). simpl.
    unfold ext, set_buf; simpl. by rewrite Hdrop, drop_0.
  - destruct (find_lock (Z.to_nat (zlen q)) _) as [j|] eqn:F2; simpl.
    + unfold ext, set_sync, set_buf; simpl. by rewrite Hdrop, !andb_false_r.
    + unfold ext, set_buf; simpl. by rewrite Hdrop.
Qed.

Lemma acquire_armed c ok c' :
  acquire c = (ok, c') -> notedLoss c = true -> armed c' = true.
Proof.
  unfold acquire, armed. intros H Hn.
  destruct (zlen (buf c) <? _); [injection H as <- <-; rewrite Hn; by destruct (synced c) |].
  destruct (find_lock _ _); injection H as <- <-; simpl; [done |].
  rewrite Hn. by destruct (synced c).
Qed.

Lemma packet_ext c pkt q :
  packet (ext c q) pkt = (let! c' := packet c pkt in Ok (ext c' q)).
Proof.
  unfold packet. simpl. by destruct (count_packet _ _ _) as [[ps e] | |].
Qed.

(** What [packet] leaves alone. *)
Lemma packet_inv c pkt c' :
  packet c pkt = Ok c' ->
  buf c' = buf c /\ synced c' = synced c /\ notedLoss c' = notedLoss c /\ syncLoss c' = syncLoss c.
Proof.
  unfold packet. intros H. apply rbind_Ok_inv in H as ([ps e] & _ & [= <-]). done.
Qed.

(** The part of an iteration after the lock is held. *)
Definition drain_locked (c : Counter) : res (Counter + Counter) :=
  if zlen (buf c) <? PacketSize then Ok (inr c) else
  let! b0 := idx (buf c) 0 in
  if negb (b0 =? syncByte) then
    let l := if notedLoss c then syncLoss c else syncLoss c + 1 in
    Ok (inl (set_sync c false true l))
  else
    let! pkt := slice (buf c) 0 PacketSize in
    let! c := packet c pkt in
    let! rest := slice_from (buf c) PacketSize in
    Ok (inl (set_sync (set_buf c rest) (synced c) false (syncLoss c))).

Lemma drain_step_unfold c :
  drain_step c = (let '(ok, c) := if synced c then (true, c) else acquire c in
                  if negb ok then Ok (inr c) else drain_locked c).
Proof. done. Qed.

Lemma drain_locked_ext_inl c c' q :
  drain_locked c = Ok (inl c') -> drain_locked (ext c q) = Ok (inl (ext c' q)).
Proof.
  unfold drain_locked, PacketSize. pose proof (zlen_nonneg q). simpl.
  destruct (zlen (buf c) <? 188) eqn:Hlt; [done |].
  rewrite zlen_app. replace (zlen (buf c) + zlen q <? 188) with false by lia.
  rewrite idx_app_l by lia.
  destruct (idx (buf c) 0) as [b0 | |]; simpl; [| done | done].
  destruct (negb (b0 =? syncByte)); [by intros [= <-] |].
  rewrite slice_app_l by lia.
  destruct (slice (buf c) 0 188) as [pkt | |]; simpl; [| done | done].
  rewrite packet_ext. destruct (packet c pkt) as [c2 | |] eqn:P; simpl; [| done | done].
  apply packet_inv in P as (Hb & _). rewrite Hb.
  rewrite !slice_from_Ok by (rewrite ?zlen_app; lia). simpl. intros [= <-].
  unfold ext, set_sync, set_buf; simpl.
  by rewrite drop_app_le by (unfold zlen in *; lia).
Qed.

Lemma drain_locked_inl_armed c c' :
  synced c = true -> drain_locked c = Ok (inl c') -> armed c' = true.
Proof.
  intros Hs. unfold drain_locked. case_match; [done |]. intros H1.
  apply rbind_Ok_inv in H1 as (b0 & _ & H1).
  case_match; [by injection H1 as <- |].
  apply rbind_Ok_inv in H1 as (pkt & _ & H1).
  apply rbind_Ok_inv in H1 as (c2 & P & H1). apply packet_inv in P as (_ & Hs2 & _).
  apply rbind_Ok_inv in H1 as (rest & _ & [= <-]). unfold armed; simpl. by rewrite Hs2, Hs.
Qed.

Lemma drain_locked_inr c c' : drain_locked c = Ok (inr c') -> c' = c.
Proof.
  unfold drain_locked. case_match; [by intros [= <-] |]. intros H1.
  apply rbind_Ok_inv in H1 as (b0 & _ & H1). case_match; [done |].
  apply rbind_Ok_inv in H1 as (pkt & _ & H1).
  apply rbind_Ok_inv in H1 as (c2 & _ & H1).
  apply rbind_Ok_inv in H1 as (rest & _ & H1). done.
Qed.

Lemma acquire_synced c c' : acquire c = (true, c') -> synced c' = true.
Proof.
  unfold acquire. case_match; [done |]. case_match; [| done]. by intros [= <-].
Qed.

Lemma drain_step_inl c c' q :
  armed c = true -> drain_step c = Ok (inl c') ->
  drain_step (ext c q) = Ok (inl (ext c' q)) /\ armed c' = true.
Proof.
  rewrite !drain_step_unfold. unfold armed. intros Ha. simpl.
  destruct (synced c) eqn:Hs; simpl.
  - intros H. split; [by apply drain_locked_ext_inl | by apply (drain_locked_inl_armed c)].
  - destruct (acquire c) as [[|] c1] eqn:A; simpl; [| done].
    rewrite (acquire_ext_true _ _ _ A). simpl. intros H.
    split; [by apply drain_locked_ext_inl |].
    apply (drain_locked_inl_armed c1); [by apply (acquire_synced c) | done].
Qed.

Lemma drain_step_inr c c' q :
  armed c = true -> drain_step c = Ok (inr c') ->
  drain_step (ext c q) = drain_step (ext c' q) /\ armed c' = true.
Proof.
  rewrite !drain_step_unfold. unfold armed. intros Ha. simpl.
  destruct (synced c) eqn:Hs; simpl.
  - intros H. apply drain_locked_inr in H as ->. rewrite Hs. done.
  - simpl in Ha. destruct (acquire c) as [[|] c1] eqn:A; simpl.
    + pose proof (acquire_synced _ _ A) as Hs1.
      rewrite (acquire_ext_true _ _ _ A). simpl. intros H.
      apply drain_locked_inr in H as ->. rewrite Hs1. done.
    + intros [= <-]. rewrite (acquire_ext_false _ _ _ A Ha).
      pose proof (acquire_armed _ _ _ A Ha) as Ha1. unfold armed in Ha1.
      split; [| done].
      destruct (synced c1) eqn:Hs1; [| done].
      exfalso. revert A. unfold acquire. case_match; [congruence |].
      case_match; [done |]. intros [= <-]. simpl in Hs1. congruence.
Qed.

Lemma drain_ext n c c' q :
  armed c = true -> drain n c = Ok c' ->
  armed c' = true /\
  forall m r, drain m (ext c' q) = Ok r -> exists k, drain k (ext c q) = Ok r.
Proof.
  revert c. induction n as [| n IH]; intros c Ha; [done |]. simpl. intros H.
  apply rbind_Ok_inv in H as ([c1 | c1] & Hstep & H).
  - destruct (drain_step_inl c c1 q Ha Hstep) as [Hext Ha1].
    destruct (IH c1 Ha1 H) as [Ha' Hk]. split; [done |]. intros m r Hm.
    destruct (Hk m r Hm) as [k Hk']. exists (S k). simpl. by rewrite Hext.
  - injection H as ->. destruct (drain_step_inr c c' q Ha Hstep) as [Hext Ha1].
    split; [done |]. intros m r Hm. destruct m; [done |]. exists (S m). simpl in *.
    by rewrite Hext.
Qed.

Lemma write_app_armed c p q :
  counter_ok c -> bytes_ok p -> bytes_ok q -> armed c = true ->
  write c (p ++ q) = (let! c1 := write c p in write c1 q).
Proof.
  intros Hc Hp Hq Ha.
  pose proof (write_returns c (p ++ q) Hc ltac:(eauto with go)) as H1.
  pose proof (write_returns c p Hc Hp) as H2.
  apply returns_exists in H1 as (r & Hr & _).
  apply returns_exists in H2 as (c1 & Hc1 & Hok1). rewrite Hc1. simpl.
  pose proof (write_returns c1 q Hok1 Hq) as H3.
  apply returns_exists in H3 as (r2 & Hr2 & _). rewrite Hr, Hr2. f_equal.
  unfold write in *.
  destruct (zlen p =? 0) eqn:Ep.
  { injection Hc1 as <-. assert (p = []) as -> by (apply zlen_0_nil; lia).
    simpl in Hr. rewrite Hr2 in Hr. congruence. }
  destruct (zlen q =? 0) eqn:Eq.
  { assert (q = []) as -> by (apply zlen_0_nil; lia). rewrite app_nil_r in Hr.
    rewrite Ep, Hc1 in Hr. congruence. }
  rewrite zlen_app in Hr. pose proof (zlen_nonneg p). pose proof (zlen_nonneg q).
  replace (zlen p + zlen q =? 0) with false in Hr by lia.
  destruct (drain_ext _ (set_buf c (buf c ++ p)) c1 q Ha Hc1) as [_ Hk].
  destruct (Hk _ _ Hr2) as [k Hk']. unfold ext in Hk'. simpl in Hk'.
  rewrite <- app_assoc in Hk'. by eapply drain_det.
Qed.

(** Everything but the count of lost locks. *)
Definition erase_sync (c : Counter) : Counter := set_sync c (synced c) true 0.

Definition erase_step (r : Counter + Counter) : Counter + Counter :=
  match r with inl c => inl (erase_sync c) | inr c => inr (erase_sync c) end.

Lemma Ok_inj {A} (a b : A) : Ok a = Ok b -> a = b.
Proof. congruence. Qed.
Lemma inl_inj {A B} (a b : A) : @inl A B a = inl b -> a = b.
Proof. congruence. Qed.
Lemma inr_inj {A B} (a b : B) : @inr A B a = inr b -> a = b.
Proof. congruence. Qed.

Lemma acquire_erase c :
  fst (acquire (erase_sync c)) = fst (acquire c) /\
  erase_sync (snd (acquire (erase_sync c))) = erase_sync (snd (acquire c)).
Proof.
  unfold acquire. simpl. case_match; [done |]. case_match; done.
Qed.

Lemma packet_erase c pkt :
  packet (erase_sync c) pkt = res_map erase_sync (packet c pkt).
Proof.
  unfold packet, res_map. simpl. by destruct (count_packet _ _ _) as [[ps e] | |].
Qed.

Lemma drain_locked_erase a b :
  erase_sync a = erase_sync b ->
  res_map erase_step (drain_locked a) = res_map erase_step (drain_locked b).
Proof.
  intros H. destruct a as [ba sa na la pa ea], b as [bb sb nb lb pb eb].
  injection H as -> -> -> ->. unfold drain_locked, packet; simpl.
  case_match; [done |]. destruct (idx bb 0) as [b0 | |]; simpl; [| done | done].
  case_match; [done |].
  destruct (slice bb 0 PacketSize) as [pkt | |]; simpl; [| done | done].
  destruct (count_packet pb eb pkt) as [[ps e] | |]; simpl; [| done | done].
  by destruct (slice_from bb PacketSize).
Qed.

Lemma drain_step_erase a b :
  erase_sync a = erase_sync b ->
  res_map erase_step (drain_step a) = res_map erase_step (drain_step b).
Proof.
  intros H. rewrite !drain_step_unfold.
  assert (synced a = synced b) as Hs by (by injection H).
  rewrite Hs. destruct (synced b); [by apply drain_locked_erase |].
  destruct (acquire_erase a) as [Ha1 Ha2], (acquire_erase b) as [Hb1 Hb2].
  rewrite H in Ha1, Ha2.
  destruct (acquire a) as [oka a1], (acquire b) as [okb b1]; simpl in *.
  assert (oka = okb) as -> by congruence.
  assert (erase_sync a1 = erase_sync b1) as H1 by congruence.
  destruct okb; simpl; [by apply drain_locked_erase |].
  unfold res_map; simpl. by rewrite H1.
Qed.

Lemma drain_erase n a b :
  erase_sync a = erase_sync b ->
  res_map erase_sync (drain n a) = res_map erase_sync (drain n b).
Proof.
  revert a b. induction n as [| n IH]; intros a b H; [done |]. simpl.
  pose proof (drain_step_erase a b H) as Hst. unfold res_map in *.
  destruct (drain_step a) as [[x|x] | |], (drain_step b) as [[y|y] | |];
    simpl in *; try done.
  - apply (IH x y). by apply Ok_inj, inl_inj in Hst.
  - f_equal. by apply Ok_inj, inr_inj in Hst.
Qed.

Lemma write_erase a b p :
  erase_sync a = erase_sync b ->
  res_map erase_sync (write a p) = res_map erase_sync (write b p).
Proof.
  intros H. unfold write. case_match; [by unfold res_map; simpl; rewrite H |]. cbv zeta.
  assert (buf a = buf b) as Hb by (by injection H). rewrite Hb.
  unfold drain_fuel. apply drain_erase. unfold erase_sync, set_buf, set_sync in *; simpl in *.
  congruence.
Qed.

Lemma erase_sync_ok c : counter_ok c -> counter_ok (erase_sync c).
Proof. intros [? ? ?]. by constructor. Qed.

Lemma res_map_Ok {A B} (f : A -> B) m b : res_map f m = Ok b -> exists a, m = Ok a /\ f a = b.
Proof. destruct m as [a | |]; [| done | done]. intros [= <-]. by exists a. Qed.

Lemma write_bind_erase a b p q :
  counter_ok b -> counter_ok a -> bytes_ok p -> erase_sync a = erase_sync b ->
  res_map erase_sync (let! c1 := write a p in write c1 q) =
  res_map erase_sync (let! c1 := write b p in write c1 q).
Proof.
  intros Hb Ha Hp H. pose proof (write_erase a b p H) as Hw.
  pose proof (write_returns a p Ha Hp) as H1. pose proof (write_returns b p Hb Hp) as H2.
  apply returns_exists in H1 as (ra & Hra & _). apply returns_exists in H2 as (rb & Hrb & _).
  rewrite Hra, Hrb in *. simpl. apply write_erase. by apply Ok_inj in Hw.
Qed.

(** ** Theorems on [write] *)

(** [Write] accepts any bytes: from any reachable counter it ends within
    its fuel without an index or slice panic, and the new statistics are
    well formed: per PID no more errors than packets, 4-bit counters, 33-bit
    clocks, lost time between the two gap bounds, and the running total of
    continuity errors equal to the sum over all PIDs. *)
Theorem write_total : forall c p,
  counter_ok c -> bytes_ok p -> exists c', write c p = Ok c' /\ counter_ok c'.
Proof. intros c p Hc Hp. by apply returns_exists, write_returns. Qed.

Lemma write_total_witness :
  exists c', write newCounter [0x47; 0; 1] = Ok c' /\ counter_ok c'.
Proof. apply (write_total newCounter [0x47; 0; 1]); [apply newCounter_ok | repeat constructor; lia]. Defined.

(** Writes may split a packet: once the counter has held a lock, writing
    [p ++ q] at once and writing [p] then [q] leave the same counter, so every
    total of the summary is independent of how the recording was chunked. *)
Theorem write_split : forall c p q,
  counter_ok c -> bytes_ok p -> bytes_ok q -> armed c = true ->
  write c (p ++ q) = (let! c1 := write c p in write c1 q).
Proof. apply write_app_armed. Qed.

(** Before the first lock the same holds of everything but the number of
    lost locks: buffered bytes, sync state, per-PID statistics and the error
    total do not depend on how the input was split into writes. *)
Theorem write_split_counts : forall c p q,
  counter_ok c -> bytes_ok p -> bytes_ok q ->
  res_map erase_sync (write c (p ++ q)) =
  res_map erase_sync (let! c1 := write c p in write c1 q).
Proof.
  intros c p q Hc Hp Hq.
  rewrite (write_erase c (erase_sync c)) by done.
  rewrite write_app_armed; [| by apply erase_sync_ok | done | done |].
  2: { unfold armed; simpl. by destruct (synced c). }
  apply write_bind_erase; [done | by apply erase_sync_ok | done | done].
Qed.

(** A null packet, for concrete streams. *)
Definition null_packet : list Z := 0x47 :: 0x1F :: 0xFF :: replicate 185 0x10.

Definition locked_counter : Counter := mkCounter [] true false 0 ∅ 0.

Lemma locked_counter_ok : counter_ok locked_counter.
Proof. constructor; [constructor | apply map_Forall_empty | done]. Qed.

Lemma write_split_witness :
  write locked_counter (null_packet ++ [0x47; 1]) =
  (let! c1 := write locked_counter null_packet in write c1 [0x47; 1]).
Proof.
  apply (write_split locked_counter null_packet [0x47; 1]).
  - apply locked_counter_ok.
  - apply bytes_ok_dec. reflexivity.
  - apply bytes_ok_dec. reflexivity.
  - reflexivity.
Defined.

Lemma write_split_counts_witness :
  res_map erase_sync (write newCounter (null_packet ++ [0x47; 1])) =
  res_map erase_sync (let! c1 := write newCounter null_packet in write c1 [0x47; 1]).
Proof.
  apply (write_split_counts newCounter null_packet [0x47; 1]).
  - apply newCounter_ok.
  - apply bytes_ok_dec. reflexivity.
  - apply bytes_ok_dec. reflexivity.
Defined.

(** *** The count of lost locks *)

(** A counter with [k] more lost locks *)
Definition more_losses (k : Z) (c : Counter) : Counter := set_sync c (synced c) (notedLoss c) (syncLoss c + k).

Lemma acquire_more k c : acquire (more_losses k c) = (fst (acquire c), more_losses k (snd (acquire c))).
Proof.
  unfold acquire, more_losses, set_sync, set_buf. cbn [buf notedLoss syncLoss synced pids ccErrs]. destruct (zlen (buf c) <? _); [done |].
  destruct (find_lock _ _) as [i |]; [| done]. cbn [fst snd buf notedLoss syncLoss synced pids ccErrs]. do 2 f_equal. destruct (_ && _)%bool; lia.
Qed.
Lemma drain_locked_more k c :
  drain_locked (more_losses k c) = res_map (fun r => match r with inl c => inl (more_losses k c) | inr c => inr (more_losses k c) end) (drain_locked c).
Proof.
  unfold drain_locked, res_map, packet, more_losses, set_sync, set_buf, set_counts. cbn [buf notedLoss syncLoss synced pids ccErrs]. destruct (zlen (buf c) <? PacketSize); [done |].
  destruct (idx (buf c) 0) as [b0 | |]; cbn [rbind]; [| done | done]. destruct (negb (b0 =? syncByte)).
  { cbn [rbind]. cbn [buf notedLoss syncLoss synced pids ccErrs]. do 3 f_equal. destruct (notedLoss c); lia. }
  destruct (slice (buf c) 0 PacketSize) as [pkt | |]; cbn [rbind]; [| done | done]. destruct (count_packet _ _ pkt) as [[ps e] | |]; cbn [rbind]; [| done | done].
  cbn [buf notedLoss syncLoss synced pids ccErrs]. by destruct (slice_from (buf c) PacketSize).
Qed.
Lemma drain_more n k : forall c, drain n (more_losses k c) = res_map (more_losses k) (drain n c).
Proof.
  induction n as [| n IH]; intros c; [done |]. cbn [drain]. rewrite !drain_step_unfold. change (synced (more_losses k c)) with (synced c). rewrite acquire_more.
  assert (forall r, (let! r := res_map (fun r => match r with inl c => inl (more_losses k c) | inr c => inr (more_losses k c) end) r in match r with inl c' => drain n c' | inr c' => Ok c' end) =
    res_map (more_losses k) (let! r := r in match r with inl c' => drain n c' | inr c' => Ok c' end)) as Hr.
  { intros [[c1 | c1] | |]; [apply IH | done | done | done]. }
  destruct (synced c); [cbn [negb]; rewrite drain_locked_more; apply Hr |]. destruct (acquire c) as [[|] c1]; cbn [fst snd negb]; [rewrite drain_locked_more; apply Hr | done].
Qed.

(** Bytes where no lock starts, before one that does *)
Definition stray (junk stream : list Z) : Prop :=
  locked_at stream = true /\ forall i, (i < length junk)%nat -> locked_at (drop i (junk ++ stream)) = false.
Lemma find_lock_stray junk stream n : stray junk stream -> find_lock n (junk ++ stream) = if (n <=? length junk)%nat then None else Some (length junk).
Proof.
  intros [Hl Hj]. revert n. induction junk as [| x junk IH]; intros n.
  - destruct n as [| n]; [done |]. cbn [find_lock app length Nat.leb]. by rewrite Hl.
  - destruct n as [| n]; [done |]. cbn [find_lock length Nat.leb]. pose proof (Hj 0%nat ltac:(cbn; lia)) as H0. rewrite drop_0 in H0. rewrite H0. change (drop 1 ((x :: junk) ++ stream)) with (junk ++ stream).
    rewrite IH by (intros i Hi; apply (Hj (S i)); cbn; lia). by destruct (n <=? length junk)%nat.
Qed.
(** Looking at fewer bytes finds nothing more. *)
Lemma find_lock_prefix n m b : (n + 376 <= m)%nat -> (m <= length b)%nat -> find_lock n (take m b) = find_lock n b.
Proof.
  intros Hn Hm. rewrite <- (take_drop m b) at 2. assert (n + 376 <= length (take m b))%nat as Hl by (rewrite length_take; lia).
  destruct (find_lock n (take m b)) as [i |] eqn:E.
  - pose proof (find_lock_app n 0 (take m b) (drop m b) i Hl E) as H. by rewrite Nat.add_0_r in H.
  - pose proof (find_lock_skip n 0 (take m b) (drop m b) Hl E) as H. rewrite Nat.add_0_r in H. by rewrite H.
Qed.

(** C40. The count of lost locks before the first lock depends on how the bytes are split
    into writes. Stray bytes before a stream are one lost lock when they are written
    with its third sync byte, as the code's comment says; when the first write ends
    just before that byte they are none, and everything else, after whatever stream
    comes, is the same. *)
Theorem first_lock_depends_on_split (junk stream : list Z) (Hb : bytes_ok (junk ++ stream)) (Hj : junk <> []) (Hs : stray junk stream) :
  exists c, (let! c1 := write newCounter (junk ++ take 376 stream) in write c1 (drop 376 stream)) = Ok c /\
    write newCounter (junk ++ stream) = Ok (more_losses 1 c).
Proof.
  pose proof (locked_at_length _ (proj1 Hs)) as Hlen. assert (0 < length junk)%nat as Hjl by (destruct junk; [done | cbn; lia]).
  assert (bytes_ok junk /\ bytes_ok stream) as [Hbj Hbs] by (by apply Forall_app).
  set (c0 := set_buf newCounter (take 376 stream)).
  assert (write newCounter (junk ++ take 376 stream) = Ok c0) as E1.
  { unfold write. rewrite zlen_app. pose proof (zlen_nonneg (take 376 stream)).
    destruct (Z.eqb_spec (zlen junk + zlen (take 376 stream)) 0) as [E0 | _]; [unfold zlen in *; lia |]. cbn [app newCounter buf].
    unfold drain_fuel. rewrite Nat.add_comm. cbn [Nat.add drain]. rewrite drain_step_unfold. cbn [synced set_buf newCounter]. unfold acquire. cbn [buf set_buf newCounter app].
    assert (zlen (junk ++ take 376 stream) = Z.of_nat (length junk) + 376) as El by (rewrite zlen_app; unfold zlen; rewrite length_take; lia).
    rewrite El. unfold PacketSize. destruct (Z.ltb_spec (Z.of_nat (length junk) + 376) (188 * 2 + 1)); [lia |].
    replace (Z.to_nat (Z.of_nat (length junk) + 376 - 188 * 2)) with (length junk) by lia.
    assert (junk ++ take 376 stream = take (length junk + 376) (junk ++ stream)) as -> by (rewrite take_app_add'; done).
    rewrite find_lock_prefix by (rewrite ?length_app; lia). rewrite (find_lock_stray _ _ _ Hs), Nat.leb_refl. cbn [negb rbind]. unfold c0. do 2 f_equal.
    rewrite take_app_add' by done. apply drop_app_length. }
  rewrite E1. cbn [rbind].
  assert (counter_ok c0) as Hc0 by (apply set_buf_ok; [apply newCounter_ok | by apply Forall_take]).
  destruct (proj1 (returns_exists _ _) (write_returns c0 (drop 376 stream) Hc0 ltac:(by apply Forall_drop))) as (c & Hc & _). exists c. split; [done |].
  destruct (proj1 (returns_exists _ _) (write_returns newCounter (junk ++ stream) newCounter_ok Hb)) as (c' & Hc' & _). rewrite Hc'. f_equal.
  set (lk := set_sync (set_buf newCounter stream) true false 0).
  assert (drain_fuel (set_buf c0 stream) = S (2 * length stream + 1)) as Ef by (unfold drain_fuel; cbn [buf set_buf]; lia).
  assert (forall n, drain (S n) (set_buf c0 stream) = (let! r := drain_locked lk in match r with inl c' => drain n c' | inr c' => Ok c' end)) as D0.
  { intros n. cbn [drain]. rewrite drain_step_unfold. cbn [synced set_buf c0 newCounter]. unfold acquire. cbn [buf set_buf newCounter].
    destruct (Z.ltb_spec (zlen stream) (PacketSize * 2 + 1)); [unfold zlen, PacketSize in *; lia |].
    assert (exists f, Z.to_nat (zlen stream - PacketSize * 2) = S f) as [f ->] by (exists (Z.to_nat (zlen stream - PacketSize * 2) - 1)%nat; unfold zlen, PacketSize in *; lia).
    cbn [find_lock]. rewrite (proj1 Hs). rewrite drop_0. done. }
  assert (forall n, drain (S n) (set_buf newCounter (junk ++ stream)) = (let! r := drain_locked (more_losses 1 lk) in match r with inl c' => drain n c' | inr c' => Ok c' end)) as D1.
  { intros n. cbn [drain]. rewrite drain_step_unfold. cbn [synced set_buf newCounter]. unfold acquire. cbn [buf set_buf newCounter].
    assert (zlen (junk ++ stream) = Z.of_nat (length junk) + Z.of_nat (length stream)) as -> by (rewrite zlen_app; done).
    unfold PacketSize. destruct (Z.ltb_spec (Z.of_nat (length junk) + Z.of_nat (length stream)) (188 * 2 + 1)); [lia |].
    rewrite (find_lock_stray _ _ _ Hs). destruct (Nat.leb_spec (Z.to_nat (Z.of_nat (length junk) + Z.of_nat (length stream) - 188 * 2)) (length junk)); [lia |].
    rewrite drop_app_length. destruct (Nat.ltb_spec 0 (length junk)); [done | lia]. }
  assert (exists n, drain n (set_buf c0 stream) = Ok c) as (n & Hn).
  { unfold write in Hc. destruct (Z.eqb_spec (zlen (drop 376 stream)) 0) as [E | E]; [exfalso; unfold zlen in E; rewrite length_drop in E; lia |].
    cbn [buf c0 set_buf newCounter] in Hc. rewrite take_drop in Hc. by eexists. }
  assert (exists n, drain n (set_buf newCounter (junk ++ stream)) = Ok c') as (n' & Hn').
  { unfold write in Hc'. destruct (Z.eqb_spec (zlen (junk ++ stream)) 0) as [E | E]; [exfalso; unfold zlen in E; rewrite length_app in E; lia |]. by eexists. }
  apply (drain_fuel_mono _ (S (n + n'))) in Hn, Hn'; [| lia | lia]. rewrite D0 in Hn. rewrite D1, drain_locked_more in Hn'.
  destruct (drain_locked lk) as [[x | x] | |]; unfold res_map in Hn'; cbn [rbind] in *; [| congruence | done | done].
  rewrite drain_more, Hn in Hn'. cbn [res_map rbind] in Hn'. congruence.
Qed.
Lemma first_lock_depends_on_split_witness :
  exists c, (let! c1 := write newCounter ([0] ++ take 376 (null_packet ++ null_packet ++ null_packet)) in write c1 (drop 376 (null_packet ++ null_packet ++ null_packet))) = Ok c /\
    write newCounter ([0] ++ null_packet ++ null_packet ++ null_packet) = Ok (more_losses 1 c).
Proof.
  apply (first_lock_depends_on_split [0] (null_packet ++ null_packet ++ null_packet)).
  - apply bytes_ok_dec. reflexivity.
  - done.
  - split; [reflexivity |]. intros [| i] Hi; [reflexivity | cbn in Hi; lia].
Defined.

(** ** The summary does not depend on the map's iteration order *)

Section order.
Context {A B : Type} (f : B -> A -> B) (I : B -> Prop).

Lemma fold_left_perm l1 l2 :
  Permutation l1 l2 -> NoDup l1 -> forall b, I b ->
  (forall s a, I s -> a ∈ l1 -> I (f s a)) ->
  (forall s x y, I s -> x ∈ l1 -> y ∈ l1 -> x <> y -> f (f s x) y = f (f s y) x) ->
  fold_left f l1 b = fold_left f l2 b.
Proof.
  induction 1 as [| x l1 l2 HP IH | x y l | l1 l2 l3 HP1 IH1 HP2 IH2];
    intros Hnd b Hb HI Hc; simpl.
  - done.
  - apply NoDup_cons in Hnd as [_ Hnd]. apply IH; [done | apply HI; set_solver | |].
    + intros s a Hs Ha. apply HI; set_solver.
    + intros s u v Hs Hu Hv. apply Hc; set_solver.
  - f_equal. apply NoDup_cons in Hnd as [Hny _].
    apply Hc; [done | set_solver | set_solver | set_solver].
  - rewrite IH1 by done. apply IH2; [by rewrite <- HP1 | done | |].
    + intros s a Hs Ha. apply HI; [done | by rewrite HP1].
    + intros s u v Hs Hu Hv. apply Hc; [done | by rewrite HP1 | by rewrite HP1].
Qed.
End order.

(** The loop's state only ever holds a nonnegative clock count. *)
Definition sum_inv (a : Summary * Z * Z) : Prop := 0 <= snd (fst a).

Lemma sum_step_inv a e : sum_inv a -> 0 <= pcrs (snd e) -> sum_inv (sum_step a e).
Proof.
  destruct a as [[s k] kp], e as [p st]. unfold sum_inv, sum_step; simpl. intros.
  repeat case_match; simplify_eq/=; lia.
Qed.

(** The choice of the worst PID and of the clock PID, taken apart. *)
Definition worst_of (w : Z * Z * Z) (e : Z * pidStat) : Z * Z * Z :=
  let '(p, c, t) := w in
  if ((ccErr (snd e) =? 0) && (tei (snd e) =? 0))%bool then w
  else if worse (fst e) (snd e) (mkSummary 0 0 0 0 p c t 0 0)
  then (fst e, ccErr (snd e), tei (snd e)) else w.

Definition clock_of (k : Z * Z * Z * Z) (e : Z * pidStat) : Z * Z * Z * Z :=
  let '(g, l, clk, clkPID) := k in
  if ((clk <? pcrs (snd e)) || ((pcrs (snd e) =? clk) && (0 <? pcrs (snd e)) && (fst e <? clkPID)))%bool
  then (gaps (snd e), lost (snd e), pcrs (snd e), fst e) else k.

Lemma sum_step_parts s clk clkPID e :
  sum_step (s, clk, clkPID) e =
  let '(p, c, t) := worst_of (WorstPID s, WorstContinuity s, WorstTransport s) e in
  let '(g, l, clk', clkPID') := clock_of (Gaps s, LostTicks s, clk, clkPID) e in
  (mkSummary (ContinuityErrors s + ccErr (snd e)) (TransportErrors s + tei (snd e))
     (SyncLosses s) (Packets s + packets (snd e)) p c t g l, clk', clkPID').
Proof.
  destruct e as [pid st]. unfold sum_step, worst_of, clock_of, worse. simpl.
  destruct ((clk <? pcrs st) || ((pcrs st =? clk) && (0 <? pcrs st) && (pid <? clkPID)))%bool;
    simpl; destruct ((ccErr st =? 0) && (tei st =? 0))%bool; simpl; try done.
  all: repeat (case_match; try done).
Qed.

Ltac order_cases :=
  simpl; repeat (match goal with
  | H : context [if ?b then _ else _] |- _ => destruct b eqn:?; simpl in H
  | |- context [if ?b then _ else _] => destruct b eqn:?
  end; simpl); try done; first [repeat (apply pair_equal_spec; split); lia | exfalso; lia].

Lemma worst_of_comm w x y :
  worst_of (worst_of w x) y = worst_of (worst_of w y) x.
Proof.
  destruct w as [[p c] t], x as [px sx], y as [py sy].
  unfold worst_of, worse; simpl.
  destruct ((ccErr sx =? 0) && (tei sx =? 0))%bool eqn:Ex;
  destruct ((ccErr sy =? 0) && (tei sy =? 0))%bool eqn:Ey; simpl; try done.
  all: destruct ((c =? 0) && (t =? 0))%bool eqn:E0; simpl; rewrite ?Ex, ?Ey, ?E0; simpl.
  all: order_cases.
Qed.

Lemma clock_of_comm k x y :
  0 <= snd (fst k) -> 0 <= pcrs (snd x) -> 0 <= pcrs (snd y) -> fst x <> fst y ->
  clock_of (clock_of k x) y = clock_of (clock_of k y) x.
Proof.
  destruct k as [[[g l] n] p], x as [px sx], y as [py sy].
  unfold clock_of; simpl. intros. order_cases.
Qed.

#[local] Arguments sum_step : simpl never.
#[local] Arguments worst_of : simpl never.
#[local] Arguments clock_of : simpl never.

Lemma sum_step_comm a x y :
  sum_inv a -> 0 <= pcrs (snd x) -> 0 <= pcrs (snd y) -> fst x <> fst y ->
  sum_step (sum_step a x) y = sum_step (sum_step a y) x.
Proof.
  destruct a as [[s k] kp]. unfold sum_inv; simpl. intros Hk Hx Hy Hne.
  set (w := (WorstPID s, WorstContinuity s, WorstTransport s)).
  set (q := (Gaps s, LostTicks s, k, kp)).
  pose proof (worst_of_comm w x y) as Hw.
  pose proof (clock_of_comm q x y Hk Hx Hy Hne) as Hc.
  rewrite !(sum_step_parts s). fold w q.
  destruct (worst_of w x) as [[px cx] tx], (worst_of w y) as [[py cy] ty].
  destruct (clock_of q x) as [[[gx lx] kx] ox], (clock_of q y) as [[[gy ly] ky] oy].
  rewrite !sum_step_parts. simpl. rewrite Hw, Hc.
  destruct (worst_of (py, cy, ty) x) as [[p c] t].
  destruct (clock_of (gy, ly, ky, oy) x) as [[[g l] k'] o].
  repeat (apply pair_equal_spec; split); [f_equal; lia | done | done].
Qed.

(** [Summary] ranges over a Go map, whose order is random: every order of
    the same table gives the same summary, worst PID, gaps and lost time
    included. *)
Theorem summary_order : forall c order,
  counter_ok c -> Permutation (map_to_list (pids c)) order ->
  summary_in order c = summary c.
Proof.
  intros c order Hc HP. unfold summary, summary_in. do 2 f_equal. symmetry.
  assert (forall e, e ∈ map_to_list (pids c) -> 0 <= pcrs (snd e)) as Hpc.
  { intros [k st] He. apply elem_of_map_to_list in He.
    pose proof (ok_stats _ Hc _ _ He) as Hst. unfold stat_ok in Hst. simpl. lia. }
  apply fold_left_perm with (I := sum_inv); [done | apply NoDup_map_to_list | done | |].
  - intros s a Hs Ha. apply sum_step_inv; auto.
  - intros s x y Hs Hx Hy Hne. apply sum_step_comm; auto.
    intros Heq. apply Hne. destruct x as [kx sx], y as [ky sy]. simpl in Heq. subst ky.
    apply elem_of_map_to_list in Hx. apply elem_of_map_to_list in Hy. congruence.
Qed.

Definition two_pids : Counter :=
  set_counts newCounter
    (<[0x31 := mkPidStat 9 2 1 true 3 false 0 0 0 0 0]>
      {[0x30 := mkPidStat 9 2 1 true 3 false 0 0 0 0 0]}) 4.

Lemma two_pids_ok : counter_ok two_pids.
Proof.
  assert (stat_ok (mkPidStat 9 2 1 true 3 false 0 0 0 0 0)) as Hst.
  { unfold stat_ok, gapTicks, maxGapTicks; stat_simpl. lia. }
  constructor; [constructor | | reflexivity]. simpl.
  apply map_Forall_insert_2; [done | by apply map_Forall_singleton].
Qed.

Lemma summary_order_witness :
  summary_in (rev (map_to_list (pids two_pids))) two_pids = summary two_pids /\ WorstPID (summary two_pids) = 0x30.
Proof.
  split; [| vm_compute; reflexivity].
  apply (summary_order two_pids); [apply two_pids_ok | apply Permutation_rev].
Defined.

(** ** Continuity of one PID *)

(** What the continuity part of a packet reads and writes. *)
Definition cont_view (st : pidStat) : Z * Z * Z * (bool * Z * bool) :=
  (packets st, ccErr st, tei st, (have st, cc st, dup st)).

Definition packet_pid (pkt : list Z) : Z := pkt_pid (nth 1 pkt 0) (nth 2 pkt 0).

Fixpoint count_packets (ps : gmap Z pidStat) (errs : Z) (l : list (list Z))
    : res (gmap Z pidStat * Z) :=
  match l with
  | [] => Ok (ps, errs)
  | pkt :: l => let! '(ps, errs) := count_packet ps errs pkt in count_packets ps errs l
  end.

Lemma clock_view errs st b disc st' :
  clock errs st b disc = Ok st' -> cont_view st' = cont_view st.
Proof.
  unfold clock. intros H. apply rbind_Ok_inv in H as (now & _ & H). cbv zeta in H.
  by case_match; simplify_eq.
Qed.

Lemma continuity_view a b payload disc k :
  cont_view a = cont_view b ->
  cont_view (fst (continuity a payload disc k)) = cont_view (fst (continuity b payload disc k)).
Proof.
  destruct a, b. unfold cont_view, continuity. stat_simpl. intros [= -> -> -> -> -> ->].
  repeat case_match; done.
Qed.

Lemma idx_nth (b : list Z) i v : idx b i = Ok v -> v = nth (Z.to_nat i) b 0.
Proof. intros H. apply idx_inv in H as [_ H]. symmetry. by apply nth_lookup_Some. Qed.

(** One packet's effect on the table: only its own PID changes. *)
Lemma count_packet_other ps errs pkt ps' e' p :
  count_packet ps errs pkt = Ok (ps', e') -> p <> packet_pid pkt -> ps' !! p = ps !! p.
Proof.
  unfold count_packet. intros H Hne.
  apply rbind_Ok_inv in H as (b1 & Hb1 & H). apply rbind_Ok_inv in H as (b2 & Hb2 & H).
  apply idx_nth in Hb1, Hb2. change (Z.to_nat 1) with 1%nat in Hb1.
  change (Z.to_nat 2) with 2%nat in Hb2. unfold packet_pid in Hne. rewrite <- Hb1, <- Hb2 in Hne.
  cbv zeta in H. case_match; [simplify_eq; by rewrite lookup_insert_ne |].
  apply rbind_Ok_inv in H as (b3 & _ & H). cbv zeta in H.
  apply rbind_Ok_inv in H as ([st disc] & _ & H).
  case_match. simplify_eq. by rewrite lookup_insert_ne.
Qed.

Lemma adaptation_view e1 e2 a b afc d pkt a' da b' db :
  cont_view a = cont_view b ->
  adaptation e1 a afc d pkt = Ok (a', da) -> adaptation e2 b afc d pkt = Ok (b', db) ->
  cont_view a' = cont_view b' /\ da = db.
Proof.
  unfold adaptation. intros Hv Ha Hb.
  destruct (Z.land afc 2 =? 2); [| by injection Ha as <- <-; injection Hb as <- <-].
  destruct (idx pkt 4) as [b4 | |]; simpl in Ha, Hb; [| done | done].
  destruct (0 <? b4); [| by injection Ha as <- <-; injection Hb as <- <-].
  destruct (idx pkt 5) as [b5 | |]; simpl in Ha, Hb; [| done | done].
  destruct ((7 <=? b4) && negb (Z.land b5 0x10 =? 0) && negb d)%bool; [| by injection Ha as <- <-; injection Hb as <- <-].
  destruct (slice pkt 6 11) as [f | |]; simpl in Ha, Hb; [| done | done].
  destruct (clock e1 a f _) as [a1 | |] eqn:Ca; simpl in Ha; [| done | done].
  destruct (clock e2 b f _) as [b1' | |] eqn:Cb; simpl in Hb; [| done | done].
  apply clock_view in Ca, Cb. injection Ha as <- <-. injection Hb as <- <-.
  split; [congruence | done].
Qed.

(** The continuity view of a PID's row, absent rows counting as fresh ones. *)
Definition view_at (ps : gmap Z pidStat) (p : Z) := cont_view (default newPidStat (ps !! p)).

Lemma view_at_insert ps p st : view_at (<[p := st]> ps) p = cont_view st.
Proof. unfold view_at. by rewrite lookup_insert_eq. Qed.

Lemma count_packet_view ps1 ps2 e1 e2 pkt ps1' e1' ps2' e2' :
  view_at ps1 (packet_pid pkt) = view_at ps2 (packet_pid pkt) ->
  count_packet ps1 e1 pkt = Ok (ps1', e1') -> count_packet ps2 e2 pkt = Ok (ps2', e2') ->
  view_at ps1' (packet_pid pkt) = view_at ps2' (packet_pid pkt).
Proof.
  unfold count_packet. intros Hv H1 H2.
  destruct (idx pkt 1) as [b1 | |] eqn:E1; simpl in H1, H2; [| done | done].
  destruct (idx pkt 2) as [b2 | |] eqn:E2; simpl in H1, H2; [| done | done].
  assert (packet_pid pkt = pkt_pid b1 b2) as Hp.
  { apply idx_nth in E1, E2. unfold packet_pid. by subst. }
  rewrite Hp in *. unfold view_at at 1 2 in Hv.
  set (o1 := default newPidStat (ps1 !! pkt_pid b1 b2)) in *.
  set (o2 := default newPidStat (ps2 !! pkt_pid b1 b2)) in *.
  match type of H1 with context [mkPidStat ?a ?b ?c ?d ?e ?f ?g ?h ?i ?j ?k] =>
    set (a1 := mkPidStat a b c d e f g h i j k) in * end.
  match type of H2 with context [mkPidStat ?a ?b ?c ?d ?e ?f ?g ?h ?i ?j ?k] =>
    set (a2 := mkPidStat a b c d e f g h i j k) in * end.
  assert (cont_view a1 = cont_view a2) as Hva.
  { subst a1 a2. unfold cont_view in *. stat_simpl. congruence. }
  clearbody a1 a2. destruct (pkt_pid b1 b2 =? nullPID); [injection H1 as <- _; injection H2 as <- _; by rewrite !view_at_insert |].
  destruct (idx pkt 3) as [b3 | |]; simpl in H1, H2; [| done | done].
  destruct (adaptation e1 a1 _ _ _) as [[s1 d1] | |] eqn:A1; simpl in H1; [| done | done].
  destruct (adaptation e2 a2 _ _ _) as [[s2 d2] | |] eqn:A2; simpl in H2; [| done | done].
  destruct (adaptation_view _ _ _ _ _ _ _ _ _ _ _ Hva A1 A2) as [Hs ->].
  pose proof (continuity_view s1 s2 (Z.land (Z.land (Z.shiftr b3 4) 3) 1 =? 1) d2 (Z.land b3 15) Hs) as Hc.
  destruct (continuity s1 _ _ _) as [t1 r1], (continuity s2 _ _ _) as [t2 r2].
  simpl in Hc. injection H1 as <- _. injection H2 as <- _. by rewrite !view_at_insert.
Qed.

Definition packet_ok (pkt : list Z) : Prop := bytes_ok pkt /\ zlen pkt = PacketSize.

Lemma count_packets_returns ps errs l :
  Forall packet_ok l -> map_Forall (fun _ st => stat_ok st) ps -> errs = total_cc ps ->
  returns (count_packets ps errs l) (fun r => map_Forall (fun _ st => stat_ok st) (fst r)).
Proof.
  intros Hl. revert ps errs. induction Hl as [| pkt l [Hb Hlen] Hl IH]; intros ps errs Hps He; simpl.
  { done. }
  apply returns_bind. eapply returns_mono; [by apply count_packet_returns |].
  intros [ps' e'] [Hps' He']. by apply IH.
Qed.

Lemma count_packets_view l ps1 ps2 e1 e2 p r1 r2 :
  view_at ps1 p = view_at ps2 p ->
  count_packets ps1 e1 l = Ok r1 ->
  count_packets ps2 e2 (filter (fun pkt => packet_pid pkt = p) l) = Ok r2 ->
  view_at (fst r1) p = view_at (fst r2) p.
Proof.
  revert ps1 ps2 e1 e2. induction l as [| pkt l IH]; intros ps1 ps2 e1 e2 Hv H1 H2.
  { simpl in H1. rewrite filter_nil in H2. simpl in H2.
    by injection H1 as <-; injection H2 as <-. }
  simpl in H1. apply rbind_Ok_inv in H1 as ([qs1 f1] & C1 & H1).
  rewrite filter_cons in H2. destruct (decide (packet_pid pkt = p)) as [<- | Hne].
  - simpl in H2. apply rbind_Ok_inv in H2 as ([qs2 f2] & C2 & H2).
    eapply IH; [| exact H1 | exact H2]. by eapply count_packet_view.
  - eapply IH; [| exact H1 | exact H2].
    unfold view_at in *. by rewrite (count_packet_other _ _ _ _ _ p C1) by congruence.
Qed.

(** The damage counted on one PID does not depend on the packets of the
    others, in whatever order they are interleaved: packets, continuity
    errors, transport errors and the continuity state of a PID after a run of
    packets are those after the packets of that PID alone. *)
Theorem pid_isolated : forall l ps p,
  Forall packet_ok l -> map_Forall (fun _ st => stat_ok st) ps ->
  exists ps1 e1 ps2 e2,
    count_packets ps (total_cc ps) l = Ok (ps1, e1) /\
    count_packets ps (total_cc ps) (filter (fun pkt => packet_pid pkt = p) l) = Ok (ps2, e2) /\
    view_at ps1 p = view_at ps2 p.
Proof.
  intros l ps p Hl Hps.
  pose proof (count_packets_returns ps _ l Hl Hps eq_refl) as H1.
  pose proof (count_packets_returns ps (total_cc ps) (filter (fun pkt => packet_pid pkt = p) l)) as H2.
  specialize (H2 ltac:(by apply Forall_filter_list) Hps eq_refl).
  apply returns_exists in H1 as ([ps1 e1] & E1 & _).
  apply returns_exists in H2 as ([ps2 e2] & E2 & _).
  exists ps1, e1, ps2, e2. split_and!; [done | done |].
  by apply (count_packets_view l ps ps (total_cc ps) (total_cc ps) p (ps1, e1) (ps2, e2)).
Qed.

Lemma pid_isolated_witness :
  exists ps1 e1 ps2 e2,
    count_packets ∅ (total_cc ∅) [null_packet; null_packet] = Ok (ps1, e1) /\
    count_packets ∅ (total_cc ∅) (filter (fun pkt => packet_pid pkt = 0) [null_packet; null_packet]) = Ok (ps2, e2) /\
    view_at ps1 0 = view_at ps2 0.
Proof.
  apply (pid_isolated [null_packet; null_packet] ∅ 0).
  - do 2 (constructor; [split; [apply bytes_ok_dec; reflexivity | reflexivity] |]). constructor.
  - apply map_Forall_empty.
Defined.

(** The next counter when [j] packets in between were lost. *)
Definition after_loss (k j : Z) : Z := Z.land (k + 1 + j) 0x0f.

(** Losing [j] packets between two payload packets of a PID is counted
    exactly once, unless [j] is a multiple of 16 (the counter has come round)
    or one less than a multiple while a repeat is still allowed (the packet
    then looks like the repeat of the last one). *)
Theorem loss_counted : forall st j,
  have st = true -> 0 <= cc st < 16 -> 0 <= j ->
  let r := continuity st true false (after_loss (cc st) j) in
  snd r = negb ((j mod 16 =? 0) || ((j mod 16 =? 15) && negb (dup st)))%bool /\
  ccErr (fst r) = ccErr st + (if snd r then 1 else 0).
Proof.
  intros st j Hh Hcc Hj. unfold after_loss, continuity. rewrite Hh. simpl.
  assert (forall x, Z.land x 0x0f = x mod 16) as Hland by (intros; by apply (land_mask _ 4)).
  rewrite !Hland.
  pose proof (Z.mod_pos_bound j 16 ltac:(lia)) as Hm.
  set (m := j mod 16) in *.
  assert ((cc st + 1 + j) mod 16 = (cc st + 1 + m) mod 16) as ->.
  { subst m. by rewrite Z.add_mod_idemp_r by lia. }
  clearbody m.
  destruct ((cc st + 1 + m) mod 16 =? cc st) eqn:E1.
  - assert (m = 15) as -> by (Z.div_mod_to_equations; lia).
    destruct (dup st); stat_simpl; split; try done; lia.
  - destruct (negb ((cc st + 1 + m) mod 16 =? (cc st + 1) mod 16)) eqn:E2; stat_simpl.
    + assert (m <> 0 /\ m <> 15) by (Z.div_mod_to_equations; lia). split; lia.
    + assert (m = 0) as -> by (Z.div_mod_to_equations; lia). split; [done | lia].
Qed.

Definition counting_stat : pidStat := mkPidStat 5 0 0 true 15 false 0 0 0 0 0.

Lemma loss_counted_witness :
  snd (continuity counting_stat true false (after_loss 15 3)) = true.
Proof.
  destruct (loss_counted counting_stat 3) as [-> _]; [reflexivity | simpl; lia | lia | reflexivity].
Defined.
