(* ===== verification/Mpeg.v ===== *)
(** What the transport-stream readers share: packet fields, the 33-bit clock
    and the presentation timestamp of a PES header. *)
From S2P Require Import Prelude.
Local Open Scope Z_scope.
Local Open Scope go_scope.

Definition ptsWrap : Z := 2 ^ 33.

(** [ptsDelta] of captions/ts.go and live/programfilter.go: [a - b] on the
    33-bit clock, across a wrap. *)
Definition ptsDelta (a b : Z) : Z :=
  let d := Z.land (a - b) (2 ^ 33 - 1) in
  if 2 ^ 32 <=? d then d - 2 ^ 33 else d.

(** The five timestamp bytes of a PES header. *)
Definition pts_value (b9 b10 b11 b12 b13 : Z) : Z :=
  Z.lor (Z.lor (Z.lor (Z.lor
    (Z.shiftl (Z.land (Z.shiftr b9 1) 0x07) 30) (Z.shiftl b10 22))
    (Z.shiftl (Z.shiftr b11 1) 15)) (Z.shiftl b12 7)) (Z.shiftr b13 1).

(** The PID of a packet from its second and third byte. *)
Definition packet_pid_of (b1 b2 : Z) : Z := be16 (Z.land b1 0x1f) b2.

(** ** The clock *)

Lemma land_clock x : Z.land x (2 ^ 33 - 1) = x mod 2 ^ 33.
Proof. by apply (land_mask x 33). Qed.

Lemma ptsDelta_mod a b :
  ptsDelta a b = (a - b + 2 ^ 32) mod 2 ^ 33 - 2 ^ 32.
Proof.
  unfold ptsDelta. rewrite land_clock.
  pose proof (Z.mod_pos_bound (a - b) (2 ^ 33) ltac:(lia)) as Hm.
  pose proof (Z.div_mod (a - b) (2 ^ 33) ltac:(lia)) as Hd.
  set (m := (a - b) mod 2 ^ 33) in *. set (q := (a - b) / 2 ^ 33) in *.
  rewrite Hd.
  destruct (Z.leb_spec (2 ^ 32) m).
  - replace (2 ^ 33 * q + m + 2 ^ 32) with (m - 2 ^ 32 + (q + 1) * 2 ^ 33) by lia.
    rewrite Z.mod_add by lia. rewrite Z.mod_small by lia. lia.
  - replace (2 ^ 33 * q + m + 2 ^ 32) with (m + 2 ^ 32 + q * 2 ^ 33) by lia.
    rewrite Z.mod_add by lia. rewrite Z.mod_small by lia. lia.
Qed.

Lemma ptsDelta_range a b : - 2 ^ 32 <= ptsDelta a b < 2 ^ 32.
Proof.
  rewrite ptsDelta_mod.
  pose proof (Z.mod_pos_bound (a - b + 2 ^ 32) (2 ^ 33) ltac:(lia)). lia.
Qed.

(** On times less than half the clock apart the delta is the difference, also
    where the counters the stream carries have wrapped. *)
Lemma ptsDelta_unwrapped s t :
  - 2 ^ 32 <= s - t < 2 ^ 32 -> ptsDelta (s mod 2 ^ 33) (t mod 2 ^ 33) = s - t.
Proof.
  intros H. rewrite ptsDelta_mod.
  rewrite <- (Zplus_mod_idemp_l (s mod 2 ^ 33 - t mod 2 ^ 33)), <- Zminus_mod, Zplus_mod_idemp_l.
  rewrite Z.mod_small by lia. lia.
Qed.

Lemma ptsDelta_diag a : ptsDelta a a = 0.
Proof. rewrite ptsDelta_mod, Z.sub_diag. done. Qed.

(** ** Timestamps *)

(** The bytes that carry a timestamp, with the marker bits of ISO 13818-1. *)
Definition pts_bytes (p : Z) : list Z :=
  [Z.lor 0x21 (Z.land (Z.shiftr p 29) 0x0e); wrap8 (Z.shiftr p 22);
   Z.lor 1 (wrap8 (Z.shiftr p 14)); wrap8 (Z.shiftr p 7); Z.lor 1 (wrap8 (Z.shiftl p 1))].

Lemma marker_bits x :
  Z.land (Z.shiftr (Z.lor 0x21 (Z.land x 0x0e)) 1) 7 = Z.land (Z.shiftr x 1) 7.
Proof.
  apply Z.bits_inj'. intros n Hn.
  rewrite !Z.land_spec, !Z.shiftr_spec, Z.lor_spec, Z.land_spec by lia.
  destruct (decide (n < 3)) as [Hlt | Hge].
  - assert (n = 0 \/ n = 1 \/ n = 2) as [-> | [-> | ->]] by lia; simpl;
      rewrite ?andb_true_r; reflexivity.
  - replace (Z.testbit 7 n) with false; [by rewrite !andb_false_r |].
    symmetry. apply Z.bits_above_log2; [lia |]. change (Z.log2 7) with 2. lia.
Qed.

Lemma marker_low z : Z.shiftr (Z.lor 1 z) 1 = Z.shiftr z 1.
Proof. by rewrite Z.shiftr_lor. Qed.

Lemma pts_digits p :
  0 <= p < 2 ^ 33 ->
  (p / 2 ^ 29 / 2) mod 8 * 2 ^ 30 + (p / 2 ^ 22 mod 256 * 2 ^ 22 +
    (p / 2 ^ 14 mod 256 / 2 * 2 ^ 15 + (p / 2 ^ 7 mod 256 * 2 ^ 7 + p * 2 mod 256 / 2))) = p.
Proof.
  intros Hp.
  pose proof (Z.div_mod p (2 ^ 7) ltac:(lia)) as Hd0.
  set (p1 := p / 2 ^ 7) in *.
  assert (p * 2 mod 256 / 2 = p mod 2 ^ 7) as -> by (subst p1; Z.div_mod_to_equations; lia).
  assert (p / 2 ^ 14 = p1 / 2 ^ 7) as -> by (subst p1; by rewrite Z.div_div).
  assert (p / 2 ^ 22 = p1 / 2 ^ 8 / 2 ^ 7) as -> by (subst p1; by rewrite !Z.div_div).
  assert (p / 2 ^ 29 = p1 / 2 ^ 8 / 2 ^ 7 / 2 ^ 7) as -> by (subst p1; by rewrite !Z.div_div).
  assert (p1 / 2 ^ 7 mod 256 / 2 = p1 / 2 ^ 8 mod 2 ^ 7) as -> by (Z.div_mod_to_equations; lia).
  pose proof (Z.mod_pos_bound p (2 ^ 7) ltac:(lia)).
  clearbody p1. pose proof (Z.div_mod p1 (2 ^ 8) ltac:(lia)) as Hd1.
  pose proof (Z.mod_pos_bound p1 (2 ^ 8) ltac:(lia)).
  set (p2 := p1 / 2 ^ 8) in *. change (2 ^ 8) with 256 in *. clearbody p2.
  pose proof (Z.div_mod p2 (2 ^ 7) ltac:(lia)) as Hd2.
  pose proof (Z.mod_pos_bound p2 (2 ^ 7) ltac:(lia)).
  set (p3 := p2 / 2 ^ 7) in *. clearbody p3.
  assert (p3 / 2 ^ 7 / 2 = p3 / 2 ^ 8) as -> by (by rewrite Z.div_div).
  pose proof (Z.div_mod p3 (2 ^ 8) ltac:(lia)) as Hd3.
  pose proof (Z.mod_pos_bound p3 (2 ^ 8) ltac:(lia)).
  change (2 ^ 8) with 256 in *. rewrite (Z.mod_small (p3 / 256) 8); lia.
Qed.

Lemma pts_value_bytes p :
  0 <= p < 2 ^ 33 ->
  pts_value (Z.lor 0x21 (Z.land (Z.shiftr p 29) 0x0e)) (wrap8 (Z.shiftr p 22))
    (Z.lor 1 (wrap8 (Z.shiftr p 14))) (wrap8 (Z.shiftr p 7))
    (Z.lor 1 (wrap8 (Z.shiftl p 1))) = p.
Proof.
  intros Hp. unfold pts_value. rewrite marker_bits, !marker_low.
  change 0x07 with (Z.pred (2 ^ 3)). rewrite land_mask by lia.
  unfold wrap8. rewrite !Z.shiftr_div_pow2, !Z.shiftl_mul_pow2 by lia.
  change (2 ^ 8) with 256. change (2 ^ 3) with 8. change (2 ^ 1) with 2.
  rewrite <- !Z.lor_assoc.
  assert (forall x, 0 <= x mod 256 < 256) as Hm by (intros; apply Z.mod_pos_bound; lia).
  assert (forall x, 0 <= x mod 256 / 2 < 128) as Hh.
  { intros x. specialize (Hm x). Z.div_mod_to_equations. lia. }
  pose proof (Hm (p / 2 ^ 7)). pose proof (Hm (p / 2 ^ 22)).
  pose proof (Hh (p / 2 ^ 14)). pose proof (Hh (p * 2)).
  rewrite (lor_mul_add (p / 2 ^ 7 mod 256)) by lia.
  rewrite (lor_mul_add (p / 2 ^ 14 mod 256 / 2)) by lia.
  rewrite (lor_mul_add (p / 2 ^ 22 mod 256)) by lia.
  rewrite lor_mul_add by lia. by apply pts_digits.
Qed.

Lemma pts_value_range b9 b10 b11 b12 b13 :
  byte_ok b10 -> byte_ok b11 -> byte_ok b12 -> byte_ok b13 ->
  0 <= pts_value b9 b10 b11 b12 b13 < 2 ^ 33.
Proof.
  intros. unfold pts_value, byte_ok in *. rewrite <- !Z.lor_assoc.
  rewrite !Z.shiftr_div_pow2, !Z.shiftl_mul_pow2 by lia.
  pose proof (land_bound (b9 / 2 ^ 1) 7). change (2 ^ 1) with 2 in *.
  assert (0 <= b11 / 2 < 128) by (Z.div_mod_to_equations; lia).
  assert (0 <= b13 / 2 < 128) by (Z.div_mod_to_equations; lia).
  rewrite (lor_mul_add b12) by lia. rewrite (lor_mul_add (b11 / 2)) by lia.
  rewrite (lor_mul_add b10) by lia. rewrite lor_mul_add by lia. lia.
Qed.
