(* ===== verification/CapCc.v ===== *)
(** Caption bytes inside a picture, [server/internal/captions/cc.go]: the
    ATSC A/53 [cc_data] of MPEG-2 user data and of H.264 SEI messages. *)
From S2P Require Import Prelude.
Local Open Scope Z_scope.
Local Open Scope go_scope.

Definition ga94 : list Z := [0x47; 0x41; 0x39; 0x34].

(** ** Definitions *)

(** The loop of [ccData] over [n] triples. *)
Fixpoint ccData_loop (n : nat) (b out : list Z) : res (list Z) :=
  match n with
  | O => Ok out
  | S n =>
      if zlen b <? 3 then Ok out else
      let! b0 := idx b 0 in
      let valid := negb (Z.land b0 0x04 =? 0) in
      let kind := Z.land b0 0x03 in
      let! out :=
        (if (valid && (kind =? 0))%bool then
           let! b1 := idx b 1 in
           let! b2 := idx b 2 in
           Ok (out ++ [Z.land b1 0x7f; Z.land b2 0x7f])
         else Ok out) in
      let! b := slice_from b 3 in
      ccData_loop n b out
  end.

Definition ccData (b out : list Z) : res (list Z) :=
  if zlen b <? 2 then Ok out else
  let! b0 := idx b 0 in
  if Z.land b0 0x40 =? 0 then Ok out else
  let n := Z.land b0 0x1f in
  let! b := slice_from b 2 in
  ccData_loop (Z.to_nat n) b out.

Fixpoint fromMPEG2_loop (fuel : nat) (es out : list Z) : res (list Z) :=
  match fuel with
  | O => NoFuel
  | S fuel =>
      let i := bytes_index es [0; 0; 1; 0xb2] in
      if i <? 0 then Ok out else
      let! es := slice_from es (i + 4) in
      let! out :=
        (if 5 <? zlen es then
           let! tag := slice es 0 4 in
           if bytes_equal tag ga94 then
             let! b4 := idx es 4 in
             if b4 =? 0x03 then
               let! data := slice_from es 5 in
               ccData data out
             else Ok out
           else Ok out
         else Ok out) in
      fromMPEG2_loop fuel es out
  end.

(** Every round drops at least the four bytes it found. *)
Definition fromMPEG2 (es : list Z) : res (list Z) :=
  fromMPEG2_loop (S (length es)) es [].

Fixpoint unescape_loop (zeros : Z) (b out : list Z) : list Z :=
  match b with
  | [] => out
  | c :: b =>
      if ((2 <=? zeros) && (c =? 3))%bool then unescape_loop 0 b out
      else unescape_loop (if c =? 0 then zeros + 1 else 0) b (out ++ [c])
  end.

Definition unescape (b : list Z) : list Z :=
  if bytes_index b [0; 0; 3] <? 0 then b else unescape_loop 0 b [].

(** [for len(b) > 0 && b[0] == 0xff { v += 255; b = b[1:] }] *)
Fixpoint ff_run (v : Z) (b : list Z) : Z * list Z :=
  match b with
  | c :: b' => if c =? 0xff then ff_run (v + 255) b' else (v, b)
  | [] => (v, b)
  end.

(** The message [kind]/[size] test and copy of [seiCaptions]. *)
Definition sei_message (kind : Z) (msg out : list Z) : res (list Z) :=
  if ((kind =? 4) && (8 <? zlen msg))%bool then
    let! m0 := idx msg 0 in
    let! m1 := idx msg 1 in
    let! m2 := idx msg 2 in
    if ((m0 =? 0xb5) && (m1 =? 0x00) && (m2 =? 0x31))%bool then
      let! tag := slice msg 3 7 in
      if bytes_equal tag ga94 then
        let! m7 := idx msg 7 in
        if m7 =? 0x03 then
          let! data := slice_from msg 8 in
          ccData data out
        else Ok out
      else Ok out
    else Ok out
  else Ok out.

Fixpoint seiCaptions_loop (fuel : nat) (b out : list Z) : res (list Z) :=
  match fuel with
  | O => NoFuel
  | S fuel =>
      if negb (2 <? zlen b) then Ok out else
      let '(kind, b) := ff_run 0 b in
      if zlen b =? 0 then Ok out else
      let! k := idx b 0 in
      let kind := kind + k in
      let! b := slice_from b 1 in
      let '(size, b) := ff_run 0 b in
      if zlen b =? 0 then Ok out else
      let! s := idx b 0 in
      let size := size + s in
      let! b := slice_from b 1 in
      if zlen b <? size then Ok out else
      let! msg := slice b 0 size in
      let! b := slice_from b size in
      let! out := sei_message kind msg out in
      seiCaptions_loop fuel b out
  end.

Definition seiCaptions (b out : list Z) : res (list Z) :=
  seiCaptions_loop (S (length b)) b out.

Fixpoint fromH264_loop (fuel : nat) (es out : list Z) : res (list Z) :=
  match fuel with
  | O => NoFuel
  | S fuel =>
      let i := bytes_index es [0; 0; 1] in
      if ((i <? 0) || (zlen es <=? i + 3))%bool then Ok out else
      let! es := slice_from es (i + 3) in
      let! e0 := idx es 0 in
      if negb (Z.land e0 0x1f =? 6) then fromH264_loop fuel es out else
      let e := bytes_index es [0; 0; 1] in
      let e := if e <? 0 then zlen es else e in
      let! sei := slice es 1 e in
      let! out := seiCaptions (unescape sei) out in
      fromH264_loop fuel es out
  end.

Definition fromH264 (es : list Z) : res (list Z) :=
  fromH264_loop (S (length es)) es [].

(** ** Field-1 pairs *)

(** What every output of this file is: whole pairs of 7-bit characters. *)
Definition pairs_ok (l : list Z) : Prop :=
  Forall (fun v => 0 <= v < 128) l /\ exists n : nat, length l = (2 * n)%nat.

Lemma pairs_ok_nil : pairs_ok [].
Proof. split; [constructor | by exists O]. Qed.

Lemma pairs_ok_snoc l a b :
  pairs_ok l -> pairs_ok (l ++ [Z.land a 0x7f; Z.land b 0x7f]).
Proof.
  intros [Hl [n Hn]]. split.
  - apply Forall_app. split; [done |].
    pose proof (land_bound a 0x7f). pose proof (land_bound b 0x7f).
    repeat constructor; lia.
  - exists (S n). rewrite length_app, Hn. simpl. lia.
Qed.

#[export] Hint Resolve pairs_ok_nil pairs_ok_snoc : go.

Lemma ccData_loop_returns n b out :
  bytes_ok b -> pairs_ok out -> returns (ccData_loop n b out) pairs_ok.
Proof.
  revert b out. induction n as [| n IH]; intros b out Hb Ho; simpl; [done |].
  case_match; [done |].
  apply returns_bind, returns_idx; [done | lia |]. intros b0 _ _. cbv zeta.
  apply returns_bind. apply returns_mono with (P := pairs_ok).
  { case_match; [| done]. go_steps. by eauto with go. }
  intros out' Ho'. go_step. go_step. by apply IH.
Qed.

Lemma ccData_returns b out : bytes_ok b -> pairs_ok out -> returns (ccData b out) pairs_ok.
Proof.
  intros Hb Ho. unfold ccData. case_match; [done |].
  apply returns_bind, returns_idx; [done | lia |]. intros b0 _ _.
  case_match; [done |]. cbv zeta. go_step. go_step. by apply ccData_loop_returns.
Qed.

Lemma fromMPEG2_loop_returns fuel es out :
  bytes_ok es -> pairs_ok out -> (length es < fuel)%nat ->
  returns (fromMPEG2_loop fuel es out) pairs_ok.
Proof.
  revert es out. induction fuel as [| fuel IH]; intros es out He Ho Hf; [lia |]. simpl.
  destruct (bytes_index_cases es [0; 0; 1; 0xb2]) as [[-> _] | (i & -> & _ & Hi)]; [done |].
  replace (Z.of_nat i <? 0) with false by lia. unfold zlen in Hi at 1. simpl in Hi.
  go_step. go_step. rename s into es'.
  apply returns_bind. apply returns_mono with (P := pairs_ok).
  - repeat (go_step; cbv beta); try done. by apply ccData_returns.
  - intros out' Ho'. apply IH; [done | done |]. unfold zlen in *. lia.
Qed.

Lemma ff_run_spec v b :
  bytes_ok b -> 0 <= v ->
  0 <= fst (ff_run v b) /\ bytes_ok (snd (ff_run v b)) /\ zlen (snd (ff_run v b)) <= zlen b.
Proof.
  intros Hb. revert v. induction Hb as [| c b Hc Hb IH]; intros v Hv; simpl.
  - split_and!; [done | constructor | lia].
  - case_match; simpl.
    + destruct (IH (v + 255) ltac:(lia)) as (? & ? & ?). rewrite zlen_cons. split_and!; [done | done | lia].
    + split_and!; [done | by constructor | lia].
Qed.

Lemma sei_message_returns kind msg out :
  bytes_ok msg -> pairs_ok out -> returns (sei_message kind msg out) pairs_ok.
Proof.
  intros Hm Ho. unfold sei_message.
  repeat (go_step; cbv beta); try done. by apply ccData_returns.
Qed.

Lemma seiCaptions_loop_returns fuel b out :
  bytes_ok b -> pairs_ok out -> (length b < fuel)%nat ->
  returns (seiCaptions_loop fuel b out) pairs_ok.
Proof.
  revert b out. induction fuel as [| fuel IH]; intros b out Hb Ho Hf; [lia |]. simpl.
  destruct (2 <? zlen b) eqn:H2; simpl; [| done].
  pose proof (ff_run_spec 0 b Hb ltac:(lia)) as H. destruct (ff_run 0 b) as [kind b1]; simpl in H.
  destruct H as (Hk & Hb1 & Hl1). pose proof (zlen_nonneg b1).
  case_match; [done |]. do 2 go_step. do 2 go_step. rename s into b2.
  pose proof (ff_run_spec 0 b2 ltac:(done) ltac:(lia)) as H'.
  destruct (ff_run 0 b2) as [size b3]; simpl in H'. destruct H' as (Hs & Hb3 & Hl3).
  pose proof (zlen_nonneg b3).
  case_match; [done |]. do 2 go_step. do 2 go_step. case_match; [done |].
  do 2 go_step. do 2 go_step.
  apply returns_bind. eapply returns_mono; [by apply sei_message_returns |].
  intros out' Ho'. apply IH; [done | done |]. pose_bits. unfold zlen in *. lia.
Qed.

Lemma unescape_loop_ok z b out : bytes_ok b -> bytes_ok out -> bytes_ok (unescape_loop z b out).
Proof.
  intros Hb. revert z out. induction Hb as [| c b Hc Hb IH]; intros z out Ho; simpl; [done |].
  case_match; apply IH; eauto with go.
Qed.

Lemma unescape_ok b : bytes_ok b -> bytes_ok (unescape b).
Proof. intros Hb. unfold unescape. case_match; [done |]. apply unescape_loop_ok; eauto with go. Qed.

Lemma index_head b pat e0 :
  idx b 0 = Ok e0 -> bytes_index b (0 :: pat) = 0 -> e0 = 0.
Proof.
  intros He Hi.
  destruct (bytes_index_cases b (0 :: pat)) as [[E _] | (i & E & F & _)]; [lia |].
  assert (i = 0%nat) as -> by lia. apply find_sub_Some in F as (r & Hr & _).
  rewrite drop_0 in Hr. subst b. by injection He as <-.
Qed.

Lemma fromH264_loop_returns fuel es out :
  bytes_ok es -> pairs_ok out -> (length es < fuel)%nat ->
  returns (fromH264_loop fuel es out) pairs_ok.
Proof.
  revert es out. induction fuel as [| fuel IH]; intros es out He Ho Hf; [lia |]. simpl.
  destruct (bytes_index_cases es [0; 0; 1]) as [[-> _] | (i & -> & _ & Hi)]; [done |].
  replace (Z.of_nat i <? 0) with false by lia. simpl. unfold zlen in Hi at 1. simpl in Hi.
  destruct (zlen es <=? Z.of_nat i + 3) eqn:Hend; [done |].
  do 2 go_step. rename s into es'.
  apply returns_bind, returns_idx; [done | lia |]. intros e0 He0 Hl0.
  destruct (negb (Z.land e0 0x1f =? 6)) eqn:Hk; [apply IH; [done | done | unfold zlen in *; lia] |].
  assert (idx es' 0 = Ok e0) as Hidx by (by apply idx_Ok).
  set (e := if bytes_index es' [0; 0; 1] <? 0 then zlen es' else bytes_index es' [0; 0; 1]).
  assert (1 <= e <= zlen es') as Hee.
  { subst e. destruct (bytes_index_cases es' [0; 0; 1]) as [[-> _] | (j & E & _ & Hj)].
    - simpl. lia.
    - rewrite E. replace (Z.of_nat j <? 0) with false by lia.
      unfold zlen in Hj at 1. simpl in Hj. split; [| lia].
      destruct (decide (j = 0%nat)) as [-> |]; [| lia].
      apply (index_head es' [0; 1] e0) in E; [| done]. subst e0. done. }
  clearbody e. do 2 go_step. apply returns_bind.
  eapply returns_mono.
  { apply seiCaptions_loop_returns; [by apply unescape_ok | done | lia]. }
  intros out' Ho'. apply IH; [done | done | unfold zlen in *; lia].
Qed.

(** The caption scanners accept any picture bytes: both end within their
    fuel without a panic (the SEI slice included, which would be empty and
    reversed if a start code could follow a start code at once), and what they
    return is whole pairs of 7-bit characters. *)
Theorem captions_scan_total : forall es,
  bytes_ok es ->
  (exists out, fromMPEG2 es = Ok out /\ pairs_ok out) /\
  (exists out, fromH264 es = Ok out /\ pairs_ok out).
Proof.
  intros es He. split; apply returns_exists.
  - apply fromMPEG2_loop_returns; [done | apply pairs_ok_nil | lia].
  - apply fromH264_loop_returns; [done | apply pairs_ok_nil | lia].
Qed.

Lemma captions_scan_total_witness :
  (exists out, fromMPEG2 [0; 0; 1; 0xb2; 0x47] = Ok out /\ pairs_ok out) /\
  (exists out, fromH264 [0; 0; 1; 0xb2; 0x47] = Ok out /\ pairs_ok out).
Proof. apply (captions_scan_total [0; 0; 1; 0xb2; 0x47]). bytes_dec. Defined.

(** ** Emulation prevention *)

Fixpoint unesc (zeros : Z) (b : list Z) : list Z :=
  match b with
  | [] => []
  | c :: b =>
      if ((2 <=? zeros) && (c =? 3))%bool then unesc 0 b
      else c :: unesc (if c =? 0 then zeros + 1 else 0) b
  end.

Lemma unescape_loop_eq z b out : unescape_loop z b out = out ++ unesc z b.
Proof.
  revert z out. induction b as [| c b IH]; intros z out; simpl; [by rewrite app_nil_r |].
  case_match; rewrite IH; [done |]. by rewrite <- app_assoc.
Qed.

(** The encoder's side (H.264, 7.3.1): a 3 goes before any byte up to 3 that
    follows two zeros. *)
Fixpoint escape_from (zeros : Z) (b : list Z) : list Z :=
  match b with
  | [] => []
  | c :: b =>
      if ((2 <=? zeros) && (c <=? 3))%bool
      then 3 :: c :: escape_from (if c =? 0 then 1 else 0) b
      else c :: escape_from (if c =? 0 then zeros + 1 else 0) b
  end.

Lemma unesc_escape z b : unesc z (escape_from z b) = b.
Proof.
  revert z. induction b as [| c b IH]; intros z; simpl; [done |].
  destruct ((2 <=? z) && (c <=? 3))%bool eqn:E; simpl.
  - destruct (2 <=? z) eqn:Ez; [| done]. simpl.
    f_equal. destruct (c =? 0) eqn:Ec; simpl; apply IH.
  - destruct ((2 <=? z) && (c =? 3))%bool eqn:E3; [lia |]. f_equal. apply IH.
Qed.

Lemma unesc_keep z b :
  0 <= z ->
  (forall i, has_prefix [0; 0; 3] (drop i (replicate (Z.to_nat (Z.min z 2)) 0 ++ b)) = false) ->
  unesc z b = b.
Proof.
  revert z. induction b as [| c b IH]; intros z Hz H; [done |]. cbn [unesc].
  assert (((2 <=? z) && (c =? 3))%bool = false) as ->.
  { destruct (2 <=? z) eqn:E2; [| done]. destruct (c =? 3) eqn:E3; [| done].
    specialize (H 0%nat). replace (Z.min z 2) with 2 in H by lia.
    assert (c = 3) as -> by lia. by rewrite drop_0 in H. }
  f_equal. destruct (c =? 0) eqn:E0.
  - assert (c = 0) as -> by lia. apply IH; [lia |]. intros i.
    destruct (Z.leb_spec 2 z).
    + specialize (H (S i)). replace (Z.min z 2) with 2 in H by lia.
      replace (Z.min (z + 1) 2) with 2 by lia. exact H.
    + specialize (H i).
      replace (Z.to_nat (Z.min (z + 1) 2)) with (Z.to_nat (Z.min z 2) + 1)%nat by lia.
      rewrite replicate_add, <- app_assoc. exact H.
  - apply IH; [lia |]. intros i.
    specialize (H (Z.to_nat (Z.min z 2) + 1 + i)%nat).
    rewrite <- drop_drop in H. rewrite (drop_app_ge _ _ (_ + 1)) in H
      by (rewrite length_replicate; lia).
    rewrite length_replicate in H.
    by replace (Z.to_nat (Z.min z 2) + 1 - Z.to_nat (Z.min z 2))%nat with 1%nat in H by lia.
Qed.

Lemma unescape_slow b : unescape b = unesc 0 b.
Proof.
  unfold unescape. case_match eqn:E.
  - symmetry. apply unesc_keep; [lia |]. intros i. apply find_sub_None.
    destruct (bytes_index_cases b [0; 0; 3]) as [[_ F] | (j & E' & _)]; [done | lia].
  - by rewrite unescape_loop_eq.
Qed.

(** [unescape] undoes H.264 emulation prevention for every payload, on
    its fast path (no 00 00 03 in the bytes) and on its loop. *)
Theorem unescape_escape : forall b, unescape (escape_from 0 b) = b.
Proof. intros b. rewrite unescape_slow. apply unesc_escape. Qed.

(** ** Caption data written and read back *)

(** [cc_data()] with one valid field-1 triple per pair. *)
Definition cc_encode (ps : list (Z * Z)) : list Z :=
  Z.lor 0x40 (zlen ps) :: 0xff :: concat (map (fun p => [0xfc; fst p; snd p]) ps).

Definition cc_pairs (ps : list (Z * Z)) : list Z :=
  concat (map (fun p => [Z.land (fst p) 0x7f; Z.land (snd p) 0x7f]) ps).

Lemma ccData_loop_encode ps tail out :
  ccData_loop (length ps) (concat (map (fun p => [0xfc; fst p; snd p]) ps) ++ tail) out
  = Ok (out ++ cc_pairs ps).
Proof.
  revert out. induction ps as [| [a b] ps IH]; intros out; simpl; [by rewrite app_nil_r |].
  rewrite !zlen_cons. pose proof (zlen_nonneg (concat (map (fun p => [0xfc; fst p; snd p]) ps) ++ tail)).
  replace (_ <? 3) with false by lia. simpl.
  rewrite slice_from_Ok by (rewrite !zlen_cons; lia). simpl. rewrite drop_0.
  rewrite IH. unfold cc_pairs. simpl. by rewrite <- app_assoc.
Qed.

Lemma cc_count (n : Z) : 0 <= n < 32 ->
  Z.land (Z.lor 0x40 n) 0x40 =? 0 = false /\ Z.land (Z.lor 0x40 n) 0x1f = n.
Proof.
  intros Hn. assert (Forall (fun n => (Z.land (Z.lor 0x40 n) 0x40 =? 0) = false /\
    Z.land (Z.lor 0x40 n) 0x1f = n) (map Z.of_nat (seq 0 32))) as HF by (repeat constructor).
  rewrite list.Forall_forall in HF. apply HF. apply list_elem_of_In, in_map_iff.
  exists (Z.to_nat n). split; [lia | apply in_seq; lia].
Qed.

Lemma ccData_encode ps tail out :
  (length ps < 32)%nat -> ccData (cc_encode ps ++ tail) out = Ok (out ++ cc_pairs ps).
Proof.
  intros Hn. unfold ccData, cc_encode. simpl app. rewrite !zlen_cons.
  pose proof (zlen_nonneg (concat (map (fun p => [0xfc; fst p; snd p]) ps) ++ tail)).
  replace (_ <? 2) with false by lia. unfold idx at 1. simpl.
  destruct (cc_count (zlen ps)) as [-> ->]; [unfold zlen; lia |].
  rewrite slice_from_Ok by (rewrite !zlen_cons; lia). simpl. rewrite drop_0.
  unfold zlen. rewrite Nat2Z.id. apply ccData_loop_encode.
Qed.

#[local] Arguments ccData : simpl never.
#[local] Arguments cc_encode : simpl never.

(** MPEG-2 picture user data carrying [ps]. *)
Definition mpeg2_user_data (ps : list (Z * Z)) : list Z :=
  [0; 0; 1; 0xb2] ++ ga94 ++ [0x03] ++ cc_encode ps.

(** The pairs a broadcaster writes into MPEG-2 picture user data are the
    pairs [fromMPEG2] returns, parity bits stripped, wherever the start code
    first occurs, provided no other user-data start code follows. *)
Theorem mpeg2_roundtrip : forall pre ps tail,
  (length ps < 32)%nat ->
  bytes_index (pre ++ mpeg2_user_data ps ++ tail) [0; 0; 1; 0xb2] = zlen pre ->
  bytes_index (ga94 ++ [0x03] ++ cc_encode ps ++ tail) [0; 0; 1; 0xb2] = -1 ->
  fromMPEG2 (pre ++ mpeg2_user_data ps ++ tail) = Ok (cc_pairs ps).
Proof.
  intros pre ps tail Hn Hpre Htail. unfold fromMPEG2. cbn [fromMPEG2_loop].
  rewrite Hpre. pose proof (zlen_nonneg pre). replace (zlen pre <? 0) with false by lia.
  assert (pre ++ mpeg2_user_data ps ++ tail =
    (pre ++ [0; 0; 1; 0xb2]) ++ ga94 ++ [0x03] ++ cc_encode ps ++ tail) as E.
  { unfold mpeg2_user_data. by rewrite <- !app_assoc. }
  rewrite E. rewrite slice_from_Ok.
  2: { rewrite !zlen_app. unfold zlen. simpl. lia. }
  cbn [rbind]. replace (Z.to_nat (zlen pre + 4)) with (length (pre ++ [0; 0; 1; 0xb2])).
  2: { rewrite length_app. unfold zlen. simpl. lia. }
  rewrite drop_app_length.
  assert (1 <= zlen (cc_encode ps ++ tail)) as Hl.
  { unfold cc_encode. simpl. rewrite !zlen_cons.
    pose proof (zlen_nonneg (concat (map (fun p => [0xfc; fst p; snd p]) ps) ++ tail)). lia. }
  set (body := cc_encode ps ++ tail) in *.
  replace (5 <? zlen (ga94 ++ [3] ++ body)) with true
    by (rewrite !zlen_app; change (zlen ga94) with 4; change (zlen [3]) with 1; lia).
  rewrite slice_Ok by (rewrite ?zlen_app; change (zlen ga94) with 4; change (zlen [3]) with 1; lia).
  simpl. rewrite slice_from_Ok by (rewrite !zlen_cons; lia). simpl. rewrite ?drop_0.
  pose proof (ccData_encode ps tail [] Hn) as Hcc. unfold cc_encode in Hcc. simpl in Hcc.
  rewrite Hcc. clear Hcc. subst body. simpl.
  destruct (length (_ ++ _)) as [| fuel] eqn:El.
  { rewrite <- !app_assoc, length_app in El. simpl in El. lia. }
  cbn [fromMPEG2_loop]. simpl in Htail. rewrite Htail. done.
Qed.

Lemma mpeg2_roundtrip_witness :
  fromMPEG2 ([0; 0; 1; 0x00; 0x12] ++ mpeg2_user_data [(0x94, 0x20); (0xc8, 0x49)] ++ [0xff; 0; 0; 1; 1])
  = Ok [0x14; 0x20; 0x48; 0x49].
Proof.
  apply (mpeg2_roundtrip [0; 0; 1; 0x00; 0x12] [(0x94, 0x20); (0xc8, 0x49)] [0xff; 0; 0; 1; 1]);
    [simpl; lia | reflexivity | reflexivity].
Defined.
