(* ===== verification/CapTs.v ===== *)
(** The caption reader, [server/internal/captions/ts.go]: transport packets in,
    the pictures' caption pairs out in display order.

    [reader] is the Go struct without its callback; [emitted] is the list of
    the calls to [fn] so far, oldest first. *)
From Stdlib Require Import Sorted.
From S2P Require Import Prelude Mpeg CapCc.
Local Open Scope Z_scope.
Local Open Scope go_scope.

Definition streamMPEG2 : Z := 0x02.
Definition streamH264 : Z := 0x1b.
Definition reorderDepth : Z := 8.
Definition breakBack : Z := 90000.
Definition breakAhead : Z := 10 * 90000.
Definition maxPES : Z := Z.shiftl 4 20.

Record picture : Type := mkPicture { pts : Z; cc : list Z }.

Record reader : Type := mkReader {
  program : Z;
  carry : list Z;
  pmtPID : Z;
  video : Z;
  kind : Z;
  pes : list Z;
  held : list picture;
  emitted : list picture }.

Definition NewReader (program : Z) : reader := mkReader program [] (-1) (-1) 0 [] [] [].

Definition set_carry (r : reader) (b : list Z) : reader :=
  mkReader (program r) b (pmtPID r) (video r) (kind r) (pes r) (held r) (emitted r).
Definition set_pmtPID (r : reader) (p : Z) : reader :=
  mkReader (program r) (carry r) p (video r) (kind r) (pes r) (held r) (emitted r).
Definition set_video (r : reader) (p k : Z) : reader :=
  mkReader (program r) (carry r) (pmtPID r) p k (pes r) (held r) (emitted r).
Definition set_pes (r : reader) (b : list Z) : reader :=
  mkReader (program r) (carry r) (pmtPID r) (video r) (kind r) b (held r) (emitted r).
Definition set_held (r : reader) (h e : list picture) : reader :=
  mkReader (program r) (carry r) (pmtPID r) (video r) (kind r) (pes r) h e.

(** ** Display order *)

(** [emit]'s loop: the index of the held picture that shows first. *)
Fixpoint first_of (i first : nat) (fpts : Z) (l : list picture) : nat :=
  match l with
  | [] => first
  | p :: l => if ptsDelta (pts p) fpts <? 0 then first_of (S i) i (pts p) l
              else first_of (S i) first fpts l
  end.

Definition emit (r : reader) : res reader :=
  match held r with
  | [] => Panic
  | p0 :: l =>
      let first := first_of 1 0 (pts p0) l in
      let! pic := idx (held r) (Z.of_nat first) in
      Ok (set_held r (take first (held r) ++ drop (S first) (held r)) (emitted r ++ [pic]))
  end.

(** [for len(r.held) > 0 { r.emit() }] *)
Fixpoint emit_all (fuel : nat) (r : reader) : res reader :=
  match held r with
  | [] => Ok r
  | _ :: _ =>
      match fuel with
      | O => NoFuel
      | S fuel => let! r := emit r in emit_all fuel r
      end
  end.

(** The part of [endPES] that reads the PES: its timestamp and caption pairs. *)
Definition pes_picture (kind : Z) (b : list Z) : res (option picture) :=
  if zlen b <? 14 then Ok None else
  let! b0 := idx b 0 in let! b1 := idx b 1 in let! b2 := idx b 2 in
  let! b7 := idx b 7 in
  if (negb (b0 =? 0) || negb (b1 =? 0) || negb (b2 =? 1) || (Z.land b7 0x80 =? 0))%bool
  then Ok None else
  let! b8 := idx b 8 in
  let payload := 9 + b8 in
  if zlen b <? payload then Ok None else
  let! b9 := idx b 9 in let! b10 := idx b 10 in let! b11 := idx b 11 in
  let! b12 := idx b 12 in let! b13 := idx b 13 in
  let p := pts_value b9 b10 b11 b12 b13 in
  let! es := slice_from b payload in
  let! c := (if kind =? streamH264 then fromH264 es else fromMPEG2 es) in
  Ok (Some (mkPicture p c)).

(** The part of [endPES] that holds a picture for reordering. *)
Definition hold (r : reader) (pic : picture) : res reader :=
  let n := zlen (held r) in
  let! r :=
    (if 0 <? n then
       let! lastp := idx (held r) (n - 1) in
       let d := ptsDelta (pts pic) (pts lastp) in
       if ((d <? - breakBack) || (breakAhead <? d))%bool
       then emit_all (length (held r)) r else Ok r
     else Ok r) in
  let r := set_held r (held r ++ [pic]) (emitted r) in
  if reorderDepth <? zlen (held r) then emit r else Ok r.

Definition endPES (r : reader) : res reader :=
  let b := pes r in
  let r := set_pes r [] in
  let! o := pes_picture (kind r) b in
  match o with
  | None => Ok r
  | Some pic => hold r pic
  end.

(** ** Tables *)

Definition section (body : list Z) : res (option (list Z)) :=
  if zlen body =? 0 then Ok None else
  let! b0 := idx body 0 in
  if zlen body <? b0 + 1 then Ok None else
  let! sec := slice_from body (1 + b0) in
  if zlen sec <? 12 then Ok None else
  let! s1 := idx sec 1 in let! s2 := idx sec 2 in
  let n := 3 + be16 (Z.land s1 0x0f) s2 - 4 in
  if ((zlen sec <? n) || (n <? 12))%bool then Ok None else
  let! s := slice sec 0 n in Ok (Some s).

Fixpoint pat_loop (fuel : nat) (r : reader) (sec : list Z) (off : Z) : res reader :=
  if negb (off + 4 <=? zlen sec) then Ok r else
  match fuel with
  | O => NoFuel
  | S fuel =>
      let! p0 := idx sec off in let! p1 := idx sec (off + 1) in
      let prog := be16 p0 p1 in
      if ((prog =? 0) || (negb (program r =? 0) && negb (prog =? program r)))%bool
      then pat_loop fuel r sec (off + 4)
      else
        let! p2 := idx sec (off + 2) in let! p3 := idx sec (off + 3) in
        Ok (set_pmtPID r (be16 (Z.land p2 0x1f) p3))
  end.

Definition pat (r : reader) (body : list Z) : res reader :=
  let! o := section body in
  match o with
  | None => Ok r
  | Some sec =>
      let! s0 := idx sec 0 in
      if negb (s0 =? 0x00) then Ok r else pat_loop (length sec) r sec 8
  end.

Fixpoint pmt_loop (fuel : nat) (r : reader) (sec : list Z) (off : Z) : res reader :=
  if negb (off + 5 <=? zlen sec) then Ok r else
  match fuel with
  | O => NoFuel
  | S fuel =>
      let! knd := idx sec off in
      let! p1 := idx sec (off + 1) in let! p2 := idx sec (off + 2) in
      let pid := be16 (Z.land p1 0x1f) p2 in
      let! l3 := idx sec (off + 3) in let! l4 := idx sec (off + 4) in
      let off := off + 5 + be16 (Z.land l3 0x0f) l4 in
      if (negb (knd =? streamMPEG2) && negb (knd =? streamH264))%bool
      then pmt_loop fuel r sec off
      else
        let r := if negb (pid =? video r) then set_pes r [] else r in
        Ok (set_video r pid knd)
  end.

Definition pmt (r : reader) (body : list Z) : res reader :=
  let! o := section body in
  match o with
  | None => Ok r
  | Some sec =>
      let! s0 := idx sec 0 in
      if negb (s0 =? 0x02) then Ok r else
      let! s10 := idx sec 10 in let! s11 := idx sec 11 in
      let off := 12 + be16 (Z.land s10 0x0f) s11 in
      pmt_loop (length sec) r sec off
  end.

(** ** Packets *)

Definition packet (r : reader) (pkt : list Z) : res reader :=
  let! b1 := idx pkt 1 in let! b2 := idx pkt 2 in
  let pid := packet_pid_of b1 b2 in
  let start := negb (Z.land b1 0x40 =? 0) in
  let! b3 := idx pkt 3 in
  let afc := Z.land (Z.shiftr b3 4) 0x3 in
  if ((afc =? 0) || (afc =? 2))%bool then Ok r else
  let! body := slice_from pkt 4 in
  let! o :=
    (if afc =? 3 then
       let! n := idx pkt 4 in
       if zlen body <? 1 + n then Ok None
       else let! body := slice_from body (1 + n) in Ok (Some body)
     else Ok (Some body)) in
  match o with
  | None => Ok r
  | Some body =>
      if ((pid =? 0) && start)%bool then pat r body
      else if ((pid =? pmtPID r) && start)%bool then pmt r body
      else if pid =? video r then
        if start then
          let! r := endPES r in Ok (set_pes r body)
        else if ((0 <? zlen (pes r)) && (zlen (pes r) <? maxPES))%bool
        then Ok (set_pes r (pes r ++ body))
        else Ok r
      else Ok r
  end.

(** The loop of [Write]; the offset is the number of bytes dropped so far. *)
Fixpoint write_loop (fuel : nat) (r : reader) (data : list Z) : res (reader * list Z) :=
  if zlen data <? 188 then Ok (r, data) else
  match fuel with
  | O => NoFuel
  | S fuel =>
      let! b0 := idx data 0 in
      if negb (b0 =? 0x47) then
        let! data := slice_from data 1 in write_loop fuel r data
      else
        let! pkt := slice data 0 188 in
        let! r := packet r pkt in
        let! data := slice_from data 188 in
        write_loop fuel r data
  end.

Definition Write (r : reader) (p : list Z) : res reader :=
  let data := carry r ++ p in
  let r := set_carry r [] in
  let! '(r, rest) := write_loop (length data) r data in
  Ok (set_carry r rest).

Definition Flush (r : reader) : res reader :=
  let! r := endPES r in
  emit_all (length (held r)) r.

(** ** Totality and the reader's invariant *)

Definition picture_ok (p : picture) : Prop := 0 <= pts p < 2 ^ 33 /\ pairs_ok (cc p).

(** The carry is a proper packet prefix, the open PES is bounded, at most
    [reorderDepth] pictures are held, and every picture has a 33-bit time and
    whole caption pairs. *)
Record reader_ok (r : reader) : Prop := {
  ok_carry : bytes_ok (carry r) /\ zlen (carry r) < 188;
  ok_pes : bytes_ok (pes r) /\ zlen (pes r) < maxPES + 184;
  ok_held : Forall picture_ok (held r) /\ zlen (held r) <= reorderDepth;
  ok_emitted : Forall picture_ok (emitted r) }.

Lemma maxPES_eq : maxPES = 4194304.
Proof. done. Qed.

Lemma NewReader_ok prog : reader_ok (NewReader prog).
Proof. constructor; simpl; repeat split; try constructor; done. Qed.

Lemma first_of_lt i first f l : (first < i)%nat -> (first_of i first f l < i + length l)%nat.
Proof.
  revert i first f. induction l as [| p l IH]; intros i first f H; simpl; [lia |].
  case_match.
  - specialize (IH (S i) i (pts p) ltac:(lia)). lia.
  - specialize (IH (S i) first f ltac:(lia)). lia.
Qed.

(** Taking the picture at position [k] out of [h]. *)
Definition without {A} (k : nat) (h : list A) : list A := take k h ++ drop (S k) h.

Lemma without_permutation {A} k (h : list A) x :
  h !! k = Some x -> Permutation h (x :: without k h).
Proof.
  intros Hk. rewrite <- (take_drop_middle h k x Hk) at 1. unfold without.
  symmetry. apply Permutation_middle.
Qed.

Lemma emit_spec r p0 l :
  held r = p0 :: l ->
  let k := first_of 1 0 (pts p0) l in
  exists pic, held r !! k = Some pic /\
    emit r = Ok (set_held r (without k (held r)) (emitted r ++ [pic])).
Proof.
  intros Hh k. pose proof (first_of_lt 1 0 (pts p0) l ltac:(lia)) as Hk. fold k in Hk.
  destruct (idx_in_range (held r) (Z.of_nat k)) as (pic & Hpic & Hidx).
  { rewrite Hh, zlen_cons. unfold zlen. lia. }
  exists pic. rewrite Nat2Z.id in Hpic. split; [done |].
  unfold emit. rewrite Hh at 1. fold k. rewrite Hidx. done.
Qed.

Lemma emit_returns r :
  held r <> [] ->
  exists pic h, emit r = Ok (set_held r h (emitted r ++ [pic])) /\ Permutation (held r) (pic :: h).
Proof.
  destruct (held r) as [| p0 l] eqn:Hh; [done |]. intros _.
  destruct (emit_spec r p0 l Hh) as (pic & Hpic & E). rewrite E.
  eexists pic, _. split; [done |]. rewrite <- Hh. by apply without_permutation.
Qed.

Lemma emit_all_returns n r :
  (length (held r) <= n)%nat ->
  exists es, emit_all n r = Ok (set_held r [] (emitted r ++ es)) /\ Permutation (held r) es.
Proof.
  revert r. induction n as [| n IH]; intros r Hn.
  - destruct (held r) eqn:Hh; [| simpl in Hn; lia]. exists []. rewrite app_nil_r.
    split; [| done]. simpl. rewrite Hh. destruct r; simpl in *. by subst.
  - destruct (held r) as [| p0 l] eqn:Hh.
    { exists []. rewrite app_nil_r. split; [| done]. simpl. rewrite Hh. destruct r; simpl in *. by subst. }
    destruct (emit_returns r) as (pic & h & E & HP); [by rewrite Hh |].
    cbn [emit_all]. rewrite Hh, E. cbn [rbind].
    destruct (IH (set_held r h (emitted r ++ [pic]))) as (es & -> & HP2).
    { simpl. apply Permutation_length in HP. rewrite Hh in HP. simpl in *. lia. }
    exists (pic :: es). simpl in *. rewrite <- app_assoc. split; [done |].
    rewrite <- Hh, HP. by constructor.
Qed.

(** Holding a picture neither loses, repeats nor invents one, and at most
    [reorderDepth] stay held. *)
Lemma hold_returns r pic :
  zlen (held r) <= reorderDepth ->
  exists h e, hold r pic = Ok (set_held r h (emitted r ++ e)) /\
    Permutation (held r ++ [pic]) (e ++ h) /\ zlen h <= reorderDepth.
Proof.
  unfold reorderDepth. intros Hn. unfold hold, reorderDepth.
  assert (exists h0 e0, (let! r := (if 0 <? zlen (held r) then
       let! lastp := idx (held r) (zlen (held r) - 1) in
       let d := ptsDelta (pts pic) (pts lastp) in
       if ((d <? - breakBack) || (breakAhead <? d))%bool
       then emit_all (length (held r)) r else Ok r else Ok r) in Ok r)
     = Ok (set_held r h0 (emitted r ++ e0)) /\ Permutation (held r) (e0 ++ h0) /\ zlen h0 <= 8)
    as (h0 & e0 & E & HP & Hl).
  { assert (set_held r (held r) (emitted r ++ []) = r) as Hid
      by (rewrite app_nil_r; by destruct r).
    destruct (0 <? zlen (held r)) eqn:E0.
    2: { exists (held r), []. rewrite Hid. done. }
    destruct (idx_in_range (held r) (zlen (held r) - 1)) as (lastp & _ & ->); [lia |].
    cbn [rbind]. cbv zeta. case_match.
    - destruct (emit_all_returns (length (held r)) r ltac:(lia)) as (es & -> & HP).
      exists [], es. rewrite app_nil_r. split_and!; [done | done | by rewrite zlen_nil].
    - exists (held r), []. rewrite Hid. done. }
  destruct (if 0 <? zlen (held r) then _ else _) as [r0 | |]; [| done | done].
  cbn [rbind] in *. injection E as ->. cbv zeta.
  change (set_held (set_held r h0 (emitted r ++ e0)) _ _)
    with (set_held r (h0 ++ [pic]) (emitted r ++ e0)).
  change (held (set_held r (h0 ++ [pic]) _)) with (h0 ++ [pic]). rewrite zlen_app.
  change (zlen [pic]) with 1. destruct (8 <? zlen h0 + 1) eqn:E8.
  - destruct (emit_returns (set_held r (h0 ++ [pic]) (emitted r ++ e0))) as (p & h & -> & HP2).
    { simpl. by destruct h0. }
    simpl in *. exists h, (e0 ++ [p]). rewrite <- app_assoc. split; [done |]. split.
    + rewrite HP, <- app_assoc, HP2, <- app_assoc. done.
    + apply Permutation_length in HP2. rewrite length_app in HP2. unfold zlen in *. simpl in *. lia.
  - exists (h0 ++ [pic]), e0. split; [done |]. split.
    + by rewrite HP, app_assoc.
    + rewrite zlen_app. change (zlen [pic]) with 1. lia.
Qed.

Lemma pes_picture_returns k b :
  bytes_ok b ->
  returns (pes_picture k b) (fun o => match o with Some p => picture_ok p | None => True end).
Proof.
  intros Hb. unfold pes_picture. case_match; [done |].
  do 4 (apply returns_bind, returns_idx; [done | lia |]; intros ? _ _).
  case_match; [done |].
  apply returns_bind, returns_idx; [done | lia |]. intros b8 Hb8 _. cbv zeta.
  case_match; [done |].
  do 5 (apply returns_bind, returns_idx; [done | lia |]; intros ? ? _). cbv zeta.
  do 2 go_step. apply returns_bind.
  apply returns_mono with (P := pairs_ok).
  - case_match.
    + apply fromH264_loop_returns; [done | apply pairs_ok_nil | lia].
    + apply fromMPEG2_loop_returns; [done | apply pairs_ok_nil | lia].
  - intros c Hc. apply returns_Ok. split; [by apply pts_value_range | done].
Qed.

Lemma endPES_returns r :
  reader_ok r ->
  returns (endPES r) (fun r' => reader_ok r' /\ pes r' = [] /\ carry r' = carry r).
Proof.
  intros [Hc [Hp Hpl] [Hh Hhl] He]. unfold endPES. cbv zeta. apply returns_bind.
  eapply returns_mono; [by apply pes_picture_returns |].
  assert (reader_ok (set_pes r [])) as Hok.
  { constructor; simpl; try done. split; [constructor | done]. }
  intros [pic|] Hpic; [| done].
  destruct (hold_returns (set_pes r []) pic Hhl) as (h & e & -> & HP & Hl).
  apply returns_Ok. split; [| done]. simpl in *.
  assert (Forall picture_ok (e ++ h)) as HF.
  { rewrite <- HP. apply Forall_app. split; [done | by apply Forall_singleton]. }
  apply Forall_app in HF as [HFe HFh].
  constructor; simpl; try done.
  - by split; [constructor |].
  - by apply Forall_app.
Qed.

Lemma section_returns body :
  bytes_ok body ->
  returns (section body) (fun o =>
    match o with Some s => bytes_ok s /\ 12 <= zlen s | None => True end).
Proof.
  intros Hb. unfold section. pose proof (zlen_nonneg body). case_match; [done |].
  do 2 go_step. case_match; [done |]. do 2 go_step. rename s into sec. case_match; [done |].
  do 2 go_step. do 2 go_step. cbv zeta. case_match; [done |].
  do 3 go_step. split; [done | lia].
Qed.

Lemma pat_loop_returns fuel r sec off :
  bytes_ok sec -> 0 <= off -> zlen sec - off <= Z.of_nat fuel ->
  returns (pat_loop fuel r sec off) (fun r' => exists p, r' = set_pmtPID r p).
Proof.
  intros Hs. revert r off. induction fuel as [| fuel IH]; intros r off Ho Hf; simpl.
  - case_match; [exists (pmtPID r); by destruct r | lia].
  - case_match; [exists (pmtPID r); by destruct r |]. do 2 go_step. do 2 go_step. cbv zeta.
    case_match; [apply IH; lia |]. do 2 go_step. do 2 go_step. by eexists.
Qed.

Lemma pat_returns r body :
  bytes_ok body -> returns (pat r body) (fun r' => exists p, r' = set_pmtPID r p).
Proof.
  intros Hb. unfold pat. apply returns_bind. eapply returns_mono; [by apply section_returns |].
  intros [sec|]; [| intros _; exists (pmtPID r); by destruct r]. intros [Hs Hl].
  do 2 go_step. case_match; [exists (pmtPID r); by destruct r |].
  apply pat_loop_returns; [done | lia | unfold zlen; lia].
Qed.

Lemma pmt_loop_returns fuel r sec off :
  bytes_ok sec -> 0 <= off -> zlen sec - off <= Z.of_nat fuel -> reader_ok r ->
  returns (pmt_loop fuel r sec off) (fun r' => reader_ok r' /\ carry r' = carry r).
Proof.
  intros Hs. revert r off. induction fuel as [| fuel IH]; intros r off Ho Hf Hr; simpl.
  - case_match; [done | lia].
  - case_match; [done |]. do 2 go_step. do 2 go_step. do 2 go_step. cbv zeta.
    do 2 go_step. do 2 go_step. cbv zeta.
    case_match; [apply IH; [blia | blia | done] |].
    apply returns_Ok. destruct Hr. case_match; split; try done; constructor; simpl; try done.
    by split; [constructor |].
Qed.

Lemma pmt_returns r body :
  bytes_ok body -> reader_ok r ->
  returns (pmt r body) (fun r' => reader_ok r' /\ carry r' = carry r).
Proof.
  intros Hb Hr. unfold pmt. apply returns_bind. eapply returns_mono; [by apply section_returns |].
  intros [sec|]; [| done]. intros [Hs Hl].
  do 2 go_step. case_match; [done |]. do 2 go_step. do 2 go_step. cbv zeta.
  apply pmt_loop_returns; [done | blia | | done]. pose_bits. unfold zlen in *. lia.
Qed.

Lemma reader_packet_returns r pkt :
  bytes_ok pkt -> zlen pkt = 188 -> reader_ok r ->
  returns (packet r pkt) (fun r' => reader_ok r' /\ carry r' = carry r).
Proof.
  intros Hb Hl Hr. unfold packet. do 2 go_step. do 2 go_step. cbv zeta. do 2 go_step. cbv zeta.
  case_match; [done |]. do 2 go_step. rename s into body.
  apply returns_bind.
  apply returns_mono with (P := fun o => match o with Some b => bytes_ok b /\ zlen b <= 184 | None => True end).
  { case_match; [| apply returns_Ok; split; [done | lia]].
    do 2 go_step. case_match; [done |]. do 3 go_step. split; [done |]. blia. }
  intros [b|]; [| done]. intros [Hbb Hbl].
  case_match.
  { eapply returns_mono; [by apply pat_returns |]. intros r' [p ->]. destruct Hr. by split; [constructor |]. }
  case_match; [by apply pmt_returns |]. case_match; [| done]. case_match.
  - apply returns_bind. eapply returns_mono; [by apply endPES_returns |].
    intros r' ([? ? ? ?] & Hp & Hc). apply returns_Ok. split; [| done].
    constructor; simpl; try done. split; [done |]. pose proof maxPES_eq. lia.
  - case_match; [| done]. apply returns_Ok. destruct Hr as [? [? ?] ? ?]. split; [| done].
    constructor; try done. split; [by apply bytes_ok_app |]. cbn [pes set_pes]. rewrite zlen_app. pose proof maxPES_eq. lia.
Qed.

Lemma write_loop_returns fuel r data :
  (length data <= fuel)%nat -> bytes_ok data -> reader_ok r ->
  returns (write_loop fuel r data) (fun a =>
    reader_ok (fst a) /\ carry (fst a) = carry r /\ bytes_ok (snd a) /\ zlen (snd a) < 188).
Proof.
  revert r data. induction fuel as [| fuel IH]; intros r data Hf Hd Hr; simpl.
  - case_match; [| unfold zlen in *; lia]. apply returns_Ok; simpl. split_and!; try done. lia.
  - case_match; [apply returns_Ok; simpl; split_and!; try done; lia |].
    do 2 go_step. case_match.
    + do 2 go_step. apply IH; [unfold zlen in *; lia | done | done].
    + do 2 go_step. apply returns_bind. eapply returns_mono; [by apply reader_packet_returns |].
      intros r' [Hr' Hc']. do 2 go_step. rewrite <- Hc'. apply IH; [unfold zlen in *; lia | done | done].
Qed.

(** Broadcast bytes are untrusted: [Write] and [Flush] end within their
    fuel and never index or slice out of range, for any bytes in any chunks,
    and keep the reader's invariant: bounded buffers, at most [reorderDepth]
    held pictures, 33-bit times and whole caption pairs. *)
Theorem reader_total : forall r p,
  reader_ok r -> bytes_ok p ->
  (exists r', Write r p = Ok r' /\ reader_ok r') /\
  (exists r', Flush r = Ok r' /\ reader_ok r' /\ held r' = []).
Proof.
  intros r p Hr Hp. split; apply returns_exists.
  - unfold Write. cbv zeta. apply returns_bind. eapply returns_mono.
    { apply write_loop_returns; [lia | | ].
      - apply bytes_ok_app; [apply Hr | done].
      - destruct Hr. constructor; try done. split; [constructor | done]. }
    intros [r' rest] (Hr' & _ & Hb & Hl). apply returns_Ok.
    destruct Hr'. by constructor.
  - unfold Flush. apply returns_bind. eapply returns_mono; [by apply endPES_returns |].
    intros r' (Hr' & Hp' & _). destruct (emit_all_returns (length (held r')) r' ltac:(lia)) as (es & -> & HP).
    apply returns_Ok. destruct Hr' as [? ? [? ?] ?]. split; [| done].
    constructor; simpl; try done.
    apply Forall_app. split; [done |]. by rewrite <- HP.
Qed.

Lemma reader_total_witness :
  (exists r', Write (NewReader 0) [0x47; 0x40] = Ok r' /\ reader_ok r') /\
  (exists r', Flush (NewReader 0) = Ok r' /\ reader_ok r' /\ held r' = []).
Proof. apply (reader_total (NewReader 0) [0x47; 0x40]); [apply NewReader_ok | bytes_dec]. Defined.

(** ** Chunks of any size *)

Lemma write_loop_mono n m r data a :
  write_loop n r data = Ok a -> (n <= m)%nat -> write_loop m r data = Ok a.
Proof.
  revert m r data. induction n as [| n IH]; intros m r data H Hle.
  - simpl in H. destruct m; simpl; by case_match.
  - destruct m as [| m]; [lia |]. simpl in *. case_match; [done |].
    destruct (idx data 0) as [b0 | |]; simpl in *; [| done | done]. case_match.
    + destruct (slice_from data 1); simpl in *; [| done | done]. apply IH; [done | lia].
    + destruct (slice data 0 188); simpl in *; [| done | done].
      destruct (packet r _); simpl in *; [| done | done].
      destruct (slice_from data 188); simpl in *; [| done | done]. apply IH; [done | lia].
Qed.

Lemma slice_from_app_l {A} (b q : list A) i :
  0 <= i <= zlen b -> slice_from (b ++ q) i = (let! d := slice_from b i in Ok (d ++ q)).
Proof.
  intros Hi. pose proof (zlen_nonneg q).
  rewrite !slice_from_Ok by (rewrite ?zlen_app; lia). simpl.
  by rewrite drop_app_le by (unfold zlen in *; lia).
Qed.

Lemma write_loop_ext n r data r' rest q a :
  write_loop n r data = Ok (r', rest) ->
  (exists m, write_loop m r' (rest ++ q) = Ok a) ->
  exists k, write_loop k r (data ++ q) = Ok a.
Proof.
  revert r data. induction n as [| n IH]; intros r data H Hm; simpl in H.
  - case_match; [| done]. by simplify_eq.
  - destruct (zlen data <? 188) eqn:Hlen; [by simplify_eq |].
    apply rbind_Ok_inv in H as (b0 & H0 & H). pose proof (zlen_nonneg q).
    assert ((zlen (data ++ q) <? 188) = false) as Hlen' by (rewrite zlen_app; lia).
    destruct (negb (b0 =? 0x47)) eqn:Hs.
    + apply rbind_Ok_inv in H as (d & Hd & H). destruct (IH _ _ H Hm) as [k Hk].
      exists (S k). simpl. rewrite Hlen', idx_app_l, H0 by lia. simpl. rewrite Hs.
      rewrite slice_from_app_l, Hd by lia. done.
    + apply rbind_Ok_inv in H as (pkt & Hpk & H). apply rbind_Ok_inv in H as (r2 & Hr2 & H).
      apply rbind_Ok_inv in H as (d & Hd & H). destruct (IH _ _ H Hm) as [k Hk].
      exists (S k). simpl. rewrite Hlen', idx_app_l, H0 by lia. simpl. rewrite Hs.
      rewrite slice_app_l, Hpk by lia. simpl. rewrite Hr2. simpl.
      rewrite slice_from_app_l, Hd by lia. done.
Qed.

(** A reader does not see how the stream was cut: writing [p ++ q] and
    writing [p], then [q], end in the same state with the same pictures handed
    over. *)
Theorem reader_split : forall r p q,
  reader_ok r -> bytes_ok p -> bytes_ok q ->
  Write r (p ++ q) = (let! r1 := Write r p in Write r1 q).
Proof.
  intros r p q Hr Hp Hq. unfold Write at 1 2. cbv zeta.
  assert (reader_ok (set_carry r [])) as Hr0 by (destruct Hr; constructor; try done; by split; [constructor |]).
  assert (bytes_ok (carry r ++ p)) as Hcp by (apply bytes_ok_app; [apply Hr | done]).
  pose proof (write_loop_returns (length (carry r ++ p)) (set_carry r []) (carry r ++ p) ltac:(lia) Hcp Hr0) as H1.
  apply returns_exists in H1 as ([r1 rest] & E1 & Hr1 & Hc1 & Hb & Hl). rewrite E1.
  simpl in Hr1, Hc1, Hb, Hl. cbn [rbind]. unfold Write. cbv zeta.
  change (carry (set_carry r1 rest)) with rest.
  assert (set_carry (set_carry r1 rest) [] = r1) as ->.
  { destruct r1; simpl in *. by subst. }
  pose proof (write_loop_returns (length (rest ++ q)) r1 (rest ++ q) ltac:(lia)
    ltac:(by apply bytes_ok_app) Hr1) as H2.
  apply returns_exists in H2 as (a & E2 & _). rewrite E2.
  destruct (write_loop_ext _ _ _ _ _ q a E1 (ex_intro _ _ E2)) as [k Hk].
  rewrite <- app_assoc in Hk.
  pose proof (write_loop_returns (length (carry r ++ p ++ q)) (set_carry r []) (carry r ++ p ++ q) ltac:(lia)) as H3.
  rewrite app_assoc in H3. specialize (H3 ltac:(by apply bytes_ok_app) Hr0). rewrite <- app_assoc in H3.
  apply returns_exists in H3 as (b & E3 & _).
  apply (write_loop_mono _ (k + length (carry r ++ p ++ q))%nat) in Hk; [| lia].
  pose proof E3 as E4. apply (write_loop_mono _ (k + length (carry r ++ p ++ q))%nat) in E4; [| lia].
  rewrite E3. congruence.
Qed.

Lemma reader_split_witness :
  Write (NewReader 0) ([0x47; 1] ++ [2; 3]) = (let! r1 := Write (NewReader 0) [0x47; 1] in Write r1 [2; 3]).
Proof. apply (reader_split (NewReader 0)); [apply NewReader_ok | bytes_dec | bytes_dec]. Defined.

(** A completed PES is handed over exactly once: after [endPES] the
    pictures emitted and held are those of before plus the one the PES spelled
    (none when it is damaged), and [Flush] hands over every picture held. *)
Theorem pictures_conserved : forall r o,
  reader_ok r -> pes_picture (kind r) (pes r) = Ok o ->
  exists r' f, endPES r = Ok r' /\ Flush r = Ok f /\
    Permutation (emitted r' ++ held r') (emitted r ++ held r ++ option_list o) /\
    Permutation (emitted f) (emitted r' ++ held r') /\
    (exists es, emitted r' = emitted r ++ es) /\ exists es, emitted f = emitted r' ++ es.
Proof.
  intros r o Hr Ho.
  assert (exists h e, endPES r = Ok (set_held (set_pes r []) h (emitted r ++ e)) /\
    Permutation (held r ++ option_list o) (e ++ h)) as (h & e & E & HP).
  { unfold endPES. cbv zeta. change (kind (set_pes r [])) with (kind r). rewrite Ho. cbn [rbind].
    destruct o as [pic|]; simpl.
    - destruct (hold_returns (set_pes r []) pic) as (h & e & -> & HP & _); [apply Hr |].
      simpl in *. by exists h, e.
    - exists (held r), []. rewrite !app_nil_r. split; [by destruct r | done]. }
  set (r' := set_held (set_pes r []) h (emitted r ++ e)) in *.
  destruct (emit_all_returns (length (held r')) r' ltac:(lia)) as (es & E2 & HP2).
  exists r', (set_held r' [] (emitted r' ++ es)).
  split_and!; [done | unfold Flush; by rewrite E; cbn [rbind] | | | by exists e | by exists es].
  - simpl. by rewrite HP, <- app_assoc.
  - simpl in *. by rewrite HP2.
Qed.

Definition empty_pes_reader : reader := set_pes (NewReader 0) [0; 0; 1].

Lemma pictures_conserved_witness :
  exists r' f, endPES empty_pes_reader = Ok r' /\ Flush empty_pes_reader = Ok f /\
    Permutation (emitted r' ++ held r') (emitted empty_pes_reader ++ held empty_pes_reader ++ option_list None) /\
    Permutation (emitted f) (emitted r' ++ held r') /\
    (exists es, emitted r' = emitted empty_pes_reader ++ es) /\ exists es, emitted f = emitted r' ++ es.
Proof.
  apply (pictures_conserved empty_pes_reader None); [| reflexivity].
  constructor; simpl; split_and?; try constructor; try done. bytes_dec.
Defined.

(** ** Display order *)

(** [first_of] picks the earliest of [h], the first such when several are,
    provided [ptsDelta] orders the times of [h] as [T] does. *)
Lemma first_of_spec (T : nat -> Z) (h pre : list picture) first f :
  (forall i j x y, (pre ++ h) !! i = Some x -> (pre ++ h) !! j = Some y ->
     ptsDelta (pts x) (pts y) = T i - T j) ->
  (first < length pre)%nat -> (exists x, pre !! first = Some x /\ pts x = f) ->
  (forall i, (i < first)%nat -> T first < T i) ->
  (forall i, (first <= i < length pre)%nat -> T first <= T i) ->
  let k := first_of (length pre) first f h in
  (k < length pre + length h)%nat /\ (forall i, (i < k)%nat -> T k < T i) /\
  (forall i, (k <= i < length pre + length h)%nat -> T k <= T i).
Proof.
  revert pre first f. induction h as [| p h IH]; intros pre first f HT Hf Hx Hlt Hle; simpl.
  { split; [lia |]. split; [done |]. intros. apply Hle. lia. }
  assert ((pre ++ [p]) ++ h = pre ++ p :: h) as Hassoc by (by rewrite <- app_assoc).
  assert ((pre ++ p :: h) !! length pre = Some p) as Hp by (by apply list_lookup_middle).
  destruct Hx as (x & Hx & <-).
  assert (ptsDelta (pts p) (pts x) = T (length pre) - T first) as Hd.
  { apply HT; [done |]. rewrite lookup_app_l by lia. done. }
  replace (length pre + S (length h))%nat with (length (pre ++ [p]) + length h)%nat
    by (rewrite length_app; simpl; lia).
  replace (S (length pre)) with (length (pre ++ [p])) by (rewrite length_app; simpl; lia).
  destruct (ptsDelta (pts p) (pts x) <? 0) eqn:E.
  - apply IH.
    + by rewrite Hassoc.
    + rewrite length_app; simpl; lia.
    + exists p. split; [by rewrite list_lookup_middle |]. done.
    + intros i Hi. destruct (decide (i < first)%nat); [specialize (Hlt i ltac:(lia)); lia |].
      specialize (Hle i ltac:(lia)). lia.
    + intros i Hi. rewrite length_app in Hi. simpl in Hi. assert (i = length pre) as -> by lia. lia.
  - apply IH.
    + by rewrite Hassoc.
    + rewrite length_app; simpl; lia.
    + exists x. rewrite lookup_app_l by lia. done.
    + done.
    + intros i Hi. rewrite length_app in Hi. simpl in Hi.
      destruct (decide (i = length pre)) as [-> |]; [lia | apply Hle; lia].
Qed.

Section display_order.
(** The pictures in decode order, with their times before the clock wraps. *)
Context (l : list (Z * list Z)).

Definition time (i : nat) : Z := fst (nth i l (0, [])).
Definition stamped (i : nat) : picture :=
  mkPicture (time i mod 2 ^ 33) (snd (nth i l (0, []))).

(** All times are within half the clock of each other, no picture comes
    more than [reorderDepth] places after one that shows later, and two
    neighbours, or neighbours but one, are not a break. *)
Record decodable : Prop := {
  dec_window : forall i j, (i < length l)%nat -> (j < length l)%nat ->
    - 2 ^ 32 <= time i - time j < 2 ^ 32;
  dec_depth : forall i j, (i + 8 < j < length l)%nat -> time i <= time j;
  dec_step : forall i j, (i < j <= i + 2)%nat -> (j < length l)%nat ->
    - breakBack <= time j - time i <= breakAhead }.

Context (Hdec : decodable).

(** After [j] pictures: [hs] are the decode positions of those held and [es]
    of those handed over. *)
Record sorted_at (j : nat) (hs es : list nat) : Prop := {
  at_lt : Forall (fun i => (i < j)%nat) hs;
  at_inc : forall a b x y, hs !! a = Some x -> hs !! b = Some y -> (a < b)%nat -> (x < y)%nat;
  at_len : length hs = Nat.min j 8;
  at_last : (0 < j)%nat -> exists m, last hs = Some m /\ (j <= m + 2)%nat;
  at_perm : Permutation (es ++ hs) (seq 0 j);
  at_sorted : StronglySorted (fun a b => time a <= time b) es;
  at_held : forall e h, e ∈ es -> h ∈ hs -> time e <= time h;
  at_future : forall e t, e ∈ es -> (j <= t < length l)%nat -> time e <= time t }.

Lemma stamped_delta i j :
  (i < length l)%nat -> (j < length l)%nat ->
  ptsDelta (pts (stamped i)) (pts (stamped j)) = time i - time j.
Proof. intros Hi Hj. apply ptsDelta_unwrapped. by apply dec_window. Qed.

Lemma emit_stamped r hs :
  held r = map stamped hs -> hs <> [] -> Forall (fun i => (i < length l)%nat) hs ->
  exists k m, hs !! k = Some m /\
    emit r = Ok (set_held r (map stamped (without k hs)) (emitted r ++ [stamped m])) /\
    (forall i x, hs !! i = Some x -> (i < k)%nat -> time m < time x) /\
    (forall i x, hs !! i = Some x -> time m <= time x).
Proof.
  intros Hh Hne Hl. destruct hs as [| h0 hs]; [done |].
  destruct (emit_spec r (stamped h0) (map stamped hs) Hh) as (pic & Hpic & E).
  set (k := first_of 1 0 (pts (stamped h0)) (map stamped hs)) in *.
  destruct (first_of_spec (fun i => time (nth i (h0 :: hs) 0%nat)) (map stamped hs)
    [stamped h0] 0 (pts (stamped h0))) as (Hk & Hlt & Hle).
  - change ([stamped h0] ++ map stamped hs) with (map stamped (h0 :: hs)).
    intros i j x y Hx Hy. rewrite list_lookup_fmap in Hx, Hy.
    destruct ((h0 :: hs) !! i) as [a|] eqn:Ea; [| done].
    destruct ((h0 :: hs) !! j) as [b|] eqn:Eb; [| done].
    simpl in Hx, Hy. injection Hx as <-. injection Hy as <-.
    rewrite (nth_lookup_Some _ _ _ _ Ea), (nth_lookup_Some _ _ _ _ Eb).
    apply stamped_delta; [exact (Forall_lookup_1 _ _ _ _ Hl Ea) | exact (Forall_lookup_1 _ _ _ _ Hl Eb)].
  - simpl; lia.
  - by exists (stamped h0).
  - lia.
  - intros i Hi. simpl in Hi. assert (i = 0%nat) as -> by lia. lia.
  - change (length [stamped h0]) with 1%nat in Hk, Hlt, Hle.
    change (first_of 1 0 (pts (stamped h0)) (map stamped hs)) with k in Hk, Hlt, Hle.
    rewrite length_map in Hk, Hle.
    destruct (lookup_lt_is_Some_2 (h0 :: hs) k) as [m Hm]; [simpl; lia |].
    exists k, m. split; [done |]. rewrite Hh in E, Hpic.
    change (stamped h0 :: map stamped hs) with (map stamped (h0 :: hs)) in E, Hpic.
    rewrite list_lookup_fmap, Hm in Hpic. injection Hpic as <-. split; [| split].
    + rewrite E. unfold without. by rewrite map_app, firstn_map, skipn_map.
    + intros i x Hi Hik. specialize (Hlt i Hik).
      by rewrite (nth_lookup_Some _ _ _ _ Hm), (nth_lookup_Some _ _ _ _ Hi) in Hlt.
    + intros i x Hi. apply lookup_lt_Some in Hi as Hi'. simpl in Hi'.
      destruct (decide (i < k)%nat) as [Hik | Hik].
      * specialize (Hlt i Hik).
        rewrite (nth_lookup_Some _ _ _ _ Hm), (nth_lookup_Some _ _ _ _ Hi) in Hlt. lia.
      * specialize (Hle i ltac:(lia)).
        by rewrite (nth_lookup_Some _ _ _ _ Hm), (nth_lookup_Some _ _ _ _ Hi) in Hle.
Qed.

Lemma without_lookup {A} k (h : list A) i x :
  without k h !! i = Some x -> h !! (if (i <? k)%nat then i else S i) = Some x.
Proof.
  unfold without. intros H. destruct (Nat.ltb_spec i k) as [Hik | Hik].
  - destruct (decide (i < length (take k h))%nat) as [Hi | Hi].
    + rewrite lookup_app_l in H by done. by rewrite lookup_take_lt in H by done.
    + rewrite length_take in Hi. rewrite lookup_app_r in H by (rewrite length_take; lia).
      rewrite lookup_drop in H. apply lookup_lt_Some in H. lia.
  - rewrite lookup_app_r in H by (rewrite length_take; lia).
    rewrite lookup_drop, length_take in H. apply lookup_lt_Some in H as Hl.
    rewrite <- H. f_equal. lia.
Qed.

Lemma Forall_without {A} (P : A -> Prop) k (h : list A) : Forall P h -> Forall P (without k h).
Proof. intros H. apply Forall_app. split; [by apply Forall_take | by apply Forall_drop]. Qed.

Lemma without_inc (h : list nat) k :
  (forall a b x y, h !! a = Some x -> h !! b = Some y -> (a < b)%nat -> (x < y)%nat) ->
  forall a b x y, without k h !! a = Some x -> without k h !! b = Some y ->
    (a < b)%nat -> (x < y)%nat.
Proof.
  intros Hinc a b x y Ha Hb Hab. apply without_lookup in Ha, Hb.
  eapply Hinc; [exact Ha | exact Hb |].
  destruct (Nat.ltb_spec a k), (Nat.ltb_spec b k); lia.
Qed.

(** Handing over the first of the held pictures keeps the output sorted. *)
Lemma at_emit j hs es k m :
  Forall (fun i => (i < j)%nat) hs ->
  Permutation (es ++ hs) (seq 0 j) -> StronglySorted (fun a b => time a <= time b) es ->
  (forall e h, e ∈ es -> h ∈ hs -> time e <= time h) ->
  hs !! k = Some m -> (forall x, x ∈ hs -> time m <= time x) ->
  Permutation ((es ++ [m]) ++ without k hs) (seq 0 j) /\
  StronglySorted (fun a b => time a <= time b) (es ++ [m]) /\
  (forall e h, e ∈ es ++ [m] -> h ∈ without k hs -> time e <= time h).
Proof.
  intros Hlt HP Hs Hh Hm Hmin. pose proof (without_permutation k hs m Hm) as HW.
  split; [| split].
  - rewrite <- app_assoc, <- HP. simpl. by rewrite <- HW.
  - clear HP. induction es as [| e es IH]; simpl; [repeat constructor |].
    inversion Hs as [| ? ? Hs' Ha]; subst. constructor.
    + apply IH; [done |]. intros e' h He. apply Hh. by right.
    + apply List.Forall_app. split; [done |]. repeat constructor.
      apply Hh; [by left |]. by eapply list_elem_of_lookup_2.
  - intros e h He Hw. assert (h ∈ hs) by (rewrite HW; by apply list_elem_of_further).
    apply elem_of_app in He as [He | He]; [by apply Hh |].
    apply list_elem_of_singleton in He as ->. by apply Hmin.
Qed.

Lemma increasing_dist (h : list nat) d a x y :
  (forall a b x y, h !! a = Some x -> h !! b = Some y -> (a < b)%nat -> (x < y)%nat) ->
  h !! a = Some x -> h !! (a + d)%nat = Some y -> (x + d <= y)%nat.
Proof.
  intros Hinc. revert y. induction d as [| d IH]; intros y Hx Hy.
  - rewrite Nat.add_0_r, Hx in Hy. injection Hy as ->. lia.
  - destruct (lookup_lt_is_Some_2 h (a + d)%nat) as [z Hz].
    { apply lookup_lt_Some in Hy. lia. }
    specialize (IH z Hx Hz). pose proof (Hinc _ _ _ _ Hz Hy ltac:(lia)). lia.
Qed.

(** The last held position once nine pictures were held and one was handed
    over. *)
Lemma at_last_emit j (hs : list nat) k m :
  length hs = 8%nat -> (j < length l)%nat ->
  (forall a b x y, (hs ++ [j]) !! a = Some x -> (hs ++ [j]) !! b = Some y -> (a < b)%nat -> (x < y)%nat) ->
  (hs ++ [j]) !! k = Some m ->
  (forall i x, (hs ++ [j]) !! i = Some x -> (i < k)%nat -> time m < time x) ->
  exists q, last (without k (hs ++ [j])) = Some q /\ (S j <= q + 2)%nat.
Proof.
  intros H8 Hj Hinc Hk Hfirst. apply lookup_lt_Some in Hk as Hkl.
  rewrite length_app in Hkl. simpl in Hkl. unfold without.
  destruct (decide (k = 8%nat)) as [-> | Hne].
  - assert (take 8 (hs ++ [j]) = hs) as -> by (rewrite <- H8; apply take_app_length).
    rewrite drop_ge by (rewrite length_app; simpl; lia).
    rewrite app_nil_r. rewrite list_lookup_middle in Hk by done. injection Hk as <-.
    destruct (lookup_lt_is_Some_2 hs 0%nat) as [o Ho]; [lia |].
    destruct (lookup_lt_is_Some_2 hs 7%nat) as [q Hq]; [lia |].
    exists q. split; [by rewrite last_lookup, H8 |].
    assert ((hs ++ [j]) !! 0%nat = Some o) as Ho' by (by rewrite lookup_app_l by lia).
    assert ((hs ++ [j]) !! (0 + 7)%nat = Some q) as Hq' by (simpl; by rewrite lookup_app_l by lia).
    pose proof (increasing_dist _ 7 0 o q Hinc Ho' Hq') as Hd.
    specialize (Hfirst 0%nat o Ho' ltac:(lia)).
    destruct (decide (o + 8 < j)%nat) as [Hfar |]; [| lia].
    pose proof (dec_depth Hdec o j ltac:(lia)). lia.
  - exists j. split; [| lia]. rewrite drop_app_le by lia. by rewrite app_assoc, last_snoc.
Qed.

Lemma elem_lookup {A} (h : list A) x : x ∈ h -> exists i, h !! i = Some x.
Proof. apply list_elem_of_lookup_1. Qed.

Lemma hold_at r j hs es :
  sorted_at j hs es -> (j < length l)%nat ->
  held r = map stamped hs -> emitted r = map stamped es ->
  exists r' hs' es', hold r (stamped j) = Ok r' /\
    held r' = map stamped hs' /\ emitted r' = map stamped es' /\ sorted_at (S j) hs' es'.
Proof.
  intros [Hlt Hinc Hlen Hlast HP Hs Hh Hf] Hj Hr He.
  assert (zlen (map stamped hs) = Z.of_nat (length hs)) as Hz by (unfold zlen; by rewrite length_map).
  unfold hold, reorderDepth. cbv zeta. rewrite Hr, Hz.
  assert (Hnb : (if 0 <? Z.of_nat (length hs) then
      let! lastp := idx (map stamped hs) (Z.of_nat (length hs) - 1) in
      let d := ptsDelta (pts (stamped j)) (pts lastp) in
      if ((d <? - breakBack) || (breakAhead <? d))%bool
      then emit_all (length (map stamped hs)) r else Ok r else Ok r) = Ok r).
  { destruct (0 <? Z.of_nat (length hs)) eqn:E0; [| done].
    destruct (Hlast ltac:(lia)) as (m & Hm & Hjm).
    rewrite last_lookup in Hm. apply (Forall_lookup_1 _ _ _ _ Hlt) in Hm as Hmj. simpl in Hmj.
    rewrite (idx_Ok _ _ (stamped m)); [| lia |].
    2: { rewrite list_lookup_fmap.
         replace (Z.to_nat (Z.of_nat (length hs) - 1)) with (pred (length hs)) by lia.
         by rewrite Hm. }
    cbn [rbind]. cbv zeta. rewrite stamped_delta by lia.
    pose proof (dec_step Hdec m j ltac:(lia) Hj).
    by replace ((_ <? _) || _)%bool with false by lia. }
  cbv zeta in Hnb. rewrite Hnb. clear Hnb. cbn [rbind].
  set (r1 := set_held r (held r ++ [stamped j]) (emitted r)).
  assert (held r1 = map stamped (hs ++ [j])) as Hr1.
  { subst r1. simpl. by rewrite Hr, map_app. }
  assert (Forall (fun i => (i < S j)%nat) (hs ++ [j])) as Hlt1.
  { apply Forall_app. split; [| by repeat constructor].
    eapply Forall_impl; [exact Hlt | simpl; lia]. }
  assert (Hinc1 : forall a b x y, (hs ++ [j]) !! a = Some x -> (hs ++ [j]) !! b = Some y ->
    (a < b)%nat -> (x < y)%nat).
  { intros a b x y Ha Hb Hab. apply lookup_lt_Some in Hb as Hbl. rewrite length_app in Hbl. simpl in Hbl.
    rewrite lookup_app_l in Ha by lia.
    destruct (decide (b < length hs)%nat).
    - rewrite lookup_app_l in Hb by done. by eapply Hinc.
    - assert (b = length hs) as -> by lia. rewrite list_lookup_middle in Hb by done. injection Hb as <-.
      apply (Forall_lookup_1 _ _ _ _ Hlt Ha). }
  assert (Permutation (es ++ hs ++ [j]) (seq 0 (S j))) as HP1.
  { rewrite seq_S, app_assoc, HP. done. }
  assert (Hh1 : forall e h, e ∈ es -> h ∈ hs ++ [j] -> time e <= time h).
  { intros e h Hee Hhh. apply elem_of_app in Hhh as [Hhh | Hhh]; [by apply Hh |].
    apply list_elem_of_singleton in Hhh as ->. apply Hf; [done | lia]. }
  rewrite Hr1. unfold zlen. rewrite length_map, length_app. simpl length.
  destruct (8 <? Z.of_nat (length hs + 1)) eqn:E8.
  2: { exists r1, (hs ++ [j]), es. split_and!; [done | done | done |]. constructor; try done.
    - rewrite length_app. change (length [j]) with 1%nat.
      apply Z.ltb_ge in E8. clear -E8 Hlen. lia.
    - intros _. exists j. split; [apply last_snoc | lia].
    - intros e t Hee Ht. apply Hf; [done | lia]. }
  destruct (emit_stamped r1 (hs ++ [j]) Hr1) as (k & m & Hk & E & Hfirst & Hmin).
  { by destruct hs. }
  { eapply Forall_impl; [exact Hlt1 | simpl; lia]. }
  destruct (at_emit (S j) (hs ++ [j]) es k m) as (HP2 & Hs2 & Hh2); try done.
  { intros x Hx. apply elem_lookup in Hx as [i Hi]. by eapply Hmin. }
  exists (set_held r1 (map stamped (without k (hs ++ [j]))) (emitted r1 ++ [stamped m])),
    (without k (hs ++ [j])), (es ++ [m]).
  split; [done |]. split; [done |]. split; [simpl; by rewrite He, map_app |].
  assert (length hs = 8%nat) as H8 by (apply Z.ltb_lt in E8; clear -E8 Hlen; lia).
  constructor; try done.
  - eapply Forall_without. exact Hlt1.
  - by apply without_inc.
  - apply lookup_lt_Some in Hk. pose proof (Permutation_length HP2) as HL.
    rewrite !length_app, length_seq in HL. pose proof (Permutation_length HP1) as HL1.
    rewrite !length_app, length_seq in HL1. simpl in HL, HL1. lia.
  - intros _. by apply (at_last_emit j hs k m).
  - intros e t Hee Ht. apply elem_of_app in Hee as [Hee | Hee]; [apply Hf; [done | lia] |].
    apply list_elem_of_singleton in Hee as ->.
    destruct (lookup_lt_is_Some_2 hs 0%nat) as [o Ho]; [lia |].
    assert ((hs ++ [j]) !! 0%nat = Some o) as Ho' by (by rewrite lookup_app_l by lia).
    pose proof (Hmin _ _ Ho').
    assert ((hs ++ [j]) !! (0 + 8)%nat = Some j) as Hj8 by (simpl; by rewrite list_lookup_middle).
    pose proof (increasing_dist _ 8 0 o j Hinc1 Ho' Hj8).
    pose proof (dec_depth Hdec o t ltac:(lia)). lia.
Qed.

Lemma sorted_at_0 : sorted_at 0 [] [].
Proof.
  constructor; try done; try (intros; lia).
  - constructor.
  - intros e h He. by apply elem_of_nil in He.
  - intros e t He. by apply elem_of_nil in He.
Qed.

(** Holding all of the pictures, one after the other. *)
Fixpoint hold_all (n : nat) (r : reader) : res reader :=
  match n with
  | O => Ok r
  | S n => let! r := hold_all n r in hold r (stamped n)
  end.

Lemma hold_all_at r n :
  (n <= length l)%nat -> held r = [] -> emitted r = [] ->
  exists r' hs es, hold_all n r = Ok r' /\
    held r' = map stamped hs /\ emitted r' = map stamped es /\ sorted_at n hs es.
Proof.
  intros Hn Hh He. induction n as [| n IH].
  { exists r, [], []. split_and!; [done | done | done | exact sorted_at_0]. }
  destruct (IH ltac:(lia)) as (r1 & hs & es & E & H1 & H2 & H3).
  destruct (hold_at r1 n hs es H3 ltac:(lia) H1 H2) as (r2 & hs' & es' & E2 & H).
  exists r2, hs', es'. split; [| exact H]. simpl. by rewrite E.
Qed.

(** Handing over all that is held. *)
Lemma emit_all_at n r hs es :
  (length hs <= n)%nat -> held r = map stamped hs -> emitted r = map stamped es ->
  Forall (fun i => (i < length l)%nat) hs ->
  Permutation (es ++ hs) (seq 0 (length l)) ->
  StronglySorted (fun a b => time a <= time b) es ->
  (forall e h, e ∈ es -> h ∈ hs -> time e <= time h) ->
  exists r' es', emit_all n r = Ok r' /\ held r' = [] /\ emitted r' = map stamped es' /\
    Permutation es' (seq 0 (length l)) /\ StronglySorted (fun a b => time a <= time b) es'.
Proof.
  revert r hs es. induction n as [| n IH]; intros r hs es Hn Hh He Hl HP Hs Hle.
  - destruct hs; [| simpl in Hn; lia]. exists r, es. rewrite app_nil_r in HP.
    split_and!; try done. simpl. by rewrite Hh.
  - destruct hs as [| h0 hs].
    { exists r, es. rewrite app_nil_r in HP. split_and!; try done. simpl. by rewrite Hh. }
    destruct (emit_stamped r (h0 :: hs) Hh ltac:(done) Hl) as (k & m & Hk & E & _ & Hmin).
    destruct (at_emit (length l) (h0 :: hs) es k m) as (HP2 & Hs2 & Hh2); try done.
    { intros x Hx. apply elem_lookup in Hx as [i Hi]. by eapply Hmin. }
    destruct (IH (set_held r (map stamped (without k (h0 :: hs))) (emitted r ++ [stamped m]))
      (without k (h0 :: hs)) (es ++ [m])) as (r' & es' & E' & H); try done.
    { pose proof (Permutation_length (without_permutation k _ m Hk)) as HL.
      simpl in HL, Hn. lia. }
    { simpl. by rewrite He, map_app. }
    { by apply Forall_without. }
    exists r', es'. split; [| exact H]. simpl. rewrite Hh. cbn [map]. rewrite E. exact E'.
Qed.
End display_order.

(** [decodable], by computation. *)
Definition decodable_b (l : list (Z * list Z)) : bool :=
  let n := length l in
  forallb (fun i => forallb (fun j =>
    (- 2 ^ 32 <=? time l i - time l j) && (time l i - time l j <? 2 ^ 32) &&
    (negb (i + 8 <? j)%nat || (time l i <=? time l j)) &&
    (negb ((i <? j)%nat && (j <=? i + 2)%nat) ||
     ((- breakBack <=? time l j - time l i) && (time l j - time l i <=? breakAhead))))
    (seq 0 n)) (seq 0 n).

Lemma decodable_b_spec l : decodable_b l = true -> decodable l.
Proof.
  unfold decodable_b. intros H.
  assert (Hij : forall i j, (i < length l)%nat -> (j < length l)%nat ->
    (- 2 ^ 32 <= time l i - time l j < 2 ^ 32) /\
    ((i + 8 < j)%nat -> time l i <= time l j) /\
    ((i < j <= i + 2)%nat -> - breakBack <= time l j - time l i <= breakAhead)).
  { intros i j Hi Hj.
    assert (List.In i (seq 0 (length l))) as Ii by (apply in_seq; clear -Hi; lia).
    assert (List.In j (seq 0 (length l))) as Ij by (apply in_seq; clear -Hj; lia).
    rewrite forallb_forall in H.
    specialize (H i Ii). rewrite forallb_forall in H.
    specialize (H j Ij). clear Ii Ij Hi Hj.
    apply andb_prop in H as [H H3]. apply andb_prop in H as [H H2].
    apply andb_prop in H as [H0 H1].
    apply Z.leb_le in H0. apply Z.ltb_lt in H1. split; [done | split; intros Hlt].
    - destruct (Nat.ltb_spec (i + 8) j) as [_ | Hn]; [| lia]. by apply Z.leb_le.
    - destruct (Nat.ltb_spec i j) as [_ | Hn]; [| lia].
      destruct (Nat.leb_spec j (i + 2)) as [_ | Hn]; [| lia]. simpl in H3.
      apply andb_prop in H3 as [H3 H4]. split; by apply Z.leb_le. }
  split.
  - intros i j Hi Hj. by apply Hij.
  - intros i j Hij'. apply Hij; lia.
  - intros i j Hij' Hj. apply Hij; lia.
Qed.

(** Pictures come out in display order.  The pictures of a stream whose
    coded order is at most the reorder depth away from display order, with no
    break in their clock, are all handed over, each once, sorted by the time
    they show at; their 33-bit time stamps may wrap on the way. *)
Theorem display_order (program : Z) (l : list (Z * list Z)) (Hdec : decodable l) :
  exists r es,
    (let! r := hold_all l (length l) (NewReader program) in emit_all (length (held r)) r) = Ok r /\
    emitted r = map (stamped l) es /\ held r = [] /\
    Permutation es (seq 0 (length l)) /\
    StronglySorted (fun a b => time l a <= time l b) es.
Proof.
  destruct (hold_all_at l Hdec (NewReader program) (length l)) as (r & hs & es & E & Hh & He & Hat);
    [lia | done | done |].
  destruct Hat as [Hlt _ _ _ HP Hs Hle _].
  destruct (emit_all_at l Hdec (length (held r)) r hs es) as (r' & es' & E' & H); try done.
  { by rewrite Hh, length_map. }
  exists r', es'. rewrite E. cbn [rbind]. naive_solver.
Qed.

(** Groups of I P B B, over the wrap of the clock. *)
Definition wrapping_pictures : list (Z * list Z) :=
  map (fun i => (2 ^ 33 - 9000 + 3003 * i, [i; i])) [0; 3; 1; 2; 6; 4; 5; 9; 7; 8; 12; 10; 11; 15; 13; 14].

Lemma display_order_witness : exists r es,
  (let! r := hold_all wrapping_pictures 16 (NewReader 1) in emit_all (length (held r)) r) = Ok r /\
  emitted r = map (stamped wrapping_pictures) es /\ held r = [] /\
  Permutation es (seq 0 16) /\
  StronglySorted (fun a b => time wrapping_pictures a <= time wrapping_pictures b) es.
Proof.
  apply (display_order 1 wrapping_pictures). apply decodable_b_spec. vm_compute. reflexivity.
Defined.
