(* ===== verification/CapDecoder.v ===== *)
(** The CEA-608 caption decoder, [server/internal/captions/decoder.go].

    A [screen] is the 15 by 32 array of runes, indexed as Go indexes an array
    (out of range panics).  Text is a list of Unicode code points: Go's strings
    here are built by [WriteRune] alone and UTF-8 is injective, so equality of
    strings is equality of these lists. *)
From Stdlib Require Import Sorted.
From S2P Require Import Prelude Mpeg.
Local Open Scope Z_scope.
Local Open Scope go_scope.

Definition rows : Z := 15.
Definition cols : Z := 32.

Inductive mode : Type := popOn | rollUp | paintOn.
#[global] Instance mode_eq_dec : EqDecision mode.
Proof. solve_decision. Defined.

Record Cue : Type := mkCue { Start : Z; End_ : Z; Text : list Z; Top : bool }.

Notation screen := (list (list Z)).
Definition blank_row : list Z := replicate 32 0.
Definition blank : screen := replicate 15 blank_row.

(** The cursor and the modes. *)
Record place : Type := mkPlace { row : Z; col : Z }.

Record decoder : Type := mkDecoder {
  shown : screen;
  hidden : screen;
  dmode : mode;
  depth : Z;
  pos : place;
  channel : Z;
  dtext : bool;
  last2 : Z * Z;
  open_ : bool;
  cue : Cue;
  done_ : list Cue;
  typedAt : Z;
  typed : bool;
  waiting : bool }.

Definition shownEvery : Z := 18000.

Definition NewDecoder : decoder :=
  mkDecoder blank blank popOn 3 (mkPlace (rows - 1) 0) 1 false (0, 0) false
    (mkCue 0 0 [] false) [] 0 false false.

(** ** Assignments to fields *)

Definition set_shown (d : decoder) (s : screen) : decoder :=
  mkDecoder s (hidden d) (dmode d) (depth d) (pos d) (channel d) (dtext d) (last2 d) (open_ d)
    (cue d) (done_ d) (typedAt d) (typed d) (waiting d).
Definition set_hidden (d : decoder) (s : screen) : decoder :=
  mkDecoder (shown d) s (dmode d) (depth d) (pos d) (channel d) (dtext d) (last2 d) (open_ d)
    (cue d) (done_ d) (typedAt d) (typed d) (waiting d).
Definition set_mode (d : decoder) (m : mode) (t : bool) : decoder :=
  mkDecoder (shown d) (hidden d) m (depth d) (pos d) (channel d) t (last2 d) (open_ d)
    (cue d) (done_ d) (typedAt d) (typed d) (waiting d).
Definition set_depth (d : decoder) (n : Z) : decoder :=
  mkDecoder (shown d) (hidden d) (dmode d) n (pos d) (channel d) (dtext d) (last2 d) (open_ d)
    (cue d) (done_ d) (typedAt d) (typed d) (waiting d).
Definition set_pos (d : decoder) (r c : Z) : decoder :=
  mkDecoder (shown d) (hidden d) (dmode d) (depth d) (mkPlace r c) (channel d) (dtext d) (last2 d)
    (open_ d) (cue d) (done_ d) (typedAt d) (typed d) (waiting d).
Definition set_channel (d : decoder) (c : Z) : decoder :=
  mkDecoder (shown d) (hidden d) (dmode d) (depth d) (pos d) c (dtext d) (last2 d)
    (open_ d) (cue d) (done_ d) (typedAt d) (typed d) (waiting d).
Definition set_last (d : decoder) (l : Z * Z) : decoder :=
  mkDecoder (shown d) (hidden d) (dmode d) (depth d) (pos d) (channel d) (dtext d) l
    (open_ d) (cue d) (done_ d) (typedAt d) (typed d) (waiting d).
Definition set_cue (d : decoder) (o : bool) (c : Cue) (l : list Cue) : decoder :=
  mkDecoder (shown d) (hidden d) (dmode d) (depth d) (pos d) (channel d) (dtext d) (last2 d)
    o c l (typedAt d) (typed d) (waiting d).
Definition set_typed (d : decoder) (t : bool) (at_ : Z) : decoder :=
  mkDecoder (shown d) (hidden d) (dmode d) (depth d) (pos d) (channel d) (dtext d) (last2 d)
    (open_ d) (cue d) (done_ d) at_ t (waiting d).
Definition set_waiting (d : decoder) (w : bool) : decoder :=
  mkDecoder (shown d) (hidden d) (dmode d) (depth d) (pos d) (channel d) (dtext d) (last2 d)
    (open_ d) (cue d) (done_ d) (typedAt d) (typed d) w.

(** ** Characters *)

Definition basic (b : Z) : Z :=
  if b =? 0x27 then 0x2019
  else if b =? 0x2a then 0xe1
  else if b =? 0x5c then 0xe9
  else if b =? 0x5e then 0xed
  else if b =? 0x5f then 0xf3
  else if b =? 0x60 then 0xfa
  else if b =? 0x7b then 0xe7
  else if b =? 0x7c then 0xf7
  else if b =? 0x7d then 0xd1
  else if b =? 0x7e then 0xf1
  else if b =? 0x7f then 0x2588
  else b.

Definition special : list Z :=
  [174; 176; 189; 191; 8482; 162; 163; 9834; 224; 32; 232; 226; 234; 238; 244; 251].

Definition extended12 : list Z :=
  [193; 201; 211; 218; 220; 252; 8216; 161; 42; 39; 8212; 169; 8480; 8226; 8220; 8221;
   192; 194; 199; 200; 202; 203; 235; 206; 207; 239; 212; 217; 249; 219; 171; 187].

Definition extended13 : list Z :=
  [195; 227; 205; 204; 236; 210; 242; 213; 245; 123; 125; 92; 94; 95; 124; 126;
   196; 228; 214; 246; 223; 165; 164; 166; 197; 229; 216; 248; 9484; 9488; 9492; 9496].

(** ** What is on screen *)

(** [unicode.IsSpace] *)
Definition is_space (c : Z) : bool :=
  ((9 <=? c) && (c <=? 13)) || (c =? 32) || (c =? 0x85) || (c =? 0xa0) || (c =? 0x1680)
  || ((0x2000 <=? c) && (c <=? 0x200a)) || (c =? 0x2028) || (c =? 0x2029)
  || (c =? 0x202f) || (c =? 0x205f) || (c =? 0x3000).

Fixpoint trim_left (l : list Z) : list Z :=
  match l with
  | [] => []
  | c :: l' => if is_space c then trim_left l' else l
  end.

(** [strings.TrimSpace] *)
Definition trim_space (l : list Z) : list Z := reverse (trim_left (reverse (trim_left l))).

(** [strings.Join(lines, "\n")] *)
Fixpoint join (ls : list (list Z)) : list Z :=
  match ls with
  | [] => []
  | [l] => l
  | l :: ls => l ++ 10 :: join ls
  end.

Definition row_text (l : list Z) : list Z :=
  trim_space (map (fun c => if c =? 0 then 32 else c) l).

(** [render]'s loop over the rows: the non-blank lines and the first of them. *)
Fixpoint render_loop (r first : Z) (lines : list (list Z)) (s : screen) : list (list Z) * Z :=
  match s with
  | [] => (lines, first)
  | l :: s =>
      let line := row_text l in
      if bool_decide (line = []) then render_loop (r + 1) first lines s
      else render_loop (r + 1) (if first <? 0 then r else first) (lines ++ [line]) s
  end.

Definition render (s : screen) : list Z * bool :=
  let '(lines, first) := render_loop 0 (-1) [] s in
  (join lines, (0 <=? first) && (first <? rows / 2))%bool.

(** ** Cues *)

Definition end_ (d : decoder) (pts : Z) : decoder :=
  if negb (open_ d) then d
  else if ptsDelta pts (Start (cue d)) <=? 0 then set_cue d false (cue d) (done_ d)
  else
    let c := mkCue (Start (cue d)) pts (Text (cue d)) (Top (cue d)) in
    set_cue d false c (done_ d ++ [c]).

Definition show (d : decoder) (pts : Z) : decoder :=
  let d := set_waiting d false in
  let '(text, top) := render (shown d) in
  if (open_ d && bool_decide (text = Text (cue d)))%bool then d
  else
    let d := end_ d pts in
    if bool_decide (text = []) then d
    else set_cue d true (mkCue pts 0 text top) (done_ d).

Definition soon (d : decoder) (pts : Z) : bool :=
  let delta := ptsDelta pts (typedAt d) in
  ((0 <=? delta) && (delta <? shownEvery))%bool.

Definition touch (d : decoder) (pts : Z) : decoder :=
  if (bool_decide (dmode d = popOn) || waiting d)%bool then d
  else if (typed d && soon d pts)%bool then set_waiting d true
  else show (set_typed d true pts) pts.

(** ** Screens *)

(** [s[r] = l] and [s[r][c] = v]; an index out of range panics. *)
Definition set_row (s : screen) (r : Z) (l : list Z) : res screen :=
  if ((0 <=? r) && (r <? rows))%bool then Ok (<[Z.to_nat r := l]> s) else Panic.
Definition set_cell (s : screen) (r c v : Z) : res screen :=
  let! l := idx s r in
  if ((0 <=? c) && (c <? cols))%bool then set_row s r (<[Z.to_nat c := v]> l) else Panic.

(** [d.target()[d.row][c] = v] *)
Definition target (d : decoder) : screen :=
  if bool_decide (dmode d = popOn) then hidden d else shown d.
Definition set_target (d : decoder) (s : screen) : decoder :=
  if bool_decide (dmode d = popOn) then set_hidden d s else set_shown d s.
Definition write_cell (d : decoder) (c v : Z) : res decoder :=
  let! s := set_cell (target d) (row (pos d)) c v in Ok (set_target d s).

Definition put (d : decoder) (r : Z) : res decoder :=
  let! d := write_cell d (col (pos d)) r in
  if col (pos d) <? cols - 1 then Ok (set_pos d (row (pos d)) (col (pos d) + 1)) else Ok d.

(** DER's loop: [n] columns from [c] on. *)
Fixpoint erase_from (n : nat) (c : Z) (d : decoder) : res decoder :=
  match n with
  | O => Ok d
  | S n => let! d := write_cell d c 0 in erase_from n (c + 1) d
  end.

(** CR's loops: [n] rows move up from [r] on; [n] rows are cleared. *)
Fixpoint scroll (n : nat) (r : Z) (s : screen) : res screen :=
  match n with
  | O => Ok s
  | S n => let! l := idx s (r + 1) in let! s := set_row s r l in scroll n (r + 1) s
  end.
Fixpoint clear_rows (n : nat) (r : Z) (s : screen) : res screen :=
  match n with
  | O => Ok s
  | S n => let! s := set_row s r blank_row in clear_rows n (r + 1) s
  end.

(** PAC's loop over the roll-up window. *)
Fixpoint move_window (n : nat) (i drow row : Z) (s moved : screen) : res screen :=
  match n with
  | O => Ok moved
  | S n =>
      let from := drow - i in
      let to := row - i in
      if ((0 <=? from) && (0 <=? to))%bool
      then let! l := idx s from in let! moved := set_row moved to l in
           move_window n (i + 1) drow row s moved
      else move_window n (i + 1) drow row s moved
  end.

(** ** Control codes *)

Definition carriage_return (d : decoder) (pts : Z) : res decoder :=
  if negb (bool_decide (dmode d = rollUp)) then Ok d
  else
    let d := show d pts in
    let r := row (pos d) in
    let top := Z.max (r - depth d + 1) 0 in
    let! s := scroll (Z.to_nat (r - top)) top (shown d) in
    let! s := set_row s r blank_row in
    let! s := clear_rows (Z.to_nat top) 0 s in
    let d := show (set_pos (set_shown d s) r 0) pts in
    Ok (set_typed d false (typedAt d)).

Definition misc (d : decoder) (pts b2 : Z) : res decoder :=
  if b2 =? 0x20 then Ok (set_mode d popOn false)
  else if b2 =? 0x21 then
    if 0 <? col (pos d) then
      let d := set_pos d (row (pos d)) (col (pos d) - 1) in
      let! d := write_cell d (col (pos d)) 0 in
      Ok (touch d pts)
    else Ok d
  else if b2 =? 0x24 then
    let! d := erase_from (Z.to_nat (cols - col (pos d))) (col (pos d)) d in Ok (touch d pts)
  else if ((b2 =? 0x25) || (b2 =? 0x26) || (b2 =? 0x27))%bool then
    let d := if bool_decide (dmode d = rollUp) then d
             else show (set_pos (set_hidden (set_shown d blank) blank) (rows - 1) (col (pos d))) pts in
    let d := set_depth (set_mode d rollUp false) (wrap8 (b2 - 0x25) + 2) in
    Ok (set_typed (set_pos d (row (pos d)) 0) false (typedAt d))
  else if b2 =? 0x29 then Ok (set_typed (set_mode d paintOn false) false (typedAt d))
  else if ((b2 =? 0x2a) || (b2 =? 0x2b))%bool then Ok (set_mode d (dmode d) true)
  else if b2 =? 0x2c then Ok (show (set_shown d blank) pts)
  else if b2 =? 0x2d then carriage_return d pts
  else if b2 =? 0x2e then Ok (set_hidden d blank)
  else if b2 =? 0x2f then
    Ok (show (set_mode (set_hidden (set_shown d (hidden d)) (shown d)) popOn false) pts)
  else Ok d.

Definition pacRows (b1 : Z) : option (Z * Z) :=
  if b1 =? 0x11 then Some (0, 1)
  else if b1 =? 0x12 then Some (2, 3)
  else if b1 =? 0x15 then Some (4, 5)
  else if b1 =? 0x16 then Some (6, 7)
  else if b1 =? 0x17 then Some (8, 9)
  else if b1 =? 0x10 then Some (10, 10)
  else if b1 =? 0x13 then Some (11, 12)
  else if b1 =? 0x14 then Some (13, 14)
  else None.

Definition pac (d : decoder) (b1 b2 : Z) : res decoder :=
  match pacRows b1 with
  | None => Ok d
  | Some (p0, p1) =>
      let r := if negb (Z.land b2 0x20 =? 0) then p1 else p0 in
      let! d := if (bool_decide (dmode d = rollUp) && negb (r =? row (pos d)))%bool
                then let! m := move_window (Z.to_nat (depth d)) 0 (row (pos d)) r (shown d) blank in
                     Ok (set_shown d m)
                else Ok d in
      Ok (set_pos d r (if negb (Z.land b2 0x10 =? 0)
                       then Z.shiftr (Z.land b2 0x0e) 1 * 4 else 0))
  end.

Definition in_range (b lo hi : Z) : bool := (lo <=? b) && (b <=? hi).

Definition control (d : decoder) (pts b1 b2 : Z) : res decoder :=
  if (((b1 =? 0x14) || (b1 =? 0x15)) && in_range b2 0x20 0x2f)%bool then misc d pts b2
  else if ((b1 =? 0x17) && in_range b2 0x21 0x23)%bool then
    Ok (set_pos d (row (pos d)) (Z.min (col (pos d) + wrap8 (b2 - 0x20)) (cols - 1)))
  else if in_range b2 0x40 0x7f then pac d b1 b2
  else if dtext d then Ok d
  else if ((b1 =? 0x11) && in_range b2 0x20 0x2f)%bool then
    let! d := put d 0x20 in Ok (touch d pts)
  else if ((b1 =? 0x11) && in_range b2 0x30 0x3f)%bool then
    let! c := idx special (b2 - 0x30) in let! d := put d c in Ok (touch d pts)
  else if (((b1 =? 0x12) || (b1 =? 0x13)) && in_range b2 0x20 0x3f)%bool then
    let d := set_pos d (row (pos d)) (Z.max (col (pos d) - 1) 0) in
    let! c := idx (if b1 =? 0x12 then extended12 else extended13) (b2 - 0x20) in
    let! d := put d c in Ok (touch d pts)
  else Ok d.

(** ** Pairs *)

Definition pair (d : decoder) (pts b1 b2 : Z) : res decoder :=
  if ((b1 =? 0) && (b2 =? 0))%bool then Ok d
  else if in_range b1 0x10 0x1f then
    let d := if waiting d then show d pts else d in
    if bool_decide (last2 d = (b1, b2)) then Ok (set_last d (0, 0))
    else
      let d := set_channel (set_last d (b1, b2)) (if Z.land b1 0x08 =? 0 then 1 else 2) in
      if channel d =? 1 then control d pts (Z.ldiff b1 0x08) b2 else Ok d
  else
    let d := set_last d (0, 0) in
    if (negb (channel d =? 1) || dtext d || (b1 <? 0x20))%bool then Ok d
    else
      let! d := put d (basic b1) in
      let! d := if 0x20 <=? b2 then put d (basic b2) else Ok d in
      Ok (touch d pts).

Definition due (d : decoder) (pts : Z) : decoder :=
  if (waiting d && negb (soon d pts))%bool
  then show (set_typed d (typed d) pts) pts else d.

(** [Feed]'s loop: pairs while two bytes are left. *)
Fixpoint pairs_loop (d : decoder) (pts : Z) (b : list Z) : res decoder :=
  match b with
  | b1 :: b2 :: b => let! d := pair d pts b1 b2 in pairs_loop d pts b
  | _ => Ok d
  end.

Definition Feed (d : decoder) (pts : Z) (pairs : list Z) : res decoder :=
  pairs_loop (due d pts) pts pairs.

Definition Take (d : decoder) : list Cue * decoder := (done_ d, set_cue d (open_ d) (cue d) []).
Definition Showing (d : decoder) : Cue * bool := (cue d, open_ d).
Definition Close (d : decoder) (pts : Z) : decoder := end_ d pts.

(** ** Well-formed decoders *)

Definition screen_ok (s : screen) : Prop :=
  length s = 15%nat /\ Forall (fun l : list Z => length l = 32%nat) s.

Lemma blank_ok : screen_ok blank.
Proof. split; [done |]. by repeat constructor. Qed.

Lemma idx_screen s r (Q : list Z -> Prop) :
  screen_ok s -> 0 <= r < rows -> (forall l, length l = 32%nat -> s !! Z.to_nat r = Some l -> Q l) ->
  returns (idx s r) Q.
Proof.
  intros [Hl Hs] Hr HQ. unfold rows in Hr.
  destruct (idx_in_range s r) as (l & Hlk & ->); [unfold zlen; lia |].
  apply HQ; [exact (Forall_lookup_1 _ _ _ _ Hs Hlk) | done].
Qed.

Lemma set_row_ok s r l :
  screen_ok s -> 0 <= r < rows -> length l = 32%nat ->
  set_row s r l = Ok (<[Z.to_nat r := l]> s) /\ screen_ok (<[Z.to_nat r := l]> s).
Proof.
  intros [Hs Hf] Hr Hl. unfold set_row. replace (_ && _)%bool with true by lia.
  split; [done |]. split; [by rewrite length_insert |].
  by apply Forall_insert.
Qed.

Lemma returns_set_row s r l (Q : screen -> Prop) :
  screen_ok s -> 0 <= r < rows -> length l = 32%nat ->
  (screen_ok (<[Z.to_nat r := l]> s) -> Q (<[Z.to_nat r := l]> s)) ->
  returns (set_row s r l) Q.
Proof. intros Hs Hr Hl HQ. destruct (set_row_ok s r l) as [-> ?]; [done | done | done | by apply HQ]. Qed.

Lemma returns_set_cell s r c v (Q : screen -> Prop) :
  screen_ok s -> 0 <= r < rows -> 0 <= c < cols ->
  (forall s', screen_ok s' -> Q s') -> returns (set_cell s r c v) Q.
Proof.
  intros Hs Hr Hc HQ. unfold set_cell. apply returns_bind, idx_screen; [done | done |].
  intros l Hl _. replace (_ && _)%bool with true by lia.
  apply returns_set_row; [done | done | by rewrite length_insert | apply HQ].
Qed.

Lemma scroll_ok n r s :
  screen_ok s -> 0 <= r -> r + Z.of_nat n < rows -> returns (scroll n r s) screen_ok.
Proof.
  revert r s. induction n as [| n IH]; intros r s Hs Hr Hn; [done |].
  cbn [scroll]. apply returns_bind, idx_screen; [done | lia |]. intros l Hl _.
  apply returns_bind, returns_set_row; [done | lia | done |]. intros Hs'. apply IH; [done | lia | lia].
Qed.

Lemma clear_rows_ok n r s :
  screen_ok s -> 0 <= r -> r + Z.of_nat n <= rows -> returns (clear_rows n r s) screen_ok.
Proof.
  revert r s. induction n as [| n IH]; intros r s Hs Hr Hn; [done |].
  cbn [clear_rows]. apply returns_bind, returns_set_row; [done | lia | done |].
  intros Hs'. apply IH; [done | lia | lia].
Qed.

Lemma move_window_ok n i drow r s m :
  screen_ok s -> screen_ok m -> 0 <= i -> 0 <= drow < rows -> 0 <= r < rows ->
  returns (move_window n i drow r s m) screen_ok.
Proof.
  revert i m. induction n as [| n IH]; intros i m Hs Hm Hi Hd Hr; [done |].
  cbn [move_window]. destruct (0 <=? drow - i) eqn:E1, (0 <=? r - i) eqn:E2; simpl;
    try (apply IH; done || lia).
  apply returns_bind, idx_screen; [done | lia |]. intros l Hl _.
  apply returns_bind, returns_set_row; [done | lia | done |].
  intros Hm'. apply IH; [done | done | lia | done | done].
Qed.

Definition screen_text (d : decoder) : list Z := fst (render (shown d)).

(** The cue on screen is what the displayed memory shows. *)
Definition synced (d : decoder) : Prop :=
  if open_ d then Text (cue d) = screen_text d else screen_text d = [].

(** One of the roll-up commands RU2, RU3, RU4, of either channel. *)
Definition is_roll_up (b1 b2 : Z) : bool :=
  ((Z.ldiff b1 0x08 =? 0x14) || (Z.ldiff b1 0x08 =? 0x15)) && in_range b2 0x25 0x27.

(** [P] is any property of the cues that showing and ending at [pts] keep;
    [ru] tells whether the stream may use roll-up. *)
Section decoder_invariant.
Context (ru : bool) (pts : Z) (P : bool -> Cue -> list Cue -> Prop).

Record cues_closed : Prop := {
  closed_drop : forall c l, P true c l -> ptsDelta pts (Start c) <= 0 -> P false c l;
  closed_end : forall c l, P true c l -> 0 < ptsDelta pts (Start c) ->
    let c' := mkCue (Start c) pts (Text c) (Top c) in P false c' (l ++ [c']);
  closed_open : forall c l t top, P false c l -> t <> [] -> P true (mkCue pts 0 t top) l }.

Record place_ok (d : decoder) : Prop := {
  ok_shown : screen_ok (shown d);
  ok_hidden : screen_ok (hidden d);
  ok_row : 0 <= row (pos d) < rows;
  ok_col : 0 <= col (pos d) < cols;
  ok_depth : 2 <= depth d <= 4;
  ok_cues : P (open_ d) (cue d) (done_ d);
  ok_mode : ru = false -> dmode d <> rollUp }.

Definition sync_ok (d : decoder) : Prop := ru = false -> waiting d = true \/ synced d.

Definition decoder_ok (d : decoder) : Prop := place_ok d /\ sync_ok d.

(** A state in the middle of an operation that will [touch]. *)
Definition touching (d : decoder) : Prop :=
  place_ok d /\ (dmode d = popOn -> sync_ok d).

Context (HP : cues_closed).

Lemma end_fields d :
  shown (end_ d pts) = shown d /\ hidden (end_ d pts) = hidden d /\ pos (end_ d pts) = pos d /\
  depth (end_ d pts) = depth d /\ dmode (end_ d pts) = dmode d /\ open_ (end_ d pts) = false /\
  waiting (end_ d pts) = waiting d /\
  (P (open_ d) (cue d) (done_ d) -> P false (cue (end_ d pts)) (done_ (end_ d pts))).
Proof.
  unfold end_. destruct (open_ d) eqn:Ho; simpl; [| by rewrite Ho].
  destruct (ptsDelta pts (Start (cue d)) <=? 0) eqn:E; simpl; split_and!; try done.
  - intros Hp. apply closed_drop; [done | done | lia].
  - intros Hp. apply (closed_end HP); [done | lia].
Qed.

Lemma show_ok d : place_ok d -> decoder_ok (show d pts).
Proof.
  intros [H1 H2 H3 H4 H5 H6 H7]. unfold show.
  set (d0 := set_waiting d false).
  destruct (render (shown d0)) as [text top] eqn:Er.
  destruct (open_ d0 && bool_decide (text = Text (cue d0)))%bool eqn:E.
  - apply andb_prop in E as [Ho Ht]. apply bool_decide_eq_true in Ht.
    split; [by constructor |]. intros _. right. unfold synced, screen_text.
    rewrite Ho, Er. done.
  - destruct (end_fields d0) as (F1 & F2 & F3 & F4 & F5 & F6 & F7 & F8).
    specialize (F8 H6). destruct (decide (text = [])) as [-> | Ht].
    + rewrite bool_decide_true by done.
      split; [constructor; rewrite ?F1, ?F2, ?F3, ?F4, ?F5, ?F6; done |].
      intros _. right. unfold synced, screen_text. by rewrite F6, F1, Er.
    + rewrite bool_decide_false by done. split.
      * constructor; simpl; rewrite ?F1, ?F2, ?F3, ?F4, ?F5; try done.
        by apply (closed_open HP) with (c := cue (end_ d0 pts)).
      * intros _. right. unfold synced, screen_text. simpl. by rewrite F1, Er.
Qed.

Lemma touch_ok d : touching d -> decoder_ok (touch d pts).
Proof.
  intros [Hp Hs]. unfold touch. case_bool_decide as Hm; simpl.
  { split; [done | by apply Hs]. }
  destruct (waiting d) eqn:Hw; [split; [done | by left] |].
  destruct (typed d && soon d pts)%bool.
  - split; [| by left]. by destruct Hp; constructor.
  - apply show_ok. by destruct Hp; constructor.
Qed.

Lemma place_ok_pos d r c :
  place_ok d -> 0 <= r < rows -> 0 <= c < cols -> place_ok (set_pos d r c).
Proof. intros [] Hr Hc. by constructor. Qed.

Lemma touching_of_ok d : decoder_ok d -> touching d.
Proof. intros [H1 H2]. by split. Qed.

Lemma write_cell_ok d c v (Q : decoder -> Prop) :
  touching d -> 0 <= c < cols ->
  (forall d', touching d' -> pos d' = pos d -> Q d') -> returns (write_cell d c v) Q.
Proof.
  intros [Hp Hs] Hc HQ. destruct Hp as [H1 H2 H3 H4 H5 H6 H7].
  unfold write_cell, target, set_target. apply returns_bind.
  case_bool_decide as Hm.
  - apply returns_set_cell; [done | done | done |]. intros s' Hs'. apply HQ; [| done].
    split; [by constructor |]. intros _ Hru. by specialize (Hs Hm Hru).
  - apply returns_set_cell; [done | done | done |]. intros s' Hs'. apply HQ; [| done].
    split; [by constructor |]. intros Hm'. by simpl in Hm'.
Qed.

Lemma put_ok d v (Q : decoder -> Prop) :
  touching d -> (forall d', touching d' -> Q d') -> returns (put d v) Q.
Proof.
  intros Ht HQ. pose proof (ok_col d (proj1 Ht)) as Hcol. unfold put. apply returns_bind, write_cell_ok; [done | done |].
  intros d' Ht' Hpos. destruct (col (pos d') <? cols - 1) eqn:E; [| by apply HQ].
  apply HQ. destruct Ht' as [Hp Hs]. pose proof Hp as [_ _ Hr Hc _ _ _].
  split; [| exact Hs]. apply place_ok_pos; [done | done | lia].
Qed.

Lemma erase_from_ok n c d (Q : decoder -> Prop) :
  touching d -> 0 <= c -> c + Z.of_nat n <= cols ->
  (forall d', touching d' -> Q d') -> returns (erase_from n c d) Q.
Proof.
  revert c d. induction n as [| n IH]; intros c d Ht Hc Hn HQ; [by apply HQ |].
  cbn [erase_from]. apply returns_bind, write_cell_ok; [done | lia |].
  intros d' Ht' _. apply IH; [done | lia | lia | done].
Qed.

Lemma put_touch_ok d v :
  touching d -> returns (let! d := put d v in Ok (touch d pts)) decoder_ok.
Proof.
  intros Ht. apply returns_bind, put_ok; [done |]. intros d' Ht'. by apply touch_ok.
Qed.

Lemma place_ok_screens d s h :
  place_ok d -> screen_ok s -> screen_ok h -> place_ok (set_hidden (set_shown d s) h).
Proof. intros [] ? ?. by constructor. Qed.

Lemma carriage_return_ok d : decoder_ok d -> returns (carriage_return d pts) decoder_ok.
Proof.
  intros Hd. unfold carriage_return. destruct (bool_decide (dmode d = rollUp)); [| done]. simpl.
  destruct (show_ok d (proj1 Hd)) as [Hp _]. set (d1 := show d pts) in *.
  pose proof Hp as [H1 H2 H3 H4 H5 H6 H7]. unfold rows in H3.
  apply returns_bind. eapply returns_mono.
  { apply scroll_ok; [exact H1 | lia | unfold rows; lia]. }
  intros s Hs. apply returns_bind, returns_set_row; [done | unfold rows; lia | done |]. intros Hs1.
  apply returns_bind. eapply returns_mono.
  { apply clear_rows_ok; [exact Hs1 | lia | unfold rows; lia]. }
  intros s2 Hs2. apply returns_Ok.
  destruct (show_ok (set_pos (set_shown d1 s2) (row (pos d1)) 0)) as [Hq Hq2].
  { by constructor. }
  split; [by destruct Hq; constructor | exact Hq2].
Qed.

Lemma decoder_ok_mode d m t :
  decoder_ok d -> (ru = false -> m <> rollUp) -> decoder_ok (set_mode d m t).
Proof. intros [[] H2] Hm. split; [by constructor | exact H2]. Qed.

Lemma decoder_ok_typed d t at_ : decoder_ok d -> decoder_ok (set_typed d t at_).
Proof. intros [[] H2]. split; [by constructor | exact H2]. Qed.

Lemma decoder_ok_pos d r c :
  decoder_ok d -> 0 <= r < rows -> 0 <= c < cols -> decoder_ok (set_pos d r c).
Proof. intros [H1 H2] Hr Hc. split; [by apply place_ok_pos | exact H2]. Qed.

Lemma decoder_ok_depth d n : decoder_ok d -> 2 <= n <= 4 -> decoder_ok (set_depth d n).
Proof. intros [[] H2] Hn. split; [by constructor | exact H2]. Qed.

Lemma roll_up_ok d b2 :
  decoder_ok d -> ru = true -> 0x25 <= b2 <= 0x27 -> returns (misc d pts b2) decoder_ok.
Proof.
  intros Hd Hru Hb. unfold misc.
  replace (b2 =? 0x20) with false by lia. replace (b2 =? 0x21) with false by lia.
  replace (b2 =? 0x24) with false by lia.
  replace ((b2 =? 0x25) || (b2 =? 0x26) || (b2 =? 0x27))%bool with true by lia.
  assert (wrap8 (b2 - 0x25) = b2 - 0x25) as -> by (apply Z.mod_small; lia).
  apply returns_Ok, decoder_ok_typed. set (d1 := if bool_decide _ then _ else _).
  assert (decoder_ok d1) as Hd1.
  { subst d1. case_bool_decide; [done |]. apply show_ok.
    pose proof (ok_col d (proj1 Hd)). apply place_ok_pos; [| done | done].
    apply place_ok_screens; [apply Hd | apply blank_ok | apply blank_ok]. }
  apply decoder_ok_pos; [| apply (ok_row d1 (proj1 Hd1)) | done].
  apply decoder_ok_depth; [| lia]. apply decoder_ok_mode; [done |]. by rewrite Hru.
Qed.

Lemma misc_ok d b2 :
  decoder_ok d -> (ru = false -> in_range b2 0x25 0x27 = false) ->
  returns (misc d pts b2) decoder_ok.
Proof.
  intros Hd Hru. pose proof (ok_row d (proj1 Hd)) as Hr. pose proof (ok_col d (proj1 Hd)) as Hc.
  destruct (in_range b2 0x25 0x27) eqn:Eru.
  { apply roll_up_ok; [done | by destruct ru; [| specialize (Hru eq_refl)] |].
    unfold in_range in Eru. lia. }
  unfold in_range in Eru. unfold misc.
  destruct (b2 =? 0x20) eqn:E20. { by apply decoder_ok_mode. }
  destruct (b2 =? 0x21).
  { destruct (0 <? col (pos d)) eqn:E0; [| done].
    apply returns_bind, write_cell_ok; [| simpl; lia |].
    - apply touching_of_ok, decoder_ok_pos; [done | done | lia].
    - intros d' Hd' _. by apply touch_ok. }
  destruct (b2 =? 0x24).
  { apply returns_bind, erase_from_ok; [by apply touching_of_ok | lia | lia |].
    intros d' Hd'. by apply touch_ok. }
  replace ((b2 =? 0x25) || (b2 =? 0x26) || (b2 =? 0x27))%bool with false by lia.
  destruct (b2 =? 0x29). { by apply decoder_ok_typed, decoder_ok_mode. }
  destruct ((b2 =? 0x2a) || (b2 =? 0x2b))%bool.
  { apply decoder_ok_mode; [done |]. apply (ok_mode d (proj1 Hd)). }
  destruct (b2 =? 0x2c).
  { apply show_ok. apply (place_ok_screens d blank (hidden d)); [apply Hd | apply blank_ok | apply Hd]. }
  destruct (b2 =? 0x2d). { by apply carriage_return_ok. }
  destruct (b2 =? 0x2e).
  { destruct Hd as [[] H2]. split; [| exact H2]. constructor; try done. apply blank_ok. }
  destruct (b2 =? 0x2f); [| done].
  apply show_ok. destruct Hd as [[] H2]. by constructor.
Qed.

Lemma pacRows_bound b1 p : pacRows b1 = Some p -> 0 <= p.1 < rows /\ 0 <= p.2 < rows.
Proof. unfold pacRows. intros H. repeat case_match; by simplify_eq/=. Qed.

Lemma pac_ok d b1 b2 : decoder_ok d -> returns (pac d b1 b2) decoder_ok.
Proof.
  intros Hd. unfold pac. destruct (pacRows b1) as [[p0 p1]|] eqn:Ep; [| done].
  apply pacRows_bound in Ep as [Hp0 Hp1]. cbn [fst snd] in Hp0, Hp1.
  set (r := if negb (Z.land b2 0x20 =? 0) then p1 else p0).
  assert (0 <= r < rows) as Hr by (subst r; by case_match).
  assert (0 <= (if negb (Z.land b2 0x10 =? 0) then Z.shiftr (Z.land b2 0x0e) 1 * 4 else 0) < cols) as Hc.
  { case_match; [| done]. pose proof (land_bound b2 14 ltac:(lia)).
    rewrite Z.shiftr_div_pow2 by lia. unfold cols. change (2 ^ 1) with 2.
    assert (Z.land b2 14 / 2 <= 14 / 2) by (apply Z.div_le_mono; lia).
    assert (0 <= Z.land b2 14 / 2) by (apply Z.div_pos; lia).
    change (14 / 2) with 7 in *. lia. }
  apply returns_bind. destruct (bool_decide (dmode d = rollUp) && negb (r =? row (pos d)))%bool eqn:E.
  - apply returns_bind. eapply returns_mono.
    { apply (move_window_ok _ 0 (row (pos d)) r (shown d) blank);
        [apply Hd | apply blank_ok | lia | apply Hd | done]. }
    intros m Hm. apply returns_Ok, returns_Ok.
    apply andb_prop in E as [Em _]. apply bool_decide_eq_true in Em.
    destruct Hd as [Hp Hs]. split.
    + apply place_ok_pos; [| done | done]. destruct Hp. by constructor.
    + intros Hru. by destruct (ok_mode d Hp Hru).
  - apply returns_Ok, returns_Ok. by apply decoder_ok_pos.
Qed.

Lemma idx_const (l : list Z) i (Q : Z -> Prop) :
  0 <= i < zlen l -> (forall v, Q v) -> returns (idx l i) Q.
Proof. intros Hi HQ. destruct (idx_in_range l i Hi) as (v & _ & ->). apply HQ. Qed.

Lemma control_ok d b1 b2 :
  decoder_ok d -> byte_ok b2 ->
  (ru = false -> ((b1 =? 0x14) || (b1 =? 0x15)) && in_range b2 0x25 0x27 = false)%bool ->
  returns (control d pts b1 b2) decoder_ok.
Proof.
  intros Hd Hb Hru. unfold byte_ok in Hb.
  pose proof (ok_row d (proj1 Hd)) as Hr. pose proof (ok_col d (proj1 Hd)) as Hc.
  unfold cols in Hc. unfold control.
  destruct (((b1 =? 0x14) || (b1 =? 0x15)) && in_range b2 0x20 0x2f)%bool eqn:E1.
  { apply misc_ok; [done |]. intros H. specialize (Hru H).
    apply andb_prop in E1 as [E1 _]. by rewrite E1 in Hru. }
  destruct ((b1 =? 0x17) && in_range b2 0x21 0x23)%bool eqn:E2.
  { unfold in_range in E2.
    assert (wrap8 (b2 - 0x20) = b2 - 0x20) as -> by (apply Z.mod_small; lia).
    apply decoder_ok_pos; [done | done | unfold cols; lia]. }
  destruct (in_range b2 0x40 0x7f). { by apply pac_ok. }
  destruct (dtext d); [done |].
  destruct ((b1 =? 0x11) && in_range b2 0x20 0x2f)%bool.
  { by apply put_touch_ok, touching_of_ok. }
  destruct ((b1 =? 0x11) && in_range b2 0x30 0x3f)%bool eqn:E3.
  { unfold in_range in E3. apply returns_bind, idx_const; [unfold zlen; simpl; lia |].
    intros v. by apply put_touch_ok, touching_of_ok. }
  destruct (((b1 =? 0x12) || (b1 =? 0x13)) && in_range b2 0x20 0x3f)%bool eqn:E4; [| done].
  unfold in_range in E4. apply returns_bind, idx_const.
  - destruct (b1 =? 0x12); unfold zlen; simpl; lia.
  - intros v. apply put_touch_ok, touching_of_ok, decoder_ok_pos; [done | done | unfold cols; lia].
Qed.

Lemma pair_ok d b1 b2 :
  decoder_ok d -> byte_ok b1 -> byte_ok b2 -> (ru = false -> is_roll_up b1 b2 = false) ->
  returns (pair d pts b1 b2) decoder_ok.
Proof.
  intros Hd Hb1 Hb2 Hru. unfold pair.
  destruct ((b1 =? 0) && (b2 =? 0))%bool; [done |].
  destruct (in_range b1 0x10 0x1f).
  - set (d1 := if waiting d then show d pts else d).
    assert (decoder_ok d1) as Hd1 by (subst d1; case_match; [apply show_ok, Hd | done]).
    assert (forall d l, decoder_ok d -> decoder_ok (set_last d l)) as Hlast.
    { intros d' l [[] ?]. by split; [constructor |]. }
    case_bool_decide; [by apply Hlast |].
    set (d2 := set_channel _ _).
    assert (decoder_ok d2) as Hd2.
    { subst d2. destruct (Hlast d1 (b1, b2) Hd1) as [[] ?]. by split; [constructor |]. }
    destruct (channel d2 =? 1); [| done]. apply control_ok; done.
  - assert (decoder_ok (set_last d (0, 0))) as Hd1.
    { destruct Hd as [[] ?]. by split; [constructor |]. }
    destruct (_ || _ || _)%bool; [done |].
    apply returns_bind, put_ok; [by apply touching_of_ok |]. intros d2 Hd2.
    destruct (0x20 <=? b2).
    + apply put_touch_ok, Hd2.
    + apply returns_Ok, touch_ok, Hd2.
Qed.

(** No pair of the bytes is a roll-up command. *)
Fixpoint no_roll_up (b : list Z) : bool :=
  match b with
  | b1 :: b2 :: b => negb (is_roll_up b1 b2) && no_roll_up b
  | _ => true
  end.

Lemma Feed_ok d b :
  decoder_ok d -> bytes_ok b -> (ru = false -> no_roll_up b = true) ->
  returns (Feed d pts b) decoder_ok.
Proof.
  intros Hd Hb Hru. unfold Feed.
  assert (decoder_ok (due d pts)) as H0.
  { unfold due. case_match; [| done]. apply show_ok. by apply decoder_ok_typed. }
  revert H0. generalize (due d pts). clear d Hd. intros d Hd.
  revert d Hd. induction b as [b IH] using (induction_ltof1 _ (@length Z)). unfold ltof in IH.
  intros d Hd. destruct b as [| b1 [| b2 b]]; [done | done |].
  apply Forall_cons in Hb as [Hb1 Hb]. apply Forall_cons in Hb as [Hb2 Hb].
  cbn [pairs_loop]. apply returns_bind. eapply returns_mono.
  { apply pair_ok; [exact Hd | done | done |]. intros H. specialize (Hru H). simpl in Hru.
    destruct (is_roll_up b1 b2); [done | done]. }
  intros d' Hd'. apply IH; [simpl; lia | done | | done].
  intros H. specialize (Hru H). simpl in Hru. by apply andb_prop in Hru as [_ Hru].
Qed.
End decoder_invariant.

(** ** Whole streams *)

Fixpoint feed_all (d : decoder) (fs : list (Z * list Z)) : res decoder :=
  match fs with
  | [] => Ok d
  | (pts, b) :: fs => let! d := Feed d pts b in feed_all d fs
  end.

Lemma new_place_ok ru P : P false (mkCue 0 0 [] false) [] -> decoder_ok ru P NewDecoder.
Proof.
  intros HP. split; [| intros _; right; vm_compute; reflexivity].
  constructor; try done; try apply blank_ok.
Qed.

(** What holds of the cues whatever the clock does. *)
Definition cue_ok (c : Cue) : Prop := 0 < ptsDelta (End_ c) (Start c) /\ Text c <> [].
Definition cues_ok (o : bool) (c : Cue) (l : list Cue) : Prop :=
  Forall cue_ok l /\ (o = true -> Text c <> []).

Lemma cues_ok_closed pts : cues_closed pts cues_ok.
Proof.
  split.
  - intros c l [H1 H2] _. by split.
  - intros c l [H1 H2] Hd. split; [| done]. apply Forall_app. split; [done |].
    apply Forall_singleton. split; [done | by apply H2].
  - intros c l t top [H1 H2] Ht. by split.
Qed.

Lemma feed_all_ok ru P d fs :
  Forall (fun f => cues_closed (fst f) P) fs -> Forall (fun f => bytes_ok (snd f)) fs ->
  (ru = false -> Forall (fun f => no_roll_up (snd f) = true) fs) ->
  decoder_ok ru P d -> returns (feed_all d fs) (decoder_ok ru P).
Proof.
  intros HP Hb Hru. revert d. induction fs as [| [t b] fs IH]; intros d Hd; [done |].
  apply Forall_cons in HP as [HP1 HP]. apply Forall_cons in Hb as [Hb1 Hb].
  cbn [feed_all]. apply returns_bind. eapply returns_mono.
  { apply Feed_ok; [exact HP1 | exact Hd | exact Hb1 |].
    intros H. specialize (Hru H). by apply Forall_cons in Hru as [Hru _]. }
  intros d' Hd'. apply IH; [done | done | | done].
  intros H. specialize (Hru H). by apply Forall_cons in Hru as [_ Hru].
Qed.

Definition grid_ok (d : decoder) : Prop :=
  screen_ok (shown d) /\ screen_ok (hidden d) /\ 0 <= row (pos d) < rows /\
  0 <= col (pos d) < cols /\ 2 <= depth d <= 4.

Lemma decoder_ok_grid ru P d : decoder_ok ru P d -> grid_ok d.
Proof. intros [[H1 H2 H3 H4 H5 _ _] _]. exact (conj H1 (conj H2 (conj H3 (conj H4 H5)))). Qed.

(** Whatever caption bytes arrive, at whatever times, the decoder never
    indexes a screen or a character table out of range: it decodes the whole
    stream, the cursor stays on the 15 by 32 grid, and every cue it finishes
    has text and ends after it starts (on the wrapping clock). *)
Theorem decoder_total (fs : list (Z * list Z)) (Hb : Forall (fun f => bytes_ok (snd f)) fs) :
  returns (feed_all NewDecoder fs) (fun d =>
    grid_ok d /\ Forall cue_ok (done_ d) /\ (open_ d = true -> Text (cue d) <> [])).
Proof.
  eapply returns_mono.
  - apply (feed_all_ok true cues_ok); [| done | done | by apply new_place_ok].
    apply Forall_true. intros f. apply cues_ok_closed.
  - intros d Hd. split; [by eapply decoder_ok_grid |]. apply (ok_cues _ _ d (proj1 Hd)).
Qed.

(** The cues seen so far, on a clock that does not wrap. *)
Definition cues_before (now : Z) (o : bool) (c : Cue) (l : list Cue) : Prop :=
  StronglySorted (fun a b => End_ a <= Start b) l /\
  Forall (fun c => 0 <= Start c < End_ c /\ End_ c <= now /\ Text c <> []) l /\
  (o = true -> 0 <= Start c <= now /\ Text c <> [] /\ Forall (fun c' => End_ c' <= Start c) l).

Lemma StronglySorted_snoc {A} (R : A -> A -> Prop) l x :
  StronglySorted R l -> Forall (fun y => R y x) l -> StronglySorted R (l ++ [x]).
Proof.
  induction l as [| y l IH]; intros Hs Hf; simpl.
  - repeat constructor.
  - inversion Hs as [| ? ? Hs' Ha]; subst. apply Forall_cons in Hf as [Hf1 Hf].
    constructor; [by apply IH |]. apply List.Forall_app. split; [done |]. by repeat constructor.
Qed.

Lemma cues_before_mono now now' o c l :
  cues_before now o c l -> now <= now' -> cues_before now' o c l.
Proof.
  intros (H1 & H2 & H3) Hn. split; [done |]. split.
  - eapply Forall_impl; [exact H2 |]. intros x (? & ? & ?). split_and!; [lia | lia | lia | done].
  - intros Ho. destruct (H3 Ho) as (? & ? & ?). split_and!; [lia | lia | done | done].
Qed.

Lemma cues_before_closed now : 0 <= now < 2 ^ 32 -> cues_closed now (cues_before now).
Proof.
  intros Hn.
  assert (forall s, 0 <= s <= now -> ptsDelta now s = now - s) as Hd.
  { intros s Hs. rewrite <- (ptsDelta_unwrapped now s) by lia.
    by rewrite !Z.mod_small by lia. }
  split.
  - intros c l (H1 & H2 & H3) _. by split_and!.
  - intros c l (H1 & H2 & H3) Hc c'. destruct (H3 eq_refl) as (Hr & Ht & Hf).
    rewrite Hd in Hc by done. split; [| split; [| done]].
    + by apply StronglySorted_snoc.
    + apply Forall_app. split; [done |]. apply Forall_singleton. simpl.
      split_and!; [lia | lia | lia | done].
  - intros c l t top (H1 & H2 & H3) Ht. split_and!; [done | done |]. intros _. simpl.
    split_and!; [lia | lia | done |]. eapply Forall_impl; [exact H2 |]. simpl. intros x Hx. lia.
Qed.

Lemma decoder_ok_mono ru (P Q : bool -> Cue -> list Cue -> Prop) d :
  decoder_ok ru P d -> (forall o c l, P o c l -> Q o c l) -> decoder_ok ru Q d.
Proof. intros [[] H2] HPQ. split; [constructor; auto | exact H2]. Qed.

Lemma feed_all_before d fs now :
  decoder_ok true (cues_before now) d -> Forall (fun f => bytes_ok (snd f)) fs -> 0 <= now ->
  StronglySorted (fun a b => fst a <= fst b) fs ->
  Forall (fun f => now <= fst f < 2 ^ 32) fs ->
  returns (feed_all d fs) (fun d => exists now', 0 <= now' /\ decoder_ok true (cues_before now') d /\
    forall t, now <= t -> Forall (fun f => fst f <= t) fs -> now' <= t).
Proof.
  revert d now. induction fs as [| [t b] fs IH]; intros d now Hd Hb Hn Hs Hr.
  { exists now. split_and!; [done | done |]. by intros t Ht _. }
  apply Forall_cons in Hb as [Hb1 Hb]. apply Forall_cons in Hr as [Hr1 Hr].
  inversion Hs as [| ? ? Hs' Ha]; subst. cbn [feed_all]. apply returns_bind. simpl in Hr1.
  eapply returns_mono.
  { apply (Feed_ok true t (cues_before t)); [apply cues_before_closed; lia | | exact Hb1 | done].
    eapply decoder_ok_mono; [exact Hd |]. intros o c l Hc. eapply cues_before_mono; [exact Hc | lia]. }
  intros d' Hd'. eapply returns_mono.
  { apply (IH d' t); [done | done | lia | done |].
    apply list.Forall_forall. intros f Hf. simpl.
    eapply list.Forall_forall in Hr; [| exact Hf].
    rewrite List.Forall_forall in Ha. specialize (Ha f (proj1 (list_elem_of_In _ _) Hf)). simpl in Ha. lia. }
  simpl. intros d2 (now' & H1 & H2 & H3). exists now'. split_and!; [done | done |].
  intros t' Ht' Hf. apply Forall_cons in Hf as [Hf1 Hf]. by apply H3.
Qed.

(** Fed at times that do not go back, the decoder's cues come out in order
    and never overlap: each one starts before it ends, and ends before the
    next one starts; none starts before the first picture or ends after the
    last. *)
Theorem cues_in_order (fs : list (Z * list Z)) (stop : Z)
    (Hb : Forall (fun f => bytes_ok (snd f)) fs)
    (Hs : StronglySorted (fun a b => fst a <= fst b) fs)
    (Hr : Forall (fun f => 0 <= fst f <= stop) fs) (Hstop : 0 <= stop < 2 ^ 32) :
  returns (let! d := feed_all NewDecoder fs in Ok (Close d stop)) (fun d =>
    open_ d = false /\
    StronglySorted (fun a b => End_ a <= Start b) (done_ d) /\
    Forall (fun c => 0 <= Start c < End_ c /\ End_ c <= stop /\ Text c <> []) (done_ d)).
Proof.
  apply returns_bind. eapply returns_mono.
  { apply (feed_all_before NewDecoder fs 0); [| done | done | done |].
    - apply new_place_ok. split_and!; [constructor | constructor | done].
    - eapply Forall_impl; [exact Hr |]. simpl. intros f Hf. lia. }
  simpl. intros d (now & Hn & Hd & Hmax). apply (decoder_ok_mono _ _ (cues_before stop)) in Hd.
  - destruct (end_fields stop (cues_before stop) (cues_before_closed stop Hstop) d)
      as (_ & _ & _ & _ & _ & Ho & _ & Hc).
    destruct (Hc (ok_cues _ _ d (proj1 Hd))) as (H1 & H2 & _). by split_and!.
  - intros o c l Hc. eapply cues_before_mono; [exact Hc |]. apply Hmax; [lia |].
    eapply Forall_impl; [exact Hr |]. simpl. intros f Hf. lia.
Qed.

(** A stream of pop-on and paint-on captions shows what it wrote: after
    any number of pictures, unless typed text is waiting for its turn, the cue
    on screen is exactly the displayed memory's text, and there is no cue
    exactly when the displayed memory is blank. *)
Theorem showing_follows_screen (fs : list (Z * list Z))
    (Hb : Forall (fun f => bytes_ok (snd f)) fs)
    (Hru : Forall (fun f => no_roll_up (snd f) = true) fs) :
  returns (feed_all NewDecoder fs) (fun d =>
    waiting d = false ->
    if snd (Showing d) then Text (fst (Showing d)) = screen_text d else screen_text d = []).
Proof.
  eapply returns_mono.
  - apply (feed_all_ok false cues_ok); [| done | done | by apply new_place_ok].
    apply Forall_true. intros f. apply cues_ok_closed.
  - intros d [_ Hs] Hw. destruct (Hs eq_refl) as [Hw' | Hsy]; [congruence | exact Hsy].
Qed.

(** ** Pop-on captions *)

Section pop_on.
Context (pts : Z).

(** What loading a pop-on caption depends on. *)
Definition view (d : decoder) : screen * mode * bool * place :=
  (hidden d, dmode d, dtext d, pos d).

Definition settled (d : decoder) : decoder := if waiting d then show d pts else d.

Lemma end_rest d :
  view (end_ d pts) = view d /\ shown (end_ d pts) = shown d /\ channel (end_ d pts) = channel d /\
  last2 (end_ d pts) = last2 d /\ waiting (end_ d pts) = waiting d.
Proof. unfold end_. destruct (open_ d); [| done]. simpl. by destruct (_ <=? _). Qed.

Lemma show_rest d :
  view (show d pts) = view d /\ channel (show d pts) = channel d /\ last2 (show d pts) = last2 d /\
  waiting (show d pts) = false.
Proof.
  unfold show. destruct (render _) as [text top]. destruct (_ && _)%bool; [done |].
  destruct (end_rest (set_waiting d false)) as (H1 & _ & H2 & H3 & H4).
  by destruct (bool_decide (text = [])).
Qed.

Lemma settled_rest d :
  view (settled d) = view d /\ channel (settled d) = channel d /\ last2 (settled d) = last2 d /\
  waiting (settled d) = false.
Proof. unfold settled. destruct (waiting d) eqn:E; [apply show_rest | done]. Qed.

(** A control code of channel 1, sent once. *)
Lemma pair_control d b1 b2 :
  0x10 <= b1 <= 0x17 ->
  pair d pts b1 b2 =
    if bool_decide (last2 d = (b1, b2)) then Ok (set_last (settled d) (0, 0))
    else control (set_channel (set_last (settled d) (b1, b2)) 1) pts b1 b2.
Proof.
  intros Hb. destruct (settled_rest d) as (_ & _ & Hl & _). unfold pair.
  replace ((b1 =? 0) && (b2 =? 0))%bool with false by lia.
  replace (in_range b1 0x10 0x1f) with true by (unfold in_range; lia).
  fold (settled d). cbv zeta. rewrite Hl. case_bool_decide; [done |].
  assert (Z.land b1 8 = 0 /\ Z.ldiff b1 8 = b1) as [-> ->]; [| done].
  assert (b1 = 16 \/ b1 = 17 \/ b1 = 18 \/ b1 = 19 \/ b1 = 20 \/ b1 = 21 \/ b1 = 22 \/ b1 = 23)
    as Hc by lia.
  by destruct Hc as [-> | [-> | [-> | [-> | [-> | [-> | [-> | ->]]]]]]].
Qed.

Definition twice (d : decoder) (b1 b2 : Z) : res decoder :=
  let! d := pair d pts b1 b2 in pair d pts b1 b2.

(** A control code that only sets fields acts once when it is sent twice,
    and also when one of its two copies follows a copy of itself. *)
Lemma twice_sets d b1 b2 (f : decoder -> decoder) :
  0x10 <= b1 <= 0x17 ->
  (forall d', dmode d' = dmode d -> control d' pts b1 b2 = Ok (f d')) ->
  (forall d1 d2, view d1 = view d2 -> view (f d1) = view (f d2)) ->
  (forall d', channel (f d') = channel d' /\ last2 (f d') = last2 d' /\ waiting (f d') = waiting d') ->
  exists d', twice d b1 b2 = Ok d' /\ view d' = view (f d) /\ channel d' = 1 /\
    (last2 d' = (0, 0) \/ last2 d' = (b1, b2)).
Proof.
  intros Hb Hc Hv Hf. unfold twice. rewrite pair_control by done.
  destruct (settled_rest d) as (V1 & _ & _ & W1).
  assert (dmode (settled d) = dmode d) as M1 by (by injection V1).
  case_bool_decide as Hl; cbn [rbind].
  - rewrite pair_control by done.
    rewrite bool_decide_false by (simpl; intros [= <- <-]; lia).
    set (d1 := settled (set_last (settled d) (0, 0))).
    assert (view d1 = view d) as V2.
    { subst d1. by rewrite (proj1 (settled_rest _)). }
    rewrite Hc by (simpl; by injection V2).
    destruct (Hf (set_channel (set_last d1 (b1, b2)) 1)) as (F1 & F2 & _).
    eexists. split; [done |]. rewrite F1, F2. split_and!; [| done | by right].
    apply Hv. exact V2.
  - rewrite Hc by done. cbn [rbind]. rewrite pair_control by done.
    destruct (Hf (set_channel (set_last (settled d) (b1, b2)) 1)) as (F1 & F2 & F3).
    rewrite F2. rewrite bool_decide_true by done. eexists. split; [done |].
    assert (settled (f (set_channel (set_last (settled d) (b1, b2)) 1)) =
      f (set_channel (set_last (settled d) (b1, b2)) 1)) as ->.
    { unfold settled at 1. rewrite F3. cbn [waiting set_channel set_last]. by rewrite W1. }
    split_and!; [| by simpl; rewrite F1 | by left].
    apply Hv. exact V1.
Qed.

Lemma twice_RCL d : exists d', twice d 0x14 0x20 = Ok d' /\
  view d' = (hidden d, popOn, false, pos d) /\ channel d' = 1 /\
  (last2 d' = (0, 0) \/ last2 d' = (0x14, 0x20)).
Proof.
  apply (twice_sets d 0x14 0x20 (fun d => set_mode d popOn false)); [lia | done | | done].
  intros d1 d2 [= H1 H2 H3 H4]. unfold view. simpl. by rewrite H1, H4.
Qed.

Lemma twice_ENM d : exists d', twice d 0x14 0x2e = Ok d' /\
  view d' = (blank, dmode d, dtext d, pos d) /\ channel d' = 1 /\
  (last2 d' = (0, 0) \/ last2 d' = (0x14, 0x2e)).
Proof.
  apply (twice_sets d 0x14 0x2e (fun d => set_hidden d blank)); [lia | done | | done].
  intros d1 d2 [= H1 H2 H3 H4]. unfold view. simpl. by rewrite H2, H3, H4.
Qed.

Definition pac_row (b1 b2 : Z) : option Z :=
  match pacRows b1 with
  | Some (p0, p1) => Some (if negb (Z.land b2 0x20 =? 0) then p1 else p0)
  | None => None
  end.
Definition pac_col (b2 : Z) : Z :=
  if negb (Z.land b2 0x10 =? 0) then Z.shiftr (Z.land b2 0x0e) 1 * 4 else 0.

Lemma pac_row_bound b1 b2 r : pac_row b1 b2 = Some r -> 0 <= r < rows /\ 0x10 <= b1 <= 0x17.
Proof.
  unfold pac_row. destruct (pacRows b1) as [[p0 p1]|] eqn:E; [| done].
  intros [= <-]. apply pacRows_bound in E as HB. destruct HB as [HB0 HB1]. cbn [fst snd] in HB0, HB1. split; [by case_match |].
  unfold pacRows in E. repeat case_match; done || lia.
Qed.

Lemma twice_PAC d b1 b2 r :
  pac_row b1 b2 = Some r -> 0x40 <= b2 <= 0x7f -> dmode d = popOn ->
  exists d', twice d b1 b2 = Ok d' /\
    view d' = (hidden d, dmode d, dtext d, mkPlace r (pac_col b2)) /\ channel d' = 1 /\
    (last2 d' = (0, 0) \/ last2 d' = (b1, b2)).
Proof.
  intros Hr Hb2 Hm. destruct (pac_row_bound _ _ _ Hr) as [_ Hb1].
  apply (twice_sets d b1 b2 (fun d => set_pos d r (pac_col b2))); [done | | | done].
  - intros d' Hm'. rewrite Hm in Hm'. unfold control, in_range.
    replace (((b1 =? 20) || (b1 =? 21)) && ((32 <=? b2) && (b2 <=? 47)))%bool with false by lia.
    replace ((b1 =? 23) && ((33 <=? b2) && (b2 <=? 35)))%bool with false by lia.
    replace ((64 <=? b2) && (b2 <=? 127))%bool with true by lia.
    unfold pac. unfold pac_row in Hr. destruct (pacRows b1) as [[p0 p1]|]; [| done].
    cbv zeta. injection Hr as ->. rewrite bool_decide_false by (by rewrite Hm'). done.
  - intros d1 d2 [= H1 H2 H3 H4]. unfold view. simpl. by rewrite H1, H2, H3.
Qed.

(** The characters of the basic set, as they are sent. *)
Definition printable (b : Z) : Prop := 0x20 <= b <= 0x7f.

(** A row with the text [l] written from column [c] on. *)
Definition cells (c : Z) (l : list Z) : list Z :=
  replicate (Z.to_nat c) 0 ++ l ++ replicate (32 - Z.to_nat c - length l) 0.

Lemma cells_snoc c l v :
  0 <= c -> c + zlen l < 32 -> <[Z.to_nat (c + zlen l) := v]> (cells c l) = cells c (l ++ [v]).
Proof.
  intros Hc Hl. unfold cells. unfold zlen in *.
  replace (Z.to_nat (c + Z.of_nat (length l)))
    with (length (replicate (Z.to_nat c) 0%Z) + (length l + 0))%nat by (rewrite length_replicate; lia).
  rewrite insert_app_r, insert_app_r.
  replace (32 - Z.to_nat c - length l)%nat with (S (32 - Z.to_nat c - length (l ++ [v])))
    by (rewrite length_app; simpl; lia).
  simpl. by rewrite <- !app_assoc.
Qed.

Lemma cells_length c l : 0 <= c -> c + zlen l <= 32 -> length (cells c l) = 32%nat.
Proof. intros Hc Hl. unfold cells, zlen in *. rewrite !length_app, !length_replicate. lia. Qed.

(** [l] has been written at [r], from column [c] on. *)
Definition written (d : decoder) (r c : Z) (l : list Z) : Prop :=
  view d = (<[Z.to_nat r := cells c l]> blank, popOn, false,
            mkPlace r (Z.min (c + zlen l) (cols - 1))) /\ channel d = 1.

Lemma put_written d r c l v :
  0 <= r < rows -> 0 <= c -> c + zlen l < 32 -> written d r c l ->
  exists d', put d v = Ok d' /\ written d' r c (l ++ [v]) /\ last2 d' = last2 d /\ waiting d' = waiting d.
Proof.
  intros Hr Hc Hl [[= H1 H2 H3 H4] H5]. pose proof (zlen_nonneg l).
  assert (length blank = 15%nat) as Hb by done. unfold rows, cols in *.
  unfold put, write_cell, target, set_target, set_cell, set_row, rows, cols.
  rewrite H2, H1, H4. cbn [row col]. rewrite bool_decide_true by done.
  rewrite (idx_Ok _ _ (cells c l)); [| lia | by rewrite list_lookup_insert_eq by (rewrite Hb; lia)].
  cbn [rbind].
  replace ((0 <=? Z.min (c + zlen l) (32 - 1)) && (Z.min (c + zlen l) (32 - 1) <? 32))%bool with true by lia.
  replace ((0 <=? r) && (r <? 15))%bool with true by lia. cbn [rbind].
  rewrite Z.min_l by lia. rewrite cells_snoc by done. rewrite list_insert_insert_eq.
  cbn [pos set_hidden]. rewrite H4. cbn [row col]. rewrite Z.min_l by lia.
  assert (zlen (l ++ [v]) = zlen l + 1) as Hz by (by rewrite zlen_app).
  destruct (c + zlen l <? 32 - 1) eqn:E; eexists; (split; [done |]); (split; [| by split]);
    (split; [| done]); unfold view; simpl; rewrite H2, H3, ?H4, Hz; unfold cols.
  - by rewrite Z.min_l, Z.add_assoc by lia.
  - by rewrite !Z.min_r by lia.
Qed.

Lemma pair_written d r c l b1 b2 :
  0 <= r < rows -> 0 <= c -> c + zlen l + 1 < 32 -> written d r c l ->
  printable b1 -> printable b2 ->
  exists d', pair d pts b1 b2 = Ok d' /\ written d' r c (l ++ [basic b1; basic b2]) /\
    last2 d' = (0, 0).
Proof.
  intros Hr Hc Hl Hw Hb1 Hb2. unfold printable in *. unfold pair, in_range.
  replace ((b1 =? 0) && (b2 =? 0))%bool with false by lia.
  replace ((16 <=? b1) && (b1 <=? 31))%bool with false by lia. cbv zeta.
  pose proof Hw as [[= H1 H2 H3 H4] H5].
  cbn [channel dtext set_last]. rewrite H5, H3. replace (b1 <? 32) with false by lia. cbn [negb orb Z.eqb Pos.eqb].
  replace (32 <=? b2) with true by lia.
  destruct (put_written (set_last d (0, 0)) r c l (basic b1) Hr Hc ltac:(lia)) as (d1 & -> & W1 & L1 & _).
  { exact Hw. }
  cbn [rbind].
  destruct (put_written d1 r c (l ++ [basic b1]) (basic b2) Hr Hc) as (d2 & -> & W2 & L2 & _).
  { rewrite zlen_app. change (zlen [basic b1]) with 1. lia. }
  { done. }
  cbn [rbind]. exists d2. rewrite <- app_assoc in W2. split; [| split; [done | by rewrite L2, L1]].
  unfold touch. destruct W2 as [[= _ M2 _ _] _]. by rewrite bool_decide_true by done.
Qed.

(** The caption text, two characters to the pair. *)
Fixpoint paired (l : list Z) : Prop :=
  match l with
  | [] => True
  | [_] => False
  | b1 :: b2 :: l => printable b1 /\ printable b2 /\ paired l
  end.

Lemma text_written d r c l ts :
  0 <= r < rows -> 0 <= c -> c + zlen l + zlen ts <= 32 -> written d r c l -> paired ts -> ts <> [] ->
  exists d', pairs_loop d pts ts = Ok d' /\ written d' r c (l ++ map basic ts) /\ last2 d' = (0, 0).
Proof.
  intros Hr Hc. revert d l. induction ts as [ts IH] using (induction_ltof1 _ (@length Z)).
  unfold ltof in IH. intros d l Hl Hw Hp Hne.
  destruct ts as [| b1 [| b2 ts]]; [done | done |]. destruct Hp as (Hb1 & Hb2 & Hp).
  rewrite !zlen_cons in Hl. pose proof (zlen_nonneg ts).
  destruct (pair_written d r c l b1 b2) as (d1 & E & W & L); [done | done | lia | done | done | done |].
  cbn [pairs_loop]. rewrite E. cbn [rbind].
  destruct ts as [| b3 ts]; [by exists d1 |].
  destruct (IH (b3 :: ts)) with (d := d1) (l := l ++ [basic b1; basic b2]) as (d2 & E2 & W2 & L2).
  { simpl. lia. }
  { rewrite zlen_app. change (zlen [basic b1; basic b2]) with 2. lia. }
  { done. }
  { done. }
  { done. }
  exists d2. rewrite <- app_assoc in W2. by split_and!.
Qed.

Lemma show_text d t :
  fst (render (shown d)) = t -> t <> [] ->
  open_ (show d pts) = true /\ Text (cue (show d pts)) = t /\ shown (show d pts) = shown d.
Proof.
  intros Ht Hne. unfold show. cbn [shown set_waiting].
  destruct (render (shown d)) as [text top]. cbn [fst] in Ht. subst text.
  destruct (open_ (set_waiting d false) && bool_decide (t = Text (cue (set_waiting d false))))%bool eqn:E.
  - apply andb_prop in E as [E1 E2]. by apply bool_decide_eq_true in E2.
  - rewrite bool_decide_false by done. split; [done |]. split; [done |].
    exact (proj1 (proj2 (end_rest (set_waiting d false)))).
Qed.

(** EOC, sent twice: the loaded memory is shown, once. *)
Lemma twice_EOC d t :
  last2 d <> (0x14, 0x2f) -> fst (render (hidden d)) = t -> t <> [] ->
  exists d', twice d 0x14 0x2f = Ok d' /\ open_ d' = true /\ Text (cue d') = t /\
    dmode d' = popOn /\ shown d' = hidden d.
Proof.
  intros Hl Ht Hne. unfold twice. rewrite pair_control by lia.
  rewrite bool_decide_false by done.
  destruct (settled_rest d) as (Hv & _ & _ & _).
  assert (hidden (settled d) = hidden d) as Hh by (by injection Hv).
  set (d0 := set_channel (set_last (settled d) (20, 47)) 1).
  set (d1 := set_mode (set_hidden (set_shown d0 (hidden d0)) (shown d0)) popOn false).
  change (control d0 pts 20 47) with (Ok (show d1 pts)). cbn [rbind].
  destruct (show_rest d1) as (Hv1 & _ & Hl1 & Hw).
  assert (dmode (show d1 pts) = popOn) as Hm by (by injection Hv1).
  rewrite pair_control by lia. rewrite Hl1. rewrite bool_decide_true by done.
  eexists. split; [done |]. unfold settled at 1 2 3 4. rewrite Hw.
  destruct (show_text d1 t) as (S1 & S2 & S3); [simpl; by rewrite Hh | done |].
  split_and!; [exact S1 | exact S2 | exact Hm |].
  simpl. rewrite S3. simpl. exact Hh.
Qed.

Lemma pairs_loop_twice d b1 b2 b :
  pairs_loop d pts (b1 :: b2 :: b1 :: b2 :: b) = (let! d := twice d b1 b2 in pairs_loop d pts b).
Proof. unfold twice. by rewrite rbind_assoc. Qed.

Lemma pairs_loop_app d ts b :
  paired ts -> pairs_loop d pts (ts ++ b) = (let! d := pairs_loop d pts ts in pairs_loop d pts b).
Proof.
  revert d. induction ts as [ts IH] using (induction_ltof1 _ (@length Z)). unfold ltof in IH.
  intros d Hp. destruct ts as [| b1 [| b2 ts]]; [done | done |]. destruct Hp as (_ & _ & Hp).
  simpl. rewrite rbind_assoc. destruct (pair d pts b1 b2); [| done | done].
  apply IH; [simpl; lia | done].
Qed.
End pop_on.

(** ** The text of a row *)

Lemma trim_left_spaces n l : trim_left (replicate n 32 ++ l) = trim_left l.
Proof. induction n as [| n IH]; [done | exact IH]. Qed.

Lemma trim_left_app l r :
  trim_left (l ++ r) = match trim_left l with [] => trim_left r | _ => trim_left l ++ r end.
Proof. induction l as [| c l IH]; [done |]. simpl. by destruct (is_space c). Qed.

Lemma trim_space_padded a l b : trim_space (replicate a 32 ++ l ++ replicate b 32) = trim_space l.
Proof.
  unfold trim_space. rewrite trim_left_spaces, trim_left_app.
  destruct (trim_left l) as [| c l'].
  - pose proof (trim_left_spaces b []) as E. rewrite app_nil_r in E. by rewrite E.
  - by rewrite reverse_app, reverse_replicate, trim_left_spaces.
Qed.

Lemma basic_printable b : printable b -> 0x20 <= basic b.
Proof. unfold printable, basic. intros Hb. repeat case_match; lia. Qed.

Lemma row_text_cells c ts :
  0 <= c -> Forall printable ts -> row_text (cells c (map basic ts)) = trim_space (map basic ts).
Proof.
  intros Hc Hp. unfold row_text, cells. rewrite !map_app.
  assert (forall n, map (fun c => if c =? 0 then 32 else c) (replicate n 0) = replicate n 32) as Hrep.
  { induction n as [| n IH]; [done |]. simpl. by rewrite IH. }
  rewrite !Hrep.
  assert (map (fun c => if c =? 0 then 32 else c) (map basic ts) = map basic ts) as ->.
  { induction Hp as [| t ts Ht Hp IH]; [done |]. simpl. rewrite IH.
    pose proof (basic_printable t Ht). by replace (basic t =? 0) with false by lia. }
  apply trim_space_padded.
Qed.

Lemma row_text_blank : row_text blank_row = [].
Proof. reflexivity. Qed.

(** A screen with one row of text. *)
Lemma render_row r l :
  0 <= r < rows -> row_text l <> [] ->
  render (<[Z.to_nat r := l]> blank) = (row_text l, r <? 7).
Proof.
  intros Hr Hne. unfold rows in Hr.
  assert (forall n (rest : screen) k first lines, 
    render_loop k first lines (replicate n blank_row ++ rest) =
    render_loop (k + Z.of_nat n) first lines rest) as Hskip.
  { induction n as [| n IH]; intros rest k first lines.
    - simpl. by rewrite Z.add_0_r.
    - cbn [replicate app render_loop]. rewrite row_text_blank, bool_decide_true, IH by done.
      f_equal. lia. }
  assert (<[Z.to_nat r := l]> blank =
    replicate (Z.to_nat r) blank_row ++ l :: replicate (14 - Z.to_nat r) blank_row ++ []) as ->.
  { unfold blank. rewrite app_nil_r.
    replace 15%nat with (Z.to_nat r + S (14 - Z.to_nat r))%nat at 1 by lia.
    rewrite replicate_add.
    replace (Z.to_nat r) with (length (replicate (Z.to_nat r) blank_row) + 0)%nat at 1
      by (rewrite length_replicate; lia).
    by rewrite insert_app_r. }
  unfold render. rewrite Hskip. cbn [render_loop]. rewrite bool_decide_false by done.
  rewrite Hskip. cbn [render_loop]. cbn [Z.ltb Z.compare app join]. f_equal.
  rewrite Z2Nat.id by lia. change (rows / 2) with 7. by replace (0 <=? 0 + r) with true by lia.
Qed.

Lemma paired_printable ts : paired ts -> Forall printable ts.
Proof.
  induction ts as [ts IH] using (induction_ltof1 _ (@length Z)). unfold ltof in IH.
  intros Hp. destruct ts as [| b1 [| b2 ts]]; [done | done |]. destruct Hp as (H1 & H2 & Hp).
  apply Forall_cons; split; [done |]. apply Forall_cons; split; [done |]. apply IH; [simpl; lia | done].
Qed.

(** What a pop-on caption of one row is on the line: RCL, ENM, a preamble with
    its row and column, the text, EOC, each control code sent twice. *)
Definition caption_pairs (b1 b2 : Z) (ts : list Z) : list Z :=
  [0x14; 0x20; 0x14; 0x20; 0x14; 0x2e; 0x14; 0x2e; b1; b2; b1; b2] ++ ts ++ [0x14; 0x2f; 0x14; 0x2f].

(** C20. A pop-on caption shows its own text and nothing else.  Whatever state
    the decoder is in (text service, another channel, another mode, a lost
    code, a screen full of another caption), a caption that is loaded, placed,
    written and flipped on is on screen at once, with exactly the characters
    sent, and the decoder is in pop-on mode; its control codes act once though
    they are sent twice. *)
Theorem pop_on_shows_its_text (d : decoder) (pts b1 b2 r : Z) (ts : list Z)
    (Hr : pac_row b1 b2 = Some r) (Hb2 : 0x40 <= b2 <= 0x7f)
    (Hts : paired ts) (Hfit : pac_col b2 + zlen ts <= cols)
    (Htext : trim_space (map basic ts) <> []) :
  exists d', Feed d pts (caption_pairs b1 b2 ts) = Ok d' /\
    snd (Showing d') = true /\ Text (fst (Showing d')) = trim_space (map basic ts) /\
    dmode d' = popOn /\ shown d' = <[Z.to_nat r := cells (pac_col b2) (map basic ts)]> blank.
Proof.
  destruct (pac_row_bound _ _ _ Hr) as [Hrow _].
  assert (0 <= pac_col b2 <= 28) as Hcol.
  { unfold pac_col. case_match; [| lia]. pose proof (land_bound b2 14 ltac:(lia)).
    rewrite Z.shiftr_div_pow2 by lia. change (2 ^ 1) with 2.
    assert (Z.land b2 14 / 2 <= 14 / 2) by (apply Z.div_le_mono; lia).
    assert (0 <= Z.land b2 14 / 2) by (apply Z.div_pos; lia).
    change (14 / 2) with 7 in *. lia. }
  unfold Feed, caption_pairs. cbn [app]. generalize (due d pts). clear d. intros d.
  rewrite pairs_loop_twice. destruct (twice_RCL pts d) as (d1 & -> & [= V1 V2 V3 V4] & _). cbn [rbind].
  rewrite pairs_loop_twice. destruct (twice_ENM pts d1) as (d2 & -> & [= W1 W2 W3 W4] & _). cbn [rbind].
  rewrite pairs_loop_twice.
  destruct (twice_PAC pts d2 b1 b2 r Hr Hb2) as (d3 & -> & X & X5 & _); [congruence |]. cbn [rbind].
  assert (ts <> []) as Hne by (by intros ->).
  destruct (text_written pts d3 r (pac_col b2) [] ts) as (d4 & E4 & [Y _] & Y5);
    [done | lia | rewrite zlen_nil; unfold cols in Hfit; lia | | done | done |].
  { split; [| done]. rewrite X, W1, W2, W3, V2, V3. f_equal; [do 3 f_equal |].
    - symmetry. apply list_insert_id.
      destruct (lookup_lt_is_Some_2 blank (Z.to_nat r)) as [x Hx]; [unfold rows in *; simpl; lia |].
      rewrite Hx. apply lookup_replicate_1 in Hx as [-> _]. unfold cells. simpl.
      rewrite <- replicate_add. unfold blank_row. do 2 f_equal. lia.
    - rewrite zlen_nil. unfold cols. f_equal. lia. }
  rewrite pairs_loop_app by done. rewrite E4. cbn [rbind]. injection Y as Y1 Y2 Y3 Y4.
  assert (fst (render (hidden d4)) = trim_space (map basic ts)) as Ht.
  { rewrite Y1. cbn [app]. rewrite render_row; rewrite ?row_text_cells; try done; try lia;
    by apply paired_printable. }
  rewrite pairs_loop_twice.
  destruct (twice_EOC pts d4 _ ltac:(by rewrite Y5) Ht Htext) as (d5 & -> & Z1 & Z2 & Z3 & Z4).
  cbn [rbind pairs_loop]. exists d5. split_and!; try done. by rewrite Z4, Y1.
Qed.

(** ** Witnesses *)

Definition hello : list Z := [0x48; 0x45; 0x4c; 0x4c; 0x4f; 0x21].
Definition two_captions : list (Z * list Z) :=
  [(90000, caption_pairs 0x14 0x70 hello); (93003, []); (180000, caption_pairs 0x11 0x54 [0x48; 0x69]);
   (270000, [0x14; 0x2c; 0x14; 0x2c])].

Lemma two_captions_ok : Forall (fun f => bytes_ok (snd f)) two_captions.
Proof. repeat (apply Forall_cons; split; [bytes_dec |]). constructor. Qed.

Lemma decoder_total_witness :
  returns (feed_all NewDecoder two_captions) (fun d =>
    grid_ok d /\ Forall cue_ok (done_ d) /\ (open_ d = true -> Text (cue d) <> [])).
Proof. apply decoder_total. apply two_captions_ok. Defined.

Lemma cues_in_order_witness :
  returns (let! d := feed_all NewDecoder two_captions in Ok (Close d 300000)) (fun d =>
    open_ d = false /\
    StronglySorted (fun a b => End_ a <= Start b) (done_ d) /\
    Forall (fun c => 0 <= Start c < End_ c /\ End_ c <= 300000 /\ Text c <> []) (done_ d)).
Proof.
  apply cues_in_order; [apply two_captions_ok | | | lia].
  - unfold two_captions. repeat constructor; simpl; lia.
  - unfold two_captions. repeat (apply Forall_cons; split; [simpl; lia |]). constructor.
Defined.

Lemma showing_follows_screen_witness :
  returns (feed_all NewDecoder two_captions) (fun d =>
    waiting d = false ->
    if snd (Showing d) then Text (fst (Showing d)) = screen_text d else screen_text d = []).
Proof.
  apply showing_follows_screen; [apply two_captions_ok |].
  repeat (apply Forall_cons; split; [vm_compute; reflexivity |]). constructor.
Defined.

Lemma pop_on_shows_its_text_witness :
  exists d', Feed NewDecoder 90000 (caption_pairs 0x14 0x70 hello) = Ok d' /\
    snd (Showing d') = true /\ Text (fst (Showing d')) = trim_space (map basic hello) /\
    dmode d' = popOn /\ shown d' = <[Z.to_nat 14 := cells (pac_col 0x70) (map basic hello)]> blank.
Proof.
  apply (pop_on_shows_its_text NewDecoder 90000 0x14 0x70 14 hello).
  - reflexivity.
  - lia.
  - unfold hello, paired, printable. lia.
  - vm_compute. discriminate.
  - vm_compute. discriminate.
Defined.
