(* ===== verification/CapVtt.v ===== *)
(** WebVTT for one segment, [server/internal/captions/vtt.go].  Text is a list
    of code points, as in the decoder. *)
From S2P Require Import Prelude GoNum Mpeg CapDecoder.
Local Open Scope Z_scope.

Definition stamp (ticks : Z) : list Z :=
  let ms := ticks / 90 in
  padded 2 (ms / 3600000) ++ lit ":" ++ padded 2 (ms / 60000 mod 60) ++ lit ":" ++
  padded 2 (ms / 1000 mod 60) ++ lit "." ++ padded 3 (ms mod 1000).

Definition escape_one (c : Z) : list Z :=
  if c =? 38 then lit "&amp;" else if c =? 60 then lit "&lt;" else if c =? 62 then lit "&gt;" else [c].
Definition escape (s : list Z) : list Z := concat (map escape_one s).

(** The span of a cue that falls in the segment, from its start. *)
Definition clip (start dur : Z) (c : Cue) : Z * Z :=
  (Z.max (ptsDelta (Start c) start) 0, Z.min (ptsDelta (End_ c) start) dur).

Definition cue_block (start dur : Z) (c : Cue) : list Z :=
  let '(from, to) := clip start dur c in
  if to <=? from then []
  else [10] ++ stamp from ++ lit " --> " ++ stamp to ++
       (if Top c then lit " line:10%" else []) ++ [10] ++ escape (Text c) ++ [10].

Definition Segment (start dur : Z) (cues : list Cue) : list Z :=
  lit "WEBVTT" ++ [10] ++ lit "X-TIMESTAMP-MAP=LOCAL:00:00:00.000,MPEGTS:" ++
  dec (Z.land start (Z.shiftl 1 33 - 1)) ++ [10] ++
  concat (map (cue_block start dur) cues).

(** ** Reading it back *)

(** The three character references, as a player resolves them. *)
Fixpoint unescape_text (s : list Z) : list Z :=
  match s with
  | 38 :: 97 :: 109 :: 112 :: 59 :: s => 38 :: unescape_text s
  | 38 :: 108 :: 116 :: 59 :: s => 60 :: unescape_text s
  | 38 :: 103 :: 116 :: 59 :: s => 62 :: unescape_text s
  | c :: s => c :: unescape_text s
  | [] => []
  end.

Lemma unescape_plain c s : c <> 38 -> unescape_text (c :: s) = c :: unescape_text s.
Proof.
  intros Hc. destruct c as [| p | p]; [done | | done].
  do 6 (destruct p as [p | p |]; try done).
Qed.

Lemma unescape_escape_one c s : unescape_text (escape_one c ++ s) = c :: unescape_text s.
Proof.
  unfold escape_one. destruct (Z.eqb_spec c 38) as [-> | H1]; [done |].
  destruct (Z.eqb_spec c 60) as [-> | H2]; [done |].
  destruct (Z.eqb_spec c 62) as [-> | H3]; [done |]. by apply unescape_plain.
Qed.

(** Escaping a caption's text loses nothing and leaves no markup: a player
    that resolves the character references reads the same text back, and the
    escaped text has no [<] and no [>], so it can hold neither a tag nor the
    arrow of a cue's times. *)
Theorem escape_roundtrip (s : list Z) :
  unescape_text (escape s) = s /\ Forall (fun c => c <> 60 /\ c <> 62) (escape s).
Proof.
  unfold escape. induction s as [| c s [IH1 IH2]]; [done |]. cbn [map concat]. split.
  - by rewrite unescape_escape_one, IH1.
  - apply Forall_app. split; [| done]. unfold escape_one.
    destruct (Z.eqb_spec c 38); [by repeat constructor |].
    destruct (Z.eqb_spec c 60); [by repeat constructor |].
    destruct (Z.eqb_spec c 62); [by repeat constructor |]. by apply Forall_singleton.
Qed.

(** A cue's time stamp is its time: the hours, minutes, seconds and
    milliseconds a player reads back from it are in range and add up to the
    milliseconds of the 90 kHz ticks, whatever the number of hours. *)
Theorem stamp_reads_back (ticks : Z) (Ht : 0 <= ticks < 2 ^ 63) :
  exists h m s ms,
    stamp ticks = h ++ [58] ++ m ++ [58] ++ s ++ [46] ++ ms /\
    ((undec h * 60 + undec m) * 60 + undec s) * 1000 + undec ms = ticks / 90 /\
    0 <= undec m < 60 /\ 0 <= undec s < 60 /\ 0 <= undec ms < 1000.
Proof.
  unfold stamp. set (t := ticks / 90).
  assert (0 <= t < 10 ^ 18) as Hb.
  { subst t. split; [apply Z.div_pos; lia | apply Z.div_lt_upper_bound; lia]. }
  assert (0 <= t / 3600000 <= t) by (split; [apply Z.div_pos; lia | apply Z.div_le_upper_bound; lia]).
  pose proof (Z.mod_pos_bound (t / 60000) 60 ltac:(lia)).
  pose proof (Z.mod_pos_bound (t / 1000) 60 ltac:(lia)).
  pose proof (Z.mod_pos_bound t 1000 ltac:(lia)).
  exists (padded 2 (t / 3600000)), (padded 2 (t / 60000 mod 60)), (padded 2 (t / 1000 mod 60)),
    (padded 3 (t mod 1000)).
  rewrite !undec_padded by lia. split; [done |]. split_and!; try lia.
  pose proof (Z.div_mod t 1000 ltac:(lia)) as E1.
  pose proof (Z.div_mod (t / 1000) 60 ltac:(lia)) as E2.
  rewrite Z.div_div in E2 by lia. change (1000 * 60) with 60000 in E2.
  pose proof (Z.div_mod (t / 60000) 60 ltac:(lia)) as E3.
  rewrite Z.div_div in E3 by lia. change (60000 * 60) with 3600000 in E3. lia.
Qed.

Lemma stamp_reads_back_witness : exists h m s ms,
  stamp 1234567890 = h ++ [58] ++ m ++ [58] ++ s ++ [46] ++ ms /\
  ((undec h * 60 + undec m) * 60 + undec s) * 1000 + undec ms = 1234567890 / 90 /\
  0 <= undec m < 60 /\ 0 <= undec s < 60 /\ 0 <= undec ms < 1000.
Proof. apply stamp_reads_back. lia. Defined.

(** ** Clipping *)

(** Segments show each cue exactly while it is on screen.  For a cue and a
    segment within half the clock of each other, whose 33-bit time stamps may
    have wrapped, a tick of the segment is inside the written span exactly when
    it is inside the cue, and nothing is written exactly when the cue and the
    segment share no tick; so a cue that runs across segments is whole. *)
Theorem segment_clips (a b s dur : Z) (text : list Z) (top : bool)
    (Ha : - 2 ^ 32 <= a - s < 2 ^ 32) (Hb : - 2 ^ 32 <= b - s < 2 ^ 32) :
  let c := mkCue (a mod 2 ^ 33) (b mod 2 ^ 33) text top in
  let start := s mod 2 ^ 33 in
  (forall t, fst (clip start dur c) <= t - s < snd (clip start dur c) <->
     a <= t < b /\ s <= t < s + dur) /\
  (cue_block start dur c = [] <-> forall t, ~ (a <= t < b /\ s <= t < s + dur)).
Proof.
  cbv zeta. unfold cue_block, clip. cbn [Start End_ fst snd Text Top].
  rewrite !ptsDelta_unwrapped by done. split; [intros t; lia |].
  destruct (Z.leb_spec (Z.min (b - s) dur) (Z.max (a - s) 0)) as [Hle | Hlt].
  - split; [intros _ t; lia | done].
  - split; [done |]. intros H. destruct (H (s + Z.max (a - s) 0)). lia.
Qed.

Lemma segment_clips_witness :
  let c := mkCue ((2 ^ 33 - 90000) mod 2 ^ 33) ((2 ^ 33 + 90000) mod 2 ^ 33) [72; 105] false in
  let start := (2 ^ 33 - 45000) mod 2 ^ 33 in
  (forall t, fst (clip start 180000 c) <= t - (2 ^ 33 - 45000) < snd (clip start 180000 c) <->
     2 ^ 33 - 90000 <= t < 2 ^ 33 + 90000 /\ 2 ^ 33 - 45000 <= t < 2 ^ 33 - 45000 + 180000) /\
  (cue_block start 180000 c = [] <->
     forall t, ~ (2 ^ 33 - 90000 <= t < 2 ^ 33 + 90000 /\
                  2 ^ 33 - 45000 <= t < 2 ^ 33 - 45000 + 180000)).
Proof. apply segment_clips; lia. Defined.
