(* ===== verification/Ring.v ===== *)
(** The on-disk ring of a tuned multiplex, [server/internal/ring/ring.go].

    [ring] is the state the mutex guards.  Every critical section of the source
    is one function on it; the work between two critical sections (creating,
    writing, removing a file) is a step of its own in [sys], so that the tuner
    ([Append]), the flusher and a reader ([CopyBuffer]) interleave as they do
    when the lock is not held.  Positions are Go's [int64], which a multiplex
    does not overflow; times are nanoseconds, the zero [time.Time] is [None]. *)
From Stdlib Require Import Sorted.
From S2P Require Import Prelude.
Local Open Scope Z_scope.
Local Open Scope go_scope.

Definition pendingCap : Z := Z.shiftl 32 20.
Definition markEvery : Z := 1000000000.
Definition resumeRoom : Z := Z.shiftl 1 30.

(** A file is named for its first position, [fmt.Sprintf("%016d.ts", first)];
    the name is that number here. *)
Record segment : Type := mkSegment { path : Z; first : Z; size : Z; opened : Z }.
Record mark : Type := mkMark { at_ : Z; mpos : Z }.

Record ring : Type := mkRing {
  gen : Z;
  start : Z;
  flushed : Z;
  received : Z;
  pending : list (list Z);
  queued : Z;
  segs : list segment;
  marks : list mark;
  lastMark : option Z;
  lastAt : option Z;
  window : Z;
  low : bool;
  off : bool;
  closed : bool }.

Definition set_place (r : ring) (s f rc : Z) : ring :=
  mkRing (gen r) s f rc (pending r) (queued r) (segs r) (marks r) (lastMark r) (lastAt r)
    (window r) (low r) (off r) (closed r).
Definition set_segs (r : ring) (s : Z) (l : list segment) : ring :=
  mkRing (gen r) s (flushed r) (received r) (pending r) (queued r) l (marks r) (lastMark r)
    (lastAt r) (window r) (low r) (off r) (closed r).
Definition set_marks (r : ring) (l : list mark) : ring :=
  mkRing (gen r) (start r) (flushed r) (received r) (pending r) (queued r) (segs r) l (lastMark r)
    (lastAt r) (window r) (low r) (off r) (closed r).
Definition set_flags (r : ring) (w : Z) (lo of_ cl : bool) : ring :=
  mkRing (gen r) (start r) (flushed r) (received r) (pending r) (queued r) (segs r) (marks r)
    (lastMark r) (lastAt r) w lo of_ cl.

(** [Open]'s ring: everything at position zero, no window read yet. *)
Definition Open : ring := mkRing 0 0 0 0 [] 0 [] [] None None 0 false false false.

(** ** Forgetting *)

Definition dropOldestLocked (r : ring) : res (ring * Z) :=
  match segs r with
  | [] => Panic
  | old :: l =>
      let s := match l with [] => first old + size old | s0 :: _ => first s0 end in
      Ok (set_segs r s l, path old)
  end.

Fixpoint trim_marks (start : Z) (l : list mark) : list mark :=
  match l with
  | m :: l' => if mpos m <? start then trim_marks start l' else l
  | [] => []
  end.
Definition trimMarksLocked (r : ring) : ring := set_marks r (trim_marks (start r) (marks r)).

Fixpoint drop_all (fuel : nat) (r : ring) (drop : list Z) : res (ring * list Z) :=
  match segs r with
  | [] => Ok (r, drop)
  | _ :: _ =>
      match fuel with
      | O => NoFuel
      | S fuel => let! '(r, p) := dropOldestLocked r in drop_all fuel r (drop ++ [p])
      end
  end.

Definition resetLocked (r : ring) : res (ring * list Z) :=
  let r := mkRing (gen r + 1) (start r) (flushed r) (received r) (pending r) (queued r) (segs r)
    (marks r) (lastMark r) (lastAt r) (window r) (low r) (off r) (closed r) in
  let! '(r, drop) := drop_all (length (segs r)) r [] in
  Ok (mkRing (gen r) (start r) (flushed r) (received r) [] 0 (segs r) [] None None
        (window r) (low r) (off r) (closed r), drop).

(** [r.flushed, r.start = r.received, r.received] after a reset. *)
Definition restart (r : ring) : ring := set_place r (received r) (received r) (received r).

Fixpoint trim_segs (fuel : nat) (now : Z) (r : ring) (drop : list Z) : res (ring * list Z) :=
  match segs r with
  | _ :: s1 :: _ =>
      if ((0 <? window r) && (window r <=? now - opened s1))%bool then
        match fuel with
        | O => NoFuel
        | S fuel => let! '(r, p) := dropOldestLocked r in trim_segs fuel now r (drop ++ [p])
        end
      else Ok (r, drop)
  | _ => Ok (r, drop)
  end.

Definition trimLocked (r : ring) (now : Z) : res (ring * list Z) :=
  let! '(r, drop) := trim_segs (length (segs r)) now r [] in
  Ok (trimMarksLocked r, drop).

(** ** The tuner's side *)

Definition Append (r : ring) (now : Z) (chunk : list Z) : res (ring * list Z) :=
  if zlen chunk =? 0 then Ok (r, [])
  else if (closed r || low r || off r || (pendingCap <? queued r + zlen chunk))%bool then
    let! '(r, drop) := if (negb (closed r) && negb (low r) && negb (off r))%bool
                       then resetLocked r else Ok (r, []) in
    let rc := received r + zlen chunk in
    Ok (set_place r rc rc rc, drop)
  else
    let mk := match lastMark r with
              | None => true
              | Some l => markEvery <=? now - l
              end in
    Ok (mkRing (gen r) (start r) (flushed r) (received r + zlen chunk)
          (pending r ++ [chunk]) (queued r + zlen chunk) (segs r)
          (if mk then marks r ++ [mkMark now (received r)] else marks r)
          (if mk then Some now else lastMark r) (Some now)
          (window r) (low r) (off r) (closed r), []).

Definition Close (r : ring) : ring := set_flags r (window r) (low r) (off r) true.

(** ** Queries *)

Definition Received (r : ring) : Z := received r.

Fixpoint first_mark (ok : mark -> bool) (l : list mark) : option mark :=
  match l with
  | [] => None
  | m :: l => if ok m then Some m else first_mark ok l
  end.

Definition Since (r : ring) : option Z :=
  option_map at_ (first_mark (fun m => start r <=? mpos m) (marks r)).

Definition Position (r : ring) (t : Z) : option (Z * Z) :=
  if closed r then None
  else option_map (fun m => (mpos m, at_ m))
         (first_mark (fun m => negb ((mpos m <? start r) || (at_ m <? t)))%bool (marks r)).

(** [copyPending(p, pending, skip)]: the bytes it puts in [p], of length [n]. *)
Fixpoint copyPending (n : Z) (pending : list (list Z)) (skip : Z) : res (list Z) :=
  match pending with
  | [] => Ok []
  | chunk :: l =>
      if zlen chunk <=? skip then copyPending n l (skip - zlen chunk)
      else
        let! c := slice_from chunk skip in
        let c := take (Z.to_nat n) c in
        if zlen c =? n then Ok c
        else let! d := copyPending (n - zlen c) l 0 in Ok (c ++ d)
  end.

Definition PendingFrom (r : ring) (pos : Z) : res (option (list Z)) :=
  if (closed r || (pos <? flushed r) || (received r <? pos))%bool then Ok None
  else let! out := copyPending (received r - pos) (pending r) (pos - flushed r) in Ok (Some out).

Record Stats : Type := mkStats { s_bytes : Z; s_since : option Z; s_off : bool; s_low : bool }.
Definition stats (r : ring) : Stats := mkStats (flushed r - start r) (Since r) (off r) (low r).

(** ** The flusher's critical sections *)

(** The first section of [flushOnce]: generation, batch, first position and
    whether to start a new file; [None] when there is nothing to write. *)
Definition flush_begin (r : ring) (span now : Z) (file : option Z)
    : option (Z * list (list Z) * Z * bool) :=
  if (closed r || bool_decide (pending r = []))%bool then None
  else
    let rotate := match file, last (segs r) with
                  | Some _, Some s => span <=? now - opened s
                  | _, _ => true
                  end in
    Some (gen r, pending r, flushed r, rotate).

Fixpoint grow_last (n : Z) (l : list segment) : res (list segment) :=
  match l with
  | [] => Panic
  | [s] => Ok [mkSegment (path s) (first s) (size s + n) (opened s)]
  | s :: l => let! l := grow_last n l in Ok (s :: l)
  end.

(** [fail]: empties the ring of generation [g] and stops it. *)
Definition fail (r : ring) (g : Z) : res (ring * list Z) :=
  if gen r =? g then
    let! '(r, drop) := resetLocked r in
    let r := restart r in
    Ok (set_flags r (window r) true (off r) (closed r), drop)
  else Ok (r, []).

Inductive commit_result : Type :=
  | Stale                  (** a reset came between: the batch is dropped *)
  | Failed (r : ring)      (** the write failed: [fail] comes next *)
  | Flushed (r : ring) (drop : list Z).

(** The second section of [flushOnce]. *)
Definition flush_commit (r : ring) (g : Z) (seg : option segment) (nbatch n : Z) (werr : bool)
    (now : Z) : res commit_result :=
  if negb (gen r =? g) then Ok Stale
  else
    let l := match seg with Some s => segs r ++ [s] | None => segs r end in
    let r := set_segs r (start r) l in
    if werr then Ok (Failed r)
    else
      let! l := grow_last n (segs r) in
      let! p := slice_from (pending r) nbatch in
      let r := mkRing (gen r) (start r) (flushed r + n) (received r) p (queued r - n) l (marks r)
        (lastMark r) (lastAt r) (window r) (low r) (off r) (closed r) in
      let! '(r, drop) := trimLocked r now in
      Ok (Flushed r drop).

Definition checkWindow (r : ring) (w now : Z) : res (ring * list Z) :=
  let r := set_flags r w (low r) (off r) (closed r) in
  let! '(r, drop) :=
    if ((w <=? 0) && negb (off r))%bool then
      let! '(r, drop) := resetLocked r in
      let r := restart r in
      Ok (set_flags r (window r) (low r) true (closed r), drop)
    else if ((0 <? w) && off r)%bool
    then Ok (set_flags r (window r) (low r) false (closed r), [])
    else Ok (r, []) in
  if 0 <? w then
    let! '(r, drop') := trimLocked r now in Ok (r, drop ++ drop')
  else Ok (r, drop).

(** [checkRoom]'s loop: the oldest files go while the disk needs more. *)
Fixpoint give_room (fuel : nat) (need : Z) (r : ring) (drop : list Z) : res (Z * ring * list Z) :=
  match segs r with
  | s0 :: _ :: _ =>
      if 0 <? need then
        match fuel with
        | O => NoFuel
        | S fuel =>
            let! '(r, p) := dropOldestLocked r in
            give_room fuel (need - size s0) r (drop ++ [p])
        end
      else Ok (need, r, drop)
  | _ => Ok (need, r, drop)
  end.

(** [room] is what [r.room(held)] answered. *)
Definition checkRoom (r : ring) (room : Z) : res (ring * list Z) :=
  if ((room <? 0) && negb (low r))%bool then
    let! '(need, r, drop) := give_room (length (segs r)) (- room) r [] in
    let r := trimMarksLocked r in
    if 0 <? need then
      let! '(r, drop') := resetLocked r in
      let r := restart r in
      Ok (set_flags r (window r) true (off r) (closed r), drop ++ drop')
    else Ok (r, drop)
  else if (low r && (resumeRoom <=? room))%bool
  then Ok (set_flags r (window r) false (off r) (closed r), [])
  else Ok (r, []).

(** [stop]: a folder that cannot be used turns the ring off for good. *)
Definition stop (r : ring) : res (ring * list Z) :=
  let! '(r, drop) := resetLocked r in
  let r := restart r in
  Ok (set_flags r (window r) true (off r) (closed r), drop).

(** The flusher's last section, when it exits. *)
Definition flusher_exit (r : ring) : res ring :=
  let! '(r, _) := resetLocked r in Ok (restart r).

(** ** The ring, its flusher and the disk *)

(** Where the flusher is between two critical sections.  [file] is the open
    file (an inode); [first_] is the position the batch starts at. *)
Inductive fpc : Type :=
  | FStart
  | FIdle (file : option Z)
  | FCreating (g : Z) (batch : list (list Z)) (first_ now : Z)
  | FWriting (g : Z) (batch rest : list (list Z)) (first_ : Z) (seg : option segment)
      (file n now : Z)
  | FBroken (g : Z) (batch : list (list Z)) (first_ : Z) (seg : option segment) (file n now : Z)
  | FFail (g first_ : Z)
  | FDone.

(** [names] is the ring's folder; an inode keeps the name it was created with
    and its bytes, and outlives its name while a reader has it open.  [trash]
    are the paths handed to [os.Remove].  [stream] is every byte the tuner
    appended, from position zero. *)
Record sys : Type := mkSys {
  ring_ : ring;
  span : Z;
  dead : bool;
  pc : fpc;
  names : gmap Z Z;
  inodes : gmap Z (Z * list Z);
  next : Z;
  trash : list Z;
  stream : list Z }.

Definition set_ring (s : sys) (r : ring) (drop : list Z) : sys :=
  mkSys r (span s) (dead s) (pc s) (names s) (inodes s) (next s) (trash s ++ drop) (stream s).
Definition set_pc (s : sys) (p : fpc) : sys :=
  mkSys (ring_ s) (span s) (dead s) p (names s) (inodes s) (next s) (trash s) (stream s).

Definition init (span : Z) : sys := mkSys Open span false FStart ∅ ∅ 0 [] [].

(** What happens next, and how the environment answers.  A write stops short
    after [k] bytes, or writes all of the chunk. *)
Inductive event : Type :=
  | EAppend (now : Z) (chunk : list Z)
  | EClose
  | EStart (ok : bool)
  | EWindow (w now : Z)
  | ERoom (room : Z)
  | EBegin (now : Z)
  | ECreate (ok : bool)
  | EWrite (short : option Z)
  | ECommit
  | EFail
  | ERemove (p : Z) (ok : bool)
  | EExit.

(** [f.Write]: the bytes go to the end of the file. *)
Definition write_file (s : sys) (file : Z) (b : list Z) : gmap Z (Z * list Z) :=
  match inodes s !! file with
  | Some (p, c) => <[file := (p, c ++ b)]> (inodes s)
  | None => inodes s
  end.

(** [os.Create]: an existing file is truncated, a missing one made. *)
Definition create_file (s : sys) (p : Z) : sys * Z :=
  match names s !! p with
  | Some i => (mkSys (ring_ s) (span s) (dead s) (pc s) (names s) (<[i := (p, [])]> (inodes s))
                 (next s) (trash s) (stream s), i)
  | None => (mkSys (ring_ s) (span s) (dead s) (pc s) (<[p := next s]> (names s))
               (<[next s := (p, [])]> (inodes s)) (next s + 1) (trash s) (stream s), next s)
  end.

Definition commit (s : sys) (g : Z) (batch : list (list Z)) (first_ : Z) (seg : option segment)
    (file n now : Z) (werr : bool) : res sys :=
  let! c := flush_commit (ring_ s) g seg (zlen batch) n werr now in
  match c with
  | Stale =>
      match seg with
      | Some sg => Ok (set_pc (set_ring s (ring_ s) [path sg]) (FIdle None))
      | None => Ok (set_pc s (FIdle (Some file)))
      end
  | Failed r => Ok (set_pc (set_ring s r []) (FFail g first_))
  | Flushed r drop => Ok (set_pc (set_ring s r drop) (FIdle (Some file)))
  end.

(** One step; an event whose time has not come leaves the system as it is. *)
Definition step (s : sys) (e : event) : res sys :=
  match e, pc s with
  | EAppend now chunk, _ =>
      let! '(r, drop) := Append (ring_ s) now chunk in
      let s := set_ring s r drop in
      Ok (mkSys (ring_ s) (span s) (dead s) (pc s) (names s) (inodes s) (next s) (trash s)
            (stream s ++ chunk))
  | EClose, _ => Ok (set_ring s (Close (ring_ s)) [])
  | ERemove p ok, _ =>
      if bool_decide (p ∈ trash s) then
        Ok (mkSys (ring_ s) (span s) (dead s) (pc s)
              (if (ok : bool) then delete p (names s) else names s) (inodes s) (next s)
              (trash s) (stream s))
      else Ok s
  | EStart true, FStart => Ok (set_pc s (FIdle None))
  | EStart false, FStart =>
      let! '(r, drop) := stop (ring_ s) in
      let s := set_pc (set_ring s r drop) (FIdle None) in
      Ok (mkSys (ring_ s) (span s) true (pc s) (names s) (inodes s) (next s) (trash s) (stream s))
  | EWindow w now, FIdle _ =>
      let! '(r, drop) := checkWindow (ring_ s) w now in Ok (set_ring s r drop)
  | ERoom room, FIdle _ =>
      let! '(r, drop) := checkRoom (ring_ s) (if dead s then -1 else room) in Ok (set_ring s r drop)
  | EBegin now, FIdle file =>
      match flush_begin (ring_ s) (span s) now file with
      | None => Ok s
      | Some (g, batch, first_, rotate) =>
          match rotate, file with
          | false, Some f => Ok (set_pc s (FWriting g batch batch first_ None f 0 now))
          | _, _ => Ok (set_pc s (FCreating g batch first_ now))
          end
      end
  | ECreate true, FCreating g batch first_ now =>
      let '(s, f) := create_file s first_ in
      Ok (set_pc s (FWriting g batch batch first_ (Some (mkSegment first_ first_ 0 now)) f 0 now))
  | ECreate false, FCreating g batch first_ now => Ok (set_pc s (FFail g first_))
  | EWrite None, FWriting g batch (chunk :: rest) first_ seg file n now =>
      let s' := mkSys (ring_ s) (span s) (dead s) (pc s) (names s) (write_file s file chunk) (next s)
                  (trash s) (stream s) in
      Ok (set_pc s' (FWriting g batch rest first_ seg file (n + zlen chunk) now))
  | EWrite (Some k), FWriting g batch (chunk :: rest) first_ seg file n now =>
      let w := take (Z.to_nat k) chunk in
      let s' := mkSys (ring_ s) (span s) (dead s) (pc s) (names s) (write_file s file w) (next s)
                  (trash s) (stream s) in
      Ok (set_pc s' (FBroken g batch first_ seg file (n + zlen w) now))
  | ECommit, FWriting g batch [] first_ seg file n now =>
      commit s g batch first_ seg file n now false
  | ECommit, FBroken g batch first_ seg file n now => commit s g batch first_ seg file n now true
  | EFail, FFail g first_ =>
      let! '(r, drop) := fail (ring_ s) g in Ok (set_pc (set_ring s r drop) (FIdle None))
  | EExit, FIdle _ =>
      if closed (ring_ s) then
        let! r := flusher_exit (ring_ s) in
        Ok (mkSys r (span s) (dead s) FDone ∅ (inodes s) (next s) (trash s) (stream s))
      else Ok s
  | _, _ => Ok s
  end.

Inductive reachable (span : Z) : sys -> Prop :=
  | reach_init : reachable span (init span)
  | reach_step s e s' : reachable span s -> step s e = Ok s' -> reachable span s'.

(** ** Readers *)

Inductive stop_reason : Type := Gone | WriteFailed.

(** [CopyBuffer(w, from, to, buf)]: [rfrom] is the loop's [from], [rout] all
    that was written to [w]. *)
Inductive rpc : Type :=
  | RInit
  | RTop
  | ROpen (seg : segment)
  | RFile (file : Z) (seg : segment) (length total : Z)
  | RDone (err : option stop_reason).

Record reader : Type := mkReader { rfrom : Z; rto : Z; rout : list Z; rpc_ : rpc }.

Definition reader_start (from to : Z) : reader := mkReader from to [] RInit.
Definition set_rpc (rd : reader) (p : rpc) : reader := mkReader (rfrom rd) (rto rd) (rout rd) p.

(** How the environment may fail a reader: a file that does not open, a read
    or a write that stops after [k] bytes with an error. *)
Inductive fault : Type :=
  | NoFault
  | OpenFails
  | ReadStops (k : Z)
  | WriteStops (k : Z).

(** [w.Write(b)]: what was written, and whether it failed. *)
Definition write_out (f : fault) (b : list Z) : list Z * bool :=
  match f with WriteStops k => (take (Z.to_nat k) b, true) | _ => (b, false) end.

(** [f.ReadAt(buf[:want], at)]: what was read, and whether there was an error;
    a read that comes back short has one. *)
Definition read_at (f : fault) (c : list Z) (at_ want : Z) : list Z * bool :=
  let b := take (Z.to_nat want) (drop (Z.to_nat at_) c) in
  match f with
  | ReadStops k => (take (Z.to_nat k) b, true)
  | _ => (b, zlen b <? want)
  end.

Definition find_seg (from : Z) (l : list segment) : option segment :=
  head (filter (fun s => first s <= from < first s + size s) l).

Definition reader_step (s : sys) (bufsz : Z) (f : fault) (rd : reader) : res reader :=
  let r := ring_ s in
  let from := rfrom rd in
  let to := rto rd in
  match rpc_ rd with
  | RInit => Ok (set_rpc rd (if closed r then RDone (Some Gone) else RTop))
  | RTop =>
      if to <=? from then Ok (set_rpc rd (RDone None))
      else if (closed r || (from <? start r) || (received r <=? from))%bool
      then Ok (set_rpc rd (RDone (Some Gone)))
      else if flushed r <=? from then
        let! b := copyPending (Z.min bufsz (to - from)) (pending r) (from - flushed r) in
        if zlen b =? 0 then Ok (set_rpc rd (RDone (Some Gone)))
        else
          let '(w, failed) := write_out f b in
          Ok (mkReader (from + zlen w) to (rout rd ++ w)
                (if failed then RDone (Some WriteFailed) else RTop))
      else
        match find_seg from (segs r) with
        | None => Ok (set_rpc rd (RDone (Some Gone)))
        | Some seg => Ok (set_rpc rd (ROpen seg))
        end
  | ROpen seg =>
      match f, names s !! path seg with
      | OpenFails, _ | _, None => Ok (set_rpc rd (RDone (Some Gone)))
      | _, Some i =>
          Ok (set_rpc rd (RFile i seg (Z.min (first seg + size seg) to - from) 0))
      end
  | RFile i seg length total =>
      if total <? length then
        match inodes s !! i with
        | None => Panic
        | Some (_, c) =>
            let '(b, rerr) := read_at f c (from - first seg + total) (Z.min bufsz (length - total)) in
            let '(w, failed) := write_out f b in
            if ((0 <? zlen b) && failed)%bool
            then Ok (mkReader (from + total + zlen w) to (rout rd ++ w) (RDone (Some WriteFailed)))
            else
              let out := if 0 <? zlen b then rout rd ++ b else rout rd in
              if (rerr && (total + zlen b <? length))%bool
              then Ok (mkReader (from + total + zlen b) to out (RDone (Some Gone)))
              else Ok (mkReader from to out (RFile i seg length (total + zlen b)))
        end
      else Ok (mkReader (from + total) to (rout rd) RTop)
  | RDone _ => Ok rd
  end.

(** A reader among the ring's other steps, from when it starts. *)
Inductive reading (span bufsz from to : Z) : sys -> reader -> Prop :=
  | read_start s : reachable span s -> reading span bufsz from to s (reader_start from to)
  | read_other s rd e s' :
      reading span bufsz from to s rd -> step s e = Ok s' -> reading span bufsz from to s' rd
  | read_own s rd f rd' :
      reading span bufsz from to s rd -> reader_step s bufsz f rd = Ok rd' ->
      reading span bufsz from to s rd'.

(** A reader that nothing interrupts. *)
Fixpoint copy_steps (fuel : nat) (s : sys) (bufsz : Z) (rd : reader) : res reader :=
  match rpc_ rd with
  | RDone _ => Ok rd
  | _ =>
      match fuel with
      | O => NoFuel
      | S fuel => let! rd := reader_step s bufsz NoFault rd in copy_steps fuel s bufsz rd
      end
  end.
Definition CopyBuffer (fuel : nat) (s : sys) (bufsz from to : Z) : res reader :=
  copy_steps fuel s bufsz (reader_start from to).

(** ** Stretches of the stream *)

Definition sub (l : list Z) (a n : Z) : list Z := take (Z.to_nat n) (drop (Z.to_nat a) l).

Lemma sub_app_l l r a n : 0 <= a -> 0 <= n -> a + n <= zlen l -> sub (l ++ r) a n = sub l a n.
Proof.
  intros Ha Hn Hl. unfold sub, zlen in *. rewrite drop_app_le by lia.
  by rewrite take_app_le by (rewrite length_drop; lia).
Qed.

Lemma sub_length l a n : 0 <= a -> 0 <= n -> a + n <= zlen l -> zlen (sub l a n) = n.
Proof. intros Ha Hn Hl. unfold sub. rewrite zlen_take, zlen_drop. lia. Qed.

Lemma sub_join l a n m : 0 <= a -> 0 <= n -> 0 <= m -> sub l a n ++ sub l (a + n) m = sub l a (n + m).
Proof.
  intros Ha Hn Hm. unfold sub. rewrite !Z2Nat.inj_add by lia.
  by rewrite <- (take_take_drop _ (Z.to_nat n) (Z.to_nat m)), drop_drop.
Qed.

Lemma sub_sub l a n b m :
  0 <= a -> 0 <= b -> 0 <= m -> b + m <= n -> sub (sub l a n) b m = sub l (a + b) m.
Proof.
  intros Ha Hb Hm Hn. unfold sub. rewrite skipn_firstn_comm, drop_drop, take_take.
  rewrite Z2Nat.inj_add by lia. f_equal. lia.
Qed.

Lemma sub_0 l a : sub l a 0 = [].
Proof. done. Qed.

Lemma sub_all l a : 0 <= a <= zlen l -> sub l a (zlen l - a) = drop (Z.to_nat a) l.
Proof. intros Ha. unfold sub. apply take_ge. rewrite length_drop. unfold zlen in *. lia. Qed.

Lemma sub_prefix l a n m : 0 <= m <= n -> take (Z.to_nat m) (sub l a n) = sub l a m.
Proof. intros Hm. unfold sub. rewrite take_take. f_equal. lia. Qed.

Lemma take_drop_sub k l a :
  take k (drop (Z.to_nat a) l) = sub l a (zlen (take k (drop (Z.to_nat a) l))).
Proof.
  unfold sub. rewrite zlen_nat, length_take. set (m := drop (Z.to_nat a) l).
  rewrite <- take_take. by rewrite (take_ge m (length m)).
Qed.

(** A list that is a stretch splits into stretches. *)
Lemma sub_split l a b c :
  0 <= a -> b ++ c = sub l a (zlen (b ++ c)) ->
  b = sub l a (zlen b) /\ c = sub l (a + zlen b) (zlen c).
Proof.
  intros Ha H. pose proof (zlen_nonneg b). pose proof (zlen_nonneg c). split.
  - assert (take (Z.to_nat (zlen b)) (b ++ c) = b) as Hb.
    { rewrite zlen_nat. apply take_app_length. }
    rewrite H, sub_prefix in Hb by (rewrite zlen_app; lia). by symmetry.
  - assert (drop (Z.to_nat (zlen b)) (b ++ c) = c) as Hc.
    { rewrite zlen_nat. apply drop_app_length. }
    rewrite <- Hc at 1. rewrite H. unfold sub.
    rewrite skipn_firstn_comm, drop_drop, Z2Nat.inj_add by lia. f_equal. rewrite zlen_app. lia.
Qed.

(** ** What forgetting does *)

(** A ring with nothing in it, [s] bytes on. *)
Definition cleared (r : ring) (s : Z) : ring :=
  mkRing (gen r + 1) s (flushed r) (received r) [] 0 [] [] None None (window r) (low r) (off r)
    (closed r).

Lemma drop_all_spec n r drop :
  (length (segs r) <= n)%nat ->
  exists s, drop_all n r drop = Ok (set_segs r s [], drop ++ map path (segs r)).
Proof.
  revert r drop. induction n as [| n IH]; intros r drop Hn.
  - destruct (segs r) as [| s0 l] eqn:E; [| simpl in Hn; lia]. exists (start r). simpl. rewrite E.
    rewrite app_nil_r. destruct r; simpl in *; by subst.
  - destruct (segs r) as [| s0 l] eqn:E.
    + exists (start r). simpl. rewrite E. rewrite app_nil_r. destruct r; simpl in *; by subst.
    + cbn [drop_all]. rewrite E. unfold dropOldestLocked. rewrite E. cbn [rbind].
      edestruct IH as [s' ->]; [| exists s'; cbn [segs set_segs map]; by rewrite <- app_assoc].
      simpl in *. lia.
Qed.

Lemma reset_spec r : exists s, resetLocked r = Ok (cleared r s, map path (segs r)).
Proof.
  unfold resetLocked. cbv zeta. edestruct drop_all_spec as [s ->]; [done |]. by exists s.
Qed.

(** [r'] is [r] without its [k] oldest files, whose paths are [d]. *)
Definition trimmed (r r' : ring) (d : list Z) : Prop :=
  exists k s, r' = set_marks (set_segs r s (drop k (segs r))) (trim_marks s (marks r)) /\
    d = map path (take k (segs r)) /\
    (k = O /\ s = start r \/ exists sg, head (drop k (segs r)) = Some sg /\ s = first sg).

(** The files that a loop over [dropOldestLocked] has dropped so far. *)
Definition dropped (r r' : ring) (d : list Z) : Prop :=
  exists k s, r' = set_segs r s (drop k (segs r)) /\ d = map path (take k (segs r)) /\
    (k = O /\ s = start r \/ exists sg, head (drop k (segs r)) = Some sg /\ s = first sg).

Lemma dropped_refl r : dropped r r [].
Proof. exists O, (start r). split_and!; [by destruct r | done | by left]. Qed.

Lemma dropped_marks r r' d : dropped r r' d -> trimmed r (trimMarksLocked r') d.
Proof. intros (k & s & -> & -> & H). by exists k, s. Qed.

Lemma dropped_step r r' d s0 s1 l :
  dropped r r' d -> segs r' = s0 :: s1 :: l ->
  exists r'', dropOldestLocked r' = Ok (r'', path s0) /\ dropped r r'' (d ++ [path s0]) /\
    segs r'' = s1 :: l.
Proof.
  intros (k & s & -> & -> & _) Hl. simpl in Hl. unfold dropOldestLocked. simpl. rewrite Hl.
  eexists. split; [done |]. split; [| done].
  assert (segs r !! k = Some s0) as Hk.
  { rewrite <- (Nat.add_0_r k), <- lookup_drop. by rewrite Hl. }
  assert (drop (S k) (segs r) = s1 :: l) as Hd.
  { replace (S k) with (k + 1)%nat by lia. by rewrite <- drop_drop, Hl. }
  exists (S k), (first s1). rewrite Hd. split_and!; [done | |].
  - by rewrite (take_S_r _ _ s0) by done; rewrite map_app.
  - right. by exists s1.
Qed.

Lemma trim_segs_spec n now r r' d :
  dropped r r' d -> (length (segs r') <= n)%nat ->
  exists r'' d', trim_segs n now r' d = Ok (r'', d') /\ dropped r r'' d'.
Proof.
  revert r' d. induction n as [| n IH]; intros r' d Hd Hn.
  - destruct (segs r') eqn:E; [| simpl in Hn; lia]. simpl. rewrite E. by exists r', d.
  - destruct (segs r') as [| s0 [| s1 l]] eqn:E; cbn [trim_segs]; rewrite E; [by exists r', d | by exists r', d |].
    destruct (_ && _)%bool; [| by exists r', d].
    destruct (dropped_step r r' d s0 s1 l Hd E) as (r2 & -> & Hd2 & E2). cbn [rbind].
    apply IH; [done |]. rewrite E2. simpl in *. lia.
Qed.

Lemma trimLocked_spec r now : exists r' d, trimLocked r now = Ok (r', d) /\ trimmed r r' d.
Proof.
  unfold trimLocked. destruct (trim_segs_spec (length (segs r)) now r r []) as (r' & d & -> & H);
    [apply dropped_refl | done |].
  cbn [rbind]. eexists _, _. split; [done |]. by apply dropped_marks.
Qed.

Lemma give_room_spec n need r r' d :
  dropped r r' d -> (length (segs r') <= n)%nat ->
  exists need' r'' d', give_room n need r' d = Ok (need', r'', d') /\ dropped r r'' d'.
Proof.
  revert need r' d. induction n as [| n IH]; intros need r' d Hd Hn.
  - destruct (segs r') eqn:E; [| simpl in Hn; lia]. simpl. rewrite E. by eexists _, _, _.
  - destruct (segs r') as [| s0 [| s1 l]] eqn:E; cbn [give_room]; rewrite E; [by eexists _, _, _ | by eexists _, _, _ |].
    destruct (0 <? need); [| by eexists _, _, _].
    destruct (dropped_step r r' d s0 s1 l Hd E) as (r2 & -> & Hd2 & E2). cbn [rbind].
    apply IH; [done |]. rewrite E2. simpl in *. lia.
Qed.

(** ** The invariant *)

(** The files end to end, from [a] to [b]. *)
Fixpoint chained (a : Z) (l : list segment) (b : Z) : Prop :=
  match l with
  | [] => a = b
  | s :: l => first s = a /\ path s = first s /\ 0 <= size s /\ chained (a + size s) l b
  end.

(** The positions of a ring that is not closed: [start, flushed) is in the
    files, [flushed, received) in memory, and the marks are inside. *)
Record open_ok (r : ring) (stream : list Z) : Prop := {
  op_order : 0 <= start r <= flushed r /\ flushed r <= received r;
  op_pending : concat (pending r) = drop (Z.to_nat (flushed r)) stream;
  op_queued : queued r = received r - flushed r /\ queued r <= pendingCap;
  op_chain : chained (start r) (segs r) (flushed r);
  op_off : low r = true \/ off r = true -> pending r = [] /\ segs r = [];
  op_marks : Forall (fun m => start r <= mpos m < received r) (marks r) /\
    StronglySorted (fun a b => mpos a < mpos b) (marks r) }.

(** The disk: a file holds the stream from the position of its name on. *)
Record disk_ok (s : sys) : Prop := {
  dk_file : forall i p c, inodes s !! i = Some (p, c) ->
    0 <= p /\ p + zlen c <= zlen (stream s) /\ c = sub (stream s) p (zlen c) /\ i < next s;
  dk_name : forall p i, names s !! p = Some i -> exists c, inodes s !! i = Some (p, c);
  dk_seg : forall sg, sg ∈ segs (ring_ s) -> exists i c,
    names s !! path sg = Some i /\ inodes s !! i = Some (path sg, c) /\
    path sg = first sg /\ 0 <= size sg <= zlen c;
  dk_trash : forall p sg, p ∈ trash s -> sg ∈ segs (ring_ s) -> path sg <> p;
  dk_sorted : StronglySorted (fun a b => path a < path b) (segs (ring_ s)) }.

(** No file in the ring, on its way out or on disk has a name past [b]. *)
Record below (s : sys) (b bn : Z) : Prop := {
  bl_seg : forall sg, sg ∈ segs (ring_ s) -> path sg < b;
  bl_trash : forall p, p ∈ trash s -> p < b;
  bl_name : forall p i, names s !! p = Some i -> p < bn }.

(** A batch of generation [g] on its way to a file. *)
Record flight (s : sys) (g : Z) (batch : list (list Z)) (f : Z) : Prop := {
  fl_gen : g <= gen (ring_ s);
  fl_same : gen (ring_ s) = g -> exists tl, pending (ring_ s) = batch ++ tl;
  fl_reset : gen (ring_ s) <> g -> segs (ring_ s) = [];
  fl_pos : 0 <= f /\ 0 < zlen (concat batch) /\ f + zlen (concat batch) <= zlen (stream s);
  fl_bytes : concat batch = sub (stream s) f (zlen (concat batch));
  fl_open : closed (ring_ s) = false ->
    (gen (ring_ s) = g -> f = flushed (ring_ s)) /\ (gen (ring_ s) <> g -> f < flushed (ring_ s)) }.

(** The file being written, which ends [n] bytes after [f]. *)
Definition writing (s : sys) (g f : Z) (seg : option segment) (file n now : Z) (exact : bool) : Prop :=
  exists p c, inodes s !! file = Some (p, c) /\
    (exact = true -> p + zlen c = f + n) /\
    match seg with
    | Some sg => sg = mkSegment f f 0 now /\ names s !! f = Some file /\ p = f
    | None => gen (ring_ s) = g -> exists sg, last (segs (ring_ s)) = Some sg /\ path sg = p /\
        names s !! p = Some file /\ (exact = true -> size sg + n = zlen c)
    end.

Definition pc_ok (s : sys) : Prop :=
  match pc s with
  | FStart => segs (ring_ s) = [] /\ names s = ∅ /\ trash s = []
  | FIdle file =>
      (closed (ring_ s) = false -> below s (flushed (ring_ s)) (flushed (ring_ s))) /\
      (forall i, file = Some i -> segs (ring_ s) <> [] -> exists sg c,
         last (segs (ring_ s)) = Some sg /\ names s !! path sg = Some i /\
         inodes s !! i = Some (path sg, c) /\ zlen c = size sg)
  | FCreating g batch f now => flight s g batch f /\ below s f f
  | FWriting g batch rest f seg file n now =>
      flight s g batch f /\ below s f (f + 1) /\ writing s g f seg file n now true /\
      0 <= n /\ n + zlen (concat rest) = zlen (concat batch) /\
      concat rest = sub (stream s) (f + n) (zlen (concat rest))
  | FBroken g batch f seg file n now =>
      flight s g batch f /\ below s f (f + 1) /\ writing s g f seg file n now false
  | FFail g f =>
      g <= gen (ring_ s) /\ below s (f + 1) (f + 1) /\
      (closed (ring_ s) = false ->
        (gen (ring_ s) = g -> f = flushed (ring_ s) /\ f < received (ring_ s)) /\
        (gen (ring_ s) <> g -> f < flushed (ring_ s)))
  | FDone => closed (ring_ s) = true /\ segs (ring_ s) = []
  end.

Record inv (s : sys) : Prop := {
  inv_received : received (ring_ s) = zlen (stream s);
  inv_chunks : Forall (fun c => c <> []) (pending (ring_ s));
  inv_open : closed (ring_ s) = false -> open_ok (ring_ s) (stream s);
  inv_disk : disk_ok s;
  inv_pc : pc_ok s }.

Lemma init_inv sp : inv (init sp).
Proof.
  constructor; try done.
  - intros _. constructor; try done. by repeat constructor.
  - constructor; try done.
    + intros sg H. by apply elem_of_nil in H.
    + intros p sg H. by apply elem_of_nil in H.
    + constructor.
Qed.

Lemma chained_app a l1 l2 b :
  chained a (l1 ++ l2) b <-> exists m, chained a l1 m /\ chained m l2 b.
Proof.
  revert a. induction l1 as [| s l IH]; intros a; simpl.
  - split; [by exists a | by intros (m & -> & H)].
  - rewrite IH. naive_solver.
Qed.

Lemma chained_le a l b : chained a l b -> a <= b.
Proof.
  revert a. induction l as [| s l IH]; intros a; simpl; [lia |].
  intros (_ & _ & H1 & H2). apply IH in H2. lia.
Qed.

Lemma chained_drop a l b k sg :
  chained a l b -> head (drop k l) = Some sg -> chained (first sg) (drop k l) b /\ a <= first sg.
Proof.
  intros H Hh. rewrite <- (take_drop k l) in H. apply chained_app in H as (m & H1 & H2).
  destruct (drop k l) as [| s0 l0]; [done |]. injection Hh as ->.
  apply chained_le in H1. destruct H2 as (Hf & Hp & Hs & H2). rewrite Hf. by split.
Qed.

Lemma trim_marks_spec st rc l :
  Forall (fun m => mpos m < rc) l -> StronglySorted (fun a b => mpos a < mpos b) l ->
  Forall (fun m => st <= mpos m < rc) (trim_marks st l) /\
  StronglySorted (fun a b => mpos a < mpos b) (trim_marks st l).
Proof.
  intros Hf Hs. induction l as [| m l IH]; [by repeat constructor |].
  apply Forall_cons in Hf as [Hf1 Hf]. inversion Hs as [| ? ? Hs' Ha]; subst. simpl.
  destruct (Z.ltb_spec (mpos m) st); [by apply IH |]. split; [| done].
  apply Forall_cons. split; [lia |]. rewrite List.Forall_forall in Ha.
  apply list.Forall_forall. intros x Hx. pose proof (Ha x (proj1 (list_elem_of_In _ _) Hx)).
  eapply list.Forall_forall in Hf; [| exact Hx]. simpl in *. lia.
Qed.

(** ** Forgetting keeps the invariant *)

Lemma trimmed_fields r r' d :
  trimmed r r' d ->
  gen r' = gen r /\ flushed r' = flushed r /\ received r' = received r /\ pending r' = pending r /\
  queued r' = queued r /\ closed r' = closed r /\ low r' = low r /\ off r' = off r /\
  window r' = window r.
Proof. by intros (k & s & -> & _ & _). Qed.

Lemma trimmed_segs r r' d :
  trimmed r r' d -> exists k, segs r' = drop k (segs r) /\ d = map path (take k (segs r)) /\
    (segs r <> [] -> segs r' <> []).
Proof.
  intros (k & s & -> & -> & H). exists k. split_and!; [done | done |]. simpl. intros Hne.
  destruct H as [[-> _] | (sg & Hh & _)]; [done |]. by intros E; rewrite E in Hh.
Qed.

Lemma open_trimmed r r' d st : open_ok r st -> trimmed r r' d -> open_ok r' st.
Proof.
  intros [[H1 H2] H3 [H4 H5] H6 H7 [H8 H9]] (k & s & -> & -> & Hs).
  assert (start r <= s /\ chained s (drop k (segs r)) (flushed r)) as [Hle Hch].
  { destruct Hs as [[-> ->] | (sg & Hh & ->)]; [by split; [lia |] |].
    by destruct (chained_drop _ _ _ k sg H6 Hh). }
  pose proof (chained_le _ _ _ Hch).
  constructor; simpl; try done.
  - lia.
  - intros Ho. destruct (H7 Ho) as [-> ->]. by rewrite drop_nil.
  - apply trim_marks_spec; [| done]. eapply Forall_impl; [exact H8 |]. simpl. lia.
Qed.

Lemma sorted_split l k x y :
  StronglySorted (fun a b => path a < path b) l -> x ∈ take k l -> y ∈ drop k l -> path x < path y.
Proof.
  revert k. induction l as [| z l IH]; intros k Hs Hx Hy.
  { rewrite take_nil in Hx. by apply elem_of_nil in Hx. }
  inversion Hs as [| ? ? Hs' Ha]; subst. destruct k as [| k]; [by apply elem_of_nil in Hx |].
  simpl in Hx, Hy. apply elem_of_cons in Hx as [-> | Hx]; [| by eapply IH].
  rewrite List.Forall_forall in Ha. apply Ha. apply list_elem_of_In.
  rewrite <- (take_drop k l). apply elem_of_app. by right.
Qed.

Lemma StronglySorted_drop {A} (R : A -> A -> Prop) k l :
  StronglySorted R l -> StronglySorted R (drop k l).
Proof.
  revert k. induction l as [| x l IH]; intros k Hs; [by rewrite drop_nil |].
  destruct k as [| k]; [done |]. inversion Hs; subst. by apply IH.
Qed.

Lemma elem_of_map_path p l : p ∈ map path l -> exists sg, sg ∈ l /\ p = path sg.
Proof.
  intros H. apply list_elem_of_In, in_map_iff in H as (sg & <- & H). exists sg.
  split; [by apply list_elem_of_In | done].
Qed.

(** Fewer files in the ring and no more on disk: the bounds stay. *)
Lemma below_shrink s s' b bn :
  below s b bn ->
  (forall sg, sg ∈ segs (ring_ s') -> sg ∈ segs (ring_ s)) ->
  (forall p, p ∈ trash s' -> p ∈ trash s \/ exists sg, sg ∈ segs (ring_ s) /\ p = path sg) ->
  (forall p i, names s' !! p = Some i -> names s !! p = Some i) ->
  below s' b bn.
Proof.
  intros [H1 H2 H3] Hs Ht Hn. split.
  - intros sg Hsg. by apply H1, Hs.
  - intros p Hp. destruct (Ht p Hp) as [? | (sg & ? & ->)]; [by apply H2 | by apply H1].
  - intros p i Hp. by eapply H3, Hn.
Qed.

Lemma disk_shrink s r' d :
  disk_ok s ->
  (forall sg, sg ∈ segs r' -> sg ∈ segs (ring_ s)) ->
  (forall p sg, p ∈ d -> sg ∈ segs r' -> path sg <> p) ->
  StronglySorted (fun a b => path a < path b) (segs r') ->
  disk_ok (set_ring s r' d).
Proof.
  intros [H1 H2 H3 H4 H5] Hs Hd Hso. split; simpl; try done.
  - intros sg Hsg. by apply H3, Hs.
  - intros p sg Hp Hsg. apply elem_of_app in Hp as [Hp | Hp]; [by apply H4, Hs | by apply Hd].
Qed.

Lemma take_drop_elem {A} (l : list A) k x : x ∈ drop k l -> x ∈ l.
Proof. intros H. rewrite <- (take_drop k l). apply elem_of_app. by right. Qed.

Lemma take_elem {A} (l : list A) k x : x ∈ take k l -> x ∈ l.
Proof. intros H. rewrite <- (take_drop k l). apply elem_of_app. by left. Qed.

Lemma last_drop_ne {A} (l : list A) k : drop k l <> [] -> last (drop k l) = last l.
Proof.
  intros H. rewrite <- (take_drop k l) at 2. destruct (drop k l) as [| x m] eqn:E using rev_ind; [done |].
  by rewrite app_assoc, !last_snoc.
Qed.

Lemma disk_trimmed s r' d : disk_ok s -> trimmed (ring_ s) r' d -> disk_ok (set_ring s r' d).
Proof.
  intros Hd Ht. destruct (trimmed_segs _ _ _ Ht) as (k & Hk & -> & _).
  apply disk_shrink; rewrite ?Hk; [done | | |].
  - intros sg. apply take_drop_elem.
  - intros p sg Hp Hsg. apply elem_of_map_path in Hp as (x & Hx & ->).
    pose proof (sorted_split _ _ _ _ (dk_sorted s Hd) Hx Hsg). lia.
  - apply StronglySorted_drop, Hd.
Qed.

Lemma below_set_ring s r' d b bn :
  below s b bn -> (forall sg, sg ∈ segs r' -> sg ∈ segs (ring_ s)) ->
  (forall p, p ∈ d -> exists sg, sg ∈ segs (ring_ s) /\ p = path sg) ->
  below (set_ring s r' d) b bn.
Proof.
  intros Hb Hs Hd. eapply below_shrink; [exact Hb | done | | done].
  simpl. intros p Hp. apply elem_of_app in Hp as [Hp | Hp]; [by left | right; by apply Hd].
Qed.

Lemma inv_trimmed s r' d file :
  inv s -> pc s = FIdle file -> trimmed (ring_ s) r' d -> inv (set_ring s r' d).
Proof.
  intros [H1 H2 H3 H4 H5] Hpc Ht.
  destruct (trimmed_fields _ _ _ Ht) as (Fg & Ff & Fr & Fp & Fq & Fc & Fl & Fo & Fw).
  destruct (trimmed_segs _ _ _ Ht) as (k & Hk & Hd & Hne). split; simpl.
  - by rewrite Fr.
  - by rewrite Fp.
  - rewrite Fc. intros Hc. eapply open_trimmed; [by apply H3 | exact Ht].
  - by apply disk_trimmed.
  - unfold pc_ok in *. simpl. rewrite Hpc in *. destruct H5 as [H5 H6]. split.
    + simpl. rewrite Fc, Ff. intros Hc. apply below_set_ring; [by apply H5 | |].
      * intros sg. rewrite Hk. apply take_drop_elem.
      * intros p Hp. rewrite Hd in Hp. apply elem_of_map_path in Hp as (x & Hx & ->).
        exists x. split; [by eapply take_elem | done].
    + simpl. intros i Hi Hs. rewrite Hk in Hs |- *. rewrite last_drop_ne by done. apply H6; [done |].
      intros E. by rewrite E, drop_nil in Hs.
Qed.

(** A ring that starts over where the tuner is. *)
Definition restarted (r r' : ring) : Prop :=
  exists x w lo of_, r' = set_flags (restart (cleared r x)) w lo of_ (closed r).

Lemma open_restarted r r' st :
  received r = zlen st -> 0 <= received r -> restarted r r' -> open_ok r' st.
Proof.
  intros Hr H0 (x & w & lo & of_ & ->). constructor; simpl; try done.
  - symmetry. apply drop_ge. rewrite Hr, zlen_nat. lia.
  - split; [lia | done].
  - split; constructor.
Qed.

Lemma flight_restarted s r' d g batch f :
  flight s g batch f -> received (ring_ s) = zlen (stream s) -> restarted (ring_ s) r' ->
  flight (set_ring s r' d) g batch f.
Proof.
  intros [H1 H2 H3 H4 H5 H6] Hr (x & w & lo & of_ & ->). split; simpl; try done; try lia.
Qed.

Lemma inv_restarted s r' :
  inv s -> restarted (ring_ s) r' -> inv (set_ring s r' (map path (segs (ring_ s)))).
Proof.
  intros [H1 H2 H3 H4 H5] Hr. pose proof (zlen_nonneg (stream s)) as H0.
  pose proof Hr as (x & w & lo & of_ & Er).
  assert (forall b bn, below s b bn -> below (set_ring s r' (map path (segs (ring_ s)))) b bn) as Hb.
  { intros b bn Hb. apply below_set_ring; [done | |].
    - intros sg Hsg. rewrite Er in Hsg. by apply elem_of_nil in Hsg.
    - intros p Hp. apply elem_of_map_path in Hp as (sg & ? & ->). by exists sg. }
  assert (forall g f seg file n now exact, g <= gen (ring_ s) ->
    writing s g f seg file n now exact ->
    writing (set_ring s r' (map path (segs (ring_ s)))) g f seg file n now exact) as Hw.
  { intros g f seg file n now exact Hg (p & c & Hi & He & Hs). exists p, c. split_and!; [done | done |].
    destruct seg; [done |]. simpl. rewrite Er. simpl. lia. }
  split; simpl.
  - by rewrite Er.
  - by rewrite Er.
  - intros _. eapply open_restarted; [exact H1 | lia | done].
  - apply disk_shrink; [done | | |]; rewrite Er; simpl.
    + intros sg Hsg. by apply elem_of_nil in Hsg.
    + intros p sg _ Hsg. by apply elem_of_nil in Hsg.
    + constructor.
  - unfold pc_ok in *. simpl. destruct (pc s).
    + destruct H5 as (E & Hn & Ht). rewrite E, Er, Ht. done.
    + destruct H5 as [H5 H6]. split; [| intros; by rewrite Er in *]. rewrite Er. simpl. intros Hc.
      rewrite <- Er. destruct (op_order _ _ (H3 Hc)) as [? ?]. apply Hb.
      destruct (H5 Hc) as [B1 B2 B3]. split.
      * intros sg Hsg. specialize (B1 sg Hsg). lia.
      * intros p Hp. specialize (B2 p Hp). lia.
      * intros p i Hp. specialize (B3 p i Hp). lia.
    + destruct H5 as [Hf H5]. split; [by apply flight_restarted | by apply Hb].
    + destruct H5 as (Hf & H5 & H6 & H7). split; [by apply flight_restarted |]. split; [by apply Hb |]. split; [| exact H7].
      apply Hw; [apply Hf | done].
    + destruct H5 as (Hf & H5 & H6). split_and!; [by apply flight_restarted | by apply Hb |].
      apply Hw; [apply Hf | done].
    + destruct H5 as (Hg & H5 & H6). split_and!; [by rewrite Er; simpl; lia | by apply Hb |].
      rewrite Er. simpl. intros Hc. specialize (H6 Hc). destruct (op_order _ _ (H3 Hc)) as [? ?].
      destruct (decide (gen (ring_ s) = g)); lia.
    + rewrite Er. by destruct H5.
Qed.

(** ** The steps keep the invariant *)

(** A ring whose positions, files and pending bytes are those it had. *)
Lemma inv_same s r' :
  inv s -> gen r' = gen (ring_ s) -> flushed r' = flushed (ring_ s) ->
  received r' = received (ring_ s) -> pending r' = pending (ring_ s) -> segs r' = segs (ring_ s) ->
  (closed r' = false -> closed (ring_ s) = false) ->
  (closed r' = false -> open_ok r' (stream s)) -> (closed (ring_ s) = true -> closed r' = true) ->
  inv (set_ring s r' []).
Proof.
  intros [H1 H2 H3 H4 H5] Eg Ef Er Ep Es Ec Ho Ec2.
  assert (forall b bn, below s b bn -> below (set_ring s r' []) b bn) as Hb.
  { intros b bn Hb. apply below_set_ring; [done | by rewrite Es |].
    intros p Hp. by apply elem_of_nil in Hp. }
  assert (forall g batch f, flight s g batch f -> flight (set_ring s r' []) g batch f) as Hfl.
  { intros g batch f [F1 F2 F3 F4 F5 F6]. split; simpl; rewrite ?Eg, ?Ep, ?Es, ?Ef; try done.
    intros Hc. by apply F6, Ec. }
  assert (forall g f seg file n now exact, writing s g f seg file n now exact ->
    writing (set_ring s r' []) g f seg file n now exact) as Hw.
  { intros g f seg file n now exact (p & c & Hi & He & Hs). exists p, c.
    split_and!; [done | done |]. destruct seg; [done |]. simpl. by rewrite Eg, Es. }
  split; simpl; rewrite ?Er, ?Ep; try done.
  - apply disk_shrink; [done | by rewrite Es | | rewrite Es; apply H4].
    intros p sg Hp. by apply elem_of_nil in Hp.
  - unfold pc_ok in *. simpl. destruct (pc s).
    + by rewrite Es, app_nil_r.
    + destruct H5 as [H5 H6]. split; [| by rewrite Es]. intros Hc. rewrite Ef. by apply Hb, H5, Ec.
    + destruct H5. split; auto.
    + destruct H5 as (? & ? & ? & ?). split; [auto |]. split; [auto |]. split; [auto | done].
    + destruct H5 as (? & ? & ?). split; [auto |]. split; auto.
    + destruct H5 as (Hg & H5 & H6). rewrite Eg, Ef, Er. split; [done |]. split; [auto |].
      intros Hc. by apply H6, Ec.
    + destruct H5 as [H5 H6]. rewrite Es. split; [auto | done].
Qed.

Lemma inv_flags s w lo of_ :
  inv s ->
  (closed (ring_ s) = false -> lo = true \/ of_ = true -> pending (ring_ s) = [] /\ segs (ring_ s) = []) ->
  inv (set_ring s (set_flags (ring_ s) w lo of_ (closed (ring_ s))) []).
Proof.
  intros Hi Hf. apply inv_same; try done. intros Hc. simpl in Hc.
  destruct (inv_open s Hi Hc). constructor; simpl; try done. auto.
Qed.

Lemma disk_grow s r' chunk :
  disk_ok s -> segs r' = segs (ring_ s) ->
  disk_ok (mkSys r' (span s) (dead s) (pc s) (names s) (inodes s) (next s) (trash s) (stream s ++ chunk)).
Proof.
  intros [H1 H2 H3 H4 H5] Es. pose proof (zlen_nonneg chunk). split; simpl; rewrite ?Es; try done.
  intros i p c Hi. destruct (H1 i p c Hi) as (A & B & C & D). rewrite zlen_app.
  pose proof (zlen_nonneg c). split_and!; [done | lia | by rewrite sub_app_l | done].
Qed.

(** More of the stream arrived, and went to memory or nowhere. *)
Lemma inv_grow s r' l chunk :
  inv s -> chunk <> [] -> gen r' = gen (ring_ s) -> segs r' = segs (ring_ s) ->
  closed r' = closed (ring_ s) -> received r' = received (ring_ s) + zlen chunk ->
  pending r' = pending (ring_ s) ++ l -> Forall (fun c => c <> []) l ->
  (closed (ring_ s) = false -> open_ok r' (stream s ++ chunk)) ->
  (closed (ring_ s) = false ->
     flushed r' = flushed (ring_ s) \/ pending (ring_ s) = [] /\ flushed (ring_ s) <= flushed r') ->
  inv (mkSys r' (span s) (dead s) (pc s) (names s) (inodes s) (next s) (trash s) (stream s ++ chunk)).
Proof.
  intros [H1 H2 H3 H4 H5] Hne Eg Es Ec Er Ep Hl Ho Hfl.
  assert (0 < zlen chunk) as Hpos by (destruct chunk; [done | rewrite zlen_cons; pose proof (zlen_nonneg chunk); lia]).
  set (s' := mkSys _ _ _ _ _ _ _ _ _).
  assert (forall b b' bn bn', below s b bn -> b <= b' -> bn <= bn' -> below s' b' bn') as Hb.
  { intros b b' bn bn' [B1 B2 B3] Hb Hbn. split; simpl; rewrite ?Es.
    - intros sg Hsg. specialize (B1 sg Hsg). lia.
    - intros p Hp. specialize (B2 p Hp). lia.
    - intros p i Hp. specialize (B3 p i Hp). lia. }
  assert (forall g batch f, flight s g batch f -> flight s' g batch f) as Hf.
  { intros g batch f [F1 F2 F3 F4 F5 F6]. split; simpl; rewrite ?Eg, ?Es, ?Ep; try done.
    - intros E. destruct (F2 E) as [tl ->]. exists (tl ++ l). by rewrite app_assoc.
    - rewrite zlen_app. lia.
    - by rewrite sub_app_l by lia.
    - rewrite Ec. intros Hc. destruct (F6 Hc) as [F7 F8]. destruct (Hfl Hc) as [-> | [Hp Hle]]; [done |].
      split; [| intros E; specialize (F8 E); lia].
      intros E. destruct (F2 E) as [tl E2]. rewrite Hp in E2. symmetry in E2.
      apply app_eq_nil in E2 as [-> _]. change (zlen (concat [])) with 0 in F4. lia. }
  assert (forall g f seg file n now exact, writing s g f seg file n now exact ->
    writing s' g f seg file n now exact) as Hw.
  { intros g f seg file n now exact (p & c & Hi & He & Hs). exists p, c.
    split_and!; [done | done |]. destruct seg; [done |]. simpl. by rewrite Eg, Es. }
  split; simpl.
  - by rewrite Er, H1, zlen_app.
  - rewrite Ep. by apply Forall_app.
  - by rewrite Ec.
  - by apply disk_grow.
  - unfold pc_ok in *. simpl. destruct (pc s).
    + by rewrite Es.
    + destruct H5 as [H5 H6]. split; [| by rewrite Es]. rewrite Ec. intros Hc.
      eapply Hb; [by apply H5 | |]; destruct (Hfl Hc); lia.
    + destruct H5. split; [auto | eapply Hb; [done | lia | lia]].
    + destruct H5 as (F & B & W & H5 & H6 & H7). split; [auto |].
      split; [eapply Hb; [done | lia | lia] |]. split; [auto |]. split; [done |]. split; [done |].
      pose proof (fl_pos _ _ _ _ F). pose proof (zlen_nonneg (concat rest)). by rewrite sub_app_l by lia.
    + destruct H5 as (? & ? & ?). split; [auto |]. split; [eapply Hb; [done | lia | lia] | auto].
    + destruct H5 as (Hg & H5 & H6). rewrite Eg, Ec, Er. split; [done |].
      split; [eapply Hb; [done | lia | lia] |]. intros Hc. destruct (H6 Hc) as [H7 H8].
      destruct (Hfl Hc) as [-> | [Hp Hle]].
      * split; [intros E; specialize (H7 E); lia | done].
      * destruct (H3 Hc) as [[Q0 Q1] Q2 _ _ _ _]. rewrite Hp in Q2. simpl in Q2.
        apply (f_equal zlen) in Q2. rewrite zlen_drop, zlen_nil, <- H1 in Q2.
        split; [intros E; specialize (H7 E); lia | intros E; specialize (H8 E); lia].
    + rewrite Es, Ec. done.
Qed.

Lemma open_skip r st chunk :
  received r = zlen st -> pending r = [] -> segs r = [] -> queued r = 0 ->
  Forall (fun m => False) (marks r) ->
  let rc := received r + zlen chunk in open_ok (set_place r rc rc rc) (st ++ chunk).
Proof.
  intros Hr Hp Hs Hq Hm rc. pose proof (zlen_nonneg st). pose proof (zlen_nonneg chunk).
  constructor; simpl; rewrite ?Hp, ?Hs, ?Hq; try done.
  - lia.
  - symmetry. apply drop_ge. subst rc. rewrite Hr, <- zlen_app, zlen_nat. lia.
  - split; [lia | done].
  - assert (marks r = []) as -> by (destruct (marks r); [done | by apply Forall_cons in Hm as [[] _]]).
    split; constructor.
Qed.

Lemma open_append r st now chunk mk :
  received r = zlen st -> open_ok r st -> chunk <> [] -> low r = false -> off r = false ->
  queued r + zlen chunk <= pendingCap ->
  open_ok (mkRing (gen r) (start r) (flushed r) (received r + zlen chunk)
    (pending r ++ [chunk]) (queued r + zlen chunk) (segs r)
    (if mk : bool then marks r ++ [mkMark now (received r)] else marks r)
    (if mk then Some now else lastMark r) (Some now)
    (window r) (low r) (off r) (closed r)) (st ++ chunk).
Proof.
  intros Hr [[P1 P2] P3 [P4 P5] P6 P7 [P8 P9]] Hne Hlo Hof Hq.
  assert (0 < zlen chunk) by (destruct chunk; [done | rewrite zlen_cons; pose proof (zlen_nonneg chunk); lia]).
  constructor; simpl; try done.
  - lia.
  - rewrite concat_app, P3. simpl. rewrite app_nil_r, drop_app_le; [done |]. unfold zlen in *. lia.
  - lia.
  - rewrite Hlo, Hof. by intros [? | ?].
  - assert (Forall (fun m => start r <= mpos m < received r + zlen chunk) (marks r)).
    { eapply Forall_impl; [exact P8 |]. simpl. lia. }
    destruct mk; [| done]. split.
    + apply Forall_app. split; [done |]. apply Forall_singleton. simpl. lia.
    + clear -P8 P9. induction (marks r) as [| m l IH]; [by repeat constructor |].
      apply Forall_cons in P8 as [Hm P8]. inversion P9 as [| ? ? Hs Ha]; subst. simpl.
      constructor; [by apply IH |]. apply List.Forall_app. split; [done |].
      constructor; [simpl in *; lia | constructor].
Qed.

Lemma append_inv s now chunk : inv s -> returns (step s (EAppend now chunk)) inv.
Proof.
  intros Hi. cbn [step]. unfold Append. destruct (Z.eqb_spec (zlen chunk) 0) as [E0 | E0].
  { apply zlen_0_nil in E0 as ->. cbn [rbind]. apply returns_Ok. unfold set_ring.
    rewrite !app_nil_r. by destruct s. }
  assert (chunk <> []) as Hne by (intros ->; by apply E0).
  pose proof (inv_received s Hi) as Hr. set (r := ring_ s) in *.
  destruct (closed r || low r || off r || (pendingCap <? queued r + zlen chunk))%bool eqn:Ec.
  - destruct (negb (closed r) && negb (low r) && negb (off r))%bool eqn:En.
    + destruct (reset_spec r) as [x ->]. cbn [rbind]. apply returns_Ok.
      assert (restarted r (restart (cleared r x))) as Hre.
      { by exists x, (window r), (low r), (off r). }
      pose proof (inv_restarted s _ Hi Hre) as Hi2.
      refine (inv_grow (set_ring s (restart (cleared r x)) (map path (segs r)))
        (set_place (restart (cleared r x)) _ _ _) [] chunk Hi2 Hne _ _ _ _ _ _ _ _); try done.
      * intros _. apply (open_skip (restart (cleared r x))); [exact Hr | done | done | done | constructor].
      * intros _. right. split; [done |]. simpl. pose proof (zlen_nonneg chunk). lia.
    + cbn [rbind]. apply returns_Ok. unfold set_ring. cbn [trash]. rewrite app_nil_r.
      cbn [ring_ span dead pc names inodes next trash stream].
      eapply (inv_grow s _ []); try done.
      * simpl. by rewrite app_nil_r.
      * intros Hc. destruct (inv_open s Hi Hc) as [P1 P2 P3 P4 P5 P6]. fold r in P1, P2, P3, P4, P5, P6.
        assert (low r = true \/ off r = true) as Hlo.
        { fold r in Hc. rewrite Hc in En. destruct (low r); [by left |]. destruct (off r); [by right | done]. }
        destruct (P5 Hlo) as [Ep Es]. rewrite Ep in P2. simpl in P2.
        apply (f_equal zlen) in P2. rewrite zlen_drop, zlen_nil, <- Hr in P2.
        apply open_skip; [done | done | done | lia |].
        rewrite Es in P4. simpl in P4. destruct P6 as [P6 _]. eapply Forall_impl; [exact P6 |].
        simpl. intros m Hm. lia.
      * intros Hc. right. destruct (inv_open s Hi Hc) as [P1 P2 P3 P4 P5 P6]. fold r in P1, P2, P3, P4, P5, P6.
        fold r in Hc. rewrite Hc in En. split; [| change (flushed r <= received r + zlen chunk); pose proof (zlen_nonneg chunk); lia].
        apply P5. destruct (low r); [by left |]. destruct (off r); [by right | done].
  - apply orb_false_elim in Ec as [Ec Eq]. apply orb_false_elim in Ec as [Ec Eo].
    apply orb_false_elim in Ec as [Ec El]. cbn [rbind]. apply returns_Ok. unfold set_ring. cbn [trash].
    rewrite app_nil_r. cbn [ring_ span dead pc names inodes next trash stream].
    eapply (inv_grow s _ [chunk]); try done.
    + apply Forall_singleton. done.
    + intros Hc. apply open_append; [done | by apply inv_open | done | done | done | lia].
    + intros _. by left.
Qed.

Lemma close_inv s : inv s -> returns (step s EClose) inv.
Proof. intros Hi. apply returns_Ok. by apply inv_same. Qed.

Lemma last_elem {A} (l : list A) x : last l = Some x -> x ∈ l.
Proof. intros H. apply last_Some_elem_of in H. done. Qed.

Lemma remove_inv s p ok : inv s -> returns (step s (ERemove p ok)) inv.
Proof.
  intros Hi. cbn [step]. case_bool_decide as Hp; [| done]. apply returns_Ok.
  destruct ok; [| by destruct s].
  destruct Hi as [H1 H2 H3 [D1 D2 D3 D4 D5] H5]. set (s' := mkSys _ _ _ _ _ _ _ _ _).
  assert (forall b bn, below s b bn -> below s' b bn) as Hb.
  { intros b bn Hb. eapply below_shrink; [exact Hb | done | by left |].
    simpl. intros q i Hq. by apply lookup_delete_Some in Hq as [_ Hq]. }
  assert (forall g f b bn seg file n now exact, below s b bn -> b <= f -> writing s g f seg file n now exact ->
    writing s' g f seg file n now exact) as Hw.
  { intros g f b bn seg file n now exact B Hle (q & c & Hi & He & Hs). exists q, c.
    split_and!; [done | done |]. destruct seg as [sg|].
    - destruct Hs as (-> & Hn & ->).
      split_and!; [done | | done]. simpl. pose proof (bl_trash _ _ _ B p Hp).
      rewrite lookup_delete_ne by lia. done.
    - intros E. destruct (Hs E) as (sg & Hl & Hq & Hn & Hx). exists sg. split_and!; [done | done | | done].
      simpl. rewrite lookup_delete_ne; [done |]. intros <-. apply (D4 p sg); [done | by apply last_elem | done]. }
  split; try done.
  - split; simpl; try done.
    + intros q i Hq. apply lookup_delete_Some in Hq as [_ Hq]. by apply D2.
    + intros sg Hsg. destruct (D3 sg Hsg) as (i & c & Hn & Hrest). exists i, c.
      split; [| done]. rewrite lookup_delete_ne; [done |]. intros E. by apply (D4 p sg).
  - unfold pc_ok in *. simpl. destruct (pc s).
    + destruct H5 as (_ & _ & Ht). rewrite Ht in Hp. by apply elem_of_nil in Hp.
    + destruct H5 as [H5 H6]. split; [auto |]. intros i Hf Hs.
      destruct (H6 i Hf Hs) as (sg & c & Hl & Hn & Hrest). exists sg, c. split_and!; try apply Hrest; [done |].
      simpl. rewrite lookup_delete_ne; [done |]. intros E. apply (D4 p sg); [done | by apply last_elem | done].
    + destruct H5 as [[] H6]. split; [by constructor | auto].
    + destruct H5 as (F & B & W & H6). split; [destruct F; by constructor |]. split; [auto |].
      split; [by eapply Hw; [exact B | lia |] | done].
    + destruct H5 as (F & B & W). split; [destruct F; by constructor |]. split; [auto |].
      by eapply Hw; [exact B | lia |].
    + destruct H5 as (Hg & H5 & H6). split; [done |]. split; [auto | done].
    + done.
Qed.

Lemma inv_set_pc s p : inv s -> pc_ok (set_pc s p) -> inv (set_pc s p).
Proof.
  intros [H1 H2 H3 [D1 D2 D3 D4 D5] H5] Hp. split; [done | done | done | by constructor | done].
Qed.

Lemma inv_dead s b :
  inv s -> inv (mkSys (ring_ s) (span s) b (pc s) (names s) (inodes s) (next s) (trash s) (stream s)).
Proof.
  intros [H1 H2 H3 [D1 D2 D3 D4 D5] H5]. split; [done | done | done | by constructor |].
  assert (forall b' bn, below s b' bn -> below (mkSys (ring_ s) (span s) b (pc s) (names s) (inodes s)
    (next s) (trash s) (stream s)) b' bn) as Hb by (by intros ? ? []).
  assert (forall g batch f, flight s g batch f -> flight (mkSys (ring_ s) (span s) b (pc s) (names s)
    (inodes s) (next s) (trash s) (stream s)) g batch f) as Hf by (by intros ? ? ? []).
  unfold pc_ok in *. simpl. destruct (pc s).
  - done.
  - destruct H5 as [H5 H6]. split; [auto | done].
  - destruct H5. split; auto.
  - destruct H5 as (F & B & W & R). split; [auto |]. split; [auto |]. split; [exact W | exact R].
  - destruct H5 as (F & B & W). split; [auto |]. split; [auto | exact W].
  - destruct H5 as (Hg & B & R). split; [done |]. split; [auto | exact R].
  - done.
Qed.

Lemma start_inv s ok : inv s -> returns (step s (EStart ok)) inv.
Proof.
  intros Hi. pose proof (inv_pc s Hi) as Hp. unfold pc_ok in Hp. cbn [step].
  destruct (pc s) eqn:Epc; try (by destruct ok). destruct Hp as (Es & En & Et). destruct ok.
  - apply returns_Ok, inv_set_pc; [done |]. split; [| by intros]. intros _. split; simpl.
    + intros sg. rewrite Es. intros H. by apply elem_of_nil in H.
    + intros p. rewrite Et. intros H. by apply elem_of_nil in H.
    + intros p i. by rewrite En.
  - unfold stop. destruct (reset_spec (ring_ s)) as [x ->]. cbn [rbind]. apply returns_Ok.
    assert (restarted (ring_ s) (set_flags (restart (cleared (ring_ s) x))
      (window (ring_ s)) true (off (ring_ s)) (closed (ring_ s)))) as Hr by (by eexists _, _, _, _).
    apply (inv_dead (set_pc (set_ring s _ _) (FIdle None)) true), inv_set_pc.
    + exact (inv_restarted s _ Hi Hr).
    + split; [| by intros]. intros _. split; simpl.
      * intros sg H. by apply elem_of_nil in H.
      * intros p. rewrite Et, Es. intros H. by apply elem_of_nil in H.
      * intros p i. by rewrite En.
Qed.

Lemma set_ring_app s r d r' d' : set_ring (set_ring s r d) r' d' = set_ring s r' (d ++ d').
Proof. unfold set_ring. simpl. by rewrite app_assoc. Qed.

Lemma window_inv s w now : inv s -> returns (step s (EWindow w now)) inv.
Proof.
  intros Hi. cbn [step]. destruct (pc s) as [| file | | | | |] eqn:Epc; try done. apply returns_bind.
  unfold checkWindow. set (r := ring_ s). set (r0 := set_flags r w (low r) (off r) (closed r)).
  assert (exists r1 d1, (if ((w <=? 0) && negb (off r0))%bool then
      let! '(r, drop) := resetLocked r0 in
      let r := restart r in
      Ok (set_flags r (window r) (low r) true (closed r), drop)
    else if ((0 <? w) && off r0)%bool
    then Ok (set_flags r0 (window r0) (low r0) false (closed r0), [])
    else Ok (r0, [])) = Ok (r1, d1) /\ inv (set_ring s r1 d1)) as (r1 & d1 & E & H1).
  { destruct ((w <=? 0) && negb (off r0))%bool.
    - destruct (reset_spec r0) as [x ->]. cbn [rbind]. eexists _, _. split; [done |].
      apply (inv_restarted s); [done |]. by exists x, w, (low r), true.
    - destruct ((0 <? w) && off r0)%bool; eexists _, _; (split; [done |]); apply inv_flags; try done.
      + intros Hc [Hl | Ho]; [| done]. apply (op_off _ _ (inv_open s Hi Hc)). by left.
      + intros Hc. apply (op_off _ _ (inv_open s Hi Hc)). }
  cbv zeta in E. rewrite E. cbn [rbind]. destruct (0 <? w).
  - destruct (trimLocked_spec r1 now) as (r2 & d2 & -> & Ht). cbn [rbind]. apply returns_Ok.
    cbv beta iota. apply returns_Ok. rewrite <- (set_ring_app s r1 d1). by eapply inv_trimmed.
  - apply returns_Ok. cbv beta iota. by apply returns_Ok.
Qed.

Lemma room_inv s room : inv s -> returns (step s (ERoom room)) inv.
Proof.
  intros Hi. cbn [step]. destruct (pc s) as [| file | | | | |] eqn:Epc; try done. apply returns_bind.
  set (rm := if dead s then -1 else room). unfold checkRoom.
  destruct ((rm <? 0) && negb (low (ring_ s)))%bool.
  - destruct (give_room_spec (length (segs (ring_ s))) (- rm) (ring_ s) (ring_ s) []) as (need & r1 & d1 & -> & Hd);
      [apply dropped_refl | done |].
    cbn [rbind]. apply dropped_marks in Hd.
    pose proof (inv_trimmed s _ d1 file Hi Epc Hd) as H1.
    destruct (0 <? need); [| by apply returns_Ok; cbv beta iota; apply returns_Ok].
    destruct (reset_spec (trimMarksLocked r1)) as [x ->]. cbn [rbind].
    apply returns_Ok. cbv beta iota. apply returns_Ok.
    rewrite <- (set_ring_app s (trimMarksLocked r1) d1).
    apply (inv_restarted (set_ring s (trimMarksLocked r1) d1)); [done |].
    by eexists x, _, _, _.
  - destruct (low (ring_ s) && (resumeRoom <=? rm))%bool;
      apply returns_Ok; cbv beta iota; apply returns_Ok.
    + apply inv_flags; [done |]. intros Hc [? | Ho]; [done |].
      apply (op_off _ _ (inv_open s Hi Hc)). by right.
    + apply inv_same; try done. intros Hc. by apply inv_open.
Qed.

Lemma zlen_concat_pos (l : list (list Z)) :
  l <> [] -> Forall (fun c => c <> []) l -> 0 < zlen (concat l).
Proof.
  intros Hne Hf. destruct l as [| c l]; [done |]. apply Forall_cons in Hf as [Hc _].
  simpl. rewrite zlen_app. pose proof (zlen_nonneg (concat l)).
  destruct c; [done |]. rewrite zlen_cons. pose proof (zlen_nonneg c). lia.
Qed.

Lemma chained_last a l b sg : chained a l b -> last l = Some sg -> path sg = first sg /\ first sg + size sg = b.
Proof.
  intros H Hl. apply last_Some in Hl as [l' ->]. apply chained_app in H as (m & _ & H).
  simpl in H. lia.
Qed.

Lemma begin_inv s now : inv s -> returns (step s (EBegin now)) inv.
Proof.
  intros Hi. cbn [step]. destruct (pc s) as [| file | | | | |] eqn:Epc; try done.
  unfold flush_begin. destruct (closed (ring_ s)) eqn:Hc; [done |]. case_bool_decide as Hp; [done |]. simpl.
  set (rotate := match file with Some _ => _ | None => _ end).
  pose proof (inv_open s Hi Hc) as [[P1 P2] P3 P4 P5 P6 P7].
  pose proof (inv_received s Hi) as Hr.
  pose proof (inv_pc s Hi) as H5. unfold pc_ok in H5. rewrite Epc in H5. destruct H5 as [H5 H6].
  specialize (H5 Hc). pose proof (zlen_concat_pos _ Hp (inv_chunks s Hi)) as Hpos.
  assert (zlen (concat (pending (ring_ s))) = received (ring_ s) - flushed (ring_ s)) as Hlen.
  { rewrite P3, zlen_drop, <- Hr. lia. }
  assert (concat (pending (ring_ s)) = sub (stream s) (flushed (ring_ s)) (zlen (concat (pending (ring_ s))))) as Hsub.
  { rewrite Hlen, Hr, sub_all by lia. exact P3. }
  assert (forall p, flight (set_pc s p) (gen (ring_ s)) (pending (ring_ s)) (flushed (ring_ s))) as Hfl.
  { intros p. split; simpl; try done; try lia. intros _. exists []. by rewrite app_nil_r. }
  assert (forall p, below (set_pc s p) (flushed (ring_ s)) (flushed (ring_ s))) as Hb.
  { intros p. destruct H5. by constructor. }
  assert (inv (set_pc s (FCreating (gen (ring_ s)) (pending (ring_ s)) (flushed (ring_ s)) now))) as Hcr.
  { apply inv_set_pc; [done |]. by split. }
  destruct rotate eqn:Erot; [done |]. destruct file as [f|]; [| done].
  apply returns_Ok, inv_set_pc; [done |]. subst rotate.
  destruct (last (segs (ring_ s))) as [sgl|] eqn:El; [| done].
  destruct (H6 f eq_refl) as (sg & c & Hl & Hn & Hino & Hsz).
  { intros E. by rewrite E in El. }
  injection Hl as <-. destruct (chained_last _ _ _ _ P5 El) as [Q1 Q2].
  split; [apply Hfl |]. split. { destruct (Hb (FIdle None)) as [B1 B2 B3]. split; simpl in *; try done.
    intros p i Hpi. specialize (B3 p i Hpi). lia. }
  split.
  - exists (path sgl), c. split_and!; [done | simpl; lia |]. intros _. exists sgl.
    split_and!; [done | done | done | simpl; lia].
  - rewrite Z.add_0_r. split_and!; [lia | lia | done].
Qed.

Lemma create_inv s ok : inv s -> returns (step s (ECreate ok)) inv.
Proof.
  intros Hi. pose proof (inv_pc s Hi) as H5. unfold pc_ok in H5. cbn [step].
  destruct (pc s) as [| | g batch f now | | | |] eqn:Epc; try (by destruct ok).
  destruct H5 as [F B]. pose proof F as [F1 F2 F3 F4 F5 F6]. pose proof Hi as [H1 H2 H3 [D1 D2 D3 D4 D5] _].
  destruct ok.
  - unfold create_file. destruct (names s !! f) as [i|] eqn:En.
    { pose proof (bl_name _ _ _ B f i En). lia. }
    apply returns_Ok.
    assert (forall i p c, inodes s !! i = Some (p, c) ->
      <[next s := (f, [])]> (inodes s) !! i = Some (p, c)) as Hino.
    { intros i p c Hip. destruct (D1 i p c Hip) as (_ & _ & _ & Hlt).
      rewrite lookup_insert_ne by lia. done. }
    split; simpl; try done.
    + split; simpl; try done.
      * intros i p c Hip. apply lookup_insert_Some in Hip as [[<- [= <- <-]] | [Hne Hip]].
        -- change (zlen (@nil Z)) with 0. split_and!; [lia | lia | done | lia].
        -- destruct (D1 i p c Hip) as (? & ? & ? & ?). split_and!; [done | done | done | lia].
      * intros p i Hpi. apply lookup_insert_Some in Hpi as [[<- <-] | [Hne Hpi]].
        -- exists []. by rewrite lookup_insert_eq.
        -- destruct (D2 p i Hpi) as [c Hc]. exists c. by apply Hino.
      * intros sg Hsg. destruct (D3 sg Hsg) as (i & c & Hn & Hc & Hrest). exists i, c.
        split_and!; [| by apply Hino | apply Hrest | apply Hrest | apply Hrest].
        pose proof (bl_seg _ _ _ B sg Hsg). rewrite lookup_insert_ne by lia. done.
    + split; [by constructor |]. split; [| split].
      * destruct B as [B1 B2 B3]. split; simpl; try done.
        intros p i Hpi. apply lookup_insert_Some in Hpi as [[<- <-] | [Hne Hpi]]; [lia |].
        specialize (B3 p i Hpi). lia.
      * exists f, []. change (zlen (@nil Z)) with 0. split_and!; [simpl; by rewrite lookup_insert_eq | lia | done | | done].
        simpl. by rewrite lookup_insert_eq.
      * rewrite Z.add_0_r. split_and!; [lia | lia | done].
  - apply returns_Ok, inv_set_pc; [done |]. split; [done |]. split.
    + destruct B as [B1 B2 B3]. split; simpl.
      * intros sg Hsg. specialize (B1 sg Hsg). lia.
      * intros p Hp. specialize (B2 p Hp). lia.
      * intros p i Hp. specialize (B3 p i Hp). lia.
    + simpl. intros Hc. destruct (F6 Hc) as [F7 F8]. split; [| done]. intros E. split; [by apply F7 |].
      specialize (F7 E). rewrite H1. lia.
Qed.

(** Bytes of the stream go to the end of a file that reaches up to them. *)
Lemma disk_write s p c file w pc' :
  disk_ok s -> inodes s !! file = Some (p, c) -> w = sub (stream s) (p + zlen c) (zlen w) ->
  p + zlen c + zlen w <= zlen (stream s) ->
  disk_ok (mkSys (ring_ s) (span s) (dead s) pc' (names s) (<[file := (p, c ++ w)]> (inodes s)) (next s)
    (trash s) (stream s)).
Proof.
  intros [D1 D2 D3 D4 D5] Hf Hw Hl. pose proof (zlen_nonneg w). pose proof (zlen_nonneg c).
  destruct (D1 _ _ _ Hf) as (A1 & A2 & A3 & A4). split; simpl; try done.
  - intros i q d Hi. apply lookup_insert_Some in Hi as [[<- [= <- <-]] | [Hne Hi]]; [| by apply D1].
    rewrite zlen_app. split_and!; [done | lia | | done].
    rewrite <- sub_join by lia. by rewrite <- A3, <- Hw.
  - intros q i Hq. destruct (D2 q i Hq) as [d Hd]. destruct (decide (i = file)) as [-> | Hne].
    + rewrite Hf in Hd. injection Hd as <- <-. eexists. by rewrite lookup_insert_eq.
    + exists d. by rewrite lookup_insert_ne.
  - intros sg Hsg. destruct (D3 sg Hsg) as (i & d & Hn & Hd & Hp & Hs).
    destruct (decide (i = file)) as [-> | Hne].
    + rewrite Hf in Hd. injection Hd as Hq <-. exists file, (c ++ w). rewrite zlen_app, lookup_insert_eq.
      split_and!; [done | by rewrite Hq | done | lia | lia].
    + exists i, d. rewrite lookup_insert_ne by done. done.
Qed.

Lemma write_inv s short : inv s -> returns (step s (EWrite short)) inv.
Proof.
  intros Hi. pose proof (inv_pc s Hi) as H5. unfold pc_ok in H5. cbn [step].
  destruct (pc s) as [| | | g batch rest f seg file n now | | |] eqn:Epc; try (by destruct short).
  destruct rest as [| chunk rest]; [by destruct short |].
  destruct H5 as (F & B & (p & c & Hf & Hx & Hseg) & N1 & N2 & N3).
  pose proof (fl_pos _ _ _ _ F) as (P1 & P2 & P3). specialize (Hx eq_refl).
  cbn [concat] in N2, N3. apply sub_split in N3 as [N3 N4]; [| lia].
  rewrite zlen_app in N2. pose proof (zlen_nonneg (concat rest)). pose proof (zlen_nonneg chunk).
  pose proof Hi as [H1 H2 H3 H4 _].
  assert (forall pc' names' inodes' w exact m,
    inodes' = <[file := (p, c ++ w)]> (inodes s) -> names' = names s ->
    (exact = true -> m = n + zlen w) ->
    writing (mkSys (ring_ s) (span s) (dead s) pc' names' inodes' (next s) (trash s) (stream s))
      g f seg file m now exact) as Hw.
  { intros pc' names' inodes' w exact m -> -> Hm. exists p, (c ++ w). simpl. rewrite lookup_insert_eq, zlen_app.
    split; [done |]. split; [intros E; specialize (Hm E); lia |].
    destruct seg as [sg|]; [done |]. intros E. destruct (Hseg E) as (sg & L1 & L2 & L3 & L4).
    exists sg. split_and!; [done | done | done |]. intros E2. specialize (Hm E2). specialize (L4 eq_refl). lia. }
  destruct short as [k|]; apply returns_Ok; unfold set_pc, write_file; cbn [inodes]; rewrite Hf.
  - set (w := take (Z.to_nat k) chunk).
    assert (zlen w <= zlen chunk) by (subst w; rewrite zlen_take; lia). pose proof (zlen_nonneg w).
    split; simpl; try done.
    + apply disk_write; [done | done | | lia]. rewrite Hx.
      subst w. rewrite <- (take_drop (Z.to_nat k) chunk) in N3. apply sub_split in N3 as [N3 _]; [exact N3 | lia].
    + split; [destruct F; by constructor |]. split; [destruct B; by constructor |]. by eapply Hw.
  - split; simpl; try done.
    + apply disk_write; [done | done | by rewrite Hx | lia].
    + split; [destruct F; by constructor |]. split; [destruct B; by constructor |]. split; [by eapply Hw |].
      split; [lia |]. split; [lia |]. by rewrite Z.add_assoc.
Qed.

Lemma grow_last_snoc n l sg :
  grow_last n (l ++ [sg]) = Ok (l ++ [mkSegment (path sg) (first sg) (size sg + n) (opened sg)]).
Proof.
  induction l as [| s l IH]; [done |]. simpl. destruct (l ++ [sg]) eqn:E; [by destruct l |].
  by rewrite IH.
Qed.

Lemma disk_ring s r pc' :
  disk_ok s ->
  (forall sg, sg ∈ segs r -> exists i c, names s !! path sg = Some i /\ inodes s !! i = Some (path sg, c) /\
     path sg = first sg /\ 0 <= size sg <= zlen c) ->
  (forall p sg, p ∈ trash s -> sg ∈ segs r -> path sg <> p) ->
  StronglySorted (fun a b => path a < path b) (segs r) ->
  disk_ok (mkSys r (span s) (dead s) pc' (names s) (inodes s) (next s) (trash s) (stream s)).
Proof. intros [D1 D2 D3 D4 D5] E1 E2 E3. by split. Qed.

Lemma sorted_snoc l sg :
  StronglySorted (fun a b => path a < path b) l -> (forall x, x ∈ l -> path x < path sg) ->
  StronglySorted (fun a b => path a < path b) (l ++ [sg]).
Proof.
  intros Hs Hl. induction l as [| x l IH]; [by repeat constructor |].
  inversion Hs as [| ? ? Hs' Ha]; subst. simpl. constructor.
  - apply IH; [done |]. intros y Hy. apply Hl. by right.
  - apply List.Forall_app. split; [done |]. constructor; [apply Hl; by left | constructor].
Qed.

(** A reset came while the batch was being written: nothing of it is kept. *)
Lemma commit_stale s g batch f seg file n now exact :
  inv s -> flight s g batch f -> below s f (f + 1) -> writing s g f seg file n now exact ->
  gen (ring_ s) <> g ->
  inv (match seg with
       | Some sg => set_pc (set_ring s (ring_ s) [path sg]) (FIdle None)
       | None => set_pc s (FIdle (Some file))
       end).
Proof.
  intros Hi F B W Hg. pose proof (fl_reset _ _ _ _ F Hg) as Es. pose proof (fl_open _ _ _ _ F) as Hop.
  destruct B as [B1 B2 B3]. destruct seg as [sg|].
  - destruct W as (p & c & _ & _ & -> & Hn & _). cbn [path].
    destruct Hi as [H1 H2 H3 H4 H5]. split; simpl; try done.
    + destruct H4 as [D1 D2 D3 D4 D5]. split; simpl; try done.
      intros p' sg Hp Hsg. rewrite Es in Hsg. by apply elem_of_nil in Hsg.
    + split; [| done]. simpl. intros Hc. destruct (Hop Hc) as [_ Hlt]. specialize (Hlt Hg). split; simpl.
      * intros sg Hsg. rewrite Es in Hsg. by apply elem_of_nil in Hsg.
      * intros q Hq. apply elem_of_app in Hq as [Hq | Hq]; [specialize (B2 q Hq); lia |].
        apply list_elem_of_singleton in Hq as ->. lia.
      * intros q i Hq. specialize (B3 q i Hq). lia.
  - apply inv_set_pc; [done |]. split; [| simpl; by rewrite Es].
    simpl. intros Hc. destruct (Hop Hc) as [_ Hlt]. specialize (Hlt Hg). split; simpl.
    + intros sg Hsg. rewrite Es in Hsg. by apply elem_of_nil in Hsg.
    + intros q Hq. specialize (B2 q Hq). lia.
    + intros q i Hq. specialize (B3 q i Hq). lia.
Qed.

Definition with_seg (s : sys) (seg : option segment) : list segment :=
  match seg with Some sg => segs (ring_ s) ++ [sg] | None => segs (ring_ s) end.

(** The files of the ring with the one being written. *)
Lemma with_seg_ok s g batch f seg file n now exact :
  inv s -> flight s g batch f -> below s f (f + 1) -> writing s g f seg file n now exact ->
  gen (ring_ s) = g ->
  exists l sg c, with_seg s seg = l ++ [sg] /\ names s !! path sg = Some file /\
    inodes s !! file = Some (path sg, c) /\ path sg = first sg /\ 0 <= size sg <= zlen c /\
    (exact = true -> size sg + n = zlen c) /\
    (forall x, x ∈ l -> x ∈ segs (ring_ s)) /\ (forall p, p ∈ trash s -> p <> path sg) /\
    path sg <= f /\
    StronglySorted (fun a b => path a < path b) (with_seg s seg) /\
    (closed (ring_ s) = false -> chained (start (ring_ s)) (with_seg s seg) (flushed (ring_ s))).
Proof.
  intros Hi F B (p & c & Hf & Hx & Hseg) Hg. pose proof Hi as [H1 H2 H3 [D1 D2 D3 D4 D5] _].
  pose proof (zlen_nonneg c). pose proof (fl_pos _ _ _ _ F) as (P1 & _). destruct seg as [sg|]; simpl.
  - destruct Hseg as (-> & Hn & ->). exists (segs (ring_ s)), (mkSegment f f 0 now), c. simpl.
    split_and!; try done; try lia.
    + intros E. specialize (Hx E). lia.
    + intros q Hq ->. pose proof (bl_trash _ _ _ B f Hq). lia.
    + apply sorted_snoc; [done |]. intros x Hx'. apply (bl_seg _ _ _ B x Hx').
    + intros Hc. apply chained_app. exists (flushed (ring_ s)). split; [apply (op_chain _ _ (H3 Hc)) |].
      destruct (fl_open _ _ _ _ F Hc) as [E _]. simpl. specialize (E Hg). split_and!; [done | done | lia | lia].
  - destruct (Hseg Hg) as (sg & Hl & <- & Hn & Hsz). pose proof Hl as Hin. apply last_elem in Hin.
    destruct (D3 sg Hin) as (i & d & Hn' & Hd & Hp & Hs). rewrite Hn in Hn'. injection Hn' as <-.
    rewrite Hf in Hd. injection Hd as <-. apply last_Some in Hl as [l Hl]. exists l, sg, c.
    split_and!; try done; try lia.
    + intros x Hx'. rewrite Hl. apply elem_of_app. by left.
    + intros q Hq ->. by apply (D4 (path sg) sg).
    + pose proof (bl_seg _ _ _ B sg Hin). lia.
    + intros Hc. apply (op_chain _ _ (H3 Hc)).
Qed.

Lemma commit_ok s g batch f seg file n now werr :
  inv s -> flight s g batch f -> below s f (f + 1) -> writing s g f seg file n now (negb werr) ->
  (werr = false -> n = zlen (concat batch)) ->
  returns (commit s g batch f seg file n now werr) inv.
Proof.
  intros Hi F B W Hn. unfold commit, flush_commit.
  destruct (Z.eqb_spec (gen (ring_ s)) g) as [Hg | Hg]; cbn [negb].
  2: { cbn [rbind]. pose proof (commit_stale s g batch f seg file n now _ Hi F B W Hg) as Hst.
       by destruct seg. }
  destruct (with_seg_ok s g batch f seg file n now _ Hi F B W Hg)
    as (l & sg & c & Ew & Hname & Hino & Hp & Hsz & Hex & Hold & Htr & Hpf & Hsort & Hch).
  fold (with_seg s seg). pose proof Hi as [H1 H2 H3 H4 _]. pose proof H4 as [D1 D2 D3 D4 D5].
  destruct (fl_same _ _ _ _ F Hg) as [tl Htl]. pose proof (fl_pos _ _ _ _ F) as (P1 & P2 & P3).
  pose proof (fl_open _ _ _ _ F) as Hop. pose proof (zlen_nonneg c).
  assert (closed (ring_ s) = false -> low (ring_ s) = true \/ off (ring_ s) = true -> False) as Hlow.
  { intros Hc Hl. destruct (op_off _ _ (H3 Hc) Hl) as [E _]. rewrite E in Htl. symmetry in Htl.
    apply app_eq_nil in Htl as [-> _]. change (zlen (concat [])) with 0 in P2. lia. }
  destruct werr; cbn [segs set_segs rbind].
  - (* the write failed *)
    apply returns_Ok. unfold set_ring. rewrite app_nil_r. split; simpl.
    + done.
    + done.
    + intros Hc. destruct (H3 Hc) as [Q1 Q2 Q3 Q4 Q5 Q6]. constructor; simpl; try done; [by apply Hch |].
      intros Hl. by destruct (Hlow Hc Hl).
    + apply (disk_ring s); [done | | | done].
      * simpl. intros x Hx. rewrite Ew in Hx. apply elem_of_app in Hx as [Hx | Hx]; [by apply D3, Hold |].
        apply list_elem_of_singleton in Hx as ->. by exists file, c.
      * simpl. intros p x Hpt Hx. rewrite Ew in Hx. apply elem_of_app in Hx as [Hx | Hx]; [by apply (D4 p x), Hold |].
        apply list_elem_of_singleton in Hx as ->. intros E. by apply (Htr p).
    + split; [simpl; lia |]. destruct B as [B1 B2 B3]. split.
      * split; simpl; [| | done].
        -- intros x Hx. rewrite Ew in Hx. apply elem_of_app in Hx as [Hx | Hx].
           { specialize (B1 x (Hold x Hx)). lia. }
           apply list_elem_of_singleton in Hx as ->. lia.
        -- intros p Hpt. specialize (B2 p Hpt). lia.
      * simpl. intros Hc. split; [| done]. intros _. destruct (Hop Hc) as [E _]. specialize (E Hg). lia.
  - (* the batch is on disk *)
    specialize (Hn eq_refl). cbn [negb] in Hex. specialize (Hex eq_refl).
    rewrite Ew, grow_last_snoc. cbn [rbind pending set_segs].
    rewrite Htl, slice_from_Ok by (rewrite zlen_app; pose proof (zlen_nonneg batch); pose proof (zlen_nonneg tl); lia).
    rewrite zlen_nat, drop_app_length. cbn [rbind set_segs gen start flushed received queued marks lastMark lastAt window low off closed].
    set (r2 := mkRing _ _ _ _ _ _ _ _ _ _ _ _ _ _).
    destruct (trimLocked_spec r2 now) as (r3 & d & -> & Ht). cbn [rbind]. apply returns_Ok.
    change (set_pc (set_ring s r3 d) (FIdle (Some file))) with (set_ring (set_pc s (FIdle (Some file))) r3 d).
    assert (inv (set_ring (set_pc s (FIdle (Some file))) r2 [])) as Hi2.
    { unfold set_ring, set_pc. simpl. rewrite app_nil_r. split; simpl.
      + done.
      + rewrite Htl in H2. by apply Forall_app in H2 as [_ H2].
      + intros Hc. destruct (H3 Hc) as [Q1 Q2 [Q3 Q4] Q5 Q6 Q7]. destruct (Hop Hc) as [E _]. specialize (E Hg).
        constructor; simpl; try done.
        * lia.
        * rewrite Htl, concat_app in Q2. rewrite Z2Nat.inj_add, <- drop_drop, <- Q2 by lia.
          by rewrite Hn, zlen_nat, drop_app_length.
        * lia.
        * specialize (Hch Hc). rewrite Ew in Hch. apply chained_app in Hch as (m & C1 & C2).
          apply chained_app. exists m. split; [done |]. simpl in C2 |- *. lia.
        * intros Hl. by destruct (Hlow Hc Hl).
      + apply (disk_ring s); [done | | | ]; simpl.
        * intros x Hx. apply elem_of_app in Hx as [Hx | Hx]; [by apply D3, Hold |].
          apply list_elem_of_singleton in Hx as ->. exists file, c. simpl. split_and!; [done | done | done | lia | lia].
        * intros p x Hpt Hx. apply elem_of_app in Hx as [Hx | Hx]; [by apply (D4 p x), Hold |].
          apply list_elem_of_singleton in Hx as ->. simpl. intros E. by apply (Htr p).
        * rewrite Ew in Hsort. clear -Hsort. induction l as [| x l IH]; [by repeat constructor |].
          simpl in *. inversion Hsort as [| ? ? Hs Ha]; subst. constructor; [by apply IH |].
          apply List.Forall_app in Ha as [Ha1 Ha2]. apply List.Forall_app. split; [done |].
          inversion Ha2; subst. by constructor.
      + destruct B as [B1 B2 B3]. split.
        * simpl. intros Hc. destruct (Hop Hc) as [E _]. specialize (E Hg). split; simpl.
          -- intros x Hx. apply elem_of_app in Hx as [Hx | Hx]; [specialize (B1 x (Hold x Hx)); lia |].
             apply list_elem_of_singleton in Hx as ->. simpl. lia.
          -- intros p Hpt. specialize (B2 p Hpt). lia.
          -- intros p i Hpi. specialize (B3 p i Hpi). lia.
        * simpl. intros i [= <-] _. eexists _, c. rewrite last_snoc. simpl. split_and!; try done; lia. }
    pose proof (inv_trimmed (set_ring (set_pc s (FIdle (Some file))) r2 []) r3 d (Some file) Hi2 eq_refl Ht) as Hi3.
    by rewrite set_ring_app in Hi3.
Qed.

Lemma commit_inv s : inv s -> returns (step s ECommit) inv.
Proof.
  intros Hi. pose proof (inv_pc s Hi) as H5. unfold pc_ok in H5. cbn [step].
  destruct (pc s) as [| | | g batch rest f seg file n now | g batch f seg file n now | |] eqn:Epc; try done.
  - destruct rest as [| ? ?]; [| done]. destruct H5 as (F & B & W & N1 & N2 & N3).
    apply commit_ok; try done. intros _. change (zlen (concat [])) with 0 in N2. lia.
  - destruct H5 as (F & B & W). by apply commit_ok.
Qed.

Lemma fail_inv s : inv s -> returns (step s EFail) inv.
Proof.
  intros Hi. pose proof (inv_pc s Hi) as H5. unfold pc_ok in H5. cbn [step].
  destruct (pc s) as [| | | | | g f |] eqn:Epc; try done. destruct H5 as (Hg & [B1 B2 B3] & Hop).
  unfold fail. destruct (Z.eqb_spec (gen (ring_ s)) g) as [E | E].
  - destruct (reset_spec (ring_ s)) as [x ->]. cbn [rbind]. apply returns_Ok.
    assert (restarted (ring_ s) (set_flags (restart (cleared (ring_ s) x))
      (window (ring_ s)) true (off (ring_ s)) (closed (ring_ s)))) as Hr by (by eexists _, _, _, _).
    apply inv_set_pc; [exact (inv_restarted s _ Hi Hr) |]. split; [| by intros]. simpl. intros Hc.
    destruct (Hop Hc) as [Ho _]. specialize (Ho E). split; simpl.
    + intros sg H. by apply elem_of_nil in H.
    + intros p Hp. apply elem_of_app in Hp as [Hp | Hp]; [specialize (B2 p Hp); lia |].
      apply elem_of_map_path in Hp as (sg & Hsg & ->). specialize (B1 sg Hsg). lia.
    + intros p i Hp. specialize (B3 p i Hp). lia.
  - cbn [rbind]. apply returns_Ok, inv_set_pc.
    + apply inv_same; try done. apply (inv_open s Hi).
    + split; [| by intros]. simpl. intros Hc. destruct (Hop Hc) as [_ Ho]. specialize (Ho E). split; simpl.
      * intros sg Hsg. specialize (B1 sg Hsg). lia.
      * intros p Hp. rewrite app_nil_r in Hp. specialize (B2 p Hp). lia.
      * intros p i Hp. specialize (B3 p i Hp). lia.
Qed.

Lemma exit_inv s : inv s -> returns (step s EExit) inv.
Proof.
  intros Hi. cbn [step]. destruct (pc s) eqn:Epc; try done. destruct (closed (ring_ s)) eqn:Hc; [| done].
  unfold flusher_exit. destruct (reset_spec (ring_ s)) as [x ->]. cbn [rbind]. apply returns_Ok.
  destruct Hi as [H1 H2 H3 [D1 D2 D3 D4 D5] H5]. split; simpl; try done.
  - by rewrite Hc.
  - split; simpl; try done.
    + intros sg H. by apply elem_of_nil in H.
    + intros p sg _ H. by apply elem_of_nil in H.
    + constructor.
Qed.

Lemma step_inv s e : inv s -> returns (step s e) inv.
Proof.
  intros Hi. destruct e.
  - by apply append_inv.
  - by apply close_inv.
  - by apply start_inv.
  - by apply window_inv.
  - by apply room_inv.
  - by apply begin_inv.
  - by apply create_inv.
  - by apply write_inv.
  - by apply commit_inv.
  - by apply fail_inv.
  - by apply remove_inv.
  - by apply exit_inv.
Qed.

Lemma reachable_inv sp s : reachable sp s -> inv s.
Proof.
  induction 1 as [| s e s' _ IH E]; [apply init_inv |].
  pose proof (step_inv s e IH) as H. by rewrite E in H.
Qed.

(** ** Readers see the stream *)

Lemma copyPending_spec n l skip :
  0 <= n -> 0 <= skip ->
  copyPending n l skip = Ok (take (Z.to_nat n) (drop (Z.to_nat skip) (concat l))).
Proof.
  revert n skip. induction l as [| chunk l IH]; intros n skip Hn Hs.
  { simpl. by rewrite drop_nil, take_nil. }
  cbn [copyPending concat]. destruct (Z.leb_spec (zlen chunk) skip) as [Hle | Hlt].
  - rewrite IH by lia. f_equal. f_equal. rewrite drop_app_ge by (unfold zlen in Hle; lia).
    f_equal. unfold zlen. lia.
  - rewrite slice_from_Ok by lia. cbn [rbind].
    rewrite drop_app_le by (unfold zlen in Hlt; lia). set (c := drop (Z.to_nat skip) chunk).
    assert (zlen (take (Z.to_nat n) c) = Z.min n (zlen c)) as Hz by (rewrite zlen_take; lia).
    pose proof (zlen_nonneg c). rewrite Hz. destruct (Z.eqb_spec (Z.min n (zlen c)) n) as [E | E].
    + by rewrite take_app_le by (unfold zlen in *; lia).
    + rewrite IH by lia. cbn [rbind]. f_equal. rewrite take_app, drop_0. f_equal.
      f_equal. unfold zlen in *. lia.
Qed.

(** What a step leaves of the disk and the stream. *)
Lemma step_grows s e s' :
  inv s -> step s e = Ok s' ->
  (exists l, stream s' = stream s ++ l) /\
  (forall i p c, inodes s !! i = Some (p, c) -> exists c', inodes s' !! i = Some (p, c')).
Proof.
  intros Hi Hst.
  assert ((exists l, stream s' = stream s ++ l) /\ inodes s' = inodes s ->
    (exists l, stream s' = stream s ++ l) /\
    (forall i p c, inodes s !! i = Some (p, c) -> exists c', inodes s' !! i = Some (p, c'))) as Hsame.
  { intros [H1 H2]. rewrite H2. split; [done |]. intros i p c Hp. by exists c. }
  assert (exists l, stream s = stream s ++ l) as Hnil by (exists []; by rewrite app_nil_r).
  assert (forall file f, (forall p c, inodes s !! file = Some (p, c) -> exists c', f = <[file := (p, c')]> (inodes s)) ->
    (inodes s !! file = None -> f = inodes s) ->
    forall i p c, inodes s !! i = Some (p, c) -> exists c', f !! i = Some (p, c')) as Hwr.
  { intros file f H1 H2 i p c Hp. destruct (inodes s !! file) as [[q d]|] eqn:Ef.
    - destruct (H1 q d eq_refl) as [c' ->]. destruct (decide (file = i)) as [<- | Hne].
      + rewrite Ef in Hp. injection Hp as <- <-. exists c'. by rewrite lookup_insert_eq.
      + exists c. by rewrite lookup_insert_ne.
    - rewrite (H2 eq_refl). by exists c. }
  assert (forall g batch f seg file n now werr, commit s g batch f seg file n now werr = Ok s' ->
    (exists l, stream s' = stream s ++ l) /\ inodes s' = inodes s) as Hcommit.
  { intros g batch f seg file n now werr H. unfold commit in H. apply rbind_Ok_inv in H as (c & _ & H).
    destruct c; [destruct seg | |]; by injection H as <-. }
  destruct e; cbn [step] in Hst.
  - apply rbind_Ok_inv in Hst as ([r d] & _ & Hst). injection Hst as <-. apply Hsame.
    split; [by exists chunk | done].
  - apply Hsame. by injection Hst as <-.
  - destruct (pc s); destruct ok; try (apply Hsame; by injection Hst as <-).
    apply Hsame. unfold stop in Hst. destruct (reset_spec (ring_ s)) as [x E]. rewrite E in Hst.
    by injection Hst as <-.
  - destruct (pc s); try (apply Hsame; by injection Hst as <-).
    apply rbind_Ok_inv in Hst as ([r d] & _ & Hst). apply Hsame. by injection Hst as <-.
  - destruct (pc s); try (apply Hsame; by injection Hst as <-).
    apply rbind_Ok_inv in Hst as ([r d] & _ & Hst). apply Hsame. by injection Hst as <-.
  - destruct (pc s); try (apply Hsame; by injection Hst as <-).
    destruct (flush_begin _ _ _ _) as [[[[g batch] f] rot]|]; [| apply Hsame; by injection Hst as <-].
    destruct rot, file; apply Hsame; by injection Hst as <-.
  - destruct (pc s) as [| | g batch f now | | | |]; try (apply Hsame; by destruct ok; injection Hst as <-).
    destruct ok; [| apply Hsame; by injection Hst as <-]. unfold create_file in Hst.
    destruct (inv_disk s Hi) as [D1 D2 _ _ _]. destruct (names s !! f) as [j|] eqn:En; injection Hst as <-; simpl.
    + split; [done |]. destruct (D2 f j En) as [d Hd]. eapply (Hwr j); intros; simplify_eq. by exists [].
    + split; [done |]. intros i p c Hp. exists c. destruct (D1 i p c Hp) as (_ & _ & _ & Hlt).
      rewrite lookup_insert_ne by lia. done.
  - destruct (pc s) as [| | | g batch rest f seg file n now | | |]; try (apply Hsame; by destruct short; injection Hst as <-).
    destruct rest as [| chunk rest]; [apply Hsame; by destruct short; injection Hst as <- |].
    destruct short; injection Hst as <-; simpl; (split; [done |]); apply (Hwr file); unfold write_file.
    all: intros; repeat case_match; simplify_eq; try done; eauto.
  - destruct (pc s); try (apply Hsame; by injection Hst as <-).
    + destruct rest; [| apply Hsame; by injection Hst as <-]. apply Hsame. by eapply Hcommit.
    + apply Hsame. by eapply Hcommit.
  - destruct (pc s); try (apply Hsame; by injection Hst as <-).
    apply rbind_Ok_inv in Hst as ([r d] & _ & Hst). apply Hsame. by injection Hst as <-.
  - destruct (pc s); case_bool_decide; apply Hsame; by injection Hst as <-.
  - destruct (pc s); try (apply Hsame; by injection Hst as <-).
    destruct (closed (ring_ s)); [| apply Hsame; by injection Hst as <-].
    apply rbind_Ok_inv in Hst as (r & _ & Hst). apply Hsame. by injection Hst as <-.
Qed.

(** What a reader of [from0, to) has done: it wrote a stretch of the stream
    from [from0] on, up to where it is. *)
Definition wrote (s : sys) (from0 to at_ : Z) (out : list Z) : Prop :=
  out = sub (stream s) from0 (zlen out) /\ at_ = from0 + zlen out /\
  (out <> [] -> 0 <= from0 /\ at_ <= to /\ at_ <= zlen (stream s)).

Definition rd_ok (s : sys) (from0 : Z) (rd : reader) : Prop :=
  match rpc_ rd with
  | RInit | RTop => wrote s from0 (rto rd) (rfrom rd) (rout rd)
  | ROpen sg =>
      wrote s from0 (rto rd) (rfrom rd) (rout rd) /\ path sg = first sg /\
      0 <= first sg <= rfrom rd /\ rfrom rd < first sg + size sg /\ rfrom rd < rto rd
  | RFile i sg length total =>
      wrote s from0 (rto rd) (rfrom rd + total) (rout rd) /\ 0 <= total <= length /\
      rfrom rd + length <= rto rd /\ 0 <= first sg <= rfrom rd /\
      exists c, inodes s !! i = Some (first sg, c)
  | RDone err =>
      wrote s from0 (rto rd) (rfrom rd) (rout rd) /\ (err = None -> rto rd <= rfrom rd)
  end.

Lemma wrote_more s from0 to at_ out b :
  wrote s from0 to at_ out -> 0 <= at_ -> b = sub (stream s) at_ (zlen b) ->
  at_ + zlen b <= to -> at_ + zlen b <= zlen (stream s) -> wrote s from0 to (at_ + zlen b) (out ++ b).
Proof.
  intros (H1 & H2 & H3) H0 Hb Hto Hs. pose proof (zlen_nonneg out). pose proof (zlen_nonneg b).
  assert (0 <= from0 \/ b = []) as Hf.
  { destruct out as [| x out]; [left; change (zlen (@nil Z)) with 0 in H2; lia | left; by apply H3]. }
  unfold wrote. rewrite zlen_app. split; [| split; [lia |]].
  - destruct Hf as [Hf | ->].
    + rewrite <- sub_join by lia. by rewrite <- H1, <- H2, <- Hb.
    + by rewrite app_nil_r, zlen_nil, Z.add_0_r.
  - intros Hne. split; [| split; [lia | lia]]. destruct Hf as [Hf | ->]; [done |].
    apply H3. by rewrite app_nil_r in Hne.
Qed.

Lemma wrote_ext s s' from0 to at_ out l :
  wrote s from0 to at_ out -> stream s' = stream s ++ l -> wrote s' from0 to at_ out.
Proof.
  intros (H1 & H2 & H3) Hs. pose proof (zlen_nonneg out). pose proof (zlen_nonneg l).
  unfold wrote. rewrite Hs. destruct out as [| x out]; [by rewrite zlen_nil, !sub_0 |].
  destruct H3 as (A & B & C); [done |]. split; [| split; [done |]].
  - rewrite sub_app_l by lia. done.
  - intros _. rewrite zlen_app. split_and!; [done | done | lia].
Qed.

Lemma rd_ok_ext s s' from0 rd :
  rd_ok s from0 rd -> (exists l, stream s' = stream s ++ l) ->
  (forall i p c, inodes s !! i = Some (p, c) -> exists c', inodes s' !! i = Some (p, c')) ->
  rd_ok s' from0 rd.
Proof.
  intros H [l Hl] Hi. unfold rd_ok in *. destruct (rpc_ rd).
  - by eapply wrote_ext.
  - by eapply wrote_ext.
  - destruct H as [H1 H2]. split; [by eapply wrote_ext | done].
  - destruct H as (H1 & H2 & H3 & H4 & c & H5). destruct (Hi _ _ _ H5) as [c' H6].
    split; [by eapply wrote_ext |]. split; [done |]. split; [done |]. split; [done |]. by exists c'.
  - destruct H as [H1 H2]. split; [by eapply wrote_ext | done].
Qed.

Lemma find_seg_Some from l sg :
  find_seg from l = Some sg -> sg ∈ l /\ first sg <= from < first sg + size sg.
Proof.
  unfold find_seg. intros H. apply head_Some_elem_of in H. by apply list_elem_of_filter in H as [H1 H2].
Qed.

(** A reader at a stretch that the ring holds in memory or in a file it read. *)
Lemma reader_step_ok s bufsz f from0 rd :
  inv s -> 0 <= bufsz -> rd_ok s from0 rd -> returns (reader_step s bufsz f rd) (rd_ok s from0).
Proof.
  intros Hi Hbuf Hrd. pose proof Hi as [H1 H2 H3 [D1 D2 D3 D4 D5] _].
  unfold reader_step. unfold rd_ok in Hrd. destruct (rpc_ rd) as [| | sg | i sg len total | err] eqn:Epc.
  - destruct (closed (ring_ s)); apply returns_Ok; [by split | exact Hrd].
  - destruct (Z.leb_spec (rto rd) (rfrom rd)) as [Hle | Hlt]; [by apply returns_Ok |].
    destruct (closed (ring_ s) || (rfrom rd <? start (ring_ s)) || (received (ring_ s) <=? rfrom rd))%bool eqn:Ec;
      [by apply returns_Ok |].
    apply orb_false_elim in Ec as [Ec Er]. apply orb_false_elim in Ec as [Ec Es].
    destruct (H3 Ec) as [[P0 P1] P2 P3 P4 P5 P6].
    apply Z.ltb_ge in Es. apply Z.leb_gt in Er. assert (0 <= rfrom rd) as Hfrom by lia.
    destruct (Z.leb_spec (flushed (ring_ s)) (rfrom rd)) as [Hmem | Hdisk].
    + rewrite copyPending_spec by lia. cbn [rbind]. rewrite P2, drop_drop, <- Z2Nat.inj_add by lia.
      replace (flushed (ring_ s) + (rfrom rd - flushed (ring_ s))) with (rfrom rd) by lia.
      set (b := take _ _).
      assert (b = sub (stream s) (rfrom rd) (zlen b)) as Hb.
      { apply take_drop_sub. }
      assert (zlen b <= rto rd - rfrom rd /\ rfrom rd + zlen b <= zlen (stream s)) as [Hb1 Hb2].
      { subst b. rewrite zlen_take, zlen_drop. lia. }
      destruct (zlen b =? 0); [by apply returns_Ok |].
      destruct f as [| | k | k]; cbn [write_out]; apply returns_Ok; try (apply wrote_more; done || (simpl; lia)).
      rewrite <- (take_drop (Z.to_nat k) b) in Hb. apply sub_split in Hb as [Hb _]; [| lia].
      assert (zlen (take (Z.to_nat k) b) <= zlen b) by (rewrite zlen_take; lia).
      split; [| done]. pose proof (zlen_nonneg (take (Z.to_nat k) b)). apply wrote_more; done || (simpl; lia).
    + destruct (find_seg (rfrom rd) (segs (ring_ s))) as [sg|] eqn:Ef; [| by apply returns_Ok].
      apply find_seg_Some in Ef as [Hin Hr]. apply returns_Ok.
      destruct (D3 sg Hin) as (i & c & Hn & Hc & Hp & Hs). destruct (D1 _ _ _ Hc) as (Q & _).
      split; [exact Hrd |]. simpl. split; [done |]. lia.
  - destruct Hrd as (Hw & Hp & Hf & Hl & Ht).
    assert (forall e, rd_ok s from0 (set_rpc rd (RDone (Some e)))) as Hgone by (intros e; by split).
    destruct (names s !! path sg) as [i|] eqn:En; [| by destruct f; apply returns_Ok].
    destruct (D2 _ _ En) as [c Hc].
    assert (rd_ok s from0 (set_rpc rd (RFile i sg (Z.min (first sg + size sg) (rto rd) - rfrom rd) 0))) as Hfile.
    { unfold rd_ok. cbn [rpc_ set_rpc rfrom rto rout]. rewrite Z.add_0_r. split; [exact Hw |].
      split; [lia |]. split; [lia |]. split; [done |]. exists c. by rewrite Hc, Hp. }
    by destruct f; apply returns_Ok.
  - destruct Hrd as (Hw & Ht & Hl & Hf & c & Hc). destruct (Z.ltb_spec total len) as [Hlt | Hge].
    2: { apply returns_Ok. exact Hw. }
    rewrite Hc. destruct (D1 _ _ _ Hc) as (_ & Q2 & Q3 & _).
    assert (0 <= rfrom rd - first sg + total) as Hoff by lia.
    set (o := rfrom rd - first sg + total) in *. set (want := Z.min bufsz (len - total)).
    assert (forall k, let b := take k (drop (Z.to_nat o) c) in
      b = sub (stream s) (rfrom rd + total) (zlen b) /\ 
      (b = [] \/ rfrom rd + total + zlen b <= zlen (stream s))) as Hstretch.
    { intros k b. destruct (decide (o <= zlen c)) as [Ho | Ho].
      - assert (b = sub c o (zlen b)) as Hb.
        { apply take_drop_sub. }
        assert (o + zlen b <= zlen c) as Hbl by (subst b; rewrite zlen_take, zlen_drop; lia).
        pose proof (zlen_nonneg b). split; [| right; lia].
        rewrite Q3 in Hb. rewrite Hb at 1. rewrite sub_sub by lia. f_equal. lia.
      - assert (b = []) as -> by (subst b; rewrite drop_ge, take_nil by (unfold zlen in *; lia); done).
        by split; [| left]. }
    assert (exists k rerr, read_at f c o want = (take k (drop (Z.to_nat o) c), rerr) /\
      zlen (take k (drop (Z.to_nat o) c)) <= len - total) as (k & rerr & Erd & Hlen).
    { unfold read_at. destruct f as [| | k | k]; eexists _, _; (split; [try done |]).
      all: try (rewrite zlen_take; lia).
      - rewrite take_take. done.
      - rewrite zlen_take. lia. }
    rewrite Erd. specialize (Hstretch k). set (b := take k _) in *. cbv zeta in Hstretch.
    destruct Hstretch as [Hb Hb2]. pose proof (zlen_nonneg b). pose proof (zlen_nonneg (stream s)).
    assert (0 < zlen b -> rfrom rd + total + zlen b <= zlen (stream s)) as Hb3.
    { intros Hp. destruct Hb2 as [E | ?]; [| done]. rewrite E in Hp. change (zlen (@nil Z)) with 0 in Hp. lia. }
    destruct (write_out f b) as [w failed] eqn:Ew.
    destruct ((0 <? zlen b) && failed)%bool eqn:Efail.
    + apply returns_Ok. split; [| done]. simpl.
      assert (w = sub (stream s) (rfrom rd + total) (zlen w) /\ zlen w <= zlen b) as [Hw1 Hw2].
      { destruct f as [| | k' | k']; cbn [write_out] in Ew; injection Ew as <- <-; try (by split).
        pose proof Hb as Hb'. rewrite <- (take_drop (Z.to_nat k') b) in Hb'.
        apply sub_split in Hb' as [Hb' _]; [| lia]. split; [exact Hb' | rewrite zlen_take; lia]. }
      pose proof (zlen_nonneg w). apply wrote_more; done || lia.
    + cbv zeta. assert (wrote s from0 (rto rd) (rfrom rd + total + zlen b)
        (if 0 <? zlen b then rout rd ++ b else rout rd)) as Hout.
      { destruct (Z.ltb_spec 0 (zlen b)) as [Hp | Hp]; [apply wrote_more; done || lia |].
        replace (zlen b) with 0 by lia. by rewrite Z.add_0_r. }
      destruct (rerr && (total + zlen b <? len))%bool; apply returns_Ok; [by split |].
      unfold rd_ok. simpl. rewrite Z.add_assoc. split; [done |]. split; [lia |]. split; [lia |].
      split; [done |]. by exists c.
  - apply returns_Ok. unfold rd_ok. by rewrite Epc.
Qed.

Lemma reading_ok sp bufsz from to s rd :
  0 <= bufsz -> reading sp bufsz from to s rd -> inv s /\ rto rd = to /\ rd_ok s from rd.
Proof.
  intros Hb. induction 1 as [s Hs | s rd e s' _ (IH1 & IH2 & IH3) E | s rd f rd' _ (IH1 & IH2 & IH3) E].
  - split; [by eapply reachable_inv |]. split; [done |]. unfold rd_ok, wrote. simpl.
    by rewrite zlen_nil, Z.add_0_r.
  - pose proof (step_inv s e IH1) as H1. rewrite E in H1. split; [exact H1 |]. split; [done |].
    destruct (step_grows s e s' IH1 E) as [Hl Hi]. by eapply rd_ok_ext.
  - split; [done |]. pose proof (reader_step_ok s bufsz f from rd IH1 Hb IH3) as H1. rewrite E in H1.
    split; [| exact H1]. clear -E IH2. unfold reader_step in E. rewrite <- IH2.
    destruct (rpc_ rd) as [| | sg | i sg len total | err].
    + by injection E as <-.
    + destruct (_ <=? _); [by injection E as <- |]. destruct (_ || _ || _)%bool; [by injection E as <- |].
      destruct (_ <=? _).
      * apply rbind_Ok_inv in E as (b & _ & E). destruct (zlen b =? 0); [by injection E as <- |].
        destruct (write_out f b). by injection E as <-.
      * destruct (find_seg _ _); by injection E as <-.
    + destruct f; destruct (names s !! path sg); by injection E as <-.
    + destruct (total <? len); [| by injection E as <-].
      destruct (inodes s !! i) as [[q c]|]; [| done]. destruct (read_at _ _ _ _) as [b rerr].
      destruct (write_out f b) as [w failed]. destruct (_ && _)%bool; [by injection E as <- |].
      cbv zeta in E. destruct (_ && _)%bool; by injection E as <-.
    + by injection E as <-.
Qed.

(** A reader that has room for one byte gets the rest of a range the ring
    holds, when nothing interrupts it. *)
Section uninterrupted.
Context (s : sys) (bufsz from to : Z).
Context (Hi : inv s) (Hc : closed (ring_ s) = false) (Hb : 0 < bufsz).
Context (Hfrom : start (ring_ s) <= from) (Hle : from <= to) (Hto : to <= received (ring_ s)).

Definition behind (rd : reader) : Z :=
  let d := to - rfrom rd in
  match rpc_ rd with
  | RInit => 4 * d + 3
  | RTop => 4 * d + 2
  | ROpen _ => 4 * d + 1
  | RFile _ _ _ total => 4 * (d - total) + (if 0 <? total then 3 else 0)
  | RDone _ => 0
  end.

Definition on_course (rd : reader) : Prop :=
  rto rd = to /\ from <= rfrom rd <= to /\ rd_ok s from rd /\
  match rpc_ rd with
  | RInit | RTop => True
  | ROpen sg => sg ∈ segs (ring_ s)
  | RFile i sg len _ =>
      0 < len /\ exists c, inodes s !! i = Some (first sg, c) /\ rfrom rd + len <= first sg + zlen c
  | RDone err => err = None
  end.

Lemma find_seg_held x :
  start (ring_ s) <= x < flushed (ring_ s) -> exists sg, find_seg x (segs (ring_ s)) = Some sg.
Proof.
  intros Hx. pose proof (op_chain _ _ (inv_open s Hi Hc)) as Hch.
  revert Hx Hch. generalize (start (ring_ s)) (flushed (ring_ s)). intros a b Hx Hch.
  assert (exists sg, sg ∈ filter (fun s => first s <= x < first s + size s) (segs (ring_ s))) as [sg Hsg].
  { revert a Hx Hch. induction (segs (ring_ s)) as [| s0 l IH]; intros a Hx Hch; simpl in Hch; [lia |].
    destruct Hch as (Hf & _ & Hs & Hch). destruct (decide (x < first s0 + size s0)).
    - exists s0. apply list_elem_of_filter. split; [lia | by left].
    - destruct (IH (a + size s0)) as [sg Hsg]; [lia | done |]. exists sg.
      apply list_elem_of_filter in Hsg as [H1 H2]. apply list_elem_of_filter. split; [done | by right]. }
  unfold find_seg. destruct (filter _ _) as [| sg0 l]; [by apply elem_of_nil in Hsg |]. by exists sg0.
Qed.

Lemma on_course_step rd :
  on_course rd -> 0 < behind rd ->
  exists rd', reader_step s bufsz NoFault rd = Ok rd' /\ on_course rd' /\ 0 <= behind rd' < behind rd.
Proof.
  intros (Ht & Hr & Hrd & Hpc) Hpos.
  pose proof (reader_step_ok s bufsz NoFault from rd Hi ltac:(lia) Hrd) as Hok.
  destruct (inv_open s Hi Hc) as [[P0 P1] P2 P3 P4 P5 P6]. pose proof (inv_received s Hi) as Hrc.
  destruct (inv_disk s Hi) as [D1 D2 D3 D4 D5].
  unfold reader_step in Hok |- *. unfold rd_ok in Hrd. unfold behind in Hpos |- *. unfold on_course.
  destruct (rpc_ rd) as [| | sg | i sg len total | err] eqn:Epc.
  - rewrite Hc in Hok |- *. eexists. split; [done |]. simpl. split; [| lia].
    exact (conj Ht (conj Hr (conj Hok I))).
  - destruct (Z.leb_spec (rto rd) (rfrom rd)) as [Hd | Hd].
    { eexists. split; [done |]. simpl in *. split; [| lia]. exact (conj Ht (conj Hr (conj Hok eq_refl))). }
    rewrite Hc in Hok |- *.
    replace (false || (rfrom rd <? start (ring_ s)) || (received (ring_ s) <=? rfrom rd))%bool
      with false in Hok |- * by (rewrite Ht in *; lia).
    destruct (Z.leb_spec (flushed (ring_ s)) (rfrom rd)) as [Hmem | Hdisk].
    + rewrite copyPending_spec in Hok |- * by lia. cbn [rbind] in Hok |- *.
      set (b := take _ _) in *.
      assert (1 <= zlen b <= to - rfrom rd) as Hbl.
      { subst b. rewrite zlen_take, P2, !zlen_drop, Ht. lia. }
      replace (zlen b =? 0) with false in Hok |- * by lia. cbn [write_out] in Hok |- *.
      eexists. split; [done |]. cbn [rpc_ rfrom rto]. split; [| lia]. simpl in Hok.
      split; [done |]. split; [lia |]. by split.
    + destruct (find_seg_held (rfrom rd) ltac:(lia)) as [sg Hf]. rewrite Hf in Hok |- *.
      eexists. split; [done |]. simpl in *. split; [| lia]. split; [done |]. split; [done |]. split; [done |].
      apply find_seg_Some in Hf as [Hin _]. exact Hin.
  - destruct (D3 sg Hpc) as (i & c & Hn & Hc' & Hp & Hs). rewrite Hn in Hok |- *.
    eexists. split; [done |]. destruct Hrd as (_ & _ & H1 & H2 & H3). cbn [rpc_ set_rpc rfrom rto].
    split; [| simpl; lia]. split; [done |]. split; [done |]. split; [exact Hok |].
    split; [lia |]. exists c. rewrite <- Hp. split; [done | lia].
  - destruct Hrd as (Hw & H1 & H2 & H3 & _). destruct Hpc as (Hlen & c & Hc' & Hcl).
    destruct (Z.ltb_spec total len) as [Hlt | Hge].
    + rewrite Hc' in Hok |- *. unfold read_at in Hok |- *. cbn [write_out] in Hok |- *.
      set (b := take _ _) in *.
      assert (zlen b = Z.min bufsz (len - total)) as Hbl.
      { subst b. rewrite zlen_take, zlen_drop. lia. }
      replace ((0 <? zlen b) && false)%bool with false in Hok |- * by lia. cbv zeta in Hok |- *.
      replace ((zlen b <? Z.min bufsz (len - total)) && (total + zlen b <? len))%bool
        with false in Hok |- * by lia.
      eexists. split; [done |]. cbn [rpc_ rfrom rto]. split.
      * split; [done |]. split; [done |]. split; [exact Hok |]. split; [done |]. by exists c.
      * replace (0 <? total + zlen b) with true by lia. destruct (0 <? total) eqn:E; lia.
    + eexists. split; [done |]. cbn [rpc_ rfrom rto]. split.
      * split; [done |]. split; [lia |]. by split.
      * replace (0 <? total) with true in Hpos by lia. replace (0 <? total) with true by lia. lia.
  - lia.
Qed.

Lemma on_course_run n rd :
  on_course rd -> behind rd <= Z.of_nat n ->
  exists rd', copy_steps n s bufsz rd = Ok rd' /\ on_course rd' /\ rpc_ rd' = RDone None.
Proof.
  revert rd. induction n as [| n IH]; intros rd Hon Hn.
  - destruct (decide (0 < behind rd)) as [| Hz]; [lia |].
    destruct Hon as (Ht & Hr & Hrd & Hpc). unfold behind in *. unfold rd_ok in Hrd.
    destruct (rpc_ rd) as [| | sg | i sg len total | err] eqn:Epc; try lia.
    + destruct (0 <? total) eqn:E; lia.
    + exists rd. simpl. rewrite Epc. split; [done |]. split; [| by rewrite Hpc].
      unfold on_course, rd_ok. rewrite Epc. exact (conj Ht (conj Hr (conj Hrd Hpc))).
  - destruct (decide (0 < behind rd)) as [Hp | Hz].
    + destruct (on_course_step rd Hon Hp) as (rd1 & E & Hon1 & Hlt).
      destruct (IH rd1 Hon1 ltac:(lia)) as (rd' & E' & H). exists rd'. split; [| done].
      cbn [copy_steps]. rewrite E. cbn [rbind]. rewrite E'.
      unfold behind in Hp. destruct (rpc_ rd); done || lia.
    + pose proof Hon as (Ht & Hr & Hrd & Hpc). unfold behind in Hz. unfold rd_ok in Hrd.
      destruct (rpc_ rd) as [| | sg | i sg len total | err] eqn:Epc; try lia.
      * destruct (0 <? total) eqn:E; lia.
      * exists rd. simpl. rewrite Epc. split; [done |]. split; [done | by rewrite Hpc].
Qed.
End uninterrupted.

(** ** What the ring promises *)

(** The ring neither panics nor loops: whatever the tuner, the disk, the
    settings and the other readers do, in any order, every critical section of
    the ring ends, and no index of its files or pending chunks is out of range
    (the last file of [flushOnce], the batch cut off the pending chunks). *)
Theorem ring_never_panics (sp : Z) (s : sys) (e : event) (Hs : reachable sp s) :
  exists s', step s e = Ok s'.
Proof.
  apply reachable_inv in Hs. pose proof (step_inv s e Hs) as H.
  destruct (step s e) as [s' | |]; [by exists s' | done | done].
Qed.

(** C1. A reader writes exactly the bytes of the multiplex: at every moment of
    any interleaving with the tuner, the flusher, resets, removed files, short
    reads and failing writers, what it has written is the stream from its first
    position on, with no byte missing, repeated, or of another file; when it
    returns without an error it wrote the whole range; and it never panics. *)
Theorem reader_exact (sp bufsz from to : Z) (s : sys) (rd : reader) (Hb : 0 <= bufsz)
    (Hr : reading sp bufsz from to s rd) :
  rout rd = sub (stream s) from (zlen (rout rd)) /\
  zlen (rout rd) <= Z.max 0 (to - from) /\
  (rpc_ rd = RDone None -> rout rd = sub (stream s) from (to - from)) /\
  (forall f, exists rd', reader_step s bufsz f rd = Ok rd').
Proof.
  destruct (reading_ok sp bufsz from to s rd Hb Hr) as (Hi & Ht & Hok).
  assert (exists at_, wrote s from to at_ (rout rd) /\ (rpc_ rd = RDone None -> to <= at_)) as (at_ & Hw & Hd).
  { unfold rd_ok in Hok. rewrite Ht in Hok. destruct (rpc_ rd); try (by exists (rfrom rd)).
    - exists (rfrom rd). by split; [apply Hok |].
    - exists (rfrom rd + total). by split; [apply Hok |].
    - exists (rfrom rd). split; [apply Hok |]. intros [= ->]. by apply Hok. }
  destruct Hw as (H1 & H2 & H3). pose proof (zlen_nonneg (rout rd)). split; [exact H1 |].
  assert (zlen (rout rd) <= Z.max 0 (to - from)) as Hlen.
  { destruct (rout rd) as [| x l]; [unfold zlen; simpl; lia |]. destruct H3 as (? & ? & ?); [done | lia]. }
  split; [exact Hlen |]. split.
  - intros Hpc. specialize (Hd Hpc). destruct (Z.le_gt_cases (to - from) 0) as [Hz | Hz].
    + replace (zlen (rout rd)) with 0 in H1 by lia. rewrite H1, sub_0. unfold sub.
      by replace (Z.to_nat (to - from)) with 0%nat by lia.
    + replace (to - from) with (zlen (rout rd)) by lia. exact H1.
  - intros f. pose proof (reader_step_ok s bufsz f from rd Hi Hb Hok) as H0.
    destruct (reader_step s bufsz f rd) as [rd' | |]; [by exists rd' | done | done].
Qed.

(** C19. What the ring says it holds can be read: in every reachable state of an
    open ring, a range between its first held position and the last byte
    received, wherever it lies across files and memory, is copied whole and
    without an error, in at most four steps to the byte. *)
Theorem copy_whole (sp bufsz from to : Z) (s : sys) (Hs : reachable sp s)
    (Hc : closed (ring_ s) = false) (Hb : 0 < bufsz)
    (Hfrom : start (ring_ s) <= from) (Hle : from <= to) (Hto : to <= received (ring_ s)) :
  exists rd, CopyBuffer (Z.to_nat (4 * (to - from) + 3)) s bufsz from to = Ok rd /\
    rpc_ rd = RDone None /\ rout rd = sub (stream s) from (to - from).
Proof.
  apply reachable_inv in Hs.
  destruct (on_course_run s bufsz from to Hs Hc Hb Hfrom Hto
    (Z.to_nat (4 * (to - from) + 3)) (reader_start from to)) as (rd & E & (Ht & Hr & Hok & _) & Hd).
  - unfold on_course, rd_ok, wrote. simpl. rewrite zlen_nil, Z.add_0_r. split_and!; try done; lia.
  - unfold behind. simpl. lia.
  - exists rd. split; [exact E |]. split; [exact Hd |]. unfold rd_ok in Hok. rewrite Hd in Hok.
    destruct Hok as [(H1 & H2 & H3) H4]. specialize (H4 eq_refl).
    assert (zlen (rout rd) = to - from) as <- by lia. exact H1.
Qed.

(** [PendingFrom] answers with exactly the bytes from the position asked
    for to the newest one, and refuses only a closed ring or a position that is
    not wholly in memory. *)
Theorem PendingFrom_exact (sp pos : Z) (s : sys) (Hs : reachable sp s) :
  PendingFrom (ring_ s) pos =
    Ok (if (closed (ring_ s) || (pos <? flushed (ring_ s)) || (received (ring_ s) <? pos))%bool
        then None else Some (sub (stream s) pos (zlen (stream s) - pos))).
Proof.
  apply reachable_inv in Hs. unfold PendingFrom.
  destruct (closed (ring_ s) || (pos <? flushed (ring_ s)) || (received (ring_ s) <? pos))%bool eqn:E; [done |].
  apply orb_false_elim in E as [E E3]. apply orb_false_elim in E as [E1 E2].
  apply Z.ltb_ge in E2, E3. destruct (inv_open s Hs E1) as [[P0 P1] P2 _ _ _ _].
  rewrite copyPending_spec by lia. cbn [rbind]. do 2 f_equal.
  rewrite P2, drop_drop, <- Z2Nat.inj_add by lia. unfold sub. rewrite <- (inv_received s Hs).
  do 2 f_equal. lia.
Qed.

(** The ring's books balance while it is open: its positions are in order,
    the bytes between [flushed] and [received] are the ones in memory and are
    never more than [pendingCap], the files cover [start] to [flushed] end to
    end, every file is on disk under its name with the bytes it stands for and
    is not on its way out, and no byte is buffered while the ring is off. *)
Theorem ring_accounts (sp : Z) (s : sys) (Hs : reachable sp s) (Hc : closed (ring_ s) = false) :
  let r := ring_ s in
  (0 <= start r <= flushed r /\ flushed r <= received r /\ received r = zlen (stream s)) /\
  (concat (pending r) = drop (Z.to_nat (flushed r)) (stream s) /\
   queued r = zlen (concat (pending r)) /\ queued r <= pendingCap) /\
  chained (start r) (segs r) (flushed r) /\
  (forall sg, sg ∈ segs r -> ~ path sg ∈ trash s /\ exists i c,
     names s !! path sg = Some i /\ inodes s !! i = Some (path sg, c) /\
     take (Z.to_nat (size sg)) c = sub (stream s) (first sg) (size sg)) /\
  (low r = true \/ off r = true -> pending r = [] /\ segs r = [] /\ start r = received r).
Proof.
  apply reachable_inv in Hs. destruct (inv_open s Hs Hc) as [[P0 P1] P2 [P3 P3'] P4 P5 P6].
  pose proof (inv_received s Hs) as Hr. destruct (inv_disk s Hs) as [D1 D2 D3 D4 D5].
  cbv zeta. split; [lia |]. split; [| split; [done |]].
  - split; [done |]. split; [| done]. rewrite P2, zlen_drop, P3. lia.
  - split.
    + intros sg Hsg. destruct (D3 sg Hsg) as (i & c & Hn & Hi & Hp & Hsz). split.
      { intros Ht. by apply (D4 (path sg) sg). }
      exists i, c. split_and!; [done | done |]. destruct (D1 _ _ _ Hi) as (_ & _ & Q & _).
      rewrite Q, sub_prefix by lia. by rewrite Hp.
    + intros Ho. destruct (P5 Ho) as [E1 E2]. rewrite E2 in P4. simpl in P4. rewrite E1 in P2.
      apply (f_equal zlen) in P2. rewrite zlen_drop in P2. simpl in P2. change (zlen (@nil Z)) with 0 in P2.
      split_and!; [done | done | lia].
Qed.

(** A file's name is never used twice: when the flusher is about to create
    a file, nothing on disk, in the ring or on its way to [os.Remove] has that
    name, so a late removal never takes a live file and a reader that opens a
    name never gets another file's bytes. *)
Theorem names_never_reused (sp : Z) (s : sys) (g f now : Z) (batch : list (list Z))
    (Hs : reachable sp s) (Hpc : pc s = FCreating g batch f now) :
  names s !! f = None /\ ~ f ∈ trash s /\ Forall (fun sg => path sg < f) (segs (ring_ s)).
Proof.
  apply reachable_inv in Hs. pose proof (inv_pc s Hs) as H. unfold pc_ok in H. rewrite Hpc in H.
  destruct H as [_ [B1 B2 B3]]. split_and!.
  - destruct (names s !! f) as [i|] eqn:E; [| done]. specialize (B3 f i E). lia.
  - intros Ht. specialize (B2 f Ht). lia.
  - by apply list.Forall_forall.
Qed.

(** [Position] gives a place that can be read from: a mark not before the
    time asked for, the first such, at a position the ring still holds and has
    received past. *)
Theorem Position_held (sp t pos at_time : Z) (s : sys) (Hs : reachable sp s)
    (Hp : Position (ring_ s) t = Some (pos, at_time)) :
  t <= at_time /\ start (ring_ s) <= pos < received (ring_ s) /\
  exists before after, marks (ring_ s) = before ++ mkMark at_time pos :: after /\
    Forall (fun m => at_ m < t) before.
Proof.
  apply reachable_inv in Hs. unfold Position in Hp. destruct (closed (ring_ s)) eqn:Hc; [done |].
  destruct (inv_open s Hs Hc) as [_ _ _ _ _ [P6 _]].
  revert Hp P6. induction (marks (ring_ s)) as [| m l IH]; intros Hp P6; [done |].
  apply Forall_cons in P6 as [Hm P6]. cbn [first_mark option_map] in Hp.
  destruct ((mpos m <? start (ring_ s)) || (at_ m <? t))%bool eqn:E; cbn [negb] in Hp.
  - destruct (IH Hp P6) as (H1 & H2 & before & after & -> & H3). split; [done |]. split; [done |].
    exists (m :: before), after. split; [done |]. apply Forall_cons. split; [lia | done].
  - cbn [option_map] in Hp. injection Hp as <- <-. split; [lia |]. split; [lia |]. exists [], l. split; [by destruct m | constructor].
Qed.

(** Under its floor the disk gets its room back: after a room check that
    asked for [need] bytes the ring holds at least that many fewer on disk, or
    is empty and stops writing until there is room. *)
Theorem checkRoom_gives (sp need : Z) (s : sys) (Hs : reachable sp s)
    (Hc : closed (ring_ s) = false) (Hlow : low (ring_ s) = false) (Hn : 0 < need) :
  exists r' drop, checkRoom (ring_ s) (- need) = Ok (r', drop) /\
    (need <= start r' - start (ring_ s) /\ flushed r' = flushed (ring_ s) /\ low r' = false \/
     low r' = true /\ segs r' = [] /\ pending r' = [] /\ start r' = received r').
Proof.
  apply reachable_inv in Hs. unfold checkRoom. rewrite Hlow.
  replace ((- need <? 0) && negb false)%bool with true by lia. rewrite Z.opp_involutive.
  assert (forall n nd r d, chained (start r) (segs r) (flushed r) -> (length (segs r) <= n)%nat ->
    exists nd' r' d', give_room n nd r d = Ok (nd', r', d') /\ nd - nd' = start r' - start r /\
      flushed r' = flushed r /\ low r' = low r /\ received r' = received r) as Hgive.
  { induction n as [| n IH]; intros nd r d Hch Hl.
    - destruct (segs r) eqn:E; [| simpl in Hl; lia]. simpl. rewrite E. eexists _, _, _. split; [done | by split; [lia |]].
    - destruct (segs r) as [| s0 [| s1 l]] eqn:E; cbn [give_room]; rewrite E;
        [eexists _, _, _; split; [done | by split; [lia |]] | eexists _, _, _; split; [done | by split; [lia |]] |].
      destruct (0 <? nd); [| eexists _, _, _; split; [done | by split; [lia |]]].
      unfold dropOldestLocked. rewrite E. cbn [rbind].
      destruct Hch as (C1 & C2 & C3 & C4). simpl in C4.
      destruct (IH (nd - size s0) (set_segs r (first s1) (s1 :: l)) (d ++ [path s0])) as (nd' & r' & d' & E' & H1 & H2).
      + simpl. destruct C4 as (C4 & C5 & C6 & C7). rewrite C4. split; [done |]. split; [by rewrite C5 |]. by split.
      + simpl in *. lia.
      + exists nd', r', d'. split; [done |]. simpl in H1, H2. split; [lia | done]. }
  destruct (Hgive (length (segs (ring_ s))) need (ring_ s) []) as (nd' & r' & d' & -> & H1 & H2 & H3 & _);
    [apply (op_chain _ _ (inv_open s Hs Hc)) | done |].
  cbn [rbind]. cbv zeta. destruct (Z.ltb_spec 0 nd') as [Hnd | Hnd].
  - destruct (reset_spec (trimMarksLocked r')) as [x ->]. cbn [rbind]. eexists _, _. split; [done |]. by right.
  - eexists _, _. split; [done |]. left. simpl. split; [lia |]. split; [done |]. by rewrite H3.
Qed.

(** ** Witnesses *)

Fixpoint run (s : sys) (es : list event) : res sys :=
  match es with
  | [] => Ok s
  | e :: es => let! s := step s e in run s es
  end.

Lemma run_reachable sp s es s' : reachable sp s -> run s es = Ok s' -> reachable sp s'.
Proof.
  revert s. induction es as [| e es IH]; intros s Hs H; [by injection H as <- |].
  apply rbind_Ok_inv in H as (s1 & E & H). eapply IH; [by eapply reach_step | done].
Qed.

(** A ring with one file of three bytes, two bytes in memory and a batch of
    them on its way to a second file. *)
Definition busy_events : list event :=
  [EStart true; EWindow 3600000000000 0; EAppend 1000 [71; 1; 2]; EBegin 1000; ECreate true;
   EWrite None; EAppend 2000000000 [71; 3]; ECommit; EBegin 70000000000].
Definition busy : sys :=
  match run (init 60000000000) busy_events with Ok s => s | _ => init 0 end.

Lemma busy_reachable : reachable 60000000000 busy.
Proof. eapply (run_reachable _ _ busy_events); [apply reach_init | vm_compute; reflexivity]. Qed.

Lemma ring_never_panics_witness : exists s', step busy (ECreate false) = Ok s'.
Proof. apply (ring_never_panics 60000000000). apply busy_reachable. Defined.

Lemma reader_exact_witness :
  let rd := reader_start 1 5 in
  rout rd = sub (stream busy) 1 (zlen (rout rd)) /\
  zlen (rout rd) <= Z.max 0 (5 - 1) /\
  (rpc_ rd = RDone None -> rout rd = sub (stream busy) 1 (5 - 1)) /\
  (forall f, exists rd', reader_step busy 188 f rd = Ok rd').
Proof.
  apply (reader_exact 60000000000 188 1 5 busy); [lia |]. apply read_start. apply busy_reachable.
Defined.

Lemma copy_whole_witness :
  exists rd, CopyBuffer (Z.to_nat (4 * (5 - 1) + 3)) busy 2 1 5 = Ok rd /\
    rpc_ rd = RDone None /\ rout rd = sub (stream busy) 1 (5 - 1).
Proof.
  apply (copy_whole 60000000000 2 1 5 busy busy_reachable);
    [reflexivity | lia | vm_compute; discriminate | lia | vm_compute; discriminate].
Defined.

Lemma PendingFrom_exact_witness :
  PendingFrom (ring_ busy) 4 =
    Ok (if (closed (ring_ busy) || (4 <? flushed (ring_ busy)) || (received (ring_ busy) <? 4))%bool
        then None else Some (sub (stream busy) 4 (zlen (stream busy) - 4))).
Proof. apply (PendingFrom_exact 60000000000). apply busy_reachable. Defined.

Lemma ring_accounts_witness : 
  let r := ring_ busy in
  (0 <= start r <= flushed r /\ flushed r <= received r /\ received r = zlen (stream busy)) /\
  (concat (pending r) = drop (Z.to_nat (flushed r)) (stream busy) /\
   queued r = zlen (concat (pending r)) /\ queued r <= pendingCap) /\
  chained (start r) (segs r) (flushed r) /\
  (forall sg, sg ∈ segs r -> ~ path sg ∈ trash busy /\ exists i c,
     names busy !! path sg = Some i /\ inodes busy !! i = Some (path sg, c) /\
     take (Z.to_nat (size sg)) c = sub (stream busy) (first sg) (size sg)) /\
  (low r = true \/ off r = true -> pending r = [] /\ segs r = [] /\ start r = received r).
Proof. apply (ring_accounts 60000000000 busy busy_reachable). reflexivity. Defined.

Lemma names_never_reused_witness :
  names busy !! 3 = None /\ ~ 3 ∈ trash busy /\ Forall (fun sg => path sg < 3) (segs (ring_ busy)).
Proof.
  apply (names_never_reused 60000000000 busy 0 3 70000000000 [[71; 3]] busy_reachable). vm_compute. reflexivity.
Defined.

Lemma Position_held_witness :
  1500 <= 2000000000 /\ start (ring_ busy) <= 3 < received (ring_ busy) /\
  exists before after, marks (ring_ busy) = before ++ mkMark 2000000000 3 :: after /\
    Forall (fun m => at_ m < 1500) before.
Proof. apply (Position_held 60000000000 1500 3 2000000000 busy busy_reachable). vm_compute. reflexivity. Defined.

Lemma checkRoom_gives_witness :
  exists r' drop, checkRoom (ring_ busy) (- 100) = Ok (r', drop) /\
    (100 <= start r' - start (ring_ busy) /\ flushed r' = flushed (ring_ busy) /\ low r' = false \/
     low r' = true /\ segs r' = [] /\ pending r' = [] /\ start r' = received r').
Proof. apply (checkRoom_gives 60000000000 100 busy busy_reachable); [reflexivity | reflexivity | lia]. Defined.
