(* ===== verification/Crc.v ===== *)
(** The MPEG-2 section checksum, which the program has three times: bit by bit
    in [server/internal/psip/parse.go] and [dvbsi/section.go], by table in
    [live/programfilter.go]; and the one-program PAT that carries it. *)
From S2P Require Import Prelude Mpeg CapTs.
Local Open Scope Z_scope.
Local Open Scope go_scope.

Definition poly : Z := 0x04C11DB7.

(** One bit: [if crc&0x80000000 != 0 { crc = (crc<<1)^poly } else { crc <<= 1 }] *)
Definition crc_bit (crc : Z) : Z :=
  if negb (Z.land crc 0x80000000 =? 0) then Z.lxor (wrap32 (Z.shiftl crc 1)) poly
  else wrap32 (Z.shiftl crc 1).

Definition crc_bits (crc : Z) : Z := Nat.iter 8 crc_bit crc.

(** [psip.mpegCRC] and [dvbsi.CRC] *)
Definition mpegCRC (data : list Z) : Z :=
  fold_left (fun crc by_ => crc_bits (Z.lxor crc (Z.shiftl by_ 24))) data 0xFFFFFFFF.

Definition crcOK (section : list Z) : res bool :=
  if zlen section <? 4 then Ok false
  else
    let! d := slice section 0 (zlen section - 4) in
    let! t := slice_from section (zlen section - 4) in
    let! c := uint32 t in
    Ok (mpegCRC d =? c).

(** [live.mpegCRCTable] and [live.mpegCRC] *)
Definition mpegCRCTable : list Z := map (fun i => crc_bits (Z.shiftl (Z.of_nat i) 24)) (seq 0 256).

Fixpoint table_loop (data : list Z) (crc : Z) : res Z :=
  match data with
  | [] => Ok crc
  | b :: data =>
      let! t := idx mpegCRCTable (Z.lxor (wrap8 (Z.shiftr crc 24)) b) in
      table_loop data (Z.lxor (wrap32 (Z.shiftl crc 8)) t)
  end.
Definition table_mpegCRC (data : list Z) : res Z := table_loop data 0xFFFFFFFF.

(** [byte(crc>>24), byte(crc>>16), byte(crc>>8), byte(crc)] *)
Definition crc_bytes (crc : Z) : list Z :=
  [wrap8 (Z.shiftr crc 24); wrap8 (Z.shiftr crc 16); wrap8 (Z.shiftr crc 8); wrap8 crc].

(** [singleProgramPAT] *)
Definition pat_section (program pmtPID tsID : Z) : res (list Z) :=
  let body := [wrap8 (Z.shiftr tsID 8); wrap8 tsID; 0xc1; 0x00; 0x00;
    wrap8 (Z.shiftr program 8); wrap8 program;
    Z.lor 0xe0 (wrap8 (Z.shiftr pmtPID 8)); wrap8 pmtPID] in
  let n := zlen body + 4 in
  let sec := [0x00; Z.lor 0xb0 (wrap8 (Z.shiftr n 8)); wrap8 n] ++ body in
  let! crc := table_mpegCRC sec in
  Ok (sec ++ crc_bytes crc).

Definition singleProgramPAT (program pmtPID tsID : Z) : res (list Z) :=
  let! sec := pat_section program pmtPID tsID in
  Ok ([0x47; 0x40; 0x00; 0x10; 0x00] ++ sec ++ replicate (188 - 5 - length sec) 0xff).

(** ** The checksum is linear *)

Definition word (x : Z) : Prop := 0 <= x < 2 ^ 32.

Lemma wrap32_word x : word (wrap32 x).
Proof. apply Z.mod_pos_bound. lia. Qed.

Lemma testbit_land_top x : word x -> (Z.land x 0x80000000 =? 0) = negb (Z.testbit x 31).
Proof.
  intros Hx. destruct (Z.testbit x 31) eqn:E; simpl.
  - apply Z.eqb_neq. intros H. apply (f_equal (fun z => Z.testbit z 31)) in H.
    rewrite Z.land_spec, E in H. done.
  - apply Z.eqb_eq. apply Z.bits_inj'. intros n Hn. rewrite Z.land_spec, Z.bits_0.
    change 0x80000000 with (2 ^ 31). destruct (decide (n = 31)) as [-> | Hne]; [by rewrite E |].
    rewrite Z.pow2_bits_false by done. apply andb_false_r.
Qed.

Lemma testbit_wrap32 x n : 0 <= n -> Z.testbit (wrap32 x) n = (n <? 32) && Z.testbit x n.
Proof.
  intros Hn. unfold wrap32. destruct (Z.ltb_spec n 32).
  - by rewrite Z.mod_pow2_bits_low.
  - by rewrite Z.mod_pow2_bits_high by lia.
Qed.

Lemma word_bits x : (forall n, 32 <= n -> Z.testbit x n = false) -> 0 <= x -> word x.
Proof.
  intros Hb Hx. split; [done |].
  assert (wrap32 x = x) as <-; [| apply wrap32_word].
  apply Z.bits_inj'. intros n Hn. rewrite testbit_wrap32 by done.
  destruct (Z.ltb_spec n 32); [done |]. by rewrite Hb.
Qed.

Lemma word_testbit x n : word x -> 32 <= n -> Z.testbit x n = false.
Proof.
  intros Hx Hn. assert (wrap32 x = x) as <- by (by apply Z.mod_small).
  rewrite testbit_wrap32 by lia. by replace (n <? 32) with false by lia.
Qed.

Lemma word_lxor x y : word x -> word y -> word (Z.lxor x y).
Proof.
  intros Hx Hy. apply word_bits.
  - intros n Hn. by rewrite Z.lxor_spec, !word_testbit.
  - apply Z.lxor_nonneg. unfold word in *. lia.
Qed.

Lemma crc_bit_word x : word (crc_bit x).
Proof.
  unfold crc_bit. destruct (negb _); [| apply wrap32_word].
  apply word_lxor; [apply wrap32_word | unfold word, poly; lia].
Qed.

Lemma wrap32_lxor x y : wrap32 (Z.lxor x y) = Z.lxor (wrap32 x) (wrap32 y).
Proof.
  apply Z.bits_inj'. intros n Hn. rewrite Z.lxor_spec, !testbit_wrap32, Z.lxor_spec by done.
  by destruct (n <? 32).
Qed.

Lemma crc_bit_lxor x y :
  word x -> word y -> crc_bit (Z.lxor x y) = Z.lxor (crc_bit x) (crc_bit y).
Proof.
  intros Hx Hy. unfold crc_bit. rewrite !testbit_land_top by auto using word_lxor.
  rewrite Z.lxor_spec, Z.shiftl_lxor, wrap32_lxor, !negb_involutive.
  destruct (Z.testbit x 31), (Z.testbit y 31); simpl; bitwise_eq.
Qed.

Lemma crc_bit_inj x y : word x -> word y -> crc_bit x = crc_bit y -> x = y.
Proof.
  intros Hx Hy E.
  assert (forall z, word z -> crc_bit z = 0 -> z = 0) as Hker.
  { intros z Hz H. unfold crc_bit in H. rewrite testbit_land_top, negb_involutive in H by done.
    destruct (Z.testbit z 31) eqn:Et.
    - exfalso. apply (f_equal (fun w => Z.testbit w 0)) in H.
      rewrite Z.lxor_spec, testbit_wrap32, Z.shiftl_spec_low in H by lia. done.
    - apply Z.bits_inj'. intros n Hn. rewrite Z.bits_0.
      destruct (Z.le_gt_cases 32 n); [by apply word_testbit |].
      destruct (decide (n = 31)) as [-> |]; [done |].
      apply (f_equal (fun w => Z.testbit w (n + 1))) in H.
      rewrite testbit_wrap32, Z.bits_0, Z.shiftl_spec in H by lia.
      replace (n + 1 <? 32) with true in H by lia. by replace (n + 1 - 1) with n in H by lia. }
  assert (Z.lxor x y = 0) as H0.
  { apply Hker; [by apply word_lxor |]. by rewrite crc_bit_lxor, E, Z.lxor_nilpotent. }
  by apply Z.lxor_eq.
Qed.

Lemma crc_bits_word x : word (crc_bits x).
Proof. unfold crc_bits. simpl. apply crc_bit_word. Qed.

Lemma crc_bits_lxor x y :
  word x -> word y -> crc_bits (Z.lxor x y) = Z.lxor (crc_bits x) (crc_bits y).
Proof.
  intros Hx Hy. unfold crc_bits. simpl. rewrite !crc_bit_lxor; auto using crc_bit_word.
Qed.

Lemma crc_bits_inj x y : word x -> word y -> crc_bits x = crc_bits y -> x = y.
Proof.
  intros Hx Hy. unfold crc_bits. simpl. intros H. do 8 (apply crc_bit_inj in H; auto using crc_bit_word).
Qed.

(** Eight bits with the top byte clear only shift. *)
Lemma crc_bit_low x : 0 <= x < 2 ^ 31 -> crc_bit x = 2 * x.
Proof.
  intros Hx. unfold crc_bit. rewrite testbit_land_top by (unfold word; lia).
  assert (Z.testbit x 31 = false) as ->.
  { destruct (decide (x = 0)) as [-> | Hne]; [done |].
    apply Z.bits_above_log2; [lia |]. apply Z.log2_lt_pow2; lia. }
  simpl. rewrite Z.shiftl_mul_pow2 by lia. unfold wrap32. rewrite Z.mod_small by lia. lia.
Qed.

Lemma crc_bits_low x : 0 <= x < 2 ^ 24 -> crc_bits x = x * 2 ^ 8.
Proof.
  intros Hx. unfold crc_bits. simpl Nat.iter.
  assert (forall k, 0 <= k < 8 -> crc_bit (2 ^ k * x) = 2 ^ (k + 1) * x) as H.
  { intros k Hk. assert (2 ^ k <= 2 ^ 7) by (apply Z.pow_le_mono_r; lia).
    rewrite crc_bit_low by nia. rewrite Z.pow_add_r by lia. lia. }
  rewrite <- (Z.mul_1_l x) at 1. change 1 with (2 ^ 0). rewrite !H by lia. simpl. lia.
Qed.

(** The top byte of the state and the rest. *)
Lemma word_split x : word x -> x = Z.lxor (Z.shiftl (Z.shiftr x 24) 24) (x mod 2 ^ 24).
Proof.
  intros Hx. rewrite Z.lxor_lor.
  - rewrite lor_shiftl_add by (try lia; apply Z.mod_pos_bound; lia).
    rewrite Z.shiftr_div_pow2 by lia. pose proof (Z.div_mod x (2 ^ 24) ltac:(lia)). lia.
  - apply Z.bits_inj'. intros n Hn. rewrite Z.land_spec, Z.bits_0.
    destruct (Z.ltb_spec n 24).
    + by rewrite Z.shiftl_spec_low.
    + rewrite Z.mod_pow2_bits_high by lia. apply andb_false_r.
Qed.

Lemma byte_shiftl_word v : byte_ok v -> word (Z.shiftl v 24).
Proof. unfold byte_ok, word. intros Hv. rewrite Z.shiftl_mul_pow2 by lia. lia. Qed.

(** A byte step, by table. *)
Lemma crc_step_table crc b :
  word crc -> byte_ok b ->
  exists i, 0 <= i < 256 /\ i = Z.lxor (wrap8 (Z.shiftr crc 24)) b /\
    crc_bits (Z.lxor crc (Z.shiftl b 24)) =
    Z.lxor (wrap32 (Z.shiftl crc 8)) (crc_bits (Z.shiftl i 24)).
Proof.
  intros Hc Hb. unfold word in Hc.
  assert (byte_ok (Z.shiftr crc 24)) as Ht.
  { unfold byte_ok. rewrite Z.shiftr_div_pow2 by lia.
    split; [apply Z.div_pos; lia | apply Z.div_lt_upper_bound; lia]. }
  assert (wrap8 (Z.shiftr crc 24) = Z.shiftr crc 24) as -> by (by apply Z.mod_small).
  set (i := Z.lxor (Z.shiftr crc 24) b).
  assert (byte_ok i) as Hi.
  { unfold byte_ok, i. split; [apply Z.lxor_nonneg; unfold byte_ok in *; lia |].
    assert (wrap8 (Z.lxor (Z.shiftr crc 24) b) = Z.lxor (Z.shiftr crc 24) b) as <-; [| apply wrap8_ok].
    apply Z.bits_inj'. intros n Hn. unfold wrap8. destruct (Z.ltb_spec n 8).
    - by rewrite Z.mod_pow2_bits_low.
    - rewrite Z.mod_pow2_bits_high by lia. rewrite Z.lxor_spec.
      rewrite <- (Z.mod_small (Z.shiftr crc 24) (2 ^ 8) Ht), <- (Z.mod_small b (2 ^ 8) Hb).
      by rewrite !Z.mod_pow2_bits_high by lia. }
  exists i. split; [exact Hi |]. split; [done |].
  assert (0 <= crc mod 2 ^ 24 < 2 ^ 24) as Hlow by (apply Z.mod_pos_bound; lia).
  rewrite (word_split crc Hc) at 1.
  replace (Z.lxor (Z.lxor (Z.shiftl (Z.shiftr crc 24) 24) (crc mod 2 ^ 24)) (Z.shiftl b 24))
    with (Z.lxor (crc mod 2 ^ 24) (Z.shiftl i 24)).
  2: { unfold i. rewrite Z.shiftl_lxor. bitwise_eq. }
  rewrite crc_bits_lxor; [| unfold word; lia | by apply byte_shiftl_word].
  f_equal. rewrite crc_bits_low by done. unfold wrap32. rewrite Z.shiftl_mul_pow2 by lia.
  replace (2 ^ 32) with (2 ^ 24 * 2 ^ 8) by lia. by rewrite Z.mul_mod_distr_r by lia.
Qed.

Lemma table_lookup i : 0 <= i < 256 -> idx mpegCRCTable i = Ok (crc_bits (Z.shiftl i 24)).
Proof.
  intros Hi. apply idx_Ok; [lia |]. unfold mpegCRCTable. change (@map nat Z) with (@fmap list _ nat Z).
  rewrite list_lookup_fmap, lookup_seq_lt by lia. simpl. by rewrite Z2Nat.id by lia.
Qed.

Lemma table_loop_spec data crc :
  word crc -> bytes_ok data ->
  table_loop data crc = Ok (fold_left (fun crc b => crc_bits (Z.lxor crc (Z.shiftl b 24))) data crc).
Proof.
  revert crc. induction data as [| b data IH]; intros crc Hc Hd; [done |].
  apply Forall_cons in Hd as [Hb Hd]. cbn [table_loop fold_left].
  destruct (crc_step_table crc b Hc Hb) as (i & Hi & -> & E).
  rewrite table_lookup by done. cbn [rbind]. rewrite E, <- IH; [done | | done].
  apply word_lxor; [apply wrap32_word | apply crc_bits_word].
Qed.

Lemma table_mpegCRC_spec data : bytes_ok data -> table_mpegCRC data = Ok (mpegCRC data).
Proof. apply table_loop_spec. unfold word. lia. Qed.

(** The three checksums are one: the table-driven CRC of the live filter
    and the bit-by-bit CRC of the guide readers give the same word for every
    section, and the table look-up never leaves the table. *)
Theorem crc_table_agrees (data : list Z) (Hd : bytes_ok data) :
  table_mpegCRC data = Ok (mpegCRC data).
Proof. by apply table_mpegCRC_spec. Qed.

Lemma crc_table_agrees_witness : table_mpegCRC [0x00; 0xb0; 0x0d] = Ok (mpegCRC [0x00; 0xb0; 0x0d]).
Proof. apply crc_table_agrees. bytes_dec. Defined.

Lemma fold_crc_word data crc :
  word crc -> word (fold_left (fun crc b => crc_bits (Z.lxor crc (Z.shiftl b 24))) data crc).
Proof.
  revert crc. induction data as [| b data IH]; intros crc Hc; [done |]. apply IH, crc_bits_word.
Qed.

Lemma mpegCRC_word data : word (mpegCRC data).
Proof. apply fold_crc_word. unfold word. lia. Qed.

Lemma crc_step_inj x y b : word x -> word y -> byte_ok b ->
  crc_bits (Z.lxor x (Z.shiftl b 24)) = crc_bits (Z.lxor y (Z.shiftl b 24)) -> x = y.
Proof.
  intros Hx Hy Hb E. apply crc_bits_inj in E; [| by apply word_lxor, byte_shiftl_word..].
  apply (f_equal (fun z => Z.lxor z (Z.shiftl b 24))) in E.
  by rewrite !Z.lxor_assoc, Z.lxor_nilpotent, !Z.lxor_0_r in E.
Qed.

Lemma fold_crc_inj data x y :
  bytes_ok data -> word x -> word y ->
  fold_left (fun crc b => crc_bits (Z.lxor crc (Z.shiftl b 24))) data x =
  fold_left (fun crc b => crc_bits (Z.lxor crc (Z.shiftl b 24))) data y -> x = y.
Proof.
  revert x y. induction data as [| b data IH]; intros x y Hd Hx Hy E; [done |].
  apply Forall_cons in Hd as [Hb Hd]. cbn [fold_left] in E.
  apply IH in E; [| done | apply crc_bits_word | apply crc_bits_word].
  by eapply crc_step_inj.
Qed.

Lemma mpegCRC_byte a b c r :
  byte_ok b -> byte_ok c -> bytes_ok r -> mpegCRC (a ++ b :: r) = mpegCRC (a ++ c :: r) -> b = c.
Proof.
  intros Hb Hc Hr. unfold mpegCRC. rewrite !fold_left_app. cbn [fold_left]. intros E.
  set (x := fold_left _ a _) in E.
  assert (word x) as Hx by (apply fold_crc_word; unfold word; lia).
  apply fold_crc_inj in E; [| done | apply crc_bits_word | apply crc_bits_word].
  apply crc_bits_inj in E; [| by apply word_lxor, byte_shiftl_word..].
  apply (f_equal (fun z => Z.lxor x z)) in E.
  rewrite <- !Z.lxor_assoc, Z.lxor_nilpotent, !Z.lxor_0_l in E.
  rewrite !Z.shiftl_mul_pow2 in E by lia. lia.
Qed.

Lemma crcOK_spec d t : zlen t = 4 -> crcOK (d ++ t) = (let! c := uint32 t in Ok (mpegCRC d =? c)).
Proof.
  intros Ht. pose proof (zlen_nonneg d). unfold crcOK. rewrite zlen_app, Ht.
  replace (zlen d + 4 <? 4) with false by lia. replace (zlen d + 4 - 4) with (zlen d) by lia.
  rewrite slice_Ok by (rewrite ?zlen_app; lia). cbn [rbind].
  rewrite slice_from_Ok by (rewrite zlen_app; lia). cbn [rbind].
  rewrite drop_0, Z.sub_0_r, zlen_nat, take_app_length, drop_app_length. done.
Qed.

Lemma crc_bytes_uint32 w : word w -> uint32 (crc_bytes w) = Ok w.
Proof.
  intros Hw. unfold word in Hw.
  change (uint32 (crc_bytes w)) with (Ok (be16 (be16 (be16 (wrap8 (Z.shiftr w 24)) (wrap8 (Z.shiftr w 16)))
    (wrap8 (Z.shiftr w 8))) (wrap8 w))).
  f_equal. unfold wrap8.
  rewrite !be16_eq by (apply Z.mod_pos_bound; lia).
  rewrite !Z.shiftr_div_pow2 by lia. change (2 ^ 8) with 256.
  assert (w / 2 ^ 24 mod 256 = w / 2 ^ 24) as -> by (apply Z.mod_small; split; [apply Z.div_pos; lia | apply Z.div_lt_upper_bound; lia]).
  pose proof (Z.div_mod w 256 ltac:(lia)). pose proof (Z.div_mod (w / 256) 256 ltac:(lia)).
  pose proof (Z.div_mod (w / 2 ^ 16) 256 ltac:(lia)).
  assert (w / 2 ^ 16 = w / 256 / 256) by (by rewrite Z.div_div by lia).
  assert (w / 2 ^ 24 = w / 2 ^ 16 / 256) by (by rewrite Z.div_div by lia). lia.
Qed.

(** A byte of a split list is in one part or the other. *)
Lemma app_cons_split (a r d t : list Z) (b : Z) :
  a ++ b :: r = d ++ t ->
  (exists r', d = a ++ b :: r' /\ r = r' ++ t) \/ (exists t1, a = d ++ t1 /\ t = t1 ++ b :: r).
Proof.
  intros [[k [-> ->]] | [k [-> E]]]%app_eq_inv; [right; by exists k |].
  destruct k as [| x k]; simpl in E.
  - right. exists []. by rewrite !app_nil_r.
  - injection E as <- ->. left. by exists k.
Qed.

(** A word is read from its four bytes one to one. *)
Lemma uint32_byte t r b c w :
  bytes_ok (t ++ b :: r) -> byte_ok c -> zlen (t ++ b :: r) = 4 ->
  uint32 (t ++ b :: r) = Ok w -> uint32 (t ++ c :: r) = Ok w -> c = b.
Proof.
  intros Ht Hc Hl Hb Hw. apply Forall_app in Ht as [Ht Hr].
  rewrite zlen_app in Hl. pose proof (zlen_nonneg t).
  do 4 (destruct t as [| ? t]; [
    do 4 (try destruct r as [| ? r]); try (exfalso; unfold zlen in Hl; simpl in Hl; lia);
    repeat match goal with H : Forall byte_ok (_ :: _) |- _ => apply Forall_cons in H as [? H] end;
    injection Hb as Hb; injection Hw as Hw; rewrite !be16_eq in * by done; unfold byte_ok in *; lia |]).
  exfalso. rewrite !zlen_cons in Hl. pose proof (zlen_nonneg r). pose proof (zlen_nonneg t). lia.
Qed.

Lemma uint32_reads l : bytes_ok l -> zlen l = 4 -> exists w, uint32 l = Ok w.
Proof.
  intros Hb Hl. pose proof (returns_uint32 l (fun _ => True) Hb) as H.
  destruct (uint32 l) as [w | |]; [by exists w | |]; exfalso; apply H; done || lia.
Qed.

(** A section whose checksum holds is a body and the four bytes of its sum. *)
Lemma crcOK_true_split l :
  crcOK l = Ok true ->
  exists d t, l = d ++ t /\ zlen t = 4 /\ uint32 t = Ok (mpegCRC d).
Proof.
  intros Hok. assert (exists d t, l = d ++ t /\ zlen t = 4) as (d & t & -> & Ht).
  { unfold crcOK in Hok. destruct (zlen l <? 4) eqn:El; [done |].
    exists (take (length l - 4) l), (drop (length l - 4) l).
    split; [by rewrite take_drop |]. rewrite zlen_drop. unfold zlen in *. lia. }
  exists d, t. split; [done |]. split; [done |]. rewrite crcOK_spec in Hok by done.
  destruct (uint32 t) as [w | |]; cbn [rbind] in Hok; [| done | done].
  injection Hok as Hok. apply Z.eqb_eq in Hok. by rewrite Hok.
Qed.

(** One corrupted byte never passes: a section whose checksum holds fails
    it as soon as any single byte of it, body or checksum, is another. *)
Theorem crc_detects_byte (a r : list Z) (b c : Z)
    (Ha : bytes_ok (a ++ b :: r)) (Hc : byte_ok c) (Hbc : b <> c)
    (Hok : crcOK (a ++ b :: r) = Ok true) :
  crcOK (a ++ c :: r) = Ok false.
Proof.
  apply crcOK_true_split in Hok as (d & t & E & Ht & Et). rewrite E in Ha.
  apply app_cons_split in E as [(r' & -> & ->) | (t1 & -> & ->)].
  - (* in the body *)
    apply Forall_app in Ha as [Ha _]. apply Forall_app in Ha as [_ Ha]. apply Forall_cons in Ha as [Hb Hr].
    replace (a ++ c :: r' ++ t) with ((a ++ c :: r') ++ t) by (by rewrite <- app_assoc).
    rewrite crcOK_spec, Et by done. cbn [rbind]. f_equal. apply Z.eqb_neq. intros H.
    by apply Hbc, (mpegCRC_byte a b c r').
  - (* in the checksum *)
    apply Forall_app in Ha as [_ Ha].
    assert (zlen (t1 ++ c :: r) = 4) as Hl by (by rewrite zlen_app, zlen_cons in *).
    assert (bytes_ok (t1 ++ c :: r)) as Hbt.
    { apply Forall_app in Ha as [? Ha]. apply Forall_cons in Ha as [_ Ha].
      apply Forall_app. split; [done |]. by apply Forall_cons. }
    destruct (uint32_reads _ Hbt Hl) as [w Ew].
    rewrite <- app_assoc, crcOK_spec, Ew by done. cbn [rbind]. f_equal. apply Z.eqb_neq. intros H.
    apply Hbc. symmetry. apply (uint32_byte t1 r b c w); [done | by apply Forall_app in Hbt as [_ [? _]%Forall_cons] | done | by rewrite Et, H | done].
Qed.

Lemma crc_detects_byte_witness : 
  crcOK ([0x00; 0xb0] ++ 0x0d :: crc_bytes (mpegCRC [0x00; 0xb0; 0x0d])) = Ok true /\
  crcOK ([0x00; 0xb0] ++ 0x0c :: crc_bytes (mpegCRC [0x00; 0xb0; 0x0d])) = Ok false.
Proof.
  split; [vm_compute; reflexivity |].
  apply (crc_detects_byte [0x00; 0xb0] _ 0x0d 0x0c);
    [bytes_dec | unfold byte_ok; lia | lia | vm_compute; reflexivity].
Defined.

Lemma crcOK_sealed d : crcOK (d ++ crc_bytes (mpegCRC d)) = Ok true.
Proof.
  rewrite crcOK_spec by done. rewrite crc_bytes_uint32 by apply mpegCRC_word. cbn [rbind].
  by rewrite Z.eqb_refl.
Qed.

(** ** The one-program PAT *)

Lemma pid_bytes p : 0 <= p < 2 ^ 13 ->
  be16 (Z.land (Z.lor 0xe0 (wrap8 (Z.shiftr p 8))) 0x1f) (wrap8 p) = p.
Proof.
  intros Hp. rewrite be16_eq by apply wrap8_ok.
  assert (Z.land (Z.lor 0xe0 (wrap8 (Z.shiftr p 8))) 0x1f = p / 256) as ->.
  { assert (0 <= p / 256 < 32) as Hq by (split; [apply Z.div_pos; lia | apply Z.div_lt_upper_bound; lia]).
    rewrite Z.shiftr_div_pow2 by lia. change (2 ^ 8) with 256. unfold wrap8.
    rewrite (Z.mod_small (p / 256)) by lia. change 0x1f with (Z.pred (2 ^ 5)).
    rewrite Z.land_lor_distr_l, !land_mask by lia. change (0xe0 mod 2 ^ 5) with 0.
    rewrite Z.lor_0_l. apply Z.mod_small. lia. }
  unfold wrap8. pose proof (Z.div_mod p 256 ltac:(lia)). change (2 ^ 8) with 256. lia.
Qed.

Lemma program_bytes p : 0 <= p < 2 ^ 16 -> be16 (wrap8 (Z.shiftr p 8)) (wrap8 p) = p.
Proof.
  intros Hp. rewrite be16_eq by apply wrap8_ok. rewrite Z.shiftr_div_pow2 by lia. unfold wrap8.
  change (2 ^ 8) with 256. pose proof (Z.div_mod p 256 ltac:(lia)).
  rewrite (Z.mod_small (p / 256)) by (split; [apply Z.div_pos; lia | apply Z.div_lt_upper_bound; lia]). lia.
Qed.

Lemma pat_loop_step fuel r sec off :
  off + 4 <= zlen sec ->
  pat_loop (S fuel) r sec off =
    (let! p0 := idx sec off in let! p1 := idx sec (off + 1) in
     let prog := be16 p0 p1 in
     if ((prog =? 0) || (negb (CapTs.program r =? 0) && negb (prog =? CapTs.program r)))%bool
     then pat_loop fuel r sec (off + 4)
     else
       let! p2 := idx sec (off + 2) in let! p3 := idx sec (off + 3) in
       Ok (set_pmtPID r (be16 (Z.land p2 0x1f) p3))).
Proof. intros H. cbn [pat_loop]. by replace (off + 4 <=? zlen sec) with true by lia. Qed.

(** The section that [pat_section] builds, without its checksum. *)
Definition pat_body (program pmtPID tsID : Z) : list Z :=
  [0; 176; 13; wrap8 (Z.shiftr tsID 8); wrap8 tsID; 193; 0; 0;
   wrap8 (Z.shiftr program 8); wrap8 program; Z.lor 224 (wrap8 (Z.shiftr pmtPID 8)); wrap8 pmtPID].

Lemma pat_body_ok program pmtPID tsID : bytes_ok (pat_body program pmtPID tsID).
Proof.
  unfold pat_body, bytes_ok.
  repeat (apply Forall_cons; split; [first [apply wrap8_ok
    | apply byte_lor_ok; [unfold byte_ok; lia | apply wrap8_ok] | unfold byte_ok; lia] |]).
  constructor.
Qed.

Lemma pat_section_eq program pmtPID tsID :
  pat_section program pmtPID tsID =
    Ok (pat_body program pmtPID tsID ++ crc_bytes (mpegCRC (pat_body program pmtPID tsID))).
Proof.
  unfold pat_section. cbv zeta. change (zlen _ + 4) with 13.
  change ([0; Z.lor 176 (wrap8 (Z.shiftr 13 8)); wrap8 13] ++ _) with (pat_body program pmtPID tsID).
  by rewrite table_mpegCRC_spec by apply pat_body_ok.
Qed.

(** The caption reader takes the section out of the packet's payload. *)
Lemma pat_body_section program pmtPID tsID tail :
  4 <= zlen tail ->
  CapTs.section (0 :: pat_body program pmtPID tsID ++ tail) = Ok (Some (pat_body program pmtPID tsID)).
Proof.
  intros Ht. unfold CapTs.section. set (h := pat_body program pmtPID tsID).
  assert (zlen h = 12) as Hh by done.
  assert (zlen (0 :: h ++ tail) = 13 + zlen tail) as Hl by (rewrite zlen_cons, zlen_app; lia).
  rewrite Hl. replace (13 + zlen tail =? 0) with false by lia.
  change (idx (0 :: h ++ tail) 0) with (@Ok Z 0). cbn [rbind].
  replace (13 + zlen tail <? 0 + 1) with false by lia.
  rewrite slice_from_Ok by lia. change (drop (Z.to_nat (1 + 0)) (0 :: h ++ tail)) with (h ++ tail). cbn [rbind].
  rewrite zlen_app, Hh. replace (12 + zlen tail <? 12) with false by lia.
  change (idx (h ++ tail) 1) with (Ok 176). change (idx (h ++ tail) 2) with (Ok 13). cbn [rbind].
  change (3 + be16 (Z.land 176 15) 13 - 4) with 12.
  replace ((12 + zlen tail <? 12) || (12 <? 12))%bool with false by lia.
  rewrite slice_Ok by (rewrite ?zlen_app; lia). cbn [rbind]. reflexivity.
Qed.

(** Its PAT loop stops at the one entry. *)
Lemma pat_body_pat program pmtPID tsID tail :
  0 < program < 2 ^ 16 -> 0 <= pmtPID < 2 ^ 13 -> 4 <= zlen tail ->
  pat (NewReader program) (0 :: pat_body program pmtPID tsID ++ tail) =
    Ok (set_pmtPID (NewReader program) pmtPID).
Proof.
  intros Hprog Hpid Ht. unfold pat. rewrite pat_body_section by done. cbn [rbind].
  set (s := pat_body program pmtPID tsID).
  change (idx s 0) with (@Ok Z 0). cbn [rbind Z.eqb negb]. change (length s) with 12%nat.
  rewrite pat_loop_step by (change (zlen s) with 12; lia).
  change (idx s 8) with (Ok (wrap8 (Z.shiftr program 8))).
  change (idx s (8 + 1)) with (Ok (wrap8 program)). cbn [rbind]. rewrite program_bytes by lia. cbv zeta.
  change (CapTs.program (NewReader program)) with program.
  replace ((program =? 0) || (negb (program =? 0) && negb (program =? program)))%bool with false by lia.
  change (idx s (8 + 2)) with (Ok (Z.lor 224 (wrap8 (Z.shiftr pmtPID 8)))).
  change (idx s (8 + 3)) with (Ok (wrap8 pmtPID)). cbn [rbind]. by rewrite pid_bytes.
Qed.

(** A packet on PID 0 that starts a section hands its payload to [pat]. *)
Lemma pat_packet r body :
  packet r ([0x47; 0x40; 0; 0x10] ++ body) = pat r body.
Proof.
  unfold packet. change (idx ([71; 64; 0; 16] ++ body) 1) with (Ok 64).
  change (idx ([71; 64; 0; 16] ++ body) 2) with (Ok 0). change (idx ([71; 64; 0; 16] ++ body) 3) with (Ok 16).
  cbn [rbind]. change (packet_pid_of 64 0) with 0. cbv zeta.
  change (Z.land (Z.shiftr 16 4) 3) with 1. cbn [Z.eqb Pos.eqb orb].
  rewrite slice_from_Ok by (rewrite zlen_app; pose proof (zlen_nonneg body); change (zlen [71; 64; 0; 16]) with 4; lia).
  by change (drop (Z.to_nat 4) ([71; 64; 0; 16] ++ body)) with body.
Qed.

(** The one-program PAT says what it was made for: it is one transport
    packet whose section passes the checksum, and a caption reader for that
    program that is handed it waits for the program's map on [pmtPID]. *)
Theorem single_program_pat_reads_back (program pmtPID tsID : Z)
    (Hprog : 0 < program < 2 ^ 16) (Hpid : 0 <= pmtPID < 2 ^ 13) (Hts : 0 <= tsID < 2 ^ 16) :
  exists sec pkt, pat_section program pmtPID tsID = Ok sec /\ crcOK sec = Ok true /\
    singleProgramPAT program pmtPID tsID = Ok pkt /\ zlen pkt = 188 /\
    packet (NewReader program) pkt = Ok (set_pmtPID (NewReader program) pmtPID).
Proof.
  unfold singleProgramPAT. rewrite pat_section_eq. cbn [rbind].
  eexists _, _. split; [reflexivity |]. split; [apply crcOK_sealed |]. split; [reflexivity |].
  set (crc := mpegCRC _). split; [reflexivity |].
  match goal with |- packet _ ?pkt = _ => change pkt with ([0x47; 0x40; 0; 0x10] ++
    (0 :: pat_body program pmtPID tsID ++ crc_bytes crc ++ replicate 167 255)) end.
  rewrite pat_packet. apply pat_body_pat; [done | done |].
  rewrite zlen_app. pose proof (zlen_nonneg (replicate 167 255)). by change (zlen (crc_bytes crc)) with 4.
Qed.

Lemma single_program_pat_reads_back_witness :
  exists sec pkt, pat_section 3 0x31 0x0817 = Ok sec /\ crcOK sec = Ok true /\
    singleProgramPAT 3 0x31 0x0817 = Ok pkt /\ zlen pkt = 188 /\
    packet (NewReader 3) pkt = Ok (set_pmtPID (NewReader 3) 0x31).
Proof. apply single_program_pat_reads_back; lia. Defined.
