(* ===== verification/PsipText.v ===== *)
(** Text in the ATSC guide, [server/internal/psip/text.go] and [huffman.go].

    Decoded text is a list of code points (Go builds it rune by rune); a
    language code is the bytes of a Go string.  Unicode lower case and white
    space, which matter only to a language code with a byte past ASCII, are
    parameters. *)
From S2P Require Import Prelude.
Local Open Scope Z_scope.
Local Open Scope go_scope.

(** ** Huffman tables *)

Record huffCode : Type := mkCode { hprev : Z; hsym : Z; hn : Z; hbits : Z }.

(** [*huffNode], nil included. *)
Inductive huffTree : Type :=
  | Nil
  | Node (leaf : bool) (sym : Z) (d0 d1 : huffTree).

(** [hex.DecodeString] *)
Definition hex_digit (c : Z) : option Z :=
  if ((48 <=? c) && (c <=? 57))%bool then Some (c - 48)
  else if ((97 <=? c) && (c <=? 102))%bool then Some (c - 87)
  else if ((65 <=? c) && (c <=? 70))%bool then Some (c - 55)
  else None.
Fixpoint hex_decode (s : list Z) : option (list Z) :=
  match s with
  | [] => Some []
  | [_] => None
  | a :: b :: s =>
      match hex_digit a, hex_digit b, hex_decode s with
      | Some h, Some l, Some r => Some (h * 16 + l :: r)
      | _, _, _ => None
      end
  end.

(** [unpackCodes]; a table that does not unpack panics. *)
Fixpoint unpack_rows (n : nat) (raw : list Z) : res (list huffCode) :=
  match n with
  | O => Ok []
  | S n =>
      let! p0 := idx raw 0 in let! p1 := idx raw 1 in let! p2 := idx raw 2 in
      let! p3 := idx raw 3 in let! p4 := idx raw 4 in
      let! l := unpack_rows n (drop 5 raw) in
      Ok (mkCode p0 p1 p2 (be16 p3 p4) :: l)
  end.
Definition unpackCodes (s : list Z) : res (list huffCode) :=
  match hex_decode s with
  | None => Panic
  | Some raw => if negb (zlen raw mod 5 =? 0) then Panic else unpack_rows (length raw / 5) raw
  end.

(** One code into its tree: bits [k-1] down to 0 of [bits]. *)
Fixpoint insert_code (k : nat) (bits sym : Z) (t : huffTree) : huffTree :=
  match k with
  | O => match t with Nil => Node true sym Nil Nil | Node _ _ a b => Node true sym a b end
  | S i =>
      let '(leaf, s, a, b) := match t with Nil => (false, 0, Nil, Nil) | Node l s a b => (l, s, a, b) end in
      if Z.land (Z.shiftr bits (Z.of_nat i)) 1 =? 0
      then Node leaf s (insert_code i bits sym a) b
      else Node leaf s a (insert_code i bits sym b)
  end.

Definition add_code (roots : list huffTree) (e : huffCode) : list huffTree :=
  if ((127 <? hprev e) || (hn e =? 0) || (16 <? hn e))%bool then roots
  else
    match roots !! Z.to_nat (hprev e) with
    | Some t => <[Z.to_nat (hprev e) := insert_code (Z.to_nat (hn e)) (hbits e) (hsym e) t]> roots
    | None => roots
    end.
Definition buildHuffman (codes : list huffCode) : list huffTree :=
  fold_left add_code codes (replicate 128 Nil).

(** ** Reading bits *)

Definition bit (b : list Z) (i : Z) : res (option Z) :=
  if zlen b * 8 <=? i then Ok None
  else let! v := idx b (i / 8) in Ok (Some (Z.land (Z.shiftr v (7 - i mod 8)) 1)).

(** [u8]: eight bits, and the reader's place after the ones it read. *)
Fixpoint u8_loop (n : nat) (b : list Z) (i v : Z) : res (option Z * Z) :=
  match n with
  | O => Ok (Some v, i)
  | S n =>
      let! o := bit b i in
      match o with
      | None => Ok (None, i)
      | Some x => u8_loop n b (i + 1) (Z.lor (wrap8 (Z.shiftl v 1)) x)
      end
  end.
Definition u8 (b : list Z) (i : Z) : res (option Z * Z) := u8_loop 8 b i 0.

Fixpoint readSymbol (t : huffTree) (b : list Z) (i : Z) : res (option Z * Z) :=
  match t with
  | Nil => Ok (None, i)
  | Node leaf sym d0 d1 =>
      if leaf then Ok (Some sym, i)
      else
        let! o := bit b i in
        match o with
        | None => Ok (None, i)
        | Some v => if v =? 0 then readSymbol d0 b (i + 1) else readSymbol d1 b (i + 1)
        end
  end.

(** The loop of [decodeHuffman], which runs [len(chunk)*8 + 1] times at most. *)
Fixpoint huff_loop (n : nat) (trees : list huffTree) (chunk : list Z) (i prev ctx : Z)
    (rawNext : bool) (out : list Z) : res (list Z) :=
  match n with
  | O => Ok out
  | S n =>
      let takeRaw := (rawNext || (128 <=? prev))%bool in
      let! ' (o, i') :=
        if takeRaw then u8 chunk i
        else let! t := idx trees ctx in readSymbol t chunk i in
      match o with
      | None => Ok out
      | Some c =>
          if (negb takeRaw && (i' =? i))%bool then Ok out
          else if c =? 0 then Ok out
          else if c =? 27 then
            if takeRaw then huff_loop n trees chunk i' ctx ctx false out
            else huff_loop n trees chunk i' prev ctx true out
          else if c <? 128 then huff_loop n trees chunk i' c c false (out ++ [c])
          else huff_loop n trees chunk i' c ctx true (out ++ [c])
      end
  end.

Definition decodeHuffman (trees : list huffTree) (chunk : list Z) : res (list Z) :=
  huff_loop (Z.to_nat (zlen chunk * 8 + 1)) trees chunk 0 0 0 false [].

(** ** Plain text *)

Definition latin1 (chunk : list Z) : list Z := filter (fun c => c <> 0) chunk.

(** [utf16.Decode]; [WriteRune] writes a lone surrogate as U+FFFD. *)
Definition surr (u : Z) : bool := (0xD800 <=? u) && (u <? 0xE000).
Fixpoint utf16_decode (us : list Z) : list Z :=
  match us with
  | [] => []
  | u :: us =>
      if surr u then
        match us with
        | v :: us' =>
            if ((u <? 0xDC00) && (0xDC00 <=? v) && (v <? 0xE000))%bool
            then (Z.lor (Z.shiftl (u - 0xD800) 10) (v - 0xDC00) + 0x10000) :: utf16_decode us'
            else 0xFFFD :: utf16_decode us
        | [] => [0xFFFD]
        end
      else u :: utf16_decode us
  end.

Fixpoint units (chunk : list Z) : list Z :=
  match chunk with
  | h :: l :: r => be16 h l :: units r
  | _ => []
  end.

Definition utf16be (chunk : list Z) : list Z :=
  let us := units chunk in
  let us := match us with 0xFEFF :: r => r | _ => us end in
  filter (fun r => r <> 0) (utf16_decode us).

Definition unicodeBlock (mode : Z) : bool :=
  ((0 <=? mode) && (mode <=? 0x06)) || ((0x09 <=? mode) && (mode <=? 0x10))
  || ((0x20 <=? mode) && (mode <=? 0x27)) || ((0x30 <=? mode) && (mode <=? 0x33)).

Definition blockText (mode : Z) (chunk : list Z) : list Z :=
  filter (fun r => r <> 0) (map (fun c => Z.lor (Z.shiftl mode 8) c) chunk).

Definition decodePlain (mode : Z) (chunk : list Z) : option (list Z) :=
  if mode =? 0x3F then Some (utf16be chunk)
  else if mode =? 0xFF then Some (latin1 chunk)
  else if unicodeBlock mode then Some (blockText mode chunk)
  else None.

(** [decodeSegment], with the two tree arrays the package holds. *)
Definition decodeSegment (title desc : list huffTree) (comp mode : Z) (chunk : list Z)
    : res (option (list Z)) :=
  if comp =? 0 then Ok (decodePlain mode chunk)
  else if comp =? 1 then
    if (negb (mode =? 0x00) && negb (mode =? 0xFF))%bool then Ok None
    else let! t := decodeHuffman title chunk in Ok (Some t)
  else if comp =? 2 then
    if (negb (mode =? 0x00) && negb (mode =? 0xFF))%bool then Ok None
    else let! t := decodeHuffman desc chunk in Ok (Some t)
  else Ok None.

(** ** Languages *)

Record langString : Type := mkLang { lang : list Z; text : list Z }.

Definition ascii (s : list Z) : bool := forallb (fun c => c <? 0x80) s.
Definition lower_byte (c : Z) : Z := if ((65 <=? c) && (c <=? 90))%bool then c + 32 else c.
Definition ascii_space (c : Z) : bool := ((9 <=? c) && (c <=? 13)) || (c =? 32).

Fixpoint trim_left (P : Z -> bool) (l : list Z) : list Z :=
  match l with
  | [] => []
  | c :: l' => if P c then trim_left P l' else l
  end.
Definition trim (P : Z -> bool) (l : list Z) : list Z := reverse (trim_left P (reverse (trim_left P l))).

(** [loc[:i]] up to the first of [._@]. *)
Fixpoint before_mark (l : list Z) : list Z :=
  match l with
  | [] => []
  | c :: l => if ((c =? 46) || (c =? 95) || (c =? 64))%bool then [] else c :: before_mark l
  end.

Definition bibTable : list (list Z * list Z) :=
  [([101; 110], [101; 110; 103]); ([101; 115], [115; 112; 97]); ([102; 114], [102; 114; 101]);
   ([100; 101], [103; 101; 114]); ([112; 116], [112; 111; 114]); ([105; 116], [105; 116; 97]);
   ([110; 108], [100; 117; 116]); ([122; 104], [99; 104; 105]); ([106; 97], [106; 112; 110]);
   ([107; 111], [107; 111; 114]); ([115; 118], [115; 119; 101]); ([110; 111], [110; 111; 114]);
   ([100; 97], [100; 97; 110]); ([102; 105], [102; 105; 110]); ([112; 108], [112; 111; 108]);
   ([114; 117], [114; 117; 115]); ([97; 114], [97; 114; 97]); ([104; 101], [104; 101; 98]);
   ([101; 108], [103; 114; 101]); ([116; 114], [116; 117; 114]); ([118; 105], [118; 105; 101]);
   ([116; 104], [116; 104; 97]); ([104; 105], [104; 105; 110]); ([99; 115], [99; 122; 101]);
   ([104; 117], [104; 117; 110]); ([114; 111], [114; 117; 109]); ([117; 107], [117; 107; 114])].
Definition bibCode (k : list Z) : option (list Z) :=
  option_map snd (find (fun e => bytes_equal (fst e) k) bibTable).

Definition eng : list Z := [101; 110; 103].

Section languages.
(** [strings.ToLower] and [strings.TrimSpace] of a string that is not ASCII. *)
Context (lower_uni trim_uni : list Z -> list Z).

Definition ToLower (s : list Z) : list Z := if ascii s then map lower_byte s else lower_uni s.
Definition TrimSpace (s : list Z) : list Z := if ascii s then trim ascii_space s else trim_uni s.

Definition bibliographic (loc : list Z) : list Z :=
  let loc := before_mark (ToLower (TrimSpace loc)) in
  if zlen loc =? 0 then []
  else if zlen loc =? 3 then loc
  else if 2 <=? zlen loc then default [] (bibCode (take 2 loc))
  else [].

(** [pickLang]'s loop. *)
Fixpoint pick_loop (want : list Z) (items : list langString) (first eng_ : list Z) : list Z :=
  match items with
  | [] => if (negb (bytes_equal want eng) && negb (bytes_equal eng_ []))%bool then eng_ else first
  | it :: items =>
      if bytes_equal (text it) [] then pick_loop want items first eng_
      else
        let first := if bytes_equal first [] then text it else first in
        let got := bibliographic (lang it) in
        if bytes_equal got want then text it
        else pick_loop want items first
               (if (bytes_equal got eng && bytes_equal eng_ [])%bool then text it else eng_)
  end.
Definition pickLang (items : list langString) (want : list Z) : list Z :=
  let want := bibliographic want in
  let want := if bytes_equal want [] then eng else want in
  pick_loop want items [] [].

(** [deviceLanguage], of the values of LC_ALL and LANG. *)
Definition deviceLanguage (lc_all lang_ : list Z) : list Z :=
  let code v := if (bytes_equal v [] || bytes_equal v [67] || bytes_equal v [80; 79; 83; 73; 88])%bool
                then [] else bibliographic v in
  if negb (bytes_equal (code lc_all) []) then code lc_all
  else if negb (bytes_equal (code lang_) []) then code lang_
  else eng.

(** ** [decodeTextLang] *)

Context (title desc : list huffTree).

Fixpoint segments (n : nat) (b : list Z) (pos : Z) (txt : list Z) : res (Z * list Z) :=
  match n with
  | O => Ok (pos, txt)
  | S n =>
      if negb (pos + 3 <=? zlen b) then Ok (pos, txt) else
      let! comp := idx b pos in let! mode := idx b (pos + 1) in let! nbytes := idx b (pos + 2) in
      let pos := pos + 3 in
      if zlen b <? pos + nbytes then Ok (pos, txt) else
      let! chunk := slice b pos (pos + nbytes) in
      let! part := decodeSegment title desc comp mode chunk in
      segments n b (pos + nbytes) (match part with Some t => txt ++ t | None => txt end)
  end.

Fixpoint strings (n : nat) (b : list Z) (pos : Z) (items : list langString)
    : res (list langString) :=
  match n with
  | O => Ok items
  | S n =>
      if negb (pos + 4 <=? zlen b) then Ok items else
      let! l := slice b pos (pos + 3) in
      let code := ToLower (trim (fun c => (c =? 0) || (c =? 32))%bool l) in
      let! segs := idx b (pos + 3) in
      let! ' (pos, txt) := segments (Z.to_nat segs) b (pos + 4) [] in
      strings n b pos (items ++ [mkLang code txt])
  end.

Definition decodeTextLang (b : list Z) (want : list Z) : res (list Z) :=
  if zlen b <? 1 then Ok []
  else
    let! n := idx b 0 in
    let! items := strings (Z.to_nat n) b 1 [] in
    Ok (pickLang items want).
End languages.

(** ** Nothing panics *)

Lemma bit_returns b i : bytes_ok b -> 0 <= i ->
  returns (bit b i) (fun o => match o with Some v => 0 <= v <= 1 /\ i < zlen b * 8 | None => True end).
Proof.
  intros Hb Hi. unfold bit. destruct (Z.leb_spec (zlen b * 8) i) as [|Hlt]; [done |].
  assert (0 <= i / 8 < zlen b).
  { split; [apply Z.div_pos; lia | apply Z.div_lt_upper_bound; lia]. }
  apply returns_bind, returns_idx; [done | done |]. intros v _ _. apply returns_Ok.
  split; [| lia]. pose proof (land_bound (Z.shiftr v (7 - i mod 8)) 1). lia.
Qed.

Lemma u8_loop_returns n b i v : bytes_ok b -> 0 <= i -> byte_ok v ->
  returns (u8_loop n b i v) (fun r => i <= r.2 /\
    match r.1 with Some c => byte_ok c | None => True end).
Proof.
  intros Hb. revert i v. induction n as [| n IH]; intros i v Hi Hv; cbn [u8_loop].
  { apply returns_Ok. by split. }
  apply returns_bind. eapply returns_mono; [by apply bit_returns |]. intros [x|] Ho.
  - eapply returns_mono.
    + apply IH; [lia |]. apply byte_lor_ok; [apply wrap8_ok | unfold byte_ok; lia].
    + simpl. intros r [H1 H2]. split; [lia | done].
  - apply returns_Ok. split; [simpl; lia | done].
Qed.

(** A tree's symbols are bytes. *)
Fixpoint tree_ok (t : huffTree) : Prop :=
  match t with
  | Nil => True
  | Node leaf sym d0 d1 => byte_ok sym /\ tree_ok d0 /\ tree_ok d1
  end.

Lemma readSymbol_byte t b i : bytes_ok b -> 0 <= i -> tree_ok t ->
  returns (readSymbol t b i) (fun r => i <= r.2 /\ match r.1 with Some c => byte_ok c | None => True end).
Proof.
  intros Hb. revert i. induction t as [| leaf sym d0 IH0 d1 IH1]; intros i Hi Ht; cbn [readSymbol].
  { simpl. split; [lia | done]. }
  destruct Ht as (H1 & H2 & H3). destruct leaf; [split; [simpl; lia | done] |].
  apply returns_bind. eapply returns_mono; [by apply bit_returns |].
  intros [v|] Ho; [| split; [simpl; lia | done]]. destruct (v =? 0).
  - eapply returns_mono; [apply IH0; [lia | done] |]. intros r [Hr ?]. simpl in Hr. split; [lia | done].
  - eapply returns_mono; [apply IH1; [lia | done] |]. intros r [Hr ?]. simpl in Hr. split; [lia | done].
Qed.

Definition trees_ok (trees : list huffTree) : Prop := length trees = 128%nat /\ Forall tree_ok trees.

Lemma huff_loop_returns n trees b i prev ctx rawNext out :
  bytes_ok b -> trees_ok trees -> 0 <= i -> 0 <= ctx < 128 ->
  returns (huff_loop n trees b i prev ctx rawNext out) (fun _ => True).
Proof.
  intros Hb [Ht Hf]. revert i prev ctx rawNext out.
  induction n as [| n IH]; intros i prev ctx rawNext out Hi Hc; cbn [huff_loop]; [done |].
  apply returns_bind. set (tr := (rawNext || (128 <=? prev))%bool). eapply returns_mono.
  { instantiate (1 := fun r => i <= r.2 /\ match r.1 with Some c => byte_ok c | None => True end).
    destruct tr; [apply u8_loop_returns; [done | done | unfold byte_ok; lia] |].
    destruct (idx_in_range trees ctx) as (t & Htl & ->); [unfold zlen; lia |]. cbn [rbind].
    apply readSymbol_byte; [done | done | by apply (Forall_lookup_1 _ _ _ _ Hf Htl)]. }
  intros [o i'] [Hi' Hco]. simpl in Hi', Hco. destruct o as [c|]; [| done]. unfold byte_ok in Hco.
  destruct (negb tr && (i' =? i))%bool; [done |]. destruct (c =? 0); [done |].
  destruct (c =? 27); [destruct tr; apply IH; lia |].
  destruct (Z.ltb_spec c 128); apply IH; lia.
Qed.

Lemma insert_code_ok k bits sym t : byte_ok sym -> tree_ok t -> tree_ok (insert_code k bits sym t).
Proof.
  intros Hs. revert t. induction k as [| k IH]; intros t Ht; cbn [insert_code].
  - destruct t; [done |]. destruct Ht as (? & ? & ?). done.
  - destruct t as [| l s a b]; cbn.
    + destruct (_ =? 0); (split; [unfold byte_ok; lia |]); split; try done; by apply IH.
    + destruct Ht as (? & ? & ?). destruct (_ =? 0); (split; [done |]); split; try done; by apply IH.
Qed.

Lemma buildHuffman_ok codes : Forall (fun e => byte_ok (hsym e)) codes -> trees_ok (buildHuffman codes).
Proof.
  unfold buildHuffman.
  assert (trees_ok (replicate 128 Nil)) as H0 by (split; [done | by repeat constructor]).
  revert H0. generalize (replicate 128 Nil). induction codes as [| e codes IH]; intros roots H0 Hc; [done |].
  apply Forall_cons in Hc as [He Hc]. apply IH; [| done]. unfold add_code. destruct H0 as [Hl Hf].
  destruct (_ || _ || _)%bool; [done |].
  destruct (roots !! Z.to_nat (hprev e)) as [t|] eqn:E; [| done]. split; [by rewrite length_insert |].
  apply Forall_insert; [done |]. apply insert_code_ok; [done | exact (Forall_lookup_1 _ _ _ _ Hf E)].
Qed.

Lemma decodeSegment_returns title desc comp mode chunk :
  trees_ok title -> trees_ok desc -> bytes_ok chunk ->
  returns (decodeSegment title desc comp mode chunk) (fun _ => True).
Proof.
  intros Ht Hd Hb. unfold decodeSegment. destruct (comp =? 0); [done |].
  destruct (comp =? 1).
  - destruct (_ && _)%bool; [done |]. apply returns_bind. eapply returns_mono; [| done].
    apply huff_loop_returns; [done | done | lia | lia].
  - destruct (comp =? 2); [| done]. destruct (_ && _)%bool; [done |].
    apply returns_bind. eapply returns_mono; [| done]. apply huff_loop_returns; [done | done | lia | lia].
Qed.

Lemma segments_returns title desc n b pos txt :
  trees_ok title -> trees_ok desc -> bytes_ok b -> 0 <= pos <= zlen b ->
  returns (segments title desc n b pos txt) (fun r => 0 <= r.1 <= zlen b).
Proof.
  intros Ht Hd Hb. revert pos txt. induction n as [| n IH]; intros pos txt Hp; cbn [segments]; [done |].
  destruct (Z.leb_spec (pos + 3) (zlen b)) as [Hle | Hgt]; cbn [negb]; [| done].
  go_steps; [simpl; lia |]. eapply returns_mono; [by apply decodeSegment_returns |].
  intros part _. apply IH. blia.
Qed.

Lemma strings_returns lu title desc n b pos items :
  trees_ok title -> trees_ok desc -> bytes_ok b -> 0 <= pos <= zlen b ->
  returns (strings lu title desc n b pos items) (fun _ => True).
Proof.
  intros Ht Hd Hb. revert pos items. induction n as [| n IH]; intros pos items Hp; cbn [strings]; [done |].
  destruct (Z.leb_spec (pos + 4) (zlen b)) as [Hle | Hgt]; cbn [negb]; [| done].
  go_steps. eapply returns_mono; [apply segments_returns; [done | done | done | lia] |].
  intros [p t] Hpt. by apply IH.
Qed.

Lemma decodeTextLang_returns lu tu title desc b want :
  trees_ok title -> trees_ok desc -> bytes_ok b ->
  returns (decodeTextLang lu tu title desc b want) (fun _ => True).
Proof.
  intros Ht Hd Hb. unfold decodeTextLang. destruct (Z.ltb_spec (zlen b) 1) as [|Hl]; [done |].
  go_steps. eapply returns_mono; [apply strings_returns; [done | done | done | lia] |]. done.
Qed.

(** ** Bits of a string of bytes *)

Definition byte_bits (v : Z) : list bool := map (fun k => Z.testbit v (7 - Z.of_nat k)) (seq 0 8).
Definition bits_of (b : list Z) : list bool := concat (map byte_bits b).

Lemma bits_of_lookup b q r :
  (r < 8)%nat -> bits_of b !! (8 * q + r)%nat = (fun v => Z.testbit v (7 - Z.of_nat r)) <$> b !! q.
Proof.
  intros Hr. revert q. induction b as [| v b IH]; intros q; [done |].
  unfold bits_of. cbn [map concat]. fold (bits_of b). destruct q as [| q].
  - rewrite lookup_app_l by (simpl; lia). simpl.
    do 8 (destruct r as [| r]; [done |]). lia.
  - rewrite lookup_app_r by (simpl; lia). change (length (byte_bits v)) with 8%nat.
    replace (8 * S q + r - 8)%nat with (8 * q + r)%nat by lia. apply IH.
Qed.

Lemma bits_of_length b : length (bits_of b) = (8 * length b)%nat.
Proof. induction b as [| v b IH]; [done |]. unfold bits_of in *. cbn [map concat]. rewrite length_app, IH. simpl. lia. Qed.

Lemma bit_spec b i : 0 <= i -> bit b i = Ok (Z.b2z <$> bits_of b !! Z.to_nat i).
Proof.
  intros Hi. unfold bit.
  pose proof (Z.div_mod i 8 ltac:(lia)) as Hd. pose proof (Z.mod_pos_bound i 8 ltac:(lia)) as Hm.
  assert (0 <= i / 8) by (apply Z.div_pos; lia).
  assert (Z.to_nat i = (8 * Z.to_nat (i / 8) + Z.to_nat (i mod 8))%nat) as -> by lia.
  rewrite bits_of_lookup by lia.
  destruct (Z.leb_spec (zlen b * 8) i) as [Hle | Hlt].
  - rewrite lookup_ge_None_2; [done |]. unfold zlen in Hle. lia.
  - destruct (idx_in_range b (i / 8)) as (v & Hv & ->); [lia |]. rewrite Hv. cbn [rbind fmap option_fmap option_map].
    do 2 f_equal. change 1 with (Z.ones 1) at 1. rewrite Z.land_ones by lia.
    rewrite Z2Nat.id by lia. rewrite <- Z.bit0_mod. by rewrite Z.shiftr_spec.
Qed.

Lemma u8_loop_bits b bs : forall p r v,
  bits_of b = p ++ bs ++ r ->
  u8_loop (length bs) b (zlen p) v =
    Ok (Some (fold_left (fun v x => Z.lor (wrap8 (Z.shiftl v 1)) (Z.b2z x)) bs v), zlen p + zlen bs).
Proof.
  induction bs as [| x bs IH]; intros p r v Hb; cbn [length u8_loop fold_left].
  - rewrite zlen_nil. by rewrite Z.add_0_r.
  - rewrite bit_spec by apply zlen_nonneg. rewrite zlen_nat, Hb.
    cbn [app]. rewrite list_lookup_middle by done. cbn [fmap option_fmap option_map rbind].
    replace (zlen p + 1) with (zlen (p ++ [x])) by (by rewrite zlen_app).
    assert (zlen p + zlen (x :: bs) = zlen (p ++ [x]) + zlen bs) as ->.
    { rewrite zlen_app, zlen_cons. change (zlen [x]) with 1. lia. }
    rewrite (IH (p ++ [x]) r) by (by rewrite <- app_assoc). done.
Qed.

Lemma byte_bits_value c : byte_ok c ->
  fold_left (fun v x => Z.lor (wrap8 (Z.shiftl v 1)) (Z.b2z x)) (byte_bits c) 0 = c.
Proof.
  intros Hc.
  assert (forallb (fun n => fold_left (fun v x => Z.lor (wrap8 (Z.shiftl v 1)) (Z.b2z x))
    (byte_bits (Z.of_nat n)) 0 =? Z.of_nat n) (seq 0 256) = true) as H by (vm_compute; reflexivity).
  rewrite forallb_forall in H. unfold byte_ok in Hc.
  specialize (H (Z.to_nat c)). rewrite Z2Nat.id in H by lia. apply Z.eqb_eq, H, in_seq. lia.
Qed.

Lemma u8_bits b p c r :
  byte_ok c -> bits_of b = p ++ byte_bits c ++ r -> u8 b (zlen p) = Ok (Some c, zlen p + 8).
Proof.
  intros Hc Hb. unfold u8. change 8%nat with (length (byte_bits c)).
  rewrite (u8_loop_bits b (byte_bits c) p r) by done. by rewrite byte_bits_value.
Qed.

(** ** Encoding, for the round trip *)

(** Where a code leads in a tree. *)
Fixpoint walk (t : huffTree) (bs : list bool) : option Z :=
  match bs, t with
  | [], Node true s _ _ => Some s
  | x :: bs, Node false _ d0 d1 => walk (if x : bool then d1 else d0) bs
  | _, _ => None
  end.

Lemma readSymbol_walk b t bs s : forall p r,
  walk t bs = Some s -> bits_of b = p ++ bs ++ r ->
  readSymbol t b (zlen p) = Ok (Some s, zlen p + zlen bs).
Proof.
  revert t. induction bs as [| x bs IH]; intros t p r Hw Hb.
  - destruct t as [| [|] s' d0 d1]; try done. injection Hw as ->. cbn [readSymbol].
    rewrite zlen_nil. by rewrite Z.add_0_r.
  - destruct t as [| [|] s' d0 d1]; try done. cbn [walk] in Hw. cbn [readSymbol].
    rewrite bit_spec by apply zlen_nonneg. rewrite zlen_nat, Hb.
    cbn [app]. rewrite list_lookup_middle by done. cbn [fmap option_fmap option_map rbind].
    replace (zlen p + 1) with (zlen (p ++ [x])) by (by rewrite zlen_app).
    assert (zlen p + zlen (x :: bs) = zlen (p ++ [x]) + zlen bs) as ->.
    { rewrite zlen_app, zlen_cons. change (zlen [x]) with 1. lia. }
    destruct x; cbn [Z.b2z Z.eqb].
    + apply (IH d1 _ r); [done |]. by rewrite <- app_assoc.
    + apply (IH d0 _ r); [done |]. by rewrite <- app_assoc.
Qed.

Definition code_bits (e : huffCode) : list bool :=
  map (fun k => Z.testbit (hbits e) (hn e - 1 - Z.of_nat k)) (seq 0 (Z.to_nat (hn e))).
Definition code_of (codes : list huffCode) (ctx sym : Z) : option (list bool) :=
  option_map code_bits (find (fun e => (hprev e =? ctx) && (hsym e =? sym))%bool codes).

(** A table that an encoder can use: every code leads to its own symbol, no
    code is empty, and every character has an escape. *)
Definition codes_ok (codes : list huffCode) : bool :=
  let trees := buildHuffman codes in
  (forallb (fun e => (0 <=? hprev e) && (hprev e <? 128) && (1 <=? hn e) && (0 <=? hsym e) && (hsym e <? 256) &&
      bool_decide (walk (default Nil (trees !! Z.to_nat (hprev e))) (code_bits e) = Some (hsym e))) codes &&
   forallb (fun k => match code_of codes (Z.of_nat k) 27 with Some _ => true | None => false end) (seq 0 128))%bool.

(** The station's side: [raw] when the next character is sent as eight bits,
    [ctx] the last character below 128. *)
Fixpoint encode (codes : list huffCode) (raw : bool) (ctx : Z) (s : list Z) : list bool :=
  let esc := default [] (code_of codes ctx 27) in
  match s with
  | [] => if raw then byte_bits 0
          else match code_of codes ctx 0 with Some bs => bs | None => esc ++ byte_bits 0 end
  | c :: s =>
      let ctx' := if c <? 128 then c else ctx in
      (if raw then byte_bits c
       else match code_of codes ctx c with Some bs => bs | None => esc ++ byte_bits c end)
      ++ encode codes (negb (c <? 128)) ctx' s
  end.

Section huffman.
Context (codes : list huffCode) (Hcodes : codes_ok codes = true).

Lemma code_read b p ctx sym bs r :
  0 <= ctx < 128 -> code_of codes ctx sym = Some bs -> bits_of b = p ++ bs ++ r ->
  1 <= zlen bs /\
  (let! t := idx (buildHuffman codes) ctx in readSymbol t b (zlen p)) = Ok (Some sym, zlen p + zlen bs).
Proof.
  intros Hctx Hcode Hb. unfold codes_ok in Hcodes. apply andb_prop in Hcodes as [H1 _].
  unfold code_of in Hcode. destruct (find _ codes) as [e|] eqn:Ef; [| done]. injection Hcode as <-.
  apply find_some in Ef as [Hin He]. rewrite forallb_forall in H1. specialize (H1 e Hin).
  apply andb_prop in H1 as [H1 Hw]. apply bool_decide_eq_true in Hw.
  assert (hprev e = ctx /\ hsym e = sym /\ 1 <= hn e) as (<- & <- & Hn) by (clear -H1 He; lia).
  split. { unfold zlen, code_bits. rewrite length_map, length_seq. lia. }
  assert (exists t, buildHuffman codes !! Z.to_nat (hprev e) = Some t) as [t Ht].
  { destruct (buildHuffman codes !! Z.to_nat (hprev e)) as [t|] eqn:E; [by exists t |].
    simpl in Hw. by destruct (code_bits e). }
  rewrite Ht in Hw. simpl in Hw. rewrite (idx_Ok _ _ t) by (lia || done). cbn [rbind].
  by apply (readSymbol_walk b t _ _ p r).
Qed.

Lemma esc_code ctx : 0 <= ctx < 128 -> exists bs, code_of codes ctx 27 = Some bs.
Proof.
  intros Hctx. unfold codes_ok in Hcodes. apply andb_prop in Hcodes as [_ H2].
  rewrite forallb_forall in H2. specialize (H2 (Z.to_nat ctx) ltac:(apply in_seq; lia)).
  rewrite Z2Nat.id in H2 by lia. destruct (code_of codes ctx 27) as [bs|]; [by exists bs | done].
Qed.

Lemma huff_loop_encode s : forall b p r raw prev ctx out n,
  Forall (fun c => 0 < c < 256 /\ c <> 27) s ->
  0 <= ctx < 128 -> bits_of b = p ++ encode codes (raw || (128 <=? prev))%bool ctx s ++ r ->
  (length (bits_of b) - length p < n)%nat ->
  huff_loop n (buildHuffman codes) b (zlen p) prev ctx raw out = Ok (out ++ s).
Proof.
  induction s as [| c s IH]; intros b p r raw prev ctx out n Hs Hctx Hb Hn.
  - (* the terminator *)
    destruct n as [| n]; [lia |]. cbn [huff_loop]. cbn [encode] in Hb.
    destruct (raw || (128 <=? prev))%bool eqn:Er.
    { rewrite (u8_bits b p 0 r) by (done || (unfold byte_ok; lia)). cbn [rbind negb andb].
      cbn [Z.eqb]. by rewrite app_nil_r. }
    destruct (code_of codes ctx 0) as [bs|] eqn:E0.
    { destruct (code_read b p ctx 0 bs r Hctx E0 Hb) as [Hbs ->]. cbn [rbind].
      replace (negb false && (zlen p + zlen bs =? zlen p))%bool with false by lia.
      cbn [Z.eqb]. by rewrite app_nil_r. }
    destruct (esc_code ctx Hctx) as [bs E1]. rewrite E1 in Hb. simpl in Hb. rewrite <- app_assoc in Hb.
    destruct (code_read b p ctx 27 bs _ Hctx E1 Hb) as [Hbs ->]. cbn [rbind].
    replace (negb false && (zlen p + zlen bs =? zlen p))%bool with false by lia. cbn [Z.eqb Pos.eqb].
    assert (length (bits_of b) = length p + (length bs + (8 + length r)))%nat as Hlen
      by (rewrite Hb, !length_app; reflexivity).
    destruct n as [| n]; [unfold zlen in Hbs; lia |]. cbn [huff_loop orb].
    assert (zlen p + zlen bs = zlen (p ++ bs)) as -> by (by rewrite zlen_app).
    rewrite (u8_bits b (p ++ bs) 0 r); [| unfold byte_ok; lia | by rewrite <- app_assoc].
    cbn [rbind negb andb Z.eqb]. by rewrite app_nil_r.
  - (* a character *)
    apply Forall_cons in Hs as [[Hc Hc27] Hs]. destruct n as [| n]; [lia |]. cbn [encode] in Hb.
    set (ctx' := if c <? 128 then c else ctx) in *.
    assert (0 <= ctx' < 128) as Hctx' by (subst ctx'; destruct (Z.ltb_spec c 128); lia).
    assert (forall q bs m, bits_of b = q ++ bs ++ encode codes (negb (c <? 128)) ctx' s ++ r -> 
      1 <= zlen bs -> (length (bits_of b) - length q <= m)%nat ->
      (if c =? 0 then Ok out else if c =? 27 then huff_loop m (buildHuffman codes) b (zlen q + zlen bs) ctx ctx false out
       else if c <? 128 then huff_loop m (buildHuffman codes) b (zlen q + zlen bs) c c false (out ++ [c])
       else huff_loop m (buildHuffman codes) b (zlen q + zlen bs) c ctx true (out ++ [c])) = Ok (out ++ c :: s)) as Hgo.
    { intros q bs m Hq Hbs Hm. replace (c =? 0) with false by lia. replace (c =? 27) with false by lia.
      assert (length (bits_of b) = length q + (length bs + length (encode codes (negb (c <? 128)%Z) ctx' s ++ r)))%nat
        as Hlen by (rewrite Hq at 1; rewrite !length_app; lia).
      assert (length (q ++ bs) = (length q + length bs)%nat) as Hqb by apply length_app.
      assert (zlen q + zlen bs = zlen (q ++ bs)) as -> by (by rewrite zlen_app).
      unfold zlen in Hbs. subst ctx'. destruct (Z.ltb_spec c 128).
      - rewrite (IH b (q ++ bs) r); [by rewrite <- app_assoc | done | done | | lia].
        rewrite <- app_assoc. simpl in Hq |- *. by replace (128 <=? c) with false by lia.
      - rewrite (IH b (q ++ bs) r); [by rewrite <- app_assoc | done | done | | lia].
        rewrite <- app_assoc. exact Hq. }
    cbn [huff_loop]. destruct (raw || (128 <=? prev))%bool eqn:Er.
    { rewrite <- app_assoc in Hb.
      rewrite (u8_bits b p c (encode codes (negb (c <? 128)) ctx' s ++ r)) by (done || (unfold byte_ok; lia)).
      cbn [rbind negb andb]. apply (Hgo p (byte_bits c) n Hb); [done | lia]. }
    destruct (code_of codes ctx c) as [bs|] eqn:E0.
    { rewrite <- app_assoc in Hb. destruct (code_read b p ctx c bs _ Hctx E0 Hb) as [Hbs ->]. cbn [rbind].
      replace (negb false && (zlen p + zlen bs =? zlen p))%bool with false by lia.
      specialize (Hgo p bs n Hb Hbs ltac:(lia)). replace (c =? 27) with false in Hgo |- * by lia. exact Hgo. }
    destruct (esc_code ctx Hctx) as [bs E1]. rewrite E1 in Hb. simpl in Hb. rewrite <- !app_assoc in Hb.
    destruct (code_read b p ctx 27 bs _ Hctx E1 Hb) as [Hbs ->]. cbn [rbind].
    replace (negb false && (zlen p + zlen bs =? zlen p))%bool with false by lia. cbn [Z.eqb Pos.eqb].
    destruct n as [| n].
    { apply (f_equal length) in Hb. rewrite !length_app in Hb. simpl in Hb. unfold zlen in Hbs. lia. }
    cbn [huff_loop orb].
    assert (zlen p + zlen bs = zlen (p ++ bs)) as -> by (by rewrite zlen_app).
    assert (bits_of b = (p ++ bs) ++ byte_bits c ++ encode codes (negb (c <? 128)) ctx' s ++ r) as Hb2
      by (by rewrite <- app_assoc).
    rewrite (u8_bits b (p ++ bs) c _ ltac:(unfold byte_ok; lia) Hb2).
    cbn [rbind negb andb]. apply (Hgo (p ++ bs) (byte_bits c) n Hb2); [done |].
    rewrite length_app. unfold zlen in Hbs. lia.
Qed.
End huffman.

(** ** Choosing a language *)

Section pick.
Context (lower_uni trim_uni : list Z -> list Z).

(** The first text that is not empty in language [w]. *)
Fixpoint first_in (w : list Z) (items : list langString) : list Z :=
  match items with
  | [] => []
  | it :: items =>
      if (negb (bytes_equal (text it) []) && bytes_equal (bibliographic lower_uni trim_uni (lang it)) w)%bool
      then text it else first_in w items
  end.
Fixpoint first_text (items : list langString) : list Z :=
  match items with
  | [] => []
  | it :: items => if bytes_equal (text it) [] then first_text items else text it
  end.

(** What A/65 asks for: the language wanted, then English, then anything. *)
Definition pick_reference (w : list Z) (items : list langString) : list Z :=
  if negb (bytes_equal (first_in w items) []) then first_in w items
  else if (negb (bytes_equal w eng) && negb (bytes_equal (first_in eng items) []))%bool
  then first_in eng items
  else first_text items.

Lemma bytes_equal_refl l : bytes_equal l l = true.
Proof. unfold bytes_equal. by apply bool_decide_eq_true. Qed.

Lemma pick_loop_spec w items first eng_ :
  (eng_ <> [] -> first <> []) ->
  pick_loop lower_uni trim_uni w items first eng_ =
    if negb (bytes_equal (first_in w items) []) then first_in w items
    else
      let e := if bytes_equal eng_ [] then first_in eng items else eng_ in
      let f := if bytes_equal first [] then first_text items else first in
      if (negb (bytes_equal w eng) && negb (bytes_equal e []))%bool then e else f.
Proof.
  revert first eng_. induction items as [| it items IH]; intros first eng_ Hf.
  - simpl. destruct (bytes_equal eng_ []) eqn:E1, (bytes_equal first []) eqn:E2; try done.
    + unfold bytes_equal in E1, E2. apply bool_decide_eq_true in E1, E2. subst. by destruct (bytes_equal w eng).
    + unfold bytes_equal in E1. apply bool_decide_eq_true in E1. subst. by destruct (bytes_equal w eng).
    + exfalso. unfold bytes_equal in E1, E2. apply bool_decide_eq_false in E1.
      apply bool_decide_eq_true in E2. by apply Hf in E1.
    + rewrite E1. by destruct (bytes_equal w eng).
  - cbn [pick_loop first_in first_text]. destruct (bytes_equal (text it) []) eqn:Et; cbn [negb andb].
    { rewrite IH by done. destruct (bytes_equal first []); done. }
    set (got := bibliographic lower_uni trim_uni (lang it)).
    destruct (bytes_equal got w) eqn:Eg.
    { by rewrite Et. }
    assert (text it <> []) as Hne by (unfold bytes_equal in Et; by apply bool_decide_eq_false in Et).
    rewrite IH.
    2: { intros _. destruct (bytes_equal first []) eqn:E2; [done |].
         unfold bytes_equal in E2. by apply bool_decide_eq_false in E2. }
    destruct (bytes_equal (first_in w items) []); cbn [negb]; [| done]. cbv zeta.
    assert (bytes_equal (if bytes_equal first [] then text it else first) [] = false) as ->.
    { destruct (bytes_equal first []) eqn:E2; done. }
    destruct (bytes_equal got eng) eqn:Eeng; cbn [andb].
    + destruct (bytes_equal eng_ []) eqn:E1; rewrite ?Et, ?E1; done.
    + done.
Qed.
End pick.

(** Of a guide text in several languages the one shown is the wanted
    language's first text that is not empty, else the first English one, else
    the first of any language, and nothing only when every text is empty. *)
Theorem pickLang_spec (lower_uni trim_uni : list Z -> list Z) (items : list langString) (want : list Z) :
  let w := match bibliographic lower_uni trim_uni want with [] => eng | w => w end in
  pickLang lower_uni trim_uni items want = pick_reference lower_uni trim_uni w items /\
  (pickLang lower_uni trim_uni items want = [] <-> Forall (fun it => text it = []) items).
Proof.
  intros w.
  assert (pickLang lower_uni trim_uni items want = pick_reference lower_uni trim_uni w items) as E.
  { unfold pickLang. cbv zeta. rewrite pick_loop_spec by done. subst w.
    by destruct (bibliographic lower_uni trim_uni want). }
  split; [exact E |]. rewrite E. clear E. unfold pick_reference.
  assert (forall v, Forall (fun it => text it = []) items -> first_in lower_uni trim_uni v items = []) as Hin.
  { intros v H. induction H as [| it l Hit _ IH]; [done |]. simpl. by rewrite Hit. }
  assert (first_text items = [] <-> Forall (fun it => text it = []) items) as Hft.
  { clear. induction items as [| it l IH]; [by split |]. simpl. unfold bytes_equal.
    case_bool_decide as Ht; rewrite Forall_cons; [rewrite IH | ]; naive_solver. }
  split.
  - destruct (bytes_equal (first_in lower_uni trim_uni w items) []) eqn:E1; cbn [negb].
    + destruct (negb (bytes_equal w eng) && negb (bytes_equal (first_in lower_uni trim_uni eng items) []))%bool eqn:E2;
        intros Hx; [| by apply Hft].
      rewrite Hx in E2. by rewrite bytes_equal_refl, andb_false_r in E2.
    + intros Hx. by rewrite Hx, bytes_equal_refl in E1.
  - intros H. rewrite !Hin by done. simpl. rewrite andb_false_r. by apply Hft.
Qed.

(** ** The multiple string structure *)

(** A segment: its compression, its mode and its bytes. *)
Definition segment : Type := Z * Z * list Z.
Definition enc_segment (s : segment) : list Z := let '(comp, mode, chunk) := s in
  comp :: mode :: zlen chunk :: chunk.
Definition enc_string (it : list Z * list segment) : list Z :=
  fst it ++ [zlen (snd it)] ++ concat (map enc_segment (snd it)).
Definition enc_strings (its : list (list Z * list segment)) : list Z :=
  zlen its :: concat (map enc_string its).

Section multiple_string.
Context (lower_uni trim_uni : list Z -> list Z) (title desc : list huffTree).

(** The text of one segment; one that cannot be read has none. *)
Definition seg_text (s : segment) : list Z := let '(comp, mode, chunk) := s in
  match decodeSegment title desc comp mode chunk with Ok (Some t) => t | _ => [] end.
Definition item_of (it : list Z * list segment) : langString :=
  mkLang (ToLower lower_uni (trim (fun c => (c =? 0) || (c =? 32))%bool (fst it)))
    (concat (map seg_text (snd it))).

Definition well_formed (it : list Z * list segment) : Prop :=
  length (fst it) = 3%nat /\ zlen (snd it) < 256 /\
  Forall (fun s : segment => zlen (snd s) < 256 /\ bytes_ok (snd s)) (snd it).

Lemma idx_at {A} (p : list A) x r : idx (p ++ x :: r) (zlen p) = Ok x.
Proof. apply idx_Ok; [apply zlen_nonneg |]. by rewrite zlen_nat, list_lookup_middle. Qed.

Lemma slice_at {A} (p c r : list A) : slice (p ++ c ++ r) (zlen p) (zlen p + zlen c) = Ok c.
Proof. by apply slice_parts. Qed.

Lemma segments_enc ss : forall p r txt,
  trees_ok title -> trees_ok desc ->
  Forall (fun s : segment => zlen (snd s) < 256 /\ bytes_ok (snd s)) ss ->
  segments title desc (length ss) (p ++ concat (map enc_segment ss) ++ r) (zlen p) txt =
    Ok (zlen (p ++ concat (map enc_segment ss)), txt ++ concat (map seg_text ss)).
Proof.
  induction ss as [| [[comp mode] chunk] ss IH]; intros p r txt Ht Hd Hs.
  { simpl. by rewrite !app_nil_r. }
  apply Forall_cons in Hs as [[Hc Hcb] Hs]. cbn [snd] in Hc, Hcb.
  cbn [length segments map concat enc_segment app].
  set (q := concat (map enc_segment ss)) in *. pose proof (zlen_nonneg q). pose proof (zlen_nonneg r).
  pose proof (zlen_nonneg p). pose proof (zlen_nonneg chunk).
  assert (zlen (p ++ comp :: mode :: zlen chunk :: (chunk ++ q) ++ r) = zlen p + (3 + zlen chunk + zlen q + zlen r)) as Hl.
  { rewrite zlen_app, !zlen_cons, !zlen_app. lia. }
  rewrite Hl. replace (zlen p + 3 <=? zlen p + (3 + zlen chunk + zlen q + zlen r)) with true by lia. cbn [negb].
  rewrite idx_at. cbn [rbind].
  assert (p ++ comp :: mode :: zlen chunk :: (chunk ++ q) ++ r =
    (p ++ [comp; mode; zlen chunk]) ++ chunk ++ q ++ r) as Eb by (by rewrite <- !app_assoc).
  assert (idx (p ++ comp :: mode :: zlen chunk :: (chunk ++ q) ++ r) (zlen p + 1) = Ok mode) as ->.
  { replace (zlen p + 1) with (zlen (p ++ [comp])) by (by rewrite zlen_app).
    change (comp :: mode :: ?x) with ([comp] ++ mode :: x). rewrite app_assoc. apply idx_at. }
  cbn [rbind].
  assert (idx (p ++ comp :: mode :: zlen chunk :: (chunk ++ q) ++ r) (zlen p + 2) = Ok (zlen chunk)) as ->.
  { replace (zlen p + 2) with (zlen (p ++ [comp; mode])) by (by rewrite zlen_app).
    change (comp :: mode :: ?x) with ([comp; mode] ++ x). rewrite app_assoc. apply idx_at. }
  cbn [rbind]. replace (zlen p + (3 + zlen chunk + zlen q + zlen r) <? zlen p + 3 + zlen chunk) with false by lia.
  rewrite Eb. assert (zlen p + 3 = zlen (p ++ [comp; mode; zlen chunk])) as -> by (by rewrite zlen_app).
  rewrite slice_at. cbn [rbind].
  pose proof (decodeSegment_returns title desc comp mode chunk Ht Hd Hcb) as Hdec.
  destruct (decodeSegment title desc comp mode chunk) as [part | |] eqn:Ed; [| done | done]. cbn [rbind].
  set (p' := p ++ [comp; mode; zlen chunk]).
  assert (zlen p' + zlen chunk = zlen (p' ++ chunk)) as -> by (by rewrite zlen_app).
  rewrite (app_assoc p' chunk). rewrite IH by done.
  assert (seg_text (comp, mode, chunk) = match part with Some t => t | None => [] end) as ->.
  { unfold seg_text. by rewrite Ed. }
  f_equal. f_equal.
  - subst p'. by rewrite <- !app_assoc.
  - destruct part; [by rewrite app_assoc | done].
Qed.

Lemma strings_enc its : forall p r items,
  trees_ok title -> trees_ok desc -> Forall well_formed its ->
  strings lower_uni title desc (length its) (p ++ concat (map enc_string its) ++ r) (zlen p) items =
    Ok (items ++ map item_of its).
Proof.
  induction its as [| [code ss] its IH]; intros p r items Ht Hd Hw.
  { simpl. by rewrite app_nil_r. }
  apply Forall_cons in Hw as [(H3 & Hn & Hss) Hw]. cbn [fst snd] in H3, Hn, Hss.
  cbn [length strings map concat].
  change (enc_string (code, ss)) with (code ++ [zlen ss] ++ concat (map enc_segment ss)).
  set (q := concat (map enc_string its)). set (body := concat (map enc_segment ss)).
  assert (zlen code = 3) as Hz by (unfold zlen; by rewrite H3).
  pose proof (zlen_nonneg q). pose proof (zlen_nonneg r). pose proof (zlen_nonneg p). pose proof (zlen_nonneg body).
  assert (p ++ ((code ++ [zlen ss] ++ body) ++ q) ++ r = p ++ code ++ zlen ss :: body ++ q ++ r) as -> 
    by (by rewrite <- !app_assoc).
  assert (zlen (p ++ code ++ zlen ss :: body ++ q ++ r) = zlen p + 4 + zlen body + zlen q + zlen r) as Hl.
  { rewrite !zlen_app, zlen_cons, !zlen_app. lia. }
  rewrite Hl. replace (zlen p + 4 <=? zlen p + 4 + zlen body + zlen q + zlen r) with true by lia. cbn [negb].
  replace (zlen p + 3) with (zlen p + zlen code) by lia. rewrite slice_at. cbn [rbind].
  assert (zlen p + zlen code = zlen (p ++ code)) as -> by (by rewrite zlen_app).
  rewrite (app_assoc p code), idx_at. cbn [rbind]. rewrite zlen_nat.
  assert (zlen p + 4 = zlen ((p ++ code) ++ [zlen ss])) as -> by (rewrite !zlen_app, Hz; change (zlen [zlen ss]) with 1; lia).
  change (zlen ss :: body ++ q ++ r) with ([zlen ss] ++ body ++ q ++ r). rewrite (app_assoc (p ++ code)).
  unfold body at 1. rewrite segments_enc by done. fold body. cbn [rbind app].
  rewrite (app_assoc _ body). rewrite IH by done. by rewrite <- app_assoc.
Qed.
End multiple_string.

(** A multiple-string structure reads back: whatever languages, segments,
    compressions and modes a station packs, and whatever follows them, the
    reader finds every string with its language and the text of its segments
    in order, and picks among them. *)
Theorem multiple_string_roundtrip (lower_uni trim_uni : list Z -> list Z) (title desc : list huffTree)
    (its : list (list Z * list segment)) (r want : list Z)
    (Ht : trees_ok title) (Hd : trees_ok desc) (Hn : zlen its < 256) (Hw : Forall well_formed its) :
  decodeTextLang lower_uni trim_uni title desc (enc_strings its ++ r) want =
    Ok (pickLang lower_uni trim_uni (map (item_of lower_uni title desc) its) want).
Proof.
  unfold decodeTextLang, enc_strings. cbn [app].
  assert (zlen (zlen its :: concat (map enc_string its) ++ r) <? 1 = false) as ->.
  { rewrite zlen_cons. pose proof (zlen_nonneg (concat (map enc_string its) ++ r)). lia. }
  change (idx (zlen its :: concat (map enc_string its) ++ r) 0) with (Ok (zlen its)). cbn [rbind].
  rewrite zlen_nat.
  pose proof (strings_enc lower_uni title desc its [zlen its] r [] Ht Hd Hw) as E.
  cbn [app] in E. change (zlen [zlen its]) with 1 in E. by rewrite E.
Qed.

(** No broadcast text crashes the reader: any bytes at all, with any table
    of codes whose symbols are bytes, decode to some text. *)
Theorem decodeText_total (lower_uni trim_uni : list Z -> list Z) (title desc : list huffCode) (b want : list Z)
    (Ht : Forall (fun e => byte_ok (hsym e)) title) (Hd : Forall (fun e => byte_ok (hsym e)) desc)
    (Hb : bytes_ok b) :
  exists t, decodeTextLang lower_uni trim_uni (buildHuffman title) (buildHuffman desc) b want = Ok t.
Proof.
  pose proof (decodeTextLang_returns lower_uni trim_uni (buildHuffman title) (buildHuffman desc) b want
    (buildHuffman_ok _ Ht) (buildHuffman_ok _ Hd) Hb) as H.
  destruct (decodeTextLang _ _ _ _ _ _) as [t | |]; [by exists t | done | done].
Qed.

Lemma decodeText_total_witness :
  exists t, decodeTextLang id id (buildHuffman [mkCode 0 65 2 1]) (buildHuffman []) [1; 101; 110; 103; 9; 1; 0; 200] eng = Ok t.
Proof.
  apply decodeText_total; [apply Forall_singleton; unfold byte_ok; simpl; lia | constructor | bytes_dec].
Defined.

Lemma multiple_string_roundtrip_witness :
  let its := [([115; 112; 97], [(0, 0, [78; 111])]); ([101; 110; 103], [(0, 0, [78]); (0, 0xFF, [79])])] in
  decodeTextLang id id (buildHuffman []) (buildHuffman []) (enc_strings its ++ [9]) [101; 110; 95; 85; 83] =
    Ok (pickLang id id (map (item_of id (buildHuffman []) (buildHuffman [])) its) [101; 110; 95; 85; 83]).
Proof.
  apply (multiple_string_roundtrip id id (buildHuffman []) (buildHuffman [])
    [([115; 112; 97], [(0, 0, [78; 111])]); ([101; 110; 103], [(0, 0, [78]); (0, 0xFF, [79])])] [9]).
  - apply buildHuffman_ok. constructor.
  - apply buildHuffman_ok. constructor.
  - vm_compute. reflexivity.
  - repeat (apply Forall_cons; split; [split; [reflexivity | split; [vm_compute; reflexivity |]] |]); try constructor.
    + split; [vm_compute; reflexivity | bytes_dec].
    + constructor.
    + split; [vm_compute; reflexivity | bytes_dec].
    + apply Forall_singleton. split; [vm_compute; reflexivity | bytes_dec].
Defined.
