(* ===== verification/PsipTables.v ===== *)
(** The encode tables of A/65 Annex C that the guide reader unpacks,
    [server/internal/psip/huffman_tables.go]. *)
From S2P Require Import Prelude PsipText.
Local Open Scope Z_scope.

Definition titlePacked : list Z := lit "001b0800cb204a06003e313003000700240a032b204b060013313103000400320900d2204c05001e313203000500340a032a204d040005313902000000370900d3204e05001632000200030041040007204f06001b321b0200020042040009205005001d3230020001004304000b20510901233231030000004405001b2052050014323a0300010045050011205304000d330001000000460500182054040008331b020003004705001c20550700493330020002004805001f205607004b341b010000004905001020570400033438010001004a05000c20580a0002351b010001004b0700662059060001361b010001004c05001d205a080003371b010000004d04000a206105000c3730010001004e0400032062080095381b010000004f06001b20630800403820010001005005001e2064080043391b020003005108006820650a00033930020001005205001a206608009039310300040053030000206906001239330300050054030002206c09012239390200000055070035206f0400013a1b010000005607006720740400073a20010001005704000221000100013b1b0100010059070064211b0200013c1b010001005a09019421200200003d1b010001011b010001221b0100013e1b010001021b010001231b0100013f00010001031b010001241b0100013f1b010000041b0100012431010000401b010001051b010001251b010001411b050002061b010001261b0100004120030002071b0100012620010001412a070068081b010001271b030003412d070069091b0100012720030002412e07006a0a1b010001273904000141420600360b1b010001276404000041620600320c1b0100012773010001416305000c0d1b010001277403000141640300010e1b010001281b010001416605000d0f1b010001291b010001416706001e101b0100012a1b0200004169060033111b0100012a41020001416c030004121b0100012a48020002416d030007131b0100012a53020003416e030005141b0100012b1b0100014170060037151b0100012c1b0100004172040000161b0100012c200100014173050003171b0100012d1b020001417406001f181b0100012d200300074175050018191b0100012d2d04000d417607006b1a1b0100012d31040008417705000e1b1b0100012d41030001421b0500021c1b0100012d4d03000042410600061d1b0100012d5204000942430400001e1b0100012d5304000a42530600071f1b0100012d5404000b4261030007201b0800942d5504000c426502000120260600112e00030007426904000a20270900842e1b030005426c04000b202d0800012e20010000426f03000620310900852e2e030006427203000120320800022e49050012427503000420330800412e53040008431b05000520390900002e57050013432005001620410500172f1b010001434107001c20420400023000020001434206000f204304000c301b030001434f06002e204405001c30200200024361030004204506001a302d030000436506002f2046050013303002000343680200012047050001310003000243690500062048050015311b030003436c030000204906003f3120030006436f020003437204000a4c61020002537707007543750500044c65030003541b07007a437907001d4c69020003542d0800f6441b0500094c6f020000544e0800f744610200024c75040005545606003c44650300074d1b07005f546104000a44690300064d2a0800bc546504000b446f0200004d540800bd546801000044720300034d61020003546904000e44750400054d6306002e546f03000644790500084d6504000a5472030004451b0300034d69030004547506003e454304000a4d6f020000547706003f45610300074d72050016551b03000545640300004d75030002552e040009456c04000c4d79030003556c040008456d0400044e1b040008556e010000456e04000d4e200600315570020003457106002e4e42040009560003000045730500164e46060032561b040003457506002f4e4e060030562005000a45760300044e6104000d564305000b45780300014e65010000566103000345790400054e690300075665040004461b06001f4e6f0300055669010001462006001e4e75060033566f040002464c05000e4f1b030002571b05000346610200024f20030001574606000446650400064f6405000e575706000546690300064f6605001a5761030007466c0300004f6c04000c5765030006466f0300024f6e020002576803000146720300074f70040001576902000146750300014f72040006576f020002471b0500164f7305000f5772040000472e06002a4f75030007581b010001474106002f4f7605001b591b030001476104000e4f7704000059610300004765030006501b06003f59650200014768050014502007007c596f0100014769030004502e0600195a1b020000476c06002b504706003d5a61020001476f020001505206003c5a6f010001477202000050610200005b1b010001477504000f50650300025c1b010001477906002e50690400075d1b010001480006003a506c04000e5e1b010001481b06003b506f0300065f1b01000148610300065072020002601b0100014865020002507307007d6100050002486904000f507505000d611b0a03d6486f01000050790600186120050016487505001c511b02000061270800f449000400085156020001613a0a03d7491b04000951750100016162060012492005001e521b050011616305001f492e06003e52610300056164050014493a06002e52650200036165090158494904000c526805001061660800ad495406002f526902000061670500084963050016526f0200016168070027496d04000a52750400096169050017496e010000531b06002e616a090159497206003f5320070074616b06002a497304000d532a070058616c030001497404000e532e07005b616d0400054a1b030000536104000f616e0300064a61020001536305001c617006003c4a65020003536503000061720300044a6f0200025368030004617304000e4a75030001536904000c61740300034b1b030000536b06002f617507007b4b61040004536c07005961760500034b65030001536d07007661770700574b69010001536e07007761780901ea4b6e040007536f04000a61790400004b6f0400055370030001617a0700264b75040006537107005a620005001f4c1b0500095374020001621b06003d4c20050008537504000d62200400066261020000661b0700796b69030006626205000f66200100006b6c060005626504000a666105001d6b6f060001626904000e66650300066b73040002626c030002666604000b6b7706000e626f03000666690400096b79050006627204000b666c06003d6c00040008627306003c666f04000a6c1b070039627505000e667206003f6c200300026279030004667306003e6c27080062630006001666740400086c2d0800f3631b07004366750700786c3a080063632004000467000300066c6104000e6343070016671b0700706c62070030634707004267200200016c63080070634c070017672707004c6c640300006361030003673a0800e26c65030006636306000a67610400086c66070078636503000767650300056c690300016368030005676707007a6c6b060019636904000367680200006c6c030005636b030006676905001d6c6d07007a636c060017676c07007b6c6f05001f636f040009676e0600276c720800f26372050011676f0600396c7305000d637305000467720500126c7406001d6374030000677305001f6c7505000f637505000a677407004d6c7607007b6379060020677506003c6c77080071640003000367790800e36c79040009641b06002e680005001d6d000400046420020003681b0700716d1b060015642e09016e682004000b6d20030001646104000a686104000c6d61030005646406002068620800e66d62040000646502000068650100006d65020003646706002168690300046d690300036469040009686c0700726d6d040001646c07005a686e0600296d6f040009646f06002f686f04000d6d70040008647206002c68720500156d730600176473040005687404000f6d75060016647509016f68750800e76d79060014647605001168770700706e0003000064770800b668790600286e1b080073647904000469000800356e200300066500030001691b0800366e2706001d651b0a02bc69200600046e3a07004a652002000169210900686e6105001c65210a02bd69610500036e620901d065270800ac69620700186e6305000f652d0a02be696304000f6e64030001653a08001269640400026e650300026561040008696504000d6e6607004b65620800ad69660500076e670300056563060027696704000c6e680901d5656405000369690800326e690400086565050014696b0800336e6a0901d1656607004c696c0400066e6b0700766567070054696d05001d6e6c0901d665680a02bf696e0200026e6d0901d765690800ae696f0400046e6e050013656a09002069700600056e6f070077656b070055697205001c6e720901d4656c05001269730400076e73040006656d07004d69740400056e7404000f656e04000e69760400006e750800e9656f06000569780900696e760700386570060001697a0800376e7906002465710900216a1b0200026e7a08007265720300066a610200036f00050005657304000f6a6f0100006f1b08007165740500166b000200016f2004000565750900226b1b0500036f2708007065760600006b200300076f2e0a01da65770500176b3a0500016f3f0900ec65780800136b540600006f6107006265790500016b6106000f6f62060009657a0900236b650200026f63060030660005001c6b660600046f6405000f6f65070039731b07001375730300056f660400097320020001757404000f6f67050002732709005a757a07000b6f6807003a732c09005b761b0400026f69080077732e08002576610300006f6b070063733a07000176650100016f6c040004733f09005c76690200016f6d040008734309005d766f0500076f6e030007734809005e76730500066f6f040003736106002a77000300016f7005000d736306002b771b05000a6f72030005736409005f77200300036f73050019736504000b77270600126f74050003736608000077610300006f7504000d736805000177620600136f7605000c736904000377630600176f77040000736b060001776504000f6f78070010736c08002a776904000c6f79070011736d080001776c0600166f7a0a01db736e08002b776e04000e700004000d736f050014776f04000d701b06002e7370060008777205000870200300027372080024777302000270270700657373040001780003000670610400097374030004781b04000a706406002f7375070014782004000b7065030007737908002c7861030000706805001874000300027865030001706904000a741b0800c27869030004706c04000674200300057870030007706d07006474270800c37874020001706f020000743a0901b079000200027070040007743f0901b1791b06003e70720500117461040000792001000070730500107462060020792107006d7074050016746307006d7927060035707906003374640800c0792d0800f5711b0100007465030003796107006e71750100017468030007796207007b7200040009746903000179630800f4721b080065746c0500117964070060722004000f746d06002179650500197227070033746e0800d97969070061722c09019d746f040009796c06003f722e07003c747205001a796d07006f723a09019c7473040001796e07006272610300007474060037796f070063726208007d74750500197970070068726307003f74770800c1797304000e7264050018747906003179740700697265030005750007001e797607006c72660800cf751b060004797706003c726707003d752006000e7a00030006726903000275610500067a1b030004726b06003275620500137a20030000726c040003756305001c7a61020001726d06001875640500107a6504000a726e05000d75650400027a69030007726f04000d756607001f7a79030001727008007c756705001d7a7a04000b727205000e75690500037b1b010001727304000e756b07000a7c1b0100017274040008756c0400007d1b0100017275070066756d0500127e1b0100017276080064756e0300067f1b0100017279040002757005001173000200037572020001".

Definition descPacked : list Z := lit "001b07007020470600022d650400040022060039204807007b2d66040005004103000220490800cb2d7204000f0042040003204a0600032d730300030043040007204b0700642e00010001004405001d204c0600162e1b0300000045050012204d0600292e200200010046050016204e06000c2e22040002004706001b204f0800a12e4a0500060048050017205006000d2e530500070049060018205207007c2f1b010000004a04000c20530500092f20010001004b0500052054070066301b030004004c05001320550901fb3020030007004d04000f20560901fc3030020000004e05000420570600103037030005004f06001920590901fd30730200010050030000205a0a0281307403000600520400082061030003311b030007005304000a20620500173120020002005404000d20630500133138030006005607007120640500103139010000005706001a2065060022321b030005011b010001206605001d3220020003021b0100012067060023322e010000031b01000120680400013236030004041b0100012069050015331b020002051b010001206a0800cf3320010000061b010001206b0800fa3330020003071b010001206c060017341b020002081b010001206d0500003420020003091b010001206e070051342e0100000a1b010001206f040002351b0200030b1b010001207005001635200200020c1b0100012071090195352e0100000d1b0100012072050007361b0100010e1b010001207305001c371b0100000f1b010001207404000d372c020002101b01000120750800fb372e020003111b01000120760800fc381b010001121b0100012077050018391b030006131b01000120790800ce3920030007141b010001211b0100013935020000151b01000122000300003936020001161b010001221b0200023938020002171b01000122200200033a1b010000181b010001222e0300013a20010001191b01000122480300023b1b0100001a1b01000122540300033b200100011b1b010001231b0100013c1b0100011c1b010001241b0100013d1b0100011d1b010001251b0100013e1b0100011e1b010001261b0100013f1b0100001f1b010001271b0200003f20010001201b0901412720030002401b01000120220901fa2773010001411b05001220280a03fc27740300034120020003202d0b07fe281b0100014164050013202f0b07ff291b0100014166060028203107002b292c010000416c02000020320700222a1b010001416d05001520330a03fd2b1b010001416e02000120340901942c1b020000417204000b20350a03fe2c20010001417305001020370a02802c22020001417405001120410500122d1b020002417506002920420600142d2004000e421b050012204306003c2d610300004261030005204407007a2d62040002426503000720450700232d630300064269020000204607002a2d64040003426c050013426f0300064e1b04000c616809006242720200014e61030007616906003842750400084e65010000616b060030431b05000e4e6904000d616c04000d43610200004e6f020002616d05001d43680200024f1b020002616e020001436905000f4f27030002616f090063436c0300064f6c0300066170050000436f0300074f6e030003617203000443720400054f72030007617304000143750400064f73020000617404000f4379040004501b0500126175060031441b04000f5061010000617606000d4461020001506503000761770901cf4465030004506805001361780901cc446902000050690400086179050001446f030005506c04000d617a080030447204000d506f030005621b060028447504000e507204000c6220040005447904000c511b010001622e060029451b020002521b04000062610300044561040006522e040001626206002a456403000052610200016264070056456904000752650200026265020000456c0300015269030001626904000b456e04000c526f020003626c0400044572030007531b04000b626f0300064573030002532e040001627204000e457604000d53610300046273070057461b0200005363040002627504000f4665030004536504000e6279030003466c0300055368030006631b050002466f020001536904000363200500104672020003536f04000f632c060010471b0300005374020001632e0700234761030006537504000a6344070026476502000153760500006361030006476903000453790500016363060012476c030001541b04000a6365030003476f04000b54560400086368030007477203000754610400096369040005477504000a546505001a636b040009481b0300025468010000636c0500114861020000546904000b636f0300054865030003546f03000763710700224869030006547204000c6372050003486f020002547705001b63740300014875030007551b0200026375040000491b030003552e01000063790700274920030000556e020003641b070051492e030004561b030007642002000349490300015620020002642708007a496e0200035665030006642c06002b49720300055669010000642e0400044973030002571b030002643b08007b4a1b040008576103000764610400084a2e0400095765030006646405000a4a61030007576803000364650200004a6504000d576902000264660800a04a6904000c576f02000064670800ab4a6f010000581b010001646904000b4a75030005591b010000646c06001f4b1b030007596f010001646d0800a14b610300045a1b010001646e0700544b650100005b1b010001646f0400064b690300055c1b010001647205000e4b720300065d1b01000164730400094c1b0400065e1b01000164750600294c610200035f1b010001647607003c4c65020000601b01000164770800aa4c69040007611b0901cd647905000b4c6f0200026120030005651b0901734c7503000261270901ce65200300074d1b05001a612e07007265270800ba4d61010000616206000b65290901304d6305001b6163050019652c0600074d6504000f6164050007652d0800994d690200026165070019652e0500064d6f04000c616606000a653b08009a4d7504000e61670500046561040008656207000c696c04000c6e670300006563050012696d0500116e6905000f6564040000696e0200016e6a0900dd6565050014696f05001b6e6b07007a65660800bb69700600066e6c08006c656707000d69720400006e6d0900de656809013169730300056e6e05000e656906000469740300016e6f07007b656b08009b69760500026e720900df656c040002697808001c6e73040005656d060027697a0800996e7404000e656e0300026a1b0300006e75070021656f06000e6a610300016e76070034657006000f6a650300026e7907003565720300066a6f0100016e7a08004465730300036a750300036f1b09015365740500156b1b0400006f2003000165750901726b200200016f2c08004f657606002c6b270500106f2d08004e657706002f6b2c0500136f2e07002665780600056b2e0400016f42090152657906002d6b650200036f61060021657a0800b86b690300056f62060037661b0700776b6c0600246f6306002066200200026b6e0500116f64060035662e0700766b730300016f65070055666104000f6b790600256f6603000066650300006c1b07001c6f6707006866660400056c200300066f6807006966690300016c2708003c6f6907006d666c06003a6c2c06000d6f6b060012666f0300066c2d08003d6f6c04000566720300036c2e0500046f6d04000c66740400046c610300006f6e030007667505001c6c6207001d6f6f050014671b07007a6c6308003f6f7005000867200200026c640500176f72030003672707007b6c650300076f73050011672c06003e6c660600166f74050012672d07002a6c690300036f7504000b672e05000b6c6b0800b66f7606002b676104000e6c6c0300046f7705001367650200006c6d0600176f780800a8676707002b6c6e08003e6f7907006c67680300036c6f04000a701b06001b676904000d6c700500057020030000676c06003c6c720800b7702d070052676f0400046c7305000a702e060028677206003f6c7406000c706103000167730500186c7507005a706503000667750500196c7606002c706804000f67790600146c79040004706904000b681b07005c6d1b06002a706c03000268200300046d20030007706d07005368270800a86d27070056706f040007682c0800a96d2e060035707005001d682d0800ab6d3b0700577072030004682e0600296d61020000707305000c68610300036d62050014707405001c68650200036d65020001707505001568690200006d6904000c707906001a686e06002b6d6d050016711b010000686f0300026d6f0400087175010001687206002f6d70040009721b08009f68730800aa6d73050017722003000768740500166d7505001b722707004e68750600286d79060034722909013c687907005d6e1b070020722c060024691b08001d6e20020002722d0800cc692007000f6e27070023722e050011692c0901346e2c06003c723b09013d692e0800986e2d0900da726104000d696105001a6e2e05000c72620800cd69620901356e3b0900db7263060021696304000f6e6105001f726405001869640500106e620900dc7265030005696504000e6e63050009726609019f69660600276e64030006726706002569670500126e650300017269030002696b08009b6e66080045726b060032726c050004746904000d776e05001f726d050005746c07003d776f030006726e05000c746d08007f7772040006726f030000746e07003e777305001e72700800ce746f030004781b02000272720600267472050019782004000672730400077473040005782c0400077274040003747405000c782d04000c7275060020747505000e7861030007727609019e74770700607865020000727905000d74790700637869030002731b08009c751b07004c787404000d73200100007520060020791b05000a732209013c75610600277920010001732709013d75620600217927060012732c06003b7563050011792c040001732e040008756405001c792e040007733b0800eb756505001d793b0600197361060033756705001e793f070026736209013e756905001279610700277363050012756b07004d7962070030736504000d756c04000479640600017368050018756d06003f7965040002736905001c756e0300067966070031736b09013f756f0800fa7969060002736c0700747570040005796c050008736d0901d47572020000796d060000736e0901d57573030003796e05000b736f05001e7574030005796f05000d737007004d75760800fb7973040003737305001f757907007c79770600037374030005761b0500027a1b030004737506003276610300017a2004000e737708009d76650100017a2e04000f737907004c76690200017a61030000741b0800c3766f0400007a65030001742003000776730600067a6903000674270800c476790600077a6c030002742c07003c771b06001d7a6f030005742d08007e77200300017a7a030003742e05000d772e06001c7b1b010001743b09018477610300027c1b0100017461040004776504000e7d1b010001746209018577680300007e1b01000174630800c577690200027f1b0100017465030005776c06001e7468020000776d06001f".

(** [init]'s tables and trees. *)
Definition codes_of (packed : list Z) : list huffCode :=
  match unpackCodes packed with Ok l => l | _ => [] end.
Definition titleCodes : list huffCode := Eval vm_compute in codes_of titlePacked.
Definition descCodes : list huffCode := Eval vm_compute in codes_of descPacked.
Definition titleTrees : list huffTree := buildHuffman titleCodes.
Definition descTrees : list huffTree := buildHuffman descCodes.

(** The packed tables unpack: [init] does not panic. *)
Lemma tables_unpack : unpackCodes titlePacked = Ok titleCodes /\ unpackCodes descPacked = Ok descCodes.
Proof. split; vm_compute; reflexivity. Qed.

Lemma title_codes_ok : codes_ok titleCodes = true.
Proof. vm_compute. reflexivity. Qed.
Lemma desc_codes_ok : codes_ok descCodes = true.
Proof. vm_compute. reflexivity. Qed.

(** C38. Compressed titles and descriptions decode to what the station encoded.
    With either of the tables the server ships, any text of characters 1 to
    255 other than the escape itself, encoded with the table's codes and
    escapes where it has none, comes back whole, whatever padding bits follow
    in the last byte and after it. *)
Theorem huffman_roundtrip (codes : list huffCode) (s chunk : list Z) (padding : list bool)
    (Hcodes : codes = titleCodes \/ codes = descCodes)
    (Hs : Forall (fun c => 0 < c < 256 /\ c <> 27) s)
    (Hchunk : bits_of chunk = encode codes false 0 s ++ padding) :
  decodeHuffman (buildHuffman codes) chunk = Ok s.
Proof.
  assert (codes_ok codes = true) as Hok.
  { destruct Hcodes as [-> | ->]; [exact title_codes_ok | exact desc_codes_ok]. }
  unfold decodeHuffman.
  pose proof (huff_loop_encode codes Hok s chunk [] padding false 0 0 [] (Z.to_nat (zlen chunk * 8 + 1))) as H.
  change (zlen (@nil bool)) with 0 in H. apply H; [done | lia | exact Hchunk |].
  rewrite bits_of_length. unfold zlen. simpl. lia.
Qed.

(** "Zoé Q", with an escaped character past ASCII. *)
Definition zoe : list Z := [90; 111; 233; 32; 81].
Fixpoint pack (n : nat) (bs : list bool) : list Z :=
  match n with
  | O => []
  | S n => fold_left (fun v x => 2 * v + Z.b2z x) (take 8 (bs ++ replicate 8 false)) 0 :: pack n (drop 8 bs)
  end.
Definition zoe_chunk : list Z :=
  let bs := encode titleCodes false 0 zoe in pack ((length bs + 7) / 8) bs.

Lemma huffman_roundtrip_witness : decodeHuffman (buildHuffman titleCodes) zoe_chunk = Ok zoe.
Proof.
  apply (huffman_roundtrip titleCodes zoe zoe_chunk
    (drop (length (encode titleCodes false 0 zoe)) (bits_of zoe_chunk))).
  - by left.
  - unfold zoe. repeat (apply Forall_cons; split; [lia |]). constructor.
  - vm_compute. reflexivity.
Defined.
