(* ===== verification/Psip.v ===== *)
(** The ATSC guide reader, [server/internal/psip/parse.go], [harvest.go] and
    [merge.go]: packets to sections, sections to tables, tables to a guide.

    A time is nanoseconds after the GPS epoch. *)
From S2P Require Import Prelude Mpeg CapTs Crc PsipText.
Local Open Scope Z_scope.
Local Open Scope go_scope.

Definition pidBase : Z := 0x1FFB.
Definition tableMGT : Z := 0xC7.
Definition tableVCT : Z := 0xC8.
Definition tableCVCT : Z := 0xC9.
Definition tableEIT : Z := 0xCB.
Definition tableETT : Z := 0xCC.
Definition tableSTT : Z := 0xCD.
Definition tagGenre : Z := 0xAB.
Definition tagCaptionService : Z := 0x86.
Definition maxCapture : Z := Z.shiftl 512 10.

Record Channel : Type := mkChannel {
  Major : Z; Minor : Z; ShortName : list Z; ch_SourceID : Z; Program : Z }.
Record Event : Type := mkEvent {
  ev_SourceID : Z; ev_EventID : Z; Title : list Z; ev_Start : Z; ev_End : Z;
  Genres : list string; Captions : bool }.
Record Text : Type := mkText { tx_SourceID : Z; tx_EventID : Z; Body : list Z }.
Record Guide : Type := mkGuide {
  Channels : list Channel; Events : list Event; Texts : list Text;
  EITPIDs : gmap Z Z; Offset : Z }.

(** ** Packets *)

Definition synced (data : list Z) (i : Z) : res bool :=
  let! b := idx data i in
  if negb (b =? 0x47) then Ok false
  else if zlen data <=? i + 188 then Ok true
  else let! c := idx data (i + 188) in Ok (c =? 0x47).

(** The loop of [Packets]: the packets [fn] was called with, and where it
    stopped. *)
Fixpoint packets_loop (fuel : nat) (data : list Z) (i : Z) (pkts : list (list Z))
    : res (list (list Z) * Z) :=
  if negb (i + 188 <=? zlen data) then Ok (pkts, i)
  else
    match fuel with
    | O => NoFuel
    | S fuel =>
        let! s := synced data i in
        if negb s then packets_loop fuel data (i + 1) pkts
        else
          let! p := slice data i (i + 188) in
          packets_loop fuel data (i + 188) (pkts ++ [p])
    end.

Definition Packets (rest chunk : list Z) : res (list (list Z) * list Z) :=
  let data := rest ++ chunk in
  let! ' (pkts, i) := packets_loop (length data) data 0 [] in
  if zlen data <=? i then Ok (pkts, [])
  else let! r := slice_from data i in Ok (pkts, r).

(** ** Sections *)

(** The sections at the front of an accumulator that are whole. *)
Fixpoint take_sections (fuel : nat) (pid : Z) (buf : list Z) (out : list (Z * list Z))
    : res (list Z * list (Z * list Z)) :=
  if zlen buf <? 3 then Ok (buf, out)
  else
    match fuel with
    | O => NoFuel
    | S fuel =>
        let! b1 := idx buf 1 in let! b2 := idx buf 2 in
        let seclen := be16 (Z.land b1 0x0F) b2 in
        let total := 3 + seclen in
        if ((seclen <? 4) || (4096 <? total))%bool then Ok ([], out)
        else if zlen buf <? total then Ok (buf, out)
        else
          let! body := slice buf 0 total in
          let! ok := crcOK body in
          let! rest := slice_from buf total in
          take_sections fuel pid rest (if ok then out ++ [(pid, body)] else out)
    end.

(** [open]: the accumulators by PID; a missing key is a nil one. *)
Definition assembly : Type := gmap Z (list Z) * list (Z * list Z).

Definition assemble_packet (st : assembly) (pkt : list Z) : res assembly :=
  let '(open, out) := st in
  let! b1 := idx pkt 1 in let! b2 := idx pkt 2 in
  let pid := be16 (Z.land b1 0x1F) b2 in
  if (negb (pid =? pidBase) && ((pid <? 0x1300) || (0x1FFF <? pid)))%bool then Ok st
  else
    let pusi := negb (Z.land b1 0x40 =? 0) in
    let! b3 := idx pkt 3 in
    let afc := Z.land (Z.shiftr b3 4) 3 in
    let! off := if negb (Z.land afc 2 =? 0) then let! n := idx pkt 4 in Ok (5 + n) else Ok 4 in
    if 188 <? off then Ok st
    else
      let! payload := slice_from pkt off in
      if zlen payload =? 0 then Ok st
      else
        let! o :=
          if pusi then
            let! pointer := idx payload 0 in
            if zlen payload <? pointer + 1 then Ok None
            else
              let! p := slice_from payload (1 + pointer) in
              Ok (Some (p, <[pid := []]> open))
          else Ok (Some (payload, open)) in
        match o with
        | None => Ok st
        | Some (payload, open) =>
            match open !! pid with
            | None => Ok (open, out)
            | Some buf =>
                let! ' (buf, out) := take_sections (length (buf ++ payload)) pid (buf ++ payload) out in
                Ok (<[pid := buf]> open, out)
            end
        end.

Fixpoint assemble_all (st : assembly) (pkts : list (list Z)) : res assembly :=
  match pkts with
  | [] => Ok st
  | p :: pkts => let! st := assemble_packet st p in assemble_all st pkts
  end.

Definition assemble (raw : list Z) : res (list (Z * list Z)) :=
  let! ' (pkts, _) := Packets [] raw in
  let! ' (_, out) := assemble_all (∅, []) pkts in
  Ok out.

(** ** Tables *)

Definition u16at (b : list Z) (pos : Z) : res Z :=
  let! s := slice b pos (pos + 2) in uint16 s.

Fixpoint mgt_loop (n : nat) (b : list Z) (pos : Z) (out : gmap Z Z) : res (gmap Z Z) :=
  match n with
  | O => Ok out
  | S n =>
      if negb (pos + 11 <=? zlen b - 4) then Ok out else
      let! tableType := u16at b pos in
      let! p := u16at b (pos + 2) in
      let pid := Z.land p 0x1FFF in
      let! d := u16at b (pos + 9) in
      let descLen := Z.land d 0x0FFF in
      let pos := pos + 11 in
      if zlen b - 4 <? pos + descLen then Ok out
      else
        mgt_loop n b (pos + descLen)
          (if ((0x0100 <=? tableType) && (tableType <=? 0x017F))%bool
           then <[tableType - 0x0100 := pid]> out else out)
  end.
Definition parseMGT (b : list Z) : res (gmap Z Z) :=
  if zlen b <? 11 then Ok ∅
  else let! n := u16at b 9 in mgt_loop (Z.to_nat n) b 11 ∅.

(** [utf16Name]; a surrogate is written as U+FFFD. *)
Fixpoint name_runes (n : nat) (b : list Z) (i : Z) : res (list Z) :=
  match n with
  | O => Ok []
  | S n =>
      let! r := u16at b i in
      if r =? 0 then Ok []
      else let! l := name_runes n b (i + 2) in Ok ((if surr r then 0xFFFD else r) :: l)
  end.
Definition utf16Name (b : list Z) : res (list Z) :=
  if zlen b <? 14 then Ok [] else name_runes 7 b 0.

Fixpoint vct_loop (n : nat) (b : list Z) (pos : Z) (out : list Channel) : res (list Channel) :=
  match n with
  | O => Ok out
  | S n =>
      if negb (pos + 32 <=? zlen b - 4) then Ok out else
      let! nb := slice b pos (pos + 14) in
      let! name := utf16Name nb in
      let pos := pos + 14 in
      let! w0 := idx b pos in let! w1 := idx b (pos + 1) in let! w2 := idx b (pos + 2) in
      let word := be16 (be16 w0 w1) w2 in
      let major := Z.land (Z.shiftr word 10) 0x3FF in
      let minor := Z.land word 0x3FF in
      let pos := pos + (3 + 1 + 4 + 2) in
      let! program := u16at b pos in
      let pos := pos + (2 + 2) in
      let! source := u16at b pos in
      let pos := pos + 2 in
      let! d := u16at b pos in
      let descLen := Z.land d 0x03FF in
      let pos := pos + 2 in
      if zlen b - 4 <? pos + descLen then Ok out
      else vct_loop n b (pos + descLen) (out ++ [mkChannel major minor name source program])
  end.
Definition parseVCT (b : list Z) : res (list Channel) :=
  if zlen b <? 11 then Ok []
  else let! n := idx b 9 in vct_loop (Z.to_nat n) b 10 [].

Definition parseSTTOffset (b : list Z) : res (option Z) :=
  if zlen b <? 14 then Ok None else let! o := idx b 13 in Ok (Some o).

Definition genreName (attr : Z) : string :=
  if attr =? 0x20 then "Education"%string else if attr =? 0x21 then "Entertainment"%string
  else if attr =? 0x22 then "Movie"%string else if attr =? 0x23 then "News"%string
  else if attr =? 0x24 then "Religious"%string else if attr =? 0x25 then "Sports"%string
  else if attr =? 0x26 then "Series"%string else if attr =? 0x27 then "Special"%string
  else if attr =? 0x34 then "Football"%string else if attr =? 0x35 then "Basketball"%string
  else if attr =? 0x37 then "Baseball"%string else if attr =? 0x39 then "Hockey"%string
  else EmptyString.

Fixpoint hasDescriptor_loop (fuel : nat) (desc : list Z) (tag : Z) : res bool :=
  if zlen desc <? 2 then Ok false
  else
    match fuel with
    | O => NoFuel
    | S fuel =>
        let! t := idx desc 0 in let! n := idx desc 1 in
        let! desc := slice_from desc 2 in
        if zlen desc <? n then Ok false
        else if t =? tag then Ok true
        else let! desc := slice_from desc n in hasDescriptor_loop fuel desc tag
    end.
Definition hasDescriptor (desc : list Z) (tag : Z) : res bool :=
  hasDescriptor_loop (length desc) desc tag.

Fixpoint genres_loop (fuel : nat) (desc : list Z) (out : list string) : res (list string) :=
  if zlen desc <? 2 then Ok out
  else
    match fuel with
    | O => NoFuel
    | S fuel =>
        let! tag := idx desc 0 in let! n := idx desc 1 in
        let! desc := slice_from desc 2 in
        if zlen desc <? n then Ok out
        else
          let! body := slice desc 0 n in
          let! desc := slice_from desc n in
          if (negb (tag =? tagGenre) || (zlen body <? 1))%bool then genres_loop fuel desc out
          else genres_loop fuel desc (out ++ filter (fun s => s <> EmptyString) (map genreName body))
    end.
Definition genresIn (desc : list Z) : res (list string) := genres_loop (length desc) desc [].

(** [time.Duration(n) * time.Second], an int64. *)
Definition seconds (n : Z) : Z := int64 (n * 1000000000).

Section guide.
(** [decodeText]: the language of the server and the trees it decodes with. *)
Context (decodeText : list Z -> res (list Z)).

Fixpoint eit_loop (n : nat) (b : list Z) (pos source offset : Z) (out : list Event) : res (list Event) :=
  match n with
  | O => Ok out
  | S n =>
      if negb (pos + 8 <=? zlen b - 4) then Ok out else
      let! e := u16at b pos in
      let eventID := Z.land e 0x3FFF in
      let! gs := slice b (pos + 2) (pos + 6) in
      let! startGPS := uint32 gs in
      if zlen b - 4 <=? pos + 9 then Ok out else
      let! p0 := idx b (pos + 6) in let! p1 := idx b (pos + 7) in let! p2 := idx b (pos + 8) in
      let len := Z.land (be16 (be16 p0 p1) p2) 0x000FFFFF in
      let pos := pos + 9 in
      if zlen b - 4 <=? pos then Ok out else
      let! titleLen := idx b pos in
      let pos := pos + 1 in
      if zlen b - 4 <? pos + titleLen then Ok out else
      let! tb := slice b pos (pos + titleLen) in
      let! title := decodeText tb in
      let pos := pos + titleLen in
      if zlen b - 4 <? pos + 2 then Ok out else
      let! d := u16at b pos in
      let descLen := Z.land d 0x0FFF in
      let pos := pos + 2 in
      if zlen b - 4 <? pos + descLen then Ok out else
      let! desc := slice b pos (pos + descLen) in
      let! genres := genresIn desc in
      let! captions := hasDescriptor desc tagCaptionService in
      let start := seconds startGPS - seconds offset in
      eit_loop n b (pos + descLen) source offset
        (out ++ [mkEvent source eventID title start (start + seconds len) genres captions])
  end.
Definition parseEIT (b : list Z) (offset : Z) : res (list Event) :=
  if zlen b <? 11 then Ok []
  else
    let! source := u16at b 3 in
    let! n := idx b 9 in
    eit_loop (Z.to_nat n) b 10 source offset [].

Definition parseETT (b : list Z) : res (option Text) :=
  if zlen b <? 17 then Ok None
  else
    let! eb := slice b 9 13 in
    let! etm := uint32 eb in
    let source := Z.land (Z.shiftr etm 16) 0xFFFF in
    let event := Z.land (Z.shiftr etm 2) 0x3FFF in
    let! tb := slice b 13 (zlen b - 4) in
    let! body := decodeText tb in
    if bytes_equal body [] then Ok None else Ok (Some (mkText source event body)).

(** [Parse]'s first pass: the map, the channels and the clock offset. *)
Fixpoint parse_tables (secs : list (Z * list Z)) (pids : gmap Z Z) (chs : list Channel)
    (off : option Z) : res (gmap Z Z * list Channel * option Z) :=
  match secs with
  | [] => Ok (pids, chs, off)
  | (_, body) :: secs =>
      match body with
      | [] => parse_tables secs pids chs off
      | t :: _ =>
          if t =? tableMGT then
            let! m := parseMGT body in parse_tables secs (m ∪ pids) chs off
          else if ((t =? tableVCT) || (t =? tableCVCT))%bool then
            let! l := parseVCT body in parse_tables secs pids (chs ++ l) off
          else if t =? tableSTT then
            let! o := parseSTTOffset body in
            parse_tables secs pids chs (match o with Some v => Some v | None => off end)
          else parse_tables secs pids chs off
      end
  end.

(** Its second pass, with the offset. *)
Fixpoint parse_listings (secs : list (Z * list Z)) (offset : Z) (evs : list Event) (txs : list Text)
    : res (list Event * list Text) :=
  match secs with
  | [] => Ok (evs, txs)
  | (_, body) :: secs =>
      match body with
      | [] => parse_listings secs offset evs txs
      | t :: _ =>
          if t =? tableEIT then
            let! l := parseEIT body offset in parse_listings secs offset (evs ++ l) txs
          else if t =? tableETT then
            let! o := parseETT body in
            parse_listings secs offset evs (match o with Some x => txs ++ [x] | None => txs end)
          else parse_listings secs offset evs txs
      end
  end.

Definition Parse (r : list Z) : res Guide :=
  let raw := take (Z.to_nat maxCapture) r in
  let! sections := assemble raw in
  let! ' (pids, chs, off) := parse_tables sections ∅ [] None in
  let offset := default 0 off in
  let! ' (evs, txs) := parse_listings sections offset [] [] in
  Ok (mkGuide chs evs txs pids (match off with Some o => seconds o | None => 0 end)).

(** ** The harvester *)

Record Harvester : Type := mkHarvester { buf : list Z; reported : Z; rest : list Z }.

Definition keepWindow : Z := 128 * 1024 / 188 * 188.

Fixpoint keep_packets (pkts : list (list Z)) (b : list Z) : res (list Z) :=
  match pkts with
  | [] => Ok b
  | pkt :: pkts =>
      let! b1 := idx pkt 1 in let! b2 := idx pkt 2 in
      let pid := be16 (Z.land b1 0x1F) b2 in
      keep_packets pkts
        (if ((pid =? pidBase) || ((0x1300 <=? pid) && (pid <=? 0x1500)))%bool then b ++ pkt else b)
  end.

Definition Add (h : Harvester) (chunk : list Z) : res (Harvester * option Guide) :=
  let! ' (pkts, rest) := Packets (rest h) chunk in
  let! b := keep_packets pkts (buf h) in
  if zlen b <? reported h + 32 * 1024 then Ok (mkHarvester b (reported h) rest, None)
  else
    let! g := Parse b in
    let b' := if 256 * 1024 <? zlen b then drop (Z.to_nat (zlen b - keepWindow)) b else b in
    let h := mkHarvester b' (zlen b') rest in
    Ok (h, match Events g with [] => None | _ => Some g end).
End guide.

(** ** Gaps *)

Record Span : Type := mkSpan { ChannelID : Z; sp_Start : Z; sp_End : Z }.

Fixpoint overlaps (have : list Span) (row : Span) : bool :=
  match have with
  | [] => false
  | got :: have =>
      if negb (ChannelID got =? ChannelID row) then overlaps have row
      else if ((sp_Start row <? sp_End got) && (sp_Start got <? sp_End row))%bool then true
      else overlaps have row
  end.
Definition FillGaps (have extra : list Span) : list Span :=
  filter (fun row => ((sp_Start row <? sp_End row) && negb (overlaps have row))%bool = true) extra.

(** ** Nothing panics *)

Definition packet_ok (p : list Z) : Prop := zlen p = 188 /\ bytes_ok p.

Lemma packets_loop_returns fuel data i pkts :
  bytes_ok data -> 0 <= i <= zlen data -> zlen data - i < Z.of_nat fuel + 188 ->
  Forall packet_ok pkts ->
  returns (packets_loop fuel data i pkts) (fun r =>
    Forall packet_ok r.1 /\ i <= r.2 <= zlen data /\ zlen data < r.2 + 188).
Proof.
  intros Hd. revert i pkts. induction fuel as [| fuel IH]; intros i pkts Hi Hf Hp; cbn [packets_loop].
  { replace (i + 188 <=? zlen data) with false by lia. simpl. split_and!; [done | lia | lia | lia]. }
  destruct (Z.leb_spec (i + 188) (zlen data)) as [Hle | Hgt]; cbn [negb].
  2: { apply returns_Ok. simpl. split_and!; [done | lia | lia | lia]. }
  apply returns_bind. eapply returns_mono.
  { instantiate (1 := fun _ => True). unfold synced. go_steps; done. }
  intros [|] _; cbn [negb].
  - go_step. go_step. eapply returns_mono; [apply IH; [lia | lia |] |].
    + apply Forall_app. split; [done |]. apply Forall_singleton. split; [lia | done].
    + intros r (K1 & K2 & K3). split_and!; [done | lia | lia | lia].
  - eapply returns_mono; [apply IH; [lia | lia | done] |].
    intros r (H1 & H2 & H3). split_and!; [done | lia | lia | lia].
Qed.

Lemma Packets_returns rest chunk :
  bytes_ok rest -> bytes_ok chunk ->
  returns (Packets rest chunk) (fun r => Forall packet_ok r.1 /\ bytes_ok r.2 /\ zlen r.2 < 188).
Proof.
  intros Hr Hc. unfold Packets. set (data := rest ++ chunk).
  assert (bytes_ok data) as Hd by (by apply bytes_ok_app).
  apply returns_bind. eapply returns_mono.
  { apply packets_loop_returns; [done | pose proof (zlen_nonneg data); lia | unfold zlen; lia | constructor]. }
  intros [pkts i] (H1 & H2 & H3). simpl in H1, H2, H3. destruct (Z.leb_spec (zlen data) i).
  - apply returns_Ok. split_and!; [done | constructor | done].
  - apply returns_bind, returns_slice_from; [done | lia |]. intros s Hs Hl _. apply returns_Ok.
    simpl. split_and!; [done | done | lia].
Qed.

Definition section_ok (s : Z * list Z) : Prop := bytes_ok (snd s) /\ 7 <= zlen (snd s) <= 4096 /\ crcOK (snd s) = Ok true.

Lemma crcOK_returns s : bytes_ok s -> returns (crcOK s) (fun _ => True).
Proof. intros Hs. unfold crcOK. go_steps; done. Qed.

Lemma take_sections_returns fuel pid b out :
  bytes_ok b -> zlen b < 3 + Z.of_nat fuel -> Forall section_ok out ->
  returns (take_sections fuel pid b out) (fun r =>
    bytes_ok r.1 /\ zlen r.1 < 4096 /\ Forall section_ok r.2).
Proof.
  revert b out. induction fuel as [| fuel IH]; intros b out Hb Hf Ho; cbn [take_sections].
  { replace (zlen b <? 3) with true by lia. simpl. split_and!; [done | lia | done]. }
  destruct (Z.ltb_spec (zlen b) 3) as [|Hl]; [simpl; split_and!; [done | lia | done] |].
  go_step. go_step. go_step. go_step.
  assert (0 <= be16 (Z.land v 15) v0 <= 15 * 256 + 255) as Hlen by blia.
  set (seclen := be16 (Z.land v 15) v0) in *.
  destruct ((seclen <? 4) || (4096 <? 3 + seclen))%bool eqn:E.
  { simpl. split_and!; [apply bytes_ok_nil | done | done]. }
  destruct (Z.ltb_spec (zlen b) (3 + seclen)) as [|Hge]; [simpl; split_and!; [done | lia | done] |].
  apply returns_bind, returns_slice; [done | lia | lia |]. intros body Hbody Hbl _.
  apply returns_bind. pose proof (crcOK_returns body Hbody) as Hcrc.
  destruct (crcOK body) as [ok | |] eqn:Eok; [| done | done]. cbn [returns].
  apply returns_bind, returns_slice_from; [done | lia |]. intros rs Hrs Hrl _.
  apply IH; [done | lia |]. destruct ok; [| done]. apply Forall_app. split; [done |].
  apply Forall_singleton. split_and!; [done | simpl; lia | simpl; lia | done].
Qed.

Definition assembly_ok (st : assembly) : Prop :=
  map_Forall (fun _ b => bytes_ok b /\ zlen b < 4096) (fst st) /\ Forall section_ok (snd st).

Lemma assemble_packet_returns st pkt :
  assembly_ok st -> packet_ok pkt -> returns (assemble_packet st pkt) assembly_ok.
Proof.
  intros [Ho Hout] [Hl Hb]. destruct st as [open out]. unfold assemble_packet.
  cbn [fst snd] in Ho, Hout.
  assert (assembly_ok (open, out)) as Hst by done.
  go_step. go_step. go_step. go_step. set (pid := be16 (Z.land v 31) v0).
  destruct (_ && _)%bool; [done |]. go_step. go_step.
  assert (returns (if negb (Z.land (Z.land (Z.shiftr v1 4) 3) 2 =? 0)
    then let! n := idx pkt 4 in Ok (5 + n) else Ok 4) (fun off => 4 <= off <= 260)) as Hoff.
  { destruct (negb _); [| simpl; lia]. go_steps. blia. }
  apply returns_bind. eapply returns_mono; [exact Hoff |]. intros off Hoffb. cbv beta in Hoffb.
  destruct (Z.ltb_spec 188 off); [done |]. apply returns_bind, returns_slice_from; [done | lia |].
  intros payload Hp Hpl _. destruct (Z.eqb_spec (zlen payload) 0); [done |].
  apply returns_bind. eapply returns_mono.
  { instantiate (1 := fun o => match o with
      | Some (p, op) => bytes_ok p /\ map_Forall (fun _ b => bytes_ok b /\ zlen b < 4096) op
      | None => True end).
    destruct (negb (Z.land v 64 =? 0)); [| done]. pose proof (zlen_nonneg payload).
    go_step. go_step. destruct (Z.ltb_spec (zlen payload) (v2 + 1)); [done |].
    apply returns_bind, returns_slice_from; [done | blia |]. intros p Hpb _ _. apply returns_Ok.
    split; [done |]. apply map_Forall_insert_2; [split; [constructor | done] | done]. }
  intros [[p op]|] Hpo; [| done]. destruct Hpo as [Hpb Hop].
  destruct (op !! pid) as [b|] eqn:Eb; [| done]. destruct (Hop _ _ Eb) as [Hbb Hbl].
  apply returns_bind. eapply returns_mono.
  { apply take_sections_returns; [by apply bytes_ok_app | unfold zlen; lia | done]. }
  intros [nb no] (K1 & K2 & K3). apply returns_Ok. split; [| done].
  by apply map_Forall_insert_2.
Qed.

Lemma assemble_all_returns st pkts :
  assembly_ok st -> Forall packet_ok pkts -> returns (assemble_all st pkts) assembly_ok.
Proof.
  intros Hst Hp. revert st Hst. induction Hp as [| p pkts Hp _ IH]; intros st Hst; [done |].
  cbn [assemble_all]. apply returns_bind. eapply returns_mono; [by apply assemble_packet_returns |].
  intros st' H. by apply IH.
Qed.

Lemma assemble_returns raw : bytes_ok raw -> returns (assemble raw) (Forall section_ok).
Proof.
  intros Hb. unfold assemble. apply returns_bind. eapply returns_mono.
  { apply Packets_returns; [constructor | done]. }
  intros [pkts r] (H1 & _). apply returns_bind. eapply returns_mono.
  { apply (assemble_all_returns (∅, [])); [| exact H1]. split; [apply map_Forall_empty | constructor]. }
  intros [op out] [_ H]. by apply returns_Ok.
Qed.

Lemma returns_u16at b pos (Q : Z -> Prop) :
  bytes_ok b -> 0 <= pos -> pos + 2 <= zlen b -> (forall v, 0 <= v < 2 ^ 16 -> Q v) -> returns (u16at b pos) Q.
Proof.
  intros Hb Hp Hl HQ. unfold u16at. apply returns_bind, returns_slice; [done | lia | lia |].
  intros s Hs Hz _. apply returns_uint16; [done | lia | done].
Qed.

Lemma mgt_loop_returns n b pos out :
  bytes_ok b -> 0 <= pos -> returns (mgt_loop n b pos out) (fun _ => True).
Proof.
  intros Hb. revert pos out. induction n as [| n IH]; intros pos out Hp; cbn [mgt_loop]; [done |].
  destruct (Z.leb_spec (pos + 11) (zlen b - 4)); cbn [negb]; [| done].
  apply returns_bind, returns_u16at; [done | lia | lia |]. intros tt _.
  apply returns_bind, returns_u16at; [done | lia | lia |]. intros p _.
  apply returns_bind, returns_u16at; [done | lia | lia |]. intros d _.
  destruct (_ <? _); [done |]. apply IH. pose proof (land_bound d 0x0FFF ltac:(lia)). lia.
Qed.

Lemma parseMGT_returns b : bytes_ok b -> returns (parseMGT b) (fun _ => True).
Proof.
  intros Hb. unfold parseMGT. destruct (Z.ltb_spec (zlen b) 11); [done |].
  apply returns_bind, returns_u16at; [done | lia | lia |]. intros n _. by apply mgt_loop_returns.
Qed.

Lemma name_runes_returns n b i :
  bytes_ok b -> 0 <= i -> i + 2 * Z.of_nat n <= zlen b -> returns (name_runes n b i) (fun _ => True).
Proof.
  intros Hb. revert i. induction n as [| n IH]; intros i Hi Hl; cbn [name_runes]; [done |].
  apply returns_bind, returns_u16at; [done | lia | lia |]. intros r _. destruct (r =? 0); [done |].
  apply returns_bind. eapply returns_mono; [apply IH; lia |]. done.
Qed.

Lemma vct_loop_returns n b pos out :
  bytes_ok b -> 0 <= pos -> returns (vct_loop n b pos out) (fun _ => True).
Proof.
  intros Hb. revert pos out. induction n as [| n IH]; intros pos out Hp; cbn [vct_loop]; [done |].
  destruct (Z.leb_spec (pos + 32) (zlen b - 4)); cbn [negb]; [| done].
  apply returns_bind, returns_slice; [done | lia | lia |]. intros nb Hnb Hl _.
  apply returns_bind. eapply returns_mono.
  { instantiate (1 := fun _ => True). unfold utf16Name. destruct (_ <? _); [done |].
    apply name_runes_returns; [done | lia | lia]. }
  intros name _. go_steps.
  apply returns_u16at; [done | lia | lia |]. intros pg _.
  apply returns_bind, returns_u16at; [done | lia | lia |]. intros sr _.
  apply returns_bind, returns_u16at; [done | lia | lia |]. intros d _.
  destruct (_ <? _); [done |]. apply IH. pose proof (land_bound d 0x03FF ltac:(lia)). lia.
Qed.

Lemma parseVCT_returns b : bytes_ok b -> returns (parseVCT b) (fun _ => True).
Proof.
  intros Hb. unfold parseVCT. destruct (Z.ltb_spec (zlen b) 11); [done |]. go_steps.
  by apply vct_loop_returns.
Qed.

Lemma hasDescriptor_returns fuel desc tag :
  bytes_ok desc -> zlen desc < Z.of_nat fuel + 2 -> returns (hasDescriptor_loop fuel desc tag) (fun _ => True).
Proof.
  revert desc. induction fuel as [| fuel IH]; intros desc Hb Hf; cbn [hasDescriptor_loop].
  { by replace (zlen desc <? 2) with true by lia. }
  destruct (Z.ltb_spec (zlen desc) 2); [done |]. go_step. go_step. go_step. go_step.
  apply returns_bind, returns_slice_from; [done | lia |]. intros d2 Hd2 Hl2 _.
  destruct (Z.ltb_spec (zlen d2) v0); [done |]. destruct (_ =? _); [done |].
  apply returns_bind, returns_slice_from; [done | blia |]. intros d3 Hd3 Hl3 _. apply IH; [done | blia].
Qed.

Lemma genres_returns fuel desc out :
  bytes_ok desc -> zlen desc < Z.of_nat fuel + 2 -> returns (genres_loop fuel desc out) (fun _ => True).
Proof.
  revert desc out. induction fuel as [| fuel IH]; intros desc out Hb Hf; cbn [genres_loop].
  { by replace (zlen desc <? 2) with true by lia. }
  destruct (Z.ltb_spec (zlen desc) 2); [done |]. go_step. go_step. go_step. go_step.
  apply returns_bind, returns_slice_from; [done | lia |]. intros d2 Hd2 Hl2 _.
  destruct (Z.ltb_spec (zlen d2) v0); [done |].
  apply returns_bind, returns_slice; [done | blia | lia |]. intros body _ _ _.
  apply returns_bind, returns_slice_from; [done | blia |]. intros d3 Hd3 Hl3 _.
  destruct (_ || _)%bool; apply IH; done || blia.
Qed.

Lemma seconds_exact n : - 2 ^ 33 < n < 2 ^ 33 -> seconds n = n * 1000000000.
Proof. intros Hn. unfold seconds, int64. rewrite Z.mod_small by lia. lia. Qed.

(** What the times of a listing can be: no duration overflowed. *)
Definition event_ok (e : Event) : Prop :=
  exists start offset len, 0 <= start < 2 ^ 32 /\ 0 <= offset < 256 /\ 0 <= len < 2 ^ 20 /\
    ev_Start e = (start - offset) * 1000000000 /\ ev_End e = ev_Start e + len * 1000000000.

Section total.
Context (decodeText : list Z -> res (list Z)).
Context (HdecodeText : forall b, bytes_ok b -> returns (decodeText b) (fun _ => True)).

Lemma eit_loop_returns n b pos source offset out :
  bytes_ok b -> 0 <= pos -> 0 <= offset < 256 -> Forall event_ok out ->
  returns (eit_loop decodeText n b pos source offset out) (Forall event_ok).
Proof.
  intros Hb. revert pos out. induction n as [| n IH]; intros pos out Hp Hoff Ho; cbn [eit_loop]; [done |].
  destruct (Z.leb_spec (pos + 8) (zlen b - 4)); cbn [negb]; [| done].
  apply returns_bind, returns_u16at; [done | lia | lia |]. intros e _.
  apply returns_bind, returns_slice; [done | lia | lia |]. intros gs Hgs Hgl _.
  apply returns_bind, returns_uint32; [done | lia |]. intros start Hstart.
  destruct (Z.leb_spec (zlen b - 4) (pos + 9)); [done |].
  go_step. go_step. go_step. go_step. go_step. go_step.
  go_step. go_step.
  destruct (Z.ltb_spec (zlen b - 4) (pos + 9 + 1 + v2)); [done |].
  apply returns_bind, returns_slice; [done | blia | lia |]. intros tb Htb _ _.
  apply returns_bind. eapply returns_mono; [by apply HdecodeText |]. intros title _.
  destruct (Z.ltb_spec (zlen b - 4) (pos + 9 + 1 + v2 + 2)); [done |].
  apply returns_bind, returns_u16at; [done | blia | lia |]. intros d _.
  pose proof (land_bound d 0x0FFF ltac:(lia)).
  destruct (Z.ltb_spec (zlen b - 4) (pos + 9 + 1 + v2 + 2 + Z.land d 0x0FFF)); [done |].
  apply returns_bind, returns_slice; [done | blia | lia |]. intros desc Hdesc _ _.
  apply returns_bind. eapply returns_mono.
  { apply genres_returns; [done | unfold zlen; lia]. }
  intros genres _. apply returns_bind. eapply returns_mono.
  { apply hasDescriptor_returns; [done | unfold zlen; lia]. }
  intros caps _. apply IH; [blia | done |]. apply Forall_app. split; [done |]. apply Forall_singleton.
  pose proof (land_bound (be16 (be16 v v0) v1) 0x000FFFFF ltac:(lia)).
  exists start, offset, (Z.land (be16 (be16 v v0) v1) 0x000FFFFF).
  split_and!; try lia; cbn [ev_Start ev_End]; rewrite !seconds_exact by lia; lia.
Qed.

Lemma parseEIT_returns b offset :
  bytes_ok b -> 0 <= offset < 256 -> returns (parseEIT decodeText b offset) (Forall event_ok).
Proof.
  intros Hb Ho. unfold parseEIT. destruct (Z.ltb_spec (zlen b) 11); [constructor |].
  apply returns_bind, returns_u16at; [done | lia | lia |]. intros sr _. go_steps.
  apply eit_loop_returns; [done | lia | done | constructor].
Qed.

Lemma parseETT_returns b : bytes_ok b -> returns (parseETT decodeText b) (fun _ => True).
Proof.
  intros Hb. unfold parseETT. destruct (Z.ltb_spec (zlen b) 17); [done |].
  apply returns_bind, returns_slice; [done | lia | lia |]. intros eb Heb Hel _.
  apply returns_bind, returns_uint32; [done | lia |]. intros etm _.
  apply returns_bind, returns_slice; [done | lia | lia |]. intros tb Htb _ _.
  apply returns_bind. eapply returns_mono; [by apply HdecodeText |]. intros body _.
  by destruct (bytes_equal body []).
Qed.

Lemma parse_tables_returns secs pids chs off :
  Forall section_ok secs -> match off with Some o => 0 <= o < 256 | None => True end ->
  returns (parse_tables secs pids chs off) (fun r => match r.2 with Some o => 0 <= o < 256 | None => True end).
Proof.
  intros Hs. revert pids chs off. induction Hs as [| [pid body] secs (Hb & _) _ IH]; intros pids chs off Ho;
    cbn [parse_tables]; [done |]. cbn [snd] in Hb.
  destruct body as [| t body]; [by apply IH |].
  destruct (t =? tableMGT).
  { apply returns_bind. eapply returns_mono; [by apply parseMGT_returns |]. intros m _. by apply IH. }
  destruct (_ || _)%bool.
  { apply returns_bind. eapply returns_mono; [by apply parseVCT_returns |]. intros l _. by apply IH. }
  destruct (t =? tableSTT); [| by apply IH].
  apply returns_bind. eapply returns_mono.
  { instantiate (1 := fun o => match o with Some o => 0 <= o < 256 | None => True end).
    unfold parseSTTOffset. destruct (Z.ltb_spec (zlen (t :: body)) 14); [done |]. go_steps. done. }
  intros [o|] H; by apply IH.
Qed.

Lemma parse_listings_returns secs offset evs txs :
  Forall section_ok secs -> 0 <= offset < 256 -> Forall event_ok evs ->
  returns (parse_listings decodeText secs offset evs txs) (fun r => Forall event_ok r.1).
Proof.
  intros Hs. revert evs txs. induction Hs as [| [pid body] secs (Hb & _) _ IH]; intros evs txs Ho He;
    cbn [parse_listings]; [done |]. cbn [snd] in Hb.
  destruct body as [| t body]; [by apply IH |].
  destruct (t =? tableEIT).
  { apply returns_bind. eapply returns_mono; [by apply parseEIT_returns |]. intros l Hl. apply IH; [done |].
    by apply Forall_app. }
  destruct (t =? tableETT); [| by apply IH].
  apply returns_bind. eapply returns_mono; [by apply parseETT_returns |]. intros o _. by apply IH.
Qed.

Lemma Parse_returns r : bytes_ok r -> returns (Parse decodeText r) (fun g => Forall event_ok (Events g)).
Proof.
  intros Hb. unfold Parse. apply returns_bind. eapply returns_mono.
  { apply assemble_returns. by apply bytes_ok_take. }
  intros secs Hs. apply returns_bind. eapply returns_mono; [by apply parse_tables_returns |].
  intros [[pids chs] off] Ho. simpl in Ho. apply returns_bind. eapply returns_mono.
  { apply parse_listings_returns; [done | destruct off; simpl; lia | constructor]. }
  intros [evs txs] He. apply returns_Ok. exact He.
Qed.
End total.

(** ** Packets in any number of reads *)

Definition aligned (p : list Z) : Prop := zlen p = 188 /\ head p = Some 0x47.
(** The start of a packet that is not whole yet. *)
Definition partial (t : list Z) : Prop := zlen t < 188 /\ (t = [] \/ head t = Some 0x47).

Lemma idx_shift (p t : list Z) i : 0 <= i -> idx (p ++ t) (zlen p + i) = idx t i.
Proof.
  intros Hi. unfold idx. pose proof (zlen_nonneg p).
  destruct (Z.ltb_spec (zlen p + i) 0); [lia |]. destruct (Z.ltb_spec i 0); [lia |].
  rewrite lookup_app_r by (unfold zlen; lia).
  replace (Z.to_nat (zlen p + i) - length p)%nat with (Z.to_nat i) by (unfold zlen; lia). done.
Qed.

Lemma packets_loop_aligned fuel ps : forall done_ tail acc,
  Forall aligned ps -> partial tail -> (length ps <= fuel)%nat ->
  packets_loop fuel (done_ ++ concat ps ++ tail) (zlen done_) acc =
    Ok (acc ++ ps, zlen (done_ ++ concat ps)).
Proof.
  revert fuel. induction ps as [| p ps IH]; intros fuel done_ tail acc Hp Ht Hf.
  - cbn [concat app]. assert (forall f, packets_loop f (done_ ++ tail) (zlen done_) acc = Ok (acc, zlen done_)) as H.
    { intros f. destruct Ht as [Ht _]. destruct f; cbn [packets_loop]; rewrite zlen_app;
        by replace (zlen done_ + 188 <=? zlen done_ + zlen tail) with false by lia. }
    by rewrite H, !app_nil_r.
  - apply Forall_cons in Hp as [[Hpl Hph] Hp]. destruct fuel as [| fuel]; [simpl in Hf; lia |].
    cbn [packets_loop concat]. rewrite !zlen_app, Hpl.
    pose proof (zlen_nonneg (concat ps)). pose proof (zlen_nonneg tail). pose proof (zlen_nonneg done_).
    replace (zlen done_ + 188 <=? zlen done_ + (188 + zlen (concat ps) + zlen tail)) with true by lia. cbn [negb].
    assert (synced (done_ ++ (p ++ concat ps) ++ tail) (zlen done_) = Ok true) as ->.
    { unfold synced. rewrite <- (Z.add_0_r (zlen done_)) at 1. rewrite idx_shift by lia.
      destruct p as [| p0 p]; [done |]. injection Hph as ->.
      change (idx (((71 :: p) ++ concat ps) ++ tail) 0) with (Ok 71). cbn [rbind Z.eqb Pos.eqb negb].
      rewrite !zlen_app, Hpl.
      destruct (Z.leb_spec (zlen done_ + (188 + zlen (concat ps) + zlen tail)) (zlen done_ + 188)) as [|Hlt]; [done |].
      rewrite idx_shift by lia. rewrite <- app_assoc. rewrite <- Hpl, <- (Z.add_0_r (zlen (71 :: p))), idx_shift by lia.
      assert (idx (concat ps ++ tail) 0 = Ok 71) as ->; [| done].
      destruct ps as [| q ps].
      - simpl. destruct Ht as [_ [-> | Ht]]; [simpl in Hlt; change (zlen (@nil Z)) with 0 in Hlt; lia |].
        destruct tail; [done |]. by injection Ht as ->.
      - apply Forall_cons in Hp as [[Hql Hqh] _]. destruct q; [done |]. by injection Hqh as ->. }
    cbn [rbind negb].
    assert (slice (done_ ++ (p ++ concat ps) ++ tail) (zlen done_) (zlen done_ + 188) = Ok p) as ->.
    { rewrite <- app_assoc, <- Hpl. apply slice_at. }
    cbn [rbind].
    assert (done_ ++ (p ++ concat ps) ++ tail = (done_ ++ p) ++ concat ps ++ tail) as -> by (by rewrite !app_assoc).
    assert (zlen done_ + 188 = zlen (done_ ++ p)) as -> by (by rewrite zlen_app, Hpl).
    rewrite IH by (done || (simpl in Hf; lia)). rewrite <- app_assoc. f_equal. f_equal.
    rewrite !zlen_app, Hpl. lia.
Qed.

Lemma concat_aligned_length ps : Forall aligned ps -> zlen (concat ps) = 188 * zlen ps.
Proof.
  induction 1 as [| p ps [Hp _] _ IH]; [done |]. cbn [concat]. rewrite zlen_app, zlen_cons, IH. lia.
Qed.

Lemma Packets_aligned rest chunk ps tail :
  rest ++ chunk = concat ps ++ tail -> Forall aligned ps -> partial tail ->
  Packets rest chunk = Ok (ps, tail).
Proof.
  intros E Hp Ht. unfold Packets. rewrite E.
  pose proof (concat_aligned_length ps Hp) as Hl. pose proof (zlen_nonneg ps). pose proof (zlen_nonneg tail).
  pose proof (packets_loop_aligned (length (concat ps ++ tail)) ps [] tail [] Hp Ht) as HL.
  cbn [app] in HL. change (zlen (@nil Z)) with 0 in HL. rewrite HL.
  2: { rewrite length_app. unfold zlen in *. lia. }
  cbn [rbind app]. rewrite zlen_app. destruct (Z.leb_spec (zlen (concat ps) + zlen tail) (zlen (concat ps))) as [Hz | Hz].
  - by rewrite (zlen_0_nil tail) by lia.
  - rewrite slice_from_Ok by (rewrite zlen_app; lia). cbn [rbind]. by rewrite zlen_nat, drop_app_length.
Qed.

(** A cut in an aligned stream leaves whole packets and the start of one. *)
Lemma aligned_cut ps : forall q r tail,
  q ++ r = concat ps ++ tail -> Forall aligned ps -> partial tail ->
  exists ps1 ps2 t, ps = ps1 ++ ps2 /\ q = concat ps1 ++ t /\ partial t /\ t ++ r = concat ps2 ++ tail.
Proof.
  induction ps as [| p ps IH]; intros q r tail E Hp Ht.
  - exists [], [], q. cbn [concat app] in E |- *. split_and!; [done | done | | done].
    assert (zlen q <= zlen tail) as Hq by (rewrite <- E, zlen_app; pose proof (zlen_nonneg r); lia).
    split; [destruct Ht; lia |]. destruct q as [| x q]; [by left | right].
    simpl in E. destruct Ht as [_ [-> | Ht]]; [done |]. rewrite <- E in Ht. exact Ht.
  - apply Forall_cons in Hp as [[Hpl Hph] Hp]. destruct (decide (zlen q < 188)) as [Hq | Hq].
    + exists [], (p :: ps), q. split_and!; [done | done | | exact E]. split; [done |].
      destruct q as [| x q]; [by left | right]. destruct p as [| y p]; [done |].
      injection Hph as ->. cbn [concat app] in E. by injection E as ->.
    + cbn [concat] in E. rewrite <- app_assoc in E.
      assert (q = p ++ drop 188 q) as Eq.
      { assert (take 188 q = p) as Hp'.
        { rewrite <- (take_app_le q r) by (unfold zlen in Hq; lia). rewrite E.
          assert (length p = 188%nat) as Hpn by (unfold zlen in Hpl; lia). rewrite <- Hpn. apply take_app_length. }
        rewrite <- Hp' at 1. by rewrite take_drop. }
      rewrite Eq, <- app_assoc in E. apply app_inv_head in E.
      destruct (IH _ _ _ E Hp Ht) as (ps1 & ps2 & t & -> & E1 & Ht' & E2).
      exists (p :: ps1), ps2, t. split_and!; [done | | done | done]. cbn [concat].
      by rewrite Eq, E1, app_assoc.
Qed.

(** The reads of a live stream, one after the other. *)
Fixpoint packets_all (rest : list Z) (chunks : list (list Z)) : res (list (list Z) * list Z) :=
  match chunks with
  | [] => Ok ([], rest)
  | c :: chunks =>
      let! ' (ps, rest) := Packets rest c in
      let! ' (qs, rest) := packets_all rest chunks in
      Ok (ps ++ qs, rest)
  end.

(** A tuner read is any number of bytes: however a stream of whole packets
    is cut into reads, every packet is handed over exactly once, whole and in
    order, and the start of an unfinished packet is kept for the next read. *)
Theorem packets_any_reads (ps chunks : list (list Z)) (tail : list Z)
    (Hp : Forall aligned ps) (Ht : partial tail) (Hc : concat chunks = concat ps ++ tail) :
  packets_all [] chunks = Ok (ps, tail).
Proof.
  change (concat chunks) with ([] ++ concat chunks) in Hc.
  assert (partial []) as Hrest by (split; [done | by left]).
  revert Hrest Hc Hp. generalize (@nil Z) as rest. revert ps.
  induction chunks as [| c chunks IH]; intros ps rest Hr Hc Hp; cbn [packets_all].
  - cbn [concat] in Hc. rewrite app_nil_r in Hc. destruct ps as [| p ps].
    + simpl in Hc. by subst.
    + exfalso. apply Forall_cons in Hp as [[Hpl _] _]. destruct Hr as [Hr _]. rewrite Hc in Hr.
      cbn [concat] in Hr. rewrite !zlen_app in Hr. pose proof (zlen_nonneg (concat ps)).
      pose proof (zlen_nonneg tail). lia.
  - cbn [concat] in Hc. rewrite app_assoc in Hc.
    destruct (aligned_cut ps _ _ _ Hc Hp Ht) as (ps1 & ps2 & t & -> & E1 & Ht' & E2).
    apply Forall_app in Hp as [Hp1 Hp2].
    rewrite (Packets_aligned rest c ps1 t) by done. cbn [rbind].
    by rewrite (IH ps2 t Ht' E2 Hp2).
Qed.

Lemma packets_any_reads_witness :
  packets_all [] [0x47 :: replicate 100 1; replicate 87 1 ++ [0x47; 2]; [3]] =
    Ok ([0x47 :: replicate 187 1], [0x47; 2; 3]).
Proof.
  apply packets_any_reads.
  - apply Forall_singleton. split; reflexivity.
  - split; [reflexivity | right; reflexivity].
  - reflexivity.
Defined.

(** Nothing a station sends crashes the guide reader or makes it loop: any
    bytes yield a guide, and every listing in it has times that come from a
    32-bit GPS second, an 8-bit leap offset and a 20-bit length with no
    overflow of the nanosecond clock. *)
Theorem Parse_total (lower_uni trim_uni : list Z -> list Z) (title desc : list huffCode) (locale raw : list Z)
    (Ht : Forall (fun e => byte_ok (hsym e)) title) (Hd : Forall (fun e => byte_ok (hsym e)) desc)
    (Hb : bytes_ok raw) :
  returns (Parse (fun b => decodeTextLang lower_uni trim_uni (buildHuffman title) (buildHuffman desc) b locale) raw)
    (fun g => Forall event_ok (Events g)).
Proof.
  apply Parse_returns; [| done]. intros b Hbb.
  apply decodeTextLang_returns; [by apply buildHuffman_ok | by apply buildHuffman_ok | done].
Qed.

Lemma Parse_total_witness :
  returns (Parse (fun b => decodeTextLang id id (buildHuffman []) (buildHuffman []) b eng)
      (0x47 :: replicate 187 0xCB)) (fun g => Forall event_ok (Events g)).
Proof. apply Parse_total; [constructor | constructor | bytes_dec]. Defined.

(** A harvester between two reads: whole packets, and less than one packet
    waiting. *)
Definition harvester_ok (h : Harvester) : Prop :=
  bytes_ok (buf h) /\ bytes_ok (rest h) /\ zlen (rest h) < 188 /\ zlen (buf h) mod 188 = 0 /\
  0 <= reported h <= 256 * 1024 /\ zlen (buf h) < reported h + 32 * 1024.

Lemma keep_packets_returns pkts b :
  Forall packet_ok pkts -> bytes_ok b -> zlen b mod 188 = 0 ->
  returns (keep_packets pkts b) (fun b' => bytes_ok b' /\ zlen b' mod 188 = 0).
Proof.
  intros Hp. revert b. induction Hp as [| p pkts [Hl Hb] _ IH]; intros b Hbb Hm; cbn [keep_packets]; [done |].
  go_step. go_step. go_step. go_step. destruct (_ || _)%bool; apply IH; try done.
  - by apply bytes_ok_app.
  - rewrite zlen_app, Hl, <- Zplus_mod_idemp_l, Hm. done.
Qed.

(** The harvester's memory stays bounded and never holds a cut packet: read
    by read, for as long as the mux runs, it keeps less than 288 KB of whole
    transport packets and less than one packet of the next, and never fails. *)
Theorem harvester_bounded (decodeText : list Z -> res (list Z)) (h : Harvester) (chunk : list Z)
    (Hdt : forall b, bytes_ok b -> returns (decodeText b) (fun _ => True))
    (Hh : harvester_ok h) (Hc : bytes_ok chunk) :
  returns (Add decodeText h chunk) (fun r => harvester_ok (fst r) /\ zlen (buf (fst r)) < 288 * 1024).
Proof.
  destruct Hh as (H1 & H2 & H3 & H4 & H5 & H6). unfold Add.
  apply returns_bind. eapply returns_mono; [by apply Packets_returns |].
  intros [pkts rs] (K1 & K2 & K3). apply returns_bind. eapply returns_mono; [by apply keep_packets_returns |].
  intros b [Hb Hm]. destruct (Z.ltb_spec (zlen b) (reported h + 32 * 1024)) as [Hlt | Hge].
  { apply returns_Ok. cbn [fst]. unfold harvester_ok. simpl in *. split; [| lia]. split_and!; try done; lia. }
  apply returns_bind. eapply returns_mono; [by apply Parse_returns |]. intros g _. apply returns_Ok. cbn [fst].
  pose proof (zlen_nonneg b).
  assert (keepWindow = 131036) as Hk by reflexivity.
  unfold harvester_ok. cbn [buf rest reported].
  destruct (Z.ltb_spec (256 * 1024) (zlen b)) as [Hbig | Hsmall].
  - assert (zlen (drop (Z.to_nat (zlen b - keepWindow)) b) = keepWindow) as -> by (rewrite zlen_drop; lia).
    rewrite Hk. split; [| lia]. split_and!; [by apply bytes_ok_drop | done | done | done | lia | lia | lia].
  - split; [| lia]. split_and!; [done | done | done | done | lia | lia | lia].
Qed.

Lemma harvester_bounded_witness :
  returns (Add (fun _ => Ok []) (mkHarvester [] 0 []) [0x47; 1; 2])
    (fun r => harvester_ok (fst r) /\ zlen (buf (fst r)) < 288 * 1024).
Proof.
  apply harvester_bounded.
  - intros b _. exact I.
  - unfold harvester_ok. simpl. split_and!; try constructor; lia.
  - bytes_dec.
Defined.

(** ** Gaps *)

(** What the broadcast fills is a gap: beside listings that have a length,
    [FillGaps] returns exactly the listings that have a length and share no
    moment with a listing held on their channel; one that only touches an edge
    is kept. *)
Theorem FillGaps_exact (have extra : list Span) (row : Span)
    (Hhave : Forall (fun g => sp_Start g < sp_End g) have) :
  row ∈ FillGaps have extra <->
  row ∈ extra /\ sp_Start row < sp_End row /\
  forall got, got ∈ have -> ChannelID got = ChannelID row ->
    forall t, ~ (sp_Start row <= t < sp_End row /\ sp_Start got <= t < sp_End got).
Proof.
  assert (forall l, overlaps l row = true <-> exists got, got ∈ l /\ ChannelID got = ChannelID row /\
    sp_Start row < sp_End got /\ sp_Start got < sp_End row) as Hov.
  { induction l as [| g l IH]; simpl.
    { split; [done |]. intros (got & H & _). by apply elem_of_nil in H. }
    assert ((exists got, got ∈ l /\ ChannelID got = ChannelID row /\
      sp_Start row < sp_End got /\ sp_Start got < sp_End row) -> exists got, got ∈ g :: l /\
      ChannelID got = ChannelID row /\ sp_Start row < sp_End got /\ sp_Start got < sp_End row) as Hin.
    { intros (got & H & ?). exists got. split; [by right | done]. }
    destruct (Z.eqb_spec (ChannelID g) (ChannelID row)) as [E | E]; cbn [negb].
    - destruct ((sp_Start row <? sp_End g) && (sp_Start g <? sp_End row))%bool eqn:Eb.
      + split; [| done]. intros _. exists g. split; [by left | lia].
      + rewrite IH. split; [done |]. intros (got & H & H1 & H2 & H3).
        apply elem_of_cons in H as [-> | H]; [lia | by exists got].
    - rewrite IH. split; [done |]. intros (got & H & H1 & H2).
      apply elem_of_cons in H as [-> | H]; [lia | by exists got]. }
  unfold FillGaps. rewrite list_elem_of_filter, andb_true_iff, Z.ltb_lt, negb_true_iff.
  rewrite list.Forall_forall in Hhave. split.
  - intros [[Hlen Hno] Hin]. split; [done |]. split; [done |]. intros got Hg Hch t Ht.
    assert (overlaps have row = true) as H; [| congruence]. apply Hov. exists got. split; [done | lia].
  - intros (Hin & Hlen & Hno). split; [| done]. split; [done |].
    destruct (overlaps have row) eqn:E; [| done]. apply Hov in E as (got & Hg & Hch & H1 & H2).
    exfalso. specialize (Hhave got Hg). simpl in Hhave.
    apply (Hno got Hg Hch (Z.max (sp_Start row) (sp_Start got))). lia.
Qed.

Lemma FillGaps_exact_witness :
  let have := [mkSpan 7 0 1800; mkSpan 7 3600 5400] in
  mkSpan 7 1800 3600 ∈ FillGaps have [mkSpan 7 1800 3600; mkSpan 7 1700 1900] <->
  mkSpan 7 1800 3600 ∈ [mkSpan 7 1800 3600; mkSpan 7 1700 1900] /\ 1800 < 3600 /\
  forall got, got ∈ have -> ChannelID got = 7 ->
    forall t, ~ (1800 <= t < 3600 /\ sp_Start got <= t < sp_End got).
Proof.
  apply (FillGaps_exact [mkSpan 7 0 1800; mkSpan 7 3600 5400]
    [mkSpan 7 1800 3600; mkSpan 7 1700 1900] (mkSpan 7 1800 3600)).
  repeat (apply Forall_cons; split; [simpl; lia |]). constructor.
Defined.

(** ** Sections in packets *)

(** A section as a station sends it: its length field says how long it is, and
    its checksum holds. *)
Record sent_section (s : list Z) : Prop := {
  ss_bytes : bytes_ok s;
  ss_len : exists b0 b1 b2 r, s = b0 :: b1 :: b2 :: r /\ zlen s = 3 + be16 (Z.land b1 0x0F) b2;
  ss_size : 7 <= zlen s <= 4096;
  ss_crc : crcOK s = Ok true }.

(** A packet of [pid] with 184 bytes of payload and no adaptation field. *)
Definition carrier (pid : Z) (pusi : bool) (h : list Z) : Prop :=
  exists b1 b2 b3, h = [0x47; b1; b2; b3] /\ bytes_ok h /\
    be16 (Z.land b1 0x1F) b2 = pid /\ negb (Z.land b1 0x40 =? 0) = pusi /\
    Z.land (Z.land (Z.shiftr b3 4) 3) 2 = 0.

Lemma take_sections_short fuel pid s m out :
  sent_section s -> (m < length s)%nat -> 
  take_sections (S fuel) pid (take m s) out = Ok (take m s, out).
Proof.
  intros [Hb (b0 & b1 & b2 & r & -> & Hl) Hsz Hcrc] Hm. cbn [take_sections].
  destruct (Z.ltb_spec (zlen (take m (b0 :: b1 :: b2 :: r))) 3) as [|Hge]; [done |].
  destruct m as [| [| [| m]]]; try (unfold zlen in Hge; simpl in Hge; lia).
  cbn [firstn]. change (idx (b0 :: b1 :: b2 :: take m r) 1) with (Ok b1).
  change (idx (b0 :: b1 :: b2 :: take m r) 2) with (Ok b2). cbn [rbind]. cbv zeta.
  assert (zlen (b0 :: b1 :: b2 :: take m r) < zlen (b0 :: b1 :: b2 :: r)) as Hlt.
  { unfold zlen. simpl in Hm |- *. rewrite length_take. lia. }
  rewrite <- Hl. replace ((be16 (Z.land b1 15) b2 <? 4) || (4096 <? zlen (b0 :: b1 :: b2 :: r)))%bool with false by lia.
  by replace (zlen (b0 :: b1 :: b2 :: take m r) <? zlen (b0 :: b1 :: b2 :: r)) with true by lia.
Qed.

Lemma take_sections_whole fuel pid s k out :
  sent_section s ->
  exists left, take_sections (S (S fuel)) pid (s ++ replicate k 0xff) out = Ok (left, out ++ [(pid, s)]).
Proof.
  intros [Hb (b0 & b1 & b2 & r & Es & Hl) Hsz Hcrc].
  assert (zlen (s ++ replicate k 255) = zlen s + Z.of_nat k) as Hz.
  { rewrite zlen_app. unfold zlen at 2. by rewrite length_replicate. }
  cbn [take_sections]. rewrite Hz. replace (zlen s + Z.of_nat k <? 3) with false by lia.
  assert (idx (s ++ replicate k 255) 1 = Ok b1) as -> by (by rewrite Es).
  assert (idx (s ++ replicate k 255) 2 = Ok b2) as -> by (by rewrite Es). cbn [rbind]. cbv zeta.
  rewrite <- Hl. replace ((be16 (Z.land b1 15) b2 <? 4) || (4096 <? zlen s))%bool with false by lia.
  replace (zlen s + Z.of_nat k <? zlen s) with false by lia.
  rewrite slice_Ok by lia. rewrite Z.sub_0_r, drop_0, zlen_nat, take_app_length. cbn [rbind].
  rewrite Hcrc. cbn [rbind]. rewrite slice_from_Ok by lia. rewrite zlen_nat, drop_app_length. cbn [rbind].
  assert (zlen (replicate k 255) = Z.of_nat k) as Hzk by (unfold zlen; by rewrite length_replicate).
  rewrite Hzk. destruct (Z.ltb_spec (Z.of_nat k) 3) as [|Hk]; [by eexists |].
  destruct k as [| [| [| k]]]; try lia. cbn [replicate].
  change (idx (255 :: 255 :: 255 :: replicate k 255) 1) with (Ok 255).
  change (idx (255 :: 255 :: 255 :: replicate k 255) 2) with (Ok 255). cbn [rbind]. cbv zeta.
  change (3 + be16 (Z.land 255 15) 255) with 4098. cbn [Z.ltb Z.compare orb]. 
  by exists [].
Qed.

Section carry.
Context (pid : Z) (Hpid : pid = pidBase \/ 0x1300 <= pid <= 0x1FFF).

Lemma carrier_packet h pay pusi open out :
  carrier pid pusi h -> zlen pay = 184 ->
  assemble_packet (open, out) (h ++ pay) =
    (let! o := if pusi then
         let! pointer := idx pay 0 in
         if zlen pay <? pointer + 1 then Ok None
         else let! p := slice_from pay (1 + pointer) in Ok (Some (p, <[pid := []]> open))
       else Ok (Some (pay, open)) in
     match o with
     | None => Ok (open, out)
     | Some (payload, open) =>
         match open !! pid with
         | None => Ok (open, out)
         | Some buf =>
             let! ' (buf, out) := take_sections (length (buf ++ payload)) pid (buf ++ payload) out in
             Ok (<[pid := buf]> open, out)
         end
     end).
Proof.
  intros (b1 & b2 & b3 & -> & Hb & Hp & Hu & Ha) Hl. unfold assemble_packet. cbn [app].
  change (idx (71 :: b1 :: b2 :: b3 :: pay) 1) with (Ok b1).
  change (idx (71 :: b1 :: b2 :: b3 :: pay) 2) with (Ok b2).
  change (idx (71 :: b1 :: b2 :: b3 :: pay) 3) with (Ok b3). cbn [rbind]. cbv zeta.
  rewrite Hp, Hu, Ha.
  replace (negb (pid =? pidBase) && ((pid <? 4864) || (8191 <? pid)))%bool with false by (unfold pidBase in *; lia).
  cbn [Z.eqb negb rbind]. cbn [Z.ltb Z.compare Pos.compare Pos.compare_cont].
  rewrite slice_from_Ok by (rewrite !zlen_cons; lia).
  change (drop (Z.to_nat 4) (71 :: b1 :: b2 :: b3 :: pay)) with pay. cbn [rbind].
  by replace (zlen pay =? 0) with false by lia.
Qed.

(** What is left of a section after its first packet. *)
Lemma carry_rest s hs : forall pays m k open out,
  sent_section s -> Forall (carrier pid false) hs -> Forall (fun p => zlen p = 184) pays ->
  length hs = length pays -> (m < length s)%nat ->
  concat pays = drop m s ++ replicate k 0xff -> (k < 184)%nat ->
  open !! pid = Some (take m s) ->
  exists open', assemble_all (open, out) (zip_with app hs pays) = Ok (open', out ++ [(pid, s)]).
Proof.
  induction hs as [| h hs IH]; intros pays m k open out Hs Hh Hp Hl Hm Hc Hk Ho.
  - destruct pays; [| done]. simpl in Hc. apply (f_equal length) in Hc.
    rewrite length_app, length_drop in Hc. simpl in Hc. lia.
  - destruct pays as [| pay pays]; [done |]. apply Forall_cons in Hh as [Hh1 Hh].
    apply Forall_cons in Hp as [Hp1 Hp]. cbn [zip_with assemble_all].
    rewrite (carrier_packet h pay false open out Hh1 Hp1). cbn [rbind]. rewrite Ho.
    cbn [concat] in Hc. assert (length pay = 184%nat) as Hpl by (unfold zlen in Hp1; lia).
    assert (take 184 (drop m s ++ replicate k 255) = pay) as Hpay.
    { rewrite <- Hc, <- Hpl. apply take_app_length. }
    assert (drop 184 (drop m s ++ replicate k 255) = concat pays) as Hpays.
    { rewrite <- Hc, <- Hpl. apply drop_app_length. }
    destruct (decide (m + 184 < length s)%nat) as [Hmore | Hlast].
    + rewrite take_app_le in Hpay by (rewrite length_drop; lia).
      assert (take m s ++ pay = take (m + 184) s) as ->.
      { rewrite <- Hpay. apply take_take_drop. }
      assert (length (take (m + 184) s) = S (m + 183)) as -> by (rewrite length_take; lia).
      rewrite take_sections_short by done. cbn [rbind].
      apply (IH pays (m + 184)%nat k); try done; [by injection Hl | | by rewrite lookup_insert_eq].
      rewrite <- Hpays, drop_app_le by (rewrite length_drop; lia). by rewrite drop_drop.
    + assert (pays = []) as ->.
      { apply (f_equal length) in Hpays. rewrite length_drop, length_app, length_drop, length_replicate in Hpays.
        destruct pays as [| q pays]; [done |]. apply Forall_cons in Hp as [Hq _]. cbn [concat] in Hpays.
        rewrite length_app in Hpays. unfold zlen in Hq. lia. }
      destruct hs; [| done]. simpl in Hc. rewrite app_nil_r in Hc.
      assert (take m s ++ pay = s ++ replicate k 255) as -> by (by rewrite Hc, app_assoc, take_drop).
      assert (exists n, length (s ++ replicate k 255) = S (S n)) as [n ->].
      { destruct Hs as [_ _ Hsz _]. unfold zlen in Hsz. exists (length s - 2 + k)%nat.
        rewrite length_app, length_replicate. lia. }
      destruct (take_sections_whole n pid s k out Hs) as [left ->]. cbn [rbind assemble_all]. by eexists.
Qed.

(** The start of a section, in packets that do not end it: it waits, and nothing is read. *)
Lemma carry_part s hs : forall pays m n open out,
  sent_section s -> Forall (carrier pid false) hs -> Forall (fun p => zlen p = 184) pays ->
  length hs = length pays -> take m s ++ concat pays = take n s -> (n < length s)%nat -> open !! pid = Some (take m s) ->
  exists b, assemble_all (open, out) (zip_with app hs pays) = Ok (<[pid := b]> open, out).
Proof.
  induction hs as [| h hs IH]; intros pays m n open out Hs Hh Hp Hl Hc Hn Ho.
  - destruct pays; [| done]. exists (take m s). cbn [zip_with assemble_all]. by rewrite insert_id.
  - destruct pays as [| pay pays]; [done |]. apply Forall_cons in Hh as [Hh1 Hh]. apply Forall_cons in Hp as [Hp1 Hp]. cbn [zip_with assemble_all concat] in *.
    rewrite (carrier_packet h pay false open out Hh1 Hp1). cbn [rbind]. rewrite Ho. rewrite app_assoc in Hc.
    set (k := length (take m s ++ pay)). assert (take m s ++ pay = take k s) as E.
    { unfold k. rewrite <- (take_app_length (take m s ++ pay) (concat pays)) at 1. rewrite Hc, take_take. f_equal.
      apply (f_equal length) in Hc. rewrite length_app, length_take in Hc. lia. }
    assert (k <= n)%nat as Hkn by (unfold k; apply (f_equal length) in Hc; rewrite length_app, length_take in Hc; lia).
    assert (exists f, k = S f) as [f Hf] by (exists (k - 1)%nat; unfold k; rewrite length_app; unfold zlen in Hp1; lia).
    rewrite E. replace (take_sections k) with (take_sections (S f)) by (by rewrite Hf). rewrite take_sections_short by (done || lia). cbn [rbind]. rewrite E in Hc.
    destruct (IH pays k n (<[pid := take k s]> open) out) as [b Hb]; try done; [by injection Hl | by rewrite lookup_insert_eq |].
    exists b. by rewrite Hb, insert_insert_eq.
Qed.
Lemma assemble_all_app st ps qs : assemble_all st (ps ++ qs) = (let! st := assemble_all st ps in assemble_all st qs).
Proof. revert st. induction ps as [| q ps IH]; intros st; [done |]. cbn [app assemble_all]. destruct (assemble_packet st q); cbn [rbind]; [apply IH | done | done]. Qed.
(** A packet that starts a section: what was kept of the PID and what is before the start
    make no difference. *)
Lemma pointer_packet h open b out before junk next : carrier pid true h ->
  zlen (zlen before :: before ++ next) = 184 -> zlen junk = zlen before ->
  assemble_packet (<[pid := b]> open, out) (h ++ zlen before :: before ++ next) = assemble_packet (open, out) (h ++ zlen before :: junk ++ next).
Proof.
  intros Hh Hl Hj. assert (zlen (zlen before :: junk ++ next) = 184) as Hl2 by (rewrite zlen_cons, zlen_app in *; lia).
  rewrite !(carrier_packet h _ true) by done. change (idx (zlen before :: ?l) 0) with (@Ok Z (zlen before)).
  pose proof (zlen_nonneg before). pose proof (zlen_nonneg next). rewrite zlen_cons, zlen_app in Hl.
  cbn [idx]. rewrite Hl2. rewrite zlen_cons, zlen_app, Hl.
  assert (forall l, zlen l = zlen before -> slice_from (zlen before :: l ++ next) (1 + zlen before) = Ok next) as Hsl.
  { intros l E. rewrite slice_from_Ok by (rewrite zlen_cons, zlen_app; lia). replace (Z.to_nat (1 + zlen before)) with (S (length l)) by (unfold zlen in *; lia).
    cbn [drop]. by rewrite drop_app_length. }
  change (idx (zlen before :: before ++ next) 0) with (@Ok Z (zlen before)). change (idx (zlen before :: junk ++ next) 0) with (@Ok Z (zlen before)). cbn [rbind].
  destruct (184 <? zlen before + 1) eqn:E; [lia |]. rewrite !Hsl by done. cbn [rbind]. rewrite insert_insert_eq. by rewrite lookup_insert_eq.
Qed.
End carry.

Lemma zip_aligned pid hs : forall pays first,
  length hs = length pays -> Forall (fun p => zlen p = 184) pays ->
  match hs with h :: hs => carrier pid first h /\ Forall (carrier pid false) hs | [] => True end ->
  Forall aligned (zip_with app hs pays).
Proof.
  induction hs as [| h hs IH]; intros pays first Hl Hp Hh; [by destruct pays |].
  destruct pays as [| pay pays]; [done |]. apply Forall_cons in Hp as [Hp1 Hp].
  destruct Hh as [(b1 & b2 & b3 & -> & _) Hh]. cbn [zip_with]. apply Forall_cons. split.
  - split; [| done]. rewrite zlen_app, Hp1. done.
  - apply (IH pays false); [by injection Hl | done |]. destruct hs; [done |].
    apply Forall_cons in Hh as [H1 H2]. done.
Qed.

(** A section sent is the section read: whatever its length, up to 4096
    bytes, a section cut into the payloads of packets of a guide PID, the last
    one filled up with stuffing, is put together again and passes its checksum,
    and it is the only section found. *)
Theorem section_roundtrip (pid : Z) (s h : list Z) (hs pays : list (list Z)) (k : nat)
    (Hpid : pid = pidBase \/ 0x1300 <= pid <= 0x1FFF) (Hs : sent_section s)
    (Hh : carrier pid true h) (Hhs : Forall (carrier pid false) hs)
    (Hp : Forall (fun p => zlen p = 184) pays) (Hl : length (h :: hs) = length pays)
    (Hc : concat pays = 0 :: s ++ replicate k 0xff) (Hk : (k < 184)%nat) :
  assemble (concat (zip_with app (h :: hs) pays)) = Ok [(pid, s)].
Proof.
  unfold assemble. rewrite <- (app_nil_r (concat _)).
  change (Packets [] ?x) with (Packets [] ([] ++ x)).
  rewrite (Packets_aligned [] _ (zip_with app (h :: hs) pays) []); [| done | | by split; [| left]].
  2: { apply (zip_aligned pid (h :: hs) pays true); [done | done | by split]. }
  cbn [rbind]. destruct pays as [| pay pays]; [done |]. apply Forall_cons in Hp as [Hp1 Hp].
  assert (exists m, pay = 0 :: m) as [m ->].
  { destruct pay as [| x m]; [done |]. cbn [concat app] in Hc. injection Hc as ->. by exists m. }
  cbn [zip_with assemble_all]. rewrite (carrier_packet pid Hpid h (0 :: m) true ∅ [] Hh Hp1).
  change (idx (0 :: m) 0) with (@Ok Z 0). cbn [rbind].
  replace (zlen (0 :: m) <? 0 + 1) with false by lia.
  rewrite slice_from_Ok by lia. change (drop (Z.to_nat (1 + 0)) (0 :: m)) with m. cbn [rbind].
  rewrite lookup_insert_eq. cbn [app]. cbn [concat app] in Hc. injection Hc as Hc.
  assert (length m = 183%nat) as Hm by (unfold zlen in Hp1; simpl in Hp1; lia).
  destruct (decide (183 < length s)%nat) as [Hlong | Hshort].
  - assert (m = take 183 s) as ->.
    { rewrite <- (take_app_le s (replicate k 255)) by lia. rewrite <- Hc, <- Hm. symmetry. apply take_app_length. }
    assert (length (take 183 s) = S 182) as -> by done.
    rewrite take_sections_short by done. cbn [rbind].
    destruct (carry_rest pid Hpid s hs pays 183 k (<[pid := take 183 s]> (<[pid := []]> ∅)) [])
      as [open' E]; try done.
    + by injection Hl.
    + rewrite <- (drop_app_length (take 183 s) (concat pays)), Hc, Hm. by rewrite drop_app_le by lia.
    + by rewrite lookup_insert_eq.
    + rewrite E. done.
  - assert (pays = []) as ->.
    { apply (f_equal length) in Hc. rewrite !length_app, length_replicate in Hc.
      destruct pays as [| q pays]; [done |]. apply Forall_cons in Hp as [Hq _]. cbn [concat] in Hc.
      rewrite length_app in Hc. unfold zlen in Hq. lia. }
    destruct hs; [| done]. cbn [concat] in Hc. rewrite app_nil_r in Hc. subst m.
    assert (exists n, length (s ++ replicate k 255) = S (S n)) as [n ->] by (by exists 181%nat).
    destruct (take_sections_whole n pid s k [] Hs) as [left ->]. done.
Qed.

(** A section of 200 bytes, its checksum included, over two packets. *)
Definition sample_section : list Z :=
  let d := [0xC7; 0xB0; 0xC5] ++ replicate 193 0x11 in d ++ crc_bytes (mpegCRC d).

Lemma sample_sent : sent_section sample_section.
Proof.
  constructor; [| | split; by vm_compute | by vm_compute].
  - apply (bool_decide_unpack _). by vm_compute.
  - exists 0xC7, 0xB0, 0xC5, (drop 3 sample_section). split; by vm_compute.
Qed.

Lemma sample_carrier :
  carrier pidBase true [0x47; 0x5F; 0xFB; 0x10] /\ carrier pidBase false [0x47; 0x1F; 0xFB; 0x11].
Proof.
  split.
  - exists 0x5F, 0xFB, 0x10. repeat split; try done. repeat constructor; unfold byte_ok; lia.
  - exists 0x1F, 0xFB, 0x11. repeat split; try done. repeat constructor; unfold byte_ok; lia.
Qed.

Lemma section_roundtrip_witness :
  assemble (concat (zip_with app [[0x47; 0x5F; 0xFB; 0x10]; [0x47; 0x1F; 0xFB; 0x11]]
    [take 184 (0 :: sample_section); drop 184 (0 :: sample_section) ++ replicate 167 0xff]))
  = Ok [(pidBase, sample_section)].
Proof.
  apply (section_roundtrip pidBase sample_section _ [_] _ 167).
  - by left.
  - apply sample_sent.
  - apply sample_carrier.
  - constructor; [apply sample_carrier | constructor].
  - constructor; [by vm_compute | constructor; [by vm_compute | constructor]].
  - done.
  - by vm_compute.
  - lia.
Defined.

(** C39. A section that ends where the next one starts is lost. When a section of a guide
    PID is cut into packets and the last of its bytes share a packet with the start of
    the next section, after a pointer that says how many they are, the packets from
    the section's start on read the same as a stream that begins with that last
    packet, with any bytes in the place of those: neither what came of the section
    nor its end is used. *)
Theorem pointer_tail_dropped (pid : Z) (s start tail junk next h h2 : list Z) (hs pays more : list (list Z))
    (Hpid : pid = pidBase \/ 0x1300 <= pid <= 0x1FFF) (Hs : sent_section s) (Es : s = start ++ tail) (Ht : tail <> [])
    (Hh : carrier pid true h) (Hhs : Forall (carrier pid false) hs) (Hp : Forall (fun p => zlen p = 184) pays) (Hl : length (h :: hs) = length pays)
    (Hc : concat pays = 0 :: start) (Hh2 : carrier pid true h2) (Hl2 : zlen (zlen tail :: tail ++ next) = 184) (Hj : zlen junk = zlen tail)
    (Hm : Forall aligned more) :
  assemble (concat (zip_with app (h :: hs) pays) ++ (h2 ++ zlen tail :: tail ++ next) ++ concat more) =
  assemble ((h2 ++ zlen tail :: junk ++ next) ++ concat more).
Proof.
  assert (forall l, zlen l = zlen tail -> aligned (h2 ++ zlen tail :: l ++ next)) as Hal.
  { intros l E. destruct Hh2 as (b1 & b2 & b3 & -> & _). split; [| done]. rewrite zlen_app, (zlen_cons (zlen tail)), zlen_app, E. rewrite zlen_cons, zlen_app in Hl2.
    change (zlen [71; b1; b2; b3]) with 4. lia. }
  assert (forall ps, Forall aligned ps -> assemble (concat ps) = (let! ' (_, out) := assemble_all (∅, []) ps in Ok out)) as Hread.
  { intros ps Hps. unfold assemble. rewrite (Packets_aligned [] (concat ps) ps []); [done | by rewrite app_nil_r | done | by split; [| left]]. }
  set (first := zip_with app (h :: hs) pays).
  assert (Forall aligned first) as Hf by (apply (zip_aligned pid (h :: hs) pays true); [done | done | by split]).
  change ((h2 ++ zlen tail :: tail ++ next) ++ concat more) with (concat ((h2 ++ zlen tail :: tail ++ next) :: more)).
  change ((h2 ++ zlen tail :: junk ++ next) ++ concat more) with (concat ((h2 ++ zlen tail :: junk ++ next) :: more)).
  rewrite <- concat_app, !Hread; [| constructor; auto | apply Forall_app; split; [done | constructor; auto]]. rewrite assemble_all_app.
  destruct pays as [| pay pays]; [done |]. apply Forall_cons in Hp as [Hp1 Hp].
  assert (exists m, pay = 0 :: m) as [m ->].
  { destruct pay as [| x m]; [done |]. cbn [concat app] in Hc. injection Hc as ->. by exists m. }
  cbn [concat app] in Hc. injection Hc as Hc. unfold first. cbn [zip_with assemble_all].
  rewrite (carrier_packet pid Hpid h (0 :: m) true ∅ [] Hh Hp1). change (idx (0 :: m) 0) with (@Ok Z 0). cbn [rbind].
  replace (zlen (0 :: m) <? 0 + 1) with false by lia.
  rewrite slice_from_Ok by lia. change (drop (Z.to_nat (1 + 0)) (0 :: m)) with m. cbn [rbind]. rewrite lookup_insert_eq. cbn [app].
  assert (length m = 183%nat) as Hlm by (unfold zlen in Hp1; simpl in Hp1; lia).
  assert (take (length start) s = start) as Hst by (rewrite Es; apply take_app_length).
  assert (length start < length s)%nat as Hlt by (rewrite Es, length_app; destruct tail; [done | simpl; lia]).
  assert (m = take 183 s) as Em.
  { rewrite <- Hlm. rewrite Es, <- Hc, <- app_assoc. symmetry. apply take_app_length. }
  assert (183 <= length start)%nat as H183 by (rewrite <- Hc, length_app; lia).
  rewrite Em at 1 2. assert (length (take 183 s) = S 182) as -> by (rewrite length_take; lia).
  rewrite take_sections_short by (done || lia). cbn [rbind].
  destruct (carry_part pid Hpid s hs pays 183 (length start) (<[pid := take 183 s]> (<[pid := []]> ∅)) []) as [b Hb]; try done.
  - by injection Hl.
  - by rewrite <- Em, Hc, Hst.
  - by rewrite lookup_insert_eq.
  - rewrite Hb. cbn [rbind]. rewrite !insert_insert_eq, (pointer_packet pid Hpid h2 ∅ b [] tail junk next) by done. done.
Qed.

(** Two copies of the section of 200 bytes, over three packets: the first is lost. *)
Definition two_copies : list Z :=
  concat (zip_with app [[0x47; 0x5F; 0xFB; 0x10]] [take 184 (0 :: sample_section)]) ++
  ([0x47; 0x5F; 0xFB; 0x11] ++ zlen (drop 183 sample_section) :: drop 183 sample_section ++ take 166 sample_section) ++
  concat [[0x47; 0x1F; 0xFB; 0x12] ++ drop 166 sample_section ++ replicate 150 0xff].
Example two_copies_one_read : assemble two_copies = Ok [(pidBase, sample_section)].
Proof. by vm_compute. Qed.
Lemma pointer_tail_dropped_witness :
  assemble two_copies =
  assemble (([0x47; 0x5F; 0xFB; 0x11] ++ zlen (drop 183 sample_section) :: replicate 17 0 ++ take 166 sample_section) ++
    concat [[0x47; 0x1F; 0xFB; 0x12] ++ drop 166 sample_section ++ replicate 150 0xff]).
Proof.
  apply (pointer_tail_dropped pidBase sample_section (take 183 sample_section) (drop 183 sample_section)); try done.
  - by left.
  - apply sample_sent.
  - apply sample_carrier.
  - by repeat constructor.
  - exists 0x5F, 0xFB, 0x11. repeat split; try done. repeat constructor; unfold byte_ok; lia.
  - by repeat constructor.
Defined.
