(* ===== verification/DvbSections.v ===== *)
(** The DVB section reader, [server/internal/dvbsi/section.go]: the packets of
    the PAT, SDT and EIT PIDs put together into sections.

    Beside the ATSC reader it follows the continuity counter, and it completes a
    section from the bytes before a packet's pointer. *)
From S2P Require Import Prelude Mpeg CapTs Crc PsipText Psip.
Local Open Scope Z_scope.
Local Open Scope go_scope.

Definition pidPAT : Z := 0x00.
Definition pidSDT : Z := 0x11.
Definition pidEIT : Z := 0x12.

(** The Go type [section]: its PID and its body. *)
Definition section : Type := Z * list Z.

(** [abuf] is [None] for a nil slice. *)
Record assembly : Type := mkAssembly { abuf : option (list Z); acc : Z }.

(** [dvbsi.CRC] is [psip.mpegCRC], bit by bit, and [crcOK] the same test. *)
Definition CRC (data : list Z) : Z := mpegCRC data.
Definition crcOK (section : list Z) : res bool :=
  if zlen section <? 4 then Ok false
  else
    let! d := slice section 0 (zlen section - 4) in
    let! t := slice_from section (zlen section - 4) in
    let! c := uint32 t in
    Ok (CRC d =? c).

Fixpoint append_loop (fuel : nat) (pid : Z) (b : list Z) (out : list section)
    : res (option (list Z) * list section) :=
  if zlen b <? 3 then
    (* The next section starts in a packet that says so. *)
    Ok (if zlen b =? 0 then None else Some b, out)
  else
    match fuel with
    | O => NoFuel
    | S fuel =>
        let! b0 := idx b 0 in
        if b0 =? 0xFF then Ok (None, out)
        else
          let! b1 := idx b 1 in let! b2 := idx b 2 in
          let length := be16 (Z.land b1 0x0F) b2 in
          let total := 3 + length in
          if ((length <? 5) || (4096 <? total))%bool then
            (* a.buf = nil ; return *)
            Ok (None, out)
          else if zlen b <? total then Ok (Some b, out)
          else
            let! body := slice b 0 total in
            let! ok := crcOK body in
            let! rest := slice_from b total in
            append_loop fuel pid rest (if ok then out ++ [(pid, body)] else out)
    end.

(** A nil buffer has length 0: the loop is not entered and it stays nil. *)
Definition appendDone (out : list section) (pid : Z) (a : assembly) : res (list section * assembly) :=
  let b := default [] (abuf a) in
  let! ' (buf, out) := append_loop (length b) pid b out in
  Ok (out, mkAssembly buf (acc a)).

Definition state : Type := gmap Z assembly * list section.

(** The callback [sections] gives to [psip.Packets]. *)
Definition section_packet (st : state) (pkt : list Z) : res state :=
  let '(open, out) := st in
  let! b1 := idx pkt 1 in
  if negb (Z.land b1 0x80 =? 0) then Ok st
  else
    let! b2 := idx pkt 2 in
    let pid := be16 (Z.land b1 0x1F) b2 in
    if (negb (pid =? pidPAT) && negb (pid =? pidSDT) && negb (pid =? pidEIT))%bool then Ok st
    else
      let! b3 := idx pkt 3 in
      let afc := Z.land (Z.shiftr b3 4) 3 in
      if Z.land afc 1 =? 0 then Ok st
      else
        let cc := Z.land b3 0x0F in
        let! off := if negb (Z.land afc 2 =? 0) then let! n := idx pkt 4 in Ok (5 + n) else Ok 4 in
        if (negb (Z.land afc 2 =? 0) && (188 <=? off))%bool then Ok st
        else
          let! payload := slice_from pkt off in
          let pusi := negb (Z.land b1 0x40 =? 0) in
          (* A repeated packet carries nothing new. *)
          if match open !! pid with Some a => cc =? acc a | None => false end then Ok st
          else
            let a := match open !! pid with
                     | Some a => Some (mkAssembly
                         (if negb (cc =? Z.land (acc a + 1) 0x0F) then None else abuf a) cc)
                     | None => None
                     end in
            let open := match a with Some a => <[pid := a]> open | None => open end in
            if pusi then
              let! pointer := idx payload 0 in
              if zlen payload <? 1 + pointer then Ok (delete pid open, out)
              else
                let! ' (a, out) :=
                  match a with
                  | Some (mkAssembly (Some buf) c) =>
                      let! before := slice payload 1 (1 + pointer) in
                      let! ' (out, a) := appendDone out pid (mkAssembly (Some (buf ++ before)) c) in
                      Ok (a, out)
                  | Some (mkAssembly None c) => Ok (mkAssembly None c, out)
                  | None => Ok (mkAssembly None cc, out)
                  end in
                let! after := slice_from payload (1 + pointer) in
                let! ' (out, a) := appendDone out pid (mkAssembly (Some after) (acc a)) in
                Ok (<[pid := a]> open, out)
            else
              match a with
              | Some (mkAssembly (Some buf) c) =>
                  let! ' (out, a) := appendDone out pid (mkAssembly (Some (buf ++ payload)) c) in
                  Ok (<[pid := a]> open, out)
              | _ => Ok (open, out)
              end.

Fixpoint section_packets (st : state) (pkts : list (list Z)) : res state :=
  match pkts with
  | [] => Ok st
  | p :: pkts => let! st := section_packet st p in section_packets st pkts
  end.

Definition sections (raw : list Z) : res (list section) :=
  let! ' (pkts, _) := Packets [] raw in
  let! ' (_, out) := section_packets (∅, []) pkts in
  Ok out.

Lemma crcOK_agrees b : crcOK b = Crc.crcOK b.
Proof. done. Qed.

(** ** The reader never fails, and what it gives is a section *)

Definition section_ok (s : section) : Prop :=
  (fst s = pidPAT \/ fst s = pidSDT \/ fst s = pidEIT) /\ bytes_ok (snd s) /\
  8 <= zlen (snd s) <= 4096 /\ crcOK (snd s) = Ok true /\
  exists b0 b1 b2 r, snd s = b0 :: b1 :: b2 :: r /\ b0 <> 0xFF /\ zlen (snd s) = 3 + be16 (Z.land b1 0x0F) b2.

Definition buf_ok (b : option (list Z)) : Prop := bytes_ok (default [] b).

Section append.
Context (pid : Z) (Hpid : pid = pidPAT \/ pid = pidSDT \/ pid = pidEIT).

Lemma append_loop_returns fuel : forall b out,
  bytes_ok b -> zlen b < 3 + Z.of_nat fuel -> Forall section_ok out ->
  returns (append_loop fuel pid b out) (fun r => buf_ok r.1 /\ Forall section_ok r.2).
Proof.
  induction fuel as [| fuel IH]; intros b out Hb Hf Ho; cbn [append_loop].
  { replace (zlen b <? 3) with true by lia. simpl. split; [| done].
    unfold buf_ok. destruct (zlen b =? 0); [constructor | done]. }
  destruct (Z.ltb_spec (zlen b) 3) as [| Hl].
  { simpl. split; [| done]. unfold buf_ok. destruct (zlen b =? 0); [constructor | done]. }
  go_step. go_step. destruct (Z.eqb_spec v 255) as [| Hff]; [simpl; split; [constructor | done] |].
  go_step. go_step. go_step. go_step.
  assert (0 <= be16 (Z.land v0 15) v1 <= 15 * 256 + 255) as Hlen by blia.
  set (len := be16 (Z.land v0 15) v1) in *.
  destruct ((len <? 5) || (4096 <? 3 + len))%bool eqn:E; [simpl; split; [constructor | done] |].
  destruct (Z.ltb_spec (zlen b) (3 + len)) as [| Hge]; [done |].
  apply returns_bind, returns_slice; [done | lia | lia |]. intros body Hbody Hbl Eb.
  apply returns_bind. pose proof (crcOK_returns body Hbody) as Hcrc.
  rewrite crcOK_agrees. destruct (Crc.crcOK body) as [ok | |] eqn:Eok; [| done | done]. cbn [returns].
  apply returns_bind, returns_slice_from; [done | lia |]. intros rs Hrs Hrl _.
  apply IH; [done | lia |]. destruct ok; [| done]. apply Forall_app. split; [done |].
  apply Forall_singleton. split; [done |]. cbn [snd].
  split; [done |]. split; [lia |]. split; [by rewrite crcOK_agrees |].
  destruct b as [| c0 [| c1 [| c2 r]]]; try (unfold zlen in Hl; simpl in Hl; lia).
  simpl in H0, H2, H4. injection H0 as ->. injection H2 as ->. injection H4 as ->.
  exists v, v0, v1, (take (Z.to_nat (3 + len - 0) - 3) r). split; [| split; [done | lia]].
  rewrite Eb. change (drop (Z.to_nat 0) ?l) with l.
  destruct (Z.to_nat (3 + len - 0)) as [| [| [| n]]] eqn:En; [lia | lia | lia |].
  simpl. by rewrite Nat.sub_0_r.
Qed.

Lemma appendDone_returns out a :
  buf_ok (abuf a) -> Forall section_ok out ->
  returns (appendDone out pid a) (fun r => buf_ok (abuf r.2) /\ Forall section_ok r.1).
Proof.
  intros Ha Ho. unfold appendDone. apply returns_bind. eapply returns_mono.
  { apply append_loop_returns; [exact Ha | unfold zlen; lia | done]. }
  intros [b o] [H1 H2]. by apply returns_Ok.
Qed.
End append.

Definition state_ok (st : state) : Prop :=
  map_Forall (fun _ a => buf_ok (abuf a)) (fst st) /\ Forall section_ok (snd st).

Lemma section_packet_returns st pkt :
  state_ok st -> packet_ok pkt -> returns (section_packet st pkt) state_ok.
Proof.
  intros Hst [Hl Hb]. destruct st as [open out]. unfold section_packet.
  destruct (Hst) as [Ho Hout]. cbn [fst snd] in Ho, Hout.
  go_step. go_step. destruct (negb (Z.land v 128 =? 0)); [done |].
  go_step. go_step. set (pid := be16 (Z.land v 31) v0).
  destruct (negb (pid =? pidPAT) && negb (pid =? pidSDT) && negb (pid =? pidEIT))%bool eqn:Ep; [done |].
  assert (pid = pidPAT \/ pid = pidSDT \/ pid = pidEIT) as Hpid by lia.
  go_step. go_step. set (afc := Z.land (Z.shiftr v1 4) 3). destruct (Z.land afc 1 =? 0); [done |].
  set (cc := Z.land v1 15).
  assert (returns (if negb (Z.land afc 2 =? 0) then let! n := idx pkt 4 in Ok (5 + n) else Ok 4)
    (fun off => 4 <= off /\ (negb (Z.land afc 2 =? 0) = false -> off = 4))) as Hoff.
  { destruct (negb (Z.land afc 2 =? 0)); [| simpl; split; [lia | done]]. go_steps. split; [blia | done]. }
  apply returns_bind. eapply returns_mono; [exact Hoff |]. intros off [Ho4 Hoffn].
  destruct (negb (Z.land afc 2 =? 0) && (188 <=? off))%bool eqn:Eoff; [done |].
  assert (4 <= off < 188) as Hob.
  { destruct (negb (Z.land afc 2 =? 0)); [simpl in Eoff; lia | rewrite Hoffn by done; lia]. }
  clear Hoff Hoffn Eoff.
  apply returns_bind, returns_slice_from; [done | lia |]. intros payload Hp Hpl _.
  destruct (match open !! pid with Some a => cc =? acc a | None => false end); [done |].
  set (a := match open !! pid with Some _ => _ | None => _ end).
  assert (match a with Some a => buf_ok (abuf a) | None => True end) as Ha.
  { unfold a. destruct (open !! pid) as [a0|] eqn:E; [| done]. cbn [abuf].
    destruct (negb (cc =? _)); [constructor | by apply (Ho pid)]. }
  set (open' := match a with Some _ => _ | None => _ end).
  assert (map_Forall (fun _ a => buf_ok (abuf a)) open') as Ho'.
  { unfold open'. destruct a; [by apply map_Forall_insert_2 | done]. }
  clearbody a open'. destruct (negb (Z.land v 64 =? 0)).
  - go_step. go_step. destruct (Z.ltb_spec (zlen payload) (1 + v2)).
    { split; [| done]. by apply map_Forall_delete. }
    apply returns_bind. eapply returns_mono.
    { instantiate (1 := fun r => Forall section_ok r.2).
      destruct a as [[[buf|] c]|]; [| done | done].
      apply returns_bind, returns_slice; [done | blia | blia |]. intros before Hbef _ _.
      apply returns_bind. eapply returns_mono.
      { apply appendDone_returns; [done | | done]. by apply bytes_ok_app. }
      intros [o' a'] [_ H']. by apply returns_Ok. }
    intros [a' out'] Hout'. cbn [snd] in Hout'.
    apply returns_bind, returns_slice_from; [done | blia |]. intros after Haft _ _.
    apply returns_bind. eapply returns_mono; [by apply appendDone_returns |].
    intros [o2 a2] [Ha2 Ho2]. apply returns_Ok. split; [by apply map_Forall_insert_2 | done].
  - destruct a as [[[buf|] c]|]; [| done | done].
    apply returns_bind. eapply returns_mono.
    { apply appendDone_returns; [done | | done]. by apply bytes_ok_app. }
    intros [o2 a2] [Ha2 Ho2]. apply returns_Ok. split; [by apply map_Forall_insert_2 | done].
Qed.

Lemma section_packets_returns st pkts :
  state_ok st -> Forall packet_ok pkts -> returns (section_packets st pkts) state_ok.
Proof.
  intros Hst Hp. revert st Hst. induction Hp as [| p pkts Hp _ IH]; intros st Hst; [done |].
  cbn [section_packets]. apply returns_bind. eapply returns_mono; [by apply section_packet_returns |].
  intros st' H. by apply IH.
Qed.

Lemma sections_returns raw : bytes_ok raw -> returns (sections raw) (Forall section_ok).
Proof.
  intros Hb. unfold sections. apply returns_bind. eapply returns_mono.
  { apply Packets_returns; [constructor | done]. }
  intros [pkts r] (H1 & _). apply returns_bind. eapply returns_mono.
  { apply (section_packets_returns (∅, [])); [| exact H1]. split; [apply map_Forall_empty | constructor]. }
  intros [op out] [_ H]. by apply returns_Ok.
Qed.

(** ** Sections packed back to back *)

(** A section as a station sends it. *)
Record sent (s : list Z) : Prop := {
  sent_bytes : bytes_ok s;
  sent_len : exists b0 b1 b2 r, s = b0 :: b1 :: b2 :: r /\ b0 <> 0xFF /\ zlen s = 3 + be16 (Z.land b1 0x0F) b2;
  sent_size : 8 <= zlen s <= 4096;
  sent_crc : crcOK s = Ok true }.

(** A packet header of [pid] with counter [c] and no adaptation field. *)
Definition header (pid : Z) (pusi : bool) (c : Z) (h : list Z) : Prop :=
  exists b1 b2 b3, h = [0x47; b1; b2; b3] /\ Z.land b1 0x80 = 0 /\
    be16 (Z.land b1 0x1F) b2 = pid /\ negb (Z.land b1 0x40 =? 0) = pusi /\
    Z.land (Z.shiftr b3 4) 3 = 1 /\ Z.land b3 0x0F = c.

(** The counter of the packet after one with counter [cc]. *)
Definition next (cc : option Z) (c : Z) : Prop :=
  0 <= c < 16 /\ match cc with Some c0 => c = Z.land (c0 + 1) 0x0F | None => True end.

(** [fill q body m q']: [body] is whole sections from the front of [q], then
    stuffing or the first [m] bytes of the next section; [q'] is what is left. *)
Inductive fill : list (list Z) -> list Z -> nat -> list (list Z) -> Prop :=
  | fill_stuffing q k : fill q (replicate k 0xFF) 0 q
  | fill_cut s q m : (0 < m < length s)%nat -> fill (s :: q) (take m s) m (s :: q)
  | fill_whole s q body m q' : fill q body m q' -> fill (s :: q) (s ++ body) m q'.

(** [packed pid cc m q pkts]: [pkts] carry the sections [q], of whose first
    [m] bytes were already sent in the packets up to counter [cc]. *)
Inductive packed (pid : Z) : option Z -> nat -> list (list Z) -> list (list Z) -> Prop :=
  | packed_end cc : packed pid cc 0 [] []
  | packed_stuffing c0 c h q pkts :
      next (Some c0) c -> header pid false c h -> packed pid (Some c) 0 q pkts ->
      packed pid (Some c0) 0 q ((h ++ replicate 184 0xFF) :: pkts)
  | packed_more cc c m h s q pkts :
      next cc c -> header pid false c h -> (0 < m)%nat -> (m + 184 < length s)%nat ->
      packed pid (Some c) (m + 184) (s :: q) pkts ->
      packed pid cc m (s :: q) ((h ++ take 184 (drop m s)) :: pkts)
  | packed_last cc c m h s q k pkts :
      next cc c -> header pid false c h -> (0 < m < length s)%nat ->
      zlen (drop m s ++ replicate k 0xFF) = 184 ->
      packed pid (Some c) 0 q pkts ->
      packed pid cc m (s :: q) ((h ++ drop m s ++ replicate k 0xFF) :: pkts)
  | packed_start cc c m h q body q' pkts :
      next cc c -> header pid true c h -> fill q body m q' -> zlen body = 183 ->
      packed pid (Some c) m q' pkts ->
      packed pid cc 0 q ((h ++ 0 :: body) :: pkts)
  | packed_join cc c m m' h s q body q' pkts :
      next cc c -> header pid true c h -> (0 < m < length s)%nat -> fill q body m' q' ->
      zlen (drop m s ++ body) = 183 ->
      packed pid (Some c) m' q' pkts ->
      packed pid cc m (s :: q) ((h ++ zlen (drop m s) :: drop m s ++ body) :: pkts)
  | packed_again c m h pusi q pay pkts :
      header pid pusi c h -> zlen pay = 184 -> packed pid (Some c) m q pkts ->
      packed pid (Some c) m q ((h ++ pay) :: pkts).

(** A buffer between sections: empty, or the one or two bytes of stuffing that
    are not yet known to be. *)
Definition idle (b : option (list Z)) : Prop := exists k, (k < 3)%nat /\ default [] b = replicate k 0xFF.

Section packed_lemmas.
Context (pid : Z).

Lemma append_loop_stuffing f k out :
  (k <= f)%nat ->
  exists b, append_loop f pid (replicate k 0xFF) out = Ok (b, out) /\ idle b.
Proof.
  intros Hk. destruct (decide (k < 3)%nat) as [Hs | Hs].
  - exists (if zlen (replicate k 255) =? 0 then None else Some (replicate k 255)). split.
    + destruct k as [| [| [| k]]]; [by destruct f | by destruct f | by destruct f | lia].
    + exists k. split; [done |]. by destruct k.
  - destruct k as [| [| [| k]]]; [lia | lia | lia |]. destruct f as [| f]; [lia |].
    exists None. split; [| by exists O; split; [lia |]]. cbn [append_loop].
    replace (zlen (replicate (S (S (S k))) 255) <? 3) with false; [done |].
    symmetry. apply Z.ltb_ge. unfold zlen. rewrite length_replicate. lia.
Qed.

Lemma append_loop_cut f s m out :
  sent s -> (0 < m < length s)%nat -> (m <= f)%nat ->
  append_loop f pid (take m s) out = Ok (Some (take m s), out).
Proof.
  intros [Hb (b0 & b1 & b2 & r & -> & Hff & Hl) Hsz _] Hm Hf.
  assert (zlen (take m (b0 :: b1 :: b2 :: r)) = Z.of_nat m) as Hz.
  { rewrite zlen_take. unfold zlen. lia. }
  destruct m as [| [| [| m]]]; [lia | by destruct f | by destruct f |].
  destruct f as [| f]; [lia |]. cbn [append_loop]. rewrite Hz.
  replace (Z.of_nat (S (S (S m))) <? 3) with false by (symmetry; apply Z.ltb_ge; lia).
  change (idx (take (S (S (S m))) (b0 :: b1 :: b2 :: r)) 0) with (Ok b0).
  change (idx (take (S (S (S m))) (b0 :: b1 :: b2 :: r)) 1) with (Ok b1).
  change (idx (take (S (S (S m))) (b0 :: b1 :: b2 :: r)) 2) with (Ok b2). cbn [rbind]. cbv zeta.
  replace (b0 =? 255) with false by lia.
  rewrite <- Hl. replace ((be16 (Z.land b1 15) b2 <? 5) || (4096 <? zlen (b0 :: b1 :: b2 :: r)))%bool with false by lia.
  by replace (Z.of_nat (S (S (S m))) <? zlen (b0 :: b1 :: b2 :: r)) with true
    by (symmetry; apply Z.ltb_lt; unfold zlen; lia).
Qed.

Lemma append_loop_whole f s b out :
  sent s -> append_loop (S f) pid (s ++ b) out = append_loop f pid b (out ++ [(pid, s)]).
Proof.
  intros [Hb (b0 & b1 & b2 & r & Es & Hff & Hl) Hsz Hcrc].
  cbn [append_loop]. pose proof (zlen_nonneg b). rewrite zlen_app.
  replace (zlen s + zlen b <? 3) with false by lia.
  assert (idx (s ++ b) 0 = Ok b0) as -> by (by rewrite Es).
  assert (idx (s ++ b) 1 = Ok b1) as -> by (by rewrite Es).
  assert (idx (s ++ b) 2 = Ok b2) as -> by (by rewrite Es). cbn [rbind]. cbv zeta.
  replace (b0 =? 255) with false by lia. rewrite <- Hl.
  replace ((be16 (Z.land b1 15) b2 <? 5) || (4096 <? zlen s))%bool with false by lia.
  replace (zlen s + zlen b <? zlen s) with false by lia.
  rewrite slice_app_l, slice_Ok by lia. rewrite Z.sub_0_r, zlen_nat. rewrite drop_0.
  rewrite take_ge by lia. cbn [rbind]. rewrite Hcrc. cbn [rbind].
  rewrite slice_from_Ok by (rewrite zlen_app; lia). cbn [rbind]. by rewrite zlen_nat, drop_app_length.
Qed.

(** What the buffer holds after [m] bytes of the first section of [q]. *)
Definition holds (b : option (list Z)) (m : nat) (q : list (list Z)) : Prop :=
  match m with
  | O => idle b
  | S _ => exists s q', q = s :: q' /\ (m < length s)%nat /\ b = Some (take m s)
  end.

Lemma append_loop_fill q body m q' :
  fill q body m q' -> Forall sent q -> forall f out, (length body <= f)%nat ->
  exists b done_, append_loop f pid body out = Ok (b, out ++ map (pair pid) done_) /\
    q = done_ ++ q' /\ holds b m q'.
Proof.
  induction 1 as [q k | s q m Hm | s q body m q' Hf IH]; intros Hq f out Hl.
  - rewrite length_replicate in Hl. destruct (append_loop_stuffing f k out Hl) as (b & E & Hb).
    exists b, []. by rewrite app_nil_r.
  - apply Forall_cons in Hq as [Hs _]. rewrite length_take in Hl.
    exists (Some (take m s)), []. rewrite append_loop_cut by (done || lia). rewrite app_nil_r.
    split; [done |]. split; [done |]. destruct m; [lia |]. exists s, q. by destruct Hm.
  - apply Forall_cons in Hq as [Hs Hq]. rewrite length_app in Hl.
    assert (8 <= zlen s) as H8 by (by destruct Hs as [_ _ [? _] _]). unfold zlen in H8.
    destruct f as [| f]; [lia |]. rewrite append_loop_whole by done.
    destruct (IH Hq f (out ++ [(pid, s)]) ltac:(lia)) as (b & d & E & -> & Hh).
    exists b, (s :: d). rewrite E, <- app_assoc. done.
Qed.
End packed_lemmas.

Section packed.
Context (pid : Z) (Hpid : pid = pidPAT \/ pid = pidSDT \/ pid = pidEIT).

(** The assembly of [pid] after the packets up to counter [cc]. *)
Definition tracks (o : option assembly) (cc : option Z) (m : nat) (q : list (list Z)) : Prop :=
  match cc with
  | None => o = None /\ m = O
  | Some c => exists b, o = Some (mkAssembly b c) /\ holds b m q
  end.

(** What is left of the packet when its header was read. *)
Definition payload_step (open : gmap Z assembly) (out : list section) (pusi : bool) (c : Z)
    (buf : option (option (list Z))) (pay : list Z) : res state :=
  let a := (fun b => mkAssembly b c) <$> buf in
  let open := match a with Some a => <[pid := a]> open | None => open end in
  if pusi then
    let! pointer := idx pay 0 in
    if zlen pay <? 1 + pointer then Ok (delete pid open, out)
    else
      let! ' (a, out) :=
        match a with
        | Some (mkAssembly (Some buf) c) =>
            let! before := slice pay 1 (1 + pointer) in
            let! ' (out, a) := appendDone out pid (mkAssembly (Some (buf ++ before)) c) in
            Ok (a, out)
        | Some (mkAssembly None c) => Ok (mkAssembly None c, out)
        | None => Ok (mkAssembly None c, out)
        end in
      let! after := slice_from pay (1 + pointer) in
      let! ' (out, a) := appendDone out pid (mkAssembly (Some after) (acc a)) in
      Ok (<[pid := a]> open, out)
  else
    match a with
    | Some (mkAssembly (Some buf) c) =>
        let! ' (out, a) := appendDone out pid (mkAssembly (Some (buf ++ pay)) c) in
        Ok (<[pid := a]> open, out)
    | _ => Ok (open, out)
    end.

Lemma header_next open out pusi c h pay cc m q :
  header pid pusi c h -> zlen pay = 184 -> next cc c -> tracks (open !! pid) cc m q ->
  section_packet (open, out) (h ++ pay) = payload_step open out pusi c (abuf <$> (open !! pid)) pay.
Proof.
  intros (b1 & b2 & b3 & -> & Hsc & Hp & Hu & Ha & Hc) Hl [Hr Hn] Ht.
  unfold section_packet. cbn [app].
  change (idx (71 :: b1 :: b2 :: b3 :: pay) 1) with (Ok b1).
  change (idx (71 :: b1 :: b2 :: b3 :: pay) 2) with (Ok b2).
  change (idx (71 :: b1 :: b2 :: b3 :: pay) 3) with (Ok b3). cbn [rbind]. cbv zeta.
  rewrite Hsc, Hp, Hu, Ha, Hc.
  replace (negb (pid =? pidPAT) && negb (pid =? pidSDT) && negb (pid =? pidEIT))%bool with false
    by (unfold pidPAT, pidSDT, pidEIT in *; lia).
  change (Z.land 1 1 =? 0) with false. change (Z.land 1 2 =? 0) with true. cbn [Z.eqb negb andb rbind].
  rewrite slice_from_Ok by (rewrite !zlen_cons; lia).
  change (drop (Z.to_nat 4) (71 :: b1 :: b2 :: b3 :: pay)) with pay. cbn [rbind].
  destruct cc as [c0|]; simpl in Ht.
  - destruct Ht as (b & -> & _). cbn [acc abuf fmap option_fmap option_map].
    assert (c <> c0) as Hne.
    { rewrite Hn. clear. change 15 with (Z.pred (2 ^ 4)). rewrite land_mask by lia.
      pose proof (Z.div_mod (c0 + 1) (2 ^ 4)). lia. }
    replace (c =? c0) with false by lia. by rewrite Hn, Z.eqb_refl.
  - by destruct Ht as [-> _].
Qed.

Lemma header_again open out pusi c h pay m q :
  header pid pusi c h -> zlen pay = 184 -> tracks (open !! pid) (Some c) m q ->
  section_packet (open, out) (h ++ pay) = Ok (open, out).
Proof.
  intros (b1 & b2 & b3 & -> & Hsc & Hp & Hu & Ha & Hc) Hl (b & E & _).
  unfold section_packet. cbn [app].
  change (idx (71 :: b1 :: b2 :: b3 :: pay) 1) with (Ok b1).
  change (idx (71 :: b1 :: b2 :: b3 :: pay) 2) with (Ok b2).
  change (idx (71 :: b1 :: b2 :: b3 :: pay) 3) with (Ok b3). cbn [rbind]. cbv zeta.
  rewrite Hsc, Hp, Hu, Ha, Hc.
  replace (negb (pid =? pidPAT) && negb (pid =? pidSDT) && negb (pid =? pidEIT))%bool with false
    by (unfold pidPAT, pidSDT, pidEIT in *; lia).
  change (Z.land 1 1 =? 0) with false. change (Z.land 1 2 =? 0) with true. cbn [Z.eqb negb andb rbind].
  rewrite slice_from_Ok by (rewrite !zlen_cons; lia). cbn [rbind]. rewrite E. cbn [acc].
  by rewrite Z.eqb_refl.
Qed.

(** The buffer after whole sections, a part of one or stuffing. *)
Lemma appendDone_fill q body m q' out c :
  fill q body m q' -> Forall sent q ->
  exists b done_, appendDone out pid (mkAssembly (Some body) c) =
    Ok (out ++ map (pair pid) done_, mkAssembly b c) /\ q = done_ ++ q' /\ holds b m q'.
Proof.
  intros Hf Hq. destruct (append_loop_fill pid q body m q' Hf Hq (length body) out (le_n _)) as (b & d & E & H).
  exists b, d. unfold appendDone. cbn [abuf default acc]. unfold default. simpl. by rewrite E.
Qed.

Lemma idle_more b k : idle b -> exists j, default [] b ++ replicate k 0xFF = replicate j 0xFF.
Proof. intros (i & _ & ->). exists (i + k)%nat. by rewrite replicate_add. Qed.

Lemma idle_fill b k q : idle b -> fill q (default [] b ++ replicate k 0xFF) 0 q.
Proof. intros Hb. destruct (idle_more b k Hb) as [j ->]. constructor. Qed.

(** A packet with no pointer goes after what the buffer holds. *)
Lemma step_goes_on open out c bb pay q m q' :
  fill q (bb ++ pay) m q' -> Forall sent q ->
  exists open' done_, payload_step open out false c (Some (Some bb)) pay = Ok (open', out ++ map (pair pid) done_) /\
    q = done_ ++ q' /\ tracks (open' !! pid) (Some c) m q'.
Proof.
  intros Hf Hq. destruct (appendDone_fill q (bb ++ pay) m q' out c Hf Hq) as (b & d & E & Eq & Hh).
  unfold payload_step. simpl. rewrite E. simpl. eexists _, d. split; [done |]. split; [done |].
  exists b. by rewrite lookup_insert_eq.
Qed.

(** A packet with a pointer: the bytes before it end what the buffer holds,
    the bytes after it start anew. *)
Lemma step_starts open out c buf tl body q1 m1 q2 m q' :
  match buf with
  | Some (Some bb) => fill q1 (bb ++ tl) m1 q2
  | _ => tl = [] /\ q1 = q2
  end -> fill q2 body m q' -> zlen (tl ++ body) = 183 -> Forall sent q1 -> Forall sent q2 ->
  exists open' done_, payload_step open out true c buf (zlen tl :: tl ++ body) = Ok (open', out ++ map (pair pid) done_) /\
    q1 = done_ ++ q' /\ tracks (open' !! pid) (Some c) m q'.
Proof.
  intros Hb Hf Hl Hq1 Hq2. unfold payload_step.
  change (idx (zlen tl :: tl ++ body) 0) with (Ok (zlen tl)). cbn [rbind].
  pose proof (zlen_nonneg tl). pose proof (zlen_nonneg body). rewrite zlen_app in Hl.
  assert (zlen (zlen tl :: tl ++ body) = 184) as Hz by (rewrite zlen_cons, zlen_app; lia).
  rewrite Hz. replace (184 <? 1 + zlen tl) with false by lia.
  assert (slice_from (zlen tl :: tl ++ body) (1 + zlen tl) = Ok body) as ->.
  { rewrite slice_from_Ok by lia. replace (Z.to_nat (1 + zlen tl)) with (S (length tl)) by (unfold zlen; lia).
    cbn [skipn]. by rewrite drop_app_length. }
  assert (slice (zlen tl :: tl ++ body) 1 (1 + zlen tl) = Ok tl) as ->.
  { rewrite slice_Ok by lia. replace (Z.to_nat (1 + zlen tl - 1)) with (length tl) by (unfold zlen; lia).
    change (drop (Z.to_nat 1) (zlen tl :: tl ++ body)) with (tl ++ body). by rewrite take_app_length. }
  set (first := match _ with Some _ => _ | None => _ end).
  assert (exists b d, first = Ok (mkAssembly b c, out ++ map (pair pid) d) /\ q1 = d ++ q2) as (b & d & -> & ->).
  { unfold first. destruct buf as [[bb|]|].
    - simpl. destruct (appendDone_fill q1 (bb ++ tl) m1 q2 out c Hb Hq1) as (b & d & E & Eq & _).
      exists b, d. by rewrite E.
    - destruct Hb as [_ ->]. exists None, []. by rewrite app_nil_r.
    - destruct Hb as [_ ->]. exists None, []. by rewrite app_nil_r. }
  cbn [rbind acc].
  destruct (appendDone_fill q2 body m q' (out ++ map (pair pid) d) c Hf Hq2) as (b2 & d2 & -> & -> & Hh).
  cbn [rbind]. eexists _, (d ++ d2). split; [by rewrite map_app, (app_assoc out) |].
  split; [by rewrite app_assoc |]. exists b2. by rewrite lookup_insert_eq.
Qed.

Lemma chain open out d q' pkts q r :
  q = d ++ q' ->
  (exists open', section_packets (open, out ++ map (pair pid) d) pkts = Ok (open', (out ++ map (pair pid) d) ++ map (pair pid) q')) ->
  r = Ok (open, out ++ map (pair pid) d) ->
  exists open', rbind r (fun st => section_packets st pkts) = Ok (open', out ++ map (pair pid) q).
Proof. intros -> [o E] ->. cbn [rbind]. exists o. by rewrite E, map_app, (app_assoc out). Qed.

Lemma packed_reads cc m q pkts :
  packed pid cc m q pkts -> Forall sent q -> forall open out, tracks (open !! pid) cc m q ->
  exists open', section_packets (open, out) pkts = Ok (open', out ++ map (pair pid) q).
Proof.
  induction 1 as
    [ cc | cc c h q pkts Hn Hh _ IH | cc c m h s q pkts Hn Hh Hm Hlt _ IH
    | cc c m h s q k pkts Hn Hh Hm Hz _ IH | cc c m h q body q' pkts Hn Hh Hf Hz _ IH
    | cc c m m' h s q body q' pkts Hn Hh Hm Hf Hz _ IH | c m h pusi q pay pkts Hh Hz _ IH ];
    intros Hq open out Ht; cbn [section_packets].
  - exists open. by rewrite app_nil_r.
  - destruct (Ht) as (b & Eb & Hid). rewrite (header_next open out false c h _ (Some cc) 0 q Hh) by done.
    rewrite Eb. cbn [fmap option_fmap option_map abuf]. destruct b as [bb|].
    + destruct (step_goes_on open out c bb (replicate 184 255) q 0 q) as (o & d & E & Eq & Ht').
      { apply (idle_fill (Some bb) 184 q Hid). } { done. }
      apply (chain o out d q pkts q); [done | | exact E]. by apply IH.
    + cbn [payload_step fmap option_fmap option_map rbind]. apply IH; [done |].
      exists None. by rewrite lookup_insert_eq.
  - destruct m as [| m]; [lia |]. destruct cc as [cc|]; [| by destruct Ht as [_ ?]].
    destruct (Ht) as (b & Eb & s' & q0 & [= <- <-] & _ & ->).
    rewrite (header_next open out false c h _ (Some cc) (S m) (s :: q) Hh); [| | done | done].
    2: { rewrite zlen_take, zlen_drop. unfold zlen. lia. }
    rewrite Eb. cbn [fmap option_fmap option_map abuf].
    destruct (step_goes_on open out c (take (S m) s) (take 184 (drop (S m) s)) (s :: q) (S m + 184) (s :: q))
      as (o & d & E & Eq & Ht'); [| done |].
    { rewrite take_take_drop. constructor. lia. }
    apply (chain o out d (s :: q) pkts (s :: q)); [done | | exact E]. by apply IH.
  - destruct m as [| m]; [lia |]. destruct cc as [cc|]; [| by destruct Ht as [_ ?]].
    destruct (Ht) as (b & Eb & s' & q0 & [= <- <-] & _ & ->).
    rewrite (header_next open out false c h _ (Some cc) (S m) (s :: q) Hh) by done.
    rewrite Eb. cbn [fmap option_fmap option_map abuf].
    destruct (step_goes_on open out c (take (S m) s) (drop (S m) s ++ replicate k 255) (s :: q) 0 q)
      as (o & d & E & Eq & Ht'); [| done |].
    { rewrite app_assoc, take_drop. apply fill_whole. constructor. }
    apply (chain o out d q pkts (s :: q)); [done | | exact E]. apply Forall_cons in Hq as [_ Hq]. by apply IH.
  - rewrite (header_next open out true c h _ cc 0 q Hh); [| | done | done].
    2: { rewrite zlen_cons, Hz. done. }
    destruct (step_starts open out c (abuf <$> open !! pid) [] body q 0 q m q') as (o & d & E & Eq & Ht');
      [| done | done | done | done |].
    { destruct cc as [cc|].
      - destruct Ht as (b & -> & Hid). cbn [fmap option_fmap option_map abuf]. destruct b as [bb|]; [| done].
        apply (idle_fill (Some bb) 0 q Hid).
      - by destruct Ht as [-> _]. }
    apply (chain o out d q' pkts q); [done | | exact E]. apply IH; [| done].
    rewrite Eq in Hq. by apply Forall_app in Hq as [_ Hq].
  - destruct m as [| m]; [lia |]. destruct cc as [cc|]; [| by destruct Ht as [_ ?]].
    destruct (Ht) as (b & Eb & s' & q0 & [= <- <-] & _ & ->).
    rewrite (header_next open out true c h _ (Some cc) (S m) (s :: q) Hh); [| | done | done].
    2: { rewrite zlen_cons, Hz. done. }
    rewrite Eb. cbn [fmap option_fmap option_map abuf].
    destruct (step_starts open out c (Some (Some (take (S m) s))) (drop (S m) s) body (s :: q) 0 q m' q')
      as (o & d & E & Eq & Ht'); [| done | done | done | by apply Forall_cons in Hq as [_ Hq] |].
    { rewrite take_drop. pose proof (fill_whole s q [] 0 q (fill_stuffing q 0)) as Hw.
      by rewrite app_nil_r in Hw. }
    apply (chain o out d q' pkts (s :: q)); [done | | exact E]. apply IH; [| done].
    rewrite Eq in Hq. by apply Forall_app in Hq as [_ Hq].
  - rewrite (header_again open out pusi c h pay m q Hh) by done. cbn [rbind]. by apply IH.
Qed.

Lemma packed_aligned cc m q pkts : packed pid cc m q pkts -> Forall aligned pkts.
Proof.
  assert (forall h pusi c pay, header pid pusi c h -> zlen pay = 184 -> aligned (h ++ pay)) as Ha.
  { intros h pusi c pay (b1 & b2 & b3 & -> & _) Hl. split; [| done]. rewrite zlen_app, Hl. done. }
  induction 1; constructor; try done; (eapply Ha; [eassumption |]).
  - done.
  - rewrite zlen_take, zlen_drop. unfold zlen. lia.
  - done.
  - rewrite zlen_cons. lia.
  - rewrite zlen_cons. lia.
  - done.
Qed.
End packed.

(** Every section sent is read, once and in order: sections of the PAT, the
    SDT or the EIT packed back to back into transport packets, the end of one
    before the pointer of a packet and the next right after it, with stuffing,
    stuffing packets and repeated packets where a station puts them, come back
    exactly as they were sent. *)
Theorem packed_sections_read (pid : Z) (q pkts : list (list Z))
    (Hpid : pid = pidPAT \/ pid = pidSDT \/ pid = pidEIT)
    (Hp : packed pid None 0 q pkts) (Hq : Forall sent q) :
  sections (concat pkts) = Ok (map (pair pid) q).
Proof.
  unfold sections. rewrite <- (app_nil_r (concat pkts)).
  rewrite (Packets_aligned [] _ pkts []); [| done | by eapply packed_aligned | by split; [| left]].
  cbn [rbind]. destruct (packed_reads pid Hpid None 0 q pkts Hp Hq ∅ []) as [o ->]; [done |]. done.
Qed.

(** A section of [n] bytes in all: its header, zeroes and the checksum. *)
Definition sample (n : Z) : list Z :=
  let d := [0x42; 0xF0; n - 3] ++ replicate (Z.to_nat (n - 7)) 0x00 in d ++ crc_bytes (mpegCRC d).

Lemma dvb_sample_sent : Forall sent [sample 100; sample 150].
Proof.
  assert (forall n, bytes_ok (sample n) -> zlen (sample n) = n -> 8 <= n <= 258 ->
    crcOK (sample n) = Ok true -> sent (sample n)) as Hs.
  { intros n Hb Hl Hn Hc. constructor; [done | | lia | done].
    exists 0x42, 0xF0, (n - 3), (drop 3 (sample n)). split; [done |]. split; [done |].
    change (Z.land 240 15) with 0. rewrite be16_eq by (unfold byte_ok; lia). lia. }
  constructor; [| constructor; [| constructor]]; apply Hs; (lia || bytes_dec || by vm_compute).
Qed.

Lemma packed_sections_read_witness :
  sections (concat
    [[0x47; 0x40; 0x11; 0x1F] ++ 0 :: sample 100 ++ take 83 (sample 150);
     [0x47; 0x40; 0x11; 0x10] ++ 67 :: drop 83 (sample 150) ++ replicate 116 0xFF])
  = Ok (map (pair pidSDT) [sample 100; sample 150]).
Proof.
  apply packed_sections_read.
  - right. by left.
  - apply (packed_start _ _ 15 83 [0x47; 0x40; 0x11; 0x1F] _ (sample 100 ++ take 83 (sample 150)) [sample 150]).
    + done.
    + by exists 0x40, 0x11, 0x1F.
    + apply fill_whole, fill_cut. vm_compute. lia.
    + by vm_compute.
    + apply (packed_join _ _ 0 83 0 [0x47; 0x40; 0x11; 0x10] (sample 150) [] (replicate 116 0xFF) []).
      * done.
      * by exists 0x40, 0x11, 0x10.
      * vm_compute. lia.
      * apply (fill_stuffing [] 116).
      * by vm_compute.
      * constructor.
  - apply dvb_sample_sent.
Defined.
