(* ===== verification/DvbText.v ===== *)
(** DVB text, [server/internal/dvbsi/text.go], with the character tables of
    [charsets.go]. A Go string is its code points. *)
From S2P Require Import Prelude PsipText.
Local Open Scope Z_scope.
Local Open Scope go_scope.

(** ** The tables *)

Definition iso8859 (part : Z) : option (list Z) :=
  match part with
  | 1 => Some [
      0x00A0; 0x00A1; 0x00A2; 0x00A3; 0x00A4; 0x00A5; 0x00A6; 0x00A7; 0x00A8; 0x00A9; 0x00AA; 0x00AB; 0x00AC; 0x00AD; 0x00AE; 0x00AF;
      0x00B0; 0x00B1; 0x00B2; 0x00B3; 0x00B4; 0x00B5; 0x00B6; 0x00B7; 0x00B8; 0x00B9; 0x00BA; 0x00BB; 0x00BC; 0x00BD; 0x00BE; 0x00BF;
      0x00C0; 0x00C1; 0x00C2; 0x00C3; 0x00C4; 0x00C5; 0x00C6; 0x00C7; 0x00C8; 0x00C9; 0x00CA; 0x00CB; 0x00CC; 0x00CD; 0x00CE; 0x00CF;
      0x00D0; 0x00D1; 0x00D2; 0x00D3; 0x00D4; 0x00D5; 0x00D6; 0x00D7; 0x00D8; 0x00D9; 0x00DA; 0x00DB; 0x00DC; 0x00DD; 0x00DE; 0x00DF;
      0x00E0; 0x00E1; 0x00E2; 0x00E3; 0x00E4; 0x00E5; 0x00E6; 0x00E7; 0x00E8; 0x00E9; 0x00EA; 0x00EB; 0x00EC; 0x00ED; 0x00EE; 0x00EF;
      0x00F0; 0x00F1; 0x00F2; 0x00F3; 0x00F4; 0x00F5; 0x00F6; 0x00F7; 0x00F8; 0x00F9; 0x00FA; 0x00FB; 0x00FC; 0x00FD; 0x00FE; 0x00FF]
  | 2 => Some [
      0x00A0; 0x0104; 0x02D8; 0x0141; 0x00A4; 0x013D; 0x015A; 0x00A7; 0x00A8; 0x0160; 0x015E; 0x0164; 0x0179; 0x00AD; 0x017D; 0x017B;
      0x00B0; 0x0105; 0x02DB; 0x0142; 0x00B4; 0x013E; 0x015B; 0x02C7; 0x00B8; 0x0161; 0x015F; 0x0165; 0x017A; 0x02DD; 0x017E; 0x017C;
      0x0154; 0x00C1; 0x00C2; 0x0102; 0x00C4; 0x0139; 0x0106; 0x00C7; 0x010C; 0x00C9; 0x0118; 0x00CB; 0x011A; 0x00CD; 0x00CE; 0x010E;
      0x0110; 0x0143; 0x0147; 0x00D3; 0x00D4; 0x0150; 0x00D6; 0x00D7; 0x0158; 0x016E; 0x00DA; 0x0170; 0x00DC; 0x00DD; 0x0162; 0x00DF;
      0x0155; 0x00E1; 0x00E2; 0x0103; 0x00E4; 0x013A; 0x0107; 0x00E7; 0x010D; 0x00E9; 0x0119; 0x00EB; 0x011B; 0x00ED; 0x00EE; 0x010F;
      0x0111; 0x0144; 0x0148; 0x00F3; 0x00F4; 0x0151; 0x00F6; 0x00F7; 0x0159; 0x016F; 0x00FA; 0x0171; 0x00FC; 0x00FD; 0x0163; 0x02D9]
  | 3 => Some [
      0x00A0; 0x0126; 0x02D8; 0x00A3; 0x00A4; 0; 0x0124; 0x00A7; 0x00A8; 0x0130; 0x015E; 0x011E; 0x0134; 0x00AD; 0; 0x017B;
      0x00B0; 0x0127; 0x00B2; 0x00B3; 0x00B4; 0x00B5; 0x0125; 0x00B7; 0x00B8; 0x0131; 0x015F; 0x011F; 0x0135; 0x00BD; 0; 0x017C;
      0x00C0; 0x00C1; 0x00C2; 0; 0x00C4; 0x010A; 0x0108; 0x00C7; 0x00C8; 0x00C9; 0x00CA; 0x00CB; 0x00CC; 0x00CD; 0x00CE; 0x00CF;
      0; 0x00D1; 0x00D2; 0x00D3; 0x00D4; 0x0120; 0x00D6; 0x00D7; 0x011C; 0x00D9; 0x00DA; 0x00DB; 0x00DC; 0x016C; 0x015C; 0x00DF;
      0x00E0; 0x00E1; 0x00E2; 0; 0x00E4; 0x010B; 0x0109; 0x00E7; 0x00E8; 0x00E9; 0x00EA; 0x00EB; 0x00EC; 0x00ED; 0x00EE; 0x00EF;
      0; 0x00F1; 0x00F2; 0x00F3; 0x00F4; 0x0121; 0x00F6; 0x00F7; 0x011D; 0x00F9; 0x00FA; 0x00FB; 0x00FC; 0x016D; 0x015D; 0x02D9]
  | 4 => Some [
      0x00A0; 0x0104; 0x0138; 0x0156; 0x00A4; 0x0128; 0x013B; 0x00A7; 0x00A8; 0x0160; 0x0112; 0x0122; 0x0166; 0x00AD; 0x017D; 0x00AF;
      0x00B0; 0x0105; 0x02DB; 0x0157; 0x00B4; 0x0129; 0x013C; 0x02C7; 0x00B8; 0x0161; 0x0113; 0x0123; 0x0167; 0x014A; 0x017E; 0x014B;
      0x0100; 0x00C1; 0x00C2; 0x00C3; 0x00C4; 0x00C5; 0x00C6; 0x012E; 0x010C; 0x00C9; 0x0118; 0x00CB; 0x0116; 0x00CD; 0x00CE; 0x012A;
      0x0110; 0x0145; 0x014C; 0x0136; 0x00D4; 0x00D5; 0x00D6; 0x00D7; 0x00D8; 0x0172; 0x00DA; 0x00DB; 0x00DC; 0x0168; 0x016A; 0x00DF;
      0x0101; 0x00E1; 0x00E2; 0x00E3; 0x00E4; 0x00E5; 0x00E6; 0x012F; 0x010D; 0x00E9; 0x0119; 0x00EB; 0x0117; 0x00ED; 0x00EE; 0x012B;
      0x0111; 0x0146; 0x014D; 0x0137; 0x00F4; 0x00F5; 0x00F6; 0x00F7; 0x00F8; 0x0173; 0x00FA; 0x00FB; 0x00FC; 0x0169; 0x016B; 0x02D9]
  | 5 => Some [
      0x00A0; 0x0401; 0x0402; 0x0403; 0x0404; 0x0405; 0x0406; 0x0407; 0x0408; 0x0409; 0x040A; 0x040B; 0x040C; 0x00AD; 0x040E; 0x040F;
      0x0410; 0x0411; 0x0412; 0x0413; 0x0414; 0x0415; 0x0416; 0x0417; 0x0418; 0x0419; 0x041A; 0x041B; 0x041C; 0x041D; 0x041E; 0x041F;
      0x0420; 0x0421; 0x0422; 0x0423; 0x0424; 0x0425; 0x0426; 0x0427; 0x0428; 0x0429; 0x042A; 0x042B; 0x042C; 0x042D; 0x042E; 0x042F;
      0x0430; 0x0431; 0x0432; 0x0433; 0x0434; 0x0435; 0x0436; 0x0437; 0x0438; 0x0439; 0x043A; 0x043B; 0x043C; 0x043D; 0x043E; 0x043F;
      0x0440; 0x0441; 0x0442; 0x0443; 0x0444; 0x0445; 0x0446; 0x0447; 0x0448; 0x0449; 0x044A; 0x044B; 0x044C; 0x044D; 0x044E; 0x044F;
      0x2116; 0x0451; 0x0452; 0x0453; 0x0454; 0x0455; 0x0456; 0x0457; 0x0458; 0x0459; 0x045A; 0x045B; 0x045C; 0x00A7; 0x045E; 0x045F]
  | 6 => Some [
      0x00A0; 0; 0; 0; 0x00A4; 0; 0; 0; 0; 0; 0; 0; 0x060C; 0x00AD; 0; 0;
      0; 0; 0; 0; 0; 0; 0; 0; 0; 0; 0; 0x061B; 0; 0; 0; 0x061F;
      0; 0x0621; 0x0622; 0x0623; 0x0624; 0x0625; 0x0626; 0x0627; 0x0628; 0x0629; 0x062A; 0x062B; 0x062C; 0x062D; 0x062E; 0x062F;
      0x0630; 0x0631; 0x0632; 0x0633; 0x0634; 0x0635; 0x0636; 0x0637; 0x0638; 0x0639; 0x063A; 0; 0; 0; 0; 0;
      0x0640; 0x0641; 0x0642; 0x0643; 0x0644; 0x0645; 0x0646; 0x0647; 0x0648; 0x0649; 0x064A; 0x064B; 0x064C; 0x064D; 0x064E; 0x064F;
      0x0650; 0x0651; 0x0652; 0; 0; 0; 0; 0; 0; 0; 0; 0; 0; 0; 0; 0]
  | 7 => Some [
      0x00A0; 0x2018; 0x2019; 0x00A3; 0x20AC; 0x20AF; 0x00A6; 0x00A7; 0x00A8; 0x00A9; 0x037A; 0x00AB; 0x00AC; 0x00AD; 0; 0x2015;
      0x00B0; 0x00B1; 0x00B2; 0x00B3; 0x0384; 0x0385; 0x0386; 0x00B7; 0x0388; 0x0389; 0x038A; 0x00BB; 0x038C; 0x00BD; 0x038E; 0x038F;
      0x0390; 0x0391; 0x0392; 0x0393; 0x0394; 0x0395; 0x0396; 0x0397; 0x0398; 0x0399; 0x039A; 0x039B; 0x039C; 0x039D; 0x039E; 0x039F;
      0x03A0; 0x03A1; 0; 0x03A3; 0x03A4; 0x03A5; 0x03A6; 0x03A7; 0x03A8; 0x03A9; 0x03AA; 0x03AB; 0x03AC; 0x03AD; 0x03AE; 0x03AF;
      0x03B0; 0x03B1; 0x03B2; 0x03B3; 0x03B4; 0x03B5; 0x03B6; 0x03B7; 0x03B8; 0x03B9; 0x03BA; 0x03BB; 0x03BC; 0x03BD; 0x03BE; 0x03BF;
      0x03C0; 0x03C1; 0x03C2; 0x03C3; 0x03C4; 0x03C5; 0x03C6; 0x03C7; 0x03C8; 0x03C9; 0x03CA; 0x03CB; 0x03CC; 0x03CD; 0x03CE; 0]
  | 8 => Some [
      0x00A0; 0; 0x00A2; 0x00A3; 0x00A4; 0x00A5; 0x00A6; 0x00A7; 0x00A8; 0x00A9; 0x00D7; 0x00AB; 0x00AC; 0x00AD; 0x00AE; 0x00AF;
      0x00B0; 0x00B1; 0x00B2; 0x00B3; 0x00B4; 0x00B5; 0x00B6; 0x00B7; 0x00B8; 0x00B9; 0x00F7; 0x00BB; 0x00BC; 0x00BD; 0x00BE; 0;
      0; 0; 0; 0; 0; 0; 0; 0; 0; 0; 0; 0; 0; 0; 0; 0;
      0; 0; 0; 0; 0; 0; 0; 0; 0; 0; 0; 0; 0; 0; 0; 0x2017;
      0x05D0; 0x05D1; 0x05D2; 0x05D3; 0x05D4; 0x05D5; 0x05D6; 0x05D7; 0x05D8; 0x05D9; 0x05DA; 0x05DB; 0x05DC; 0x05DD; 0x05DE; 0x05DF;
      0x05E0; 0x05E1; 0x05E2; 0x05E3; 0x05E4; 0x05E5; 0x05E6; 0x05E7; 0x05E8; 0x05E9; 0x05EA; 0; 0; 0x200E; 0x200F; 0]
  | 9 => Some [
      0x00A0; 0x00A1; 0x00A2; 0x00A3; 0x00A4; 0x00A5; 0x00A6; 0x00A7; 0x00A8; 0x00A9; 0x00AA; 0x00AB; 0x00AC; 0x00AD; 0x00AE; 0x00AF;
      0x00B0; 0x00B1; 0x00B2; 0x00B3; 0x00B4; 0x00B5; 0x00B6; 0x00B7; 0x00B8; 0x00B9; 0x00BA; 0x00BB; 0x00BC; 0x00BD; 0x00BE; 0x00BF;
      0x00C0; 0x00C1; 0x00C2; 0x00C3; 0x00C4; 0x00C5; 0x00C6; 0x00C7; 0x00C8; 0x00C9; 0x00CA; 0x00CB; 0x00CC; 0x00CD; 0x00CE; 0x00CF;
      0x011E; 0x00D1; 0x00D2; 0x00D3; 0x00D4; 0x00D5; 0x00D6; 0x00D7; 0x00D8; 0x00D9; 0x00DA; 0x00DB; 0x00DC; 0x0130; 0x015E; 0x00DF;
      0x00E0; 0x00E1; 0x00E2; 0x00E3; 0x00E4; 0x00E5; 0x00E6; 0x00E7; 0x00E8; 0x00E9; 0x00EA; 0x00EB; 0x00EC; 0x00ED; 0x00EE; 0x00EF;
      0x011F; 0x00F1; 0x00F2; 0x00F3; 0x00F4; 0x00F5; 0x00F6; 0x00F7; 0x00F8; 0x00F9; 0x00FA; 0x00FB; 0x00FC; 0x0131; 0x015F; 0x00FF]
  | 10 => Some [
      0x00A0; 0x0104; 0x0112; 0x0122; 0x012A; 0x0128; 0x0136; 0x00A7; 0x013B; 0x0110; 0x0160; 0x0166; 0x017D; 0x00AD; 0x016A; 0x014A;
      0x00B0; 0x0105; 0x0113; 0x0123; 0x012B; 0x0129; 0x0137; 0x00B7; 0x013C; 0x0111; 0x0161; 0x0167; 0x017E; 0x2015; 0x016B; 0x014B;
      0x0100; 0x00C1; 0x00C2; 0x00C3; 0x00C4; 0x00C5; 0x00C6; 0x012E; 0x010C; 0x00C9; 0x0118; 0x00CB; 0x0116; 0x00CD; 0x00CE; 0x00CF;
      0x00D0; 0x0145; 0x014C; 0x00D3; 0x00D4; 0x00D5; 0x00D6; 0x0168; 0x00D8; 0x0172; 0x00DA; 0x00DB; 0x00DC; 0x00DD; 0x00DE; 0x00DF;
      0x0101; 0x00E1; 0x00E2; 0x00E3; 0x00E4; 0x00E5; 0x00E6; 0x012F; 0x010D; 0x00E9; 0x0119; 0x00EB; 0x0117; 0x00ED; 0x00EE; 0x00EF;
      0x00F0; 0x0146; 0x014D; 0x00F3; 0x00F4; 0x00F5; 0x00F6; 0x0169; 0x00F8; 0x0173; 0x00FA; 0x00FB; 0x00FC; 0x00FD; 0x00FE; 0x0138]
  | 11 => Some [
      0x00A0; 0x0E01; 0x0E02; 0x0E03; 0x0E04; 0x0E05; 0x0E06; 0x0E07; 0x0E08; 0x0E09; 0x0E0A; 0x0E0B; 0x0E0C; 0x0E0D; 0x0E0E; 0x0E0F;
      0x0E10; 0x0E11; 0x0E12; 0x0E13; 0x0E14; 0x0E15; 0x0E16; 0x0E17; 0x0E18; 0x0E19; 0x0E1A; 0x0E1B; 0x0E1C; 0x0E1D; 0x0E1E; 0x0E1F;
      0x0E20; 0x0E21; 0x0E22; 0x0E23; 0x0E24; 0x0E25; 0x0E26; 0x0E27; 0x0E28; 0x0E29; 0x0E2A; 0x0E2B; 0x0E2C; 0x0E2D; 0x0E2E; 0x0E2F;
      0x0E30; 0x0E31; 0x0E32; 0x0E33; 0x0E34; 0x0E35; 0x0E36; 0x0E37; 0x0E38; 0x0E39; 0x0E3A; 0; 0; 0; 0; 0x0E3F;
      0x0E40; 0x0E41; 0x0E42; 0x0E43; 0x0E44; 0x0E45; 0x0E46; 0x0E47; 0x0E48; 0x0E49; 0x0E4A; 0x0E4B; 0x0E4C; 0x0E4D; 0x0E4E; 0x0E4F;
      0x0E50; 0x0E51; 0x0E52; 0x0E53; 0x0E54; 0x0E55; 0x0E56; 0x0E57; 0x0E58; 0x0E59; 0x0E5A; 0x0E5B; 0; 0; 0; 0]
  | 13 => Some [
      0x00A0; 0x201D; 0x00A2; 0x00A3; 0x00A4; 0x201E; 0x00A6; 0x00A7; 0x00D8; 0x00A9; 0x0156; 0x00AB; 0x00AC; 0x00AD; 0x00AE; 0x00C6;
      0x00B0; 0x00B1; 0x00B2; 0x00B3; 0x201C; 0x00B5; 0x00B6; 0x00B7; 0x00F8; 0x00B9; 0x0157; 0x00BB; 0x00BC; 0x00BD; 0x00BE; 0x00E6;
      0x0104; 0x012E; 0x0100; 0x0106; 0x00C4; 0x00C5; 0x0118; 0x0112; 0x010C; 0x00C9; 0x0179; 0x0116; 0x0122; 0x0136; 0x012A; 0x013B;
      0x0160; 0x0143; 0x0145; 0x00D3; 0x014C; 0x00D5; 0x00D6; 0x00D7; 0x0172; 0x0141; 0x015A; 0x016A; 0x00DC; 0x017B; 0x017D; 0x00DF;
      0x0105; 0x012F; 0x0101; 0x0107; 0x00E4; 0x00E5; 0x0119; 0x0113; 0x010D; 0x00E9; 0x017A; 0x0117; 0x0123; 0x0137; 0x012B; 0x013C;
      0x0161; 0x0144; 0x0146; 0x00F3; 0x014D; 0x00F5; 0x00F6; 0x00F7; 0x0173; 0x0142; 0x015B; 0x016B; 0x00FC; 0x017C; 0x017E; 0x2019]
  | 14 => Some [
      0x00A0; 0x1E02; 0x1E03; 0x00A3; 0x010A; 0x010B; 0x1E0A; 0x00A7; 0x1E80; 0x00A9; 0x1E82; 0x1E0B; 0x1EF2; 0x00AD; 0x00AE; 0x0178;
      0x1E1E; 0x1E1F; 0x0120; 0x0121; 0x1E40; 0x1E41; 0x00B6; 0x1E56; 0x1E81; 0x1E57; 0x1E83; 0x1E60; 0x1EF3; 0x1E84; 0x1E85; 0x1E61;
      0x00C0; 0x00C1; 0x00C2; 0x00C3; 0x00C4; 0x00C5; 0x00C6; 0x00C7; 0x00C8; 0x00C9; 0x00CA; 0x00CB; 0x00CC; 0x00CD; 0x00CE; 0x00CF;
      0x0174; 0x00D1; 0x00D2; 0x00D3; 0x00D4; 0x00D5; 0x00D6; 0x1E6A; 0x00D8; 0x00D9; 0x00DA; 0x00DB; 0x00DC; 0x00DD; 0x0176; 0x00DF;
      0x00E0; 0x00E1; 0x00E2; 0x00E3; 0x00E4; 0x00E5; 0x00E6; 0x00E7; 0x00E8; 0x00E9; 0x00EA; 0x00EB; 0x00EC; 0x00ED; 0x00EE; 0x00EF;
      0x0175; 0x00F1; 0x00F2; 0x00F3; 0x00F4; 0x00F5; 0x00F6; 0x1E6B; 0x00F8; 0x00F9; 0x00FA; 0x00FB; 0x00FC; 0x00FD; 0x0177; 0x00FF]
  | 15 => Some [
      0x00A0; 0x00A1; 0x00A2; 0x00A3; 0x20AC; 0x00A5; 0x0160; 0x00A7; 0x0161; 0x00A9; 0x00AA; 0x00AB; 0x00AC; 0x00AD; 0x00AE; 0x00AF;
      0x00B0; 0x00B1; 0x00B2; 0x00B3; 0x017D; 0x00B5; 0x00B6; 0x00B7; 0x017E; 0x00B9; 0x00BA; 0x00BB; 0x0152; 0x0153; 0x0178; 0x00BF;
      0x00C0; 0x00C1; 0x00C2; 0x00C3; 0x00C4; 0x00C5; 0x00C6; 0x00C7; 0x00C8; 0x00C9; 0x00CA; 0x00CB; 0x00CC; 0x00CD; 0x00CE; 0x00CF;
      0x00D0; 0x00D1; 0x00D2; 0x00D3; 0x00D4; 0x00D5; 0x00D6; 0x00D7; 0x00D8; 0x00D9; 0x00DA; 0x00DB; 0x00DC; 0x00DD; 0x00DE; 0x00DF;
      0x00E0; 0x00E1; 0x00E2; 0x00E3; 0x00E4; 0x00E5; 0x00E6; 0x00E7; 0x00E8; 0x00E9; 0x00EA; 0x00EB; 0x00EC; 0x00ED; 0x00EE; 0x00EF;
      0x00F0; 0x00F1; 0x00F2; 0x00F3; 0x00F4; 0x00F5; 0x00F6; 0x00F7; 0x00F8; 0x00F9; 0x00FA; 0x00FB; 0x00FC; 0x00FD; 0x00FE; 0x00FF]
  | _ => None
  end.

Definition composed6937 (mark : Z) : list (Z * Z) :=
  match mark with
  | 0xC1 => [
      (0x0041, 0x00C0); (0x0061, 0x00E0); (0x0045, 0x00C8); (0x0065, 0x00E8); (0x0049, 0x00CC); (0x0069, 0x00EC);
      (0x004E, 0x01F8); (0x006E, 0x01F9); (0x004F, 0x00D2); (0x006F, 0x00F2); (0x0055, 0x00D9); (0x0075, 0x00F9);
      (0x0057, 0x1E80); (0x0077, 0x1E81); (0x0059, 0x1EF2); (0x0079, 0x1EF3)]
  | 0xC2 => [
      (0x0041, 0x00C1); (0x0061, 0x00E1); (0x0043, 0x0106); (0x0063, 0x0107); (0x0045, 0x00C9); (0x0065, 0x00E9);
      (0x0047, 0x01F4); (0x0067, 0x01F5); (0x0049, 0x00CD); (0x0069, 0x00ED); (0x004B, 0x1E30); (0x006B, 0x1E31);
      (0x004C, 0x0139); (0x006C, 0x013A); (0x004D, 0x1E3E); (0x006D, 0x1E3F); (0x004E, 0x0143); (0x006E, 0x0144);
      (0x004F, 0x00D3); (0x006F, 0x00F3); (0x0050, 0x1E54); (0x0070, 0x1E55); (0x0052, 0x0154); (0x0072, 0x0155);
      (0x0053, 0x015A); (0x0073, 0x015B); (0x0055, 0x00DA); (0x0075, 0x00FA); (0x0057, 0x1E82); (0x0077, 0x1E83);
      (0x0059, 0x00DD); (0x0079, 0x00FD); (0x005A, 0x0179); (0x007A, 0x017A)]
  | 0xC3 => [
      (0x0041, 0x00C2); (0x0061, 0x00E2); (0x0043, 0x0108); (0x0063, 0x0109); (0x0045, 0x00CA); (0x0065, 0x00EA);
      (0x0047, 0x011C); (0x0067, 0x011D); (0x0048, 0x0124); (0x0068, 0x0125); (0x0049, 0x00CE); (0x0069, 0x00EE);
      (0x004A, 0x0134); (0x006A, 0x0135); (0x004F, 0x00D4); (0x006F, 0x00F4); (0x0053, 0x015C); (0x0073, 0x015D);
      (0x0055, 0x00DB); (0x0075, 0x00FB); (0x0057, 0x0174); (0x0077, 0x0175); (0x0059, 0x0176); (0x0079, 0x0177);
      (0x005A, 0x1E90); (0x007A, 0x1E91)]
  | 0xC4 => [
      (0x0041, 0x00C3); (0x0061, 0x00E3); (0x0045, 0x1EBC); (0x0065, 0x1EBD); (0x0049, 0x0128); (0x0069, 0x0129);
      (0x004E, 0x00D1); (0x006E, 0x00F1); (0x004F, 0x00D5); (0x006F, 0x00F5); (0x0055, 0x0168); (0x0075, 0x0169);
      (0x0056, 0x1E7C); (0x0076, 0x1E7D); (0x0059, 0x1EF8); (0x0079, 0x1EF9)]
  | 0xC5 => [
      (0x0041, 0x0100); (0x0061, 0x0101); (0x0045, 0x0112); (0x0065, 0x0113); (0x0047, 0x1E20); (0x0067, 0x1E21);
      (0x0049, 0x012A); (0x0069, 0x012B); (0x004F, 0x014C); (0x006F, 0x014D); (0x0055, 0x016A); (0x0075, 0x016B);
      (0x0059, 0x0232); (0x0079, 0x0233)]
  | 0xC6 => [
      (0x0041, 0x0102); (0x0061, 0x0103); (0x0045, 0x0114); (0x0065, 0x0115); (0x0047, 0x011E); (0x0067, 0x011F);
      (0x0049, 0x012C); (0x0069, 0x012D); (0x004F, 0x014E); (0x006F, 0x014F); (0x0055, 0x016C); (0x0075, 0x016D)]
  | 0xC7 => [
      (0x0041, 0x0226); (0x0061, 0x0227); (0x0042, 0x1E02); (0x0062, 0x1E03); (0x0043, 0x010A); (0x0063, 0x010B);
      (0x0044, 0x1E0A); (0x0064, 0x1E0B); (0x0045, 0x0116); (0x0065, 0x0117); (0x0046, 0x1E1E); (0x0066, 0x1E1F);
      (0x0047, 0x0120); (0x0067, 0x0121); (0x0048, 0x1E22); (0x0068, 0x1E23); (0x0049, 0x0130); (0x004D, 0x1E40);
      (0x006D, 0x1E41); (0x004E, 0x1E44); (0x006E, 0x1E45); (0x004F, 0x022E); (0x006F, 0x022F); (0x0050, 0x1E56);
      (0x0070, 0x1E57); (0x0052, 0x1E58); (0x0072, 0x1E59); (0x0053, 0x1E60); (0x0073, 0x1E61); (0x0054, 0x1E6A);
      (0x0074, 0x1E6B); (0x0057, 0x1E86); (0x0077, 0x1E87); (0x0058, 0x1E8A); (0x0078, 0x1E8B); (0x0059, 0x1E8E);
      (0x0079, 0x1E8F); (0x005A, 0x017B); (0x007A, 0x017C)]
  | 0xC8 => [
      (0x0041, 0x00C4); (0x0061, 0x00E4); (0x0045, 0x00CB); (0x0065, 0x00EB); (0x0048, 0x1E26); (0x0068, 0x1E27);
      (0x0049, 0x00CF); (0x0069, 0x00EF); (0x004F, 0x00D6); (0x006F, 0x00F6); (0x0074, 0x1E97); (0x0055, 0x00DC);
      (0x0075, 0x00FC); (0x0057, 0x1E84); (0x0077, 0x1E85); (0x0058, 0x1E8C); (0x0078, 0x1E8D); (0x0059, 0x0178);
      (0x0079, 0x00FF)]
  | 0xC9 => [
      (0x0041, 0x00C4); (0x0061, 0x00E4); (0x0045, 0x00CB); (0x0065, 0x00EB); (0x0048, 0x1E26); (0x0068, 0x1E27);
      (0x0049, 0x00CF); (0x0069, 0x00EF); (0x004F, 0x00D6); (0x006F, 0x00F6); (0x0074, 0x1E97); (0x0055, 0x00DC);
      (0x0075, 0x00FC); (0x0057, 0x1E84); (0x0077, 0x1E85); (0x0058, 0x1E8C); (0x0078, 0x1E8D); (0x0059, 0x0178);
      (0x0079, 0x00FF)]
  | 0xCA => [
      (0x0041, 0x00C5); (0x0061, 0x00E5); (0x0055, 0x016E); (0x0075, 0x016F); (0x0077, 0x1E98); (0x0079, 0x1E99)]
  | 0xCB => [
      (0x0043, 0x00C7); (0x0063, 0x00E7); (0x0044, 0x1E10); (0x0064, 0x1E11); (0x0045, 0x0228); (0x0065, 0x0229);
      (0x0047, 0x0122); (0x0067, 0x0123); (0x0048, 0x1E28); (0x0068, 0x1E29); (0x004B, 0x0136); (0x006B, 0x0137);
      (0x004C, 0x013B); (0x006C, 0x013C); (0x004E, 0x0145); (0x006E, 0x0146); (0x0052, 0x0156); (0x0072, 0x0157);
      (0x0053, 0x015E); (0x0073, 0x015F); (0x0054, 0x0162); (0x0074, 0x0163)]
  | 0xCD => [
      (0x004F, 0x0150); (0x006F, 0x0151); (0x0055, 0x0170); (0x0075, 0x0171)]
  | 0xCE => [
      (0x0041, 0x0104); (0x0061, 0x0105); (0x0045, 0x0118); (0x0065, 0x0119); (0x0049, 0x012E); (0x0069, 0x012F);
      (0x004F, 0x01EA); (0x006F, 0x01EB); (0x0055, 0x0172); (0x0075, 0x0173)]
  | 0xCF => [
      (0x0041, 0x01CD); (0x0061, 0x01CE); (0x0043, 0x010C); (0x0063, 0x010D); (0x0044, 0x010E); (0x0064, 0x010F);
      (0x0045, 0x011A); (0x0065, 0x011B); (0x0047, 0x01E6); (0x0067, 0x01E7); (0x0048, 0x021E); (0x0068, 0x021F);
      (0x0049, 0x01CF); (0x0069, 0x01D0); (0x006A, 0x01F0); (0x004B, 0x01E8); (0x006B, 0x01E9); (0x004C, 0x013D);
      (0x006C, 0x013E); (0x004E, 0x0147); (0x006E, 0x0148); (0x004F, 0x01D1); (0x006F, 0x01D2); (0x0052, 0x0158);
      (0x0072, 0x0159); (0x0053, 0x0160); (0x0073, 0x0161); (0x0054, 0x0164); (0x0074, 0x0165); (0x0055, 0x01D3);
      (0x0075, 0x01D4); (0x005A, 0x017D); (0x007A, 0x017E)]
  | _ => []
  end.

Definition upper6937 : list Z := [
  0x00A0; 0x00A1; 0x00A2; 0x00A3; 0x20AC; 0x00A5; 0x0023; 0x00A7; 0x00A4; 0x2018; 0x201C; 0x00AB; 0x2190; 0x2191; 0x2192; 0x2193;
  0x00B0; 0x00B1; 0x00B2; 0x00B3; 0x00D7; 0x00B5; 0x00B6; 0x00B7; 0x00F7; 0x2019; 0x201D; 0x00BB; 0x00BC; 0x00BD; 0x00BE; 0x00BF;
  0; 0; 0; 0; 0; 0; 0; 0; 0; 0; 0; 0; 0; 0; 0; 0;
  0x2015; 0x00B9; 0x00AE; 0x00A9; 0x2122; 0x266A; 0x00AC; 0x00A6; 0; 0; 0; 0; 0x215B; 0x215C; 0x215D; 0x215E;
  0x2126; 0x00C6; 0x0110; 0x00AA; 0x0126; 0; 0x0132; 0x013F; 0x0141; 0x00D8; 0x0152; 0x00BA; 0x00DE; 0x0166; 0x014A; 0x0149;
  0x0138; 0x00E6; 0x0111; 0x00F0; 0x0127; 0x0131; 0x0133; 0x0140; 0x0142; 0x00F8; 0x0153; 0x00DF; 0x00FE; 0x0167; 0x014B; 0x00AD].

(** ** One code point of UTF-8 *)

Definition cont (lo hi b : Z) : bool := (lo <=? b) && (b <=? hi).

(** [utf8.DecodeRune] of a non-empty string: the code point and its length,
    [None] for a byte that starts no valid sequence. *)
Definition decode_rune (b : list Z) : option (Z * nat) :=
  match b with
  | [] => None
  | b0 :: r =>
      if b0 <? 0x80 then Some (b0, 1%nat)
      else if cont 0xC2 0xDF b0 then
        match r with
        | b1 :: _ => if cont 0x80 0xBF b1 then Some (Z.lor (Z.shiftl (Z.land b0 0x1F) 6) (Z.land b1 0x3F), 2%nat) else None
        | [] => None
        end
      else if cont 0xE0 0xEF b0 then
        match r with
        | b1 :: b2 :: _ =>
            if (cont (if b0 =? 0xE0 then 0xA0 else 0x80) (if b0 =? 0xED then 0x9F else 0xBF) b1 && cont 0x80 0xBF b2)%bool
            then Some (Z.lor (Z.lor (Z.shiftl (Z.land b0 0x0F) 12) (Z.shiftl (Z.land b1 0x3F) 6)) (Z.land b2 0x3F), 3%nat)
            else None
        | _ => None
        end
      else if cont 0xF0 0xF4 b0 then
        match r with
        | b1 :: b2 :: b3 :: _ =>
            if (cont (if b0 =? 0xF0 then 0x90 else 0x80) (if b0 =? 0xF4 then 0x8F else 0xBF) b1
                && cont 0x80 0xBF b2 && cont 0x80 0xBF b3)%bool
            then Some (Z.lor (Z.lor (Z.lor (Z.shiftl (Z.land b0 0x07) 18) (Z.shiftl (Z.land b1 0x3F) 12))
                                    (Z.shiftl (Z.land b2 0x3F) 6)) (Z.land b3 0x3F), 4%nat)
            else None
        | _ => None
        end
      else None
  end.

(** [strings.ToValidUTF8(s, EmptyString)], as code points: a byte that starts
    no valid sequence is dropped and the next one tried. *)
Fixpoint valid_utf8 (fuel : nat) (b : list Z) : list Z :=
  match fuel, b with
  | O, _ | _, [] => []
  | S fuel, _ :: r =>
      match decode_rune b with
      | Some (c, n) => c :: valid_utf8 fuel (drop n b)
      | None => valid_utf8 fuel r
      end
  end.

(** ** [text.go] *)

Fixpoint iso_loop (table : list Z) (b : list Z) : res (list Z) :=
  match b with
  | [] => Ok []
  | c :: b =>
      if c <? 0xA0 then let! out := iso_loop table b in Ok (c :: out)
      else
        let! r := idx table (c - 0xA0) in
        let! out := iso_loop table b in
        Ok (if negb (r =? 0) then r :: out else out)
  end.
Definition iso (part : Z) (b : list Z) : res (list Z) :=
  match iso8859 part with
  | None => Ok []
  | Some table => iso_loop table b
  end.

Fixpoint ucs2 (b : list Z) : list Z :=
  match b with
  | h :: l :: b =>
      let r := be16 h l in
      if ((0xD800 <=? r) && (r <=? 0xDFFF))%bool then ucs2 b else r :: ucs2 b
  | _ => []
  end.

Definition compose6937 (mark base : Z) : option Z :=
  option_map snd (find (fun p => fst p =? base) (composed6937 mark)).

Fixpoint latin6937 (b : list Z) : res (list Z) :=
  match b with
  | [] => Ok []
  | c :: b =>
      if ((0xC1 <=? c) && (c <=? 0xCF))%bool then
        match b with
        | [] => Ok []
        | base :: b =>
            let! out := latin6937 b in
            Ok (match compose6937 c base with
                | Some r => r :: out
                | None => if ((0x20 <=? base) && (base <? 0x7F))%bool then base :: out else out
                end)
        end
      else if c <? 0xA0 then let! out := latin6937 b in Ok (c :: out)
      else
        let! r := idx upper6937 (c - 0xA0) in
        let! out := latin6937 b in
        Ok (if negb (r =? 0) then r :: out else out)
  end.

Definition blank (r : Z) : bool :=
  (r =? 0x8A) || (r =? 0xE08A) || (r =? 10) || (r =? 13) || (r =? 9) || (r =? 32) || (r =? 0xA0).
Definition dropped (r : Z) : bool :=
  (r <? 0x20) || (r =? 0x7F) || ((0x80 <=? r) && (r <=? 0x9F)) || ((0xE080 <=? r) && (r <=? 0xE09F))
  || (r =? 0xAD) || (r =? 0xFFFD).

Fixpoint clean_loop (s : list Z) (space : bool) (out : list Z) : list Z :=
  match s with
  | [] => out
  | r :: s =>
      if blank r then clean_loop s true out
      else if dropped r then clean_loop s space out
      else clean_loop s false ((if (space && negb (zlen out =? 0))%bool then out ++ [32] else out) ++ [r])
  end.
Definition clean (s : list Z) : list Z := clean_loop s false [].

Definition Text (b : list Z) : res (list Z) :=
  if zlen b =? 0 then Ok []
  else
    let! first := idx b 0 in
    let! b1 := slice_from b 1 in
    if 0x20 <=? first then let! s := latin6937 b in Ok (clean s)
    else if ((0x01 <=? first) && (first <=? 0x0B))%bool then let! s := iso (first + 4) b1 in Ok (clean s)
    else if first =? 0x10 then
      if zlen b <? 3 then Ok []
      else
        let! x := idx b 1 in
        if negb (x =? 0) then Ok []
        else
          let! part := idx b 2 in
          let! b3 := slice_from b 3 in
          let! s := iso part b3 in Ok (clean s)
    else if ((first =? 0x11) || (first =? 0x14))%bool then Ok (clean (ucs2 b1))
    else if first =? 0x15 then Ok (clean (valid_utf8 (length b1) b1))
    else Ok [].

(** ** What comes back *)

(** A code point in UTF-8. *)
Definition utf8_rune (c : Z) : list Z :=
  if c <? 0x80 then [c]
  else if c <? 0x800 then [0xC0 + c / 64; 0x80 + c mod 64]
  else if c <? 0x10000 then [0xE0 + c / 4096; 0x80 + c / 64 mod 64; 0x80 + c mod 64]
  else [0xF0 + c / 262144; 0x80 + c / 4096 mod 64; 0x80 + c / 64 mod 64; 0x80 + c mod 64].
Definition utf8 (s : list Z) : list Z := concat (map utf8_rune s).

Definition scalar (c : Z) : Prop := 0 <= c < 0x110000 /\ ~ (0xD800 <= c <= 0xDFFF).

Lemma trail x : 0 <= x < 64 -> Z.land (0x80 + x) 0x3F = x /\ cont 0x80 0xBF (0x80 + x) = true.
Proof.
  intros Hx. split; [| unfold cont; lia].
  change 0x3F with (Z.pred (2 ^ 6)). rewrite land_mask by lia. change (2 ^ 6) with 64. dlia.
Qed.

Lemma lead base x k m : 0 <= k -> m = Z.pred (2 ^ k) -> base mod 2 ^ k = 0 -> 0 <= x < 2 ^ k -> Z.land (base + x) m = x.
Proof.
  intros Hk -> Hb Hx. rewrite land_mask by done. rewrite <- Zplus_mod_idemp_l, Hb. apply Z.mod_small. lia.
Qed.

Lemma join2 a b : 0 <= b < 64 -> Z.lor (Z.shiftl a 6) b = a * 64 + b.
Proof. intros Hb. by rewrite lor_shiftl_add by lia. Qed.

Lemma join3 a b c : 0 <= b < 64 -> 0 <= c < 64 ->
  Z.lor (Z.lor (Z.shiftl a 12) (Z.shiftl b 6)) c = (a * 64 + b) * 64 + c.
Proof.
  intros Hb Hc. rewrite (Z.shiftl_mul_pow2 b) by lia.
  rewrite lor_shiftl_add by lia. replace (a * 2 ^ 12 + b * 2 ^ 6) with ((a * 64 + b) * 2 ^ 6) by lia.
  by rewrite lor_mul_add by lia.
Qed.

Lemma join4 a b c d : 0 <= b < 64 -> 0 <= c < 64 -> 0 <= d < 64 ->
  Z.lor (Z.lor (Z.lor (Z.shiftl a 18) (Z.shiftl b 12)) (Z.shiftl c 6)) d = ((a * 64 + b) * 64 + c) * 64 + d.
Proof.
  intros Hb Hc Hd. rewrite (Z.shiftl_mul_pow2 b), (Z.shiftl_mul_pow2 c) by lia.
  rewrite lor_shiftl_add by lia. replace (a * 2 ^ 18 + b * 2 ^ 12) with ((a * 64 + b) * 2 ^ 12) by lia.
  rewrite lor_mul_add by lia.
  replace ((a * 64 + b) * 2 ^ 12 + c * 2 ^ 6) with (((a * 64 + b) * 64 + c) * 2 ^ 6) by lia.
  by rewrite lor_mul_add by lia.
Qed.

Lemma decode_rune_utf8 c r : scalar c -> decode_rune (utf8_rune c ++ r) = Some (c, length (utf8_rune c)).
Proof.
  intros [Hc Hs]. unfold utf8_rune. destruct (Z.ltb_spec c 0x80) as [H0 | H0].
  { cbn [app decode_rune]. by replace (c <? 0x80) with true by dlia. }
  destruct (trail (c mod 64)) as [T0 C0]; [dlia |].
  destruct (trail (c / 64 mod 64)) as [T1 C1]; [dlia |].
  destruct (trail (c / 4096 mod 64)) as [T2 C2]; [dlia |].
  destruct (Z.ltb_spec c 0x800) as [H1 | H1]; [| destruct (Z.ltb_spec c 0x10000) as [H2 | H2]];
    cbn [app decode_rune].
  - replace (192 + c / 64 <? 128) with false by dlia.
    replace (cont 194 223 (192 + c / 64)) with true by (unfold cont; dlia).
    rewrite C0, T0. rewrite (lead 192 (c / 64) 5 31 ltac:(lia) eq_refl ltac:(done) ltac:(dlia)), join2 by dlia.
    f_equal. f_equal. dlia.
  - replace (224 + c / 4096 <? 128) with false by dlia.
    replace (cont 194 223 (224 + c / 4096)) with false by (unfold cont; dlia).
    replace (cont 224 239 (224 + c / 4096)) with true by (unfold cont; dlia).
    assert (cont (if 224 + c / 4096 =? 224 then 160 else 128) (if 224 + c / 4096 =? 237 then 159 else 191)
      (128 + c / 64 mod 64) = true) as ->.
    { unfold cont. destruct (Z.eqb_spec (224 + c / 4096) 224), (Z.eqb_spec (224 + c / 4096) 237); dlia. }
    rewrite C0, T0, T1. rewrite (lead 224 (c / 4096) 4 15 ltac:(lia) eq_refl ltac:(done) ltac:(dlia)), join3 by dlia.
    cbn [andb]. f_equal. f_equal. dlia.
  - replace (240 + c / 262144 <? 128) with false by dlia.
    replace (cont 194 223 (240 + c / 262144)) with false by (unfold cont; dlia).
    replace (cont 224 239 (240 + c / 262144)) with false by (unfold cont; dlia).
    replace (cont 240 244 (240 + c / 262144)) with true by (unfold cont; dlia).
    assert (cont (if 240 + c / 262144 =? 240 then 144 else 128) (if 240 + c / 262144 =? 244 then 143 else 191)
      (128 + c / 4096 mod 64) = true) as ->.
    { unfold cont. destruct (Z.eqb_spec (240 + c / 262144) 240), (Z.eqb_spec (240 + c / 262144) 244); dlia. }
    rewrite C0, C1, T0, T1, T2. rewrite (lead 240 (c / 262144) 3 7 ltac:(lia) eq_refl ltac:(done) ltac:(dlia)), join4 by dlia.
    cbn [andb]. f_equal. f_equal. dlia.
Qed.

Lemma utf8_rune_length c : (1 <= length (utf8_rune c))%nat.
Proof. unfold utf8_rune. repeat case_match; simpl; lia. Qed.

Lemma valid_utf8_roundtrip s : Forall scalar s -> forall f, (length (utf8 s) <= f)%nat -> valid_utf8 f (utf8 s) = s.
Proof.
  induction 1 as [| c s Hc _ IH]; intros f Hf; [by destruct f |].
  unfold utf8 in *. cbn [map concat] in *. rewrite length_app in Hf. pose proof (utf8_rune_length c) as Hl.
  destruct f as [| f]; [lia |]. cbn [valid_utf8].
  destruct (utf8_rune c ++ concat (map utf8_rune s)) as [| x l] eqn:E.
  { apply (f_equal length) in E. rewrite length_app in E. simpl in E. lia. }
  rewrite <- E, decode_rune_utf8 by done. rewrite drop_app_length. f_equal. apply IH. lia.
Qed.

Lemma ucs2_roundtrip s : Forall (fun c => scalar c /\ c < 0x10000) s ->
  ucs2 (concat (map (fun c => [c / 256; c mod 256]) s)) = s.
Proof.
  induction 1 as [| c s [[Hc Hs] Hb] _ IH]; [done |]. cbn [map concat app ucs2].
  assert (be16 (c / 256) (c mod 256) = c) as ->.
  { rewrite be16_eq by (unfold byte_ok; dlia). dlia. }
  replace ((55296 <=? c) && (c <=? 57343))%bool with false by lia. by rewrite IH.
Qed.

Lemma latin_ascii s : Forall (fun c => 0x20 <= c < 0x7F) s -> latin6937 s = Ok s.
Proof.
  induction 1 as [| c s Hc _ IH]; [done |]. cbn [latin6937].
  replace ((193 <=? c) && (c <=? 207))%bool with false by lia.
  replace (c <? 160) with true by lia. by rewrite IH.
Qed.

(** Text with single spaces between characters that show. *)
Definition visible (r : Z) : Prop := blank r = false /\ dropped r = false.
Inductive tidy : list Z -> Prop :=
  | tidy_nil : tidy []
  | tidy_snoc s r : tidy s -> visible r -> tidy (s ++ [r])
  | tidy_space s r : tidy s -> s <> [] -> visible r -> tidy (s ++ [32; r]).

Lemma clean_loop_tidy s : forall space out, tidy out -> tidy (clean_loop s space out).
Proof.
  induction s as [| r s IH]; intros space out Ho; cbn [clean_loop]; [done |].
  destruct (blank r) eqn:Eb; [by apply IH |]. destruct (dropped r) eqn:Ed; [by apply IH |].
  apply IH. destruct (space && negb (zlen out =? 0))%bool eqn:E; [| by apply tidy_snoc].
  rewrite <- app_assoc. apply tidy_space; [done | | done]. intros ->.
  by rewrite andb_false_r in E.
Qed.

Lemma clean_tidy s : tidy (clean s).
Proof. apply clean_loop_tidy, tidy_nil. Qed.

Lemma clean_loop_keeps s : tidy s -> forall t, clean_loop (s ++ t) false [] = clean_loop t false s.
Proof.
  induction 1 as [| s r Hs IH [Hb Hd] | s r Hs IH Hne [Hb Hd]]; intros t; [done | |].
  - rewrite <- app_assoc, IH. cbn [app clean_loop]. by rewrite Hb, Hd.
  - rewrite <- app_assoc, IH. cbn [app clean_loop]. change (blank 32) with true. cbv iota.
    rewrite Hb, Hd. replace (zlen s =? 0) with false; [cbn [andb negb]; by rewrite <- app_assoc |].
    symmetry. apply Z.eqb_neq. intros H. by apply Hne, zlen_0_nil.
Qed.

Lemma clean_keeps s : tidy s -> clean s = s.
Proof. intros Hs. unfold clean. by rewrite <- (app_nil_r s) at 1; rewrite clean_loop_keeps. Qed.

(** ** Nothing panics *)

Lemma iso_loop_returns table b : length table = 96%nat -> bytes_ok b -> returns (iso_loop table b) (fun _ => True).
Proof.
  intros Ht. induction 1 as [| c b Hc _ IH]; [done |]. cbn [iso_loop]. destruct (Z.ltb_spec c 160).
  - apply returns_bind. eapply returns_mono; [exact IH | done].
  - apply returns_bind. destruct (idx_in_range table (c - 160)) as (v & _ & ->).
    { unfold zlen. rewrite Ht. unfold byte_ok in Hc. lia. }
    apply returns_bind. eapply returns_mono; [exact IH |]. done.
Qed.

Lemma iso8859_length part table : iso8859 part = Some table -> length table = 96%nat.
Proof. unfold iso8859. repeat case_match; intros [= <-]; done. Qed.

Lemma iso_returns part b : bytes_ok b -> returns (iso part b) (fun _ => True).
Proof.
  intros Hb. unfold iso. destruct (iso8859 part) as [t|] eqn:E; [| done].
  apply iso_loop_returns; [by eapply iso8859_length | done].
Qed.

Lemma latin_returns n : forall b, (length b <= n)%nat -> bytes_ok b -> returns (latin6937 b) (fun _ => True).
Proof.
  induction n as [| n IH]; intros [| c b] Hn Hb; try done; [simpl in Hn; lia |].
  apply Forall_cons in Hb as [Hc Hb]. simpl in Hn. cbn [latin6937].
  destruct (_ && _)%bool.
  - destruct b as [| x b]; [done |]. apply Forall_cons in Hb as [_ Hb]. apply returns_bind.
    eapply returns_mono; [apply IH; [simpl in Hn; lia | done] |]. done.
  - destruct (Z.ltb_spec c 160); apply returns_bind.
    + eapply returns_mono; [apply IH; [lia | done] | done].
    + destruct (idx_in_range upper6937 (c - 160)) as (v & _ & ->).
      { change (zlen upper6937) with 96. unfold byte_ok in Hc. lia. }
      apply returns_bind. eapply returns_mono; [apply IH; [lia | done] | done].
Qed.

Lemma Text_returns (b : list Z) (Hb : bytes_ok b) : returns (Text b) tidy.
Proof.
  unfold Text. destruct (Z.eqb_spec (zlen b) 0); [apply tidy_nil |]. pose proof (zlen_nonneg b).
  go_step. go_step. go_step. go_step.
  assert (forall m, returns m (fun _ => True) -> returns (let! s := m in Ok (clean s)) tidy) as Hclean.
  { intros m Hm. apply returns_bind. eapply returns_mono; [exact Hm |]. intros s' _. apply clean_tidy. }
  repeat (go_step; try apply tidy_nil; try apply clean_tidy; try (apply Hclean)).
  - by apply (latin_returns (length b)).
  - by apply iso_returns.
  - by apply iso_returns.
Qed.

(** Whatever a station sends as a string, the reader gives text and not a
    panic: visible characters, with single spaces between them and no control
    codes. *)
Theorem Text_tidy (b : list Z) (Hb : bytes_ok b) : returns (Text b) tidy.
Proof. by apply Text_returns. Qed.

Lemma Text_tidy_witness : returns (Text [0x05; 32; 0xC4; 10; 0x8A; 65]) tidy.
Proof. apply Text_tidy. bytes_dec. Defined.

(** Text is read as it was sent: in UTF-8, in two-byte characters, and, where
    it is ASCII, in the default Latin table, any tidy text comes back unchanged. *)
Theorem Text_reads (s : list Z) (Ht : tidy s) (Hs : Forall scalar s) :
  Text (0x15 :: utf8 s) = Ok s /\
  (Forall (fun c => c < 0x10000) s -> Text (0x11 :: concat (map (fun c => [c / 256; c mod 256]) s)) = Ok s) /\
  (Forall (fun c => c < 0x7F) s -> Text s = Ok s).
Proof.
  assert (forall c l, Text (c :: l) = (let b1 := l in
    if 0x20 <=? c then let! s := latin6937 (c :: l) in Ok (clean s)
    else if ((0x01 <=? c) && (c <=? 0x0B))%bool then let! s := iso (c + 4) b1 in Ok (clean s)
    else if c =? 0x10 then Text (c :: l)
    else if ((c =? 0x11) || (c =? 0x14))%bool then Ok (clean (ucs2 b1))
    else if c =? 0x15 then Ok (clean (valid_utf8 (length b1) b1)) else Ok [])) as HT.
  { intros c l. unfold Text. replace (zlen (c :: l) =? 0) with false
      by (rewrite zlen_cons; pose proof (zlen_nonneg l); lia).
    change (idx (c :: l) 0) with (Ok c). cbn [rbind].
    rewrite slice_from_Ok by (rewrite zlen_cons; pose proof (zlen_nonneg l); lia).
    change (drop (Z.to_nat 1) (c :: l)) with l. cbn [rbind]. cbv zeta.
    repeat (case_match; try done). }
  split_and!.
  - rewrite HT. cbn [Z.leb Z.compare Pos.compare Pos.compare_cont andb orb Z.eqb Pos.eqb]. cbv zeta.
    rewrite valid_utf8_roundtrip by done. by rewrite clean_keeps.
  - intros Hb. rewrite HT. cbv zeta. change (0x20 <=? 0x11) with false. cbv iota.
    change ((0x11 =? 0x11) || (0x11 =? 0x14))%bool with true.
    change ((0x01 <=? 0x11) && (0x11 <=? 0x0B))%bool with false. change (0x11 =? 0x10) with false. cbv iota.
    rewrite ucs2_roundtrip by (by apply Forall_and). by rewrite clean_keeps.
  - intros Ha. assert (Forall (fun c => 0x20 <= c < 0x7F) s) as Hp.
    { clear Hs HT. induction Ht as [| s r _ IH [_ Hd] | s r _ IH _ [_ Hd]]; [constructor | |];
        apply Forall_app in Ha as [H1 H2]; apply Forall_app; (split; [by apply IH |]); unfold dropped in Hd.
      - apply Forall_cons in H2 as [H2 _]. constructor; [lia | constructor].
      - apply Forall_cons in H2 as [_ H2]. apply Forall_cons in H2 as [H2 _].
        constructor; [lia |]. constructor; [lia | constructor]. }
    destruct s as [| c s]; [done |]. rewrite HT. cbv zeta.
    replace (0x20 <=? c) with true by (apply Forall_cons in Hp as [? _]; lia).
    rewrite latin_ascii by done. cbn [rbind]. by rewrite clean_keeps.
Qed.

Lemma Text_reads_witness :
  let s := [72; 105; 32; 33] in
  Text (0x15 :: utf8 s) = Ok s /\
  (Forall (fun c => c < 0x10000) s -> Text (0x11 :: concat (map (fun c => [c / 256; c mod 256]) s)) = Ok s) /\
  (Forall (fun c => c < 0x7F) s -> Text s = Ok s).
Proof.
  apply Text_reads.
  - apply (tidy_space [72; 105] 33); [| done | done]. apply (tidy_snoc [72] 105); [| done].
    by apply (tidy_snoc [] 72 tidy_nil).
  - repeat (apply Forall_cons; split; [unfold scalar; lia |]). constructor.
Defined.
