(* ===== verification/DvbSi.v ===== *)
(** The DVB guide reader, [server/internal/dvbsi/parse.go], [lang.go],
    [genre.go] and [harvest.go]: sections to services and listings.

    A time is nanoseconds after the Modified Julian Date's epoch, a string of
    text its code points, a language code its bytes, a genre a [string]. *)
From S2P Require Import Prelude GoNum Mpeg CapTs Crc PsipText Psip DvbSections DvbText.
Local Open Scope Z_scope.
Local Open Scope go_scope.

Definition tablePAT : Z := 0x00.
Definition tableSDT : Z := 0x42.
Definition tableSDTOther : Z := 0x46.
Definition tableNowNext : Z := 0x4E.
Definition tableNowOther : Z := 0x4F.
Definition tagService : Z := 0x48.
Definition tagShortEvent : Z := 0x4D.
Definition tagExtendedEvent : Z := 0x4E.
Definition tagContent : Z := 0x54.
Definition tagParental : Z := 0x55.

Record Service : Type := mkService {
  sv_NetworkID : Z; sv_StreamID : Z; sv_ID : Z; Name : list Z; sv_Actual : bool }.
Record Event : Type := mkEvent {
  NetworkID : Z; StreamID : Z; ServiceID : Z; EventID : Z; Actual : bool; NowNext : bool;
  Start : Z; End : Z; Title : list Z; Subtitle : list Z; Description : list Z;
  Genres : list string; Live : bool; Rating : list Z }.
Record Guide : Type := mkGuide { Services : list Service; Events : list Event; Programs : list Z }.

Definition set_genres (e : Event) (g : list string) (l : bool) : Event :=
  mkEvent (NetworkID e) (StreamID e) (ServiceID e) (EventID e) (Actual e) (NowNext e) (Start e) (End e)
    (Title e) (Subtitle e) (Description e) g l (Rating e).
Definition set_rating (e : Event) (r : list Z) : Event :=
  mkEvent (NetworkID e) (StreamID e) (ServiceID e) (EventID e) (Actual e) (NowNext e) (Start e) (End e)
    (Title e) (Subtitle e) (Description e) (Genres e) (Live e) r.
Definition set_text (e : Event) (t s d : list Z) : Event :=
  mkEvent (NetworkID e) (StreamID e) (ServiceID e) (EventID e) (Actual e) (NowNext e) (Start e) (End e)
    t s d (Genres e) (Live e) (Rating e).

(** ** [lang.go] *)

Definition lookup_code (t : list (string * string)) (k : list Z) : option (list Z) :=
  option_map (fun e => lit (snd e)) (find (fun e => bytes_equal (lit (fst e)) k) t).

Definition twoLetter : list (string * string) :=
  [("en", "eng"); ("de", "ger"); ("fr", "fre"); ("nl", "dut"); ("it", "ita"); ("es", "spa");
   ("pt", "por"); ("sv", "swe"); ("no", "nor"); ("nb", "nor"); ("nn", "nno"); ("da", "dan");
   ("fi", "fin"); ("pl", "pol"); ("cs", "cze"); ("sk", "slo"); ("hu", "hun"); ("ro", "rum");
   ("el", "gre"); ("tr", "tur"); ("ru", "rus"); ("uk", "ukr"); ("bg", "bul"); ("hr", "hrv");
   ("sr", "srp"); ("sl", "slv"); ("et", "est"); ("lv", "lav"); ("lt", "lit"); ("is", "ice");
   ("ga", "gle"); ("cy", "wel"); ("gd", "gla"); ("ca", "cat"); ("eu", "baq"); ("he", "heb");
   ("ar", "ara"); ("th", "tha"); ("zh", "chi"); ("ja", "jpn"); ("ko", "kor"); ("mk", "mac");
   ("sq", "alb"); ("ms", "may"); ("vi", "vie"); ("hi", "hin")]%string.

(** An ISO 639-2/B code to its /T twin where they differ. *)
Definition terminology : list (string * string) :=
  [("ger", "deu"); ("fre", "fra"); ("dut", "nld"); ("cze", "ces"); ("slo", "slk"); ("rum", "ron");
   ("gre", "ell"); ("ice", "isl"); ("wel", "cym"); ("baq", "eus"); ("chi", "zho"); ("mac", "mkd");
   ("alb", "sqi"); ("may", "msa"); ("per", "fas"); ("arm", "hye"); ("geo", "kat"); ("bur", "mya");
   ("tib", "bod")]%string.

(** [sameLanguage]: a code in either ISO 639-2 form. *)
Definition sameLanguage (a b : list Z) : bool :=
  if bytes_equal a b then true
  else if match lookup_code terminology a with Some t => bytes_equal t b | None => false end then true
  else match lookup_code terminology b with Some t => bytes_equal t a | None => false end.

(** ** [genre.go] *)

Definition genres (pair : Z) : option (list string) :=
  match pair with
  | 0x10 => Some ["Movie"]
  | 0x11 => Some ["Movie"; "Thriller"]
  | 0x12 => Some ["Movie"; "Adventure"]
  | 0x13 => Some ["Movie"; "Science fiction"]
  | 0x14 => Some ["Comedy"]
  | 0x15 => Some ["Soap"]
  | 0x16 => Some ["Romance"]
  | 0x17 => Some ["Drama"]
  | 0x18 => Some ["Movie"]
  | 0x20 => Some ["News"]
  | 0x21 => Some ["News"; "Weather"]
  | 0x22 => Some ["News magazine"]
  | 0x23 => Some ["Documentary"]
  | 0x24 => Some ["Talk"]
  | 0x30 => Some ["Entertainment"]
  | 0x31 => Some ["Game show"]
  | 0x32 => Some ["Variety"]
  | 0x33 => Some ["Talk"]
  | 0x40 => Some ["Sports"]
  | 0x41 => Some ["Sports"; "Special event"]
  | 0x42 => Some ["Sports"; "Magazine"]
  | 0x43 => Some ["Sports"; "Soccer"]
  | 0x44 => Some ["Sports"; "Tennis"]
  | 0x45 => Some ["Sports"]
  | 0x46 => Some ["Sports"; "Athletics"]
  | 0x47 => Some ["Sports"; "Motorsports"]
  | 0x48 => Some ["Sports"; "Water sports"]
  | 0x49 => Some ["Sports"; "Winter sports"]
  | 0x4A => Some ["Sports"; "Equestrian"]
  | 0x4B => Some ["Sports"; "Martial arts"]
  | 0x50 => Some ["Children"]
  | 0x51 => Some ["Children"]
  | 0x52 => Some ["Children"]
  | 0x53 => Some ["Children"]
  | 0x54 => Some ["Children"; "Educational"]
  | 0x55 => Some ["Children"; "Animation"]
  | 0x60 => Some ["Music"]
  | 0x61 => Some ["Music"]
  | 0x62 => Some ["Music"]
  | 0x63 => Some ["Music"]
  | 0x64 => Some ["Music"]
  | 0x65 => Some ["Music"]
  | 0x66 => Some ["Dance"]
  | 0x70 => Some ["Arts"]
  | 0x71 => Some ["Arts"]
  | 0x72 => Some ["Arts"]
  | 0x73 => Some ["Religious"]
  | 0x74 => Some ["Arts"]
  | 0x75 => Some ["Arts"]
  | 0x76 => Some ["Arts"]
  | 0x77 => Some ["Arts"]
  | 0x78 => Some ["Arts"]
  | 0x79 => Some ["Arts"]
  | 0x7A => Some ["Arts"]
  | 0x7B => Some ["Arts"]
  | 0x80 => Some ["Public affairs"]
  | 0x81 => Some ["Documentary"]
  | 0x82 => Some ["Public affairs"]
  | 0x83 => Some ["Biography"]
  | 0x90 => Some ["Education"]
  | 0x91 => Some ["Nature"]
  | 0x92 => Some ["Science"]
  | 0x93 => Some ["Health"]
  | 0x94 => Some ["Travel"]
  | 0x95 => Some ["Education"]
  | 0x96 => Some ["Education"]
  | 0x97 => Some ["Education"]
  | 0xA0 => Some ["Lifestyle"]
  | 0xA1 => Some ["Travel"]
  | 0xA2 => Some ["Lifestyle"]
  | 0xA3 => Some ["Health"]
  | 0xA4 => Some ["Health"]
  | 0xA5 => Some ["Cooking"]
  | 0xA6 => Some ["Shopping"]
  | 0xA7 => Some ["Gardening"]
  | _ => None
  end%string.

Definition liveContent : Z := 0xB3.

Fixpoint genre_loop (fuel : nat) (body : list Z) (i : Z) (out : list string) (live : bool)
    : res (list string * bool) :=
  if negb (i + 1 <? zlen body) then Ok (out, live)
  else
    match fuel with
    | O => NoFuel
    | S fuel =>
        let! pair := idx body i in
        if pair =? liveContent then genre_loop fuel body (i + 2) out true
        else
          let names := match genres pair with
                       | Some n => n
                       | None => default [] (genres (Z.land pair 0xF0))
                       end in
          genre_loop fuel body (i + 2)
            (fold_left (fun out n => if bool_decide (n ∈ out) then out else out ++ [n]) names out) live
    end.
Definition genreNames (body : list Z) : res (list string * bool) :=
  genre_loop (length body) body 0 [] false.

(** ** Dates *)

Definition ns : Z := 1000000000.

(** [bcdDuration]: six BCD digits, as nanoseconds. *)
Definition bcd (x : Z) : option Z :=
  let hi := Z.shiftr x 4 in let lo := Z.land x 0x0F in
  if ((9 <? hi) || (9 <? lo))%bool then None else Some (hi * 10 + lo).
Definition bcdDuration (b : list Z) : res (option Z) :=
  let! x0 := idx b 0 in
  match bcd x0 with
  | None => Ok None
  | Some v0 =>
      let! x1 := idx b 1 in
      match bcd x1 with
      | None => Ok None
      | Some v1 =>
          let! x2 := idx b 2 in
          match bcd x2 with
          | None => Ok None
          | Some v2 =>
              if ((59 <? v1) || (59 <? v2))%bool then Ok None
              else Ok (Some ((v0 * 3600 + v1 * 60 + v2) * ns))
          end
      end
  end.

Definition startTime (b : list Z) : res (option Z) :=
  let! b0 := idx b 0 in let! b1 := idx b 1 in let! b2 := idx b 2 in
  let! b3 := idx b 3 in let! b4 := idx b 4 in
  if ((b0 =? 0xFF) && (b1 =? 0xFF) && (b2 =? 0xFF) && (b3 =? 0xFF) && (b4 =? 0xFF))%bool then Ok None
  else
    let! d := slice b 0 2 in
    let! mjd := uint16 d in
    let! t := slice b 2 5 in
    let! clock := bcdDuration t in
    match clock with
    | None => Ok None
    | Some clock =>
        if 24 * 3600 * ns <=? clock then Ok None
        else Ok (Some (mjd * 86400 * ns + clock))
    end.

(** ** Descriptors *)

(** The calls [forDescriptors] makes to [fn]. *)
Fixpoint desc_loop (fuel : nat) (desc : list Z) : res (list (Z * list Z)) :=
  if negb (2 <=? zlen desc) then Ok []
  else
    match fuel with
    | O => NoFuel
    | S fuel =>
        let! tag := idx desc 0 in let! n := idx desc 1 in
        let! desc := slice_from desc 2 in
        if zlen desc <? n then Ok []
        else
          let! body := slice desc 0 n in
          let! rest := slice_from desc n in
          let! l := desc_loop fuel rest in
          Ok ((tag, body) :: l)
    end.
Definition forDescriptors (desc : list Z) : res (list (Z * list Z)) := desc_loop (length desc) desc.

Record shortEvent : Type := mkShort { sh_lang : list Z; sh_name : list Z; sh_text : list Z }.
Record extendedPart : Type := mkPart { number : Z; pt_text : list Z }.

(** [textKeepEnds] *)
Definition textKeepEnds (b : list Z) : res (list Z) :=
  let! s := Text b in
  if bytes_equal s [] then Ok []
  else
    let! raw :=
      if negb (zlen b =? 0) then
        let! r0 := idx b 0 in if r0 <? 0x20 then slice_from b 1 else Ok b
      else Ok b in
    let edge c := (c =? 32) || (c =? 0x8A) in
    let! s :=
      if negb (zlen raw =? 0) then let! c := idx raw 0 in Ok (if edge c then 32 :: s else s)
      else Ok s in
    if negb (zlen raw =? 0) then
      let! c := idx raw (zlen raw - 1) in Ok (if edge c then s ++ [32] else s)
    else Ok s.

(** [pickShort] *)
Fixpoint pick_short_loop (want : list Z) (items : list shortEvent) (first eng_ : option shortEvent)
    : option shortEvent :=
  match items with
  | [] => match eng_ with Some e => Some e | None => first end
  | it :: items =>
      if bytes_equal (sh_name it) [] then pick_short_loop want items first eng_
      else
        let first := match first with None => Some it | Some _ => first end in
        if sameLanguage (sh_lang it) want then Some it
        else
          pick_short_loop want items first
            (if (bytes_equal (sh_lang it) eng && match eng_ with None => true | Some _ => false end)%bool
             then Some it else eng_)
  end.
Definition pickShort (items : list shortEvent) (want : list Z) : option shortEvent :=
  pick_short_loop want items None None.

(** [parentalRating] *)
Fixpoint rating_loop (fuel : nat) (body : list Z) (i : Z) : res (list Z) :=
  if negb (i + 3 <? zlen body) then Ok []
  else
    match fuel with
    | O => NoFuel
    | S fuel =>
        let! r := idx body (i + 3) in
        if ((0x01 <=? r) && (r <=? 0x0F))%bool then Ok (dec (r + 3) ++ [43])
        else rating_loop fuel body (i + 4)
    end.
Definition parentalRating (body : list Z) : res (list Z) := rating_loop (length body) body 0.

(** Insertion into a sorted list, after nothing it is equal to: the sort is
    stable. *)
Fixpoint insert_by {A} (le : A -> A -> bool) (x : A) (l : list A) : list A :=
  match l with
  | [] => [x]
  | y :: l => if le x y then x :: y :: l else y :: insert_by le x l
  end.
Definition sort_by {A} (le : A -> A -> bool) (l : list A) : list A := fold_right (insert_by le) [] l.

(** The order of Go strings. *)
Fixpoint str_le (a b : list Z) : bool :=
  match a, b with
  | [], _ => true
  | _ :: _, [] => false
  | x :: a, y :: b => if x <? y then true else if y <? x then false else str_le a b
  end.

Definition sortedKeys (m : gmap (list Z) (list extendedPart)) : list (list Z) :=
  sort_by str_le (map fst (map_to_list m)).

(** [for _, lang := range {short.lang, want} { for _, key := range sortedKeys ... }] *)
Definition pick_parts (ext : gmap (list Z) (list extendedPart)) (langs : list (list Z)) : option (list extendedPart) :=
  let keys := sortedKeys ext in
  let parts :=
    fold_left (fun parts lang =>
      fold_left (fun parts key =>
        match parts with
        | Some _ => parts
        | None => if sameLanguage key lang then ext !! key else None
        end) keys parts) langs None in
  match parts, keys with
  | None, k :: _ => ext !! k
  | _, _ => parts
  end.

Section parse.
(** [strings.ToLower] and [strings.TrimSpace] of a string that is not ASCII. *)
Context (lower_uni trim_uni : list Z -> list Z).

Definition langCode (b : list Z) : list Z :=
  ToLower lower_uni (trim (fun c => (c =? 0) || (c =? 32))%bool b).

(** [language], of the values of LC_ALL and LANG. *)
Definition locale_code (v : list Z) : option (list Z) :=
  let v := ToLower lower_uni (TrimSpace trim_uni v) in
  if (bytes_equal v [] || bytes_equal v (lit "c") || bytes_equal v (lit "posix"))%bool then None
  else
    let v := before_mark v in
    if zlen v =? 3 then Some v
    else if 2 <=? zlen v then lookup_code twoLetter (take 2 v)
    else None.
Definition language (lc_all lang_ : list Z) : list Z :=
  match locale_code lc_all with
  | Some c => c
  | None => match locale_code lang_ with Some c => c | None => eng end
  end.

Definition parseShort (body : list Z) : res (option shortEvent) :=
  if zlen body <? 5 then Ok None
  else
    let! l := slice body 0 3 in
    let lang := langCode l in
    let! n := idx body 3 in
    if zlen body <=? 4 + n then Ok None
    else
      let! nm := slice body 4 (4 + n) in
      let! name := Text nm in
      let! rest := slice_from body (4 + n) in
      let! m := idx rest 0 in
      let m := if zlen rest <? 1 + m then zlen rest - 1 else m in
      let! t := slice rest 1 (1 + m) in
      let! text := Text t in
      Ok (if bytes_equal name [] then None else Some (mkShort lang name text)).

Definition parseExtended (body : list Z) : res (option (list Z * extendedPart)) :=
  if zlen body <? 6 then Ok None
  else
    let! b0 := idx body 0 in
    let number := Z.shiftr b0 4 in
    let! l := slice body 1 4 in
    let lang := langCode l in
    let! items := idx body 4 in
    let pos := 5 + items in
    if zlen body <=? pos then Ok None
    else
      let! n := idx body pos in
      let pos := pos + 1 in
      if zlen body <? pos + n then Ok None
      else
        let! t := slice body pos (pos + n) in
        let! text := textKeepEnds t in
        Ok (Some (lang, mkPart number text)).

(** The callback of [describe]: the event, [shorts] and [extended]. *)
Definition collected : Type := Event * list shortEvent * gmap (list Z) (list extendedPart).
Definition describe_one (st : collected) (d : Z * list Z) : res collected :=
  let '(e, shorts, extended) := st in
  let '(tag, body) := d in
  if tag =? tagShortEvent then
    let! s := parseShort body in
    Ok (match s with Some s => (e, shorts ++ [s], extended) | None => st end)
  else if tag =? tagExtendedEvent then
    let! p := parseExtended body in
    Ok (match p with
        | Some (lang, part) => (e, shorts, <[lang := default [] (extended !! lang) ++ [part]]> extended)
        | None => st
        end)
  else if tag =? tagContent then
    let! ' (names, live) := genreNames body in
    Ok (set_genres e (fold_left (fun g n => if bool_decide (n ∈ g) then g else g ++ [n]) names (Genres e))
          (Live e || live), shorts, extended)
  else if tag =? tagParental then
    if bytes_equal (Rating e) [] then
      let! r := parentalRating body in Ok (set_rating e r, shorts, extended)
    else Ok st
  else Ok st.
Fixpoint describe_all (st : collected) (ds : list (Z * list Z)) : res collected :=
  match ds with
  | [] => Ok st
  | d :: ds => let! st := describe_one st d in describe_all st ds
  end.

Definition describe (e : Event) (desc want : list Z) : res Event :=
  let! ds := forDescriptors desc in
  let! ' (e, shorts, extended) := describe_all (e, [], ∅) ds in
  match pickShort shorts want with
  | None => Ok e
  | Some short =>
      let parts := default [] (pick_parts extended [sh_lang short; want]) in
      let parts := sort_by (fun a b => number a <=? number b) parts in
      let more := clean (concat (map pt_text parts)) in
      Ok (if bytes_equal more [] then set_text e (sh_name short) (Subtitle e) (sh_text short)
          else if (bytes_equal (sh_text short) [] || has_prefix (sh_text short) more)%bool
               then set_text e (sh_name short) (Subtitle e) more
          else if zlen (sh_text short) <=? 80
               then set_text e (sh_name short) (sh_text short) more
          else set_text e (sh_name short) (Subtitle e) (sh_text short ++ [32] ++ more))
  end.

(** ** Tables *)

Fixpoint pat_loop (fuel : nat) (b : list Z) (pos : Z) (out : list Z) : res (list Z) :=
  if negb (pos + 4 <=? zlen b - 4) then Ok out
  else
    match fuel with
    | O => NoFuel
    | S fuel =>
        let! n := u16at b pos in
        pat_loop fuel b (pos + 4) (if negb (n =? 0) then out ++ [n] else out)
    end.
(** A long-form section, and the current one: [b[1]&0x80 == 0 || b[5]&0x01 == 0]
    after the length test. *)
Definition current (b : list Z) : res bool :=
  let! b1 := idx b 1 in
  if Z.land b1 0x80 =? 0 then Ok false
  else let! b5 := idx b 5 in Ok (negb (Z.land b5 0x01 =? 0)).
Definition parsePAT (b : list Z) : res (list Z) :=
  if zlen b <? 12 then Ok []
  else
    let! c := current b in
    if negb c then Ok [] else pat_loop (length b) b 8 [].

(** The callback of [parseSDT]: the name so far, and the one after a descriptor. *)
Definition service_name (name : list Z) (d : Z * list Z) : res (list Z) :=
  let '(tag, body) := d in
  if (negb (tag =? tagService) || (zlen body <? 2))%bool then Ok name
  else
    let! provider := idx body 1 in
    if zlen body <=? 2 + provider then Ok name
    else
      let! nameLen := idx body (2 + provider) in
      let! nm := slice_from body (3 + provider) in
      if zlen nm <? nameLen then Ok name
      else let! t := slice nm 0 nameLen in Text t.
Fixpoint service_names (name : list Z) (ds : list (Z * list Z)) : res (list Z) :=
  match ds with
  | [] => Ok name
  | d :: ds => let! name := service_name name d in service_names name ds
  end.

Fixpoint sdt_loop (fuel : nat) (b : list Z) (stream network pos : Z) (out : list Service)
    : res (list Service) :=
  let stop := zlen b - 4 in
  if negb (pos + 5 <=? stop) then Ok out
  else
    match fuel with
    | O => NoFuel
    | S fuel =>
        let! id := u16at b pos in
        let! n := u16at b (pos + 3) in
        let n := Z.land n 0x0FFF in
        let pos := pos + 5 in
        if stop <? pos + n then Ok out
        else
          let! b0 := idx b 0 in
          let! desc := slice b pos (pos + n) in
          let! ds := forDescriptors desc in
          let! name := service_names [] ds in
          sdt_loop fuel b stream network (pos + n)
            (out ++ [mkService network stream id name (b0 =? tableSDT)])
    end.
Definition parseSDT (b : list Z) : res (list Service) :=
  if zlen b <? 15 then Ok []
  else
    let! c := current b in
    if negb c then Ok []
    else
      let! stream := u16at b 3 in
      let! network := u16at b 8 in
      sdt_loop (length b) b stream network 11 [].

Record eit_head : Type := mkHead {
  hd_service : Z; hd_stream : Z; hd_network : Z; hd_actual : bool; hd_nowNext : bool }.

Fixpoint eit_loop (fuel : nat) (b lang : list Z) (h : eit_head) (pos : Z) (out : list Event)
    : res (list Event) :=
  let stop := zlen b - 4 in
  if negb (pos + 12 <=? stop) then Ok out
  else
    match fuel with
    | O => NoFuel
    | S fuel =>
        let! id := u16at b pos in
        let! st := slice b (pos + 2) (pos + 7) in
        let! start := startTime st in
        let! du := slice b (pos + 7) (pos + 10) in
        let! length := bcdDuration du in
        let! n := u16at b (pos + 10) in
        let n := Z.land n 0x0FFF in
        let pos := pos + 12 in
        if stop <? pos + n then Ok out
        else
          let! desc := slice b pos (pos + n) in
          let pos := pos + n in
          match start, length with
          | Some start, Some length =>
              if length <=? 0 then eit_loop fuel b lang h pos out
              else
                let e := mkEvent (hd_network h) (hd_stream h) (hd_service h) id (hd_actual h)
                           (hd_nowNext h) start (start + length) [] [] [] [] false [] in
                let! e := describe e desc lang in
                eit_loop fuel b lang h pos (if bytes_equal (Title e) [] then out else out ++ [e])
          | _, _ => eit_loop fuel b lang h pos out
          end
    end.
Definition parseEIT (b locale : list Z) : res (list Event) :=
  if zlen b <? 18 then Ok []
  else
    let! c := current b in
    if negb c then Ok []
    else
      let! t := idx b 0 in
      let! service := u16at b 3 in
      let! stream := u16at b 8 in
      let! network := u16at b 10 in
      let actual := (t =? tableNowNext) || ((0x50 <=? t) && (t <=? 0x5F)) in
      let nowNext := (t =? tableNowNext) || (t =? tableNowOther) in
      eit_loop (length b) b locale (mkHead service stream network actual nowNext) 14 [].

(** ** [Parse] *)

(** [l[i] = v] *)
Definition store {A} (l : list A) (i : nat) (v : A) : res (list A) :=
  if (i <? length l)%nat then Ok (<[i := v]> l) else Panic.

Definition service_key (s : Service) : Z * Z * Z := (sv_NetworkID s, sv_StreamID s, sv_ID s).
Definition event_key (e : Event) : Z * Z * Z * Z := (NetworkID e, StreamID e, ServiceID e, EventID e).

Definition service_table : Type := gmap (Z * Z * Z) nat * list Service.
Fixpoint add_services (st : service_table) (l : list Service) : res service_table :=
  match l with
  | [] => Ok st
  | s :: l =>
      let '(svc, out) := st in
      match svc !! service_key s with
      | Some i => let! out := store out i s in add_services (svc, out) l
      | None => add_services (<[service_key s := length out]> svc, out ++ [s]) l
      end
  end.

Definition event_table : Type := gmap (Z * Z * Z * Z) nat * list Event.
Fixpoint add_events (st : event_table) (l : list Event) : res event_table :=
  match l with
  | [] => Ok st
  | e :: l =>
      let '(ev, out) := st in
      match ev !! event_key e with
      | Some i =>
          match out !! i with
          | None => Panic
          | Some held =>
              if (NowNext held && negb (NowNext e))%bool then add_events st l
              else let! out := store out i e in add_events (ev, out) l
          end
      | None => add_events (<[event_key e := length out]> ev, out ++ [e]) l
      end
  end.

(** One section: the programs, the services and the listings after it. *)
Definition parsed : Type := list Z * service_table * event_table.
Definition parse_section (locale : list Z) (g : parsed) (sec : section) : res parsed :=
  let '(programs, svc, ev) := g in
  let '(pid, body) := sec in
  let! t := idx body 0 in
  if ((pid =? pidPAT) && (t =? tablePAT))%bool then
    let! p := parsePAT body in Ok (p, svc, ev)
  else if ((pid =? pidSDT) && ((t =? tableSDT) || (t =? tableSDTOther)))%bool then
    let! l := parseSDT body in
    let! svc := add_services svc l in Ok (programs, svc, ev)
  else if ((pid =? pidEIT) && (tableNowNext <=? t) && (t <=? 0x6F))%bool then
    let! l := parseEIT body locale in
    let! ev := add_events ev l in Ok (programs, svc, ev)
  else Ok g.
Fixpoint parse_sections (locale : list Z) (g : parsed) (secs : list section) : res parsed :=
  match secs with
  | [] => Ok g
  | sec :: secs => let! g := parse_section locale g sec in parse_sections locale g secs
  end.

(** [locale] is what [language()] gives. *)
Definition Parse (locale raw : list Z) : res Guide :=
  let! secs := sections raw in
  let! ' (programs, svc, ev) := parse_sections locale ([], (∅, []), (∅, [])) secs in
  Ok (mkGuide (snd svc) (snd ev) programs).

(** ** [harvest.go] *)

Record Harvester : Type := mkHarvester {
  buf : list Z; reported : Z; since : Z; rest : list Z; pat : option (list Z) }.

Definition harvestStep : Z := Z.shiftl 32 10.
Definition harvestSlow : Z := Z.shiftl 16 20.
Definition harvestKeep : Z := 188 * 700.
Definition harvestLimit : Z := 188 * 1400.

Fixpoint keep_packets (pkts : list (list Z)) (b : list Z) (p : option (list Z))
    : res (list Z * option (list Z)) :=
  match pkts with
  | [] => Ok (b, p)
  | pkt :: pkts =>
      let! b1 := idx pkt 1 in let! b2 := idx pkt 2 in
      let pid := be16 (Z.land b1 0x1F) b2 in
      if ((pid =? pidSDT) || (pid =? pidEIT))%bool then keep_packets pkts (b ++ pkt) p
      else if ((pid =? pidPAT) && negb (Z.land b1 0x40 =? 0))%bool then keep_packets pkts b (Some pkt)
      else keep_packets pkts b p
  end.

Definition Add (locale : list Z) (h : Harvester) (chunk : list Z) : res (Harvester * option Guide) :=
  let since := since h + zlen chunk in
  let! ' (pkts, rest) := Packets (rest h) chunk in
  let! ' (b, p) := keep_packets pkts (buf h) (pat h) in
  let fresh := zlen b - reported h in
  if ((fresh <? harvestStep) && ((fresh =? 0) || (since <? harvestSlow)))%bool
  then Ok (mkHarvester b (reported h) since rest p, None)
  else
    let! g := Parse locale b in
    let! g :=
      match p with
      | Some p => let! gp := Parse locale p in Ok (mkGuide (Services g) (Events g) (Programs gp))
      | None => Ok g
      end in
    let b' := if harvestLimit <? zlen b then drop (Z.to_nat (zlen b - harvestKeep)) b else b in
    Ok (mkHarvester b' (zlen b') 0 rest p, match Events g with [] => None | _ => Some g end).
End parse.

(** ** Nothing panics *)

Definition dsc_ok (d : Z * list Z) : Prop := bytes_ok (snd d).

Lemma desc_loop_returns fuel : forall desc, bytes_ok desc -> zlen desc < 2 + Z.of_nat fuel ->
  returns (desc_loop fuel desc) (Forall dsc_ok).
Proof.
  induction fuel as [| fuel IH]; intros desc Hb Hf; cbn [desc_loop].
  { replace (2 <=? zlen desc) with false by lia. constructor. }
  destruct (Z.leb_spec 2 (zlen desc)) as [H2 |]; cbn [negb]; [| constructor].
  go_step. go_step. go_step. go_step. go_step. go_step.
  destruct (Z.ltb_spec (zlen s) v0); [constructor |].
  apply returns_bind, returns_slice; [done | blia | lia |]. intros body Hbody Hbl _.
  apply returns_bind, returns_slice_from; [done | blia |]. intros rs Hrs Hrl _.
  apply returns_bind. eapply returns_mono; [apply IH; [done | blia] |]. intros l Hl. by constructor.
Qed.

Lemma forDescriptors_returns desc : bytes_ok desc -> returns (forDescriptors desc) (Forall dsc_ok).
Proof. intros Hb. apply desc_loop_returns; [done | unfold zlen; lia]. Qed.

Lemma genre_loop_returns fuel body : bytes_ok body -> forall i out live,
  0 <= i -> zlen body <= i + 1 + Z.of_nat fuel -> returns (genre_loop fuel body i out live) (fun _ => True).
Proof.
  intros Hb. induction fuel as [| fuel IH]; intros i out live Hi Hf; cbn [genre_loop].
  { by replace (i + 1 <? zlen body) with false by lia. }
  destruct (Z.ltb_spec (i + 1) (zlen body)); cbn [negb]; [| done].
  go_step. go_step. destruct (v =? liveContent); apply IH; lia.
Qed.

Lemma rating_loop_returns fuel body : bytes_ok body -> forall i,
  0 <= i -> zlen body <= i + 3 + Z.of_nat fuel -> returns (rating_loop fuel body i) (fun _ => True).
Proof.
  intros Hb. induction fuel as [| fuel IH]; intros i Hi Hf; cbn [rating_loop].
  { by replace (i + 3 <? zlen body) with false by lia. }
  destruct (Z.ltb_spec (i + 3) (zlen body)); cbn [negb]; [| done].
  go_step. go_step. destruct (_ && _)%bool; [done |]. apply IH; lia.
Qed.

Lemma textKeepEnds_returns b : bytes_ok b -> returns (textKeepEnds b) (fun _ => True).
Proof.
  intros Hb. unfold textKeepEnds. apply returns_bind. eapply returns_mono; [by apply Text_returns |]. intros s _.
  destruct (bytes_equal s []); [done |]. pose proof (zlen_nonneg b). apply returns_bind.
  eapply returns_mono; [instantiate (1 := bytes_ok) |].
  { destruct (Z.eqb_spec (zlen b) 0); cbn [negb]; [done |]. go_step. go_step. go_step; [| done].
    apply returns_slice_from; [done | lia | done]. }
  intros raw Hraw. cbv beta zeta. pose proof (zlen_nonneg raw).
  apply returns_bind. eapply returns_mono; [instantiate (1 := fun _ => True) |].
  { destruct (Z.eqb_spec (zlen raw) 0); cbn [negb]; [done |]. by go_steps. }
  intros s' _. destruct (Z.eqb_spec (zlen raw) 0); cbn [negb]; [done |]. by go_steps.
Qed.

Lemma bcdDuration_returns b : bytes_ok b -> 3 <= zlen b ->
  returns (bcdDuration b) (fun o => match o with Some d => 0 <= d < 100 * 3600 * ns | None => True end).
Proof.
  intros Hb Hl.
  assert (forall x v, byte_ok x -> bcd x = Some v -> 0 <= v <= 99) as Hbcd.
  { intros x v Hx. unfold bcd. destruct (_ || _)%bool eqn:E; [done |]. intros [= <-].
    pose proof (byte_shiftr_ok x 4 Hx ltac:(lia)). blia. }
  unfold bcdDuration. go_step. go_step. destruct (bcd v) as [v0|] eqn:E0; [| done].
  go_step. go_step. destruct (bcd v1) as [v1'|] eqn:E1; [| done].
  go_step. go_step. destruct (bcd v2) as [v2'|] eqn:E2; [| done].
  destruct (_ || _)%bool eqn:E; [done |]. apply returns_Ok.
  apply Hbcd in E0, E1, E2; try done. unfold ns. lia.
Qed.

Lemma startTime_returns b : bytes_ok b -> zlen b = 5 ->
  returns (startTime b) (fun o => match o with Some t => 0 <= t < 65536 * 86400 * ns | None => True end).
Proof.
  intros Hb Hl. unfold startTime. do 5 (go_step; go_step). go_step; [done |].
  apply returns_bind, returns_slice; [done | lia | lia |]. intros d Hd Hdl _.
  apply returns_bind, returns_uint16; [done | lia |]. intros mjd Hm.
  apply returns_bind, returns_slice; [done | lia | lia |]. intros t Ht Htl _.
  apply returns_bind. eapply returns_mono; [apply bcdDuration_returns; [done | lia] |].
  intros [clock|] Hc; [| done]. destruct (Z.leb_spec (24 * 3600 * ns) clock); [done |].
  apply returns_Ok. unfold ns in *. lia.
Qed.

(** A listing the reader gives: a title, a length, and in the broadcast's years. *)
Definition event_ok (e : Event) : Prop :=
  Title e <> [] /\ 0 <= Start e < 65536 * 86400 * ns /\ Start e < End e < Start e + 100 * 3600 * ns.

Definition same_time (e e' : Event) : Prop :=
  Start e' = Start e /\ End e' = End e /\ event_key e' = event_key e /\ Title e' = Title e.

Section parse_total.
Context (lower_uni : list Z -> list Z).

Lemma parseShort_returns body : bytes_ok body -> returns (parseShort lower_uni body) (fun o =>
  match o with Some s => sh_name s <> [] | None => True end).
Proof.
  intros Hb. unfold parseShort. destruct (Z.ltb_spec (zlen body) 5); [done |].
  go_step. go_step. go_step. go_step. destruct (Z.leb_spec (zlen body) (4 + v)); [done |].
  apply returns_bind, returns_slice; [done | blia | blia |]. intros nm Hnm _ _.
  apply returns_bind. eapply returns_mono; [by apply Text_returns |]. intros name _.
  apply returns_bind, returns_slice_from; [done | blia |]. intros rs Hrs Hrl _.
  go_step. go_step. cbv zeta. set (m := if zlen rs <? 1 + v0 then _ else _).
  assert (0 <= m /\ 1 + m <= zlen rs) as [Hm0 Hm].
  { unfold m. destruct (Z.ltb_spec (zlen rs) (1 + v0)); blia. }
  apply returns_bind, returns_slice; [done | lia | lia |]. intros t Htb _ _.
  apply returns_bind. eapply returns_mono; [by apply Text_returns |]. intros text _.
  apply returns_Ok. unfold bytes_equal. by case_bool_decide.
Qed.

Lemma parseExtended_returns body : bytes_ok body -> returns (parseExtended lower_uni body) (fun _ => True).
Proof.
  intros Hb. unfold parseExtended. destruct (Z.ltb_spec (zlen body) 6); [done |].
  go_step. go_step. go_step. go_step. go_step. go_step. cbv zeta.
  destruct (Z.leb_spec (zlen body) (5 + v0)); [done |].
  go_step. go_step. destruct (Z.ltb_spec (zlen body) (5 + v0 + 1 + v1)); [done |].
  apply returns_bind, returns_slice; [done | blia | blia |]. intros t Htb _ _.
  apply returns_bind. eapply returns_mono; [by apply textKeepEnds_returns |]. done.
Qed.

Definition collected_ok (e : Event) (st : collected) : Prop :=
  same_time e (fst (fst st)) /\ Forall (fun s => sh_name s <> []) (snd (fst st)).

Lemma describe_one_returns e st d : dsc_ok d -> collected_ok e st ->
  returns (describe_one lower_uni st d) (collected_ok e).
Proof.
  intros Hd [He Hs]. destruct st as [[e' shorts] ext], d as [tag body]. unfold describe_one.
  unfold dsc_ok in Hd. cbn [fst snd] in *.
  destruct (tag =? tagShortEvent).
  { apply returns_bind. eapply returns_mono; [by apply parseShort_returns |].
    intros [s|] Hn; apply returns_Ok; (split; [done |]); [| done].
    apply Forall_app. split; [done | by constructor]. }
  destruct (tag =? tagExtendedEvent).
  { apply returns_bind. eapply returns_mono; [by apply parseExtended_returns |].
    intros [[l p]|] _; by apply returns_Ok. }
  destruct (tag =? tagContent).
  { apply returns_bind. eapply returns_mono; [apply genre_loop_returns; [done | lia | unfold zlen; lia] |].
    intros [names live] _. by apply returns_Ok. }
  destruct (tag =? tagParental); [| done]. destruct (bytes_equal (Rating e') []); [| done].
  apply returns_bind. eapply returns_mono; [apply rating_loop_returns; [done | lia | unfold zlen; lia] |].
  intros r _. by apply returns_Ok.
Qed.

Lemma describe_all_returns e st ds : Forall dsc_ok ds -> collected_ok e st ->
  returns (describe_all lower_uni st ds) (collected_ok e).
Proof.
  intros Hds. revert st. induction Hds as [| d ds Hd _ IH]; intros st Hst; cbn [describe_all]; [done |].
  apply returns_bind. eapply returns_mono; [by apply describe_one_returns |]. intros st' H. by apply IH.
Qed.

Lemma describe_returns e desc want : bytes_ok desc ->
  returns (describe lower_uni e desc want) (fun e' =>
    Start e' = Start e /\ End e' = End e /\ event_key e' = event_key e).
Proof.
  intros Hb. unfold describe. apply returns_bind. eapply returns_mono; [by apply forDescriptors_returns |].
  intros ds Hds. apply returns_bind. eapply returns_mono.
  { apply (describe_all_returns e ((e, []), ∅)); [exact Hds |]. split; [done | constructor]. }
  intros [[e' shorts] ext] [(H1 & H2 & H3 & _) _]. cbn [fst snd] in *.
  destruct (pickShort shorts want) as [short|]; apply returns_Ok; [| done].
  repeat case_match; done.
Qed.

Lemma dvb_pat_loop_returns fuel b : bytes_ok b -> forall pos out,
  0 <= pos -> zlen b - 4 < pos + 4 + Z.of_nat fuel -> returns (pat_loop fuel b pos out) (fun _ => True).
Proof.
  intros Hb. induction fuel as [| fuel IH]; intros pos out Hp Hf; cbn [pat_loop].
  { by replace (pos + 4 <=? zlen b - 4) with false by lia. }
  destruct (Z.leb_spec (pos + 4) (zlen b - 4)); cbn [negb]; [| done].
  apply returns_bind, returns_u16at; [done | lia | lia |]. intros v _. apply IH; lia.
Qed.

Lemma current_returns b : bytes_ok b -> 6 <= zlen b -> returns (current b) (fun _ => True).
Proof. intros Hb Hl. unfold current. by go_steps. Qed.

Lemma parsePAT_returns b : bytes_ok b -> returns (parsePAT b) (fun _ => True).
Proof.
  intros Hb. unfold parsePAT. destruct (Z.ltb_spec (zlen b) 12); [done |].
  apply returns_bind. eapply returns_mono; [apply current_returns; [done | lia] |]. intros c _.
  destruct (negb c); [done |]. apply dvb_pat_loop_returns; [done | lia | unfold zlen; lia].
Qed.

Lemma service_names_returns name ds : Forall dsc_ok ds -> returns (service_names name ds) (fun _ => True).
Proof.
  intros Hds. revert name. induction Hds as [| [tag body] ds Hd _ IH]; intros name; cbn [service_names]; [done |].
  apply returns_bind. apply (returns_mono _ (fun _ => True)); [| intros n _; by apply IH].
  unfold dsc_ok in Hd. cbn [snd] in Hd. unfold service_name.
  destruct (negb (tag =? tagService)); [done |]. cbn [orb].
  destruct (Z.ltb_spec (zlen body) 2); [done |]. go_step. go_step.
  destruct (Z.leb_spec (zlen body) (2 + v)); [done |]. go_step. go_step.
  apply returns_bind, returns_slice_from; [done | blia |]. intros nm Hnm Hnl _.
  destruct (Z.ltb_spec (zlen nm) v0); [done |].
  apply returns_bind, returns_slice; [done | blia | lia |]. intros t Htb _ _.
  eapply returns_mono; [by apply Text_returns | done].
Qed.

Lemma sdt_loop_returns fuel b stream network : bytes_ok b -> forall pos out,
  0 <= pos -> zlen b - 4 < pos + 5 + Z.of_nat fuel -> 0 < zlen b ->
  returns (sdt_loop fuel b stream network pos out) (fun _ => True).
Proof.
  intros Hb. induction fuel as [| fuel IH]; intros pos out Hp Hf Hl; cbn [sdt_loop]; cbv zeta.
  { by replace (pos + 5 <=? zlen b - 4) with false by lia. }
  destruct (Z.leb_spec (pos + 5) (zlen b - 4)); cbn [negb]; [| done].
  apply returns_bind, returns_u16at; [done | lia | lia |]. intros id _.
  apply returns_bind, returns_u16at; [done | lia | lia |]. intros n Hn.
  destruct (Z.ltb_spec (zlen b - 4) (pos + 5 + Z.land n 4095)); [done |].
  go_step. go_step. apply returns_bind, returns_slice; [done | blia | blia |]. intros desc Hd _ _.
  apply returns_bind. eapply returns_mono; [by apply forDescriptors_returns |]. intros ds Hds.
  apply returns_bind. eapply returns_mono; [by apply service_names_returns |]. intros name _.
  apply IH; [blia | blia | done].
Qed.

Lemma parseSDT_returns b : bytes_ok b -> returns (parseSDT b) (fun _ => True).
Proof.
  intros Hb. unfold parseSDT. destruct (Z.ltb_spec (zlen b) 15); [done |].
  apply returns_bind. eapply returns_mono; [apply current_returns; [done | lia] |]. intros c _.
  destruct (negb c); [done |].
  apply returns_bind, returns_u16at; [done | lia | lia |]. intros st _.
  apply returns_bind, returns_u16at; [done | lia | lia |]. intros nw _.
  apply sdt_loop_returns; [done | lia | unfold zlen; lia | lia].
Qed.

Lemma dvb_eit_loop_returns fuel b lang h : bytes_ok b -> forall pos out,
  0 <= pos -> zlen b - 4 < pos + 12 + Z.of_nat fuel -> Forall event_ok out ->
  returns (eit_loop lower_uni fuel b lang h pos out) (Forall event_ok).
Proof.
  intros Hb. induction fuel as [| fuel IH]; intros pos out Hp Hf Ho; cbn [eit_loop]; cbv zeta.
  { by replace (pos + 12 <=? zlen b - 4) with false by lia. }
  destruct (Z.leb_spec (pos + 12) (zlen b - 4)); cbn [negb]; [| done].
  apply returns_bind, returns_u16at; [done | lia | lia |]. intros id _.
  apply returns_bind, returns_slice; [done | lia | lia |]. intros st Hst Hsl _.
  apply returns_bind. eapply returns_mono; [apply startTime_returns; [done | lia] |]. intros start Hstart.
  apply returns_bind, returns_slice; [done | lia | lia |]. intros du Hdu Hdl _.
  apply returns_bind. eapply returns_mono; [apply bcdDuration_returns; [done | lia] |]. intros len Hlen.
  apply returns_bind, returns_u16at; [done | lia | lia |]. intros n Hn.
  destruct (Z.ltb_spec (zlen b - 4) (pos + 12 + Z.land n 4095)); [done |].
  apply returns_bind, returns_slice; [done | blia | blia |]. intros desc Hd _ _.
  destruct start as [start|], len as [len|]; try (apply IH; [blia | blia | done]).
  destruct (Z.leb_spec len 0); [apply IH; [blia | blia | done] |].
  apply returns_bind. eapply returns_mono; [by apply describe_returns |]. intros e (E1 & E2 & _).
  cbn [Start End] in E1, E2. apply IH; [blia | blia |].
  unfold bytes_equal. case_bool_decide; [done |].
  apply Forall_app. split; [done |]. constructor; [| constructor].
  unfold event_ok. rewrite E1, E2. cbv beta iota in Hstart, Hlen. split; [done |]. lia.
Qed.

Lemma dvb_parseEIT_returns b lang : bytes_ok b -> returns (parseEIT lower_uni b lang) (Forall event_ok).
Proof.
  intros Hb. unfold parseEIT. destruct (Z.ltb_spec (zlen b) 18); [constructor |].
  apply returns_bind. eapply returns_mono; [apply current_returns; [done | lia] |]. intros c _.
  destruct (negb c); [constructor |]. go_step. go_step.
  apply returns_bind, returns_u16at; [done | lia | lia |]. intros x1 _.
  apply returns_bind, returns_u16at; [done | lia | lia |]. intros x2 _.
  apply returns_bind, returns_u16at; [done | lia | lia |]. intros x3 _. cbv zeta.
  apply dvb_eit_loop_returns; [done | lia | unfold zlen; lia | constructor].
Qed.
End parse_total.

(** ** A listing sent more than once *)

Section merge.
Implicit Types (l : list Event) (e : Event) (k : Z * Z * Z * Z).

(** The keys of [l], in the order they first come. *)
Fixpoint keys_from (seen : list (Z * Z * Z * Z)) l : list (Z * Z * Z * Z) :=
  match l with
  | [] => seen
  | e :: l => keys_from (if bool_decide (event_key e ∈ seen) then seen else seen ++ [event_key e]) l
  end.
Definition keys_of l := keys_from [] l.

(** The copy of [k] that counts: the last of the present/following table, or
    the last of all when that table has none. *)
Definition copies k l := filter (fun e => event_key e = k) l.
Definition fresh_copies k l := filter (fun e => NowNext e = true) (copies k l).
Definition chosen k l : option Event :=
  match last (fresh_copies k l) with Some e => Some e | None => last (copies k l) end.
Definition merged l : list Event := omap (fun k => chosen k l) (keys_of l).

Lemma keys_from_app seen l l' : keys_from seen (l ++ l') = keys_from (keys_from seen l) l'.
Proof. revert seen. induction l as [| e l IH]; intros seen; [done |]. simpl. by rewrite IH. Qed.

Lemma keys_of_snoc l e :
  keys_of (l ++ [e]) = if bool_decide (event_key e ∈ keys_of l) then keys_of l else keys_of l ++ [event_key e].
Proof. unfold keys_of. by rewrite keys_from_app. Qed.

Lemma keys_of_elem l k : k ∈ keys_of l <-> copies k l <> [].
Proof.
  induction l as [| e l IH] using rev_ind.
  { split; [by intros ?%elem_of_nil | done]. }
  assert (copies k (l ++ [e]) = copies k l ++ (if decide (event_key e = k) then [e] else [])) as ->.
  { unfold copies. by rewrite filter_app. }
  rewrite keys_of_snoc. case_bool_decide as Hin.
  - rewrite IH. destruct (decide (event_key e = k)) as [<- | H]; [| by rewrite app_nil_r].
    split; [by destruct (copies (event_key e) l) | intros _; by apply IH].
  - rewrite elem_of_app, IH, list_elem_of_singleton. destruct (decide (event_key e = k)) as [<- | H].
    + split; [by destruct (copies (event_key e) l) | by right].
    + rewrite app_nil_r. split; [by intros [? | ?] | by left].
Qed.

Lemma copies_other l e k : event_key e <> k -> copies k (l ++ [e]) = copies k l.
Proof. intros H. unfold copies. by rewrite filter_app, filter_cons_False, app_nil_r. Qed.

Lemma copies_same l e : copies (event_key e) (l ++ [e]) = copies (event_key e) l ++ [e].
Proof. unfold copies. by rewrite filter_app, filter_cons_True. Qed.

Lemma chosen_other l e k : event_key e <> k -> chosen k (l ++ [e]) = chosen k l.
Proof. intros H. unfold chosen, fresh_copies. by rewrite copies_other. Qed.

Lemma chosen_fresh l e : NowNext e = true -> chosen (event_key e) (l ++ [e]) = Some e.
Proof.
  intros H. unfold chosen, fresh_copies. rewrite copies_same, filter_app, filter_cons_True, filter_nil by done.
  by rewrite last_snoc.
Qed.

Lemma chosen_stale l e : NowNext e = false ->
  chosen (event_key e) (l ++ [e]) =
    match last (fresh_copies (event_key e) l) with Some f => Some f | None => Some e end.
Proof.
  intros H. unfold chosen, fresh_copies. rewrite copies_same, filter_app, filter_cons_False, app_nil_r by (by rewrite H).
  by rewrite last_snoc.
Qed.

Lemma chosen_held l k e : chosen k l = Some e ->
  event_key e = k /\ (last (fresh_copies k l) = if NowNext e then Some e else None).
Proof.
  unfold chosen. destruct (last (fresh_copies k l)) as [f|] eqn:E.
  - intros [= ->]. apply last_Some_elem_of in E. unfold fresh_copies in E.
    apply list_elem_of_filter in E as [Hn E]. apply list_elem_of_filter in E as [Hk _]. by rewrite Hn.
  - intros Hl. pose proof (last_Some_elem_of _ _ Hl) as H. split.
    { by apply list_elem_of_filter in H as [? _]. }
    destruct (NowNext e) eqn:Hn; [| done]. apply last_None in E.
    assert (e ∈ fresh_copies k l) as Hf by (by apply list_elem_of_filter). rewrite E in Hf.
    by apply elem_of_nil in Hf.
Qed.

(** The table after the listings [l]. *)
Record table_of l (st : event_table) : Prop := {
  tb_keys : map event_key (snd st) = keys_of l;
  tb_index k i : fst st !! k = Some i <-> keys_of l !! i = Some k;
  tb_chosen i e : snd st !! i = Some e -> chosen (event_key e) l = Some e }.

Lemma keys_of_NoDup l : NoDup (keys_of l).
Proof.
  induction l as [| e l IH] using rev_ind; [constructor |]. rewrite keys_of_snoc.
  case_bool_decide as H; [done |]. apply NoDup_app. split; [done |].
  split; [by intros x Hx ->%list_elem_of_singleton | apply NoDup_singleton].
Qed.

Lemma table_step l st e : table_of l st ->
  exists st', add_events st [e] = Ok st' /\ table_of (l ++ [e]) st'.
Proof.
  intros [Hk Hi Hc]. destruct st as [ev out]. cbn [fst snd] in *. cbn [add_events].
  assert (forall i e', out !! i = Some e' -> keys_of l !! i = Some (event_key e')) as Hat.
  { intros i e' E. rewrite <- Hk. by rewrite list_lookup_fmap, E. }
  destruct (ev !! event_key e) as [i|] eqn:Ei.
  - pose proof (proj1 (Hi _ _) Ei) as Hki. rewrite <- Hk in Hki.
    rewrite list_lookup_fmap in Hki. destruct (out !! i) as [held|] eqn:Eo; [| done].
    assert (event_key held = event_key e) as Hkey by (by apply (inj Some)).
    pose proof (Hc i held Eo) as Hheld. rewrite Hkey in Hheld.
    destruct (chosen_held _ _ _ Hheld) as [_ Hlast].
    assert (event_key e ∈ keys_of l) as Hin by (eapply list_elem_of_lookup_2, Hi, Ei).
    assert (keys_of (l ++ [e]) = keys_of l) as Hkeys.
    { rewrite keys_of_snoc. by rewrite bool_decide_true. }
    destruct (NowNext held && negb (NowNext e))%bool eqn:En.
    + exists (ev, out). split; [done |]. apply andb_true_iff in En as [En1 En2].
      apply negb_true_iff in En2. rewrite En1 in Hlast.
      constructor; cbn [fst snd]; rewrite ?Hkeys; [done | done |]. intros j e' Ej.
      destruct (decide (event_key e = event_key e')) as [H | H].
      * rewrite <- H, chosen_stale, Hlast by done. f_equal.
        assert (j = i) as ->; [| congruence].
        apply (NoDup_lookup (keys_of l) j i (event_key e)); [apply keys_of_NoDup | | by apply Hi].
        rewrite H. by apply Hat.
      * rewrite chosen_other by done. by eapply Hc.
    + unfold store. assert ((i < length out)%nat) as Hlt by (by eapply lookup_lt_Some).
      replace (i <? length out)%nat with true by (symmetry; by apply Nat.ltb_lt). cbn [rbind].
      eexists. split; [done |]. constructor; cbn [fst snd]; rewrite ?Hkeys.
      * rewrite <- Hk. rewrite list_fmap_insert. apply list_insert_id.
        by rewrite list_lookup_fmap, Eo, <- Hkey.
      * done.
      * intros j e' Ej. destruct (decide (j = i)) as [-> | Hne].
        { rewrite list_lookup_insert_eq in Ej by done. injection Ej as <-.
          destruct (NowNext e) eqn:Hn; [by apply chosen_fresh |]. rewrite chosen_stale, Hlast by done.
          destruct (NowNext held); [done |]. done. }
        rewrite list_lookup_insert_ne in Ej by done. rewrite chosen_other; [by eapply Hc |].
        intros H. apply Hne. apply (NoDup_lookup (keys_of l) j i (event_key e)); [apply keys_of_NoDup | | by apply Hi].
        rewrite H. by apply Hat.
  - assert (event_key e ∉ keys_of l) as Hout.
    { intros [i E]%list_elem_of_lookup_1. apply Hi in E. congruence. }
    assert (length (keys_of l) = length out) as Hlen by (by rewrite <- Hk, length_map).
    assert (keys_of (l ++ [e]) = keys_of l ++ [event_key e]) as Hkeys.
    { rewrite keys_of_snoc. by rewrite bool_decide_false. }
    eexists. split; [done |]. constructor; cbn [fst snd]; rewrite ?Hkeys.
    + by rewrite map_app, Hk.
    + intros k i. destruct (decide (k = event_key e)) as [-> | Hne].
      * rewrite lookup_insert_eq. rewrite lookup_snoc_Some. split.
        { intros [= <-]. right. by split. }
        { intros [[_ H] | [-> _]]; [exfalso; by apply Hout; eapply list_elem_of_lookup_2 | by rewrite Hlen]. }
      * rewrite lookup_insert_ne by done. rewrite Hi, lookup_snoc_Some. split.
        { intros H. left. split; [by eapply lookup_lt_Some | done]. }
        { intros [[_ H] | [_ H]]; [done | by subst k]. }
    + intros i e' Ei'. apply lookup_snoc_Some in Ei' as [[_ E] | [-> <-]].
      * rewrite chosen_other; [by eapply Hc |]. intros H. apply Hout. rewrite H.
        eapply list_elem_of_lookup_2. by apply Hat.
      * destruct (NowNext e) eqn:Hn; [by apply chosen_fresh |]. rewrite chosen_stale by done.
        assert (copies (event_key e) l = []) as Hnil.
        { destruct (copies (event_key e) l) eqn:E; [done |]. exfalso. apply Hout, keys_of_elem. by rewrite E. }
        unfold fresh_copies. by rewrite Hnil.
Qed.

Lemma add_events_snoc st l l' : add_events st (l ++ l') = (let! st := add_events st l in add_events st l').
Proof.
  revert st. induction l as [| e l IH]; intros [ev out]; [done |]. cbn [app add_events].
  destruct (ev !! event_key e) as [i|]; [| by rewrite IH].
  destruct (out !! i) as [held|]; [| done]. destruct (_ && _)%bool; [by rewrite IH |].
  destruct (store out i e); [| done | done]. cbn [rbind]. by rewrite IH.
Qed.

Lemma table_merged l st : table_of l st -> snd st = merged l.
Proof.
  intros [Hk _ Hc]. unfold merged. rewrite <- Hk. destruct st as [ev out]. cbn [fst snd] in *. clear Hk ev.
  induction out as [| e out IH]; [done |]. cbn [map omap list_omap].
  rewrite (Hc 0%nat e) by done. f_equal. apply IH. intros i e' H. by apply (Hc (S i) e').
Qed.

Lemma add_events_merged l st l' : table_of l st ->
  exists st', add_events st l' = Ok st' /\ table_of (l ++ l') st'.
Proof.
  revert l st. induction l' as [| e l' IH]; intros l st Hst.
  { exists st. by rewrite app_nil_r. }
  change (e :: l') with ([e] ++ l'). rewrite add_events_snoc.
  destruct (table_step l st e Hst) as (st1 & -> & H1). cbn [rbind].
  destruct (IH _ _ H1) as (st2 & -> & H2). exists st2. by rewrite app_assoc.
Qed.
End merge.

Lemma chosen_elem k l e : chosen k l = Some e -> e ∈ l.
Proof.
  unfold chosen. destruct (last (fresh_copies k l)) as [f|] eqn:E.
  - intros [= ->]. apply last_Some_elem_of in E. unfold fresh_copies, copies in E.
    apply list_elem_of_filter in E as [_ E]. by apply list_elem_of_filter in E as [_ ?].
  - intros Hl. apply last_Some_elem_of in Hl. by apply list_elem_of_filter in Hl as [_ ?].
Qed.

Lemma table_keys_NoDup l st : table_of l st -> NoDup (map event_key (snd st)).
Proof. intros [-> _ _]. apply keys_of_NoDup. Qed.

Definition service_table_ok (st : service_table) : Prop :=
  forall k i, fst st !! k = Some i -> (i < length (snd st))%nat.

Lemma add_services_returns l : forall st, service_table_ok st -> returns (add_services st l) service_table_ok.
Proof.
  induction l as [| s l IH]; intros [svc out] Hst; [done |]. cbn [add_services].
  destruct (svc !! service_key s) as [i|] eqn:Ei.
  - unfold store. pose proof (Hst _ _ Ei) as Hlt. cbn [snd] in Hlt.
    replace (i <? length out)%nat with true by (symmetry; by apply Nat.ltb_lt). cbn [rbind].
    apply IH. intros k j Hj. cbn [fst snd] in *. rewrite length_insert. by apply (Hst k).
  - apply IH. intros k j Hj. cbn [fst snd] in *. rewrite length_app. simpl.
    destruct (decide (k = service_key s)) as [-> | Hne].
    + rewrite lookup_insert_eq in Hj. injection Hj as <-. lia.
    + rewrite lookup_insert_ne in Hj by done. pose proof (Hst _ _ Hj) as H. simpl in H. lia.
Qed.

Section parse_spec.
Context (lower_uni : list Z -> list Z) (locale : list Z).

(** Every listing of the sections, in the order they came, repeats included. *)
Fixpoint listings (secs : list section) : res (list Event) :=
  match secs with
  | [] => Ok []
  | (pid, body) :: secs =>
      let! t := idx body 0 in
      let! l := if ((pid =? pidEIT) && (tableNowNext <=? t) && (t <=? 0x6F))%bool
                then parseEIT lower_uni body locale else Ok [] in
      let! r := listings secs in
      Ok (l ++ r)
  end.

Lemma parse_sections_spec secs : Forall section_ok secs -> forall l programs svc ev,
  service_table_ok svc -> table_of l ev ->
  exists evs programs' svc' ev', listings secs = Ok evs /\ Forall event_ok evs /\
    parse_sections lower_uni locale (programs, svc, ev) secs = Ok (programs', svc', ev') /\ table_of (l ++ evs) ev'.
Proof.
  induction 1 as [| [pid body] secs (Hpid & Hb & Hl & _) _ IH]; intros l programs svc ev Hsvc Hev.
  { exists [], programs, svc, ev. rewrite app_nil_r. split; [done |]. split; [constructor | done]. }
  cbn [listings parse_sections fst snd] in *. unfold parse_section.
  destruct (idx_in_range body 0) as (t & _ & ->); [lia |]. cbn [rbind].
  destruct (((pid =? pidPAT) && (t =? tablePAT))%bool) eqn:E1.
  { apply andb_true_iff in E1 as [E1 _]. apply Z.eqb_eq in E1 as ->. change (pidPAT =? pidEIT) with false.
    cbn [andb rbind]. pose proof (parsePAT_returns body Hb) as Hp.
    destruct (parsePAT body) as [p| |]; [| done | done]. cbn [rbind].
    destruct (IH l p svc ev Hsvc Hev) as (evs & P & S & E & -> & H2 & H3 & H4).
    exists evs, P, S, E. done. }
  destruct (((pid =? pidSDT) && ((t =? tableSDT) || (t =? tableSDTOther)))%bool) eqn:E2.
  { apply andb_true_iff in E2 as [E2 _]. apply Z.eqb_eq in E2 as ->. change (pidSDT =? pidEIT) with false.
    cbn [andb rbind]. pose proof (parseSDT_returns body Hb) as Hp.
    destruct (parseSDT body) as [p| |]; [| done | done]. cbn [rbind].
    pose proof (add_services_returns p svc Hsvc) as Ha.
    destruct (add_services svc p) as [svc'| |]; [| done | done]. cbn [rbind].
    destruct (IH l programs svc' ev Ha Hev) as (evs & P & S & E & -> & H2 & H3 & H4).
    exists evs, P, S, E. done. }
  destruct ((pid =? pidEIT) && (tableNowNext <=? t) && (t <=? 111))%bool eqn:E3.
  - pose proof (dvb_parseEIT_returns lower_uni body locale Hb) as Hp.
    destruct (parseEIT lower_uni body locale) as [le| |]; [| done | done]. cbn [rbind].
    destruct (add_events_merged l ev le Hev) as (ev' & -> & Hev'). cbn [rbind].
    destruct (IH (l ++ le) programs svc ev' Hsvc Hev') as (evs & P & S & E & -> & H2 & H3 & H4).
    exists (le ++ evs), P, S, E. split; [done |]. split; [by apply Forall_app |].
    rewrite (app_assoc l). done.
  - cbn [rbind]. destruct (IH l programs svc ev Hsvc Hev) as (evs & P & S & E & -> & H2 & H3 & H4).
    exists evs, P, S, E. done.
Qed.

Lemma table_empty : table_of [] (∅, []).
Proof. constructor; [done | | done]. intros k i. cbn [fst]. rewrite lookup_empty. by destruct i. Qed.

Lemma Parse_spec raw : bytes_ok raw ->
  exists secs evs g, sections raw = Ok secs /\ listings secs = Ok evs /\ Forall event_ok evs /\
    Parse lower_uni locale raw = Ok g /\ Events g = merged evs /\ NoDup (map event_key (Events g)).
Proof.
  intros Hb. unfold Parse. pose proof (sections_returns raw Hb) as Hs.
  destruct (sections raw) as [secs| |]; [| done | done]. cbn [rbind].
  destruct (parse_sections_spec secs Hs [] [] (∅, []) (∅, [])) as (evs & P & S & E & H1 & H2 & H3 & H4).
  { intros k i. cbn [fst]. by rewrite lookup_empty. } { apply table_empty. }
  match goal with |- context [parse_sections ?a ?b ?c secs] =>
    replace (parse_sections a b c secs) with (Ok (P, S, E) : res parsed) by (symmetry; exact H3) end.
  cbn [rbind]. exists secs, evs, (mkGuide (snd S) (snd E) P). split; [done |]. split; [done |].
  split; [done |]. split; [done |]. cbn [Events]. split; [by apply table_merged | by eapply table_keys_NoDup].
Qed.
End parse_spec.

(** A capture of any bytes is read to its end, and a listing sent many times
    is kept once: in the order listings first come, each is the last copy of the
    present/following table, or the last copy of all where that table has none.
    Every listing has a title and a length. *)
Theorem Parse_merges (lower_uni : list Z -> list Z) (locale raw : list Z) (Hb : bytes_ok raw) :
  exists secs evs g, sections raw = Ok secs /\ listings lower_uni locale secs = Ok evs /\
    Parse lower_uni locale raw = Ok g /\ Events g = merged evs /\
    Forall event_ok (Events g) /\ NoDup (map event_key (Events g)).
Proof.
  destruct (Parse_spec lower_uni locale raw Hb) as (secs & evs & g & H1 & H2 & H3 & H4 & H5 & H6).
  exists secs, evs, g. split; [done |]. split; [done |]. split; [done |]. split; [done |]. split; [| done].
  rewrite H5. unfold merged. apply list.Forall_forall. intros e He.
  apply list_elem_of_omap in He as (k & _ & He). apply chosen_elem in He.
  by apply (proj1 (list.Forall_forall _ _) H3).
Qed.

(** An EIT section of one listing: table, start minute, title. *)
Definition sample_eit (table minute : Z) (title : list Z) : list Z :=
  let short := lit "eng" ++ zlen title :: title ++ [0] in
  let desc := tagShortEvent :: zlen short :: short in
  let row := [0; 7; 0xEB; 0x4C; 0x12; minute; 0x00; 0x01; 0x00; 0x00; 0x80; zlen desc] ++ desc in
  let d := [table; 0xF0; 15 + zlen row; 0; 3; 0xC1; 0; 0; 0; 1; 0; 2; 0; table] ++ row in
  d ++ crc_bytes (mpegCRC d).

(** The listing in the schedule, then in present/following, then in the schedule again. *)
Definition sample_capture : list Z :=
  let s := sample_eit 0x50 0x00 (lit "Early") ++ sample_eit 0x4E 0x05 (lit "On now") ++ sample_eit 0x50 0x10 (lit "Late") in
  [0x47; 0x40; 0x12; 0x10; 0x00] ++ s ++ replicate (183 - length s) 0xFF.

Lemma sample_capture_reads :
  (let! g := Parse id eng sample_capture in Ok (map Title (Events g))) = Ok [lit "On now"].
Proof. by vm_compute. Qed.

Lemma Parse_merges_witness :
  exists secs evs g, sections sample_capture = Ok secs /\ listings id eng secs = Ok evs /\
    Parse id eng sample_capture = Ok g /\ Events g = merged evs /\
    Forall event_ok (Events g) /\ NoDup (map event_key (Events g)).
Proof. apply Parse_merges. bytes_dec. Defined.

(** ** Listings as a station writes them *)

Definition bcd_byte (v : Z) : Z := v / 10 * 16 + v mod 10.
Definition be (v : Z) : list Z := [v / 256; v mod 256].

(** A listing: its number, start day and clock, length, and descriptors; [rw_flags]
    is the running status and the scrambling bit. *)
Record row : Type := mkRow {
  rw_id : Z; rw_mjd : Z; rw_h : Z; rw_m : Z; rw_s : Z; rw_dh : Z; rw_dm : Z; rw_ds : Z;
  rw_flags : Z; rw_desc : list Z }.

Record row_ok (r : row) : Prop := {
  ro_id : 0 <= rw_id r < 65536;
  ro_mjd : 0 <= rw_mjd r < 65536;
  ro_clock : 0 <= rw_h r < 24 /\ 0 <= rw_m r < 60 /\ 0 <= rw_s r < 60;
  ro_length : 0 <= rw_dh r < 100 /\ 0 <= rw_dm r < 60 /\ 0 <= rw_ds r < 60;
  ro_some : 0 < rw_dh r * 3600 + rw_dm r * 60 + rw_ds r;
  ro_flags : 0 <= rw_flags r < 16;
  ro_desc : bytes_ok (rw_desc r) /\ zlen (rw_desc r) < 4096 }.

Definition clock_bytes (h m s : Z) : list Z := [bcd_byte h; bcd_byte m; bcd_byte s].
Definition enc_row (r : row) : list Z :=
  be (rw_id r) ++ (be (rw_mjd r) ++ clock_bytes (rw_h r) (rw_m r) (rw_s r)) ++
  clock_bytes (rw_dh r) (rw_dm r) (rw_ds r) ++
  be (rw_flags r * 4096 + zlen (rw_desc r)) ++ rw_desc r.

Lemma bcd_reads v : 0 <= v < 100 -> bcd (bcd_byte v) = Some v.
Proof.
  intros Hv. unfold bcd, bcd_byte.
  assert (Z.shiftr (v / 10 * 16 + v mod 10) 4 = v / 10) as ->.
  { rewrite Z.shiftr_div_pow2 by lia. change (2 ^ 4) with 16. dlia. }
  assert (Z.land (v / 10 * 16 + v mod 10) 15 = v mod 10) as ->.
  { change 15 with (Z.pred (2 ^ 4)). rewrite land_mask by lia. change (2 ^ 4) with 16. dlia. }
  replace ((9 <? v / 10) || (9 <? v mod 10))%bool with false by dlia. f_equal. dlia.
Qed.

Lemma clock_reads h m s : 0 <= h < 100 -> 0 <= m < 60 -> 0 <= s < 60 ->
  bcdDuration (clock_bytes h m s) = Ok (Some ((h * 3600 + m * 60 + s) * ns)).
Proof.
  intros Hh Hm Hs. unfold bcdDuration, clock_bytes.
  change (idx [bcd_byte h; bcd_byte m; bcd_byte s] 0) with (Ok (bcd_byte h)).
  change (idx [bcd_byte h; bcd_byte m; bcd_byte s] 1) with (Ok (bcd_byte m)).
  change (idx [bcd_byte h; bcd_byte m; bcd_byte s] 2) with (Ok (bcd_byte s)). cbn [rbind].
  rewrite !bcd_reads by lia. cbn [rbind]. by replace ((59 <? m) || (59 <? s))%bool with false by lia.
Qed.

Lemma be_reads v : 0 <= v < 65536 -> uint16 (be v) = Ok v.
Proof.
  intros Hv. unfold uint16, be. change (idx [v / 256; v mod 256] 1) with (Ok (v mod 256)).
  change (idx [v / 256; v mod 256] 0) with (Ok (v / 256)). cbn [rbind].
  rewrite be16_eq by (unfold byte_ok; dlia). f_equal. dlia.
Qed.

Lemma start_reads mjd h m s : 0 <= mjd < 65536 -> 0 <= h < 24 -> 0 <= m < 60 -> 0 <= s < 60 ->
  startTime (be mjd ++ clock_bytes h m s) = Ok (Some ((mjd * 86400 + h * 3600 + m * 60 + s) * ns)).
Proof.
  intros Hmjd Hh Hm Hs. unfold startTime, be. cbn [app].
  set (b := mjd / 256 :: mjd mod 256 :: clock_bytes h m s).
  change (idx b 0) with (Ok (mjd / 256)). change (idx b 1) with (Ok (mjd mod 256)).
  change (idx b 2) with (Ok (bcd_byte h)). change (idx b 3) with (Ok (bcd_byte m)).
  change (idx b 4) with (Ok (bcd_byte s)). cbn [rbind].
  assert (bcd_byte h =? 255 = false) as -> by (unfold bcd_byte; dlia).
  rewrite andb_false_r. cbn [andb].
  change (slice b 0 2) with (Ok (be mjd)). change (slice b 2 5) with (Ok (clock_bytes h m s)). cbn [rbind].
  rewrite be_reads by done. cbn [rbind]. rewrite clock_reads by lia. cbn [rbind].
  replace (24 * 3600 * ns <=? (h * 3600 + m * 60 + s) * ns) with false by (unfold ns; lia).
  f_equal. f_equal. unfold ns. lia.
Qed.

Section eit.
Context (lower_uni : list Z -> list Z) (lang : list Z) (h : eit_head).

Definition row_event (r : row) : Event :=
  let start := (rw_mjd r * 86400 + rw_h r * 3600 + rw_m r * 60 + rw_s r) * ns in
  mkEvent (hd_network h) (hd_stream h) (hd_service h) (rw_id r) (hd_actual h) (hd_nowNext h)
    start (start + (rw_dh r * 3600 + rw_dm r * 60 + rw_ds r) * ns) [] [] [] [] false [].

(** The rows, each with what its descriptors say; one without a title is left out. *)
Fixpoint described (rows : list row) (out : list Event) : res (list Event) :=
  match rows with
  | [] => Ok out
  | r :: rows =>
      let! e := describe lower_uni (row_event r) (rw_desc r) lang in
      described rows (if bytes_equal (Title e) [] then out else out ++ [e])
  end.

Lemma slice_row (p a m r : list Z) i j : i = zlen p + zlen a -> j = i + zlen m ->
  slice (p ++ a ++ m ++ r) i j = Ok m.
Proof. intros -> ->. rewrite app_assoc, <- zlen_app. apply slice_at. Qed.

Lemma enc_row_length r : zlen (enc_row r) = 12 + zlen (rw_desc r).
Proof.
  unfold enc_row. rewrite !zlen_app. change (zlen (clock_bytes _ _ _)) with 3.
  change (zlen (be _)) with 2. change (zlen (clock_bytes (rw_h r) (rw_m r) (rw_s r))) with 3. lia.
Qed.

(** The fields of a row, where the loop looks for them. *)
Lemma row_fields p r rest :
  let b := p ++ enc_row r ++ rest in
  slice b (zlen p) (zlen p + 2) = Ok (be (rw_id r)) /\
  slice b (zlen p + 2) (zlen p + 7) = Ok (be (rw_mjd r) ++ clock_bytes (rw_h r) (rw_m r) (rw_s r)) /\
  slice b (zlen p + 7) (zlen p + 10) = Ok (clock_bytes (rw_dh r) (rw_dm r) (rw_ds r)) /\
  slice b (zlen p + 10) (zlen p + 10 + 2) = Ok (be (rw_flags r * 4096 + zlen (rw_desc r))) /\
  slice b (zlen p + 12) (zlen p + 12 + zlen (rw_desc r)) = Ok (rw_desc r).
Proof.
  cbv zeta. unfold enc_row. rewrite <- !app_assoc.
  set (c1 := clock_bytes (rw_h r) (rw_m r) (rw_s r)). set (c2 := clock_bytes (rw_dh r) (rw_dm r) (rw_ds r)).
  set (n := be (rw_flags r * 4096 + _)). set (d := be (rw_mjd r)). set (i := be (rw_id r)).
  assert (zlen c1 = 3 /\ zlen c2 = 3 /\ zlen n = 2 /\ zlen d = 2 /\ zlen i = 2) as (L1 & L2 & L3 & L4 & L5) by done.
  split_and!.
  - change (zlen p + 2) with (zlen p + zlen i). apply slice_at.
  - rewrite (app_assoc d). apply (slice_row p i); rewrite ?zlen_app; lia.
  - rewrite (app_assoc d), (app_assoc i). apply (slice_row p (i ++ d ++ c1)); rewrite ?zlen_app; lia.
  - rewrite (app_assoc c1), (app_assoc d), (app_assoc i).
    apply (slice_row p (i ++ d ++ c1 ++ c2)); rewrite ?zlen_app; lia.
  - rewrite (app_assoc c2), (app_assoc c1), (app_assoc d), (app_assoc i).
    apply (slice_row p (i ++ d ++ c1 ++ c2 ++ n)); rewrite ?zlen_app; lia.
Qed.

Lemma eit_loop_rows rows : forall fuel pre crc out,
  Forall row_ok rows -> zlen crc = 4 -> (length rows <= fuel)%nat ->
  eit_loop lower_uni fuel (pre ++ concat (map enc_row rows) ++ crc) lang h (zlen pre) out = described rows out.
Proof.
  induction rows as [| r rows IH]; intros fuel pre crc out Hr Hc Hf.
  - cbn [map concat app described]. destruct fuel; cbn [eit_loop]; cbv zeta; rewrite zlen_app, Hc;
      by replace (zlen pre + 12 <=? zlen pre + 4 - 4) with false by lia.
  - apply Forall_cons in Hr as [[Hid Hmjd Hck Hlen Hsome Hfl [Hdb Hdl]] Hr].
    destruct fuel as [| fuel]; [simpl in Hf; lia |]. cbn [map concat described eit_loop]. cbv zeta.
    set (R := concat (map enc_row rows)). rewrite <- app_assoc.
    destruct (row_fields pre r (R ++ crc)) as (F1 & F2 & F3 & F4 & F5).
    pose proof (enc_row_length r) as Hzr.
    assert ((pre ++ enc_row r) ++ R ++ crc = pre ++ enc_row r ++ R ++ crc) as Hb by (by rewrite <- app_assoc).
    set (b := pre ++ enc_row r ++ R ++ crc) in *.
    assert (zlen b = zlen pre + (12 + zlen (rw_desc r) + zlen R) + 4) as Hzb.
    { unfold b. rewrite !zlen_app, Hzr. lia. }
    pose proof (zlen_nonneg R). pose proof (zlen_nonneg (rw_desc r)). pose proof (zlen_nonneg pre).
    unfold u16at. rewrite Hzb, F1, F2, F3, F4.
    replace (zlen pre + 12 <=? zlen pre + (12 + zlen (rw_desc r) + zlen R) + 4 - 4) with true by lia.
    cbn [negb rbind]. rewrite be_reads, start_reads, clock_reads, be_reads by lia. cbn [rbind].
    assert (Z.land (rw_flags r * 4096 + zlen (rw_desc r)) 4095 = zlen (rw_desc r)) as ->.
    { change 4095 with (Z.pred (2 ^ 12)). rewrite land_mask by lia. change (2 ^ 12) with 4096.
      rewrite Z.add_comm, Z.mod_add by lia. apply Z.mod_small. lia. }
    replace (zlen pre + (12 + zlen (rw_desc r) + zlen R) + 4 - 4 <? zlen pre + 12 + zlen (rw_desc r)) with false by lia.
    rewrite F5. cbn [rbind].
    replace ((rw_dh r * 3600 + rw_dm r * 60 + rw_ds r) * ns <=? 0) with false by (unfold ns; lia).
    change (mkEvent _ _ _ _ _ _ _ _ _ _ _ _ _ _) with (row_event r).
    destruct (describe lower_uni (row_event r) (rw_desc r) lang) as [e| |]; [| done | done]. cbn [rbind].
    rewrite <- Hb.
    replace (zlen pre + 12 + zlen (rw_desc r)) with (zlen (pre ++ enc_row r)) by (rewrite zlen_app, Hzr; lia).
    apply IH; [done | done | simpl in Hf; lia].
Qed.
End eit.

(** The fields of an EIT section before its rows. *)
Definition enc_eit (t f1 len f5 : Z) (h : eit_head) (body : list Z) : list Z :=
  [t; f1; len] ++ be (hd_service h) ++ [f5; 0; 0] ++ be (hd_stream h) ++ be (hd_network h) ++ [0; t] ++ body.

(** The listings a station writes are the listings read: a present section of
    any rows, whatever their number, dates, lengths and descriptors, gives in
    order one listing for each row, at its service, with its start to the second
    and its end, and with what its descriptors say; rows without a title are left
    out. *)
Theorem EIT_reads (lower_uni : list Z -> list Z) (lang : list Z) (t f1 len f5 : Z) (h : eit_head)
    (rows : list row) (crc : list Z)
    (Hh : 0 <= hd_service h < 65536 /\ 0 <= hd_stream h < 65536 /\ 0 <= hd_network h < 65536)
    (Ha : hd_actual h = (t =? tableNowNext) || ((0x50 <=? t) && (t <=? 0x5F)))
    (Hn : hd_nowNext h = (t =? tableNowNext) || (t =? tableNowOther))
    (Hf1 : Z.land f1 0x80 <> 0) (Hf5 : Z.land f5 1 <> 0)
    (Hr : Forall row_ok rows) (Hc : zlen crc = 4) :
  parseEIT lower_uni (enc_eit t f1 len f5 h (concat (map enc_row rows) ++ crc)) lang = described lower_uni lang h rows [].
Proof.
  set (pre := [t; f1; len] ++ be (hd_service h) ++ [f5; 0; 0] ++ be (hd_stream h) ++ be (hd_network h) ++ [0; t]).
  assert (enc_eit t f1 len f5 h (concat (map enc_row rows) ++ crc) = pre ++ concat (map enc_row rows) ++ crc) as ->.
  { unfold pre, enc_eit. by rewrite <- !app_assoc. }
  assert (zlen pre = 14) as Hpre by done.
  pose proof (zlen_nonneg (concat (map enc_row rows))) as HR.
  set (R := concat (map enc_row rows) ++ crc).
  assert (18 <= zlen (pre ++ R)) as H18 by (unfold R; rewrite !zlen_app; lia).
  unfold parseEIT, current. replace (zlen (pre ++ R) <? 18) with false by lia.
  rewrite !idx_app_l by lia. change (idx pre 1) with (Ok f1). change (idx pre 5) with (Ok f5).
  change (idx pre 0) with (Ok t). cbn [rbind].
  replace (Z.land f1 128 =? 0) with false by lia. cbn [rbind].
  replace (Z.land f5 1 =? 0) with false by lia. cbn [negb rbind].
  unfold u16at. rewrite !slice_app_l by lia.
  change (slice pre 3 (3 + 2)) with (Ok (be (hd_service h))).
  change (slice pre 8 (8 + 2)) with (Ok (be (hd_stream h))).
  change (slice pre 10 (10 + 2)) with (Ok (be (hd_network h))). cbn [rbind].
  rewrite !be_reads by lia. cbn [rbind]. cbv zeta. rewrite <- Ha, <- Hn.
  replace (mkHead (hd_service h) (hd_stream h) (hd_network h) (hd_actual h) (hd_nowNext h)) with h by (by destruct h).
  rewrite <- Hpre. unfold R. apply eit_loop_rows; [done | done |].
  assert (forall rs, zlen (concat (map enc_row rs)) >= zlen rs) as Hlen.
  { induction rs as [| r rs IH]; [done |]. cbn [map concat]. rewrite zlen_app, zlen_cons, enc_row_length.
    pose proof (zlen_nonneg (rw_desc r)). lia. }
  specialize (Hlen rows). rewrite !length_app. unfold zlen in Hlen. lia.
Qed.

Definition sample_row : row :=
  mkRow 7 60236 19 30 0 1 45 0 8 (tagShortEvent :: 9 :: lit "eng" ++ 4 :: lit "News" ++ [0]).

Lemma EIT_reads_witness :
  parseEIT id (enc_eit 0x50 0xF0 0 0xC1 (mkHead 3 1 2 true false) (concat (map enc_row [sample_row]) ++ [0; 0; 0; 0])) eng
  = described id eng (mkHead 3 1 2 true false) [sample_row] [].
Proof.
  apply EIT_reads; try done.
  constructor; [| constructor]. constructor; try (cbn; lia). split; [bytes_dec | by vm_compute].
Defined.

(** ** The harvester *)

(** A harvester between two reads: whole packets, less than one packet waiting,
    and at most one packet of the PAT. *)
Record harvester_ok (h : Harvester) : Prop := {
  ho_buf : bytes_ok (buf h) /\ zlen (buf h) mod 188 = 0;
  ho_rest : bytes_ok (rest h) /\ zlen (rest h) < 188;
  ho_reported : 0 <= reported h <= harvestLimit /\ reported h <= zlen (buf h) < reported h + harvestStep;
  ho_pat : match pat h with Some p => packet_ok p | None => True end }.

Lemma dvb_keep_packets_returns pkts : forall b p,
  Forall packet_ok pkts -> bytes_ok b -> zlen b mod 188 = 0 -> match p with Some p => packet_ok p | None => True end ->
  returns (keep_packets pkts b p) (fun r => (bytes_ok r.1 /\ zlen r.1 mod 188 = 0 /\ zlen b <= zlen r.1) /\
    match r.2 with Some p => packet_ok p | None => True end).
Proof.
  induction pkts as [| pkt pkts IH]; intros b p Hp Hb Hm Hpat; cbn [keep_packets]; [done |].
  apply Forall_cons in Hp as [[Hl Hpb] Hp]. go_step. go_step. go_step. go_step.
  destruct (_ || _)%bool; [| destruct (_ && _)%bool; by apply IH].
  eapply returns_mono.
  - apply IH; [done | by apply bytes_ok_app | | done].
    rewrite zlen_app, Hl, <- Zplus_mod_idemp_l, Hm. done.
  - intros r [(H1' & H2' & H3') H4']. split; [| done]. split; [done |]. split; [done |].
    rewrite zlen_app in H3'. lia.
Qed.

(** The harvester's memory stays bounded and never holds a cut packet: read
    by read, for as long as the mux runs, it keeps whole packets, less than
    294 KB of them, less than one packet of the next and one of the PAT, and
    never fails. *)
Theorem dvb_harvester_bounded (lower_uni : list Z -> list Z) (locale : list Z) (h : Harvester) (chunk : list Z)
    (Hh : harvester_ok h) (Hc : bytes_ok chunk) :
  returns (Add lower_uni locale h chunk) (fun r => harvester_ok (fst r) /\ zlen (buf (fst r)) < 294 * 1024).
Proof.
  destruct Hh as [[H1 H2] [H3 H4] [H5 H6] H7].
  assert (harvestLimit = 263200 /\ harvestStep = 32768 /\ harvestKeep = 131600) as (E1 & E2 & E3) by done.
  unfold Add. apply returns_bind. eapply returns_mono; [by apply Packets_returns |].
  intros [pkts rs] (K1 & K2 & K3). cbn [fst snd] in *.
  apply returns_bind. eapply returns_mono; [by apply dvb_keep_packets_returns |].
  intros [b p] [(B1 & B2 & B3) B4]. cbn [fst snd] in *.
  destruct (_ && _)%bool eqn:Ew.
  { apply returns_Ok. cbn [fst buf]. split; [| lia]. constructor; cbn; [done | done | lia | done]. }
  apply returns_bind. destruct (Parse_spec lower_uni locale b B1) as (secs & evs & g & _ & _ & _ & -> & _).
  cbn [returns]. apply returns_bind. apply (returns_mono _ (fun _ => True)).
  { destruct p as [p|]; [| done]. destruct B4 as [_ B4].
    destruct (Parse_spec lower_uni locale p B4) as (secs' & evs' & g' & _ & _ & _ & -> & _). done. }
  intros g' _. apply returns_Ok. cbn [fst buf]. pose proof (zlen_nonneg b).
  destruct (Z.ltb_spec harvestLimit (zlen b)) as [Hbig | Hsmall].
  - assert (zlen (drop (Z.to_nat (zlen b - harvestKeep)) b) = harvestKeep) as Hz by (rewrite zlen_drop; lia).
    split; [| lia]. constructor; cbn [buf rest reported pat]; rewrite ?Hz; [| done | lia | done].
    split; [by apply bytes_ok_drop | done].
  - split; [| lia]. constructor; cbn [buf rest reported pat]; [done | done | lia | done].
Qed.

Lemma dvb_harvester_bounded_witness :
  returns (Add id eng (mkHarvester [] 0 0 [] None) [0x47; 1; 2])
    (fun r => harvester_ok (fst r) /\ zlen (buf (fst r)) < 294 * 1024).
Proof.
  apply dvb_harvester_bounded; [| bytes_dec].
  constructor; [split; [apply bytes_ok_nil | done] | split; [apply bytes_ok_nil | done] | | done].
  by vm_compute.
Defined.
