(* ===== verification/GoText.v ===== *)
(** What the recorder uses of Go's [strings], [strconv] and [time]: text is a
    list of code points, an instant nanoseconds after the zero [time.Time].

    The Unicode tables past ASCII and the time-zone database are not code of
    the program: they are the two classes below. *)
From S2P Require Import Prelude.
From Stdlib Require Import Ascii.
From stdpp Require Import sorting.
Local Open Scope Z_scope.
Local Open Scope go_scope.

(** Literals stay folded. *)
#[global] Arguments lit _ : simpl never.

(** ** Unicode *)

(** [unicode.ToLower], [unicode.IsSpace] and [unicode.IsLetter || IsDigit] of a
    rune past ASCII, and the test of [strings.EqualFold] on two runes of which
    one is. *)
Class Unicode := {
  lower_rune : Z -> Z;
  space_rune : Z -> bool;
  word_rune : Z -> bool;
  fold_rune : Z -> Z -> bool;
}.

(** [unix -> (offset, start, end)]: the zone in use at a Unix second, [time]'s
    [Location.lookup]. *)
Class Zone := { lookup_zone : Z -> Z * Z * Z }.

Definition is_upper (c : Z) : bool := ((65 <=? c) && (c <=? 90))%bool.
Definition is_lower (c : Z) : bool := ((97 <=? c) && (c <=? 122))%bool.
Definition is_digit (c : Z) : bool := ((48 <=? c) && (c <=? 57))%bool.

(** [s == a literal], and [strings.ReplaceAll(s, c, nothing)] of one character *)
Definition says (s : list Z) (t : string) : bool := bytes_equal s (lit t).
Definition without (c : Z) (s : list Z) : list Z := List.filter (fun x => negb (x =? c)) s.

(** [strings.Join], and [slices.ContainsFunc] of a text that is one of some *)
Fixpoint Join (l : list (list Z)) (sep : list Z) : list Z :=
  match l with [] => [] | [x] => x | x :: l => x ++ sep ++ Join l sep end.
Definition one_of (l : list string) (s : list Z) : bool := existsb (says s) l.

Lemma says_spec s t : says s t = true <-> s = lit t.
Proof. unfold says, bytes_equal. apply bool_decide_eq_true. Qed.

Fixpoint trim_left_by (P : Z -> bool) (l : list Z) : list Z :=
  match l with
  | [] => []
  | c :: l' => if P c then trim_left_by P l' else l
  end.
Definition trim_by (P : Z -> bool) (l : list Z) : list Z :=
  reverse (trim_left_by P (reverse (trim_left_by P l))).

(** [strings.Contains] *)
Definition contains (s part : list Z) : bool :=
  match find_sub part s with Some _ => true | None => false end.

(** [strings.Split(s, sep)] of a one-character separator. *)
Fixpoint split_on (sep : Z) (s cur : list Z) : list (list Z) :=
  match s with
  | [] => [cur]
  | c :: s => if c =? sep then cur :: split_on sep s [] else split_on sep s (cur ++ [c])
  end.
Definition Split (s : list Z) (sep : Z) : list (list Z) := split_on sep s [].

Section unicode.
Context `{Unicode}.

(** [unicode.ToLower] *)
Definition to_lower (c : Z) : Z :=
  if is_upper c then c + 32 else if c <? 128 then c else lower_rune c.
(** [unicode.IsSpace] *)
Definition is_space (c : Z) : bool :=
  if c <? 128 then (((9 <=? c) && (c <=? 13)) || (c =? 32))%bool else space_rune c.
(** [unicode.IsLetter(c) || unicode.IsDigit(c)] *)
Definition is_word (c : Z) : bool :=
  if c <? 128 then (is_upper c || is_lower c || is_digit c)%bool else word_rune c.

(** [strings.ToLower] and [strings.TrimSpace] *)
Definition ToLower (s : list Z) : list Z := map to_lower s.
Definition TrimSpace (s : list Z) : list Z := trim_by is_space s.

Definition fold_eq (a b : Z) : bool :=
  ((a =? b) ||
   (let lo := Z.min a b in let hi := Z.max a b in
    if hi <? 128 then is_upper lo && (hi =? lo + 32) else fold_rune lo hi))%bool.

(** [strings.EqualFold] *)
Fixpoint EqualFold (a b : list Z) : bool :=
  match a, b with
  | [], [] => true
  | x :: a, y :: b => (fold_eq x y && EqualFold a b)%bool
  | _, _ => false
  end.

Lemma EqualFold_refl s : EqualFold s s = true.
Proof. induction s as [| c s IH]; simpl; [done |]. unfold fold_eq. by rewrite Z.eqb_refl, IH. Qed.

Lemma fold_eq_sym a b : fold_eq a b = fold_eq b a.
Proof. unfold fold_eq. by rewrite Z.eqb_sym, Z.min_comm, Z.max_comm. Qed.

Lemma EqualFold_sym a b : EqualFold a b = EqualFold b a.
Proof. revert b. induction a as [| x a IH]; intros [| y b]; simpl; [done.. |]. by rewrite fold_eq_sym, IH. Qed.
End unicode.

(** ** [sort.SliceStable] *)

Section sort_by.
Context {A : Type} (less : A -> A -> bool).

Fixpoint insert_by (x : A) (l : list A) : list A :=
  match l with
  | [] => [x]
  | y :: l' => if less x y then x :: l else y :: insert_by x l'
  end.
Definition sort_by (l : list A) : list A := fold_left (fun acc x => insert_by x acc) l [].
End sort_by.

(** A strict weak order, as [less] has to be. *)
Class WeakOrder {A : Type} (less : A -> A -> bool) : Prop := {
  less_asym x y : less x y = true -> less y x = false;
  less_neg_trans x y z : less y x = false -> less z y = false -> less z x = false;
}.

Section sort_by_lemmas.
Context {A : Type} (less : A -> A -> bool).

Lemma insert_by_perm x l : insert_by less x l ≡ₚ x :: l.
Proof.
  induction l as [| y l IH]; simpl; [done |]. destruct (less x y); [done |].
  rewrite IH. constructor.
Qed.

Lemma sort_by_acc_perm l acc : fold_left (fun acc x => insert_by less x acc) l acc ≡ₚ acc ++ l.
Proof.
  revert acc. induction l as [| x l IH]; intros acc; simpl; [by rewrite app_nil_r |].
  rewrite IH, insert_by_perm. apply Permutation_middle.
Qed.

Lemma sort_by_perm l : sort_by less l ≡ₚ l.
Proof. apply sort_by_acc_perm. Qed.

Context `{!WeakOrder less}.
Definition in_order (x y : A) : Prop := less y x = false.

Lemma insert_by_sorted x l : StronglySorted in_order l -> StronglySorted in_order (insert_by less x l).
Proof.
  induction 1 as [| y l Hl IH Hy]; simpl; [repeat constructor |].
  destruct (less x y) eqn:E.
  - constructor; [by constructor |]. apply Forall_cons. split; [by apply less_asym |].
    eapply Forall_impl; [exact Hy |]. intros z Hz. eapply less_neg_trans; [by apply less_asym | done].
  - constructor; [done |]. rewrite insert_by_perm. by apply Forall_cons.
Qed.

Lemma sort_by_sorted l : StronglySorted in_order (sort_by less l).
Proof.
  unfold sort_by. assert (StronglySorted in_order (@nil A)) as H by constructor. revert H.
  generalize (@nil A). induction l as [| x l IH]; intros acc Hacc; simpl; [done |].
  apply IH. by apply insert_by_sorted.
Qed.
End sort_by_lemmas.

(** ** Decimal numbers *)

Fixpoint digits_loop (fuel : nat) (n : Z) (acc : list Z) : list Z :=
  match fuel with
  | O => acc
  | S fuel => if n <? 10 then (48 + n) :: acc else digits_loop fuel (n / 10) ((48 + n mod 10) :: acc)
  end.
(** [strconv.FormatInt(n, 10)]; an [int64] has at most 19 digits. *)
Definition format_int (n : Z) : list Z :=
  if n <? 0 then 45 :: digits_loop 20 (- n) [] else digits_loop 20 n [].

(** [strconv.Atoi]: an optional sign and digits, in the range of an [int64]. *)
Fixpoint number (s : list Z) (acc : Z) : option Z :=
  match s with
  | [] => Some acc
  | c :: s => if is_digit c then number s (acc * 10 + (c - 48)) else None
  end.
Definition digits (s : list Z) : option Z := if bytes_equal s [] then None else number s 0.
Definition Atoi (s : list Z) : option Z :=
  let v := match s with
           | c :: s' => if c =? 45 then option_map Z.opp (digits s')
                        else if c =? 43 then digits s' else digits s
           | [] => None
           end in
  match v with
  | Some n => if ((- 2 ^ 63 <=? n) && (n <? 2 ^ 63))%bool then Some n else None
  | None => None
  end.

(** ** Comparing *)

(** [a < b] of two texts: the order of UTF-8 bytes is that of the code points. *)
Fixpoint text_ltb (a b : list Z) : bool :=
  match a, b with
  | [], _ :: _ => true
  | x :: a, y :: b => ((x <? y) || ((x =? y) && text_ltb a b))%bool
  | _, [] => false
  end.
Lemma text_ltb_irrefl a : text_ltb a a = false.
Proof. induction a as [| x a IH]; [done |]. cbn. by rewrite IH, Z.ltb_irrefl, Z.eqb_refl. Qed.
Lemma text_ltb_trans a b c : text_ltb a b = true -> text_ltb b c = true -> text_ltb a c = true.
Proof.
  revert b c. induction a as [| x a IH]; intros [| y b] [| z c]; cbn; try done.
  rewrite !orb_true_iff, !andb_true_iff, !Z.ltb_lt, !Z.eqb_eq. intros [H1 | [-> H1]] [H2 | [-> H2]]; [left; lia.. | right; eauto].
Qed.
Lemma text_ltb_total a b : text_ltb a b = true \/ a = b \/ text_ltb b a = true.
Proof.
  revert b. induction a as [| x a IH]; intros [| y b]; cbn; [auto.. |]. rewrite !orb_true_iff, !andb_true_iff, !Z.ltb_lt, !Z.eqb_eq.
  destruct (Z.lt_trichotomy x y) as [Hl | [-> | Hl]]; [auto | | auto]. destruct (IH b) as [Hb | [-> | Hb]]; auto.
Qed.

(** An order by one thing and, where it does not tell, by another *)
Definition then_by {A} (less1 less2 : A -> A -> bool) (x y : A) : bool :=
  if less1 x y then true else if less1 y x then false else less2 x y.
(** Orders by a number, by what holds first and by a text *)
Definition by_number {A} (f : A -> Z) (x y : A) : bool := f x <? f y.
Definition true_first {A} (f : A -> bool) (x y : A) : bool := (f x && negb (f y))%bool.
Definition by_text {A} (f : A -> list Z) (x y : A) : bool := text_ltb (f x) (f y).

#[export] Instance then_by_weak {A} (less1 less2 : A -> A -> bool) : WeakOrder less1 -> WeakOrder less2 -> WeakOrder (then_by less1 less2).
Proof.
  intros W1 W2. unfold then_by. split.
  - intros x y. destruct (less1 x y) eqn:E1; [by rewrite (less_asym _ _ E1) |]. destruct (less1 y x) eqn:E2; [done |]. apply less_asym.
  - intros x y z. destruct (less1 y x) eqn:E1; [done |]. destruct (less1 z y) eqn:E3; [done |]. rewrite (less_neg_trans _ _ _ E1 E3).
    destruct (less1 x z) eqn:E6; [done |]. destruct (less1 x y) eqn:E2; [by rewrite (less_neg_trans _ _ _ E3 E6) in E2 |].
    destruct (less1 y z) eqn:E4; [by rewrite (less_neg_trans _ _ _ E6 E1) in E4 |]. by apply less_neg_trans.
Qed.
#[export] Instance by_number_weak {A} (f : A -> Z) : WeakOrder (by_number f).
Proof. unfold by_number. split; intros; lia. Qed.
#[export] Instance true_first_weak {A} (f : A -> bool) : WeakOrder (true_first f).
Proof. unfold true_first. split; [intros x y; by destruct (f x), (f y) | intros x y z; by destruct (f x), (f y), (f z)]. Qed.
#[export] Instance by_text_weak {A} (f : A -> list Z) : WeakOrder (by_text f).
Proof.
  unfold by_text. split.
  - intros x y E. destruct (text_ltb (f y) (f x)) eqn:E2; [| done]. pose proof (text_ltb_trans _ _ _ E E2) as E3. by rewrite text_ltb_irrefl in E3.
  - intros x y z E1 E2. destruct (text_ltb (f z) (f x)) eqn:E; [| done]. destruct (text_ltb_total (f x) (f y)) as [H | [H | H]]; [| | congruence].
    + by rewrite (text_ltb_trans _ _ _ E H) in E2.
    + by rewrite H, E2 in E.
Qed.

(** The first of a sorted list: nothing of it comes before. *)
Lemma sort_by_head {A} (less : A -> A -> bool) `{!WeakOrder less} (l : list A) x rest : sort_by less l = x :: rest ->
  x ∈ l /\ forall y, y ∈ l -> less y x = false.
Proof.
  intros E. assert (forall y, y ∈ l <-> y ∈ x :: rest) as Hp by (intros y; by rewrite <- E, sort_by_perm). split; [apply Hp; by left |].
  intros y Hy. apply Hp in Hy. pose proof (sort_by_sorted less l) as Hs. rewrite E in Hs. apply StronglySorted_inv in Hs as [_ Hs]. apply elem_of_cons in Hy as [-> | Hy].
  - destruct (less x x) eqn:Ex; [| done]. by pose proof (less_asym _ _ Ex); congruence.
  - rewrite Forall_forall in Hs. by apply Hs.
Qed.

(** ** Instants and durations *)

Definition Second : Z := 1000000000.
Definition Minute : Z := 60 * Second.
Definition Hour : Z := 60 * Minute.

(** [time.Duration(n) * unit]: an [int64] product. *)
Definition dur (n unit : Z) : Z := int64 (n * unit).

(** [t.Sub(u)] is held to the range of a [time.Duration]. *)
Definition sub_time (t u : Z) : Z := Z.max (- 2 ^ 63) (Z.min (2 ^ 63 - 1) (t - u)).

(** [t.IsZero()] *)
Definition IsZero (t : Z) : bool := t =? 0.

(** Seconds from the zero time to 1970. *)
Definition unix_epoch : Z := 62135596800.
(** [t.Unix()] *)
Definition unix (t : Z) : Z := t / Second - unix_epoch.
Definition of_unix (s : Z) : Z := (s + unix_epoch) * Second.

(** The proleptic Gregorian date of a day counted from 1970-01-01. *)
Definition civil (day : Z) : Z * Z * Z :=
  let z := day + 719468 in
  let era := z / 146097 in
  let doe := z mod 146097 in
  let yoe := (doe - doe / 1460 + doe / 36524 - doe / 146096) / 365 in
  let doy := doe - (365 * yoe + yoe / 4 - yoe / 100) in
  let mp := (5 * doy + 2) / 153 in
  let d := doy - (153 * mp + 2) / 5 + 1 in
  let m := if mp <? 10 then mp + 3 else mp - 9 in
  let y := yoe + era * 400 + (if m <=? 2 then 1 else 0) in
  (y, m, d).

Definition two (n : Z) : list Z := [48 + n / 10; 48 + n mod 10].
Definition four (n : Z) : list Z := two (n / 100) ++ two (n mod 100).

(** [t.UTC().Format(time.RFC3339)], of a year of four digits. *)
Definition rfc3339 (t : Z) : list Z :=
  let s := unix t in
  let ' (y, m, d) := civil (s / 86400) in
  let r := s mod 86400 in
  four y ++ [45] ++ two m ++ [45] ++ two d ++ [84] ++
  two (r / 3600) ++ [58] ++ two (r mod 3600 / 60) ++ [58] ++ two (r mod 60) ++ [90].

Example civil_2000 : civil 11016 = (2000, 2, 29). Proof. reflexivity. Qed.
Example civil_1969 : civil (-1) = (1969, 12, 31). Proof. reflexivity. Qed.
Example rfc3339_example : rfc3339 (of_unix 1767268799) = lit "2026-01-01T11:59:59Z".
Proof. reflexivity. Qed.

Section zone.
Context `{Zone}.

(** The clock on the wall: seconds of local time counted like Unix seconds. *)
Definition local_seconds (t : Z) : Z :=
  let s := unix t in let ' (offset, _, _) := lookup_zone s in s + offset.
(** [t.In(time.Local)]: the day (counted from 1970-01-01), its [Weekday()],
    [Hour()] and [Minute()]. *)
Definition local_day (t : Z) : Z := local_seconds t / 86400.
Definition weekday (day : Z) : Z := (day + 4) mod 7.
Definition local_hour (t : Z) : Z := local_seconds t mod 86400 / 3600.
Definition local_minute (t : Z) : Z := local_seconds t mod 3600 / 60.

(** [time.Date(y, m, d, hour, min, 0, 0, time.Local)], the date given as its
    day: [Date] counts a day past the month's end on from it, so a date and
    its day stand for each other. *)
Definition local_date (day hour minute : Z) : Z :=
  let s := day * 86400 + hour * 3600 + minute * 60 in
  let ' (offset, start, end_) := lookup_zone s in
  let offset :=
    if offset =? 0 then 0
    else
      let utc := s - offset in
      if ((utc <? start) || (end_ <=? utc))%bool
      then (let ' (o, _, _) := lookup_zone utc in o) else offset in
  of_unix (s - offset).
End zone.

(** Text and clocks of the examples: no letter past ASCII has a case, and the
    local time is UTC. *)
Definition ascii_unicode : Unicode :=
  {| lower_rune c := c; space_rune _ := false; word_rune _ := false; fold_rune _ _ := false |}.
Definition utc : Zone := {| lookup_zone _ := (0, - 2 ^ 63, 2 ^ 63) |}.
