(* ===== verification/GoFloat.v ===== *)
(** Go's [float64] as the Standard Library's binary64, and the text of one.

    A [float64] is a [spec_float] of 53 bits, every operation rounded to the
    nearest, ties to even, as the language says. *)
From Stdlib Require Export SpecFloat.
From S2P Require Import Prelude GoNum GoText.
Local Open Scope Z_scope.
Local Open Scope go_scope.

Definition fadd : spec_float -> spec_float -> spec_float := SFadd 53 1024.
Definition fsub : spec_float -> spec_float -> spec_float := SFsub 53 1024.
Definition fmul : spec_float -> spec_float -> spec_float := SFmul 53 1024.
Definition fdiv : spec_float -> spec_float -> spec_float := SFdiv 53 1024.

(** [float64(i)] of an integer, and its comparisons *)
Definition float64 (i : Z) : spec_float := binary_normalize 53 1024 i 0 false.
Definition f0 : spec_float := S754_zero false.

(** [strconv.ParseFloat] of a text that is not plain digits with a point (an
    exponent, hexadecimal, an infinity), and the [int64] of a [float64] past
    its range, which Go leaves to the machine. *)
Class FloatText := { parse_other : list Z -> option spec_float; wide_int : spec_float -> Z }.

(** The digits of a plain decimal, without its point, and how many follow it. *)
Fixpoint mantissa (s : list Z) (acc : Z) (dot : bool) (frac : Z) (any : bool) : option (Z * Z) :=
  match s with
  | [] => if any then Some (acc, frac) else None
  | c :: s =>
      if c =? 46 then (if dot then None else mantissa s acc true frac any)
      else if is_digit c then mantissa s (acc * 10 + (c - 48)) dot (if dot then frac + 1 else frac) true
      else None
  end.
Definition plain_decimal (s : list Z) : option (bool * Z * Z) :=
  let ' (neg, s) := match s with
                    | c :: s' => if c =? 45 then (true, s') else if c =? 43 then (false, s') else (false, s)
                    | [] => (false, s)
                    end in
  match mantissa s 0 false 0 false with Some (m, k) => Some (neg, m, k) | None => None end.

(** [m / 10 ^ k] to the nearest [float64]: a quotient of more than 53 bits, and
    a last bit for what is left of the division. *)
Definition nearest (neg : bool) (m k : Z) : spec_float :=
  if m =? 0 then S754_zero neg else
  let s := Z.max 0 (64 + Z.log2 (10 ^ k) - Z.log2 m) in
  let q := m * 2 ^ s / 10 ^ k in
  let q := 2 * q + (if m * 2 ^ s mod 10 ^ k =? 0 then 0 else 1) in
  binary_normalize 53 1024 (if neg then - q else q) (- (s + 1)) neg.

Section text.
Context `{FloatText}.

Definition ParseFloat (s : list Z) : option spec_float :=
  match plain_decimal s with
  | Some (neg, m, k) => match nearest neg m k with S754_infinity _ => None | f => Some f end
  | None => parse_other s
  end.

(** [time.Duration(f)] *)
Definition truncated (f : spec_float) : Z :=
  match f with
  | S754_zero _ => 0
  | S754_finite neg m e =>
      let v := if 0 <=? e then Z.pos m * 2 ^ e else Z.pos m / 2 ^ (- e) in
      if v <? 2 ^ 63 then (if neg then - v else v) else wide_int f
  | _ => wide_int f
  end.
End text.

(** [n / d] to the nearest integer, ties to even, and ties away from zero *)
Definition half_even (n d : Z) : Z :=
  let q := n / d in let r := n mod d in
  if ((d <? 2 * r) || ((2 * r =? d) && Z.odd q))%bool then q + 1 else q.
Definition half_up (n d : Z) : Z := (2 * n + d) / (2 * d).
Definition scaled (round : Z -> Z -> Z) (m e by_ : Z) : Z :=
  if 0 <=? e then m * by_ * 2 ^ e else round (m * by_) (2 ^ (- e)).

(** [strconv.FormatFloat(f, 'f', 3, 64)], below [10 ^ 20] *)
Definition fixed3 (f : spec_float) : list Z :=
  let text (n : Z) := dec (n / 1000) ++ [46] ++ padded 3 (n mod 1000) in
  let sign (neg : bool) := if neg then [45] else [] in
  match f with
  | S754_zero neg => sign neg ++ text 0
  | S754_finite neg m e => sign neg ++ text (scaled half_even (Z.pos m) e 1000)
  | S754_infinity neg => if neg then lit "-Inf" else lit "+Inf"
  | S754_nan => lit "NaN"
  end.

(** [int64(math.Round(f))] *)
Definition round_int `{FloatText} (f : spec_float) : Z :=
  match f with
  | S754_zero _ => 0
  | S754_finite neg m e =>
      let v := scaled half_up (Z.pos m) e 1 in
      if v <? 2 ^ 63 then (if neg then - v else v) else wide_int f
  | _ => wide_int f
  end.

(** A constant of the source, [m / 10 ^ k]. *)
Definition const (m k : Z) : spec_float := nearest false m k.
