(* ===== verification/Dvr.v ===== *)
(** The recorder's data and its decisions about one airing: when a recording
    starts and for how long ([server/internal/dvr/start.go], [extend.go],
    [tick.go]), what the library already has ([rules.go]), and the slots of a
    manual pass ([manual.go]); the rows are those of [store/dvr.go].

    An instant is nanoseconds after the zero time, a nil [*time.Time] is [None],
    a [float64] a [spec_float] of 53 bits. *)
From S2P Require Import Prelude GoText.
From Stdlib Require Import SpecFloat.
From stdpp Require Import sets list.
Local Open Scope Z_scope.
Local Open Scope go_scope.

(** ** Rows of the database *)

Module Air.
Record Airing := mk {
  ID : Z; ChannelID : Z;
  Title : list Z; Subtitle : list Z; Description : list Z; Category : list Z; ProgramID : list Z;
  New : bool;
  ImageURL : list Z; ImageWidth : Z; ImageHeight : Z;
  Season : Z; Episode : Z; EpisodeLabel : list Z; SeriesID : list Z;
  Rating : list Z; GameID : list Z; GuideSource : list Z;
  Start : Z; End_ : Z;
  Simulcast : Z; ManualPass : Z;
}.
#[global] Instance Airing_eq_dec : EqDecision Airing.
Proof. solve_decision. Defined.
End Air.

Module Pas.
Record Pass := mk {
  ID : Z; Title : list Z; ChannelID : Z; Kind : list Z;
  PadBefore : Z; PadAfter : Z; Priority : Z;
  Episodes : list Z; KeepMode : list Z; KeepCount : Z; LimitCount : Z; Rerecord : bool;
  Commercials : bool;
  TimeStart : list Z; TimeEnd : list Z; MatchKind : list Z; Days : list Z;
  AiringStart : Z; Duration : Z;
}.
#[global] Instance Pass_eq_dec : EqDecision Pass.
Proof. solve_decision. Defined.
End Pas.

Module Rec.
Record Recording := mk {
  ID : Z; ChannelID : Z; Title : list Z; Subtitle : list Z; ProgramID : list Z;
  Status : list Z; StartedAt : Z; EndsAt : option Z; EndedAt : option Z;
  Position : spec_float; Duration : spec_float;
  PassID : Z; Watched : Z; WatchedAt : option Z; ProgressAt : option Z;
  (** [Health]: nil, or its [Damaged]. *)
  Health : option bool;
  Partial : bool; Keep : bool;
}.
End Rec.

(** ** Floats *)

Definition f64 (m e : Z) : spec_float := binary_normalize 53 1024 m e false.
Definition f64_sub := SFsub 53 1024.
Definition f64_div := SFdiv 53 1024.
Definition f64_leb (a b : spec_float) : bool := SFleb a b.
Definition f64_ltb (a b : spec_float) : bool := SFltb a b.
(** The constant [0.9] is the nearest double. *)
Definition nine_tenths : spec_float := f64 8106479329266893 (-53).

(** ** Methods of a recording *)

(** [Recording.Damaged], [Incomplete], [Played] and [WatchedSince] *)
Definition Damaged (r : Rec.Recording) : bool :=
  match Rec.Health r with Some d => d | None => false end.
Definition Incomplete (r : Rec.Recording) : bool :=
  (Rec.Partial r || bytes_equal (Rec.Status r) (lit "failed")
   || bytes_equal (Rec.Status r) (lit "interrupted"))%bool.
Definition Played (r : Rec.Recording) : bool :=
  if Rec.Watched r =? 2 then false
  else if Rec.Watched r =? 1 then true
  else if (f64_ltb (Rec.Duration r) (f64 10 0) || f64_ltb (Rec.Position r) (f64 1 0))%bool then false
  else (f64_leb (f64_sub (Rec.Duration r) (f64 15 0)) (Rec.Position r)
        || (f64_ltb (f64 0 0) (Rec.Duration r)
            && f64_leb nine_tenths (f64_div (Rec.Position r) (Rec.Duration r))))%bool.

(** ** Starting on time: [start.go] *)

Definition recordLead : Z := 90 * Second.
Definition liveExtend : Z := 10 * Minute.
Definition postTail : Z := 8 * Minute.
Definition overtimeAfter : Z := 3 * Hour + 15 * Minute.
Definition sportsPad : Z := 60 * Minute.
Definition shortPad : Z := 30 * Minute.
Definition longPad : Z := 90 * Minute.

Section text.
Context `{Unicode}.

Definition has (text : list Z) (words : list string) : bool :=
  existsb (fun w => contains text (lit w)) words.

(** "fútbol" *)
Definition futbol : list Z := [102; 250; 116; 98; 111; 108].

Definition sportsTail (text : list Z) : Z :=
  let text := ToLower text in
  if has text ["sports talk"; "sports non-event"; "sports news"; "pregame"; "pre-game"; "postgame";
               "post-game"; "highlights"; "magazine"]%string then 0
  else if has text ["golf"; "tennis"; "racing"; "motorsport"; "nascar"; "indycar"; "formula 1";
                    "formula one"; "cricket"]%string then longPad
  else if has text ["football"; "baseball"; "softball"]%string then sportsPad
  else if (has text ["basketball"; "hockey"; "soccer"]%string || contains text futbol
           || has text ["futbol"; "volleyball"; "lacrosse"; "rugby"]%string)%bool then shortPad
  else if has text ["sport"]%string then sportsPad
  else 0.

Definition SportsTail (airing : Air.Airing) : Z :=
  if (negb (bytes_equal (Air.GameID airing) []) || negb (Air.ManualPass airing =? 0))%bool then 0
  else
    let text := Air.Category airing in
    let text := if contains (ToLower text) (lit "sport") then text ++ [32] ++ Air.Title airing else text in
    sportsTail text.

(** [int(d.Minutes())] is the whole minutes of [d]: the clamp below leaves
    nothing of a duration long enough for [float64] to round it up. *)
Definition recordMinutes (pass : Pas.Pass) (airing : Air.Airing) (now : Z) : Z :=
  let tail := int64 (dur (Pas.PadAfter pass) Minute + SportsTail airing) in
  let minutes := Z.quot (sub_time (Air.End_ airing + tail) now) Minute + 1 in
  let minutes := if minutes <? 1 then 1 else minutes in
  if 8 * 60 <? minutes then 8 * 60 else minutes.

Definition lead_of (pass : Pas.Pass) : Z :=
  let extra := dur (Pas.PadBefore pass) Minute in
  if recordLead <? extra then extra else recordLead.

Definition StartDecision (pass : Pas.Pass) (airing : Air.Airing) (now : Z) : bool * Z :=
  let lead := lead_of pass in
  if ((now <? Air.Start airing - lead) || negb (now <? Air.End_ airing))%bool then (false, 0)
  else if Air.Start airing + recordLead <? now then (false, 0)
  else (true, recordMinutes pass airing now).

Definition JoinDecision (pass : Pas.Pass) (airing : Air.Airing) (now held : Z) : bool * Z :=
  if (IsZero held || (Air.Start airing <? held) || negb (now <? Air.End_ airing)
      || negb (Air.Start airing + recordLead <? now))%bool then (false, 0)
  else (true, recordMinutes pass airing now).
End text.

(** ** Following a game: [extend.go] *)

Record Game := mkGame { State : list Z; Completed : bool; game_start : Z }.

(** What [NextExtension]'s note says. *)
Inductive note : Type :=
  | over
  | not_started (added : Z)
  | overtime (added : Z)
  | still_on (added : Z).
Record Extend := mkExtend { ext_id : Z; Until : Z; Note : note }.

Definition NextExtension (id ends : Z) (game : Game) (found : bool) (now : Z) : option Extend :=
  if negb found then None
  else if (bytes_equal (State game) (lit "post") || Completed game)%bool then
    let stop := now + postTail in
    if (negb (IsZero ends) && (now <? ends) && negb (stop + Minute <? ends))%bool then None
    else Some (mkExtend id stop over)
  else if (negb (bytes_equal (State game) (lit "in")) && negb (bytes_equal (State game) (lit "pre")))%bool then None
  else if (bytes_equal (State game) (lit "pre") && negb (game_start game <? now))%bool then None
  else
    let horizon := now + liveExtend in
    if (negb (IsZero ends) && negb (ends <? horizon))%bool then None
    else
      let added := liveExtend / Minute in
      let added := if (negb (IsZero ends) && (now <? ends))%bool then
                     let a := Z.quot (sub_time horizon ends) Minute in if a <? 1 then 1 else a
                   else added in
      let n := if bytes_equal (State game) (lit "pre") then not_started added
               else if game_start game + overtimeAfter <? now then overtime added
               else still_on added in
      Some (mkExtend id horizon n).

(** ** Not starting twice: [tick.go] *)

Section tick.
Context `{Unicode}.

Definition sameSlot (rec : Rec.Recording) (airing : Air.Airing) : bool :=
  if negb (Rec.ChannelID rec =? Air.ChannelID airing) then false
  else if negb (Air.ManualPass airing =? 0) then Rec.PassID rec =? Air.ManualPass airing
  else EqualFold (Rec.Title rec) (Air.Title airing).

(** The recordings made for this airing: those of its slot that began inside
    the lead or while it was on. *)
Definition of_airing (pass : Pas.Pass) (airing : Air.Airing) (rec : Rec.Recording) : bool :=
  (sameSlot rec airing && (Rec.StartedAt rec <? Air.End_ airing)
   && negb (Rec.StartedAt rec <? Air.Start airing - lead_of pass))%bool.

Definition attempted (recs : list Rec.Recording) (pass : Pas.Pass) (airing : Air.Airing) : bool :=
  existsb (of_airing pass airing) recs.

Definition maxRetries : Z := 3.

(** The loop of [RetryDue]: [None] is its early [return false], otherwise the
    tries and when the last one ended. *)
Fixpoint retry_loop (recs : list Rec.Recording) (pass : Pas.Pass) (airing : Air.Airing)
    (tries last : Z) : option (Z * Z) :=
  match recs with
  | [] => Some (tries, last)
  | rec :: recs =>
      if negb (of_airing pass airing rec) then retry_loop recs pass airing tries last
      else if (negb (bytes_equal (Rec.Status rec) (lit "failed"))
               && negb (bytes_equal (Rec.Status rec) (lit "interrupted")))%bool then None
      else
        let ended := match Rec.EndedAt rec with Some e => e | None => Rec.StartedAt rec end in
        retry_loop recs pass airing (tries + 1) (if last <? ended then ended else last)
  end.

Definition RetryDue (recs : list Rec.Recording) (pass : Pas.Pass) (airing : Air.Airing) (now : Z) : bool :=
  match retry_loop recs pass airing 0 0 with
  | None => false
  | Some (tries, last) =>
      if ((tries =? 0) || (maxRetries <? tries) || (sub_time now last <? dur tries Minute))%bool then false
      else
        let end_ := Air.End_ airing + int64 (dur (Pas.PadAfter pass) Minute + SportsTail airing) in
        Minute <=? sub_time end_ now
  end.

Definition already (recs : list Rec.Recording) (airing : Air.Airing) : bool :=
  existsb (fun rec =>
    (bytes_equal (Rec.Status rec) (lit "recording") && sameSlot rec airing
     && ((Air.ManualPass airing =? 0) || (Rec.StartedAt rec <? Air.End_ airing)))%bool) recs.
End tick.

(** ** What the library has: [rules.go] *)

Section rules.
Context `{Unicode}.

(** [store.EpisodeKey] *)
Definition EpisodeKey (programID title subtitle : list Z) (channelID : Z) : list Z :=
  if negb (bytes_equal (TrimSpace programID) []) then lit "id:" ++ TrimSpace programID
  else if bytes_equal (TrimSpace subtitle) [] then []
  else lit "ep:" ++ ToLower (TrimSpace title) ++ [124] ++ ToLower (TrimSpace subtitle) ++ [124]
       ++ format_int channelID.

(** [ManualSkipKey] and [SkipParts] *)
Definition ManualSkipKey (passID : Z) : list Z := lit "manual:" ++ format_int passID.
Definition SkipParts (air : Air.Airing) : list Z * list Z :=
  let starts := rfc3339 (Air.Start air) in
  if negb (Air.ManualPass air =? 0) then (ManualSkipKey (Air.ManualPass air), starts)
  else
    let key := EpisodeKey (Air.ProgramID air) (Air.Title air) (Air.Subtitle air) (Air.ChannelID air) in
    let key := if bytes_equal key [] then EpisodeKey (lit "once") (Air.Title air) starts (Air.ChannelID air)
               else key in
    (key, starts).

Definition maxDamaged : Z := 2.

Fixpoint have_loop (recs : list Rec.Recording) (key : list Z) (damaged : Z) : bool + Z :=
  match recs with
  | [] => inr damaged
  | rec :: recs =>
      if (Incomplete rec || negb (bytes_equal
            (EpisodeKey (Rec.ProgramID rec) (Rec.Title rec) (Rec.Subtitle rec) (Rec.ChannelID rec)) key))%bool
      then have_loop recs key damaged
      else if negb (Damaged rec) then inl true
      else have_loop recs key (damaged + 1)
  end.
(** [seen] maps a key to its flag, as the Go map. *)
Definition haveEpisode (pass : Pas.Pass) (recs : list Rec.Recording) (seen : gmap (list Z) bool) (key : list Z) : bool :=
  match have_loop recs key 0 with
  | inl b => b
  | inr damaged =>
      if 0 <? damaged then maxDamaged <=? damaged
      else match seen !! key with
           | Some true => negb (Pas.Rerecord pass)
           | _ => false
           end
  end.

Definition sameShow (pass : Pas.Pass) (rec : Rec.Recording) : bool :=
  if negb (Rec.PassID rec =? 0) then Rec.PassID rec =? Pas.ID pass
  else if (bytes_equal (Pas.Kind pass) (lit "team") || bytes_equal (Pas.Kind pass) (lit "once")
           || bytes_equal (Pas.Kind pass) (lit "manual"))%bool then false
  else
    let kind := ToLower (TrimSpace (Pas.MatchKind pass)) in
    if (negb (bytes_equal kind []) && negb (bytes_equal kind (lit "title")))%bool then false
    else if (negb (Pas.ChannelID pass =? 0) && negb (Pas.ChannelID pass =? Rec.ChannelID rec))%bool then false
    else EqualFold (Rec.Title rec) (Pas.Title pass).

Definition unwatchedCount (recs : list Rec.Recording) (pass : Pas.Pass) : Z :=
  zlen (List.filter (fun rec => negb (Incomplete rec || negb (sameShow pass rec)) && negb (Played rec))%bool recs).

(** *** [KeepVictims] *)

Definition swap (l : list Rec.Recording) (i j : nat) : list Rec.Recording :=
  match l !! i, l !! j with
  | Some a, Some b => <[j := a]> (<[i := b]> l)
  | _, _ => l
  end.
(** [for j := i + 1; j < len(mine); j++] *)
Fixpoint exchange_row (n i j : nat) (l : list Rec.Recording) : list Rec.Recording :=
  match n with
  | O => l
  | S n =>
      let l := match l !! j, l !! i with
               | Some rj, Some ri => if Rec.StartedAt ri <? Rec.StartedAt rj then swap l i j else l
               | _, _ => l
               end in
      exchange_row n i (S j) l
  end.
Fixpoint exchange_sort (n i : nat) (l : list Rec.Recording) : list Rec.Recording :=
  match n with
  | O => l
  | S n => exchange_sort n (S i) (exchange_row (length l - S i) i (S i) l)
  end.

Definition keep_mine (pass : Pas.Pass) (recs : list Rec.Recording) : list Rec.Recording :=
  List.filter (fun rec => negb (Rec.Keep rec || bytes_equal (Rec.Status rec) (lit "recording")
                               || Incomplete rec || negb (sameShow pass rec)))%bool recs.

Definition KeepVictims (pass : Pas.Pass) (recs : list Rec.Recording) : list Z :=
  let mine := keep_mine pass recs in
  let mode := ToLower (TrimSpace (Pas.KeepMode pass)) in
  if bytes_equal mode (lit "unwatched") then map Rec.ID (List.filter Played mine)
  else if bytes_equal mode (lit "last") then
    let n := if Pas.KeepCount pass <? 1 then 1 else Pas.KeepCount pass in
    if zlen mine <=? n then []
    else map Rec.ID (drop (Z.to_nat n) (exchange_sort (length mine) 0 mine))
  else [].
End rules.

(** ** Recordings by the clock: [manual.go], [store.ManualStart] *)

Section manual.
Context `{Unicode, Zone}.

(** [store.clock]: a length and an index count bytes, which for a value that
    passes are its characters. *)
Definition clock (v : list Z) : option (Z * Z) :=
  let v := TrimSpace v in
  match v with
  | [a; b; c; d; e] =>
      if negb (c =? 58) then None
      else match Atoi [a; b], Atoi [d; e] with
           | Some h, Some m =>
               if ((h <? 0) || (23 <? h) || (m <? 0) || (59 <? m))%bool then None else Some (h, m)
           | _, _ => None
           end
  | _ => None
  end.

Definition ManualStart (p : Pas.Pass) (day : Z) : option Z :=
  match clock (Pas.TimeStart p) with
  | None => None
  | Some (hour, minute) =>
      let start := local_date day hour minute in
      let short := (hour * 60 + minute) - (local_hour start * 60 + local_minute start) in
      Some (if ((0 <? short) && (local_day start =? day))%bool then start + dur short Minute else start)
  end.

Definition onDay (days : list Z) (day : Z) : bool :=
  (bytes_equal days [] || existsb (fun d => d =? day) days)%bool.

Definition slot_on (length_ from to start : Z) : bool := ((from <? start + length_) && (start <? to))%bool.

(** The walk over local days, each at noon. *)
Fixpoint day_walk (n : nat) (pass : Pas.Pass) (length_ from to day : Z) : option (list Z) :=
  if to + 24 * Hour <? day then Some []
  else
    match n with
    | O => None
    | S n =>
        match day_walk n pass length_ from to (local_date (local_day day + 1) 12 0) with
        | None => None
        | Some rest =>
            if negb (onDay (Pas.Days pass) (weekday (local_day day))) then Some rest
            else match ManualStart pass (local_day day) with
                 | Some start => Some (if slot_on length_ from to start then start :: rest else rest)
                 | None => Some rest
                 end
        end
    end.

(** A noon is at least half a day after the one before. *)
Definition walk_fuel (first to : Z) : nat := Z.to_nat ((to - first) / (12 * Hour) + 6).

Definition ManualStarts (pass : Pas.Pass) (from to : Z) : option (list Z) :=
  let length_ := dur (Pas.Duration pass) Minute in
  if bytes_equal (Pas.Days pass) [] then
    if (IsZero (Pas.AiringStart pass) || negb (slot_on length_ from to (Pas.AiringStart pass)))%bool
    then Some [] else Some [Pas.AiringStart pass]
  else
    let first := from + int64 (- length_ - 24 * Hour) in
    day_walk (walk_fuel first to) pass length_ from to (local_date (local_day first) 12 0).

Definition manualID (passID start : Z) : Z :=
  let passID := if passID <? 0 then int64 (- passID) else passID in
  int64 (- (passID * 100000000 + Z.quot (unix start) 60)).

(** [overlapping] *)
Fixpoint overlap_loop (airings : list Air.Airing) (channelID start end_ : Z)
    (best : option Air.Airing) (most : Z) : option Air.Airing :=
  match airings with
  | [] => if 0 <? most then best else None
  | air :: airings =>
      if (negb (Air.ChannelID air =? channelID) || negb (Air.ManualPass air =? 0)
          || negb (start <? Air.End_ air) || negb (Air.Start air <? end_))%bool
      then overlap_loop airings channelID start end_ best most
      else
        let shared := sub_time (Z.min (Air.End_ air) end_) (Z.max (Air.Start air) start) in
        if most <? shared then overlap_loop airings channelID start end_ (Some air) shared
        else overlap_loop airings channelID start end_ best most
  end.
Definition overlapping (airings : list Air.Airing) (channelID start end_ : Z) : option Air.Airing :=
  overlap_loop airings channelID start end_ None 0.

Definition manualAiring (pass : Pas.Pass) (start : Z) (airings : list Air.Airing) : Air.Airing :=
  let end_ := start + dur (Pas.Duration pass) Minute in
  let id := manualID (Pas.ID pass) start in
  match overlapping airings (Pas.ChannelID pass) start end_ with
  | None =>
      Air.mk id (Pas.ChannelID pass) (Pas.Title pass) [] [] [] [] false [] 0 0 0 0 [] [] [] [] []
        start end_ 0 (Pas.ID pass)
  | Some l =>
      Air.mk id (Pas.ChannelID pass)
        (if bytes_equal (Pas.Title pass) [] then Air.Title l else Pas.Title pass)
        (Air.Subtitle l) (Air.Description l) (Air.Category l) (Air.ProgramID l) (Air.New l)
        (Air.ImageURL l) (Air.ImageWidth l) (Air.ImageHeight l) (Air.Season l) (Air.Episode l)
        (Air.EpisodeLabel l) (Air.SeriesID l) (Air.Rating l) [] (Air.GuideSource l)
        start end_ 0 (Pas.ID pass)
  end.

Fixpoint manualAirings (passes : list Pas.Pass) (airings : list Air.Airing) (from to : Z)
    : option (list Air.Airing) :=
  match passes with
  | [] => Some []
  | pass :: passes =>
      match manualAirings passes airings from to with
      | None => None
      | Some rest =>
          if (negb (bytes_equal (Pas.Kind pass) (lit "manual")) || (Pas.ChannelID pass =? 0)
              || (Pas.Duration pass <? 1))%bool then Some rest
          else match ManualStarts pass from to with
               | None => None
               | Some starts => Some (map (fun s => manualAiring pass s airings) starts ++ rest)
               end
      end
  end.
End manual.

(** ** Tuners: [tuners.go] *)

(** [LastSeen] as [time.Parse] reads it: [None] when it cannot. *)
Record Device := mkDevice { TunerCount : Z; Retired : bool; LastSeen : option Z }.

Definition DeviceQuietAfter : Z := 15 * Minute.
(** [store.Device.Quiet] *)
Definition Quiet (d : Device) (now : Z) : bool :=
  if TunerCount d <=? 0 then false
  else match LastSeen d with
       | Some seen => DeviceQuietAfter <? sub_time now seen
       | None => false
       end.

Definition live_step (now : Z) (acc : Z * Z) (d : Device) : Z * Z :=
  let ' (live, kept) := acc in
  if ((TunerCount d <=? 0) || Retired d)%bool then acc
  else (if Quiet d now then live else live + TunerCount d, kept + TunerCount d).
Definition LiveTuners (devices : list Device) (now : Z) : Z :=
  let ' (live, kept) := fold_left (live_step now) devices (0, 0) in
  if 0 <? live then live else if 0 <? kept then kept else 2.

(** ** Properties of one airing's decisions *)

Section decisions.
Context `{Unicode}.

Lemma recordMinutes_bounds pass airing now : 1 <= recordMinutes pass airing now <= 480.
Proof. unfold recordMinutes. repeat case_match; lia. Qed.

(** A recording runs past the end, padding and tail included, unless it is cut
    at eight hours. *)
Lemma recordMinutes_covers pass airing now :
  let stop := Air.End_ airing + int64 (dur (Pas.PadAfter pass) Minute + SportsTail airing) in
  stop - now < 480 * Minute ->
  stop < now + recordMinutes pass airing now * Minute.
Proof.
  intros stop Hlong. unfold recordMinutes. fold stop.
  assert (stop - now < 0 \/ 0 <= stop - now) as [Hneg | Hpos] by lia.
  - set (m := Z.quot (sub_time stop now) Minute + 1).
    assert (0 < (if 8 * 60 <? (if m <? 1 then 1 else m) then 8 * 60 else if m <? 1 then 1 else m)) as Hm
      by (repeat case_match; lia).
    unfold Minute, Second in *. lia.
  - assert (sub_time stop now = stop - now) as ->
      by (unfold sub_time, Minute, Second in *; lia).
    rewrite Z.quot_div_nonneg by (unfold Minute, Second in *; lia).
    pose proof (Z.div_mod (stop - now) Minute ltac:(unfold Minute, Second; lia)) as Hd.
    pose proof (Z.mod_pos_bound (stop - now) Minute ltac:(unfold Minute, Second; lia)) as Hb.
    set (q := (stop - now) / Minute) in *.
    assert (0 <= q < 480) as Hq by (unfold Minute, Second in *; nia).
    replace (q + 1 <? 1) with false by lia. replace (8 * 60 <? q + 1) with false by lia. nia.
Qed.

(** A recording that starts by itself starts on time and runs to the end:
    it starts no earlier than the pass's padding (90 s at least) before the
    airing and no later than 90 s into it, while it is on, and for at least a
    minute and at most eight hours; unless eight hours cut it, it is still
    running when the airing, its padding and its sports tail are over. *)
Theorem start_covers (pass : Pas.Pass) (airing : Air.Airing) (now minutes : Z)
    (Hstart : StartDecision pass airing now = (true, minutes)) :
  Air.Start airing - Z.max recordLead (dur (Pas.PadBefore pass) Minute) <= now <= Air.Start airing + recordLead /\
  now < Air.End_ airing /\ 1 <= minutes <= 480 /\
  (let stop := Air.End_ airing + int64 (dur (Pas.PadAfter pass) Minute + SportsTail airing) in
   stop - now < 480 * Minute -> stop < now + minutes * Minute).
Proof.
  unfold StartDecision in Hstart.
  destruct (_ || _)%bool eqn:E1; [done |]. destruct (_ <? now) eqn:E2; [done |]. injection Hstart as <-.
  apply orb_false_iff in E1 as [E1 E3%negb_false_iff].
  split; [| split; [lia | split; [apply recordMinutes_bounds | apply recordMinutes_covers]]].
  unfold lead_of in E1. destruct (recordLead <? _) eqn:?; lia.
Qed.

(** The recordings of one airing, and when the last of them ended. *)
Definition tries_of (pass : Pas.Pass) (airing : Air.Airing) (recs : list Rec.Recording) : list Rec.Recording :=
  List.filter (of_airing pass airing) recs.
Definition ended_at (rec : Rec.Recording) : Z :=
  match Rec.EndedAt rec with Some e => e | None => Rec.StartedAt rec end.
Definition broke_off (rec : Rec.Recording) : bool :=
  (bytes_equal (Rec.Status rec) (lit "failed") || bytes_equal (Rec.Status rec) (lit "interrupted"))%bool.

Lemma retry_loop_spec recs pass airing tries last :
  retry_loop recs pass airing tries last =
    if forallb broke_off (tries_of pass airing recs)
    then Some (tries + zlen (tries_of pass airing recs),
               fold_left Z.max (map ended_at (tries_of pass airing recs)) last)
    else None.
Proof.
  revert tries last. induction recs as [| rec recs IH]; intros tries last; cbn [retry_loop].
  { cbn. by rewrite Z.add_0_r. }
  unfold tries_of in *. cbn [List.filter]. destruct (of_airing pass airing rec); cbn [negb]; [| apply IH].
  cbn [forallb map fold_left]. rewrite <- negb_orb. fold (broke_off rec).
  destruct (broke_off rec); cbn [negb andb]; [| done].
  rewrite IH. destruct (forallb _ _); [| done]. rewrite zlen_cons. do 2 f_equal; [lia |].
  fold (ended_at rec). f_equal. destruct (last <? ended_at rec) eqn:?; lia.
Qed.

(** Retries are bounded and spaced: an airing is tried again exactly when it
    was recorded before, every recording of it broke off, no more than three
    times, the last at least as many minutes ago as there were, and a minute
    or more of it is left. *)
Theorem retry_exact (recs : list Rec.Recording) (pass : Pas.Pass) (airing : Air.Airing) (now : Z) :
  let tries := tries_of pass airing recs in
  let stop := Air.End_ airing + int64 (dur (Pas.PadAfter pass) Minute + SportsTail airing) in
  RetryDue recs pass airing now = true <->
  Forall (fun rec => broke_off rec = true) tries /\ 1 <= zlen tries <= maxRetries /\
  (zlen tries * Minute <= sub_time now (fold_left Z.max (map ended_at tries) 0)) /\
  Minute <= sub_time stop now.
Proof.
  intros tries stop. unfold RetryDue. rewrite retry_loop_spec. fold tries stop.
  rewrite Forall_forall. setoid_rewrite list_elem_of_In. rewrite <- (forallb_forall broke_off tries).
  destruct (forallb broke_off tries); [| naive_solver].
  rewrite Z.add_0_l. pose proof (zlen_nonneg tries). unfold maxRetries.
  set (gap := sub_time now _). set (left_ := sub_time stop now).
  assert (zlen tries <= 3 -> dur (zlen tries) Minute = zlen tries * Minute) as Hdur.
  { intros H3. unfold dur, int64, Minute, Second. rewrite Z.mod_small; lia. }
  destruct (zlen tries =? 0) eqn:E0; cbn [orb]; [split; [done | lia] |].
  destruct (3 <? zlen tries) eqn:E3; cbn [orb]; [split; [done | lia] |].
  rewrite Hdur by lia. destruct (gap <? zlen tries * Minute) eqn:Eg; [split; [done | lia] |].
  rewrite Z.leb_le. lia.
Qed.
End decisions.

(** ** Which recordings a keep rule removes *)

Section keep.
Implicit Types (l : list Rec.Recording).

Lemma swap_lookup l i j k :
  (i < length l)%nat -> (j < length l)%nat ->
  swap l i j !! k = (if decide (k = j) then l !! i else if decide (k = i) then l !! j else l !! k).
Proof.
  intros Hi Hj. unfold swap.
  destruct (lookup_lt_is_Some_2 l i Hi) as [a ->]. destruct (lookup_lt_is_Some_2 l j Hj) as [b ->].
  destruct (decide (k = j)) as [-> | Hkj]; [by rewrite list_lookup_insert_eq by (by rewrite length_insert) |].
  rewrite list_lookup_insert_ne by done.
  destruct (decide (k = i)) as [-> | Hki]; [by rewrite list_lookup_insert_eq |].
  by rewrite list_lookup_insert_ne.
Qed.

Lemma swap_length l i j : length (swap l i j) = length l.
Proof. unfold swap. repeat case_match; by rewrite ?length_insert. Qed.

Lemma swap_perm l i j : (i < length l)%nat -> (j < length l)%nat -> swap l i j ≡ₚ l.
Proof.
  intros Hi Hj. apply Permutation_inj. rewrite swap_length. split; [done |].
  exists (fun k => if decide (k = j) then i else if decide (k = i) then j else k). split.
  - intros x y. repeat case_decide; congruence.
  - intros k. rewrite swap_lookup by done. by repeat case_decide.
Qed.

(** The first [i] are each as new as any after them. *)
Definition newest_first (i : nat) l : Prop :=
  forall a b x y, (a < i)%nat -> (a < b)%nat -> l !! a = Some x -> l !! b = Some y ->
    Rec.StartedAt y <= Rec.StartedAt x.

Lemma swap_newest l i j m :
  (i < length l)%nat -> (j < length l)%nat -> (m <= i)%nat -> (m <= j)%nat ->
  newest_first m l -> newest_first m (swap l i j).
Proof.
  intros Hi Hj Hmi Hmj Hn a b x y Ha Hab. rewrite !swap_lookup by done.
  rewrite (decide_False (P := a = j)), (decide_False (P := a = i)) by lia. intros Hx.
  repeat case_decide; intros Hy; subst; (eapply Hn; [exact Ha | | exact Hx | exact Hy]; lia).
Qed.

Lemma exchange_row_spec n i j l :
  (i < j)%nat -> (j + n = length l)%nat -> newest_first i l ->
  (forall k x y, (i < k < j)%nat -> l !! i = Some x -> l !! k = Some y -> Rec.StartedAt y <= Rec.StartedAt x) ->
  exchange_row n i j l ≡ₚ l /\ newest_first (S i) (exchange_row n i j l).
Proof.
  revert j l. induction n as [| n IH]; intros j l Hij Hlen Hn Hrow; cbn [exchange_row].
  { split; [done |]. intros a b x y Ha Hab Hx Hy. destruct (decide (a = i)) as [-> | ?].
    - apply (Hrow b); [| done | done]. apply lookup_lt_Some in Hy. lia.
    - eapply (Hn a b); [lia | done..]. }
  destruct (lookup_lt_is_Some_2 l j) as [rj Hj]; [lia |].
  destruct (lookup_lt_is_Some_2 l i) as [ri Hi]; [lia |]. rewrite Hj, Hi.
  destruct (Rec.StartedAt ri <? Rec.StartedAt rj) eqn:E.
  - destruct (IH (S j) (swap l i j)) as [Hp Hs]; [lia | rewrite swap_length; lia | apply swap_newest; done || lia | |].
    { intros k x y Hk. rewrite !swap_lookup by lia.
      rewrite (decide_False (P := i = j)), (decide_True (P := i = i)) by lia. rewrite Hj. intros [= <-].
      repeat case_decide; subst; [intros Hy; simplify_eq; lia | lia |].
      intros Hy. pose proof (Hrow k ri y ltac:(lia) Hi Hy). lia. }
    split; [| done]. rewrite Hp. apply swap_perm; lia.
  - apply IH; [lia | lia | done |]. intros k x y Hk Hx Hy.
    destruct (decide (k = j)) as [-> | ?]; [simplify_eq; lia | apply (Hrow k); [lia | done..]].
Qed.

Lemma exchange_sort_spec n i l :
  (i + n = length l)%nat -> newest_first i l ->
  exchange_sort n i l ≡ₚ l /\ newest_first (length l) (exchange_sort n i l).
Proof.
  revert i l. induction n as [| n IH]; intros i l Hlen Hn; cbn [exchange_sort].
  { split; [done |]. by replace (length l) with i by lia. }
  destruct (exchange_row_spec (length l - S i) i (S i) l) as [Hp Hs]; [lia | lia | done | lia |].
  destruct (IH (S i) (exchange_row (length l - S i) i (S i) l)) as [Hp' Hs'];
    [rewrite (Permutation_length Hp); lia | done |].
  split; [by rewrite Hp' |]. by rewrite (Permutation_length Hp) in Hs'.
Qed.
End keep.

(** Keeping the last [n] keeps the last [n]: a pass that keeps its last
    recordings removes all of the show's whole recordings but [n] (one at
    least), none of those removed began after one that stays, and the pieces,
    the running ones and those kept for ever are neither counted nor removed. *)
Theorem keep_last `{Unicode} (pass : Pas.Pass) (recs : list Rec.Recording)
    (Hmode : bytes_equal (ToLower (TrimSpace (Pas.KeepMode pass))) (lit "last") = true) :
  exists kept victims, keep_mine pass recs ≡ₚ kept ++ victims /\
    KeepVictims pass recs = map Rec.ID victims /\
    zlen kept = Z.min (Z.max 1 (Pas.KeepCount pass)) (zlen (keep_mine pass recs)) /\
    (forall k v, k ∈ kept -> v ∈ victims -> Rec.StartedAt v <= Rec.StartedAt k) /\
    (forall v, v ∈ victims -> v ∈ recs /\ sameShow pass v = true /\ Rec.Keep v = false /\
       Incomplete v = false /\ bytes_equal (Rec.Status v) (lit "recording") = false).
Proof.
  set (mine := keep_mine pass recs).
  assert (forall v, v ∈ mine -> v ∈ recs /\ sameShow pass v = true /\ Rec.Keep v = false /\
       Incomplete v = false /\ bytes_equal (Rec.Status v) (lit "recording") = false) as Hmine.
  { intros v [Hv Hf]%list_elem_of_In%filter_In. rewrite list_elem_of_In. split; [done |].
    apply negb_true_iff, orb_false_iff in Hf as [Hf ?%negb_false_iff].
    by apply orb_false_iff in Hf as [[? ?]%orb_false_iff ?]. }
  assert (bytes_equal (ToLower (TrimSpace (Pas.KeepMode pass))) (lit "unwatched") = false) as Hu.
  { unfold bytes_equal in *. apply bool_decide_eq_true in Hmode. rewrite Hmode. reflexivity. }
  unfold KeepVictims. fold mine. rewrite Hu, Hmode.
  set (n := if Pas.KeepCount pass <? 1 then 1 else Pas.KeepCount pass).
  assert (n = Z.max 1 (Pas.KeepCount pass)) as <- by (unfold n; destruct (_ <? 1) eqn:?; lia).
  assert (1 <= n) as Hn by (unfold n; destruct (_ <? 1) eqn:?; lia).
  destruct (exchange_sort_spec (length mine) 0 mine) as [Hp Hs]; [lia | intros ? ?; lia |].
  set (l := exchange_sort (length mine) 0 mine) in *.
  destruct (zlen mine <=? n) eqn:El.
  { exists mine, []. rewrite app_nil_r. split_and!; [done | done | lia | set_solver | set_solver]. }
  exists (take (Z.to_nat n) l), (drop (Z.to_nat n) l). rewrite take_drop. split; [done |]. split; [done |].
  assert (length l = length mine) as Hlen by (by rewrite Hp). unfold zlen in *. rewrite length_take.
  split; [lia |]. split.
  - intros k v Hk Hv. apply list_elem_of_lookup in Hk as [a Ha]. apply lookup_take_Some in Ha as [Ha Hlt].
    apply list_elem_of_lookup in Hv as [b Hb]. rewrite lookup_drop in Hb.
    eapply (Hs a (Z.to_nat n + b)%nat); [| lia | done..]. apply lookup_lt_Some in Ha. lia.
  - intros v Hv. apply Hmine. rewrite <- Hp. rewrite <- (take_drop (Z.to_nat n) l). set_solver.
Qed.

#[local] Existing Instance ascii_unicode.

Definition example_show (id channel start end_ : Z) : Air.Airing :=
  Air.mk id channel (lit "Show") [] [] [] [] false [] 0 0 0 0 [] [] [] [] []
    (of_unix start) (of_unix end_) 0 0.
Definition example_rule (kind keep : list Z) (count : Z) : Pas.Pass :=
  Pas.mk 7 (lit "show") 0 kind 1 2 3 [] keep count 0 false false [] [] [] [] 0 0.
Definition example_rec (id started : Z) : Rec.Recording :=
  Rec.mk id 101 (lit "Show") [] [] (lit "complete") (of_unix started) None None
    (f64 0 0) (f64 3600 0) 7 0 None None None false false.

Lemma start_covers_witness :
  let air := example_show 1 101 3600 7200 in
  let now := of_unix 3570 in
  Air.Start air - Z.max recordLead (dur 1 Minute) <= now <= Air.Start air + recordLead /\
  now < Air.End_ air /\ 1 <= 63 <= 480 /\
  (let stop := Air.End_ air + int64 (dur 2 Minute + SportsTail air) in
   stop - now < 480 * Minute -> stop < now + 63 * Minute).
Proof.
  apply (start_covers (example_rule (lit "series") [] 0) (example_show 1 101 3600 7200) (of_unix 3570) 63).
  vm_compute. reflexivity.
Defined.

Lemma keep_last_witness :
  let recs := [example_rec 1 100; example_rec 2 300; example_rec 3 200] in
  let pass := example_rule (lit "series") (lit " Last") 2 in
  exists kept victims, keep_mine pass recs ≡ₚ kept ++ victims /\
    KeepVictims pass recs = map Rec.ID victims /\
    zlen kept = Z.min (Z.max 1 2) (zlen (keep_mine pass recs)) /\
    (forall k v, k ∈ kept -> v ∈ victims -> Rec.StartedAt v <= Rec.StartedAt k) /\
    (forall v, v ∈ victims -> v ∈ recs /\ sameShow pass v = true /\ Rec.Keep v = false /\
       Incomplete v = false /\ bytes_equal (Rec.Status v) (lit "recording") = false).
Proof. apply (keep_last (example_rule (lit "series") (lit " Last") 2)). vm_compute. reflexivity. Defined.

(** Stopping at 90% counts as played; just under it does not. *)
Example played_ninety :
  let at_ p := Played (Rec.mk 1 101 [] [] [] (lit "complete") 0 None None (f64 p 0) (f64 3600 0) 0 0
                         None None None false false) in
  (at_ 3240, at_ 3239) = (true, false).
Proof. vm_compute. reflexivity. Qed.
