(* ===== verification/DvrPlan.v ===== *)
(** The recorder's plan: which airings the passes record, and who gets a tuner
    ([server/internal/dvr/plan.go], [conflict.go], [rules.go]'s [ApplyLibrary],
    and [Mentions] of [sports/match.go]).

    A Go map is iterated in any order: [iter] is that order, an argument, which
    may depend on the state at each loop. *)
From S2P Require Import Prelude GoText Dvr.
From stdpp Require Import fin_maps gmap sorting.
Local Open Scope Z_scope.
Local Open Scope go_scope.

(** ** Planned airings *)

Record Suggestion := mkSuggestion {
  sug_ChannelID : Z; GuideNumber : list Z; sug_Title : list Z; sug_Start : Z; sug_End : Z }.

Record Planned := mkPlanned {
  PassID : Z; Airing : Air.Airing; Priority : Z; PadBefore : Z; PadAfter : Z;
  Conflict : bool; Skipped : bool; Reason : list Z; Sugg : option Suggestion;
  Manual : bool; runsUntil : Z;
}.

Definition set_skip (conflict : bool) (reason : list Z) (sugg : option Suggestion) (p : Planned) : Planned :=
  mkPlanned (PassID p) (Airing p) (Priority p) (PadBefore p) (PadAfter p) conflict true reason
    sugg (Manual p) (runsUntil p).
Definition set_runsUntil (p : Planned) (t : Z) : Planned :=
  mkPlanned (PassID p) (Airing p) (Priority p) (PadBefore p) (PadAfter p) (Conflict p) (Skipped p)
    (Reason p) (Sugg p) (Manual p) t.
Definition set_sugg (p : Planned) (s : Suggestion) : Planned :=
  mkPlanned (PassID p) (Airing p) (Priority p) (PadBefore p) (PadAfter p) (Conflict p) (Skipped p)
    (Reason p) (Some s) (Manual p) (runsUntil p).

Section plan.
Context `{Unicode, Zone}.

Definition tunerSpan (p : Planned) : Z * Z :=
  let start := Air.Start (Airing p) - dur (PadBefore p) Minute in
  let end_ := Air.End_ (Airing p) + int64 (dur (PadAfter p) Minute + SportsTail (Airing p)) in
  (start, if end_ <? runsUntil p then runsUntil p else end_).

(** ** Passes and listings *)

(** [sports.fold], [phrase] and [Mentions] *)
Fixpoint fold_text (s : list Z) (space : bool) (out : list Z) : list Z :=
  match s with
  | [] => out
  | r :: s =>
      if is_word r then fold_text s false (out ++ [r])
      else if (negb space && (0 <? zlen out))%bool then fold_text s true (out ++ [32])
      else fold_text s space out
  end.
Definition fold (s : list Z) : list Z := TrimSpace (fold_text (ToLower s) false []).
Definition phrase (text part : list Z) : bool :=
  if (bytes_equal part [] || bytes_equal text [])%bool then false
  else contains ([32] ++ text ++ [32]) ([32] ++ part ++ [32]).
Definition Mentions (text name : list Z) : bool := phrase (fold text) (fold name).

Definition clockMinutes (value : list Z) : Z :=
  let value := TrimSpace value in
  if bytes_equal value [] then -1
  else match Split value 58 with
       | [a; b] =>
           match Atoi a, Atoi b with
           | Some hour, Some min =>
               if ((hour <? 0) || (23 <? hour) || (min <? 0) || (59 <? min))%bool then -1
               else hour * 60 + min
           | _, _ => -1
           end
       | _ => -1
       end.

Definition inWindow (pass : Pas.Pass) (start : Z) : bool :=
  let mins := local_hour start * 60 + local_minute start in
  let day := weekday (local_day start) in
  let a := clockMinutes (Pas.TimeStart pass) in
  let b := clockMinutes (Pas.TimeEnd pass) in
  if ((0 <=? a) && (0 <=? b))%bool then
    if a <=? b then
      if ((mins <? a) || (b <=? mins))%bool then false else onDay (Pas.Days pass) day
    else if ((mins <? a) && (b <=? mins))%bool then false
    else onDay (Pas.Days pass) (if mins <? b then (day + 6) mod 7 else day)
  else onDay (Pas.Days pass) day.

Definition categoryHas (category want : list Z) : bool :=
  if bytes_equal want [] then false
  else (existsb (fun part => EqualFold (TrimSpace part) want) (Split category 44)
        || EqualFold (TrimSpace category) want)%bool.

Definition passMatches (pass : Pas.Pass) (airing : Air.Airing) : bool :=
  if (bytes_equal (Pas.Kind pass) (lit "manual") || negb (Air.ManualPass airing =? 0))%bool then
    (negb (Air.ManualPass airing =? 0) && (Air.ManualPass airing =? Pas.ID pass))%bool
  else if (negb (Pas.ChannelID pass =? 0) && negb (Pas.ChannelID pass =? Air.ChannelID airing))%bool then false
  else if ((Pas.ChannelID pass =? 0) && negb (Air.Simulcast airing =? 0))%bool then false
  else if bytes_equal (Pas.Kind pass) (lit "once") then
    (negb (Pas.ChannelID pass =? 0) && (Air.Start airing =? Pas.AiringStart pass))%bool
  else if negb (inWindow pass (Air.Start airing)) then false
  else
    let kind := ToLower (TrimSpace (Pas.MatchKind pass)) in
    let title := ToLower (TrimSpace (Air.Title airing)) in
    let want := ToLower (TrimSpace (Pas.Title pass)) in
    if (EqualFold (Pas.Kind pass) (lit "team") || bytes_equal kind (lit "team"))%bool then
      Mentions (Air.Title airing ++ [32] ++ Air.Subtitle airing) (Pas.Title pass)
    else
      let named :=
        if bytes_equal kind (lit "category") then categoryHas (Air.Category airing) want
        else if bytes_equal kind (lit "contains") then
          (negb (bytes_equal want []) && contains title want)%bool
        else bytes_equal title want in
      if negb named then false
      else if (EqualFold (Pas.Episodes pass) (lit "new") && negb (Air.New airing))%bool then false
      else true.

Definition matchPass (passes : list Pas.Pass) (airing : Air.Airing) : option Pas.Pass :=
  match find (fun p => bytes_equal (Pas.Kind p) (lit "once") && passMatches p airing)%bool passes with
  | Some p => Some p
  | None => find (fun p => negb (bytes_equal (Pas.Kind p) (lit "once")) && passMatches p airing)%bool passes
  end.

Definition planned (pass : Pas.Pass) (airing : Air.Airing) : Planned :=
  mkPlanned (Pas.ID pass) airing (Pas.Priority pass) (Pas.PadBefore pass) (Pas.PadAfter pass)
    false false [] None (negb (Air.ManualPass airing =? 0)) 0.

Fixpoint match_loop (passes : list Pas.Pass) (airings : list Air.Airing) (from to : Z) : list Planned :=
  match airings with
  | [] => []
  | airing :: airings =>
      let rest := match_loop passes airings from to in
      if (negb (from <? Air.End_ airing) || negb (Air.Start airing <? to))%bool then rest
      else match matchPass passes airing with
           | Some pass => planned pass airing :: rest
           | None => rest
           end
  end.

Definition starts_first (a b : Planned) : bool :=
  if Air.Start (Airing a) =? Air.Start (Airing b) then Air.ID (Airing a) <? Air.ID (Airing b)
  else Air.Start (Airing a) <? Air.Start (Airing b).

(** [match]; [None] only when a manual pass's walk ran out of fuel. *)
Definition match_ (passes : list Pas.Pass) (airings : list Air.Airing) (from to : Z) : option (list Planned) :=
  match manualAirings passes airings from to with
  | Some manual => Some (sort_by starts_first (match_loop passes (airings ++ manual) from to))
  | None => None
  end.

(** ** The library's skips *)

Definition pass_by_id (passes : list Pas.Pass) (id : Z) : option Pas.Pass :=
  find (fun p => Pas.ID p =? id) (reverse passes).

Definition apply_item (passes : list Pas.Pass) (recs : list Rec.Recording)
    (seen skips : gmap (list Z) bool) (p : Planned) : Planned :=
  let ' (key, starts) := SkipParts (Airing p) in
  if (negb (bytes_equal key []) && default false (skips !! (key ++ [124] ++ starts)))%bool then
    set_skip false (lit "Skipped once") None p
  else if Skipped p then p
  else
    (* A pass that is not there is Go's zero [Pass]. *)
    let pass := default (Pas.mk 0 [] 0 [] 0 0 0 [] [] 0 0 false false [] [] [] [] 0 0)
                  (pass_by_id passes (PassID p)) in
    if bytes_equal (Pas.Kind pass) (lit "once") then p
    else if (negb (bytes_equal (Pas.Kind pass) (lit "manual")) && negb (bytes_equal key [])
             && haveEpisode pass recs seen key)%bool then
      set_skip (Conflict p) (lit "Already recorded") (Sugg p) p
    else if ((0 <? Pas.LimitCount pass) && (Pas.LimitCount pass <=? unwatchedCount recs pass))%bool then
      set_skip (Conflict p) (lit "Limit reached") (Sugg p) p
    else p.
Definition ApplyLibrary (items : list Planned) (passes : list Pas.Pass) (recs : list Rec.Recording)
    (seen skips : gmap (list Z) bool) : list Planned :=
  map (apply_item passes recs seen skips) items.

Definition note_rec (p : Planned) (rec : Rec.Recording) : Planned :=
  let air := Airing p in
  match Rec.EndsAt rec with
  | Some ends =>
      if (bytes_equal (Rec.Status rec) (lit "recording") && (Rec.ChannelID rec =? Air.ChannelID air)
          && EqualFold (Rec.Title rec) (Air.Title air)
          && (Rec.StartedAt rec <? Air.End_ air) && (runsUntil p <? ends))%bool
      then set_runsUntil p ends else p
  | None => p
  end.
Definition noteRunning (items : list Planned) (recs : list Rec.Recording) : list Planned :=
  map (fun p => if negb (Air.ManualPass (Airing p) =? 0) then p else fold_left note_rec recs p) items.

(** ** Tuners *)

Record event := mkEvent { at_ : Z; index : nat; is_start : bool }.

Definition before (a b : event) : bool :=
  if ((at_ a =? at_ b) && negb (Bool.eqb (is_start a) (is_start b)))%bool then negb (is_start a)
  else at_ a <? at_ b.

Definition item_events (i : nat) (span : Z * Z) : list event :=
  [mkEvent (fst span) i true; mkEvent (snd span) i false].
Definition plan_events (items : list Planned) : list event :=
  sort_by before (concat (imap (fun i p => item_events i (tunerSpan p)) items)).

Definition uniqueChannels (active : gmap nat Z) : Z :=
  Z.of_nat (size (list_to_set (map snd (map_to_list active)) : gset Z)).

Definition losesTo (a b : Planned) : bool :=
  if negb (Priority a =? Priority b) then Priority a <? Priority b
  else if negb (Air.Start (Airing a) =? Air.Start (Airing b)) then
    Air.Start (Airing b) <? Air.Start (Airing a)
  else Air.ID (Airing b) <? Air.ID (Airing a).

Context (iter : list Planned -> gmap nat Z -> list nat).

(** The loop of [lowestPriority] over the keys; -1 is no key yet. *)
Fixpoint lowest_loop (items : list Planned) (keys : list nat) (loser : Z) : res Z :=
  match keys with
  | [] => Ok loser
  | k :: keys =>
      if loser <? 0 then lowest_loop items keys (Z.of_nat k)
      else
        let! a := idx items (Z.of_nat k) in
        let! b := idx items loser in
        lowest_loop items keys (if losesTo a b then Z.of_nat k else loser)
  end.
Definition lowestPriority (items : list Planned) (active : gmap nat Z) : res Z :=
  lowest_loop items (iter items active) (-1).

(** [for uniqueChannels(active) > tunerCount && len(active) > 0] *)
Fixpoint evict (fuel : nat) (tunerCount : Z) (items : list Planned) (active : gmap nat Z)
    : res (list Planned * gmap nat Z) :=
  if ((tunerCount <? uniqueChannels active) && negb (bool_decide (active = ∅)))%bool then
    match fuel with
    | O => NoFuel
    | S fuel =>
        let! loser := lowestPriority items active in
        let! p := idx items loser in
        let l := Z.to_nat loser in
        evict fuel tunerCount (<[l := set_skip true (Reason p) (Sugg p) p]> items) (delete l active)
    end
  else Ok (items, active).

Definition sweep_event (tunerCount : Z) (st : list Planned * gmap nat Z) (ev : event)
    : res (list Planned * gmap nat Z) :=
  let ' (items, active) := st in
  if negb (is_start ev) then Ok (items, delete (index ev) active)
  else
    let! p := idx items (Z.of_nat (index ev)) in
    if Skipped p then Ok (items, active)
    else
      let active := <[index ev := Air.ChannelID (Airing p)]> active in
      evict (S (size active)) tunerCount items active.

Fixpoint sweep (tunerCount : Z) (events : list event) (st : list Planned * gmap nat Z)
    : res (list Planned * gmap nat Z) :=
  match events with
  | [] => Ok st
  | ev :: events => let! st := sweep_event tunerCount st ev in sweep tunerCount events st
  end.

Definition tuners (tunerCount : Z) : Z := if tunerCount <? 1 then 1 else tunerCount.

Definition resolvePriority (items : list Planned) (tunerCount : Z) : res (list Planned) :=
  let! ' (items, _) := sweep (tuners tunerCount) (plan_events items) (items, ∅) in
  Ok items.

(** [Plan] and [PlanLibrary] *)
Definition Plan (passes : list Pas.Pass) (airings : list Air.Airing) (tunerCount from to : Z) : res (list Planned) :=
  match match_ passes airings from to with
  | Some items => resolvePriority items tunerCount
  | None => NoFuel
  end.
Definition PlanLibrary (passes : list Pas.Pass) (airings : list Air.Airing) (tunerCount from to : Z)
    (recs : list Rec.Recording) (seen skips : gmap (list Z) bool) : res (list Planned) :=
  match match_ passes airings from to with
  | Some items =>
      resolvePriority (noteRunning (ApplyLibrary items passes recs seen skips) recs) tunerCount
  | None => NoFuel
  end.

End plan.

(** ** Sorting events and rows *)

#[global] Instance before_weak : WeakOrder before.
Proof.
  split.
  - intros [a i s] [b j s'] H. unfold before in *. simpl in *.
    destruct s, s'; simpl in *; destruct (Z.eqb_spec a b), (Z.eqb_spec b a); simpl in *; lia || done.
  - intros [a i s] [b j s'] [c k s''] H1 H2. unfold before in *. simpl in *.
    destruct s, s', s''; simpl in *;
      destruct (Z.eqb_spec b a), (Z.eqb_spec c b), (Z.eqb_spec c a); simpl in *; lia || done.
Qed.

#[global] Instance starts_first_weak : WeakOrder starts_first.
Proof.
  split.
  - intros a b. unfold starts_first. intros H.
    destruct (Z.eqb_spec (Air.Start (Airing a)) (Air.Start (Airing b))),
      (Z.eqb_spec (Air.Start (Airing b)) (Air.Start (Airing a))); lia.
  - intros a b c. unfold starts_first.
    destruct (Z.eqb_spec (Air.Start (Airing b)) (Air.Start (Airing a))),
      (Z.eqb_spec (Air.Start (Airing c)) (Air.Start (Airing b))),
      (Z.eqb_spec (Air.Start (Airing c)) (Air.Start (Airing a))); lia.
Qed.

Lemma losesTo_irrefl a : losesTo a a = false.
Proof. unfold losesTo. rewrite !Z.eqb_refl. simpl. lia. Qed.

Lemma losesTo_neg_trans a b c : losesTo b a = false -> losesTo c b = false -> losesTo c a = false.
Proof.
  unfold losesTo.
  destruct (Z.eqb_spec (Priority b) (Priority a)), (Z.eqb_spec (Priority c) (Priority b)),
    (Z.eqb_spec (Priority c) (Priority a)),
    (Z.eqb_spec (Air.Start (Airing b)) (Air.Start (Airing a))),
    (Z.eqb_spec (Air.Start (Airing c)) (Air.Start (Airing b))),
    (Z.eqb_spec (Air.Start (Airing c)) (Air.Start (Airing a))); simpl; lia.
Qed.

Lemma losesTo_asym a b : losesTo a b = true -> losesTo b a = false.
Proof.
  unfold losesTo.
  destruct (Z.eqb_spec (Priority a) (Priority b)), (Z.eqb_spec (Priority b) (Priority a)),
    (Z.eqb_spec (Air.Start (Airing a)) (Air.Start (Airing b))),
    (Z.eqb_spec (Air.Start (Airing b)) (Air.Start (Airing a))); simpl; lia.
Qed.

(** ** Which spans are on after a prefix of the events *)

Section events.
Context (keep : Z * Z -> bool) (spans : list (Z * Z)).

Definition span_events : list event :=
  concat (imap (fun i s => if keep s then item_events i s else []) spans).

Definition live_step (S : gset nat) (e : event) : gset nat :=
  if is_start e then {[index e]} ∪ S else S ∖ {[index e]}.
Definition live (evs : list event) : gset nat := fold_left live_step evs ∅.

Lemma live_snoc evs e : live (evs ++ [e]) = live_step (live evs) e.
Proof. unfold live. by rewrite fold_left_app. Qed.

Lemma elem_span_events e :
  e ∈ span_events <-> exists s, spans !! index e = Some s /\ keep s = true /\
    at_ e = (if is_start e then fst s else snd s).
Proof.
  unfold span_events. rewrite list_elem_of_In, in_concat. split.
  - intros (l & Hl & He). apply list_elem_of_In, elem_of_lookup_imap in Hl as (i & s & -> & Hs).
    destruct (keep s) eqn:Ek; [| done].
    simpl in He. destruct He as [<- | [<- | []]]; by exists s.
  - intros (s & Hs & Hk & Hat). exists (item_events (index e) s). split.
    + apply list_elem_of_In, elem_of_lookup_imap. exists (index e), s. by rewrite Hk.
    + destruct e as [a i []]; simpl in *; subst; [by left | right; by left].
Qed.

Lemma live_start evs i :
  i ∈ live evs -> exists e, e ∈ evs /\ index e = i /\ is_start e = true.
Proof.
  induction evs as [| e evs IH] using rev_ind; [set_solver |].
  rewrite live_snoc. unfold live_step. destruct (is_start e) eqn:Es.
  - intros [Hi | Hi]%elem_of_union.
    + apply elem_of_singleton in Hi as ->. exists e. rewrite elem_of_app. set_solver.
    + destruct (IH Hi) as (e' & He' & ?). exists e'. split; [set_solver | done].
  - intros [Hi _]%elem_of_difference. destruct (IH Hi) as (e' & He' & ?).
    exists e'. split; [set_solver | done].
Qed.

(** A span is on once it has started, until an event stops it. *)
Lemma live_intro evs i e :
  e ∈ evs -> index e = i -> is_start e = true ->
  (forall e', e' ∈ evs -> index e' = i -> is_start e' = true) -> i ∈ live evs.
Proof.
  intros He <- Hs. induction evs as [| x evs IH] using rev_ind; [set_solver |].
  intros Hall. rewrite live_snoc. unfold live_step.
  apply elem_of_app in He as [He | ->%list_elem_of_singleton].
  - assert (index e ∈ live evs) as H by (apply IH; [done | intros ? ? ?; apply Hall; set_solver]).
    destruct (is_start x) eqn:Ex; [set_solver |].
    apply elem_of_difference. split; [done |]. intros Hx%elem_of_singleton.
    rewrite (Hall x) in Ex; [done | set_solver | done].
  - rewrite Hs. set_solver.
Qed.

(** After its stop, a span is on only if it starts again. *)
Lemma live_after_stop p q e i :
  index e = i -> is_start e = false -> i ∈ live (p ++ e :: q) ->
  exists e', e' ∈ q /\ index e' = i /\ is_start e' = true.
Proof.
  intros <- He. induction q as [| x q IH] using rev_ind.
  - rewrite live_snoc. unfold live_step. rewrite He. set_solver.
  - change (e :: q ++ [x]) with ((e :: q) ++ [x]). rewrite app_assoc, live_snoc. unfold live_step.
    destruct (is_start x) eqn:Ex.
    + intros [Hi | Hi]%elem_of_union.
      * apply elem_of_singleton in Hi. exists x. set_solver.
      * destruct (IH Hi) as (e' & ? & ?). exists e'. set_solver.
    + intros [Hi _]%elem_of_difference. destruct (IH Hi) as (e' & ? & ?). exists e'. set_solver.
Qed.

Lemma sorted_app_order (l1 l2 : list event) x y :
  StronglySorted (in_order before) (l1 ++ l2) -> x ∈ l1 -> y ∈ l2 -> before y x = false.
Proof.
  induction l1 as [| z l1 IH]; intros Hs Hx Hy; [set_solver |].
  apply StronglySorted_inv in Hs as [Hs Hz].
  apply elem_of_cons in Hx as [-> | Hx]; [| by apply IH].
  rewrite Forall_forall in Hz. apply Hz. set_solver.
Qed.

Context (evs : list event) (Hperm : evs ≡ₚ span_events) (Hsort : StronglySorted (in_order before) evs).

Lemma elem_evs e :
  e ∈ evs <-> exists s, spans !! index e = Some s /\ keep s = true /\
    at_ e = (if is_start e then fst s else snd s).
Proof. rewrite Hperm. apply elem_span_events. Qed.

(** The events up to an instant are a prefix, and what is on at that instant
    is live after it. *)
Definition upto (t : Z) : list event := List.filter (fun e => at_ e <=? t) evs.

Lemma sorted_filter_prefix t l :
  StronglySorted (in_order before) l ->
  l = List.filter (fun e => at_ e <=? t) l ++ List.filter (fun e => negb (at_ e <=? t)) l.
Proof.
  induction 1 as [| e l Hl IH He]; simpl; [done |].
  destruct (at_ e <=? t) eqn:E; simpl; [by rewrite <- IH |].
  assert (List.filter (fun e => at_ e <=? t) l = []) as Hnil; [| rewrite Hnil in *; simpl in *; by rewrite <- IH].
  clear IH Hl. induction He as [| y l Hy _ IH]; simpl; [done |].
  unfold in_order, before in Hy. destruct (at_ y <=? t) eqn:Ey; [exfalso | done].
  destruct (Z.eqb_spec (at_ y) (at_ e)); simpl in Hy; lia.
Qed.

Lemma live_upto t i s :
  spans !! i = Some s -> keep s = true -> fst s <= t < snd s -> i ∈ live (upto t).
Proof.
  intros Hs Hk Ht. unfold upto.
  apply (live_intro _ _ (mkEvent (fst s) i true)); [| done | done |].
  - apply list_elem_of_In, filter_In. simpl. split; [| lia].
    apply list_elem_of_In, elem_evs. by exists s.
  - intros e' He' <-. apply list_elem_of_In, filter_In in He' as [He' Hle].
    apply list_elem_of_In, elem_evs in He' as (s' & Hs' & _ & Hat). simplify_eq.
    destruct (is_start e'); [done | lia].
Qed.

(** When a span starts, those that are live and have a length are on. *)
Lemma live_on done e rest i s :
  evs = done ++ e :: rest -> is_start e = true -> i ∈ live done ->
  spans !! i = Some s -> fst s < snd s -> fst s <= at_ e < snd s.
Proof.
  intros Hevs He Hi Hs Hlen. rewrite Hevs in Hsort.
  destruct (live_start _ _ Hi) as (x & Hx & Hxi & Hxs).
  assert (at_ x = fst s /\ keep s = true) as [Hxa Hk].
  { assert (x ∈ evs) as H by (rewrite Hevs; set_solver).
    apply elem_evs in H as (s' & Hs' & Hk & Hat). rewrite Hxi in Hs'. simplify_eq. by rewrite Hxs in Hat. }
  assert (before e x = false) as Hex by (eapply sorted_app_order; [done | done | set_solver]).
  unfold before in Hex. rewrite He, Hxs in Hex. simpl in Hex. rewrite andb_false_r in Hex.
  set (y := mkEvent (snd s) i false).
  assert (y ∉ done) as Hy.
  { intros (p & q & ->)%list_elem_of_split.
    destruct (live_after_stop p q y i) as (z & Hz & Hzi & Hzs); [done.. |].
    assert (at_ z = fst s) as Hza.
    { assert (z ∈ evs) as H by (rewrite Hevs; set_solver).
      apply elem_evs in H as (s' & Hs' & _ & Hat). rewrite Hzi in Hs'. simplify_eq. by rewrite Hzs in Hat. }
    assert (before z y = false) as Hzy.
    { eapply (sorted_app_order (p ++ [y]) (q ++ e :: rest)); [| set_solver | set_solver].
      by rewrite <- !app_assoc in *. }
    unfold before in Hzy. simpl in Hzy. rewrite Hzs, Hza in Hzy.
    destruct (Z.eqb_spec (fst s) (snd s)); simpl in Hzy; lia. }
  assert (y ∈ evs) as Hye by (apply elem_evs; by exists s).
  rewrite Hevs in Hye. apply elem_of_app in Hye as [? | Hye]; [done |].
  apply elem_of_cons in Hye as [E | Hye]; [subst y; destruct e; by simplify_eq |].
  assert (before y e = false) as Hyr.
  { eapply (sorted_app_order (done ++ [e]) rest); [| set_solver | done]. by rewrite <- app_assoc. }
  unfold before in Hyr. simpl in Hyr. rewrite He in Hyr.
  destruct (Z.eqb_spec (snd s) (at_ e)); simpl in Hyr; lia.
Qed.
End events.

(** ** Tuners are shared out *)

Section tuners.
Context `{Unicode}.

(** A planned airing holds its tuner at an instant; the channels that need one
    then, of a plan or of some of its airings. *)
Definition on_at (t : Z) (p : Planned) : bool :=
  ((fst (tunerSpan p) <=? t) && (t <? snd (tunerSpan p)))%bool.
Definition channels (l : list Planned) : gset Z := list_to_set (map (fun p => Air.ChannelID (Airing p)) l).
Definition busy (items : list Planned) (t : Z) : gset Z :=
  channels (List.filter (fun p => negb (Skipped p) && on_at t p)%bool items).

(** What [resolvePriority] may do to an airing: skip it for a conflict. *)
Definition mark (p : Planned) : Planned := set_skip true (Reason p) (Sugg p) p.
Definition marked (p p' : Planned) : Prop := p' = p \/ (Skipped p = false /\ p' = mark p).

(** Why an airing is skipped: at an instant it is on, airings that do not lose
    to it already need more tuners than there are. *)
Definition outranked (items : list Planned) (n : Z) (p : Planned) : Prop :=
  exists t (l : list Planned), l ⊆ items /\ p ∈ l /\
    Forall (fun q => Skipped q = false /\ on_at t q = true /\ losesTo q p = false) l /\
    n < Z.of_nat (size (channels l)).

#[global] Instance marked_preorder : PreOrder marked.
Proof.
  split; [by left |].
  intros p q r [-> | [Hp ->]] [-> | [Hq ->]]; [by left | by right | by right |]. done.
Qed.

Lemma marked_same p q : marked p q ->
  Airing q = Airing p /\ Priority q = Priority p /\ tunerSpan q = tunerSpan p /\
  (Skipped q = false -> q = p).
Proof. intros [-> | [? ->]]; [done |]. repeat split. by intros. Qed.

Context (iter : list Planned -> gmap nat Z -> list nat).
Context (Hiter : forall items m, iter items m ≡ₚ map fst (map_to_list m)).

Lemma elem_iter items m k : k ∈ iter items m <-> is_Some (m !! k).
Proof.
  rewrite Hiter. change (@map (nat * Z) nat) with (@fmap list _ (nat * Z) nat). rewrite list_elem_of_fmap. split.
  - intros ([k' c] & -> & ?%elem_of_map_to_list). by exists c.
  - intros [c Hc]. exists (k, c). by rewrite elem_of_map_to_list.
Qed.

(** [lowestPriority] finds an active airing that no other loses to. *)
Lemma lowest_loop_spec items keys loser :
  (forall k, k ∈ keys -> (k < length items)%nat) ->
  (loser = -1 \/ 0 <= loser < zlen items) ->
  exists r, lowest_loop items keys loser = Ok r /\
    (0 <= loser \/ keys <> [] -> exists k p, r = Z.of_nat k /\ items !! k = Some p /\
       (k ∈ keys \/ r = loser) /\
       (forall j q, j ∈ keys \/ Z.of_nat j = loser -> items !! j = Some q -> losesTo q p = false)).
Proof.
  intros Hkeys Hl. revert loser Hl. induction keys as [| k keys IH]; intros loser Hl; simpl.
  { exists loser. split; [done |]. intros [H0 | ?]; [| done].
    destruct (lookup_lt_is_Some_2 items (Z.to_nat loser)) as [p Hp]; [unfold zlen in Hl; lia |].
    exists (Z.to_nat loser), p. split; [lia |]. split; [done |]. split; [by right |].
    intros j q [? | Hj] Hq; [set_solver |]. assert (j = Z.to_nat loser) as -> by lia. simplify_eq.
    apply losesTo_irrefl. }
  assert (k < length items)%nat as Hk by (apply Hkeys; set_solver).
  assert (forall k', k' ∈ keys -> (k' < length items)%nat) as Hkeys' by (intros; apply Hkeys; set_solver).
  destruct (lookup_lt_is_Some_2 items k Hk) as [a Ha].
  destruct (loser <? 0) eqn:El.
  { destruct (IH Hkeys' (Z.of_nat k)) as (r & Hr & Hs); [right; unfold zlen; lia |].
    exists r. split; [done |]. intros _. destruct Hs as (m & p & -> & Hp & Hm & Hmin); [lia |].
    exists m, p. split; [done |]. split; [done |]. split.
    - left. destruct Hm as [? | Hm]; [set_solver |]. assert (m = k) as -> by lia. set_solver.
    - intros j q [[-> | Hj]%elem_of_cons | Hj] Hq; [| | lia].
      + eapply Hmin; [by right | done].
      + eapply Hmin; [by left | done]. }
  destruct (lookup_lt_is_Some_2 items (Z.to_nat loser)) as [b Hb]; [unfold zlen in Hl; lia |].
  rewrite (idx_Ok items (Z.of_nat k) a) by (rewrite ?Nat2Z.id; done || lia). cbn [rbind].
  rewrite (idx_Ok items loser b) by (done || lia). cbn [rbind].
  destruct (IH Hkeys' (if losesTo a b then Z.of_nat k else loser)) as (r & Hr & Hs).
  { right. destruct (losesTo a b); unfold zlen in *; lia. }
  exists r. split; [done |]. intros _.
  destruct Hs as (m & p & -> & Hp & Hm & Hmin); [left; destruct (losesTo a b); lia |].
  exists m, p. split; [done |]. split; [done |].
  destruct (losesTo a b) eqn:Eab.
  - split; [left; destruct Hm as [? | Hm]; [set_solver |]; assert (m = k) as -> by lia; set_solver |].
    assert (losesTo a p = false) as Hap by (eapply Hmin; [by right | done]).
    intros j q [[-> | Hj]%elem_of_cons | Hj] Hq; simplify_eq.
    + done.
    + eapply Hmin; [by left | done].
    + rewrite Nat2Z.id in Hb. simplify_eq. eapply losesTo_neg_trans; [exact Hap | by apply losesTo_asym].
  - split; [destruct Hm as [? | ->]; [left; set_solver | by right] |].
    assert (losesTo b p = false) as Hbp by (eapply (Hmin (Z.to_nat loser)); [right; lia | done]).
    intros j q [[-> | Hj]%elem_of_cons | Hj] Hq; simplify_eq.
    + eapply losesTo_neg_trans; [exact Hbp | done].
    + eapply Hmin; [by left | done].
    + eapply Hmin; [by right | done].
Qed.

Lemma lowestPriority_spec items (active : gmap nat Z) :
  (forall k, is_Some (active !! k) -> (k < length items)%nat) -> active <> ∅ ->
  exists k p, lowestPriority iter items active = Ok (Z.of_nat k) /\ is_Some (active !! k) /\
    items !! k = Some p /\
    (forall j q, is_Some (active !! j) -> items !! j = Some q -> losesTo q p = false).
Proof.
  intros Hin Hne. unfold lowestPriority.
  destruct (lowest_loop_spec items (iter items active) (-1)) as (r & Hr & Hs).
  { intros k Hk%elem_iter. by apply Hin. }
  { by left. }
  destruct Hs as (k & p & -> & Hp & Hk & Hmin).
  { right. intros Hnil. apply Hne, map_empty. intros i. destruct (active !! i) eqn:E; [| done].
    assert (i ∈ iter items active) as Hi by (apply elem_iter; by eexists). rewrite Hnil in Hi. set_solver. }
  exists k, p. split; [done |]. split; [apply elem_iter with (items := items); destruct Hk; [done | lia] |].
  split; [done |]. intros j q Hj Hq. apply (Hmin j); [left; by apply elem_iter | done].
Qed.

Section sweep.
Context (items0 : list Planned) (n : Z).
Notation evs := (plan_events items0).

Definition has_length : Prop := Forall (fun p => fst (tunerSpan p) < snd (tunerSpan p)) items0.

(** What the sweep keeps: [active] is what is on and not skipped, with its
    channel; every airing skipped so far is outranked. *)
Record sweep_ok (done : list event) (items : list Planned) (active : gmap nat Z) : Prop := {
  so_marked : Forall2 marked items0 items;
  so_active i c : active !! i = Some c <->
    i ∈ live done /\ exists p, items !! i = Some p /\ Skipped p = false /\ c = Air.ChannelID (Airing p);
  so_outranked : has_length -> forall i p p',
    items0 !! i = Some p -> items !! i = Some p' -> p' <> p -> outranked items0 n p;
}.

Lemma plan_events_spans : evs ≡ₚ span_events (fun _ => true) (map tunerSpan items0).
Proof.
  unfold plan_events, span_events. rewrite sort_by_perm.
  replace (imap (fun i p => item_events i (tunerSpan p)) items0)
    with (imap item_events (map tunerSpan items0)); [done |].
  change (@map Planned (Z * Z)) with (@fmap list _ Planned (Z * Z)). by rewrite imap_fmap.
Qed.

Lemma plan_events_sorted : StronglySorted (in_order before) evs.
Proof. apply sort_by_sorted. apply _. Qed.

Lemma so_lookup done items active i c :
  sweep_ok done items active -> active !! i = Some c ->
  exists p, items0 !! i = Some p /\ items !! i = Some p /\ Skipped p = false /\
    c = Air.ChannelID (Airing p).
Proof.
  intros Hok Hi. apply (so_active _ _ _ Hok) in Hi as (_ & p & Hp & Hs & ->).
  destruct (Forall2_lookup_r _ _ _ _ _ (so_marked _ _ _ Hok) Hp) as (p0 & Hp0 & Hm).
  apply marked_same in Hm as (_ & _ & _ & Hm). exists p. by rewrite <- (Hm Hs) in Hp0.
Qed.

(** The channels counted are those of the active airings. *)
Lemma uniqueChannels_eq done items active :
  sweep_ok done items active ->
  exists l, l ⊆ items0 /\ uniqueChannels active = Z.of_nat (size (channels l)) /\
    (forall q, q ∈ l <-> exists i, is_Some (active !! i) /\ items0 !! i = Some q).
Proof.
  intros Hok. set (l := omap (fun i => items0 !! i) (map fst (map_to_list active))).
  assert (forall q, q ∈ l <-> exists i, is_Some (active !! i) /\ items0 !! i = Some q) as Hl.
  { intros q. unfold l. rewrite list_elem_of_omap.
    change (@map (nat * Z) nat) with (@fmap list _ (nat * Z) nat). setoid_rewrite list_elem_of_fmap. split.
    - intros (i & ([i' c] & -> & Hi%elem_of_map_to_list) & Hq). exists i'. split; [by exists c | done].
    - intros (i & [c Hi] & Hq). exists i. split; [| done]. exists (i, c). by rewrite elem_of_map_to_list. }
  exists l. split; [| split; [| done]].
  - intros q (i & _ & Hq)%Hl. by eapply list_elem_of_lookup_2.
  - unfold uniqueChannels, channels. do 2 f_equal. apply set_eq. intros c.
    rewrite !elem_of_list_to_set.
    change (@map (nat * Z) Z) with (@fmap list _ (nat * Z) Z).
    change (@map Planned Z) with (@fmap list _ Planned Z). rewrite !list_elem_of_fmap. split.
    + intros ([i c'] & -> & Hi%elem_of_map_to_list).
      destruct (so_lookup _ _ _ _ _ Hok Hi) as (p & Hp0 & _ & _ & ->). exists p. split; [done |].
      apply Hl. exists i. by split; [eexists |].
    + intros (p & -> & (i & [c' Hi] & Hp)%Hl). exists (i, Air.ChannelID (Airing p)).
      destruct (so_lookup _ _ _ _ _ Hok Hi) as (p' & Hp' & _ & _ & ->). simplify_eq.
      by rewrite elem_of_map_to_list.
Qed.

(** Skipping the airing that [lowestPriority] names keeps the invariant. *)
Lemma evict_one done e rest items active k p :
  evs = (done ++ [e]) ++ rest -> is_start e = true ->
  (forall i, i ∈ live (done ++ [e]) -> i = index e \/ i ∈ live done) ->
  sweep_ok (done ++ [e]) items active -> n < uniqueChannels active ->
  is_Some (active !! k) -> items !! k = Some p ->
  (forall j q, is_Some (active !! j) -> items !! j = Some q -> losesTo q p = false) ->
  sweep_ok (done ++ [e]) (<[k := mark p]> items) (delete k active).
Proof.
  intros Hevs He Hlive Hok Hn [c Hk] Hp Hmin.
  destruct (so_lookup _ _ _ _ _ Hok Hk) as (p0 & Hp0 & Hp' & Hs & ->). simplify_eq.
  split.
  - rewrite <- (list_insert_id items0 k p) by done. apply Forall2_insert; [apply (so_marked _ _ _ Hok) |].
    by right.
  - intros i c. destruct (decide (i = k)) as [-> | Hne].
    + rewrite lookup_delete_eq, list_lookup_insert_eq by (by eapply lookup_lt_Some).
      split; [done |]. intros (_ & q & [= <-] & Hq & _). done.
    + rewrite lookup_delete_ne, list_lookup_insert_ne by done. apply (so_active _ _ _ Hok).
  - intros Hlen i q q' Hq Hq' Hne. destruct (decide (i = k)) as [-> | Hik].
    2: { rewrite list_lookup_insert_ne in Hq' by done. by eapply (so_outranked _ _ _ Hok). }
    simplify_eq. destruct (uniqueChannels_eq _ _ _ Hok) as (l & Hsub & Hl & Hmem).
    exists (at_ e), l. split; [done |]. split; [apply Hmem; exists k; by split; [eexists |] |].
    split; [| by rewrite <- Hl].
    apply Forall_forall. intros q (j & [c Hj] & Hqj)%Hmem.
    destruct (so_lookup _ _ _ _ _ Hok Hj) as (q2 & Hq2 & Hqj' & Hsq & ->). simplify_eq.
    split; [done |]. split; [| by eapply Hmin; [eexists |]].
    assert (fst (tunerSpan q) < snd (tunerSpan q)) as Hql
      by (unfold has_length in Hlen; rewrite Forall_forall in Hlen; apply Hlen; by eapply list_elem_of_lookup_2).
    assert (map tunerSpan items0 !! j = Some (tunerSpan q)) as Hspan
      by (change (@map Planned (Z * Z)) with (@fmap list _ Planned (Z * Z)); by rewrite list_lookup_fmap, Hqj).
    apply (so_active _ _ _ Hok) in Hj as [Hj _].
    unfold on_at. destruct (Hlive j Hj) as [-> | Hjd].
    + assert (at_ e = fst (tunerSpan q)) as ->.
      { assert (e ∈ evs) as Hee by (rewrite Hevs; set_solver).
        apply (elem_evs _ _ _ plan_events_spans) in Hee as (s & Hs' & _ & Hat). rewrite Hspan in Hs'.
        simplify_eq. by rewrite He in Hat. }
      lia.
    + rewrite <- app_assoc in Hevs.
      pose proof (live_on _ _ _ plan_events_spans plan_events_sorted done e rest j _ Hevs He Hjd Hspan Hql). lia.
Qed.

Lemma not_crowded (active : gmap nat Z) :
  0 <= n -> ((n <? uniqueChannels active) && negb (bool_decide (active = ∅)))%bool = false ->
  uniqueChannels active <= n.
Proof.
  intros Hn Ec. case_bool_decide as Hempty.
  - subst active. change (uniqueChannels ∅) with 0. lia.
  - rewrite andb_true_r in Ec. by apply Z.ltb_ge in Ec.
Qed.

Lemma evict_ok fuel done e rest items active :
  evs = (done ++ [e]) ++ rest -> is_start e = true -> 0 <= n ->
  sweep_ok (done ++ [e]) items active -> (size active <= fuel)%nat ->
  exists items' active', evict iter fuel n items active = Ok (items', active') /\
    sweep_ok (done ++ [e]) items' active' /\ Forall2 marked items items' /\ uniqueChannels active' <= n.
Proof.
  intros Hevs He Hn. revert items active.
  assert (forall i, i ∈ live (done ++ [e]) -> i = index e \/ i ∈ live done) as Hlive.
  { intros i. rewrite live_snoc. unfold live_step. rewrite He. set_solver. }
  induction fuel as [| fuel IH]; intros items active Hok Hsize; simpl;
    destruct ((n <? uniqueChannels active) && negb (bool_decide (active = ∅)))%bool eqn:Ec.
  1, 3: apply andb_true_iff in Ec as [Hu%Z.ltb_lt Hne%negb_true_iff%bool_decide_eq_false].
  - destruct Hne. apply map_size_empty_inv. lia.
  - destruct (lowestPriority_spec items active) as (k & p & Hlow & Hk & Hp & Hmin); [| done |].
    { intros k [c Hk]. destruct (so_lookup _ _ _ _ _ Hok Hk) as (p & _ & Hp & _).
      by eapply lookup_lt_Some. }
    rewrite Hlow. cbn [rbind]. rewrite (idx_Ok items (Z.of_nat k) p) by (rewrite ?Nat2Z.id; done || lia).
    cbn [rbind]. rewrite Nat2Z.id. fold (mark p).
    pose proof (evict_one _ _ _ _ _ _ _ Hevs He Hlive Hok Hu Hk Hp Hmin) as Hok'.
    destruct (IH _ _ Hok') as (items' & active' & Hev & Hok'' & Hm & Hle).
    { rewrite map_size_delete. destruct Hk as [c Hk]. rewrite Hk. lia. }
    exists items', active'. split; [done |]. split; [done |]. split; [| done].
    assert (Forall2 marked items (<[k := mark p]> items)) as Hm1.
    { rewrite <- (list_insert_id items k p) at 1 by done. apply Forall2_insert; [done |].
      right. split; [| done]. destruct Hk as [c Hk].
      destruct (so_lookup _ _ _ _ _ Hok Hk) as (q & _ & Hq & Hs & _). by simplify_eq. }
    by trans (<[k := mark p]> items).
  - exists items, active. split_and!; [done.. |]. by apply not_crowded.
  - exists items, active. split_and!; [done.. |]. by apply not_crowded.
Qed.
Lemma uniqueChannels_delete k (active : gmap nat Z) : uniqueChannels (delete k active) <= uniqueChannels active.
Proof.
  unfold uniqueChannels. apply inj_le, subseteq_size. intros c. rewrite !elem_of_list_to_set.
  change (@map (nat * Z) Z) with (@fmap list _ (nat * Z) Z). rewrite !list_elem_of_fmap.
  intros ([i c'] & -> & [_ Hi]%elem_of_map_to_list%lookup_delete_Some). exists (i, c').
  by rewrite elem_of_map_to_list.
Qed.

(** An event that changes neither the airings nor what is on and not skipped. *)
Lemma sweep_ok_event done e items active active' :
  sweep_ok done items active ->
  (forall i c, active' !! i = Some c <->
    i ∈ live (done ++ [e]) /\ exists p, items !! i = Some p /\ Skipped p = false /\ c = Air.ChannelID (Airing p)) ->
  sweep_ok (done ++ [e]) items active'.
Proof. intros [Hm _ Ho] Ha. by split. Qed.

Lemma sweep_event_ok done e rest items active :
  evs = done ++ e :: rest -> 0 <= n -> sweep_ok done items active -> uniqueChannels active <= n ->
  exists items' active', sweep_event iter n (items, active) e = Ok (items', active') /\
    sweep_ok (done ++ [e]) items' active' /\ Forall2 marked items items' /\ uniqueChannels active' <= n.
Proof.
  intros Hevs Hn Hok Hu. unfold sweep_event.
  assert (exists p, items !! index e = Some p) as [p Hp].
  { assert (e ∈ evs) as He by (rewrite Hevs; set_solver).
    apply (elem_evs _ _ _ plan_events_spans) in He as (s & Hs & _).
    change (@map Planned (Z * Z)) with (@fmap list _ Planned (Z * Z)) in Hs.
    apply list_lookup_fmap_Some in Hs as (p0 & _ & Hp0).
    destruct (Forall2_lookup_l _ _ _ _ _ (so_marked _ _ _ Hok) Hp0) as (p & Hp & _). by exists p. }
  destruct (is_start e) eqn:He; cbn [negb].
  - rewrite (idx_Ok items (Z.of_nat (index e)) p) by (rewrite ?Nat2Z.id; done || lia). cbn [rbind].
    destruct (Skipped p) eqn:Hs.
    + exists items, active. split; [done |]. split; [| done]. eapply sweep_ok_event; [done |].
      intros i c. rewrite (so_active _ _ _ Hok), live_snoc. unfold live_step. rewrite He.
      split; [set_solver |]. intros [Hi (q & Hq & Hsq & ->)]. split; [| by exists q].
      apply elem_of_union in Hi as [->%elem_of_singleton | Hi]; [simplify_eq; congruence | done].
    + destruct (evict_ok (S (size (<[index e := Air.ChannelID (Airing p)]> active))) done e rest items
        (<[index e := Air.ChannelID (Airing p)]> active)) as (items' & active' & Hev & Hrest);
        [by rewrite <- app_assoc | done | done | | lia | by exists items', active'].
      eapply sweep_ok_event; [done |]. intros i c. rewrite live_snoc. unfold live_step. rewrite He.
      destruct (decide (i = index e)) as [-> | Hne].
      * rewrite lookup_insert_eq. split; [intros [= <-]; split; [set_solver | by exists p] |].
        intros (_ & q & Hq & _ & ->). by simplify_eq.
      * rewrite lookup_insert_ne, (so_active _ _ _ Hok) by done. set_solver.
  - exists items, (delete (index e) active). split; [done |].
    split; [| split; [done | etrans; [apply uniqueChannels_delete | done]]].
    eapply sweep_ok_event; [done |]. intros i c.
    rewrite lookup_delete_Some, (so_active _ _ _ Hok), live_snoc. unfold live_step. rewrite He. set_solver.
Qed.

Lemma sweep_run rest done mid items active :
  evs = done ++ mid ++ rest -> 0 <= n -> sweep_ok done items active -> uniqueChannels active <= n ->
  exists items' active', sweep iter n mid (items, active) = Ok (items', active') /\
    sweep_ok (done ++ mid) items' active' /\ Forall2 marked items items' /\ uniqueChannels active' <= n.
Proof.
  revert done items active. induction mid as [| e mid IH]; intros done items active Hevs Hn Hok Hu.
  - exists items, active. by rewrite app_nil_r.
  - destruct (sweep_event_ok done e (mid ++ rest) items active Hevs Hn Hok Hu)
      as (items1 & active1 & Hev & Hok1 & Hm1 & Hu1).
    destruct (IH (done ++ [e]) items1 active1) as (items2 & active2 & Hev2 & Hok2 & Hm2 & Hu2);
      [by rewrite <- app_assoc | done.. |].
    exists items2, active2. rewrite <- app_assoc in Hok2. split; [cbn [sweep]; by rewrite Hev |].
    split; [done |]. split; [by trans items1 | done].
Qed.

Lemma sweep_start : sweep_ok [] items0 ∅.
Proof. split; [done | set_solver |]. intros _ i p p' ? ? ?. by simplify_eq. Qed.

Lemma sweep_app l1 l2 st : sweep iter n (l1 ++ l2) st = (let! st := sweep iter n l1 st in sweep iter n l2 st).
Proof.
  revert st. induction l1 as [| e l1 IH]; intros st; simpl; [done |]. rewrite rbind_assoc.
  destruct (sweep_event iter n st e); simpl; [apply IH | done..].
Qed.
End sweep.

(** What [resolvePriority] answers, with the three facts about it. *)
Lemma resolvePriority_spec items tunerCount :
  exists items', resolvePriority iter items tunerCount = Ok items' /\ Forall2 marked items items' /\
    (has_length items -> forall i p p', items !! i = Some p -> items' !! i = Some p' -> p' <> p ->
       outranked items (tuners tunerCount) p) /\
    (forall t, Z.of_nat (size (busy items' t)) <= tuners tunerCount).
Proof.
  set (n := tuners tunerCount). assert (0 <= n) as Hn by (unfold n, tuners; destruct (_ <? _) eqn:?; lia).
  assert (uniqueChannels ∅ <= n) as H0 by (change (uniqueChannels ∅) with 0; lia).
  destruct (sweep_run items n [] [] (plan_events items) items ∅) as (items' & active' & Hr & Hok & Hm & _);
    [by rewrite app_nil_r | done | apply sweep_start | done |].
  exists items'. split; [unfold resolvePriority; fold n; by rewrite Hr |]. split; [done |].
  split; [intros Hl; by eapply (so_outranked _ _ _ _ _ Hok) |].
  intros t. set (done := upto (plan_events items) t).
  assert (exists rest, plan_events items = done ++ rest) as [rest Hrest]
    by (eexists; by apply sorted_filter_prefix, plan_events_sorted).
  destruct (sweep_run items n rest [] done items ∅) as (mid & active & Hr1 & Hok1 & _ & Hu);
    [done | done | apply sweep_start | done |].
  destruct (sweep_run items n [] done rest mid active) as (items2 & active2 & Hr2 & _ & Hm2 & _);
    [by rewrite app_nil_r | done | done | done |].
  rewrite Hrest, sweep_app, Hr1 in Hr. cbn [rbind] in Hr. rewrite Hr2 in Hr. injection Hr as -> ->.
  etrans; [| exact Hu]. unfold uniqueChannels. apply inj_le, subseteq_size.
  intros c. unfold busy, channels. rewrite !elem_of_list_to_set.
  change (@map Planned Z) with (@fmap list _ Planned Z).
  change (@map (nat * Z) Z) with (@fmap list _ (nat * Z) Z). rewrite !list_elem_of_fmap.
  intros (p & -> & [Hp Hon]%list_elem_of_In%filter_In).
  apply andb_true_iff in Hon as [Hs%negb_true_iff Hon].
  apply list_elem_of_In, list_elem_of_lookup in Hp as [i Hp].
  destruct (Forall2_lookup_r _ _ _ _ _ Hm2 Hp) as (q & Hq & Hqp).
  assert (q = p) as -> by (apply marked_same in Hqp as (_ & _ & _ & H'); symmetry; auto).
  destruct (Forall2_lookup_r _ _ _ _ _ Hm Hp) as (p0 & Hp0 & Hpp).
  assert (p0 = p) as -> by (apply marked_same in Hpp as (_ & _ & _ & H'); symmetry; auto).
  exists (i, Air.ChannelID (Airing p)). split; [done |]. apply elem_of_map_to_list.
  apply (so_active _ _ _ _ _ Hok1). split; [| by exists p].
  unfold on_at in Hon. apply (live_upto _ _ _ (plan_events_spans items) t i (tunerSpan p)); [| done | lia].
  change (@map Planned (Z * Z)) with (@fmap list _ Planned (Z * Z)). by rewrite list_lookup_fmap, Hp0.
Qed.
End tuners.

(** ** The plan is one plan: the order of a map's keys does not show *)

Section determined.
Context `{Unicode}.
Context (iter1 iter2 : list Planned -> gmap nat Z -> list nat).
Context (Hiter1 : forall items m, iter1 items m ≡ₚ map fst (map_to_list m)).
Context (Hiter2 : forall items m, iter2 items m ≡ₚ map fst (map_to_list m)).

(** Two airings of a plan differ in priority, start or id. *)
Definition ranked (items : list Planned) : Prop :=
  forall i j p q, items !! i = Some p -> items !! j = Some q -> i <> j ->
    losesTo p q = true \/ losesTo q p = true.

Lemma marked_ranked items items' : Forall2 marked items items' -> ranked items -> ranked items'.
Proof.
  intros Hm Hr i j p q Hp Hq Hij.
  destruct (Forall2_lookup_r _ _ _ _ _ Hm Hp) as (p0 & Hp0 & (Ea & Ep & _)%marked_same).
  destruct (Forall2_lookup_r _ _ _ _ _ Hm Hq) as (q0 & Hq0 & (Ea' & Ep' & _)%marked_same).
  unfold losesTo. rewrite Ea, Ep, Ea', Ep'. by apply (Hr i j).
Qed.

Lemma lowest_same items (active : gmap nat Z) :
  ranked items -> (forall k, is_Some (active !! k) -> (k < length items)%nat) -> active <> ∅ ->
  lowestPriority iter1 items active = lowestPriority iter2 items active.
Proof.
  intros Hr Hin Hne.
  destruct (lowestPriority_spec iter1 Hiter1 items active Hin Hne) as (k & p & -> & Hk & Hp & Hmin).
  destruct (lowestPriority_spec iter2 Hiter2 items active Hin Hne) as (k' & p' & -> & Hk' & Hp' & Hmin').
  destruct (decide (k = k')) as [-> | Hkk]; [done | exfalso].
  pose proof (Hmin k' p' Hk' Hp'). pose proof (Hmin' k p Hk Hp).
  destruct (Hr k k' p p' Hp Hp' Hkk); congruence.
Qed.

Lemma evict_same fuel n items (active : gmap nat Z) :
  ranked items -> (forall k, is_Some (active !! k) -> (k < length items)%nat) ->
  (forall k p, is_Some (active !! k) -> items !! k = Some p -> Skipped p = false) ->
  evict iter1 fuel n items active = evict iter2 fuel n items active.
Proof.
  revert items active. induction fuel as [| fuel IH]; intros items active Hr Hin Hs; simpl; [done |].
  destruct (_ && _)%bool eqn:Ec; [| done].
  apply andb_true_iff in Ec as [_ Hne%negb_true_iff%bool_decide_eq_false].
  destruct (lowestPriority_spec iter1 Hiter1 items active Hin Hne) as (k & p & Hlow & Hk & Hp & Hmin).
  rewrite <- (lowest_same items active), Hlow by done. cbn [rbind].
  rewrite (idx_Ok items (Z.of_nat k) p) by (rewrite ?Nat2Z.id; done || lia). cbn [rbind].
  rewrite Nat2Z.id. fold (mark p). apply IH.
  - apply (marked_ranked items); [| done].
    rewrite <- (list_insert_id items k p) at 1 by done. apply Forall2_insert; [done |].
    right. split; [by apply (Hs k) | done].
  - intros j [c [_ Hj]%lookup_delete_Some]. rewrite length_insert. apply Hin. by exists c.
  - intros j q [c [Hjk Hj]%lookup_delete_Some] Hq. rewrite list_lookup_insert_ne in Hq by done.
    apply (Hs j); [by exists c | done].
Qed.

Lemma sweep_same items0 n rest done mid items active :
  plan_events items0 = done ++ mid ++ rest -> 0 <= n -> ranked items0 ->
  sweep_ok items0 n done items active -> uniqueChannels active <= n ->
  sweep iter1 n mid (items, active) = sweep iter2 n mid (items, active).
Proof.
  revert done items active. induction mid as [| e mid IH]; intros done items active Hevs Hn Hr Hok Hu; [reflexivity |].
  cbn [sweep].
  destruct (sweep_event_ok iter1 Hiter1 items0 n done e (mid ++ rest) items active Hevs Hn Hok Hu)
    as (items' & active' & Hev & Hok' & _ & Hu').
  assert (sweep_event iter1 n (items, active) e = sweep_event iter2 n (items, active) e) as <-.
  { unfold sweep_event. destruct (negb (is_start e)); [done |].
    destruct (idx items (Z.of_nat (index e))) as [p | |] eqn:Ep; [cbn [rbind] | done..].
    destruct (Skipped p) eqn:Es; [done |]. apply idx_inv in Ep as [_ Hp]. rewrite Nat2Z.id in Hp.
    apply evict_same.
    - by apply (marked_ranked items0); [apply (so_marked _ _ _ _ _ Hok) |].
    - intros k [c [(<- & <-) | (_ & Hk)]%lookup_insert_Some]; [by eapply lookup_lt_Some |].
      destruct (so_lookup _ _ _ _ _ _ _ Hok Hk) as (q & _ & Hq & _). by eapply lookup_lt_Some.
    - intros k q [c [(<- & <-) | (_ & Hk)]%lookup_insert_Some] Hq; [by simplify_eq |].
      destruct (so_lookup _ _ _ _ _ _ _ Hok Hk) as (q' & _ & Hq' & Hs & _). by simplify_eq. }
  rewrite Hev. cbn [rbind]. apply (IH (done ++ [e])); [by rewrite <- app_assoc | done..].
Qed.
End determined.

(** ** Properties *)

(** An order of the keys for the examples. *)
Definition key_order (items : list Planned) (m : gmap nat Z) : list nat := map fst (map_to_list m).
Lemma key_order_perm items m : key_order items m ≡ₚ map fst (map_to_list m).
Proof. done. Qed.

#[local] Existing Instance ascii_unicode.
#[local] Existing Instance utc.

Definition example_airing (id channel start end_ : Z) : Air.Airing :=
  Air.mk id channel (lit "Show") [] [] [] [] false [] 0 0 0 0 [] [] [] [] []
    (of_unix start) (of_unix end_) 0 0.
Definition example_planned (id channel priority start end_ : Z) : Planned :=
  mkPlanned 1 (example_airing id channel start end_) priority 0 0 false false [] None false 0.
Definition example_items : list Planned :=
  [example_planned 1 101 0 0 3600; example_planned 2 102 5 1800 5400; example_planned 3 103 1 3600 7200].

(** C31. A plan never needs more tuners than there are: whatever the passes and
    the listings, whatever order the maps are walked in, the plan is made, and
    at every instant the airings it will record, with their padding, the hour a
    game may run over and recordings already running long, are on no more
    channels than there are tuners. *)
Theorem plan_fits_tuners `{Unicode} (iter : list Planned -> gmap nat Z -> list nat)
    (Hiter : forall items m, iter items m ≡ₚ map fst (map_to_list m)) (items : list Planned) (tunerCount : Z) :
  exists items', resolvePriority iter items tunerCount = Ok items' /\
    forall t, Z.of_nat (size (busy items' t)) <= Z.max 1 tunerCount.
Proof.
  destruct (resolvePriority_spec iter Hiter items tunerCount) as (items' & Hr & _ & _ & Hc).
  exists items'. split; [done |]. intros t. etrans; [apply Hc |].
  unfold tuners. destruct (tunerCount <? 1) eqn:?; lia.
Qed.

Lemma plan_fits_tuners_witness :
  exists items', resolvePriority key_order example_items 1 = Ok items' /\
    forall t, Z.of_nat (size (busy items' t)) <= Z.max 1 1.
Proof. apply (plan_fits_tuners key_order key_order_perm example_items 1). Defined.

(** No airing loses its tuner for nothing: the plan changes nothing but to
    skip airings for a conflict, and for each one there is an instant it would
    be on at which airings that do not rank under it (and were not skipped
    already) need more channels than there are tuners. *)
Theorem skips_are_outranked `{Unicode} (iter : list Planned -> gmap nat Z -> list nat)
    (Hiter : forall items m, iter items m ≡ₚ map fst (map_to_list m)) (items items' : list Planned)
    (tunerCount : Z) (Hlen : has_length items) (Hres : resolvePriority iter items tunerCount = Ok items') :
  Forall2 (fun p p' => p' = p \/
    (Skipped p = false /\ p' = mark p /\ outranked items (tuners tunerCount) p)) items items'.
Proof.
  destruct (resolvePriority_spec iter Hiter items tunerCount) as (items2 & Hr & Hm & Ho & _).
  rewrite Hres in Hr. injection Hr as <-. apply Forall2_same_length_lookup.
  split; [by eapply Forall2_length |]. intros i p p' Hp Hp'.
  destruct (Forall2_lookup_lr _ _ _ _ _ _ Hm Hp Hp') as [-> | [Hs ->]]; [by left |].
  right. split_and!; [done.. |]. apply (Ho Hlen i p (mark p)); [done.. |].
  intros E. apply (f_equal Skipped) in E. simpl in E. congruence.
Qed.

Lemma skips_are_outranked_witness :
  Forall2 (fun p p' => p' = p \/
    (Skipped p = false /\ p' = mark p /\ outranked example_items (tuners 1) p)) example_items
    (map mark (take 1 example_items) ++ take 1 (drop 1 example_items) ++ map mark (drop 2 example_items)).
Proof.
  apply (skips_are_outranked key_order key_order_perm example_items _ 1).
  - unfold has_length. repeat constructor.
  - vm_compute. reflexivity.
Defined.

(** The plan is a function of its airings: where no two of them have the
    same priority, start and id, walking the map of active airings in another
    order gives the same plan. *)
Theorem plan_determined `{Unicode} (iter1 iter2 : list Planned -> gmap nat Z -> list nat)
    (Hiter1 : forall items m, iter1 items m ≡ₚ map fst (map_to_list m))
    (Hiter2 : forall items m, iter2 items m ≡ₚ map fst (map_to_list m))
    (items : list Planned) (tunerCount : Z)
    (Hd : NoDup (map (fun p => (Priority p, Air.Start (Airing p), Air.ID (Airing p))) items)) :
  resolvePriority iter1 items tunerCount = resolvePriority iter2 items tunerCount.
Proof.
  unfold resolvePriority. set (n := tuners tunerCount).
  assert (0 <= n) as Hn by (unfold n, tuners; destruct (_ <? _) eqn:?; lia).
  f_equal. apply (sweep_same iter1 iter2 Hiter1 Hiter2 items n [] []);
    [by rewrite app_nil_r | done | | apply (sweep_start iter1 Hiter1) | done].
  intros i j p q Hp Hq Hij. unfold losesTo. assert (map (fun p => (Priority p, Air.Start (Airing p), Air.ID (Airing p))) items !! i
    <> map (fun p => (Priority p, Air.Start (Airing p), Air.ID (Airing p))) items !! j) as Hne.
  { intros E. destruct (map _ items !! i) eqn:Ei.
    - by apply Hij, (NoDup_lookup _ i j _ Hd Ei).
    - change (@map Planned (Z * Z * Z)) with (@fmap list _ Planned (Z * Z * Z)) in Ei.
      by rewrite list_lookup_fmap, Hp in Ei. }
  change (@map Planned (Z * Z * Z)) with (@fmap list _ Planned (Z * Z * Z)) in Hne.
  rewrite !list_lookup_fmap, Hp, Hq in Hne. simpl in Hne.
  destruct (Z.eqb_spec (Priority p) (Priority q)) as [E1 |], (Z.eqb_spec (Priority q) (Priority p)); simpl; try lia.
  destruct (Z.eqb_spec (Air.Start (Airing p)) (Air.Start (Airing q))) as [E2 |],
    (Z.eqb_spec (Air.Start (Airing q)) (Air.Start (Airing p))); simpl; try lia.
  assert (Air.ID (Airing p) <> Air.ID (Airing q)) by (intros E3; apply Hne; by rewrite E1, E2, E3). lia.
Qed.

Lemma plan_determined_witness :
  resolvePriority key_order example_items 1 =
  resolvePriority (fun _ m => reverse (map fst (map_to_list m))) example_items 1.
Proof.
  apply plan_determined.
  - apply key_order_perm.
  - intros items m. apply reverse_Permutation.
  - apply (bool_decide_unpack _). vm_compute. exact I.
Defined.

Section matching.
Context `{Unicode, Zone}.

Lemma find_some_elem {A} (f : A -> bool) l x : find f l = Some x -> x ∈ l /\ f x = true.
Proof. intros [? ?]%find_some. by rewrite list_elem_of_In. Qed.

Lemma matchPass_spec passes airing :
  match matchPass passes airing with
  | Some pass => pass ∈ passes /\ passMatches pass airing = true /\
      (forall q, q ∈ passes -> bytes_equal (Pas.Kind q) (lit "once") = true -> passMatches q airing = true ->
         bytes_equal (Pas.Kind pass) (lit "once") = true)
  | None => forall q, q ∈ passes -> passMatches q airing = false
  end.
Proof.
  unfold matchPass. destruct (find _ passes) as [p |] eqn:E1.
  { apply find_some_elem in E1 as [Hp [Hk Hm]%andb_true_iff]. done. }
  assert (forall q, q ∈ passes -> bytes_equal (Pas.Kind q) (lit "once") = true -> passMatches q airing = false) as Ho.
  { intros q Hq Hk. apply list_elem_of_In in Hq. pose proof (find_none _ _ E1 q Hq) as Hn. cbv beta in Hn.
    by rewrite Hk in Hn. }
  match goal with |- context [find ?f passes] => destruct (find f passes) as [p |] eqn:E2 end.
  { apply find_some_elem in E2 as [Hp [Hk Hm]%andb_true_iff]. split; [done |]. split; [done |].
    intros q Hq Hk' Hm'. by rewrite (Ho q Hq Hk') in Hm'. }
  intros q Hq. destruct (bytes_equal (Pas.Kind q) (lit "once")) eqn:Ek; [by apply Ho |].
  apply list_elem_of_In in Hq. pose proof (find_none _ _ E2 q Hq) as Hn. cbv beta in Hn. by rewrite Ek in Hn.
Qed.

(** An airing that a pass records between two instants. *)
Definition wanted (passes : list Pas.Pass) (from to : Z) (airing : Air.Airing) : Prop :=
  from < Air.End_ airing /\ Air.Start airing < to /\
  exists pass, pass ∈ passes /\ passMatches pass airing = true.

Lemma elem_match_loop passes airings from to p :
  p ∈ match_loop passes airings from to <->
  exists airing pass, airing ∈ airings /\ from < Air.End_ airing /\ Air.Start airing < to /\
    matchPass passes airing = Some pass /\ p = planned pass airing.
Proof.
  induction airings as [| a airings IH]; simpl; [set_solver |].
  destruct (negb (from <? Air.End_ a) || negb (Air.Start a <? to))%bool eqn:Ew.
  - rewrite IH. split; [intros (x & pass & ? & ?); exists x, pass; set_solver |].
    intros (x & pass & [-> | Hx]%elem_of_cons & Hrest); [| by exists x, pass].
    apply orb_true_iff in Ew. rewrite !negb_true_iff in Ew. lia.
  - apply orb_false_iff in Ew as [Ew1%negb_false_iff Ew2%negb_false_iff].
    destruct (matchPass passes a) as [pass |] eqn:Em.
    + rewrite elem_of_cons, IH. split.
      * intros [-> | (x & q & ? & ?)]; [exists a, pass; split; [set_solver | repeat split; done || lia] |].
        exists x, q. set_solver.
      * intros (x & q & [-> | Hx]%elem_of_cons & ? & ? & Hq & ->); [left; by simplify_eq |].
        right. by exists x, q.
    + rewrite IH. split; [intros (x & q & ? & ?); exists x, q; set_solver |].
      intros (x & q & [-> | Hx]%elem_of_cons & ? & ? & Hq & ->); [by simplify_eq |]. by exists x, q.
Qed.
End matching.

(** What the passes ask for is planned: of the listings and the slots of
    the manual passes, exactly those on between [from] and [to] that a pass
    matches are planned, in the order they start; each under a pass that
    matches it, and under a pass for that airing alone when there is one. *)
Theorem match_records `{Unicode, Zone} (passes : list Pas.Pass) (airings manual : list Air.Airing)
    (from to : Z) (Hman : manualAirings passes airings from to = Some manual) :
  exists items, match_ passes airings from to = Some items /\
    StronglySorted (fun p q => starts_first q p = false) items /\
    (forall a, (exists p, p ∈ items /\ Airing p = a) <-> a ∈ airings ++ manual /\ wanted passes from to a) /\
    (forall p, p ∈ items -> exists pass, pass ∈ passes /\ passMatches pass (Airing p) = true /\
       p = planned pass (Airing p) /\
       (forall q, q ∈ passes -> bytes_equal (Pas.Kind q) (lit "once") = true ->
          passMatches q (Airing p) = true -> bytes_equal (Pas.Kind pass) (lit "once") = true)).
Proof.
  unfold match_. rewrite Hman. eexists. split; [done |].
  split; [apply sort_by_sorted, _ |]. split.
  - intros a. setoid_rewrite sort_by_perm. setoid_rewrite elem_match_loop. split.
    + intros (p & (x & pass & Hx & ? & ? & Hm & ->) & <-). split; [done |].
      split_and!; [done.. |]. exists pass. pose proof (matchPass_spec passes x) as Hs. rewrite Hm in Hs. naive_solver.
    + intros (Ha & ? & ? & pass & Hp & Hm). pose proof (matchPass_spec passes a) as Hs.
      destruct (matchPass passes a) as [q |] eqn:Eq; [| rewrite (Hs pass Hp) in Hm; done].
      exists (planned q a). split; [| done]. by exists a, q.
  - intros p. rewrite sort_by_perm, elem_match_loop. intros (x & pass & _ & _ & _ & Hm & ->).
    pose proof (matchPass_spec passes x) as Hs. rewrite Hm in Hs. exists pass. naive_solver.
Qed.

Definition example_pass : Pas.Pass :=
  Pas.mk 7 (lit "show") 0 (lit "series") 1 2 3 [] [] 0 0 false false [] [] [] [] 0 0.
Lemma match_records_witness :
  exists items, match_ [example_pass] [example_airing 1 101 0 3600] 0 (of_unix 100) = Some items /\
    StronglySorted (fun p q => starts_first q p = false) items /\
    (forall a, (exists p, p ∈ items /\ Airing p = a) <->
       a ∈ [example_airing 1 101 0 3600] ++ [] /\ wanted [example_pass] 0 (of_unix 100) a) /\
    (forall p, p ∈ items -> exists pass, pass ∈ [example_pass] /\ passMatches pass (Airing p) = true /\
       p = planned pass (Airing p) /\
       (forall q, q ∈ [example_pass] -> bytes_equal (Pas.Kind q) (lit "once") = true ->
          passMatches q (Airing p) = true -> bytes_equal (Pas.Kind pass) (lit "once") = true)).
Proof. apply match_records. vm_compute. reflexivity. Defined.
