(* ===== verification/DvrConflict.v ===== *)
(** Conflicts between tuners and what is offered for them,
    [server/internal/dvr/conflict.go]: whether spans fit on the tuners, a later
    airing of a skipped show, the passes that record it instead, and the
    warning before live viewing that a recording would stop. *)
From S2P Require Import Prelude GoText Dvr DvrPlan.
From stdpp Require Import fin_maps gmap sorting.
Local Open Scope Z_scope.
Local Open Scope go_scope.

(** ** Spans on the tuners *)

Record span := mkSpan { sp_start : Z; sp_end : Z; channel : Z }.

Definition lasts (s : Z * Z) : bool := fst s <? snd s.
Definition span_of (s : span) : Z * Z := (sp_start s, sp_end s).
Definition over_events (spans : list span) : list event :=
  sort_by before
    (concat (imap (fun i s => if lasts (span_of s) then item_events i (span_of s) else []) spans)).

(** An event carries its span's channel; it is looked up here by its index. *)
Fixpoint over_loop (spans : list span) (n : Z) (events : list event) (active : gmap nat Z) : res bool :=
  match events with
  | [] => Ok false
  | ev :: events =>
      if negb (is_start ev) then over_loop spans n events (delete (index ev) active)
      else
        let! s := idx spans (Z.of_nat (index ev)) in
        let active := <[index ev := channel s]> active in
        if n <? uniqueChannels active then Ok true else over_loop spans n events active
  end.
Definition overflows (spans : list span) (tunerCount : Z) : res bool :=
  over_loop spans (tuners tunerCount) (over_events spans) ∅.

(** ** Suggestions *)

Section conflict.
Context `{Unicode, Zone}.

Definition sameShowing (a b : Air.Airing) : bool :=
  if ((0 <? Air.ID a) && (Air.ID a =? Air.ID b))%bool then true
  else ((Air.ChannelID a =? Air.ChannelID b) && negb (IsZero (Air.Start a))
        && (Air.Start a =? Air.Start b))%bool.

Definition item_span (p : Planned) : span :=
  mkSpan (fst (tunerSpan p)) (snd (tunerSpan p)) (Air.ChannelID (Airing p)).
Definition beside (items : list Planned) (air : Air.Airing) : list Planned :=
  List.filter (fun p => negb (Skipped p || sameShowing (Airing p) air))%bool items.
Definition fitsBeside (items : list Planned) (cand : Planned) (tunerCount : Z) : res bool :=
  let air := Airing cand in
  if existsb (fun p => negb (Skipped p) && sameShowing (Airing p) air)%bool items then Ok true
  else
    let! o := overflows (map item_span (beside items air) ++ [item_span cand]) tunerCount in
    Ok (negb o).

Definition with_channel (pass : Pas.Pass) (channelID : Z) : Pas.Pass :=
  Pas.mk (Pas.ID pass) (Pas.Title pass) channelID (Pas.Kind pass) (Pas.PadBefore pass)
    (Pas.PadAfter pass) (Pas.Priority pass) (Pas.Episodes pass) (Pas.KeepMode pass)
    (Pas.KeepCount pass) (Pas.LimitCount pass) (Pas.Rerecord pass) (Pas.Commercials pass)
    (Pas.TimeStart pass) (Pas.TimeEnd pass) (Pas.MatchKind pass) (Pas.Days pass)
    (Pas.AiringStart pass) (Pas.Duration pass).

Definition rulesMatch (pass : Pas.Pass) (airing : Air.Airing) : bool :=
  passMatches (with_channel pass 0) airing.

Definition librarySkip (items : list Planned) (air : Air.Airing) : bool :=
  existsb (fun p => sameShowing (Airing p) air && Skipped p && negb (Conflict p))%bool items.

(** The candidate [Planned{Airing: air, PadBefore: ..., PadAfter: ...}]. *)
Definition candidate (skipped : Planned) (air : Air.Airing) : Planned :=
  mkPlanned 0 air 0 (PadBefore skipped) (PadAfter skipped) false false [] None false 0.

(** The airing passes every test of [laterAiring] but the last. *)
Definition may_stand_in (items : list Planned) (skipped : Planned) (pass : Pas.Pass) (from to : Z)
    (air : Air.Airing) : bool :=
  ((from <? Air.End_ air) && (Air.Start air <? to)
   && negb (bytes_equal (TrimSpace (Air.Title air)) []) && negb (sameShowing air (Airing skipped))
   && (Air.Start (Airing skipped) <? Air.Start air)
   && EqualFold (TrimSpace (Air.Title air)) (TrimSpace (Air.Title (Airing skipped)))
   && rulesMatch pass air && negb (librarySkip items air))%bool.

Fixpoint later_loop (items : list Planned) (skipped : Planned) (pass : Pas.Pass) (tunerCount from to : Z)
    (airings : list Air.Airing) (best : option Air.Airing) : res (option Air.Airing) :=
  match airings with
  | [] => Ok best
  | air :: airings =>
      if negb (may_stand_in items skipped pass from to air)
      then later_loop items skipped pass tunerCount from to airings best
      else
        let! fits := fitsBeside items (candidate skipped air) tunerCount in
        let best :=
          if negb fits then best
          else match best with
               | None => Some air
               | Some b =>
                   if ((Air.Start air <? Air.Start b)
                       || ((Air.Start air =? Air.Start b) && (Air.ChannelID air <? Air.ChannelID b)))%bool
                   then Some air else best
               end in
        later_loop items skipped pass tunerCount from to airings best
  end.

Definition suggestion (guides : gmap Z (list Z)) (best : Air.Airing) : Suggestion :=
  mkSuggestion (Air.ChannelID best) (default [] (guides !! Air.ChannelID best)) (Air.Title best)
    (Air.Start best) (Air.End_ best).

Definition laterAiring (items : list Planned) (skipped : Planned) (pass : Pas.Pass)
    (airings : list Air.Airing) (tunerCount from to : Z) (guides : gmap Z (list Z)) : res (option Suggestion) :=
  let! best := later_loop items skipped pass tunerCount from to airings None in
  Ok (suggestion guides <$> best).

(** [AttachSuggestions]; only [Suggestion] changes, which nothing here reads. *)
Fixpoint attach_loop (all items : list Planned) (passes : list Pas.Pass) (airings : list Air.Airing)
    (tunerCount from to : Z) (guides : gmap Z (list Z)) : res (list Planned) :=
  match items with
  | [] => Ok []
  | p :: items =>
      let! p :=
        (if (negb (Skipped p) || negb (Conflict p))%bool then Ok p
         else match pass_by_id passes (PassID p) with
              | None => Ok p
              | Some pass =>
                  let! alt := laterAiring all p pass airings tunerCount from to guides in
                  Ok (match alt with Some s => set_sugg p s | None => p end)
              end) in
      let! rest := attach_loop all items passes airings tunerCount from to guides in
      Ok (p :: rest)
  end.
Definition AttachSuggestions (items : list Planned) (passes : list Pas.Pass) (airings : list Air.Airing)
    (tunerCount from to : Z) (guides : gmap Z (list Z)) : res (list Planned) :=
  attach_loop items items passes airings (tuners tunerCount) from to guides.

(** ** Fixes *)

Record FixPlan := mkFix { Skip : Air.Airing; SetChannel : Z; OneShot : option Pas.Pass }.

Definition channelAdjust (pass : Pas.Pass) (sugg : Air.Airing) : bool :=
  if ((Pas.ChannelID pass =? 0) || (Air.ChannelID sugg =? 0)
      || (Air.ChannelID sugg =? Pas.ChannelID pass))%bool then false
  else
    let kind := ToLower (TrimSpace (Pas.MatchKind pass)) in
    if (bytes_equal kind (lit "team") || EqualFold (Pas.Kind pass) (lit "team")
        || (negb (bytes_equal kind []) && negb (bytes_equal kind (lit "title"))))%bool then false
    else passMatches (with_channel pass 0) sugg.

Definition oneShotPass (pass : Pas.Pass) (sugg : Air.Airing) : Pas.Pass :=
  Pas.mk 0 (TrimSpace (Air.Title sugg)) (Air.ChannelID sugg) (lit "once") (Pas.PadBefore pass)
    (Pas.PadAfter pass) (Pas.Priority pass) [] [] 0 0 false (Pas.Commercials pass) [] [] [] []
    (Air.Start sugg) 0.

Definition PlanFix (pass : Pas.Pass) (skipped sugg : Air.Airing) : FixPlan :=
  if passMatches pass sugg then mkFix skipped 0 None
  else if channelAdjust pass sugg then mkFix skipped (Air.ChannelID sugg) None
  else mkFix skipped 0 (Some (oneShotPass pass sugg)).

Definition HaveOneShot (passes : list Pas.Pass) (sugg : Air.Airing) : bool :=
  existsb (fun p => bytes_equal (Pas.Kind p) (lit "once") && passMatches p sugg)%bool passes.

(** ** Live viewing *)

Record Soon := mkSoon { soon_Title : list Z; soon_ChannelID : Z; soon_Start : Z; Pad : Z }.

Definition inPad (item : Soon) (now : Z) : bool :=
  if (IsZero (soon_Start item) || negb (now <? soon_Start item))%bool then false
  else
    let pad := if Pad item <? recordLead then recordLead else Pad item in
    negb (now <? soon_Start item - pad).

Fixpoint due_loop (due : list Soon) (anon : Z) (seen : gset Z) : gset Z :=
  match due with
  | [] => seen
  | item :: due =>
      if soon_ChannelID item =? 0 then due_loop due (anon - 1) ({[anon - 1]} ∪ seen)
      else due_loop due anon ({[soon_ChannelID item]} ∪ seen)
  end.
Definition dueTuners (due : list Soon) : Z := Z.of_nat (size (due_loop due 0 ∅)).

(** [Format("3:04 PM")] of the local clock *)
Definition kitchen (t : Z) : list Z :=
  let h := local_hour t in
  let h12 := if h mod 12 =? 0 then 12 else h mod 12 in
  format_int h12 ++ [58] ++ two (local_minute t) ++ (if h <? 12 then lit " AM" else lit " PM").

Definition liveWarningText (soon : Soon) (needed : Z) : list Z :=
  let title := TrimSpace (soon_Title soon) in
  let title := if bytes_equal title [] then lit "A recording" else title in
  let head := title ++ lit " starts at " ++ kitchen (soon_Start soon) in
  if 1 <? needed then head ++ lit ". Watching stops when " ++ format_int needed ++ lit " recordings start."
  else head ++ lit ". Watching stops when that recording starts.".

Definition soonest (due : list Soon) (soon : Soon) : Soon :=
  fold_left (fun soon item => if soon_Start item <? soon_Start soon then item else soon) due soon.

Definition LiveWatch (tunerCount busyOthers : Z) (upcoming : list Soon) (now : Z) : res (bool * list Z) :=
  let tunerCount := tuners tunerCount in
  let busyOthers := if busyOthers <? 0 then 0 else busyOthers in
  let due := List.filter (fun item => inPad item now) upcoming in
  let needed := dueTuners due in
  if ((needed =? 0) || (needed <=? tunerCount - busyOthers - 1))%bool then Ok (true, [])
  else
    let! first := idx due 0 in
    Ok (false, liveWarningText (soonest (drop 1 due) first) needed).
End conflict.

(** ** [overflows] decides whether some instant needs too many tuners *)

(** The channels on at an instant. *)
Definition span_channels (spans : list span) (t : Z) : gset Z :=
  list_to_set (map channel (List.filter (fun s => (sp_start s <=? t) && (t <? sp_end s))%bool spans)).

Section overflow.
Context (spans : list span) (n : Z).
Notation evs := (over_events spans).

Lemma over_events_spans : evs ≡ₚ span_events lasts (map span_of spans).
Proof.
  unfold over_events, span_events. rewrite sort_by_perm.
  change (@map span (Z * Z)) with (@fmap list _ span (Z * Z)). by rewrite imap_fmap.
Qed.

Lemma over_events_sorted : StronglySorted (in_order before) evs.
Proof. apply sort_by_sorted. apply _. Qed.

Definition over_ok (done : list event) (active : gmap nat Z) : Prop :=
  forall i c, active !! i = Some c <-> i ∈ live done /\ exists s, spans !! i = Some s /\ c = channel s.

Lemma elem_span_channels t c :
  c ∈ span_channels spans t <-> exists i s, spans !! i = Some s /\ sp_start s <= t < sp_end s /\ c = channel s.
Proof.
  unfold span_channels. rewrite elem_of_list_to_set.
  change (@map span Z) with (@fmap list _ span Z). rewrite list_elem_of_fmap. split.
  - intros (s & -> & [Hs Ht]%list_elem_of_In%filter_In). apply list_elem_of_In, list_elem_of_lookup in Hs as [i Hi].
    exists i, s. split_and!; [done | lia | lia | done].
  - intros (i & s & Hi & Ht & ->). exists s. split; [done |]. apply list_elem_of_In, filter_In.
    split; [| lia]. apply list_elem_of_In. by eapply list_elem_of_lookup_2.
Qed.

Lemma elem_active_channels (active : gmap nat Z) c :
  c ∈ (list_to_set (map snd (map_to_list active)) : gset Z) <-> exists i, active !! i = Some c.
Proof.
  rewrite elem_of_list_to_set. change (@map (nat * Z) Z) with (@fmap list _ (nat * Z) Z).
  rewrite list_elem_of_fmap. split.
  - intros ([i c'] & -> & Hi%elem_of_map_to_list). by exists i.
  - intros [i Hi]. exists (i, c). by rewrite elem_of_map_to_list.
Qed.

(** The event of a span, and when its start finds the tuners. *)
Lemma over_event done e rest :
  evs = done ++ e :: rest -> exists s, spans !! index e = Some s /\ lasts (span_of s) = true /\
    at_ e = (if is_start e then sp_start s else sp_end s).
Proof.
  intros Hevs. assert (e ∈ evs) as He by (rewrite Hevs; set_solver).
  apply (elem_evs _ _ _ over_events_spans) in He as (x & Hx & Hk & Hat).
  change (@map span (Z * Z)) with (@fmap list _ span (Z * Z)) in Hx.
  apply list_lookup_fmap_Some in Hx as (s & -> & Hs). by exists s.
Qed.

Lemma over_step_ok done e rest active s :
  evs = done ++ e :: rest -> is_start e = true -> over_ok done active -> spans !! index e = Some s ->
  over_ok (done ++ [e]) (<[index e := channel s]> active).
Proof.
  intros Hevs He Hok Hs i c. rewrite live_snoc. unfold live_step. rewrite He.
  destruct (decide (i = index e)) as [-> | Hne].
  - rewrite lookup_insert_eq. split; [intros [= <-]; split; [set_solver | by exists s] |].
    intros (_ & s' & Hs' & ->). by simplify_eq.
  - rewrite lookup_insert_ne, (Hok i c) by done. set_solver.
Qed.

(** At a start, what is active is on. *)
Lemma over_active_on done e rest active s :
  evs = done ++ e :: rest -> is_start e = true -> over_ok done active -> spans !! index e = Some s ->
  uniqueChannels (<[index e := channel s]> active) <= Z.of_nat (size (span_channels spans (at_ e))).
Proof.
  intros Hevs He Hok Hs. unfold uniqueChannels. apply inj_le, subseteq_size. intros c Hc.
  apply elem_active_channels in Hc as [i Hi]. apply elem_span_channels.
  apply (over_step_ok done e rest active s Hevs He Hok Hs) in Hi as (Hl & s' & Hs' & ->).
  exists i, s'. split; [done |]. split; [| done].
  rewrite live_snoc in Hl. unfold live_step in Hl. rewrite He in Hl.
  apply elem_of_union in Hl as [->%elem_of_singleton | Hl].
  - destruct (over_event done e rest Hevs) as (x & Hx & Hk & Hat). simplify_eq. rewrite He in Hat.
    unfold lasts, span_of in Hk. simpl in Hk. lia.
  - destruct (live_start _ _ Hl) as (x & Hx & Hxi & _).
    assert (exists l1 l2, evs = l1 ++ x :: l2) as (l1 & l2 & Hsplit)
      by (apply list_elem_of_split; rewrite Hevs; set_solver).
    destruct (over_event _ _ _ Hsplit) as (y & Hy & Hk & _). rewrite Hxi in Hy. simplify_eq.
    unfold lasts, span_of in Hk. simpl in Hk.
    pose proof (live_on _ _ _ over_events_spans over_events_sorted done e rest (index x) (span_of s') Hevs He Hl)
      as Hon. unfold span_of in Hon. simpl in Hon. apply Hon; [| lia].
    change (@map span (Z * Z)) with (@fmap list _ span (Z * Z)). by rewrite list_lookup_fmap, Hs'.
Qed.

(** After the events up to an instant, what is on is active. *)
Lemma over_upto t active :
  over_ok (upto evs t) active -> Z.of_nat (size (span_channels spans t)) <= uniqueChannels active.
Proof.
  intros Hok. unfold uniqueChannels. apply inj_le, subseteq_size. intros c Hc.
  apply elem_span_channels in Hc as (i & s & Hs & Ht & ->). apply elem_active_channels. exists i.
  apply Hok. split; [| by exists s].
  apply (live_upto _ _ _ over_events_spans t i (span_of s)).
  - change (@map span (Z * Z)) with (@fmap list _ span (Z * Z)). by rewrite list_lookup_fmap, Hs.
  - unfold lasts, span_of. simpl. lia.
  - done.
Qed.

Lemma over_loop_spec mid done rest active :
  evs = done ++ mid ++ rest -> over_ok done active -> uniqueChannels active <= n ->
  (over_loop spans n (mid ++ rest) active = Ok true /\ (exists t, n < Z.of_nat (size (span_channels spans t)))) \/
  (exists active', over_loop spans n (mid ++ rest) active = over_loop spans n rest active' /\
     over_ok (done ++ mid) active' /\ uniqueChannels active' <= n).
Proof.
  revert done active. induction mid as [| e mid IH]; intros done active Hevs Hok Hu.
  { right. exists active. by rewrite app_nil_r. }
  simpl. change (e :: mid) with ([e] ++ mid). rewrite (app_assoc done [e] mid).
  destruct (is_start e) eqn:He; cbn [negb].
  - destruct (over_event done e (mid ++ rest) Hevs) as (s & Hs & _).
    rewrite (idx_Ok spans (Z.of_nat (index e)) s) by (rewrite ?Nat2Z.id; done || lia). cbn [rbind].
    destruct (n <? uniqueChannels (<[index e := channel s]> active)) eqn:En.
    + left. split; [done |]. exists (at_ e). apply Z.ltb_lt in En.
      eapply Z.lt_le_trans; [exact En | by eapply over_active_on].
    + apply IH; [by rewrite <- app_assoc | by eapply over_step_ok | by apply Z.ltb_ge].
  - apply IH; [by rewrite <- app_assoc | | etrans; [apply uniqueChannels_delete | done]].
    intros i c. rewrite lookup_delete_Some, (Hok i c), live_snoc. unfold live_step. rewrite He. set_solver.
Qed.

Lemma overflow_exact :
  0 <= n -> exists b, over_loop spans n evs ∅ = Ok b /\
    (b = true <-> exists t, n < Z.of_nat (size (span_channels spans t))).
Proof.
  intros Hn. assert (over_ok [] ∅) as H0 by (intros i c; set_solver).
  assert (uniqueChannels ∅ <= n) as Hu0 by (change (uniqueChannels ∅) with 0; lia).
  destruct (over_loop_spec evs [] [] ∅) as [[Hr Ht] | (a & Hr & _)]; [by rewrite app_nil_r | done | done | |].
  { exists true. rewrite app_nil_r in Hr. done. }
  rewrite app_nil_r in Hr. exists false. split; [by rewrite Hr |]. split; [done |]. intros [t Ht]. exfalso.
  assert (exists rest, evs = upto evs t ++ rest) as [rest Hrest]
    by (eexists; by apply sorted_filter_prefix, over_events_sorted).
  destruct (over_loop_spec (upto evs t) [] rest ∅ Hrest H0 Hu0) as [[Hr' _] | (a' & _ & Hok & Hu)].
  - rewrite <- Hrest, Hr in Hr'. done.
  - pose proof (over_upto t a' Hok). lia.
Qed.
End overflow.

(** C34. [overflows] is exact: it answers, and says yes exactly when some
    instant is inside spans of more channels than there are tuners. *)
Theorem overflows_exact (spans : list span) (tunerCount : Z) :
  exists b, overflows spans tunerCount = Ok b /\
    (b = true <-> exists t, Z.max 1 tunerCount < Z.of_nat (size (span_channels spans t))).
Proof.
  replace (Z.max 1 tunerCount) with (tuners tunerCount) by (unfold tuners; destruct (_ <? _) eqn:?; lia).
  apply overflow_exact. unfold tuners. destruct (_ <? _) eqn:?; lia.
Qed.

(** ** A suggestion fits *)

Section suggestions.
Context `{Unicode, Zone}.

(** A plan has an airing's showing already, or has the tuners to add it. *)
Definition can_add (items : list Planned) (cand : Planned) (tunerCount : Z) : Prop :=
  (exists q, q ∈ items /\ Skipped q = false /\ sameShowing (Airing q) (Airing cand) = true) \/
  (forall t, Z.of_nat (size (span_channels (map item_span (beside items (Airing cand) ++ [cand])) t))
     <= Z.max 1 tunerCount).

Lemma fitsBeside_spec items cand n :
  exists b, fitsBeside items cand n = Ok b /\ (b = true <-> can_add items cand n).
Proof.
  unfold fitsBeside, can_add. destruct (existsb _ items) eqn:Ee.
  { exists true. split; [done |]. split; [| done]. intros _. left.
    apply existsb_exists in Ee as (q & Hq & [Hs%negb_true_iff Hsh]%andb_true_iff). exists q.
    by rewrite list_elem_of_In. }
  change [item_span cand] with (map item_span [cand]). rewrite <- map_app.
  destruct (overflows_exact (map item_span (beside items (Airing cand) ++ [cand])) n) as (b & -> & Hb).
  cbn [rbind]. exists (negb b). split; [done |]. rewrite negb_true_iff. split.
  - intros ->. right. intros t. destruct (Z_le_gt_dec (Z.of_nat (size (span_channels
      (map item_span (beside items (Airing cand) ++ [cand])) t))) (Z.max 1 n)); [done |].
    assert (false = true); [apply Hb; exists t; lia | done].
  - intros [(q & Hq & Hs & Hsh) | Hall].
    + rewrite <- not_true_iff_false in Ee. destruct Ee. apply existsb_exists. exists q.
      rewrite <- list_elem_of_In, Hs, Hsh. done.
    + destruct b; [| done]. destruct Hb as [Hb _]. destruct (Hb eq_refl) as [t Ht].
      specialize (Hall t). lia.
Qed.

(** What makes an airing a stand-in for a skipped one. *)
Definition stands_in (items : list Planned) (skipped : Planned) (pass : Pas.Pass) (n from to : Z)
    (air : Air.Airing) : Prop :=
  may_stand_in items skipped pass from to air = true /\ can_add items (candidate skipped air) n.

Definition precedes (a b : Air.Airing) : Prop :=
  Air.Start a < Air.Start b \/ (Air.Start a = Air.Start b /\ Air.ChannelID a <= Air.ChannelID b).

Lemma later_loop_spec items skipped pass n from to airings best :
  exists r, later_loop items skipped pass n from to airings best = Ok r /\
    (forall a, r = Some a -> best = Some a \/ (a ∈ airings /\ stands_in items skipped pass n from to a)) /\
    (forall a, best = Some a \/ (a ∈ airings /\ stands_in items skipped pass n from to a) ->
       exists b, r = Some b /\ precedes b a).
Proof.
  revert best. induction airings as [| air airings IH]; intros best; cbn [later_loop].
  { exists best. split; [done |]. split; [by left |]. intros a [-> | [? _]]; [| set_solver].
    exists a. split; [done | right; lia]. }
  destruct (may_stand_in items skipped pass from to air) eqn:Em; cbn [negb].
  2: { destruct (IH best) as (r & -> & Hin & Hmin). exists r. split; [done |]. split.
       - intros a Ha. destruct (Hin a Ha) as [? | [? ?]]; [by left | right]. split; [set_solver | done].
       - intros a [? | [[-> | ?]%elem_of_cons Hs]]; [apply Hmin; by left | | apply Hmin; by right].
         destruct Hs as [Hs _]. congruence. }
  destruct (fitsBeside_spec items (candidate skipped air) n) as (fits & -> & Hfits). cbn [rbind].
  set (best' := if negb fits then best else _).
  assert (forall a, best' = Some a -> best = Some a \/ (a = air /\ stands_in items skipped pass n from to air)) as Hb1.
  { intros a. unfold best'. destruct fits; cbn [negb]; [| by left].
    assert (stands_in items skipped pass n from to air) as Hs by (split; [done | by apply Hfits]).
    destruct best as [b |]; [| intros [= <-]; by right].
    destruct (_ || _)%bool; [intros [= <-]; by right | by left]. }
  assert (forall a, best = Some a \/ (a = air /\ stands_in items skipped pass n from to air) ->
    exists b, best' = Some b /\ precedes b a) as Hb2.
  { unfold best', precedes. intros a Ha. destruct fits; cbn [negb].
    - destruct best as [b |].
      + destruct (_ || _)%bool eqn:Eo; destruct Ha as [[= <-] | [-> _]]; eexists; (split; [done | lia]).
      + destruct Ha as [? | [-> _]]; [done |]. exists air. split; [done | lia].
    - destruct Ha as [-> | [-> [_ Hc]]]; [exists a; split; [done | lia] |].
      by apply Hfits in Hc. }
  destruct (IH best') as (r & -> & Hin & Hmin). exists r. split; [done |]. split.
  - intros a Ha. destruct (Hin a Ha) as [Hb | [? ?]]; [| right; split; [set_solver | done]].
    destruct (Hb1 a Hb) as [? | [-> ?]]; [by left | right; split; [set_solver | done]].
  - intros a Ha.
    assert ((best = Some a \/ (a = air /\ stands_in items skipped pass n from to air)) \/
      (a ∈ airings /\ stands_in items skipped pass n from to a)) as [Hx | Hx].
    { destruct Ha as [? | [[-> | ?]%elem_of_cons ?]]; [by left; left | by left; right | by right]. }
    + destruct (Hb2 a Hx) as (b & Hb & Hba). destruct (Hmin b (or_introl Hb)) as (c & -> & Hcb).
      exists c. split; [done |]. unfold precedes in *. lia.
    + apply Hmin. by right.
Qed.

Lemma stands_in_tuners items skipped pass n from to air :
  stands_in items skipped pass (tuners n) from to air <-> stands_in items skipped pass n from to air.
Proof.
  unfold stands_in, can_add. replace (Z.max 1 (tuners n)) with (Z.max 1 n); [done |].
  unfold tuners. destruct (n <? 1) eqn:?; lia.
Qed.

(** What [AttachSuggestions] does to one airing. *)
Definition suggested (items : list Planned) (passes : list Pas.Pass) (airings : list Air.Airing)
    (n from to : Z) (guides : gmap Z (list Z)) (p p' : Planned) : Prop :=
  (p' = p /\ (Skipped p = true -> Conflict p = true -> forall pass, pass_by_id passes (PassID p) = Some pass ->
     forall air, air ∈ airings -> ~ stands_in items p pass n from to air)) \/
  (Skipped p = true /\ Conflict p = true /\ exists pass air,
     pass_by_id passes (PassID p) = Some pass /\ air ∈ airings /\ stands_in items p pass n from to air /\
     (forall air', air' ∈ airings -> stands_in items p pass n from to air' -> precedes air air') /\
     p' = set_sugg p (suggestion guides air)).

Lemma attach_one all passes airings n from to guides p :
  exists p', (if (negb (Skipped p) || negb (Conflict p))%bool then Ok p
              else match pass_by_id passes (PassID p) with
                   | None => Ok p
                   | Some pass =>
                       let! alt := laterAiring all p pass airings (tuners n) from to guides in
                       Ok (match alt with Some s => set_sugg p s | None => p end)
                   end) = Ok p' /\ suggested all passes airings n from to guides p p'.
Proof.
  unfold suggested. destruct (Skipped p) eqn:Es, (Conflict p) eqn:Ec; cbn [negb orb];
    try (exists p; split; [done |]; left; split; [done | by intros]).
  destruct (pass_by_id passes (PassID p)) as [pass |] eqn:Ep;
    [| exists p; split; [done |]; left; split; [done | intros _ _ ?; done]].
  unfold laterAiring.
  destruct (later_loop_spec all p pass (tuners n) from to airings None) as (r & -> & Hin & Hmin). cbn [rbind].
  setoid_rewrite stands_in_tuners in Hin. setoid_rewrite stands_in_tuners in Hmin.
  eexists. split; [done |]. destruct r as [air |]; cbn.
  - right. split; [done |]. split; [done |]. exists pass, air.
    destruct (Hin air eq_refl) as [? | [? ?]]; [done |]. split_and!; try done.
    intros air' Ha' Hs'. destruct (Hmin air' (or_intror (conj Ha' Hs'))) as (b & [= <-] & ?). done.
  - left. split; [done |]. intros _ _ q [= <-] air Ha Hs.
    by destruct (Hmin air (or_intror (conj Ha Hs))) as (b & ? & _).
Qed.

Lemma attach_loop_spec all items passes airings n from to guides :
  exists items', attach_loop all items passes airings (tuners n) from to guides = Ok items' /\
    Forall2 (suggested all passes airings n from to guides) items items'.
Proof.
  induction items as [| p items IH]; cbn [attach_loop]; [by exists [] |].
  destruct (attach_one all passes airings n from to guides p) as (p' & -> & Hp). cbn [rbind].
  destruct IH as (items' & -> & Hi). cbn [rbind]. exists (p' :: items'). split; [done | by constructor].
Qed.
End suggestions.

(** What is suggested fits: [AttachSuggestions] touches only airings
    skipped for a conflict, and the airing it suggests is one of the guide, of
    the same title, on later, that the pass would record on some channel, and
    that the plan has the tuners to add (or records already); it is the first
    such airing, and where there is none nothing is suggested. *)
Theorem suggestions_fit `{Unicode, Zone} (items : list Planned) (passes : list Pas.Pass)
    (airings : list Air.Airing) (tunerCount from to : Z) (guides : gmap Z (list Z)) :
  exists items', AttachSuggestions items passes airings tunerCount from to guides = Ok items' /\
    Forall2 (suggested items passes airings tunerCount from to guides) items items'.
Proof. apply attach_loop_spec. Qed.

(** ** A fix records what was suggested *)

Section fix_.
Context `{Unicode, Zone}.

(** A pass that would record an airing on any channel records it on its own. *)
Lemma passMatches_pinned pass sugg :
  Air.ChannelID sugg <> 0 -> Air.ManualPass sugg = 0 ->
  passMatches (with_channel pass 0) sugg = true ->
  passMatches (with_channel pass (Air.ChannelID sugg)) sugg = true.
Proof.
  intros Hc Hm. unfold passMatches.
  cbn [with_channel Pas.ID Pas.Kind Pas.ChannelID Pas.AiringStart Pas.MatchKind Pas.Title Pas.Episodes].
  rewrite Hm, !Z.eqb_refl. replace (Air.ChannelID sugg =? 0) with false by lia.
  cbn [Z.eqb negb andb orb].
  destruct (bytes_equal (Pas.Kind pass) (lit "manual")); [done |]. cbn [orb].
  destruct (negb (Air.Simulcast sugg =? 0)); [done |].
  destruct (bytes_equal (Pas.Kind pass) (lit "once")); done.
Qed.

Lemma oneShot_matches pass sugg :
  Air.ChannelID sugg <> 0 -> Air.ManualPass sugg = 0 -> passMatches (oneShotPass pass sugg) sugg = true.
Proof.
  intros Hc Hm. unfold passMatches, oneShotPass.
  cbn [Pas.ID Pas.Kind Pas.ChannelID Pas.AiringStart]. rewrite Hm, !Z.eqb_refl.
  replace (Air.ChannelID sugg =? 0) with false by lia. done.
Qed.
End fix_.

(** The fix records what was suggested: taken on a listing with a channel,
    [PlanFix] keeps the pass when it matches, moves its channel when that makes
    it match, and otherwise makes a pass for that airing alone, which matches
    it; it leaves the priority and the padding as they were, and only the
    showing that was skipped is dropped. *)
Theorem fix_records `{Unicode, Zone} (pass : Pas.Pass) (skipped sugg : Air.Airing)
    (Hchan : Air.ChannelID sugg <> 0) (Hlisting : Air.ManualPass sugg = 0) :
  let fix_ := PlanFix pass skipped sugg in
  Skip fix_ = skipped /\
  exists p, passMatches p sugg = true /\
    Pas.Priority p = Pas.Priority pass /\ Pas.PadBefore p = Pas.PadBefore pass /\ Pas.PadAfter p = Pas.PadAfter pass /\
    match OneShot fix_ with
    | Some shot => p = shot /\ Pas.Kind shot = lit "once" /\ HaveOneShot [shot] sugg = true
    | None => p = (if SetChannel fix_ =? 0 then pass else with_channel pass (SetChannel fix_))
    end.
Proof.
  unfold PlanFix. destruct (passMatches pass sugg) eqn:E1; [split; [done |]; by exists pass |].
  unfold channelAdjust. destruct (_ || _ || _)%bool.
  { split; [done |]. exists (oneShotPass pass sugg). cbn. rewrite oneShot_matches by done. done. }
  destruct (_ || _ || _)%bool.
  { split; [done |]. exists (oneShotPass pass sugg). cbn. rewrite oneShot_matches by done. done. }
  destruct (passMatches (with_channel pass 0) sugg) eqn:E2; cbn.
  - split; [done |]. exists (with_channel pass (Air.ChannelID sugg)).
    rewrite passMatches_pinned by done. replace (Air.ChannelID sugg =? 0) with false by lia. done.
  - split; [done |]. exists (oneShotPass pass sugg). rewrite oneShot_matches by done. done.
Qed.

#[local] Existing Instance ascii_unicode.
#[local] Existing Instance utc.

Lemma fix_records_witness :
  let sugg := example_airing 9 104 7200 9000 in
  let fix_ := PlanFix (with_channel example_pass 101) (example_airing 1 101 0 3600) sugg in
  Skip fix_ = example_airing 1 101 0 3600 /\
  exists p, passMatches p sugg = true /\
    Pas.Priority p = 3 /\ Pas.PadBefore p = 1 /\ Pas.PadAfter p = 2 /\
    match OneShot fix_ with
    | Some shot => p = shot /\ Pas.Kind shot = lit "once" /\ HaveOneShot [shot] sugg = true
    | None => p = (if SetChannel fix_ =? 0 then with_channel example_pass 101
                   else with_channel (with_channel example_pass 101) (SetChannel fix_))
    end.
Proof.
  apply (fix_records (with_channel example_pass 101) (example_airing 1 101 0 3600)
           (example_airing 9 104 7200 9000)); done.
Defined.
