(* ===== verification/Hdhr.v ===== *)
(** The HDHomeRun tuner's packets, [server/internal/hdhr/control.go] and
    [discover.go], and the lines it answers with, [status.go], [streaminfo.go]
    and [model.go].

    A packet is bytes; an [io.Reader] is the bytes it will give. An answer is
    text, code points. *)
From S2P Require Import Prelude GoText Crc.
Local Open Scope Z_scope.
Local Open Scope go_scope.

(** ** [hash/crc32], the IEEE polynomial, reflected *)

Definition ieee : Z := 0xEDB88320.
Definition ieee_bit (crc : Z) : Z :=
  if Z.testbit crc 0 then Z.lxor (Z.shiftr crc 1) ieee else Z.shiftr crc 1.
Definition ieee_step (crc b : Z) : Z := Nat.iter 8 ieee_bit (Z.lxor crc b).
Definition ChecksumIEEE (data : list Z) : Z :=
  Z.lxor (fold_left ieee_step data 0xFFFFFFFF) 0xFFFFFFFF.

(** [binary.LittleEndian.PutUint32] and [Uint32], [BigEndian.PutUint16] and [PutUint32] *)
Definition le32 (w : Z) : list Z :=
  [wrap8 w; wrap8 (Z.shiftr w 8); wrap8 (Z.shiftr w 16); wrap8 (Z.shiftr w 24)].
Definition uint32_le (b : list Z) : res Z :=
  (let! b3 := idx b 3 in let! b0 := idx b 0 in let! b1 := idx b 1 in let! b2 := idx b 2 in
   Ok (be16 (be16 (be16 b3 b2) b1) b0)).
Definition put16 (w : Z) : list Z := [wrap8 (Z.shiftr w 8); wrap8 w].
Definition put32 (w : Z) : list Z :=
  [wrap8 (Z.shiftr w 24); wrap8 (Z.shiftr w 16); wrap8 (Z.shiftr w 8); wrap8 w].

(** ** Packets *)

Definition typeGetSetReq : Z := 0x0004.
Definition typeGetSetRpy : Z := 0x0005.
Definition tagGetSetName : Z := 0x03.
Definition tagGetSetValue : Z := 0x04.
Definition tagErrorMessage : Z := 0x05.
Definition tagLockKey : Z := 0x15.
Definition typeDiscoverReq : Z := 0x0002.
Definition typeDiscoverRpy : Z := 0x0003.
Definition tagDeviceType : Z := 0x01.
Definition tagDeviceID : Z := 0x02.
Definition tagTunerCount : Z := 0x10.
Definition tagBaseURL : Z := 0x2A.

Definition varLen (n : Z) : list Z :=
  if n <=? 127 then [wrap8 n]
  else [Z.lor (wrap8 (Z.land n 0x7f)) 0x80; wrap8 (Z.shiftr n 7)].

Definition tlv (tag : Z) (raw : list Z) : list Z := [tag] ++ varLen (zlen raw) ++ raw.
Definition tlvString (tag : Z) (value : list Z) : list Z := tlv tag (value ++ [0]).
Definition tlvU32 (tag value : Z) : list Z := tlv tag (put32 value).

Definition seal (kind : Z) (payload : list Z) : list Z :=
  let body := put16 kind ++ put16 (wrap16 (zlen payload)) ++ payload in
  body ++ le32 (ChecksumIEEE body).

(** Why an exchange fails. *)
Inductive fault : Type :=
  | short_read
  | reply_type (kind : Z)
  | too_short
  | truncated
  | crc_mismatch
  | missing_length
  | truncated_length
  | tlv_overrun
  | no_device
  | message (text : list Z).

(** [readVarLen]: the length and what follows it. *)
Definition readVarLen (b : list Z) : (Z * list Z) + fault :=
  match b with
  | [] => inr missing_length
  | b0 :: rest =>
      if Z.land b0 0x80 =? 0 then inl (b0, rest)
      else match rest with
           | [] => inr truncated_length
           | b1 :: rest => inl (Z.lor (Z.land b0 0x7f) (Z.shiftl b1 7), rest)
           end
  end.

(** The tags of a payload, in order. *)
Fixpoint tlvs (fuel : nat) (rest : list Z) : res (list (Z * list Z) + fault) :=
  match rest with
  | [] => Ok (inl [])
  | tag :: rest =>
      match fuel with
      | O => NoFuel
      | S fuel =>
          match readVarLen rest with
          | inr e => Ok (inr e)
          | inl (n, next) =>
              if zlen next <? n then Ok (inr tlv_overrun)
              else
                let! val := slice next 0 n in
                let! rest := slice_from next n in
                let! more := tlvs fuel rest in
                Ok (match more with inl l => inl ((tag, val) :: l) | inr e => inr e end)
          end
      end
  end.

(** [readPacket]: [io.ReadFull] of the head, then of the rest. *)
Definition readPacket (stream : list Z) : res (list Z + fault) :=
  if zlen stream <? 4 then Ok (inr short_read)
  else
    let! head := slice stream 0 4 in
    let! l := slice head 2 4 in
    let! length_ := uint16 l in
    if zlen stream <? 4 + (length_ + 4) then Ok (inr short_read)
    else let! rest := slice stream 4 (4 + (length_ + 4)) in Ok (inl (head ++ rest)).

(** [strings.TrimRight(s, "\x00")] *)
Definition trim_nul (s : list Z) : list Z := reverse (trim_left_by (fun c => c =? 0) (reverse s)).

Definition get_set_step (acc : list Z * list Z) (t : Z * list Z) : list Z * list Z :=
  let ' (gotValue, errMsg) := acc in
  let ' (tag, val) := t in
  let text := trim_nul val in
  if tag =? tagGetSetValue then (text, errMsg)
  else if tag =? tagErrorMessage then (gotValue, text)
  else acc.

(** The request [exchange] writes. *)
Definition request (name value : list Z) (lockKey : Z) (set_ : bool) : list Z :=
  let payload := tlvString tagGetSetName name in
  let payload := if set_ then payload ++ tlvString tagGetSetValue value else payload in
  let payload := if negb (lockKey =? 0) then payload ++ tlvU32 tagLockKey lockKey else payload in
  seal typeGetSetReq payload.

(** What [exchange] makes of a packet. *)
Definition reply_of (packet : list Z) : res (list Z + fault) :=
  let! k := slice packet 0 2 in
  let! kind := uint16 k in
  if negb (kind =? typeGetSetRpy) then Ok (inr (reply_type kind)) else
  let! l := slice packet 2 4 in
  let! length_ := uint16 l in
  let! body := slice packet 0 (4 + length_) in
  let! c := slice packet (4 + length_) (4 + length_ + 4) in
  let! got := uint32_le c in
  if negb (ChecksumIEEE body =? got) then Ok (inr crc_mismatch) else
  let! rest := slice packet 4 (4 + length_) in
  let! ts := tlvs (length rest) rest in
  Ok (match ts with
      | inr e => inr e
      | inl ts =>
          let ' (gotValue, errMsg) := fold_left get_set_step ts ([], []) in
          if negb (bytes_equal errMsg []) then inr (message errMsg) else inl gotValue
      end).

(** [exchange], given what the connection sends back. *)
Definition exchange (stream : list Z) : res (list Z + fault) :=
  let! p := readPacket stream in
  match p with
  | inr e => Ok (inr e)
  | inl packet => reply_of packet
  end.

(** ** Discovery *)

Definition DiscoverPacket : list Z :=
  let payload := [tagDeviceType; 0x04; 0x00; 0x00; 0x00; 0x01;
                  tagDeviceID; 0x04; 0xFF; 0xFF; 0xFF; 0xFF] in
  seal typeDiscoverReq payload.

Definition hex_digit (n : Z) : Z := if n <? 10 then 48 + n else 55 + n.
(** [fmt.Sprintf("%08X", w)] *)
Definition hex8 (w : Z) : list Z := map (fun i => hex_digit (Z.land (Z.shiftr w (4 * i)) 15)) [7; 6; 5; 4; 3; 2; 1; 0].

Record Reply := mkReply { Addr : list Z; DeviceID : list Z; BaseURL : list Z; TunerCount : Z }.

Definition discover_step (r : Reply) (t : Z * list Z) : res Reply :=
  let ' (tag, val) := t in
  if tag =? tagDeviceID then
    if zlen val =? 4 then
      let! w := uint32 val in Ok (mkReply (Addr r) (hex8 w) (BaseURL r) (TunerCount r))
    else Ok r
  else if tag =? tagBaseURL then Ok (mkReply (Addr r) (DeviceID r) val (TunerCount r))
  else if tag =? tagTunerCount then
    if zlen val =? 1 then
      let! n := idx val 0 in Ok (mkReply (Addr r) (DeviceID r) (BaseURL r) n)
    else if zlen val =? 4 then
      let! n := uint32 val in Ok (mkReply (Addr r) (DeviceID r) (BaseURL r) n)
    else Ok r
  else Ok r.

Fixpoint discover_fold (ts : list (Z * list Z)) (r : Reply) : res Reply :=
  match ts with
  | [] => Ok r
  | t :: ts => let! r := discover_step r t in discover_fold ts r
  end.

Definition ParseReply (packet addr : list Z) : res (Reply + fault) :=
  if zlen packet <? 8 then Ok (inr too_short) else
  let! k := slice packet 0 2 in
  let! kind := uint16 k in
  if negb (kind =? typeDiscoverRpy) then Ok (inr (reply_type kind)) else
  let! l := slice packet 2 4 in
  let! length_ := uint16 l in
  if zlen packet <? 4 + length_ + 4 then Ok (inr truncated) else
  let! body := slice packet 0 (4 + length_) in
  let! c := slice packet (4 + length_) (4 + length_ + 4) in
  let! want := uint32_le c in
  if negb (ChecksumIEEE body =? want) then Ok (inr crc_mismatch) else
  let! payload := slice packet 4 (4 + length_) in
  let! ts := tlvs (length payload) payload in
  match ts with
  | inr e => Ok (inr e)
  | inl ts =>
      let! r := discover_fold ts (mkReply addr [] [] 0) in
      Ok (if (bytes_equal (BaseURL r) [] && bytes_equal (DeviceID r) [])%bool then inr no_device else inl r)
  end.

(** ** Answers *)

Section answers.
Context `{Unicode}.

(** [strings.Fields] *)
Fixpoint fields_loop (s cur : list Z) : list (list Z) :=
  match s with
  | [] => if bytes_equal cur [] then [] else [cur]
  | c :: s =>
      if is_space c then (if bytes_equal cur [] then fields_loop s [] else cur :: fields_loop s [])
      else fields_loop s (cur ++ [c])
  end.
Definition Fields (s : list Z) : list (list Z) := fields_loop s [].

(** [strings.Cut] *)
Definition Cut (s sep : list Z) : option (list Z * list Z) :=
  match find_sub sep s with
  | Some i => Some (take i s, drop (i + length sep) s)
  | None => None
  end.

(** The number [strconv.Atoi] returns beside its error: nothing read is 0, a
    number out of range is held to it. *)
Definition Atoi_value (s : list Z) : Z :=
  let v := match s with
           | c :: s' => if c =? 45 then option_map Z.opp (digits s')
                        else if c =? 43 then digits s' else digits s
           | [] => None
           end in
  match v with Some n => Z.max (- 2 ^ 63) (Z.min (2 ^ 63 - 1) n) | None => 0 end.

Record Lock := mkLock { Strength : Z; Quality : Z; Symbol : Z; Locked : bool }.

Definition status_step (lock : Lock) (field : list Z) : Lock :=
  match Cut field (lit "=") with
  | None => lock
  | Some (key, val) =>
      if bytes_equal key (lit "lock") then
        mkLock (Strength lock) (Quality lock) (Symbol lock)
          (negb (bytes_equal val []) && negb (bytes_equal val (lit "none")))%bool
      else if bytes_equal key (lit "ss") then mkLock (Atoi_value val) (Quality lock) (Symbol lock) (Locked lock)
      else if bytes_equal key (lit "snq") then mkLock (Strength lock) (Atoi_value val) (Symbol lock) (Locked lock)
      else if bytes_equal key (lit "seq") then mkLock (Strength lock) (Quality lock) (Atoi_value val) (Locked lock)
      else lock
  end.
Definition ParseStatus (status : list Z) : Lock :=
  fold_left status_step (Fields status) (mkLock 0 0 0 false).

Definition CutPrefix (s prefix : list Z) : option (list Z) :=
  if has_prefix prefix s then Some (drop (length prefix) s) else None.

Fixpoint demodulated_loop (fields : list (list Z)) : bool :=
  match fields with
  | [] => false
  | f :: fields =>
      match CutPrefix f (lit "lock=") with
      | Some val =>
          (negb (bytes_equal val []) && negb (bytes_equal val (lit "none")) && negb (has_prefix (lit "(") val))%bool
      | None => demodulated_loop fields
      end
  end.
Definition Demodulated (status : list Z) : bool := demodulated_loop (Fields status).

Inductive verdict : Type := Great | OK_ | Weak | Lost.
Definition Verdict (l : Lock) : verdict :=
  if negb (Locked l) then Lost
  else if ((Quality l <? 50) || (Symbol l <? 100))%bool then Weak
  else if Quality l <? 80 then OK_
  else Great.

Record Program := mkProgram { Number : Z; GuideNumber : list Z; Name : list Z }.

Fixpoint join_by (sep : Z) (ls : list (list Z)) : list Z :=
  match ls with
  | [] => []
  | [l] => l
  | l :: ls => l ++ sep :: join_by sep ls
  end.

Definition stream_line (line : list Z) : list Program :=
  match Cut (TrimSpace line) (lit ":") with
  | None => []
  | Some (num, rest) =>
      match Atoi (TrimSpace num) with
      | None => []
      | Some n =>
          match Fields rest with
          | [] => []
          | f :: fs => [mkProgram n f (join_by 32 fs)]
          end
      end
  end.
Definition ParseStreamInfo (text : list Z) : list Program := concat (map stream_line (Split text 10)).

Definition FrequencyHz (status : list Z) : Z :=
  match Cut status (lit "ch=") with
  | None => 0
  | Some (_, after) =>
      match Fields after with
      | [] => 0
      | f :: _ =>
          let n := Atoi_value (default [] (last (Split f 58))) in
          if n <? 50000000 then 0 else n
      end
  end.
End answers.

Section model_.
(** [strings.ToUpper] is not its inverse: it has its own table. *)
Context `{Unicode} (upper_rune : Z -> Z).

Definition ToUpper (s : list Z) : list Z :=
  map (fun c => if is_lower c then c - 32 else if c <? 128 then c else upper_rune c) s.
Definition has_suffix (s tail : list Z) : bool := has_prefix (reverse tail) (reverse s).

Inductive model_note : Type := atsc3 | copy_protected | can_convert | device_library | nothing.
Definition ModelNote (model : list Z) : model_note :=
  let m := ToUpper model in
  if (contains m (lit "4K") || contains m (lit "FLEX"))%bool then atsc3
  else if (contains m (lit "PRIME") || contains m (lit "-CC"))%bool then copy_protected
  else if (contains m (lit "EXTEND") || contains m (lit "HDTC"))%bool then can_convert
  else if (contains m (lit "SCRIBE") || contains m (lit "SERVIO"))%bool then device_library
  else nothing.
Definition ExtendQuery (model : list Z) : list Z :=
  let m := ToUpper model in
  if (contains m (lit "EXTEND") || contains m (lit "HDTC"))%bool then lit "transcode=mobile" else [].
Definition BroadcastGuide (model : list Z) : bool :=
  let m := ToUpper (TrimSpace model) in
  if contains m (lit "PRIME") then false
  else (negb (has_suffix m (lit "CC")) || negb (contains m (lit "-")))%bool.
Definition DVB (model : list Z) : bool :=
  let m := ToUpper (TrimSpace model) in
  if negb (contains m (lit "-")) then false
  else existsb (fun tail => has_suffix m (lit tail)) ["DT"; "DC"; "EU"]%string.
End model_.

Example crc_check : ChecksumIEEE (lit "123456789") = 0xCBF43926. Proof. vm_compute. reflexivity. Qed.

(** ** The checksum *)

Lemma ieee_bit_word x : word x -> word (ieee_bit x).
Proof.
  intros Hx. assert (word (Z.shiftr x 1)) as Hs.
  { unfold word in *. rewrite Z.shiftr_div_pow2 by lia. change (2 ^ 1) with 2. dlia. }
  unfold ieee_bit. destruct (Z.testbit x 0); [| done]. apply word_lxor; [done | unfold word, ieee; lia].
Qed.

Lemma iter_ieee_word n x : word x -> word (Nat.iter n ieee_bit x).
Proof. intros Hx. induction n as [| n IH]; [done |]. by apply ieee_bit_word. Qed.

Lemma byte_word b : byte_ok b -> word b.
Proof. unfold byte_ok, word. lia. Qed.

Lemma ieee_step_word crc b : word crc -> byte_ok b -> word (ieee_step crc b).
Proof. intros. apply iter_ieee_word, word_lxor; [done | by apply byte_word]. Qed.

Lemma fold_ieee_word data crc : word crc -> bytes_ok data -> word (fold_left ieee_step data crc).
Proof.
  revert crc. induction data as [| b data IH]; intros crc Hc Hd; [done |].
  apply Forall_cons in Hd as [Hb Hd]. apply IH; [by apply ieee_step_word | done].
Qed.

Lemma ChecksumIEEE_word data : bytes_ok data -> word (ChecksumIEEE data).
Proof. intros. apply word_lxor; [apply fold_ieee_word; [unfold word; lia | done] | unfold word; lia]. Qed.

(** The polynomial's top bit tells what a step shifted out. *)
Lemma ieee_bit_inj x y : word x -> word y -> ieee_bit x = ieee_bit y -> x = y.
Proof.
  intros Hx Hy. unfold ieee_bit.
  assert (forall z, word z -> Z.testbit (Z.shiftr z 1) 31 = false) as Htop.
  { intros z Hz. rewrite Z.shiftr_spec by lia. change (31 + 1) with 32.
    destruct (decide (z = 0)) as [-> | ?]; [done |]. unfold word in Hz.
    apply Z.bits_above_log2; [lia |]. apply Z.log2_lt_pow2; lia. }
  assert (forall z, z = 2 * Z.shiftr z 1 + Z.b2z (Z.testbit z 0)) as Hsplit
    by (intros z; rewrite <- Z.div2_spec, Z.bit0_odd; apply Z.div2_odd).
  pose proof (Htop x Hx) as Tx. pose proof (Htop y Hy) as Ty.
  intros E. pose proof (f_equal (fun z => Z.testbit z 31) E) as Et. cbv beta in Et.
  rewrite (Hsplit x), (Hsplit y).
  destruct (Z.testbit x 0), (Z.testbit y 0); rewrite ?Z.lxor_spec, ?Tx, ?Ty in Et; try done.
  - apply (f_equal (fun z => Z.lxor z ieee)) in E.
    rewrite !Z.lxor_assoc, Z.lxor_nilpotent, !Z.lxor_0_r in E. by rewrite E.
  - by rewrite E.
Qed.

Lemma iter_ieee_inj n x y : word x -> word y -> Nat.iter n ieee_bit x = Nat.iter n ieee_bit y -> x = y.
Proof.
  intros Hx Hy. induction n as [| n IH]; intros E; [done |].
  apply ieee_bit_inj in E; [by apply IH | by apply iter_ieee_word..].
Qed.

Lemma lxor_cancel_r a b c : Z.lxor a c = Z.lxor b c -> a = b.
Proof.
  intros E. apply (f_equal (fun z => Z.lxor z c)) in E.
  by rewrite !Z.lxor_assoc, Z.lxor_nilpotent, !Z.lxor_0_r in E.
Qed.

Lemma ieee_step_inj x y b c :
  word x -> word y -> byte_ok b -> byte_ok c ->
  ieee_step x b = ieee_step y c -> Z.lxor x b = Z.lxor y c.
Proof. intros. by eapply iter_ieee_inj; [apply word_lxor, byte_word.. |]. Qed.

Lemma fold_ieee_inj data x y :
  bytes_ok data -> word x -> word y -> fold_left ieee_step data x = fold_left ieee_step data y -> x = y.
Proof.
  revert x y. induction data as [| b data IH]; intros x y Hd Hx Hy E; [done |].
  apply Forall_cons in Hd as [Hb Hd]. apply IH in E; [| done | by apply ieee_step_word..].
  by eapply lxor_cancel_r, ieee_step_inj.
Qed.

(** Another byte anywhere is another checksum. *)
Lemma ChecksumIEEE_byte a b c r :
  bytes_ok (a ++ b :: r) -> byte_ok c -> ChecksumIEEE (a ++ b :: r) = ChecksumIEEE (a ++ c :: r) -> b = c.
Proof.
  intros Ha Hc E. apply Forall_app in Ha as [Ha Hr]. apply Forall_cons in Hr as [Hb Hr].
  apply lxor_cancel_r in E. rewrite !fold_left_app in E. cbn [fold_left] in E.
  set (x := fold_left ieee_step a _) in E.
  assert (word x) as Hx by (apply fold_ieee_word; [unfold word; lia | done]).
  apply fold_ieee_inj in E; [| done | by apply ieee_step_word..].
  apply ieee_step_inj in E; [| done..]. rewrite !(Z.lxor_comm x) in E. by apply lxor_cancel_r in E.
Qed.

(** ** Packets are read back *)

Lemma le32_read w : word w -> uint32_le (le32 w) = Ok w.
Proof. intros Hw. by rewrite <- (crc_bytes_uint32 w Hw). Qed.

Lemma put16_read w : 0 <= w < 2 ^ 16 -> uint16 (put16 w) = Ok w.
Proof.
  intros Hw. change (uint16 (put16 w)) with (Ok (be16 (wrap8 (Z.shiftr w 8)) (wrap8 w))).
  f_equal. by apply program_bytes.
Qed.

Lemma below_128 (P : Z -> bool) k :
  forallb P (map Z.of_nat (seq 0 128)) = true -> 0 <= k < 128 -> P k = true.
Proof.
  intros H Hk. rewrite forallb_forall in H. apply H, in_map_iff. exists (Z.to_nat k).
  split; [lia |]. apply in_seq. lia.
Qed.

(** The high bit of a length byte tells which of the two it is. *)
Lemma varLen_bits k : 0 <= k < 128 ->
  Z.land k 0x80 = 0 /\ Z.land (Z.lor k 0x80) 0x80 = 0x80 /\ Z.land (Z.lor k 0x80) 0x7f = k.
Proof.
  intros Hk. pose proof (below_128 (fun k => (Z.land k 0x80 =? 0) && (Z.land (Z.lor k 0x80) 0x80 =? 0x80)
    && (Z.land (Z.lor k 0x80) 0x7f =? k))%bool k eq_refl Hk) as H. cbv beta in H. lia.
Qed.

Lemma varLen_read n rest : 0 <= n < 2 ^ 15 -> readVarLen (varLen n ++ rest) = inl (n, rest).
Proof.
  intros Hn. unfold varLen, wrap8. destruct (n <=? 127) eqn:E; cbn [app readVarLen].
  - rewrite Z.mod_small by lia. by destruct (varLen_bits n ltac:(lia)) as (-> & _).
  - assert (Z.land n 0x7f = n mod 128) as -> by (change 0x7f with (Z.pred (2 ^ 7)); by apply land_mask).
    rewrite Z.shiftr_div_pow2 by lia. change (2 ^ 7) with 128. change (2 ^ 8) with 256.
    rewrite (Z.mod_small (n / 128)) by dlia. rewrite (Z.mod_small (n mod 128)) by dlia.
    destruct (varLen_bits (n mod 128)) as (_ & H1 & H2); [dlia |]. rewrite H1, H2. cbn [Z.eqb Pos.eqb].
    rewrite Z.lor_comm, lor_shiftl_add by (try lia; dlia). do 2 f_equal. dlia.
Qed.

(** A payload: tags that are bytes, values whose length has two bytes. *)
Definition tlv_ok (t : Z * list Z) : Prop := byte_ok (fst t) /\ bytes_ok (snd t) /\ zlen (snd t) < 2 ^ 15.
Definition payload_of (ts : list (Z * list Z)) : list Z := concat (map (fun t => tlv (fst t) (snd t)) ts).

Lemma varLen_ok n : bytes_ok (varLen n).
Proof.
  unfold varLen. destruct (n <=? 127).
  - apply bytes_ok_cons; [apply wrap8_ok | constructor].
  - apply bytes_ok_cons; [apply byte_lor_ok; [apply wrap8_ok | unfold byte_ok; lia] |].
    apply bytes_ok_cons; [apply wrap8_ok | constructor].
Qed.

Lemma payload_ok ts : Forall tlv_ok ts -> bytes_ok (payload_of ts).
Proof.
  induction 1 as [| t ts (Ht & Hv & _) _ IH]; [constructor |]. unfold payload_of in *. cbn.
  apply Forall_cons. split; [done |]. rewrite <- app_assoc. apply bytes_ok_app; [apply varLen_ok |].
  by apply bytes_ok_app.
Qed.

Lemma tlvs_read ts fuel : Forall tlv_ok ts -> (length (payload_of ts) <= fuel)%nat -> tlvs fuel (payload_of ts) = Ok (inl ts).
Proof.
  intros Hts. revert fuel. induction Hts as [| [tag val] ts (Ht & Hv & Hl) _ IH]; intros fuel Hf.
  { by destruct fuel. }
  unfold payload_of in *. cbn [map concat fst snd] in *. set (rest := concat _) in *.
  unfold tlv in *. cbn [app length] in *. destruct fuel as [| fuel]; [lia |]. cbn [tlvs].
  rewrite <- !app_assoc in *. rewrite varLen_read by (cbn in Hl; pose proof (zlen_nonneg val); lia).
  pose proof (zlen_nonneg rest) as Hr. pose proof (zlen_nonneg val) as Hv0. rewrite zlen_app.
  replace (zlen val + zlen rest <? zlen val) with false by lia.
  rewrite slice_Ok by (rewrite ?zlen_app; lia). cbn [rbind].
  rewrite slice_from_Ok by (rewrite ?zlen_app; lia). cbn [rbind].
  rewrite Z.sub_0_r, drop_0, zlen_nat, take_app_length, drop_app_length.
  rewrite IH; [done |]. rewrite !length_app in Hf. lia.
Qed.

Lemma seal_shape kind payload :
  0 <= kind < 2 ^ 16 -> zlen payload < 2 ^ 16 -> bytes_ok payload ->
  let body := put16 kind ++ put16 (zlen payload) ++ payload in
  seal kind payload = body ++ le32 (ChecksumIEEE body) /\ zlen body = 4 + zlen payload /\ bytes_ok body.
Proof.
  intros Hk Hp Hb body. pose proof (zlen_nonneg payload). unfold seal, wrap16.
  rewrite Z.mod_small by lia. fold body. split; [done |]. split.
  - unfold body. rewrite !zlen_app. change (zlen (put16 kind)) with 2. change (zlen (put16 (zlen payload))) with 2. lia.
  - unfold body, put16. repeat apply bytes_ok_app; try done; repeat (apply bytes_ok_cons; [apply wrap8_ok |]); constructor.
Qed.

Lemma length_four {A} (l : list A) : zlen l = 4 -> exists a b c d, l = [a; b; c; d].
Proof.
  intros H. unfold zlen in H. destruct l as [| a [| b [| c [| d [| e l]]]]]; simpl in H; try lia.
  by exists a, b, c, d.
Qed.

Lemma uint32_le_reverse l : zlen l = 4 -> uint32_le l = uint32 (reverse l).
Proof. intros (a & b & c & d & ->)%length_four. reflexivity. Qed.

(** A packet by its parts: kind, length, payload and checksum, and more. *)
Definition parts (kind len : Z) (payload sum : list Z) : list Z := put16 kind ++ put16 len ++ payload ++ sum.

Lemma readPacket_parts kind payload sum rest :
  zlen payload < 2 ^ 16 -> zlen sum = 4 ->
  readPacket (parts kind (zlen payload) payload sum ++ rest) = Ok (inl (parts kind (zlen payload) payload sum)).
Proof.
  intros Hp Hs. pose proof (zlen_nonneg payload). pose proof (zlen_nonneg rest).
  set (pkt := parts kind (zlen payload) payload sum).
  assert (zlen pkt = 8 + zlen payload) as Hl
    by (unfold pkt, parts; rewrite !zlen_app; change (zlen (put16 _)) with 2; change (zlen (put16 (zlen payload))) with 2; lia).
  unfold readPacket. rewrite zlen_app. replace (zlen pkt + zlen rest <? 4) with false by lia.
  assert (slice (pkt ++ rest) 0 4 = Ok (put16 kind ++ put16 (zlen payload))) as ->.
  { replace (pkt ++ rest) with ([] ++ (put16 kind ++ put16 (zlen payload)) ++ ((payload ++ sum) ++ rest))
      by (unfold pkt, parts; by rewrite <- !app_assoc). by apply (slice_parts []). }
  cbn [rbind]. change (slice (put16 kind ++ put16 (zlen payload)) 2 4) with (Ok (put16 (zlen payload))). cbn [rbind].
  rewrite put16_read by lia. cbn [rbind].
  replace (zlen pkt + zlen rest <? 4 + (zlen payload + 4)) with false by lia.
  assert (slice (pkt ++ rest) 4 (4 + (zlen payload + 4)) = Ok (payload ++ sum)) as ->.
  { replace (pkt ++ rest) with ((put16 kind ++ put16 (zlen payload)) ++ (payload ++ sum) ++ rest)
      by (unfold pkt, parts; by rewrite <- !app_assoc). apply slice_parts; [done |]. rewrite zlen_app. lia. }
  cbn [rbind]. unfold pkt, parts. by rewrite <- !app_assoc.
Qed.

Definition body_of (kind : Z) (payload : list Z) : list Z := put16 kind ++ put16 (zlen payload) ++ payload.

Lemma reply_parts payload sum :
  zlen payload < 2 ^ 16 -> zlen sum = 4 ->
  reply_of (parts typeGetSetRpy (zlen payload) payload sum) =
    (let! got := uint32_le sum in
     if negb (ChecksumIEEE (body_of typeGetSetRpy payload) =? got) then Ok (inr crc_mismatch)
     else
       let! ts := tlvs (length payload) payload in
       Ok (match ts with
           | inr e => inr e
           | inl ts =>
               let ' (gotValue, errMsg) := fold_left get_set_step ts ([], []) in
               if negb (bytes_equal errMsg []) then inr (message errMsg) else inl gotValue
           end)).
Proof.
  intros Hp Hs. pose proof (zlen_nonneg payload). unfold reply_of.
  set (pkt := parts typeGetSetRpy (zlen payload) payload sum).
  assert (slice pkt 0 2 = Ok (put16 typeGetSetRpy)) as -> by (by apply (slice_parts [] _)).
  cbn [rbind]. rewrite put16_read by (unfold typeGetSetRpy; lia). cbn [rbind]. rewrite Z.eqb_refl. cbn [negb].
  assert (slice pkt 2 4 = Ok (put16 (zlen payload))) as -> by (by apply slice_parts).
  cbn [rbind]. rewrite put16_read by lia. cbn [rbind].
  assert (slice pkt 0 (4 + zlen payload) = Ok (body_of typeGetSetRpy payload)) as ->.
  { unfold pkt, parts, body_of. rewrite (app_assoc _ payload), (app_assoc (put16 typeGetSetRpy)).
    apply (slice_parts [] _); [done |]. rewrite !zlen_app. change (zlen (put16 _)) with 2.
    change (zlen (put16 (zlen payload))) with 2. lia. }
  cbn [rbind].
  assert (slice pkt (4 + zlen payload) (4 + zlen payload + 4) = Ok sum) as ->.
  { unfold pkt, parts. rewrite (app_assoc (put16 typeGetSetRpy)), (app_assoc _ payload).
    rewrite <- (app_nil_r sum) at 1. apply slice_parts; [| lia]. rewrite !zlen_app. done. }
  cbn [rbind]. destruct (uint32_le sum) as [got | |]; cbn [rbind]; [| done | done].
  destruct (negb _); [done |].
  assert (slice pkt 4 (4 + zlen payload) = Ok payload) as ->; [| done].
  unfold pkt, parts. rewrite (app_assoc (put16 typeGetSetRpy)). by apply slice_parts.
Qed.

(** What a reply says: the text of its last value, and of its last error. *)
Definition last_text (tag : Z) (ts : list (Z * list Z)) : list Z :=
  default [] (last (map (fun t => trim_nul (snd t)) (List.filter (fun t => fst t =? tag) ts))).

Lemma get_set_last ts acc :
  fold_left get_set_step ts acc =
    (default (fst acc) (last (map (fun t => trim_nul (snd t)) (List.filter (fun t => fst t =? tagGetSetValue) ts))),
     default (snd acc) (last (map (fun t => trim_nul (snd t)) (List.filter (fun t => fst t =? tagErrorMessage) ts)))).
Proof.
  revert acc. induction ts as [| [tag val] ts IH]; intros [v e]; [done |].
  cbn [fold_left List.filter fst snd]. rewrite IH. unfold get_set_step.
  destruct (tag =? tagGetSetValue) eqn:E1, (tag =? tagErrorMessage) eqn:E2;
    [unfold tagGetSetValue, tagErrorMessage in *; lia | | | done];
    cbn [map fst snd]; rewrite last_cons; by repeat (match goal with |- context [last ?l] => destruct (last l) end).
Qed.

Lemma seal_parts kind payload :
  0 <= kind < 2 ^ 16 -> zlen payload < 2 ^ 16 ->
  seal kind payload = parts kind (zlen payload) payload (le32 (ChecksumIEEE (body_of kind payload))).
Proof.
  intros Hk Hp. pose proof (zlen_nonneg payload). unfold seal, parts, body_of, wrap16.
  rewrite Z.mod_small by lia. by rewrite <- !app_assoc.
Qed.

Lemma body_ok kind payload : bytes_ok payload -> bytes_ok (body_of kind payload).
Proof.
  intros Hp. unfold body_of, put16.
  repeat apply bytes_ok_app; try done; repeat (apply bytes_ok_cons; [apply wrap8_ok |]); constructor.
Qed.

(** The tuner's answers are read: whatever tags a tuner sends, in any order
    and number, sealed into a reply, and whatever it sends after it, the
    exchange gives the last error message when there is one, else the last
    value, their closing zeros cut. *)
Theorem exchange_reads (ts : list (Z * list Z)) (after : list Z)
    (Hts : Forall tlv_ok ts) (Hlen : zlen (payload_of ts) < 2 ^ 16) :
  exchange (seal typeGetSetRpy (payload_of ts) ++ after) =
    Ok (if bytes_equal (last_text tagErrorMessage ts) [] then inl (last_text tagGetSetValue ts)
        else inr (message (last_text tagErrorMessage ts))).
Proof.
  rewrite seal_parts by (unfold typeGetSetRpy; done || lia). unfold exchange.
  rewrite readPacket_parts by done. cbn [rbind]. rewrite reply_parts by done.
  rewrite le32_read by (apply ChecksumIEEE_word, body_ok, payload_ok, Hts). cbn [rbind].
  rewrite Z.eqb_refl. cbn [negb]. rewrite tlvs_read by done. cbn [rbind].
  rewrite get_set_last. unfold last_text. cbn [fst snd]. by destruct (bytes_equal _ []).
Qed.

Lemma exchange_reads_witness :
  exchange (seal typeGetSetRpy (payload_of [(3, lit "/tuner0/status" ++ [0]); (4, lit "ss=83" ++ [0])]) ++ [1; 2; 3]) =
    Ok (if bytes_equal (last_text tagErrorMessage [(3, lit "/tuner0/status" ++ [0]); (4, lit "ss=83" ++ [0])]) []
        then inl (last_text tagGetSetValue [(3, lit "/tuner0/status" ++ [0]); (4, lit "ss=83" ++ [0])])
        else inr (message (last_text tagErrorMessage [(3, lit "/tuner0/status" ++ [0]); (4, lit "ss=83" ++ [0])]))).
Proof.
  apply (exchange_reads [(3, lit "/tuner0/status" ++ [0]); (4, lit "ss=83" ++ [0])] [1; 2; 3]).
  - repeat (apply Forall_cons; split; [split_and!; [unfold byte_ok; simpl; lia | bytes_dec | vm_compute; reflexivity] |]).
    constructor.
  - vm_compute. reflexivity.
Defined.

(** Another byte in the checksum is another checksum. *)
Lemma le32_byte t1 r b c w :
  bytes_ok (t1 ++ b :: r) -> byte_ok c -> zlen (t1 ++ b :: r) = 4 ->
  uint32_le (t1 ++ b :: r) = Ok w -> uint32_le (t1 ++ c :: r) = Ok w -> c = b.
Proof.
  intros Hb Hc Hl E1 E2.
  rewrite uint32_le_reverse in E1 by done.
  rewrite uint32_le_reverse in E2 by (rewrite zlen_app, zlen_cons in *; done).
  rewrite !reverse_app, !reverse_cons, <- !app_assoc in *. cbn [app] in *.
  apply (uint32_byte (reverse r) (reverse t1) b c w); [| done | | done | done].
  - change (b :: reverse t1) with ([b] ++ reverse t1). rewrite app_assoc.
    replace ((reverse r ++ [b]) ++ reverse t1) with (reverse (t1 ++ b :: r))
      by (by rewrite reverse_app, reverse_cons).
    unfold bytes_ok. by rewrite reverse_Permutation.
  - rewrite zlen_app, zlen_cons in *. unfold zlen in *. rewrite !length_reverse. lia.
Qed.

(** A changed byte of a sealed packet, past its head, is in its payload or in its checksum. *)
Lemma sealed_byte p a b r sum :
  parts typeGetSetRpy (zlen p) p sum = a ++ b :: r -> 4 <= zlen a ->
  exists a', a = put16 typeGetSetRpy ++ put16 (zlen p) ++ a' /\
    ((exists r', p = a' ++ b :: r' /\ r = r' ++ sum) \/ (exists t, a' = p ++ t /\ sum = t ++ b :: r)).
Proof.
  intros Hseal Hhead. exists (drop 4 a). unfold parts in Hseal. rewrite (app_assoc (put16 typeGetSetRpy)) in Hseal.
  assert (take 4 a = put16 typeGetSetRpy ++ put16 (zlen p)) as Ht.
  { rewrite <- (take_app_le a (b :: r)) by (unfold zlen in Hhead; lia). rewrite <- Hseal.
    by apply (take_app_length' (put16 typeGetSetRpy ++ put16 (zlen p))). }
  split; [rewrite app_assoc, <- Ht; by rewrite take_drop |]. apply app_cons_split.
  rewrite <- (drop_app_le a (b :: r)) by (unfold zlen in Hhead; lia). rewrite <- Hseal.
  by apply (drop_app_length' (put16 typeGetSetRpy ++ put16 (zlen p))).
Qed.

Lemma payload_byte a b c r after :
  bytes_ok (a ++ b :: r) -> byte_ok c -> b <> c -> zlen (a ++ b :: r) < 2 ^ 16 ->
  exchange (parts typeGetSetRpy (zlen (a ++ c :: r)) (a ++ c :: r) (le32 (ChecksumIEEE (body_of typeGetSetRpy (a ++ b :: r)))) ++ after) =
    Ok (inr crc_mismatch).
Proof.
  intros Hp Hc Hbc Hlen. assert (zlen (a ++ c :: r) = zlen (a ++ b :: r)) as Hl by (by rewrite !zlen_app, !zlen_cons).
  pose proof (ChecksumIEEE_word (body_of typeGetSetRpy (a ++ b :: r)) (body_ok _ _ Hp)) as Hw.
  unfold exchange. rewrite readPacket_parts by (done || lia). cbn [rbind].
  rewrite reply_parts by (done || lia). rewrite le32_read by done. cbn [rbind].
  rewrite (proj2 (Z.eqb_neq _ _)); [done |]. intros Ec. apply Hbc.
  apply (ChecksumIEEE_byte (put16 typeGetSetRpy ++ put16 (zlen (a ++ b :: r)) ++ a) b c r); [| done |].
  - rewrite <- !app_assoc. by apply body_ok.
  - symmetry. unfold body_of in Ec at 1. rewrite Hl in Ec. rewrite <- !app_assoc. exact Ec.
Qed.

Lemma checksum_byte p t b c r after :
  bytes_ok p -> zlen p < 2 ^ 16 -> byte_ok c -> b <> c ->
  le32 (ChecksumIEEE (body_of typeGetSetRpy p)) = t ++ b :: r ->
  exchange (parts typeGetSetRpy (zlen p) p (t ++ c :: r) ++ after) = Ok (inr crc_mismatch).
Proof.
  intros Hp Hlen Hc Hbc Es. pose proof (ChecksumIEEE_word (body_of typeGetSetRpy p) (body_ok _ _ Hp)) as Hw.
  assert (bytes_ok (t ++ b :: r)) as Hs
    by (rewrite <- Es; unfold le32; repeat (apply bytes_ok_cons; [apply wrap8_ok |]); constructor).
  assert (zlen (t ++ c :: r) = 4) as Hl.
  { apply (f_equal zlen) in Es. change (zlen (le32 _)) with 4 in Es. rewrite zlen_app, zlen_cons in *. done. }
  unfold exchange. rewrite readPacket_parts by done. cbn [rbind]. rewrite reply_parts by done.
  destruct (uint32_le (t ++ c :: r)) as [w | |] eqn:Ew; cbn [rbind];
    [| by apply length_four in Hl as (? & ? & ? & ? & Hl); rewrite Hl in Ew..].
  rewrite (proj2 (Z.eqb_neq _ _)); [done |]. intros Ec. apply Hbc. symmetry.
  apply (le32_byte t r b c w); [done | done | by rewrite <- Es | | done].
  rewrite <- Es. by rewrite le32_read, Ec.
Qed.

(** A damaged answer is never taken for a good one: of a sealed reply whose
    payload or checksum has one byte changed, whatever follows it, the
    exchange says that the checksum does not match. *)
Theorem exchange_detects_byte (ts : list (Z * list Z)) (a r after : list Z) (b c : Z)
    (Hts : Forall tlv_ok ts) (Hlen : zlen (payload_of ts) < 2 ^ 16)
    (Hseal : seal typeGetSetRpy (payload_of ts) = a ++ b :: r) (Hhead : 4 <= zlen a)
    (Hc : byte_ok c) (Hbc : b <> c) :
  exchange ((a ++ c :: r) ++ after) = Ok (inr crc_mismatch).
Proof.
  pose proof (payload_ok ts Hts) as Hp. rewrite seal_parts in Hseal by (unfold typeGetSetRpy; done || lia).
  destruct (sealed_byte _ _ _ _ _ Hseal Hhead) as (a' & -> & [(r' & Ep & ->) | (t & -> & Es)]).
  - replace ((put16 typeGetSetRpy ++ put16 (zlen (payload_of ts)) ++ a') ++ c :: r' ++ _)
      with (parts typeGetSetRpy (zlen (a' ++ c :: r')) (a' ++ c :: r') (le32 (ChecksumIEEE (body_of typeGetSetRpy (payload_of ts)))))
      by (unfold parts; rewrite Ep, !zlen_app, !zlen_cons; by rewrite <- !app_assoc).
    rewrite Ep in *. by apply payload_byte.
  - replace ((put16 typeGetSetRpy ++ put16 (zlen (payload_of ts)) ++ payload_of ts ++ t) ++ c :: r)
      with (parts typeGetSetRpy (zlen (payload_of ts)) (payload_of ts) (t ++ c :: r))
      by (unfold parts; by rewrite <- !app_assoc).
    by apply (checksum_byte _ _ b).
Qed.

Lemma exchange_detects_byte_witness :
  let ts := [(4, lit "ss=83" ++ [0])] in
  exchange ((take 9 (seal typeGetSetRpy (payload_of ts)) ++ 0x39 :: drop 10 (seal typeGetSetRpy (payload_of ts))) ++ []) =
    Ok (inr crc_mismatch).
Proof.
  apply (exchange_detects_byte [(4, lit "ss=83" ++ [0])] _ _ [] 0x38 0x39).
  - apply Forall_cons. split; [split_and!; [unfold byte_ok; simpl; lia | bytes_dec | vm_compute; reflexivity] | constructor].
  - vm_compute. reflexivity.
  - vm_compute. reflexivity.
  - vm_compute. discriminate.
  - unfold byte_ok. lia.
  - lia.
Defined.

(** ** No answer panics *)

Lemma readVarLen_shape b n next :
  bytes_ok b -> readVarLen b = inl (n, next) -> 0 <= n /\ bytes_ok next /\ zlen next < zlen b.
Proof.
  intros Hb. destruct b as [| b0 b]; [done |]. apply Forall_cons in Hb as [H0 Hb]. cbn [readVarLen].
  destruct (Z.land b0 128 =? 0).
  { intros [= <- <-]. rewrite zlen_cons. unfold byte_ok in H0. split_and!; [lia | done | lia]. }
  destruct b as [| b1 b]; [done |]. apply Forall_cons in Hb as [H1 Hb]. intros [= <- <-].
  rewrite !zlen_cons. pose proof (land_bound b0 127 ltac:(lia)). unfold byte_ok in H1.
  split_and!; [| done | lia]. apply Z.lor_nonneg. rewrite Z.shiftl_nonneg. lia.
Qed.

(** The loop over the tags ends within the payload's length. *)
Lemma tlvs_total fuel rest :
  bytes_ok rest -> zlen rest <= Z.of_nat fuel ->
  returns (tlvs fuel rest) (fun r => match r with inl ts => Forall (fun t => bytes_ok (snd t)) ts | inr _ => True end).
Proof.
  revert rest. induction fuel as [| fuel IH]; intros rest Hr Hf.
  { rewrite (zlen_0_nil rest) by (pose proof (zlen_nonneg rest); lia). constructor. }
  destruct rest as [| tag rest]; [constructor |]. apply Forall_cons in Hr as [_ Hr]. rewrite zlen_cons in Hf.
  cbn [tlvs]. destruct (readVarLen rest) as [[n next] | e] eqn:E; [| done].
  apply readVarLen_shape in E as (Hn & Hnext & Hl); [| done].
  destruct (zlen next <? n) eqn:Hlt; [done |].
  do 2 (go_step; go_step). apply returns_bind.
  eapply returns_mono; [apply IH; [done | lia] |]. intros [ts | e] Hts; [| done].
  by constructor.
Qed.

Lemma returns_uint32_le b (Q : Z -> Prop) :
  4 <= zlen b -> (forall v, Q v) -> returns (uint32_le b) Q.
Proof.
  intros Hl HQ. unfold uint32_le.
  destruct (idx_in_range b 3 ltac:(lia)) as (? & _ & ->). destruct (idx_in_range b 0 ltac:(lia)) as (? & _ & ->).
  destruct (idx_in_range b 1 ltac:(lia)) as (? & _ & ->). destruct (idx_in_range b 2 ltac:(lia)) as (? & _ & ->).
  apply HQ.
Qed.

Lemma reply_of_total packet :
  bytes_ok packet -> 8 <= zlen packet ->
  (forall l, returns (slice packet 2 4) (fun s => uint16 s = Ok l -> 4 + l + 4 <= zlen packet)) ->
  returns (reply_of packet) (fun _ => True).
Proof.
  intros Hp H8 Hlen. unfold reply_of. do 5 go_step; [done |]. apply returns_bind.
  apply returns_slice; [done | lia | lia |]. intros hd Hs Hsl Es.
  apply returns_bind. destruct (uint16 hd) as [l | |] eqn:El.
  2,3: by pose proof (returns_uint16 hd (fun _ => True) Hs ltac:(lia) ltac:(done)) as Hu; rewrite El in Hu.
  assert (0 <= l < 2 ^ 16) as Hl16
    by (pose proof (returns_uint16 hd (fun v => 0 <= v < 2 ^ 16) Hs ltac:(lia) ltac:(done)) as Hu; by rewrite El in Hu).
  specialize (Hlen l). rewrite slice_Ok in Hlen by lia. cbn [returns] in Hlen. rewrite <- Es in Hlen.
  specialize (Hlen El). cbn [returns].
  do 4 go_step. apply returns_bind, returns_uint32_le; [lia |]. intros got. go_step; [done |].
  do 2 go_step. apply returns_bind. eapply returns_mono; [apply tlvs_total; [done | unfold zlen; lia] |]. done.
Qed.

Lemma exchange_total stream : bytes_ok stream -> returns (exchange stream) (fun _ => True).
Proof.
  intros Hs. unfold exchange, readPacket. destruct (zlen stream <? 4) eqn:E4; [done |].
  rewrite rbind_assoc. apply returns_bind, returns_slice; [done | lia | lia |]. intros head Hh Hhl Eh.
  rewrite rbind_assoc. apply returns_bind, returns_slice; [done | lia | lia |]. intros l Hl Hll El.
  rewrite rbind_assoc. apply returns_bind. destruct (uint16 l) as [n | |] eqn:En.
  2,3: by pose proof (returns_uint16 l (fun _ => True) Hl ltac:(lia) ltac:(done)) as Hu; rewrite En in Hu.
  assert (0 <= n < 2 ^ 16)
    by (pose proof (returns_uint16 l (fun v => 0 <= v < 2 ^ 16) Hl ltac:(lia) ltac:(done)) as Hu; by rewrite En in Hu).
  cbn [returns]. destruct (zlen stream <? 4 + (n + 4)) eqn:El4; [done |].
  rewrite rbind_assoc. apply returns_bind, returns_slice; [done | lia | lia |]. intros rest Hr Hrl _.
  cbn [rbind]. apply reply_of_total; [by apply bytes_ok_app | rewrite zlen_app; lia |].
  intros m. rewrite slice_app_l by lia. rewrite slice_Ok by lia. rewrite <- El. cbn [returns].
  rewrite En. intros [= <-]. rewrite zlen_app. lia.
Qed.

Lemma discover_total ts r : Forall (fun t => bytes_ok (snd t)) ts -> returns (discover_fold ts r) (fun _ => True).
Proof.
  revert r. induction ts as [| [tag val] ts IH]; intros r Hts; [done |].
  apply Forall_cons in Hts as [Hv Hts]. cbn [discover_fold snd] in *. apply returns_bind.
  apply (returns_mono _ (fun _ => True)); [| intros; by apply IH].
  unfold discover_step. go_steps; done.
Qed.

Lemma ParseReply_total packet addr : bytes_ok packet -> returns (ParseReply packet addr) (fun _ => True).
Proof.
  intros Hp. unfold ParseReply. go_step; [done |]. do 5 go_step; [done |].
  do 5 go_step; [done |]. do 4 go_step. apply returns_bind, returns_uint32_le; [lia |]. intros want.
  go_step; [done |]. do 2 go_step. apply returns_bind.
  eapply returns_mono; [apply tlvs_total; [done | unfold zlen; lia] |].
  intros [ts | e] Hts; [| done]. apply returns_bind.
  eapply returns_mono; [by apply discover_total |]. done.
Qed.

(** Nothing a device sends can stop the client: for any bytes on a control
    connection and any datagram answering a discovery, reading them ends,
    within as many tags as there are bytes, and no index is out of range. *)
Theorem hdhr_total (bytes addr : list Z) (Hb : bytes_ok bytes) :
  (exists r, exchange bytes = Ok r) /\ (exists r, ParseReply bytes addr = Ok r).
Proof.
  split.
  - pose proof (exchange_total bytes Hb) as H. apply returns_exists in H as (r & E & _). eauto.
  - pose proof (ParseReply_total bytes addr Hb) as H. apply returns_exists in H as (r & E & _). eauto.
Qed.

Lemma hdhr_total_witness :
  (exists r, exchange [0; 5; 0; 200; 3; 255] = Ok r) /\
  (exists r, ParseReply [0; 3; 0; 2; 1; 0x80; 0; 0; 0; 0] (lit "10.0.0.9") = Ok r).
Proof. split; [apply (hdhr_total _ []) | apply hdhr_total]; bytes_dec. Defined.
