(* ===== verification/LiveTs.v ===== *)
(** What the live pipeline reads in a transport stream: packets, sections, the
    program tables and the headers of a PES. Models the readers of
    [server/internal/live/scantype.go] and [tsAligned] of [audio.go]. A
    callback's calls are the list of its arguments. *)
From S2P Require Import Prelude.
Local Open Scope Z_scope.
Local Open Scope go_scope.

(** ** Packets *)

Definition tsAligned (data : list Z) (off : Z) : res bool :=
  if zlen data <? off + 188 then Ok false else
  let! b := idx data off in
  if negb (b =? 0x47) then Ok false else
  if off + 376 <=? zlen data then let! n := idx data (off + 188) in Ok (n =? 0x47) else Ok true.

(** [int(pkt[1]&0x1f)<<8 | int(pkt[2])] *)
Definition pid_of (pkt : list Z) : res Z :=
  let! b1 := idx pkt 1 in let! b2 := idx pkt 2 in Ok (be16 (Z.land b1 0x1f) b2).

(** What [eachPacket] makes of one packet: a call of [fn], or none. *)
Definition each_one (pkt : list Z) (pid : Z) : res (option (bool * list Z)) :=
  let! got := pid_of pkt in
  if negb (got =? pid) then Ok None else
  let! b3 := idx pkt 3 in
  let afc := Z.land (Z.shiftr b3 4) 0x3 in
  if ((afc =? 2) || (afc =? 0))%bool then Ok None else
  let! b4 := idx pkt 4 in
  if ((afc =? 3) && (188 <? 5 + b4))%bool then Ok None else
  let start := if afc =? 3 then 4 + (1 + b4) else 4 in
  let! b1 := idx pkt 1 in
  let! payload := slice_from pkt start in
  Ok (Some (negb (Z.land b1 0x40 =? 0), payload)).

(** The loop of [eachPacket]; [data] is [data[off:]]. *)
Fixpoint each_loop (fuel : nat) (data : list Z) (pid : Z) : res (list (bool * list Z)) :=
  if zlen data <? 188 then Ok [] else
  match fuel with
  | O => NoFuel
  | S fuel =>
      let! ok := tsAligned data 0 in
      if negb ok then let! data := slice_from data 1 in each_loop fuel data pid
      else
        let! pkt := slice data 0 188 in
        let! call := each_one pkt pid in
        let! data := slice_from data 188 in
        let! calls := each_loop fuel data pid in
        Ok (match call with Some c => c :: calls | None => calls end)
  end.
Definition eachPacket (data : list Z) (pid : Z) : res (list (bool * list Z)) :=
  each_loop (length data) data pid.

(** ** Sections *)

Definition flush_section (out : list (list Z)) (cur : list Z) : list (list Z) :=
  if zlen cur =? 0 then out else out ++ [cur].

Definition sections_step (acc : list (list Z) * list Z) (call : bool * list Z) : res (list (list Z) * list Z) :=
  let ' (out, cur) := acc in
  let ' (start, payload) := call in
  if negb start then Ok (out, cur ++ payload)
  else if zlen payload =? 0 then Ok (flush_section out cur, [])
  else
    let! pointer := idx payload 0 in
    if zlen payload <? 1 + pointer then Ok (flush_section out cur, [])
    else
      let! tail := slice payload 1 (1 + pointer) in
      let cur := if ((0 <? pointer) && (0 <? zlen cur))%bool then cur ++ tail else cur in
      let! next := slice_from payload (1 + pointer) in
      Ok (flush_section out cur, next).

Fixpoint sections_fold (calls : list (bool * list Z)) (acc : list (list Z) * list Z) : res (list (list Z) * list Z) :=
  match calls with
  | [] => Ok acc
  | call :: calls => let! acc := sections_step acc call in sections_fold calls acc
  end.

Definition sections (data : list Z) (pid : Z) : res (list (list Z)) :=
  let! calls := eachPacket data pid in
  let! acc := sections_fold calls ([], []) in
  Ok (flush_section (fst acc) (snd acc)).

Definition sectionEnd (sec : list Z) : res Z :=
  if zlen sec <? 3 then Ok 0 else
  let! b1 := idx sec 1 in let! b2 := idx sec 2 in
  let n := be16 (Z.land b1 0x0f) b2 in
  let end_ := 3 + n - 4 in
  let end_ := if zlen sec <? end_ then zlen sec else end_ in
  Ok (if end_ <? 0 then 0 else end_).

(** ** The program tables *)

Definition streamMPEG2 : Z := 0x02.
Definition streamH264 : Z := 0x1b.
Definition streamHEVC : Z := 0x24.
Definition anyProgram : Z := -1.

Fixpoint pat_entries (fuel : nat) (sec : list Z) (end_ off : Z) : res (list (Z * Z)) :=
  if end_ <? off + 4 then Ok [] else
  match fuel with
  | O => NoFuel
  | S fuel =>
      let! s0 := idx sec off in let! s1 := idx sec (off + 1) in
      let! s2 := idx sec (off + 2) in let! s3 := idx sec (off + 3) in
      let! more := pat_entries fuel sec end_ (off + 4) in
      Ok ((be16 s0 s1, be16 (Z.land s2 0x1f) s3) :: more)
  end.

Definition wanted (program : Z) (e : Z * Z) : bool :=
  (negb (fst e =? 0) && ((program =? 0) || (fst e =? program)))%bool.

Definition patPMT (sec : list Z) (program : Z) : res Z :=
  let! end_ := sectionEnd sec in
  let! es := pat_entries (length sec) sec end_ 8 in
  Ok (match List.find (wanted program) es with Some e => snd e | None => 0 end).

Definition firstProgram (sec : list Z) : res Z :=
  let! end_ := sectionEnd sec in
  let! es := pat_entries (length sec) sec end_ 8 in
  Ok (match List.find (fun e => negb (fst e =? 0)) es with Some e => fst e | None => anyProgram end).

(** The streams a program map lists: type and PID. *)
Fixpoint pmt_streams (fuel : nat) (sec : list Z) (end_ off : Z) : res (list (Z * Z)) :=
  if end_ <? off + 5 then Ok [] else
  match fuel with
  | O => NoFuel
  | S fuel =>
      let! kind := idx sec off in
      let! b1 := idx sec (off + 1) in let! b2 := idx sec (off + 2) in
      let! b3 := idx sec (off + 3) in let! b4 := idx sec (off + 4) in
      let! more := pmt_streams fuel sec end_ (off + (5 + be16 (Z.land b3 0x0f) b4)) in
      Ok ((kind, be16 (Z.land b1 0x1f) b2) :: more)
  end.

Definition streams_of (sec : list Z) : res (list (Z * Z)) :=
  let! b10 := idx sec 10 in let! b11 := idx sec 11 in
  let! end_ := sectionEnd sec in
  pmt_streams (length sec) sec end_ (12 + be16 (Z.land b10 0x0f) b11).

Definition is_video (kind : Z) : bool :=
  ((kind =? streamMPEG2) || (kind =? streamH264) || (kind =? streamHEVC))%bool.

Definition pmtVideo (sec : list Z) : res (Z * Z) :=
  if zlen sec <? 12 then Ok (0, 0) else
  let! ss := streams_of sec in
  Ok (match List.find (fun s => is_video (fst s)) ss with Some (kind, pid) => (pid, kind) | None => (0, 0) end).

(** [pmtElementary] and [pmtSound] of programfilter.go *)
Definition pmtElementary (sec : list Z) : res (list Z) :=
  let! ss := streams_of sec in
  Ok (List.filter (fun pid => negb (pid =? 0) && negb (pid =? 0x1FFF))%bool (map snd ss)).

Definition is_sound (kind : Z) : bool :=
  existsb (Z.eqb kind) [0x03; 0x04; 0x0f; 0x11; 0x81; 0x87].

Definition pmtSound (sec : list Z) : res Z :=
  let! ss := streams_of sec in
  Ok (match List.find (fun s => is_sound (fst s)) ss with Some s => snd s | None => 0 end).

(** ** PES *)

Definition pesPayload (b : list Z) : res (list Z) :=
  if zlen b <? 9 then Ok [] else
  let! b0 := idx b 0 in let! b1 := idx b 1 in let! b2 := idx b 2 in
  if (negb (b0 =? 0) || negb (b1 =? 0) || negb (b2 =? 1))%bool then Ok [] else
  let! header := idx b 8 in
  let off := 9 + header in
  if zlen b <? off then Ok [] else slice_from b off.

Fixpoint elementary_fold (calls : list (bool * list Z)) (es : list Z) : res (list Z) :=
  match calls with
  | [] => Ok es
  | (start, payload) :: calls =>
      let! payload := if start then pesPayload payload else Ok payload in
      elementary_fold calls (es ++ payload)
  end.
Definition elementary (data : list Z) (pid : Z) : res (list Z) :=
  let! calls := eachPacket data pid in elementary_fold calls [].

(** The first program map [programVideo] finds, and its first section with a picture. *)
Fixpoint first_pmt (secs : list (list Z)) (program : Z) : res Z :=
  match secs with
  | [] => Ok 0
  | sec :: secs =>
      if zlen sec <? 12 then first_pmt secs program else
      let! b0 := idx sec 0 in
      if negb (b0 =? 0) then first_pmt secs program else
      let! pmtPID := patPMT sec program in
      if negb (pmtPID =? 0) then Ok pmtPID else first_pmt secs program
  end.

Fixpoint first_video (secs : list (list Z)) : res (Z * Z) :=
  match secs with
  | [] => Ok (0, 0)
  | sec :: secs =>
      if zlen sec <? 12 then first_video secs else
      let! b0 := idx sec 0 in
      if negb (b0 =? 2) then first_video secs else
      let! v := pmtVideo sec in
      if negb (fst v =? 0) then Ok v else first_video secs
  end.

Definition programVideo (data : list Z) (program : Z) : res (Z * Z * Z) :=
  let! pats := sections data 0 in
  let! pmtPID := first_pmt pats program in
  if pmtPID =? 0 then Ok (0, 0, 0) else
  let! pmts := sections data pmtPID in
  let! v := first_video pmts in
  Ok (pmtPID, fst v, snd v).

(** ** No bytes make the readers panic *)

Lemma tsAligned_total data off (Q : bool -> Prop) :
  bytes_ok data -> 0 <= off -> (forall b, Q b) -> returns (tsAligned data off) Q.
Proof. intros Hd Ho HQ. unfold tsAligned. go_steps; apply HQ. Qed.

Lemma pid_of_total pkt (Q : Z -> Prop) :
  bytes_ok pkt -> 3 <= zlen pkt -> (forall pid, 0 <= pid < 2 ^ 13 -> Q pid) -> returns (pid_of pkt) Q.
Proof. intros Hp Hl HQ. unfold pid_of. go_steps. apply HQ. blia. Qed.

Lemma each_one_total pkt pid :
  bytes_ok pkt -> zlen pkt = 188 ->
  returns (each_one pkt pid) (fun r => match r with Some c => bytes_ok (snd c) /\ zlen (snd c) <= 184 | None => True end).
Proof.
  intros Hp Hl. unfold each_one. apply returns_bind, pid_of_total; [done | lia |]. intros got _.
  go_step; [done |]. do 2 go_step. cbv zeta. go_step; [done |]. do 2 go_step. go_step; [done |].
  do 2 go_step. destruct (Z.land (Z.shiftr v 4) 3 =? 3) eqn:E3; cbn [andb] in *;
    go_step; go_step; (split; [done | cbn [snd]; blia]).
Qed.

Lemma each_loop_total fuel data pid :
  bytes_ok data -> zlen data <= Z.of_nat fuel ->
  returns (each_loop fuel data pid) (fun cs => Forall (fun c => bytes_ok (snd c)) cs).
Proof.
  revert data. induction fuel as [| fuel IH]; intros data Hd Hf; cbn [each_loop];
    (destruct (zlen data <? 188) eqn:E; [constructor |]); [lia |].
  apply returns_bind, tsAligned_total; [done | lia |]. intros b. go_step.
  { do 2 go_step. apply IH; [done | lia]. }
  do 2 go_step. apply returns_bind. eapply returns_mono; [apply each_one_total; [done | lia] |].
  intros call Hcall. do 2 go_step. apply returns_bind. eapply returns_mono; [apply IH; [done | lia] |].
  intros cs Hcs. destruct call as [c |]; [| done]. constructor; [apply Hcall | done].
Qed.

Lemma eachPacket_total data pid :
  bytes_ok data -> returns (eachPacket data pid) (fun cs => Forall (fun c => bytes_ok (snd c)) cs).
Proof. intros. apply each_loop_total; [done | unfold zlen; lia]. Qed.

Lemma flush_section_ok out cur :
  Forall bytes_ok out -> bytes_ok cur -> Forall bytes_ok (flush_section out cur).
Proof. intros. unfold flush_section. destruct (_ =? _); [done |]. apply Forall_app. by split; [| constructor]. Qed.

Lemma sections_step_total acc call :
  Forall bytes_ok (fst acc) -> bytes_ok (snd acc) -> bytes_ok (snd call) ->
  returns (sections_step acc call) (fun acc => Forall bytes_ok (fst acc) /\ bytes_ok (snd acc)).
Proof.
  destruct acc as [out cur], call as [b payload]. cbn [fst snd]. intros Ho Hc Hp. unfold sections_step.
  pose proof (zlen_nonneg payload). pose proof (flush_section_ok out cur Ho Hc).
  go_step; [by split; [| apply bytes_ok_app] |]. go_step; [by split; [| constructor] |].
  do 2 go_step. go_step; [by split; [| constructor] |]. do 4 go_step. cbn [fst snd].
  split; [| done]. apply flush_section_ok; [done |]. case_match; [by apply bytes_ok_app | done].
Qed.

Lemma sections_fold_total calls acc :
  Forall (fun c => bytes_ok (snd c)) calls -> Forall bytes_ok (fst acc) -> bytes_ok (snd acc) ->
  returns (sections_fold calls acc) (fun acc => Forall bytes_ok (fst acc) /\ bytes_ok (snd acc)).
Proof.
  revert acc. induction calls as [| call calls IH]; intros acc Hcs Ho Hc; [done |].
  apply Forall_cons in Hcs as [Hcall Hcs]. cbn [sections_fold]. apply returns_bind.
  eapply returns_mono; [by apply sections_step_total |]. intros acc' [? ?]. by apply IH.
Qed.

Lemma sections_total data pid : bytes_ok data -> returns (sections data pid) (Forall bytes_ok).
Proof.
  intros Hd. unfold sections. apply returns_bind. eapply returns_mono; [by apply eachPacket_total |].
  intros cs Hcs. apply returns_bind. eapply returns_mono; [apply sections_fold_total; [done | constructor | constructor] |].
  intros acc [? ?]. by apply flush_section_ok.
Qed.

Lemma sectionEnd_total sec (Q : Z -> Prop) :
  bytes_ok sec -> (forall e, 0 <= e <= zlen sec -> Q e) -> returns (sectionEnd sec) Q.
Proof.
  intros Hs HQ. pose proof (zlen_nonneg sec). unfold sectionEnd. go_step; [apply HQ; lia |].
  do 4 go_step. apply HQ. repeat case_match; lia.
Qed.

Lemma pat_entries_total fuel sec end_ off :
  bytes_ok sec -> end_ <= zlen sec -> 0 <= off -> end_ <= off + Z.of_nat fuel ->
  returns (pat_entries fuel sec end_ off) (Forall (fun e => 0 <= fst e /\ 0 <= snd e < 2 ^ 13)).
Proof.
  intros Hs He. revert off. induction fuel as [| fuel IH]; intros off Ho Hf; cbn [pat_entries];
    (destruct (end_ <? off + 4) eqn:E; [constructor |]); [lia |].
  do 8 go_step. apply returns_bind. eapply returns_mono; [apply IH; lia |].
  intros es Hes. constructor; [| done]. cbn [fst snd]. blia.
Qed.

Lemma find_holds {A} (P : A -> Prop) f (l : list A) x : Forall P l -> List.find f l = Some x -> P x.
Proof. intros Hl E. apply List.find_some in E as [Hin _]. apply list_elem_of_In in Hin. by eapply list.Forall_forall in Hl. Qed.

Lemma patPMT_total sec program (Q : Z -> Prop) :
  bytes_ok sec -> (forall pid, 0 <= pid < 2 ^ 13 -> Q pid) -> returns (patPMT sec program) Q.
Proof.
  intros Hs HQ. unfold patPMT. apply returns_bind, sectionEnd_total; [done |]. intros e He.
  apply returns_bind. eapply returns_mono; [apply pat_entries_total; [done | unfold zlen in *; lia..] |].
  intros es Hes. apply HQ. destruct (List.find _ es) as [x |] eqn:E; [| lia].
  by apply (find_holds _ _ _ _ Hes) in E as [_ ?].
Qed.

Lemma first_pmt_total secs program : Forall bytes_ok secs -> returns (first_pmt secs program) (fun _ => True).
Proof.
  induction 1 as [| sec secs Hs _ IH]; cbn [first_pmt]; [done |]. case_match; [done |]. do 2 go_step.
  case_match; [done |]. apply returns_bind. apply patPMT_total; [done |]. intros n. by case_match.
Qed.

Lemma firstProgram_total sec (Q : Z -> Prop) : bytes_ok sec -> (forall n, Q n) -> returns (firstProgram sec) Q.
Proof.
  intros Hs HQ. unfold firstProgram. apply returns_bind, sectionEnd_total; [done |]. intros e He.
  apply returns_bind. eapply returns_mono; [apply pat_entries_total; [done | unfold zlen in *; lia..] |].
  intros es _. apply HQ.
Qed.

Lemma pmt_streams_total fuel sec end_ off :
  bytes_ok sec -> end_ <= zlen sec -> 0 <= off -> end_ <= off + Z.of_nat fuel ->
  returns (pmt_streams fuel sec end_ off) (fun _ => True).
Proof.
  intros Hs He. revert off. induction fuel as [| fuel IH]; intros off Ho Hf; cbn [pmt_streams];
    (destruct (end_ <? off + 5) eqn:E; [done |]); [lia |].
  do 10 go_step. apply returns_bind. eapply returns_mono; [apply IH; blia |]. done.
Qed.

Lemma streams_of_total sec : bytes_ok sec -> 12 <= zlen sec -> returns (streams_of sec) (fun _ => True).
Proof.
  intros Hs Hl. unfold streams_of. do 4 go_step. apply returns_bind, sectionEnd_total; [done |].
  intros e He. apply pmt_streams_total; [done | lia | blia | blia || (pose_bits; unfold byte_ok, zlen in *; lia)].
Qed.

Lemma pmtVideo_total sec (Q : Z * Z -> Prop) : bytes_ok sec -> (forall v, Q v) -> returns (pmtVideo sec) Q.
Proof.
  intros Hs HQ. unfold pmtVideo. go_step; [apply HQ |]. apply returns_bind.
  eapply returns_mono; [apply streams_of_total; [done | lia] |]. intros; apply HQ.
Qed.

Lemma pmtElementary_total sec (Q : list Z -> Prop) :
  bytes_ok sec -> 12 <= zlen sec -> (forall l, Q l) -> returns (pmtElementary sec) Q.
Proof.
  intros Hs Hl HQ. unfold pmtElementary. apply returns_bind.
  eapply returns_mono; [by apply streams_of_total |]. intros; apply HQ.
Qed.

Lemma pmtSound_total sec (Q : Z -> Prop) :
  bytes_ok sec -> 12 <= zlen sec -> (forall n, Q n) -> returns (pmtSound sec) Q.
Proof.
  intros Hs Hl HQ. unfold pmtSound. apply returns_bind.
  eapply returns_mono; [by apply streams_of_total |]. intros; apply HQ.
Qed.

Lemma pesPayload_total b (Q : list Z -> Prop) :
  bytes_ok b -> (forall es, bytes_ok es -> Q es) -> returns (pesPayload b) Q.
Proof.
  intros Hb HQ. unfold pesPayload. go_step; [apply HQ; constructor |]. do 6 go_step.
  go_step; [apply HQ; constructor |]. do 2 go_step. cbv zeta. go_step; [apply HQ; constructor |].
  go_step. by apply HQ.
Qed.
