(* ===== verification/LiveFilter.v ===== *)
(** The pipe that gives an encode one program of a multiplex,
    [server/internal/live/programfilter.go].

    An encode's input is a number; what the pipe does to one (a write, a
    close) and its calls of [onBreak] are events. What an encode's input
    answers to a write is handed back and changes nothing. [now] is the clock
    during one write, in nanoseconds. The log lines, and [warned], which only
    spaces them, are left out. *)
From S2P Require Import Prelude Mpeg Crc LiveTs.
Local Open Scope Z_scope.
Local Open Scope go_scope.

Definition programFilterCap : Z := Z.shiftl 2 20.
Definition tailCap : Z := Z.shiftl 16 20.
Definition breakLimit : Z := 5.
Definition pesJump : Z := 10 * 90000.
Definition pesAgree : Z := 3.
Definition pesBack : Z := 90000.
Definition minute : Z := 60 * 10 ^ 9.

Record pesClock := mkClock { last_ : Z; cand : Z; agree : Z; dropping : bool; shift : Z }.
Record pesCount := mkCount { sound : Z; video_n : Z; heard : Z }.
(** [pipeSwitch]: the next encode's input, if one is waiting. *)
Definition pipeSwitch : Type := option nat.

Record programPipe := mkPipe {
  w : nat; program : Z;
  ready : bool; pass : bool; synced : bool;
  keep : gmap Z unit; pmtPID : Z; pmtVer : Z; pmtPkts : list Z; video : Z; kind : Z;
  started : bool; skipped : Z;
  pat : list Z; cc : Z;
  hold : list Z; rest : list Z;
  clocks : gmap Z pesClock;
  onBreak : bool; sw : option pipeSwitch;
  broken : bool; catching : bool; pending : list Z; tail : list Z; breaks : list Z;
  count : option pesCount
}.

Inductive event : Type :=
  | Wrote (encode : nat) (b : list Z)
  | Closed (encode : nat)
  | Broke.

(** Assignments. *)
Definition set_rest (p : programPipe) (b : list Z) (s : bool) : programPipe :=
  mkPipe (w p) (program p) (ready p) (pass p) s (keep p) (pmtPID p) (pmtVer p) (pmtPkts p) (video p) (kind p)
    (started p) (skipped p) (pat p) (cc p) (hold p) b (clocks p) (onBreak p) (sw p) (broken p) (catching p)
    (pending p) (tail p) (breaks p) (count p).
Definition set_hold (p : programPipe) (b : list Z) : programPipe :=
  mkPipe (w p) (program p) (ready p) (pass p) (synced p) (keep p) (pmtPID p) (pmtVer p) (pmtPkts p) (video p) (kind p)
    (started p) (skipped p) (pat p) (cc p) b (rest p) (clocks p) (onBreak p) (sw p) (broken p) (catching p)
    (pending p) (tail p) (breaks p) (count p).
Definition set_pass (p : programPipe) : programPipe :=
  mkPipe (w p) (program p) (ready p) true (synced p) (keep p) (pmtPID p) (pmtVer p) (pmtPkts p) (video p) (kind p)
    (started p) (skipped p) (pat p) (cc p) (hold p) (rest p) (clocks p) (onBreak p) (sw p) (broken p) (catching p)
    (pending p) (tail p) (breaks p) (count p).
(** [learn]'s assignments: the program, its map's PID, the table and [ready]. *)
Definition set_program (p : programPipe) (n : Z) : programPipe :=
  mkPipe (w p) n (ready p) (pass p) (synced p) (keep p) (pmtPID p) (pmtVer p) (pmtPkts p) (video p) (kind p)
    (started p) (skipped p) (pat p) (cc p) (hold p) (rest p) (clocks p) (onBreak p) (sw p) (broken p) (catching p)
    (pending p) (tail p) (breaks p) (count p).
Definition set_pmtPID (p : programPipe) (pid : Z) : programPipe :=
  mkPipe (w p) (program p) (ready p) (pass p) (synced p) (keep p) pid (pmtVer p) (pmtPkts p) (video p) (kind p)
    (started p) (skipped p) (pat p) (cc p) (hold p) (rest p) (clocks p) (onBreak p) (sw p) (broken p) (catching p)
    (pending p) (tail p) (breaks p) (count p).
Definition set_ready (p : programPipe) (table : list Z) : programPipe :=
  mkPipe (w p) (program p) true (pass p) (synced p) (keep p) (pmtPID p) (pmtVer p) (pmtPkts p) (video p) (kind p)
    (started p) (skipped p) table (cc p) (hold p) (rest p) (clocks p) (onBreak p) (sw p) (broken p) (catching p)
    (pending p) (tail p) (breaks p) (count p).
(** [useMap]'s *)
Definition set_map (p : programPipe) (k : gmap Z unit) (ver v kd : Z) (c : option pesCount) : programPipe :=
  mkPipe (w p) (program p) (ready p) (pass p) (synced p) k (pmtPID p) ver (pmtPkts p) v kd
    (started p) (skipped p) (pat p) (cc p) (hold p) (rest p) (clocks p) (onBreak p) (sw p) (broken p) (catching p)
    (pending p) (tail p) (breaks p) c.
Definition set_pmtPkts (p : programPipe) (b : list Z) : programPipe :=
  mkPipe (w p) (program p) (ready p) (pass p) (synced p) (keep p) (pmtPID p) (pmtVer p) b (video p) (kind p)
    (started p) (skipped p) (pat p) (cc p) (hold p) (rest p) (clocks p) (onBreak p) (sw p) (broken p) (catching p)
    (pending p) (tail p) (breaks p) (count p).
Definition set_start (p : programPipe) (st : bool) (n c : Z) : programPipe :=
  mkPipe (w p) (program p) (ready p) (pass p) (synced p) (keep p) (pmtPID p) (pmtVer p) (pmtPkts p) (video p) (kind p)
    st n (pat p) c (hold p) (rest p) (clocks p) (onBreak p) (sw p) (broken p) (catching p)
    (pending p) (tail p) (breaks p) (count p).
Definition set_clock (p : programPipe) (pid : Z) (c : pesClock) : programPipe :=
  mkPipe (w p) (program p) (ready p) (pass p) (synced p) (keep p) (pmtPID p) (pmtVer p) (pmtPkts p) (video p) (kind p)
    (started p) (skipped p) (pat p) (cc p) (hold p) (rest p) (<[pid := c]> (clocks p)) (onBreak p) (sw p) (broken p)
    (catching p) (pending p) (tail p) (breaks p) (count p).
Definition set_catching (p : programPipe) (c : bool) (b : list Z) : programPipe :=
  mkPipe (w p) (program p) (ready p) (pass p) (synced p) (keep p) (pmtPID p) (pmtVer p) (pmtPkts p) (video p) (kind p)
    (started p) (skipped p) (pat p) (cc p) (hold p) (rest p) (clocks p) (onBreak p) (sw p) (broken p) c
    b (tail p) (breaks p) (count p).
Definition set_breaks (p : programPipe) (b : bool) (l : list Z) : programPipe :=
  mkPipe (w p) (program p) (ready p) (pass p) (synced p) (keep p) (pmtPID p) (pmtVer p) (pmtPkts p) (video p) (kind p)
    (started p) (skipped p) (pat p) (cc p) (hold p) (rest p) (clocks p) (onBreak p) (sw p) b (catching p)
    (pending p) (tail p) l (count p).
Definition set_tail (p : programPipe) (b : list Z) : programPipe :=
  mkPipe (w p) (program p) (ready p) (pass p) (synced p) (keep p) (pmtPID p) (pmtVer p) (pmtPkts p) (video p) (kind p)
    (started p) (skipped p) (pat p) (cc p) (hold p) (rest p) (clocks p) (onBreak p) (sw p) (broken p) (catching p)
    (pending p) b (breaks p) (count p).
Definition set_sw (p : programPipe) (s : option pipeSwitch) : programPipe :=
  mkPipe (w p) (program p) (ready p) (pass p) (synced p) (keep p) (pmtPID p) (pmtVer p) (pmtPkts p) (video p) (kind p)
    (started p) (skipped p) (pat p) (cc p) (hold p) (rest p) (clocks p) (onBreak p) s (broken p) (catching p)
    (pending p) (tail p) (breaks p) (count p).
Definition set_count (p : programPipe) (c : option pesCount) : programPipe :=
  mkPipe (w p) (program p) (ready p) (pass p) (synced p) (keep p) (pmtPID p) (pmtVer p) (pmtPkts p) (video p) (kind p)
    (started p) (skipped p) (pat p) (cc p) (hold p) (rest p) (clocks p) (onBreak p) (sw p) (broken p) (catching p)
    (pending p) (tail p) (breaks p) c.

(** A pipe's fields before [learn], with what [renditionPipe] and a switch hand it. *)
Definition fresh (w : nat) (program : Z) (onBreak : bool) (sw : option pipeSwitch) (breaks : list Z)
    (count : option pesCount) : programPipe :=
  mkPipe w program false false false empty 0 (-1) [] 0 0 false 0 (replicate 188 0) 0 [] [] empty
    onBreak sw false false [] [] breaks count.
Definition newProgramPipe (w : nat) (program : Z) : option programPipe :=
  if program =? 0 then None else Some (fresh w program false None [] None).
Definition newPESCount (s : Z) : pesCount := mkCount s 0 0.
Definition silent (c : option pesCount) : bool :=
  match c with
  | None => false
  | Some c => ((0 <? sound c) && (20 <=? video_n c) && (heard c =? 0))%bool
  end.

(** ** Packets *)

Definition tsPayload (pkt : list Z) : res (list Z) :=
  let! b3 := idx pkt 3 in
  let afc := Z.land (Z.shiftr b3 4) 0x3 in
  if afc =? 1 then slice_from pkt 4
  else if afc =? 3 then
    let! b4 := idx pkt 4 in
    if 5 + b4 <=? zlen pkt then slice_from pkt (5 + b4) else Ok []
  else Ok [].

Definition ptsField (b : list Z) : res Z :=
  let! b0 := idx b 0 in let! b1 := idx b 1 in let! b2 := idx b 2 in
  let! b3 := idx b 3 in let! b4 := idx b 4 in Ok (pts_value b0 b1 b2 b3 b4).

Definition pesTime (b : list Z) : res (option Z) :=
  if zlen b <? 14 then Ok None else
  let! b0 := idx b 0 in let! b1 := idx b 1 in let! b2 := idx b 2 in
  if (negb (b0 =? 0) || negb (b1 =? 0) || negb (b2 =? 1))%bool then Ok None else
  let! id := idx b 3 in
  if negb ((id =? 0xbd) || ((0xc0 <=? id) && (id <=? 0xef)))%bool then Ok None else
  let! b7 := idx b 7 in
  let flags := Z.shiftr b7 6 in
  if flags =? 2 then let! f := slice b 9 14 in let! t := ptsField f in Ok (Some t)
  else if flags =? 3 then
    if zlen b <? 19 then Ok None else
    let! f := slice b 14 19 in let! t := ptsField f in Ok (Some t)
  else Ok None.

Definition ptsGap (a b : Z) : Z :=
  let d := ptsDelta a b in if d <? 0 then - d else d.

(** A start code's byte says whether the picture can be decoded from here. *)
Definition start_code (kind code : Z) : bool :=
  (((kind =? streamMPEG2) && (code =? 0xb3)) ||
   ((kind =? streamH264) && (Z.land code 0x1f =? 7)) ||
   ((kind =? streamHEVC) && (32 <=? Z.land (Z.shiftr code 1) 0x3f) && (Z.land (Z.shiftr code 1) 0x3f <=? 33)))%bool.

(** The loop of [sequenceStart]; the bytes are [es[i:]]. *)
Fixpoint sequence_loop (es : list Z) (kind : Z) : bool :=
  match es with
  | b0 :: ((b1 :: b2 :: code :: _) as next) =>
      if (negb (b0 =? 0) || negb (b1 =? 0) || negb (b2 =? 1))%bool then sequence_loop next kind
      else if start_code kind code then true else sequence_loop next kind
  | _ => false
  end.
Definition sequenceStart (payload : list Z) (kind : Z) : res bool :=
  let! es := pesPayload payload in Ok (sequence_loop es kind).

(** [pmtVersion] *)
Definition pmtVersion (pkt : list Z) : res (option Z) :=
  let! payload := tsPayload pkt in
  if zlen payload <? 7 then Ok None else
  let! pointer := idx payload 0 in
  let off := 1 + pointer in
  if zlen payload <? off + 6 then Ok None else
  let! t := idx payload off in
  if negb (t =? 0x02) then Ok None else
  let! v := idx payload (off + 5) in
  Ok (Some (Z.land (Z.shiftr v 1) 0x1f)).

(** The loop of [syncOffset]; [data] is [data[i:]]. *)
Fixpoint lined_up (n : nat) (data : list Z) : res bool :=
  match n with
  | O => Ok true
  | S n =>
      let! ok := lined_up n data in
      if ok : bool then let! b := idx data (188 * Z.of_nat n) in Ok (b =? 0x47) else Ok false
  end.
Fixpoint sync_loop (fuel : nat) (data : list Z) (n : nat) (i : Z) : res Z :=
  if zlen data <=? 188 * (Z.of_nat n - 1) then Ok (-1) else
  match fuel with
  | O => NoFuel
  | S fuel =>
      let! ok := lined_up n data in
      if ok : bool then Ok i
      else let! data := slice_from data 1 in sync_loop fuel data n (i + 1)
  end.
Definition syncOffset (data : list Z) (n : nat) : res Z := sync_loop (length data) data n 0.

(** The loop of [packets]; [data] is [data[off:]]. *)
Fixpoint packets_loop (fuel : nat) (data out : list Z) : res (list Z * list Z) :=
  if zlen data <=? 376 then Ok (out, data) else
  match fuel with
  | O => NoFuel
  | S fuel =>
      let! b0 := idx data 0 in let! b1 := idx data 188 in let! b2 := idx data 376 in
      if (negb (b0 =? 0x47) || negb (b1 =? 0x47) || negb (b2 =? 0x47))%bool then
        let! data := slice_from data 1 in packets_loop fuel data out
      else
        let! pkt := slice data 0 188 in
        let! data := slice_from data 188 in
        packets_loop fuel data (out ++ pkt)
  end.
Definition packets (p : programPipe) : res (programPipe * list Z) :=
  let! r := packets_loop (length (rest p)) (rest p) [] in
  Ok (set_rest p (snd r) (synced p), fst r).

(** ** The map *)

Definition keep_of (pcr pmt : Z) (pids : list Z) : gmap Z unit :=
  let k : gmap Z unit := <[pmt := tt]> (<[0 := tt]> empty) in
  let k := if pcr =? 0x1FFF then k else <[pcr := tt]> k in
  foldl (fun k pid => <[pid := tt]> k) k pids.

Definition useMap (p : programPipe) (sec : list Z) : res (programPipe * bool) :=
  if zlen sec <? 12 then Ok (p, false) else
  let! t := idx sec 0 in
  if negb (t =? 0x02) then Ok (p, false) else
  let! end_ := sectionEnd sec in
  if zlen sec <? end_ + 4 then Ok (p, false) else
  let! s3 := idx sec 3 in let! s4 := idx sec 4 in
  if negb (be16 s3 s4 =? program p) then Ok (p, false) else
  let! pids := pmtElementary sec in
  if zlen pids =? 0 then Ok (p, false) else
  let! s8 := idx sec 8 in let! s9 := idx sec 9 in
  let k := keep_of (be16 (Z.land s8 0x1f) s9) (pmtPID p) pids in
  let! s5 := idx sec 5 in
  let! v := pmtVideo sec in
  let! c := match count p with
            | Some c =>
                if sound c =? 0 then let! s := pmtSound sec in Ok (Some (mkCount s (video_n c) (heard c)))
                else Ok (Some c)
            | None => Ok None
            end in
  Ok (set_map p k (Z.land (Z.shiftr s5 1) 0x1f) (fst v) (snd v) c, true).

(** [learn]'s loop over the sections of PID 0: the program, the stream's id,
    the map's PID and [absent]. *)
Fixpoint learn_pat (secs : list (list Z)) (program tsID : Z) (absent : bool) : res (Z * Z * Z * bool) :=
  match secs with
  | [] => Ok (program, tsID, 0, absent)
  | sec :: secs =>
      if zlen sec <? 8 then learn_pat secs program tsID absent else
      let! t := idx sec 0 in
      if negb (t =? 0x00) then learn_pat secs program tsID absent else
      let! end_ := sectionEnd sec in
      if zlen sec <? end_ + 4 then learn_pat secs program tsID absent else
      let! s3 := idx sec 3 in let! s4 := idx sec 4 in
      let tsID := be16 s3 s4 in
      let! program := if program =? anyProgram then firstProgram sec else Ok program in
      let! pid := patPMT sec program in
      if negb (pid =? 0) then Ok (program, tsID, pid, false)
      else learn_pat secs program tsID true
  end.

Fixpoint learn_map (secs : list (list Z)) (p : programPipe) (tsID : Z) : res (programPipe * bool) :=
  match secs with
  | [] => Ok (p, false)
  | sec :: secs =>
      let! r := useMap p sec in
      if snd r : bool then
        let! table := singleProgramPAT (program (fst r)) (pmtPID (fst r)) tsID in
        Ok (set_ready (fst r) table, true)
      else learn_map secs (fst r) tsID
  end.

Definition learn (p : programPipe) (buf : list Z) : res (programPipe * bool) :=
  let! pats := sections buf 0 in
  let! ' (program, tsID, pid, absent) := learn_pat pats (program p) 0 false in
  let p := set_program p program in
  if pid =? 0 then Ok (if absent : bool then set_pass p else p, false)
  else
    let p := set_pmtPID p pid in
    let! pmts := sections buf pid in
    learn_map pmts p tsID.

(** ** The clocks *)

Definition canBreak (now : Z) (p : programPipe) : bool * programPipe :=
  match sw p with
  | Some _ =>
      if negb (onBreak p) then (false, p) else
      let fix prune (l : list Z) : list Z :=
        match l with
        | b :: l' => if b <? now - minute then prune l' else l
        | [] => []
        end in
      let p := set_breaks p (broken p) (prune (breaks p)) in
      (zlen (breaks p) <? breakLimit, p)
  | None => (false, p)
  end.

(** A header off its timeline: does it agree with the one before? *)
Definition agrees (ts : Z) (c : pesClock) : bool := ((0 <? agree c) && (ptsGap ts (cand c) <=? pesJump))%bool.
Definition agree_count (ts : Z) (c : pesClock) : Z := if agrees ts c then agree c + 1 else 1.

(** What may be a new timeline's first packet is caught. *)
Definition watch_break (now : Z) (p : programPipe) (pid : Z) (pkt : list Z) (ts : Z) (c : pesClock) : programPipe :=
  let p :=
    if agrees ts c then p
    else
      let ' (can, p) := if pid =? video p then canBreak now p else (false, p) in
      if (can && (ptsDelta ts (last_ c) <? 0))%bool then set_catching p true pkt else p in
  if (catching p && (tailCap <? zlen (pending p)))%bool then set_catching p false [] else p.

(** [keepPES] from the second half on. *)
Definition off_timeline (now : Z) (p : programPipe) (pid : Z) (pkt : list Z) (ts : Z) (c : pesClock) :
    res (bool * programPipe * list event) :=
  let p := watch_break now p pid pkt ts c in
  if pesAgree <=? agree_count ts c then
    if ((pid =? video p) && catching p && (ptsDelta ts (last_ c) <? 0))%bool then
      let p := set_clock p pid (mkClock (last_ c) ts (agree_count ts c) (dropping c) (shift c)) in
      let p := set_breaks p true (breaks p ++ [now]) in
      if onBreak p then Ok (false, p, [Broke]) else Panic
    else
      let p := if pid =? video p then set_catching p false [] else p in
      Ok (true, set_clock p pid (mkClock ts ts 0 false (shift c)), [])
  else Ok (false, set_clock p pid (mkClock (last_ c) ts (agree_count ts c) true (wrap8 (shift c + 1))), []).

Definition keepPES (now : Z) (p : programPipe) (pid : Z) (pkt : list Z) : res (bool * programPipe * list event) :=
  let! b3 := idx pkt 3 in
  if ((pid =? pmtPID p) || (Z.land b3 0x10 =? 0))%bool then Ok (true, p, []) else
  let c := clocks p !! pid in
  let! b1 := idx pkt 1 in
  if Z.land b1 0x40 =? 0 then
    match c with
    | Some c =>
        if dropping c then
          Ok (false, set_clock p pid (mkClock (last_ c) (cand c) (agree c) true (wrap8 (shift c + 1))), [])
        else Ok (true, p, [])
    | None => Ok (true, p, [])
    end
  else
    let! payload := tsPayload pkt in
    let! t := pesTime payload in
    match t, c with
    | None, Some c => Ok (true, set_clock p pid (mkClock (last_ c) (cand c) (agree c) false (shift c)), [])
    | None, None => Ok (true, p, [])
    | Some ts, None => Ok (true, set_clock p pid (mkClock ts 0 0 false 0), [])
    | Some ts, Some c =>
        let d := ptsDelta ts (last_ c) in
        if ((d <=? pesJump) && (- pesBack <=? d))%bool then
          let p := if pid =? video p then set_catching p false [] else p in
          Ok (true, set_clock p pid (mkClock ts (cand c) 0 false (shift c)), [])
        else off_timeline now p pid pkt ts c
    end.

(** ** The filter *)

(** The one-program table with the pipe's own counter, which it moves. *)
Definition next_pat (p : programPipe) : programPipe * list Z :=
  (set_start p (started p) (skipped p) (Z.land (cc p + 1) 0x0f), <[3%nat := Z.lor 0x10 (Z.land (cc p) 0x0f)]> (pat p)).

Definition catch (p : programPipe) (pkt : list Z) : programPipe :=
  if catching p then
    let p := set_catching p true (pending p ++ pkt) in
    if tailCap <? zlen (pending p) then set_catching p false [] else p
  else p.

Fixpoint new_maps (secs : list (list Z)) (p : programPipe) : res programPipe :=
  match secs with
  | [] => Ok p
  | sec :: secs =>
      if 5 <? zlen sec then
        let! s0 := idx sec 0 in let! s5 := idx sec 5 in
        if ((s0 =? 0x02) && negb (Z.land (Z.shiftr s5 1) 0x1f =? pmtVer p))%bool then
          let! r := useMap p sec in new_maps secs (fst r)
        else new_maps secs p
      else new_maps secs p
  end.

(** What [filter] does with a packet of the map's PID. *)
Definition follow_map (p : programPipe) (pid : Z) (pkt : list Z) : res programPipe :=
  if negb (pid =? pmtPID p) then Ok p else
  let! b1 := idx pkt 1 in
  let start := negb (Z.land b1 0x40 =? 0) in
  let p := if start then set_pmtPkts p [] else p in
  let p := if zlen (pmtPkts p) <? 188 * 4 then set_pmtPkts p (pmtPkts p ++ pkt) else p in
  if negb start then Ok p else
  let! v := pmtVersion pkt in
  if (match v with Some ver => ver =? pmtVer p | None => false end) then Ok p
  else let! secs := sections pkt pid in new_maps secs p.

Definition count_pes (p : programPipe) (pid : Z) (pkt : list Z) : res programPipe :=
  match count p with
  | None => Ok p
  | Some c =>
      let! b1 := idx pkt 1 in
      if Z.land b1 0x40 =? 0 then Ok p
      else if pid =? video p then Ok (set_count p (Some (mkCount (sound c) (video_n c + 1) (heard c))))
      else if pid =? sound c then
        let! payload := tsPayload pkt in
        let! t := pesTime payload in
        Ok (match t with
            | Some _ => set_count p (Some (mkCount (sound c) (video_n c) (heard c + 1)))
            | None => p
            end)
      else Ok p
  end.

(** The packet with its counter moved back past the packets dropped. *)
Definition renumber (p : programPipe) (pid : Z) (pkt : list Z) : res (list Z) :=
  match clocks p !! pid with
  | Some c =>
      let! b3 := idx pkt 3 in
      if (negb (shift c =? 0) && negb (Z.land b3 0x30 =? 0))%bool then
        Ok (<[3%nat := Z.lor (Z.land b3 0xf0) (Z.land (wrap8 (b3 - shift c)) 0x0f)]> pkt)
      else Ok pkt
  | None => Ok pkt
  end.

(** One round of [filter]'s loop: the pipe and what goes out; [None] when the
    picture broke here. *)
Definition filter_packet (now : Z) (p : programPipe) (pkt : list Z) :
    res (programPipe * option (list Z) * list event) :=
  let! pid := pid_of pkt in
  let p := catch p pkt in
  if pid =? 0 then let ' (p, table) := next_pat p in Ok (p, Some table, []) else
  let! p := follow_map p pid pkt in
  if negb (bool_decide (is_Some (keep p !! pid))) then Ok (p, if broken p then None else Some [], [])
  else
    let! ' (kept, p, evs) := keepPES now p pid pkt in
    if negb kept then Ok (p, if broken p then None else Some [], evs)
    else
      let! p := count_pes p pid pkt in
      let! out := renumber p pid pkt in
      Ok (p, Some out, evs).

(** [p.tail = append(append(p.pending, data[off+188:]...), p.rest...)] *)
Definition break_off (p : programPipe) (more : list Z) : programPipe :=
  let p := set_tail p (pending p ++ more ++ rest p) in
  set_catching (set_rest p [] (synced p)) false [].

(** The loop of [filter]; [data] is [data[off:]]. *)
Fixpoint filter_loop (fuel : nat) (now : Z) (p : programPipe) (data out : list Z) :
    res (programPipe * list Z * list event) :=
  if zlen data <? 188 then Ok (p, out, []) else
  match fuel with
  | O => NoFuel
  | S fuel =>
      let! pkt := slice data 0 188 in
      let! more := slice_from data 188 in
      let! ' (p, o, evs) := filter_packet now p pkt in
      match o with
      | None => Ok (break_off p more, out, evs)
      | Some o =>
          let! ' (p, out, evs') := filter_loop fuel now p more (out ++ o) in
          Ok (p, out, evs ++ evs')
      end
  end.
Definition filter_ (now : Z) (p : programPipe) (data : list Z) : res (programPipe * list Z * list event) :=
  filter_loop (length data) now p data [].

(** ** Starting *)

Fixpoint start_loop (fuel : nat) (p : programPipe) (out : list Z) : res (option (programPipe * list Z)) :=
  if zlen out <? 188 then Ok None else
  match fuel with
  | O => NoFuel
  | S fuel =>
      let! pkt := slice out 0 188 in
      let! more := slice_from out 188 in
      let! pid := pid_of pkt in
      let! b1 := idx pkt 1 in
      if (negb (pid =? video p) || (Z.land b1 0x40 =? 0))%bool then start_loop fuel p more
      else
        let! payload := tsPayload pkt in
        let! ok := sequenceStart payload (kind p) in
        if negb ok then start_loop fuel p more
        else
          let ' (p, table) := next_pat p in
          Ok (Some (set_start p true (skipped p) (cc p), table ++ pmtPkts p ++ out))
  end.

Definition start (p : programPipe) (out : list Z) : res (programPipe * list Z) :=
  if video p =? 0 then Ok (set_start p true (skipped p) (cc p), out) else
  let! r := start_loop (length out) p out in
  match r with
  | Some r => Ok r
  | None =>
      let p := set_start p (started p) (skipped p + zlen out) (cc p) in
      if programFilterCap <? skipped p then Ok (set_start p true (skipped p) (cc p), out) else Ok (p, [])
  end.

(** ** Writes *)

Definition giveUp (p : programPipe) : programPipe * list event :=
  let buf := hold p ++ rest p in
  let p := set_rest (set_hold (set_pass p) []) [] (synced p) in
  (p, if zlen buf =? 0 then [] else [Wrote (w p) buf]).

(** What [Write] does with the packets of a pipe that knows its program. *)
Definition send (now : Z) (p : programPipe) (pkts : list Z) : res (programPipe * list event) :=
  let! ' (p, out, evs) := filter_ now p pkts in
  let! ' (p, out) := if started p then Ok (p, out) else start p out in
  Ok (p, evs ++ (if zlen out =? 0 then [] else [Wrote (w p) out])).

(** [Write] of a pipe that is not broken. *)
Definition write_on (now : Z) (p : programPipe) (chunk : list Z) : res (programPipe * list event) :=
  if pass p then Ok (p, [Wrote (w p) chunk]) else
  let p := set_rest p (rest p ++ chunk) (synced p) in
  let! ' (p, go) :=
    if synced p then Ok (p, true)
    else
      let! i := syncOffset (rest p) 3 in
      if i <? 0 then Ok (p, false)
      else let! r := slice_from (rest p) i in Ok (set_rest p r true, true) in
  if negb go then (if zlen (rest p) <? 188 * 16 then Ok (p, []) else Ok (giveUp p)) else
  let! ' (p, pkts) := packets p in
  if ready p then send now p pkts
  else
    let p := set_hold p (hold p ++ pkts) in
    let! ' (p, known) := learn p (hold p) in
    if negb known then
      if (negb (pass p) && (zlen (hold p) <? programFilterCap))%bool then Ok (p, []) else Ok (giveUp p)
    else send now (set_hold p []) (hold p).

(** [pipeSwitch.take] and [give] *)
Definition take_next (p : programPipe) : res (programPipe * option nat) :=
  match sw p with
  | None => Panic
  | Some next => Ok (set_sw p (Some None), next)
  end.
Definition give (p : programPipe) (encode : nat) : programPipe * list event :=
  match sw p with
  | None => (p, [])
  | Some next => (set_sw p (Some (Some encode)), match next with Some old => [Closed old] | None => [] end)
  end.

Definition Write (now : Z) (p : programPipe) (chunk : list Z) : res (programPipe * list event) :=
  if broken p then
    let p := if zlen (tail p) + zlen chunk <=? tailCap then set_tail p (tail p ++ chunk) else p in
    let! ' (p, next) := take_next p in
    match next with
    | None => Ok (p, [])
    | Some next =>
        let! ' (p', evs) := write_on now (fresh next (program p) (onBreak p) (sw p) (breaks p) (count p)) (tail p) in
        Ok (p', Closed (w p) :: evs)
    end
  else write_on now p chunk.

Definition Close (p : programPipe) : res (programPipe * list event) :=
  let! ' (p, evs) := match sw p with
                     | None => Ok (p, [])
                     | Some _ =>
                         let! ' (p, next) := take_next p in
                         Ok (p, match next with Some n => [Closed n] | None => [] end)
                     end in
  let ' (p, evs') := if (negb (pass p) && negb (ready p) && negb (broken p))%bool then giveUp p else (p, []) in
  Ok (p, evs ++ evs' ++ [Closed (w p)]).

(** ** Whole packets *)

Definition is_packet (pkt : list Z) : Prop := zlen pkt = 188 /\ bytes_ok pkt /\ head pkt = Some 0x47.
Inductive whole : list Z -> Prop :=
  | whole_nil : whole []
  | whole_cons pkt b : is_packet pkt -> whole b -> whole (pkt ++ b).

Lemma whole_app a b : whole a -> whole b -> whole (a ++ b).
Proof. intros Ha Hb. induction Ha; [done |]. rewrite <- app_assoc. by constructor. Qed.

Lemma whole_one pkt : is_packet pkt -> whole pkt.
Proof. intros. rewrite <- (app_nil_r pkt). apply whole_cons; [done | constructor]. Qed.

Lemma whole_bytes b : whole b -> bytes_ok b.
Proof. induction 1 as [| pkt b (_ & Hp & _) _ IH]; [constructor | by apply bytes_ok_app]. Qed.

(** A loop over packets sees the packets. *)
Lemma whole_head pkt b :
  is_packet pkt ->
  (zlen (pkt ++ b) <? 188) = false /\ slice (pkt ++ b) 0 188 = Ok pkt /\ slice_from (pkt ++ b) 188 = Ok b.
Proof.
  intros (Hl & _ & _). pose proof (zlen_nonneg b). rewrite zlen_app.
  split; [lia |]. split.
  - rewrite slice_app_l by lia. rewrite slice_Ok by lia. rewrite Z.sub_0_r. cbn [Z.to_nat drop].
    f_equal. apply take_ge. unfold zlen in Hl. lia.
  - rewrite slice_from_Ok by (rewrite zlen_app; lia). f_equal. rewrite drop_app_length'; [done |]. unfold zlen in Hl. lia.
Qed.

Lemma insert_packet pkt i v :
  is_packet pkt -> (0 < i)%nat -> byte_ok v -> is_packet (<[i := v]> pkt).
Proof.
  intros (Hl & Hb & Hh) Hi Hv. split_and!.
  - unfold zlen in *. by rewrite length_insert.
  - by apply Forall_insert.
  - destruct pkt; [done |]. by destruct i; [lia |].
Qed.

(** A packet of PID 0, as the one-program table is. *)
Definition is_table (pkt : list Z) : Prop := is_packet pkt /\ pid_of pkt = Ok 0.

Lemma idx_insert_ne (pkt : list Z) (i : nat) (j v : Z) :
  0 <= j -> j <> Z.of_nat i -> idx (<[i := v]> pkt) j = idx pkt j.
Proof.
  intros Hj Hne. unfold idx. destruct (j <? 0) eqn:E; [done |].
  by rewrite list_lookup_insert_ne by lia.
Qed.

Lemma idx_insert (pkt : list Z) (i : nat) (v : Z) :
  Z.of_nat i < zlen pkt -> idx (<[i := v]> pkt) (Z.of_nat i) = Ok v.
Proof.
  intros Hi. apply idx_Ok; [lia |]. rewrite Nat2Z.id. apply list_lookup_insert_eq. unfold zlen in Hi. lia.
Qed.

Lemma pid_of_insert pkt v : pid_of (<[3%nat := v]> pkt) = pid_of pkt.
Proof. unfold pid_of. by rewrite !idx_insert_ne by lia. Qed.

Lemma singleProgramPAT_packet program pmtPID tsID (Q : list Z -> Prop) :
  (forall pkt, is_table pkt -> Q pkt) -> returns (singleProgramPAT program pmtPID tsID) Q.
Proof.
  intros HQ. unfold singleProgramPAT. rewrite pat_section_eq. cbn [rbind returns]. apply HQ.
  split; [| reflexivity]. split; [reflexivity |]. split; [| reflexivity].
  repeat (apply bytes_ok_app || apply pat_body_ok || apply Forall_replicate ||
    (apply bytes_ok_cons; [first [apply wrap8_ok | unfold byte_ok; lia] |])); unfold byte_ok; try lia; constructor.
Qed.

(** ** What holds of a pipe *)

Record pipe_ok (p : programPipe) : Prop := mkPipeOk {
  ok_rest : bytes_ok (rest p);
  ok_hold : whole (hold p);
  ok_pmtPkts : whole (pmtPkts p);
  ok_pat : ready p = true -> is_table (pat p);
  ok_pending : bytes_ok (pending p);
  ok_tail : bytes_ok (tail p);
  ok_catching : catching p = true -> onBreak p = true /\ is_Some (sw p);
  ok_broken : broken p = true -> is_Some (sw p);
  ok_pass : broken p = true -> pass p = false
}.

(** A step on a pipe keeps what the rest of the program gave it. *)
Record same_wiring (p q : programPipe) : Prop := mkSameWiring {
  same_w : w q = w p;
  same_onBreak : onBreak q = onBreak p;
  same_sw : sw q = sw p;
  same_ready : ready q = ready p;
  same_pass : pass q = pass p;
  same_synced : synced q = synced p;
  same_started : started q = started p
}.

Lemma fresh_ok w program hook s breaks count : pipe_ok (fresh w program hook s breaks count).
Proof. by repeat constructor. Qed.

Lemma same_wiring_refl p : same_wiring p p.
Proof. by constructor. Qed.
Lemma same_wiring_trans p q r : same_wiring p q -> same_wiring q r -> same_wiring p r.
Proof. intros [] []. constructor; congruence. Qed.

Ltac pipe_solve := intros; match goal with H : pipe_ok _ |- _ => destruct H end;
  constructor; cbn in *; eauto using bytes_ok_nil, whole_nil; try done; try congruence.

Lemma tsPayload_total pkt (Q : list Z -> Prop) :
  bytes_ok pkt -> zlen pkt = 188 -> (forall b, bytes_ok b -> Q b) -> returns (tsPayload pkt) Q.
Proof.
  intros Hp Hl HQ. unfold tsPayload. do 2 go_step. cbv zeta. go_step; [go_step; by apply HQ |].
  go_step; [| apply HQ; constructor]. do 2 go_step. go_step; [go_step; by apply HQ | apply HQ; constructor].
Qed.

Lemma ptsField_total b (Q : Z -> Prop) : bytes_ok b -> zlen b = 5 -> (forall t, Q t) -> returns (ptsField b) Q.
Proof. intros Hb Hl HQ. unfold ptsField. go_steps. apply HQ. Qed.

Lemma pesTime_total b (Q : option Z -> Prop) : bytes_ok b -> (forall t, Q t) -> returns (pesTime b) Q.
Proof.
  intros Hb HQ. unfold pesTime. go_step; [apply HQ |]. do 6 go_step. go_step; [apply HQ |].
  do 2 go_step. go_step; [apply HQ |]. do 2 go_step. cbv zeta. go_step.
  { do 2 go_step. apply returns_bind, ptsField_total; [done | lia | intros; apply HQ]. }
  go_step; [| apply HQ]. go_step; [apply HQ |]. do 2 go_step.
  apply returns_bind, ptsField_total; [done | lia | intros; apply HQ].
Qed.

Lemma sequenceStart_total b k (Q : bool -> Prop) : bytes_ok b -> (forall r, Q r) -> returns (sequenceStart b k) Q.
Proof. intros Hb HQ. unfold sequenceStart. apply returns_bind, pesPayload_total; [done |]. intros es _. apply HQ. Qed.

Lemma pmtVersion_total pkt (Q : option Z -> Prop) :
  bytes_ok pkt -> zlen pkt = 188 -> (forall v, Q v) -> returns (pmtVersion pkt) Q.
Proof.
  intros Hp Hl HQ. unfold pmtVersion. apply returns_bind, tsPayload_total; [done | done |]. intros b Hb.
  go_step; [apply HQ |]. do 2 go_step. cbv zeta. go_step; [apply HQ |]. do 2 go_step. go_step; [apply HQ |].
  do 2 go_step. apply HQ.
Qed.

(** What [useMap] may change. *)
Definition mapped (p q : programPipe) : Prop :=
  exists k ver v kd c, q = set_map p k ver v kd c.

Lemma useMap_total p sec :
  bytes_ok sec -> returns (useMap p sec) (fun r => fst r = p \/ mapped p (fst r)).
Proof.
  intros Hs. unfold useMap. go_step; [by left |]. do 2 go_step. go_step; [by left |].
  apply returns_bind, sectionEnd_total; [done |]. intros e He. go_step; [by left |].
  do 4 go_step. go_step; [by left |]. apply returns_bind, pmtElementary_total; [done | lia |]. intros pids.
  go_step; [by left |]. do 4 go_step. cbv zeta. do 2 go_step. apply returns_bind, pmtVideo_total; [done |]. intros vk.
  apply returns_bind. apply (returns_mono _ (fun _ => True)).
  { destruct (count p) as [c |]; [| done]. go_step; [| done]. apply returns_bind, pmtSound_total; [done | lia | done]. }
  intros c _. right. by repeat eexists.
Qed.

Lemma mapped_ok p q : pipe_ok p -> mapped p q -> pipe_ok q /\ same_wiring p q /\ broken q = broken p.
Proof.
  intros Hp (k & ver & v & kd & c & ->). split_and!; [pipe_solve | by constructor | done].
Qed.

(** ** The clocks *)

Lemma canBreak_spec now p :
  exists l, snd (canBreak now p) = set_breaks p (broken p) l /\
    (fst (canBreak now p) = true -> onBreak p = true /\ is_Some (sw p)).
Proof.
  unfold canBreak. destruct p as [? ? ? ? ? ? ? ? ? ? ? ? ? ? ? ? ? ? hook s ? ? ? ? brs ?]. cbn.
  destruct s as [s |]; [| by exists brs]. destruct hook; [| by exists brs].
  cbn. eexists. split; [reflexivity |]. by eauto.
Qed.

(** The outcome of [keepPES]. *)
Definition kept_ok (p : programPipe) (r : bool * programPipe * list event) : Prop :=
  pipe_ok (snd (fst r)) /\ same_wiring p (snd (fst r)) /\ (fst (fst r) = true -> broken (snd (fst r)) = false).

Lemma catching_ok p b pkt :
  pipe_ok p -> bytes_ok pkt -> (b = true -> onBreak p = true /\ is_Some (sw p)) ->
  pipe_ok (set_catching p b pkt) /\ same_wiring p (set_catching p b pkt).
Proof. intros Hp Hk Hb. split; [pipe_solve | by constructor]. Qed.

Lemma watch_break_ok now p pid pkt ts c :
  pipe_ok p -> bytes_ok pkt ->
  pipe_ok (watch_break now p pid pkt ts c) /\ same_wiring p (watch_break now p pid pkt ts c) /\
  broken (watch_break now p pid pkt ts c) = broken p.
Proof.
  intros Hp Hk. unfold watch_break.
  match goal with |- context [if agrees ts c then p else ?x] => set (p1 := if agrees ts c then p else x) end.
  assert (pipe_ok p1 /\ same_wiring p p1 /\ broken p1 = broken p) as (Hp1 & Hw1 & Hb1).
  { subst p1. destruct (agrees ts c); [split_and!; [done | apply same_wiring_refl | done] |].
    assert (exists l b, (if pid =? video p then canBreak now p else (false, p)) = (b, set_breaks p (broken p) l) /\
      (b = true -> onBreak p = true /\ is_Some (sw p))) as (l & b & -> & Hcan).
    { destruct (pid =? video p); [| exists (breaks p), false; split; [by destruct p | done]].
      destruct (canBreak_spec now p) as (l & El & Hc). exists l, (fst (canBreak now p)).
      rewrite <- El. split; [by destruct (canBreak now p) | done]. }
    assert (pipe_ok (set_breaks p (broken p) l)) as Hpl by pipe_solve.
    destruct (_ && _)%bool eqn:E; [| split_and!; [done | by constructor | done]].
    apply andb_true_iff in E as [-> _].
    destruct (catching_ok (set_breaks p (broken p) l) true pkt Hpl Hk) as [? _]; [by auto |].
    split_and!; [done | by constructor | done]. }
  cbv zeta. fold p1. clearbody p1. destruct (_ && _)%bool; [| done].
  split_and!; [pipe_solve | | done]. eapply same_wiring_trans; [done | by constructor].
Qed.

Lemma off_timeline_total now p pid pkt ts c :
  pipe_ok p -> pass p = false -> broken p = false -> bytes_ok pkt ->
  returns (off_timeline now p pid pkt ts c) (kept_ok p).
Proof.
  intros Hp Hps Hb Hk. unfold off_timeline. cbv zeta.
  destruct (watch_break_ok now p pid pkt ts c Hp Hk) as (Hp2 & Hw2 & Hb2). rewrite Hb in Hb2.
  set (p2 := watch_break now p pid pkt ts c) in *.
  assert (pass p2 = false) as Hps2 by (by rewrite (same_pass _ _ Hw2)).
  clearbody p2. go_step.
  - destruct (_ && _ && _)%bool eqn:E.
    + apply andb_true_iff in E as [[_ Hc]%andb_true_iff _].
      destruct (ok_catching _ Hp2 Hc) as [Hh Hs].
      cbn [onBreak set_breaks set_clock breaks] in *. rewrite Hh. split_and!; cbn; [pipe_solve | | done].
      eapply same_wiring_trans; [done | by constructor].
    + destruct (pid =? video p2); (split_and!; cbn; [pipe_solve | | done];
        eapply same_wiring_trans; [done | by constructor]).
  - split_and!; cbn; [pipe_solve | | done]. eapply same_wiring_trans; [done | by constructor].
Qed.

Lemma keepPES_total now p pid pkt :
  pipe_ok p -> pass p = false -> broken p = false -> is_packet pkt -> returns (keepPES now p pid pkt) (kept_ok p).
Proof.
  intros Hp Hps Hb (Hl & Hk & _). unfold keepPES. do 2 go_step.
  assert (kept_ok p (true, p, [])) as Hsame by (split_and!; [done | apply same_wiring_refl | done]).
  assert (forall k c, kept_ok p (k, set_clock p pid c, [])) as Hclock
    by (intros; split_and!; cbn; [pipe_solve | by constructor | done]).
  go_step; [done |]. do 2 go_step. go_step.
  { destruct (clocks p !! pid) as [c |]; [| exact Hsame]. destruct (dropping c); [apply Hclock | exact Hsame]. }
  apply returns_bind, tsPayload_total; [done | done |]. intros b Hbb.
  apply returns_bind, pesTime_total; [done |]. intros [ts |]; destruct (clocks p !! pid) as [c |];
    try apply Hclock; try exact Hsame.
  cbv zeta. go_step; [| by apply off_timeline_total].
  destruct (pid =? video p); [| apply Hclock].
  split_and!; cbn; [pipe_solve | by constructor | done].
Qed.

(** ** The filter *)

Lemma next_pat_ok p :
  pipe_ok p -> ready p = true ->
  pipe_ok (fst (next_pat p)) /\ same_wiring p (fst (next_pat p)) /\ broken (fst (next_pat p)) = broken p /\
  is_table (snd (next_pat p)).
Proof.
  intros Hp Hr. split_and!; cbn; [pipe_solve | by constructor | done |].
  destruct (ok_pat p Hp Hr) as [Hk Hpid]. split; [| by rewrite pid_of_insert].
  apply insert_packet; [done | lia |]. apply byte_lor_ok; [unfold byte_ok; lia |]. apply byte_land_ok. lia.
Qed.

Lemma catch_ok p pkt :
  pipe_ok p -> bytes_ok pkt -> pipe_ok (catch p pkt) /\ same_wiring p (catch p pkt) /\ broken (catch p pkt) = broken p.
Proof.
  intros Hp Hk. unfold catch. destruct (catching p) eqn:E; [| split_and!; [done | apply same_wiring_refl | done]].
  cbv zeta. destruct (_ <? _); (split_and!; [pipe_solve | by constructor | done]).
  by apply bytes_ok_app.
Qed.

Lemma new_maps_total secs p :
  Forall bytes_ok secs -> pipe_ok p ->
  returns (new_maps secs p) (fun q => pipe_ok q /\ same_wiring p q /\ broken q = broken p).
Proof.
  revert p. induction secs as [| sec secs IH]; intros p Hs Hp; cbn [new_maps].
  { split_and!; [done | apply same_wiring_refl | done]. }
  apply Forall_cons in Hs as [Hsec Hs]. go_step; [| by apply IH]. do 4 go_step. go_step; [| by apply IH].
  apply returns_bind. eapply returns_mono; [by apply useMap_total |].
  intros r [-> | Hm]; [by apply IH |]. apply (mapped_ok p) in Hm as (Hq & Hw & Hb); [| done].
  eapply returns_mono; [by apply IH |]. intros q (? & ? & ?).
  split_and!; [done | by eapply same_wiring_trans | congruence].
Qed.

Lemma follow_map_total p pid pkt :
  pipe_ok p -> is_packet pkt ->
  returns (follow_map p pid pkt) (fun q => pipe_ok q /\ same_wiring p q /\ broken q = broken p).
Proof.
  intros Hp Hk. pose proof Hk as (Hl & Hb & _). unfold follow_map.
  assert (forall q, pipe_ok q -> forall b, whole b -> pipe_ok (set_pmtPkts q b)) as Hset by (intros; pipe_solve).
  go_step; [split_and!; [done | apply same_wiring_refl | done] |]. do 2 go_step. cbv zeta.
  set (p1 := if negb (Z.land v 64 =? 0) then set_pmtPkts p [] else p).
  assert (pipe_ok p1 /\ same_wiring p p1 /\ broken p1 = broken p) as (Hp1 & Hw1 & Hb1).
  { subst p1. destruct (Z.land v 64 =? 0); cbn [negb]; [split_and!; [done | apply same_wiring_refl | done] |].
    split_and!; [apply Hset; [done | constructor] | by constructor | done]. }
  clearbody p1.
  set (p2 := if zlen (pmtPkts p1) <? 188 * 4 then set_pmtPkts p1 (pmtPkts p1 ++ pkt) else p1).
  assert (pipe_ok p2 /\ same_wiring p p2 /\ broken p2 = broken p) as (Hp2 & Hw2 & Hb2).
  { subst p2. destruct (_ <? _); [| done]. split_and!; [| by eapply same_wiring_trans; [| constructor] | done].
    apply Hset; [done |]. apply whole_app; [by apply ok_pmtPkts | by apply whole_one]. }
  clearbody p2. go_step; [done |]. apply returns_bind, pmtVersion_total; [done | done |]. intros ver.
  go_step; [done |]. apply returns_bind. eapply returns_mono; [by apply sections_total |]. intros secs Hs.
  eapply returns_mono; [by apply new_maps_total |]. intros q (? & ? & ?).
  split_and!; [done | by eapply same_wiring_trans | congruence].
Qed.

Lemma count_pes_total p pid pkt :
  pipe_ok p -> is_packet pkt ->
  returns (count_pes p pid pkt) (fun q => exists c, q = set_count p c).
Proof.
  intros Hp (Hl & Hb & _). unfold count_pes.
  assert (exists c, p = set_count p c) as Hsame by (exists (count p); by destruct p).
  destruct (count p) as [c |]; [| done]. do 2 go_step. go_step; [done |]. go_step; [by eexists |].
  go_step; [| done]. apply returns_bind, tsPayload_total; [done | done |]. intros b Hbb.
  apply returns_bind, pesTime_total; [done |]. intros [t |]; [by eexists | done].
Qed.

Lemma renumber_total p pid pkt : is_packet pkt -> returns (renumber p pid pkt) is_packet.
Proof.
  intros Hk. pose proof Hk as (Hl & Hb & _). unfold renumber. destruct (clocks p !! pid) as [c |]; [| done].
  do 2 go_step. go_step; [| done]. apply insert_packet; [done | lia |].
  apply byte_lor_ok; apply byte_land_ok; lia.
Qed.

(** The outcome of one packet. *)
Definition filtered_ok (p : programPipe) (r : programPipe * option (list Z) * list event) : Prop :=
  pipe_ok (fst (fst r)) /\ same_wiring p (fst (fst r)) /\ (forall e b, ~ Wrote e b ∈ snd r) /\
  match snd (fst r) with
  | Some out => whole out /\ broken (fst (fst r)) = false
  | None => broken (fst (fst r)) = true
  end.

Lemma keepPES_quiet now p pid pkt r : keepPES now p pid pkt = Ok r -> forall e b, ~ Wrote e b ∈ snd r.
Proof.
  intros E e b. assert (snd r = [] \/ snd r = [Broke]) as [-> | ->]; [| set_solver..].
  revert E. unfold keepPES, off_timeline.
  repeat (first [progress cbn [rbind] | match goal with
    | |- (Ok _ = Ok _) -> _ => intros [= <-]; cbn; by (left + right)
    | |- (Panic = Ok _) -> _ => done
    | |- (rbind ?m _ = Ok _) -> _ => destruct m; cbn [rbind]; try done
    | |- ((if ?c then _ else _) = Ok _) -> _ => destruct c
    | |- (match ?c with _ => _ end = Ok _) -> _ => destruct c
    | |- _ => progress cbv zeta end]).
Qed.

Lemma filter_packet_total now p pkt :
  pipe_ok p -> pass p = false -> broken p = false -> ready p = true -> is_packet pkt ->
  returns (filter_packet now p pkt) (filtered_ok p).
Proof.
  intros Hp Hps Hnb Hr Hk. pose proof Hk as (Hl & Hb & _). unfold filter_packet.
  apply returns_bind, pid_of_total; [done | lia |]. intros pid _.
  destruct (catch_ok p pkt Hp Hb) as (Hc & Hcw & Hcb). cbv zeta. set (p1 := catch p pkt) in *. clearbody p1.
  rewrite Hnb in Hcb. assert (ready p1 = true) as Hr1 by (by rewrite (same_ready _ _ Hcw)).
  destruct (pid =? 0).
  { destruct (next_pat_ok p1 Hc Hr1) as (? & ? & Hb' & [? _]). destruct (next_pat p1) as [q table]. cbn [fst snd] in *.
    split_and!; cbn; [done | by eapply same_wiring_trans | set_solver |].
    split; [by apply whole_one | congruence]. }
  apply returns_bind. eapply returns_mono; [by apply follow_map_total |]. intros p2 (Hp2 & Hw2 & Hb2).
  rewrite Hcb in Hb2. assert (same_wiring p p2) as Hpw by (by eapply same_wiring_trans).
  destruct (negb _).
  { rewrite Hb2. split_and!; cbn; [done | done | set_solver |]. split; [constructor | done]. }
  apply returns_bind. pose proof (keepPES_quiet now p2 pid pkt) as Hq.
  assert (pass p2 = false) as Hps2 by (by rewrite (same_pass _ _ Hpw)).
  pose proof (keepPES_total now p2 pid pkt Hp2 Hps2 Hb2 Hk) as Ht.
  destruct (keepPES now p2 pid pkt) as [[[kept p3] evs] | |]; [| done..].
  destruct Ht as (Hp3 & Hw3 & Hkb). cbn [fst snd] in *. specialize (Hq _ eq_refl). cbn [snd] in Hq.
  assert (same_wiring p p3) as Hpw3 by (by eapply same_wiring_trans).
  destruct kept; cbn [negb returns].
  - apply returns_bind. eapply returns_mono; [by apply count_pes_total |]. intros p4 (c & ->).
    apply returns_bind. eapply returns_mono; [by apply renumber_total |]. intros out Hout.
    split_and!; cbn; [pipe_solve | by eapply same_wiring_trans; [| constructor] | done |].
    split; [by apply whole_one | auto].
  - destruct (broken p3) eqn:Eb; (split_and!; cbn; [done | done | done |]); [done |]. split; [constructor | done].
Qed.

Lemma break_off_ok p more : pipe_ok p -> bytes_ok more -> pipe_ok (break_off p more).
Proof. pipe_solve. by repeat apply bytes_ok_app. Qed.

(** The outcome of [filter]: whole packets, and nothing written yet. *)
Lemma filter_loop_total fuel now p data out :
  whole data -> zlen data <= Z.of_nat fuel -> pipe_ok p -> pass p = false -> broken p = false -> ready p = true -> whole out ->
  returns (filter_loop fuel now p data out) (fun r =>
    pipe_ok (fst (fst r)) /\ same_wiring p (fst (fst r)) /\ whole (snd (fst r)) /\ forall e b, ~ Wrote e b ∈ snd r).
Proof.
  intros Hd. revert fuel p out. induction Hd as [| pkt more Hk Hm IH]; intros fuel p out Hf Hp Hps Hnb Hr Ho.
  { destruct fuel; cbn [filter_loop]; (split_and!; [done | apply same_wiring_refl | done | set_solver]). }
  destruct (whole_head pkt more Hk) as (E1 & E2 & E3). pose proof Hk as (Hl & _ & _). rewrite zlen_app in Hf.
  pose proof (zlen_nonneg more).
  destruct fuel as [| fuel]; [lia |]. cbn [filter_loop]. rewrite E1, E2, E3. cbn [rbind].
  apply returns_bind. eapply returns_mono; [by apply filter_packet_total |].
  intros [[q o] evs] (Hq & Hw & Hev & Hout). cbn [fst snd] in *. destruct o as [o |].
  - destruct Hout as [Ho' Hb]. apply returns_bind.
    eapply returns_mono; [apply IH; [lia | done | by rewrite (same_pass _ _ Hw) | done | by rewrite (same_ready _ _ Hw) | by apply whole_app] |].
    intros [[q' out'] evs'] (? & ? & ? & Hev'). cbn [fst snd] in *.
    split_and!; cbn; [done | by eapply same_wiring_trans | done |]. intros e b [?%Hev | ?%Hev']%elem_of_app; done.
  - split_and!; cbn; [apply break_off_ok; [done | by apply whole_bytes] | | done | done].
    eapply same_wiring_trans; [done | by constructor].
Qed.

(** ** Taking packets, starting, learning *)

Lemma idx_head (b : list Z) v : idx b 0 = Ok v -> head b = Some v.
Proof. by destruct b; [| intros [= ->]]. Qed.

Lemma packets_loop_total fuel data out :
  bytes_ok data -> whole out -> zlen data <= Z.of_nat fuel ->
  returns (packets_loop fuel data out) (fun r => whole (fst r) /\ bytes_ok (snd r) /\ zlen (snd r) <= 376).
Proof.
  revert data out. induction fuel as [| fuel IH]; intros data out Hd Ho Hf; cbn [packets_loop];
    (destruct (zlen data <=? 376) eqn:E; [by split_and!; cbn; [| | lia] |]); [lia |].
  apply returns_bind. destruct (idx_in_range data 0 ltac:(lia)) as (b0 & _ & E0). rewrite E0. cbn [returns].
  do 4 go_step. go_step; [do 2 go_step; apply IH; [done | done | lia] |]. do 4 go_step.
  apply IH; [done | | lia]. apply whole_app; [done |]. apply whole_one. split_and!; [lia | done |].
  apply idx_head in E0. subst. destruct data; [done |]. injection E0 as ->. cbn. f_equal.
  by assert (b0 = 71) as -> by lia.
Qed.

Lemma packets_total p :
  bytes_ok (rest p) ->
  returns (packets p) (fun r => whole (snd r) /\ exists b, fst r = set_rest p b (synced p) /\ bytes_ok b /\ zlen b <= 376).
Proof.
  intros Hr. unfold packets. apply returns_bind.
  eapply returns_mono; [apply packets_loop_total; [done | constructor | unfold zlen; lia] |].
  intros r (? & ? & ?). split; [done |]. by exists (snd r).
Qed.

Lemma lined_up_total n data : bytes_ok data -> 188 * (Z.of_nat n - 1) < zlen data -> returns (lined_up n data) (fun _ => True).
Proof.
  intros Hd. induction n as [| n IH]; intros Hl; [done |]. cbn [lined_up]. apply returns_bind.
  eapply returns_mono; [apply IH; lia |]. intros b _. go_step; [| done]. do 2 go_step. done.
Qed.

Lemma sync_loop_total fuel data n i :
  (0 < n)%nat -> bytes_ok data -> zlen data <= Z.of_nat fuel -> 0 <= i ->
  returns (sync_loop fuel data n i) (fun r => r = -1 \/ i <= r < i + zlen data).
Proof.
  intros Hn. revert data i. induction fuel as [| fuel IH]; intros data i Hd Hf Hi; cbn [sync_loop];
    (destruct (zlen data <=? _) eqn:E; [by left |]); [lia |].
  apply returns_bind. eapply returns_mono; [apply lined_up_total; [done | lia] |]. intros b _.
  go_step; [right; lia |]. do 2 go_step. eapply returns_mono; [apply IH; [done | lia | lia] |].
  intros r [-> | ?]; [by left | right; lia].
Qed.

Lemma syncOffset_total data n :
  (0 < n)%nat -> bytes_ok data -> returns (syncOffset data n) (fun r => r = -1 \/ 0 <= r < zlen data).
Proof.
  intros Hn Hd. eapply returns_mono; [apply sync_loop_total; [done | done | unfold zlen; lia | lia] |]. done.
Qed.

(** What [start] may change. *)
Definition begun (p q : programPipe) : Prop := exists st n c, q = set_start p st n c.

Lemma start_loop_total fuel p out :
  whole out -> pipe_ok p -> ready p = true -> zlen out <= Z.of_nat fuel ->
  returns (start_loop fuel p out) (fun r => match r with
    | Some r => begun p (fst r) /\ whole (snd r)
    | None => True end).
Proof.
  intros Ho Hp Hr. revert fuel. induction Ho as [| pkt more Hk Hm IH]; intros fuel Hf.
  { by destruct fuel. }
  destruct (whole_head pkt more Hk) as (E1 & E2 & E3). pose proof Hk as (Hl & Hb & _). rewrite zlen_app in Hf.
  pose proof (zlen_nonneg more).
  destruct fuel as [| fuel]; [lia |]. cbn [start_loop]. rewrite E1, E2, E3. cbn [rbind].
  apply returns_bind, pid_of_total; [done | lia |]. intros pid _. do 2 go_step.
  go_step; [apply IH; lia |]. apply returns_bind, tsPayload_total; [done | done |]. intros b Hbb.
  apply returns_bind, sequenceStart_total; [done |]. intros r. go_step; [apply IH; lia |].
  destruct (next_pat_ok p Hp Hr) as (_ & _ & _ & [Ht _]). cbn [next_pat fst snd] in *.
  split; [by eexists _, _, _ |].
  apply whole_app; [by apply whole_one |]. apply whole_app; [apply Hp | by constructor].
Qed.

Lemma start_total p out :
  whole out -> pipe_ok p -> ready p = true ->
  returns (start p out) (fun r => begun p (fst r) /\ whole (snd r)).
Proof.
  intros Ho Hp Hr. unfold start. go_step; [by split; [eexists _, _, _ |] |].
  apply returns_bind. eapply returns_mono; [apply start_loop_total; [done | done | done | unfold zlen; lia] |].
  intros [r |] Hres; [done |]. cbv zeta. go_step; (split; [by eexists _, _, _ | first [done | constructor]]).
Qed.

Lemma learn_pat_total secs program tsID absent :
  Forall bytes_ok secs ->
  returns (learn_pat secs program tsID absent) (fun _ => True).
Proof.
  revert program tsID absent. induction secs as [| sec secs IH]; intros program tsID absent Hs; [done |].
  apply Forall_cons in Hs as [Hsec Hs]. cbn [learn_pat]. go_step; [by apply IH |]. do 2 go_step.
  go_step; [by apply IH |]. apply returns_bind, sectionEnd_total; [done |]. intros e _. go_step; [by apply IH |].
  do 4 go_step. apply returns_bind. apply (returns_mono _ (fun _ => True)).
  { go_step; [by apply firstProgram_total | done]. }
  intros n _. apply returns_bind, patPMT_total; [done |]. intros pid _. go_step; [done | by apply IH].
Qed.

(** [learn] leaves the pipe as it was but for the program, the map and the
    table, and says that it knows the program exactly when it is ready. *)
Definition learned_ok (p : programPipe) (r : programPipe * bool) : Prop :=
  pipe_ok (fst r) /\ w (fst r) = w p /\ onBreak (fst r) = onBreak p /\ sw (fst r) = sw p /\
  hold (fst r) = hold p /\ broken (fst r) = broken p /\ ready (fst r) = snd r /\
  (pass p = true \/ snd r = true -> pass (fst r) = pass p).

Lemma learn_map_total secs p tsID :
  Forall bytes_ok secs -> pipe_ok p -> broken p = false -> ready p = false -> returns (learn_map secs p tsID) (learned_ok p).
Proof.
  intros Hs. revert p. induction secs as [| sec secs IH]; intros p Hp Hnb Hr; [by split_and! |].
  apply Forall_cons in Hs as [Hsec Hs]. specialize (IH Hs). cbn [learn_map]. apply returns_bind.
  eapply returns_mono; [by apply useMap_total |]. intros [q known] Hq. cbn [fst snd] in *.
  assert (pipe_ok q /\ same_wiring p q /\ broken q = broken p /\ hold q = hold p) as (Hq' & [] & Hb & Hh).
  { destruct Hq as [-> | Hm]; [split_and!; [done | apply same_wiring_refl | done | done] |].
    pose proof (mapped_ok p q Hp Hm) as (? & ? & ?). destruct Hm as (? & ? & ? & ? & ? & ->). done. }
  destruct known.
  - apply returns_bind, singleProgramPAT_packet. intros pkt Hk. split_and!; cbn; try done. pipe_solve.
  - eapply returns_mono; [apply IH; [done | congruence | congruence] |]. intros r (? & ? & ? & ? & ? & ? & ? & Hpass).
    split_and!; try congruence. intros E. rewrite Hpass; [done |]. destruct E; [left; congruence | by right].
Qed.

Lemma learn_total p buf :
  bytes_ok buf -> pipe_ok p -> broken p = false -> ready p = false -> returns (learn p buf) (learned_ok p).
Proof.
  intros Hb Hp Hnb Hr. unfold learn. apply returns_bind. eapply returns_mono; [by apply sections_total |]. intros pats Hps.
  apply returns_bind. eapply returns_mono; [by apply learn_pat_total |]. intros [[[n tsID] pid] absent] _. cbv zeta.
  go_step.
  { destruct absent; (split_and!; cbn; [pipe_solve |..]; try done). by intros [-> | ?]. }
  apply returns_bind. eapply returns_mono; [by apply sections_total |]. intros pmts Hms.
  eapply returns_mono; [apply (learn_map_total pmts (set_pmtPID (set_program p n) pid)); [done | pipe_solve | done | done] |].
  intros r Hres. done.
Qed.

(** ** Every write ends *)

(** What goes to an encode of a pipe that has not given up is whole packets. *)
Definition wrote_whole (e : event) : Prop := match e with Wrote _ b => whole b | _ => True end.

Record step_ok (p : programPipe) (r : programPipe * list event) : Prop := mkStepOk {
  step_pipe : pipe_ok (fst r);
  step_onBreak : onBreak (fst r) = onBreak p;
  step_sw : is_Some (sw p) -> is_Some (sw (fst r));
  step_pass : pass p = true -> pass (fst r) = true;
  step_whole : pass (fst r) = false -> Forall wrote_whole (snd r)
}.

(** A step on a pipe that differs only inside is a step on the pipe. *)
Lemma step_ok_from p q r :
  onBreak q = onBreak p -> sw q = sw p -> (pass p = true -> pass q = true) -> step_ok q r -> step_ok p r.
Proof. intros Ho Hs Hp [? ? ? ? ?]. constructor; [done | congruence | by rewrite <- Hs | auto | done]. Qed.

Lemma step_ok_same p q : pipe_ok q -> onBreak q = onBreak p -> sw q = sw p -> pass q = pass p -> step_ok p (q, []).
Proof. intros Hq Ho Hs Hp. constructor; cbn; [done | done | by rewrite Hs | congruence | done]. Qed.

Lemma giveUp_ok p : pipe_ok p -> broken p = false -> step_ok p (giveUp p).
Proof. intros Hp Hb. constructor; cbn; [pipe_solve | done | done | done | done]. Qed.

Lemma send_total now p pkts :
  whole pkts -> pipe_ok p -> pass p = false -> broken p = false -> ready p = true ->
  returns (send now p pkts) (step_ok p).
Proof.
  intros Hk Hp Hps Hb Hr. unfold send, filter_. apply returns_bind.
  eapply returns_mono; [apply filter_loop_total; try done; constructor |].
  intros [[q out] evs] (Hq & [? Ho Hs Hrd Hpq ? ?] & Hw & Hev). cbn [fst snd] in *. apply returns_bind.
  apply (returns_mono _ (fun r => begun q (fst r) /\ whole (snd r))).
  { go_step; [split; [by exists (started q), (skipped q), (cc q); destruct q | done] | apply start_total; [done | done | congruence]]. }
  intros [q' out'] [(st & n & c & Eq) ?]. cbn [fst snd] in *. subst q'.
  constructor; cbn; [pipe_solve | congruence | congruence | congruence |].
  intros _. apply Forall_app. split.
  - apply list.Forall_forall. intros [e b | |] Hin; [by apply Hev in Hin | done | done].
  - destruct (_ =? _); [constructor |]. by constructor; [| constructor].
Qed.

(** Finding the first packet. *)
Lemma lock_total p chunk :
  bytes_ok chunk -> pipe_ok p ->
  returns (if synced (set_rest p (rest p ++ chunk) (synced p)) then Ok (set_rest p (rest p ++ chunk) (synced p), true)
    else
      let! i := syncOffset (rest p ++ chunk) 3 in
      if i <? 0 then Ok (set_rest p (rest p ++ chunk) (synced p), false)
      else let! r := slice_from (rest p ++ chunk) i in Ok (set_rest p r true, true))
    (fun r => exists b s, fst r = set_rest p b s /\ bytes_ok b).
Proof.
  intros Hc Hp. assert (bytes_ok (rest p ++ chunk)) as Hb by (apply bytes_ok_app; [apply Hp | done]).
  cbn [synced set_rest]. go_step; [by eexists _, _ |].
  apply returns_bind. eapply returns_mono; [apply syncOffset_total; [lia | done] |]. intros i Hi. cbv beta in Hi.
  go_step; [by eexists _, _ |]. apply returns_bind, returns_slice_from; [done | lia |].
  intros b Hbb _ _. by eexists _, _.
Qed.

Lemma write_on_total now p chunk :
  bytes_ok chunk -> pipe_ok p -> broken p = false -> returns (write_on now p chunk) (step_ok p).
Proof.
  intros Hc Hp Hb. unfold write_on.
  destruct (pass p) eqn:Ep; [constructor; cbn; [done | done | done | done | by rewrite Ep] |]. cbv zeta.
  apply returns_bind. eapply returns_mono; [exact (lock_total p chunk Hc Hp) |]. intros [q go] (b & s & Eq & Hbb).
  cbn [fst] in Eq. subst q. set (q := set_rest p b s). assert (pipe_ok q) as Hq by pipe_solve.
  assert (forall r, step_ok q r -> step_ok p r) as Hstep by (intros; by apply (step_ok_from p q)).
  go_step; [go_step; [by apply step_ok_same | by apply Hstep, giveUp_ok] |].
  apply returns_bind. eapply returns_mono; [apply packets_total, Hq |]. intros [q1 pkts] (Hk & b' & Eq1 & Hb' & _).
  cbn [fst snd] in *. subst q1. set (q1 := set_rest q b' (synced q)). assert (pipe_ok q1) as Hq1 by pipe_solve.
  assert (forall r, step_ok q1 r -> step_ok p r) as Hstep1 by (intros; by apply (step_ok_from p q1)).
  go_step; [eapply returns_mono; [by apply (send_total now q1) | done] |].
  set (q2 := set_hold q1 (hold q1 ++ pkts)).
  assert (pipe_ok q2) as Hq2 by (pipe_solve; by apply whole_app).
  apply returns_bind. eapply returns_mono; [apply learn_total; [apply whole_bytes, Hq2 | done | done | done] |].
  intros [q3 known] (Hq3 & _ & Hh & Hs & Eh & Hb3 & Hrd & Hpass). cbn [fst snd] in *.
  destruct known; cbn [negb].
  - apply (returns_mono _ (step_ok (set_hold q3 []))).
    + apply send_total; [apply Hq3 | pipe_solve | cbn; by rewrite Hpass by (by right) | cbn; by rewrite Hb3 | done].
    + intros r. apply step_ok_from; cbn; [done | done | by rewrite Ep].
  - assert (pass p = true -> pass q3 = true) as Hp3 by (by rewrite Ep).
    go_step; [apply step_ok_same; [done | exact Hh | exact Hs |]; rewrite Ep; by destruct (pass q3) |].
    apply (step_ok_from p q3); [exact Hh | exact Hs | done |]. apply giveUp_ok; [done | by rewrite Hb3].
Qed.

Lemma Write_total now p chunk :
  bytes_ok chunk -> pipe_ok p -> returns (Write now p chunk) (step_ok p).
Proof.
  intros Hc Hp. unfold Write. destruct (broken p) eqn:Eb; [| by apply write_on_total].
  set (p1 := if _ <=? _ then _ else p).
  assert (pipe_ok p1 /\ sw p1 = sw p /\ onBreak p1 = onBreak p /\ pass p1 = pass p) as (Hp1 & Es & Eh & Ep).
  { subst p1. destruct (_ <=? _); [| done]. split_and!; try done. pipe_solve. by apply bytes_ok_app. }
  clearbody p1. cbv zeta. destruct (ok_broken p Hp Eb) as [next En]. pose proof (ok_pass p Hp Eb) as Hps.
  unfold take_next. rewrite Es, En. cbn [rbind].
  assert (pipe_ok (set_sw p1 (Some None))) as Hp2 by (pipe_solve; intros E; split; [by apply ok_catching0 | done]).
  destruct next as [next |].
  - apply returns_bind. eapply returns_mono; [apply write_on_total; [apply Hp2 | apply fresh_ok | done] |].
    intros [q evs] [Hq Hqh Hqs _ Hqw]. cbn [fst snd] in *.
    constructor; cbn; [done | by rewrite Hqh | intros _; by apply Hqs | by rewrite Hps |].
    intros E. by constructor; [| apply Hqw].
  - constructor; cbn; [done | done | done | by rewrite Ep | by constructor].
Qed.

(** ** What a pipe lives through *)

(** The writes of the multiplex, the encode's new input, the close. *)
Inductive op : Type := DoWrite (now : Z) (chunk : list Z) | DoGive (encode : nat) | DoClose.

Definition do_op (p : programPipe) (o : op) : res (programPipe * list event) :=
  match o with
  | DoWrite now chunk => Write now p chunk
  | DoGive encode => Ok (give p encode)
  | DoClose => Close p
  end.

Fixpoint run (p : programPipe) (ops : list op) : res (programPipe * list event) :=
  match ops with
  | [] => Ok (p, [])
  | o :: ops =>
      let! ' (p, evs) := do_op p o in
      let! ' (p, evs') := run p ops in
      Ok (p, evs ++ evs')
  end.

Definition op_ok (o : op) : Prop := match o with DoWrite _ chunk => bytes_ok chunk | _ => True end.

Lemma set_sw_ok p s : pipe_ok p -> pipe_ok (set_sw p (Some s)).
Proof. pipe_solve. intros E. split; [by apply ok_catching0 | done]. Qed.

Lemma do_op_total p o : op_ok o -> pipe_ok p -> returns (do_op p o) (step_ok p).
Proof.
  intros Ho Hp. destruct o as [now chunk | encode |]; cbn [do_op].
  - by apply Write_total.
  - cbn [returns]. unfold give. destruct (sw p) as [next |] eqn:Es; [| by apply step_ok_same].
    constructor; cbn; [by apply set_sw_ok | done | done | done | by destruct next; repeat constructor].
  - unfold Close, take_next.
    apply returns_bind. apply (returns_mono _ (fun r => pipe_ok (fst r) /\ onBreak (fst r) = onBreak p /\
      (is_Some (sw p) -> is_Some (sw (fst r))) /\ pass (fst r) = pass p /\ Forall wrote_whole (snd r))).
    { destruct (sw p) as [next |] eqn:Es; cbn [rbind returns]; [| by split_and!; cbn; [| | rewrite Es | |]].
      split_and!; cbn; [by apply set_sw_ok | done | done | done | by destruct next; repeat constructor]. }
    intros [q evs] (Hq & Hh & Hs & Hps & Hev). cbn [fst snd] in *.
    destruct (_ && _ && _)%bool eqn:E.
    + assert (broken q = false) as Hb by (by destruct (broken q); rewrite ?andb_false_r in E).
      destruct (giveUp_ok q Hq Hb) as [Hq' Hh' Hs' _ _]. pose proof (eq_refl : pass (fst (giveUp q)) = true) as Hp'.
      destruct (giveUp q) as [q' evs']. cbn [fst snd returns] in *.
      constructor; cbn; [done | congruence | auto | done | by rewrite Hp'].
    + constructor; cbn; [done | done | done | congruence |]. intros _.
      apply Forall_app. by split; [| repeat constructor].
Qed.

Lemma run_total ops p :
  Forall op_ok ops -> pipe_ok p -> returns (run p ops) (step_ok p).
Proof.
  revert p. induction ops as [| o ops IH]; intros p Ho Hp; cbn [run]; [by apply step_ok_same |].
  apply Forall_cons in Ho as [Hop Ho]. apply returns_bind. eapply returns_mono; [by apply do_op_total |].
  intros [q evs] [Hq Hh Hs Hps Hw]. cbn [fst snd] in *. apply returns_bind.
  eapply returns_mono; [by apply IH |]. intros [q' evs'] [Hq' Hh' Hs' Hps' Hw']. cbn [fst snd] in *.
  constructor; cbn; [done | congruence | auto | auto |]. intros E. apply Forall_app. split; [| by apply Hw'].
  apply Hw. destruct (pass q) eqn:Eq; [| done]. rewrite Hps' in E; [done | done].
Qed.

(** C8. Whatever the multiplex, the hub and the clock do to a pipe, from its
    making on, each write returns and none panics, its state stays well
    formed, and until it gives up on finding its program every write to an
    encode is whole 188-byte packets, each with its sync byte. *)
Theorem pipe_total (encode : nat) (prog : Z) (hook : bool) (s : option pipeSwitch) (c : option pesCount)
    (ops : list op) (Hops : Forall op_ok ops) :
  exists p evs, run (fresh encode prog hook s [] c) ops = Ok (p, evs) /\ pipe_ok p /\
    (pass p = false -> Forall wrote_whole evs).
Proof.
  pose proof (run_total ops (fresh encode prog hook s [] c) Hops (fresh_ok _ _ _ _ _ _)) as H.
  apply returns_exists in H as ([p evs] & E & [? _ _ _ ?]). by exists p, evs.
Qed.

(** ** Continuity counters *)

Definition shift_of (p : programPipe) (pid : Z) : Z :=
  match clocks p !! pid with Some c => shift c | None => 0 end.

(** The counter of a packet of [pid] that carries payload. *)
Definition counter_of (pid : Z) (pkt : list Z) : option Z :=
  match pid_of pkt, idx pkt 3 with
  | Ok n, Ok b3 => if ((n =? pid) && negb (Z.land b3 0x10 =? 0))%bool then Some (Z.land b3 0x0f) else None
  | _, _ => None
  end.

(** Counters that step by one from [c] on. *)
Fixpoint consecutive (c : Z) (l : list Z) : Prop :=
  match l with
  | [] => True
  | x :: l => x = c mod 16 /\ consecutive (c + 1) l
  end.

Lemma consecutive_mod c d l : c mod 16 = d mod 16 -> consecutive c l -> consecutive d l.
Proof.
  revert c d. induction l as [| x l IH]; intros c d E; [done |]. intros [-> H]. split; [done |].
  apply (IH (c + 1) (d + 1)); [| done]. by rewrite <- (Zplus_mod_idemp_l c), E, Zplus_mod_idemp_l.
Qed.

Lemma consecutive_app c a b : consecutive c a -> consecutive (c + zlen a) b -> consecutive c (a ++ b).
Proof.
  revert c. induction a as [| x a IH]; intros c; cbn [app].
  { intros _. change (zlen []) with 0. by rewrite Z.add_0_r. }
  intros [-> Ha] Hb. split; [done |]. apply IH; [done |]. rewrite zlen_cons in Hb.
  by replace (c + 1 + zlen a) with (c + (zlen a + 1)) by lia.
Qed.

(** What the clocks leave alone. *)
Record same_map (p q : programPipe) : Prop := mkSameMap {
  same_keep : keep q = keep p;
  same_pmtPID : pmtPID q = pmtPID p;
  same_pmtVer : pmtVer q = pmtVer p;
  same_video : video q = video p
}.
Lemma same_map_refl p : same_map p p.
Proof. by constructor. Qed.
Lemma same_map_trans p q r : same_map p q -> same_map q r -> same_map p r.
Proof. intros [] []. constructor; congruence. Qed.

Lemma watch_break_frame now p pid pkt ts c :
  same_map p (watch_break now p pid pkt ts c) /\ clocks (watch_break now p pid pkt ts c) = clocks p.
Proof.
  unfold watch_break. destruct (canBreak_spec now p) as (l & El & _).
  destruct (canBreak now p) as [can q]. cbn [fst snd] in El. subst q.
  destruct (agrees ts c), (pid =? video p), can; cbn; repeat (case_match; cbn); by repeat constructor.
Qed.

Lemma shift_of_set p pid c : shift_of (set_clock p pid c) pid = shift c.
Proof. unfold shift_of. cbn. by rewrite lookup_insert_eq. Qed.

(** What a packet of [pid] does to a pipe's clocks. *)
Definition clock_effect (p : programPipe) (pid : Z) (payload : bool) (r : bool * programPipe * list event) : Prop :=
  let q := snd (fst r) in
  same_map p q /\ (forall pid', pid' <> pid -> clocks q !! pid' = clocks p !! pid') /\
  if fst (fst r) then shift_of q pid = shift_of p pid
  else broken q = true \/ (payload = true /\ shift_of q pid = wrap8 (shift_of p pid + 1)).

Lemma clock_effect_set p q pid payload c (k : bool) evs :
  same_map p q -> clocks q = clocks p ->
  (if k then shift c = shift_of p pid else payload = true /\ shift c = wrap8 (shift_of p pid + 1)) ->
  clock_effect p pid payload (k, set_clock q pid c, evs).
Proof.
  intros Hm Hc Hk. split_and!; cbn.
  - destruct Hm. by constructor.
  - intros pid' Hne. rewrite lookup_insert_ne by done. by rewrite Hc.
  - rewrite shift_of_set. destruct k; [done | by right].
Qed.

Lemma keepPES_effect now p pid pkt b3 :
  idx pkt 3 = Ok b3 -> returns (keepPES now p pid pkt) (fun _ => True) ->
  returns (keepPES now p pid pkt) (clock_effect p pid (negb (Z.land b3 0x10 =? 0))).
Proof.
  intros E3. unfold keepPES. rewrite E3. cbn [rbind].
  assert (clock_effect p pid (negb (Z.land b3 0x10 =? 0)) (true, p, [])) as Hsame
    by (split_and!; [apply same_map_refl | done | done]).
  assert (shift_of p pid = match clocks p !! pid with Some c => shift c | None => 0 end) as Es by done.
  destruct (_ || _)%bool eqn:Eor; [done |]. apply orb_false_iff in Eor as [_ ->]. cbn [negb] in *.
  destruct (idx pkt 1) as [b1 | |]; [cbn [rbind] | done..].
  assert (forall c (k : bool), (if k then shift c = shift_of p pid else true = true /\ shift c = wrap8 (shift_of p pid + 1)) ->
    clock_effect p pid true (k, set_clock p pid c, [])) as Hset
    by (intros; apply clock_effect_set; [apply same_map_refl | done | done]).
  destruct (Z.land b1 64 =? 0).
  { destruct (clocks p !! pid) as [c |]; [| done]. intros _. destruct (dropping c); [apply Hset; by rewrite Es | done]. }
  destruct (tsPayload pkt) as [b | |]; [cbn [rbind] | done..].
  destruct (pesTime b) as [[ts |] | |]; [cbn [rbind].. | done | done];
    destruct (clocks p !! pid) as [c |]; [| intros _; by apply Hset | intros _; by apply Hset | done].
  destruct (_ && _)%bool.
  { intros _. cbn [returns]. apply clock_effect_set; [| | done]; by destruct (pid =? video p); repeat constructor. }
  unfold off_timeline. cbv zeta. destruct (watch_break_frame now p pid pkt ts c) as [Hm Hc].
  set (p2 := watch_break now p pid pkt ts c) in *. clearbody p2.
  destruct (pesAgree <=? _).
  - destruct (_ && _ && _)%bool.
    + cbn [onBreak set_breaks set_clock]. destruct (onBreak p2); [| done]. intros _.
      destruct (clock_effect_set p p2 pid true (mkClock (last_ c) ts (agree_count ts c) (dropping c) (shift c)) true [] Hm Hc)
        as (? & ? & _); [by rewrite Es |]. split_and!; [| done | by left]. destruct Hm. by constructor.
    + intros _. cbn [returns]. apply clock_effect_set; [| | by rewrite Es]; destruct (pid =? video p2); try done;
        destruct Hm; by constructor.
  - intros _. cbn [returns]. apply clock_effect_set; [done | done | by rewrite Es].
Qed.

Lemma nibbles b x :
  Z.land (Z.lor (Z.land b 0xf0) (Z.land x 0x0f)) 0x0f = Z.land x 0x0f /\
  Z.land (Z.lor (Z.land b 0xf0) (Z.land x 0x0f)) 0x10 = Z.land b 0x10.
Proof.
  split; rewrite Z.land_lor_distr_l, <- !Z.land_assoc; cbn; by rewrite Z.land_0_r, ?Z.lor_0_r, ?Z.lor_0_l.
Qed.

Lemma low_nibble x : Z.land x 0x0f = x mod 16.
Proof. by apply (land_mask x 4). Qed.

Lemma shifted_nibble b s : Z.land (wrap8 (b - s)) 0x0f = (Z.land b 0x0f - s) mod 16.
Proof. rewrite !low_nibble. unfold wrap8. change (2 ^ 8) with 256. dlia. Qed.

Lemma payload_has_adaptation b : (Z.land b 0x10 =? 0) = false -> (Z.land b 0x30 =? 0) = false.
Proof.
  intros H. apply Z.eqb_neq. intros E. apply Z.eqb_neq in H. apply H.
  change 0x10 with (Z.land 0x30 0x10). by rewrite Z.land_assoc, E.
Qed.

(** The packet goes out with its counter moved back by the shift. *)
Lemma renumber_counter p pid pkt :
  is_packet pkt ->
  returns (renumber p pid pkt) (fun out => is_packet out /\ pid_of out = pid_of pkt /\
    (pid_of pkt = Ok pid ->
      counter_of pid out = (fun x => (x - shift_of p pid) mod 16) <$> counter_of pid pkt)).
Proof.
  intros Hk. pose proof Hk as (Hl & Hb & _). pose proof (renumber_total p pid pkt Hk) as Ht. revert Ht.
  unfold renumber, shift_of. destruct (idx_in_range pkt 3 ltac:(lia)) as (b3 & _ & E3).
  assert (forall s, shift_of p pid = s -> s = 0 \/ (Z.land b3 0x30 =? 0) = true -> pid_of pkt = Ok pid ->
    counter_of pid pkt = (fun x => (x - s) mod 16) <$> counter_of pid pkt) as Hsame.
  { intros s _ Hs Ep. unfold counter_of. rewrite Ep, E3, Z.eqb_refl. cbn [andb].
    destruct (Z.land b3 16 =? 0) eqn:E1; [done |]. cbn [negb fmap option_fmap option_map]. f_equal.
    destruct Hs as [-> | Hs]; [| by rewrite payload_has_adaptation in Hs].
    rewrite low_nibble, Z.sub_0_r. by rewrite Zmod_mod. }
  destruct (clocks p !! pid) as [c |] eqn:Ec.
  - rewrite E3. cbn [rbind]. destruct (_ && _)%bool eqn:Eand.
    + intros Ht. split; [done |]. rewrite pid_of_insert. split; [done |]. intros Ep.
      unfold counter_of. rewrite pid_of_insert, Ep, E3, Z.eqb_refl.
      rewrite (idx_insert pkt 3) by (unfold zlen in *; lia). cbn [andb].
      destruct (nibbles b3 (wrap8 (b3 - shift c))) as [-> ->]. destruct (Z.land b3 16 =? 0); [done |].
      cbn. by rewrite shifted_nibble.
    + intros _. split; [done |]. split; [done |]. apply Hsame; [unfold shift_of; by rewrite Ec |].
      apply andb_false_iff in Eand as [E | E]; apply negb_false_iff in E; [left; lia | by right].
  - intros _. split; [done |]. split; [done |]. apply Hsame; [unfold shift_of; by rewrite Ec | by left].
Qed.

Lemma counter_other pid pkt n : pid_of pkt = Ok n -> n <> pid -> counter_of pid pkt = None.
Proof.
  intros Hn Hne. unfold counter_of. rewrite Hn. destruct (idx pkt 3); [| done..].
  by replace (n =? pid) with false by lia.
Qed.

(** No map that starts in the packet is a new one. *)
Definition repeats_map (p : programPipe) (pkt : list Z) : Prop :=
  pid_of pkt = Ok (pmtPID p) -> pmtVersion pkt = Ok (Some (pmtVer p)).

Lemma follow_map_repeat p pid pkt :
  pid_of pkt = Ok pid -> repeats_map p pkt -> returns (follow_map p pid pkt) (fun _ => True) ->
  returns (follow_map p pid pkt) (fun q => same_map p q /\ clocks q = clocks p).
Proof.
  intros Hpid Hrep. unfold follow_map. destruct (negb (pid =? pmtPID p)) eqn:E.
  { intros _. by split; [apply same_map_refl |]. }
  assert (pid = pmtPID p) as -> by lia. rewrite Hrep by done. destruct (idx pkt 1) as [b1 | |]; [cbn [rbind] | done..].
  assert (forall b q, same_map p q /\ clocks q = clocks p -> same_map p (set_pmtPkts q b) /\ clocks (set_pmtPkts q b) = clocks p) as Hset
    by (intros b q [[] ?]; by repeat constructor).
  set (p1 := if negb _ then set_pmtPkts p [] else p).
  assert (same_map p p1 /\ clocks p1 = clocks p) as H1
    by (subst p1; case_match; [apply Hset |]; by split; [apply same_map_refl |]).
  clearbody p1. set (p2 := if zlen (pmtPkts p1) <? 188 * 4 then _ else _).
  assert (same_map p p2 /\ clocks p2 = clocks p) as H2 by (subst p2; case_match; [by apply Hset | done]).
  clearbody p2. cbv zeta. destruct (negb (negb _)); [done |].
  cbn [rbind]. destruct H2 as [Hm Hc]. rewrite (same_pmtVer _ _ Hm), Z.eqb_refl. done.
Qed.

Lemma catch_frame p pkt : same_map p (catch p pkt) /\ clocks (catch p pkt) = clocks p.
Proof. unfold catch. repeat case_match; by repeat constructor. Qed.

(** What one packet does to the counters of [pid]: [k] are the packets that go out. *)
Definition counted (p : programPipe) (pid : Z) (pkt : list Z) (q : programPipe) (k : list (list Z)) : Prop :=
  match counter_of pid pkt with
  | None => omap (counter_of pid) k = [] /\ shift_of q pid = shift_of p pid
  | Some c =>
      (omap (counter_of pid) k = [(c - shift_of p pid) mod 16] /\ shift_of q pid = shift_of p pid) \/
      (omap (counter_of pid) k = [] /\ shift_of q pid = wrap8 (shift_of p pid + 1))
  end.

Lemma omap_one {A B} (f : A -> option B) x : omap f [x] = match f x with Some y => [y] | None => [] end.
Proof. cbn. by destruct (f x). Qed.

(** What one packet comes to while no new map arrives: it is of PID 0, of a PID
    the map does not list, or [keepPES] judged it. *)
Inductive judged (now : Z) (p : programPipe) (pkt : list Z) (q : programPipe) : list (list Z) -> Prop :=
  | judged_pat table :
      pid_of pkt = Ok 0 -> clocks q = clocks p -> pid_of table = Ok 0 -> judged now p pkt q [table]
  | judged_left n :
      pid_of pkt = Ok n -> n <> 0 -> keep p !! n = None -> clocks q = clocks p -> judged now p pkt q []
  | judged_pes n p2 kept p3 evs k :
      pid_of pkt = Ok n -> n <> 0 -> same_map p p2 -> clocks p2 = clocks p ->
      keepPES now p2 n pkt = Ok (kept, p3, evs) -> broken p3 = false -> clocks q = clocks p3 ->
      (if kept then exists out, renumber q n pkt = Ok out /\ k = [out] else k = []) ->
      judged now p pkt q k.

Lemma filter_packet_judged now p pkt :
  pipe_ok p -> pass p = false -> broken p = false -> ready p = true -> is_packet pkt -> repeats_map p pkt ->
  returns (filter_packet now p pkt) (fun r =>
    match snd (fst r) with
    | None => True
    | Some o => same_map p (fst (fst r)) /\
        exists k, o = concat k /\ Forall is_packet k /\ judged now p pkt (fst (fst r)) k
    end).
Proof.
  intros Hp Hps Hnb Hr Hk Hrep. pose proof Hk as (Hl & Hb & _). unfold filter_packet.
  apply returns_bind. destruct (pid_of pkt) as [n | |] eqn:En;
    [cbn [returns] | by pose proof (pid_of_total pkt (fun _ => True) Hb ltac:(lia) ltac:(done)) as Ht; rewrite En in Ht..].
  destruct (catch_ok p pkt Hp Hb) as (Hc & Hcw & Hcb). destruct (catch_frame p pkt) as [Hcm Hcc].
  set (p1 := catch p pkt) in *. clearbody p1. cbv zeta.
  assert (ready p1 = true) as Hr1 by (by rewrite (same_ready _ _ Hcw)).
  destruct (n =? 0) eqn:E0.
  { destruct (next_pat_ok p1 Hc Hr1) as (_ & _ & _ & [Htp Htz]). cbn [next_pat fst snd returns] in *.
    split; [destruct Hcm; by constructor |]. eexists [_]. split; [cbn; by rewrite app_nil_r |].
    split; [by apply Forall_cons; split; [| constructor] |].
    constructor; [by replace n with 0 in En by lia | done | done]. }
  apply returns_bind. eapply returns_mono.
  { apply returns_and; [apply (follow_map_total p1 n pkt Hc Hk) |].
    apply follow_map_repeat; [done | unfold repeats_map in *; by rewrite (same_pmtPID _ _ Hcm), (same_pmtVer _ _ Hcm) |].
    eapply returns_mono; [by apply follow_map_total | done]. }
  intros p2 ((Hp2 & Hw2 & Hb2) & Hm2 & Hc2).
  assert (same_map p p2) as Hm by (by eapply same_map_trans).
  assert (clocks p2 = clocks p) as Hc2' by congruence. assert (broken p2 = false) as Hb2' by congruence.
  destruct (bool_decide _) eqn:Ek; cbn [negb].
  2: { cbn. rewrite Hb2'. split; [done |]. exists []. split; [done |]. split; [constructor |].
    apply judged_left with n; [done | lia | | done]. rewrite <- (same_keep _ _ Hm).
    apply bool_decide_eq_false in Ek. by apply eq_None_not_Some. }
  assert (pass p2 = false) as Hps2 by (by rewrite (same_pass _ _ Hw2), (same_pass _ _ Hcw)).
  apply returns_bind. destruct (idx_in_range pkt 3 ltac:(lia)) as (b3 & _ & E3).
  pose proof (keepPES_total now p2 n pkt Hp2 Hps2 Hb2' Hk) as Hkt.
  assert (returns (keepPES now p2 n pkt) (fun _ => True)) as Hke by (by eapply returns_mono).
  apply (keepPES_effect now p2 n pkt b3 E3) in Hke.
  destruct (keepPES now p2 n pkt) as [[[kept p3] evs] | |] eqn:Ekp; [| done..]. cbn [returns] in *.
  destruct Hkt as (Hp3 & Hw3 & Hkb). destruct Hke as (Hm3 & _ & _). cbn [fst snd] in *.
  assert (same_map p p3) as Hmp3 by (by eapply same_map_trans).
  destruct kept; cbn [negb].
  - apply returns_bind. eapply returns_mono; [by apply count_pes_total |]. intros p4 (c & ->).
    apply returns_bind. pose proof (renumber_total (set_count p3 c) n pkt Hk) as Hrn.
    destruct (renumber (set_count p3 c) n pkt) as [out | |] eqn:Ern; [| done..].
    cbn [returns fst snd] in *. split; [destruct Hmp3; by constructor |]. exists [out].
    split; [cbn; by rewrite app_nil_r |]. split; [by apply Forall_cons; split; [| constructor] |].
    apply judged_pes with n p2 true p3 evs; eauto. lia.
  - cbn [returns fst snd]. destruct (broken p3) eqn:E3b; [done |]. split; [done |]. exists [].
    split; [done |]. split; [constructor |]. by apply judged_pes with n p2 false p3 evs; try done; lia.
Qed.

Lemma judged_counted now p pid pkt q k :
  is_packet pkt -> pid <> 0 -> judged now p pkt q k ->
  is_Some (keep p !! pid) -> counted p pid pkt q k.
Proof.
  intros Hk H0 Hj Hkeep. pose proof Hk as (Hl & Hb & _).
  assert (forall n, pid_of pkt = Ok n -> n <> pid -> clocks q !! pid = clocks p !! pid ->
    Forall (fun x => exists m, pid_of x = Ok m /\ m <> pid) k -> counted p pid pkt q k) as Hother.
  { intros n En Hne Hq Hk'. unfold counted. rewrite (counter_other pid pkt n) by done.
    split; [| unfold shift_of; by rewrite Hq]. clear -Hk'. induction Hk' as [| x k (m & Hm & ?) _ IH]; [done |].
    cbn [omap list_omap]. by rewrite (counter_other pid x m). }
  destruct Hj as [table En Hc Ht | n En Hn0 Hnk Hc | n p2 kept p3 evs k En Hn0 Hm Hc2 Ekp Hb3 Hc Hout].
  - apply (Hother 0); [done | done | by rewrite Hc |]. apply Forall_cons. split; [by exists 0 | constructor].
  - apply (Hother n); [done | | by rewrite Hc | constructor]. intros ->. destruct Hkeep. congruence.
  - destruct (idx_in_range pkt 3 ltac:(lia)) as (b3 & _ & E3).
    pose proof (keepPES_effect now p2 n pkt b3 E3) as Hke. rewrite Ekp in Hke. destruct (Hke I) as (_ & Hoth & Hshift).
    cbn [fst snd] in *. assert (shift_of q pid = shift_of p3 pid) as Esq by (unfold shift_of; by rewrite Hc).
    assert (shift_of p2 pid = shift_of p pid) as Es2 by (unfold shift_of; by rewrite Hc2).
    destruct (decide (n = pid)) as [-> | Hne].
    + unfold counted. destruct kept.
      * destruct Hout as (out & Ern & ->). pose proof (renumber_counter q pid pkt Hk) as Hrc. rewrite Ern in Hrc.
        destruct Hrc as (_ & _ & Hcnt). rewrite omap_one, Hcnt by done. rewrite Esq, Hshift, Es2.
        destruct (counter_of pid pkt); [by left | done].
      * subst k. destruct Hshift as [? | [Hpay Hs]]; [congruence |]. unfold counter_of.
        rewrite En, E3, Z.eqb_refl, Hpay. right. split; [done |]. by rewrite Esq, Hs, Es2.
    + apply (Hother n); [done | done | by rewrite Hc, Hoth, Hc2 by done |].
      destruct kept; [| by subst k; constructor]. destruct Hout as (out & Ern & ->).
      pose proof (renumber_counter q n pkt Hk) as Hrc. rewrite Ern in Hrc. destruct Hrc as (_ & Hop & _).
      apply Forall_cons. split; [exists n; by rewrite Hop | constructor].
Qed.

(** Packet after packet, until the picture breaks. *)
Inductive judged_all (now : Z) : programPipe -> list (list Z) -> programPipe -> list (list Z) -> Prop :=
  | judged_none p : judged_all now p [] p []
  | judged_more p pkt p1 k pkts q outs :
      is_packet pkt -> same_map p p1 -> judged now p pkt p1 k -> judged_all now p1 pkts q outs ->
      judged_all now p (pkt :: pkts) q (k ++ outs).

Lemma filter_loop_judged now pkts fuel p out q o evs :
  Forall is_packet pkts -> zlen (concat pkts) <= Z.of_nat fuel ->
  pipe_ok p -> pass p = false -> broken p = false -> ready p = true -> Forall (repeats_map p) pkts ->
  filter_loop fuel now p (concat pkts) out = Ok (q, o, evs) -> broken q = false ->
  exists outs, o = out ++ concat outs /\ Forall is_packet outs /\ judged_all now p pkts q outs.
Proof.
  intros Hpk. revert fuel p out q o evs.
  induction Hpk as [| pkt pkts Hk Hpk IH]; intros fuel p out q o evs Hf Hp Hps Hnb Hr Hrep Hrun Hq.
  { assert (filter_loop fuel now p [] out = Ok (p, out, [])) as E by (by destruct fuel).
    cbn [concat] in Hrun. rewrite E in Hrun. injection Hrun as <- <- <-. exists [].
    split; [cbn; by rewrite app_nil_r |]. split; constructor. }
  cbn [concat] in Hrun, Hf. destruct (whole_head pkt (concat pkts) Hk) as (E1 & E2 & E3).
  apply Forall_cons in Hrep as [Hrepk Hrep]. rewrite zlen_app in Hf. pose proof Hk as (Hl & _ & _).
  pose proof (zlen_nonneg (concat pkts)). destruct fuel as [| fuel]; [lia |].
  cbn [filter_loop] in Hrun. rewrite E1, E2, E3 in Hrun. cbn [rbind] in Hrun.
  pose proof (returns_and _ _ _ (filter_packet_total now p pkt Hp Hps Hnb Hr Hk)
    (filter_packet_judged now p pkt Hp Hps Hnb Hr Hk Hrepk)) as Hstep.
  destruct (filter_packet now p pkt) as [[[p1 o1] evs1] | |]; [| done..]. cbn [rbind] in Hrun.
  destruct Hstep as [(Hp1 & Hw1 & _ & Hout) Hc]. cbn [fst snd] in *. destruct o1 as [o1 |].
  2: { injection Hrun as <- <- <-. cbn in Hq. congruence. }
  destruct Hout as [_ Hb1]. destruct Hc as (Hm1 & k & -> & Hkk & Hj).
  destruct (filter_loop fuel now p1 (concat pkts) (out ++ concat k)) as [[[q' o'] evs'] | |] eqn:El; [| done..].
  cbn [rbind] in Hrun. injection Hrun as <- <- <-.
  apply IH in El as (outs & -> & Ho & Hall); try done.
  - exists (k ++ outs). rewrite concat_app, app_assoc. split; [done |]. split; [by apply Forall_app |].
    by apply judged_more with p1.
  - lia.
  - by rewrite (same_pass _ _ Hw1).
  - by rewrite (same_ready _ _ Hw1).
  - unfold repeats_map in *. by rewrite (same_pmtPID _ _ Hm1), (same_pmtVer _ _ Hm1).
Qed.

Lemma counted_step p pid pkt q k c ins outs :
  counted p pid pkt q k -> consecutive c (omap (counter_of pid) [pkt] ++ ins) ->
  consecutive (c + zlen (omap (counter_of pid) [pkt])) ins /\
  (consecutive (c + zlen (omap (counter_of pid) [pkt]) - shift_of q pid) outs ->
    consecutive (c - shift_of p pid) (omap (counter_of pid) k ++ outs)) /\
  shift_of q pid mod 16 =
    (shift_of p pid + (zlen (omap (counter_of pid) [pkt]) - zlen (omap (counter_of pid) k))) mod 16.
Proof.
  unfold counted. rewrite omap_one. destruct (counter_of pid pkt) as [x |].
  - change (zlen [x]) with 1. intros Hc [-> Hin]. split; [done |].
    destruct Hc as [[-> ->] | [-> ->]]; cbn [app].
    + change (zlen [_]) with 1. split; [| by rewrite Z.sub_diag, Z.add_0_r]. intros Ho. split; [dlia |].
      by replace (c - shift_of p pid + 1) with (c + 1 - shift_of p pid) by lia.
    + change (zlen []) with 0. unfold wrap8. split; [| dlia]. apply consecutive_mod. dlia.
  - change (zlen []) with 0. intros [-> ->] Hin. cbn [app] in *. change (zlen []) with 0. rewrite !Z.add_0_r.
    split_and!; [done | done | f_equal; lia].
Qed.

Definition counts (p : programPipe) (pid c : Z) (pkts : list (list Z)) (q : programPipe) (outs : list (list Z)) : Prop :=
  consecutive (c - shift_of p pid) (omap (counter_of pid) outs) /\
  shift_of q pid mod 16 =
    (shift_of p pid + (zlen (omap (counter_of pid) pkts) - zlen (omap (counter_of pid) outs))) mod 16.

Lemma counts_cons p pid c pkt pkts p1 k q outs :
  counted p pid pkt p1 k -> consecutive c (omap (counter_of pid) [pkt] ++ omap (counter_of pid) pkts) ->
  counts p1 pid (c + zlen (omap (counter_of pid) [pkt])) pkts q outs -> counts p pid c (pkt :: pkts) q (k ++ outs).
Proof.
  intros Hc Hin [Ho Hs]. destruct (counted_step _ _ _ _ _ _ _ (omap (counter_of pid) outs) Hc Hin) as (_ & Hcons & Hs1).
  unfold counts. change (pkt :: pkts) with ([pkt] ++ pkts). rewrite !omap_app, !zlen_app. split; [by apply Hcons |].
  rewrite Hs, <- Zplus_mod_idemp_l, Hs1, Zplus_mod_idemp_l. f_equal. lia.
Qed.

Lemma judged_all_counts now p pkts q outs pid c :
  judged_all now p pkts q outs -> pid <> 0 -> is_Some (keep p !! pid) ->
  consecutive c (omap (counter_of pid) pkts) -> counts p pid c pkts q outs.
Proof.
  intros Hall H0. revert c. induction Hall as [p | p pkt p1 k pkts q outs Hk Hm Hj _ IH]; intros c Hkeep Hin.
  { split; [done | f_equal; cbn; lia]. }
  change (pkt :: pkts) with ([pkt] ++ pkts) in Hin. rewrite omap_app in Hin.
  pose proof (judged_counted now p pid pkt p1 k Hk H0 Hj Hkeep) as Hcnt.
  destruct (counted_step _ _ _ _ _ _ _ [] Hcnt Hin) as (Hin' & _).
  apply counts_cons with p1; [done | done |]. apply IH; [by rewrite (same_keep _ _ Hm) | done].
Qed.

(** C35. A decoder sees no gap where the pipe dropped packets: of a stream
    whose packets arrive with consecutive continuity counters, what the pipe
    sends, between two new program maps and as long as the picture does not
    break, has consecutive counters too, and it begins where the packets sent
    before left off; the shift is the number of packets dropped. *)
Theorem counters_stay_consecutive (now : Z) (p : programPipe) (pid c : Z) (pkts : list (list Z))
    (q : programPipe) (o : list Z) (evs : list event)
    (Hp : pipe_ok p) (Hps : pass p = false) (Hnb : broken p = false) (Hr : ready p = true)
    (Hpk : Forall is_packet pkts) (H0 : pid <> 0) (Hkeep : is_Some (keep p !! pid))
    (Hrep : Forall (repeats_map p) pkts)
    (Hin : consecutive c (omap (counter_of pid) pkts))
    (Hrun : filter_ now p (concat pkts) = Ok (q, o, evs)) (Hq : broken q = false) :
  exists outs, o = concat outs /\ Forall is_packet outs /\
    consecutive (c - shift_of p pid) (omap (counter_of pid) outs) /\
    shift_of q pid mod 16 =
      (shift_of p pid + (zlen (omap (counter_of pid) pkts) - zlen (omap (counter_of pid) outs))) mod 16.
Proof.
  apply (filter_loop_judged now pkts _ p [] q o evs) in Hrun as (outs & -> & ? & Hall); try done.
  exists outs. by destruct (judged_all_counts now p pkts q outs pid c Hall H0 Hkeep Hin).
Qed.

Section rest_untouched.
Variables (r : list Z) (s : bool).
Let rr (p : programPipe) : programPipe := set_rest p r s.

(** The filter neither reads nor writes the bytes that wait. *)
Ltac same_way := repeat (cbn; first [reflexivity | match goal with
  | |- rbind ?m _ = rbind (rbind ?m _) _ => destruct m
  | |- rbind ?m _ = rbind ?m _ => destruct m
  | |- (if ?c then _ else _) = _ => destruct c
  | |- context [match ?c with Some _ => _ | None => _ end] => destruct c
  end]).

Lemma useMap_rest p sec : useMap (rr p) sec = (let! x := useMap p sec in Ok (rr (fst x), snd x)).
Proof. unfold useMap. same_way. Qed.

Lemma new_maps_rest secs p : new_maps secs (rr p) = (let! q := new_maps secs p in Ok (rr q)).
Proof.
  revert p. induction secs as [| sec secs IH]; intros p; [done |]. cbn [new_maps].
  destruct (5 <? zlen sec); [| apply IH]. destruct (idx sec 0), (idx sec 5); cbn [rbind]; try done.
  change (pmtVer (rr p)) with (pmtVer p). destruct (_ && _)%bool; [| apply IH].
  rewrite useMap_rest. destruct (useMap p sec) as [[q k] | |]; cbn [rbind fst snd]; [apply IH | done..].
Qed.

Lemma follow_map_rest p pid pkt : follow_map (rr p) pid pkt = (let! q := follow_map p pid pkt in Ok (rr q)).
Proof.
  unfold follow_map. change (pmtPID (rr p)) with (pmtPID p). destruct (negb (pid =? pmtPID p)); [done |].
  destruct (idx pkt 1) as [b1 | |]; cbn [rbind]; [| done..].
  set (p1 := if negb _ then set_pmtPkts p [] else p).
  assert ((if negb (Z.land b1 64 =? 0) then set_pmtPkts (rr p) [] else rr p) = rr p1) as -> by (subst p1; by case_match).
  clearbody p1. set (p2 := if zlen (pmtPkts p1) <? 188 * 4 then _ else _). cbv zeta.
  assert ((if zlen (pmtPkts (rr p1)) <? 188 * 4 then set_pmtPkts (rr p1) (pmtPkts (rr p1) ++ pkt) else rr p1) = rr p2) as ->
    by (subst p2; cbn; by case_match).
  clearbody p2. destruct (negb (negb _)); [done |]. destruct (pmtVersion pkt) as [v | |]; cbn [rbind]; [| done..].
  change (pmtVer (rr p2)) with (pmtVer p2). destruct (match v with Some _ => _ | None => _ end); [done |].
  destruct (sections pkt pid) as [secs | |]; cbn [rbind]; [apply new_maps_rest | done..].
Qed.

Lemma catch_rest p pkt : catch (rr p) pkt = rr (catch p pkt).
Proof. unfold catch. cbn. by repeat case_match. Qed.

Lemma canBreak_rest now p : canBreak now (rr p) = (fst (canBreak now p), rr (snd (canBreak now p))).
Proof. unfold canBreak. cbn. destruct (sw p) as [n |]; [| done]. by destruct (onBreak p). Qed.

Lemma watch_break_rest now p pid pkt ts c : watch_break now (rr p) pid pkt ts c = rr (watch_break now p pid pkt ts c).
Proof.
  unfold watch_break. rewrite canBreak_rest. change (video (rr p)) with (video p).
  destruct (canBreak now p) as [can q]. cbn [fst snd].
  destruct (agrees ts c), (pid =? video p), can; cbn; repeat (case_match; cbn in *; try done).
Qed.

Lemma keepPES_rest now p pid pkt :
  keepPES now (rr p) pid pkt = (let! ' (k, q, evs) := keepPES now p pid pkt in Ok (k, rr q, evs)).
Proof.
  unfold keepPES. change (pmtPID (rr p)) with (pmtPID p). change (clocks (rr p)) with (clocks p).
  change (video (rr p)) with (video p).
  destruct (idx pkt 3); cbn [rbind]; [| done..]. destruct (_ || _)%bool; [done |].
  destruct (idx pkt 1); cbn [rbind]; [| done..]. destruct (_ =? 0); [repeat case_match; done |].
  destruct (tsPayload pkt); cbn [rbind]; [| done..]. destruct (pesTime _) as [[ts |] | |], (clocks p !! pid) as [c |]; try done.
  cbn [rbind]. destruct (_ && _)%bool; [by destruct (pid =? video p) |].
  unfold off_timeline. cbv zeta. rewrite watch_break_rest. set (p2 := watch_break _ _ _ _ _ _). clearbody p2.
  destruct (_ <=? _); [| done]. change (video (rr p2)) with (video p2). change (catching (rr p2)) with (catching p2).
  destruct (_ && _ && _)%bool; [| by destruct (pid =? video p2)].
  cbn [onBreak set_breaks set_clock rr set_rest]. by destruct (onBreak p2).
Qed.

Lemma count_pes_rest p pid pkt : count_pes (rr p) pid pkt = (let! q := count_pes p pid pkt in Ok (rr q)).
Proof. unfold count_pes. cbn. destruct (count p); [| done]. same_way. Qed.

Lemma filter_packet_rest now p pkt :
  filter_packet now (rr p) pkt = (let! ' (q, o, evs) := filter_packet now p pkt in Ok (rr q, o, evs)).
Proof.
  unfold filter_packet. destruct (pid_of pkt) as [pid | |]; cbn [rbind]; [| done..]. rewrite catch_rest.
  destruct (pid =? 0); [done |]. rewrite follow_map_rest. rewrite rbind_assoc.
  destruct (follow_map _ pid pkt) as [p1 | |]; cbn [rbind]; [| done..].
  change (keep (rr p1)) with (keep p1). destruct (negb _); [done |]. rewrite keepPES_rest.
  destruct (keepPES now p1 pid pkt) as [[[k p2] evs] | |]; cbn [rbind]; [| done..].
  destruct (negb k); [done |]. rewrite count_pes_rest.
  destruct (count_pes p2 pid pkt) as [p3 | |]; cbn [rbind]; [| done..].
  change (renumber (rr p3) pid pkt) with (renumber p3 pid pkt). by destruct (renumber p3 pid pkt).
Qed.

Lemma filter_packet_None now p pkt q evs : filter_packet now p pkt = Ok (q, None, evs) -> broken q = true.
Proof.
  unfold filter_packet. destruct (pid_of pkt) as [pid | |]; cbn [rbind]; [| done..].
  destruct (pid =? 0); [done |]. destruct (follow_map _ pid pkt) as [p1 | |]; cbn [rbind]; [| done..].
  destruct (negb _); [by destruct (broken p1) eqn:E; intros [= <- <-] |].
  destruct (keepPES now p1 pid pkt) as [[[k p2] e] | |]; cbn [rbind]; [| done..].
  destruct (negb k); [by destruct (broken p2) eqn:E; intros [= <- <-] |].
  destruct (count_pes p2 pid pkt) as [p3 | |]; cbn [rbind]; [| done..]. by destruct (renumber p3 pid pkt).
Qed.

Lemma filter_loop_rest fuel now p data out q o evs :
  filter_loop fuel now p data out = Ok (q, o, evs) -> broken q = false ->
  filter_loop fuel now (rr p) data out = Ok (rr q, o, evs).
Proof.
  revert p data out q o evs. induction fuel as [| fuel IH]; intros p data out q o evs; cbn [filter_loop];
    (destruct (zlen data <? 188); [by intros [= <- <- <-] |]); [done |].
  destruct (slice data 0 188), (slice_from data 188) as [more | |]; cbn [rbind]; try done.
  rewrite filter_packet_rest. destruct (filter_packet now p _) as [[[p1 [o1 |]] e1] | |] eqn:E; cbn [rbind]; [| | done..].
  - destruct (filter_loop fuel now p1 more (out ++ o1)) as [[[q' o'] e'] | |] eqn:El; cbn [rbind]; [| done..].
    intros [= <- <- <-] Hq. by rewrite (IH _ _ _ _ _ _ El Hq).
  - intros [= <- <- <-] Hq. apply filter_packet_None in E. cbn in Hq. congruence.
Qed.
End rest_untouched.

(** The filter leaves the bytes that wait as they are. *)
Lemma filter_keeps_rest fuel now p r s data out q o evs :
  filter_loop fuel now (set_rest p r s) data out = Ok (q, o, evs) -> broken q = false -> set_rest q r s = q.
Proof.
  intros E Hq. pose proof (filter_loop_rest r s _ _ _ _ _ _ _ _ E Hq) as E2. cbv beta zeta in E2.
  change (set_rest (set_rest p r s) r s) with (set_rest p r s) in E2. rewrite E in E2. by injection E2.
Qed.

(** ** How the reads are cut does not matter *)

Lemma packets_loop_fuel f1 f2 data out :
  zlen data <= Z.of_nat f1 -> zlen data <= Z.of_nat f2 -> packets_loop f1 data out = packets_loop f2 data out.
Proof.
  revert f2 data out. induction f1 as [| f1 IH]; intros [| f2] data out H1 H2; cbn [packets_loop];
    (destruct (zlen data <=? 376) eqn:E; [done |]); try lia.
  destruct (idx data 0), (idx data 188), (idx data 376); cbn [rbind]; try done.
  rewrite !slice_from_Ok, !slice_Ok by lia. cbn [rbind].
  destruct (_ || _)%bool; apply IH; rewrite zlen_drop; lia.
Qed.

(** Taking the packets of what is there, then of what comes, is taking the packets of both. *)
Lemma packets_loop_app fuel data b out out' data' :
  packets_loop fuel data out = Ok (out', data') ->
  packets_loop (length (data ++ b)) (data ++ b) out = packets_loop (length (data' ++ b)) (data' ++ b) out'.
Proof.
  revert data out. induction fuel as [| fuel IH]; intros data out; cbn [packets_loop];
    (destruct (zlen data <=? 376) eqn:E; [by intros [= -> ->] |]); [done |]. intros Hrun.
  pose proof (zlen_nonneg b). assert (length (data ++ b) <> 0%nat) as Hne by (rewrite length_app; unfold zlen in *; lia).
  destruct (length (data ++ b)) as [| f] eqn:Ef; [done |]. cbn [packets_loop]. rewrite zlen_app.
  replace (zlen data + zlen b <=? 376) with false by lia. rewrite !idx_app_l by lia.
  destruct (idx data 0), (idx data 188), (idx data 376); cbn [rbind] in *; try done.
  rewrite slice_app_l by lia. rewrite !slice_from_Ok in * by (rewrite ?zlen_app; lia).
  rewrite slice_Ok in * by lia. cbn [rbind] in *.
  rewrite !drop_app_le by (unfold zlen in *; lia).
  destruct (_ || _)%bool; apply IH in Hrun; rewrite <- Hrun; apply packets_loop_fuel;
    rewrite ?zlen_app, ?zlen_drop; unfold zlen in *; rewrite ?length_app, ?length_drop in *; lia.
Qed.

Lemma packets_loop_out fuel data out :
  packets_loop fuel data out = (let! r := packets_loop fuel data [] in Ok (out ++ fst r, snd r)).
Proof.
  revert data out. induction fuel as [| fuel IH]; intros data out; cbn [packets_loop];
    (destruct (zlen data <=? 376); [by cbn; rewrite app_nil_r |]); [done |].
  destruct (idx data 0), (idx data 188), (idx data 376); cbn [rbind]; try done.
  destruct (_ || _)%bool.
  - destruct (slice_from data 1); cbn [rbind]; [apply IH | done..].
  - destruct (slice data 0 188) as [pkt | |], (slice_from data 188) as [more | |]; cbn [rbind]; try done.
    rewrite IH, (IH more ([] ++ pkt)). destruct (packets_loop fuel more []) as [[o d] | |]; cbn; [| done..].
    by rewrite app_assoc.
Qed.

Lemma filter_loop_fuel f1 f2 now p data out :
  zlen data <= Z.of_nat f1 -> zlen data <= Z.of_nat f2 -> filter_loop f1 now p data out = filter_loop f2 now p data out.
Proof.
  revert f2 p data out. induction f1 as [| f1 IH]; intros [| f2] p data out H1 H2; cbn [filter_loop];
    (destruct (zlen data <? 188) eqn:E; [done |]); try lia.
  rewrite !slice_from_Ok, !slice_Ok by lia. cbn [rbind].
  destruct (filter_packet now p _) as [[[q [o |]] evs] | |]; cbn [rbind]; [| done..].
  rewrite (IH f2); [done | rewrite zlen_drop; lia..].
Qed.

Lemma filter_loop_out fuel now p data out :
  filter_loop fuel now p data out =
    (let! ' (q, o, evs) := filter_loop fuel now p data [] in Ok (q, out ++ o, evs)).
Proof.
  revert p data out. induction fuel as [| fuel IH]; intros p data out; cbn [filter_loop];
    (destruct (zlen data <? 188); [by cbn; rewrite app_nil_r |]); [done |].
  destruct (slice data 0 188), (slice_from data 188) as [more | |]; cbn [rbind]; try done.
  destruct (filter_packet now p _) as [[[q [o |]] evs] | |]; cbn [rbind]; [| by rewrite app_nil_r | done..].
  rewrite IH, (IH q more ([] ++ o)). destruct (filter_loop fuel now q more []) as [[[q' o'] evs'] | |]; cbn; [| done..].
  by rewrite app_assoc.
Qed.

(** The packets of two batches in one: as long as the picture does not break in
    the first, the second is filtered by the pipe the first leaves. *)
Lemma filter_loop_app now p x y q o evs out f1 f2 f3 :
  whole x -> whole y -> zlen (x ++ y) <= Z.of_nat f1 -> zlen x <= Z.of_nat f2 -> zlen y <= Z.of_nat f3 ->
  pipe_ok p -> pass p = false -> broken p = false -> ready p = true ->
  filter_loop f1 now p (x ++ y) out = Ok (q, o, evs) -> broken q = false ->
  exists p1 o1 e1 e2, filter_loop f2 now p x out = Ok (p1, o1, e1) /\ broken p1 = false /\
    filter_loop f3 now p1 y o1 = Ok (q, o, e2) /\ evs = e1 ++ e2.
Proof.
  intros Hx Hy. revert p out q o evs f1 f2. induction Hx as [| pkt more Hk Hm IH];
    intros p out q o evs f1 f2 Hf1 Hf2 Hf3 Hp Hps Hb Hr Hrun Hq.
  { exists p, out, [], evs. split; [by destruct f2 |]. split; [done |]. split; [| done].
    rewrite <- Hrun. by apply filter_loop_fuel. }
  rewrite <- app_assoc in Hrun, Hf1. pose proof Hk as (Hl & _ & _).
  destruct (whole_head pkt (more ++ y) Hk) as (E1 & E2 & E3). destruct (whole_head pkt more Hk) as (E1' & E2' & E3').
  rewrite !zlen_app in Hf1, Hf2. pose proof (zlen_nonneg more). pose proof (zlen_nonneg (more ++ y)).
  destruct f1 as [| f1]; [lia |]. destruct f2 as [| f2]; [lia |]. cbn [filter_loop] in *.
  rewrite E1, E2, E3 in Hrun. rewrite E1', E2', E3'. cbn [rbind] in *.
  pose proof (filter_packet_total now p pkt Hp Hps Hb Hr Hk) as Ht.
  destruct (filter_packet now p pkt) as [[[p1 o1] e] | |]; [| done..].
  destruct Ht as (Hp1 & Hw1 & _ & Hout). cbn [fst snd rbind] in *. destruct o1 as [o1 |].
  2: { injection Hrun as <- <- <-. cbn in Hq. congruence. }
  destruct Hout as [_ Hb1].
  destruct (filter_loop f1 now p1 (more ++ y) (out ++ o1)) as [[[q' o'] e'] | |] eqn:El; [| done..].
  cbn [rbind] in Hrun. injection Hrun as <- <- <-.
  apply (IH p1 (out ++ o1) _ _ _ _ f2) in El as (p2 & o2 & e1 & e2 & -> & Hb2 & E & ->);
    [| lia.. | done | by rewrite (same_pass _ _ Hw1) | done | by rewrite (same_ready _ _ Hw1) | done].
  exists p2, o2, (e ++ e1), e2. cbn [rbind]. split; [done |]. split; [done |]. split; [done |]. by rewrite app_assoc.
Qed.

Definition bytes_to (e : event) : list Z := match e with Wrote _ b => b | _ => [] end.

(** A pipe under way: its program known and begun, its picture unbroken. *)
Record under_way (p : programPipe) : Prop := mkUnderWay {
  way_ok : pipe_ok p; way_pass : pass p = false; way_broken : broken p = false;
  way_ready : ready p = true; way_synced : synced p = true; way_started : started p = true
}.

Lemma packets_whole d out data : bytes_ok d -> packets_loop (length d) d [] = Ok (out, data) -> whole out /\ bytes_ok data.
Proof.
  intros Hd E. pose proof (packets_loop_total (length d) d [] Hd ltac:(constructor) ltac:(unfold zlen; lia)) as H.
  rewrite E in H. by destruct H as (? & ? & _).
Qed.

Lemma under_way_rest p b : under_way p -> bytes_ok b -> under_way (set_rest p b true).
Proof. intros [? ? ? ? ? ?] Hb. by constructor; cbn; [pipe_solve | ..]. Qed.

Lemma quiet_bytes l : (forall e b, ~ Wrote e b ∈ l) -> concat (map bytes_to l) = [].
Proof.
  induction l as [| [n b | n |] l IH]; intros H; [done | |..]; cbn; try (apply IH; intros e b' Hin; apply (H e b'); by right).
  exfalso. apply (H n b). by left.
Qed.

Lemma filter_quiet fuel now p data q o evs :
  under_way p -> whole data -> zlen data <= Z.of_nat fuel -> filter_loop fuel now p data [] = Ok (q, o, evs) ->
  concat (map bytes_to evs) = [].
Proof.
  intros [Hp Hps Hb Hr _ _] Hd Hf E.
  pose proof (filter_loop_total fuel now p data [] Hd Hf Hp Hps Hb Hr ltac:(constructor)) as H.
  rewrite E in H. destruct H as (_ & _ & _ & H). by apply quiet_bytes.
Qed.

Lemma filter_under_way now p data q o evs :
  under_way p -> whole data -> filter_ now p data = Ok (q, o, evs) -> broken q = false -> under_way q.
Proof.
  intros [Hp Hps Hb Hr Hs Hst] Hd E Hq.
  pose proof (filter_loop_total (length data) now p data [] Hd ltac:(unfold zlen; lia) Hp Hps Hb Hr ltac:(constructor)) as H.
  unfold filter_ in E. rewrite E in H. destruct H as (? & [] & _). cbn [fst snd] in *. constructor; congruence.
Qed.

Lemma write_under_way now p chunk :
  under_way p -> bytes_ok chunk ->
  Write now p chunk =
    (let! r := packets_loop (length (rest p ++ chunk)) (rest p ++ chunk) [] in
     let! ' (q, out, evs) := filter_ now (set_rest p (snd r) true) (fst r) in
     Ok (q, evs ++ (if zlen out =? 0 then [] else [Wrote (w q) out]))).
Proof.
  intros Hway Hc. pose proof Hway as [Hp Hps Hb Hr Hs Hst]. unfold Write, write_on, packets. rewrite Hb, Hps.
  cbn [synced set_rest]. rewrite Hs. cbn [rbind negb rest set_rest].
  destruct (packets_loop _ _ _) as [[out d] | |] eqn:Ep; cbn [rbind]; [| done..].
  assert (bytes_ok (rest p ++ chunk)) as Hbb by (apply bytes_ok_app; [apply Hp | done]).
  apply packets_whole in Ep as [Ho Hd]; [| done].
  cbn [ready set_rest fst snd]. rewrite Hr. unfold send.
  destruct (under_way_rest p d Hway Hd) as [Hp1 Hps1 Hb1 Hr1 _ Hst1].
  pose proof (filter_loop_total (length out) now _ out [] Ho ltac:(unfold zlen; lia) Hp1 Hps1 Hb1 Hr1 ltac:(constructor)) as H.
  unfold filter_. destruct (filter_loop _ now _ out []) as [[[q o] evs] | |]; [| done..].
  destruct H as (_ & [] & _). cbn [fst snd rbind] in *. replace (started q) with true by congruence. done.
Qed.

(** How the reads of the multiplex fall does not matter: for a pipe under
    way, two writes give the encode the bytes that one write of both gives it
    and leave the pipe as it would be, as long as the picture does not break. *)
Theorem filter_split (now : Z) (p q : programPipe) (a b : list Z) (evs : list event)
    (Hway : under_way p) (Ha : bytes_ok a) (Hb : bytes_ok b)
    (Hrun : Write now p (a ++ b) = Ok (q, evs)) (Hq : broken q = false) :
  exists p1 e1 e2, Write now p a = Ok (p1, e1) /\ Write now p1 b = Ok (q, e2) /\
    concat (map bytes_to evs) = concat (map bytes_to e1) ++ concat (map bytes_to e2) /\ under_way p1.
Proof.
  assert (forall e q o, concat (map bytes_to (e ++ (if zlen o =? 0 then [] else [Wrote q o]))) = concat (map bytes_to e) ++ o) as Hev.
  { intros e r o. rewrite map_app, concat_app. f_equal. destruct (zlen o =? 0) eqn:E; [| by cbn; rewrite app_nil_r].
    by rewrite (zlen_0_nil o) by lia. }
  rewrite write_under_way in Hrun by (done || by apply bytes_ok_app). rewrite app_assoc in Hrun.
  assert (bytes_ok (rest p ++ a)) as Hra by (apply bytes_ok_app; [apply Hway | done]).
  rewrite write_under_way by done.
  pose proof (packets_loop_total (length (rest p ++ a)) (rest p ++ a) [] Hra ltac:(constructor) ltac:(unfold zlen; lia)) as Ht.
  destruct (packets_loop (length (rest p ++ a)) (rest p ++ a) []) as [[x d] | |] eqn:Ex; [| done..].
  destruct Ht as (Hx & Hd & _). cbn [fst snd rbind] in *. rewrite (packets_loop_app _ _ b _ _ _ Ex) in Hrun.
  assert (bytes_ok (d ++ b)) as Hdb by (by apply bytes_ok_app).
  rewrite packets_loop_out in Hrun.
  destruct (packets_loop (length (d ++ b)) (d ++ b) []) as [[y d'] | |] eqn:Ey; [| done..]. cbn [rbind fst snd] in Hrun.
  destruct (packets_whole _ _ _ Hdb Ey) as [Hy Hd'].
  destruct (filter_ now (set_rest p d' true) (x ++ y)) as [[[q' o] e] | |] eqn:Ef; [| done..]. cbn [rbind] in Hrun.
  injection Hrun as <- <-. destruct (under_way_rest p d' Hway Hd') as [? ? ? ? _ _]. unfold filter_ in *.
  apply (filter_loop_app now _ x y q' o e [] _ (length x) (length y)) in Ef as (p1 & o1 & e1 & e2 & E1 & Hb1 & E2 & ->);
    [| done | done | unfold zlen; lia.. | done | done | done | done | done].
  pose proof (filter_keeps_rest _ _ _ _ _ _ _ _ _ _ E1 Hb1) as Hr1.
  pose proof (filter_loop_rest d true _ _ _ _ _ _ _ _ E1 Hb1) as E1'. cbv beta zeta in E1'.
  change (set_rest (set_rest p d' true) d true) with (set_rest p d true) in E1'. rewrite E1'. cbn [rbind].
  assert (under_way (set_rest p1 d true)) as Hway1.
  { apply (filter_under_way now (set_rest p d true) x _ o1 e1); [by apply under_way_rest | done | done | done]. }
  rewrite filter_loop_out in E2. destruct (filter_loop (length y) now p1 y []) as [[[q2 o2] e2'] | |] eqn:E2'; [| done..].
  cbn [rbind] in E2. injection E2 as <- <- <-.
  eexists _, _, _. split; [reflexivity |]. rewrite write_under_way by done. cbn [rest set_rest]. rewrite Ey. cbn [rbind fst snd].
  change (set_rest (set_rest p1 d true) d' true) with (set_rest p1 d' true). rewrite Hr1. unfold filter_. rewrite E2'. cbn [rbind].
  split; [done |]. rewrite !Hev. split; [| done]. rewrite map_app, concat_app.
  rewrite (filter_quiet (length x) _ _ _ _ _ _ (under_way_rest p d Hway Hd) Hx ltac:(unfold zlen; lia) E1').
  assert (under_way p1) as Hw1 by (rewrite <- Hr1; by apply (under_way_rest (set_rest p1 d true))).
  rewrite (filter_quiet (length y) _ _ _ _ _ _ Hw1 Hy ltac:(unfold zlen; lia) E2').
  done.
Qed.

(** ** Jumps *)

(** The time of a PES that starts in a packet of [pid]. *)
Definition header_time (pid : Z) (pkt : list Z) : option Z :=
  match pid_of pkt, idx pkt 3, idx pkt 1, rbind (tsPayload pkt) pesTime with
  | Ok n, Ok b3, Ok b1, Ok t =>
      if ((n =? pid) && negb (Z.land b3 0x10 =? 0) && negb (Z.land b1 0x40 =? 0))%bool then t else None
  | _, _, _, _ => None
  end.

Definition on_timeline (t last : Z) : Prop := - pesBack <= ptsDelta t last <= pesJump.

(** Times, the latest first, each within [pesJump] of the one before it. *)
Fixpoint chained (l : list Z) : Prop :=
  match l with
  | a :: ((b :: _) as l') => ptsGap a b <= pesJump /\ chained l'
  | _ => True
  end.

(** What a clock remembers of the headers seen and of those sent, latest first. *)
Definition clock_knows (c : option pesClock) (seen sent : list Z) : Prop :=
  match c with
  | None => sent = []
  | Some c =>
      head sent = Some (last_ c) /\ 0 <= agree c /\
      exists recent older, seen = recent ++ older /\ zlen recent = agree c /\ chained recent /\
        (recent <> [] -> head recent = Some (cand c))
  end.

(** A header may go out when it is the first, is on the timeline, or is the
    third in a row of a new one. *)
Definition may_pass (t : Z) (seen sent : list Z) : Prop :=
  match sent with
  | [] => True
  | last :: _ => on_timeline t last \/ exists a b older, seen = a :: b :: older /\ chained [t; a; b]
  end.

Lemma agree_count_knows t c seen sent :
  clock_knows (Some c) seen sent ->
  0 < agree_count t c /\ exists recent older, t :: seen = recent ++ older /\ zlen recent = agree_count t c /\ chained recent /\
    head recent = Some t.
Proof.
  intros (_ & Hpos & recent & older & -> & Hlen & Hch & Hcand). unfold agree_count, agrees.
  destruct (_ && _)%bool eqn:E.
  - apply andb_true_iff in E as [E1 E2]. split; [lia |]. exists (t :: recent), older.
    rewrite zlen_cons. split_and!; [done | lia | | done].
    destruct recent as [| a recent]; [done |]. specialize (Hcand ltac:(done)). injection Hcand as ->. cbn. split; [lia | done].
  - split; [lia |]. by exists [t], (recent ++ older).
Qed.

Lemma knows_more c seen sent t : clock_knows (Some c) seen sent -> agree c = 0 -> clock_knows (Some c) (t :: seen) sent.
Proof. intros (Hh & Hpos & _) H0. split; [done |]. split; [done |]. exists [], (t :: seen). by rewrite H0. Qed.

(** The clock after a packet of its PID. *)
Definition header_effect (p : programPipe) (pid : Z) (pkt : list Z) (seen sent : list Z)
    (r : bool * programPipe * list event) : Prop :=
  let q := snd (fst r) in
  broken q = true \/
  match header_time pid pkt with
  | None => clock_knows (clocks q !! pid) seen sent
  | Some t =>
      if fst (fst r) then may_pass t seen sent /\ clock_knows (clocks q !! pid) (t :: seen) (t :: sent)
      else clock_knows (clocks q !! pid) (t :: seen) sent
  end.

Lemma knows_clock p pid c seen sent : clock_knows (Some c) seen sent -> clock_knows (clocks (set_clock p pid c) !! pid) seen sent.
Proof. cbn. by rewrite lookup_insert_eq. Qed.

Lemma off_timeline_header now p pid pkt ts c seen sent :
  clock_knows (Some c) seen sent -> header_time pid pkt = Some ts ->
  returns (off_timeline now p pid pkt ts c) (fun _ => True) ->
  returns (off_timeline now p pid pkt ts c) (header_effect p pid pkt seen sent).
Proof.
  intros Hk Ht. unfold off_timeline. cbv zeta. set (p2 := watch_break now p pid pkt ts c). clearbody p2.
  destruct (agree_count_knows ts c seen sent Hk) as (Hpos & recent & older & Es & Hlen & Hch & Hhd).
  destruct (pesAgree <=? agree_count ts c) eqn:E.
  - destruct (_ && _ && _)%bool.
    + cbn [onBreak set_breaks set_clock]. destruct (onBreak p2); [| done]. intros _. by left.
    + intros _. right. rewrite Ht. cbn [fst snd]. split.
      * destruct Hk as (Hs & _). destruct sent as [| l sent]; [done |]. right.
        unfold pesAgree in E. destruct recent as [| x [| a [| b recent]]]; cbn in Hlen; try (unfold zlen in Hlen; cbn in Hlen; lia).
        injection Hhd as ->. injection Es as ->. exists a, b, (recent ++ older). split; [done |].
        cbn in Hch. cbn. tauto.
      * apply knows_clock. split; [done |]. split; [done |]. by exists [], (ts :: seen).
  - intros _. right. rewrite Ht. cbn [fst snd]. apply knows_clock. destruct Hk as (Hs & _).
    split; [done |]. split; [cbn; lia |]. exists recent, older. by rewrite Hhd.
Qed.

Lemma keepPES_header now p pid pkt seen sent :
  pid <> pmtPID p -> pid_of pkt = Ok pid -> clock_knows (clocks p !! pid) seen sent ->
  returns (keepPES now p pid pkt) (fun _ => True) ->
  returns (keepPES now p pid pkt) (header_effect p pid pkt seen sent).
Proof.
  intros Hpmt Hpid Hk. unfold keepPES.
  destruct (idx pkt 3) as [b3 | |] eqn:E3; cbn [rbind]; [| done..].
  replace (pid =? pmtPID p) with false by lia. cbn [orb].
  destruct (Z.land b3 16 =? 0) eqn:E10.
  { intros _. right. unfold header_time. rewrite Hpid, E3, E10, andb_false_r. cbn [negb andb].
    destruct (idx pkt 1), (rbind (tsPayload pkt) pesTime); try done; by rewrite ?andb_false_r. }
  destruct (idx pkt 1) as [b1 | |] eqn:E1; cbn [rbind]; [| done..].
  destruct (Z.land b1 64 =? 0) eqn:E40.
  { assert (header_time pid pkt = None) as Hn.
    { unfold header_time. rewrite Hpid, E3, E1, E10, E40, Z.eqb_refl. by destruct (rbind _ _). }
    destruct (clocks p !! pid) as [c |] eqn:Ec.
    - intros _. destruct (dropping c); right; rewrite Hn; [by apply knows_clock | cbn; by rewrite Ec].
    - intros _. right. rewrite Hn. cbn. by rewrite Ec. }
  destruct (tsPayload pkt) as [b | |] eqn:Ets; cbn [rbind]; [| done..].
  assert (forall t, pesTime b = Ok t -> header_time pid pkt = t) as Hht.
  { intros t Et. unfold header_time. rewrite Hpid, E3, E1, Ets. cbn [rbind]. by rewrite Et, E10, E40, Z.eqb_refl. }
  destruct (pesTime b) as [t | |]; cbn [rbind]; [| done..]. specialize (Hht t eq_refl).
  destruct t as [ts |], (clocks p !! pid) as [c |] eqn:Ec.
  - destruct (_ && _)%bool eqn:E.
    + intros _. right. rewrite Hht. cbn [fst snd]. split.
      * destruct Hk as (Hs & _). destruct sent as [| l sent]; [done |]. injection Hs as ->.
        left. unfold on_timeline. lia.
      * apply knows_clock. split; [done |]. split; [done |]. by exists [], (ts :: seen).
    + by apply off_timeline_header.
  - intros _. right. rewrite Hht. cbn [fst snd]. cbn in Hk. subst sent. split; [done |].
    apply knows_clock. split; [done |]. split; [done |]. by exists [], (ts :: seen).
  - intros _. right. rewrite Hht. cbn [fst snd]. by apply knows_clock.
  - intros _. right. rewrite Hht. cbn [fst snd]. by rewrite Ec.
Qed.

Lemma slice_from_insert (b : list Z) (i : nat) v k :
  Z.of_nat i < k -> slice_from (<[i := v]> b) k = slice_from b k.
Proof.
  intros Hi. unfold slice_from, slice, zlen. rewrite length_insert. destruct (_ && _)%bool; [| done].
  by rewrite drop_insert_lt by lia.
Qed.

(** A packet keeps its header's time when its counter moves. *)
Lemma renumber_header p pid pkt out pid' :
  is_packet pkt -> renumber p pid pkt = Ok out -> header_time pid' out = header_time pid' pkt.
Proof.
  intros (Hl & Hb & _). unfold renumber. destruct (clocks p !! pid) as [c |]; [| by intros [= <-]].
  destruct (idx pkt 3) as [b3 | |] eqn:E3; cbn [rbind]; [| done..]. destruct (_ && _)%bool; [| by intros [= <-]].
  intros [= <-]. set (v := Z.lor _ _).
  assert (idx (<[3%nat := v]> pkt) 3 = Ok v) as Ev by (apply (idx_insert pkt 3); unfold zlen in *; lia).
  assert (Z.land v 0x10 = Z.land b3 0x10) as E10 by (apply nibbles).
  assert (Z.land (Z.shiftr v 4) 3 = Z.land (Z.shiftr b3 4) 3) as E4.
  { subst v. apply Z.bits_inj'. intros n Hn. rewrite !Z.land_spec, !Z.shiftr_spec, Z.lor_spec, !Z.land_spec by lia.
    destruct (decide (n = 0)) as [-> | ?]; [cbn; by rewrite !andb_false_r, !andb_true_r, orb_false_r |].
    destruct (decide (n = 1)) as [-> | ?]; [cbn; by rewrite !andb_false_r, !andb_true_r, orb_false_r |].
    rewrite (Z.bits_above_log2 3) by (change (Z.log2 3) with 1; lia). by rewrite !andb_false_r. }
  assert (tsPayload (<[3%nat := v]> pkt) = tsPayload pkt) as Ets.
  { unfold tsPayload. rewrite Ev, E3. cbn [rbind]. rewrite E4, slice_from_insert by lia.
    rewrite idx_insert_ne by lia. destruct (_ =? 1); [done |]. destruct (_ =? 3); [| done].
    destruct (idx_in_range pkt 4 ltac:(lia)) as (b4 & Hb4 & ->). cbn [rbind].
    assert (byte_ok b4) by (by eapply bytes_ok_lookup). unfold zlen. rewrite length_insert.
    destruct (_ <=? _); [| done]. apply slice_from_insert. unfold byte_ok in *. lia. }
  unfold header_time. rewrite pid_of_insert, Ev, E3, E10, Ets. by rewrite idx_insert_ne by lia.
Qed.

Lemma header_other pid pkt n : pid_of pkt = Ok n -> n <> pid -> header_time pid pkt = None.
Proof.
  intros Hn Hne. unfold header_time. rewrite Hn. replace (n =? pid) with false by lia.
  by destruct (idx pkt 3), (idx pkt 1), (rbind (tsPayload pkt) pesTime).
Qed.

(** The headers of a packet, latest first. *)
Definition headers (pid : Z) (pkts : list (list Z)) : list Z := reverse (omap (header_time pid) pkts).

Lemma headers_app pid a b : headers pid (a ++ b) = headers pid b ++ headers pid a.
Proof. unfold headers. by rewrite omap_app, reverse_app. Qed.

Lemma headers_one pid pkt : headers pid [pkt] = match header_time pid pkt with Some t => [t] | None => [] end.
Proof. unfold headers. rewrite omap_one. by destruct (header_time pid pkt). Qed.

Lemma judged_header now p pid pkt q k seen sent :
  is_packet pkt -> pid <> 0 -> pid <> pmtPID p -> is_Some (keep p !! pid) -> judged now p pkt q k ->
  clock_knows (clocks p !! pid) seen sent ->
  Forall (fun t => may_pass t seen sent) (headers pid k) /\
  clock_knows (clocks q !! pid) (headers pid [pkt] ++ seen) (headers pid k ++ sent).
Proof.
  intros Hk H0 Hpmt Hkeep Hj Hc.
  assert (forall n, pid_of pkt = Ok n -> n <> pid -> clocks q !! pid = clocks p !! pid -> headers pid k = [] ->
    Forall (fun t => may_pass t seen sent) (headers pid k) /\
    clock_knows (clocks q !! pid) (headers pid [pkt] ++ seen) (headers pid k ++ sent)) as Hother.
  { intros n En Hne Hq ->. rewrite headers_one, (header_other pid pkt n) by done. rewrite Hq. by split; [constructor |]. }
  destruct Hj as [table En Hq Ht | n En Hn0 Hnk Hq | n p2 kept p3 evs k En Hn0 Hm Hc2 Ekp Hb3 Hq Hout].
  - apply (Hother 0); [done | done | by rewrite Hq |]. by rewrite headers_one, (header_other pid table 0).
  - apply (Hother n); [done | | by rewrite Hq | done]. intros ->. destruct Hkeep. congruence.
  - destruct (idx_in_range pkt 3 ltac:(destruct Hk; lia)) as (b3 & _ & E3).
    destruct (decide (n = pid)) as [-> | Hne].
    + pose proof (keepPES_header now p2 pid pkt seen sent ltac:(by rewrite (same_pmtPID _ _ Hm)) En
        ltac:(by rewrite Hc2)) as Hh. rewrite Ekp in Hh. destruct (Hh I) as [? | Hh']; cbn [fst snd] in *; [congruence |].
      rewrite Hq, headers_one. destruct kept.
      * destruct Hout as (out & Ern & ->). rewrite headers_one, (renumber_header _ _ _ _ _ Hk Ern).
        destruct (header_time pid pkt) as [t |]; [| by split; [constructor |]].
        destruct Hh' as [? ?]. by split; [apply Forall_cons |].
      * subst k. split; [constructor |]. by destruct (header_time pid pkt).
    + pose proof (keepPES_effect now p2 n pkt b3 E3) as Hke. rewrite Ekp in Hke. destruct (Hke I) as (_ & Hoth & _).
      cbn [fst snd] in *. apply (Hother n); [done | done | by rewrite Hq, Hoth, Hc2 by done |].
      destruct kept; [| by subst k]. destruct Hout as (out & Ern & ->).
      rewrite headers_one, (renumber_header _ _ _ _ _ Hk Ern). by rewrite (header_other pid pkt n).
Qed.

Lemma judged_all_headers now p pkts q outs pid seen sent :
  judged_all now p pkts q outs -> pid <> 0 -> pid <> pmtPID p -> is_Some (keep p !! pid) ->
  clock_knows (clocks p !! pid) seen sent ->
  same_map p q /\ clock_knows (clocks q !! pid) (headers pid pkts ++ seen) (headers pid outs ++ sent).
Proof.
  intros Hall H0. revert seen sent. induction Hall as [p | p pkt p1 k pkts q outs Hk Hm Hj _ IH]; intros seen sent Hpmt Hkeep Hc.
  { by split; [apply same_map_refl |]. }
  destruct (judged_header now p pid pkt p1 k seen sent Hk H0 Hpmt Hkeep Hj Hc) as [_ Hc1].
  apply IH in Hc1 as [? Hcq]; [| by rewrite (same_pmtPID _ _ Hm) | by rewrite (same_keep _ _ Hm)].
  split; [by eapply same_map_trans |].
  change (pkt :: pkts) with ([pkt] ++ pkts). by rewrite !headers_app, <- !app_assoc.
Qed.

(** A time that jumps never reaches the encoder on the word of one header:
    when the pipe sends a PES of a stream, it is the first of that stream it
    sends, or its time is on the timeline of the PES it sent last, or the two
    headers that came just before it agree with it and with each other. *)
Theorem jump_needs_agreement (now : Z) (p : programPipe) (pid : Z) (pre : list (list Z)) (pkt : list Z)
    (p1 q : programPipe) (o1 o : list Z) (e1 e : list event)
    (Hp : pipe_ok p) (Hps : pass p = false) (Hnb : broken p = false) (Hr : ready p = true)
    (Hpre : Forall is_packet pre) (Hpkt : is_packet pkt) (H0 : pid <> 0) (Hpmt : pid <> pmtPID p)
    (Hkeep : is_Some (keep p !! pid)) (Hrep : Forall (repeats_map p) (pre ++ [pkt]))
    (Hnew : clocks p !! pid = None)
    (Hrun : filter_ now p (concat pre) = Ok (p1, o1, e1)) (Hb1 : broken p1 = false)
    (Hlast : filter_packet now p1 pkt = Ok (q, Some o, e)) :
  exists before last, o1 = concat before /\ o = concat last /\ Forall is_packet (before ++ last) /\
    Forall (fun t => may_pass t (headers pid pre) (headers pid before)) (headers pid last).
Proof.
  apply Forall_app in Hrep as [Hrep Hrepk]. apply Forall_cons in Hrepk as [Hrepk _].
  pose proof (filter_loop_total (length (concat pre)) now p (concat pre) []) as Ht.
  assert (whole (concat pre)) as Hw by (clear -Hpre; induction Hpre; cbn; by constructor).
  specialize (Ht Hw ltac:(unfold zlen; lia) Hp Hps Hnb Hr ltac:(constructor)). unfold filter_ in Hrun.
  rewrite Hrun in Ht. destruct Ht as (Hp1 & [? ? ? Hr1 Hps1 ? ?] & _). cbn [fst snd] in *.
  apply (filter_loop_judged now pre _ p [] p1 o1 e1) in Hrun as (before & -> & Hb & Hall);
    [| done | unfold zlen; lia | done | done | done | done | done | done].
  destruct (judged_all_headers now p pre p1 before pid [] [] Hall H0 Hpmt Hkeep) as [Hm Hc]; [by rewrite Hnew |].
  rewrite !app_nil_r in Hc.
  pose proof (filter_packet_judged now p1 pkt Hp1 ltac:(congruence) Hb1 ltac:(congruence) Hpkt) as Hj.
  rewrite Hlast in Hj. destruct Hj as (_ & k & -> & Hk & Hj); [unfold repeats_map in *; by rewrite (same_pmtPID _ _ Hm), (same_pmtVer _ _ Hm) |].
  cbn [fst snd] in *. exists before, k. split_and!; [done | done | by apply Forall_app |].
  by apply (judged_header now p1 pid pkt q k); [| | rewrite (same_pmtPID _ _ Hm) | rewrite (same_keep _ _ Hm) | |].
Qed.

(** ** A multiplex *)

Definition ts_packet (flags pid c : Z) (payload : list Z) : list Z :=
  [0x47; Z.lor flags (Z.shiftr pid 8); wrap8 pid; Z.lor 0x10 c] ++ payload ++ replicate (184 - length payload) 0xff.
Definition a_pat : list Z :=
  match singleProgramPAT 3 0x31 0x0817 with Ok pkt => pkt | _ => [] end.
(** Program 3: H.264 on PID 0x41, AC-3 on PID 0x44. *)
Definition a_pmt : list Z :=
  ts_packet 0x40 0x31 0 [0; 0x02; 0xb0; 0x17; 0; 3; 0xc1; 0; 0; 0xe0; 0x41; 0xf0; 0;
    0x1b; 0xe0; 0x41; 0xf0; 0; 0x81; 0xe0; 0x44; 0xf0; 0; 1; 2; 3; 4].
(** A picture at a time, with a parameter set, and more of it. *)
Definition a_picture (t c : Z) : list Z :=
  ts_packet 0x40 0x41 c ([0; 0; 1; 0xe0; 0; 0; 0x80; 0x80; 5] ++ pts_bytes t ++ [0; 0; 1; 0x67; 0x42]).
Definition more_of_it (c : Z) : list Z := ts_packet 0 0x41 c [9; 9; 9].
Definition a_null : list Z := ts_packet 0 0x1fff 0 [].

Definition opening : list Z := concat [a_pat; a_pmt; a_picture 90000 0; more_of_it 1; a_null; a_null].
Definition written {A} (d : A) (r : res A) : A := match r with Ok a => a | _ => d end.
Definition opened : res (programPipe * list event) := Write 0 (fresh 1 3 false None [] None) opening.
Definition playing : programPipe := fst (written (fresh 1 3 false None [] None, []) opened).

(** The encode gets the table, the map, and the picture from its start. *)
Example opening_sends :
  snd (written (playing, []) opened) =
    [Wrote 1 (concat [<[3%nat := 0x11]> a_pat; a_pmt; a_picture 90000 0; more_of_it 1])].
Proof. vm_compute. reflexivity. Qed.

Lemma pipe_total_witness :
  exists p evs, run (fresh 1 3 true (Some None) [] None) [DoWrite 0 opening; DoGive 2; DoClose] = Ok (p, evs) /\ pipe_ok p /\
    (pass p = false -> Forall wrote_whole evs).
Proof.
  apply pipe_total. apply Forall_cons. split; [| repeat constructor]. bytes_dec.
Defined.

Lemma pipe_ok_after now p chunk q evs :
  pipe_ok p -> bytes_ok chunk -> Write now p chunk = Ok (q, evs) -> pipe_ok q.
Proof. intros Hp Hc E. pose proof (Write_total now p chunk Hc Hp) as H. rewrite E in H. apply H. Qed.

Lemma playing_ok : pipe_ok playing.
Proof.
  apply (pipe_ok_after 0 (fresh 1 3 false None [] None) opening playing (snd (written (playing, []) opened)));
    [apply fresh_ok | bytes_dec | vm_compute; reflexivity].
Qed.

Lemma playing_under_way : under_way playing.
Proof. constructor; [apply playing_ok | vm_compute; reflexivity..]. Qed.

Definition filtered (pkts : list (list Z)) : programPipe * list Z * list event :=
  written (playing, [], []) (filter_ 0 playing (concat pkts)).

Lemma is_packet_dec pkt :
  ((zlen pkt =? 188) && forallb (fun v => (0 <=? v) && (v <? 256)) pkt && bool_decide (head pkt = Some 0x47))%bool = true ->
  is_packet pkt.
Proof.
  intros [[H1 H2]%andb_true_iff H3%bool_decide_eq_true]%andb_true_iff.
  split_and!; [lia | by apply bytes_ok_dec | done].
Qed.
Ltac packets_dec := repeat (apply Forall_cons; split; [apply is_packet_dec; vm_compute; reflexivity |]); apply Forall_nil; done.

(** A header ten thousand seconds off, and the rest of its PES, go; the counters close up. *)
Definition with_bad_header : list (list Z) :=
  [more_of_it 2; a_picture 900090000 3; more_of_it 4; a_picture 93003 5; more_of_it 6].

Example bad_header_dropped :
  snd (fst (filtered with_bad_header)) = concat [more_of_it 2; a_picture 93003 3; more_of_it 4].
Proof. vm_compute. reflexivity. Qed.

Lemma counters_stay_consecutive_witness :
  exists outs, snd (fst (filtered with_bad_header)) = concat outs /\ Forall is_packet outs /\
    consecutive (2 - shift_of playing 0x41) (omap (counter_of 0x41) outs) /\
    shift_of (fst (fst (filtered with_bad_header))) 0x41 mod 16 =
      (shift_of playing 0x41 + (zlen (omap (counter_of 0x41) with_bad_header) - zlen (omap (counter_of 0x41) outs))) mod 16.
Proof.
  apply (counters_stay_consecutive 0 playing 0x41 2 with_bad_header _ _ (snd (filtered with_bad_header))).
  - apply playing_ok.
  - vm_compute. reflexivity.
  - vm_compute. reflexivity.
  - vm_compute. reflexivity.
  - packets_dec.
  - lia.
  - vm_compute. by eexists.
  - repeat (apply Forall_cons; split; [by vm_compute |]). by apply Forall_nil.
  - vm_compute. tauto.
  - vm_compute. reflexivity.
  - vm_compute. reflexivity.
Defined.

Lemma filter_split_witness :
  exists p1 e1 e2, Write 0 playing (a_picture 93003 2) = Ok (p1, e1) /\
    Write 0 p1 (more_of_it 3 ++ a_null) = Ok (fst (written (playing, []) (Write 0 playing (a_picture 93003 2 ++ (more_of_it 3 ++ a_null)))), e2) /\
    concat (map bytes_to (snd (written (playing, []) (Write 0 playing (a_picture 93003 2 ++ (more_of_it 3 ++ a_null)))))) =
      concat (map bytes_to e1) ++ concat (map bytes_to e2) /\ under_way p1.
Proof.
  apply (filter_split 0 playing); [apply playing_under_way | bytes_dec | bytes_dec | vm_compute; reflexivity | vm_compute; reflexivity].
Defined.

(** The pipe once it knows the program, before it has seen a picture. *)
Definition learned : programPipe :=
  fst (written (playing, []) (Write 0 (fresh 1 3 false None [] None) (concat [a_pat; a_pmt; a_null; a_null]))).

Lemma learned_ok_pipe : pipe_ok learned.
Proof.
  apply (pipe_ok_after 0 (fresh 1 3 false None [] None) (concat [a_pat; a_pmt; a_null; a_null]) learned []);
    [apply fresh_ok | bytes_dec | vm_compute; reflexivity].
Qed.

(** Three headers on a new timeline: the third goes out. *)
Definition moved : list (list Z) := [a_picture 90000 0; a_picture 900090000 1; a_picture 900093003 2].
Definition after_moved : programPipe * list Z * list event := written (learned, [], []) (filter_ 0 learned (concat moved)).
Definition third : programPipe * option (list Z) * list event :=
  written (learned, None, []) (filter_packet 0 (fst (fst after_moved)) (a_picture 900096006 3)).

Lemma jump_needs_agreement_witness :
  exists before last, snd (fst after_moved) = concat before /\ default [] (snd (fst third)) = concat last /\
    Forall is_packet (before ++ last) /\
    Forall (fun t => may_pass t (headers 0x41 moved) (headers 0x41 before)) (headers 0x41 last).
Proof.
  apply (jump_needs_agreement 0 learned 0x41 moved (a_picture 900096006 3) (fst (fst after_moved)) (fst (fst third)) _ _
    (snd after_moved) (snd third)).
  - apply learned_ok_pipe.
  - vm_compute. reflexivity.
  - vm_compute. reflexivity.
  - vm_compute. reflexivity.
  - packets_dec.
  - apply is_packet_dec. vm_compute. reflexivity.
  - lia.
  - by vm_compute.
  - vm_compute. by eexists.
  - repeat (apply Forall_cons; split; [by vm_compute |]). by apply Forall_nil.
  - vm_compute. reflexivity.
  - vm_compute. reflexivity.
  - vm_compute. reflexivity.
  - vm_compute. reflexivity.
Defined.
