(* ===== verification/Fmp4.v ===== *)
(** The boxes of fragmented MP4, [server/internal/live/fmp4.go]: reading and
    writing boxes, a track's run of samples, and the trimming of an encode's
    first fragment.

    A [uint32] is a number below [2 ^ 32]; an [int64] is reduced where an
    operation on it can overflow. Quotients of [int64]s go toward zero
    ([Z.quot]). A box's kind is its four bytes. *)
From Stdlib Require Import Sorted.
From S2P Require Import Prelude GoText.
Local Open Scope Z_scope.
Local Open Scope go_scope.

(** [binary.BigEndian.Uint64], and the conversions to [int32] and [int64] *)
Definition uint64 (b : list Z) : res Z :=
  let! h := slice b 0 4 in let! hi := uint32 h in
  let! l := slice b 4 8 in let! lo := uint32 l in
  Ok (hi * 2 ^ 32 + lo).
Definition int32 (z : Z) : Z := (z + 2 ^ 31) mod 2 ^ 32 - 2 ^ 31.
(** [binary.BigEndian.AppendUint32] and [AppendUint64] *)
Definition be32 (w : Z) : list Z :=
  [wrap8 (Z.shiftr w 24); wrap8 (Z.shiftr w 16); wrap8 (Z.shiftr w 8); wrap8 w].
Definition be64 (w : Z) : list Z := be32 (Z.shiftr (wrap64 w) 32) ++ be32 (wrap64 w).
Definition u32_at (b : list Z) (i : Z) : res Z := let! s := slice b i (i + 4) in uint32 s.

(** ** Boxes *)

(** A box, and where its body starts in the bytes it was read from. *)
Record box := mkBox { bkind : list Z; body : list Z; bpos : Z }.

Definition is_kind (k : string) (b : box) : bool := bytes_equal (bkind b) (lit k).

(** The loop of [boxes]; [b] is what is left, from [off] on. *)
Fixpoint boxes_loop (fuel : nat) (b : list Z) (off : Z) : res (list box) :=
  if zlen b <? 8 then Ok [] else
  match fuel with
  | O => NoFuel
  | S fuel =>
      let! size := u32_at b 0 in
      let! kind := slice b 4 8 in
      let! ' (size, head) :=
        if ((size =? 1) && (16 <=? zlen b))%bool then
          let! s := slice b 8 16 in let! n := uint64 s in Ok (int64 n, 16)
        else Ok (size, 8) in
      let size := if size =? 0 then zlen b else size in
      if ((size <? head) || (zlen b <? size))%bool then Ok [] else
      let! body := slice b head size in
      let! more := slice_from b size in
      let! out := boxes_loop fuel more (off + size) in
      Ok (mkBox kind body (off + head) :: out)
  end.
Definition boxes (b : list Z) : res (list box) := boxes_loop (length b) b 0.

(** [child]; a missing box is empty, as Go's nil is. *)
Definition child_of (bs : list box) (k : string) : list Z :=
  match List.find (is_kind k) bs with Some x => body x | None => [] end.
Definition child (b : list Z) (k : string) : res (list Z) :=
  let! bs := boxes b in Ok (child_of bs k).

Definition putBox (k body : list Z) : list Z := be32 (8 + zlen body) ++ k ++ body.

(** ** Tracks *)

Definition mvhdScale (mvhd : list Z) : res Z :=
  let narrow := if 16 <=? zlen mvhd then u32_at mvhd 12 else Ok 0 in
  if 24 <=? zlen mvhd then
    let! v := idx mvhd 0 in if v =? 1 then u32_at mvhd 20 else narrow
  else narrow.

Definition trackScale (trak : list Z) : res (option (Z * Z)) :=
  let! tkhd := child trak "tkhd" in
  let! mdia := child trak "mdia" in
  let! mdhd := child mdia "mdhd" in
  if ((zlen tkhd <? 24) || (zlen mdhd <? 24))%bool then Ok None else
  let! v := idx tkhd 0 in
  let! id := u32_at tkhd (if v =? 1 then 20 else 12) in
  let! v := idx mdhd 0 in
  let! scale := u32_at mdhd (if v =? 1 then 20 else 12) in
  Ok (if 0 <? scale then Some (id, scale) else None).

Fixpoint scales_loop (ts : list box) (out : gmap Z Z) : res (gmap Z Z) :=
  match ts with
  | [] => Ok out
  | t :: ts =>
      if negb (is_kind "trak" t) then scales_loop ts out else
      let! r := trackScale (body t) in
      scales_loop ts (match r with Some (id, scale) => <[id := scale]> out | None => out end)
  end.
Definition trackScales (init : list Z) : res (gmap Z Z) :=
  let! moov := child init "moov" in let! ts := boxes moov in scales_loop ts empty.

Fixpoint video_loop (ts : list box) : res (option (Z * Z)) :=
  match ts with
  | [] => Ok None
  | t :: ts =>
      if negb (is_kind "trak" t) then video_loop ts else
      let! mdia := child (body t) "mdia" in
      let! hdlr := child mdia "hdlr" in
      if zlen hdlr <? 12 then video_loop ts else
      let! h := slice hdlr 8 12 in
      if negb (bytes_equal h (lit "vide")) then video_loop ts else
      let! r := trackScale (body t) in
      match r with Some x => Ok (Some x) | None => video_loop ts end
  end.
Definition videoTrack (init : list Z) : res (option (Z * Z)) :=
  let! moov := child init "moov" in let! ts := boxes moov in video_loop ts.

(** ** Runs *)

Record trunSample := mkSample { dur : Z; size : Z; sflags : Z; scts : Z }.

Record trackRun := mkRun {
  id : Z; tfhd : list Z; tfdt : list Z; version : Z; flags : Z; dataOff : Z; first : Z;
  samples : list trunSample; defDur : Z; defSize : Z; hasSizes : bool; hasDurs : bool
}.
Definition no_run : trackRun := mkRun 0 [] [] 0 0 0 0 [] 0 0 false false.

Definition set_tfhd (r : trackRun) (b : list Z) : trackRun :=
  mkRun (id r) b (tfdt r) (version r) (flags r) (dataOff r) (first r) (samples r) (defDur r) (defSize r) (hasSizes r) (hasDurs r).
Definition set_tfdt (r : trackRun) (b : list Z) : trackRun :=
  mkRun (id r) (tfhd r) b (version r) (flags r) (dataOff r) (first r) (samples r) (defDur r) (defSize r) (hasSizes r) (hasDurs r).
Definition set_trun (r : trackRun) (v f o fi : Z) (ss : list trunSample) : trackRun :=
  mkRun (id r) (tfhd r) (tfdt r) v f o fi ss (defDur r) (defSize r) (hasSizes r) (hasDurs r).
Definition set_defaults (r : trackRun) (i d s : Z) (hs hd : bool) : trackRun :=
  mkRun i (tfhd r) (tfdt r) (version r) (flags r) (dataOff r) (first r) (samples r) d s hs hd.

Definition bit (f m : Z) : bool := negb (Z.land f m =? 0).

(** [uint32(b[1])<<16 | uint32(b[2])<<8 | uint32(b[3])] *)
Definition flags_of (b : list Z) : res Z :=
  let! b1 := idx b 1 in let! b2 := idx b 2 in let! b3 := idx b 3 in Ok (be16 (be16 b1 b2) b3).

Definition maxTrunSamples : Z := Z.shiftl 1 20.

(** One field of a sample when the run has it, and where the next starts. *)
Definition field (b : list Z) (f m off : Z) : res (option (Z * Z)) :=
  if negb (bit f m) then Ok (Some (0, off)) else
  if zlen b <? off + 4 then Ok None else
  let! v := u32_at b off in Ok (Some (v, off + 4)).

Definition read_sample (b : list Z) (f off : Z) : res (option (trunSample * Z)) :=
  let! d := field b f 0x100 off in
  match d with None => Ok None | Some (d, off) =>
  let! s := field b f 0x200 off in
  match s with None => Ok None | Some (s, off) =>
  let! fl := field b f 0x400 off in
  match fl with None => Ok None | Some (fl, off) =>
  let! c := field b f 0x800 off in
  match c with None => Ok None | Some (c, off) => Ok (Some (mkSample d s fl c, off)) end end end end.

(** The loop of [readTrun]; [n] samples are left. *)
Fixpoint read_samples (fuel : nat) (b : list Z) (f n off : Z) : res (option (list trunSample)) :=
  if n <=? 0 then Ok (Some []) else
  match fuel with
  | O => NoFuel
  | S fuel =>
      let! r := read_sample b f off in
      match r with
      | None => Ok None
      | Some (s, off) =>
          let! more := read_samples fuel b f (n - 1) off in
          Ok (match more with Some l => Some (s :: l) | None => None end)
      end
  end.

(** [readTrun]; the run is what is left of it where it fails. *)
Definition readTrun (r : trackRun) (b : list Z) : res (option trackRun) :=
  if zlen b <? 8 then Ok None else
  let! v := idx b 0 in
  let! f := flags_of b in
  let! count := u32_at b 4 in
  let! o := field b f 0x1 8 in
  match o with
  | None => Ok None
  | Some (o, off) =>
      let dataOff := if bit f 0x1 then int32 o else dataOff r in
      let! fi := field b f 0x4 off in
      match fi with
      | None => Ok None
      | Some (fi, off) =>
          let first := if bit f 0x4 then fi else first r in
          if ((Z.land f 0xF00 =? 0) && (maxTrunSamples <? count))%bool then Ok None else
          let fuel := if Z.land f 0xF00 =? 0 then Z.to_nat count else length b in
          let! ss := read_samples fuel b f count off in
          Ok (match ss with
              | None => None
              | Some ss => Some (set_trun r v f dataOff first (samples r ++ ss))
              end)
      end
  end.

(** The boxes of [parseRun]'s traf: the run and how many truns it had. *)
Fixpoint parse_boxes (bs : list box) (r : trackRun) (runs : Z) : res (option (trackRun * Z)) :=
  match bs with
  | [] => Ok (Some (r, runs))
  | b :: bs =>
      if is_kind "tfhd" b then parse_boxes bs (set_tfhd r (body b)) runs
      else if is_kind "tfdt" b then parse_boxes bs (set_tfdt r (body b)) runs
      else if is_kind "trun" b then
        let! r := readTrun r (body b) in
        match r with Some r => parse_boxes bs r (runs + 1) | None => Ok None end
      else Ok None
  end.

(** The head and the decode time are whole. *)
Definition headed (r : trackRun) : res bool :=
  if ((zlen (tfhd r) <? 8) || (zlen (tfdt r) <? 8))%bool then Ok false else
  let! v := idx (tfdt r) 0 in Ok (negb ((v =? 1) && (zlen (tfdt r) <? 12))%bool).

(** A default of the head, when it is there; [off] moves past it. *)
Definition default_field (b : list Z) (f m off d : Z) : res (Z * bool * Z) :=
  if (bit f m && (off + 4 <=? zlen b))%bool then let! v := u32_at b off in Ok (v, true, off + 4) else Ok (d, false, off).

(** [parseRun] after its boxes: the head's fields. *)
Definition finish (r : trackRun) : res (option trackRun) :=
  let! ok := headed r in
  if negb ok then Ok None else
  let! i := u32_at (tfhd r) 4 in
  let! tf := flags_of (tfhd r) in
  if (bit tf 0x1 || negb (bit tf 0x20000))%bool then Ok None else
  let off := if bit tf 0x2 then 12 else 8 in
  let! ' (d, hd, off) := default_field (tfhd r) tf 0x8 off 0 in
  let! ' (s, hs, _) := default_field (tfhd r) tf 0x10 off 0 in
  let hd := (hd || bit (flags r) 0x100)%bool in
  let hs := (hs || bit (flags r) 0x200)%bool in
  Ok (if bit (flags r) 0x1 then Some (set_defaults r i d s hs hd) else None).

Definition parseRun (traf : list Z) : res (option trackRun) :=
  let! bs := boxes traf in
  let! p := parse_boxes bs no_run 0 in
  match p with
  | None => Ok None
  | Some (r, runs) => if negb (runs =? 1) then Ok None else finish r
  end.

(** [runTiming] *)
Fixpoint timing_boxes (bs : list box) (r : trackRun) : res (option trackRun) :=
  match bs with
  | [] => Ok (Some r)
  | b :: bs =>
      if is_kind "tfhd" b then timing_boxes bs (set_tfhd r (body b))
      else if is_kind "tfdt" b then timing_boxes bs (set_tfdt r (body b))
      else if is_kind "trun" b then
        if negb (zlen (samples r) =? 0) then Ok None else
        let! r := readTrun r (body b) in
        match r with Some r => timing_boxes bs r | None => Ok None end
      else timing_boxes bs r
  end.

Definition runTiming (traf : list Z) : res (option trackRun) :=
  let! bs := boxes traf in
  let! p := timing_boxes bs no_run in
  match p with
  | None => Ok None
  | Some r =>
      let! ok := headed r in
      if negb ok then Ok None else
      let! i := u32_at (tfhd r) 4 in
      let! tf := flags_of (tfhd r) in
      let off := 8 + (if bit tf 0x1 then 8 else 0) + (if bit tf 0x2 then 4 else 0) in
      let! ' (d, _, _) := default_field (tfhd r) tf 0x8 off 0 in
      Ok (Some (set_defaults r i d (defSize r) (hasSizes r) (hasDurs r)))
  end.

Definition decodeTime (r : trackRun) : res Z :=
  let! v := idx (tfdt r) 0 in
  if ((v =? 1) && (12 <=? zlen (tfdt r)))%bool then
    let! s := slice (tfdt r) 4 12 in let! n := uint64 s in Ok (int64 n)
  else u32_at (tfdt r) 4.
Definition sampleDur (r : trackRun) (s : trunSample) : Z := if bit (flags r) 0x100 then dur s else defDur r.
Definition cts (r : trackRun) (s : trunSample) : Z := if version r =? 1 then int32 (scts s) else scts s.
Definition sampleSize (r : trackRun) (s : trunSample) : Z := if bit (flags r) 0x200 then size s else defSize r.

Definition build_sample (f : Z) (s : trunSample) : list Z :=
  (if bit f 0x100 then be32 (dur s) else []) ++ (if bit f 0x200 then be32 (size s) else []) ++
  (if bit f 0x400 then be32 (sflags s) else []) ++ (if bit f 0x800 then be32 (scts s) else []).

Definition build_trun (r : trackRun) (off : Z) : list Z :=
  [version r; wrap8 (Z.shiftr (flags r) 16); wrap8 (Z.shiftr (flags r) 8); wrap8 (flags r)] ++
  be32 (wrap32 (zlen (samples r))) ++ be32 (wrap32 off) ++
  (if bit (flags r) 0x4 then be32 (first r) else []) ++
  concat (map (build_sample (flags r)) (samples r)).

Definition build_body (r : trackRun) (off : Z) : list Z :=
  putBox (lit "tfhd") (tfhd r) ++ putBox (lit "tfdt") (tfdt r) ++ putBox (lit "trun") (build_trun r off).
Definition build (r : trackRun) (off : Z) : list Z := putBox (lit "traf") (build_body r off).


(** ** What a fragment says of time *)

Definition ptsWrap : Z := Z.shiftl 1 33.
Definition ptsDiff (a b : Z) : Z :=
  let d := Z.rem (int64 (a - b)) ptsWrap in
  if Z.quot ptsWrap 2 <=? d then d - ptsWrap
  else if d <? - Z.quot ptsWrap 2 then d + ptsWrap else d.

(** To 90 kHz ticks: [v * 90000 / int64(scale)] *)
Definition ticks (v scale : Z) : Z := Z.quot (int64 (v * 90000)) scale.

(** The run of each video traf with samples, over every moof of a segment. *)
Fixpoint video_runs (trafs : list box) (track : Z) : res (list trackRun) :=
  match trafs with
  | [] => Ok []
  | t :: trafs =>
      if negb (is_kind "traf" t) then video_runs trafs track else
      let! r := runTiming (body t) in
      let! more := video_runs trafs track in
      Ok (match r with
          | Some r => if (negb (id r =? track) || (zlen (samples r) =? 0))%bool then more else r :: more
          | None => more
          end)
  end.
Fixpoint moof_runs (tops : list box) (track : Z) : res (list trackRun) :=
  match tops with
  | [] => Ok []
  | top :: tops =>
      if negb (is_kind "moof" top) then moof_runs tops track else
      let! ts := boxes (body top) in
      let! rs := video_runs ts track in
      let! more := moof_runs tops track in
      Ok (rs ++ more)
  end.

(** The presentation times and durations of a run's samples from [dts] on. *)
Fixpoint presented (r : trackRun) (ss : list trunSample) (dts : Z) : list (Z * Z) :=
  match ss with
  | [] => []
  | s :: ss => (int64 (dts + cts r s), sampleDur r s) :: presented r ss (int64 (dts + sampleDur r s))
  end.
Fixpoint all_presented (rs : list trackRun) : res (list (Z * Z)) :=
  match rs with
  | [] => Ok []
  | r :: rs =>
      let! dts := decodeTime r in
      let! more := all_presented rs in
      Ok (presented r (samples r) dts ++ more)
  end.

Definition earlier (best : option Z) (p : Z * Z) : option Z :=
  match best with
  | None => Some (fst p)
  | Some b => if ptsDiff (fst p) b <? 0 then Some (fst p) else Some b
  end.

Definition firstCompositionOffset (trun : list Z) : res Z :=
  if zlen trun <? 8 then Ok 0 else
  let! version := idx trun 0 in
  let! f := flags_of trun in
  let! n := u32_at trun 4 in
  if (negb (bit f 0x800) || (n =? 0))%bool then Ok 0 else
  let off := 8 + (if bit f 0x1 then 4 else 0) + (if bit f 0x4 then 4 else 0) +
    (if bit f 0x100 then 4 else 0) + (if bit f 0x200 then 4 else 0) + (if bit f 0x400 then 4 else 0) in
  if zlen trun <? off + 4 then Ok 0 else
  let! v := u32_at trun off in
  Ok (if version =? 1 then int32 v else v).

(** The first traf of a track by its head. *)
Fixpoint traf_of (trafs : list box) (track : Z) : res (option (list box * list Z)) :=
  match trafs with
  | [] => Ok None
  | t :: trafs =>
      if negb (is_kind "traf" t) then traf_of trafs track else
      let! bs := boxes (body t) in
      let tfhd := child_of bs "tfhd" in
      if zlen tfhd <? 8 then traf_of trafs track else
      let! i := u32_at tfhd 4 in
      if negb (i =? track) then traf_of trafs track else Ok (Some (bs, tfhd))
  end.

Definition fragmentPTS (seg : list Z) (track scale : Z) : res (option Z) :=
  let! moof := child seg "moof" in
  let! ts := boxes moof in
  let! t := traf_of ts track in
  match t with
  | None => Ok None
  | Some (bs, _) =>
      let tfdt := child_of bs "tfdt" in
      if zlen tfdt <? 8 then Ok None else
      let! v := idx tfdt 0 in
      let! base := if ((v =? 1) && (12 <=? zlen tfdt))%bool
                   then let! s := slice tfdt 4 12 in let! n := uint64 s in Ok (int64 n)
                   else u32_at tfdt 4 in
      let! c := firstCompositionOffset (child_of bs "trun") in
      if scale =? 0 then Panic else Ok (Some (ticks (int64 (base + c)) scale))
  end.

Definition fragmentStart (seg : list Z) (track scale : Z) : res (option Z) :=
  if scale =? 0 then Ok None else
  let! tops := boxes seg in
  let! rs := moof_runs tops track in
  let! ps := all_presented rs in
  match fold_left earlier ps None with
  | None => fragmentPTS seg track scale
  | Some best => Ok (Some (ticks best scale))
  end.

Definition fragmentDecode (frag : list Z) (track scale : Z) : res (option (Z * Z)) :=
  if scale =? 0 then Ok None else
  let! moof := child frag "moof" in
  let! ts := boxes moof in
  let! rs := video_runs ts track in
  match rs with
  | [] => Ok None
  | r :: _ =>
      let! dts := decodeTime r in
      let d := fold_left (fun n s => n + sampleDur r s) (samples r) 0 in
      Ok (Some (ticks dts scale, ticks (int64 (dts + d)) scale))
  end.

Definition defaultSampleDuration (tfhd : list Z) : res (option Z) :=
  if zlen tfhd <? 8 then Ok None else
  let! f := flags_of tfhd in
  if negb (bit f 0x8) then Ok None else
  let off := 8 + (if bit f 0x1 then 8 else 0) + (if bit f 0x2 then 4 else 0) in
  if zlen tfhd <? off + 4 then Ok None else let! v := u32_at tfhd off in Ok (Some v).

Fixpoint dur_loop (fuel : nat) (trun : list Z) (per count off sum : Z) : res (option Z) :=
  if count <=? 0 then Ok (Some sum) else
  match fuel with
  | O => NoFuel
  | S fuel =>
      if zlen trun <? off + 4 then Ok None else
      let! v := u32_at trun off in
      dur_loop fuel trun per (count - 1) (off + per) (sum + v)
  end.

Definition trunDuration (trun : list Z) (def : option Z) : res (option Z) :=
  if zlen trun <? 8 then Ok None else
  let! f := flags_of trun in
  let! count := u32_at trun 4 in
  if count <=? 0 then Ok None else
  if negb (bit f 0x100) then Ok (match def with Some d => Some (int64 (d * count)) | None => None end) else
  let off := 8 + (if bit f 0x1 then 4 else 0) + (if bit f 0x4 then 4 else 0) in
  let per := 4 + (if bit f 0x200 then 4 else 0) + (if bit f 0x400 then 4 else 0) + (if bit f 0x800 then 4 else 0) in
  let! sum := dur_loop (length trun) trun per count off 0 in
  Ok (match sum with Some s => if 0 <? s then Some s else None | None => None end).

Definition fragmentDuration (seg : list Z) (track scale : Z) : res (option Z) :=
  let! moof := child seg "moof" in
  let! ts := boxes moof in
  let! t := traf_of ts track in
  match t with
  | None => Ok None
  | Some (bs, tfhd) =>
      let! def := defaultSampleDuration tfhd in
      let! sum := trunDuration (child_of bs "trun") def in
      Ok (match sum with
          | Some s => if ((s <=? 0) || (scale =? 0))%bool then None else Some (ticks s scale)
          | None => None
          end)
  end.

(** [segmentSpan] of a header and the moofs of a segment: the origin, and the
    start and end of what is shown, against it. *)
Definition span_step (acc : option (Z * Z * Z)) (p : Z * Z) : option (Z * Z * Z) :=
  match acc with
  | None => Some (fst p, 0, snd p)
  | Some (origin, s, e) =>
      let rel := ptsDiff (fst p) origin in
      Some (origin, (if rel <? s then rel else s), (if e <? rel + snd p then rel + snd p else e))
  end.
Definition span_of (init seg : list Z) : res (option (Z * Z)) :=
  let! v := videoTrack init in
  match v with
  | None => Ok None
  | Some (track, scale) =>
      if scale =? 0 then Ok None else
      let! tops := boxes seg in
      let! rs := moof_runs tops track in
      let! ps := all_presented rs in
      Ok (match fold_left span_step ps None with
          | None => None
          | Some (origin, s, e) =>
              if e <=? s then None else
              let start := Z.rem (int64 (origin + s)) ptsWrap in
              let start := if start <? 0 then start + ptsWrap else start in
              Some (ticks start scale, ticks (e - s) scale)
          end)
  end.

(** [readMoofs]: the moof boxes of a file's bytes. *)
Fixpoint readMoofs (fuel : nat) (f : list Z) : res (list Z) :=
  if zlen f <? 8 then Ok [] else
  match fuel with
  | O => NoFuel
  | S fuel =>
      let! size := u32_at f 0 in
      let! kind := slice f 4 8 in
      if ((size =? 1) && (zlen f <? 16))%bool then Ok [] else
      let! ' (size, hdr) :=
        if size =? 1 then let! s := slice f 8 16 in let! n := uint64 s in Ok (int64 n, 16) else Ok (size, 8) in
      if size <? hdr then Ok [] else
      if negb (bytes_equal kind (lit "moof")) then
        (* the file may seek past its end; the next read then finds nothing *)
        (if zlen f <? size then Ok [] else let! more := slice_from f size in readMoofs fuel more)
      else if Z.shiftl 4 20 <? size then Ok []
      else if zlen f <? size then Ok []
      else
        let! box := slice f 0 size in
        let! more := slice_from f size in
        let! out := readMoofs fuel more in
        Ok (box ++ out)
  end.

(** ** Edits in place *)

(** [copy(b[pos:], v)] *)
Definition overwrite (b : list Z) (pos : Z) (v : list Z) : list Z :=
  take (Z.to_nat pos) b ++ v ++ drop (Z.to_nat (pos + zlen v)) b.

(** [shiftTracks] on one traf of a moof whose body starts at [base]. *)
Definition shift_traf (frag : list Z) (shifts : gmap Z Z) (base : Z) (t : box) : res (list Z) :=
  if negb (is_kind "traf" t) then Ok frag else
  let at_ := base + bpos t in
  let! now := slice frag at_ (at_ + zlen (body t)) in
  let! bs := boxes now in
  let tfhd := child_of bs "tfhd" in
  if zlen tfhd <? 8 then Ok frag else
  let! i := u32_at tfhd 4 in
  let d := default 0 (shifts !! i) in
  if d =? 0 then Ok frag else
  match List.find (is_kind "tfdt") bs with
  | None => Ok frag
  | Some x =>
      if zlen (body x) <? 8 then Ok frag else
      let! v := idx (body x) 0 in
      if ((v =? 1) && (12 <=? zlen (body x)))%bool then
        let! s := slice (body x) 4 12 in let! n := uint64 s in
        Ok (overwrite frag (at_ + bpos x + 4) (be64 (wrap64 (int64 (int64 n + d)))))
      else
        let! n := u32_at (body x) 4 in
        Ok (overwrite frag (at_ + bpos x + 4) (be32 (wrap32 (n + d))))
  end.

Fixpoint shift_loop (ts : list box) (frag : list Z) (shifts : gmap Z Z) (base : Z) : res (list Z) :=
  match ts with
  | [] => Ok frag
  | t :: ts => let! frag := shift_traf frag shifts base t in shift_loop ts frag shifts base
  end.

Definition shiftTracks (frag : list Z) (shifts : gmap Z Z) : res (list Z) :=
  if bool_decide (shifts = empty) then Ok frag else
  let! bs := boxes frag in
  match List.find (is_kind "moof") bs with
  | None => Ok frag
  | Some m => let! ts := boxes (body m) in shift_loop ts frag shifts (bpos m)
  end.

(** The walk of [withoutLanguages]. *)
Fixpoint walk (fuel : nat) (b : list Z) : res (list Z) :=
  if zlen b <? 8 then Ok b else
  match fuel with
  | O => NoFuel
  | S fuel =>
      let! size := u32_at b 0 in
      if ((size <? 8) || (zlen b <? size))%bool then Ok b else
      let! head := slice b 0 8 in
      let! kind := slice b 4 8 in
      let! body := slice b 8 size in
      let! rest := slice_from b size in
      let! body' :=
        if existsb (fun k => bytes_equal kind (lit k)) ["moov"; "trak"; "mdia"]%string then walk fuel body
        else if bytes_equal kind (lit "mdhd") then
          let! at_ := if 0 <? zlen body then let! v := idx body 0 in Ok (if v =? 1 then 32 else 20) else Ok 20 in
          Ok (if at_ + 2 <=? zlen body then overwrite body at_ [0x55; 0xc4] else body)
        else Ok body in
      let! rest' := walk fuel rest in
      Ok (head ++ body' ++ rest')
  end.
Definition withoutLanguages (init : list Z) : res (list Z) := walk (length init) init.
Definition sameMedia (a b : list Z) : res bool :=
  let! a := withoutLanguages a in let! b := withoutLanguages b in Ok (bytes_equal a b).

(** ** The first fragment *)

Record cut := mkCut { cat : Z; cn : Z }.

Definition run_size (r : trackRun) (ss : list trunSample) : Z := fold_left (fun n s => n + sampleSize r s) ss 0.

(** [drop]: the run without its first [k] samples, and the cut they make. *)
Definition drop_first (r : trackRun) (k : nat) (at_ : Z) : res (trackRun * cut) :=
  let n := run_size r (take k (samples r)) in
  let ss := drop k (samples r) in
  let! h := slice (tfdt r) 0 4 in
  let! v := idx (tfdt r) 0 in
  let tfdt' := if ((v =? 1) && (12 <=? zlen (tfdt r)))%bool then h ++ be64 (wrap64 at_) else h ++ be32 (wrap32 at_) in
  let! fi := if bit (flags r) 0x4 then let! s := idx ss 0 in Ok (sflags s) else Ok (first r) in
  Ok (set_trun (set_tfdt r tfdt') (version r) (flags r) (dataOff r + n) fi ss, mkCut (dataOff r) n).

(** The first sound of the fragment, in the picture's timescale. *)
Fixpoint sound_start (rs : list trackRun) (video vs : Z) (scales : gmap Z Z) (sound : Z) : res Z :=
  match rs with
  | [] => Ok sound
  | r :: rs =>
      let scale := default 0 (scales !! id r) in
      let! sound :=
        if (negb (id r =? video) && negb (scale =? 0))%bool then
          match samples r with
          | [] => Ok sound
          | s :: _ =>
              let! dts := decodeTime r in
              let at_ := Z.quot (int64 (int64 (dts + cts r s) * vs)) scale in
              Ok (if ((sound <? 0) || (at_ <? sound))%bool then at_ else sound)
          end
        else Ok sound in
      sound_start rs video vs scales sound
  end.

(** The last group of pictures that starts before the sound. *)
Fixpoint group_start (r : trackRun) (ss : list trunSample) (sound at_ : Z) (k from : nat) (fromAt : Z) : nat * Z :=
  match ss with
  | [] => (from, fromAt)
  | s :: ss =>
      let ' (from, fromAt) :=
        if ((0 <? Z.of_nat k) && (Z.land (sflags s) 0x10000 =? 0) && (int64 (at_ + cts r s) <=? sound))%bool
        then (k, at_) else (from, fromAt) in
      group_start r ss sound (int64 (at_ + sampleDur r s)) (S k) from fromAt
  end.

(** The loop over the video runs: the runs, the cuts and the picture's time. *)
Fixpoint cut_video (rs : list trackRun) (video sound : Z) (first_ : bool) (cuts : list cut) (picture : Z) :
    res (list trackRun * list cut * Z) :=
  match rs with
  | [] => Ok ([], cuts, picture)
  | r :: rs =>
      let! ' (r, cuts, picture) :=
        if (negb (id r =? video) || (zlen (samples r) =? 0) || negb first_)%bool then Ok (r, cuts, picture)
        else
          let! ' (r, cuts) :=
            if ((0 <=? sound) && bit (flags r) 0x400)%bool then
              let! dts := decodeTime r in
              let ' (from, fromAt) := group_start r (samples r) sound dts 0 0 0 in
              if 0 <? Z.of_nat from then
                let! ' (r, c) := drop_first r from fromAt in Ok (r, cuts ++ [c])
              else Ok (r, cuts)
            else Ok (r, cuts) in
          let! dts := decodeTime r in
          let! s := idx (samples r) 0 in
          Ok (r, cuts, int64 (dts + cts r s)) in
      let! ' (rs, cuts, picture) := cut_video rs video sound first_ cuts picture in
      Ok (r :: rs, cuts, picture)
  end.

(** How many samples start before [before], and when the next one does. *)
Fixpoint lead_in (r : trackRun) (ss : list trunSample) (before at_ : Z) (k : nat) : nat * Z :=
  match ss with
  | [] => (k, at_)
  | s :: ss =>
      if int64 (at_ + cts r s) <? before then lead_in r ss before (int64 (at_ + sampleDur r s)) (S k) else (k, at_)
  end.

(** One sound run: what is left of it, its cut, and whether it is gone. *)
Definition cut_sound (r : trackRun) (nruns video vs picture : Z) (scales : gmap Z Z) :
    res (trackRun * list cut * bool) :=
  let scale := default 0 (scales !! id r) in
  if ((id r =? video) || (scale =? 0))%bool then Ok (r, [], false) else
  let before := Z.quot (int64 (picture * scale)) vs in
  let! dts := decodeTime r in
  let ' (k, at_) := lead_in r (samples r) before dts 0 in
  if ((Z.of_nat k =? zlen (samples r)) && (1 <? nruns))%bool then
    Ok (r, [mkCut (dataOff r) (run_size r (samples r))], true)
  else
    let! ' (k, at_) :=
      if Z.of_nat k =? zlen (samples r) then
        let! s := idx (samples r) (Z.of_nat k - 1) in Ok ((k - 1)%nat, int64 (at_ - sampleDur r s))
      else Ok (k, at_) in
    if 0 <? Z.of_nat k then let! ' (r, c) := drop_first r k at_ in Ok (r, [c], false) else Ok (r, [], false).

Fixpoint cut_sounds (rs : list trackRun) (nruns video vs picture : Z) (scales : gmap Z Z) (cuts : list cut) :
    res (list (trackRun * bool) * list cut) :=
  match rs with
  | [] => Ok ([], cuts)
  | r :: rs =>
      let! ' (r, c, gone) := cut_sound r nruns video vs picture scales in
      let! ' (rs, cuts) := cut_sounds rs nruns video vs picture scales (cuts ++ c) in
      Ok ((r, gone) :: rs, cuts)
  end.

(** A run's data offset in the new fragment; [lost] is what the moof shrank by. *)
Definition new_offset (cuts : list cut) (lost : Z) (r : trackRun) : Z :=
  fold_left (fun o c => if cat c <? dataOff r then o - cn c else o) cuts (dataOff r - lost).

Definition moof_body (mfhd : list Z) (rs : list (trackRun * bool)) (offset : trackRun -> Z) : list Z :=
  putBox (lit "mfhd") mfhd ++
  concat (map (fun x => if snd x : bool then [] else build (fst x) (offset (fst x))) rs).

(** The media without the cuts, the last one first. *)
Fixpoint cut_media (cuts : list cut) (moofSize : Z) (mdat : list Z) : option (list Z) :=
  match cuts with
  | [] => Some mdat
  | c :: cuts =>
      let start := cat c - moofSize - 8 in
      if ((start <? 0) || (zlen mdat <? start + cn c))%bool then None
      else cut_media cuts moofSize (take (Z.to_nat start) mdat ++ drop (Z.to_nat (start + cn c)) mdat)
  end.

Definition cut_lt (a b : cut) : bool := cat a <? cat b.

(** The boxes of the moof: its header and runs, or [None] for another layout. *)
Fixpoint moof_parts (bs : list box) (mfhd : list Z) : res (option (list Z * list trackRun)) :=
  match bs with
  | [] => Ok (Some (mfhd, []))
  | b :: bs =>
      if is_kind "mfhd" b then moof_parts bs (body b)
      else if is_kind "traf" b then
        let! r := parseRun (body b) in
        match r with
        | None => Ok None
        | Some r =>
            if (negb (hasDurs r) || negb (hasSizes r))%bool then Ok None else
            let! more := moof_parts bs mfhd in
            Ok (match more with Some (m, rs) => Some (m, r :: rs) | None => None end)
        end
      else Ok None
  end.

(** The end of [trimLeadInFrom]: the fragment without the cuts. *)
Definition rebuild (frag mfhd mdat : list Z) (moofSize : Z) (rs : list (trackRun * bool)) (cuts : list cut) :
    option (list Z) :=
  let newMoof := 8 + zlen (moof_body mfhd rs (fun _ => 0)) in
  match cut_media (reverse (sort_by cut_lt cuts)) moofSize mdat with
  | None => None
  | Some mdat =>
      Some (putBox (lit "moof") (moof_body mfhd rs (new_offset cuts (moofSize - newMoof))) ++ putBox (lit "mdat") mdat)
  end.

(** The layout [trimLeadInFrom] asks for: one moof of whole runs and its mdat. *)
Definition fragment_parts (frag : list Z) : res (option (Z * list Z * list trackRun * list Z)) :=
  let! top := boxes frag in
  match top with
  | [moof; mdat] =>
      if (negb (is_kind "moof" moof) || negb (is_kind "mdat" mdat))%bool then Ok None else
      let! s0 := u32_at frag 0 in
      let moofSize := 8 + zlen (body moof) in
      if ((s0 =? 1) || (zlen frag <? moofSize + 8))%bool then Ok None else
      let! s1 := u32_at frag moofSize in
      if s1 =? 1 then Ok None else
      let! bs := boxes (body moof) in
      let! parts := moof_parts bs [] in
      Ok (match parts with Some (mfhd, rs) => Some (moofSize, mfhd, rs, body mdat) | None => None end)
  | _ => Ok None
  end.

Definition trimLeadInFrom (frag : list Z) (video : Z) (scales : gmap Z Z) (floor : Z) : res (list Z * Z * bool) :=
  let! parts := fragment_parts frag in
  match parts with
  | None => Ok (frag, floor, false)
  | Some (moofSize, mfhd, rs, mdat) =>
      let vs := default 0 (scales !! video) in
      if vs =? 0 then Ok (frag, floor, false) else
      let! sound := sound_start rs video vs scales (-1) in
      let! ' (rs, cuts, picture) := cut_video rs video sound (floor <? 0) [] floor in
      if picture <? 0 then Ok (frag, picture, false) else
      let! ' (rs, cuts) := cut_sounds rs (zlen rs) video vs picture scales cuts in
      let soundGone := forallb (fun x => (id (fst x) =? video) || snd x)%bool rs in
      if zlen cuts =? 0 then Ok (frag, picture, soundGone)
      else Ok (match rebuild frag mfhd mdat moofSize rs cuts with
               | Some out => (out, picture, soundGone)
               | None => (frag, picture, false)
               end)
  end.

Definition trimLeadIn (frag : list Z) (video : Z) (scales : gmap Z Z) : res (list Z) :=
  let! r := trimLeadInFrom frag video scales (-1) in Ok (fst (fst r)).

(** ** Numbers and boxes, written and read *)

Lemma be32_read w : 0 <= w < 2 ^ 32 -> uint32 (be32 w) = Ok w.
Proof.
  intros Hw. unfold uint32, be32. cbn [rbind].
  change (idx _ 3) with (Ok (wrap8 w)). change (idx _ 0) with (Ok (wrap8 (Z.shiftr w 24))).
  change (idx _ 1) with (Ok (wrap8 (Z.shiftr w 16))). change (idx _ 2) with (Ok (wrap8 (Z.shiftr w 8))).
  cbn [rbind]. f_equal. rewrite !be16_eq by apply wrap8_ok. unfold wrap8. rewrite !Z.shiftr_div_pow2 by lia.
  change (2 ^ 24) with 16777216. change (2 ^ 16) with 65536. change (2 ^ 8) with 256. dlia.
Qed.

Lemma be32_len w : zlen (be32 w) = 4.
Proof. done. Qed.

Lemma be32_ok w : bytes_ok (be32 w).
Proof. unfold be32. repeat (apply bytes_ok_cons; [apply wrap8_ok |]). constructor. Qed.

Lemma take_zlen_app {A} (a b : list A) : take (length a) (a ++ b) = a.
Proof. rewrite take_app_le by lia. by apply take_ge. Qed.

Lemma u32_parts a w c i : zlen a = i -> 0 <= w < 2 ^ 32 -> u32_at (a ++ be32 w ++ c) i = Ok w.
Proof. intros Hi Hw. unfold u32_at. rewrite slice_parts by (done || rewrite be32_len; lia). by apply be32_read. Qed.

(** A box that can be written: four bytes of kind and a 32-bit size. *)
Definition box_ok (b : list Z * list Z) : Prop := zlen (fst b) = 4 /\ 8 + zlen (snd b) < 2 ^ 32.
Definition put (b : list Z * list Z) : list Z := putBox (fst b) (snd b).
Definition content (b : box) : list Z * list Z := (bkind b, body b).

Lemma putBox_len k b : zlen k = 4 -> zlen (putBox k b) = 8 + zlen b.
Proof. intros Hk. unfold putBox. rewrite !zlen_app, be32_len. lia. Qed.

Lemma boxes_loop_put fuel k b rest off :
  zlen k = 4 -> 8 + zlen b < 2 ^ 32 ->
  boxes_loop (S fuel) (putBox k b ++ rest) off =
    (let! out := boxes_loop fuel rest (off + (8 + zlen b)) in Ok (mkBox k b (off + 8) :: out)).
Proof.
  intros Hk Hb. pose proof (zlen_nonneg b). pose proof (zlen_nonneg rest). cbn [boxes_loop].
  assert (zlen (putBox k b ++ rest) = 8 + zlen b + zlen rest) as Hl by (rewrite zlen_app, putBox_len; lia).
  rewrite Hl. replace (8 + zlen b + zlen rest <? 8) with false by lia.
  unfold putBox. rewrite <- !app_assoc.
  rewrite (u32_parts [] (8 + zlen b) (k ++ b ++ rest) 0 eq_refl ltac:(lia) : u32_at (be32 _ ++ _) 0 = _). cbn [rbind].
  rewrite (slice_parts (be32 (8 + zlen b)) k (b ++ rest) 4 8) by (done || lia). cbn [rbind].
  replace (8 + zlen b =? 1) with false by lia. cbn [andb rbind].
  replace (8 + zlen b =? 0) with false by lia. replace (8 + zlen b <? 8) with false by lia.
  replace (8 + zlen b + zlen rest <? 8 + zlen b) with false by lia. cbn [orb].
  rewrite (app_assoc (be32 _) k).
  rewrite (slice_parts (be32 (8 + zlen b) ++ k) b rest 8 (8 + zlen b)) by (rewrite ?zlen_app, ?be32_len; lia). cbn [rbind].
  rewrite (app_assoc _ b).
  rewrite (slice_from_parts ((be32 (8 + zlen b) ++ k) ++ b) rest) by (rewrite !zlen_app, be32_len; lia). done.
Qed.

Lemma boxes_loop_reads l fuel off :
  Forall box_ok l -> zlen (concat (map put l)) <= Z.of_nat fuel ->
  returns (boxes_loop fuel (concat (map put l)) off) (fun bs => map content bs = l).
Proof.
  intros Hl. revert fuel off. induction Hl as [| [k b] l [Hk Hb] Hl IH]; intros fuel off Hf; cbn [map concat].
  { by destruct fuel. }
  cbn [fst snd] in *. pose proof (zlen_nonneg b). cbn [map concat put fst snd] in Hf. rewrite zlen_app in Hf.
  unfold put in Hf at 1. cbn [fst snd] in Hf. rewrite putBox_len in Hf by done.
  pose proof (zlen_nonneg (concat (map put l))). destruct fuel as [| fuel]; [lia |].
  unfold put at 1. cbn [fst snd]. rewrite boxes_loop_put by done. apply returns_bind.
  eapply returns_mono; [apply IH; lia |]. intros bs E. cbn. by rewrite E.
Qed.

(** Boxes written one after another are read back. *)
Lemma boxes_reads l : Forall box_ok l -> returns (boxes (concat (map put l))) (fun bs => map content bs = l).
Proof. intros. apply boxes_loop_reads; [done | unfold zlen; lia]. Qed.

(** ** A run, built and parsed *)

Definition u32_ok (w : Z) : Prop := 0 <= w < 2 ^ 32.
Definition field_ok (f m v : Z) : Prop := u32_ok v /\ (bit f m = false -> v = 0).
Definition sample_ok (f : Z) (s : trunSample) : Prop :=
  field_ok f 0x100 (dur s) /\ field_ok f 0x200 (size s) /\ field_ok f 0x400 (sflags s) /\ field_ok f 0x800 (scts s).
Definition put_field (f m v : Z) : list Z := if bit f m then be32 v else [].

Lemma field_reads a c f m v off :
  zlen a = off -> field_ok f m v ->
  field (a ++ put_field f m v ++ c) f m off = Ok (Some (v, off + zlen (put_field f m v))).
Proof.
  intros Ha [Hv H0]. unfold field, put_field. pose proof (zlen_nonneg c). destruct (bit f m) eqn:E; cbn [negb].
  - rewrite !zlen_app, be32_len. replace (zlen a + (4 + zlen c) <? off + 4) with false by lia.
    rewrite u32_parts by done. done.
  - by rewrite H0, Z.add_0_r by done.
Qed.

Lemma sample_reads a c f s off :
  zlen a = off -> sample_ok f s ->
  read_sample (a ++ build_sample f s ++ c) f off = Ok (Some (s, off + zlen (build_sample f s))).
Proof.
  intros Ha (H1 & H2 & H3 & H4). unfold read_sample, build_sample. fold (put_field f 0x100 (dur s)).
  fold (put_field f 0x200 (size s)). fold (put_field f 0x400 (sflags s)). fold (put_field f 0x800 (scts s)).
  rewrite <- !app_assoc. rewrite (field_reads a) by done. cbn [rbind].
  rewrite (app_assoc a). rewrite (field_reads (a ++ _)) by (rewrite ?zlen_app; done || lia). cbn [rbind].
  rewrite (app_assoc (a ++ _)). rewrite (field_reads ((a ++ _) ++ _)) by (rewrite ?zlen_app; done || lia). cbn [rbind].
  rewrite (app_assoc ((a ++ _) ++ _)).
  rewrite (field_reads (((a ++ _) ++ _) ++ _)) by (rewrite ?zlen_app; done || lia). cbn [rbind].
  rewrite !zlen_app, !Z.add_assoc. by destruct s.
Qed.

Lemma samples_read ss a c f fuel off :
  zlen a = off -> Forall (sample_ok f) ss -> (length ss <= fuel)%nat ->
  read_samples fuel (a ++ concat (map (build_sample f) ss) ++ c) f (zlen ss) off = Ok (Some ss).
Proof.
  intros Ha Hs. revert a off fuel Ha. induction Hs as [| s ss Hs Hss IH]; intros a off fuel Ha Hf.
  { by destruct fuel. }
  destruct fuel as [| fuel]; [cbn in Hf; lia |]. cbn [read_samples map concat]. rewrite zlen_cons.
  pose proof (zlen_nonneg ss). replace (zlen ss + 1 <=? 0) with false by lia. rewrite <- app_assoc.
  rewrite sample_reads by done. cbn [rbind]. replace (zlen ss + 1 - 1) with (zlen ss) by lia.
  rewrite (app_assoc a). rewrite IH by (rewrite ?zlen_app; cbn in Hf; lia). done.
Qed.

(** A run that has fields for its samples has four bytes for each. *)
Lemma sample_bytes f s : Z.land f 0xF00 <> 0 -> (4 <= length (build_sample f s))%nat.
Proof.
  intros Hf. unfold build_sample. rewrite !length_app.
  destruct (bit f 0x100) eqn:E1, (bit f 0x200) eqn:E2, (bit f 0x400) eqn:E3, (bit f 0x800) eqn:E4; cbn [length be32]; try lia.
  exfalso. apply Hf. unfold bit in *. change 0xF00 with (Z.lor (Z.lor (Z.lor 0x100 0x200) 0x400) 0x800).
  rewrite !Z.land_lor_distr_r. replace (Z.land f 0x100) with 0 by lia. replace (Z.land f 0x200) with 0 by lia.
  replace (Z.land f 0x400) with 0 by lia. replace (Z.land f 0x800) with 0 by lia. done.
Qed.

Lemma samples_bytes f ss :
  Z.land f 0xF00 <> 0 -> (length ss <= length (concat (map (build_sample f) ss)))%nat.
Proof.
  intros Hf. induction ss as [| s ss IH]; [done |]. cbn [map concat length]. rewrite length_app.
  pose proof (sample_bytes f s Hf). lia.
Qed.

Definition bare (r : trackRun) : trackRun := set_defaults r 0 0 0 false false.

(** What [parseRun] gives: its head read, and fields within their widths, zero where absent. *)
Record run_ok (r : trackRun) : Prop := mkRunOk {
  run_finish : finish (bare r) = Ok (Some r);
  run_version : byte_ok (version r);
  run_flags : 0 <= flags r < 2 ^ 24;
  run_first : field_ok (flags r) 0x4 (first r);
  run_samples : Forall (sample_ok (flags r)) (samples r);
  run_count : zlen (samples r) < 2 ^ 32;
  run_bare : Z.land (flags r) 0xF00 = 0 -> zlen (samples r) <= maxTrunSamples
}.

Definition set_dataOff (r : trackRun) (off : Z) : trackRun :=
  set_trun r (version r) (flags r) off (first r) (samples r).

Lemma flags_parts v f c : 0 <= f < 2 ^ 24 -> 
  flags_of ([v; wrap8 (Z.shiftr f 16); wrap8 (Z.shiftr f 8); wrap8 f] ++ c) = Ok f.
Proof.
  intros Hf. unfold flags_of. change (idx _ 1) with (Ok (wrap8 (Z.shiftr f 16))).
  change (idx _ 2) with (Ok (wrap8 (Z.shiftr f 8))). change (idx _ 3) with (Ok (wrap8 f)). cbn [rbind]. f_equal.
  rewrite !be16_eq by apply wrap8_ok. unfold wrap8. rewrite !Z.shiftr_div_pow2 by lia.
  change (2 ^ 16) with 65536. change (2 ^ 8) with 256. dlia.
Qed.

Lemma finish_flag r r' : finish (bare r) = Ok (Some r') -> bit (flags r) 0x1 = true.
Proof.
  unfold finish. cbn [tfhd tfdt flags bare set_defaults].
  destruct (headed _) as [ok | |]; cbn [rbind]; [| done..]. destruct (negb ok); [done |].
  destruct (u32_at _ 4); cbn [rbind]; [| done..]. destruct (flags_of _) as [tf | |]; cbn [rbind]; [| done..].
  destruct (_ || _)%bool; [done |]. destruct (default_field _ _ 0x8 _ _) as [[[d hd] o] | |]; cbn [rbind]; [| done..].
  destruct (default_field _ _ 0x10 _ _) as [[[s hs] o'] | |]; cbn [rbind]; [| done..].
  by destruct (bit (flags r) 0x1).
Qed.

(** The trun that [build] writes is read back into any run that has no samples. *)
Lemma trun_reads r r0 off :
  run_ok r -> samples r0 = [] -> first r0 = 0 ->
  readTrun r0 (build_trun r off) =
    Ok (Some (set_trun r0 (version r) (flags r) (int32 (wrap32 off)) (first r) (samples r))).
Proof.
  intros [Hfin Hv Hf Hfi Hs Hc Hb] Hs0 Hf0. pose proof (finish_flag _ _ Hfin) as H1. unfold readTrun.
  set (b := build_trun r off).
  assert (zlen b = 12 + zlen (put_field (flags r) 0x4 (first r)) + zlen (concat (map (build_sample (flags r)) (samples r)))) as Hl
    by (unfold b, build_trun; rewrite !zlen_app, !be32_len; cbn [zlen length]; unfold put_field; change (zlen [_; _; _; _]) with 4; lia).
  pose proof (zlen_nonneg (put_field (flags r) 0x4 (first r))).
  pose proof (zlen_nonneg (concat (map (build_sample (flags r)) (samples r)))). pose proof (zlen_nonneg (samples r)).
  replace (zlen b <? 8) with false by lia. change (idx b 0) with (Ok (version r)). cbn [rbind].
  unfold b at 1, build_trun at 1. rewrite flags_parts by done. cbn [rbind].
  set (h := [version r; wrap8 (Z.shiftr (flags r) 16); wrap8 (Z.shiftr (flags r) 8); wrap8 (flags r)]).
  assert (wrap32 (zlen (samples r)) = zlen (samples r)) as Hn by (unfold wrap32; rewrite Z.mod_small; lia).
  assert (field_ok (flags r) 0x1 (wrap32 off)) as Hoff
    by (split; [unfold u32_ok, wrap32; apply Z.mod_pos_bound; lia | by rewrite H1]).
  assert (zlen (put_field (flags r) 0x1 (wrap32 off)) = 4) as Hp1 by (unfold put_field; by rewrite H1).
  assert (b = h ++ be32 (zlen (samples r)) ++ put_field (flags r) 0x1 (wrap32 off) ++ put_field (flags r) 0x4 (first r) ++
    concat (map (build_sample (flags r)) (samples r)) ++ []) as Eb
    by (unfold b, build_trun, put_field; rewrite H1, Hn, app_nil_r; done).
  assert (u32_at b 4 = Ok (zlen (samples r))) as -> by (rewrite Eb; apply u32_parts; [done | lia]). cbn [rbind].
  assert (field b (flags r) 0x1 8 = Ok (Some (wrap32 off, 12))) as ->.
  { rewrite Eb, (app_assoc h). rewrite field_reads by done. by rewrite Hp1. }
  cbn [rbind]. rewrite H1.
  assert (field b (flags r) 0x4 12 = Ok (Some (first r, 12 + zlen (put_field (flags r) 0x4 (first r))))) as ->.
  { rewrite Eb, (app_assoc h), (app_assoc (h ++ _)). apply field_reads; [| done].
    rewrite zlen_app, Hp1. done. }
  cbn [rbind]. replace (if bit (flags r) 4 then first r else first r0) with (first r)
    by (destruct (bit (flags r) 4) eqn:E4; [done | rewrite Hf0; by apply Hfi]).
  replace ((Z.land (flags r) 0xF00 =? 0) && (maxTrunSamples <? zlen (samples r)))%bool with false
    by (destruct (Z.land (flags r) 0xF00 =? 0) eqn:E; [cbn; specialize (Hb ltac:(lia)); lia | done]).
  match goal with |- context [read_samples ?fuel b] => set (fu := fuel) end.
  assert ((length (samples r) <= fu)%nat) as Hfu.
  { unfold fu. destruct (Z.land (flags r) 0xF00 =? 0) eqn:E; [unfold zlen; lia |].
    pose proof (samples_bytes (flags r) (samples r) ltac:(lia)). unfold zlen in *. lia. }
  clearbody fu. rewrite Eb, (app_assoc h), (app_assoc (h ++ _)), (app_assoc ((h ++ _) ++ _)).
  rewrite samples_read; [by rewrite Hs0 | | done | done].
  rewrite (zlen_app ((h ++ _) ++ _)), (zlen_app (h ++ _)), Hp1. done.
Qed.

(** ** What is parsed is well formed *)

Lemma returns_u32_at b i (Q : Z -> Prop) :
  bytes_ok b -> 0 <= i -> i + 4 <= zlen b -> (forall v, u32_ok v -> Q v) -> returns (u32_at b i) Q.
Proof.
  intros Hb Hi Hl HQ. unfold u32_at. go_step. go_step. apply returns_uint32; [done | lia | exact HQ].
Qed.

Lemma field_sound b f m off :
  bytes_ok b -> 0 <= off <= zlen b ->
  returns (field b f m off) (fun r => match r with
    | Some (v, off') => field_ok f m v /\ off' = off + zlen (put_field f m v) /\ off' <= zlen b
    | None => True end).
Proof.
  intros Hb Ho. unfold field, put_field, field_ok. destruct (bit f m) eqn:E; cbn [negb].
  - go_step; [done |]. apply returns_bind, returns_u32_at; [done | lia | lia |]. intros v Hv.
    split_and!; [done | done | by rewrite be32_len | lia].
  - split_and!; [unfold u32_ok; lia | done | change (zlen []) with 0; lia | lia].
Qed.

Lemma sample_sound b f off :
  bytes_ok b -> 0 <= off <= zlen b ->
  returns (read_sample b f off) (fun r => match r with
    | Some (s, off') => sample_ok f s /\ off' = off + zlen (build_sample f s) /\ off' <= zlen b
    | None => True end).
Proof.
  intros Hb Ho. unfold read_sample.
  apply returns_bind. eapply returns_mono; [by apply field_sound |]. intros [[d o1] |]; [| done]. intros (Hf1 & -> & Hl1).
  pose proof (zlen_nonneg (put_field f 0x100 d)).
  apply returns_bind. eapply returns_mono; [apply field_sound; [done | lia] |]. intros [[s o2] |]; [| done]. intros (Hf2 & -> & Hl2).
  pose proof (zlen_nonneg (put_field f 0x200 s)).
  apply returns_bind. eapply returns_mono; [apply field_sound; [done | lia] |]. intros [[fl o3] |]; [| done]. intros (Hf3 & -> & Hl3).
  pose proof (zlen_nonneg (put_field f 0x400 fl)).
  apply returns_bind. eapply returns_mono; [apply field_sound; [done | lia] |]. intros [[c o4] |]; [| done]. intros (Hf4 & -> & Hl4).
  split; [done |]. unfold build_sample. cbn [dur size sflags scts]. rewrite !zlen_app. unfold put_field in *. lia.
Qed.

Lemma samples_sound fuel b f n off :
  bytes_ok b -> 0 <= off <= zlen b ->
  n <= Z.of_nat fuel \/ (Z.land f 0xF00 <> 0 /\ zlen b < off + 4 * Z.of_nat fuel) ->
  returns (read_samples fuel b f n off) (fun r => match r with
    | Some ss => Forall (sample_ok f) ss /\ zlen ss = Z.max 0 n /\ off + zlen (concat (map (build_sample f) ss)) <= zlen b
    | None => True end).
Proof.
  intros Hb. revert n off. induction fuel as [| fuel IH]; intros n off Ho Hf; cbn [read_samples];
    destruct (n <=? 0) eqn:E; try lia.
  1,2: split; [constructor |]; change (zlen (@nil trunSample)) with 0; change (zlen (concat _)) with 0; lia.
  apply returns_bind. eapply returns_mono; [by apply sample_sound |]. intros [[s off'] |]; [| done].
  intros (Hs & -> & Hl). pose proof (zlen_nonneg (build_sample f s)).
  apply returns_bind. eapply returns_mono.
  { apply IH; [lia |]. destruct Hf as [Hf | [Hf Hlb]]; [left; lia | right]. split; [done |].
    pose proof (sample_bytes f s Hf). unfold zlen in *. lia. }
  intros [ss |]; [| done]. intros (Hss & Hn & Hls). cbn [returns map concat]. rewrite zlen_cons, zlen_app.
  split; [by constructor |]. lia.
Qed.

Definition run_lens (r : trackRun) : Z := zlen (tfhd r) + zlen (tfdt r) + zlen (build_trun r 0).

Lemma build_trun_len r off : zlen (build_trun r off) = zlen (build_trun r 0).
Proof. unfold build_trun. by rewrite !zlen_app, !be32_len. Qed.

(** What [readTrun] leaves in a run. *)
Record trun_ok (r : trackRun) : Prop := mkTrunOk {
  trun_version : byte_ok (version r);
  trun_flags : 0 <= flags r < 2 ^ 24;
  trun_first : field_ok (flags r) 0x4 (first r);
  trun_samples : Forall (sample_ok (flags r)) (samples r);
  trun_count : zlen (samples r) < 2 ^ 32;
  trun_bare : Z.land (flags r) 0xF00 = 0 -> zlen (samples r) <= maxTrunSamples
}.

Lemma readTrun_sound r b :
  bytes_ok b ->
  returns (readTrun r b) (fun q => match q with
    | Some q => tfhd q = tfhd r /\ tfdt q = tfdt r /\ q = set_trun r (version q) (flags q) (dataOff q) (first q) (samples q) /\
        (samples r = [] -> first r = 0 -> trun_ok q /\ zlen (build_trun q 0) <= zlen b + 4)
    | None => True end).
Proof.
  intros Hb. unfold readTrun. go_step; [done |]. do 2 go_step. apply returns_bind.
  apply (returns_mono _ (fun f => 0 <= f < 2 ^ 24)).
  { unfold flags_of. go_steps. blia. }
  intros f Hf. apply returns_bind, returns_u32_at; [done | lia | lia |]. intros count Hcount. unfold u32_ok in Hcount.
  apply returns_bind. eapply returns_mono; [apply field_sound; [done | lia] |]. intros [[o off] |]; [| done].
  intros (_ & -> & Hl1). pose proof (zlen_nonneg (put_field f 0x1 o)).
  apply returns_bind. eapply returns_mono; [apply field_sound; [done | lia] |]. intros [[fi off] |]; [| done].
  intros (Hfi & -> & Hl2). pose proof (zlen_nonneg (put_field f 0x4 fi)). go_step; [done |].
  match goal with Hb : (_ && _)%bool = false |- _ => rename Hb into Hbare end.
  apply returns_bind. eapply returns_mono.
  { apply samples_sound; [done | lia |]. destruct (Z.land f 0xF00 =? 0) eqn:E0; [left; lia | right; unfold zlen in *; lia]. }
  intros [ss |]; [| done]. intros (Hss & Hn & Hlen). cbn [returns]. split_and!; [done | done | done |].
  intros Hs0 Hf0. rewrite Hs0. cbn [app]. split.
  - constructor; cbn; [done | done | | done | lia |].
    + destruct (bit f 4) eqn:E4; [done |]. rewrite Hf0. split; [unfold u32_ok; lia | done].
    + intros E. rewrite E in Hbare. cbn in Hbare. lia.
  - unfold build_trun. cbn [version flags samples first set_trun]. rewrite !zlen_app, !be32_len.
    change (zlen [_; _; _; _]) with 4. unfold put_field in *.
    replace (if bit f 4 then fi else first r) with fi by (destruct (bit f 4) eqn:E4; [done | rewrite Hf0; by apply Hfi]). lia.
Qed.

Lemma uint64_total b : bytes_ok b -> 8 <= zlen b -> returns (uint64 b) (fun v => 0 <= v < 2 ^ 64).
Proof.
  intros Hb Hl. unfold uint64. go_step. go_step. apply returns_bind, returns_uint32; [done | lia |]. intros hi Hhi.
  go_step. go_step. apply returns_bind, returns_uint32; [done | lia |]. intros lo Hlo. cbn [returns]. lia.
Qed.

Definition box_in (n : Z) (x : box) : Prop :=
  bytes_ok (body x) /\ zlen (bkind x) = 4 /\ 0 <= bpos x /\ bpos x + zlen (body x) <= n.

Lemma boxes_loop_total fuel b off :
  bytes_ok b -> zlen b <= Z.of_nat fuel -> 0 <= off ->
  returns (boxes_loop fuel b off) (Forall (box_in (off + zlen b))).
Proof.
  revert b off. induction fuel as [| fuel IH]; intros b off Hb Hf Ho; cbn [boxes_loop];
    (destruct (zlen b <? 8) eqn:E8; [constructor |]); [lia |].
  apply returns_bind, returns_u32_at; [done | lia | lia |]. intros size Hs. unfold u32_ok in Hs. do 2 go_step.
  apply returns_bind. apply (returns_mono _ (fun r => snd r = 8 \/ snd r = 16)).
  { go_step; [| by left]. do 2 go_step. apply returns_bind.
    eapply returns_mono; [apply uint64_total; [done | lia] |]. by right. }
  intros [sz head] Hhead. cbn [snd] in Hhead. cbv zeta. set (sz' := if sz =? 0 then zlen b else sz). clearbody sz'.
  destruct (_ || _)%bool eqn:E; [constructor |]. apply orb_false_iff in E as [E1 E2].
  do 4 go_step. apply returns_bind. eapply returns_mono; [apply IH; [done | lia | lia] |].
  intros out Hout. apply Forall_cons. split.
  - split_and!; cbn; [done | lia | lia | lia].
  - eapply Forall_impl; [exact Hout |]. intros x (? & ? & ? & ?). split_and!; [done | done | done | lia].
Qed.

Lemma boxes_total b : bytes_ok b -> returns (boxes b) (Forall (box_in (zlen b))).
Proof. intros Hb. eapply returns_mono; [apply boxes_loop_total; [done | unfold zlen; lia | lia] |]. done. Qed.

Lemma box_in_small n x : box_in n x -> zlen (body x) <= n.
Proof. intros (_ & _ & ? & ?). lia. Qed.

Lemma bare_set r b : bare r = r -> bare (set_tfhd r b) = set_tfhd r b /\ bare (set_tfdt r b) = set_tfdt r b.
Proof. destruct r. unfold bare. cbn. intros [= <- <- <- <- <-]. done. Qed.

Lemma bare_set_trun r v f o fi ss : bare r = r -> bare (set_trun r v f o fi ss) = set_trun r v f o fi ss.
Proof. destruct r. unfold bare. cbn. by intros [= <- <- <- <- <-]. Qed.

(** A run between two boxes of its traf. *)
Record half_run (n : Z) (r : trackRun) (runs : Z) : Prop := mkHalfRun {
  half_runs : 0 <= runs;
  half_bare : bare r = r;
  half_tfhd : bytes_ok (tfhd r) /\ zlen (tfhd r) <= n;
  half_tfdt : bytes_ok (tfdt r) /\ zlen (tfdt r) <= n;
  half_none : runs = 0 -> samples r = [] /\ first r = 0;
  half_one : runs = 1 -> trun_ok r /\ zlen (build_trun r 0) <= n + 4
}.

Lemma parse_boxes_total n bs r runs :
  0 <= n -> Forall (box_in n) bs -> half_run n r runs ->
  returns (parse_boxes bs r runs) (fun p => match p with Some (r', runs') => half_run n r' runs' | None => True end).
Proof.
  intros Hn Hbs. revert r runs. induction Hbs as [| x bs Hx Hbs IH]; intros r runs Hr; [done |]. cbn [parse_boxes].
  pose proof (box_in_small n x Hx) as Hl. destruct Hx as (Hxb & _).
  destruct (is_kind "tfhd" x); [| destruct (is_kind "tfdt" x); [| destruct (is_kind "trun" x); [| done]]].
  - apply IH. destruct Hr. constructor; [done | by apply (bare_set r (body x)) | by split | done | done |].
    intros E. destruct (half_one0 E) as [[] ?]. split; [by constructor | done].
  - apply IH. destruct Hr. constructor; [done | by apply (bare_set r (body x)) | done | by split | done |].
    intros E. destruct (half_one0 E) as [[] ?]. split; [by constructor | done].
  - apply returns_bind. eapply returns_mono; [by apply readTrun_sound |]. intros [q |]; [| done].
    intros (E1 & E2 & E3 & Hq). apply IH. destruct Hr. constructor; [lia | | by rewrite E1 | by rewrite E2 | lia |].
    + rewrite E3. by apply bare_set_trun.
    + intros E. destruct (half_none0 ltac:(lia)) as [? ?]. destruct (Hq ltac:(done) ltac:(done)). split; [done | lia].
Qed.

Lemma flags_of_total b : bytes_ok b -> 4 <= zlen b -> returns (flags_of b) (fun f => 0 <= f < 2 ^ 24).
Proof. intros Hb Hl. unfold flags_of. go_steps. blia. Qed.

Lemma headed_total r :
  bytes_ok (tfdt r) ->
  returns (headed r) (fun ok => ok = true -> 8 <= zlen (tfhd r) /\ 8 <= zlen (tfdt r)).
Proof. intros Hb. unfold headed. go_step; [done |]. do 2 go_step. cbn. lia. Qed.

Lemma default_field_total b f m off d :
  bytes_ok b -> 0 <= off -> returns (default_field b f m off d) (fun r => 0 <= snd r).
Proof.
  intros Hb Ho. unfold default_field. go_step; [| done]. apply returns_bind, returns_u32_at; [done | lia | lia |].
  intros v _. cbn. lia.
Qed.

Lemma finish_total r :
  bytes_ok (tfhd r) -> bytes_ok (tfdt r) ->
  returns (finish r) (fun p => match p with Some q => exists i d s hs hd, q = set_defaults r i d s hs hd | None => True end).
Proof.
  intros Hh Ht. unfold finish. apply returns_bind. eapply returns_mono; [by apply headed_total |].
  intros ok Hok. go_step; [done |]. destruct ok; [| done]. destruct (Hok eq_refl) as [H8 _].
  apply returns_bind, returns_u32_at; [done | lia | lia |]. intros i _. apply returns_bind.
  eapply returns_mono; [apply flags_of_total; [done | lia] |]. intros tf _. go_step; [done |].
  apply returns_bind. eapply returns_mono; [apply default_field_total; [done | case_match; lia] |].
  intros [[d hd] off] Ho. cbn [snd] in Ho. apply returns_bind.
  eapply returns_mono; [by apply default_field_total |]. intros [[s hs] off'] _. cbn [returns].
  destruct (bit (flags r) 1); [| done]. by repeat eexists.
Qed.

Lemma parseRun_sound traf :
  bytes_ok traf ->
  returns (parseRun traf) (fun p => match p with
    | Some r => run_ok r /\ bytes_ok (tfhd r) /\ bytes_ok (tfdt r) /\ run_lens r <= 3 * zlen traf + 4
    | None => True end).
Proof.
  intros Hb. pose proof (zlen_nonneg traf). unfold parseRun. apply returns_bind. eapply returns_mono; [by apply boxes_total |].
  intros bs Hbs. apply returns_bind. eapply returns_mono.
  { apply (parse_boxes_total (zlen traf)); [lia | done |].
    constructor; cbn; try done; [split; [apply bytes_ok_nil | unfold zlen; cbn; lia] | split; [apply bytes_ok_nil | unfold zlen; cbn; lia]]. }
  intros [[r runs] |]; [| done]. intros [Hn Hbare [Hh Hlh] [Ht Hlt] _ H1]. go_step; [done |].
  destruct (H1 ltac:(lia)) as [[? ? ? ? ? ?] Hlb].
  pose proof (finish_total r Hh Ht) as Hf. destruct (finish r) as [p | |] eqn:Ef; [| done..]. cbn [returns] in *.
  destruct p as [q |]; [| done]. destruct Hf as (i & d & s & hs & hd & ->).
  split; [| split_and!; [done | done | change (run_lens (set_defaults r i d s hs hd)) with (run_lens r); unfold run_lens; lia]].
  constructor; try done.
Qed.

(** The head does not see the trun. *)
Lemma finish_trun r v o fi ss :
  finish (set_trun r v (flags r) o fi ss) =
    (let! p := finish r in Ok (option_map (fun q => set_trun q v (flags q) o fi ss) p)).
Proof.
  unfold finish, headed. cbn [tfhd tfdt flags set_trun].
  destruct (if _ : bool then _ else _) as [ok | |]; cbn [rbind]; [| done..]. destruct (negb ok); [done |].
  destruct (u32_at _ 4); cbn [rbind]; [| done..]. destruct (flags_of _) as [tf | |]; cbn [rbind]; [| done..].
  destruct (_ || _)%bool; [done |]. destruct (default_field _ _ 0x8 _ _) as [[[d hd] o1] | |]; cbn [rbind]; [| done..].
  destruct (default_field _ _ 0x10 _ _) as [[[s hs] o2] | |]; cbn [rbind]; [| done..].
  by destruct (bit (flags r) 0x1).
Qed.

(** What [build] writes, [parseRun] reads: the run, with the offset it was given. *)
Lemma build_parse r off :
  run_ok r -> run_lens r < 2 ^ 31 ->
  parseRun (build_body r off) = Ok (Some (set_dataOff r (int32 (wrap32 off)))).
Proof.
  intros Hr Hl. unfold run_lens in Hl. pose proof (zlen_nonneg (tfhd r)). pose proof (zlen_nonneg (tfdt r)).
  pose proof (zlen_nonneg (build_trun r 0)).
  assert (build_body r off = concat (map put [(lit "tfhd", tfhd r); (lit "tfdt", tfdt r); (lit "trun", build_trun r off)])) as ->
    by (unfold build_body, put; cbn; by rewrite app_nil_r).
  unfold parseRun.
  assert (returns (boxes (concat (map put [(lit "tfhd", tfhd r); (lit "tfdt", tfdt r); (lit "trun", build_trun r off)])))
    (fun bs => map content bs = [(lit "tfhd", tfhd r); (lit "tfdt", tfdt r); (lit "trun", build_trun r off)])) as Hbs.
  { apply boxes_reads. repeat (apply Forall_cons; split; [split; cbn [fst snd]; [done | rewrite ?build_trun_len; lia] |]). constructor. }
  destruct (boxes _) as [bs | |]; [| done..]. cbn [returns rbind] in *.
  destruct bs as [| [k1 b1 p1] [| [k2 b2 p2] [| [k3 b3 p3] [| ]]]]; try done. injection Hbs as -> -> -> -> -> ->.
  cbn [parse_boxes]. change (is_kind _ (mkBox (lit "tfhd") _ p1)) with true at 1. cbn [parse_boxes].
  change (is_kind "tfhd" (mkBox (lit "tfdt") (tfdt r) p2)) with false.
  change (is_kind "tfdt" (mkBox (lit "tfdt") (tfdt r) p2)) with true.
  change (is_kind "tfhd" (mkBox (lit "trun") (build_trun r off) p3)) with false.
  change (is_kind "tfdt" (mkBox (lit "trun") (build_trun r off) p3)) with false.
  change (is_kind "trun" (mkBox (lit "trun") (build_trun r off) p3)) with true. cbv iota. cbn [body].
  rewrite (trun_reads r) by done. cbn [rbind parse_boxes].
  change (negb (0 + 1 =? 1)) with false. cbv iota.
  assert (set_trun (set_tfdt (set_tfhd no_run (tfhd r)) (tfdt r)) (version r) (flags r) (int32 (wrap32 off)) (first r) (samples r) =
    set_trun (bare r) (version r) (flags (bare r)) (int32 (wrap32 off)) (first r) (samples r)) as -> by done.
  rewrite finish_trun, (run_finish _ Hr). done.
Qed.

(** What [parseRun] reads from a track fragment, [build] writes back: the
    boxes it writes for any 32-bit data offset parse to the same run, every
    sample, default and decode time of it, with that offset. *)
Theorem run_roundtrip traf r off :
  bytes_ok traf -> 3 * zlen traf + 4 < 2 ^ 31 -> - 2 ^ 31 <= off < 2 ^ 31 ->
  parseRun traf = Ok (Some r) -> parseRun (build_body r off) = Ok (Some (set_dataOff r off)).
Proof.
  intros Hb Hl Ho Hp. pose proof (parseRun_sound traf Hb) as H. rewrite Hp in H. destruct H as (Hr & _ & _ & Hlen).
  rewrite build_parse by (done || lia). replace (int32 (wrap32 off)) with off; [done |].
  unfold int32, wrap32. dlia.
Qed.

(** A traf of an encoder: defaults in the head, a first sample's flags, sizes per sample. *)
Definition ex_traf : list Z :=
  putBox (lit "tfhd") ([0; 2; 0; 24] ++ be32 7 ++ be32 512 ++ be32 100) ++
  putBox (lit "tfdt") ([0; 0; 0; 0] ++ be32 90000) ++
  putBox (lit "trun") ([1; 0; 10; 5] ++ be32 2 ++ be32 120 ++ be32 0x2000000 ++ be32 30 ++ be32 0 ++ be32 40 ++ be32 (2 ^ 32 - 512)).
Definition ex_parsed : trackRun :=
  match parseRun ex_traf with Ok (Some r) => r | _ => no_run end.

Lemma run_roundtrip_witness :
  parseRun ex_traf = Ok (Some ex_parsed) /\ samples ex_parsed <> [] /\
  parseRun (build_body ex_parsed (-4)) = Ok (Some (set_dataOff ex_parsed (-4))).
Proof.
  split; [reflexivity |]. split; [done |].
  apply (run_roundtrip ex_traf ex_parsed (-4)); [bytes_dec | vm_compute; reflexivity | lia | reflexivity].
Defined.
