(* ===== verification/Fmp4Trim.v ===== *)
(** The trimming of a fragment keeps the media it does not cut: the lead-in's
    runs, cuts and offsets of [server/internal/live/fmp4.go], and the new
    fragment read back. *)
From stdpp Require Import sorting.
From S2P Require Import Prelude GoText Fmp4.
Local Open Scope Z_scope.
Local Open Scope go_scope.

(** ** Cutting the media *)

(** What the cuts before [x] take away. *)
Fixpoint cut_sum (cuts : list cut) (x : Z) : Z :=
  match cuts with
  | [] => 0
  | c :: cuts => (if cat c <? x then cn c else 0) + cut_sum cuts x
  end.

(** The cuts from the last to the first, none into another. *)
Definition after (c d : cut) : Prop := cat d <= cat c /\ (cn c = 0 \/ cn d = 0 \/ cat d + cn d <= cat c).
Definition cut_in (base m : Z) (c : cut) : Prop := 0 <= cn c /\ base <= cat c /\ cat c + cn c <= base + m.
(** [n] bytes from [x] on are in no cut. *)
Definition spared (x n : Z) (c : cut) : Prop := cn c = 0 \/ x + n <= cat c \/ cat c + cn c <= x.

Lemma cut_sum_moved cuts c x :
  Forall (after c) cuts -> Forall (fun d => 0 <= cn d) cuts -> 0 < cn c -> cat c + cn c <= x ->
  cut_sum cuts (x - cn c) = cut_sum cuts x.
Proof.
  intros Ha Hn Hc Hx. induction Ha as [| d cuts [H1 H2] Ha IH]; [done |]. apply Forall_cons in Hn as [Hd Hn].
  cbn [cut_sum]. rewrite IH by done. destruct (cat d <? x - cn c) eqn:E1, (cat d <? x) eqn:E2; lia.
Qed.

(** The media past a cut. *)
Lemma take_drop_before {A} (m : list A) (s e p n : nat) :
  (p + n <= s)%nat -> (s <= length m)%nat -> take n (drop p (take s m ++ drop e m)) = take n (drop p m).
Proof.
  intros Hp Hs. rewrite drop_app_le by (rewrite length_take; lia).
  rewrite take_app_le by (rewrite length_drop, length_take; lia).
  rewrite !take_drop_commute, take_take. f_equal. f_equal. lia.
Qed.

Lemma drop_after {A} (m : list A) (s e p : nat) :
  (s <= length m)%nat -> (e <= p)%nat -> (s <= e)%nat -> drop (p - (e - s)) (take s m ++ drop e m) = drop p m.
Proof.
  intros Hs Hp He. rewrite drop_app_ge by (rewrite length_take; lia). rewrite drop_drop. f_equal.
  rewrite length_take. lia.
Qed.

Lemma cut_media_keeps cuts moofSize m x n :
  StronglySorted after cuts -> Forall (cut_in (moofSize + 8) (zlen m)) cuts ->
  0 <= n -> moofSize + 8 <= x -> x + n <= moofSize + 8 + zlen m -> Forall (spared x n) cuts ->
  exists m', cut_media cuts moofSize m = Some m' /\
    moofSize + 8 <= x - cut_sum cuts x /\ x - cut_sum cuts x + n <= moofSize + 8 + zlen m' /\
    take (Z.to_nat n) (drop (Z.to_nat (x - cut_sum cuts x - (moofSize + 8))) m') =
      take (Z.to_nat n) (drop (Z.to_nat (x - (moofSize + 8))) m).
Proof.
  intros Hs. revert m x. induction Hs as [| c cuts Hs IH Ha]; intros m x Hin Hn Hx1 Hx2 Hsp.
  { exists m. cbn. rewrite Z.sub_0_r. split_and!; done || lia. }
  apply Forall_cons in Hin as [(Hc0 & Hc1 & Hc2) Hin]. apply Forall_cons in Hsp as [Hc Hsp].
  cbn [cut_media]. set (s := cat c - moofSize - 8) in *.
  replace ((s <? 0) || (zlen m <? s + cn c))%bool with false by (unfold s; lia).
  set (m1 := take (Z.to_nat s) m ++ drop (Z.to_nat (s + cn c)) m).
  assert (zlen m1 = zlen m - cn c) as Hm1
    by (unfold m1, s; rewrite zlen_app, zlen_take, zlen_drop; pose proof (zlen_nonneg m); lia).
  assert (Forall (cut_in (moofSize + 8) (zlen m1)) cuts) as Hin1.
  { clear -Hin Ha Hm1 Hc0 Hc2. induction Ha as [| d cuts [? ?] Ha IH]; [constructor |].
    apply Forall_cons in Hin as [(? & ? & ?) Hin]. constructor; [unfold cut_in; lia | by apply IH]. }
  cbn [cut_sum].
  assert (cn c = 0 \/ 0 < cn c) as [E0 | Hpos] by lia.
  - assert (m1 = m) as Em by (unfold m1; rewrite E0, Z.add_0_r; apply take_drop).
    replace ((if cat c <? x then cn c else 0) + cut_sum cuts x) with (cut_sum cuts x) by (case_match; lia). rewrite Em.
    apply IH; [by rewrite <- Em | done..].
  - destruct Hc as [? | [Hb | Hafter]]; [lia | |].
    + replace (cat c <? x) with false by lia. rewrite Z.add_0_l.
      destruct (IH m1 x) as (m' & E & ? & ? & Et); [done | done | done | lia | done |].
      exists m'. split_and!; [done | done | done |]. rewrite Et. apply take_drop_before; unfold s, zlen in *; lia.
    + replace (cat c <? x) with true by lia.
      assert (Forall (fun d => 0 <= cn d) cuts) as Hnn by (eapply Forall_impl; [exact Hin |]; by intros d (? & _)).
      pose proof (cut_sum_moved cuts c x Ha Hnn Hpos Hafter) as Emoved.
      destruct (IH m1 (x - cn c)) as (m' & E & H1 & H2 & Et); [done | done | lia | lia | |].
      { clear -Ha Hnn Hafter Hpos. induction Ha as [| d cuts [? ?] Ha IH]; [constructor |].
        apply Forall_cons in Hnn as [? Hnn]. constructor; [unfold spared; lia | by apply IH]. }
      exists m'. rewrite Emoved in *. split_and!; [done | lia | lia |].
      replace (x - (cn c + cut_sum cuts x)) with (x - cn c - cut_sum cuts x) by lia. rewrite Et. f_equal.
      replace (Z.to_nat (x - cn c - (moofSize + 8))) with
        (Z.to_nat (x - (moofSize + 8)) - (Z.to_nat (s + cn c) - Z.to_nat s))%nat by (unfold s; lia).
      apply drop_after; unfold s, zlen in *; lia.
Qed.

Lemma cut_sum_perm a b x : a ≡ₚ b -> cut_sum a x = cut_sum b x.
Proof. induction 1; cbn; repeat case_match; lia. Qed.

Lemma new_offset_sum cuts lost r : new_offset cuts lost r = dataOff r - lost - cut_sum cuts (dataOff r).
Proof.
  unfold new_offset. generalize (dataOff r - lost) as o. induction cuts as [| c cuts IH]; intros o; cbn [fold_left cut_sum fold_right].
  { lia. }
  change (fold_right _ 0 cuts) with (cut_sum cuts (dataOff r)). rewrite IH. destruct (cat c <? dataOff r); lia.
Qed.

#[global] Instance cut_lt_weak : WeakOrder cut_lt.
Proof. unfold cut_lt. constructor; intros; lia. Qed.

(** ** A run without its first samples *)

(** A run that [parseRun] gave. *)
Definition run_wf (r : trackRun) : Prop := run_ok r /\ bytes_ok (tfhd r) /\ bytes_ok (tfdt r).
Definition run_durs (r : trackRun) (ss : list trunSample) : Z := fold_left (fun n s => n + sampleDur r s) ss 0.

Lemma default_field_value b f m off d :
  bytes_ok b -> 0 <= off -> 0 <= d -> returns (default_field b f m off d) (fun r => 0 <= fst (fst r) /\ 0 <= snd r).
Proof.
  intros Hb Ho Hd. unfold default_field. go_step; [| done]. apply returns_bind, returns_u32_at; [done | lia | lia |].
  intros v [? _]. cbn. lia.
Qed.

Lemma run_ok_headed r : run_ok r -> headed r = Ok true.
Proof.
  intros [Hf _ _ _ _ _ _]. unfold finish in Hf. change (headed (bare r)) with (headed r) in Hf.
  destruct (headed r) as [[] | |]; done.
Qed.

Lemma run_wf_defSize r : run_wf r -> 0 <= defSize r.
Proof.
  intros (Hr & Hh & Ht). pose proof (run_ok_headed _ Hr) as Hok. destruct Hr as [Hf _ _ _ _ _ _].
  pose proof (headed_total r Ht) as H8. rewrite Hok in H8. destruct (H8 eq_refl) as [H8' _].
  assert (returns (finish (bare r)) (fun p => match p with Some q => 0 <= defSize q | None => True end)) as Hs;
    [| by rewrite Hf in Hs].
  unfold finish. change (headed (bare r)) with (headed r). rewrite Hok. cbn [rbind negb tfhd tfdt flags bare set_defaults].
  apply returns_bind, returns_u32_at; [done | lia | lia |]. intros i _. apply returns_bind.
  eapply returns_mono; [apply flags_of_total; [done | lia] |]. intros tf _. go_step; [done |].
  apply returns_bind. eapply returns_mono; [apply default_field_total; [done | case_match; lia] |].
  intros [[d hd] off] Ho. cbn [snd] in Ho. apply returns_bind.
  eapply returns_mono; [apply default_field_value; [done | done | lia] |]. intros [[s hs] off'] [Hs _]. cbn [returns].
  by destruct (bit (flags r) 1).
Qed.

Lemma fold_sum_app {A} (f : A -> Z) (a b : list A) x :
  fold_left (fun n s => n + f s) (a ++ b) x = fold_left (fun n s => n + f s) a x + fold_left (fun n s => n + f s) b 0.
Proof.
  assert (forall l y, fold_left (fun n s => n + f s) l y = y + fold_left (fun n s => n + f s) l 0) as H.
  { intros l. induction l as [| s l IH]; intros y; cbn [fold_left]; [lia |]. rewrite (IH (y + f s)), (IH (0 + f s)). lia. }
  by rewrite fold_left_app, H.
Qed.

Lemma run_size_app r a b : run_size r (a ++ b) = run_size r a + run_size r b.
Proof. apply fold_sum_app. Qed.

Lemma run_size_nonneg r ss : run_wf r -> Forall (sample_ok (flags r)) ss -> 0 <= run_size r ss.
Proof.
  intros Hr. pose proof (run_wf_defSize r Hr) as Hd. induction 1 as [| s ss Hs Hss IH]; [done |].
  change (s :: ss) with ([s] ++ ss). rewrite run_size_app. enough (0 <= run_size r [s]) by lia.
  unfold run_size, sampleSize. cbn. destruct Hs as (_ & ([? _] & _) & _). destruct (bit _ _); lia.
Qed.

Lemma run_size_split r k :
  run_size r (samples r) = run_size r (take k (samples r)) + run_size r (drop k (samples r)).
Proof. by rewrite <- run_size_app, take_drop. Qed.

(** The head is read whatever the decode time. *)
Lemma finish_tfdt r b : headed r = Ok true -> headed (set_tfdt r b) = Ok true ->
  finish (set_tfdt r b) = (let! p := finish r in Ok (option_map (fun q => set_tfdt q b) p)).
Proof.
  intros H1 H2. unfold finish. rewrite H1, H2. cbn [rbind negb tfhd flags set_tfdt].
  destruct (u32_at _ 4); cbn [rbind]; [| done..]. destruct (flags_of _) as [tf | |]; cbn [rbind]; [| done..].
  destruct (_ || _)%bool; [done |]. destruct (default_field _ _ 0x8 _ _) as [[[d hd] o1] | |]; cbn [rbind]; [| done..].
  destruct (default_field _ _ 0x10 _ _) as [[[s hs] o2] | |]; cbn [rbind]; [| done..].
  by destruct (bit (flags r) 0x1).
Qed.

Lemma headed_facts r :
  headed r = Ok true ->
  8 <= zlen (tfhd r) /\ 8 <= zlen (tfdt r) /\ exists v, idx (tfdt r) 0 = Ok v /\ (v = 1 -> 12 <= zlen (tfdt r)).
Proof.
  unfold headed. destruct (_ || _)%bool eqn:E; [done |]. destruct (idx _ 0) as [v | |] eqn:Ev; [| done..]. cbn [rbind].
  intros [= H]. split_and!; [lia | lia |]. exists v. split; [done | lia].
Qed.

(** The decode time that [drop] writes. *)
Definition later_tfdt (b : list Z) (v at_ : Z) : list Z :=
  take 4 b ++ (if v =? 1 then be64 (wrap64 at_) else be32 (wrap32 at_)).

Lemma later_tfdt_facts b v at_ :
  bytes_ok b -> 8 <= zlen b -> idx b 0 = Ok v -> (v = 1 -> 12 <= zlen b) ->
  bytes_ok (later_tfdt b v at_) /\ idx (later_tfdt b v at_) 0 = Ok v /\
  zlen (later_tfdt b v at_) = (if v =? 1 then 12 else 8) /\ zlen (later_tfdt b v at_) <= zlen b.
Proof.
  intros Hb Hl Hv H1. assert (zlen (take 4 b) = 4) as H4 by (rewrite zlen_take; lia).
  assert (zlen (later_tfdt b v at_) = if v =? 1 then 12 else 8) as Hlen.
  { unfold later_tfdt. rewrite zlen_app, H4. by destruct (v =? 1). }
  split_and!; [| | done |].
  - unfold later_tfdt. apply bytes_ok_app; [by apply bytes_ok_take |]. destruct (v =? 1); [apply bytes_ok_app |]; apply be32_ok.
  - destruct b as [| v0 b]; [rewrite zlen_nil in Hl; lia |]. change (idx (v0 :: b) 0) with (Ok v0) in Hv. by injection Hv as ->.
  - rewrite Hlen. destruct (v =? 1) eqn:E; lia.
Qed.

Lemma be32_uint32 w : uint32 (be32 (wrap32 w)) = Ok (wrap32 w).
Proof. apply be32_read. unfold wrap32. apply Z.mod_pos_bound. lia. Qed.

Lemma wrap8_wrap32 z k : 0 <= k <= 24 -> wrap8 (Z.shiftr (wrap32 z) k) = wrap8 (Z.shiftr z k).
Proof.
  intros Hk. unfold wrap8, wrap32. apply Z.bits_inj'. intros n Hn. destruct (decide (n < 8)).
  - rewrite !Z.mod_pow2_bits_low, !Z.shiftr_spec, Z.mod_pow2_bits_low by lia. done.
  - by rewrite !Z.mod_pow2_bits_high by lia.
Qed.

Lemma be64_read w : uint64 (be64 w) = Ok (wrap64 w).
Proof.
  unfold uint64, be64. set (hi := Z.shiftr (wrap64 w) 32).
  assert (0 <= wrap64 w < 2 ^ 64) as Hw by (unfold wrap64; apply Z.mod_pos_bound; lia).
  change (slice _ 0 4) with (Ok (be32 hi)). change (slice _ 4 8) with (Ok (be32 (wrap64 w))). cbn [rbind].
  assert (hi = wrap64 w / 2 ^ 32) as Ehi by (unfold hi; by rewrite Z.shiftr_div_pow2). clearbody hi.
  rewrite (be32_read hi) by (rewrite Ehi; split; [apply Z.div_pos; lia | apply Z.div_lt_upper_bound; lia]). cbn [rbind].
  assert (be32 (wrap64 w) = be32 (wrap32 (wrap64 w))) as ->.
  { unfold be32. rewrite !wrap8_wrap32 by lia. pose proof (wrap8_wrap32 (wrap64 w) 0 ltac:(lia)) as E0.
    rewrite !Z.shiftr_0_r in E0. by rewrite E0. }
  rewrite be32_uint32. cbn [rbind]. f_equal. rewrite Ehi. unfold wrap32. dlia.
Qed.

Lemma int64_wrap z : int64 (wrap64 z) = int64 z.
Proof. unfold int64, wrap64. dlia. Qed.

Lemma decode_later r v at_ :
  idx (tfdt r) 0 = Ok v -> 8 <= zlen (tfdt r) ->
  (v = 1 -> 12 <= zlen (tfdt r)) -> bytes_ok (tfdt r) ->
  decodeTime (set_tfdt r (later_tfdt (tfdt r) v at_)) = Ok (if v =? 1 then int64 at_ else wrap32 at_).
Proof.
  intros Hv Hl H1 Hb. destruct (later_tfdt_facts (tfdt r) v at_ Hb Hl Hv H1) as (_ & E0 & Elen & _).
  unfold decodeTime. cbn [tfdt set_tfdt]. rewrite E0. cbn [rbind].
  assert (zlen (take 4 (tfdt r)) = 4) as H4 by (rewrite zlen_take; lia). rewrite Elen. unfold later_tfdt.
  destruct (v =? 1) eqn:E.
  - change (12 <=? 12) with true. cbn [andb].
    rewrite <- (app_nil_r (be64 _)) at 1. rewrite slice_parts by (done || rewrite H4; reflexivity). cbn [rbind].
    rewrite be64_read. cbn [rbind]. f_equal. unfold int64, wrap64. dlia.
  - cbn [andb]. rewrite <- (app_nil_r (be32 _)). unfold u32_at. rewrite slice_parts by done. cbn [rbind].
    apply be32_uint32.
Qed.

(** What [drop] leaves of a run: [at_] is when its first sample now starts. *)
Record dropped (r : trackRun) (k : nat) (at_ : Z) (r' : trackRun) : Prop := mkDropped {
  dropped_wf : run_wf r';
  dropped_id : id r' = id r;
  dropped_samples : samples r' = drop k (samples r);
  dropped_off : dataOff r' = dataOff r + run_size r (take k (samples r));
  dropped_size : run_size r' = run_size r;
  dropped_has : hasDurs r' = hasDurs r /\ hasSizes r' = hasSizes r;
  dropped_len : run_lens r' <= run_lens r;
  dropped_time : exists v, idx (tfdt r) 0 = Ok v /\ decodeTime r' = Ok (if v =? 1 then int64 at_ else wrap32 at_)
}.

Lemma concat_drop_len {A B} (f : A -> list B) (l : list A) k :
  zlen (concat (map f (drop k l))) <= zlen (concat (map f l)).
Proof.
  rewrite <- (take_drop k l) at 2. rewrite map_app, concat_app, zlen_app.
  pose proof (zlen_nonneg (concat (map f (take k l)))). lia.
Qed.

Lemma drop_first_dropped r k at_ :
  run_wf r -> (k < length (samples r))%nat ->
  returns (drop_first r k at_) (fun p =>
    dropped r k at_ (fst p) /\ snd p = mkCut (dataOff r) (run_size r (take k (samples r)))).
Proof.
  intros Hwf Hk. pose proof Hwf as (Hr & Hh & Ht). pose proof (run_ok_headed r Hr) as Hok.
  destruct (headed_facts r Hok) as (H1 & H2 & v & Hv & H12).
  destruct (later_tfdt_facts (tfdt r) v at_ Ht H2 Hv H12) as (Hb & H0 & Hlen & Hle).
  unfold drop_first. rewrite slice_Ok by lia. cbn [rbind]. rewrite Hv. cbn [rbind].
  change (drop (Z.to_nat 0) (tfdt r)) with (tfdt r). change (Z.to_nat (4 - 0)) with 4%nat.
  assert ((if ((v =? 1) && (12 <=? zlen (tfdt r)))%bool then take 4 (tfdt r) ++ be64 (wrap64 at_)
    else take 4 (tfdt r) ++ be32 (wrap32 at_)) = later_tfdt (tfdt r) v at_) as ->.
  { unfold later_tfdt. destruct (v =? 1) eqn:E; [| done]. replace (12 <=? _) with true by lia. done. }
  destruct (lookup_lt_is_Some_2 (samples r) k Hk) as [s Hs].
  assert (sample_ok (flags r) s) as Hsok by (eapply Forall_lookup_1; [apply Hr | done]).
  assert (idx (drop k (samples r)) 0 = Ok s) as Hi by (apply idx_Ok; [lia |]; rewrite lookup_drop, Nat.add_0_r; done).
  assert (exists fi, (if bit (flags r) 4 then let! s := idx (drop k (samples r)) 0 in Ok (sflags s) else Ok (first r)) = Ok fi
    /\ field_ok (flags r) 0x4 fi) as (fi & -> & Hfi).
  { destruct (bit (flags r) 4) eqn:E; [| exists (first r); split; [done | apply Hr]].
    rewrite Hi. exists (sflags s). split; [done |]. split; [apply Hsok | by rewrite E]. }
  cbn [rbind returns fst snd]. split; [| done].
  set (r' := set_trun _ _ _ _ _ _).
  assert (headed (set_tfdt r (later_tfdt (tfdt r) v at_)) = Ok true) as Hok'.
  { unfold headed. cbn [tfhd tfdt set_tfdt]. rewrite Hlen.
    replace ((zlen (tfhd r) <? 8) || ((if v =? 1 then 12 else 8) <? 8))%bool with false by (destruct (v =? 1); lia).
    rewrite H0. cbn [rbind]. by destruct (v =? 1). }
  constructor; try done.
  - split; [| done]. destruct Hr as [Hf ? ? ? Hss ? Hbare]. constructor; try done.
    + change (bare r') with (set_trun (set_tfdt (bare r) (later_tfdt (tfdt r) v at_)) (version r)
        (flags (set_tfdt (bare r) (later_tfdt (tfdt r) v at_))) (dataOff r') fi (drop k (samples r))).
      rewrite finish_trun. rewrite finish_tfdt by done. rewrite Hf. done.
    + by apply Forall_drop.
    + cbn [samples set_trun r']. rewrite zlen_drop. pose proof (zlen_nonneg (samples r)). lia.
    + intros E. cbn [samples set_trun r']. rewrite zlen_drop. pose proof (zlen_nonneg (samples r)).
      specialize (Hbare E). lia.
  - unfold run_lens, build_trun. cbn [tfhd tfdt flags first samples version set_trun set_tfdt r'].
    rewrite !zlen_app, !be32_len. pose proof (concat_drop_len (build_sample (flags r)) (samples r) k).
    replace (zlen (if bit (flags r) 4 then be32 fi else [])) with (zlen (if bit (flags r) 4 then be32 (first r) else []))
      by (by destruct (bit (flags r) 4)). lia.
  - exists v. split; [done |]. by apply (decode_later r v at_).
Qed.

(** ** The cuts the trimming makes *)

(** What the trimming does to one run: nothing, all of it gone, or its first [k]
    samples dropped and its decode time moved by theirs. *)
Inductive trim1 (r : trackRun) : trackRun -> bool -> list cut -> Prop :=
  | trim_same : trim1 r r false []
  | trim_gone : trim1 r r true [mkCut (dataOff r) (run_size r (samples r))]
  | trim_some k t r' :
      (k < length (samples r))%nat -> decodeTime r = Ok t ->
      dropped r k (int64 (t + run_durs r (take k (samples r)))) r' ->
      trim1 r r' false [mkCut (dataOff r) (run_size r (take k (samples r)))].

Lemma run_durs_app r a b : run_durs r (a ++ b) = run_durs r a + run_durs r b.
Proof. apply fold_sum_app. Qed.

Lemma int64_add x y : int64 (int64 x + y) = int64 (x + y).
Proof. unfold int64. dlia. Qed.
Lemma int64_sub x y : int64 (int64 x - y) = int64 (x - y).
Proof. unfold int64. dlia. Qed.

Lemma decodeTime_total r : run_wf r -> returns (decodeTime r) (fun t => int64 t = t).
Proof.
  intros (Hr & _ & Ht). destruct (headed_facts r (run_ok_headed r Hr)) as (_ & H2 & v & Hv & H12).
  unfold decodeTime. rewrite Hv. cbn [rbind]. go_step.
  - do 2 go_step. apply returns_bind. eapply returns_mono; [apply uint64_total; [done | lia] |].
    intros n _. cbn [returns]. unfold int64. dlia.
  - apply returns_u32_at; [done | lia | lia |]. intros n Hn. unfold u32_ok, int64 in *. dlia.
Qed.

(** A sample where a run can start, and when. *)
Definition at_sample (r : trackRun) (t : Z) (S : list trunSample) (k : nat) (at_ : Z) : Prop :=
  (k < length S)%nat /\ at_ = int64 (t + run_durs r (take k S)).

Lemma group_start_at r t ss pre sound from fromAt :
  from = O \/ at_sample r t (pre ++ ss) from fromAt ->
  let p := group_start r ss sound (int64 (t + run_durs r pre)) (length pre) from fromAt in
  fst p = O \/ at_sample r t (pre ++ ss) (fst p) (snd p).
Proof.
  revert pre from fromAt. induction ss as [| s ss IH]; intros pre from fromAt H; cbn [group_start]; [done |].
  set (q := if _ : bool then _ else _).
  assert (fst q = O \/ at_sample r t (pre ++ s :: ss) (fst q) (snd q)) as Hq.
  { unfold q. case_match; [| done]. right. cbn. split; [rewrite length_app; cbn; lia |].
    by rewrite take_app_length. }
  destruct q as [f fa]. specialize (IH (pre ++ [s]) f fa). rewrite <- app_assoc in IH. specialize (IH Hq).
  rewrite length_app, Nat.add_1_r in IH. rewrite int64_add, <- Z.add_assoc.
  rewrite run_durs_app in IH. exact IH.
Qed.

Lemma lead_in_at r t ss pre before :
  let p := lead_in r ss before (int64 (t + run_durs r pre)) (length pre) in
  (fst p <= length (pre ++ ss))%nat /\ snd p = int64 (t + run_durs r (take (fst p) (pre ++ ss))).
Proof.
  revert pre. induction ss as [| s ss IH]; intros pre; cbn [lead_in].
  { cbn. rewrite app_nil_r, firstn_all. done. }
  case_match.
  - specialize (IH (pre ++ [s])). rewrite <- app_assoc, length_app, Nat.add_1_r in IH.
    rewrite int64_add, <- Z.add_assoc. rewrite run_durs_app in IH. exact IH.
  - cbn. rewrite take_app_length, length_app. split; [lia | done].
Qed.

Definition video_step (video : Z) (r r' : trackRun) (cs : list cut) : Prop :=
  if id r =? video then trim1 r r' false cs else r' = r /\ cs = [].
Definition sound_step (video : Z) (r : trackRun) (x : trackRun * bool) (cs : list cut) : Prop :=
  if id r =? video then x = (r, false) /\ cs = [] else trim1 r (fst x) (snd x) cs.

Lemma video_same video r : video_step video r r [].
Proof. unfold video_step. destruct (id r =? video); [constructor | done]. Qed.

(** A run of the picture whose first sample is presented at [picture] *)
Definition shown (video picture : Z) (r : trackRun) : Prop :=
  id r = video /\ exists s ss t, samples r = s :: ss /\ decodeTime r = Ok t /\ picture = int64 (t + cts r s).

Lemma cut_video_steps rs video sound first_ cuts picture :
  Forall run_wf rs ->
  returns (cut_video rs video sound first_ cuts picture) (fun p => exists css,
    Forall3 (video_step video) rs (fst (fst p)) css /\ snd (fst p) = cuts ++ concat css /\
    (snd p = picture \/ first_ = true /\ Exists (shown video (snd p)) (fst (fst p)))).
Proof.
  intros Hrs. revert cuts picture. induction Hrs as [| r rs Hr Hrs IH]; intros cuts picture; cbn [cut_video].
  { exists []. cbn. rewrite app_nil_r. split_and!; [constructor | done | by left]. }
  apply returns_bind.
  apply (returns_mono _ (fun p => exists cs, video_step video r (fst (fst p)) cs /\ snd (fst p) = cuts ++ cs /\
    (snd p = picture \/ first_ = true /\ shown video (snd p) (fst (fst p))))).
  - destruct (_ || _)%bool eqn:E; [exists []; rewrite app_nil_r; split_and!; [apply video_same | done | by left] |].
    apply returns_bind.
    apply (returns_mono _ (fun p => exists cs, trim1 r (fst p) false cs /\ run_wf (fst p) /\ id (fst p) = id r /\ samples (fst p) <> [] /\ snd p = cuts ++ cs)).
    + assert (samples r <> []) as Hne by (intros Hn; rewrite Hn, zlen_nil, orb_true_r in E; done).
      destruct (_ && _)%bool; [| exists []; rewrite app_nil_r; split_and!; [constructor | done..]].
      pose proof (decodeTime_total r Hr) as Ht. destruct (decodeTime r) as [t | |] eqn:Et; [| done..]. cbn [rbind returns] in *.
      pose proof (group_start_at r t (samples r) [] sound 0 0 (or_introl eq_refl)) as Hg.
      cbn [app length] in Hg. change (run_durs r []) with 0 in Hg. rewrite Z.add_0_r, Ht in Hg.
      destruct (group_start _ _ _ _ _ _ _) as [from fromAt]. cbn [fst snd] in Hg.
      go_step; [| exists []; rewrite app_nil_r; split_and!; [constructor | done..]].
      destruct Hg as [Hz | [Hlt Hat]]; [lia |].
      apply returns_bind. eapply returns_mono; [by apply drop_first_dropped |]. intros [r' c] [Hd Hc]. cbn [fst snd returns] in *.
      subst fromAt c. exists [mkCut (dataOff r) (run_size r (take from (samples r)))].
      split_and!; [by eapply trim_some | apply Hd | apply Hd | | done].
      rewrite (dropped_samples _ _ _ _ Hd). intros Hn. apply (f_equal length) in Hn. rewrite length_drop in Hn. cbn in Hn. lia.
    + intros [r' cuts']. cbn [fst snd]. intros (cs & H1 & Hwf & Hid & Hne & ->).
      pose proof (decodeTime_total r' Hwf) as Ht. destruct (decodeTime r') as [t | |] eqn:Et; [| done..]. cbn [rbind].
      destruct (samples r') as [| s ss] eqn:Es; [done |]. change (idx (s :: ss) 0) with (Ok s). cbn [rbind returns].
      exists cs. split_and!; [| done | right; split; [by destruct first_; [| rewrite orb_true_r in E] |]; cbn [fst snd]; split; [lia | by exists s, ss, t]]. unfold video_step.
      replace (id r =? video) with true by lia. done.
  - intros [[r' cuts'] picture']. cbn [fst snd]. intros (cs & H1 & -> & Hp). apply returns_bind.
    eapply returns_mono; [apply IH |]. intros [[rs' cuts''] picture'']. cbn [fst snd returns]. intros (css & H2 & -> & Hq).
    exists (cs :: css). split_and!; [by constructor | cbn; by rewrite app_assoc |].
    destruct Hq as [-> | [Hf Hq]]; [| right; split; [done | by apply Exists_cons_tl]]. destruct Hp as [-> | [Hf Hp]]; [by left | right; split; [done | by apply Exists_cons_hd]].
Qed.

Lemma cut_sound_step r nruns video vs picture scales :
  run_wf r -> 1 < nruns \/ samples r <> [] ->
  returns (cut_sound r nruns video vs picture scales) (fun p =>
    sound_step video r (fst (fst p), snd p) (snd (fst p))).
Proof.
  intros Hr Hne. unfold cut_sound, sound_step. destruct (id r =? video) eqn:Ev; [done |]. cbn [orb].
  go_step; [constructor |]. pose proof (decodeTime_total r Hr) as Ht.
  destruct (decodeTime r) as [t | |] eqn:Et; [| done..]. cbn [rbind returns] in *.
  set (before := Z.quot _ _). pose proof (lead_in_at r t (samples r) [] before) as Hl.
  cbn [app length] in Hl. change (run_durs r []) with 0 in Hl. rewrite Z.add_0_r, Ht in Hl.
  destruct (lead_in _ _ _ _ _) as [k a]. cbn [fst snd] in Hl. destruct Hl as [Hk Ha].
  go_step; [constructor |].
  apply returns_bind. apply (returns_mono _ (fun p => at_sample r t (samples r) (fst p) (snd p))).
  - go_step; [| cbn; split; [unfold zlen in *; lia | done]].
    assert (k = length (samples r) /\ (0 < k)%nat) as [-> Hpos].
    { assert (k = length (samples r)) as Ek by (unfold zlen in *; lia). split; [done |].
      destruct Hne as [? | Hne]; [lia |]. destruct (samples r); [done | cbn in Ek; lia]. }
    destruct (exists_last (l := samples r) ltac:(intros E; rewrite E in Hpos; cbn in Hpos; lia)) as (pre & s & Es).
    assert (length (samples r) = S (length pre)) as El by (rewrite Es, length_app; cbn; lia).
    assert (idx (samples r) (Z.of_nat (length (samples r)) - 1) = Ok s) as ->.
    { apply idx_Ok; [lia |]. replace (Z.to_nat _) with (length pre + 0)%nat by lia.
      rewrite Es. by rewrite lookup_app_r, Nat.add_0_r, Nat.sub_diag by lia. }
    cbn [rbind returns fst snd]. rewrite El. replace (S (length pre) - 1)%nat with (length pre) by lia.
    split; [lia |]. rewrite Ha, int64_sub, El. rewrite firstn_all2 by lia. rewrite Es, take_app_length, run_durs_app.
    f_equal. unfold run_durs at 2. cbn. lia.
  - intros [k' a']. cbn [fst snd]. intros [Hk' ->]. go_step; [| constructor].
    apply returns_bind. eapply returns_mono; [by apply drop_first_dropped |]. intros [r' c] [Hd Hc]. cbn [fst snd returns] in *.
    subst c. by eapply trim_some.
Qed.

Lemma cut_sounds_steps rs nruns video vs picture scales cuts :
  Forall run_wf rs -> Forall (fun r => 1 < nruns \/ samples r <> []) rs ->
  returns (cut_sounds rs nruns video vs picture scales cuts) (fun p => exists css,
    Forall3 (sound_step video) rs (fst p) css /\ snd p = cuts ++ concat css).
Proof.
  intros Hrs. revert cuts. induction Hrs as [| r rs Hr Hrs IH]; intros cuts Hne; cbn [cut_sounds].
  { exists []. cbn. rewrite app_nil_r. split; [constructor | done]. }
  apply Forall_cons in Hne as [Hn Hne]. apply returns_bind.
  eapply returns_mono; [by apply cut_sound_step |]. intros [[r' c] g] H1. cbn [fst snd] in H1. apply returns_bind.
  eapply returns_mono; [by apply IH |]. intros [rs' cuts']. cbn [fst snd returns]. intros (css & H2 & ->).
  exists (c :: css). split; [by constructor | cbn; by rewrite app_assoc].
Qed.

(** Both passes together. *)
Lemma steps_compose video rs rs1 xs css1 css2 :
  Forall3 (video_step video) rs rs1 css1 -> Forall3 (sound_step video) rs1 xs css2 ->
  exists css, Forall3 (fun r x cs => trim1 r (fst x) (snd x) cs) rs xs css /\
    concat css1 ++ concat css2 ≡ₚ concat css.
Proof.
  intros H1. revert xs css2. induction H1 as [| r r1 cs rs rs1 css1 H H1 IH]; intros xs css2 H2; inversion H2 as [| ? x c2 ? xs' css2' Hs H2']; subst.
  { exists []. split; [constructor | done]. }
  destruct (IH _ _ H2') as (css & H3 & Hp).
  assert (trim1 r (fst x) (snd x) (cs ++ c2)) as Ht.
  { unfold video_step, sound_step in *. destruct (id r =? video) eqn:E.
    - assert (id r1 = id r) as E1 by (destruct H as [| | ? ? ? ? ? Hd]; try done; apply Hd).
      rewrite E1, E in Hs. destruct Hs as [-> ->]. by rewrite app_nil_r.
    - destruct H as [-> ->]. rewrite E in Hs. done. }
  exists ((cs ++ c2) :: css). split; [by constructor |]. cbn. rewrite <- Hp, <- !app_assoc.
  f_equiv. rewrite !app_assoc. f_equiv. apply Permutation_app_comm.
Qed.

(** ** Where the media is *)

(** Each run's media is inside the mdat and apart from the others'. *)
Definition region (r : trackRun) : Z * Z := (dataOff r, dataOff r + run_size r (samples r)).
Definition apart (r q : trackRun) : Prop := snd (region r) <= fst (region q) \/ snd (region q) <= fst (region r).
Definition laid_out (base m : Z) (rs : list trackRun) : Prop :=
  Forall (fun r => base <= fst (region r) /\ snd (region r) <= base + m) rs /\ StronglySorted apart rs.

Definition cut_of (r : trackRun) (c : cut) : Prop :=
  0 <= cn c /\ fst (region r) <= cat c /\ cat c + cn c <= snd (region r).

Lemma trim1_facts r r' gone cs :
  run_wf r -> trim1 r r' gone cs ->
  Forall (cut_of r) cs /\
  (gone = false -> run_wf r' /\ run_size r' = run_size r /\ run_lens r' <= run_lens r /\
    hasDurs r' = hasDurs r /\ hasSizes r' = hasSizes r /\
    fst (region r) <= fst (region r') /\ snd (region r') = snd (region r) /\
    Forall (fun c => cat c + cn c <= fst (region r')) cs).
Proof.
  intros Hr H. pose proof Hr as (Hok & _). pose proof (run_samples r Hok) as Hss.
  pose proof (run_size_nonneg r (samples r) Hr Hss) as Hn.
  destruct H as [| | k t r' Hk Ht Hd]; unfold region in *; cbn [fst snd].
  - split; [constructor |]. intros _. split_and!; try (done || lia).
  - split; [| done]. constructor; [| constructor]. unfold cut_of. cbn. lia.
  - pose proof (run_size_split r k) as Hsp.
    pose proof (run_size_nonneg r (take k (samples r)) Hr ltac:(by apply Forall_take)).
    pose proof (run_size_nonneg r (drop k (samples r)) Hr ltac:(by apply Forall_drop)).
    destruct Hd as [Hwf Hid Hs Ho Hsz [Hh1 Hh2] Hl Htime].
    split; [constructor; [| constructor]; unfold cut_of; cbn; lia |]. intros _. rewrite Hsz, Hs, Ho.
    split_and!; [done | done | done | done | done | lia | lia |].
    constructor; [cbn; lia | constructor].
Qed.

Definition cut_apart (c d : cut) : Prop := cat c + cn c <= cat d \/ cat d + cn d <= cat c.

Lemma trim1_cuts r r' gone cs : trim1 r r' gone cs -> StronglySorted cut_apart cs.
Proof. destruct 1; repeat constructor. Qed.

Lemma cut_of_apart r q c d : apart r q -> cut_of r c -> cut_of q d -> cut_apart c d.
Proof. unfold apart, cut_of, cut_apart. lia. Qed.

(** Every cut is in the mdat, apart from the others and from the media of the runs that stay. *)
Lemma cuts_in_place base m rs xs css :
  laid_out base m rs -> Forall run_wf rs -> Forall3 (fun r x cs => trim1 r (fst x) (snd x) cs) rs xs css ->
  Forall (cut_in base m) (concat css) /\ StronglySorted cut_apart (concat css) /\
  Forall (fun x => snd x = false ->
    base <= fst (region (fst x)) /\ fst (region (fst x)) <= snd (region (fst x)) <= base + m /\
    Forall (fun c => cut_apart (mkCut (fst (region (fst x))) (snd (region (fst x)) - fst (region (fst x)))) c) (concat css)) xs.
Proof.
  intros [Hin Hap] Hwf H3. revert Hin Hap Hwf.
  assert (forall r x cs, run_wf r -> trim1 r (fst x) (snd x) cs -> snd x = false ->
    cut_of r (mkCut (fst (region (fst x))) (snd (region (fst x)) - fst (region (fst x)))) /\
    Forall (cut_apart (mkCut (fst (region (fst x))) (snd (region (fst x)) - fst (region (fst x))))) cs) as Hkept.
  { intros r x cs Hr Ht Hg. destruct (trim1_facts _ _ _ _ Hr Ht) as [_ Hs].
    destruct (Hs Hg) as (Hwf' & _ & _ & _ & _ & Hlo & Hhi & Hcs).
    pose proof (run_size_nonneg (fst x) (samples (fst x)) Hwf' ltac:(apply Hwf')). unfold cut_of, region in *. cbn [fst snd cat cn] in *.
    split; [lia |]. eapply Forall_impl; [exact Hcs |]. intros c Hc. cbv beta in Hc. unfold cut_apart. cbn [cat cn]. lia. }
  assert (forall rs xs css, Forall run_wf rs -> Forall3 (fun r x cs => trim1 r (fst x) (snd x) cs) rs xs css ->
    Forall (fun c => exists q, q ∈ rs /\ cut_of q c) (concat css) /\
    Forall (fun x => snd x = false -> exists q, q ∈ rs /\
      cut_of q (mkCut (fst (region (fst x))) (snd (region (fst x)) - fst (region (fst x))))) xs) as Hof.
  { clear -Hkept. intros rs xs css Hwf. induction 1 as [| r x cs rs xs css Ht H3 IH]; [by split; constructor |].
    apply Forall_cons in Hwf as [Hr Hwf]. destruct (IH Hwf) as [H1 H2]. split.
    - cbn. apply Forall_app. split.
      + eapply Forall_impl; [exact (proj1 (trim1_facts _ _ _ _ Hr Ht)) |]. intros c Hc. exists r. split; [set_solver | done].
      + eapply Forall_impl; [exact H1 |]. intros c (q & ? & ?). exists q. split; [set_solver | done].
    - constructor.
      + intros Hg. exists r. split; [set_solver |]. by eapply Hkept.
      + eapply Forall_impl; [exact H2 |]. intros y Hy Hg. destruct (Hy Hg) as (q & ? & ?). exists q. split; [set_solver | done]. }
  induction H3 as [| r x cs rs xs css Ht H3 IH]; intros Hin Hap Hwf.
  { split_and!; constructor. }
  apply Forall_cons in Hin as [Hr1 Hin]. apply StronglySorted_cons in Hap as [Har Hap].
  apply Forall_cons in Hwf as [Hr Hwf]. destruct (IH Hin Hap Hwf) as (I1 & I2 & I3).
  destruct (Hof _ _ _ Hwf H3) as [O1 O2]. destruct (trim1_facts _ _ _ _ Hr Ht) as [Hcs _].
  rewrite Forall_forall in Har. cbn [concat]. split_and!.
  - apply Forall_app. split; [| done]. eapply Forall_impl; [exact Hcs |]. unfold cut_of, cut_in. lia.
  - apply StronglySorted_app. split_and!; [| by eapply trim1_cuts | done]. intros c d Hc Hd.
    rewrite Forall_forall in Hcs, O1. destruct (O1 d Hd) as (q & Hq & Hqd).
    by apply (cut_of_apart r q); [apply Har | apply Hcs |].
  - apply Forall_cons. split.
    + intros Hg. destruct (Hkept _ _ _ Hr Ht Hg) as [Ho Hown]. unfold cut_of in Ho. cbn [cat cn] in Ho.
      split_and!; [lia | lia | lia |]. apply Forall_app. split; [done |]. eapply Forall_impl; [exact O1 |].
      intros d (q & Hq & Hqd). apply (cut_of_apart r q); [by apply Har | exact Ho | done].
    + rewrite Forall_forall in I3, O2 |- *. intros y Hy Hg. destruct (I3 y Hy Hg) as (? & ? & Hrest).
      split_and!; [done | lia | lia |]. apply Forall_app. split; [| done]. destruct (O2 y Hy Hg) as (q & Hq & Hqd).
      eapply Forall_impl; [exact Hcs |]. intros d Hd. pose proof (cut_of_apart r q _ _ (Har q Hq) Hd Hqd) as [? | ?]; [by right | by left].
Qed.

Lemma reverse_sorted {A} (R : relation A) l : StronglySorted R l -> StronglySorted (flip R) (reverse l).
Proof.
  induction 1 as [| x l Hl IH Hx]; [constructor |]. rewrite reverse_cons. apply StronglySorted_app.
  rewrite Forall_forall in Hx. split_and!; [| done | repeat constructor].
  intros y z Hy Hz. apply list_elem_of_singleton in Hz as ->. apply Hx. by apply elem_of_reverse.
Qed.

Lemma pairwise_perm {A} (R : relation A) l k : (forall x y, R x y -> R y x) -> l ≡ₚ k -> StronglySorted R l -> StronglySorted R k.
Proof.
  intros Hsym Hp. induction Hp as [| x l k Hp IH | x y l | l m k _ IH1 _ IH2]; intros H; [done | | | by apply IH2, IH1].
  - apply StronglySorted_cons in H as [Hx H]. constructor; [by apply IH | by rewrite <- Hp].
  - apply StronglySorted_cons in H as [Hx H]. apply StronglySorted_cons in H as [Hy H].
    apply Forall_cons in Hx as [Hxy Hx]. constructor; [by constructor |]. apply Forall_cons. split; [by apply Hsym | done].
Qed.

Lemma pairwise_and {A} (R S : relation A) l : StronglySorted R l -> StronglySorted S l -> StronglySorted (fun x y => R x y /\ S x y) l.
Proof.
  induction 1 as [| x l Hl IH Hx]; intros HS; [constructor |]. apply StronglySorted_cons in HS as [Hx' HS].
  constructor; [by apply IH |]. rewrite Forall_forall in *. naive_solver.
Qed.

Lemma sorted_cuts_after cuts :
  StronglySorted cut_apart cuts -> Forall (fun c => 0 <= cn c) cuts -> StronglySorted after (reverse (sort_by cut_lt cuts)).
Proof.
  intros Hap Hn. apply (pairwise_perm cut_apart _ (sort_by cut_lt cuts)) in Hap;
    [| unfold cut_apart; lia | by rewrite sort_by_perm].
  rewrite <- (sort_by_perm cut_lt cuts) in Hn. revert Hn. pose proof (sort_by_sorted cut_lt cuts) as Hs. revert Hap Hs.
  generalize (sort_by cut_lt cuts) as l. intros l Hap Hs Hn. pose proof (pairwise_and _ _ _ Hap Hs) as H.
  apply reverse_sorted in H. apply Forall_reverse in Hn. revert H Hn. generalize (reverse l) as k. intros k H Hn.
  induction H as [| c k Hk IH Hc]; [constructor |]. apply Forall_cons in Hn as [? Hn]. constructor; [by apply IH |].
  rewrite Forall_forall in *. intros d Hd. destruct (Hc d Hd) as [H1 H2]. pose proof (Hn d Hd). unfold cut_apart, in_order, cut_lt, after in *. lia.
Qed.

(** ** The new fragment, read back *)

(** What the runs take in a moof, at most. *)
Fixpoint runs_len (rs : list trackRun) : Z := match rs with [] => 0 | r :: rs => 32 + run_lens r + runs_len rs end.
Fixpoint boxes_len (bs : list box) : Z := match bs with [] => 0 | b :: bs => 8 + zlen (body b) + boxes_len bs end.

Definition run_kept (r : trackRun) : Prop := run_wf r /\ hasDurs r = true /\ hasSizes r = true.

Lemma run_lens_nonneg r : 0 <= run_lens r.
Proof. unfold run_lens. pose proof (zlen_nonneg (tfhd r)). pose proof (zlen_nonneg (tfdt r)). pose proof (zlen_nonneg (build_trun r 0)). lia. Qed.

Lemma runs_len_nonneg rs : 0 <= runs_len rs.
Proof. induction rs as [| r rs IH]; cbn [runs_len]; [lia |]. pose proof (run_lens_nonneg r). lia. Qed.

Lemma runs_len_elem r rs : r ∈ rs -> run_lens r <= runs_len rs.
Proof.
  induction rs as [| q rs IH]; [by intros ?%elem_of_nil |]. intros [-> | H]%elem_of_cons; cbn [runs_len].
  - pose proof (runs_len_nonneg rs). lia.
  - pose proof (IH H). pose proof (run_lens_nonneg q). lia.
Qed.

Lemma boxes_loop_len fuel b off bs : bytes_ok b -> boxes_loop fuel b off = Ok bs -> boxes_len bs <= zlen b.
Proof.
  revert b off bs. induction fuel as [| fuel IH]; intros b off bs Hb; pose proof (zlen_nonneg b) as Hnn; cbn [boxes_loop];
    (destruct (zlen b <? 8) eqn:E8; [intros [= <-]; cbn [boxes_len]; lia |]); [done |].
  intros H. apply rbind_Ok_inv in H as (size & _ & H). apply rbind_Ok_inv in H as (kind & _ & H).
  apply rbind_Ok_inv in H as ([sz head] & Hh & H). cbv zeta in H. set (sz' := if sz =? 0 then zlen b else sz) in *. clearbody sz'.
  destruct (_ || _)%bool eqn:E; [injection H as <-; cbn [boxes_len]; lia |]. apply orb_false_iff in E as [E1 E2].
  assert (8 <= head) as Hhead.
  { destruct (_ && _)%bool; [| by injection Hh as _ <-]. apply rbind_Ok_inv in Hh as (s & _ & Hh). apply rbind_Ok_inv in Hh as (n & _ & Hh).
    injection Hh as _ <-. lia. }
  rewrite slice_Ok in H by lia. rewrite slice_from_Ok in H by lia. cbn [rbind] in H.
  apply rbind_Ok_inv in H as (out & Ho & H). injection H as <-. apply IH in Ho; [| by apply bytes_ok_drop].
  rewrite zlen_drop in Ho. cbn [boxes_len body].
  rewrite zlen_take, zlen_drop. lia.
Qed.

Lemma moof_parts_sound bs mfhd n :
  Forall (box_in n) bs ->
  returns (moof_parts bs mfhd) (fun p => match p with
    | Some (m, rs) => Forall run_kept rs /\ zlen m <= Z.max n (zlen mfhd) /\ runs_len rs <= 8 * boxes_len bs
    | None => True end).
Proof.
  intros Hbs. revert mfhd. induction Hbs as [| b bs Hb Hbs IH]; intros mfhd; cbn [moof_parts].
  { cbn. split_and!; [constructor | lia | lia]. }
  pose proof (box_in_small n b Hb) as Hl. pose proof Hb as (Hbb & _). cbn [boxes_len]. pose proof (zlen_nonneg (body b)).
  destruct (is_kind "mfhd" b); [| destruct (is_kind "traf" b); [| done]].
  - eapply returns_mono; [apply IH |]. intros [[m rs] |]; [| done]. intros (? & ? & ?). split_and!; [done | lia | lia].
  - apply returns_bind. eapply returns_mono; [by apply parseRun_sound |]. intros [r |]; [| done].
    intros (Hr & Hh & Ht & Hlen). destruct (negb (hasDurs r) || negb (hasSizes r))%bool eqn:E; [done |].
    apply returns_bind. eapply returns_mono; [apply IH |]. intros [[m rs] |]; [| done]. intros (Hrs & Hm & Hrl). cbn [returns].
    apply orb_false_iff in E as [E1%negb_false_iff E2%negb_false_iff].
    split_and!; [by constructor | done |]. cbn [runs_len]. lia.
Qed.

(** The first of the boxes, when its size is a plain one. *)
Lemma boxes_loop_first fuel b off x xs :
  boxes_loop fuel b off = Ok (x :: xs) -> u32_at b 0 <> Ok 1 ->
  exists fuel', boxes_loop fuel' (drop (Z.to_nat (8 + zlen (body x))) b) (off + (8 + zlen (body x))) = Ok xs /\
    8 + zlen (body x) <= zlen b /\ body x = take (Z.to_nat (zlen (body x))) (drop 8 b).
Proof.
  destruct fuel as [| fuel]; cbn [boxes_loop]; (destruct (zlen b <? 8) eqn:E8; [done |]); [done |]. intros H H1.
  apply rbind_Ok_inv in H as (size & Hs & H). apply rbind_Ok_inv in H as (kind & _ & H).
  destruct (size =? 1) eqn:E1; [exfalso; apply H1; rewrite Hs; f_equal; lia |]. cbn [andb rbind] in H. cbv zeta in H.
  set (sz' := if size =? 0 then zlen b else size) in *. clearbody sz'.
  destruct (_ || _)%bool eqn:E; [done |]. apply orb_false_iff in E as [E2 E3].
  rewrite slice_Ok in H by lia. rewrite slice_from_Ok in H by lia. cbn [rbind] in H.
  apply rbind_Ok_inv in H as (out & Ho & H). injection H as <- <-. cbn [body].
  assert (zlen (take (Z.to_nat (sz' - 8)) (drop (Z.to_nat 8) b)) = sz' - 8) as Hl by (rewrite zlen_take, zlen_drop; lia).
  rewrite Hl. replace (8 + (sz' - 8)) with sz' by lia. exists fuel. split_and!; [done | lia | done].
Qed.

Lemma fragment_parts_sound frag :
  bytes_ok frag ->
  returns (fragment_parts frag) (fun p => match p with
    | Some (moofSize, mfhd, rs, mdat) =>
        8 <= moofSize /\ Forall run_kept rs /\ zlen mfhd <= zlen frag /\ runs_len rs <= 8 * zlen frag /\
        moofSize + 8 + zlen mdat <= zlen frag /\ mdat = take (Z.to_nat (zlen mdat)) (drop (Z.to_nat (moofSize + 8)) frag)
    | None => True end).
Proof.
  intros Hb. unfold fragment_parts. pose proof (boxes_total frag Hb) as Htop.
  destruct (boxes frag) as [top | |] eqn:Etop; [| done..]. cbn [returns rbind] in *.
  destruct top as [| moof [| mdat [|]]]; try done. apply Forall_cons in Htop as [Hm Htop]. apply Forall_cons in Htop as [Hd _].
  destruct (negb _ || _)%bool eqn:Ek; [done |]. pose proof (zlen_nonneg (body moof)) as Hn1. pose proof (zlen_nonneg (body mdat)) as Hn2.
  pose proof (box_in_small _ _ Hm) as Hlm.
  assert (8 <= zlen frag) as H8.
  { unfold boxes in Etop. destruct (length frag); cbn [boxes_loop] in Etop; destruct (zlen frag <? 8) eqn:E; try done; lia. }
  pose proof (returns_u32_at frag 0 (fun _ => True) Hb ltac:(lia) ltac:(lia) ltac:(done)) as H0.
  destruct (u32_at frag 0) as [s0 | |] eqn:E0; [| done..]. cbn [rbind].
  destruct ((s0 =? 1) || (zlen frag <? 8 + zlen (body moof) + 8))%bool eqn:E1; [done |]. apply orb_false_iff in E1 as [E1 E2].
  apply returns_bind. pose proof (returns_u32_at frag (8 + zlen (body moof)) (fun _ => True) Hb ltac:(lia) ltac:(lia) ltac:(done)) as H1.
  destruct (u32_at frag (8 + zlen (body moof))) as [s1 | |] eqn:E3; [| done..]. cbn [returns]. destruct (s1 =? 1) eqn:E4; [done |].
  pose proof (boxes_total (body moof) ltac:(apply Hm)) as Hbs. destruct (boxes (body moof)) as [bs | |] eqn:Ebs; [| done..].
  cbn [returns rbind] in *. apply returns_bind. eapply returns_mono; [by apply moof_parts_sound |].
  intros [[mfhd rs] |]; [| done]. intros (Hrs & Hmf & Hlen). cbn [returns].
  unfold boxes in Ebs. apply boxes_loop_len in Ebs; [| apply Hm].
  change (zlen (@nil Z)) with 0 in Hmf.
  unfold boxes in Etop. apply boxes_loop_first in Etop as (fuel' & Etop & Hl1 & _); [| rewrite E0; intros [= ->]; done].
  pose proof Etop as Etop2. apply boxes_loop_first in Etop2 as (fuel2 & _ & Hl2 & Hbody).
  - rewrite zlen_drop in Hl2. split_and!; [lia | done | lia | lia | lia |].
    rewrite drop_drop in Hbody. rewrite Hbody at 1. do 2 f_equal. lia.
  - intros E. unfold u32_at in E, E3. rewrite slice_Ok in E, E3 by (rewrite ?zlen_drop; lia). cbn [rbind] in E, E3.
    rewrite drop_0 in E || change (drop (Z.to_nat 0) ?l) with l in E.
    replace (Z.to_nat (0 + 4 - 0)) with 4%nat in E by lia. replace (Z.to_nat (8 + zlen (body moof) + 4 - (8 + zlen (body moof)))) with 4%nat in E3 by lia.
    rewrite E3 in E. injection E as ->. done.
Qed.

(** The runs that stay. *)
Definition stay (xs : list (trackRun * bool)) : list trackRun := map fst (filter (fun x => snd x = false) xs).

Lemma moof_body_boxes mfhd xs off :
  moof_body mfhd xs off = concat (map put ((lit "mfhd", mfhd) :: map (fun r => (lit "traf", build_body r (off r))) (stay xs))).
Proof.
  unfold moof_body. cbn [map concat]. f_equal. induction xs as [| [r g] xs IH]; [done |]. cbn [map concat fst snd].
  rewrite IH. unfold stay. rewrite filter_cons. destruct g; cbn [snd]; [by rewrite decide_False by done | by rewrite decide_True by done].
Qed.

Lemma build_body_len r off : zlen (build_body r off) = 24 + run_lens r.
Proof. unfold build_body, run_lens. rewrite !zlen_app, !putBox_len by done. rewrite build_trun_len. lia. Qed.

Lemma concat_put_len l : Forall (fun b => zlen (fst b) = 4) l ->
  zlen (concat (map put l)) = fold_right (fun b n => 8 + zlen (snd b) + n) 0 l.
Proof. induction 1 as [| b l Hb Hl IH]; [done |]. cbn [map concat fold_right]. rewrite zlen_app, IH. unfold put. by rewrite putBox_len. Qed.

Lemma moof_body_len mfhd xs off : zlen (moof_body mfhd xs off) = 8 + zlen mfhd + runs_len (stay xs).
Proof.
  rewrite moof_body_boxes. rewrite concat_put_len.
  - cbn [fold_right fst snd]. f_equal. induction (stay xs) as [| r rs IH]; [done |]. cbn [map fold_right runs_len fst snd].
    rewrite IH, build_body_len. lia.
  - constructor; [done |]. by apply Forall_map, Forall_true.
Qed.

Definition moved (off : trackRun -> Z) (r : trackRun) : trackRun := set_dataOff r (int32 (wrap32 (off r))).

Lemma moof_parts_reads bs mfhd rs (off : trackRun -> Z) :
  Forall (fun r => run_kept r /\ run_lens r < 2 ^ 31) rs ->
  map content bs = map (fun r => (lit "traf", build_body r (off r))) rs ->
  moof_parts bs mfhd = Ok (Some (mfhd, map (moved off) rs)).
Proof.
  intros Hrs. revert bs. induction Hrs as [| r rs [((Hr & _) & Hd & Hs) Hl] Hrs IH]; intros [| [k b p] bs] E; try done.
  cbn [map content bkind body] in E. injection E as -> -> E. cbn [moof_parts].
  change (is_kind "mfhd" (mkBox (lit "traf") (build_body r (off r)) p)) with false.
  change (is_kind "traf" (mkBox (lit "traf") (build_body r (off r)) p)) with true. cbn [body].
  rewrite build_parse by done. cbn [rbind]. change (hasDurs (set_dataOff _ _)) with (hasDurs r).
  change (hasSizes (set_dataOff _ _)) with (hasSizes r). rewrite Hd, Hs. cbn [negb orb].
  rewrite IH by done. done.
Qed.

(** A moof and an mdat, written and read back. *)
Lemma fragment_reads mfhd xs off mdat :
  8 + zlen mfhd < 2 ^ 32 -> zlen (moof_body mfhd xs off) < 2 ^ 31 -> zlen mdat < 2 ^ 31 ->
  Forall (fun r => run_kept r /\ run_lens r < 2 ^ 31) (stay xs) ->
  fragment_parts (putBox (lit "moof") (moof_body mfhd xs off) ++ putBox (lit "mdat") mdat) =
    Ok (Some (8 + zlen (moof_body mfhd xs off), mfhd, map (moved off) (stay xs), mdat)).
Proof.
  intros Hm Hb Hd Hrs. set (b := moof_body mfhd xs off) in *. pose proof (zlen_nonneg b). pose proof (zlen_nonneg mdat).
  set (out := putBox (lit "moof") b ++ putBox (lit "mdat") mdat).
  assert (returns (boxes out) (fun bs => map content bs = [(lit "moof", b); (lit "mdat", mdat)])) as Htop.
  { replace out with (concat (map put [(lit "moof", b); (lit "mdat", mdat)])) by (cbn [map concat]; by rewrite app_nil_r).
    apply boxes_reads. repeat (constructor; [split; cbn [fst snd]; [done | lia] |]). constructor. }
  unfold fragment_parts. destruct (boxes out) as [top | |]; [| done..]. cbn [returns rbind] in *.
  destruct top as [| [k1 b1 p1] [| [k2 b2 p2] [|]]]; try done. injection Htop as -> -> -> ->.
  change (is_kind "moof" (mkBox (lit "moof") b p1)) with true. change (is_kind "mdat" (mkBox (lit "mdat") mdat p2)) with true.
  cbn [negb orb body]. unfold out, putBox. rewrite <- !app_assoc.
  rewrite (u32_parts [] (8 + zlen b) _ 0 eq_refl ltac:(lia) : u32_at (be32 _ ++ _) 0 = _). cbn [rbind].
  rewrite !zlen_app, !be32_len. change (zlen (lit "moof")) with 4. change (zlen (lit "mdat")) with 4.
  replace ((8 + zlen b =? 1) || (4 + (4 + (zlen b + (4 + (4 + zlen mdat)))) <? 8 + zlen b + 8))%bool with false by lia.
  rewrite (app_assoc (be32 _) (lit "moof")), (app_assoc (be32 _ ++ _) b).
  rewrite u32_parts by (rewrite ?zlen_app, ?be32_len; change (zlen (lit "moof")) with 4; lia). cbn [rbind].
  replace (8 + zlen mdat =? 1) with false by lia.
  assert (returns (boxes b) (fun bs => map content bs =
    (lit "mfhd", mfhd) :: map (fun r => (lit "traf", build_body r (off r))) (stay xs))) as Hbs.
  { unfold b. rewrite moof_body_boxes. apply boxes_reads. constructor; [split; cbn [fst snd]; [done | lia] |].
    apply Forall_map. eapply Forall_impl; [exact Hrs |]. intros r [_ Hl]. split; cbn [fst snd]; [done |].
    rewrite build_body_len. lia. }
  destruct (boxes b) as [[| [k m p] bs] | |]; [done | | done..]. cbn [returns rbind] in *.
  cbn [map content bkind body] in Hbs. injection Hbs as -> -> Hbs. cbn [moof_parts].
  change (is_kind "mfhd" (mkBox (lit "mfhd") mfhd p)) with true. cbn [body]. by rewrite (moof_parts_reads _ _ (stay xs) off).
Qed.

(** The media of a run. *)
Definition media (b : list Z) (r : trackRun) : list Z :=
  take (Z.to_nat (run_size r (samples r))) (drop (Z.to_nat (dataOff r)) b).

(** The media of a run, in the mdat. *)
Lemma media_mdat b mdat base r :
  0 <= base -> mdat = take (Z.to_nat (zlen mdat)) (drop (Z.to_nat base) b) ->
  base <= fst (region r) -> fst (region r) <= snd (region r) <= base + zlen mdat ->
  media b r = take (Z.to_nat (snd (region r) - fst (region r))) (drop (Z.to_nat (fst (region r) - base)) mdat).
Proof.
  unfold region, media. cbn [fst snd]. intros Hb Hm H1 H2. rewrite Hm.
  replace (dataOff r + run_size r (samples r) - dataOff r) with (run_size r (samples r)) by lia.
  rewrite skipn_firstn_comm, take_take, drop_drop.
  replace (Z.to_nat (run_size r (samples r)) `min` (Z.to_nat (zlen mdat) - Z.to_nat (dataOff r - base)))%nat
    with (Z.to_nat (run_size r (samples r))) by lia.
  do 2 f_equal. lia.
Qed.

Lemma int32_small z : - 2 ^ 31 <= z < 2 ^ 31 -> int32 (wrap32 z) = z.
Proof. unfold int32, wrap32. intros H. dlia. Qed.

(** One run's part of the trimming: a run of the picture is never gone. *)
Definition run_step (video : Z) (r : trackRun) (x : trackRun * bool) (cs : list cut) : Prop :=
  trim1 r (fst x) (snd x) cs /\ (snd x = true -> id r <> video).

Lemma stay_cons x xs : stay (x :: xs) = (if snd x then [] else [fst x]) ++ stay xs.
Proof.
  unfold stay. rewrite filter_cons. destruct x as [r []]; cbn [snd]; [by rewrite decide_False by done | by rewrite decide_True by done].
Qed.

Lemma stay_facts video rs xs css :
  Forall run_kept rs -> Forall3 (run_step video) rs xs css ->
  Forall run_kept (stay xs) /\ runs_len (stay xs) <= runs_len rs.
Proof.
  intros Hrs H3. induction H3 as [| r x cs rs xs css [Ht _] H3 IH]; [done |].
  apply Forall_cons in Hrs as [(Hr & Hd & Hs) Hrs]. destruct (IH Hrs) as [H1 H2]. rewrite stay_cons. cbn [runs_len].
  destruct (trim1_facts _ _ _ _ Hr Ht) as [_ Hf]. pose proof (run_lens_nonneg r).
  destruct (snd x); cbn [app runs_len]; [split; [done | lia] |].
  destruct (Hf eq_refl) as (Hwf & _ & Hl & Hd' & Hs' & _). split; [| lia]. constructor; [| done].
  split_and!; [done | by rewrite Hd' | by rewrite Hs'].
Qed.

Lemma cut_media_len base k cuts moofSize m m' :
  Forall (cut_in base k) cuts -> cut_media cuts moofSize m = Some m' -> zlen m' <= zlen m.
Proof.
  intros Hin. revert m. induction Hin as [| c cuts Hc Hin IH]; intros m E; [injection E as ->; lia |]. cbn [cut_media] in E.
  destruct (_ || _)%bool in E; [done |]. apply IH in E. rewrite zlen_app, zlen_take, zlen_drop in E.
  pose proof (zlen_nonneg m). unfold cut_in in Hc. lia.
Qed.

Section rebuild.
Context (video moofSize : Z) (frag mfhd mdat : list Z) (rs : list trackRun) (xs : list (trackRun * bool)).
Context (css : list (list cut)) (cuts : list cut).
Hypothesis Hkept : Forall run_kept rs.
Hypothesis Hlaid : laid_out (moofSize + 8) (zlen mdat) rs.
Hypothesis Hsteps : Forall3 (run_step video) rs xs css.
Hypothesis Hcuts : cuts ≡ₚ concat css.
Hypothesis Hsize : 0 <= moofSize /\ moofSize + 8 + zlen mdat <= 2 ^ 27.
Hypothesis Hnew : 8 + zlen mfhd + runs_len rs < 2 ^ 30.

Lemma rebuild_cuts :
  StronglySorted after (reverse (sort_by cut_lt cuts)) /\
  Forall (cut_in (moofSize + 8) (zlen mdat)) (reverse (sort_by cut_lt cuts)) /\
  Forall (fun x => snd x = false ->
    moofSize + 8 <= fst (region (fst x)) /\ fst (region (fst x)) <= snd (region (fst x)) <= moofSize + 8 + zlen mdat /\
    Forall (spared (fst (region (fst x))) (snd (region (fst x)) - fst (region (fst x)))) (reverse (sort_by cut_lt cuts))) xs.
Proof.
  assert (Forall run_wf rs) as Hwf by (eapply Forall_impl; [exact Hkept |]; by intros r [? _]).
  assert (Forall3 (fun r x cs => trim1 r (fst x) (snd x) cs) rs xs css) as H3
    by (eapply Forall3_impl; [exact Hsteps |]; by intros ? ? ? [? _]).
  destruct (cuts_in_place _ _ _ _ _ Hlaid Hwf H3) as (H1 & H2 & Hx).
  assert (reverse (sort_by cut_lt cuts) ≡ₚ concat css) as Hp by (by rewrite reverse_Permutation, sort_by_perm).
  split_and!.
  - apply sorted_cuts_after.
    + eapply pairwise_perm; [unfold cut_apart; lia | symmetry; exact Hcuts | done].
    + rewrite Hcuts. eapply Forall_impl; [exact H1 |]. by intros c [? _].
  - by rewrite Hp.
  - eapply Forall_impl; [exact Hx |]. intros x Hk Hg. destruct (Hk Hg) as (? & ? & Hc). split_and!; [done | lia | lia |].
    rewrite Hp. eapply Forall_impl; [exact Hc |]. intros c. unfold cut_apart, spared. cbn [cat cn]. lia.
Qed.

Lemma rebuild_keeps :
  exists out newSize off mdat', rebuild frag mfhd mdat moofSize xs cuts = Some out /\
    fragment_parts out = Ok (Some (newSize, mfhd, map (moved off) (stay xs), mdat')) /\
    Forall (fun x => snd x = false -> media out (moved off (fst x)) =
      take (Z.to_nat (snd (region (fst x)) - fst (region (fst x)))) (drop (Z.to_nat (fst (region (fst x)) - (moofSize + 8))) mdat)) xs.
Proof.
  destruct rebuild_cuts as (Hs & Hin & Hx). destruct (stay_facts _ _ _ _ Hkept Hsteps) as [Hst Hlen].
  pose proof (zlen_nonneg mdat). pose proof (zlen_nonneg mfhd). pose proof (runs_len_nonneg (stay xs)).
  unfold rebuild. rewrite moof_body_len. set (newSize := 8 + (8 + zlen mfhd + runs_len (stay xs))).
  set (off := new_offset cuts (moofSize - newSize)).
  destruct (cut_media_keeps _ moofSize mdat (moofSize + 8) 0 Hs Hin) as (m' & E & _ & _ & _); [lia | lia | lia | |].
  { eapply Forall_impl; [exact Hin |]. unfold cut_in, spared. lia. }
  rewrite E. set (body := moof_body mfhd xs off). set (out := putBox (lit "moof") body ++ putBox (lit "mdat") m').
  assert (zlen body = newSize - 8) as Hb by (unfold body; rewrite moof_body_len; lia).
  assert (zlen m' <= zlen mdat) as Hm'.
  { eapply cut_media_len; [exact Hin | exact E]. }
  exists out, newSize, off, m'. split_and!; [done | |].
  - replace newSize with (8 + zlen body) by lia. apply fragment_reads; fold body; [lia | lia | lia |].
    rewrite Forall_forall in Hst |- *. intros r Hr. split; [by apply Hst |]. pose proof (runs_len_elem r _ Hr). lia.
  - rewrite Forall_forall in Hx |- *. intros x Hel Hg. destruct (Hx x Hel Hg) as (Hlo & Hhi & Hsp).
    destruct (cut_media_keeps _ moofSize mdat (region x.1).1 ((region x.1).2 - (region x.1).1) Hs Hin ltac:(lia) Hlo ltac:(lia) Hsp) as (m2 & E2 & K1 & K2 & Ht).
    rewrite E in E2. injection E2 as <-. rewrite <- Ht.
    assert (cut_sum (reverse (sort_by cut_lt cuts)) (fst (region (fst x))) = cut_sum cuts (dataOff (fst x))) as Ecs
      by (apply cut_sum_perm; by rewrite reverse_Permutation, sort_by_perm). rewrite Ecs in *.
    set (o := off (fst x)). assert (o = dataOff (fst x) - cut_sum cuts (dataOff (fst x)) - (moofSize + 8) + (newSize + 8)) as Eo
      by (unfold o, off; rewrite new_offset_sum; lia).
    unfold region in K1, K2, Hlo, Hhi. cbn [fst snd] in K1, K2, Hlo, Hhi.
    assert (dataOff (moved off (fst x)) = o) as Ed by (unfold moved; cbn; fold o; apply int32_small; lia).
    assert (run_size (moved off (fst x)) (samples (moved off (fst x))) = run_size (fst x) (samples (fst x))) as Ers by done.
    rewrite (media_mdat out m' (newSize + 8)).
    + unfold region at 1 2 3. cbn [fst snd]. rewrite Ers, Ed. unfold region. cbn [fst snd]. do 2 f_equal; [lia |]. f_equal. lia.
    + lia.
    + unfold out, putBox. rewrite <- !app_assoc. rewrite !(app_assoc (be32 _)), (app_assoc _ body).
      rewrite (app_assoc (_ ++ body)). rewrite drop_app_length'; [by rewrite take_ge by (unfold zlen; lia) |].
      rewrite !length_app. unfold zlen in Hb. change (length (be32 _)) with 4%nat. change (length (lit "moof")) with 4%nat. change (length (lit "mdat")) with 4%nat. lia.
    + unfold region. cbn [fst snd]. rewrite Ed. lia.
    + unfold region. cbn [fst snd]. rewrite Ed, Ers. lia.
Qed.
End rebuild.

(** ** How much of the sound goes *)

Definition track_scale (scales : gmap Z Z) (r : trackRun) : Z := default 0 (scales !! id r).
(** A run of sound that the trimming looks at. *)
Definition is_sound (video : Z) (scales : gmap Z Z) (r : trackRun) : bool :=
  (negb (id r =? video) && negb (track_scale scales r =? 0))%bool.
(** How many of a run's first samples are presented before the picture. *)
Definition lead (scales : gmap Z Z) (vs picture : Z) (r : trackRun) : nat :=
  match decodeTime r with
  | Ok t => fst (lead_in r (samples r) (Z.quot (int64 (picture * track_scale scales r)) vs) t 0)
  | _ => O
  end.
(** A run's [i]th sample is presented before the picture, in whole ticks of its track's
    clock: at the run's decode time, what the samples before it last, and its own offset. *)
Definition early (scales : gmap Z Z) (vs picture : Z) (r : trackRun) (i : nat) : Prop :=
  exists t s, decodeTime r = Ok t /\ samples r !! i = Some s /\
    int64 (t + run_durs r (take i (samples r)) + cts r s) < Z.quot (int64 (picture * track_scale scales r)) vs.
(** A run's lead-in is its first [n] samples: each of them is presented before the
    picture, the next one is not. *)
Definition leads (scales : gmap Z Z) (vs picture : Z) (r : trackRun) (n : nat) : Prop :=
  (n <= length (samples r))%nat /\ (forall i, (i < n)%nat -> early scales vs picture r i) /\ ~ early scales vs picture r n.
Lemma lead_in_early r t before ss : forall pre,
  (forall i, (i < length pre)%nat -> exists s, (pre ++ ss) !! i = Some s /\ int64 (t + run_durs r (take i (pre ++ ss)) + cts r s) < before) ->
  let n := fst (lead_in r ss before (int64 (t + run_durs r pre)) (length pre)) in
  (n <= length (pre ++ ss))%nat /\
  (forall i, (i < n)%nat -> exists s, (pre ++ ss) !! i = Some s /\ int64 (t + run_durs r (take i (pre ++ ss)) + cts r s) < before) /\
  forall s, (pre ++ ss) !! n = Some s -> before <= int64 (t + run_durs r (take n (pre ++ ss)) + cts r s).
Proof.
  induction ss as [| s ss IH]; intros pre Hpre; cbn [lead_in].
  { cbn [fst]. rewrite app_nil_r in *. split_and!; [done | done |]. intros s Hs. apply lookup_lt_Some in Hs. lia. }
  assert (int64 (int64 (t + run_durs r pre) + cts r s) = int64 (t + run_durs r (take (length pre) (pre ++ s :: ss)) + cts r s)) as Eat
    by (rewrite take_app_length; apply int64_add).
  destruct (Z.ltb_spec (int64 (int64 (t + run_durs r pre) + cts r s)) before) as [Hlt | Hge].
  - specialize (IH (pre ++ [s])). rewrite <- app_assoc, length_app, Nat.add_1_r in IH. rewrite int64_add, <- Z.add_assoc. rewrite run_durs_app in IH.
    apply IH. intros i Hi. destruct (decide (i = length pre)) as [-> | Hne]; [| apply Hpre; lia].
    exists s. split; [cbn [app]; by rewrite lookup_app_r, Nat.sub_diag by lia |]. cbn [app]. lia.
  - cbn [fst]. split_and!; [rewrite length_app; lia | done |]. intros s' Hs'. rewrite lookup_app_r, Nat.sub_diag in Hs' by lia. injection Hs' as <-. lia.
Qed.
Lemma lead_leads scales vs picture r t : decodeTime r = Ok t -> int64 t = t -> leads scales vs picture r (lead scales vs picture r).
Proof.
  intros Et Hr. unfold leads, lead, early. rewrite Et. set (before := Z.quot _ _).
  destruct (lead_in_early r t before (samples r) []) as (H1 & H2 & H3); [intros i Hi; cbn in Hi; lia |].
  cbn [app length] in *. change (run_durs r []) with 0 in *. rewrite Z.add_0_r, Hr in *. split_and!; [done | |].
  - intros i Hi. destruct (H2 i Hi) as (s & Hs & Hlt). by exists t, s.
  - intros (t' & s & [= <-] & Hs & Hlt). specialize (H3 s Hs). lia.
Qed.

(** A run of sound loses its lead-in: with all of it, it is left out, but the
    last sample of a fragment's only run stays. *)
Definition lead_ok (video : Z) (scales : gmap Z Z) (vs picture : Z) (r : trackRun) (x : trackRun * bool) : Prop :=
  if is_sound video scales r then
    if snd x then lead scales vs picture r = length (samples r)
    else samples (fst x) = drop (Nat.min (lead scales vs picture r) (length (samples r) - 1)) (samples r)
  else x = (r, false).

Lemma cut_sound_lead r nruns video vs picture scales :
  run_wf r -> 1 < nruns \/ samples r <> [] ->
  returns (cut_sound r nruns video vs picture scales) (fun p => lead_ok video scales vs picture r (fst (fst p), snd p)).
Proof.
  intros Hr Hne. unfold cut_sound, lead_ok, is_sound, lead, track_scale. pose proof (decodeTime_total r Hr) as Ht.
  destruct (id r =? video); [done |]. destruct (default 0 (scales !! id r) =? 0); [done |]. cbn [orb negb andb].
  destruct (decodeTime r) as [t | |]; [| done..]. cbn [rbind returns] in *.
  set (before := Z.quot _ _). pose proof (lead_in_at r t (samples r) [] before) as Hl.
  cbn [app length] in Hl. change (run_durs r []) with 0 in Hl. rewrite Z.add_0_r, Ht in Hl.
  destruct (lead_in _ _ _ _ _) as [k a]. cbn [fst snd] in *. destruct Hl as [Hk _].
  go_step; [cbn; unfold zlen in *; lia |].
  apply returns_bind. apply (returns_mono _ (fun p => fst p = Nat.min k (length (samples r) - 1))).
  - go_step; [| cbn; unfold zlen in *; lia].
    assert (0 < length (samples r))%nat as Hpos.
    { destruct Hne as [? | Hne]; [lia |]. destruct (samples r); [done | cbn; lia]. }
    destruct (idx_in_range (samples r) (Z.of_nat k - 1)) as (s & _ & ->); [unfold zlen in *; lia |].
    cbn. unfold zlen in *. lia.
  - intros [k' a']. cbn [fst]. intros ->. pose proof (Nat.le_min_r k (length (samples r) - 1)) as Hmin.
    set (n := Nat.min _ _) in *. clearbody n. go_step; [| cbn [returns fst snd]; assert (n = O) as -> by lia; by rewrite drop_0].
    apply returns_bind. eapply returns_mono; [apply drop_first_dropped; [done | lia] |]. intros [r' c] [Hd _].
    cbn [fst snd returns] in *. apply Hd.
Qed.

Lemma cut_sounds_leads rs nruns video vs picture scales cuts :
  Forall run_wf rs -> Forall (fun r => 1 < nruns \/ samples r <> []) rs ->
  returns (cut_sounds rs nruns video vs picture scales cuts) (fun p => Forall2 (lead_ok video scales vs picture) rs (fst p)).
Proof.
  intros Hrs. revert cuts. induction Hrs as [| r rs Hr Hrs IH]; intros cuts Hne; cbn [cut_sounds].
  { constructor. }
  apply Forall_cons in Hne as [Hn Hne]. apply returns_bind.
  eapply returns_mono; [by apply cut_sound_lead |]. intros [[r' c] g] H1. cbn [fst snd] in H1. apply returns_bind.
  eapply returns_mono; [by apply IH |]. intros [rs' cuts']. cbn [fst snd returns]. by constructor.
Qed.

Lemma video_steps_lead video scales vs picture rs rs1 css xs :
  Forall3 (video_step video) rs rs1 css -> Forall2 (lead_ok video scales vs picture) rs1 xs ->
  Forall2 (fun r x => is_sound video scales r = true -> lead_ok video scales vs picture r x) rs xs.
Proof.
  intros H. revert xs. induction H as [| r r1 cs rs rs1 css H H1 IH]; intros xs Hx; inversion Hx as [| ? x ? xs' H2 H3]; subst; [constructor |].
  constructor; [| by apply IH]. intros Hs. unfold video_step in H. destruct (id r =? video) eqn:E.
  - unfold is_sound in Hs. by rewrite E in Hs.
  - by destruct H as [-> _].
Qed.

(** ** What a trimmed fragment still has *)

(** The runs of [frag] and those of [out]: a run's samples from the [k]th on, the
    same media bytes from the [k]th sample's on, and a decode time later by the
    samples that went. Only a run of sound that is all lead-in is left out, and a
    run of sound that stays has lost its lead-in and nothing more. *)
Inductive trimmed (video : Z) (scales : gmap Z Z) (vs picture : Z) (frag out : list Z) : list trackRun -> list trackRun -> Prop :=
  | trimmed_nil : trimmed video scales vs picture frag out [] []
  | trimmed_gone r rs rs' :
      id r <> video -> (is_sound video scales r = true -> leads scales vs picture r (length (samples r))) ->
      trimmed video scales vs picture frag out rs rs' -> trimmed video scales vs picture frag out (r :: rs) rs'
  | trimmed_kept r r' k t v rs rs' :
      k = O \/ (k < length (samples r))%nat ->
      (is_sound video scales r = true -> exists n, leads scales vs picture r n /\ k = Nat.min n (length (samples r) - 1)) ->
      id r' = id r -> samples r' = drop k (samples r) ->
      media out r' = drop (Z.to_nat (run_size r (take k (samples r)))) (media frag r) ->
      decodeTime r = Ok t -> idx (tfdt r) 0 = Ok v ->
      decodeTime r' = Ok (if v =? 1 then int64 (t + run_durs r (take k (samples r)))
                          else wrap32 (t + run_durs r (take k (samples r)))) ->
      trimmed video scales vs picture frag out rs rs' -> trimmed video scales vs picture frag out (r :: rs) (r' :: rs').

Lemma decodeTime_range r t v :
  run_wf r -> idx (tfdt r) 0 = Ok v -> decodeTime r = Ok t -> t = if v =? 1 then int64 t else wrap32 t.
Proof.
  intros Hr Hv Ht. pose proof (decodeTime_total r Hr) as H. rewrite Ht in H. cbn [returns] in H.
  destruct (v =? 1) eqn:E; [done |]. unfold decodeTime in Ht. rewrite Hv in Ht. cbn [rbind] in Ht. rewrite E in Ht. cbn [andb] in Ht.
  destruct Hr as (Hok & _ & Hb). destruct (headed_facts r (run_ok_headed r Hok)) as (_ & H2 & _).
  pose proof (returns_u32_at (tfdt r) 4 u32_ok Hb ltac:(lia) ltac:(lia) ltac:(done)) as Hu. rewrite Ht in Hu.
  unfold u32_ok, returns, wrap32 in *. dlia.
Qed.

(** The media of a run, less that of its first samples. *)
Lemma media_part {A} (m : list A) x n d :
  0 <= d <= n -> 0 <= x -> take (Z.to_nat (n - d)) (drop (Z.to_nat (x + d)) m) = drop (Z.to_nat d) (take (Z.to_nat n) (drop (Z.to_nat x) m)).
Proof.
  intros Hd Hx. rewrite skipn_firstn_comm, drop_drop. f_equal; [lia |]. f_equal. lia.
Qed.

Lemma run_step_kept video scales vs picture frag out off base mdat r x cs rs rs' :
  run_wf r -> (is_sound video scales r = true -> lead_ok video scales vs picture r x) -> run_step video r x cs -> snd x = false ->
  0 <= base -> mdat = take (Z.to_nat (zlen mdat)) (drop (Z.to_nat base) frag) ->
  base <= fst (region r) -> snd (region r) <= base + zlen mdat ->
  media out (moved off (fst x)) =
    take (Z.to_nat (snd (region (fst x)) - fst (region (fst x)))) (drop (Z.to_nat (fst (region (fst x)) - base)) mdat) ->
  trimmed video scales vs picture frag out rs rs' -> trimmed video scales vs picture frag out (r :: rs) (moved off (fst x) :: rs').
Proof.
  intros Hr Hlead [Ht _] Hg Hb Hm Hlo Hhi Hmed Hrest. pose proof (decodeTime_total r Hr) as Hdt.
  destruct (decodeTime r) as [t | |] eqn:Et; [| done..]. pose proof (lead_leads scales vs picture r t Et Hdt) as Hn'. clear Hdt.
  pose proof Hr as (Hok & _). destruct (headed_facts r (run_ok_headed r Hok)) as (_ & _ & v & Hv & _).
  pose proof (run_samples r Hok) as Hss. pose proof (run_size_nonneg r (samples r) Hr Hss) as Hn.
  assert (forall k, 0 <= run_size r (take k (samples r)) <= run_size r (samples r)) as Hk.
  { intros k. pose proof (run_size_split r k). pose proof (run_size_nonneg r (take k (samples r)) Hr ltac:(by apply Forall_take)).
    pose proof (run_size_nonneg r (drop k (samples r)) Hr ltac:(by apply Forall_drop)). lia. }
  assert (media frag r = take (Z.to_nat (run_size r (samples r))) (drop (Z.to_nat (dataOff r - base)) mdat)) as Emed.
  { rewrite (media_mdat frag mdat base r) by (done || unfold region in *; cbn [fst snd] in *; lia).
    unfold region. cbn [fst snd]. f_equal. lia. }
  destruct x as [q g]. cbn [fst snd] in *. subst g. inversion Ht as [Eq | | k t' q' Hlt Ht' Hd]; subst.
  - apply (trimmed_kept _ _ _ _ _ _ _ _ 0 t v); [by left | | done | done | | done | done | | done].
    + intros Hs. specialize (Hlead Hs). unfold lead_ok in Hlead. rewrite Hs in Hlead. cbn [fst snd] in Hlead.
      apply (f_equal length) in Hlead. rewrite length_drop in Hlead. exists (lead scales vs picture q). split; [done | lia].
    + rewrite Emed, Hmed. change (run_size q (take 0 (samples q))) with 0. change (Z.to_nat 0) with O. rewrite drop_0.
      unfold region. cbn [fst snd]. f_equal. lia.
    + change (run_durs q (take 0 (samples q))) with 0. rewrite Z.add_0_r. change (decodeTime (moved off q)) with (decodeTime q).
      rewrite Et. f_equal. by apply (decodeTime_range q).
  - rewrite Et in Ht'. injection Ht' as <-. destruct Hd as [Hwf Hid Hs Ho Hsz _ _ (v' & Hv' & Htime)].
    rewrite Hv in Hv'. injection Hv' as <-.
    apply (trimmed_kept _ _ _ _ _ _ _ _ k t v); [by right | | done | done | | done | done | | done].
    + intros Hso. specialize (Hlead Hso). unfold lead_ok in Hlead. rewrite Hso in Hlead. cbn [fst snd] in Hlead.
      rewrite Hs in Hlead. apply (f_equal length) in Hlead. rewrite !length_drop in Hlead. exists (lead scales vs picture r). split; [done | lia].
    + rewrite Emed, Hmed. rewrite <- media_part; [| apply Hk | unfold region in Hlo; cbn [fst] in Hlo; lia].
      unfold region. cbn [fst snd]. rewrite Hsz, Hs, Ho. pose proof (run_size_split r k). f_equal; [lia |]. f_equal. lia.
    + change (decodeTime (moved off q)) with (decodeTime q). rewrite Htime. destruct (v =? 1); [| ]; f_equal.
      * unfold int64. dlia.
      * unfold int64, wrap32. dlia.
Qed.

Lemma steps_trimmed video scales vs picture frag out off base mdat rs xs css :
  Forall2 (fun r x => is_sound video scales r = true -> lead_ok video scales vs picture r x) rs xs ->
  Forall run_kept rs -> laid_out base (zlen mdat) rs -> Forall3 (run_step video) rs xs css ->
  0 <= base -> mdat = take (Z.to_nat (zlen mdat)) (drop (Z.to_nat base) frag) ->
  Forall (fun x => snd x = false -> media out (moved off (fst x)) =
    take (Z.to_nat (snd (region (fst x)) - fst (region (fst x)))) (drop (Z.to_nat (fst (region (fst x)) - base)) mdat)) xs ->
  trimmed video scales vs picture frag out rs (map (moved off) (stay xs)).
Proof.
  intros Hlead Hk [Hin _] H3 Hb Hm Hx. induction H3 as [| r x cs rs xs css H H3 IH]; [constructor |].
  apply Forall_cons in Hk as [[Hr _] Hk]. apply Forall_cons in Hin as [[Hlo Hhi] Hin]. apply Forall_cons in Hx as [Hx1 Hx].
  apply Forall2_cons in Hlead as [Hl1 Hlead]. specialize (IH Hlead Hk Hin Hx). rewrite stay_cons. destruct (snd x) eqn:Eg; cbn [app map].
  - apply trimmed_gone; [by apply H | | done]. intros Hs. specialize (Hl1 Hs). unfold lead_ok in Hl1. rewrite Hs, Eg in Hl1. rewrite <- Hl1.
    pose proof (decodeTime_total r Hr) as Hdt. destruct (decodeTime r) as [t | |] eqn:Et; [| done..]. by apply (lead_leads _ _ _ _ t).
  - by apply (run_step_kept video scales vs picture frag out off base mdat r x cs); auto.
Qed.

Lemma sound_steps_compose video rs rs1 xs css1 css2 :
  Forall3 (video_step video) rs rs1 css1 -> Forall3 (sound_step video) rs1 xs css2 ->
  exists css, Forall3 (run_step video) rs xs css /\ concat css1 ++ concat css2 ≡ₚ concat css.
Proof.
  intros H1 H2. destruct (steps_compose _ _ _ _ _ _ H1 H2) as (css & H3 & Hp). exists css. split; [| done]. clear Hp.
  revert xs css css2 H2 H3. induction H1 as [| r r1 cs rs rs1 css1 H H1 IH]; intros xs css css2 H2 H3; inversion H2; subst;
    inversion H3; subst; constructor; [| by eapply IH]. split; [done |]. intros Hg E.
  unfold video_step, sound_step in *. replace (id r =? video) with true in H by lia.
  assert (id r1 = id r) as E1 by (destruct H as [| | ? ? ? ? ? Hd]; try done; apply Hd).
  replace (id r1 =? video) with true in * by lia.
  match goal with Hs : _ = (r1, false) /\ _ |- _ => destruct Hs as [-> _] end. done.
Qed.

Lemma video_steps_wf video rs rs1 css : Forall run_wf rs -> Forall3 (video_step video) rs rs1 css -> Forall run_wf rs1.
Proof.
  intros Hrs H. induction H as [| r r1 cs rs rs1 css H H1 IH]; [done |]. apply Forall_cons in Hrs as [Hr Hrs].
  constructor; [| by apply IH]. unfold video_step in H. destruct (id r =? video); [| by destruct H as [-> _]].
  by apply (trim1_facts _ _ _ _ Hr H).
Qed.

Lemma sound_start_total rs video vs scales sound :
  Forall run_wf rs -> returns (sound_start rs video vs scales sound) (fun _ => True).
Proof.
  intros Hrs. revert sound. induction Hrs as [| r rs Hr Hrs IH]; intros sound; cbn [sound_start]; [done |].
  apply returns_bind. apply (returns_mono _ (fun _ => True)); [| intros x _; apply IH].
  destruct (_ && _)%bool; [| done]. destruct (samples r); [done |]. apply returns_bind.
  eapply returns_mono; [by apply decodeTime_total |]. done.
Qed.

(** The one layout where the trimming panics: see [empty_sound_panics]. *)
Definition lone_empty (rs : list trackRun) : bool :=
  match rs with [r] => zlen (samples r) =? 0 | _ => false end.

Lemma lone_sounds video rs rs1 css picture floor :
  Forall3 (video_step video) rs rs1 css -> floor < 0 \/ lone_empty rs = false ->
  picture = floor \/ Exists (fun r => samples r <> []) rs1 -> 0 <= picture ->
  Forall (fun r => 1 < zlen rs1 \/ samples r <> []) rs1.
Proof.
  intros H Hl Hp Hpic. destruct H as [| r r1 cs rs rs1 css H H1]; [constructor |].
  destruct H1 as [| q q1 cs2 rs rs1 css H2 H1].
  - constructor; [| constructor]. right. destruct Hp as [-> | Hp]; [| by inversion Hp as [| ? ? Hq]; [| inversion Hq]].
    destruct Hl as [? | Hl]; [lia |]. cbn in Hl. assert (samples r <> []) as Hne by (intros E; rewrite E in Hl; done).
    unfold video_step in H. destruct (id r =? video); [| by destruct H as [-> _]].
    inversion H as [| | k t r' Hk Ht Hd]; subst; [done |]. rewrite (dropped_samples _ _ _ _ Hd).
    intros E. apply (f_equal length) in E. rewrite length_drop in E. cbn in E. lia.
  - apply Forall_true. intros x. left. rewrite !zlen_cons. pose proof (zlen_nonneg rs1). lia.
Qed.

(** With nothing cut, every run is as it was. *)
Lemma no_cuts_same video rs xs css :
  Forall3 (run_step video) rs xs css -> concat css = [] -> xs = map (fun r => (r, false)) rs.
Proof.
  induction 1 as [| r x cs rs xs css [Ht _] H3 IH]; [done |]. cbn [concat map]. intros E. apply app_nil in E as [-> E].
  f_equal; [| by apply IH]. destruct x as [q g]. cbn [fst snd] in Ht. by inversion Ht.
Qed.

Lemma untouched video scales vs picture frag rs :
  Forall run_kept rs ->
  Forall2 (fun r x => is_sound video scales r = true -> lead_ok video scales vs picture r x) rs (map (fun r => (r, false)) rs) ->
  trimmed video scales vs picture frag frag rs rs.
Proof.
  induction 1 as [| r rs [Hr _] Hrs IH]; intros Hl; [constructor |]. cbn [map] in Hl. apply Forall2_cons in Hl as [Hl1 Hl].
  pose proof (decodeTime_total r Hr) as Hdt. destruct (decodeTime r) as [t | |] eqn:Et; [| done..]. pose proof (lead_leads scales vs picture r t Et Hdt) as Hn'. clear Hdt.
  pose proof Hr as (Hok & _). destruct (headed_facts r (run_ok_headed r Hok)) as (_ & _ & v & Hv & _).
  apply (trimmed_kept _ _ _ _ _ _ _ _ 0 t v); [by left | | done | by rewrite drop_0 | | done | done | | by apply IH].
  - intros Hs. specialize (Hl1 Hs). unfold lead_ok in Hl1. rewrite Hs in Hl1. cbn [fst snd] in Hl1.
    apply (f_equal length) in Hl1. rewrite length_drop in Hl1. exists (lead scales vs picture r). split; [done | lia].
  - change (run_size r (take 0 (samples r))) with 0. change (Z.to_nat 0) with O. by rewrite drop_0.
  - change (run_durs r (take 0 (samples r))) with 0. rewrite Z.add_0_r, Et. f_equal. by apply (decodeTime_range r).
Qed.

(** The picture's time: of the first sample of a run of the picture that goes back, or
    the one given. *)
Definition picture_of (video floor picture : Z) (rs : list trackRun) : Prop := if floor <? 0 then Exists (shown video picture) rs else picture = floor.
Lemma stay_shown video picture rs1 xs css off :
  Forall3 (sound_step video) rs1 xs css -> Exists (shown video picture) rs1 -> Exists (shown video picture) (map (moved off) (stay xs)).
Proof.
  induction 1 as [| r x cs rs1 xs css H H3 IH]; intros Hx; [by inversion Hx |]. rewrite stay_cons. inversion Hx as [? ? Hr | ? ? Hr]; subst.
  - pose proof Hr as [Hid _]. unfold sound_step in H. replace (id r =? video) with true in H by lia. destruct H as [-> _]. cbn [snd app map fst]. by constructor.
  - specialize (IH Hr). destruct (snd x); cbn [app map]; [done | by constructor 2].
Qed.
Lemma no_cuts_video video rs rs1 css : Forall3 (video_step video) rs rs1 css -> concat css = [] -> rs1 = rs.
Proof.
  induction 1 as [| r r1 cs rs rs1 css H H3 IH]; [done |]. cbn [concat]. intros E. apply app_nil in E as [-> E]. f_equal; [| by apply IH].
  unfold video_step in H. destruct (id r =? video); [by inversion H | by destruct H as [-> _]].
Qed.

(** What trimming gives back, with the picture's time. *)
Definition trimming_of (frag : list Z) (video : Z) (scales : gmap Z Z) (floor : Z) (p : list Z * Z * bool) : Prop :=
  let vs := default 0 (scales !! video) in
  let ' (out, picture, _) := p in
  match fragment_parts frag with
  | Ok (Some (_, mfhd, rs, _)) =>
      if ((vs =? 0) || (picture <? 0))%bool then out = frag else
      exists newSize rs' mdat', fragment_parts out = Ok (Some (newSize, mfhd, rs', mdat')) /\
        picture_of video floor picture rs' /\ trimmed video scales vs picture frag out rs rs'
  | _ => out = frag
  end.


(** A picture of 90 kHz from its second second on, and sound of 48 kHz that
    starts two samples before it. *)
Definition ex_sample (d s f : Z) : trunSample := mkSample d s f 0.
Definition ex_run (i t f : Z) (ss : list trunSample) : trackRun :=
  mkRun i ([0; 2; 0; 0] ++ be32 i) ([1; 0; 0; 0] ++ be64 t) 0 f 0 0 ss 0 0 true true.
Definition ex_video : trackRun := ex_run 1 180000 0x701 [ex_sample 3000 3 0; ex_sample 3000 2 0x10000].
Definition ex_sound : trackRun := ex_run 2 93952 0x301 [ex_sample 1024 1 0; ex_sample 1024 2 0; ex_sample 1024 1 0].
Definition ex_frag : list Z :=
  putBox (lit "moof") (putBox (lit "mfhd") [0; 0; 0; 0; 0; 0; 0; 1] ++ build ex_video 208 ++ build ex_sound 213) ++
  putBox (lit "mdat") [11; 12; 13; 14; 15; 21; 22; 23; 24].
Definition ex_scales : gmap Z Z := <[1 := 90000]> (<[2 := 48000]> empty).

(** The sound loses its first two samples, three bytes, and starts with the picture. *)
Example ex_trims :
  (let! r := trimLeadInFrom ex_frag 1 ex_scales (-1) in
   let! p := fragment_parts (fst (fst r)) in
   Ok (match p with Some (_, _, rs, mdat) => Some (map (fun q => (id q, zlen (samples q), decodeTime q, media (fst (fst r)) q)) rs, mdat) | None => None end))
  = Ok (Some ([(1, 2, Ok 180000, [11; 12; 13; 14; 15]); (2, 1, Ok 96000, [24])], [11; 12; 13; 14; 15; 24])).
Proof. vm_compute. reflexivity. Qed.


(** A fragment that is one sound run of no samples, after a first picture: the
    code steps back to the sample before the first. [pack.go] only trims a
    fragment that has the picture's track, so it never meets it. *)
Example empty_sound_panics :
  trimLeadInFrom (putBox (lit "moof") (build (ex_run 2 0 0x301 []) 100) ++ putBox (lit "mdat") []) 1 ex_scales 0 = Panic.
Proof. vm_compute. reflexivity. Qed.
