(* ===== verification/Fmp4Edits.v ===== *)
(** The edit lists of an encode's header, [flattenEdits] and [editStart] of
    [server/internal/live/fmp4.go]: where each track starts on the broadcast
    clock, in seconds as [float64]. No start is negative zero or not a number, so
    [min] is the smaller. *)
From S2P Require Import Prelude GoText GoFloat Fmp4.
Local Open Scope Z_scope.
Local Open Scope go_scope.

Definition maxTrackLead : spec_float := float64 10.

Definition editStart_loop (wide : bool) (size movie scale : Z) : nat -> list Z -> Z -> spec_float -> res spec_float :=
  fix loop fuel b n empty :=
    if ((n <=? 0) || (zlen b <? size))%bool then Ok empty else
    match fuel with
    | O => NoFuel
    | S fuel =>
        let! ' (dur, media) :=
          if wide then
            let! d := slice b 0 8 in let! d := uint64 d in
            let! m := slice b 8 16 in let! m := uint64 m in Ok (d, int64 m)
          else let! d := u32_at b 0 in let! m := u32_at b 4 in Ok (d, int32 m) in
        if 0 <=? media then Ok (fsub empty (fdiv (float64 media) (float64 scale))) else
        let! b := slice_from b size in
        loop fuel b (n - 1) (fadd empty (fdiv (float64 dur) (float64 movie)))
    end.
Definition editStart (elst : list Z) (movie scale : Z) : res spec_float :=
  if ((zlen elst <? 8) || (movie =? 0) || (scale =? 0))%bool then Ok f0 else
  let! v := idx elst 0 in
  let wide := v =? 1 in
  let! n := u32_at elst 4 in
  let! b := slice_from elst 8 in
  editStart_loop wide (if wide then 20 else 12) movie scale (length b) b n f0.

(** A track's header without its edit list. *)
Definition without_edits (trak : list box) : list Z :=
  concat (map (fun x => if is_kind "edts" x then [] else putBox (bkind x) (body x)) trak).

(** A track's start: its id, its timescale, and when its first sample is shown. *)
Record start := mkStart { st_id : Z; st_scale : Z; st_at : spec_float }.

(** One track: the header without its edits, and its start; none, when it says none. *)
Definition flat_trak (movie : Z) (trak : list Z) : res (option (list Z * start)) :=
  let! xs := boxes trak in
  let! r := trackScale trak in
  let! edts := child trak "edts" in
  let! es := boxes edts in
  match r, List.find (is_kind "elst") es with
  | Some (id, scale), Some elst =>
      let! at_ := editStart (body elst) movie scale in
      Ok (Some (putBox (lit "trak") (without_edits xs), mkStart id scale at_))
  | _, _ => Ok None
  end.
Fixpoint flat_moov (movie : Z) (cs : list box) : res (option (list Z * list start)) :=
  match cs with
  | [] => Ok (Some ([], []))
  | c :: cs =>
      let! one := if negb (is_kind "trak" c) then Ok (Some (putBox (bkind c) (body c), []))
                  else let! t := flat_trak movie (body c) in
                       Ok (match t with Some (b, s) => Some (b, [s]) | None => None end) in
      match one with
      | None => Ok None
      | Some (b, s) =>
          let! more := flat_moov movie cs in
          Ok (match more with Some (bs, ss) => Some (b ++ bs, s ++ ss) | None => None end)
      end
  end.
Fixpoint flat_boxes (bs : list box) : res (option (list Z * list start)) :=
  match bs with
  | [] => Ok (Some ([], []))
  | b :: bs =>
      let! one := if negb (is_kind "moov" b) then Ok (Some (putBox (bkind b) (body b), []))
                  else
                    let! mvhd := child (body b) "mvhd" in
                    let! movie := mvhdScale mvhd in
                    let! cs := boxes (body b) in
                    let! m := flat_moov movie cs in
                    Ok (match m with Some (x, s) => Some (putBox (lit "moov") x, s) | None => None end) in
      match one with
      | None => Ok None
      | Some (x, s) =>
          let! more := flat_boxes bs in
          Ok (match more with Some (xs, ss) => Some (x ++ xs, s ++ ss) | None => None end)
      end
  end.

(** [min] of the starts *)
Definition fmin (a b : spec_float) : spec_float := if SFltb b a then b else a.
Definition first_start (s : start) (ss : list start) : spec_float := fold_left (fun m x => fmin m (st_at x)) (s :: ss) (st_at s).

(** The shift of each track, in its timescale; none when two start too far apart. *)
Fixpoint shifts_from `{FloatText} (first : spec_float) (ss : list start) (out : gmap Z Z) : option (gmap Z Z) :=
  match ss with
  | [] => Some out
  | s :: ss =>
      let d := fsub (st_at s) first in
      if SFltb maxTrackLead d then None
      else shifts_from first ss (<[st_id s := round_int (fmul d (float64 (st_scale s)))]> out)
  end.

(** The header without edits, the shifts and the first start; the header as it is,
    without shifts, where a track does not say. *)
Definition flattenEdits `{FloatText} (init : list Z) : res (list Z * option (gmap Z Z) * spec_float) :=
  let! bs := boxes init in
  let! r := flat_boxes bs in
  Ok (match r with
      | Some (out, s :: ss) =>
          let first := first_start s ss in
          match shifts_from first (s :: ss) ∅ with Some m => (out, Some m, first) | None => (init, None, f0) end
      | _ => (init, None, f0)
      end).
