(* ===== verification/Timeline.v ===== *)
(** A live channel's clock and the dates of its playlists,
    [server/internal/live/timeline.go].

    A [Timeline] is the struct the mutex guards, without its [now]: the clock on
    the wall is an argument of what reads it. Text is code points, an instant
    nanoseconds after the zero [time.Time], which is far inside the range of
    both. [disk] gives [segmentStart] of a file by its name, [now] the clock during one
    rebuild. The C locale's paths: a separator is a slash. *)
From Stdlib Require Import SpecFloat.
From S2P Require Import Prelude GoText GoFloat Fmp4.
Local Open Scope Z_scope.
Local Open Scope go_scope.

(** ** The first time in a transport stream *)

(** One packet of [scanPTS]: its PES header's stream and time. *)
Definition packet_time (pkt : list Z) : res (option (Z * Z)) :=
  let! b0 := idx pkt 0 in
  if negb (b0 =? 0x47) then Ok None else
  let! b1 := idx pkt 1 in
  if Z.land b1 0x40 =? 0 then Ok None else
  let! b3 := idx pkt 3 in
  let afc := Z.land (Z.shiftr b3 4) 0x3 in
  if ((afc =? 2) || (afc =? 0))%bool then Ok None else
  let! payload := if afc =? 3 then let! b4 := idx pkt 4 in Ok (5 + b4) else Ok 4 in
  if 188 <? payload + 14 then Ok None else
  let! pes := slice_from pkt payload in
  let! p0 := idx pes 0 in let! p1 := idx pes 1 in let! p2 := idx pes 2 in let! p7 := idx pes 7 in
  if (negb (p0 =? 0) || negb (p1 =? 0) || negb (p2 =? 1) || (Z.land p7 0x80 =? 0))%bool then Ok None else
  let! p9 := idx pes 9 in let! p10 := idx pes 10 in let! p11 := idx pes 11 in
  let! p12 := idx pes 12 in let! p13 := idx pes 13 in
  let pts := Z.lor (Z.lor (Z.lor (Z.lor (Z.shiftl (Z.land (Z.shiftr p9 1) 0x07) 30) (Z.shiftl p10 22))
    (Z.shiftl (Z.shiftr p11 1) 15)) (Z.shiftl p12 7)) (Z.shiftr p13 1) in
  let! id := idx pes 3 in
  Ok (Some (id, pts)).

Definition keep_time (best : Z * Z) (t : option (Z * Z)) : Z * Z :=
  let ' (video, audio) := best in
  match t with
  | None => best
  | Some (id, pts) =>
      if ((0xE0 <=? id) && (id <=? 0xEF))%bool then
        (if ((video <? 0) || (ptsDiff pts video <? 0))%bool then pts else video, audio)
      else (video, if audio <? 0 then pts else audio)
  end.

(** The loop of [scanPTS] over what is left of the data. *)
Fixpoint scan_loop (fuel : nat) (data : list Z) (best : Z * Z) : res (Z * Z) :=
  if zlen data <? 188 then Ok best else
  match fuel with
  | O => NoFuel
  | S fuel =>
      let! pkt := slice data 0 188 in
      let! t := packet_time pkt in
      let! data := slice_from data 188 in
      scan_loop fuel data (keep_time best t)
  end.

Definition scanPTS (data : list Z) : res (option Z) :=
  let start := bytes_index data [0x47] in
  if start <? 0 then Ok None else
  let! data := slice_from data start in
  let! ' (video, audio) := scan_loop (length data) data (-1, -1) in
  Ok (if 0 <=? video then Some video else if 0 <=? audio then Some audio else None).

(** ** The clock *)

Record Timeline := mkTimeline {
  pts : Z; wall : Z; earliest : Z; set : bool; behind : Z;
  seedPTS : Z; seedWall : Z; seeded : bool; startWall : Z; carry : Z
}.

Definition NewTimeline : Timeline := mkTimeline 0 0 0 false (4 * Second) 0 0 false 0 0.

(** [time.Duration(d) * time.Second / 90000] *)
Definition of_ticks (d : Z) : Z := Z.quot (int64 (d * Second)) 90000.
Definition within_hour (d : Z) : bool := ((- (90000 * 3600) <? d) && (d <? 90000 * 3600))%bool.

Definition set_anchor (t : Timeline) (p w e c : Z) : Timeline :=
  mkTimeline p w e true (behind t) (seedPTS t) (seedWall t) (seeded t) (startWall t) c.

(** [Wall]: the date of a time, and the clock after it. *)
Definition Wall (now : Z) (t : Timeline) (p : Z) : Timeline * Z :=
  let d := ptsDiff p (pts t) in
  if (set t && within_hour d)%bool then (t, wall t + of_ticks d) else
  let w := now - behind t in
  let w := if (negb (set t) && negb (IsZero (startWall t)))%bool then startWall t else w in
  let d := ptsDiff p (seedPTS t) in
  let w := if (seeded t && negb (set t) && within_hour d)%bool then seedWall t + of_ticks d else w in
  (set_anchor t p w w (carry t), w).

Definition Seed (t : Timeline) (p w : Z) : Timeline :=
  if set t then t
  else mkTimeline (pts t) (wall t) (earliest t) (set t) (behind t) p w true (startWall t) (carry t).

Definition Start (t : Timeline) (w : Z) : Timeline :=
  if (set t || seeded t)%bool then t
  else mkTimeline (pts t) (wall t) (earliest t) (set t) (behind t) (seedPTS t) (seedWall t) (seeded t) w (carry t).

Definition hasDate (t : option Timeline) : bool :=
  match t with Some t => (set t || seeded t || negb (IsZero (startWall t)))%bool | None => false end.

Definition Anchor (t : Timeline) : Z * Z * bool := (pts t, wall t, set t).
Definition Reanchor (t : Timeline) (p w : Z) : Timeline := set_anchor t p (w + carry t) (earliest t) 0.
Definition Continue (t : Timeline) (p w : Z) : Timeline := set_anchor t p w (earliest t) 0.

Definition Shift (t : Timeline) (d : Z) : Timeline :=
  if (negb (set t) || (d <=? 0))%bool then t
  else set_anchor t (pts t) (wall t + d) (earliest t) (carry t + d).

Definition Settle (t : Timeline) : Timeline :=
  mkTimeline (pts t) (wall t) (earliest t) (set t) (behind t) (seedPTS t) (seedWall t) (seeded t) (startWall t) 0.

Definition Earliest (t : Timeline) : option Z := if set t then Some (earliest t) else None.

(** ** Text of a playlist *)

(** [strings.CutPrefix] and [strings.Cut] at one character *)
Definition cut_prefix (s pat : list Z) : option (list Z) :=
  if has_prefix pat s then Some (drop (length pat) s) else None.
Fixpoint cut_at (sep : Z) (s : list Z) : option (list Z * list Z) :=
  match s with
  | [] => None
  | c :: s => if c =? sep then Some ([], s) else
      match cut_at sep s with Some (a, b) => Some (c :: a, b) | None => None end
  end.
Definition trim_suffix (s pat : list Z) : list Z :=
  if has_prefix (reverse pat) (reverse s) then take (length s - length pat) s else s.

(** [filepath.Base] *)
Definition after_slash (s : list Z) : list Z := List.last (Split s 47) [].
Definition Base (s : list Z) : list Z :=
  if bytes_equal s [] then [46] else
  let s := reverse (trim_left_by (Z.eqb 47) (reverse s)) in
  let s := after_slash s in
  if bytes_equal s [] then [47] else s.

Section text.
Context `{Unicode, FloatText}.

(** One line of [pendingDur]; [None] goes on to the next. *)
Definition extinf (l : list Z) : option Z :=
  match cut_prefix (TrimSpace l) (lit "#EXTINF:") with
  | None => None
  | Some v =>
      let v := trim_suffix v [44] in
      let v := match cut_at 44 v with Some (a, _) => a | None => v end in
      match ParseFloat (TrimSpace v) with
      | None => None
      | Some f =>
          if SFleb f (S754_zero false) then None
          else Some (truncated (fmul f (float64 Second)))
      end
  end.
Fixpoint pendingDur (lines : list (list Z)) : Z :=
  match lines with
  | [] => 0
  | l :: lines => match extinf l with Some d => d | None => pendingDur lines end
  end.

Definition packedPTS (line : list Z) : option (list Z * Z) :=
  match cut_prefix (TrimSpace line) (lit "#EXT-X-PTS:") with
  | None => None
  | Some rest =>
      match cut_at 58 rest with
      | None => None
      | Some (name, raw) =>
          if (bytes_equal name [] || contains name [47] || contains name [46; 46])%bool then None
          else match Atoi raw with Some p => Some (name, p) | None => None end
      end
  end.
End text.

Definition partName (line : list Z) : list Z :=
  let key := lit "URI=" ++ [34] in
  let i := bytes_index line key in
  if i <? 0 then [] else
  match cut_at 34 (drop (Z.to_nat i + length key) line) with
  | Some (name, _) => Base name
  | None => []
  end.

(** [t.UTC().Format("2006-01-02T15:04:05.000Z")], of a year of four digits *)
Definition stamp_text (t : Z) : list Z :=
  let ms := t mod Second / 1000000 in
  removelast (rfc3339 t) ++ [46; 48 + ms / 100; 48 + ms / 10 mod 10; 48 + ms mod 10; 90].
Definition date_tag : list Z := lit "#EXT-X-PROGRAM-DATE-TIME".
Definition date_line (t : Z) : list Z := date_tag ++ [58] ++ stamp_text t.

(** ** The stamper *)

(** [cache], [walls] and [broke] by a file's name; a nil map is empty. [lastOut]
    is [None] where the slice is nil. *)
Record playlistStamper := mkStamper {
  cache : gmap (list Z) Z; walls : gmap (list Z) Z; broke : gset (list Z);
  lastSrc : list Z; lastOut : option (list Z); lastTimed : bool
}.
Definition new_stamper : playlistStamper := mkStamper ∅ ∅ ∅ [] None false.
Definition reset (p : playlistStamper) : playlistStamper := new_stamper.

(** The variables of one rebuild. [out] is what is written so far; [end_] is
    [lastEnd] with [haveEnd]; [cont] is [cont] with [contNext]; [open_] is
    [openAt], a place in [out], with [openWall]. *)
Record stamping := mkStamping {
  times : gmap (list Z) Z; dates : gmap (list Z) Z; anchored : gset (list Z);
  tl : option Timeline;
  out : list Z; seen : gset (list Z); pending : list (list Z);
  end_ : option Z; breakNext : bool; cont : option Z; missed : bool;
  open_ : option (nat * Z)
}.

Definition set_times (s : stamping) (x : gmap (list Z) Z) : stamping :=
  mkStamping x (dates s) (anchored s) (tl s) (out s) (seen s) (pending s) (end_ s) (breakNext s) (cont s) (missed s) (open_ s).
Definition set_date (s : stamping) (n : list Z) (w : Z) : stamping :=
  mkStamping (times s) (<[n := w]> (dates s)) (anchored s) (tl s) (out s) (seen s) (pending s) (end_ s) (breakNext s) (cont s) (missed s) (open_ s).
Definition set_anchored (s : stamping) (x : gset (list Z)) : stamping :=
  mkStamping (times s) (dates s) x (tl s) (out s) (seen s) (pending s) (end_ s) (breakNext s) (cont s) (missed s) (open_ s).
Definition set_tl (s : stamping) (t : Timeline) : stamping :=
  mkStamping (times s) (dates s) (anchored s) (Some t) (out s) (seen s) (pending s) (end_ s) (breakNext s) (cont s) (missed s) (open_ s).
Definition saw (s : stamping) (n : list Z) : stamping :=
  mkStamping (times s) (dates s) (anchored s) (tl s) (out s) ({[n]} ∪ seen s) (pending s) (end_ s) (breakNext s) (cont s) (missed s) (open_ s).
Definition set_pending (s : stamping) (l : list (list Z)) : stamping :=
  mkStamping (times s) (dates s) (anchored s) (tl s) (out s) (seen s) l (end_ s) (breakNext s) (cont s) (missed s) (open_ s).
Definition set_end (s : stamping) (e : Z) : stamping :=
  mkStamping (times s) (dates s) (anchored s) (tl s) (out s) (seen s) (pending s) (Some e) (breakNext s) (cont s) (missed s) (open_ s).
Definition set_break (s : stamping) (b : bool) (c : option Z) : stamping :=
  mkStamping (times s) (dates s) (anchored s) (tl s) (out s) (seen s) (pending s) (end_ s) b c (missed s) (open_ s).
Definition set_missed (s : stamping) : stamping :=
  mkStamping (times s) (dates s) (anchored s) (tl s) (out s) (seen s) (pending s) (end_ s) (breakNext s) (cont s) true (open_ s).
Definition set_open (s : stamping) (o : option (nat * Z)) : stamping :=
  mkStamping (times s) (dates s) (anchored s) (tl s) (out s) (seen s) (pending s) (end_ s) (breakNext s) (cont s) (missed s) o.
(** [out.WriteString(l + "\n")] *)
Definition write_line (s : stamping) (l : list Z) : stamping :=
  mkStamping (times s) (dates s) (anchored s) (tl s) (out s ++ l ++ [10]) (seen s) (pending s) (end_ s) (breakNext s) (cont s) (missed s) (open_ s).
Definition flush (s : stamping) : stamping := set_pending (fold_left write_line (pending s) s) [].

Section stamp.
Context `{Unicode, FloatText}.
Variable disk : list Z -> option Z.
Variable now : Z.

(** The time of a file: what the packer noted, or what is on the disk. *)
Definition time_of (s : stamping) (name : list Z) : stamping * option Z :=
  match times s !! name with
  | Some p => (s, Some p)
  | None => match disk name with Some p => (set_times s (<[name := p]> (times s)), Some p) | None => (s, None) end
  end.

Definition noteBreak (s : stamping) (p : Z) : stamping :=
  match end_ s, tl s with
  | Some e, Some t =>
      if breakNext s then
        set_break (set_tl s (match cont s with Some c => Continue t p (e + c) | None => Reanchor t p e end)) false None
      else s
  | _, _ => s
  end.

(** The first part of the open segment. *)
Definition open_part (s : stamping) (w : Z) : stamping :=
  match open_ s with
  | Some _ => s
  | None =>
      let w := match end_ s with Some e => if w <? e then e else w | None => w end in
      set_open s (Some (length (out s), w))
  end.

Definition part_break (s : stamping) (name : list Z) : stamping :=
  if (breakNext s && bool_decide (name ∈ anchored s))%bool then set_break s false (cont s)
  else match end_ s with
       | Some _ => if breakNext s then set_anchored s ({[name]} ∪ anchored s) else s
       | None => s
       end.

(** A part anchors the clock. *)
Definition on_part (s : stamping) (line trimmed : list Z) : stamping :=
  let s := flush s in
  let name := partName trimmed in
  let s :=
    if bytes_equal name [] then s else
    let s := saw s name in
    let ' (s, p) := time_of s name in
    match p, tl s with
    | None, Some _ => set_missed s
    | Some p, Some _ =>
        let s := noteBreak (part_break s name) p in
        match tl s with
        | Some t => let ' (t, w) := Wall now t p in open_part (set_tl s t) w
        | None => s
        end
    | _, None => s
    end in
  write_line s line.

(** A dated segment: its date, and where it ends. *)
Definition dated (s : stamping) (w : Z) : stamping :=
  let s := write_line s (date_line w) in
  let d := pendingDur (pending s) in
  if 0 <? d then set_end s (w + d) else s.

(** The clock gives a segment its date, never before the end of the last. *)
Definition date_of (s : stamping) (t : Timeline) (p : Z) : Timeline * Z :=
  let ' (t, w) := Wall now t p in
  match end_ s with
  | Some e => if w <? e then Wall now (Reanchor t p e) p else (t, w)
  | None => (t, w)
  end.

Definition on_segment (s : stamping) (line trimmed : list Z) : stamping :=
  let name := Base trimmed in
  let s := saw s name in
  let ' (s, p) := time_of s name in
  let s :=
    match dates s !! name with
    | Some w => set_break (dated s w) false (cont s)
    | None =>
        match p, tl s with
        | Some p, Some _ =>
            let s := noteBreak s p in
            match tl s with
            | Some t =>
                let ' (t, w) := date_of s t p in
                dated (set_date (set_tl s (Settle t)) name w) w
            | None => s
            end
        | None, Some _ => set_missed s
        | _, None => s
        end
    end in
  set_open (write_line (flush s) line) None.

Definition on_other (s : stamping) (line trimmed : list Z) : stamping :=
  let s := flush s in
  let s := if has_prefix (lit "#EXT-X-DISCONTINUITY") trimmed then set_break s true None else s in
  if bytes_equal line [] then s else write_line s line.

Definition stamp_line (s : stamping) (line : list Z) : stamping :=
  let trimmed := TrimSpace line in
  if has_prefix date_tag trimmed then s
  else if has_prefix (lit "#EXT-X-CONT:") trimmed then
    match Atoi (drop (length (lit "#EXT-X-CONT:")) trimmed) with
    | Some v => if breakNext s then set_break s true (Some (of_ticks v)) else s
    | None => s
    end
  else if has_prefix (lit "#EXT-X-PTS:") trimmed then
    match packedPTS trimmed with Some (name, p) => set_times s (<[name := p]> (times s)) | None => s end
  else if has_prefix (lit "#EXT-X-PART:") trimmed then on_part s line trimmed
  else if has_prefix (lit "#EXTINF") trimmed then set_pending s (pending s ++ [line])
  else if (negb (bytes_equal trimmed []) && negb (has_prefix [35] trimmed))%bool then on_segment s line trimmed
  else on_other s line trimmed.

Definition begin (p : playlistStamper) (t : option Timeline) : stamping :=
  mkStamping (cache p) (walls p) (broke p) t [] ∅ [] None false None false None.

(** The open segment's date line goes in where its first part starts. *)
Definition body_of (s : stamping) : list Z :=
  match open_ s with
  | Some (at_, w) => take at_ (out s) ++ date_line w ++ [10] ++ drop at_ (out s)
  | None => out s
  end.

(** Names that left the playlist are forgotten. *)
Definition gone (s : stamping) (name : list Z) : bool :=
  (bool_decide (is_Some (times s !! name)) && negb (bool_decide (name ∈ seen s)))%bool.
Definition kept_map (s : stamping) (m : gmap (list Z) Z) : gmap (list Z) Z := filter (fun x => gone s (fst x) = false) m.

(** The rebuild of a playlist. *)
Definition rebuild (p : playlistStamper) (src : list Z) (t : option Timeline) :
    playlistStamper * option Timeline * list Z :=
  let s := fold_left stamp_line (Split src 10) (begin p t) in
  let body := body_of s in
  let ' (last, o, timed) :=
    if missed s then (lastSrc p, lastOut p, lastTimed p)
    else (src, Some body, match t with Some _ => true | None => false end) in
  (mkStamper (kept_map s (times s)) (kept_map s (dates s)) (filter (fun n => gone s n = false) (anchored s)) last o timed,
   tl s, body).

(** What was handed out for the same file. *)
Definition reused (p : playlistStamper) (src : list Z) (t : option Timeline) : option (list Z) :=
  match lastOut p with
  | Some o =>
      if (Bool.eqb (lastTimed p) (match t with Some _ => true | None => false end) && bytes_equal (lastSrc p) src)%bool
      then Some o else None
  | None => None
  end.

Definition stamp (p : playlistStamper) (src : list Z) (t : option Timeline) :
    playlistStamper * option Timeline * list Z :=
  match reused p src t with Some o => (p, t, o) | None => rebuild p src t end.
End stamp.

(** ** Lines *)

Definition unlines (ls : list (list Z)) : list Z := concat (map (fun l => l ++ [10]) ls).

Inductive kind := Skip | Part | Inf | Segment (name : list Z) | Other.

Section lines.
Context `{Unicode, FloatText}.

(** What the stamper takes a line for. *)
Definition kind_of (line : list Z) : kind :=
  let trimmed := TrimSpace line in
  if (has_prefix date_tag trimmed || has_prefix (lit "#EXT-X-CONT:") trimmed || has_prefix (lit "#EXT-X-PTS:") trimmed)%bool
  then Skip
  else if has_prefix (lit "#EXT-X-PART:") trimmed then Part
  else if has_prefix (lit "#EXTINF") trimmed then Inf
  else if (negb (bytes_equal trimmed []) && negb (has_prefix [35] trimmed))%bool then Segment (Base trimmed)
  else Other.

(** The segments of a playlist: their file names, and their length by the lines before them. *)
Fixpoint listed (lines pending : list (list Z)) : list (list Z * Z) :=
  match lines with
  | [] => []
  | l :: lines =>
      match kind_of l with
      | Skip => listed lines pending
      | Inf => listed lines (pending ++ [l])
      | Segment name => (name, pendingDur pending) :: listed lines []
      | Part | Other => listed lines []
      end
  end.

(** The lines that are served, with the segments' dates [D]. *)
Fixpoint served (D : gmap (list Z) Z) (lines pending : list (list Z)) : list (list Z) :=
  match lines with
  | [] => []
  | l :: lines =>
      match kind_of l with
      | Skip => served D lines pending
      | Inf => served D lines (pending ++ [l])
      | Segment name =>
          (match D !! name with Some w => [date_line w] | None => [] end) ++ pending ++ [l] ++ served D lines []
      | Part => pending ++ [l] ++ served D lines []
      | Other => pending ++ (if bytes_equal l [] then [] else [l]) ++ served D lines []
      end
  end.
End lines.

(** ** Dates as text *)

(** The day of a date of the Gregorian calendar, counted from 1970-01-01: the years
    since 1 March of the year 0, four centuries at a time *)
Definition day_of (y m d : Z) : Z :=
  let y := if m <=? 2 then y - 1 else y in
  let doy := (153 * (if m <=? 2 then m + 9 else m - 3) + 2) / 5 + d - 1 in
  365 * y + y / 4 - y / 100 + y / 400 + doy - 719468.
(** Within four centuries: the first day of a year, the year of a day, and the months of
    a year of days *)
Definition year_start (y : Z) : Z := 365 * y + y / 4 - y / 100.
Definition year_days (doe : Z) : Z := doe - doe / 1460 + doe / 36524 - doe / 146096.
Definition in_months (doy : Z) : bool :=
  let mp := (5 * doy + 2) / 153 in
  let d := doy - (153 * mp + 2) / 5 + 1 in
  let m := if mp <? 10 then mp + 3 else mp - 9 in
  ((1 <=? m) && (m <=? 12) && (1 <=? d) && (d <=? 31) && ((153 * (if m <=? 2 then m + 9 else m - 3) + 2) / 5 + d - 1 =? doy))%bool.
Fixpoint all_below (f : Z -> bool) (n : nat) : bool := match n with O => true | S n => (f (Z.of_nat n) && all_below f n)%bool end.
Lemma all_below_spec f n x : all_below f n = true -> 0 <= x < Z.of_nat n -> f x = true.
Proof.
  induction n as [| n IH]; cbn [all_below]; [lia |]. intros [H1 H2]%andb_true_iff Hx. destruct (decide (x = Z.of_nat n)) as [-> | Hne]; [done |]. apply IH; [done | lia].
Qed.
Lemma year_days_mono x n : 0 <= x -> year_days x <= year_days (x + Z.of_nat n).
Proof.
  intros Hx. induction n as [| n IH]; [rewrite Z.add_0_r; lia |]. etransitivity; [exact IH |]. set (y := x + Z.of_nat n) in *.
  replace (x + Z.of_nat (S n)) with (y + 1) by lia. unfold year_days. clear IH.
  assert (forall z, z / 146096 = z / 36524 / 4) as Hdd by (intros z; by rewrite Z.div_div by lia). rewrite !Hdd. pose proof (Z.div_le_mono y (y + 1) 36524 ltac:(lia) ltac:(lia)) as H1.
  assert ((y + 1) / 36524 <= y / 36524 + 1) as H2 by (rewrite <- (Z.div_add y 1 36524) by lia; apply Z.div_le_mono; lia).
  assert ((y + 1) / 1460 <= y / 1460 + 1) as H3 by (rewrite <- (Z.div_add y 1 1460) by lia; apply Z.div_le_mono; lia).
  set (q := y / 36524) in *. set (q' := (y + 1) / 36524) in *. assert (q - q / 4 <= q' - q' / 4) by (assert (q' = q \/ q' = q + 1) as [-> | ->] by lia; dlia). lia.
Qed.
Definition year_checked (y : Z) : bool := ((year_days (year_start y) / 365 =? y) && (year_days (year_start (y + 1) - 1) / 365 =? y) && (year_start (y + 1) - year_start y <=? 366))%bool.
Lemma years_checked : all_below year_checked 400 = true.
Proof. vm_compute. reflexivity. Qed.
Lemma months_checked : all_below in_months 366 = true.
Proof. vm_compute. reflexivity. Qed.
Lemma year_of n doe : 0 <= doe < year_start (Z.of_nat n) -> exists y, 0 <= y < Z.of_nat n /\ year_start y <= doe < year_start (y + 1).
Proof.
  induction n as [| n IH]; [change (year_start (Z.of_nat 0)) with 0; lia |]. intros Hd. destruct (Z.lt_ge_cases doe (year_start (Z.of_nat n))) as [Hlt | Hge].
  - destruct (IH ltac:(lia)) as (y & Hy & H). exists y. split; [lia | done].
  - exists (Z.of_nat n). split; [lia |]. split; [done |]. replace (Z.of_nat n + 1) with (Z.of_nat (S n)) by lia. lia.
Qed.
Lemma year_days_of doe y : 0 <= doe -> 0 <= y < 400 -> year_start y <= doe < year_start (y + 1) -> year_days doe / 365 = y /\ doe - year_start y < 366.
Proof.
  intros H0 Hy Hd. pose proof (all_below_spec _ 400 y years_checked Hy) as Hc. unfold year_checked in Hc. rewrite !andb_true_iff in Hc. destruct Hc as [[H1 H2] H3].
  assert (0 <= year_start y) as Hs by (unfold year_start; dlia).
  pose proof (year_days_mono (year_start y) (Z.to_nat (doe - year_start y)) Hs) as Ha. pose proof (year_days_mono doe (Z.to_nat (year_start (y + 1) - 1 - doe)) H0) as Hb.
  replace (year_start y + Z.of_nat (Z.to_nat (doe - year_start y))) with doe in Ha by lia.
  replace (doe + Z.of_nat (Z.to_nat (year_start (y + 1) - 1 - doe))) with (year_start (y + 1) - 1) in Hb by lia.
  split; [| lia]. apply Z.eqb_eq in H1, H2. pose proof (Z.div_le_mono _ _ 365 ltac:(lia) Ha). pose proof (Z.div_le_mono _ _ 365 ltac:(lia) Hb). lia.
Qed.
Lemma doe_year doe : 0 <= doe < 146097 -> let y := year_days doe / 365 in 0 <= y < 400 /\ 0 <= doe - year_start y < 366.
Proof.
  intros Hd. cbv zeta. destruct (decide (doe = 146096)) as [-> | Hne]; [by vm_compute |]. destruct (year_of 400 doe) as (y & Hy & H); [change (year_start (Z.of_nat 400)) with 146096; lia |].
  destruct (year_days_of doe y ltac:(lia) Hy H) as [-> H2]. lia.
Qed.
Lemma civil_day day : let '(y, m, d) := civil day in day_of y m d = day /\ 1 <= m <= 12 /\ 1 <= d <= 31.
Proof.
  unfold civil. set (z := day + 719468). pose proof (Z.div_mod z 146097 ltac:(lia)) as Hz. pose proof (Z.mod_pos_bound z 146097 ltac:(lia)) as Hd.
  set (era := z / 146097) in *. set (doe := z mod 146097) in *.
  fold (year_days doe). destruct (doe_year doe Hd) as [Hyoe Hdoy]. set (yoe := year_days doe / 365) in *. fold (year_start yoe). set (doy := doe - year_start yoe) in *.
  pose proof (all_below_spec _ 366 doy months_checked Hdoy) as Hc. unfold in_months in Hc.
  set (mp := (5 * doy + 2) / 153) in *. set (d := doy - (153 * mp + 2) / 5 + 1) in *. set (m := if mp <? 10 then mp + 3 else mp - 9) in *.
  rewrite !andb_true_iff in Hc. destruct Hc as ((((H3 & H4) & H5) & H6) & H7). split; [| lia]. unfold year_start in doy.
  unfold day_of. destruct (m <=? 2) eqn:Em.
  - replace (yoe + era * 400 + 1 - 1) with (yoe + era * 400) by lia.
    assert ((yoe + era * 400) / 400 = era) as E1 by (rewrite Z.div_add by lia; rewrite Z.div_small by lia; lia). assert ((yoe + era * 400) / 100 = yoe / 100 + 4 * era) as E2 by (replace (era * 400) with (4 * era * 100) by lia; by rewrite Z.div_add by lia). assert ((yoe + era * 400) / 4 = yoe / 4 + 100 * era) as E3 by (replace (era * 400) with (100 * era * 4) by lia; by rewrite Z.div_add by lia).
    rewrite E1, E2, E3. unfold z in *. lia.
  - replace (yoe + era * 400 + 0) with (yoe + era * 400) by lia.
    assert ((yoe + era * 400) / 400 = era) as E1 by (rewrite Z.div_add by lia; rewrite Z.div_small by lia; lia). assert ((yoe + era * 400) / 100 = yoe / 100 + 4 * era) as E2 by (replace (era * 400) with (4 * era * 100) by lia; by rewrite Z.div_add by lia). assert ((yoe + era * 400) / 4 = yoe / 4 + 100 * era) as E3 by (replace (era * 400) with (100 * era * 4) by lia; by rewrite Z.div_add by lia).
    rewrite E1, E2, E3. unfold z in *. lia.
Qed.

(** What a reader of a date makes of it: milliseconds since 1970, none for another text *)
Definition number_at (l : list Z) (i n : nat) : Z := fold_left (fun v c => 10 * v + (c - 48)) (take n (drop i l)) 0.
Definition read_stamp (l : list Z) : option Z :=
  if (bytes_equal (map (fun i => nth i l 0) [4; 7; 10; 13; 16; 19; 23]%nat) (lit "--T::.Z") && (zlen l =? 24))%bool then
    Some ((((day_of (number_at l 0 4) (number_at l 5 2) (number_at l 8 2) * 24 + number_at l 11 2) * 60 + number_at l 14 2) * 60 + number_at l 17 2) * 1000 + number_at l 20 3)
  else None.
(** The times whose year has four digits *)
Definition four_digit_year (t : Z) : Prop := 0 <= t < of_unix 253402300800.

Lemma stamp_reads t : four_digit_year t -> read_stamp (stamp_text t) = Some (t / 1000000 - unix_epoch * 1000).
Proof.
  unfold four_digit_year, of_unix. intros Ht. unfold stamp_text, rfc3339. pose proof (civil_day (unix t / 86400)) as Hc. set (s := unix t) in *.
  assert (-62135596800 <= s < 253402300800) as Hs by (unfold s, unix, unix_epoch, Second in *; dlia).
  destruct (civil (s / 86400)) as [[y m] d] eqn:Ec. destruct Hc as (Hday & Hm & Hd).
  assert (0 <= y <= 9999) as Hy by (unfold day_of in Hday; destruct (m <=? 2) eqn:Em; dlia).
  set (ms := t mod Second / 1000000). assert (0 <= ms < 1000) as Hms by (unfold ms, Second; dlia).
  set (r := s mod 86400). assert (0 <= r < 86400) as Hr by (unfold r; dlia).
  unfold four, two. cbn [app]. unfold removelast. unfold read_stamp. cbn [app map nth]. unfold number_at. cbn [take drop fold_left].
  assert (bytes_equal [45; 45; 84; 58; 58; 46; 90] (lit "--T::.Z") = true) as -> by reflexivity.
  match goal with |- context [zlen ?l =? 24] => change (zlen l =? 24) with true end. cbn [andb]. f_equal.
  replace (10 * (10 * (10 * (10 * 0 + (48 + y / 100 / 10 - 48)) + (48 + (y / 100) mod 10 - 48)) + (48 + y mod 100 / 10 - 48)) + (48 + (y mod 100) mod 10 - 48)) with y by dlia.
  assert (forall n, 10 * (10 * 0 + (48 + n / 10 - 48)) + (48 + n mod 10 - 48) = n) as E2 by (intros n; dlia). rewrite !E2. rewrite Hday.
  replace (10 * (10 * (10 * 0 + (48 + ms / 100 - 48)) + (48 + ms / 10 mod 10 - 48)) + (48 + ms mod 10 - 48)) with ms by dlia.
  assert (t / 1000000 = (s + unix_epoch) * 1000 + ms) as ->.
  { unfold ms, s, unix, unix_epoch, Second in *. clear -Ht. pose proof (Z.div_mod t 1000000000). pose proof (Z.mod_pos_bound t 1000000000). 
    rewrite (Z.div_mod t 1000000000) at 1 by lia. replace (1000000000 * (t / 1000000000)) with (t / 1000000000 * 1000 * 1000000) by lia. rewrite Z.add_comm, Z.div_add by lia. lia. }
  unfold r. pose proof (Z.div_mod s 86400 ltac:(lia)). set (q := s / 86400) in *. clearbody q. fold r. fold r in H. clearbody r.
  assert (r / 3600 * 3600 + r mod 3600 / 60 * 60 + r mod 60 = r) as Er by dlia. lia.
Qed.

(** The date of a line of a playlist, where it has one *)
Definition read_line (l : list Z) : option Z :=
  if has_prefix (date_tag ++ [58]) l then read_stamp (drop (length (date_tag ++ [58])) l) else None.
(** The dates of a playlist's lines, in order *)
Definition read_dates (ls : list (list Z)) : list Z := omap read_line ls.
(** A time in whole milliseconds since 1970 *)
Definition in_ms (t : Z) : Z := t / 1000000 - unix_epoch * 1000.
Lemma date_line_reads t : four_digit_year t -> read_line (date_line t) = Some (in_ms t).
Proof.
  intros Ht. unfold read_line, date_line. rewrite app_assoc. rewrite (proj2 (has_prefix_spec (date_tag ++ [58]) _)) by (by eexists). rewrite drop_app_length. by apply stamp_reads.
Qed.

(** A line the stamper does not pass over has no date. *)
Lemma trimmed_date `{Unicode} l : has_prefix date_tag l = true -> has_prefix date_tag (TrimSpace l) = true.
Proof.
  intros [r ->]%has_prefix_spec. unfold TrimSpace, trim_by. assert (trim_left_by is_space (date_tag ++ r) = date_tag ++ r) as -> by done.
  rewrite reverse_app. assert (forall a, trim_left_by is_space (reverse date_tag) = reverse date_tag /\ exists b, trim_left_by is_space (a ++ reverse date_tag) = b ++ reverse date_tag) as Hb.
  { intros a. split; [done |]. induction a as [| c a [b IH]]; [by exists [] |]. cbn [app trim_left_by]. destruct (is_space c); [by exists b | by exists (c :: a)]. }
  destruct (Hb (reverse r)) as (_ & b & ->). rewrite reverse_app, reverse_involutive. apply has_prefix_spec. by eexists.
Qed.
Lemma quiet_line `{Unicode} l : has_prefix date_tag (TrimSpace l) = false -> read_line l = None.
Proof.
  intros Hn. unfold read_line. destruct (has_prefix (date_tag ++ [58]) l) eqn:E; [| done]. apply has_prefix_spec in E as [r ->].
  rewrite trimmed_date in Hn; [done |]. apply has_prefix_spec. exists ([58] ++ r). by rewrite app_assoc.
Qed.

Lemma unlines_app a b : unlines (a ++ b) = unlines a ++ unlines b.
Proof. unfold unlines. by rewrite map_app, concat_app. Qed.

(** A state after some lines were written and nothing else. *)
Definition with_out (s : stamping) (o : list Z) (p : list (list Z)) : stamping :=
  mkStamping (times s) (dates s) (anchored s) (tl s) o (seen s) p (end_ s) (breakNext s) (cont s) (missed s) (open_ s).

Lemma flush_eq s : flush s = with_out s (out s ++ unlines (pending s)) [].
Proof.
  unfold flush. enough (forall l s, fold_left write_line l s = with_out s (out s ++ unlines l) (pending s)) as -> by done.
  induction l as [| x l IH]; intros s'; cbn [fold_left].
  - destruct s'. unfold with_out. cbn. by rewrite app_nil_r.
  - rewrite IH. destruct s'. unfold with_out, write_line. cbn. by rewrite <- !app_assoc.
Qed.

Lemma write_line_eq s l : write_line s l = with_out s (out s ++ unlines [l]) (pending s).
Proof. unfold write_line, with_out, unlines. cbn. by rewrite app_nil_r. Qed.

#[local] Arguments unlines _ : simpl never.
#[local] Arguments date_line _ : simpl never.

(** ** The clock's reading *)

Definition timeline_ok (t : Timeline) : Prop := 0 <= carry t.
Definition clock_ok (t : option Timeline) : Prop := match t with Some t => timeline_ok t | None => True end.

Lemma ptsDiff_diag p : ptsDiff p p = 0.
Proof. unfold ptsDiff. rewrite Z.sub_diag. reflexivity. Qed.

Lemma Wall_anchor now t p : set t = true -> pts t = p -> Wall now t p = (t, wall t).
Proof.
  intros Hs Hp. unfold Wall. rewrite Hs, Hp, ptsDiff_diag. cbn [andb]. change (within_hour 0) with true. cbv iota.
  change (of_ticks 0) with 0. by rewrite Z.add_0_r.
Qed.

Lemma Wall_ok now t p : timeline_ok t -> timeline_ok (fst (Wall now t p)).
Proof. intros Ht. unfold Wall. by destruct (_ && _)%bool. Qed.

Lemma date_of_spec now s t p :
  timeline_ok t ->
  timeline_ok (fst (date_of now s t p)) /\ (forall e, end_ s = Some e -> e <= snd (date_of now s t p)).
Proof.
  intros Ht. unfold date_of. pose proof (Wall_ok now t p Ht) as Hw. destruct (Wall now t p) as [t1 w]. cbn [fst] in Hw.
  destruct (end_ s) as [e |]; [| by split]. destruct (w <? e) eqn:E.
  - rewrite Wall_anchor by done. cbn [fst snd wall Reanchor set_anchor]. split; [unfold timeline_ok; cbn; lia |].
    intros e' [= <-]. unfold timeline_ok in Hw. lia.
  - cbn [fst snd]. split; [done |]. intros e' [= <-]. lia.
Qed.

(** ** Dates in order *)

(** The dates of listed segments, with their lengths. *)
Definition dates_of (D : gmap (list Z) Z) (L : list (list Z * Z)) : list (Z * Z) :=
  omap (fun x => option_map (fun w => (w, snd x)) (D !! fst x)) L.

(** No segment starts before the one before it ends. *)
Fixpoint follows (e : option Z) (l : list (Z * Z)) : Prop :=
  match l with
  | [] => True
  | (w, d) :: l =>
      match e with Some e => e <= w | None => True end /\ follows (if 0 <? d then Some (w + d) else e) l
  end.

Lemma dates_of_cons D n d L :
  dates_of D ((n, d) :: L) = match D !! n with Some w => [(w, d)] | None => [] end ++ dates_of D L.
Proof. unfold dates_of. cbn. by destruct (D !! n). Qed.

Lemma dates_of_ext D D' L : (forall n, n ∈ map fst L -> D' !! n = D !! n) -> dates_of D' L = dates_of D L.
Proof.
  induction L as [| [n d] L IH]; intros Hn; [done |]. rewrite !dates_of_cons, Hn by set_solver.
  rewrite IH; [done |]. intros m Hm. apply Hn. set_solver.
Qed.

(** Where the last dated segment ends. *)
Fixpoint last_end (e : option Z) (l : list (Z * Z)) : option Z :=
  match l with [] => e | (w, d) :: l => last_end (if 0 <? d then Some (w + d) else e) l end.

Lemma served_ext `{Unicode, FloatText} D D' lines pend :
  (forall n, n ∈ map fst (listed lines pend) -> D' !! n = D !! n) -> served D' lines pend = served D lines pend.
Proof.
  revert pend. induction lines as [| l lines IH]; intros pend Hn; cbn [served listed] in *; [done |].
  destruct (kind_of l) as [| | | name |]; [by apply IH | by rewrite IH | by apply IH | | by rewrite IH].
  rewrite Hn by (cbn; set_solver). rewrite IH; [done |]. intros m Hm. apply Hn. cbn. set_solver.
Qed.

Lemma kept_seen (s : stamping) (m : gmap (list Z) Z) (n : list Z) : n ∈ seen s -> kept_map s m !! n = m !! n.
Proof.
  intros Hn. unfold kept_map. destruct (m !! n) as [w |] eqn:E.
  - apply map_lookup_filter_Some. split; [done |]. cbn. unfold gone. rewrite (bool_decide_eq_true_2 _ Hn). by rewrite andb_false_r.
  - by apply map_lookup_filter_None_2; left.
Qed.

(** ** One line *)

Section step.
Context `{Unicode, FloatText} (disk : list Z -> option Z) (now : Z).

Lemma time_of_frame s name : exists x, fst (time_of disk s name) = set_times s x.
Proof.
  unfold time_of. destruct (times s !! name); [exists (times s); by destruct s |].
  destruct (disk name); [by eexists | exists (times s); by destruct s].
Qed.

(** What a line leaves alone: the dates, the end, and with a clock a clock. *)
Record same_dates (s s' : stamping) : Prop := mkSame {
  same_dates_map : dates s' = dates s;
  same_end : end_ s' = end_ s;
  same_clock : is_Some (tl s) -> is_Some (tl s');
  same_ok : clock_ok (tl s) -> clock_ok (tl s')
}.

Lemma same_refl s : same_dates s s.
Proof. by constructor. Qed.

Lemma same_trans s1 s2 s3 : same_dates s1 s2 -> same_dates s2 s3 -> same_dates s1 s3.
Proof. intros [] []. constructor; [congruence | congruence | auto | auto]. Qed.

Lemma noteBreak_same s p : same_dates s (noteBreak s p) /\ out (noteBreak s p) = out s /\
  pending (noteBreak s p) = pending s /\ open_ (noteBreak s p) = open_ s.
Proof.
  unfold noteBreak. destruct (end_ s) as [e |] eqn:Ee; [| by split; [apply same_refl |]].
  destruct (tl s) as [t |] eqn:Et; [| by split; [apply same_refl |]].
  destruct (breakNext s); [| by split; [apply same_refl |]].
  split; [| done]. constructor; [done | done | by eexists |]. intros _. cbn. unfold timeline_ok. by destruct (cont s).
Qed.

Lemma part_break_same s name : same_dates s (part_break s name) /\ out (part_break s name) = out s /\
  pending (part_break s name) = pending s /\ open_ (part_break s name) = open_ s.
Proof. unfold part_break. repeat case_match; by split; [constructor |]. Qed.

Lemma open_part_same s w : same_dates s (open_part s w) /\ out (open_part s w) = out s /\
  pending (open_part s w) = pending s /\
  (open_ (open_part s w) = open_ s \/ (open_ s = None /\ exists w', open_ (open_part s w) = Some (length (out s), w') /\
    (forall e, end_ s = Some e -> e <= w'))).
Proof.
  unfold open_part. destruct (open_ s) as [o |] eqn:Eo; [by split_and!; [apply same_refl | done | done | left] |].
  split_and!; [by constructor | done | done |]. right. split; [done |]. eexists. split; [done |].
  intros e ->. destruct (w <? e) eqn:E; lia.
Qed.

(** What a line that is no segment writes. *)
Record plain_step (s s' : stamping) (wrote : list (list Z)) (left : list (list Z)) : Prop := mkPlain {
  plain_same : same_dates s s';
  plain_out : out s' = out s ++ unlines wrote;
  plain_pending : pending s' = left;
  plain_open : open_ s' = open_ s \/ (open_ s = None /\ wrote <> [] /\ exists w,
    open_ s' = Some (length (out s ++ unlines (pending s)), w) /\ (forall e, end_ s = Some e -> e <= w) /\
    exists l, wrote = pending s ++ [l] /\ kind_of l = Part)
}.

Lemma on_part_step s line trimmed : kind_of line = Part -> plain_step s (on_part disk now s line trimmed) (pending s ++ [line]) [].
Proof.
  intros Hkind. unfold on_part. rewrite flush_eq. set (s0 := with_out s _ []).
  assert (same_dates s s0) as Hs0 by by constructor.
  match goal with |- plain_step _ (write_line ?x _) _ _ => set (s1 := x) end.
  assert (same_dates s0 s1 /\ out s1 = out s0 /\ pending s1 = [] /\ (open_ s1 = open_ s \/ (open_ s = None /\ exists w,
    open_ s1 = Some (length (out s0), w) /\ (forall e, end_ s = Some e -> e <= w)))) as (H1 & Ho & Hp & Hopen).
  { unfold s1. destruct (bytes_equal _ []); [by split_and!; [apply same_refl | done | done | left] |].
    destruct (time_of_frame (saw s0 (partName trimmed)) (partName trimmed)) as [x Hx].
    destruct (time_of disk _ _) as [s2 p]. cbn [fst] in Hx. subst s2.
    assert (same_dates s0 (set_times (saw s0 (partName trimmed)) x)) as H2 by by constructor.
    destruct p as [p |]; cbn [tl set_times saw s0 with_out]; [| by destruct (tl s); split_and!; try constructor].
    destruct (tl s) as [t |] eqn:Et; [| by split_and!; [constructor | done | done | left]].
    match goal with |- context [part_break ?s2 ?n] => set (s3 := s2) in *; destruct (part_break_same s3 n) as (H3 & Ho3 & Hp3 & Hw3) end.
    destruct (noteBreak_same (part_break s3 (partName trimmed)) p) as (H4 & Ho4 & Hp4 & Hw4).
    set (s4 := noteBreak _ _) in *. assert (same_dates s0 s4) as H5 by eauto using same_trans.
    destruct (tl s4) as [t4 |] eqn:Et4; [| split_and!; [done | by rewrite Ho4, Ho3 | by rewrite Hp4, Hp3 | left; by rewrite Hw4, Hw3]].
    destruct (Wall now t4 p) as [t5 w] eqn:Ew. destruct (open_part_same (set_tl s4 t5) w) as (H6 & Ho6 & Hp6 & Hw6).
    assert (open_ s4 = open_ s) as Eo by (by rewrite Hw4, Hw3). assert (out s4 = out s0) as Eout by (by rewrite Ho4, Ho3).
    split_and!; [| rewrite Ho6; cbn; by rewrite Ho4, Ho3 | rewrite Hp6; cbn; by rewrite Hp4, Hp3 |
      cbn [open_ out end_ set_tl] in Hw6; rewrite Eo, Eout, (same_end _ _ H5) in Hw6; exact Hw6].
    eapply same_trans; [exact H5 |]. eapply same_trans; [| exact H6]. constructor; [done | done | by eexists |].
    rewrite Et4. intros Hc. pose proof (Wall_ok now t4 p Hc) as Hw. by rewrite Ew in Hw. }
  rewrite write_line_eq. constructor.
  - eapply same_trans; [exact Hs0 |]. eapply same_trans; [exact H1 |]. by constructor.
  - cbn [out with_out]. rewrite Ho. unfold s0. cbn [out with_out]. by rewrite unlines_app, <- app_assoc.
  - done.
  - destruct Hopen as [Hw | (Hn & w & Hw & Hle)]; [by left | right]. split; [done |]. split; [by destruct (pending s) |].
    exists w. split_and!; [exact Hw | exact Hle |]. by exists line.
Qed.

Lemma on_other_step s line trimmed :
  plain_step s (on_other s line trimmed) (pending s ++ (if bytes_equal line [] then [] else [line])) [].
Proof.
  unfold on_other. rewrite flush_eq.
  destruct (has_prefix _ trimmed), (bytes_equal line []); rewrite ?write_line_eq;
    (constructor; [by constructor | cbn [out with_out set_break pending] | done | by left]); rewrite ?app_nil_r, ?unlines_app, ?app_assoc; done.
Qed.

(** A segment takes the date it has, or one the clock gives it. *)
Record segment_step (s s' : stamping) (name line : list Z) : Prop := mkSegment {
  segment_known w : dates s !! name = Some w -> dates s' = dates s;
  segment_fresh : dates s !! name = None -> dates s' = dates s \/
    exists w, dates s' = <[name := w]> (dates s) /\ (clock_ok (tl s) -> forall e, end_ s = Some e -> e <= w);
  segment_end : end_ s' = match dates s' !! name with
    | Some w => if 0 <? pendingDur (pending s) then Some (w + pendingDur (pending s)) else end_ s
    | None => end_ s
    end;
  segment_out : out s' = out s ++ unlines ((match dates s' !! name with Some w => [date_line w] | None => [] end) ++ pending s ++ [line]);
  segment_pending : pending s' = [];
  segment_open : open_ s' = None;
  segment_clock : is_Some (tl s) -> is_Some (tl s');
  segment_ok : clock_ok (tl s) -> clock_ok (tl s')
}.

Lemma dated_eq s w :
  dated s w = (let s' := with_out s (out s ++ unlines [date_line w]) (pending s) in
    if 0 <? pendingDur (pending s) then set_end s' (w + pendingDur (pending s)) else s').
Proof. unfold dated. by rewrite write_line_eq. Qed.

Lemma on_segment_step s line trimmed : segment_step s (on_segment disk now s line trimmed) (Base trimmed) line.
Proof.
  unfold on_segment. set (name := Base trimmed).
  destruct (time_of_frame (saw s name) name) as [x Hx]. destruct (time_of disk _ _) as [s2 p]. cbn [fst] in Hx. subst s2.
  cbn [dates set_times saw]. destruct (dates s !! name) as [w |] eqn:Ed.
  { rewrite flush_eq, write_line_eq, dated_eq. destruct (0 <? pendingDur (pending s)) eqn:E; cbn; rewrite E; constructor; cbn;
      rewrite ?Ed, ?E; try done; by rewrite !unlines_app, !app_assoc. }
  assert (forall s1, same_dates s s1 -> out s1 = out s -> pending s1 = pending s ->
    segment_step s (set_open (write_line (flush s1) line) None) name line) as Hplain.
  { intros s1 [Hd He Hc Hk] Ho Hp. rewrite flush_eq, write_line_eq. constructor; cbn; rewrite ?Hd, ?Ed, ?Ho, ?Hp; auto; try done.
    cbn [app]. by rewrite unlines_app, app_assoc. }
  cbn [tl set_times saw]. destruct p as [p |].
  2: { destruct (tl s) eqn:Et; apply Hplain; try done; constructor; cbn; rewrite ?Et; done. }
  destruct (tl s) as [t |] eqn:Et; [| apply Hplain; try done; by constructor].
  match goal with |- context [noteBreak ?s2 p] => destruct (noteBreak_same s2 p) as ([Hd He Hc Hk] & Ho & Hp & _) end.
  set (s4 := noteBreak _ _) in *. cbn in Hd, He, Hc, Hk, Ho, Hp. rewrite Et in Hc, Hk.
  destruct (tl s4) as [t4 |] eqn:Et4; [| destruct (Hc ltac:(by eexists)); done].
  destruct (date_of now s4 t4 p) as [t5 w] eqn:Ew. rewrite dated_eq.
  assert (clock_ok (tl s) -> timeline_ok (Settle t5) /\ forall e, end_ s = Some e -> e <= w) as Hdate.
  { rewrite Et. intros Hk4%Hk. pose proof (date_of_spec now s4 t4 p Hk4) as [_ Hle]. rewrite Ew in Hle.
    split; [unfold timeline_ok; cbn; lia |]. by rewrite He in Hle. }
  rewrite flush_eq, write_line_eq. cbn [pending set_date set_tl]. rewrite Hp.
  destruct (0 <? pendingDur (pending s)) eqn:E; cbn; rewrite ?Hp, ?Hd, ?He, ?Ho; constructor; cbn; rewrite ?lookup_insert_eq, ?E; try done;
    try (by eexists); try (by intros Hk'; apply Hdate); rewrite ?(unlines_app [_]), ?unlines_app, ?app_assoc; try done.
  1, 3: by rewrite Ed.
  all: intros _; right; exists w; split; [by rewrite Hd | intros Hk'; by apply Hdate].
Qed.

Lemma stamp_line_step s l :
  let s' := stamp_line disk now s l in
  match kind_of l with
  | Skip => plain_step s s' [] (pending s)
  | Part => plain_step s s' (pending s ++ [l]) []
  | Inf => plain_step s s' [] (pending s ++ [l])
  | Segment name => segment_step s s' name l
  | Other => plain_step s s' (pending s ++ (if bytes_equal l [] then [] else [l])) []
  end.
Proof.
  assert (forall s2 left, same_dates s s2 -> out s2 = out s -> pending s2 = left -> open_ s2 = open_ s -> plain_step s s2 [] left) as Hquiet.
  { intros s2 left H1 H2 H3 H4. constructor; [done | | done | by left]. change (unlines []) with (@nil Z). by rewrite app_nil_r. }
  cbv zeta. pose proof (fun H => on_part_step s l (TrimSpace l) H) as Hpart. unfold kind_of in Hpart. revert Hpart.
  unfold stamp_line, kind_of. set (trimmed := TrimSpace l).
  destruct (has_prefix date_tag trimmed); intros Hpart; [by apply Hquiet; [apply same_refl | | |] |]. cbn [orb].
  destruct (has_prefix (lit "#EXT-X-CONT:") trimmed).
  { destruct (Atoi _); [destruct (breakNext s) |]; apply Hquiet; done || by constructor. }
  cbn [orb]. destruct (has_prefix (lit "#EXT-X-PTS:") trimmed).
  { destruct (packedPTS trimmed) as [[? ?] |]; apply Hquiet; done || by constructor. }
  destruct (has_prefix (lit "#EXT-X-PART:") trimmed); [by apply Hpart |].
  destruct (has_prefix (lit "#EXTINF") trimmed); [apply Hquiet; done || by constructor |].
  destruct (_ && _)%bool; [apply on_segment_step | apply on_other_step].
Qed.

Lemma segment_dates s s' name l : segment_step s s' name l ->
  dates s' = dates s \/ (dates s !! name = None /\ exists w, dates s' = <[name := w]> (dates s) /\
    (clock_ok (tl s) -> forall e, end_ s = Some e -> e <= w)).
Proof.
  intros [H1 H2 _ _ _ _ _ _]. destruct (dates s !! name) as [w |]; [left; by eapply H1 |].
  destruct (H2 eq_refl) as [? | ?]; [by left | by right].
Qed.

(** ** A rebuild *)

Definition run_lines (lines : list (list Z)) (s : stamping) : stamping := fold_left (stamp_line disk now) lines s.

(** A date that is given stays; only listed segments are given one. *)
Lemma run_lines_dates lines s :
  let s' := run_lines lines s in
  (forall n w, dates s !! n = Some w -> dates s' !! n = Some w) /\
  (forall n, n ∉ map fst (listed lines (pending s)) -> dates s' !! n = dates s !! n) /\
  (clock_ok (tl s) -> clock_ok (tl s')) /\ (is_Some (tl s) -> is_Some (tl s')).
Proof.
  revert s. induction lines as [| l lines IH]; intros s; cbn [run_lines fold_left listed]; [done |].
  fold (run_lines lines (stamp_line disk now s l)). specialize (IH (stamp_line disk now s l)).
  pose proof (stamp_line_step s l) as Hl. cbv zeta in *. destruct IH as (I1 & I2 & I3 & I4).
  destruct (kind_of l) as [| | | name |];
    try (destruct Hl as [[Hd _ Hc Hk] _ Hp _]; rewrite Hp in I2; rewrite Hd in I1, I2; split_and!; auto; fail).
  pose proof (segment_dates _ _ _ _ Hl) as Hd. destruct Hl as [_ _ _ _ Hp _ Hc Hk]. rewrite Hp in I2. split_and!; [| | auto | auto].
  - intros n w Hn. apply I1. destruct Hd as [-> | (E & w1 & -> & _)]; [done |]. rewrite lookup_insert_ne; [done | congruence].
  - intros n [Hne Hn]%not_elem_of_cons. rewrite I2 by done. destruct Hd as [-> | (E & w1 & -> & _)]; [done |].
    by rewrite lookup_insert_ne.
Qed.

(** The segments not dated yet come last, each once. *)
Definition grows (D : gmap (list Z) Z) (old new : list (list Z * Z)) : Prop :=
  Forall (fun x => is_Some (D !! fst x)) old /\ Forall (fun x => D !! fst x = None) new /\ NoDup (map fst new).

Lemma run_lines_follows lines s old new :
  clock_ok (tl s) -> listed lines (pending s) = old ++ new -> grows (dates s) old new ->
  follows (end_ s) (dates_of (dates s) old) ->
  follows (end_ s) (dates_of (dates (run_lines lines s)) (old ++ new)).
Proof.
  revert s old new. induction lines as [| l lines IH]; intros s old new Hk HL Hg Hf.
  { symmetry in HL. apply app_nil in HL as [-> ->]. done. }
  cbn [run_lines fold_left listed] in *. fold (run_lines lines (stamp_line disk now s l)).
  pose proof (stamp_line_step s l) as Hl. cbv zeta in *. pose proof (run_lines_dates lines (stamp_line disk now s l)) as (I1 & I2 & _).
  destruct (kind_of l) as [| | | name |];
    try (destruct Hl as [[Hd He Hc Hk'] _ Hp _]; rewrite <- He; apply IH; rewrite ?Hp, ?Hd, ?He; auto; fail).
  pose proof (segment_dates _ _ _ _ Hl) as H2. destruct Hl as [H1 _ He _ Hp _ Hc Hk']. set (s1 := stamp_line disk now s l) in *. specialize (IH s1).
  destruct Hg as (Ho & Hn & Hnd). destruct old as [| [n d] old]; cbn [app] in *.
  - destruct new as [| [n d] new]; [done |]. injection HL as <- <- HL. apply Forall_cons in Hn as [Hn0 Hn].
    cbn [map fst] in Hn0, Hnd. apply NoDup_cons in Hnd as [Hnin Hnd].
    assert (Forall (fun x => dates s1 !! fst x = None) new) as Hn1.
    { destruct H2 as [-> | (_ & w & -> & _)]; [done |]. rewrite Forall_forall in Hn |- *. intros x Hx.
      rewrite lookup_insert_ne; [by apply Hn |]. intros ->. apply Hnin. apply list_elem_of_fmap. by exists x. }
    specialize (IH [] new (Hk' Hk) ltac:(by rewrite Hp) (conj (Forall_nil_2 _) (conj Hn1 Hnd)) I). cbn [app] in IH.
    rewrite dates_of_cons. rewrite He in IH.
    destruct (dates s1 !! name) as [w |] eqn:E.
    + rewrite (I1 _ _ E). cbn [app follows]. split; [| exact IH].
      destruct H2 as [Hd | (_ & w' & Hd & Hle)]; [by rewrite Hd, Hn0 in E |]. rewrite Hd, lookup_insert_eq in E. injection E as ->.
      destruct (end_ s); [by apply Hle | done].
    + rewrite (I2 name), E; [done |]. rewrite Hp, HL. exact Hnin.
  - injection HL as <- <- HL. apply Forall_cons in Ho as [[w Hw] Ho]. cbn [fst] in Hw. rewrite dates_of_cons, Hw in Hf.
    cbn [app follows] in Hf. destruct Hf as [Hf0 Hf]. rewrite (H1 w Hw), Hw in He.
    rewrite dates_of_cons. rewrite (I1 name w) by (by rewrite (H1 w Hw)). cbn [app follows]. split; [done |].
    rewrite <- He. rewrite <- He in Hf. apply IH; rewrite ?Hp, ?(H1 w Hw); auto. by split.
Qed.

(** What has been written, as lines, and where the open segment starts in them. *)
Definition quiet (l : list Z) : Prop := read_line l = None.
Definition opened (s : stamping) (a b : list (list Z)) (w : Z) : Prop :=
  open_ s = Some (length (unlines a), w) /\ (forall e, end_ s = Some e -> e <= w) /\
  (exists l b', b = l :: b' /\ kind_of l = Part) /\ Forall quiet b.
Definition written (s : stamping) (ls : list (list Z)) : Prop :=
  Forall quiet (pending s) /\ out s = unlines ls /\ (open_ s = None \/ exists a b w, ls = a ++ b /\ opened s a b w).

Lemma kind_quiet l : kind_of l <> Skip -> quiet l.
Proof. intros Hk. apply quiet_line. destruct (has_prefix date_tag (TrimSpace l)) eqn:E; [| done]. destruct Hk. unfold kind_of. by rewrite E. Qed.

Lemma written_plain s s' wrote left ls :
  plain_step s s' wrote left -> Forall quiet wrote -> Forall quiet left -> written s ls -> written s' (ls ++ wrote).
Proof.
  intros [[_ He _ _] Ho Hp Hop] Hq Hq' (Hpe & Hout & Hw). split; [by rewrite Hp |]. split; [by rewrite Ho, Hout, unlines_app |].
  destruct Hop as [Heq | (Hn & _ & w & Heq & Hle & l & -> & Hl)].
  - destruct Hw as [Hw | (a & b & w & -> & Hat & Hle & (l & b' & -> & Hl) & Hb)]; [left; by rewrite Heq | right].
    exists a, ((l :: b') ++ wrote), w. split; [by rewrite app_assoc |]. split_and!; [by rewrite Heq | by rewrite He | | by apply Forall_app].
    exists l, (b' ++ wrote). by split.
  - right. exists (ls ++ pending s), [l], w. split; [by rewrite app_assoc |]. apply Forall_app in Hq as [_ Hq]. split_and!; [| by rewrite He | by exists l, [] | done].
    by rewrite Heq, Hout, <- unlines_app.
Qed.

Lemma run_lines_written lines s ls :
  NoDup (map fst (listed lines (pending s))) -> written s ls ->
  written (run_lines lines s) (ls ++ served (dates (run_lines lines s)) lines (pending s)).
Proof.
  revert s ls. induction lines as [| l lines IH]; intros s ls Hnd Hw; cbn [run_lines fold_left listed served] in *.
  { by rewrite app_nil_r. }
  fold (run_lines lines (stamp_line disk now s l)).
  pose proof (stamp_line_step s l) as Hl. cbv zeta in Hl. pose proof (run_lines_dates lines (stamp_line disk now s l)) as (I1 & I2 & _).
  set (s1 := stamp_line disk now s l) in *. set (D := dates (run_lines lines s1)) in *. pose proof (kind_quiet l) as Hq. pose proof Hw as (Hpe & _).
  destruct (kind_of l) as [| | | name |].
  1, 2, 3, 5: pose proof (plain_pending _ _ _ _ Hl) as Hp; rewrite <- Hp in Hnd; apply (written_plain _ _ _ _ _ Hl) in Hw;
    [specialize (IH s1 _ Hnd Hw); rewrite Hp in IH; rewrite ?app_nil_r, <- ?app_assoc in IH; exact IH | |];
    repeat first [done | apply Forall_app; split | apply Forall_singleton, Hq | case_match].
  destruct Hl as [_ _ _ Ho Hp Hop _ _]. cbn [map fst] in Hnd. apply NoDup_cons in Hnd as [Hnin Hnd].
  assert (D !! name = dates s1 !! name) as ED by (apply I2; by rewrite Hp).
  assert (written s1 (ls ++ ((match dates s1 !! name with Some w => [date_line w] | None => [] end) ++ pending s ++ [l]))) as Hw1.
  { split; [by rewrite Hp |]. split; [| by left]. rewrite Ho. destruct Hw as (_ & -> & _). by rewrite (unlines_app ls). }
  specialize (IH s1 _ ltac:(by rewrite Hp) Hw1). rewrite Hp in IH. fold D in IH. rewrite ED. by rewrite <- !app_assoc in IH.
Qed.

(** Every segment in the playlist is marked as seen. *)
Lemma seen_step s l :
  seen s ⊆ seen (stamp_line disk now s l) /\
  (forall name, kind_of l = Segment name -> name ∈ seen (stamp_line disk now s l)).
Proof.
  assert (forall s2 p, seen (noteBreak s2 p) = seen s2) as Hn by (intros; unfold noteBreak; by repeat case_match).
  assert (forall s2 n, seen (part_break s2 n) = seen s2) as Hb by (intros; unfold part_break; by repeat case_match).
  assert (forall s2 w, seen (open_part s2 w) = seen s2) as Ho by (intros; unfold open_part; by repeat case_match).
  assert (forall s2 w, seen (dated s2 w) = seen s2) as Hd by (intros; unfold dated; by repeat case_match).
  unfold stamp_line, kind_of. set (trimmed := TrimSpace l).
  destruct (has_prefix date_tag trimmed); [by split |]. cbn [orb].
  destruct (has_prefix (lit "#EXT-X-CONT:") trimmed); [by repeat case_match; split |]. cbn [orb].
  destruct (has_prefix (lit "#EXT-X-PTS:") trimmed); [by repeat case_match; split |].
  destruct (has_prefix (lit "#EXT-X-PART:") trimmed).
  { split; [| done]. unfold on_part. rewrite flush_eq. destruct (bytes_equal _ []); [done |].
    match goal with |- context [time_of disk ?s2 ?n] => destruct (time_of_frame s2 n) as [x Hx]; destruct (time_of disk s2 n) as [s3 p] end.
    cbn [fst] in Hx. subst s3. cbn [tl set_times saw with_out].
    destruct p as [p |], (tl s) as [t |]; cbn [write_line seen set_missed set_times saw with_out]; try apply union_subseteq_r.
    destruct (tl (noteBreak _ _)) as [t4 |]; [destruct (Wall now t4 p) as [t5 w]; rewrite Ho; cbn [seen set_tl] |];
      rewrite Hn, Hb; apply union_subseteq_r. }
  destruct (has_prefix (lit "#EXTINF") trimmed); [by split |].
  destruct (_ && _)%bool; [| by unfold on_other; rewrite flush_eq; repeat case_match; split].
  assert (seen s ⊆ seen (on_segment disk now s l trimmed) /\ Base trimmed ∈ seen (on_segment disk now s l trimmed)) as [H1 H2];
    [| split; [done |]; by intros name [= <-]].
  unfold on_segment.
  match goal with |- context [time_of disk ?s2 ?n] => destruct (time_of_frame s2 n) as [x Hx]; destruct (time_of disk s2 n) as [s3 p] end.
  cbn [fst] in Hx. subst s3. rewrite flush_eq. cbn [tl dates seen set_open write_line with_out set_times saw].
  enough (forall s2, seen s2 = {[Base trimmed]} ∪ seen s -> seen s ⊆ seen s2 /\ Base trimmed ∈ seen s2) as Henough.
  { apply Henough. destruct (dates s !! Base trimmed); [cbn; by rewrite Hd |]. destruct p as [p |]; [| by destruct (tl s)].
    destruct (tl s); [| done]. destruct (tl (noteBreak _ _)) as [t4 |]; [| by rewrite Hn].
    destruct (date_of now _ t4 p) as [t5 w]. rewrite Hd. cbn. by rewrite Hn. }
  intros s2 ->. set_solver.
Qed.

Lemma run_lines_seen lines s : seen s ⊆ seen (run_lines lines s) /\
  Forall (fun x => fst x ∈ seen (run_lines lines s)) (listed lines (pending s)).
Proof.
  revert s. induction lines as [| l lines IH]; intros s; cbn [run_lines fold_left listed]; [by split |].
  fold (run_lines lines (stamp_line disk now s l)). destruct (seen_step s l) as [H1 H2].
  pose proof (stamp_line_step s l) as Hl. cbv zeta in Hl. destruct (IH (stamp_line disk now s l)) as [I1 I2].
  split; [set_solver |]. destruct (kind_of l) as [| | | name |].
  1, 2, 3, 5: by rewrite (plain_pending _ _ _ _ Hl) in I2.
  rewrite (segment_pending _ _ _ _ Hl) in I2. apply Forall_cons. split; [| done]. cbn. specialize (H2 name eq_refl). set_solver.
Qed.

Lemma segment_gets_date s l name :
  kind_of l = Segment name -> is_Some (tl s) -> is_Some (disk name) -> is_Some (dates (stamp_line disk now s l) !! name).
Proof.
  unfold kind_of, stamp_line. set (trimmed := TrimSpace l).
  destruct (has_prefix date_tag trimmed); [done |]. destruct (has_prefix (lit "#EXT-X-CONT:") trimmed); [done |].
  destruct (has_prefix (lit "#EXT-X-PTS:") trimmed); [done |]. cbn [orb].
  destruct (has_prefix (lit "#EXT-X-PART:") trimmed); [done |]. destruct (has_prefix (lit "#EXTINF") trimmed); [done |].
  destruct (_ && _)%bool; [| done]. intros [= <-] [t Ht] [q Hq].
  assert (exists p, snd (time_of disk (saw s (Base trimmed)) (Base trimmed)) = Some p) as [p Hp].
  { unfold time_of. destruct (times _ !! _) as [p |]; [by exists p |]. rewrite Hq. by exists q. }
  unfold on_segment. destruct (time_of_frame (saw s (Base trimmed)) (Base trimmed)) as [x Hx].
  destruct (time_of disk _ _) as [s2 p']. cbn [fst snd] in Hx, Hp. subst s2 p'.
  rewrite flush_eq. cbn [dates tl set_open write_line with_out set_times saw].
  destruct (dates s !! Base trimmed) as [w |] eqn:Ed.
  { rewrite dated_eq. cbv zeta. case_match; cbn; rewrite Ed; by eexists. }
  rewrite Ht. match goal with |- context [noteBreak ?s2 p] => destruct (noteBreak_same s2 p) as ([_ _ Hc _] & _) end.
  cbn in Hc. rewrite Ht in Hc. destruct (Hc ltac:(by eexists)) as [t4 Ht4]. rewrite Ht4.
  destruct (date_of now _ t4 p) as [t5 w]. rewrite dated_eq. cbv zeta. case_match; cbn; rewrite lookup_insert_eq; by eexists.
Qed.

Lemma run_lines_dated lines s :
  is_Some (tl s) -> Forall (fun x => is_Some (disk (fst x)) -> is_Some (dates (run_lines lines s) !! fst x)) (listed lines (pending s)).
Proof.
  revert s. induction lines as [| l lines IH]; intros s Ht; cbn [run_lines fold_left listed] in *; [constructor |].
  fold (run_lines lines (stamp_line disk now s l)).
  pose proof (stamp_line_step s l) as Hl. cbv zeta in Hl. pose proof (fun n => segment_gets_date s l n) as Hget.
  pose proof (run_lines_dates lines (stamp_line disk now s l)) as (I1 & _).
  destruct (kind_of l) as [| | | name |].
  1, 2, 3, 5: rewrite <- (plain_pending _ _ _ _ Hl); apply IH; by apply (plain_same _ _ _ _ Hl).
  apply Forall_cons. split.
  - intros Hd0. destruct (Hget name eq_refl Ht Hd0) as [w Hw]. exists w. by apply I1.
  - rewrite <- (segment_pending _ _ _ _ Hl). apply IH. by apply (segment_clock _ _ _ _ Hl).
Qed.

(** The dates read off the served lines are the segments'. *)
Lemma served_reads D lines : forall pend, Forall quiet pend -> (forall x w, x ∈ listed lines pend -> D !! fst x = Some w -> four_digit_year w) ->
  read_dates (served D lines pend) = map (fun x => in_ms (fst x)) (dates_of D (listed lines pend)).
Proof.
  assert (forall l, Forall quiet l -> read_dates l = []) as Hq.
  { induction 1 as [| x l Hx Hl IH]; [done |]. unfold read_dates in *. cbn. by rewrite Hx. }
  assert (forall a b, read_dates (a ++ b) = read_dates a ++ read_dates b) as Happ by (intros; apply omap_app).
  induction lines as [| l lines IH]; intros pend Hp Hy; cbn [served listed] in *; [done |]. pose proof (kind_quiet l) as Hl.
  destruct (kind_of l) as [| | | name |].
  - by apply IH.
  - rewrite !Happ, (Hq pend Hp), (Hq [l]) by (apply Forall_singleton, Hl; done). cbn [app]. by apply IH.
  - apply IH; [| done]. apply Forall_app. split; [done |]. apply Forall_singleton, Hl. done.
  - rewrite !Happ, (Hq pend Hp), (Hq [l]) by (apply Forall_singleton, Hl; done). cbn [app]. rewrite IH; [| constructor | intros x w Hx; apply Hy; by right]. rewrite dates_of_cons, map_app. f_equal.
    destruct (D !! name) as [w |] eqn:E; [| done]. unfold read_dates. cbn [omap list_omap map fst]. by rewrite date_line_reads by (apply (Hy (name, pendingDur pend)); [left | done]).
  - rewrite !Happ, (Hq pend Hp). cbn [app]. rewrite IH by done. destruct (bytes_equal l []); [done |]. rewrite (Hq [l]) by (apply Forall_singleton, Hl; done). done.
Qed.

Lemma run_lines_end lines s :
  NoDup (map fst (listed lines (pending s))) ->
  end_ (run_lines lines s) = last_end (end_ s) (dates_of (dates (run_lines lines s)) (listed lines (pending s))).
Proof.
  revert s. induction lines as [| l lines IH]; intros s Hnd; cbn [run_lines fold_left listed] in *; [done |].
  fold (run_lines lines (stamp_line disk now s l)).
  pose proof (stamp_line_step s l) as Hl. cbv zeta in Hl. pose proof (run_lines_dates lines (stamp_line disk now s l)) as (_ & I2 & _).
  specialize (IH (stamp_line disk now s l)). destruct (kind_of l) as [| | | name |].
  1, 2, 3, 5: rewrite (plain_pending _ _ _ _ Hl), (same_end _ _ (plain_same _ _ _ _ Hl)) in IH; by apply IH.
  rewrite (segment_pending _ _ _ _ Hl) in IH, I2. cbn [map fst] in Hnd. apply NoDup_cons in Hnd as [Hnin Hnd].
  rewrite IH by done. rewrite dates_of_cons, (I2 name Hnin), (segment_end _ _ _ _ Hl).
  by destruct (dates (stamp_line disk now s l) !! name).
Qed.

(** ** A playlist *)

Lemma rebuilt p src t :
  reused p src t = None -> let s := run_lines (Split src 10) (begin p t) in
  exists p', stamp disk now p src t = (p', tl s, body_of s) /\
    forall n, n ∈ map fst (listed (Split src 10) []) -> walls p' !! n = dates s !! n.
Proof.
  intros Hr s. unfold stamp. rewrite Hr. unfold rebuild. fold (run_lines (Split src 10) (begin p t)). fold s.
  destruct (if missed s then _ else _) as [[last o] timed]. eexists. split; [done |]. intros n Hn. cbn [walls].
  apply kept_seen. destruct (run_lines_seen (Split src 10) (begin p t)) as [_ Hs]. fold s in Hs. cbn [pending begin] in Hs.
  rewrite Forall_forall in Hs. apply list_elem_of_fmap in Hn as (x & -> & Hx). by apply Hs.
Qed.
End step.

Lemma served_body `{Unicode, FloatText} disk now p src t : NoDup (map fst (listed (Split src 10) [])) -> let s := run_lines disk now (Split src 10) (begin p t) in
  let ls := served (dates s) (Split src 10) [] in
  body_of s = unlines ls \/
  exists a l b w, ls = a ++ l :: b /\ kind_of l = Part /\ Forall quiet (l :: b) /\ body_of s = unlines (a ++ date_line w :: l :: b) /\
    (forall e, last_end None (dates_of (dates s) (listed (Split src 10) [])) = Some e -> e <= w).
Proof.
  intros Hnd s ls. pose proof (run_lines_end disk now (Split src 10) (begin p t) Hnd) as He. fold s in He. cbn [end_ pending begin] in He.
  assert (written (begin p t) []) as Hw0 by (split; [constructor | split; [done | by left]]).
  pose proof (run_lines_written disk now (Split src 10) (begin p t) [] Hnd Hw0) as (_ & Ho & Hop). fold s in Ho, Hop.
  cbn [app pending begin] in Ho, Hop. unfold body_of.
  destruct Hop as [-> | (a & b & w & Els & Hat & Hle & (l & b' & -> & Hk) & Hb)]; [by left | right].
  exists a, l, b', w. rewrite Hat, Ho, Els. split_and!; [done | done | done | | by rewrite <- He].
  rewrite unlines_app. rewrite take_app_length, drop_app_length.
  rewrite (unlines_app a). f_equal.
Qed.


(** What is served is the packager's playlist, dated: its lines in their
    order, less its notes, its own dates and blank lines, each dated segment's
    date before it; and where the last segment is still open, its first part's date
    before that part, which is not before the end of the last segment. *)
Theorem served_playlist `{Unicode, FloatText} (disk : list Z -> option Z) (now : Z) (p : playlistStamper) (src : list Z)
    (t : option Timeline) (Hr : reused p src t = None) (Hnd : NoDup (map fst (listed (Split src 10) []))) :
  exists p' t' body, stamp disk now p src t = (p', t', body) /\
    let ls := served (walls p') (Split src 10) [] in
    body = unlines ls \/
    exists a l b w, ls = a ++ l :: b /\ kind_of l = Part /\ body = unlines (a ++ date_line w :: l :: b) /\
      (forall e, last_end None (dates_of (walls p') (listed (Split src 10) [])) = Some e -> e <= w).
Proof.
  destruct (rebuilt disk now p src t Hr) as (p' & E & Hw). pose proof (served_body disk now p src t Hnd) as Hb. set (s := run_lines _ _ _ _) in *. cbv zeta in Hb.
  exists p', (tl s), (body_of s). split; [done |]. cbv zeta.
  rewrite (served_ext (dates s)) by exact Hw. rewrite (dates_of_ext (dates s)) by exact Hw.
  destruct Hb as [Hb | (a & l & b & w & H1 & H2 & _ & H3 & H4)]; [by left | right]. by exists a, l, b, w.
Qed.

(** A channel whose clock breaks after its second segment, the break not dated
    by the packager; a part of the third segment is out already. *)
#[local] Instance plain_floats : FloatText := {| parse_other _ := None; wide_int _ := - 2 ^ 63 |}.
#[local] Existing Instance ascii_unicode.
Definition ex_lines (ls : list string) : list Z := unlines (map lit ls).
Definition ex_quoted (s : string) : list Z := lit "#EXT-X-PART:DURATION=1.0,URI=" ++ [34] ++ lit s ++ [34; 10].
Definition ex_first : list Z := ex_lines
  ["#EXTM3U"; "#EXT-X-PTS:a.m4s:8589900000"; "#EXTINF:2.000000,"; "a.m4s"; "#EXT-X-PTS:b.m4s:145408"; "#EXTINF:2.000000,"; "b.m4s"]%string.
Definition ex_second : list Z := ex_lines
  ["#EXTM3U"; "#EXTINF:2.000000,"; "b.m4s"; "#EXT-X-DISCONTINUITY"; "#EXT-X-PTS:c.m4s:900"; "#EXTINF:2.000000,"; "c.m4s"]%string ++
  lit "#EXT-X-PTS:d.1.m4s:180900" ++ [10] ++ ex_quoted "d.1.m4s" ++ ex_quoted "d.2.m4s".
Definition ex_disk (name : list Z) : option Z := Some 0.
Definition ex_now : Z := of_unix 1767268804.
Definition ex_once : playlistStamper * option Timeline * list Z := stamp ex_disk ex_now new_stamper ex_first (Some NewTimeline).
Definition ex_twice : playlistStamper * option Timeline * list Z :=
  stamp ex_disk ex_now (fst (fst ex_once)) ex_second (snd (fst ex_once)).

(** The second segment's time has gone past the 33-bit wrap, the third follows the second's end. *)
Example ex_stamped : snd ex_twice = ex_lines
  ["#EXTM3U"; "#EXT-X-PROGRAM-DATE-TIME:2026-01-01T12:00:02.000Z"; "#EXTINF:2.000000,"; "b.m4s"; "#EXT-X-DISCONTINUITY";
   "#EXT-X-PROGRAM-DATE-TIME:2026-01-01T12:00:04.000Z"; "#EXTINF:2.000000,"; "c.m4s";
   "#EXT-X-PROGRAM-DATE-TIME:2026-01-01T12:00:06.000Z"]%string ++ ex_quoted "d.1.m4s" ++ ex_quoted "d.2.m4s".
Proof. vm_compute. reflexivity. Qed.

Definition ex_old : list (list Z * Z) := [(lit "b.m4s", 2000000000)].
Definition ex_new : list (list Z * Z) := [(lit "c.m4s", 2000000000)].

(** The dates a reader finds in what is served there: of its two segments, and of the
    open segment's part *)
Example ex_dates_read : read_dates (Split (snd ex_twice) 10) = [1767268802000; 1767268804000; 1767268806000].
Proof. vm_compute. reflexivity. Qed.

Lemma served_playlist_witness :
  reused (fst (fst ex_once)) ex_second (snd (fst ex_once)) = None /\
  exists p' t' body, stamp ex_disk ex_now (fst (fst ex_once)) ex_second (snd (fst ex_once)) = (p', t', body) /\
    let ls := served (walls p') (Split ex_second 10) [] in
    body = unlines ls \/
    exists a l b w, ls = a ++ l :: b /\ kind_of l = Part /\ body = unlines (a ++ date_line w :: l :: b) /\
      (forall e, last_end None (dates_of (walls p') (listed (Split ex_second 10) [])) = Some e -> e <= w).
Proof.
  assert (reused (fst (fst ex_once)) ex_second (snd (fst ex_once)) = None) as Hr by (vm_compute; reflexivity).
  split; [exact Hr |]. apply served_playlist; [exact Hr |].
  apply (bool_decide_unpack _). vm_compute. exact I.
Defined.

(** [scanPTS] ends on any bytes, and reads inside them. *)
Lemma packet_time_total pkt : bytes_ok pkt -> zlen pkt = 188 -> returns (packet_time pkt) (fun _ => True).
Proof.
  intros Hb Hl. unfold packet_time. do 3 (do 2 go_step; go_step; [done |]).
  apply returns_bind. apply (returns_mono _ (fun n => 4 <= n)).
  { go_step; [| cbn; lia]. do 2 go_step. cbn. blia. }
  intros n Hn. go_step; [done |]. do 2 go_step.
  do 4 (do 2 go_step). go_step; [done |]. do 5 (do 2 go_step). do 2 go_step. done.
Qed.

Lemma scan_loop_total fuel data best :
  bytes_ok data -> zlen data <= Z.of_nat fuel -> returns (scan_loop fuel data best) (fun _ => True).
Proof.
  revert data best. induction fuel as [| fuel IH]; intros data best Hb Hf; cbn [scan_loop];
    (destruct (zlen data <? 188) eqn:E; [done |]); [lia |].
  do 2 go_step. apply returns_bind. eapply returns_mono; [apply packet_time_total; [done | lia] |]. intros t _.
  do 2 go_step. apply IH; [done | lia].
Qed.

Lemma scanPTS_total data : bytes_ok data -> returns (scanPTS data) (fun _ => True).
Proof.
  intros Hb. unfold scanPTS. destruct (bytes_index_cases data [0x47]) as [[-> _] | (i & -> & _ & Hi)]; [done |].
  change (zlen [0x47]) with 1 in Hi. go_step; [done |]. do 2 go_step. apply returns_bind.
  eapply returns_mono; [apply scan_loop_total; [done | unfold zlen in *; lia] |]. by intros [v a] _.
Qed.
