(* ===== verification/LiveBits.v ===== *)
(** The bit readers of a picture's headers, [bitReader], [hevcBits] and
    [unescape] of [server/internal/live/scantype.go].

    A method is a state-passing function: [reader] carries the [ok] of
    [bitReader]'s results, [walk] the [bad] of [hevcBits]. What a standard says
    an encoder writes ([put_u], [put_ue], [put_se], [pack]) is read back. *)
From S2P Require Import Prelude CapCc.
Local Open Scope Z_scope.
Local Open Scope go_scope.

(** ** Bits of bytes *)

Definition byte_bits (x : Z) : list bool := map (Z.testbit x) [7; 6; 5; 4; 3; 2; 1; 0].
Definition bits (l : list Z) : list bool := concat (map byte_bits l).

(** The number some bits write, the first one the highest. *)
Definition number (acc : Z) (l : list bool) : Z := fold_left (fun v c => 2 * v + Z.b2z c) l acc.

(** ** [bitReader] *)

Record bitReader := mkBits { b : list Z; off : Z }.

(** A method with an [ok] result: its callers go on only with a value. *)
Definition reader (A : Type) : Type := bitReader -> res (option A * bitReader).
Definition ret {A} (a : A) : reader A := fun r => Ok (Some a, r).
Definition stop {A} : reader A := fun r => Ok (None, r).
Definition bind {A B} (m : reader A) (f : A -> reader B) : reader B := fun r =>
  let! ' (a, r) := m r in match a with Some a => f a r | None => Ok (None, r) end.

Notation "'let?' x ':=' m 'in' k" := (bind m (fun x => k))
  (at level 10, x name, m at level 100, k at level 200) : go_scope.

Fixpoint u_loop (n : nat) (v : Z) (r : bitReader) : res (Z * bitReader) :=
  match n with
  | O => Ok (v, r)
  | S n =>
      let v := wrap64 (Z.shiftl v 1) in
      let! x := idx (b r) (off r / 8) in
      let v := if negb (Z.land x (Z.shiftr 0x80 (off r mod 8)) =? 0) then Z.lor v 1 else v in
      u_loop n v (mkBits (b r) (off r + 1))
  end.
Definition u (n : Z) : reader Z := fun r =>
  if ((n <? 0) || (zlen (b r) * 8 <? off r + n))%bool then Ok (None, r) else
  let! ' (v, r) := u_loop (Z.to_nat n) 0 r in Ok (Some v, r).

(** The zeros before a one; the 32nd gives up. *)
Fixpoint ue_zeros (fuel : nat) (zeros : Z) : reader Z :=
  match fuel with
  | O => fun _ => NoFuel
  | S fuel =>
      let? bit := u 1 in
      if bit =? 1 then ret zeros
      else if 31 <? zeros + 1 then stop else ue_zeros fuel (zeros + 1)
  end.
Definition ue : reader Z :=
  let? zeros := ue_zeros 33 0 in
  if zeros =? 0 then ret 0 else
  let? rest := u zeros in ret (wrap64 (2 ^ zeros - 1 + rest)).

(** A signed code of an unsigned one: 1, -1, 2, -2, ... *)
Definition signed (v : Z) : Z := if v mod 2 =? 0 then - (v / 2) else v / 2 + 1.
Definition se : reader Z := let? v := ue in ret (signed v).

(** A loop of [n] reads, [n] from the input: each one eats a bit at least. *)
Fixpoint each_of (fuel : nat) (n : Z) (m : reader unit) : reader unit :=
  if n <=? 0 then ret tt else
  match fuel with
  | O => fun _ => NoFuel
  | S fuel => let? _ := m in each_of fuel (n - 1) m
  end.
Definition times (n : Z) (m : reader unit) : reader unit := fun r =>
  each_of (S (length (b r) * 8)) n m r.

(** ** [hevcBits] *)

Record hevcBits := mkHevc { r : bitReader; bad : bool }.
Definition walk (A : Type) : Type := hevcBits -> res (A * hevcBits).
Definition wret {A} (a : A) : walk A := fun s => Ok (a, s).
Definition wbind {A B} (m : walk A) (f : A -> walk B) : walk B := fun s => let! ' (a, s) := m s in f a s.

Notation "'let*' x ':=' m 'in' k" := (wbind m (fun x => k))
  (at level 10, x name, m at level 100, k at level 200) : go_scope.

Definition is_bad : walk bool := fun s => Ok (bad s, s).
Definition set_bad : walk unit := fun s => Ok (tt, mkHevc (r s) true).

(** [v, ok := m; b.bad = !ok] *)
Definition noting {A} (zero : A) (m : reader A) : walk A := fun s =>
  if bad s then Ok (zero, s) else
  let! ' (v, r) := m (r s) in
  Ok (match v with Some v => (v, mkHevc r false) | None => (zero, mkHevc r true) end).

Definition hu (n : Z) : walk Z := fun s =>
  if bad s then Ok (0, s)
  else if 32 <? n then
    if zlen (b (r s)) * 8 <? off (r s) + n then Ok (0, mkHevc (r s) true)
    else Ok (0, mkHevc (mkBits (b (r s)) (off (r s) + n)) false)
  else noting 0 (u n) s.
Definition hue : walk Z := noting 0 ue.
Definition hse : walk unit := noting tt (let? _ := se in ret tt).

(** [for i := first; i < n && !bad; i++] over what eats a bit or goes bad. *)
Fixpoint while_good (fuel : nat) (n : Z) (m : walk unit) : walk unit :=
  let* bad := is_bad in
  if ((n <=? 0) || bad)%bool then wret tt else
  match fuel with
  | O => fun _ => NoFuel
  | S fuel => let* _ := m in while_good fuel (n - 1) m
  end.
Definition repeats (n : Z) (m : walk unit) : walk unit := fun s =>
  while_good (S (length (b (r s)) * 8)) n m s.

(** A loop whose count the source writes. *)
Fixpoint over (n : nat) (m : walk unit) : walk unit :=
  match n with O => wret tt | S n => let* _ := m in over n m end.

(** ** [unescape] *)

(** A 00 00 03 gives two zeros and goes on after it. *)
Fixpoint unescape (l : list Z) : list Z :=
  match l with
  | [] => []
  | x :: l' =>
      match l' with
      | y :: z :: l'' =>
          if ((x =? 0) && (y =? 0) && (z =? 3))%bool then [0; 0] ++ unescape l''
          else x :: unescape l'
      | _ => x :: unescape l'
      end
  end.

(** ** Where the bits are *)

Lemma length_byte_bits x : length (byte_bits x) = 8%nat.
Proof. done. Qed.

Lemma zlen_bits l : zlen (bits l) = zlen l * 8.
Proof.
  induction l as [| x l IH]; [done |]. unfold bits in *. cbn [map concat].
  rewrite zlen_app, IH, zlen_cons. unfold zlen at 1. rewrite length_byte_bits. lia.
Qed.

Lemma bits_app l k : bits (l ++ k) = bits l ++ bits k.
Proof. unfold bits. by rewrite map_app, concat_app. Qed.

Lemma byte_bits_lookup x j : 0 <= j < 8 -> byte_bits x !! Z.to_nat j = Some (Z.testbit x (7 - j)).
Proof.
  intros Hj. assert (j = 0 \/ j = 1 \/ j = 2 \/ j = 3 \/ j = 4 \/ j = 5 \/ j = 6 \/ j = 7) as Hc by lia.
  destruct_or!; subst j; done.
Qed.

Lemma bits_at l k : 0 <= k < zlen l * 8 ->
  exists x, idx l (k / 8) = Ok x /\ bits l !! Z.to_nat k = Some (Z.testbit x (7 - k mod 8)).
Proof.
  revert k. induction l as [| y l IH]; intros k Hk; [unfold zlen in Hk; simpl in Hk; lia |].
  rewrite zlen_cons in Hk. change (bits (y :: l)) with (byte_bits y ++ bits l).
  destruct (Z.ltb_spec k 8).
  - exists y. rewrite Z.div_small, Z.mod_small by lia. split; [done |].
    rewrite lookup_app_l by (rewrite length_byte_bits; lia). apply byte_bits_lookup. lia.
  - destruct (IH (k - 8)) as (x & Hx & Hb); [lia |].
    replace k with (k - 8 + 1 * 8) by lia. rewrite Z.div_add, Z.mod_add by lia.
    exists x. split.
    + apply idx_inv in Hx as [Hr Hl]. apply idx_Ok; [lia |].
      replace (Z.to_nat ((k - 8) / 8 + 1)) with (S (Z.to_nat ((k - 8) / 8))) by lia. done.
    + rewrite lookup_app_r by (rewrite length_byte_bits; lia). rewrite length_byte_bits.
      by replace (Z.to_nat (k - 8 + 1 * 8) - 8)%nat with (Z.to_nat (k - 8)) by lia.
Qed.

Lemma mask_bit x k : 0 <= k < 8 -> (Z.land x (Z.shiftr 0x80 k) =? 0) = negb (Z.testbit x (7 - k)).
Proof.
  intros Hk. replace (Z.shiftr 0x80 k) with (2 ^ (7 - k)).
  2: { change 0x80 with (2 ^ 7). rewrite Z.shiftr_div_pow2, <- Z.pow_sub_r by lia. done. }
  destruct (Z.testbit x (7 - k)) eqn:E.
  - apply Z.eqb_neq. intros F. apply (f_equal (fun z => Z.testbit z (7 - k))) in F.
    rewrite Z.land_spec, E, Z.pow2_bits_true, Z.bits_0 in F by lia. done.
  - apply Z.eqb_eq. apply Z.bits_inj'. intros n Hn. rewrite Z.land_spec, Z.bits_0.
    destruct (decide (n = 7 - k)) as [-> | Hne]; [by rewrite E | rewrite Z.pow2_bits_false by lia; apply andb_false_r].
Qed.

Lemma number_acc l v : number v l = v * 2 ^ zlen l + number 0 l.
Proof.
  revert v. induction l as [| c l IH]; intros v; [rewrite (@zlen_nil bool); cbn; lia |]. cbn [number fold_left].
  fold (number (2 * v + Z.b2z c) l) (number (2 * 0 + Z.b2z c) l). rewrite IH, (IH (2 * 0 + Z.b2z c)).
  rewrite zlen_cons, Z.pow_add_r by (pose proof (zlen_nonneg l); lia). lia.
Qed.

Lemma number_bound l : 0 <= number 0 l < 2 ^ zlen l.
Proof.
  induction l as [| c l IH]; [rewrite (@zlen_nil bool); cbn; lia |]. cbn [number fold_left]. fold (number (2 * 0 + Z.b2z c) l).
  rewrite number_acc, zlen_cons, Z.pow_add_r by (pose proof (zlen_nonneg l); lia). destruct c; cbn; lia.
Qed.

(** ** Reading what is there *)

(** [m] reads the bits [l] as [a], wherever in a stream they are. *)
Definition Reads {A} (m : reader A) (l : list bool) (a : A) : Prop :=
  forall s pre rest, bits (b s) = pre ++ l ++ rest -> off s = zlen pre ->
    m s = Ok (Some a, mkBits (b s) (off s + zlen l)).

Lemma Reads_ret {A} (a : A) : Reads (ret a) [] a.
Proof. intros s pre rest _ _. unfold ret. rewrite Z.add_0_r. by destruct s. Qed.

Lemma Reads_bind {A B} (m : reader A) (f : A -> reader B) l k a c :
  Reads m l a -> Reads (f a) k c -> Reads (bind m f) (l ++ k) c.
Proof.
  intros Hm Hf s pre rest Hb Ho. unfold bind. rewrite <- app_assoc in Hb. rewrite (Hm s pre _ Hb Ho). cbn [rbind].
  rewrite (Hf _ (pre ++ l) rest); cbn [b off]; [| by rewrite <- app_assoc | rewrite zlen_app; lia].
  by rewrite zlen_app, Z.add_assoc.
Qed.

Lemma u_loop_reads l : forall v s pre rest, bits (b s) = pre ++ l ++ rest -> off s = zlen pre ->
  0 <= v -> (v + 1) * 2 ^ zlen l <= 2 ^ 64 ->
  u_loop (length l) v s = Ok (number v l, mkBits (b s) (off s + zlen l)).
Proof.
  induction l as [| c l IH]; intros v s pre rest Hb Ho Hv Hl.
  { rewrite (@zlen_nil bool), Z.add_0_r. by destruct s. }
  pose proof (zlen_nonneg l). pose proof (zlen_nonneg pre). pose proof (zlen_nonneg rest).
  rewrite zlen_cons, Z.pow_add_r in Hl by lia. assert (0 < 2 ^ zlen l) by lia.
  pose proof (zlen_bits (b s)) as Hz. rewrite Hb, zlen_app, zlen_app, zlen_cons in Hz.
  destruct (bits_at (b s) (off s)) as (x & Hx & Hbit); [lia |].
  rewrite Hb, Ho, lookup_app_r, zlen_nat, Nat.sub_diag in Hbit by (rewrite zlen_nat; lia). injection Hbit as Hbit.
  cbn [u_loop length]. rewrite Hx. cbn [rbind]. rewrite mask_bit by dlia. rewrite negb_involutive, Ho, <- Hbit.
  assert (wrap64 (Z.shiftl v 1) = 2 * v) as ->.
  { unfold wrap64. rewrite Z.shiftl_mul_pow2, Z.mod_small by nia. lia. }
  replace (if c then Z.lor (2 * v) 1 else 2 * v) with (2 * v + Z.b2z c).
  2: { destruct c; cbn [Z.b2z]; [| lia]. rewrite Z.mul_comm. symmetry. apply (lor_mul_add v 1 1); lia. }
  rewrite <- Ho, (IH _ _ (pre ++ [c]) rest); cbn [b off].
  - rewrite zlen_cons. do 3 f_equal. lia.
  - by rewrite <- app_assoc.
  - rewrite zlen_app, zlen_cons, (@zlen_nil bool). lia.
  - destruct c; cbn; lia.
  - destruct c; cbn [Z.b2z]; nia.
Qed.

Lemma u_reads n l : zlen l = n -> n <= 64 -> Reads (u n) l (number 0 l).
Proof.
  intros <- Hn s pre rest Hb Ho. pose proof (zlen_nonneg l). pose proof (zlen_nonneg rest).
  pose proof (zlen_bits (b s)) as Hz. rewrite Hb, zlen_app, zlen_app in Hz.
  unfold u. rewrite zlen_nat. destruct (Z.ltb_spec (zlen l) 0); [lia |].
  destruct (Z.ltb_spec (zlen (b s) * 8) (off s + zlen l)); [lia |]. cbn [orb].
  rewrite (u_loop_reads l 0 s pre rest Hb Ho); [done | lia |].
  assert (2 ^ zlen l <= 2 ^ 64) by (apply Z.pow_le_mono_r; lia). lia.
Qed.

(** ** What an encoder writes *)

(** [v] in [n] bits *)
Fixpoint put_u (n : nat) (v : Z) : list bool :=
  match n with O => [] | S n => Z.testbit v (Z.of_nat n) :: put_u n v end.

(** The Exp-Golomb codes (ITU-T H.264 9.1, 9.1.1) *)
Definition put_ue (v : Z) : list bool :=
  let k := Z.to_nat (Z.log2 (v + 1)) in replicate k false ++ [true] ++ put_u k (v + 1).
Definition put_se (v : Z) : list bool := put_ue (if 0 <? v then 2 * v - 1 else - 2 * v).

Lemma length_put_u n v : length (put_u n v) = n.
Proof. induction n; cbn; lia. Qed.

Lemma zlen_put_u n v : zlen (put_u n v) = Z.of_nat n.
Proof. unfold zlen. by rewrite length_put_u. Qed.

Lemma number_put_u n v a : number a (put_u n v) = a * 2 ^ Z.of_nat n + v mod 2 ^ Z.of_nat n.
Proof.
  rewrite number_acc, zlen_put_u. f_equal. induction n as [| n IH]; [by rewrite Z.mod_1_r |].
  cbn [put_u number fold_left]. fold (number (2 * 0 + Z.b2z (Z.testbit v (Z.of_nat n))) (put_u n v)).
  rewrite number_acc, zlen_put_u, IH. rewrite Nat2Z.inj_succ, Z.pow_succ_r by lia.
  rewrite (Z.mul_comm 2 (2 ^ Z.of_nat n)), Z.rem_mul_r by lia. rewrite Z.testbit_spec' by lia. ring.
Qed.

Lemma Reads_u n v : 0 <= n <= 64 -> 0 <= v < 2 ^ n -> Reads (u n) (put_u (Z.to_nat n) v) v.
Proof.
  intros Hn Hv. pose proof (u_reads n (put_u (Z.to_nat n) v)) as H.
  rewrite number_put_u, zlen_put_u, Z2Nat.id, Z.mod_small, Z.mul_0_l, Z.add_0_l in H by lia. apply H; lia.
Qed.

Lemma ue_zeros_reads k : forall fuel z, z + Z.of_nat k <= 31 -> (k < fuel)%nat ->
  Reads (ue_zeros fuel z) (replicate k false ++ [true]) (z + Z.of_nat k).
Proof.
  induction k as [| k IH]; intros fuel z Hz Hf; (destruct fuel as [| fuel]; [lia |]); cbn [ue_zeros replicate app].
  - rewrite Z.add_0_r. apply (Reads_bind (u 1) _ [true] [] 1); [by apply (u_reads 1 [true]) | apply Reads_ret].
  - change (false :: replicate k false ++ [true]) with ([false] ++ (replicate k false ++ [true])).
    apply (Reads_bind (u 1) _ _ _ 0); [by apply (u_reads 1 [false]) |]. cbn [Z.eqb].
    destruct (Z.ltb_spec 31 (z + 1)); [lia |].
    replace (z + Z.of_nat (S k)) with (z + 1 + Z.of_nat k) by lia. apply IH; lia.
Qed.

Lemma Reads_ue v : 0 <= v < 2 ^ 32 - 1 -> Reads ue (put_ue v) v.
Proof.
  intros Hv. unfold put_ue, ue. set (k := Z.to_nat (Z.log2 (v + 1))).
  pose proof (Z.log2_nonneg (v + 1)) as Hk. pose proof (Z.log2_spec (v + 1) ltac:(lia)) as Hp.
  assert (Z.log2 (v + 1) < 32) as H32 by (apply Z.log2_lt_pow2; lia).
  assert (Z.of_nat k = Z.log2 (v + 1)) as Ek by lia. rewrite <- Ek in *. clearbody k.
  rewrite app_assoc. apply (Reads_bind _ _ _ _ (0 + Z.of_nat k)); [apply ue_zeros_reads; lia |]. rewrite Z.add_0_l.
  destruct (Z.eqb_spec (Z.of_nat k) 0) as [E |].
  - assert (k = 0%nat) as -> by lia. cbn in Hp. replace v with 0 by lia. apply Reads_ret.
  - rewrite <- (app_nil_r (put_u k (v + 1))). rewrite Z.pow_succ_r in Hp by lia.
    eapply Reads_bind; [apply (u_reads (Z.of_nat k)); [apply zlen_put_u | lia] |].
    rewrite number_put_u. replace ((v + 1) mod 2 ^ Z.of_nat k) with (v + 1 - 2 ^ Z.of_nat k).
    2: { rewrite (Z.mod_eq (v + 1)) by lia. replace ((v + 1) / 2 ^ Z.of_nat k) with 1; [lia |].
         apply (Z.div_unique_pos _ _ 1 (v + 1 - 2 ^ Z.of_nat k)); lia. }
    replace (wrap64 _) with v; [apply Reads_ret |]. unfold wrap64.
    assert (0 < 2 ^ Z.of_nat k) by lia. rewrite Z.mod_small by lia. lia.
Qed.

Lemma signed_put v : signed (if 0 <? v then 2 * v - 1 else - 2 * v) = v.
Proof.
  unfold signed. destruct (Z.ltb_spec 0 v).
  - destruct (Z.eqb_spec ((2 * v - 1) mod 2) 0); dlia.
  - destruct (Z.eqb_spec ((- 2 * v) mod 2) 0); dlia.
Qed.

Lemma Reads_se v : - 2 ^ 31 < v < 2 ^ 31 -> Reads se (put_se v) v.
Proof.
  intros Hv. unfold se, put_se. rewrite <- (app_nil_r (put_ue _)).
  eapply Reads_bind; [apply Reads_ue; destruct (Z.ltb_spec 0 v); lia |]. rewrite signed_put. apply Reads_ret.
Qed.

Lemma Reads_each_of (ms : list (list bool)) (m : reader unit) :
  Forall (fun k => k <> [] /\ Reads m k tt) ms ->
  forall fuel, (length ms <= fuel)%nat -> Reads (each_of fuel (zlen ms) m) (concat ms) tt.
Proof.
  induction 1 as [| k ms [_ Hk] _ IH]; intros fuel Hf.
  { destruct fuel; apply Reads_ret. }
  destruct fuel as [| fuel]; [cbn in Hf; lia |]. cbn [each_of concat]. rewrite zlen_cons. pose proof (zlen_nonneg ms). destruct (Z.leb_spec (zlen ms + 1) 0); [lia |].
  eapply Reads_bind; [done |]. replace (zlen ms + 1 - 1) with (zlen ms) by lia. apply IH. cbn in Hf. lia.
Qed.

Lemma zlen_concat_nonempty {A} (ms : list (list A)) : Forall (fun k => k <> []) ms -> zlen ms <= zlen (concat ms).
Proof.
  induction 1 as [| k ms Hk _ IH]; [done |]. cbn [concat]. rewrite zlen_app, zlen_cons.
  destruct k as [| c k]; [done |]. rewrite zlen_cons. pose proof (zlen_nonneg k). lia.
Qed.

Lemma Reads_times (ms : list (list bool)) (m : reader unit) :
  Forall (fun k => k <> [] /\ Reads m k tt) ms -> Reads (times (zlen ms) m) (concat ms) tt.
Proof.
  intros Hm s pre rest Hb Ho. unfold times. apply (Reads_each_of ms m Hm _) with (pre := pre) (rest := rest); [| done..].
  pose proof (zlen_bits (b s)) as Hz. rewrite Hb, !zlen_app in Hz. pose proof (zlen_nonneg pre). pose proof (zlen_nonneg rest).
  assert (zlen ms <= zlen (concat ms)).
  { apply zlen_concat_nonempty. eapply Forall_impl; [exact Hm |]. by intros k [Hk _]. }
  unfold zlen in *. lia.
Qed.

(** ** The same of [hevcBits] *)

Definition WReads {A} (m : walk A) (l : list bool) (a : A) : Prop :=
  forall s pre rest, bad s = false -> bits (b (r s)) = pre ++ l ++ rest -> off (r s) = zlen pre ->
    m s = Ok (a, mkHevc (mkBits (b (r s)) (off (r s) + zlen l)) false).

Lemma WReads_ret {A} (a : A) : WReads (wret a) [] a.
Proof.
  intros s pre rest Hs _ _. unfold wret. rewrite (@zlen_nil bool), Z.add_0_r. destruct s as [[] ?]. cbn in *. by subst.
Qed.

Lemma WReads_bind {A B} (m : walk A) (f : A -> walk B) l k a c :
  WReads m l a -> WReads (f a) k c -> WReads (wbind m f) (l ++ k) c.
Proof.
  intros Hm Hf s pre rest Hs Hb Ho. unfold wbind. rewrite <- app_assoc in Hb. rewrite (Hm s pre _ Hs Hb Ho). cbn [rbind].
  rewrite (Hf _ (pre ++ l) rest); cbn [r bad b off]; [| done | by rewrite <- app_assoc | rewrite zlen_app; lia].
  by rewrite zlen_app, Z.add_assoc.
Qed.

Lemma WReads_is_bad {B} (f : bool -> walk B) k c : WReads (f false) k c -> WReads (wbind is_bad f) k c.
Proof. intros Hf s pre rest Hs Hb Ho. unfold wbind, is_bad. cbn [rbind]. rewrite Hs. by apply (Hf s pre rest). Qed.

Lemma WReads_noting {A} (z : A) (m : reader A) l a : Reads m l a -> WReads (noting z m) l a.
Proof. intros Hm s pre rest Hs Hb Ho. unfold noting. by rewrite Hs, (Hm _ pre rest). Qed.

Lemma WReads_skip n l : zlen l = n -> 32 < n -> WReads (hu n) l 0.
Proof.
  intros Hl Hn s pre rest Hs Hb Ho. unfold hu. rewrite Hs. destruct (Z.ltb_spec 32 n); [| lia].
  pose proof (zlen_bits (b (r s))) as Hz. rewrite Hb, !zlen_app in Hz. pose proof (zlen_nonneg rest).
  destruct (Z.ltb_spec (zlen (b (r s)) * 8) (off (r s) + n)); [lia |]. by rewrite Hl.
Qed.

Lemma WReads_short n l : zlen l = n -> n <= 32 -> WReads (hu n) l (number 0 l).
Proof.
  intros Hl Hn s pre rest Hs Hb Ho. unfold hu. rewrite Hs. destruct (Z.ltb_spec 32 n); [lia |].
  apply (WReads_noting 0 (u n) l _) with (pre := pre) (rest := rest); [| done..]. apply u_reads; lia.
Qed.

Lemma WReads_u n v : 0 <= n <= 32 -> 0 <= v < 2 ^ n -> WReads (hu n) (put_u (Z.to_nat n) v) v.
Proof.
  intros Hn Hv. pose proof (WReads_short n (put_u (Z.to_nat n) v)) as H.
  rewrite number_put_u, zlen_put_u, Z2Nat.id, Z.mod_small, Z.mul_0_l, Z.add_0_l in H by lia. apply H; lia.
Qed.

Lemma WReads_ue v : 0 <= v < 2 ^ 32 - 1 -> WReads hue (put_ue v) v.
Proof. intros Hv. by apply WReads_noting, Reads_ue. Qed.

Lemma WReads_se v : - 2 ^ 31 < v < 2 ^ 31 -> WReads hse (put_se v) tt.
Proof.
  intros Hv. apply WReads_noting. rewrite <- (app_nil_r (put_se v)).
  eapply Reads_bind; [by apply Reads_se | apply Reads_ret].
Qed.

Lemma WReads_over (ms : list (list bool)) (m : walk unit) :
  Forall (fun k => WReads m k tt) ms -> WReads (over (length ms) m) (concat ms) tt.
Proof. induction 1 as [| k ms Hk _ IH]; [apply WReads_ret | by eapply WReads_bind]. Qed.

Lemma WReads_while_good (ms : list (list bool)) (m : walk unit) :
  Forall (fun k => k <> [] /\ WReads m k tt) ms ->
  forall fuel, (length ms <= fuel)%nat -> WReads (while_good fuel (zlen ms) m) (concat ms) tt.
Proof.
  induction 1 as [| k ms [_ Hk] _ IH]; intros fuel Hf.
  { destruct fuel; apply WReads_is_bad, WReads_ret. }
  destruct fuel as [| fuel]; [cbn in Hf; lia |]. cbn [while_good]. apply WReads_is_bad. cbn [concat]. rewrite zlen_cons. pose proof (zlen_nonneg ms).
  destruct (Z.leb_spec (zlen ms + 1) 0); [lia |]. cbn [orb].
  eapply WReads_bind; [done |]. replace (zlen ms + 1 - 1) with (zlen ms) by lia. apply IH. cbn in Hf. lia.
Qed.

Lemma WReads_repeats (ms : list (list bool)) (m : walk unit) :
  Forall (fun k => k <> [] /\ WReads m k tt) ms -> WReads (repeats (zlen ms) m) (concat ms) tt.
Proof.
  intros Hm s pre rest Hs Hb Ho. unfold repeats.
  apply (WReads_while_good ms m Hm _) with (pre := pre) (rest := rest); [| done..].
  pose proof (zlen_bits (b (r s))) as Hz. rewrite Hb, !zlen_app in Hz. pose proof (zlen_nonneg pre). pose proof (zlen_nonneg rest).
  assert (zlen ms <= zlen (concat ms)).
  { apply zlen_concat_nonempty. eapply Forall_impl; [exact Hm |]. by intros k [Hk _]. }
  unfold zlen in *. lia.
Qed.

(** ** Reading never fails otherwise than by [ok] *)

Definition placed (s : bitReader) : Prop := 0 <= off s <= zlen (b s) * 8.

(** Where a read leaves the reader: further on in the same bytes. *)
Definition after (s s' : bitReader) : Prop := placed s' /\ b s' = b s /\ off s <= off s'.

Definition safe {A} (m : reader A) : Prop := forall s, placed s -> returns (m s) (fun x => after s (snd x)).
Definition eats {A} (m : reader A) : Prop := forall s, placed s ->
  returns (m s) (fun x => after s (snd x) /\ (is_Some (fst x) -> off s < off (snd x))).

Lemma after_refl s : placed s -> after s s.
Proof. intros Hs. split_and!; [done | done | lia]. Qed.

Lemma after_trans s1 s2 s3 : after s1 s2 -> after s2 s3 -> after s1 s3.
Proof. intros (H1 & H2 & H3) (H4 & H5 & H6). split_and!; [done | congruence | lia]. Qed.

Lemma eats_safe {A} (m : reader A) : eats m -> safe m.
Proof. intros Hm s Hs. eapply returns_mono; [by apply Hm |]. by intros x [Hx _]. Qed.

Lemma safe_ret {A} (a : A) : safe (ret a).
Proof. intros s Hs. by apply after_refl. Qed.
Lemma safe_stop {A} : safe (@stop A).
Proof. intros s Hs. by apply after_refl. Qed.

Lemma safe_bind {A B} (m : reader A) (f : A -> reader B) : safe m -> (forall a, safe (f a)) -> safe (bind m f).
Proof.
  intros Hm Hf s Hs. unfold bind. apply returns_bind. eapply returns_mono; [by apply Hm |].
  intros [[a|] s'] Ha; cbn [snd] in *; [| done]. eapply returns_mono; [apply Hf, Ha |].
  intros x Hx. by eapply after_trans.
Qed.

Lemma eats_bind {A B} (m : reader A) (f : A -> reader B) : eats m -> (forall a, safe (f a)) -> eats (bind m f).
Proof.
  intros Hm Hf s Hs. unfold bind. apply returns_bind. eapply returns_mono; [by apply Hm |].
  intros [[a|] s'] [Ha He]; cbn [fst snd] in *; [| split; [done | by intros [? ?]]].
  eapply returns_mono; [apply Hf, Ha |]. intros x Hx. split; [by eapply after_trans |].
  intros _. specialize (He (ex_intro _ a eq_refl)). destruct Hx as (_ & _ & ?). lia.
Qed.

Lemma u_loop_total n : forall v s, 0 <= off s -> off s + Z.of_nat n <= zlen (b s) * 8 ->
  returns (u_loop n v s) (fun x => snd x = mkBits (b s) (off s + Z.of_nat n)).
Proof.
  induction n as [| n IH]; intros v s Ho Hn; cbn [u_loop].
  { apply returns_Ok. cbn [snd]. rewrite Z.add_0_r. by destruct s. }
  apply returns_bind. destruct (bits_at (b s) (off s)) as (x & -> & _); [lia |]. apply returns_Ok.
  eapply returns_mono; [apply IH; cbn [b off]; lia |]. intros y ->. cbn [b off]. f_equal. lia.
Qed.

Lemma u_total n s : placed s -> returns (u n s) (fun x => after s (snd x) /\ (is_Some (fst x) -> off (snd x) = off s + n)).
Proof.
  intros Hs. unfold u. case_match eqn:E.
  { apply returns_Ok. split; [by apply after_refl | by intros [? ?]]. }
  apply orb_false_iff in E as [E1 E2]. destruct Hs as [H1 H2]. apply returns_bind.
  eapply returns_mono; [apply u_loop_total; lia |]. intros [v s'] Hx. cbn [snd] in Hx. subst s'. apply returns_Ok.
  cbn [fst snd off]. split; [split_and!; unfold placed; cbn [b off]; lia || done | lia].
Qed.

Lemma safe_u n : safe (u n).
Proof. intros s Hs. eapply returns_mono; [by apply u_total |]. by intros x [Hx _]. Qed.

Lemma eats_u n : 0 < n -> eats (u n).
Proof.
  intros Hn s Hs. eapply returns_mono; [by apply u_total |]. intros x [Hx He]. split; [done |].
  intros Hi. rewrite (He Hi). lia.
Qed.

Lemma ue_zeros_eats fuel : forall z, 0 <= z <= 31 -> 32 - z < Z.of_nat fuel -> eats (ue_zeros fuel z).
Proof.
  induction fuel as [| fuel IH]; intros z Hz Hf; [lia |]. cbn [ue_zeros].
  apply eats_bind; [by apply eats_u |]. intros bit. case_match; [apply safe_ret |].
  destruct (Z.ltb_spec 31 (z + 1)); [apply safe_stop | apply eats_safe, IH; lia].
Qed.

Lemma eats_ue : eats ue.
Proof.
  apply eats_bind; [by apply ue_zeros_eats |]. intros z. case_match; [apply safe_ret |].
  apply safe_bind; [apply safe_u | intros; apply safe_ret].
Qed.

Lemma eats_se : eats se.
Proof. apply eats_bind; [apply eats_ue | intros; apply safe_ret]. Qed.

Lemma safe_times n m : eats m -> safe (times n m).
Proof.
  intros Hm s Hs. unfold times.
  assert (zlen (b s) * 8 - off s < Z.of_nat (S (length (b s) * 8))) as Hf by (destruct Hs; unfold zlen; lia).
  revert Hf. generalize (S (length (b s) * 8)) as fuel. intros fuel. revert n s Hs.
  induction fuel as [| fuel IH]; intros n s Hs Hf; cbn [each_of]; (case_match; [by apply safe_ret |]).
  { destruct Hs. lia. }
  unfold bind. apply returns_bind. eapply returns_mono; [by apply Hm |].
  intros [[a|] s'] [Ha He]; cbn [fst snd] in *; [| done]. specialize (He (ex_intro _ a eq_refl)).
  eapply returns_mono; [apply IH; [apply Ha | destruct Ha as (_ & -> & _); lia] |].
  intros x Hx. by eapply after_trans.
Qed.

Create HintDb bits discriminated.
#[export] Hint Constants Opaque : bits.
#[export] Hint Resolve safe_ret safe_stop safe_u eats_ue eats_se eats_safe safe_times : bits.


(** A reader put together from safe ones. *)
Ltac safe_step :=
  lazymatch goal with
  | |- safe (bind _ _) => apply safe_bind; [| intros ?]
  | |- safe (if ?c then _ else _) => destruct c eqn:?
  | |- safe (match ?c with _ => _ end) => destruct c eqn:?
  | |- safe _ => solve [eauto with bits]
  end.
Ltac safe_steps := repeat (safe_step; cbv beta).

Lemma safe_returns {A} (m : reader A) l : safe m -> returns (m (mkBits l 0)) (fun _ => True).
Proof.
  intros Hm. eapply returns_mono; [apply Hm; split; cbn [b off]; [done | pose proof (zlen_nonneg l); lia] | done].
Qed.

(** The same of [hevcBits]: going bad is for good, and a read that does not go
    bad eats. *)
Definition wsafe {A} (m : walk A) : Prop := forall s, placed (r s) -> returns (m s) (fun x => after (r s) (r (snd x))).
Definition weats {A} (m : walk A) : Prop := forall s, placed (r s) ->
  returns (m s) (fun x => after (r s) (r (snd x)) /\ (bad s = false -> bad (snd x) = false -> off (r s) < off (r (snd x)))).

Lemma weats_wsafe {A} (m : walk A) : weats m -> wsafe m.
Proof. intros Hm s Hs. eapply returns_mono; [by apply Hm |]. by intros x [Hx _]. Qed.

Lemma wsafe_ret {A} (a : A) : wsafe (wret a).
Proof. intros s Hs. by apply after_refl. Qed.
Lemma wsafe_is_bad : wsafe is_bad.
Proof. intros s Hs. by apply after_refl. Qed.
Lemma wsafe_set_bad : wsafe set_bad.
Proof. intros s Hs. by apply after_refl. Qed.

Lemma wsafe_bind {A B} (m : walk A) (f : A -> walk B) : wsafe m -> (forall a, wsafe (f a)) -> wsafe (wbind m f).
Proof.
  intros Hm Hf s Hs. unfold wbind. apply returns_bind. eapply returns_mono; [by apply Hm |].
  intros [a s'] Ha. cbn [snd] in Ha. eapply returns_mono; [apply Hf, Ha |]. intros x Hx. by eapply after_trans.
Qed.

(** Once bad, a walk stays where it is. *)
Definition sticks {A} (m : walk A) : Prop := forall s, bad s = true -> returns (m s) (fun x => bad (snd x) = true).

Lemma sticks_ret {A} (a : A) : sticks (wret a).
Proof. by intros s Hs. Qed.
Lemma sticks_noting {A} (z : A) m : sticks (noting z m).
Proof. intros s Hs. unfold noting. by rewrite Hs. Qed.
Lemma sticks_hu n : sticks (hu n).
Proof. intros s Hs. unfold hu. by rewrite Hs. Qed.
Lemma sticks_bind {A B} (m : walk A) (f : A -> walk B) : sticks m -> (forall a, sticks (f a)) -> sticks (wbind m f).
Proof.
  intros Hm Hf s Hs. unfold wbind. apply returns_bind. eapply returns_mono; [by apply Hm |].
  intros [a s'] Ha. by apply Hf.
Qed.

Lemma weats_bind {A B} (m : walk A) (f : A -> walk B) :
  weats m -> (forall a, wsafe (f a)) -> (forall a, sticks (f a)) -> weats (wbind m f).
Proof.
  intros Hm Hf Hk s Hs. unfold wbind. apply returns_bind. eapply returns_mono; [by apply Hm |].
  intros [a s'] [Ha He]. cbn [snd] in *. destruct (bad s') eqn:E.
  - eapply returns_mono; [apply returns_and; [apply Hf, Ha | by apply Hk] |]. intros x [Hx Hb].
    split; [by eapply after_trans | congruence].
  - eapply returns_mono; [apply Hf, Ha |]. intros x Hx. split; [by eapply after_trans |].
    intros Hs0 _. specialize (He Hs0 eq_refl). destruct Hx as (_ & _ & ?). lia.
Qed.

Lemma weats_noting {A} (z : A) m : eats m -> weats (noting z m).
Proof.
  intros Hm s Hs. unfold noting. case_match.
  { apply returns_Ok. split; [by apply after_refl | done]. }
  apply returns_bind. eapply returns_mono; [by apply Hm |]. intros [[a|] s'] [Ha He]; apply returns_Ok; cbn [fst snd r bad] in *.
  - split; [done |]. intros _ _. by apply He.
  - by split.
Qed.

Lemma wsafe_noting {A} (z : A) m : safe m -> wsafe (noting z m).
Proof.
  intros Hm s Hs. unfold noting. case_match; [by apply after_refl |].
  apply returns_bind. eapply returns_mono; [by apply Hm |]. by intros [[a|] s'] Ha.
Qed.

Lemma hu_short n s : n <= 32 -> hu n s = noting 0 (u n) s.
Proof. intros Hn. unfold hu, noting. destruct (Z.ltb_spec 32 n); [lia |]. by destruct (bad s). Qed.

Lemma weats_hu_long n : 32 < n -> weats (hu n).
Proof.
  intros Hn s Hs. unfold hu. destruct (Z.ltb_spec 32 n); [| lia]. destruct Hs.
  case_match; [| case_match eqn:E]; apply returns_Ok; (split; [| cbn; lia || done]); split_and!; cbn; unfold placed; cbn; lia || done.
Qed.

Lemma wsafe_hu n : wsafe (hu n).
Proof.
  destruct (Z.leb_spec n 32) as [Hn | Hn]; [| by apply weats_wsafe, weats_hu_long].
  intros s Hs. rewrite hu_short by done. by apply wsafe_noting, Hs; apply safe_u.
Qed.

Lemma weats_hu n : 0 < n -> weats (hu n).
Proof.
  intros H0. destruct (Z.leb_spec n 32) as [Hn | Hn]; [| by apply weats_hu_long].
  intros s Hs. rewrite hu_short by done. by apply weats_noting, Hs; apply eats_u.
Qed.

Lemma weats_ue : weats hue.
Proof. apply weats_noting, eats_ue. Qed.
Lemma weats_se : weats hse.
Proof. apply weats_noting, eats_bind; [apply eats_se | intros; apply safe_ret]. Qed.

Lemma wsafe_over n m : wsafe m -> wsafe (over n m).
Proof. intros Hm. induction n; [apply wsafe_ret | by apply wsafe_bind]. Qed.

Lemma wsafe_repeats n m : weats m -> wsafe (repeats n m).
Proof.
  intros Hm s Hs. unfold repeats.
  assert (zlen (b (r s)) * 8 - off (r s) < Z.of_nat (S (length (b (r s)) * 8))) as Hf by (destruct Hs; unfold zlen; lia).
  revert Hf. generalize (S (length (b (r s)) * 8)) as fuel. intros fuel. revert n s Hs.
  induction fuel as [| fuel IH]; intros n s Hs Hf; cbn [while_good]; unfold wbind, is_bad; cbn [rbind].
  { destruct Hs. lia. }
  destruct ((n <=? 0) || bad s)%bool eqn:E; [by apply wsafe_ret |]. apply orb_false_iff in E as [_ Eb].
  apply returns_bind. eapply returns_mono; [by apply Hm |]. intros [a s'] [Ha He]. cbn [snd] in *.
  destruct (bad s') eqn:Eb'.
  - destruct fuel; cbn [while_good]; unfold wbind, is_bad; cbn [rbind]; rewrite Eb', orb_true_r; done.
  - specialize (He Eb eq_refl). eapply returns_mono; [apply IH; [apply Ha | destruct Ha as (_ & -> & _); lia] |].
    intros x Hx. by eapply after_trans.
Qed.

Create HintDb walks discriminated.
#[export] Hint Constants Opaque : walks.
#[export] Hint Resolve wsafe_ret wsafe_is_bad wsafe_set_bad wsafe_hu weats_ue weats_se weats_wsafe wsafe_over wsafe_repeats
  sticks_ret sticks_hu sticks_noting : walks.
#[export] Hint Extern 1 (sticks hue) => apply sticks_noting : walks.
#[export] Hint Extern 1 (sticks hse) => apply sticks_noting : walks.

Ltac walk_step :=
  lazymatch goal with
  | |- wsafe (wbind _ _) => apply wsafe_bind; [| intros ?]
  | |- weats (wbind _ _) => apply weats_bind; [| intros ? | intros ?]
  | |- sticks (wbind _ _) => apply sticks_bind; [| intros ?]
  | |- weats (hu _) => apply weats_hu
  | |- wsafe (if ?c then _ else _) => destruct c eqn:?
  | |- sticks (if ?c then _ else _) => destruct c eqn:?
  | |- wsafe (match ?c with _ => _ end) => destruct c eqn:?
  | |- _ => solve [eauto with walks]
  end.
Ltac walk_steps := repeat (walk_step; cbv beta).

(** ** Bytes of bits *)

(** Eight to a byte, the last one filled up with zeros. *)
Fixpoint pack (l : list bool) : list Z :=
  match l with
  | [] => []
  | c0 :: c1 :: c2 :: c3 :: c4 :: c5 :: c6 :: c7 :: l => number 0 [c0; c1; c2; c3; c4; c5; c6; c7] :: pack l
  | l => [number 0 (l ++ replicate (8 - length l) false)]
  end.

Lemma byte_bits_number l : length l = 8%nat -> byte_bits (number 0 l) = l.
Proof. intros Hl. do 9 (destruct l as [| [] l]; try done); simpl in Hl; lia || done. Qed.

Lemma bits_pack l : exists fill, bits (pack l) = l ++ fill.
Proof.
  remember (length l) as n eqn:E. revert l E. induction (lt_wf n) as [n _ IH]. intros l ->.
  do 8 (destruct l as [| ? l];
    [eexists; cbn [pack]; unfold bits; cbn [map concat];
     try (rewrite byte_bits_number by done; rewrite (@app_nil_r bool)); cbn [app length Nat.sub replicate];
     try reflexivity; exact (eq_sym (app_nil_r _)) |]).
  destruct (IH (length l)) with (l := l) as [fill Hf]; [cbn; lia | done |]. exists fill.
  cbn [pack]. unfold bits in *. cbn [map concat]. rewrite byte_bits_number by done. rewrite Hf. done.
Qed.

Lemma number_byte l : zlen l = 8 -> byte_ok (number 0 l).
Proof. intros Hl. pose proof (number_bound l) as H. by rewrite Hl in H. Qed.

(** ** [unescape] and the captions' *)

Lemma unesc_many z l : 2 <= z -> unesc z l = unesc 2 l.
Proof.
  revert z. induction l as [| c l IH]; intros z Hz; [done |]. cbn [unesc].
  destruct (Z.leb_spec 2 z); [| lia]. destruct (c =? 3); [done |]. cbn [andb]. f_equal.
  destruct (c =? 0); [| done]. rewrite !(IH (_ + 1)) by lia. done.
Qed.

Lemma unescape_unesc l : unescape l = unesc 0 l.
Proof.
  remember (length l) as n eqn:E. revert l E. induction (lt_wf n) as [n _ IH]. intros l ->.
  destruct l as [| x l]; [done |]. assert (unescape l = unesc 0 l) as H1 by (eapply IH; [| done]; cbn; lia).
  cbn [unescape unesc]. destruct l as [| y l]; [done |]. destruct l as [| z l].
  { rewrite H1. cbn [unesc]. by repeat case_match. }
  destruct (Z.eqb_spec x 0) as [-> |]; [| cbn [andb]; by rewrite H1].
  destruct (Z.eqb_spec y 0) as [-> |]; cbn [andb].
  - destruct (Z.eqb_spec z 3) as [-> |].
    + rewrite (IH (length l)); [done | cbn; lia | done].
    + rewrite H1. cbn [unesc]. assert ((z =? 3) = false) as E3 by lia. cbn. rewrite E3.
      destruct (z =? 0); [| done]. do 3 f_equal. rewrite (unesc_many 3) by lia. done.
  - rewrite H1. cbn [unesc]. by destruct (Z.eqb_spec y 0).
Qed.

(** The two readers of the repository undo emulation prevention alike. *)
Lemma unescape_agrees l : unescape l = CapCc.unescape l.
Proof. by rewrite unescape_unesc, unescape_slow. Qed.

Lemma unesc_app z l k : exists z', unesc z (l ++ k) = unesc z l ++ unesc z' k.
Proof.
  revert z. induction l as [| c l IH]; intros z; [by exists z |]. cbn [app unesc]. case_match; [apply IH |].
  destruct (IH (if c =? 0 then z + 1 else 0)) as [z' Hz]. exists z'. by rewrite Hz.
Qed.

(** What follows an escaped payload does not change what is read of it. *)
Lemma unescape_payload l k : exists rest, unescape (escape_from 0 l ++ k) = l ++ rest.
Proof.
  rewrite unescape_unesc. destruct (unesc_app 0 (escape_from 0 l) k) as [z ->].
  rewrite unesc_escape. by eexists.
Qed.

Lemma unescaped_bytes_ok l : bytes_ok l -> bytes_ok (unescape l).
Proof. rewrite unescape_agrees. apply CapCc.unescape_ok. Qed.

(** The bits of a payload, packed, escaped and followed by anything. *)
Lemma bits_of_payload l k : exists rest, bits (unescape (escape_from 0 (pack l) ++ k)) = l ++ rest.
Proof.
  destruct (unescape_payload (pack l) k) as [tail ->]. destruct (bits_pack l) as [fill Hf].
  rewrite bits_app, Hf, <- app_assoc. by eexists.
Qed.
