(* ===== verification/LiveSps.v ===== *)
(** What the headers of an MPEG-2 or an H.264 picture say: the scan type, the
    size and the frame rate, in [server/internal/live/scantype.go].

    Text is code points. A rate is compared as the [float64] it is. *)
From S2P Require Import Prelude CapCc GoText GoFloat LiveBits.
Local Open Scope Z_scope.
Local Open Scope go_scope.

(** ** Rates *)

(** The rates a header names, a thousand times them. *)
Definition known_rates : list (Z * list Z) :=
  [(23976, lit "23.976"); (24000, lit "24"); (25000, lit "25"); (29970, lit "29.97"); (30000, lit "30");
   (50000, lit "50"); (59940, lit "59.94"); (60000, lit "60"); (12500, lit "12.5")].
Definition is_rate (fps : spec_float) (k : Z * list Z) : bool :=
  SFltb (SFabs (fsub fps (const (fst k) 3))) (const 5 3).
Definition rateName (fps : spec_float) : list Z :=
  match List.find (is_rate fps) known_rates with Some k => snd k | None => [] end.

Definition mpeg2Rate (code : Z) : list Z :=
  if code =? 1 then lit "23.976" else if code =? 2 then lit "24" else if code =? 3 then lit "25"
  else if code =? 4 then lit "29.97" else if code =? 5 then lit "30" else if code =? 6 then lit "50"
  else if code =? 7 then lit "59.94" else if code =? 8 then lit "60" else [].

(** [notedPicture] *)
Record notedPicture := mkNoted { Width : Z; Height : Z; FPS : list Z }.
Definition no_picture : notedPicture := mkNoted 0 0 [].

(** A plausible size *)
Definition sane (w h : Z) : bool := ((16 <=? w) && (16 <=? h) && (w <=? 7680) && (h <=? 4320))%bool.

(** Looks at every place of [l] that has more than [need] bytes from it on. *)
Fixpoint scan_places {A} (need : Z) (f : list Z -> res (option A)) (l : list Z) : res (option A) :=
  if zlen l <=? need then Ok None else
  let! found := f l in
  match found with
  | Some a => Ok (Some a)
  | None => match l with [] => Ok None | _ :: l => scan_places need f l end
  end.

(** [es[i] == 0 && es[i+1] == 0 && es[i+2] == 1] *)
Definition start_code (l : list Z) : res bool :=
  let! x := idx l 0 in let! y := idx l 1 in let! z := idx l 2 in
  Ok ((x =? 0) && (y =? 0) && (z =? 1))%bool.

(** ** MPEG-2 *)

(** What [mpeg2Scan] counts. *)
Record mpeg2_count := mkCount {
  sawSeq : bool; progressiveSeq : bool; pics : Z; progPics : Z; rff : Z; sawInterlacedPic : bool;
}.
Definition no_count : mpeg2_count := mkCount false false 0 0 0 false.

(** One start code of an extension. *)
Definition mpeg2_extension (c : mpeg2_count) (l : list Z) : res mpeg2_count :=
  let! b4 := idx l 4 in
  let id := Z.shiftr b4 4 in
  if id =? 1 then
    let! b5 := idx l 5 in
    Ok (mkCount true (negb (Z.land b5 0x08 =? 0)) (pics c) (progPics c) (rff c) (sawInterlacedPic c))
  else if id =? 8 then
    let! b8 := idx l 8 in
    if negb (Z.land b8 0x80 =? 0) then
      let! b7 := idx l 7 in
      Ok (mkCount (sawSeq c) (progressiveSeq c) (pics c + 1) (progPics c + 1)
            (if negb (Z.land b7 0x02 =? 0) then rff c + 1 else rff c) (sawInterlacedPic c))
    else Ok (mkCount (sawSeq c) (progressiveSeq c) (pics c + 1) (progPics c) (rff c) true)
  else Ok c.
Definition mpeg2_place (c : mpeg2_count) (l : list Z) : res mpeg2_count :=
  let! s := start_code l in let! b3 := idx l 3 in
  if (s && (b3 =? 0xB5))%bool then mpeg2_extension c l else Ok c.
Fixpoint mpeg2_counts (c : mpeg2_count) (l : list Z) : res mpeg2_count :=
  if zlen l <=? 8 then Ok c else
  let! c := mpeg2_place c l in match l with [] => Ok c | _ :: l => mpeg2_counts c l end.

Definition filmCadence (pics prog rff : Z) : bool :=
  if ((pics <? 4) || negb (prog =? pics) || (rff =? 0) || (rff =? pics))%bool then false else
  let ratio := fdiv (float64 rff) (float64 pics) in
  (SFleb (const 25 2) ratio && SFleb ratio (const 75 2))%bool.

Definition mpeg2_order (c : mpeg2_count) : option (list Z) :=
  if progressiveSeq c then Some (lit "progressive")
  else if sawInterlacedPic c then Some (lit "tt")
  else if filmCadence (pics c) (progPics c) (rff c) then Some (lit "film")
  else if (sawSeq c && (8 <=? pics c))%bool then Some (lit "tt")
  else None.
Definition mpeg2Scan (es : list Z) : res (option (list Z)) :=
  let! c := mpeg2_counts no_count es in Ok (mpeg2_order c).

Definition mpeg2_header (l : list Z) : res (option notedPicture) :=
  let! s := start_code l in let! b3 := idx l 3 in
  if negb (s && (b3 =? 0xB3))%bool then Ok None else
  let! b4 := idx l 4 in let! b5 := idx l 5 in let! b6 := idx l 6 in let! b7 := idx l 7 in
  let w := Z.lor (Z.shiftl b4 4) (Z.shiftr b5 4) in
  let h := be16 (Z.land b5 0x0f) b6 in
  Ok (if sane w h then Some (mkNoted w h (mpeg2Rate (Z.land b7 0x0f))) else None).
Definition mpeg2Picture (es : list Z) : res (option notedPicture) := scan_places 7 mpeg2_header es.

(** ** H.264 *)

Definition highProfile (profile : Z) : bool :=
  bool_decide (profile ∈ [100; 110; 122; 244; 44; 83; 86; 118; 128; 138; 139; 134; 135]).

(** One list of scaling factors: [(last+delta+256) % 256], Go's remainder. *)
Fixpoint scaling_list (size : nat) (last next : Z) : reader unit :=
  match size with
  | O => ret tt
  | S size =>
      if next =? 0 then scaling_list size last next else
      let? delta := se in
      let next := Z.rem (last + delta + 256) 256 in
      scaling_list size (if next =? 0 then last else next) next
  end.
Fixpoint scaling_lists (n : nat) (i : Z) : reader unit :=
  match n with
  | O => ret tt
  | S n =>
      let? present := u 1 in
      if present =? 0 then scaling_lists n (i + 1) else
      let? _ := scaling_list (if 6 <=? i then 64 else 16) 8 8 in scaling_lists n (i + 1)
  end.
Definition skipScaling (chroma : Z) : reader unit := scaling_lists (if chroma =? 3 then 12 else 8) 0.

(** The chroma format, and the rest of what a high profile adds. *)
Definition high_fields (profile : Z) : reader Z :=
  if highProfile profile then
    let? chroma := ue in
    let? _ := (if chroma =? 3 then u 1 else ret 0) in
    let? _ := ue in let? _ := ue in let? _ := u 1 in
    let? present := u 1 in
    let? _ := (if present =? 1 then skipScaling chroma else ret tt) in
    ret chroma
  else ret 1.

(** The picture order count's fields. *)
Definition poc_fields : reader unit :=
  let? poc := ue in
  if poc =? 0 then let? _ := ue in ret tt
  else if poc =? 1 then
    let? _ := u 1 in let? _ := se in let? _ := se in
    let? n := ue in times n (let? _ := se in ret tt)
  else ret tt.

(** A sequence parameter set from its start to [frame_mbs_only_flag]: the chroma
    format, the size in macroblocks and the flag. *)
Definition sps_head : reader (Z * Z * Z * Z) :=
  let? profile := u 8 in let? _ := u 8 in let? _ := u 8 in let? _ := ue in
  let? chroma := high_fields profile in
  let? _ := ue in let? _ := poc_fields in
  let? _ := ue in let? _ := u 1 in
  let? w := ue in let? h := ue in let? frame := u 1 in
  ret (chroma, w, h, frame).

Definition frameMBsOnly : reader bool :=
  let? x := sps_head in ret (snd x =? 1).

Definition cropUnits (chroma frame : Z) : Z * Z :=
  if chroma =? 0 then (1, 2 - frame) else
  let ' (subW, subH) := if chroma =? 1 then (2, 2) else if chroma =? 2 then (2, 1) else (1, 1) in
  (subW, subH * (2 - frame)).

Definition spsSize : reader (Z * Z) :=
  let? x := sps_head in
  let ' (chroma, mbW, mbH, frame) := x in
  let w := (mbW + 1) * 16 in
  let h := (mbH + 1) * 16 in
  let h := if frame =? 0 then h * 2 else h in
  let? _ := (if frame =? 0 then u 1 else ret 0) in
  let? _ := u 1 in
  let? crop := u 1 in
  let? wh := (if crop =? 1 then
    let? left := ue in let? right := ue in let? top := ue in let? bottom := ue in
    let ' (ux, uy) := cropUnits chroma frame in
    ret (w - (left + right) * ux, h - (top + bottom) * uy)
  else ret (w, h)) in
  if ((fst wh <? 16) || (snd wh <? 16))%bool then stop else ret wh.

(** The usability information up to the timing, when the flag before it is set. *)
Definition vui_aspect : reader unit :=
  let? aspect := u 1 in
  if aspect =? 1 then let? idc := u 8 in if idc =? 255 then let? _ := u 32 in ret tt else ret tt else ret tt.
Definition vui_overscan : reader unit :=
  let? overscan := u 1 in if overscan =? 1 then let? _ := u 1 in ret tt else ret tt.
Definition vui_signal : reader unit :=
  let? signal := u 1 in
  if signal =? 1 then
    let? _ := u 4 in let? colour := u 1 in
    if colour =? 1 then let? _ := u 24 in ret tt else ret tt
  else ret tt.
Definition vui_chroma : reader unit :=
  let? loc := u 1 in if loc =? 1 then let? _ := ue in let? _ := ue in ret tt else ret tt.

(** [vuiRate]; a read that fails gives no rate. *)
Definition vui_walk : reader (list Z) :=
  let? vui := u 1 in
  if vui =? 0 then ret [] else
  let? _ := vui_aspect in let? _ := vui_overscan in let? _ := vui_signal in let? _ := vui_chroma in
  let? timing := u 1 in
  if timing =? 0 then ret [] else
  let? units := u 32 in let? scale := u 32 in
  if ((units =? 0) || (scale =? 0))%bool then ret []
  else ret (rateName (fdiv (float64 scale) (float64 (2 * units)))).
Definition vuiRate (s : bitReader) : res (list Z) :=
  let! ' (rate, _) := vui_walk s in Ok (default [] rate).

(** A place where a sequence parameter set starts: its payload. *)
Definition sps_at (l : list Z) : res (option (list Z)) :=
  let! s := start_code l in let! b3 := idx l 3 in
  if (s && (Z.land b3 0x1f =? 7))%bool then let! rest := slice_from l 4 in Ok (Some (unescape rest)) else Ok None.

Definition h264_scan_at (l : list Z) : res (option (list Z)) :=
  let! rbsp := sps_at l in
  match rbsp with
  | None => Ok None
  | Some rbsp =>
      let! ' (flag, _) := frameMBsOnly (mkBits rbsp 0) in
      Ok ((fun flag : bool => if flag then lit "progressive" else lit "tt") <$> flag)
  end.
Definition h264Scan (es : list Z) : res (option (list Z)) := scan_places 5 h264_scan_at es.

Definition h264_picture_at (l : list Z) : res (option notedPicture) :=
  let! rbsp := sps_at l in
  match rbsp with
  | None => Ok None
  | Some rbsp =>
      let! ' (size, s) := spsSize (mkBits rbsp 0) in
      match size with
      | Some (w, h) => if sane w h then let! rate := vuiRate s in Ok (Some (mkNoted w h rate)) else Ok None
      | None => Ok None
      end
  end.
Definition h264Picture (es : list Z) : res (option notedPicture) := scan_places 5 h264_picture_at es.

(** ** Nothing fails but by a result *)

Lemma safe_scaling_list size : forall last next, safe (scaling_list size last next).
Proof. induction size as [| size IH]; intros last next; cbn [scaling_list]; safe_steps. Qed.
#[local] Hint Resolve safe_scaling_list : bits.

Lemma safe_scaling_lists n : forall i, safe (scaling_lists n i).
Proof. induction n as [| n IH]; intros i; cbn [scaling_lists]; safe_steps. Qed.
#[local] Hint Resolve safe_scaling_lists : bits.

Lemma safe_sps_head : safe sps_head.
Proof.
  unfold sps_head, high_fields, poc_fields, skipScaling. safe_steps.
  apply safe_times, eats_bind; [apply eats_se | intros; apply safe_ret].
Qed.
#[local] Hint Resolve safe_sps_head : bits.

Lemma safe_spsSize : safe spsSize.
Proof. unfold spsSize, cropUnits. safe_steps. Qed.

Lemma safe_vui_walk : safe vui_walk.
Proof. unfold vui_walk, vui_aspect, vui_overscan, vui_signal, vui_chroma. safe_steps. Qed.

Lemma scan_places_total {A} need (f : list Z -> res (option A)) l :
  0 <= need -> bytes_ok l -> (forall l, bytes_ok l -> need < zlen l -> returns (f l) (fun _ => True)) ->
  returns (scan_places need f l) (fun _ => True).
Proof.
  intros Hn Hl Hf. induction Hl as [| x l Hx Hl IH]; cbn [scan_places].
  { by destruct (zlen [] <=? need) eqn:E; [| rewrite (@zlen_nil Z) in E; lia]. }
  destruct (Z.leb_spec (zlen (x :: l)) need); [done |]. apply returns_bind.
  eapply returns_mono; [apply Hf; [by constructor | done] |]. intros [a|] _; [done | apply IH].
Qed.

Lemma start_code_total l : bytes_ok l -> 2 < zlen l -> returns (start_code l) (fun _ => True).
Proof. intros Hl Hz. unfold start_code. go_steps. done. Qed.

Ltac header_steps := repeat (cbv beta; first
  [ go_step
  | match goal with |- returns (start_code _) _ =>
      eapply returns_mono; [apply start_code_total; [by eauto with go | lia] | intros ? _] end
  | match goal with |- returns (match ?x with _ => _ end) _ => destruct x eqn:? end
  | done ]).

Lemma mpeg2Picture_total es : bytes_ok es -> returns (mpeg2Picture es) (fun _ => True).
Proof. intros Hes. apply scan_places_total; [done | done |]. intros l Hl Hz. unfold mpeg2_header. header_steps. Qed.

Lemma mpeg2_place_total c l : bytes_ok l -> 8 < zlen l -> returns (mpeg2_place c l) (fun _ => True).
Proof. intros Hl Hz. unfold mpeg2_place, mpeg2_extension. header_steps. Qed.

Lemma mpeg2Scan_total es : bytes_ok es -> returns (mpeg2Scan es) (fun _ => True).
Proof.
  intros Hes. unfold mpeg2Scan. apply returns_bind.
  apply (returns_mono _ (fun _ => True)); [| done]. generalize no_count.
  induction Hes as [| x l Hx Hl IH]; intros c; cbn [mpeg2_counts].
  { by rewrite (@zlen_nil Z). }
  destruct (Z.leb_spec (zlen (x :: l)) 8); [done |]. apply returns_bind.
  eapply returns_mono; [apply mpeg2_place_total; [by constructor | done] |]. intros c' _. apply IH.
Qed.

Lemma sps_at_total l : bytes_ok l -> 5 < zlen l -> returns (sps_at l) (fun _ => True).
Proof. intros Hl Hz. unfold sps_at. header_steps. Qed.

Lemma h264Scan_total es : bytes_ok es -> returns (h264Scan es) (fun _ => True).
Proof.
  intros Hes. apply scan_places_total; [done | done |]. intros l Hl Hz. unfold h264_scan_at.
  apply returns_bind. eapply returns_mono; [by apply sps_at_total |]. intros [p|] _; [| done].
  apply returns_bind. eapply returns_mono; [apply safe_returns; unfold frameMBsOnly; safe_steps |]. by intros [? ?] _.
Qed.

Lemma h264Picture_total es : bytes_ok es -> returns (h264Picture es) (fun _ => True).
Proof.
  intros Hes. apply scan_places_total; [done | done |]. intros l Hl Hz. unfold h264_picture_at.
  apply returns_bind. eapply returns_mono; [by apply sps_at_total |]. intros [p|] _; [| done].
  apply returns_bind. eapply returns_mono.
  { apply (safe_spsSize (mkBits p 0)). split; cbn [off b]; [done | pose proof (zlen_nonneg p); lia]. }
  intros [[[w h]|] s] Hs; [| done]. case_match; [| done]. unfold vuiRate. apply returns_bind, returns_bind.
  eapply returns_mono; [apply safe_vui_walk, Hs |]. by intros [? ?] _.
Qed.

(** ** A sequence parameter set written (ITU-T H.264 7.3.2.1.1) and read *)

Inductive poc_type := Poc0 (lsb : Z) | Poc1 (flag : bool) (non_ref top : Z) (refs : list Z) | Poc2.
Inductive aspect_ratio := Listed (idc : Z) | Extended (sar : Z).
Record vui_fields := mkVui {
  aspect : option aspect_ratio; overscan : option bool; signal : option (Z * option Z); loc : option (Z * Z);
  timing : option (Z * Z);
}.
Record high_part := mkHigh {
  chroma : Z; separate : bool; luma : Z; depth : Z; bypass : bool; scaling : option (list (option (list Z)));
}.
Record sps := mkSps {
  profile : Z; constraints : Z; level : Z; id : Z; high : high_part;
  frame_num : Z; poc : poc_type; refs : Z; gaps : bool; mb_w : Z; mb_h : Z; frame_only : bool;
  adaptive : bool; direct : bool; crop : option (Z * Z * Z * Z); vui : option vui_fields;
}.

Definition chroma_of (s : sps) : Z := if highProfile (profile s) then chroma (high s) else 1.

Definition put_opt {A} (f : A -> list bool) (o : option A) : list bool :=
  match o with Some a => [true] ++ f a | None => [false] end.

(** A factor is its difference from the last one, in a byte's range; a list may
    end early, with the difference to zero. *)
Definition delta_of (v last : Z) : Z := (v - last + 128) mod 256 - 128.
Fixpoint put_factors (size : nat) (last : Z) (vals : list Z) : list bool :=
  match size, vals with
  | O, _ => []
  | S _, [] => put_se (delta_of 0 last)
  | S size, v :: vals => put_se (delta_of v last) ++ put_factors size v vals
  end.
Fixpoint put_lists (i : Z) (ls : list (option (list Z))) : list bool :=
  match ls with
  | [] => []
  | l :: ls => put_opt (put_factors (if 6 <=? i then 64 else 16) 8) l ++ put_lists (i + 1) ls
  end.
Definition put_high (h : high_part) : list bool :=
  put_ue (chroma h) ++ (if chroma h =? 3 then [separate h] else []) ++
  put_ue (luma h) ++ put_ue (depth h) ++ [bypass h] ++ put_opt (put_lists 0) (scaling h).
Definition put_poc (p : poc_type) : list bool :=
  match p with
  | Poc0 lsb => put_ue 0 ++ put_ue lsb
  | Poc1 flag non_ref top refs =>
      put_ue 1 ++ [flag] ++ put_se non_ref ++ put_se top ++ put_ue (zlen refs) ++ concat (map put_se refs)
  | Poc2 => put_ue 2
  end.
Definition put_head (s : sps) : list bool :=
  put_u 8 (profile s) ++ put_u 8 (constraints s) ++ put_u 8 (level s) ++ put_ue (id s) ++
  (if highProfile (profile s) then put_high (high s) else []) ++
  put_ue (frame_num s) ++ put_poc (poc s) ++ put_ue (refs s) ++ [gaps s] ++
  put_ue (mb_w s) ++ put_ue (mb_h s) ++ [frame_only s].
Definition put_crop (c : Z * Z * Z * Z) : list bool :=
  let ' (l, r, t, b) := c in put_ue l ++ put_ue r ++ put_ue t ++ put_ue b.
Definition put_size (s : sps) : list bool :=
  put_head s ++ (if frame_only s then [] else [adaptive s]) ++ [direct s] ++ put_opt put_crop (crop s).
Definition put_aspect (a : aspect_ratio) : list bool :=
  match a with Listed idc => put_u 8 idc | Extended sar => put_u 8 255 ++ put_u 32 sar end.
Definition put_vui (v : vui_fields) : list bool :=
  put_opt put_aspect (aspect v) ++ put_opt (fun o => [o]) (overscan v) ++
  put_opt (fun x => put_u 4 (fst x) ++ put_opt (put_u 24) (snd x)) (signal v) ++
  put_opt (fun x => put_ue (fst x) ++ put_ue (snd x)) (loc v) ++
  put_opt (fun x => put_u 32 (fst x) ++ put_u 32 (snd x)) (timing v).
Definition put_sps (s : sps) : list bool := put_size s ++ put_opt put_vui (vui s).

(** The ranges of the fields. *)
Definition in_bits (n v : Z) : Prop := 0 <= v < 2 ^ n.
Definition ue_ok (v : Z) : Prop := 0 <= v < 2 ^ 32 - 1.
Definition se_ok (v : Z) : Prop := - 2 ^ 31 < v < 2 ^ 31.
Definition factors_ok (i : Z) (o : option (list Z)) : Prop :=
  match o with Some l => Forall (fun v => 1 <= v < 256) l /\ zlen l <= (if 6 <=? i then 64 else 16) | None => True end.
Fixpoint lists_ok (i : Z) (ls : list (option (list Z))) : Prop :=
  match ls with [] => True | l :: ls => factors_ok i l /\ lists_ok (i + 1) ls end.
Definition opt_ok {A} (P : A -> Prop) (o : option A) : Prop := match o with Some a => P a | None => True end.
Definition poc_ok (p : poc_type) : Prop :=
  match p with
  | Poc0 lsb => ue_ok lsb
  | Poc1 _ n t refs => se_ok n /\ se_ok t /\ ue_ok (zlen refs) /\ Forall se_ok refs
  | Poc2 => True
  end.
Record high_ok (h : high_part) : Prop := mkHighOk {
  high_chroma : ue_ok (chroma h); high_luma : ue_ok (luma h); high_depth : ue_ok (depth h);
  high_scaling : opt_ok (fun ls => lists_ok 0 ls /\ length ls = if chroma h =? 3 then 12%nat else 8%nat) (scaling h);
}.
Definition crop_ok (c : Z * Z * Z * Z) : Prop := let ' (l, r, t, b) := c in ue_ok l /\ ue_ok r /\ ue_ok t /\ ue_ok b.
Definition aspect_ok (a : aspect_ratio) : Prop :=
  match a with Listed idc => in_bits 8 idc /\ idc <> 255 | Extended sar => in_bits 32 sar end.
Record vui_ok (v : vui_fields) : Prop := mkVuiOk {
  vui_aspect_ok : opt_ok aspect_ok (aspect v);
  vui_signal_ok : opt_ok (fun x => in_bits 4 (fst x) /\ opt_ok (in_bits 24) (snd x)) (signal v);
  vui_loc_ok : opt_ok (fun x => ue_ok (fst x) /\ ue_ok (snd x)) (loc v);
  vui_timing_ok : opt_ok (fun x => in_bits 32 (fst x) /\ in_bits 32 (snd x)) (timing v);
}.
Record sps_ok (s : sps) : Prop := mkSpsOk {
  ok_profile : in_bits 8 (profile s); ok_constraints : in_bits 8 (constraints s); ok_level : in_bits 8 (level s);
  ok_id : ue_ok (id s); ok_high : high_ok (high s); ok_frame_num : ue_ok (frame_num s); ok_poc : poc_ok (poc s);
  ok_refs : ue_ok (refs s); ok_w : ue_ok (mb_w s); ok_h : ue_ok (mb_h s); ok_crop : opt_ok crop_ok (crop s);
  ok_vui : opt_ok vui_ok (vui s);
}.

(** The size (7-13 to 7-22): the crop is in units of chroma samples, and of
    frame lines of both fields. *)
Definition crops (s : sps) : Z * Z * Z * Z := default (0, 0, 0, 0) (crop s).
Definition sps_width (s : sps) : Z :=
  let ' (l, r, _, _) := crops s in
  16 * (mb_w s + 1) - (if (chroma_of s =? 1) || (chroma_of s =? 2) then 2 else 1) * (l + r).
Definition sps_height (s : sps) : Z :=
  let ' (_, _, t, b) := crops s in
  let lines := if frame_only s then 1 else 2 in
  lines * 16 * (mb_h s + 1) - (if chroma_of s =? 1 then 2 else 1) * lines * (t + b).

(** The rate (E.2.1): a frame is two ticks of [units] in [scale]. *)
Definition sps_rate (s : sps) : list Z :=
  match vui s with
  | Some v => match timing v with
              | Some (units, scale) =>
                  if ((units =? 0) || (scale =? 0))%bool then [] else rateName (fdiv (float64 scale) (float64 (2 * units)))
              | None => []
              end
  | None => []
  end.

(** *** Reading the parts *)

Lemma Reads_flag c : Reads (u 1) [c] (Z.b2z c).
Proof. pose proof (u_reads 1 [c] eq_refl) as H. destruct c; apply H; lia. Qed.

Lemma Reads_last {A} (m : reader A) l a : Reads m (l ++ []) a -> Reads m l a.
Proof. by rewrite (app_nil_r l). Qed.

Lemma Reads_skip {A B} (m : reader A) (f : A -> reader B) k a c : Reads m [] a -> Reads (f a) k c -> Reads (bind m f) k c.
Proof. intros Hm Hf. change k with ([] ++ k). by eapply Reads_bind. Qed.

Create HintDb sps.
#[local] Hint Resolve Reads_flag : sps.
#[local] Hint Extern 2 (Reads ue (put_ue ?v) _) => apply Reads_ue; assumption : sps.
#[local] Hint Extern 2 (Reads se (put_se ?v) _) => apply Reads_se; assumption : sps.
#[local] Hint Extern 2 (Reads (u ?n) (put_u _ ?v) _) => apply (Reads_u n v); [lia | assumption] : sps.

(** The next field of a reader whose bits start with it. *)
Ltac field := eapply Reads_bind; [solve [eauto with sps] |]; cbv beta.
Ltac fields := rewrite <- ?app_assoc; repeat field.

Lemma Reads_opt {A} (f : A -> list bool) (o : option A) (m : reader unit) :
  opt_ok (fun a => Reads m (f a) tt) o ->
  Reads (let? c := u 1 in if c =? 1 then m else ret tt) (put_opt f o) tt.
Proof.
  intros Ho. destruct o as [a|]; cbn [put_opt opt_ok] in *.
  - by eapply (Reads_bind (u 1) _ [true] _ _ _ (Reads_flag true)).
  - apply (Reads_bind (u 1) _ [false] [] _ _ (Reads_flag false)), Reads_ret.
Qed.

Lemma delta_ok v last : 0 <= v < 256 -> 1 <= last < 256 -> se_ok (delta_of v last).
Proof. unfold se_ok, delta_of. dlia. Qed.

Lemma delta_read v last : 0 <= v < 256 -> 1 <= last < 256 -> Z.rem (last + delta_of v last + 256) 256 = v.
Proof. unfold delta_of. intros. rewrite Z.rem_mod_nonneg by dlia. dlia. Qed.

Lemma scaling_list_done size last : Reads (scaling_list size last 0) [] tt.
Proof. induction size; [apply Reads_ret | done]. Qed.

Lemma scaling_list_reads vals : Forall (fun v => 1 <= v < 256) vals ->
  forall size last, (length vals <= size)%nat -> 1 <= last < 256 ->
  Reads (scaling_list size last last) (put_factors size last vals) tt.
Proof.
  induction 1 as [| v vals Hv _ IH]; intros size last Hs Hl; destruct size as [| size]; cbn [put_factors scaling_list].
  - apply Reads_ret.
  - destruct (Z.eqb_spec last 0); [lia |]. apply Reads_last.
    eapply Reads_bind; [apply Reads_se, delta_ok; lia |]. rewrite delta_read by lia. apply scaling_list_done.
  - cbn in Hs. lia.
  - destruct (Z.eqb_spec last 0); [lia |]. eapply Reads_bind; [apply Reads_se, delta_ok; lia |].
    rewrite delta_read by lia. destruct (Z.eqb_spec v 0); [lia |]. apply IH; [cbn in Hs |]; lia.
Qed.

Lemma scaling_lists_read ls : forall i, lists_ok i ls -> Reads (scaling_lists (length ls) i) (put_lists i ls) tt.
Proof.
  induction ls as [| [vals|] ls IH]; intros i Hi; cbn [length put_lists scaling_lists put_opt].
  - apply Reads_ret.
  - destruct Hi as [[Hv Hl] Hi]. rewrite <- app_assoc. apply (Reads_bind _ _ _ _ _ _ (Reads_flag true)). cbn [Z.b2z Z.eqb].
    eapply Reads_bind; [apply scaling_list_reads; [done | unfold zlen in Hl; case_match; lia | lia] | by apply IH].
  - destruct Hi as [_ Hi]. apply (Reads_bind _ _ _ _ _ _ (Reads_flag false)). cbn [Z.b2z Z.eqb]. by apply IH.
Qed.

Lemma high_reads p h : highProfile p = true -> high_ok h -> Reads (high_fields p) (put_high h) (chroma h).
Proof.
  intros Hp [Hc Hl Hd Hs]. unfold high_fields, put_high. rewrite Hp. field.
  eapply (Reads_bind _ _ _ _ (if chroma h =? 3 then Z.b2z (separate h) else 0)).
  { case_match; [apply Reads_flag | apply Reads_ret]. }
  field. field. field. destruct (scaling h) as [ls|]; cbn [put_opt opt_ok] in *.
  - eapply Reads_bind; [apply (Reads_flag true) |]. cbn [Z.b2z Z.eqb]. apply Reads_last.
    eapply Reads_bind; [| apply Reads_ret]. destruct Hs as [Hs Hn]. unfold skipScaling.
    rewrite <- Hn. by apply scaling_lists_read.
  - apply Reads_last, (Reads_bind _ _ _ _ _ _ (Reads_flag false)). cbn [Z.b2z Z.eqb].
    eapply Reads_skip; apply Reads_ret.
Qed.

Lemma poc_reads p : poc_ok p -> Reads poc_fields (put_poc p) tt.
Proof.
  intros Hp. unfold poc_fields. destruct p as [lsb | f n t refs |]; cbn [put_poc poc_ok] in *.
  - eapply Reads_bind; [by apply Reads_ue |]. cbn [Z.eqb]. apply Reads_last. field. apply Reads_ret.
  - destruct Hp as (Hn & Ht & Hl & Hr). eapply Reads_bind; [by apply Reads_ue |]. cbn [Z.eqb Pos.eqb].
    do 4 field. replace (zlen refs) with (zlen (map put_se refs)) by (unfold zlen; by rewrite length_map).
    apply Reads_times. apply Forall_map. eapply Forall_impl; [exact Hr |]. intros v Hv. cbn. split.
    + unfold put_se, put_ue. by destruct (Z.to_nat _).
    + apply Reads_last. field. apply Reads_ret.
  - apply Reads_last. eapply Reads_bind; [by apply Reads_ue | apply Reads_ret].
Qed.
#[local] Hint Resolve poc_reads : sps.

Lemma head_reads s : sps_ok s -> Reads sps_head (put_head s) (chroma_of s, mb_w s, mb_h s, Z.b2z (frame_only s)).
Proof.
  intros []. unfold sps_head, put_head. do 4 field.
  eapply (Reads_bind _ _ _ _ (chroma_of s)).
  { unfold chroma_of. case_match eqn:E; [by apply high_reads | unfold high_fields; rewrite E; apply Reads_ret]. }
  do 6 field. apply Reads_last. field. apply Reads_ret.
Qed.
#[local] Hint Resolve head_reads : sps.

(** The size, once cropped, is the standard's. *)
Lemma cropped s :
  let w := (mb_w s + 1) * 16 in
  let h := (mb_h s + 1) * 16 in
  let h := if frame_only s then h else h * 2 in
  let ' (l, r, t, b) := crops s in
  let ' (ux, uy) := cropUnits (chroma_of s) (Z.b2z (frame_only s)) in
  (w - (l + r) * ux, h - (t + b) * uy) = (sps_width s, sps_height s).
Proof.
  cbv zeta. unfold sps_width, sps_height, cropUnits. destruct (crops s) as [[[l r] t] b].
  destruct (Z.eqb_spec (chroma_of s) 0) as [-> |]; [destruct (frame_only s); cbn; f_equal; lia |].
  destruct (chroma_of s =? 1) eqn:E1; [| destruct (chroma_of s =? 2) eqn:E2]; destruct (frame_only s); cbn; f_equal; lia.
Qed.

Lemma size_reads s : sps_ok s -> 16 <= sps_width s -> 16 <= sps_height s ->
  Reads spsSize (put_size s) (sps_width s, sps_height s).
Proof.
  intros Hs Hw Hh. unfold spsSize, put_size. field. pose proof (cropped s) as Hc. cbv zeta in Hc.
  eapply (Reads_bind _ _ _ _ (if frame_only s then 0 else Z.b2z (adaptive s))).
  { destruct (frame_only s); [apply Reads_ret | apply Reads_flag]. }
  field. unfold crops in Hc. pose proof (ok_crop s Hs) as Hk.
  destruct (crop s) as [[[[l r] t] b]|]; cbn [put_opt from_option opt_ok crop_ok put_crop Datatypes.id] in *;
    destruct (cropUnits (chroma_of s) (Z.b2z (frame_only s))).
  - destruct Hk as (H1 & H2 & H3 & H4). eapply Reads_bind; [apply (Reads_flag true) |]. cbn [Z.b2z Z.eqb Pos.eqb].
    apply Reads_last. eapply (Reads_bind _ _ _ _ (sps_width s, sps_height s)).
    + do 3 field. apply Reads_last. field. rewrite <- Hc.
      destruct (frame_only s); apply Reads_ret.
    + destruct (Z.ltb_spec (fst (sps_width s, sps_height s)) 16); cbn [fst] in *; [lia |].
      destruct (Z.ltb_spec (snd (sps_width s, sps_height s)) 16); cbn [snd] in *; [lia |]. apply Reads_ret.
  - apply Reads_last. eapply Reads_bind; [apply (Reads_flag false) |]. cbn [Z.b2z Z.eqb Pos.eqb].
    eapply (Reads_skip _ _ _ (sps_width s, sps_height s)).
    + rewrite !Z.add_0_l, !Z.mul_0_l, !Z.sub_0_r in Hc. rewrite <- Hc.
      destruct (frame_only s); apply Reads_ret.
    + destruct (Z.ltb_spec (fst (sps_width s, sps_height s)) 16); cbn [fst] in *; [lia |].
      destruct (Z.ltb_spec (snd (sps_width s, sps_height s)) 16); cbn [snd] in *; [lia |]. apply Reads_ret.
Qed.

Lemma aspect_reads o : opt_ok aspect_ok o -> Reads vui_aspect (put_opt put_aspect o) tt.
Proof.
  intros Ho. apply (Reads_opt put_aspect o (let? idc := u 8 in if idc =? 255 then let? _ := u 32 in ret tt else ret tt)).
  destruct o as [[idc | sar]|]; cbn [opt_ok aspect_ok put_aspect] in *; [| | done].
  - destruct Ho as [Hi Hne]. apply Reads_last. field. destruct (Z.eqb_spec idc 255); [done | apply Reads_ret].
  - eapply Reads_bind; [apply (Reads_u 8 255); lia |]. cbn [Z.eqb Pos.eqb]. apply Reads_last. field. apply Reads_ret.
Qed.

Lemma overscan_reads o : Reads vui_overscan (put_opt (fun c => [c]) o) tt.
Proof.
  apply (Reads_opt _ o (let? _ := u 1 in ret tt)). destruct o; cbn [opt_ok]; [| done].
  apply Reads_last. field. apply Reads_ret.
Qed.

Lemma signal_reads o : opt_ok (fun x => in_bits 4 (fst x) /\ opt_ok (in_bits 24) (snd x)) o ->
  Reads vui_signal (put_opt (fun x => put_u 4 (fst x) ++ put_opt (put_u 24) (snd x)) o) tt.
Proof.
  intros Ho. apply (Reads_opt _ o (let? _ := u 4 in let? c := u 1 in if c =? 1 then let? _ := u 24 in ret tt else ret tt)).
  destruct o as [[f c]|]; cbn [opt_ok fst snd] in *; [| done]. destruct Ho as [Hf Hc]. field.
  apply (Reads_opt _ c (let? _ := u 24 in ret tt)). destruct c as [c|]; cbn [opt_ok] in *; [| done].
  apply Reads_last. field. apply Reads_ret.
Qed.

Lemma loc_reads o : opt_ok (fun x => ue_ok (fst x) /\ ue_ok (snd x)) o ->
  Reads vui_chroma (put_opt (fun x => put_ue (fst x) ++ put_ue (snd x)) o) tt.
Proof.
  intros Ho. apply (Reads_opt _ o (let? _ := ue in let? _ := ue in ret tt)).
  destruct o as [[x y]|]; cbn [opt_ok fst snd] in *; [| done]. destruct Ho as [Hx Hy]. field.
  apply Reads_last. field. apply Reads_ret.
Qed.
#[local] Hint Resolve aspect_reads overscan_reads signal_reads loc_reads : sps.

Lemma vui_reads s : sps_ok s -> Reads vui_walk (put_opt put_vui (vui s)) (sps_rate s).
Proof.
  intros Hs. pose proof (ok_vui s Hs) as Hv. unfold vui_walk, sps_rate.
  destruct (vui s) as [v|]; cbn [put_opt opt_ok] in *.
  - destruct Hv as [Ha Hg Hl Ht]. eapply Reads_bind; [apply (Reads_flag true) |]. cbn [Z.b2z Z.eqb].
    unfold put_vui. do 4 field. destruct (timing v) as [[units scale]|]; cbn [put_opt opt_ok fst snd] in *.
    + destruct Ht as [Hu Hc]. eapply Reads_bind; [apply (Reads_flag true) |]. cbn [Z.b2z Z.eqb].
      field. apply Reads_last. field. case_match; apply Reads_ret.
    + apply Reads_last. eapply Reads_bind; [apply (Reads_flag false) | apply Reads_ret].
  - apply Reads_last. eapply Reads_bind; [apply (Reads_flag false) | apply Reads_ret].
Qed.

(** *** In a stream *)

Lemma scan_places_skip {A} need (f : list Z -> res (option A)) pre l :
  need < zlen l -> (forall i, (i < length pre)%nat -> f (drop i (pre ++ l)) = Ok None) ->
  scan_places need f (pre ++ l) = scan_places need f l.
Proof.
  intros Hl. induction pre as [| x pre IH]; intros Hf; [done |]. cbn [app].
  pose proof (Hf 0%nat) as H0. cbn [drop length app] in H0. cbn [scan_places].
  destruct (Z.leb_spec (zlen (x :: pre ++ l)) need) as [H |].
  { rewrite zlen_cons, zlen_app in H. pose proof (zlen_nonneg pre). lia. }
  rewrite H0 by lia. cbn [rbind]. apply IH. intros i Hi. apply (Hf (S i)). cbn. lia.
Qed.

Lemma scan_places_here {A} need (f : list Z -> res (option A)) l a : need < zlen l -> f l = Ok (Some a) -> scan_places need f l = Ok (Some a).
Proof. intros Hl Hf. destruct l as [| x l]; cbn [scan_places]; [destruct (Z.leb_spec (zlen (@nil Z)) need) | destruct (Z.leb_spec (zlen (x :: l)) need)]; lia || by rewrite Hf. Qed.

(** A NAL unit of a sequence parameter set in a byte stream. *)
Definition nal_unit (hd : Z) (payload : list bool) : list Z := [0; 0; 1; hd] ++ escape_from 0 (pack payload).

Lemma sps_at_unit hd p post : Z.land hd 0x1f = 7 ->
  exists rest rbsp, sps_at (nal_unit hd p ++ post) = Ok (Some rbsp) /\ bits rbsp = p ++ rest.
Proof.
  intros Hh. destruct (bits_of_payload p post) as [rest Hr].
  exists rest, (unescape (escape_from 0 (pack p) ++ post)). split; [| exact Hr].
  unfold sps_at, nal_unit. rewrite <- app_assoc. set (l := _ ++ _ ++ post).
  assert (start_code l = Ok true) as -> by done. assert (idx l 3 = Ok hd) as -> by done. cbn [rbind].
  rewrite Hh. cbn [andb Z.eqb Pos.eqb]. unfold l. by rewrite slice_from_parts.
Qed.

Lemma zlen_escape z l : zlen l <= zlen (escape_from z l).
Proof.
  revert z. induction l as [| c l IH]; intros z; [done |]. cbn [escape_from].
  case_match; rewrite !zlen_cons; [pose proof (IH (if c =? 0 then 1 else 0)) | pose proof (IH (if c =? 0 then z + 1 else 0))]; lia.
Qed.

Lemma zlen_pack l : zlen l <= zlen (pack l) * 8.
Proof.
  destruct (bits_pack l) as [fill Hf]. rewrite <- zlen_bits, Hf, zlen_app. pose proof (zlen_nonneg fill). lia.
Qed.

Lemma sps_long s : 24 <= zlen (put_sps s).
Proof.
  unfold put_sps, put_size, put_head. rewrite <- !app_assoc, 3!zlen_app, !zlen_put_u.
  match goal with |- context [zlen ?l] => pose proof (zlen_nonneg l) end. lia.
Qed.

Lemma unit_long hd s : 5 < zlen (nal_unit hd (put_sps s)).
Proof.
  unfold nal_unit. rewrite zlen_app. change (zlen [0; 0; 1; hd]) with 4.
  pose proof (zlen_escape 0 (pack (put_sps s))). pose proof (zlen_pack (put_sps s)). pose proof (sps_long s). lia.
Qed.

(** A picture header written as the H.264 standard says is read as it says:
    whatever the profile's fields, scaling lists, order count, crop and
    usability information, and with emulation prevention, the first sequence
    parameter set of a stream gives the display size, the frame rate and the scan
    type. *)
Theorem h264_header_reads (pre post : list Z) (hd : Z) (s : sps)
    (Hn : Z.land hd 0x1f = 7) (Hs : sps_ok s) (Hz : sane (sps_width s) (sps_height s) = true)
    (Hpre : forall i, (i < length pre)%nat -> sps_at (drop i (pre ++ nal_unit hd (put_sps s) ++ post)) = Ok None) :
  h264Picture (pre ++ nal_unit hd (put_sps s) ++ post) = Ok (Some (mkNoted (sps_width s) (sps_height s) (sps_rate s))) /\
  h264Scan (pre ++ nal_unit hd (put_sps s) ++ post) = Ok (Some (if frame_only s then lit "progressive" else lit "tt")).
Proof.
  destruct (sps_at_unit hd (put_sps s) post Hn) as (rest & rbsp & Hat & Hb).
  assert (16 <= sps_width s /\ 16 <= sps_height s) as [Hw Hh] by (unfold sane in Hz; lia).
  pose proof (unit_long hd s) as Hlen. pose proof (zlen_nonneg post) as Hp.
  assert (5 < zlen (nal_unit hd (put_sps s) ++ post)) by (rewrite zlen_app; lia).
  assert (sps_head (mkBits rbsp 0) = Ok (Some (chroma_of s, mb_w s, mb_h s, Z.b2z (frame_only s)), mkBits rbsp (0 + zlen (put_head s)))) as Hhd.
  { apply (head_reads s Hs (mkBits rbsp 0) [] (drop (length (put_head s)) (bits rbsp))); [| done]. cbn [b app]. rewrite Hb.
    unfold put_sps, put_size. rewrite <- !app_assoc, drop_app_length. done. }
  assert (spsSize (mkBits rbsp 0) = Ok (Some (sps_width s, sps_height s), mkBits rbsp (zlen (put_size s)))) as Hsz.
  { apply (size_reads s Hs Hw Hh (mkBits rbsp 0) [] (put_opt put_vui (vui s) ++ rest)); [| done]. cbn [b app].
    rewrite Hb. unfold put_sps. by rewrite <- app_assoc. }
  pose proof (vui_reads s Hs (mkBits rbsp (zlen (put_size s))) (put_size s) rest) as Hv. cbn [b off] in Hv.
  rewrite Hb in Hv. unfold put_sps in Hv. rewrite <- app_assoc in Hv. specialize (Hv eq_refl eq_refl).
  unfold h264Picture, h264Scan. split; (rewrite scan_places_skip; [apply scan_places_here | |]; [done | | done |]).
  - unfold h264_picture_at. rewrite Hat. cbn [rbind]. rewrite Hsz. cbn [rbind]. rewrite Hz. unfold vuiRate. by rewrite Hv.
  - intros i Hi. unfold h264_picture_at. by rewrite Hpre.
  - unfold h264_scan_at. rewrite Hat. cbn [rbind]. unfold frameMBsOnly, bind. rewrite Hhd. cbn. by destruct (frame_only s).
  - intros i Hi. unfold h264_scan_at. by rewrite Hpre.
Qed.

(** 1080i at 29.97, high profile, with two scaling lists and a gap before the
    header; the coded height is 1088. *)
Definition ex_sps : sps := mkSps 100 0 40 0
  (mkHigh 1 false 0 0 false (Some [Some [8; 16; 255; 1]; None; None; Some []; None; None; None; None]))
  4 (Poc1 true (-3) 2 [1; -1]) 4 false 119 33 false true true (Some (0, 0, 0, 2))
  (Some (mkVui (Some (Extended 65537)) (Some true) (Some (10, Some 65793)) (Some (1, 1)) (Some (1001, 60000)))).

Lemma ex_sps_ok : sps_ok ex_sps.
Proof.
  repeat (constructor; cbn; unfold ue_ok, se_ok, in_bits, factors_ok); try lia; try done;
    repeat constructor; try lia; done.
Defined.

Lemma h264_header_reads_witness :
  h264Picture ([0; 0; 1; 9; 16] ++ nal_unit 0x67 (put_sps ex_sps) ++ [0; 0; 1]) = Ok (Some (mkNoted 1920 1080 (lit "29.97"))) /\
  h264Scan ([0; 0; 1; 9; 16] ++ nal_unit 0x67 (put_sps ex_sps) ++ [0; 0; 1]) = Ok (Some (lit "tt")).
Proof.
  assert (mkNoted (sps_width ex_sps) (sps_height ex_sps) (sps_rate ex_sps) = mkNoted 1920 1080 (lit "29.97")) as <-
    by (vm_compute; reflexivity).
  apply (h264_header_reads [0; 0; 1; 9; 16] [0; 0; 1] 0x67 ex_sps); [done | exact ex_sps_ok | vm_compute; reflexivity |].
  intros i Hi. do 5 (destruct i as [| i]; [vm_compute; reflexivity |]). cbn in Hi. lia.
Defined.
