(* ===== verification/LiveHevc.v ===== *)
(** What an HEVC sequence parameter set says of its picture, [hevcSPS],
    [hevcVPSTiming] and [hevcPicture] of [server/internal/live/scantype.go]. *)
From S2P Require Import Prelude CapCc GoText GoFloat LiveBits LiveSps.
Local Open Scope Z_scope.
Local Open Scope go_scope.

(** A flag *)
Definition flag : walk bool := let* v := hu 1 in wret (v =? 1).
Definition skip_ue : walk unit := let* _ := hue in wret tt.
Definition skip (n : Z) : walk unit := let* _ := hu n in wret tt.
Definition if_flag (m : walk unit) : walk unit := let* f := flag in if f then m else wret tt.

(** ** Profile, tier and level *)

Fixpoint ptl_flags (n : nat) : walk (list (Z * Z)) :=
  match n with
  | O => wret []
  | S n => let* profile := hu 1 in let* level := hu 1 in let* l := ptl_flags n in wret ((profile, level) :: l)
  end.
Fixpoint ptl_levels (l : list (Z * Z)) : walk unit :=
  match l with
  | [] => wret tt
  | (profile, level) :: l => let* _ := hu (88 * profile + 8 * level) in ptl_levels l
  end.
Definition skipPTL (sub : Z) : walk unit :=
  let* _ := hu (88 + 8) in
  let* l := ptl_flags (Z.to_nat (Z.min sub 8)) in
  let* _ := (if 0 <? sub then hu (2 * (8 - sub)) else wret 0) in
  ptl_levels l.

(** ** Scaling lists *)

Definition scaling_matrix (size : Z) : walk unit :=
  let* f := flag in
  if negb f then skip_ue else
  let* _ := (if 1 <? size then hse else wret tt) in
  over (Z.to_nat (Z.min 64 (2 ^ (4 + 2 * size)))) hse.
Definition scaling_size (size : Z) : walk unit :=
  let n := if size =? 3 then 2 else 6 in while_good 6 n (scaling_matrix size).
Definition skipScalingList : walk unit :=
  let* _ := scaling_size 0 in let* _ := scaling_size 1 in let* _ := scaling_size 2 in scaling_size 3.

(** ** Short-term reference picture sets *)

(** The pictures a predicted set keeps of the [n] it may. *)
Fixpoint kept_pictures (n : nat) (count : Z) : walk Z :=
  match n with
  | O => wret count
  | S n =>
      let* bad := is_bad in
      if bad then wret count else
      let* used := flag in
      let* kept := (if used then wret true else flag) in
      kept_pictures n (if kept then count + 1 else count)
  end.
Definition explicit_set : walk Z :=
  let* neg := hue in let* pos := hue in
  if ((16 <? neg) || (16 <? pos))%bool then let* _ := set_bad in wret 0 else
  let* _ := over (Z.to_nat (neg + pos)) (let* _ := hue in skip 1) in
  wret (neg + pos).
Definition ref_set (prev : option Z) : walk Z :=
  match prev with
  | None => explicit_set
  | Some d =>
      let* predicted := flag in
      if predicted then let* _ := hu 1 in let* _ := hue in kept_pictures (Z.to_nat (d + 1)) 0
      else explicit_set
  end.
Fixpoint ref_sets (n : nat) (prev : option Z) : walk unit :=
  match n with
  | O => wret tt
  | S n =>
      let* bad := is_bad in
      if bad then wret tt else let* d := ref_set prev in ref_sets n (Some d)
  end.
Definition skipShortTermSets (n : Z) : walk unit :=
  if 64 <? n then set_bad else ref_sets (Z.to_nat n) None.

(** ** The sequence parameter set *)

Record hevcSPSFacts := mkFacts { w : Z; h : Z; vui : bool; fields : bool; units : Z; scale : Z }.
Definition only_size (w h : Z) : hevcSPSFacts := mkFacts w h false false 0 0.

(** Up to the size: the highest sub-layer, and the size as [uint]s. *)
Definition sps_size : walk (Z * Z * Z) :=
  let* _ := hu 4 in let* sub := hu 3 in let* _ := hu 1 in
  let* _ := skipPTL sub in
  let* _ := hue in let* chroma := hue in
  let* _ := (if chroma =? 3 then hu 1 else wret 0) in
  let* w := hue in let* h := hue in
  let* crop := flag in
  if negb crop then wret (sub, w, h) else
  let* c0 := hue in let* c1 := hue in let* c2 := hue in let* c3 := hue in
  let sx := if ((chroma =? 1) || (chroma =? 2))%bool then 2 else 1 in
  let sy := if chroma =? 1 then 2 else 1 in
  wret (sub, wrap64 (w - sx * (c0 + c1)), wrap64 (h - sy * (c2 + c3))).

(** From the bit depths to the flag of the usability information. *)
Definition sub_layers (sub : Z) : walk unit :=
  let* all := flag in
  let first := if all then 0 else sub in
  while_good 8 (sub - first + 1) (let* _ := hue in let* _ := hue in skip_ue).
Definition sps_middle (sub : Z) : walk unit :=
  let* _ := hue in let* _ := hue in
  let* poc := hue in
  let pocBits := poc + 4 in
  let* _ := sub_layers sub in
  let* _ := over 6 skip_ue in
  let* _ := if_flag (if_flag skipScalingList) in
  let* _ := hu 2 in
  let* _ := if_flag (let* _ := hu 8 in let* _ := hue in let* _ := hue in skip 1) in
  let* n := hue in
  let* _ := skipShortTermSets n in
  let* _ := if_flag (let* n := hue in repeats n (skip (pocBits + 1))) in
  skip 2.

(** The usability information before its timing: whether pictures are fields. *)
Definition vui_fields : walk bool :=
  let* _ := if_flag (let* idc := hu 8 in if idc =? 255 then skip 32 else wret tt) in
  let* _ := if_flag (skip 1) in
  let* _ := if_flag (let* _ := hu 4 in if_flag (skip 24)) in
  let* _ := if_flag (let* _ := hue in skip_ue) in
  let* _ := hu 1 in
  let* fields := flag in
  let* _ := hu 1 in
  let* _ := if_flag (over 4 skip_ue) in
  wret fields.
Definition timing : walk (Z * Z) :=
  let* f := flag in
  if f then let* units := hu 32 in let* scale := hu 32 in wret (units, scale) else wret (0, 0).

Definition hevcSPS : walk (option hevcSPSFacts) :=
  let* x := sps_size in
  let ' (sub, w, h) := x in
  let* bad := is_bad in
  if (bad || (int64 w <=? 0) || (int64 h <=? 0))%bool then wret None else
  let w := int64 w in let h := int64 h in
  let* _ := sps_middle sub in
  let* v := hu 1 in
  if v =? 0 then let* bad := is_bad in wret (Some (mkFacts w h (negb bad) false 0 0)) else
  let* fields := vui_fields in
  let* t := timing in
  let* bad := is_bad in
  wret (Some (if bad then only_size w h else mkFacts w h true fields (fst t) (snd t))).

(** ** The video parameter set's timing *)

Definition vps_timing : walk (Z * Z) :=
  let* _ := hu 12 in let* sub := hu 3 in let* _ := hu 17 in
  let* _ := skipPTL sub in
  let* _ := sub_layers sub in
  let* maxLayer := hu 6 in let* sets := hue in
  if 1023 <? sets then wret (0, 0) else
  let* _ := hu (sets * (maxLayer + 1)) in
  let* t := timing in
  let* bad := is_bad in
  wret (if bad then (0, 0) else t).

(** A NAL unit of a type: its payload after the two bytes of its header. *)
Definition nal_at (type : Z) (l : list Z) : res (option hevcBits) :=
  let! s := start_code l in let! b3 := idx l 3 in
  if (s && (Z.land (Z.shiftr b3 1) 0x3f =? type))%bool then
    let! rest := slice_from l 5 in Ok (Some (mkHevc (mkBits (unescape rest) 0) false))
  else Ok None.

Definition vps_at (l : list Z) : res (option (Z * Z)) :=
  let! s := nal_at 32 l in
  match s with Some s => let! ' (t, _) := vps_timing s in Ok (Some t) | None => Ok None end.
Definition hevcVPSTiming (es : list Z) : res (Z * Z) :=
  let! t := scan_places 6 vps_at es in Ok (default (0, 0) t).

Definition hevcRate (units scale : Z) (fields : bool) : list Z :=
  if ((units =? 0) || (scale =? 0))%bool then [] else
  let fps := fdiv (float64 scale) (float64 units) in
  rateName (if fields then fdiv fps (float64 2) else fps).

Definition hevc_picture_at (es l : list Z) : res (option notedPicture) :=
  let! s := nal_at 33 l in
  match s with
  | None => Ok None
  | Some s =>
      let! ' (sps, _) := hevcSPS s in
      match sps with
      | Some sps =>
          if sane (w sps) (h sps) then
            if vui sps then
              let! t := (if units sps =? 0 then hevcVPSTiming es else Ok (units sps, scale sps)) in
              Ok (Some (mkNoted (w sps) (h sps) (hevcRate (fst t) (snd t) (fields sps))))
            else Ok (Some (mkNoted (w sps) (h sps) []))
          else Ok None
      | None => Ok None
      end
  end.
Definition hevcPicture (es : list Z) : res (option notedPicture) := scan_places 6 (hevc_picture_at es) es.

(** ** Nothing fails but by going bad *)

Lemma flag_weats : weats flag.
Proof. apply weats_bind; [by apply weats_hu | intros; apply wsafe_ret | intros; apply sticks_ret]. Qed.
Lemma wsafe_flag : wsafe flag.
Proof. apply weats_wsafe, flag_weats. Qed.
Lemma wsafe_skip_ue : wsafe skip_ue.
Proof. unfold skip_ue. walk_steps. Qed.
Lemma wsafe_skip n : wsafe (skip n).
Proof. unfold skip. walk_steps. Qed.
#[local] Hint Resolve wsafe_flag wsafe_skip_ue wsafe_skip : walks.
#[local] Hint Extern 1 (weats hue) => apply weats_ue : walks.

Lemma wsafe_if_flag m : wsafe m -> wsafe (if_flag m).
Proof. intros Hm. unfold if_flag. walk_steps. Qed.

(** A loop that [bad] stops and whose count bounds its fuel. *)
Lemma wsafe_while_good m : wsafe m -> forall fuel n, n <= Z.of_nat fuel -> wsafe (while_good fuel n m).
Proof.
  intros Hm fuel. induction fuel as [| fuel IH]; intros n Hn; cbn [while_good]; apply wsafe_bind; try apply wsafe_is_bad;
    intros bad; destruct (Z.leb_spec n 0); cbn [orb]; try apply wsafe_ret; [lia |].
  destruct bad; [apply wsafe_ret | apply wsafe_bind; [done | intros _; apply IH; lia]].
Qed.

Lemma wsafe_ptl_flags n : wsafe (ptl_flags n).
Proof. induction n as [| n IH]; cbn [ptl_flags]; walk_steps. Qed.
Lemma wsafe_ptl_levels l : wsafe (ptl_levels l).
Proof. induction l as [| [p v] l IH]; cbn [ptl_levels]; walk_steps. Qed.
#[local] Hint Resolve wsafe_ptl_flags wsafe_ptl_levels : walks.

Ltac hevc_steps := repeat (lazymatch goal with
  | |- wsafe (if_flag _) => apply wsafe_if_flag
  | |- wsafe (over _ (wbind _ _)) => apply wsafe_over
  | _ => walk_step
  end; cbv beta).

Lemma wsafe_skipPTL sub : wsafe (skipPTL sub).
Proof. unfold skipPTL. walk_steps. Qed.

Lemma wsafe_scaling_matrix size : wsafe (scaling_matrix size).
Proof. unfold scaling_matrix. walk_steps. Qed.
Lemma wsafe_skipScalingList : wsafe skipScalingList.
Proof.
  unfold skipScalingList, scaling_size.
  repeat match goal with |- wsafe (wbind _ _) => apply wsafe_bind; [| intros _] end; apply wsafe_while_good; apply wsafe_scaling_matrix || (cbn; lia).
Qed.

Lemma wsafe_kept_pictures n : forall count, wsafe (kept_pictures n count).
Proof. induction n as [| n IH]; intros count; cbn [kept_pictures]; walk_steps. Qed.
Lemma wsafe_explicit_set : wsafe explicit_set.
Proof. unfold explicit_set. hevc_steps. Qed.
#[local] Hint Resolve wsafe_kept_pictures wsafe_explicit_set : walks.
Lemma wsafe_ref_sets n : forall prev, wsafe (ref_sets n prev).
Proof. induction n as [| n IH]; intros prev; cbn [ref_sets]; unfold ref_set; walk_steps. Qed.
Lemma wsafe_skipShortTermSets n : wsafe (skipShortTermSets n).
Proof. unfold skipShortTermSets. case_match; [apply wsafe_set_bad | apply wsafe_ref_sets]. Qed.
#[local] Hint Resolve wsafe_skipPTL wsafe_skipScalingList wsafe_skipShortTermSets : walks.

(** The three bits of a count of sub-layers. *)
Definition gives {A} (P : A -> Prop) (m : walk A) : Prop := forall s, placed (r s) -> returns (m s) (fun x => P (fst x)).

Lemma wsafe_bind_gives {A B} (P : A -> Prop) (m : walk A) (f : A -> walk B) :
  wsafe m -> gives P m -> (forall a, P a -> wsafe (f a)) -> wsafe (wbind m f).
Proof.
  intros Hm Hp Hf s Hs. unfold wbind. apply returns_bind.
  eapply returns_mono; [apply returns_and; [by apply Hm | by apply Hp] |].
  intros [a s'] [Ha Hpa]. cbn [fst snd] in *. eapply returns_mono; [by apply Hf, Ha |]. intros x Hx. by eapply after_trans.
Qed.

Lemma u_loop_bound n : forall v s s', 0 <= v -> (v + 1) * 2 ^ Z.of_nat n <= 2 ^ 64 ->
  forall v', u_loop n v s = Ok (v', s') -> 0 <= v' < (v + 1) * 2 ^ Z.of_nat n.
Proof.
  induction n as [| n IH]; intros v s s' Hv Hb v' H; cbn [u_loop] in H.
  { injection H as <- _. cbn. lia. }
  rewrite Nat2Z.inj_succ, Z.pow_succ_r in Hb |- * by lia. assert (0 < 2 ^ Z.of_nat n) by lia.
  apply rbind_Ok_inv in H as (x & _ & H).
  assert (wrap64 (Z.shiftl v 1) = 2 * v) as E by (unfold wrap64; rewrite Z.shiftl_mul_pow2, Z.mod_small by nia; lia).
  rewrite E in H. assert (Z.lor (2 * v) 1 = 2 * v + 1) as E1 by (rewrite Z.mul_comm; apply (lor_mul_add v 1 1); lia).
  rewrite E1 in H. apply IH in H; case_match; nia.
Qed.

Lemma gives_hu n : 0 <= n <= 32 -> gives (fun v => 0 <= v < 2 ^ n) (hu n).
Proof.
  intros Hn s Hs. rewrite hu_short by lia. unfold noting. assert (0 < 2 ^ n) by lia. case_match; [cbn; lia |].
  apply returns_bind. unfold u. case_match eqn:E; [cbn; lia |]. apply orb_false_iff in E as [_ E].
  destruct Hs. destruct (u_loop (Z.to_nat n) 0 (r s)) as [[v s'] | |] eqn:Eu.
  - assert (2 ^ n <= 2 ^ 64) by (apply Z.pow_le_mono_r; lia).
    apply (u_loop_bound _ 0) in Eu; rewrite ?Z2Nat.id by lia; [rewrite Z2Nat.id in Eu by lia; cbn; lia | lia | lia].
  - pose proof (u_loop_total (Z.to_nat n) 0 (r s)) as Ht. rewrite Eu in Ht. apply Ht; lia.
  - pose proof (u_loop_total (Z.to_nat n) 0 (r s)) as Ht. rewrite Eu in Ht. apply Ht; lia.
Qed.

Lemma wsafe_sub_layers sub : 0 <= sub < 2 ^ 3 -> wsafe (sub_layers sub).
Proof.
  intros Hsub. unfold sub_layers. apply wsafe_bind; [apply wsafe_flag |]. intros all.
  apply wsafe_while_good; [walk_steps | case_match; lia].
Qed.

Lemma wsafe_sps_size : wsafe sps_size.
Proof. unfold sps_size. walk_steps. Qed.

Lemma gives_ret {A} (P : A -> Prop) a : P a -> gives P (wret a).
Proof. by intros Hp s Hs. Qed.
Lemma gives_bind {A B} (Q : A -> Prop) (P : B -> Prop) (m : walk A) (f : A -> walk B) :
  wsafe m -> gives Q m -> (forall a, Q a -> gives P (f a)) -> gives P (wbind m f).
Proof.
  intros Hm Hq Hf s Hs. unfold wbind. apply returns_bind.
  eapply returns_mono; [apply returns_and; [by apply Hm | by apply Hq] |].
  intros [a s'] [Ha Hqa]. cbn [fst snd] in *. by apply Hf, Ha.
Qed.
Lemma gives_any {A} (m : walk A) : wsafe m -> gives (fun _ => True) m.
Proof. intros Hm s Hs. eapply returns_mono; [by apply Hm | done]. Qed.

Lemma sps_size_sub : gives (fun x : Z * Z * Z => 0 <= fst (fst x) < 2 ^ 3) sps_size.
Proof.
  unfold sps_size. eapply gives_bind; [apply wsafe_hu | apply gives_any, wsafe_hu |]. intros _ _.
  eapply gives_bind; [apply wsafe_hu | by apply (gives_hu 3) |]. intros sub Hsub. cbv beta in Hsub.
  repeat (eapply gives_bind; [walk_steps | apply gives_any; walk_steps | intros ? _]).
  case_match; [by apply gives_ret |].
  repeat (eapply gives_bind; [walk_steps | apply gives_any; walk_steps | intros ? _]). by apply gives_ret.
Qed.

Lemma gives_hue : gives (fun v => 0 <= v) hue.
Proof.
  intros s Hs. unfold hue, noting. case_match; [by apply returns_Ok |]. apply returns_bind.
  eapply returns_mono; [apply returns_and; [by apply eats_safe, Hs; apply eats_ue |] |].
  { instantiate (1 := fun x => match fst x with Some v => 0 <= v | None => True end).
    unfold ue. unfold bind at 1. apply returns_bind.
    eapply returns_mono; [by apply (ue_zeros_eats 33 0 ltac:(lia) ltac:(lia)) |].
    intros [[z|] s'] [Ha _]; cbn [fst snd] in *; [| done]. case_match; [done |]. unfold bind. apply returns_bind.
    eapply returns_mono; [apply safe_u, Ha |]. intros [[v|] s''] _; [| done]. cbn. apply Z.mod_pos_bound. lia. }
  intros [[v|] s'] [_ Hv]; by apply returns_Ok.
Qed.

Lemma weats_skip n : 0 < n -> weats (skip n).
Proof. intros Hn. apply weats_bind; [by apply weats_hu | intros; apply wsafe_ret | intros; apply sticks_ret]. Qed.

Lemma wsafe_sps_middle sub : 0 <= sub < 2 ^ 3 -> wsafe (sps_middle sub).
Proof.
  intros Hsub. unfold sps_middle. do 2 (apply wsafe_bind; [solve [eauto with walks] | intros _]).
  eapply wsafe_bind_gives; [solve [eauto with walks] | apply gives_hue |]. intros poc Hpoc. cbv beta in Hpoc.
  apply wsafe_bind; [by apply wsafe_sub_layers | intros _]. hevc_steps.
  apply wsafe_repeats, weats_skip. lia.
Qed.

Lemma wsafe_timing : wsafe timing.
Proof. unfold timing. hevc_steps. Qed.
Lemma wsafe_vui_fields : wsafe vui_fields.
Proof. unfold vui_fields. hevc_steps. Qed.
#[local] Hint Resolve wsafe_timing wsafe_vui_fields : walks.

Lemma wsafe_hevcSPS : wsafe hevcSPS.
Proof.
  unfold hevcSPS. eapply wsafe_bind_gives; [apply wsafe_sps_size | apply sps_size_sub |].
  intros [[sub w] h] Hsub. cbn [fst] in Hsub. apply wsafe_bind; [apply wsafe_is_bad |]. intros bad.
  case_match; [apply wsafe_ret |]. apply wsafe_bind; [by apply wsafe_sps_middle |]. intros _. walk_steps.
Qed.

Lemma wsafe_vps_timing : wsafe vps_timing.
Proof.
  unfold vps_timing. apply wsafe_bind; [apply wsafe_hu |]. intros _.
  eapply wsafe_bind_gives; [apply wsafe_hu | by apply (gives_hu 3) |]. intros sub Hsub. cbv beta in Hsub.
  do 2 (apply wsafe_bind; [solve [eauto with walks] | intros _]).
  apply wsafe_bind; [by apply wsafe_sub_layers | intros _]. walk_steps.
Qed.

Lemma nal_at_total type l : bytes_ok l -> 6 < zlen l ->
  returns (nal_at type l) (fun o => match o with Some s => placed (r s) | None => True end).
Proof.
  intros Hl Hz. unfold nal_at. header_steps. split; cbn [off b r]; [done |]. 
  match goal with |- _ <= zlen ?l * 8 => pose proof (zlen_nonneg l) end. lia.
Qed.

Lemma hevcVPSTiming_total es : bytes_ok es -> returns (hevcVPSTiming es) (fun _ => True).
Proof.
  intros Hes. unfold hevcVPSTiming. apply returns_bind. eapply returns_mono; [| done].
  apply scan_places_total; [done | done |]. intros l Hl Hz. unfold vps_at. apply returns_bind.
  eapply returns_mono; [by apply nal_at_total |]. intros [s|] Hs; [| done]. apply returns_bind.
  eapply returns_mono; [by apply wsafe_vps_timing |]. by intros [? ?] _.
Qed.

Lemma hevcPicture_total es : bytes_ok es -> returns (hevcPicture es) (fun _ => True).
Proof.
  intros Hes. apply scan_places_total; [done | done |]. intros l Hl Hz. unfold hevc_picture_at. apply returns_bind.
  eapply returns_mono; [by apply nal_at_total |]. intros [s|] Hs; [| done]. apply returns_bind.
  eapply returns_mono; [by apply wsafe_hevcSPS |]. intros [[sps|] s'] _; [| done].
  case_match; [| done]. case_match; [| done]. apply returns_bind.
  apply (returns_mono _ (fun _ => True)); [| by intros t _]. case_match; [by apply hevcVPSTiming_total | done].
Qed.

(** ** A sequence parameter set written (ITU-T H.265 7.3.2.2, 7.3.3, 7.3.4, 7.3.7,
       E.2.1) and read

    Fields the code skips without a look are given as their bits. *)

Inductive picture_use := Used | Kept | Dropped.
Inductive rps := Explicit (neg pos : list (Z * bool)) | Predicted (sign : bool) (delta : Z) (pics : list picture_use).
Record hevc_vui := mkHevcVui {
  aspect : option aspect_ratio; overscan : option bool; signal : option (Z * option Z); loc : option (Z * Z);
  neutral : bool; field_seq : bool; frame_info : bool; display : option (Z * Z * Z * Z); ticks : option (Z * Z);
}.
Record sub_layer := mkSub { sub_profile : option (list bool); sub_level : option (list bool) }.
Inductive matrix := Copied (delta : Z) | Coded (dc : Z) (coefs : list Z).
Record hevc_sps := mkHevcSps {
  vps : Z; nesting : bool; general : list bool; subs : list sub_layer; id : Z;
  chroma : Z; separate : bool; width : Z; height : Z; crop : option (Z * Z * Z * Z);
  luma : Z; depth : Z; poc : Z; all_subs : bool; orders : list (Z * Z * Z); blocks : list Z;
  scaling : option (option (list (list matrix))); amp_sao : Z; pcm : option (Z * Z * Z * bool);
  sets : list rps; long_term : option (list (list bool)); tail : Z; usability : option hevc_vui;
}.

Definition is_some {A} (o : option A) : bool := match o with Some _ => true | None => false end.
Definition put_ptl (general : list bool) (subs : list sub_layer) : list bool :=
  general ++ concat (map (fun x => [is_some (sub_profile x); is_some (sub_level x)]) subs) ++
  (if 0 <? zlen subs then replicate (Z.to_nat (2 * (8 - zlen subs))) false else []) ++
  concat (map (fun x => default [] (sub_profile x) ++ default [] (sub_level x)) subs).
Definition put_quad (c : Z * Z * Z * Z) : list bool :=
  let ' (l, r, t, b) := c in put_ue l ++ put_ue r ++ put_ue t ++ put_ue b.
Definition put_sps_size (s : hevc_sps) : list bool :=
  put_u 4 (vps s) ++ put_u 3 (zlen (subs s)) ++ [nesting s] ++ put_ptl (general s) (subs s) ++
  put_ue (id s) ++ put_ue (chroma s) ++ (if chroma s =? 3 then [separate s] else []) ++
  put_ue (width s) ++ put_ue (height s) ++ put_opt put_quad (crop s).
Definition put_matrix (size : Z) (m : matrix) : list bool :=
  match m with
  | Copied d => [false] ++ put_ue d
  | Coded dc coefs => [true] ++ (if 1 <? size then put_se dc else []) ++ concat (map put_se coefs)
  end.
Fixpoint put_matrices (size : Z) (l : list (list matrix)) : list bool :=
  match l with [] => [] | ms :: l => concat (map (put_matrix size) ms) ++ put_matrices (size + 1) l end.
Definition put_use (p : picture_use) : list bool :=
  match p with Used => [true] | Kept => [false; true] | Dropped => [false; false] end.
Definition put_entry (e : Z * bool) : list bool := put_ue (fst e) ++ [snd e].
Definition put_rps (first : bool) (x : rps) : list bool :=
  match x with
  | Explicit neg pos =>
      (if first then [] else [false]) ++ put_ue (zlen neg) ++ put_ue (zlen pos) ++ concat (map put_entry (neg ++ pos))
  | Predicted sign delta pics => [true] ++ [sign] ++ put_ue delta ++ concat (map put_use pics)
  end.
Fixpoint put_sets (first : bool) (l : list rps) : list bool :=
  match l with [] => [] | x :: l => put_rps first x ++ put_sets false l end.
Definition put_triple (x : Z * Z * Z) : list bool := let ' (a, b, c) := x in put_ue a ++ put_ue b ++ put_ue c.
Definition put_orders (all : bool) (l : list (Z * Z * Z)) : list bool := [all] ++ concat (map put_triple l).
Definition put_pcm (x : Z * Z * Z * bool) : list bool := let ' (a, b, c, d) := x in put_u 8 a ++ put_ue b ++ put_ue c ++ [d].
Definition put_middle (s : hevc_sps) : list bool :=
  put_ue (luma s) ++ put_ue (depth s) ++ put_ue (poc s) ++
  put_orders (all_subs s) (orders s) ++ concat (map put_ue (blocks s)) ++
  put_opt (put_opt (put_matrices 0)) (scaling s) ++ put_u 2 (amp_sao s) ++ put_opt put_pcm (pcm s) ++
  put_ue (zlen (sets s)) ++ put_sets true (sets s) ++
  put_opt (fun l => put_ue (zlen l) ++ concat l) (long_term s) ++ put_u 2 (tail s).
Definition put_fields (v : hevc_vui) : list bool :=
  put_opt put_aspect (aspect v) ++ put_opt (fun o => [o]) (overscan v) ++
  put_opt (fun x => put_u 4 (fst x) ++ put_opt (put_u 24) (snd x)) (signal v) ++
  put_opt (fun x => put_ue (fst x) ++ put_ue (snd x)) (loc v) ++
  [neutral v] ++ [field_seq v] ++ [frame_info v] ++ put_opt put_quad (display v).
Definition put_ticks (t : Z * Z) : list bool := put_u 32 (fst t) ++ put_u 32 (snd t).
Definition put_usability (v : hevc_vui) : list bool := put_fields v ++ put_opt put_ticks (ticks v).
(** A video parameter set (7.3.2.1), up to its timing. *)
Record hevc_vps := mkVps {
  head : list bool; more : list bool; vps_general : list bool; vps_subs : list sub_layer; vps_all : bool;
  vps_orders : list (Z * Z * Z); max_layer : Z; layer_sets : list (list bool); vps_ticks : option (Z * Z);
}.
Definition put_vps (v : hevc_vps) : list bool :=
  head v ++ put_u 3 (zlen (vps_subs v)) ++ more v ++ put_ptl (vps_general v) (vps_subs v) ++
  put_orders (vps_all v) (vps_orders v) ++ put_u 6 (max_layer v) ++ put_ue (zlen (layer_sets v)) ++
  concat (layer_sets v) ++ put_opt put_ticks (vps_ticks v).
Definition put_hevc (s : hevc_sps) : list bool := put_sps_size s ++ put_middle s ++ put_opt put_usability (usability s).

(** The pictures of a reference set. *)
Definition rps_size (x : rps) : Z :=
  match x with
  | Explicit neg pos => zlen neg + zlen pos
  | Predicted _ _ pics => zlen (List.filter (fun p => match p with Dropped => false | _ => true end) pics)
  end.

(** *** Ranges *)
Definition entries_ok (l : list (Z * bool)) : Prop := zlen l <= 16 /\ Forall (fun e => ue_ok (fst e)) l.
Definition rps_ok (prev : option Z) (x : rps) : Prop :=
  match x with
  | Explicit neg pos => entries_ok neg /\ entries_ok pos
  | Predicted _ d pics => ue_ok d /\ match prev with Some n => zlen pics = n + 1 | None => False end
  end.
Fixpoint sets_ok (prev : option Z) (l : list rps) : Prop :=
  match l with [] => True | x :: l => rps_ok prev x /\ sets_ok (Some (rps_size x)) l end.
Definition matrix_ok (size : Z) (m : matrix) : Prop :=
  match m with
  | Copied d => ue_ok d
  | Coded dc coefs => se_ok dc /\ zlen coefs = Z.min 64 (2 ^ (4 + 2 * size)) /\ Forall se_ok coefs
  end.
Definition matrices_ok (l : list (list matrix)) : Prop :=
  match l with
  | [a; b; c; d] =>
      (length a = 6 /\ length b = 6 /\ length c = 6 /\ length d = 2)%nat /\
      Forall (matrix_ok 0) a /\ Forall (matrix_ok 1) b /\ Forall (matrix_ok 2) c /\ Forall (matrix_ok 3) d
  | _ => False
  end.
Definition sub_ok (x : sub_layer) : Prop :=
  opt_ok (fun l : list bool => zlen l = 88) (sub_profile x) /\ opt_ok (fun l : list bool => zlen l = 8) (sub_level x).
Definition orders_ok (all : bool) (n : Z) (l : list (Z * Z * Z)) : Prop :=
  zlen l = (if all then n + 1 else 1) /\
  Forall (fun x => ue_ok (fst (fst x)) /\ ue_ok (snd (fst x)) /\ ue_ok (snd x)) l.
Record size_ok (s : hevc_sps) : Prop := mkSizeOk {
  ok_vps : in_bits 4 (vps s); ok_general : zlen (general s) = 96; ok_subs : zlen (subs s) < 8 /\ Forall sub_ok (subs s);
  ok_hid : ue_ok (id s); ok_chroma : ue_ok (chroma s); ok_width : ue_ok (width s); ok_height : ue_ok (height s);
  ok_hcrop : opt_ok crop_ok (crop s);
}.
Record middle_ok (s : hevc_sps) : Prop := mkMiddleOk {
  ok_luma : ue_ok (luma s); ok_depth : ue_ok (depth s); ok_hpoc : ue_ok (poc s);
  ok_orders : orders_ok (all_subs s) (zlen (subs s)) (orders s);
  ok_blocks : length (blocks s) = 6%nat /\ Forall ue_ok (blocks s);
  ok_matrices : opt_ok (opt_ok matrices_ok) (scaling s);
  ok_amp : in_bits 2 (amp_sao s);
  ok_pcm : opt_ok (fun x => in_bits 8 (fst (fst (fst x))) /\ ue_ok (snd (fst (fst x))) /\ ue_ok (snd (fst x))) (pcm s);
  ok_sets : zlen (sets s) <= 64 /\ sets_ok None (sets s);
  ok_long : opt_ok (fun l => ue_ok (zlen l) /\ Forall (fun x : list bool => zlen x = poc s + 5) l) (long_term s);
  ok_tail : in_bits 2 (tail s);
}.
Record usability_ok (v : hevc_vui) : Prop := mkUsabilityOk {
  ok_aspect : opt_ok aspect_ok (aspect v);
  ok_signal : opt_ok (fun x => in_bits 4 (fst x) /\ opt_ok (in_bits 24) (snd x)) (signal v);
  ok_loc : opt_ok (fun x => ue_ok (fst x) /\ ue_ok (snd x)) (loc v);
  ok_display : opt_ok crop_ok (display v);
  ok_ticks : opt_ok (fun x => in_bits 32 (fst x) /\ in_bits 32 (snd x)) (ticks v);
}.
Record hevc_ok (s : hevc_sps) : Prop := mkHevcOk {
  ok_size : size_ok s; ok_middle : middle_ok s; ok_usability : opt_ok usability_ok (usability s);
}.

Record vps_ok (v : hevc_vps) : Prop := mkVpsOk {
  ok_head : zlen (head v) = 12; ok_more : zlen (more v) = 17; ok_vps_general : zlen (vps_general v) = 96;
  ok_vps_subs : zlen (vps_subs v) < 8 /\ Forall sub_ok (vps_subs v);
  ok_vps_orders : orders_ok (vps_all v) (zlen (vps_subs v)) (vps_orders v);
  ok_max_layer : in_bits 6 (max_layer v);
  ok_layer_sets : zlen (layer_sets v) <= 1023 /\ Forall (fun x : list bool => zlen x = max_layer v + 1) (layer_sets v);
  ok_vps_ticks : opt_ok (fun x => in_bits 32 (fst x) /\ in_bits 32 (snd x)) (vps_ticks v);
}.

(** *** What the standard makes of them *)

(** The size without the conformance window (7-9, Table 6-1). *)
Definition window (s : hevc_sps) : Z * Z * Z * Z := match crop s with Some c => c | None => (0, 0, 0, 0) end.
Definition hevc_width (s : hevc_sps) : Z :=
  let ' (l, r, _, _) := window s in width s - (if ((chroma s =? 1) || (chroma s =? 2))%bool then 2 else 1) * (l + r).
Definition hevc_height (s : hevc_sps) : Z :=
  let ' (_, _, t, b) := window s in height s - (if chroma s =? 1 then 2 else 1) * (t + b).
Definition ticks_of (t : option (Z * Z)) : Z * Z := match t with Some t => t | None => (0, 0) end.
Definition hevc_facts (s : hevc_sps) : hevcSPSFacts :=
  match usability s with
  | None => mkFacts (hevc_width s) (hevc_height s) true false 0 0
  | Some v =>
      mkFacts (hevc_width s) (hevc_height s) true (field_seq v) (fst (ticks_of (ticks v))) (snd (ticks_of (ticks v)))
  end.

(** The rate (E.3.1): a tick is a picture, and two field pictures are a frame; a
    sequence that does not say has the video parameter set's. *)
Definition hevc_ticks (s : hevc_sps) (v : hevc_vps) : Z * Z :=
  let t := match usability s with Some u => ticks_of (ticks u) | None => (0, 0) end in
  if fst t =? 0 then ticks_of (vps_ticks v) else t.

Definition hevc_fields (s : hevc_sps) : bool := match usability s with Some u => field_seq u | None => false end.
(** What is said of the rate at a clock of [scale] ticks a second, [units] of them to a
    picture: the name of the rate of frames, half as many as pictures when these are
    fields, where it is one that has a name; nothing without a clock. *)
Definition rate_said (t : Z * Z) (fields : bool) (name : list Z) : Prop :=
  let pictures := fdiv (float64 (snd t)) (float64 (fst t)) in
  (fst t = 0 \/ snd t = 0 -> name = []) /\
  (fst t <> 0 -> snd t <> 0 -> name = rateName (if fields then fdiv pictures (float64 2) else pictures)).
(** Clocks that broadcasts and encoders use, and the rate of their frames *)
Definition usual_clocks : list (Z * Z * list Z) := [
  (1001, 24000, lit "23.976"); (1, 24, lit "24"); (1000, 24000, lit "24"); (1, 25, lit "25"); (3600, 90000, lit "25"); (1080000, 27000000, lit "25");
  (1001, 30000, lit "29.97"); (3003, 90000, lit "29.97"); (1, 30, lit "30"); (1000, 30000, lit "30"); (1, 50, lit "50"); (540000, 27000000, lit "50");
  (1001, 60000, lit "59.94"); (450450, 27000000, lit "59.94"); (1, 60, lit "60"); (1000, 60000, lit "60"); (2, 25, lit "12.5")].
Lemma usual_rates : Forall (fun x => let ' (units, scale, name) := x in
  hevcRate units scale false = name /\ hevcRate units (2 * scale) true = name) usual_clocks.
Proof. repeat constructor; vm_compute; reflexivity. Qed.
Lemma hevcRate_said units scale fields : rate_said (units, scale) fields (hevcRate units scale fields).
Proof.
  unfold rate_said, hevcRate. cbn [fst snd]. split; [intros [-> | ->]; [done | by rewrite orb_true_r] |]. intros H1 H2.
  by rewrite (proj2 (Z.eqb_neq _ _) H1), (proj2 (Z.eqb_neq _ _) H2).
Qed.

(** *** Reading the parts *)

Lemma WReads_last {A} (m : walk A) l a : WReads m (l ++ []) a -> WReads m l a.
Proof. by rewrite (app_nil_r l). Qed.
Lemma WReads_pass {A B} (m : walk A) (f : A -> walk B) k a c : WReads m [] a -> WReads (f a) k c -> WReads (wbind m f) k c.
Proof. intros Hm Hf. change k with ([] ++ k). by eapply WReads_bind. Qed.
Lemma WReads_bit c : WReads (hu 1) [c] (Z.b2z c).
Proof. pose proof (WReads_short 1 [c] eq_refl) as H. destruct c; apply H; lia. Qed.
Lemma WReads_bits n l : zlen l = n -> WReads (hu n) l (if 32 <? n then 0 else number 0 l).
Proof. intros Hl. destruct (Z.ltb_spec 32 n); [by apply WReads_skip | by apply WReads_short]. Qed.
Lemma WReads_flag c : WReads flag [c] c.
Proof. unfold flag. apply WReads_last. eapply WReads_bind; [apply WReads_bit |]. destruct c; apply WReads_ret. Qed.
Lemma WReads_skip_ue v : ue_ok v -> WReads skip_ue (put_ue v) tt.
Proof. intros Hv. apply WReads_last. eapply WReads_bind; [by apply WReads_ue | apply WReads_ret]. Qed.
Lemma WReads_skip_bits n l : zlen l = n -> WReads (skip n) l tt.
Proof. intros Hl. apply WReads_last. eapply WReads_bind; [by apply WReads_bits | apply WReads_ret]. Qed.

Create HintDb hevc discriminated.
#[local] Hint Constants Opaque : hevc.
#[local] Hint Resolve WReads_bit WReads_flag WReads_skip_ue : hevc.
#[local] Hint Extern 2 (WReads hue (put_ue ?v) _) => apply WReads_ue; assumption : hevc.
#[local] Hint Extern 2 (WReads hse (put_se ?v) _) => apply WReads_se; assumption : hevc.
#[local] Hint Extern 2 (WReads (hu ?n) (put_u _ ?v) _) => apply (WReads_u n v); [lia | assumption] : hevc.
#[local] Hint Extern 2 (WReads (skip ?n) (put_u _ ?v) _) => apply WReads_skip_bits, zlen_put_u : hevc.
#[local] Hint Extern 2 (WReads (skip 1) [_] _) => apply WReads_skip_bits; reflexivity : hevc.

Ltac wfield := eapply WReads_bind; [solve [eauto with hevc] |]; cbv beta.
Ltac wlast := apply WReads_last; wfield; apply WReads_ret.

Lemma WReads_opt {A} (f : A -> list bool) (o : option A) (m : walk unit) :
  opt_ok (fun a => WReads m (f a) tt) o -> WReads (if_flag m) (put_opt f o) tt.
Proof.
  intros Ho. unfold if_flag. destruct o as [a|]; cbn [put_opt opt_ok] in *.
  - by eapply (WReads_bind flag _ [true] _ _ _ (WReads_flag true)).
  - apply (WReads_bind flag _ [false] [] _ _ (WReads_flag false)), WReads_ret.
Qed.

Lemma ptl_flags_read l :
  WReads (ptl_flags (length l)) (concat (map (fun x => [is_some (sub_profile x); is_some (sub_level x)]) l))
    (map (fun x => (Z.b2z (is_some (sub_profile x)), Z.b2z (is_some (sub_level x)))) l).
Proof.
  induction l as [| x l IH]; cbn [length ptl_flags map concat]; [apply WReads_ret |].
  change ([is_some (sub_profile x); is_some (sub_level x)] ++ ?k)
    with ([is_some (sub_profile x)] ++ [is_some (sub_level x)] ++ k).
  do 2 wfield. apply WReads_last. eapply WReads_bind; [apply IH | apply WReads_ret].
Qed.

Lemma ptl_levels_read l : Forall sub_ok l ->
  WReads (ptl_levels (map (fun x => (Z.b2z (is_some (sub_profile x)), Z.b2z (is_some (sub_level x)))) l))
    (concat (map (fun x => default [] (sub_profile x) ++ default [] (sub_level x)) l)) tt.
Proof.
  induction 1 as [| x l [Hp Hv] _ IH]; cbn [map concat ptl_levels]; [apply WReads_ret |].
  eapply WReads_bind; [| exact IH]. apply WReads_bits.
  destruct x as [[p|] [v|]]; cbn [sub_profile sub_level opt_ok default from_option is_some Z.b2z id] in *;
    rewrite ?zlen_app; unfold Datatypes.id; lia || (rewrite (@zlen_nil bool); lia).
Qed.

Lemma number_zeros n : number 0 (replicate n false) = 0.
Proof. induction n as [| n IH]; [done | exact IH]. Qed.

Lemma ptl_reads gen l : zlen gen = 96 -> zlen l < 8 -> Forall sub_ok l -> WReads (skipPTL (zlen l)) (put_ptl gen l) tt.
Proof.
  intros Hg Hn Hs. unfold skipPTL, put_ptl. pose proof (zlen_nonneg l) as H0.
  eapply WReads_bind; [apply (WReads_bits (88 + 8)); lia |].
  replace (Z.to_nat (Z.min (zlen l) 8)) with (length l) by (unfold zlen in *; lia).
  eapply WReads_bind; [apply ptl_flags_read |].
  eapply (WReads_bind _ _ _ _ 0); [| by apply ptl_levels_read]. destruct (Z.ltb_spec 0 (zlen l)).
  - set (n := 2 * (8 - zlen l)). pose proof (WReads_short n (replicate (Z.to_nat n) false)) as Hr.
    rewrite number_zeros in Hr. apply Hr; [| lia]. unfold zlen at 1. rewrite length_replicate. lia.
  - apply WReads_ret.
Qed.

Lemma quad_reads {B} c (f : Z -> Z -> Z -> Z -> walk B) k a : crop_ok c ->
  (let ' (l, r, t, b) := c in WReads (f l r t b) k a) ->
  WReads (let* c0 := hue in let* c1 := hue in let* c2 := hue in let* c3 := hue in f c0 c1 c2 c3) (put_quad c ++ k) a.
Proof.
  destruct c as [[[l r] t] b]. intros (H1 & H2 & H3 & H4) Hf. cbn [put_quad]. rewrite <- !app_assoc. by do 4 wfield.
Qed.

Lemma size_reads_hevc s : size_ok s -> 0 < hevc_width s -> 0 < hevc_height s ->
  WReads sps_size (put_sps_size s) (zlen (subs s), hevc_width s, hevc_height s).
Proof.
  intros [Hv Hg [Hn Hs] Hi Hc Hwd Hht Hcr] Hw Hh. pose proof (ptl_reads _ _ Hg Hn Hs) as Hptl.
  pose proof (zlen_nonneg (subs s)) as H0.
  assert (in_bits 3 (zlen (subs s))) as Hsub by (unfold in_bits; lia).
  unfold sps_size, put_sps_size. do 3 wfield. eapply WReads_bind; [exact Hptl |]. do 2 wfield.
  eapply (WReads_bind _ _ _ _ (if chroma s =? 3 then Z.b2z (separate s) else 0)).
  { case_match; [apply WReads_bit | apply WReads_ret]. }
  do 2 wfield. unfold hevc_width, hevc_height, window, ue_ok in *.
  destruct (crop s) as [c|]; cbn [put_opt opt_ok] in *.
  - eapply WReads_bind; [apply (WReads_flag true) |]. cbn [negb]. apply WReads_last, quad_reads; [done |].
    destruct c as [[[l r] t] b]. destruct Hcr as (H1 & H2 & H3 & H4). unfold ue_ok in *.
    assert (forall z, 0 < z < 2 ^ 32 -> wrap64 z = z) as Hwrap by (intros; unfold wrap64; apply Z.mod_small; lia).
    rewrite !Hwrap; [apply WReads_ret | |]; repeat case_match; lia.
  - apply WReads_last. eapply WReads_bind; [apply (WReads_flag false) |]. cbn [negb].
    rewrite !Z.add_0_l, !Z.mul_0_r, !Z.sub_0_r. apply WReads_ret.
Qed.


Lemma put_ue_nonempty v : put_ue v <> [].
Proof. unfold put_ue. by destruct (Z.to_nat _). Qed.

Lemma app_nonempty {A} (l k : list A) : l <> [] -> l ++ k <> [].
Proof. by destruct l. Qed.

Lemma sub_layers_read (all : bool) (n : Z) (l : list (Z * Z * Z)) : 0 <= n < 8 -> orders_ok all n l ->
  WReads (sub_layers n) (put_orders all l) tt.
Proof.
  intros Hn [Hl Ho]. unfold sub_layers, put_orders. wfield.
  replace (n - (if all then 0 else n) + 1) with (zlen (map put_triple l)) by (rewrite zlen_map; destruct all; lia).
  apply WReads_while_good.
  - apply Forall_map. eapply Forall_impl; [exact Ho |]. intros [[x y] z] (H1 & H2 & H3). cbn [fst snd put_triple] in *.
    split; [apply app_nonempty, put_ue_nonempty |]. do 2 wfield. eauto with hevc.
  - rewrite length_map. unfold zlen in Hl. destruct all; lia.
Qed.

Lemma matrix_reads size m : 0 <= size < 4 -> matrix_ok size m ->
  put_matrix size m <> [] /\ WReads (scaling_matrix size) (put_matrix size m) tt.
Proof.
  intros Hs Hm. split; [by destruct m |]. unfold scaling_matrix. destruct m as [d | dc coefs]; cbn [put_matrix matrix_ok] in *.
  - eapply WReads_bind; [apply (WReads_flag false) |]. cbn [negb]. by apply WReads_skip_ue.
  - destruct Hm as (Hd & Hl & Hc). eapply WReads_bind; [apply (WReads_flag true) |]. cbn [negb].
    eapply (WReads_bind _ _ _ _ tt); [case_match; [by apply WReads_se | apply WReads_ret] |].
    rewrite <- Hl, zlen_nat, <- (length_map put_se). apply WReads_over, Forall_map.
    eapply Forall_impl; [exact Hc |]. intros v Hv. by apply WReads_se.
Qed.

Lemma matrix_row_reads size ms : 0 <= size < 4 -> zlen ms = (if size =? 3 then 2 else 6) -> Forall (matrix_ok size) ms ->
  WReads (scaling_size size) (concat (map (put_matrix size) ms)) tt.
Proof.
  intros Hs Hl Hm. unfold scaling_size. rewrite <- Hl, <- (zlen_map (put_matrix size)). apply WReads_while_good.
  - apply Forall_map. eapply Forall_impl; [exact Hm |]. intros m Hk. by apply matrix_reads.
  - rewrite length_map. unfold zlen in Hl. case_match; lia.
Qed.

Lemma matrices_read l : matrices_ok l -> WReads skipScalingList (put_matrices 0 l) tt.
Proof.
  intros Hl. destruct l as [| a [| b [| c [| d [|]]]]]; try done. destruct Hl as ((Ha & Hb & Hc & Hd) & H0 & H1 & H2 & H3).
  assert (forall (x : list matrix) k, length x = k -> zlen x = Z.of_nat k) as Hz by (by intros x k <-).
  unfold skipScalingList. change (0 + 1) with 1. cbn [put_matrices Z.add Pos.add Pos.succ Pos.add_carry].
  eapply WReads_bind; [apply (matrix_row_reads 0); [done | by rewrite (Hz _ _ Ha) | done] |].
  eapply WReads_bind; [apply (matrix_row_reads 1); [done | by rewrite (Hz _ _ Hb) | done] |].
  eapply WReads_bind; [apply (matrix_row_reads 2); [done | by rewrite (Hz _ _ Hc) | done] |].
  rewrite (app_nil_r (concat _)). apply (matrix_row_reads 3); [done | by rewrite (Hz _ _ Hd) | done].
Qed.

Lemma kept_read pics : forall count,
  WReads (kept_pictures (length pics) count) (concat (map put_use pics))
    (count + zlen (List.filter (fun p => match p with Dropped => false | _ => true end) pics)).
Proof.
  induction pics as [| p pics IH]; intros count; cbn [length kept_pictures map concat List.filter].
  { rewrite (@zlen_nil picture_use), Z.add_0_r. apply WReads_ret. }
  apply WReads_is_bad. destruct p; cbn [put_use].
  - eapply WReads_bind; [apply (WReads_flag true) |]. eapply WReads_pass; [apply WReads_ret |].
    rewrite zlen_cons, Z.add_assoc, (Z.add_comm (count + _)), Z.add_assoc, (Z.add_comm 1). apply IH.
  - change ([false; true] ++ ?k) with ([false] ++ [true] ++ k).
    eapply WReads_bind; [apply (WReads_flag false) |]. eapply WReads_bind; [apply (WReads_flag true) |].
    rewrite zlen_cons, Z.add_assoc, (Z.add_comm (count + _)), Z.add_assoc, (Z.add_comm 1). apply IH.
  - change ([false; false] ++ ?k) with ([false] ++ [false] ++ k).
    eapply WReads_bind; [apply (WReads_flag false) |]. eapply WReads_bind; [apply (WReads_flag false) |]. apply IH.
Qed.

Lemma explicit_read neg pos : entries_ok neg -> entries_ok pos ->
  WReads explicit_set (put_ue (zlen neg) ++ put_ue (zlen pos) ++ concat (map put_entry (neg ++ pos))) (zlen neg + zlen pos).
Proof.
  intros [Hn En] [Hp Ep]. pose proof (zlen_nonneg neg). pose proof (zlen_nonneg pos).
  assert (ue_ok (zlen neg) /\ ue_ok (zlen pos)) as [] by (unfold ue_ok; lia).
  unfold explicit_set. do 2 wfield. destruct (Z.ltb_spec 16 (zlen neg)); [lia |].
  destruct (Z.ltb_spec 16 (zlen pos)); [lia |]. cbn [orb]. apply WReads_last.
  eapply (WReads_bind _ _ _ _ tt); [| apply WReads_ret].
  replace (Z.to_nat (zlen neg + zlen pos)) with (length (map put_entry (neg ++ pos)))
    by (rewrite length_map, length_app; unfold zlen; lia).
  apply WReads_over, Forall_map. apply (Forall_impl (fun e => ue_ok (fst e))); [by apply Forall_app |].
  intros [v c] Hv. cbn [put_entry fst snd] in *. unfold put_entry. cbn [fst snd]. wfield. eauto with hevc.
Qed.

Lemma rps_read prev x : rps_ok prev x -> WReads (ref_set prev) (put_rps (negb (is_some prev)) x) (rps_size x).
Proof.
  intros Hx. destruct x as [neg pos | sign d pics]; cbn [rps_ok rps_size put_rps] in *.
  - destruct Hx. destruct prev as [n|]; cbn [is_some negb ref_set app].
    + apply (WReads_bind flag _ [false] _ _ _ (WReads_flag false)). by apply explicit_read.
    + by apply explicit_read.
  - destruct Hx as [Hd Hn]. destruct prev as [n|]; [| done]. cbn [ref_set].
    eapply WReads_bind; [apply (WReads_flag true) |]. cbv beta iota. do 2 wfield.
    rewrite <- Hn, zlen_nat. apply (kept_read pics 0).
Qed.

Lemma sets_read l : forall prev, sets_ok prev l -> WReads (ref_sets (length l) prev) (put_sets (negb (is_some prev)) l) tt.
Proof.
  induction l as [| x l IH]; intros prev Hl; cbn [length ref_sets put_sets]; [apply WReads_ret |].
  destruct Hl as [Hx Hl]. apply WReads_is_bad. cbv beta iota. eapply WReads_bind; [by apply rps_read |].
  apply (IH (Some (rps_size x)) Hl).
Qed.

Lemma pcm_read x : in_bits 8 (fst (fst (fst x))) /\ ue_ok (snd (fst (fst x))) /\ ue_ok (snd (fst x)) ->
  WReads (let* _ := hu 8 in let* _ := hue in let* _ := hue in skip 1) (put_pcm x) tt.
Proof.
  destruct x as [[[a c] d] e]. cbn [fst snd]. intros (H1 & H2 & H3). cbn [put_pcm]. do 3 wfield. eauto with hevc.
Qed.

Lemma middle_reads s : middle_ok s -> zlen (subs s) < 8 -> WReads (sps_middle (zlen (subs s))) (put_middle s) tt.
Proof.
  intros [Hl Hd Hp Ho [Hb1 Hb2] Hm Ha Hc [Hs1 Hs2] Hg Ht] Hn. pose proof (zlen_nonneg (subs s)).
  unfold sps_middle, put_middle. do 3 wfield. eapply WReads_bind; [by apply sub_layers_read |]. cbv beta.
  eapply (WReads_bind _ _ _ _ tt).
  { rewrite <- Hb1, <- (length_map put_ue). apply WReads_over, Forall_map. eapply Forall_impl; [exact Hb2 |].
    intros v Hv. by apply WReads_skip_ue. }
  eapply (WReads_bind _ _ _ _ tt).
  { apply WReads_opt. destruct (scaling s) as [o|]; cbn [opt_ok] in *; [| done]. apply WReads_opt.
    destruct o; cbn [opt_ok] in *; [by apply matrices_read | done]. }
  wfield. eapply (WReads_bind _ _ _ _ tt).
  { apply WReads_opt. destruct (pcm s); cbn [opt_ok] in *; [by apply pcm_read | done]. }
  assert (ue_ok (zlen (sets s))) by (unfold ue_ok; pose proof (zlen_nonneg (sets s)); lia).
  wfield. eapply (WReads_bind _ _ _ _ tt).
  { unfold skipShortTermSets. destruct (Z.ltb_spec 64 (zlen (sets s))); [lia |]. rewrite zlen_nat.
    apply (sets_read (sets s) None Hs2). }
  eapply (WReads_bind _ _ _ _ tt); [| eauto with hevc]. apply WReads_opt.
  destruct (long_term s) as [l|]; cbn [opt_ok] in *; [| done]. destruct Hg as [Hz Hf]. wfield. apply WReads_repeats.
  eapply Forall_impl; [exact Hf |]. intros x Hx. unfold ue_ok in Hp. split.
  - intros ->. rewrite (@zlen_nil bool) in Hx. lia.
  - apply WReads_skip_bits. cbv beta in Hx. lia.
Qed.

Lemma WReads_aspect o : opt_ok aspect_ok o ->
  WReads (if_flag (let* idc := hu 8 in if idc =? 255 then skip 32 else wret tt)) (put_opt put_aspect o) tt.
Proof.
  intros Ho. apply WReads_opt. destruct o as [[idc | sar]|]; cbn [opt_ok aspect_ok put_aspect] in *; [| | done].
  - destruct Ho as [Hi Hne]. apply WReads_last. wfield. destruct (Z.eqb_spec idc 255); [done | apply WReads_ret].
  - eapply WReads_bind; [apply (WReads_u 8 255); lia |]. cbn [Z.eqb Pos.eqb]. apply WReads_skip_bits, (zlen_put_u 32).
Qed.

Lemma fields_read v : usability_ok v -> WReads vui_fields (put_fields v) (field_seq v).
Proof.
  intros [Ha Hs Hl Hd _]. unfold vui_fields, put_fields. eapply (WReads_bind _ _ _ _ tt); [by apply WReads_aspect |].
  eapply (WReads_bind _ _ _ _ tt).
  { apply WReads_opt. destruct (overscan v); cbn [opt_ok]; [by apply WReads_skip_bits | done]. }
  eapply (WReads_bind _ _ _ _ tt).
  { apply WReads_opt. destruct (signal v) as [[f c]|]; cbn [opt_ok fst snd] in *; [| done]. destruct Hs as [Hf Hc].
    wfield. apply WReads_opt. destruct c; cbn [opt_ok] in *; [apply WReads_skip_bits, (zlen_put_u 24) | done]. }
  eapply (WReads_bind _ _ _ _ tt).
  { apply WReads_opt. destruct (loc v) as [[x y]|]; cbn [opt_ok fst snd] in *; [| done]. destruct Hl. wfield.
    by apply WReads_skip_ue. }
  do 3 wfield. apply WReads_last. eapply (WReads_bind _ _ _ _ tt); [| apply WReads_ret]. apply WReads_opt.
  destruct (display v) as [[[[l t] w] h]|]; cbn [opt_ok crop_ok put_quad] in *; [| done]. destruct Hd as (H1 & H2 & H3 & H4).
  cbn [over]. do 3 wfield. apply WReads_last. wfield. apply WReads_ret.
Qed.

Lemma timing_reads o : opt_ok (fun x => in_bits 32 (fst x) /\ in_bits 32 (snd x)) o ->
  WReads timing (put_opt put_ticks o) (ticks_of o).
Proof.
  intros Ho. unfold timing. destruct o as [[x y]|]; cbn [put_opt opt_ok fst snd] in *.
  - destruct Ho. eapply WReads_bind; [apply (WReads_flag true) |]. cbv beta iota. unfold put_ticks. cbn [fst snd].
    wfield. apply WReads_last. wfield. apply WReads_ret.
  - apply WReads_last. eapply WReads_bind; [apply (WReads_flag false) | apply WReads_ret].
Qed.

Lemma hevcSPS_reads s : hevc_ok s -> sane (hevc_width s) (hevc_height s) = true ->
  WReads hevcSPS (put_hevc s) (Some (hevc_facts s)).
Proof.
  intros [Hs Hm Hu] Hz. assert (0 < hevc_width s <= 7680 /\ 0 < hevc_height s <= 4320) as [Hw Hh] by (unfold sane in Hz; lia).
  unfold hevcSPS, put_hevc. eapply WReads_bind; [apply size_reads_hevc; tauto || lia |]. cbv beta iota. apply WReads_is_bad.
  assert (forall z, 0 < z <= 7680 -> int64 z = z) as Hint by (intros z ?; unfold int64; rewrite Z.mod_small; lia).
  rewrite !Hint by lia. destruct (Z.leb_spec (hevc_width s) 0); [lia |]. destruct (Z.leb_spec (hevc_height s) 0); [lia |].
  cbn [orb]. eapply WReads_bind; [apply middle_reads; [done | apply Hs] |]. cbv beta. unfold hevc_facts.
  destruct (usability s) as [v|]; cbn [put_opt opt_ok] in *.
  - eapply WReads_bind; [apply (WReads_bit true) |]. cbn [Z.b2z Z.eqb]. unfold put_usability.
    eapply WReads_bind; [by apply fields_read |]. apply WReads_last.
    eapply WReads_bind; [apply timing_reads, Hu |]. apply WReads_is_bad, WReads_ret.
  - apply WReads_last. eapply WReads_bind; [apply (WReads_bit false) |]. apply WReads_is_bad, WReads_ret.
Qed.

Lemma vps_reads v : vps_ok v -> WReads vps_timing (put_vps v) (ticks_of (vps_ticks v)).
Proof.
  intros [Hh Hm Hg [Hn Hs] Ho Hx [Hl1 Hl2] Ht]. pose proof (zlen_nonneg (vps_subs v)).
  assert (in_bits 3 (zlen (vps_subs v))) by (unfold in_bits; lia).
  assert (ue_ok (zlen (layer_sets v))) by (unfold ue_ok; pose proof (zlen_nonneg (layer_sets v)); lia).
  unfold vps_timing, put_vps. eapply WReads_bind; [by apply WReads_bits |]. wfield.
  eapply WReads_bind; [by apply WReads_bits |]. eapply WReads_bind; [by apply ptl_reads |].
  eapply WReads_bind; [by apply sub_layers_read |]. do 2 wfield.
  destruct (Z.ltb_spec 1023 (zlen (layer_sets v))); [lia |].
  eapply WReads_bind; [apply WReads_bits |].
  { clear - Hl2. induction Hl2 as [| x l Hx _ IH]; [done |]. cbn [concat]. rewrite zlen_app, zlen_cons, IH, Hx. lia. }
  apply WReads_last. eapply WReads_bind; [by apply timing_reads |]. apply WReads_is_bad, WReads_ret.
Qed.

(** *** In a stream *)

Definition hevc_unit (h0 h1 : Z) (payload : list bool) : list Z := [0; 0; 1; h0; h1] ++ escape_from 0 (pack payload).

(** Where no NAL unit of a type starts. *)
Definition no_nal (type : Z) (pre es : list Z) : Prop :=
  forall i, (i < length pre)%nat -> nal_at type (drop i es) = Ok None.

Lemma nal_at_unit type h0 h1 p post : Z.land (Z.shiftr h0 1) 0x3f = type ->
  exists rest s, nal_at type (hevc_unit h0 h1 p ++ post) = Ok (Some s) /\ bits (b (r s)) = p ++ rest /\ off (r s) = 0 /\ bad s = false.
Proof.
  intros Hh. destruct (bits_of_payload p post) as [rest Hr].
  exists rest, (mkHevc (mkBits (unescape (escape_from 0 (pack p) ++ post)) 0) false).
  split; [| by split]. unfold nal_at, hevc_unit. rewrite <- app_assoc. set (l := _ ++ _ ++ post).
  assert (start_code l = Ok true) as -> by done. assert (idx l 3 = Ok h0) as -> by done. cbn [rbind].
  rewrite Hh, Z.eqb_refl. cbn [andb]. unfold l. by rewrite slice_from_parts.
Qed.

Lemma hevc_unit_long h0 h1 p post : 9 <= zlen p -> 6 < zlen (hevc_unit h0 h1 p ++ post).
Proof.
  intros Hp. unfold hevc_unit. rewrite !zlen_app. change (zlen [0; 0; 1; h0; h1]) with 5.
  pose proof (zlen_escape 0 (pack p)). pose proof (zlen_pack p). pose proof (zlen_nonneg post). lia.
Qed.

Lemma hevc_long s : 9 <= zlen (put_hevc s).
Proof.
  unfold put_hevc, put_sps_size. rewrite <- !app_assoc, 3!zlen_app, !zlen_put_u. change (zlen [nesting s]) with 1.
  match goal with |- context [zlen (put_ptl ?a ?c ++ ?l)] => assert (1 <= zlen (put_ptl a c ++ l)); [| lia] end.
  rewrite zlen_app, zlen_app. unfold put_ue at 1. rewrite !zlen_app. change (zlen [true]) with 1.
  repeat match goal with |- context [zlen ?l] => lazymatch goal with _ : 0 <= zlen l |- _ => fail | _ => pose proof (zlen_nonneg l) end end.
  lia.
Qed.

(** C36. A picture header written as the HEVC standard says is read as it says:
    through sub-layers, scaling lists, predicted reference sets and usability
    information, with emulation prevention, and whatever follows the timing (the
    rest of the usability information, extensions, the stop bit), the first sequence
    parameter set of a stream gives the size inside its conformance window, and its
    timing, or else the first video parameter set's, the rate of frames, of which two
    field pictures are one; the clocks of broadcasts give the rates they stand for. *)
Theorem hevc_header_reads (pre mid post : list Z) (v0 v1 s0 s1 : Z) (v : hevc_vps) (s : hevc_sps) (v_rest s_rest : list bool)
    (Hv0 : Z.land (Z.shiftr v0 1) 0x3f = 32) (Hs0 : Z.land (Z.shiftr s0 1) 0x3f = 33)
    (Hv : vps_ok v) (Hs : hevc_ok s) (Hz : sane (hevc_width s) (hevc_height s) = true) :
  let vps := pre ++ hevc_unit v0 v1 (put_vps v ++ v_rest) ++ mid in
  let es := vps ++ hevc_unit s0 s1 (put_hevc s ++ s_rest) ++ post in
  no_nal 32 pre es -> no_nal 33 vps es ->
  exists rate, hevcPicture es = Ok (Some (mkNoted (hevc_width s) (hevc_height s) rate)) /\
    rate_said (hevc_ticks s v) (hevc_fields s) rate /\
    forall units scale name, (units, scale, name) ∈ usual_clocks ->
      hevc_ticks s v = (units, if hevc_fields s then 2 * scale else scale) -> rate = name.
Proof.
  intros vps es Hpre Hvps.
  assert (hevcVPSTiming es = Ok (ticks_of (vps_ticks v))) as Hvt.
  { unfold hevcVPSTiming. set (tail := mid ++ hevc_unit s0 s1 (put_hevc s ++ s_rest) ++ post).
    assert (es = pre ++ hevc_unit v0 v1 (put_vps v ++ v_rest) ++ tail) as E by (unfold es, vps, tail; by rewrite <- !app_assoc).
    rewrite E in Hpre |- *. destruct (nal_at_unit 32 v0 v1 (put_vps v ++ v_rest) tail Hv0) as (rest & st & Hat & Hb & Ho & Hbad).
    assert (6 < zlen (hevc_unit v0 v1 (put_vps v ++ v_rest) ++ tail)) as Hlen.
    { apply hevc_unit_long. unfold put_vps. rewrite zlen_app, zlen_app, (ok_head v Hv). pose proof (zlen_nonneg v_rest).
      match goal with |- context [_ + zlen ?l + _] => pose proof (zlen_nonneg l) end. lia. }
    rewrite scan_places_skip; [rewrite (scan_places_here _ _ _ (ticks_of (vps_ticks v))) | |]; [done | done | | done |].
    - unfold vps_at. rewrite Hat. cbn [rbind]. rewrite <- app_assoc in Hb. by rewrite (vps_reads v Hv st [] (v_rest ++ rest) Hbad Hb Ho).
    - intros i Hi. unfold vps_at. by rewrite (Hpre i Hi). }
  exists (hevcRate (fst (hevc_ticks s v)) (snd (hevc_ticks s v)) (hevc_fields s)). split_and!.
  2: { pose proof (hevcRate_said (fst (hevc_ticks s v)) (snd (hevc_ticks s v)) (hevc_fields s)) as Hr. by destruct (hevc_ticks s v). }
  2: { intros units scale name Hin E. pose proof usual_rates as Hr. rewrite Forall_forall in Hr. destruct (Hr _ Hin) as [H1 H2]. rewrite E. cbn [fst snd]. by destruct (hevc_fields s). }
  destruct (nal_at_unit 33 s0 s1 (put_hevc s ++ s_rest) post Hs0) as (rest & st & Hat & Hb & Ho & Hbad). rewrite <- app_assoc in Hb.
  assert (6 < zlen (hevc_unit s0 s1 (put_hevc s ++ s_rest) ++ post)) as Hlen
    by (apply hevc_unit_long; rewrite zlen_app; pose proof (hevc_long s); pose proof (zlen_nonneg s_rest); lia).
  unfold hevcPicture. unfold es at 2. rewrite scan_places_skip; [apply scan_places_here | |]; [done | | done |].
  - unfold hevc_picture_at. rewrite Hat. cbn [rbind].
    rewrite (hevcSPS_reads s Hs Hz st [] (s_rest ++ rest) Hbad Hb Ho). cbn [rbind]. unfold hevc_facts, hevc_ticks, hevc_fields.
    destruct (usability s) as [u|]; cbn [w h vui fields units scale fst snd]; rewrite Hz.
    + destruct (fst (ticks_of (ticks u)) =? 0); [by rewrite Hvt | done].
    + cbn [Z.eqb]. by rewrite Hvt.
  - intros i Hi. unfold hevc_picture_at. fold es. by rewrite (Hvps i Hi).
Qed.

(** 1080p in two layers, with a predicted reference set, a scaling list and no
    timing of its own: the video parameter set has it, 59.94. *)
Definition ex_row (size : Z) (n : nat) : list matrix :=
  Coded 3 (replicate (Z.to_nat (Z.min 64 (2 ^ (4 + 2 * size)))) 1) :: replicate (n - 1) (Copied 0).
Definition ex_subs : list sub_layer := [mkSub (Some (replicate 88 false)) None].
Definition ex_hevc : hevc_sps := mkHevcSps
  0 true (replicate 96 true) ex_subs 0 1 false 1920 1088 (Some (0, 0, 0, 4)) 2 2 4 true [(4, 2, 0); (5, 3, 1)] [0; 3; 0; 3; 1; 1]
  (Some (Some [ex_row 0 6; ex_row 1 6; ex_row 2 6; ex_row 3 2])) 3 (Some (119, 0, 2, true))
  [Explicit [(0, true); (1, false)] [(0, true)]; Predicted true 0 [Used; Dropped; Kept; Used]]
  (Some [replicate 9 true]) 2
  (Some (mkHevcVui (Some (Listed 1)) None (Some (10, None)) None true false true (Some (0, 0, 0, 1)) None)).
Definition ex_vps : hevc_vps :=
  mkVps (replicate 12 false) (replicate 17 true) (replicate 96 true) ex_subs false [(4, 2, 0)] 0 [[true]] (Some (1001, 60000)).

Lemma ex_hevc_ok : hevc_ok ex_hevc.
Proof.
  repeat (constructor; cbn; unfold ue_ok, se_ok, in_bits, orders_ok, entries_ok); try lia; try done;
    repeat constructor; cbn; unfold ue_ok, se_ok; try lia; try done.
Defined.

Lemma ex_vps_ok : vps_ok ex_vps.
Proof.
  repeat (constructor; cbn; unfold ue_ok, se_ok, in_bits, orders_ok, entries_ok); try lia; try done;
    repeat constructor; cbn; unfold ue_ok, se_ok; try lia; try done.
Defined.

(** After the timing: flags of what is not there, the stop bit, and no clock's more *)
Definition ex_vps_rest : list bool := [false; false; false; true].
Definition ex_sps_rest : list bool := [false; true; false; true].
Definition ex_before : list Z := hevc_unit 0x40 1 (put_vps ex_vps ++ ex_vps_rest) ++ [0].
Definition ex_stream (s : hevc_sps) : list Z := ex_before ++ hevc_unit 0x42 1 (put_hevc s ++ ex_sps_rest) ++ [].
(** The same pictures as fields, by a clock of their own: 59.94 fields are 29.97 frames. *)
Definition ex_fields : hevc_sps := mkHevcSps
  0 true (replicate 96 true) ex_subs 0 1 false 1920 544 (Some (0, 0, 0, 2)) 2 2 4 true [(4, 2, 0); (5, 3, 1)] [0; 3; 0; 3; 1; 1]
  None 3 None [] None 2 (Some (mkHevcVui None None None None false true true None (Some (1001, 60000)))).
Lemma ex_fields_ok : hevc_ok ex_fields.
Proof.
  repeat (constructor; cbn; unfold ue_ok, se_ok, in_bits, orders_ok, entries_ok); try lia; try done;
    repeat constructor; cbn; unfold ue_ok, se_ok; try lia; try done.
Defined.

Lemma no_nal_check type pre es :
  forallb (fun i => match nal_at type (drop i es) with Ok None => true | _ => false end) (seq 0 (length pre)) = true ->
  no_nal type pre es.
Proof.
  intros H i Hi. rewrite forallb_forall in H. specialize (H i). rewrite List.in_seq in H.
  specialize (H ltac:(lia)). by destruct (nal_at type (drop i es)) as [[]| |].
Qed.

Lemma hevc_header_reads_witness :
  hevcPicture (ex_stream ex_hevc) = Ok (Some (mkNoted 1920 1080 (lit "59.94"))) /\
  hevcPicture (ex_stream ex_fields) = Ok (Some (mkNoted 1920 540 (lit "29.97"))).
Proof.
  split.
  - destruct (hevc_header_reads [] [0] [] 0x40 1 0x42 1 ex_vps ex_hevc ex_vps_rest ex_sps_rest eq_refl eq_refl ex_vps_ok ex_hevc_ok) as (rate & H & _ & Hr);
      [vm_compute; reflexivity | apply no_nal_check; vm_compute; reflexivity | apply no_nal_check; vm_compute; reflexivity |].
    rewrite (Hr 1001 60000 (lit "59.94")) in H; [exact H | apply (proj1 (bool_decide_eq_true _)); vm_compute; reflexivity | reflexivity].
  - destruct (hevc_header_reads [] [0] [] 0x40 1 0x42 1 ex_vps ex_fields ex_vps_rest ex_sps_rest eq_refl eq_refl ex_vps_ok ex_fields_ok) as (rate & H & _ & Hr);
      [vm_compute; reflexivity | apply no_nal_check; vm_compute; reflexivity | apply no_nal_check; vm_compute; reflexivity |].
    rewrite (Hr 1001 30000 (lit "29.97")) in H; [exact H | apply (proj1 (bool_decide_eq_true _)); vm_compute; reflexivity | reflexivity].
Defined.
