(* ===== verification/LiveRendition.v ===== *)
(** The delivery forms of a live channel and which one a viewer gets,
    [server/internal/live/rendition.go], [host.go] and the modes of [picture.go].

    Text is code points. What the startup bench measured is a [float64]. *)
From S2P Require Import Prelude GoText GoFloat.
Local Open Scope Z_scope.
Local Open Scope go_scope.

(** ** A source *)

(** [AudioTrack] of audio.go *)
Record AudioTrack := mkTrack {
  PID : Z; Language : list Z; Role : list Z; Codec : list Z; Label : list Z; Channels : Z; Measured : bool;
}.

Record Source := mkSource {
  VideoCodec : list Z; AudioCodec : list Z; Progressive : bool; Film : bool; UserAgent : list Z; Referrer : list Z;
  AudioPID : Z; Lace : bool; HD : bool; Extras : list AudioTrack; AudioChannels : Z; Height : Z; Rate : list Z;
  AudioLang : list Z;
}.

Definition SDHeight (height : Z) : bool := ((0 <? height) && (height <=? 576))%bool.
Definition FiftyHz (rate : list Z) : bool := one_of ["25"; "50"; "12.5"] rate.

Section text.
Context `{Unicode}.

Definition NormalizeMode (mode : list Z) : list Z :=
  let m := ToLower (TrimSpace mode) in
  if says m "smooth" then lit "smooth" else if says m "film" then lit "film" else lit "broadcast".

Definition InterlacedCodec (codec : list Z) : bool := one_of ["mpeg2"; "mpeg2video"] (ToLower (without 45 codec)).

Definition codecName (raw : list Z) : list Z :=
  let c := ToLower (without 46 (without 45 raw)) in
  if says c "" then []
  else if has_prefix (lit "mpeg2") c then lit "mpeg2"
  else if one_of ["h264"; "avc"; "avc1"] c then lit "h264"
  else if one_of ["hevc"; "h265"] c then lit "hevc"
  else if one_of ["ac3"; "ac-3"] c then lit "ac3"
  else if one_of ["eac3"; "ec3"] c then lit "eac3"
  else if has_prefix (lit "aac") c then lit "aac"
  else if says c "ac4" then lit "ac4"
  else if one_of ["mp2"; "mpeg"] c then lit "mp2"
  else c.

Definition fieldDoubled (codec mode : list Z) (progressive lace : bool) : bool :=
  if says (NormalizeMode mode) "film" then false
  else if (InterlacedCodec codec && negb progressive)%bool then true
  else (says (codecName codec) "h264" && lace)%bool.

Definition has (l : list (list Z)) (codec : list Z) : bool :=
  (negb (says codec "") && existsb (fun s => bytes_equal (codecName s) codec) l)%bool.

(** ** A rendition and its key *)

Record Rendition := mkRendition {
  Video : list Z; Audio : list Z; Mode : list Z; rCodec : list Z; Track : list Z; Even : bool; FullRate : bool; ABR : bool;
}.

(** A switch that keeps some values and replaces the rest. *)
Definition keep (l : list string) (other : string) (s : list Z) : list Z := if one_of l s then s else lit other.

(** What depends on the sizes and sounds once they are known ones. *)
Definition assemble (video audio mode codec track : list Z) (even fullRate abr : bool) : Rendition :=
  let copy := says video "copy" in
  let silent := says audio "none" in
  let r :=
    if (abr && negb copy && negb silent)%bool then mkRendition video (lit "aac2") mode [] [] false false true
    else mkRendition video audio (if copy then [] else mode) (if copy then [] else codec) (if silent then [] else track)
           (if silent then false else even) (if copy then false else fullRate) false in
  if (says (Video r) "480" && negb (ABR r))%bool
  then mkRendition (lit "1080") (Audio r) (Mode r) (rCodec r) (Track r) (Even r) (FullRate r) (ABR r) else r.
Definition normalized (r : Rendition) : Rendition :=
  assemble (keep ["copy"; "1080"; "720"; "540"; "480"; "360"] "1080" (Video r))
    (keep ["copy"; "aac2"; "aac6"; "ac3"; "none"] "aac2" (Audio r)) (NormalizeMode (Mode r))
    (keep ["hevc"] "" (rCodec r)) (keep ["lang"; "vi"] "" (Track r)) (Even r) (FullRate r) (ABR r).

Definition dot : list Z := [46].
Definition part (yes : bool) (s : list Z) : list Z := if yes then dot ++ s else [].
Definition Key (r : Rendition) : list Z :=
  let r := normalized r in
  Video r ++ dot ++ Audio r ++ part (negb (says (Mode r) "")) (Mode r) ++ part (negb (says (Track r) "")) (Track r) ++
  part (Even r) (lit "even") ++ part (FullRate r) (lit "60") ++ part (says (rCodec r) "hevc") (lit "hevc") ++
  part (ABR r) (lit "abr").

(** One more part of a key. *)
Definition key_part (r : Rendition) (p : list Z) : option Rendition :=
  if says p "hevc" then Some (mkRendition (Video r) (Audio r) (Mode r) p (Track r) (Even r) (FullRate r) (ABR r))
  else if says p "even" then Some (mkRendition (Video r) (Audio r) (Mode r) (rCodec r) (Track r) true (FullRate r) (ABR r))
  else if says p "60" then Some (mkRendition (Video r) (Audio r) (Mode r) (rCodec r) (Track r) (Even r) true (ABR r))
  else if one_of ["lang"; "vi"] p then Some (mkRendition (Video r) (Audio r) (Mode r) (rCodec r) p (Even r) (FullRate r) (ABR r))
  else if one_of ["broadcast"; "smooth"; "film"] p then
    Some (mkRendition (Video r) (Audio r) p (rCodec r) (Track r) (Even r) (FullRate r) (ABR r))
  else if says p "abr" then Some (mkRendition (Video r) (Audio r) (Mode r) (rCodec r) (Track r) (Even r) (FullRate r) true)
  else None.
Fixpoint key_parts (r : Rendition) (ps : list (list Z)) : option Rendition :=
  match ps with
  | [] => Some r
  | p :: ps => match key_part r p with Some r => key_parts r ps | None => None end
  end.
Definition ParseRenditionKey (key : list Z) : option Rendition :=
  let parts := Split key 46 in
  if ((zlen parts <? 2) || (8 <? zlen parts))%bool then None else
  match parts with
  | video :: audio :: rest =>
      match key_parts (mkRendition video audio [] [] [] false false false) rest with
      | Some r => if bytes_equal (Key (normalized r)) key then Some (normalized r) else None
      | None => None
      end
  | _ => None
  end.

(** ** What a viewer gets *)

Record Caps := mkCaps {
  Platform : list Z; capVideo : list (list Z); capAudio : list (list Z); MaxHeight : Z; Network : list Z; Alternates : bool;
}.
Record Prefs := mkPrefs { Quality : list Z; prefAudio : list Z; Picture : list Z; prefTrack : list Z; prefEven : bool }.
Record Decision := mkDecision { dRendition : Rendition; Reason : list Z }.

(** [Host] of host.go *)
Record Host := mkHost {
  Class : list Z; hEncoder : list Z; Speed : spec_float; hHeight : Z; Focus : list Z; Tiles : Z; hFullRate : bool;
}.
Definition no_host : Host := mkHost [] [] f0 0 [] 0 false.

Definition captionProbe (audio : list Z) : list (list Z) :=
  if negb (says (codecName audio) "ac4") then [] else [lit "-max_probe_packets"; lit "1"].

Definition hardwareEncoder (encoder : list Z) : bool :=
  one_of ["h264_vaapi"; "hevc_vaapi"; "h264_qsv"; "hevc_qsv"; "h264_nvenc"; "hevc_nvenc"; "h264_videotoolbox"; "hevc_videotoolbox"]
    encoder.

Definition surroundAC4 (codec : list Z) (src : Source) (caps : Caps) : bool :=
  (says codec "ac4" && (6 <=? AudioChannels src) && has (capAudio caps) (lit "ac3"))%bool.

(** [map[string]int] of a size, 0 for one it does not list *)
Definition rank (video : list Z) : Z :=
  if says video "360" then 1 else if says video "540" then 2 else if says video "720" then 3
  else if says video "1080" then 4 else 0.
Definition capToHost (video : list Z) (host : Host) (why : list (list Z)) : list Z * list (list Z) :=
  if ((hHeight host <=? 0) || (1080 <=? hHeight host) || says video "copy")%bool then (video, why) else
  let limit := if hHeight host <=? 360 then lit "360" else if hHeight host <=? 540 then lit "540" else lit "720" in
  if rank video <=? rank limit then (video, why) else (limit, why ++ [limit ++ lit "p on this server"]).

(** The picture's size by the quality, with what the viewer is told. *)
Definition chosen_video (src : Source) (encoder : list Z) (host : Host) (quality : list Z) (copyTile canCopy tooTall : bool) :
    list Z * list (list Z) :=
  let v := codecName (VideoCodec src) in
  if says quality "medium" then (lit "720", [lit "720p to save data"])
  else if says quality "saver" then (lit "540", [lit "Data saver"])
  else if says quality "tile" then
    if copyTile then (lit "copy", [lit "Original picture tile"])
    else if says (Focus host) "360" then (lit "360", [lit "360p tile"])
    else (lit "540", [lit "540p tile"])
  else if says quality "focus" then
    (if copyTile then lit "copy" else if negb (says (Focus host) "") then Focus host
     else if negb (hardwareEncoder encoder) then lit "540" else lit "720", [])
  else if says quality "360" then (lit "360", [lit "360p tile"])
  else if canCopy then (lit "copy", [lit "Original picture"])
  else (lit "1080", [if says v "mpeg2" then lit "Converted from MPEG-2"
                     else if (Lace src && says v "h264")%bool then lit "Deinterlaced for smooth motion"
                     else if tooTall then lit "Scaled to fit this device"
                     else lit "Converted for this device"]).

(** The cap of the player's screen. *)
Definition cap_screen (maxHeight : Z) (video : list Z) : list Z :=
  if ((0 <? maxHeight) && negb (says video "copy"))%bool then
    if maxHeight <? 480 then lit "360" else if maxHeight <? 720 then lit "540"
    else if ((maxHeight <? 1080) && says video "1080")%bool then lit "720" else video
  else video.

Definition focus_note (video : list Z) (fullRate : bool) : list Z :=
  if says video "copy" then lit "Original picture tile" else if says video "720" then lit "720p60 tile"
  else if (says video "360" && fullRate)%bool then lit "360p60 tile" else if says video "360" then lit "360p tile"
  else if fullRate then lit "540p60 tile" else lit "540p tile".

Definition chosen_audio (src : Source) (caps : Caps) (quality audio : list Z) : list Z * list Z :=
  let a := codecName (AudioCodec src) in
  if says audio "none" then (lit "none", lit "silent tile")
  else if says audio "stereo" then (lit "aac2", lit "stereo")
  else if says audio "surround" then
    if has (capAudio caps) a then (lit "copy", lit "original surround")
    else if surroundAC4 a src caps then (lit "ac3", lit "5.1 AC-3")
    else (lit "aac6", lit "5.1 AAC")
  else if (has (capAudio caps) a && negb (says quality "saver"))%bool then (lit "copy", lit "original sound")
  else if (surroundAC4 a src caps && negb (says quality "saver"))%bool then (lit "ac3", lit "5.1 AC-3")
  else (lit "aac2", lit "stereo").

Definition canCopyVideo (src : Source) (caps : Caps) : bool :=
  let v := codecName (VideoCodec src) in
  (has (capVideo caps) v && (Progressive src || says v "hevc") &&
   negb ((0 <? MaxHeight caps) && (MaxHeight caps <? Height src)))%bool.
Definition quality_of (caps : Caps) (p : Prefs) : list Z :=
  let quality := ToLower (Quality p) in
  if one_of [""; "auto"] quality then
    if one_of ["cellular"; "remote"] (Network caps) then lit "medium" else lit "original"
  else quality.

Definition DecideFor (src : Source) (caps : Caps) (p : Prefs) (encoder : list Z) (host : Host) : Decision :=
  let tooTall := ((0 <? MaxHeight caps) && (MaxHeight caps <? Height src))%bool in
  let canCopy := canCopyVideo src caps in
  let copyTile := (canCopy && says (codecName (VideoCodec src)) "hevc" && (0 <? Height src) && (Height src <=? 1080))%bool in
  let quality := quality_of caps p in
  let ' (video, why) := chosen_video src encoder host quality copyTile canCopy tooTall in
  let ' (video, why) := capToHost video host why in
  let video := cap_screen (MaxHeight caps) video in
  let focus := says quality "focus" in
  let fullRate := if (focus && negb (says video "720") && negb (says video "copy"))%bool
                  then (says (Focus host) "" || hFullRate host)%bool else false in
  let why := if focus then why ++ [focus_note video fullRate] else why in
  let audio := ToLower (prefAudio p) in
  let audio := if (one_of [""; "auto"] audio && one_of ["tile"; "360"] quality)%bool then lit "none" else audio in
  let ' (sound, note) := chosen_audio src caps quality audio in
  let why := why ++ [note] in
  let t := ToLower (prefTrack p) in
  let ' (track, why) :=
    if one_of ["language"; "lang"; "sap"] t then (lit "lang", why ++ [lit "second language"])
    else if one_of ["described"; "vi"] t then (lit "vi", why ++ [lit "described video"]) else ([], why) in
  let even := (prefEven p && negb (says sound "none"))%bool in
  let sound := if (even && says sound "copy")%bool
               then if (says audio "stereo" || says quality "saver")%bool then lit "aac2" else lit "aac6" else sound in
  let why := if even then why ++ [lit "even volume"] else why in
  let hevc := (negb (says video "copy") && has (capVideo caps) (lit "hevc") && negb (says (Platform caps) "web"))%bool in
  let why := if hevc then why ++ [lit "HEVC"] else why in
  mkDecision (normalized (mkRendition video sound (Picture p) (if hevc then lit "hevc" else []) track even fullRate false))
    (Join why [44; 32]).

Definition DecideOn (src : Source) (caps : Caps) (p : Prefs) (encoder : list Z) : Decision := DecideFor src caps p encoder no_host.
Definition Decide (src : Source) (caps : Caps) (p : Prefs) : Decision := DecideOn src caps p [].

(** A sound this ffmpeg cannot decode is left out. *)
Definition Unvoiced (audioCodec : list Z) (want : Rendition) : Rendition :=
  if (negb (says (codecName audioCodec) "ac4") || says (Audio want) "copy" || says (Audio want) "none")%bool then want
  else normalized (mkRendition (Video want) (lit "none") (Mode want) (rCodec want) (Track want) (Even want) (FullRate want) (ABR want)).

Definition LegacyCaps (profile audio picture : list Z) : Caps * Prefs :=
  (mkCaps (lit "web") [lit "h264"] [lit "aac"] 0 [] false,
   mkPrefs (if says profile "balanced" then lit "medium" else if says profile "saver" then lit "saver" else lit "original")
     (if says audio "surround" then lit "surround" else lit "stereo") picture [] false).
End text.

Definition renditionProfile (video : list Z) : list Z :=
  if says video "720" then lit "balanced" else if says video "540" then lit "saver"
  else if says video "480" then lit "low" else if says video "360" then lit "tile" else lit "transparent".
Definition sessionProfile (video : list Z) : list Z :=
  let p := renditionProfile video in if says p "low" then lit "saver" else p.

(** ** What a host can do *)

Definition Classify (encoder vendor : list Z) `{Unicode} : list Z :=
  if contains encoder (lit "nvenc") then lit "nvidia"
  else if contains encoder (lit "videotoolbox") then lit "apple"
  else if contains encoder (lit "qsv") then lit "intel-qsv"
  else if contains encoder (lit "vaapi") then
    let v := TrimSpace vendor in
    if says v "0x8086" then lit "intel-vaapi" else if one_of ["0x1002"; "0x1022"] v then lit "amd-vaapi" else lit "vaapi"
  else lit "software".

(** [speed >= m / 10 ^ k] *)
Definition at_least (speed : spec_float) (m k : Z) : bool := SFleb (const m k) speed.
Definition budget (class : list Z) (speed : spec_float) (height : Z) (focus : string) (tiles : Z) (fullRate : bool) : Host :=
  mkHost class [] speed height (lit focus) tiles fullRate.
Definition softwareBudget (class : list Z) (speed : spec_float) : Host :=
  if at_least speed 55 1 then budget class speed 1080 "720" 4 true
  else if at_least speed 38 1 then budget class speed 1080 "720" 2 true
  else if at_least speed 27 1 then budget class speed 720 "540" 2 true
  else if at_least speed 19 1 then budget class speed 720 "360" 1 true
  else if at_least speed 14 1 then budget class speed 540 "360" 1 true
  else budget class speed 540 "360" 1 false.
Definition Budget (class : list Z) (speed : spec_float) : Host :=
  if one_of [""; "software"] class then softwareBudget class speed
  else if at_least speed 4 0 then budget class speed 1080 "720" 4 true
  else if at_least speed 2 0 then budget class speed 1080 "720" 2 true
  else if at_least speed 1 0 then budget class speed 720 "540" 2 true
  else if at_least speed 5 1 then budget class speed 540 "360" 1 true
  else if SFltb f0 speed then budget class speed 540 "360" 1 false
  else budget class speed 1080 "720" 2 true.
(** [lowPower]: the encoders moved to the fixed-function one. *)
Definition budgetFor (lowPower : list (list Z)) (class encoder : list Z) (speed : spec_float) : Host :=
  let h := Budget class speed in
  if (at_least speed 4 0 && bool_decide (encoder ∈ lowPower) && has_prefix (lit "intel") class)%bool
  then mkHost (Class h) (hEncoder h) (Speed h) (hHeight h) (Focus h) 6 (hFullRate h) else h.
Definition PreferSoftware (speed : spec_float) : bool := at_least speed 25 1.

(** ** Keys name renditions *)

#[export] Instance Rendition_eq_dec : EqDecision Rendition.
Proof. solve_decision. Defined.

Lemma keep_in l other s : keep l other s ∈ map lit (other :: l).
Proof.
  unfold keep, one_of. destruct (existsb (says s) l) eqn:E; [| apply list_elem_of_here].
  apply existsb_exists in E as (x & Hx & E). apply says_spec in E as ->. apply list_elem_of_further.
  apply list_elem_of_fmap. exists x. split; [done | by apply list_elem_of_In].
Qed.

Lemma NormalizeMode_in `{Unicode} mode : NormalizeMode mode ∈ map lit ["smooth"; "film"; "broadcast"].
Proof. unfold NormalizeMode. cbv zeta. repeat case_match; repeat constructor. Qed.

(** Every normalized rendition is one of these. *)
Definition all_forms : list Rendition :=
  video ← map lit ["1080"; "copy"; "1080"; "720"; "540"; "480"; "360"];
  audio ← map lit ["aac2"; "copy"; "aac2"; "aac6"; "ac3"; "none"];
  mode ← map lit ["smooth"; "film"; "broadcast"];
  codec ← map lit [""; "hevc"];
  track ← map lit [""; "lang"; "vi"];
  even ← [true; false]; fullRate ← [true; false]; abr ← [true; false];
  [assemble video audio mode codec track even fullRate abr].

Lemma bool_in c : c ∈ [true; false].
Proof. destruct c; repeat constructor. Qed.

Lemma in_forms video audio mode codec track even fullRate abr :
  video ∈ map lit ["1080"; "copy"; "1080"; "720"; "540"; "480"; "360"] ->
  audio ∈ map lit ["aac2"; "copy"; "aac2"; "aac6"; "ac3"; "none"] ->
  mode ∈ map lit ["smooth"; "film"; "broadcast"] -> codec ∈ map lit [""; "hevc"] -> track ∈ map lit [""; "lang"; "vi"] ->
  assemble video audio mode codec track even fullRate abr ∈ all_forms.
Proof.
  intros Hv Ha Hm Hc Ht. unfold all_forms.
  repeat (apply list_elem_of_bind; eexists; split; [| first [exact Hv | exact Ha | exact Hm | exact Hc | exact Ht | apply bool_in]]).
  by apply list_elem_of_singleton.
Qed.

Lemma normalized_in `{Unicode} r : normalized r ∈ all_forms.
Proof.
  apply in_forms; [apply keep_in | apply keep_in | apply NormalizeMode_in | apply (keep_in ["hevc"]) | apply (keep_in ["lang"; "vi"])].
Qed.

(** Each of them is normal, and its key leads back to it. *)
Definition form_ok `{Unicode} (r : Rendition) : bool :=
  (bool_decide (normalized r = r) && bool_decide (ParseRenditionKey (Key r) = Some r))%bool.
Lemma forms_ok `{Unicode} : forallb form_ok all_forms = true.
Proof. vm_compute. reflexivity. Qed.

Lemma form_facts `{Unicode} r : r ∈ all_forms -> normalized r = r /\ ParseRenditionKey (Key r) = Some r.
Proof.
  intros Hr. pose proof forms_ok as Hall. rewrite forallb_forall in Hall. specialize (Hall r (proj1 (list_elem_of_In _ _) Hr)).
  unfold form_ok in Hall. apply andb_true_iff in Hall as [H1 H2].
  split; [by apply bool_decide_eq_true in H1 | by apply bool_decide_eq_true in H2].
Qed.

Lemma normalized_idem `{Unicode} r : normalized (normalized r) = normalized r.
Proof. apply form_facts, normalized_in. Qed.

Lemma Key_normalized `{Unicode} r : Key (normalized r) = Key r.
Proof. unfold Key. by rewrite normalized_idem. Qed.

(** A rendition's key names it: the key of any rendition, whatever its fields
    hold, parses to its normal form; and a key that parses is the key of what it
    parses to, so two viewers share an encode exactly when their renditions
    mean the same. *)
Theorem key_roundtrip `{Unicode} (r : Rendition) :
  ParseRenditionKey (Key r) = Some (normalized r) /\
  (forall q, Key q = Key r <-> normalized q = normalized r) /\
  (forall key q, ParseRenditionKey key = Some q -> Key q = key /\ normalized q = q).
Proof.
  assert (forall q, ParseRenditionKey (Key q) = Some (normalized q)) as Hk.
  { intros q. rewrite <- Key_normalized. by apply form_facts, normalized_in. }
  split_and!; [apply Hk | |].
  - intros q. split.
    + intros E. pose proof (Hk q) as Hq. rewrite E, Hk in Hq. by injection Hq.
    + intros E. by rewrite <- (Key_normalized q), E, Key_normalized.
  - intros key q Hq. unfold ParseRenditionKey in Hq. case_match; [done |].
    destruct (Split key 46) as [| video [| audio rest]]; [done | done |]. destruct (key_parts _ rest) as [x|]; [| done].
    case_match eqn:E; [| done]. injection Hq as <-. unfold bytes_equal in E. apply bool_decide_eq_true in E.
    rewrite Key_normalized in E |- *. split; [done | apply normalized_idem].
Qed.

(** ** Nobody is sent what they cannot play *)

(** The lines of a picture that is not the broadcast's own. *)
Definition lines (video : list Z) : Z :=
  if says video "360" then 360 else if says video "480" then 480 else if says video "540" then 540
  else if says video "720" then 720 else 1080.
(** What a host can be: one not measured yet, or one with the budget the bench gave it
    and whichever encoder it settled on *)
Definition benched (h : Host) : Prop :=
  h = no_host \/ exists lowPower class encoder speed e, let b := budgetFor lowPower class encoder speed in
    h = mkHost (Class b) e (Speed b) (hHeight b) (Focus b) (Tiles b) (hFullRate b).
Lemma budget_sizes class speed : hHeight (Budget class speed) ∈ [540; 720; 1080] /\ Focus (Budget class speed) ∈ map lit ["360"; "540"; "720"].
Proof. unfold Budget, softwareBudget. repeat case_match; split; repeat constructor. Qed.
Lemma benched_sizes h : benched h -> hHeight h ∈ [0; 540; 720; 1080] /\ Focus h ∈ map lit [""; "360"; "540"; "720"].
Proof.
  intros [-> | (lp & class & encoder & speed & e & ->)]; [split; repeat constructor |]. cbn [hHeight Focus].
  assert (hHeight (budgetFor lp class encoder speed) = hHeight (Budget class speed) /\ Focus (budgetFor lp class encoder speed) = Focus (Budget class speed)) as [-> ->]
    by (unfold budgetFor; by case_match). destruct (budget_sizes class speed). split; by apply list_elem_of_further.
Qed.

Definition sizes : list (list Z) := map lit ["copy"; "1080"; "720"; "540"; "360"].

Lemma chosen_video_in `{Unicode} src encoder host quality copyTile canCopy tooTall :
  Focus host ∈ map lit [""; "360"; "540"; "720"] -> (copyTile = true -> canCopy = true) ->
  let video := fst (chosen_video src encoder host quality copyTile canCopy tooTall) in
  video ∈ sizes /\ (video = lit "copy" -> canCopy = true).
Proof.
  intros Hf Hc. unfold chosen_video, sizes. cbv zeta.
  assert (Focus host = [] \/ Focus host ∈ map lit ["copy"; "1080"; "720"; "540"; "360"] /\ Focus host <> lit "copy") as Hf'.
  { cbn [map] in Hf. rewrite !elem_of_cons in Hf. destruct Hf as [-> | [-> | [-> | [-> | Hf]]]]; [by left | | | |];
      [right; split; [repeat constructor | done].. | by apply not_elem_of_nil in Hf]. }
  repeat (case_match; try (cbn [fst]; split; [solve [repeat constructor] | first [done | intros _; by apply Hc]])).
  cbn [fst]. destruct Hf' as [E | [E Hn]]; [| done]. match goal with H : negb _ = true |- _ => by rewrite E in H end.
Qed.

Lemma capToHost_in video host why : video ∈ sizes ->
  let v := fst (capToHost video host why) in
  v ∈ sizes /\ (v = lit "copy" -> video = lit "copy") /\
  (v <> lit "copy" -> hHeight host ∈ [540; 720; 1080] -> lines v <= hHeight host).
Proof.
  intros Hv. unfold capToHost, sizes. cbv zeta.
  destruct (_ || _ || _)%bool eqn:E.
  { cbn [fst]. split_and!; [done | done |]. intros Hn Hh. rewrite !orb_true_iff in E.
    assert (lines video <= 1080) by (unfold lines; repeat case_match; lia). rewrite !elem_of_cons, elem_of_nil in Hh.
    destruct E as [[E | E] | E]; [lia | lia | by apply says_spec in E]. }
  assert (says video "copy" = false) as Hc by (destruct (says video "copy"); [by rewrite !orb_true_r in E | done]).
  unfold sizes in Hv. cbn [map] in Hv. rewrite !elem_of_cons in Hv.
  destruct (Z.leb_spec (hHeight host) 360); [| destruct (Z.leb_spec (hHeight host) 540); [| destruct (Z.ltb_spec (hHeight host) 1080)]];
    destruct Hv as [-> | [-> | [-> | [-> | [-> | Hv]]]]]; try done; try (by apply not_elem_of_nil in Hv);
    (split; [solve [repeat constructor] | split; [done | intros _ Hh; rewrite !elem_of_cons, elem_of_nil in Hh; (destruct Hh as [E' | [E' | [E' | []]]]; first [lia | rewrite E'; by vm_compute])]]).
Qed.

(** A picture fits a screen, or is the smallest one, or is the 540 lines that a screen of
    480 and more, but not 540, is given. *)
Definition fits_screen (maxHeight n : Z) : Prop := n <= maxHeight \/ (maxHeight < 360 /\ n = 360) \/ (480 <= maxHeight < 540 /\ n = 540).
Lemma cap_screen_in maxHeight video : video ∈ sizes ->
  let v := cap_screen maxHeight video in
  v ∈ sizes /\ (v = lit "copy" <-> video = lit "copy") /\ (maxHeight <= 0 \/ 720 <= maxHeight -> lines v <= lines video) /\
  (v <> lit "copy" -> 0 < maxHeight -> fits_screen maxHeight (lines v)).
Proof.
  intros Hv. unfold cap_screen, fits_screen. cbv zeta. unfold sizes in Hv. cbn [map] in Hv. rewrite !elem_of_cons in Hv.
  destruct (Z.ltb_spec 0 maxHeight), (Z.ltb_spec maxHeight 480), (Z.ltb_spec maxHeight 720), (Z.ltb_spec maxHeight 1080); try lia;
    destruct Hv as [-> | [-> | [-> | [-> | [-> | Hv]]]]]; try (by apply not_elem_of_nil in Hv);
    (split_and!; [solve [vm_compute; repeat constructor] | done | intros ?; first [by vm_compute | lia] | intros; first [lia | done | change (lines _) with 360; lia | change (lines _) with 540; lia | change (lines _) with 720; lia | change (lines _) with 1080; lia]]).
Qed.

(** What stays of a size in the normal form. *)
Lemma normal_parts `{Unicode} video sound mode codec track even fullRate : video ∈ sizes ->
  let r := normalized (mkRendition video sound mode codec track even fullRate false) in
  Video r = video /\ (Audio r = lit "copy" -> sound = lit "copy") /\ (Audio r = lit "ac3" -> sound = lit "ac3") /\
  (rCodec r = lit "hevc" -> codec = lit "hevc" /\ video <> lit "copy").
Proof.
  intros Hv. unfold sizes in Hv. cbn [map] in Hv. rewrite !elem_of_cons in Hv. unfold normalized, assemble. cbn [Video Audio Mode rCodec Track ABR].
  assert (keep ["hevc"] "" codec = lit "hevc" -> codec = lit "hevc") as Hc.
  { unfold keep, one_of. cbn [existsb]. destruct (says codec "hevc") eqn:E; [by apply says_spec in E | done]. }
  assert (forall t : string, t = "copy"%string \/ t = "ac3"%string -> keep ["copy"; "aac2"; "aac6"; "ac3"; "none"] "aac2" sound = lit t -> sound = lit t) as Ha.
  { intros t Ht. unfold keep. destruct (one_of _ sound); [done |]. by intros E; destruct Ht as [-> | ->]. }
  destruct Hv as [-> | [-> | [-> | [-> | [-> | Hv]]]]]; try (by apply not_elem_of_nil in Hv);
    cbn; (split_and!; [done | apply Ha; by left | apply Ha; by right | first [done | intros E; split; [by apply Hc | done]]]).
Qed.

Lemma chosen_audio_plays `{Unicode} src caps quality audio :
  let sound := fst (chosen_audio src caps quality audio) in
  (sound = lit "copy" -> has (capAudio caps) (codecName (AudioCodec src)) = true) /\
  (sound = lit "ac3" -> has (capAudio caps) (lit "ac3") = true).
Proof.
  unfold chosen_audio, surroundAC4. cbv zeta.
  repeat (case_match; cbn [fst]); (split; intros ?; first [discriminate | done | rewrite ?andb_true_iff in *; tauto]).
Qed.

(** C16. Whatever the broadcast, the client and the preferences, and on any host as the
    bench leaves it, what a viewer is given they can play: the broadcast's own picture
    only to a player with its codec and no smaller screen, HEVC and AC-3 only to one that
    lists them, the broadcast's own sound only to one that plays it. A picture of the
    server's is no taller than the screen's cap, but for screens below 360 lines, which
    are given 360, and those of 480 to 539, which are given 540; and no taller than what
    the host keeps up with, where the screen does not set the size itself (it does below
    720 lines). The choice is a normal one, whose key leads back to it. *)
Theorem decision_playable `{Unicode} (src : Source) (caps : Caps) (p : Prefs) (encoder : list Z) (host : Host)
    (Hhost : benched host) :
  let r := dRendition (DecideFor src caps p encoder host) in
  ParseRenditionKey (Key r) = Some r /\
  (Video r = lit "copy" -> has (capVideo caps) (codecName (VideoCodec src)) = true /\
     (0 < MaxHeight caps -> Height src <= MaxHeight caps)) /\
  (rCodec r = lit "hevc" -> has (capVideo caps) (lit "hevc") = true /\ Platform caps <> lit "web") /\
  (Audio r = lit "copy" -> has (capAudio caps) (codecName (AudioCodec src)) = true) /\
  (Audio r = lit "ac3" -> has (capAudio caps) (lit "ac3") = true) /\
  (Video r <> lit "copy" -> 0 < MaxHeight caps -> fits_screen (MaxHeight caps) (lines (Video r))) /\
  (Video r <> lit "copy" -> 0 < hHeight host -> MaxHeight caps <= 0 \/ 720 <= MaxHeight caps -> lines (Video r) <= hHeight host).
Proof.
  destruct (benched_sizes host Hhost) as [Hsz Hf]. cbv zeta. unfold DecideFor. cbv zeta.
  set (tall := ((0 <? MaxHeight caps) && (MaxHeight caps <? Height src))%bool).
  set (tile := (canCopyVideo src caps && _ && _ && _)%bool).
  assert (tile = true -> canCopyVideo src caps = true) as Ht by (unfold tile; rewrite !andb_true_iff; tauto).
  pose proof (chosen_video_in src encoder host (quality_of caps p) tile (canCopyVideo src caps) tall Hf Ht) as [H1 H2].
  destruct (chosen_video _ _ _ _ _ _ _) as [v1 why1]. cbn [fst] in *.
  pose proof (capToHost_in v1 host why1 H1) as (H3 & H4 & H5). destruct (capToHost v1 host why1) as [v2 why2]. cbn [fst] in *.
  pose proof (cap_screen_in (MaxHeight caps) v2 H3) as (H6 & H7 & H8 & H9). set (v3 := cap_screen _ v2) in *. clearbody v3.
  match goal with |- context [chosen_audio ?a ?b ?c ?d] => pose proof (chosen_audio_plays a b c d) as [Hs1 Hs2];
    destruct (chosen_audio a b c d) as [sound note] end. cbn [fst] in Hs1, Hs2.
  destruct (if one_of _ _ then _ else _) as [track why3].
  match goal with |- context [if (?e && says sound "copy")%bool then ?x else sound] =>
    set (even := e); set (s2 := if (even && says sound "copy")%bool then x else sound) end.
  assert ((s2 = lit "copy" -> sound = lit "copy") /\ (s2 = lit "ac3" -> sound = lit "ac3")) as [He1 He2].
  { unfold s2. destruct (even && _)%bool; [| done]. by case_match. }
  clearbody s2. set (hevc := (negb (says v3 "copy") && _ && _)%bool). cbn [dRendition].
  match goal with |- context [normalized ?x] => set (r := x) end.
  pose proof (normal_parts v3 s2 (Picture p) (if hevc then lit "hevc" else []) track even
    (if (says (quality_of caps p) "focus" && negb (says v3 "720") && negb (says v3 "copy"))%bool
     then (says (Focus host) "" || hFullRate host)%bool else false) H6) as (N1 & N2 & N3 & N4).
  fold r in N1, N2, N3, N4. split_and!.
  - apply form_facts, normalized_in.
  - rewrite N1. intros E. apply H7, H4, H2 in E. unfold canCopyVideo in E. rewrite !andb_true_iff in E.
    destruct E as [[E _] Eh]. split; [done | lia].
  - intros E. apply N4 in E as [E _]. destruct hevc eqn:Eh; [| done]. unfold hevc in Eh.
    rewrite !andb_true_iff in Eh. destruct Eh as [[_ Eh] Ep]. split; [done |]. intros Ew. by rewrite Ew in Ep.
  - auto.
  - auto.
  - rewrite N1. apply H9.
  - rewrite N1. intros Hn Hh Hm. etrans; [by apply H8 |]. apply H5; [by rewrite <- H7 |]. apply elem_of_cons in Hsz as [E | Hsz]; [lia | done].
Qed.

(** A host that a tenth past the broadcast's speed leaves at 720 lines *)
Lemma decision_playable_witness :
  let _ := ascii_unicode in
  let src := mkSource (lit "MPEG2") (lit "AC4") false false [] [] 0 true true [] 6 1080 [] [] in
  let caps := mkCaps (lit "tvos") [lit "h264"; lit "hevc"] [lit "aac"; lit "ac3"] 1080 [] false in
  let host := let b := Budget (lit "vaapi") (const 11 1) in mkHost (Class b) (lit "h264_vaapi") (Speed b) (hHeight b) (Focus b) (Tiles b) (hFullRate b) in
  let r := mkRendition (lit "720") (lit "ac3") (lit "broadcast") (lit "hevc") [] false false false in
  dRendition (DecideFor src caps (mkPrefs [] [] [] [] false) (lit "h264_vaapi") host) = r /\
  has (capVideo caps) (lit "hevc") = true /\ has (capAudio caps) (lit "ac3") = true /\ lines (Video r) <= hHeight host.
Proof.
  intros u src caps host r.
  assert (benched host) as Hf by (right; exists [], (lit "vaapi"), [], (const 11 1), (lit "h264_vaapi"); vm_compute; reflexivity).
  assert (dRendition (DecideFor src caps (mkPrefs [] [] [] [] false) (lit "h264_vaapi") host) = r) as E by (vm_compute; reflexivity).
  pose proof (decision_playable src caps (mkPrefs [] [] [] [] false) (lit "h264_vaapi") host Hf) as (_ & _ & H1 & _ & H2 & _ & H3).
  rewrite E in H1, H2, H3. split; [exact E |].
  split; [by apply H1 | split; [by apply H2 | apply H3; [done | by vm_compute | cbn; lia]]].
Defined.

(** A screen of 500 lines is given 540. *)
Example screen_of_500_lines :
  let _ := ascii_unicode in
  let src := mkSource (lit "MPEG2") (lit "AC3") false false [] [] 0 true true [] 6 1080 [] [] in
  Video (dRendition (DecideFor src (mkCaps (lit "web") [lit "h264"] [lit "aac"] 500 [] false) (mkPrefs [] [] [] [] false) (lit "libx264") no_host)) = lit "540".
Proof. vm_compute. reflexivity. Qed.

(** A screen below 720 lines sets the size itself, after the bench's cap: a host that
    keeps up with 360 lines is asked for 540. *)
Example small_screen_lifts_host_cap :
  let _ := ascii_unicode in
  let src := mkSource (lit "MPEG2") (lit "AC3") false false [] [] 0 true true [] 6 1080 [] [] in
  let caps maxHeight := mkCaps (lit "web") [lit "h264"] [lit "aac"] maxHeight [] false in
  let host := mkHost (lit "software") (lit "libx264") f0 360 (lit "360") 1 false in
  let video maxHeight := Video (dRendition (DecideFor src (caps maxHeight) (mkPrefs [] [] [] [] false) (lit "libx264") host)) in
  video 0 = lit "360" /\ video 600 = lit "540".
Proof. vm_compute. done. Qed.
