(* ===== verification/LiveScan.v ===== *)
(** The scan of a channel's stream, [server/internal/live/scantype.go] and
    [codecs.go]: what its bytes say of the picture, the buffer the scan reads,
    and what a channel keeps of it.

    A [feed] is what the hub's mutex guards of one channel, the fields these
    functions use; what they write to the database is the list of [saved]
    values. Text is code points. *)
From S2P Require Import Prelude GoText GoFloat LiveTs LiveBits LiveSps LiveHevc LiveRendition.
Local Open Scope Z_scope.
Local Open Scope go_scope.

(** ** What the stream says *)

(** [bytes.IndexByte], and the cut to the first packet. *)
Fixpoint IndexByte (data : list Z) (c : Z) (i : Z) : Z :=
  match data with [] => -1 | x :: data => if x =? c then i else IndexByte data c (i + 1) end.
Definition from_sync (data : list Z) : list Z :=
  let i := IndexByte data 0x47 0 in
  if ((0 <? i) && (i <? 188))%bool then drop (Z.to_nat i) data else data.

Definition scanType (data : list Z) (program : Z) : res (option (list Z)) :=
  let data := from_sync data in
  let! ' (pmtPID, videoPID, kind) := programVideo data program in
  if ((videoPID =? 0) || ((pmtPID =? 0) && negb (program =? 0)))%bool then Ok None else
  let! es := elementary data videoPID in
  if kind =? streamMPEG2 then mpeg2Scan es
  else if kind =? streamH264 then h264Scan es
  else if kind =? streamHEVC then
    let! p := hevcPicture es in Ok (match p with Some _ => Some (lit "progressive") | None => None end)
  else Ok None.

Definition pictureFacts (data : list Z) (program : Z) : res (option notedPicture) :=
  let data := from_sync data in
  let! ' (pmtPID, videoPID, kind) := programVideo data program in
  if videoPID =? 0 then Ok None else
  let! es := elementary data videoPID in
  if kind =? streamMPEG2 then mpeg2Picture es
  else if kind =? streamH264 then h264Picture es
  else if kind =? streamHEVC then hevcPicture es
  else Ok None.

Definition headerRate (data : list Z) (program : Z) : res (list Z) :=
  let! p := pictureFacts data program in Ok (match p with Some p => FPS p | None => [] end).

(** The lineup's word for a kind of video. *)
Definition video_word (kind : Z) : list Z :=
  if kind =? streamMPEG2 then lit "MPEG2" else if kind =? streamH264 then lit "H264"
  else if kind =? streamHEVC then lit "HEVC" else [].
Fixpoint first_word (secs : list (list Z)) : res (list Z) :=
  match secs with
  | [] => Ok []
  | sec :: secs =>
      if zlen sec <? 12 then first_word secs else
      let! b0 := idx sec 0 in
      if negb (b0 =? 2) then first_word secs else
      let! ss := streams_of sec in
      match List.find (fun s => is_video (fst s)) ss with
      | Some s => Ok (video_word (fst s))
      | None => first_word secs
      end
  end.
Definition VideoCodecOf (data : list Z) (program : Z) : res (list Z) :=
  let data := from_sync data in
  let! pats := sections data 0 in
  let! pmtPID := first_pmt pats program in
  if pmtPID =? 0 then Ok [] else
  let! pmts := sections data pmtPID in
  first_word pmts.

(** ** The scan's buffer *)

Definition capBytes : Z := Z.shiftl 4 20.
Definition scan_write (b p : list Z) : list Z :=
  let b := b ++ p in
  if capBytes <? zlen b then
    let over := zlen b - capBytes in
    let over := over - over mod 188 in
    if 0 <? over then drop (Z.to_nat over) b else b
  else b.

(** ** What a channel keeps *)

Record Channel := mkChannel {
  DeviceID : list Z; FieldOrder : list Z; PictureRate : list Z; chVideoCodec : list Z; chAudioCodec : list Z;
}.
Record feed := mkFeed { channel : Channel; source : Source; headerOrder : list Z }.

(** A source with some fields set, the others kept. *)
Definition with_rate (s : Source) (rate : list Z) : Source :=
  mkSource (VideoCodec s) (AudioCodec s) (Progressive s) (Film s) (UserAgent s) (Referrer s) (AudioPID s) (Lace s) (HD s)
    (Extras s) (AudioChannels s) (Height s) rate (AudioLang s).
Definition with_scan (s : Source) (progressive film lace : bool) : Source :=
  mkSource (VideoCodec s) (AudioCodec s) progressive film (UserAgent s) (Referrer s) (AudioPID s) lace (HD s)
    (Extras s) (AudioChannels s) (Height s) (Rate s) (AudioLang s).
Definition with_codecs (s : Source) (video audio : list Z) : Source :=
  mkSource video audio (Progressive s) (Film s) (UserAgent s) (Referrer s) (AudioPID s) (Lace s) (HD s)
    (Extras s) (AudioChannels s) (Height s) (Rate s) (AudioLang s).

(** What goes to the database. *)
Inductive saved :=
  | SetChannelPictureRate (rate : list Z)
  | SetFieldOrder (order : list Z)
  | SetChannelCodecs (video audio : list Z).

(** A locked function: the feed, what it saves, whether the graph changed. *)
Definition outcome : Type := feed * list saved * bool.

Definition storedFieldOrder (order : list Z) : list Z := if says order "film" then lit "tt" else order.
Definition interlacedOrder (order : list Z) : bool :=
  (says order "tt" || says order "bb" || says order "tb" || says order "bt")%bool.
Definition learnedAny (codecs rate : bool) : bool := (codecs || rate)%bool.

Definition set_source (f : feed) (s : Source) : feed := mkFeed (channel f) s (headerOrder f).
Definition set_channel (f : feed) (c : Channel) : feed := mkFeed c (source f) (headerOrder f).
Definition set_header (f : feed) (o : list Z) : feed := mkFeed (channel f) (source f) o.

Definition takeRateLocked (f : feed) (rate : list Z) : outcome :=
  let s := source f in
  let c := channel f in
  if (says rate "" || bytes_equal rate (Rate s))%bool then (f, [], false) else
  let changed := negb (Bool.eqb (FiftyHz rate) (FiftyHz (Rate s))) in
  let f := set_source f (with_rate s rate) in
  if bytes_equal rate (PictureRate c) then (f, [], changed)
  else (set_channel f (mkChannel (DeviceID c) (FieldOrder c) rate (chVideoCodec c) (chAudioCodec c)),
        [SetChannelPictureRate rate], changed).

Definition setScanLocked (f : feed) (order : list Z) : outcome :=
  if says order "" then (f, [], false) else
  let s := source f in
  let c := channel f in
  let stored := storedFieldOrder order in
  let progressive := says stored "progressive" in
  let film := says order "film" in
  let lace := (interlacedOrder stored && negb film)%bool in
  let changed := (negb (Bool.eqb (Progressive s) progressive) || negb (Bool.eqb (Film s) film) || negb (Bool.eqb (Lace s) lace))%bool in
  let f := set_source f (with_scan s progressive film lace) in
  if (negb (says stored "") && negb (bytes_equal stored (FieldOrder c)))%bool then
    (set_channel f (mkChannel (DeviceID c) stored (PictureRate c) (chVideoCodec c) (chAudioCodec c)), [SetFieldOrder stored], changed)
  else (f, [], changed).

(** A packet scan already on the feed wins over a probe's. *)
Definition applyProbeLocked (f : feed) (order : list Z) : outcome :=
  if negb (says (headerOrder f) "") then (f, [], false) else setScanLocked f order.

(** The channel's row after a write, [store/dvr.go]. An empty codec keeps what
    is stored. *)
Definition store_saved (c : Channel) (s : saved) : Channel :=
  match s with
  | SetFieldOrder order => mkChannel (DeviceID c) order (PictureRate c) (chVideoCodec c) (chAudioCodec c)
  | SetChannelPictureRate rate => mkChannel (DeviceID c) (FieldOrder c) rate (chVideoCodec c) (chAudioCodec c)
  | SetChannelCodecs video audio =>
      mkChannel (DeviceID c) (FieldOrder c) (PictureRate c)
        (if says video "" then chVideoCodec c else video) (if says audio "" then chAudioCodec c else audio)
  end.

Section codecs.
Context `{Unicode}.

Definition lineupCodec (raw : list Z) : list Z :=
  let c := codecName raw in
  if says c "mpeg2" then lit "MPEG2" else if says c "h264" then lit "H264" else if says c "hevc" then lit "HEVC"
  else if says c "ac3" then lit "AC3" else if says c "eac3" then lit "EAC3" else if says c "aac" then lit "AAC"
  else if says c "mp2" then lit "MP2" else if says c "ac4" then lit "AC4" else [].

Definition linkChannel (c : Channel) : bool := has_prefix (lit "src-") (DeviceID c).

(** A value read replaces another one, unless it says nothing. *)
Definition learns (new old : list Z) : bool := (negb (says new "") && negb (bytes_equal new old))%bool.
Definition learn (new old : list Z) : list Z := if learns new old then new else old.

Definition learnCodecsLocked (f : feed) (video audio : list Z) : outcome :=
  let s := source f in
  let c := channel f in
  if negb (linkChannel c) then (f, [], false) else
  let video := lineupCodec video in
  let audio := lineupCodec audio in
  let changed := (learns video (VideoCodec s) || learns audio (AudioCodec s))%bool in
  let s := with_codecs s (learn video (VideoCodec s)) (learn audio (AudioCodec s)) in
  let saveVideo := if learns video (chVideoCodec c) then video else [] in
  let saveAudio := if learns audio (chAudioCodec c) then audio else [] in
  let c := mkChannel (DeviceID c) (FieldOrder c) (PictureRate c) (learn video (chVideoCodec c)) (learn audio (chAudioCodec c)) in
  (mkFeed c s (headerOrder f),
   if (negb (says saveVideo "") || negb (says saveAudio ""))%bool then [SetChannelCodecs saveVideo saveAudio] else [], changed).

(** [saveCodecs]: what a probe read after its feed was gone. *)
Definition saveCodecs (c : Channel) (video audio : list Z) : list saved :=
  if negb (linkChannel c) then [] else
  let video := lineupCodec video in
  let audio := lineupCodec audio in
  let video := if bytes_equal video (chVideoCodec c) then [] else video in
  let audio := if bytes_equal audio (chAudioCodec c) then [] else audio in
  if (negb (says video "") || negb (says audio ""))%bool then [SetChannelCodecs video audio] else [].

(** [applyLateLocked]: the last part says whether the renditions are rebuilt. *)
Definition applyLateLocked (f : feed) (order video rate : list Z) : outcome :=
  let ' (f, s1, codecs) := learnCodecsLocked f video [] in
  let ' (f, s2, clock) := takeRateLocked f rate in
  let rebuild := learnedAny codecs clock in
  if (negb (says order "") && says (headerOrder f) "")%bool then
    let ' (f, s3, scan) := setScanLocked (set_header f order) order in
    (f, s1 ++ s2 ++ s3, (scan || rebuild)%bool)
  else (f, s1 ++ s2, rebuild).
End codecs.

(** ** No bytes make the scan panic *)

Lemma from_sync_ok data : bytes_ok data -> bytes_ok (from_sync data).
Proof. intros Hd. unfold from_sync. case_match; [by apply bytes_ok_drop | done]. Qed.

Lemma first_video_total secs : Forall bytes_ok secs -> returns (first_video secs) (fun _ => True).
Proof.
  induction 1 as [| sec secs Hs _ IH]; cbn [first_video]; [done |]. case_match; [done |]. do 2 go_step.
  case_match; [done |]. apply returns_bind. apply pmtVideo_total; [done |]. intros n. by case_match.
Qed.

Lemma first_word_total secs : Forall bytes_ok secs -> returns (first_word secs) (fun _ => True).
Proof.
  induction 1 as [| sec secs Hs _ IH]; cbn [first_word]; [done |]. case_match; [done |]. do 2 go_step.
  case_match; [done |]. apply returns_bind. eapply returns_mono; [apply streams_of_total; [done | lia] |].
  intros ss _. by case_match.
Qed.

Lemma programVideo_total data program : bytes_ok data -> returns (programVideo data program) (fun _ => True).
Proof.
  intros Hd. unfold programVideo. apply returns_bind. eapply returns_mono; [by apply sections_total |]. intros pats Hp.
  apply returns_bind. eapply returns_mono; [by apply first_pmt_total |]. intros pid _. case_match; [done |].
  apply returns_bind. eapply returns_mono; [by apply sections_total |]. intros pmts Hm.
  apply returns_bind. eapply returns_mono; [by apply first_video_total |]. done.
Qed.

Lemma elementary_total data pid : bytes_ok data -> returns (elementary data pid) bytes_ok.
Proof.
  intros Hd. unfold elementary. apply returns_bind. eapply returns_mono; [by apply eachPacket_total |].
  intros calls Hc. generalize (bytes_ok_nil : bytes_ok []). generalize (@nil Z).
  induction Hc as [| [start payload] calls Hp _ IH]; intros es Hes; cbn [elementary_fold]; [done |].
  apply returns_bind. destruct start.
  - apply pesPayload_total; [apply Hp |]. intros p Hk. by apply IH, bytes_ok_app.
  - by apply IH, bytes_ok_app.
Qed.

(** C37. Whatever bytes a tuner sends, damaged or not, the scan, the picture's
    facts and the codec of a program are read to an answer: no panic, and no loop
    that does not end. *)
Theorem scan_total (data : list Z) (program : Z) (Hd : bytes_ok data) :
  (exists order, scanType data program = Ok order) /\
  (exists facts, pictureFacts data program = Ok facts) /\
  (exists codec, VideoCodecOf data program = Ok codec).
Proof.
  pose proof (from_sync_ok data Hd) as Hs. unfold scanType, pictureFacts, VideoCodecOf. cbv zeta.
  assert (forall A (m : res A), returns m (fun _ => True) -> exists a, m = Ok a) as Hex.
  { intros A m Hm. apply returns_exists in Hm as (a & -> & _). by exists a. }
  split_and!; apply Hex, returns_bind.
  - eapply returns_mono; [by apply programVideo_total |]. intros [[pmt video] kind] _. case_match; [done |].
    apply returns_bind. eapply returns_mono; [by apply elementary_total |]. intros es Hes.
    repeat (case_match; [solve [by apply mpeg2Scan_total | by apply h264Scan_total
      | apply returns_bind; eapply returns_mono; [by apply hevcPicture_total | done]] |]). done.
  - eapply returns_mono; [by apply programVideo_total |]. intros [[pmt video] kind] _. case_match; [done |].
    apply returns_bind. eapply returns_mono; [by apply elementary_total |]. intros es Hes.
    repeat (case_match; [solve [by apply mpeg2Picture_total | by apply h264Picture_total | by apply hevcPicture_total] |]). done.
  - eapply returns_mono; [by apply sections_total |]. intros pats Hp.
    apply returns_bind. eapply returns_mono; [by apply first_pmt_total |]. intros pid _. case_match; [done |].
    apply returns_bind. eapply returns_mono; [by apply sections_total |]. intros pmts Hm. by apply first_word_total.
Qed.

Lemma scan_total_witness :
  (exists order, scanType [0x47; 0; 0; 0x10] 3 = Ok order) /\
  (exists facts, pictureFacts [0x47; 0; 0; 0x10] 3 = Ok facts) /\
  (exists codec, VideoCodecOf [0x47; 0; 0; 0x10] 3 = Ok codec).
Proof. apply (scan_total [0x47; 0; 0; 0x10] 3). bytes_dec. Defined.

(** ** The buffer stays aligned *)

Definition aligned_tail (b all : list Z) : Prop :=
  exists k : nat, b = drop (188 * k) all /\ (188 * k <= length all)%nat /\ zlen b < capBytes + 188.

Lemma scan_write_aligned b all p : aligned_tail b all -> aligned_tail (scan_write b p) (all ++ p).
Proof.
  intros (k & -> & Hk & Hb). unfold scan_write. rewrite <- drop_app_le by done.
  assert (0 <= capBytes) by done.
  destruct (Z.ltb_spec capBytes (zlen (drop (188 * k) (all ++ p)))) as [Hc |].
  2: { exists k. rewrite length_app. split_and!; [done | lia | lia]. }
  rewrite zlen_drop in *. set (n := Z.max 0 (zlen (all ++ p) - Z.of_nat (188 * k))) in *.
  assert (n = zlen (all ++ p) - Z.of_nat (188 * k)) as En by (unfold n; rewrite zlen_app; pose proof (zlen_nonneg p); unfold zlen in *; lia).
  destruct (Z.ltb_spec 0 (n - capBytes - (n - capBytes) mod 188)).
  - exists (k + Z.to_nat ((n - capBytes) / 188))%nat. unfold capBytes in *. change (Z.shiftl 4 20) with 4194304 in *. clearbody n.
    assert (Z.of_nat (length (all ++ p)) = zlen (all ++ p)) as El by done. split_and!.
    + rewrite drop_drop. f_equal. dlia.
    + dlia.
    + rewrite drop_drop, zlen_drop. dlia.
  - exists k. unfold capBytes in *. change (Z.shiftl 4 20) with 4194304 in *. rewrite length_app, zlen_drop. fold n.
    clearbody n. split_and!; [done | lia | dlia].
Qed.

(** The scan's buffer is the end of what was written, short of a multiple of
    188 bytes, so packets stay where the walker looks for them, and never grows
    past its cap by a packet. *)
Theorem scan_buffer_aligned (writes : list (list Z)) :
  exists k : nat, fold_left scan_write writes [] = drop (188 * k) (concat writes) /\
    zlen (fold_left scan_write writes []) < capBytes + 188.
Proof.
  assert (forall b all, aligned_tail b all -> aligned_tail (fold_left scan_write writes b) (all ++ concat writes)) as H.
  { induction writes as [| p writes IH]; intros b all Hb; cbn [fold_left concat]; [by rewrite app_nil_r |].
    rewrite app_assoc. by apply IH, scan_write_aligned. }
  destruct (H [] []) as (k & Hk & _ & Hc); [by exists 0%nat |]. by exists k.
Qed.

(** ** What is learned *)

(** What the encode's graph depends on: the codecs, the scan, the clock. *)
Definition codecs_of (f : feed) : list Z * list Z := (VideoCodec (source f), AudioCodec (source f)).
Definition scan_of (f : feed) : bool * bool * bool := (Progressive (source f), Film (source f), Lace (source f)).
Definition clock_of (f : feed) : bool := FiftyHz (Rate (source f)).
Definition graph_of (f : feed) : list Z * list Z * (bool * bool * bool) * bool := (codecs_of f, scan_of f, clock_of f).

Definition kind (s : saved) : nat :=
  match s with SetChannelPictureRate _ => 0 | SetFieldOrder _ => 1 | SetChannelCodecs _ _ => 2 end.
Definition row (c : Channel) (l : list saved) : Channel := fold_left store_saved l c.

Lemma store_comm c x y : kind x <> kind y -> store_saved (store_saved c x) y = store_saved (store_saved c y) x.
Proof. by destruct x, y. Qed.

(** The order of writes of different kinds does not matter. *)
Lemma row_any_order l l' : l ≡ₚ l' -> NoDup (map kind l) -> forall c, row c l = row c l'.
Proof.
  unfold row. induction 1 as [| x l l' _ IH | x y l | l1 l2 l3 H12 IH1 _ IH2]; intros Hn c; cbn [map fold_left] in *.
  - done.
  - apply IH. by apply NoDup_cons in Hn as [_ ?].
  - f_equal. apply store_comm. apply NoDup_cons in Hn as [Hn _]. set_solver.
  - rewrite IH1 by done. apply IH2. by rewrite <- H12.
Qed.

(** A locked function's outcome on one part of the graph: it says whether the
    part changed, and what it saves is what the channel changed. *)
Record part_ok {P} (part : feed -> P) (f : feed) (out : outcome) (k : nat) : Prop := mkPart {
  part_changed : snd out = true <-> part (fst (fst out)) <> part f;
  part_row : row (channel f) (snd (fst out)) = channel (fst (fst out));
  part_kinds : map kind (snd (fst out)) = [] \/ map kind (snd (fst out)) = [k];
  part_header : headerOrder (fst (fst out)) = headerOrder f;
}.

Lemma learn_changed new old : learns new old = true <-> learn new old <> old.
Proof.
  unfold learn. destruct (learns new old) eqn:E; [| done]. unfold learns, bytes_equal in E.
  apply andb_true_iff in E as [_ E]. apply negb_true_iff, bool_decide_eq_false in E. done.
Qed.

Lemma eqb_changed a b : negb (Bool.eqb a b) = true <-> a <> b.
Proof. destruct a, b; naive_solver. Qed.

Lemma take_rate_ok f rate : part_ok clock_of f (takeRateLocked f rate) 0 /\
  codecs_of (fst (fst (takeRateLocked f rate))) = codecs_of f /\ scan_of (fst (fst (takeRateLocked f rate))) = scan_of f.
Proof.
  unfold takeRateLocked. destruct (_ || _)%bool eqn:E; [split; [split | ]; cbn; auto; naive_solver |].
  assert (negb (Bool.eqb (FiftyHz rate) (FiftyHz (Rate (source f)))) = true <-> FiftyHz rate <> FiftyHz (Rate (source f)))
    as Hc by apply eqb_changed.
  destruct (bytes_equal rate (PictureRate (channel f))); (split; [split | done]); cbn; auto.
Qed.

Lemma set_scan_ok f order : part_ok scan_of f (setScanLocked f order) 1 /\
  codecs_of (fst (fst (setScanLocked f order))) = codecs_of f /\ clock_of (fst (fst (setScanLocked f order))) = clock_of f.
Proof.
  unfold setScanLocked. destruct (says order "") eqn:E; [split; [split |]; cbn; auto; naive_solver |]. cbv zeta.
  set (p := says _ "progressive"). set (m := says order "film"). set (l := (interlacedOrder _ && _)%bool).
  assert (negb (Bool.eqb (Progressive (source f)) p) || negb (Bool.eqb (Film (source f)) m) || negb (Bool.eqb (Lace (source f)) l) = true
    <-> (p, m, l) <> scan_of f)%bool as Hc.
  { rewrite !orb_true_iff, !eqb_changed. unfold scan_of. destruct (source f) as [? ? a b c ?]. cbn.
    destruct a, b, c, p, m, l; naive_solver. }
  case_match; (split; [split | done]); cbn; auto.
Qed.

Lemma learn_codecs_ok `{Unicode} f video audio : part_ok codecs_of f (learnCodecsLocked f video audio) 2 /\
  scan_of (fst (fst (learnCodecsLocked f video audio))) = scan_of f /\
  clock_of (fst (fst (learnCodecsLocked f video audio))) = clock_of f.
Proof.
  unfold learnCodecsLocked. destruct (linkChannel (channel f)); cbn [negb]; [| split; [split |]; cbn; auto; naive_solver].
  cbv zeta. set (v := lineupCodec video). set (a := lineupCodec audio).
  assert (learns v (VideoCodec (source f)) || learns a (AudioCodec (source f)) = true <->
    (learn v (VideoCodec (source f)), learn a (AudioCodec (source f))) <> codecs_of f)%bool as Hc.
  { rewrite orb_true_iff, !learn_changed. unfold codecs_of. split; [intros [Hn | Hn] [= ? ?]; done |].
    intros Hn. destruct (decide (learn v (VideoCodec (source f)) = VideoCodec (source f))); [| by left].
    right. intros E. apply Hn. by f_equal. }
  split; [split; cbn [fst snd source channel]; [exact Hc | | case_match; auto | done] | done].
  assert (forall x old, (if says (if learns x old then x else []) "" then old else if learns x old then x else []) = learn x old) as Hl.
  { intros x old. unfold learn. destruct (learns x old) eqn:E; [| done]. unfold learns in E.
    apply andb_true_iff in E as [E _]. apply negb_true_iff in E. by rewrite E. }
  case_match eqn:E.
  - cbn. by rewrite !Hl.
  - apply orb_false_iff in E as [E1 E2]. apply negb_false_iff in E1, E2. specialize (Hl v (chVideoCodec (channel f))) as H1.
    specialize (Hl a (chAudioCodec (channel f))) as H2. rewrite E1 in H1. rewrite E2 in H2. cbn. rewrite <- H1, <- H2.
    by destruct (channel f).
Qed.

(** What a read after the encode started learns is applied whole: the
    renditions are rebuilt exactly when the codecs, the scan or the clock of the
    encode's graph changed, and what is written to the database, in whatever order the
    writes land, makes the channel's row what the channel is in memory. *)
Theorem late_facts_applied `{Unicode} (f : feed) (order video rate : list Z) :
  let ' (f', saves, rebuild) := applyLateLocked f order video rate in
  (rebuild = true <-> graph_of f' <> graph_of f) /\
  (forall l, saves ≡ₚ l -> row (channel f) l = channel f').
Proof.
  unfold applyLateLocked. pose proof (learn_codecs_ok f video []) as (P1 & A1 & B1).
  destruct (learnCodecsLocked f video []) as [[f1 s1] c1]. cbn [fst snd] in *.
  pose proof (take_rate_ok f1 rate) as (P2 & A2 & B2). destruct (takeRateLocked f1 rate) as [[f2 s2] c2]. cbn [fst snd] in *.
  destruct P1 as [H1 R1 K1 _], P2 as [H2 R2 K2 _]. cbn [fst snd] in *.
  assert (forall (l l' l2 : list saved), map kind l = [] \/ map kind l = [2%nat] -> map kind l' = [] \/ map kind l' = [0%nat] ->
    map kind l2 = [] \/ map kind l2 = [1%nat] -> NoDup (map kind (l ++ l' ++ l2))) as Hnd.
  { intros l l' l2 [Ha | Ha] [Hb | Hb] [Hc | Hc]; rewrite !map_app, Ha, Hb, Hc; by apply (bool_decide_eq_true (NoDup _)). }
  assert (graph_of f2 <> graph_of f <-> codecs_of f1 <> codecs_of f \/ clock_of f2 <> clock_of f1) as Hg.
  { unfold graph_of. rewrite A2, B2, A1, B1. split.
    - intros Hn. destruct (decide (codecs_of f1 = codecs_of f)) as [Ec |]; [| by left]. right. intros E. apply Hn. by rewrite Ec, E.
    - intros [Hn | Hn] E; apply Hn; [exact (f_equal (fun x => fst (fst x)) E) | exact (f_equal snd E)]. }
  unfold learnedAny. destruct (negb (says order "") && says (headerOrder f2) "")%bool eqn:E.
  - pose proof (set_scan_ok (set_header f2 order) order) as (P3 & A3 & B3).
    destruct (setScanLocked (set_header f2 order) order) as [[f3 s3] c3]. cbn [fst snd] in *.
    destruct P3 as [H3 R3 K3 _]. cbn [fst snd] in *.
    change (codecs_of (set_header f2 order)) with (codecs_of f2) in *. change (clock_of (set_header f2 order)) with (clock_of f2) in *.
    change (scan_of (set_header f2 order)) with (scan_of f2) in *. change (channel (set_header f2 order)) with (channel f2) in *. split.
    + rewrite !orb_true_iff, H1, H2, H3, <- Hg. unfold graph_of. rewrite A3, B3. split.
      * assert (scan_of f2 = scan_of f) as Es by congruence.
        intros [Hn | Hn] Eg; pose proof (f_equal (fun x => snd (fst x)) Eg : scan_of f3 = scan_of f) as E3; [congruence |].
        apply Hn. rewrite E3 in Eg. by rewrite Es.
      * intros Hn. destruct (decide (scan_of f3 = scan_of f2)) as [Es |]; [right; by rewrite <- Es | by left].
    + intros l Hl. rewrite <- (row_any_order _ l Hl) by (apply Hnd; done).
      unfold row in *. by rewrite !fold_left_app, R1, R2, R3.
  - split; [by rewrite orb_true_iff, H1, H2, Hg |].
    intros l Hl. rewrite <- (row_any_order _ l Hl) by (rewrite <- (app_nil_r s2); apply Hnd; auto).
    unfold row in *. by rewrite fold_left_app, R1, R2.
Qed.

#[local] Existing Instance ascii_unicode.
Definition ex_feed : feed := mkFeed (mkChannel (lit "src-1") (lit "tt") (lit "29.97") [] []) (mkSource [] [] false false [] [] 0 true true [] 0 0 (lit "29.97") []) [].

Lemma late_facts_applied_witness :
  let ' (f', saves, rebuild) := applyLateLocked ex_feed (lit "film") (lit "hevc") (lit "25") in
  (rebuild = true <-> graph_of f' <> graph_of ex_feed) /\
  (forall l, saves ≡ₚ l -> row (channel ex_feed) l = channel f').
Proof. exact (late_facts_applied ex_feed (lit "film") (lit "hevc") (lit "25")). Defined.

(** ** Over a tune *)

Inductive event := Late (order video rate : list Z) | Probe (order : list Z) | Scan (order : list Z) | Codecs (video audio : list Z).
Definition tell `{Unicode} (f : feed) (e : event) : outcome :=
  match e with
  | Late order video rate => applyLateLocked f order video rate
  | Probe order => applyProbeLocked f order
  | Scan order => setScanLocked f order
  | Codecs video audio => learnCodecsLocked f video audio
  end.
Fixpoint tune `{Unicode} (f : feed) (es : list event) : feed * list saved :=
  match es with
  | [] => (f, [])
  | e :: es => let ' (f, s, _) := tell f e in let ' (f, t) := tune f es in (f, s ++ t)
  end.

(** A channel is one of progressive, film and laced at most, and film is not
    what is stored of it. *)
Record scanned (f : feed) : Prop := mkScanned {
  one_scan : forall a b, [Progressive (source f); Film (source f); Lace (source f)] !! a = Some true ->
    [Progressive (source f); Film (source f); Lace (source f)] !! b = Some true -> a = b;
  film_free : FieldOrder (channel f) <> lit "film";
}.
Definition no_film (s : saved) : Prop := s <> SetFieldOrder (lit "film").

Lemma stored_no_film order : storedFieldOrder order <> lit "film".
Proof. unfold storedFieldOrder. destruct (says order "film") eqn:E; [done |]. intros ->. by rewrite (proj2 (says_spec _ _) eq_refl) in E. Qed.

Lemma flags_exclusive order (p := says (storedFieldOrder order) "progressive") (m := says order "film")
    (l := (interlacedOrder (storedFieldOrder order) && negb m)%bool) a b :
  [p; m; l] !! a = Some true -> [p; m; l] !! b = Some true -> a = b.
Proof.
  assert (p = true -> m = false /\ l = false) as Hp.
  { unfold p, m, l. rewrite says_spec. intros E. assert (says order "film" = false) as Em.
    { destruct (says order "film") eqn:F; [| done]. unfold storedFieldOrder in E. by rewrite F in E. }
    split; [done |]. unfold interlacedOrder. by rewrite E. }
  assert (m = true -> l = false) as Hm by (intros E; unfold l; rewrite E; apply andb_false_r).
  clearbody p l. clearbody m.
  destruct a as [| [| [|]]], b as [| [| [|]]]; cbn; intros; simplify_eq; naive_solver.
Qed.

Lemma set_scan_scanned f order : scanned f -> scanned (fst (fst (setScanLocked f order))) /\ Forall no_film (snd (fst (setScanLocked f order))).
Proof.
  intros Hf. unfold setScanLocked. destruct (says order ""); [by split |]. cbv zeta.
  assert (no_film (SetFieldOrder (storedFieldOrder order))) as Hn by (intros [= E]; by apply stored_no_film in E).
  case_match; cbn [fst snd]; (split; [split; cbn; [apply flags_exclusive |] | repeat constructor]); try done.
  - apply stored_no_film.
  - apply Hf.
Qed.

Lemma take_rate_scanned f rate : scanned f -> scanned (fst (fst (takeRateLocked f rate))) /\ Forall no_film (snd (fst (takeRateLocked f rate))).
Proof.
  intros [Ho Hf]. unfold takeRateLocked. case_match; [by split |]. case_match; (split; [by split | repeat constructor; done]).
Qed.

Lemma learn_scanned `{Unicode} f video audio : scanned f ->
  scanned (fst (fst (learnCodecsLocked f video audio))) /\ Forall no_film (snd (fst (learnCodecsLocked f video audio))).
Proof.
  intros [Ho Hf]. unfold learnCodecsLocked. case_match; [by split |]. cbn [fst snd]. split; [by split |].
  case_match; repeat constructor; done.
Qed.

(** Through any sequence of scans, probes and late headers a channel shows
    its picture as one of progressive, film and interlaced at most, film is never
    what is stored of the station (the next program is scanned again), and once a
    header has named the scan a probe changes nothing. *)
Theorem film_is_not_stored `{Unicode} (f : feed) (es : list event) (Hf : scanned f) :
  let ' (f', saves) := tune f es in
  scanned f' /\ Forall no_film saves /\
  (forall order, headerOrder f' <> [] -> tell f' (Probe order) = (f', [], false)).
Proof.
  revert f Hf. induction es as [| e es IH]; intros f Hf; cbn [tune].
  { split_and!; [done | constructor |]. intros order Hh. cbn [tell]. unfold applyProbeLocked.
    destruct (says (headerOrder f) "") eqn:E; [by apply says_spec in E | done]. }
  assert (scanned (fst (fst (tell f e))) /\ Forall no_film (snd (fst (tell f e)))) as [He Hs].
  { destruct e as [order video rate | order | order | video audio]; cbn [tell].
    - unfold applyLateLocked. pose proof (learn_scanned f video [] Hf) as [H1 S1].
      destruct (learnCodecsLocked f video []) as [[f1 s1] c1]. cbn [fst snd] in *.
      pose proof (take_rate_scanned f1 rate H1) as [H2 S2]. destruct (takeRateLocked f1 rate) as [[f2 s2] c2]. cbn [fst snd] in *.
      assert (scanned (set_header f2 order)) as H3 by (destruct H2; by split).
      pose proof (set_scan_scanned (set_header f2 order) order H3) as [H4 S4].
      destruct (setScanLocked (set_header f2 order) order) as [[f3 s3] c3]. cbn [fst snd] in *.
      case_match; cbn [fst snd]; (split; [done |]); rewrite ?Forall_app; auto.
    - unfold applyProbeLocked. case_match; [by split | by apply set_scan_scanned].
    - by apply set_scan_scanned.
    - by apply learn_scanned. }
  destruct (tell f e) as [[f1 s1] c1]. cbn [fst snd] in *. specialize (IH f1 He).
  destruct (tune f1 es) as [f2 s2]. destruct IH as (I1 & I2 & I3). split_and!; [done | by apply Forall_app | done].
Qed.

Lemma film_is_not_stored_witness :
  let ' (f', saves) := tune ex_feed [Late (lit "film") [] []; Probe (lit "progressive")] in
  scanned f' /\ Forall no_film saves /\
  (forall order, headerOrder f' <> [] -> tell f' (Probe order) = (f', [], false)).
Proof.
  apply (film_is_not_stored ex_feed). split; [| by vm_compute].
  intros a b. by destruct a as [| [| [|]]], b as [| [| [|]]]; intros; simplify_eq/=.
Defined.
