(* ===== verification/LiveAudio.v ===== *)
(** A program's sound tracks, [server/internal/live/audio.go]: what the program
    map and the AC-3 frames say of them, their roles, and the tracks an encode
    carries.

    Go's map of votes is a finite map, read in any order by [majorityAC3]; the
    tests of its iteration are proved not to depend on it. *)
From S2P Require Import Prelude GoText GoFloat LiveTs LiveRendition.
Local Open Scope Z_scope.
Local Open Scope go_scope.

Definition streamAC3 : Z := 0x81.
Definition streamEAC3 : Z := 0x87.
Definition streamAAC : Z := 0x0f.
Definition streamLATM : Z := 0x11.
Definition streamMP3 : Z := 0x04.
Definition streamMP2 : Z := 0x03.
Definition streamPriv : Z := 0x06.
Definition descISO639 : Z := 0x0A.
Definition descAC3 : Z := 0x81.
Definition descEAC3 : Z := 0x7A.
Definition descRegistration : Z := 0x05.
Definition descExtension : Z := 0x7F.
Definition extAC4 : Z := 0x15.
Definition descCaptionService : Z := 0x86.

Record rawAudio := mkRaw {
  pid : Z; codec : list Z; lang : list Z; audioType : Z; bsmod : Z; channels : Z; measured : bool;
}.

(** ** Descriptors *)

(** The descriptors of a loop: tag and body, and whether the last one ends in it. *)
Fixpoint descriptors (fuel : nat) (b : list Z) (off : Z) : res (list (Z * list Z) * bool) :=
  if zlen b <? off + 2 then Ok ([], true) else
  match fuel with
  | O => NoFuel
  | S fuel =>
      let! t := idx b off in let! n := idx b (off + 1) in
      let off := off + 2 in
      if zlen b <? off + n then Ok ([], false) else
      let! body := slice b off (off + n) in
      let! more := descriptors fuel b (off + n) in
      Ok ((t, body) :: fst more, snd more)
  end.
Definition descs_of (b : list Z) : res (list (Z * list Z) * bool) := descriptors (length b) b 0.

Definition hasDesc (b : list Z) (tag : Z) : res bool :=
  let! ds := descs_of b in Ok (existsb (fun d => fst d =? tag) (fst ds)).

Definition is_ac4 (d : Z * list Z) : bool :=
  (((fst d =? descRegistration) && (4 <=? zlen (snd d)) && bytes_equal (take 4 (snd d)) (lit "AC-4")) ||
   ((fst d =? descExtension) && (match snd d with x :: _ => x =? extAC4 | [] => false end)))%bool.
Definition ac4Desc (b : list Z) : res bool :=
  let! ds := descs_of b in Ok (existsb is_ac4 (fst ds)).

Definition audioCodecOf (streamType : Z) (desc : list Z) : res (option (list Z)) :=
  if streamType =? streamAC3 then Ok (Some (lit "ac3"))
  else if streamType =? streamEAC3 then Ok (Some (lit "eac3"))
  else if ((streamType =? streamAAC) || (streamType =? streamLATM))%bool then Ok (Some (lit "aac"))
  else if ((streamType =? streamMP2) || (streamType =? streamMP3))%bool then Ok (Some (lit "mp2"))
  else if streamType =? streamPriv then
    let! e := hasDesc desc descEAC3 in
    if e then Ok (Some (lit "eac3")) else
    let! a := hasDesc desc descAC3 in
    if a then Ok (Some (lit "ac3")) else
    let! q := ac4Desc desc in
    Ok (if q then Some (lit "ac4") else None)
  else Ok None.

(** [a <= b] of strings *)
Fixpoint str_le (a b : list Z) : bool :=
  match a, b with
  | [], _ => true
  | _ :: _, [] => false
  | x :: a, y :: b => ((x <? y) || ((x =? y) && str_le a b))%bool
  end.

(** [strings.ToLower(string(raw))], as far as letters go: of the runes past ASCII only
    the dotted I (U+0130) and the Kelvin sign (U+212A) have one as lower case. *)
Fixpoint lowered (raw : list Z) : list Z :=
  match raw with
  | 0xC4 :: 0xB0 :: raw => 105 :: lowered raw
  | 0xE2 :: 0x84 :: 0xAA :: raw => 107 :: lowered raw
  | c :: raw => (if is_upper c then c + 32 else c) :: lowered raw
  | [] => []
  end.
Definition cleanLanguage (raw : list Z) : list Z :=
  let code := lowered raw in
  if negb (forallb is_lower code) then []
  else if (one_of ["und"; "zxx"; "mis"; "mul"] code ||
           (str_le (lit "qaa") code && str_le code (lit "qtz")))%bool then []
  else code.

(** The first descriptor a test takes; one that does not end gives up. *)
Definition first_desc (f : Z * list Z -> bool) (b : list Z) : res (option (list Z)) :=
  let! ds := descs_of b in Ok (match List.find f (fst ds) with Some d => Some (snd d) | None => None end).

Definition iso639 (b : list Z) : res (list Z * Z) :=
  let! d := first_desc (fun d => (fst d =? descISO639) && (4 <=? zlen (snd d)))%bool b in
  match d with
  | Some body => let! kind := idx body 3 in Ok (cleanLanguage (take 3 body), kind)
  | None => Ok ([], -1)
  end.

Definition ac3ChannelCount (code : Z) : Z :=
  if bool_decide (code ∈ [0; 2; 9]) then 2
  else if bool_decide (code ∈ [1; 8]) then 1
  else if bool_decide (code ∈ [3; 4; 10]) then 3
  else if bool_decide (code ∈ [5; 6; 11]) then 4
  else if bool_decide (code ∈ [7; 12]) then 5
  else if code =? 13 then 6
  else 0.

Definition ac3Meta (b : list Z) : res (Z * Z) :=
  let! d := first_desc (fun d => (fst d =? descAC3) && (3 <=? zlen (snd d)))%bool b in
  match d with
  | Some body => let! x := idx body 2 in Ok (Z.shiftr x 5, ac3ChannelCount (Z.land (Z.shiftr x 1) 0x0f))
  | None => Ok (-1, 0)
  end.

(** ** The program map *)

(** Its streams: type, PID and descriptors, up to one that does not fit. *)
Fixpoint es_loop (fuel : nat) (sec : list Z) (end_ off : Z) : res (list (Z * Z * list Z)) :=
  if end_ <? off + 5 then Ok [] else
  match fuel with
  | O => NoFuel
  | S fuel =>
      let! kind := idx sec off in
      let! b1 := idx sec (off + 1) in let! b2 := idx sec (off + 2) in
      let! b3 := idx sec (off + 3) in let! b4 := idx sec (off + 4) in
      let esLen := be16 (Z.land b3 0x0f) b4 in
      let es := off + 5 in
      if end_ <? es + esLen then Ok [] else
      let! desc := slice sec es (es + esLen) in
      let! more := es_loop fuel sec end_ (es + esLen) in
      Ok ((kind, be16 (Z.land b1 0x1f) b2, desc) :: more)
  end.
Definition info_of (sec : list Z) : res Z :=
  let! b10 := idx sec 10 in let! b11 := idx sec 11 in Ok (be16 (Z.land b10 0x0f) b11).

Definition raw_of (s : Z * Z * list Z) : res (list rawAudio) :=
  let ' (kind, pid, desc) := s in
  let! codec := audioCodecOf kind desc in
  match codec with
  | None => Ok []
  | Some codec =>
      let! l := iso639 desc in let! m := ac3Meta desc in
      Ok [mkRaw pid codec (fst l) (snd l) (fst m) (snd m) false]
  end.
Fixpoint raws_of (ss : list (Z * Z * list Z)) : res (list rawAudio) :=
  match ss with
  | [] => Ok []
  | s :: ss => let! t := raw_of s in let! ts := raws_of ss in Ok (t ++ ts)
  end.
Definition pmtAudio (sec : list Z) : res (list rawAudio) :=
  let! info := info_of sec in
  let! end_ := sectionEnd sec in
  let! ss := es_loop (length sec) sec end_ (12 + info) in
  raws_of ss.

(** Whether a program map names a caption service. *)
Fixpoint any_caption (ss : list (Z * Z * list Z)) : res bool :=
  match ss with
  | [] => Ok false
  | s :: ss => let! c := hasDesc (snd s) descCaptionService in if c then Ok true else any_caption ss
  end.
Definition map_captions (sec : list Z) : res bool :=
  let! info := info_of sec in
  let! end_ := sectionEnd sec in
  if end_ <? 12 + info then Ok false else
  let! desc := slice sec 12 (12 + info) in
  let! c := hasDesc desc descCaptionService in
  if c then Ok true else
  let! ss := es_loop (length sec) sec end_ (12 + info) in
  any_caption ss.
Fixpoint first_map (secs : list (list Z)) : res (option (list Z)) :=
  match secs with
  | [] => Ok None
  | sec :: secs =>
      if zlen sec <? 12 then first_map secs else
      let! b0 := idx sec 0 in
      if negb (b0 =? 2) then first_map secs else Ok (Some sec)
  end.
Definition HasCaptions (data : list Z) (program : Z) : res bool :=
  let! pats := sections data 0 in
  let! pmtPID := first_pmt pats program in
  if pmtPID =? 0 then Ok false else
  let! pmts := sections data pmtPID in
  let! sec := first_map pmts in
  match sec with Some sec => map_captions sec | None => Ok false end.

(** ** AC-3 frames *)

Definition ac3Frame (p : list Z) : res (option (Z * Z)) :=
  if zlen p <? 7 then Ok None else
  let! p0 := idx p 0 in let! p1 := idx p 1 in
  if (negb (p0 =? 0x0b) || negb (p1 =? 0x77))%bool then Ok None else
  let! p5 := idx p 5 in
  let bsid := Z.shiftr p5 3 in
  if ((bsid =? 0) || (10 <? bsid))%bool then Ok None else
  let! p6 := idx p 6 in
  let acmod := Z.shiftr p6 5 in
  let bit := 3 + (if (negb (Z.land acmod 1 =? 0) && negb (acmod =? 1))%bool then 2 else 0)
               + (if negb (Z.land acmod 4 =? 0) then 2 else 0) + (if acmod =? 2 then 2 else 0) in
  let lfe := if bit <=? 7 then Z.land (Z.shiftr p6 (7 - bit)) 1 else 0 in
  let! width := idx [2; 1; 2; 3; 3; 4; 4; 5] acmod in
  Ok (Some (Z.land p5 0x07, width + lfe)).

Definition votes : Type := gmap (Z * Z) Z.
Definition vote (v : votes) (k : Z * Z) : votes := <[k := default 0 (v !! k) + 1]> v.

(** The frames of a payload; after one the next byte is passed over. *)
Fixpoint frames_loop (fuel : nat) (pay : list Z) (i : Z) (v : votes) : res votes :=
  if zlen pay <? i + 7 then Ok v else
  match fuel with
  | O => NoFuel
  | S fuel =>
      let! rest := slice_from pay i in
      let! f := ac3Frame rest in
      match f with
      | Some k => frames_loop fuel pay (i + 2) (vote v k)
      | None => frames_loop fuel pay (i + 1) v
      end
  end.

(** A packet of a track's PID votes for what its frames say. *)
Definition vote_packet (wanted : Z -> bool) (pkt : list Z) (v : gmap Z votes) : res (gmap Z votes) :=
  let! pid := pid_of pkt in
  let! b3 := idx pkt 3 in
  if Z.land b3 0x10 =? 0 then Ok v else
  let! start := (if negb (Z.land b3 0x20 =? 0) then let! b4 := idx pkt 4 in Ok (4 + 1 + b4) else Ok 4) in
  if (wanted pid && (start <? 188))%bool then
    let! pay := slice pkt start 188 in
    let! w := frames_loop (length pay) pay 0 (default ∅ (v !! pid)) in
    Ok (<[pid := w]> v)
  else Ok v.
Fixpoint vote_loop (fuel : nat) (wanted : Z -> bool) (data : list Z) (v : gmap Z votes) : res (gmap Z votes) :=
  if zlen data <? 188 then Ok v else
  match fuel with
  | O => NoFuel
  | S fuel =>
      let! aligned := tsAligned data 0 in
      if negb aligned then vote_loop fuel wanted (drop 1 data) v else
      let! pkt := slice data 0 188 in
      let! v := vote_packet wanted pkt v in
      vote_loop fuel wanted (drop 188 data) v
  end.

(** [majorityAC3] over the votes in an order. *)
Record tally := mkTally { best : Z; second : Z; key : Z * Z }.
Definition count (t : tally) (e : (Z * Z) * Z) : tally :=
  if best t <? snd e then mkTally (snd e) (best t) (fst e)
  else if second t <? snd e then mkTally (best t) (snd e) (key t) else t.
Definition majority (l : list ((Z * Z) * Z)) : option (Z * Z) :=
  let t := fold_left count l (mkTally 0 0 (0, 0)) in
  if ((best t <? 2) || (best t <=? second t))%bool then None else Some (key t).
Definition majorityAC3 (v : votes) : option (Z * Z) := majority (map_to_list v).

(** The last AC-3 track of a PID is the one measured. *)
Definition ac3_tracks (tracks : list rawAudio) : list (nat * rawAudio) :=
  List.filter (fun t => says (codec (snd t)) "ac3") (imap pair tracks).
Definition last_of_pid (tracks : list rawAudio) (p : Z) : option nat :=
  match List.find (fun t => pid (snd t) =? p) (reverse (ac3_tracks tracks)) with Some t => Some (fst t) | None => None end.
Definition measure_one (v : gmap Z votes) (tracks : list rawAudio) (i : nat) (t : rawAudio) : rawAudio :=
  if (says (codec t) "ac3" && bool_decide (last_of_pid tracks (pid t) = Some i))%bool then
    match majorityAC3 (default ∅ (v !! pid t)) with
    | Some (b, c) => mkRaw (pid t) (codec t) (lang t) (audioType t) b c true
    | None => t
    end
  else t.
Definition measureAC3 (data : list Z) (tracks : list rawAudio) : res (list rawAudio) :=
  if ((match ac3_tracks tracks with [] => true | _ => false end) || (zlen data <? 188))%bool then Ok tracks else
  let! v := vote_loop (length data) (fun p => bool_decide (is_Some (last_of_pid tracks p))) data ∅ in
  Ok (imap (measure_one v tracks) tracks).

(** ** Roles *)

Definition describedAudio (t : rawAudio) : bool := ((bsmod t =? 2) || (audioType t =? 3))%bool.
Definition completeMain (t : rawAudio) : bool := ((bsmod t <=? 0) && negb (describedAudio t))%bool.
Definition fullMix (t : rawAudio) : bool := ((bsmod t =? 0) && negb (describedAudio t))%bool.
Definition sameMix (t : rawAudio) (primary : list Z) : bool :=
  (says primary "" || bytes_equal (lang t) primary || says (lang t) "")%bool.

(** The widest of the complete mains, the first of those. *)
Fixpoint widest (ts : list rawAudio) (primary : list Z) (i best bestCh : Z) : Z :=
  match ts with
  | [] => best
  | t :: ts =>
      if negb (fullMix t && sameMix t primary) then widest ts primary (i + 1) best bestCh
      else if ((best <? 0) || (bestCh <? channels t))%bool then widest ts primary (i + 1) i (channels t)
      else widest ts primary (i + 1) best bestCh
  end.
Fixpoint unlabeled (ts : list rawAudio) (primary : list Z) (i : Z) : Z :=
  match ts with
  | [] => -1
  | t :: ts =>
      if (describedAudio t || negb (completeMain t) || negb (sameMix t primary))%bool then unlabeled ts primary (i + 1) else i
  end.
Definition fullestMain (ts : list rawAudio) (primary : list Z) : Z :=
  let best := widest ts primary 0 (-1) (-1) in
  if 0 <=? best then best else unlabeled ts primary 0.

Definition languageName (code : list Z) : list Z :=
  if says code "eng" then lit "English" else if says code "spa" then lit "Spanish"
  else if (says code "fra" || says code "fre")%bool then lit "French"
  else if (says code "deu" || says code "ger")%bool then lit "German"
  else if (says code "zho" || says code "chi")%bool then lit "Chinese"
  else if says code "kor" then lit "Korean" else if says code "jpn" then lit "Japanese" else [].
Definition or_else (name : list Z) (s : string) : list Z := if says name "" then lit s else name.
Definition audioLabel (role lang : list Z) : list Z :=
  let name := languageName lang in
  if says role "language" then or_else name "Second language"
  else if says role "described" then lit "Described video"
  else or_else name "Main".

(** The language of the main sound: English where a complete main is. *)
Definition primary_of (ts : list rawAudio) : list Z :=
  if existsb (fun t => completeMain t && says (lang t) "eng")%bool ts then lit "eng"
  else match List.find completeMain ts with Some t => lang t | None => [] end.
Definition role_of (primary : list Z) (mainAt : Z) (i : nat) (t : rawAudio) : list Z :=
  if describedAudio t then lit "described"
  else if Z.of_nat i =? mainAt then lit "main"
  else if (fullMix t && sameMix t primary)%bool then lit "main"
  else if (negb (says (lang t) "") && negb (bytes_equal (lang t) primary))%bool then lit "language"
  else lit "described".
Definition track_of (primary : list Z) (mainAt : Z) (i : nat) (t : rawAudio) : AudioTrack :=
  let role := role_of primary mainAt i t in
  mkTrack (pid t) (lang t) role (codec t) (audioLabel role (lang t)) (channels t) (measured t).

(** The first track that is not described takes the main one's place. *)
Definition as_main (t : AudioTrack) : AudioTrack :=
  mkTrack (PID t) (Language t) (lit "main") (Codec t) (audioLabel (lit "main") (Language t)) (Channels t) (Measured t).
Fixpoint promote (ts : list AudioTrack) : list AudioTrack :=
  match ts with
  | [] => []
  | t :: ts => if says (Role t) "described" then t :: promote ts else as_main t :: ts
  end.
Definition assignRoles (ts : list rawAudio) : list AudioTrack :=
  let primary := primary_of ts in
  let mainAt := fullestMain ts primary in
  let out := imap (track_of primary mainAt) ts in
  if mainAt <? 0 then promote out else out.

(** [AudioTracks] *)
Fixpoint first_tracks (data : list Z) (secs : list (list Z)) : res (list AudioTrack) :=
  match secs with
  | [] => Ok []
  | sec :: secs =>
      if zlen sec <? 12 then first_tracks data secs else
      let! b0 := idx sec 0 in
      if negb (b0 =? 2) then first_tracks data secs else
      let! tracks := pmtAudio sec in
      match tracks with
      | [] => first_tracks data secs
      | _ => let! tracks := measureAC3 data tracks in Ok (assignRoles tracks)
      end
  end.
Definition AudioTracks (data : list Z) (program : Z) : res (list AudioTrack) :=
  let! pats := sections data 0 in
  let! pmtPID := first_pmt pats program in
  if pmtPID =? 0 then Ok [] else
  let! pmts := sections data pmtPID in
  first_tracks data pmts.

(** ** Choosing a track *)

Fixpoint pick (role : list Z) (ts : list AudioTrack) (best : option AudioTrack) : option AudioTrack :=
  match ts with
  | [] => best
  | t :: ts =>
      if negb (bytes_equal (Role t) role) then pick role ts best else
      match best with
      | Some b => if (says role "main" && (Channels b <? Channels t))%bool then pick role ts (Some t) else pick role ts best
      | None => pick role ts (Some t)
      end
  end.
Definition PickTrack (ts : list AudioTrack) (role : list Z) : option AudioTrack :=
  let role := if (says role "" || says role "auto")%bool then lit "main" else role in
  match pick role ts None with
  | Some t => Some t
  | None => if negb (says role "main") then None else head ts
  end.

Definition mainCodec (ts : list AudioTrack) : list Z :=
  match PickTrack ts (lit "main") with Some t => Codec t | None => [] end.

Definition AudioLayout (ts : list AudioTrack) : list Z :=
  match PickTrack ts (lit "main") with
  | None => []
  | Some t => if 4 <=? Channels t then lit "surround" else if 2 <=? Channels t then lit "stereo"
              else if Channels t =? 1 then lit "mono" else []
  end.

Definition audioReady (ts : list AudioTrack) : bool :=
  let mains := List.filter (fun t => says (Role t) "main") ts in
  let measured := List.filter Measured mains in
  if zlen mains <? 2 then true else zlen measured =? zlen mains.
Definition allMeasured (ts : list AudioTrack) : bool :=
  (forallb (fun t => negb (says (Codec t) "ac3" && negb (Measured t))) ts && (0 <? zlen ts))%bool.

(** A station whose two languages are labeled the wrong way round. *)
Definition with_sound (t s : AudioTrack) : AudioTrack :=
  mkTrack (PID s) (Language t) (Role t) (Codec s) (Label t) (Channels s) (Measured s).
Fixpoint index_of (f : AudioTrack -> bool) (ts : list AudioTrack) : option nat :=
  match ts with [] => None | t :: ts => if f t then Some O else S <$> index_of f ts end.
Definition swapSounds (ts : list AudioTrack) : list AudioTrack :=
  match index_of (fun t => says (Role t) "main") ts, index_of (fun t => says (Role t) "language") ts with
  | Some m, Some o =>
      match ts !! m, ts !! o with
      | Some a, Some b => <[o := with_sound b a]> (<[m := with_sound a b]> ts)
      | _, _ => ts
      end
  | _, _ => ts
  end.
Definition channelTracks (swapped : bool) (data : list Z) (program : Z) : res (list AudioTrack) :=
  let! ts := AudioTracks data program in Ok (if swapped then swapSounds ts else ts).

(** ** The sound of an encode *)

(** What these functions read of a feed: its source, the tracks of this tune and
    of the last one, the stored choice of the channel, whether extras made an
    encode die, and whether its mux gives a program map of ours. *)
Record sounds := mkSounds {
  source : Source; tracks : list AudioTrack; stored : list AudioTrack; SoundSwapped : bool; plain : bool; mapped : bool;
}.
Definition trackRole (want : Rendition) : list Z :=
  if says (Track want) "lang" then lit "language" else if says (Track want) "vi" then lit "described" else lit "main".
Definition known (f : sounds) : list AudioTrack := match tracks f with [] => stored f | ts => ts end.

Section sound.
Context `{Unicode}.
(** The upper case of a rune past ASCII. *)
Context (upper_rune : Z -> Z).

Definition ToUpper (s : list Z) : list Z :=
  map (fun c => if is_lower c then c - 32 else if c <? 128 then c else upper_rune c) s.

Definition sourceFor (f : sounds) (want : Rendition) : Source :=
  let s := source f in
  match PickTrack (known f) (trackRole want) with
  | Some t =>
      mkSource (VideoCodec s) (if says (Codec t) "" then AudioCodec s else ToUpper (Codec t)) (Progressive s) (Film s)
        (UserAgent s) (Referrer s) (PID t) (Lace s) (HD s) (Extras s) (AudioChannels s) (Height s) (Rate s)
        (if SoundSwapped f then Language t else AudioLang s)
  | None => s
  end.
Definition soundPID (f : sounds) (want : Rendition) : Z :=
  let p := AudioPID (sourceFor f want) in
  if 0 <? p then p else match PickTrack (tracks f) (trackRole want) with Some t => PID t | None => 0 end.

(** The PID of an encode's own sound; without one it maps the first of [ts]. *)
Definition main_pid (f : sounds) (want : Rendition) (ts : list AudioTrack) : Z :=
  let p := AudioPID (sourceFor f want) in
  if p =? 0 then match ts with t :: _ => PID t | [] => 0 end else p.

(** A track goes in once it is measured, on this tune or the last one. *)
Definition vouched (f : sounds) (t : AudioTrack) : option AudioTrack :=
  if Measured t then Some t else
  match List.find (fun s => (PID s =? PID t) && bytes_equal (Codec s) (Codec t) && Measured s)%bool (stored f) with
  | Some s => Some (mkTrack (PID t) (Language t) (Role t) (Codec t) (Label t) (Channels s) true)
  | None => None
  end.
Definition extrasLocked (alternates : bool) (f : sounds) (want : Rendition) : list AudioTrack :=
  let want := normalized want in
  if (negb alternates || plain f || says (Audio want) "none" || says (Video want) "540" || says (Video want) "360" || negb (mapped f))%bool
  then [] else
  omap (fun t => if PID t =? main_pid f want (known f) then None else vouched f t) (known f).

(** [running]: the extras of the renditions of the feed, by key. *)
Definition mainServesLocked (alternates : bool) (running : list Z -> option (list AudioTrack)) (f : sounds)
    (main : Rendition) (track : list Z) : bool :=
  let role := if says track "lang" then lit "language" else if says track "vi" then lit "described" else [] in
  let has_role ts := match PickTrack ts role with Some _ => true | None => false end in
  if says role "" then false else
  if ((0 <? zlen (known f)) && negb (has_role (known f)))%bool then true else
  has_role (match running (Key main) with Some e => e | None => extrasLocked alternates f main end).

Definition same_track (t p : AudioTrack) : bool :=
  ((PID p =? PID t) && bytes_equal (Codec p) (Codec t) && bytes_equal (Language p) (Language t) && bytes_equal (Role p) (Role t))%bool.
Definition keptExtras (f : sounds) (spec : Rendition) (extras : list AudioTrack) : list AudioTrack :=
  if ((zlen (tracks f) =? 0) || (zlen extras =? 0))%bool then extras else
  List.filter (fun t => existsb (same_track t) (tracks f) && negb (PID t =? main_pid f spec (tracks f)))%bool extras.
End sound.

(** What a decoder measured of the AC-4 tracks is stored with them, [saveTracks]. *)
Definition with_widths (widths : Z -> Z) (ts : list AudioTrack) : list AudioTrack :=
  map (fun t => let n := widths (PID t) in
    if ((0 <? n) && says (Codec t) "ac4")%bool
    then mkTrack (PID t) (Language t) (Role t) (Codec t) (Label t) n true else t) ts.

(** * Proofs *)

(** ** Nothing panics *)

Lemma descriptors_total fuel b off :
  bytes_ok b -> 0 <= off -> zlen b <= off + Z.of_nat fuel ->
  returns (descriptors fuel b off) (fun r => Forall (fun d => bytes_ok (snd d)) (fst r)).
Proof.
  intros Hb. revert off. induction fuel as [| fuel IH]; intros off Ho Hf; cbn [descriptors];
    (destruct (zlen b <? off + 2) eqn:E; [constructor |]); [lia |].
  do 4 go_step. cbv zeta. go_step; [constructor |]. do 2 go_step.
  apply returns_bind. eapply returns_mono; [apply IH; blia |]. intros r Hr. by constructor.
Qed.

Lemma descs_of_total b : bytes_ok b -> returns (descs_of b) (fun r => Forall (fun d => bytes_ok (snd d)) (fst r)).
Proof. intros Hb. apply descriptors_total; [done | lia | unfold zlen; lia]. Qed.

Lemma hasDesc_total b tag (Q : bool -> Prop) : bytes_ok b -> (forall v, Q v) -> returns (hasDesc b tag) Q.
Proof. intros Hb HQ. apply returns_bind. eapply returns_mono; [by apply descs_of_total |]. intros ds _. apply HQ. Qed.

Lemma first_desc_total f b (Q : option (list Z) -> Prop) :
  bytes_ok b -> Q None -> (forall d, bytes_ok (snd d) -> f d = true -> Q (Some (snd d))) -> returns (first_desc f b) Q.
Proof.
  intros Hb H0 HQ. apply returns_bind. eapply returns_mono; [by apply descs_of_total |]. intros ds Hds. apply returns_Ok.
  destruct (List.find f (fst ds)) as [d |] eqn:E; [| done]. apply HQ; [by apply (find_holds _ _ _ _ Hds E) |].
  by apply List.find_some in E as [_ ?].
Qed.

Lemma iso639_total b (Q : list Z * Z -> Prop) : bytes_ok b -> (forall v, Q v) -> returns (iso639 b) Q.
Proof.
  intros Hb HQ. apply returns_bind, first_desc_total; [done | apply HQ |]. intros [tag d] Hd E. cbn [fst snd] in *.
  do 2 go_step. apply HQ.
Qed.

Lemma ac3Meta_total b (Q : Z * Z -> Prop) : bytes_ok b -> (forall v, Q v) -> returns (ac3Meta b) Q.
Proof.
  intros Hb HQ. apply returns_bind, first_desc_total; [done | apply HQ |]. intros [tag d] Hd E. cbn [fst snd] in *.
  do 2 go_step. apply HQ.
Qed.

Lemma audioCodecOf_total kind desc (Q : option (list Z) -> Prop) :
  bytes_ok desc -> (forall c, Q c) -> returns (audioCodecOf kind desc) Q.
Proof.
  intros Hd HQ. unfold audioCodecOf. repeat (case_match; [apply HQ |]). case_match; [| apply HQ].
  apply returns_bind, hasDesc_total; [done |]. intros e. case_match; [apply HQ |].
  apply returns_bind, hasDesc_total; [done |]. intros a. case_match; [apply HQ |].
  apply returns_bind, returns_bind. eapply returns_mono; [by apply descs_of_total |]. intros ds _. apply HQ.
Qed.

Lemma es_loop_total fuel sec end_ off :
  bytes_ok sec -> end_ <= zlen sec -> 0 <= off -> end_ <= off + Z.of_nat fuel ->
  returns (es_loop fuel sec end_ off) (Forall (fun s => bytes_ok (snd s))).
Proof.
  intros Hs He. revert off. induction fuel as [| fuel IH]; intros off Ho Hf; cbn [es_loop];
    (destruct (end_ <? off + 5) eqn:E; [constructor |]); [lia |].
  do 10 go_step. cbv zeta. go_step; [constructor |]. do 2 go_step.
  apply returns_bind. eapply returns_mono; [apply IH; blia |]. intros ss Hss. by constructor.
Qed.

Lemma raws_of_total ss : Forall (fun s => bytes_ok (snd s)) ss -> returns (raws_of ss) (fun _ => True).
Proof.
  induction 1 as [| [[kind p] desc] ss Hd _ IH]; [done |]. cbn [raws_of snd] in *. apply returns_bind. unfold raw_of.
  apply returns_bind, audioCodecOf_total; [done |]. intros [c |].
  - apply returns_bind, iso639_total; [done |]. intros l. apply returns_bind, ac3Meta_total; [done |]. intros m.
    apply returns_Ok, returns_bind. by eapply returns_mono.
  - apply returns_Ok, returns_bind. by eapply returns_mono.
Qed.

Lemma any_caption_total ss : Forall (fun s => bytes_ok (snd s)) ss -> returns (any_caption ss) (fun _ => True).
Proof.
  induction 1 as [| s ss Hd _ IH]; [done |]. cbn [any_caption]. apply returns_bind, hasDesc_total; [done |].
  intros c. by case_match.
Qed.

Lemma info_of_total sec (Q : Z -> Prop) :
  bytes_ok sec -> 12 <= zlen sec -> (forall n, 0 <= n -> Q n) -> returns (info_of sec) Q.
Proof. intros Hs Hl HQ. unfold info_of. do 4 go_step. apply HQ. blia. Qed.

Lemma pmtAudio_total sec : bytes_ok sec -> 12 <= zlen sec -> returns (pmtAudio sec) (fun _ => True).
Proof.
  intros Hs Hl. apply returns_bind, info_of_total; [done | done |]. intros info Hi.
  apply returns_bind, sectionEnd_total; [done |]. intros e He. apply returns_bind.
  eapply returns_mono; [apply es_loop_total; [done | unfold zlen in *; lia..] |]. intros ss. apply raws_of_total.
Qed.

Lemma map_captions_total sec : bytes_ok sec -> 12 <= zlen sec -> returns (map_captions sec) (fun _ => True).
Proof.
  intros Hs Hl. apply returns_bind, info_of_total; [done | done |]. intros info Hi.
  apply returns_bind, sectionEnd_total; [done |]. intros e He. case_match; [done |].
  do 2 go_step. apply returns_bind, hasDesc_total; [done |]. intros c. case_match; [done |]. apply returns_bind.
  eapply returns_mono; [apply es_loop_total; [done | unfold zlen in *; lia..] |]. intros ss. apply any_caption_total.
Qed.

Lemma first_map_total secs : Forall bytes_ok secs ->
  returns (first_map secs) (fun m => forall sec, m = Some sec -> bytes_ok sec /\ 12 <= zlen sec).
Proof.
  induction 1 as [| sec secs Hs _ IH]; [done |]. cbn [first_map]. case_match; [done |]. do 2 go_step. case_match; [done |].
  apply returns_Ok. intros ? [= <-]. split; [done | lia].
Qed.

Lemma ac3Frame_total p (Q : option (Z * Z) -> Prop) : bytes_ok p -> (forall v, Q v) -> returns (ac3Frame p) Q.
Proof.
  intros Hp HQ. unfold ac3Frame. go_step; [apply HQ |]. do 4 go_step. go_step; [apply HQ |]. do 2 go_step. cbv zeta.
  go_step; [apply HQ |]. apply returns_bind, returns_idx; [done | lia |]. intros p6 H6 _. cbv zeta.
  apply returns_bind, returns_idx; [by repeat constructor | | intros w _ _; apply HQ].
  assert (0 <= Z.shiftr p6 5 < 8) by (unfold byte_ok in H6; rewrite Z.shiftr_div_pow2 by lia; dlia). unfold zlen. cbn [length]. lia.
Qed.

Lemma frames_loop_total fuel pay i v :
  bytes_ok pay -> 0 <= i -> zlen pay <= i + Z.of_nat fuel -> returns (frames_loop fuel pay i v) (fun _ => True).
Proof.
  intros Hp. revert i v. induction fuel as [| fuel IH]; intros i v Hi Hf; cbn [frames_loop];
    (destruct (zlen pay <? i + 7) eqn:E; [done |]); [lia |].
  do 2 go_step. apply returns_bind, ac3Frame_total; [done |]. intros [k |]; apply IH; lia.
Qed.

Lemma vote_packet_total wanted pkt v :
  bytes_ok pkt -> zlen pkt = 188 -> returns (vote_packet wanted pkt v) (fun _ => True).
Proof.
  intros Hp Hl. unfold vote_packet. apply returns_bind, pid_of_total; [done | lia |]. intros pid _. do 2 go_step. go_step; [done |].
  apply returns_bind, (returns_mono _ (fun s => 4 <= s)).
  - case_match; [| by apply returns_Ok]. do 2 go_step. apply returns_Ok. blia.
  - intros start Hs. case_match; [| done]. do 2 go_step. apply returns_bind.
    eapply returns_mono; [apply frames_loop_total; [done | lia | unfold zlen; lia] | done].
Qed.

Lemma vote_loop_total fuel wanted data v :
  bytes_ok data -> zlen data <= Z.of_nat fuel -> returns (vote_loop fuel wanted data v) (fun _ => True).
Proof.
  revert data v. induction fuel as [| fuel IH]; intros data v Hd Hf; cbn [vote_loop];
    (destruct (zlen data <? 188) eqn:E; [done |]); [pose proof (zlen_nonneg data); lia |].
  apply returns_bind, tsAligned_total. { done. } { lia. } intros al. case_match.
  - apply IH; [by apply bytes_ok_drop | rewrite zlen_drop; lia].
  - do 2 go_step. apply returns_bind. eapply returns_mono; [apply vote_packet_total; [done | lia] |].
    intros v' _. apply IH; [by apply bytes_ok_drop | rewrite zlen_drop; lia].
Qed.

Lemma measureAC3_total data ts : bytes_ok data -> returns (measureAC3 data ts) (fun _ => True).
Proof.
  intros Hd. unfold measureAC3. go_step; [done |]. apply returns_bind.
  eapply returns_mono; [apply vote_loop_total; [done | unfold zlen; lia] | done].
Qed.

Lemma first_tracks_total data secs : bytes_ok data -> Forall bytes_ok secs -> returns (first_tracks data secs) (fun _ => True).
Proof.
  intros Hd. induction 1 as [| sec secs Hs _ IH]; [done |]. cbn [first_tracks]. case_match; [done |]. do 2 go_step.
  case_match; [done |]. apply returns_bind. eapply returns_mono; [apply pmtAudio_total; [done | lia] |].
  intros ts _. case_match; [done |]. apply returns_bind. eapply returns_mono; [by apply measureAC3_total | done].
Qed.

(** Reading a program's sound of any bytes never indexes out of range and ends:
    the tracks and the caption flag are always found, or found to be missing. *)
Theorem audio_total (data : list Z) (program : Z) (Hd : bytes_ok data) :
  (exists ts, AudioTracks data program = Ok ts) /\ (exists c, HasCaptions data program = Ok c).
Proof.
  assert (forall A (m : res A), returns m (fun _ => True) -> exists a, m = Ok a) as Hex.
  { intros A m Hm. apply returns_exists in Hm as (a & -> & _). by exists a. }
  split; apply Hex, returns_bind; (eapply returns_mono; [by apply sections_total |]); intros pats Hp;
    apply returns_bind; (eapply returns_mono; [by apply first_pmt_total |]); intros pid _; (case_match; [done |]);
    apply returns_bind; (eapply returns_mono; [by apply sections_total |]); intros pmts Hm.
  - by apply first_tracks_total.
  - apply returns_bind. eapply returns_mono; [by apply first_map_total |]. intros [sec |] Hsec; [| done].
    destruct (Hsec sec eq_refl). by apply map_captions_total.
Qed.

Lemma audio_total_witness :
  bytes_ok (repeat 0x47 376) /\ (exists ts, AudioTracks (repeat 0x47 376) 1 = Ok ts).
Proof.
  assert (bytes_ok (repeat 0x47 376)) as Hd by (vm_compute; repeat constructor; done).
  split; [exact Hd | exact (proj1 (audio_total (repeat 0x47 376) 1 Hd))].
Defined.

(** ** What the frames say of a track *)

(** Where a count stands after some votes: its best, which of them it is, and the
    next best of the others. *)
Record counted (seen : list ((Z * Z) * Z)) (t : tally) : Prop := {
  counted_order : 0 <= second t <= best t;
  counted_best : forall e, e ∈ seen -> snd e <= best t;
  counted_key : best t = 0 \/ (key t, best t) ∈ seen;
  counted_rest : forall e, e ∈ seen -> fst e <> key t -> snd e <= second t;
  counted_second : second t = 0 \/ exists e, e ∈ seen /\ fst e <> key t /\ snd e = second t;
}.

Lemma count_one seen t k n : k ∉ seen.*1 -> counted seen t -> counted (seen ++ [(k, n)]) (count t (k, n)).
Proof.
  intros Hk [Ho Hb Hy Hr Hs].
  assert (forall e, e ∈ seen ++ [(k, n)] -> e ∈ seen \/ e = (k, n)) as Hin.
  { intros e He. apply elem_of_app in He as [He | He]; [by left |]. right. by apply list_elem_of_singleton in He. }
  assert (forall e, e ∈ seen -> e ∈ seen ++ [(k, n)]) as Hl by (intros; apply elem_of_app; by left).
  assert ((k, n) ∈ seen ++ [(k, n)]) as Hlast by (apply elem_of_app; right; by apply list_elem_of_singleton).
  assert (forall e, e ∈ seen -> fst e <> k) as Hne.
  { intros e He E. apply Hk. rewrite <- E. by apply list_elem_of_fmap_2. }
  unfold count. cbn [fst snd]. destruct (Z.ltb_spec (best t) n); [| destruct (Z.ltb_spec (second t) n)];
    (split; cbn [best second key]).
  - lia.
  - intros e He. apply Hin in He as [He | ->]; [apply Hb in He; lia | cbn; lia].
  - by right.
  - intros e He Hn. apply Hin in He as [He | ->]; [by apply Hb | done].
  - destruct Hy as [-> | Hy]; [by left |]. right. exists (key t, best t). split_and!; [by apply Hl | | done].
    cbn. by apply (Hne _ Hy).
  - lia.
  - intros e He. apply Hin in He as [He | ->]; [by apply Hb | cbn; lia].
  - destruct Hy as [Hy | Hy]; [by left | right; by apply Hl].
  - intros e He Hn. apply Hin in He as [He | ->]; [pose proof (Hr e He Hn); lia | cbn; lia].
  - destruct Hy as [Hy | Hy]; [lia |]. right. exists (k, n). split_and!; [done | | done].
    cbn. intros E. by apply (Hne _ Hy).
  - lia.
  - intros e He. apply Hin in He as [He | ->]; [by apply Hb | cbn; lia].
  - destruct Hy as [Hy | Hy]; [by left | right; by apply Hl].
  - intros e He Hn. apply Hin in He as [He | ->]; [by apply Hr | cbn; lia].
  - destruct Hs as [Hs | (e & He & Hn & Es)]; [by left |]. right. exists e. split_and!; [by apply Hl | done | done].
Qed.

Lemma count_all l : NoDup l.*1 -> counted l (fold_left count l (mkTally 0 0 (0, 0))).
Proof.
  induction l as [| [k n] l IH] using rev_ind; intros Hd.
  { split; cbn; try lia; try (by left); intros e He; by apply not_elem_of_nil in He. }
  rewrite fmap_app in Hd. apply NoDup_app in Hd as (Hd & Hn & _). rewrite fold_left_app. cbn [fold_left].
  apply count_one; [| by apply IH]. intros Hk. apply (Hn k Hk). cbn. by apply list_elem_of_singleton.
Qed.

Lemma majority_spec l k : NoDup l.*1 ->
  majority l = Some k <-> exists n, 2 <= n /\ (k, n) ∈ l /\ forall e, e ∈ l -> fst e <> k -> snd e < n.
Proof.
  intros Hd. unfold majority. cbv zeta. pose proof (count_all l Hd) as [Ho Hb Hy Hr Hs].
  set (t := fold_left count l _) in *. split.
  - destruct (Z.ltb_spec (best t) 2), (Z.leb_spec (best t) (second t)); cbn [orb]; try done. intros [= <-].
    exists (best t). split_and!; [lia | by destruct Hy as [Hy | Hy]; [lia |] |]. intros e He Hn. pose proof (Hr e He Hn). lia.
  - intros (n & Hn & Hkn & Hother). pose proof (Hb _ Hkn) as Hnb. cbn in Hnb.
    destruct Hy as [Hy | Hy]; [lia |]. destruct (decide (key t = k)) as [Ek | Ek].
    + assert (best t = n) as En.
      { rewrite Ek in Hy. apply elem_of_list_to_map_1 in Hy, Hkn; [| done..]. congruence. }
      assert (second t < n) as Hsn. { destruct Hs as [Hs | (e & He & Hne & <-)]; [lia |]. apply Hother; congruence. }
      rewrite En. destruct (Z.ltb_spec n 2), (Z.leb_spec n (second t)); try lia. cbn. by rewrite Ek.
    + pose proof (Hother _ Hy Ek) as Hlt. cbn in Hlt. lia.
Qed.

(** What a track's AC-3 frames say of its mix is the answer two frames or more and
    more frames than any other agree on, and there is none when two answers tie: the
    order Go's map gives the votes in never changes it. *)
Theorem majority_any_order (v : votes) (k : Z * Z) :
  (majorityAC3 v = Some k <->
     exists n, 2 <= n /\ v !! k = Some n /\ forall k' n', k' <> k -> v !! k' = Some n' -> n' < n) /\
  (forall l, l ≡ₚ map_to_list v -> majority l = majorityAC3 v).
Proof.
  assert (forall l q, l ≡ₚ map_to_list v -> majority l = Some q <->
    exists n, 2 <= n /\ v !! q = Some n /\ forall k' n', k' <> q -> v !! k' = Some n' -> n' < n) as H.
  { intros l q Hl. rewrite majority_spec by (rewrite Hl; apply NoDup_fst_map_to_list).
    assert (forall e, e ∈ l <-> v !! fst e = Some (snd e)) as He.
    { intros [a n]. rewrite Hl. apply elem_of_map_to_list. }
    split; intros (n & Hn & Hq & Ho); exists n; (split; [done |]); (split; [by apply He in Hq || by apply He |]).
    - intros k' n' Hk Hk'. apply (Ho (k', n')); [by apply He | done].
    - intros e Hin. apply He in Hin. intros Hk. by apply (Ho (fst e) (snd e)). }
  split; [by apply H |]. intros l Hl. apply option_eq. intros q. unfold majorityAC3. by rewrite !H.
Qed.

(** ** Roles *)

(** A complete main of the main sound's language. *)
Definition candidate (primary : list Z) (t : rawAudio) : bool := (fullMix t && sameMix t primary)%bool.

Lemma widest_grows ts primary i best bestCh : 0 <= best -> 0 <= i -> 0 <= widest ts primary i best bestCh.
Proof. revert i best bestCh. induction ts as [| t ts IH]; intros i best bestCh Hb Hi; cbn [widest]; [done |]. repeat case_match; apply IH; lia. Qed.

Lemma widest_candidate ts primary i best bestCh (r := widest ts primary i best bestCh) : 0 <= i ->
  (best < 0 -> 0 <= r <-> exists t, t ∈ ts /\ candidate primary t = true) /\
  (r = best \/ exists t, ts !! Z.to_nat (r - i) = Some t /\ i <= r /\ candidate primary t = true).
Proof.
  subst r. revert i best bestCh. induction ts as [| t ts IH]; intros i best bestCh Hi; cbn [widest].
  { split; [| by left]. intros Hb. split; [lia |]. by intros (t & Ht & _); apply not_elem_of_nil in Ht. }
  assert (forall r, (exists u, ts !! Z.to_nat (r - (i + 1)) = Some u /\ i + 1 <= r /\ candidate primary u = true) ->
    exists u, (t :: ts) !! Z.to_nat (r - i) = Some u /\ i <= r /\ candidate primary u = true) as Hshift.
  { intros r (u & Hu & Hr & Hc). exists u. split_and!; [| lia | done].
    replace (Z.to_nat (r - i)) with (S (Z.to_nat (r - (i + 1)))) by lia. done. }
  unfold candidate in *. destruct (fullMix t && sameMix t primary)%bool eqn:Ec; cbn [negb].
  - assert ((t :: ts) !! Z.to_nat (i - i) = Some t) as Ht by (by replace (i - i) with 0 by lia).
    split.
    + intros Hb. split; [| intros _; replace (best <? 0) with true by lia; cbn [orb]; apply widest_grows; lia].
      intros _. exists t. split; [by apply list_elem_of_here | done].
    + destruct ((best <? 0) || (bestCh <? channels t))%bool.
      * destruct (IH (i + 1) i (channels t) ltac:(lia)) as [_ [-> | Hr]]; [| right; by apply Hshift].
        right. exists t. split_and!; [done | lia | done].
      * destruct (IH (i + 1) best bestCh ltac:(lia)) as [_ [-> | Hr]]; [by left | right; by apply Hshift].
  - destruct (IH (i + 1) best bestCh ltac:(lia)) as [H1 H2]. split.
    + intros Hb. rewrite (H1 Hb). split; intros (u & Hu & Hc); exists u; (split; [| done]).
      * by apply list_elem_of_further.
      * apply elem_of_cons in Hu as [-> | Hu]; [congruence | done].
    + destruct H2 as [-> | Hr]; [by left | right; by apply Hshift].
Qed.

(** The first of the widest tracks of a role. *)
Definition first_widest (role : list Z) (ts : list AudioTrack) (b : AudioTrack) : Prop :=
  exists i, ts !! i = Some b /\ Role b = role /\
    forall j t, ts !! j = Some t -> Role t = role -> Channels t <= Channels b /\ (Channels t = Channels b -> (i <= j)%nat).

Lemma pick_first_widest pre ts best :
  match best with Some b => first_widest (lit "main") pre b | None => forall t, t ∈ pre -> Role t <> lit "main" end ->
  match pick (lit "main") ts best with
  | Some b => first_widest (lit "main") (pre ++ ts) b
  | None => forall t, t ∈ pre ++ ts -> Role t <> lit "main"
  end.
Proof.
  revert pre best. induction ts as [| t ts IH]; intros pre best Hb; cbn [pick]; [by rewrite app_nil_r |].
  replace (pre ++ t :: ts) with ((pre ++ [t]) ++ ts) by (by rewrite <- app_assoc).
  assert (forall j u, (pre ++ [t]) !! j = Some u -> pre !! j = Some u \/ j = length pre /\ u = t) as Hsplit.
  { intros j u Hj. apply lookup_app_Some in Hj as [Hj | [Hl Hj]]; [by left |]. right.
    apply list_lookup_singleton_Some in Hj as [Hj ->]. split; [lia | done]. }
  unfold bytes_equal. destruct (bool_decide (Role t = lit "main")) eqn:Er; cbn [negb].
  - apply bool_decide_eq_true in Er. destruct best as [b |].
    + replace (says (lit "main") "main") with true by done. cbn [andb].
      destruct Hb as (i & Hi & Hr & Hall). destruct (Z.ltb_spec (Channels b) (Channels t)); apply IH.
      * exists (length pre). split_and!; [by rewrite lookup_app_r, Nat.sub_diag by lia | done |].
        intros j u Hj Hu. destruct (Hsplit _ _ Hj) as [Hp | [-> ->]]; [destruct (Hall _ _ Hp Hu); lia | lia].
      * exists i. split_and!; [by apply lookup_app_l_Some | done |].
        intros j u Hj Hu. destruct (Hsplit _ _ Hj) as [Hp | [-> ->]]; [by apply (Hall j) |].
        split; [lia |]. intros _. apply lookup_lt_Some in Hi. lia.
    + apply IH. exists (length pre). split_and!; [by rewrite lookup_app_r, Nat.sub_diag by lia | done |].
      intros j u Hj Hu. destruct (Hsplit _ _ Hj) as [Hp | [-> ->]]; [| lia]. by apply list_elem_of_lookup_2, Hb in Hp.
  - apply bool_decide_eq_false in Er. apply IH. destruct best as [b |].
    + destruct Hb as (i & Hi & Hr & Hall). exists i. split_and!; [by apply lookup_app_l_Some | done |].
      intros j u Hj Hu. destruct (Hsplit _ _ Hj) as [Hp | [-> ->]]; [by apply (Hall j) | done].
    + intros u Hu. apply elem_of_app in Hu as [Hu | Hu]; [by apply Hb | by apply list_elem_of_singleton in Hu as ->].
Qed.

(** The sound a viewer hears when they ask for none in particular: where a program
    has complete mains in its main language, the widest of them, and of the equally
    wide the first that the program map lists, whatever else it lists. *)
Theorem main_is_widest (ts : list rawAudio) (H : exists t, t ∈ ts /\ candidate (primary_of ts) t = true) :
  exists i t picked, PickTrack (assignRoles ts) [] = Some picked /\
    ts !! i = Some t /\ candidate (primary_of ts) t = true /\
    PID picked = pid t /\ Codec picked = codec t /\ Channels picked = channels t /\ Role picked = lit "main" /\
    forall j u, ts !! j = Some u -> candidate (primary_of ts) u = true ->
      channels u <= channels t /\ (channels u = channels t -> (i <= j)%nat).
Proof.
  set (primary := primary_of ts) in *. unfold assignRoles. cbv zeta. fold primary. set (mainAt := fullestMain ts primary).
  destruct (widest_candidate ts primary 0 (-1) (-1) ltac:(lia)) as [Hex Hat]. apply Hex in H; [| lia].
  assert (mainAt = widest ts primary 0 (-1) (-1)) as Em. { unfold mainAt, fullestMain. cbv zeta. by replace (0 <=? _) with true by lia. }
  destruct (Z.ltb_spec mainAt 0); [lia |]. destruct Hat as [Hat | (m & Hm & _ & Hc)]; [lia |].
  assert (forall i t, ts !! i = Some t -> Role (track_of primary mainAt i t) = lit "main" <-> candidate primary t = true) as Hrole.
  { intros i t Ht. unfold track_of, role_of, candidate, fullMix in *. cbn [Role]. destruct (describedAudio t) eqn:Ed.
    { rewrite andb_false_r. done. }
    destruct (Z.eqb_spec (Z.of_nat i) mainAt) as [Ei |].
    - replace (Z.to_nat (_ - 0)) with i in Hm by lia. assert (m = t) as -> by congruence. by rewrite Ed in Hc.
    - destruct (_ && sameMix t primary)%bool; [done |]. by case_match. }
  unfold PickTrack. cbv zeta. replace (says [] "" || says [] "auto")%bool with true by done.
  pose proof (pick_first_widest [] (imap (track_of primary mainAt) ts) None) as Hp. cbn [app] in Hp.
  specialize (Hp ltac:(intros u Hu; by apply not_elem_of_nil in Hu)).
  destruct (pick _ _ _) as [b |].
  - destruct Hp as (i & Hi & Hr & Hall). rewrite list_lookup_imap in Hi. destruct (ts !! i) as [t |] eqn:Ht; [| done].
    injection Hi as <-. exists i, t, (track_of primary mainAt i t). split_and!; try done; [by apply (Hrole i) |].
    intros j u Hj Hu. apply (Hall j (track_of primary mainAt j u)); [by rewrite list_lookup_imap, Hj | by apply Hrole].
  - destruct (Hp (track_of primary mainAt (Z.to_nat (widest ts primary 0 (-1) (-1) - 0)) m)); [| by apply Hrole].
    apply list_elem_of_lookup. eexists. by rewrite list_lookup_imap, Hm.
Qed.

Lemma main_is_widest_witness :
  let stereo := mkRaw 0x31 (lit "ac3") (lit "eng") (-1) 0 2 true in
  let wide := mkRaw 0x34 (lit "ac3") (lit "eng") (-1) 0 6 true in
  let spanish := mkRaw 0x35 (lit "ac3") (lit "spa") (-1) 0 2 true in
  exists picked, PickTrack (assignRoles [stereo; wide; spanish]) [] = Some picked /\ 6 <= Channels picked.
Proof.
  intros stereo wide spanish.
  destruct (main_is_widest [stereo; wide; spanish]) as (i & t & p & Hp & Ht & Hc & _ & _ & Hch & _ & Hall).
  { exists stereo. split; [by apply list_elem_of_here | vm_compute; reflexivity]. }
  exists p. split; [exact Hp |]. rewrite Hch. by destruct (Hall 1%nat wide eq_refl ltac:(vm_compute; reflexivity)).
Defined.

(** ** AC-3 sync frames *)

Fixpoint bits_of (n : nat) (v : Z) : list bool :=
  match n with O => [] | S n => Z.testbit v (Z.of_nat n) :: bits_of n v end.
Definition byte_of (bits : list bool) : Z := fold_left (fun a (b : bool) => 2 * a + Z.b2z b) bits 0.

(** The bit stream information of A/52 5.3.2 in its second byte: [acmod], the mix
    levels its mode has, [lfeon], and what follows to the end of the byte. *)
Definition bsi (acmod cmixlev surmixlev dsurmod : Z) (lfeon : bool) (rest : Z) : Z :=
  byte_of (take 8 (bits_of 3 acmod ++
    (if (negb (Z.land acmod 1 =? 0) && negb (acmod =? 1))%bool then bits_of 2 cmixlev else []) ++
    (if negb (Z.land acmod 4 =? 0) then bits_of 2 surmixlev else []) ++
    (if acmod =? 2 then bits_of 2 dsurmod else []) ++ [lfeon] ++ bits_of 4 rest)).
(** The full bandwidth channels of a mode: 1+1, 1/0, 2/0, 3/0, 2/1, 3/1, 2/2, 3/2. *)
Definition full_channels (acmod : Z) : Z :=
  if acmod =? 0 then 2 else if acmod =? 1 then 1 else if acmod =? 2 then 2 else if acmod =? 3 then 3
  else if acmod =? 4 then 3 else if acmod =? 5 then 4 else if acmod =? 6 then 4 else 5.

Definition range (n : nat) : list Z := map Z.of_nat (seq 0 n).
Lemma range_in n x : 0 <= x < Z.of_nat n -> In x (range n).
Proof. intros Hx. apply in_map_iff. exists (Z.to_nat x). split; [lia |]. apply in_seq. lia. Qed.

(** What a byte of the information says of the width. *)
Definition width_of (p6 : Z) : Z :=
  let acmod := Z.shiftr p6 5 in
  let bit := 3 + (if (negb (Z.land acmod 1 =? 0) && negb (acmod =? 1))%bool then 2 else 0)
               + (if negb (Z.land acmod 4 =? 0) then 2 else 0) + (if acmod =? 2 then 2 else 0) in
  nth (Z.to_nat acmod) [2; 1; 2; 3; 3; 4; 4; 5] 0 + (if bit <=? 7 then Z.land (Z.shiftr p6 (7 - bit)) 1 else 0).
Definition bsi_ok (a c s d r : Z) (lfe : bool) : bool :=
  let b := bsi a c s d lfe r in
  ((0 <=? b) && (b <? 256) && (width_of b =? full_channels a + Z.b2z lfe))%bool.
Lemma bsi_all :
  forallb (fun a => forallb (fun c => forallb (fun s => forallb (fun d => forallb (fun r =>
    bsi_ok a c s d r false && bsi_ok a c s d r true)%bool (range 16)) (range 4)) (range 4)) (range 4)) (range 8) = true.
Proof. vm_compute. reflexivity. Qed.

Lemma bsi_width a c s d r lfe : 0 <= a < 8 -> 0 <= c < 4 -> 0 <= s < 4 -> 0 <= d < 4 -> 0 <= r < 16 ->
  let b := bsi a c s d lfe r in 0 <= b < 256 /\ width_of b = full_channels a + Z.b2z lfe.
Proof.
  intros Ha Hc Hs Hd Hr b. pose proof bsi_all as H.
  rewrite forallb_forall in H. specialize (H a (range_in 8 a Ha)). rewrite forallb_forall in H. specialize (H c (range_in 4 c Hc)).
  rewrite forallb_forall in H. specialize (H s (range_in 4 s Hs)). rewrite forallb_forall in H. specialize (H d (range_in 4 d Hd)).
  rewrite forallb_forall in H. specialize (H r (range_in 16 r Hr)). apply andb_true_iff in H as [H1 H2].
  assert (bsi_ok a c s d r lfe = true) as H by (by destruct lfe). unfold bsi_ok in H. cbv zeta in H. fold b in H. lia.
Qed.

Lemma byte_shift x b : 0 <= b < 8 -> Z.shiftr (8 * x + b) 3 = x /\ Z.land (8 * x + b) 7 = b.
Proof.
  intros Hb. rewrite Z.shiftr_div_pow2 by lia. change 7 with (Z.ones 3). rewrite Z.land_ones by lia. change (2 ^ 3) with 8.
  split; dlia.
Qed.

Lemma ac3Frame_of c1 c2 fr p5 p6 more : 0 <= p6 < 256 ->
  ac3Frame (0x0b :: 0x77 :: c1 :: c2 :: fr :: p5 :: p6 :: more) =
    Ok (let bsid := Z.shiftr p5 3 in if ((bsid =? 0) || (10 <? bsid))%bool then None else Some (Z.land p5 7, width_of p6)).
Proof.
  intros H6. unfold ac3Frame. set (p := 0x0b :: _). assert (7 <= zlen p) by (unfold p, zlen; cbn [length]; lia).
  replace (zlen p <? 7) with false by lia. change (idx p 0) with (Ok 0x0b). change (idx p 1) with (Ok 0x77).
  change (idx p 5) with (Ok p5). change (idx p 6) with (Ok p6). cbn [rbind Z.eqb Pos.eqb negb orb]. cbv zeta.
  case_match; [done |]. unfold width_of. cbv zeta.
  assert (0 <= Z.shiftr p6 5 < 8) as Ha by (rewrite Z.shiftr_div_pow2 by lia; dlia).
  destruct (idx_in_range [2; 1; 2; 3; 3; 4; 4; 5] (Z.shiftr p6 5)) as (w & Hw & ->); [done |]. cbn [rbind].
  by rewrite (nth_lookup_Some _ _ 0 _ Hw).
Qed.

(** An AC-3 frame is read as A/52 writes it: from any header of the standard's
    bit stream versions, whatever its mode and the mix levels the mode brings before
    [lfeon], come its bit stream mode and its channels, the low-frequency one counted;
    an E-AC-3 header (a version above 10) is never taken for one. *)
Theorem ac3_header_reads (crc1 crc2 frame bsid bsmod acmod cmixlev surmixlev dsurmod rest : Z) (lfeon : bool) (more : list Z)
    (Hm : 0 <= bsmod < 8) (Ha : 0 <= acmod < 8) (Hc : 0 <= cmixlev < 4) (Hs : 0 <= surmixlev < 4) (Hd : 0 <= dsurmod < 4)
    (Hr : 0 <= rest < 16) :
  ac3Frame ([0x0b; 0x77; crc1; crc2; frame; 8 * bsid + bsmod; bsi acmod cmixlev surmixlev dsurmod lfeon rest] ++ more) =
    Ok (if ((bsid =? 0) || (10 <? bsid))%bool then None else Some (bsmod, full_channels acmod + Z.b2z lfeon)).
Proof.
  destruct (bsi_width acmod cmixlev surmixlev dsurmod rest lfeon) as [Hb Hw]; [done.. |].
  set (b := bsi _ _ _ _ _ _) in *. destruct (byte_shift bsid bsmod Hm) as [E1 E2].
  cbn [app]. rewrite (ac3Frame_of _ _ _ _ _ _ Hb), Hw, E1, E2. done.
Qed.

Lemma ac3_header_reads_witness :
  let p6 := bsi 7 2 1 0 true 5 in
  ac3Frame [0x0b; 0x77; 1; 2; 3; 8 * 8 + 0; p6] = Ok (Some (0, 6)).
Proof. intros p6. exact (ac3_header_reads 1 2 3 8 0 7 2 1 0 5 true [] ltac:(lia) ltac:(lia) ltac:(lia) ltac:(lia) ltac:(lia) ltac:(lia)). Defined.

(** ** Sounds labeled the wrong way round *)

Lemma index_of_spec f ts i : index_of f ts = Some i ->
  exists t, ts !! i = Some t /\ f t = true /\ forall j u, (j < i)%nat -> ts !! j = Some u -> f u = false.
Proof.
  revert i. induction ts as [| t ts IH]; intros i; cbn [index_of]; [done |]. destruct (f t) eqn:E.
  - intros [= <-]. exists t. split_and!; [done | done | lia].
  - destruct (index_of f ts) as [k |]; [| done]. intros [= <-]. destruct (IH k eq_refl) as (u & Hu & Hf & Hall).
    exists u. split_and!; [done | done |]. intros [| j] v Hj Hv; [by injection Hv as <- | apply (Hall j); [lia | done]].
Qed.

Lemma index_of_same f g ts us : length ts = length us ->
  (forall i t u, ts !! i = Some t -> us !! i = Some u -> f t = g u) -> index_of f ts = index_of g us.
Proof.
  revert us. induction ts as [| t ts IH]; intros [| u us]; cbn; try done. intros Hl Hfg.
  rewrite (Hfg O t u eq_refl eq_refl). case_match; [done |]. f_equal. apply IH; [lia |]. intros i. by apply (Hfg (S i)).
Qed.

(** Labeling the two languages the other way round moves only what is sent: every
    place keeps its role, language and label, all tracks but the two stay, each of
    the two takes the other's PID, codec and width, and doing it again gives the
    tracks of the program map back. *)
Theorem swap_is_its_own_inverse (ts : list AudioTrack) :
  swapSounds (swapSounds ts) = ts /\
  map (fun t => (Role t, Language t, Label t)) (swapSounds ts) = map (fun t => (Role t, Language t, Label t)) ts /\
  map PID (swapSounds ts) ≡ₚ map PID ts.
Proof.
  assert (forall t s, with_sound (with_sound t s) (with_sound s t) = t) as Hback by (by intros [] []).
  unfold swapSounds at 2 3 4.
  destruct (index_of (fun t => says (Role t) "main") ts) as [m |] eqn:Em; [| by unfold swapSounds; rewrite Em].
  destruct (index_of (fun t => says (Role t) "language") ts) as [o |] eqn:Eo; [| by unfold swapSounds; rewrite Em, Eo].
  destruct (index_of_spec _ _ _ Em) as (a & Ha & Hra & _). destruct (index_of_spec _ _ _ Eo) as (b & Hb & Hrb & _).
  rewrite Ha, Hb. assert (m <> o) as Hmo. { intros ->. apply says_spec in Hra, Hrb. rewrite Ha in Hb. injection Hb as ->. by rewrite Hra in Hrb. }
  set (us := <[o := with_sound b a]> _).
  assert (us !! m = Some (with_sound a b)) as Hum.
  { unfold us. rewrite list_lookup_insert_ne by done. apply list_lookup_insert_eq. by eapply lookup_lt_Some. }
  assert (us !! o = Some (with_sound b a)) as Huo.
  { unfold us. apply list_lookup_insert_eq. rewrite length_insert. by eapply lookup_lt_Some. }
  assert (forall i, i <> m -> i <> o -> us !! i = ts !! i) as Hother.
  { intros i Hm Ho. unfold us. by rewrite !list_lookup_insert_ne by done. }
  assert (length us = length ts) as Hl by (unfold us; by rewrite !length_insert).
  assert (forall i t u, ts !! i = Some t -> us !! i = Some u -> (Role t, Language t, Label t) = (Role u, Language u, Label u)) as Hsame.
  { intros i t u Ht Hu. destruct (decide (i = m)) as [-> |]; [congruence || by (assert (u = with_sound a b) as -> by congruence; assert (t = a) as -> by congruence) |].
    destruct (decide (i = o)) as [-> |]; [by (assert (u = with_sound b a) as -> by congruence; assert (t = b) as -> by congruence) |].
    rewrite Hother in Hu by done. congruence. }
  assert (forall r, index_of (fun t => says (Role t) r) us = index_of (fun t => says (Role t) r) ts) as Hidx.
  { intros r. symmetry. apply index_of_same; [done |]. intros i t u Ht Hu. pose proof (Hsame i t u Ht Hu) as E. congruence. }
  split_and!.
  - unfold swapSounds. rewrite !Hidx, Em, Eo, Hum, Huo, !Hback. apply list_eq. intros i.
    destruct (decide (i = o)) as [-> |]; [rewrite list_lookup_insert_eq by (rewrite length_insert, Hl; by eapply lookup_lt_Some); done |].
    rewrite list_lookup_insert_ne by done.
    destruct (decide (i = m)) as [-> |]; [rewrite list_lookup_insert_eq by (rewrite Hl; by eapply lookup_lt_Some); done |].
    rewrite list_lookup_insert_ne by done. by apply Hother.
  - apply list_eq. intros i. rewrite !list_lookup_fmap. destruct (ts !! i) as [t |] eqn:Ht.
    + destruct (lookup_lt_is_Some_2 us i) as [u Hu]; [rewrite Hl; by eapply lookup_lt_Some |]. rewrite Hu. cbn. f_equal.
      symmetry. by apply (Hsame i).
    + apply lookup_ge_None in Ht. rewrite (lookup_ge_None_2 us) by (rewrite Hl; done). done.
  - apply Permutation_inj. split; [by rewrite !length_map |].
    exists (fun i => if decide (i = m) then o else if decide (i = o) then m else i). split.
    + intros x y. repeat case_decide; congruence.
    + intros i. rewrite !list_lookup_fmap. destruct (decide (i = m)) as [-> |]; [by rewrite Hum, Hb |].
      destruct (decide (i = o)) as [-> |]; [by rewrite Huo, Ha | by rewrite Hother].
Qed.


(** ** The tracks of an encode *)

Lemma vouched_spec f t u : vouched f t = Some u ->
  Measured u = true /\ PID u = PID t /\ Codec u = Codec t /\ Language u = Language t /\ Role u = Role t /\
  (Measured t = true \/ exists s, s ∈ stored f /\ PID s = PID t /\ Codec s = Codec t /\ Measured s = true /\ Channels u = Channels s).
Proof.
  unfold vouched. destruct (Measured t) eqn:E; [intros [= <-]; split_and!; try done; by left |].
  destruct (List.find _ _) as [s |] eqn:Ef; [| done]. intros [= <-]. split_and!; try done. right. exists s.
  apply List.find_some in Ef as [Hin Hs]. unfold bytes_equal in Hs. rewrite !andb_true_iff, bool_decide_eq_true in Hs.
  destruct Hs as [[Hp Hc] Hm]. split_and!; [by apply list_elem_of_In | lia | done | done | done].
Qed.

(** Beside its own sound an encode carries only tracks the program lists, none of
    them its own sound's, and each one a frame has measured on this tune or the last
    one: a track never heard of cannot stop it. What it keeps of them once the
    program map is read are some of those, each listed there as it was. *)
Theorem extras_are_measured `{Unicode} (upper : Z -> Z) (alternates : bool) (f : sounds) (want : Rendition) :
  Forall (fun t => Measured t = true /\ PID t <> main_pid upper f (normalized want) (known f) /\
    exists k, k ∈ known f /\ PID t = PID k /\ Codec t = Codec k /\ Language t = Language k /\ Role t = Role k /\
      (Measured k = true \/ exists s, s ∈ stored f /\ PID s = PID k /\ Codec s = Codec k /\ Measured s = true))
    (extrasLocked upper alternates f want) /\
  (forall extras, Forall (fun t => t ∈ extras /\ (tracks f <> [] ->
      PID t <> main_pid upper f want (tracks f) /\ exists p, p ∈ tracks f /\ PID p = PID t /\ Codec p = Codec t /\ Language p = Language t /\ Role p = Role t))
    (keptExtras upper f want extras)).
Proof.
  split.
  - unfold extrasLocked. cbv zeta. case_match; [constructor |]. apply Forall_forall. intros t Ht.
    apply list_elem_of_omap in Ht as (k & Hk & E). case_match; [done |]. apply vouched_spec in E as (E1 & E2 & E3 & E4 & E5 & E6).
    split_and!; [done | lia |]. exists k. split_and!; try done.
    destruct E6 as [? | (s & ? & ? & ? & ? & _)]; [by left | right; by exists s].
  - intros extras. unfold keptExtras. case_match eqn:E; apply Forall_forall; intros t Ht.
    + split; [done |]. intros Hn. apply orb_true_iff in E as [E | E].
      * destruct Hn. apply nil_length_inv. unfold zlen in E. lia.
      * assert (extras = []) as -> by (apply nil_length_inv; unfold zlen in E; lia). by apply not_elem_of_nil in Ht.
    + apply list_elem_of_In, List.filter_In in Ht as [Hin Ht]. apply andb_true_iff in Ht as [Hs Hm]. split; [by apply list_elem_of_In |].
      intros _. split; [lia |]. apply existsb_exists in Hs as (p & Hp & Hs). exists p. unfold same_track, bytes_equal in Hs.
      rewrite !andb_true_iff, !bool_decide_eq_true in Hs. destruct Hs as [[[? ?] ?] ?].
      split_and!; [by apply list_elem_of_In | lia | done..].
Qed.
