(* ===== verification/LivePlaylist.v ===== *)
(** The packager's playlist and its gate, [server/internal/live/pack.go]: what
    a list of segments and parts says, and when it answers a request.

    Times are 90 kHz ticks, texts code points. The clock of the wall is read
    through [now], the n-th reading; what other encodes of the channel found
    of its groups of pictures is [known_long]. *)
From S2P Require Import Prelude GoNum GoText GoFloat Fmp4.
Local Open Scope Z_scope.
Local Open Scope go_scope.

Definition partTicks : Z := 45000.
Definition longGroup : Z := 135000.
Definition longEvidence : Z := 3.
Definition shortEvidence : Z := 120.
Definition windowTicks : Z := 90 * 60 * 90000.
Definition jumpTicks : Z := 10 * 90000.
Definition minPartTicks : Z := 9000.
Definition maxOpenBytes : Z := Z.shiftl 32 20.
Definition maxBox : Z := Z.shiftl 32 20.
Definition splitPartTicks : Z := 35100.
Definition splitMinTicks : Z := (splitPartTicks * 85 + 99) / 100.
Definition splitGoalTicks : Z := 32400.
Definition spliceSlack : Z := 750.
Definition second : Z := 1000000000.

(** ** Segments and parts *)

Record packedPart := mkPart {
  pname : list Z; ppts : Z; pdur : Z; pbody : list Z; psync : bool; ptimed : bool;
}.
Record partRef := mkRef {
  rname : list Z; rdur : Z; rsync : bool; rsize : Z; rpts : Z; rtimed : bool;
}.
Record packedSeg := mkSeg {
  sname : list Z; spts : Z; sdur : Z; parts : list partRef; gap : bool; stimed : bool; cont : bool; step : Z; refs : list (list Z);
}.
Record playlistCeiling := mkCeiling { target : Z; part : Z }.
Record openBreak := mkBreak { bgap : bool; bcont : bool; bstep : Z; hint : list Z }.

(** [%05d] in the name of a segment or a part *)
Definition seg_name (n : Z) : list Z := lit "seg" ++ padded 5 n ++ lit ".m4s".
Definition part_name (n : Z) : list Z := lit "part" ++ padded 5 n ++ lit ".m4s".

Definition partsKept (fromEnd target : Z) : bool * bool :=
  let t := Z.max target (2 * 90000) in (fromEnd <? 3 * t, fromEnd <? 6 * t).

Definition openBytes (open : list packedPart) : Z := fold_right (fun p n => zlen (pbody p) + n) 0 open.

(** An encode that takes over: how far its first picture comes after the last one's end. *)
Definition continuation (handover lastKnown nextKnown : bool) (last next : Z) : Z * bool :=
  if (negb handover || negb lastKnown || negb nextKnown)%bool then (0, false) else
  let step := ptsDiff next last in
  if ((step <? - partTicks) || (60 * 90000 <? step))%bool then (0, false) else (Z.max step 0, true).

Definition spanCover (aPTS aDur bPTS bDur : Z) : Z * Z :=
  let pts := if ptsDiff bPTS aPTS <? 0 then bPTS else aPTS in
  let end_ := ptsDiff aPTS pts + aDur in
  let other := ptsDiff bPTS pts + bDur in
  let end_ := if end_ <? other then other else end_ in
  (pts, if end_ <? 0 then 0 else end_).

(** ** The gate of a playlist's requests *)

(** The gate's state; its times are the clock's nanoseconds, 0 before the first. *)
Record playlistGate := mkGate {
  origin : Z; openMSN : Z; openParts : Z; closedParts : list Z;
  firstPart : Z; firstSegment : Z; moved : Z; longest_gap : Z; gtarget : Z; said : Z; retired : bool;
}.
Definition newPlaylistGate : playlistGate := mkGate 0 0 0 [] 0 0 0 0 0 0 false.

Definition retire (g : playlistGate) : playlistGate :=
  mkGate (origin g) (openMSN g) (openParts g) (closedParts g) (firstPart g) (firstSegment g) (moved g) (longest_gap g)
    (gtarget g) (said g) true.

Definition blockFloor : Z := 1500000000.
Definition holdFor (g : playlistGate) : Z := Z.max blockFloor (3 * gtarget g).

(** [judge]: the gate, and what the verdict is told. *)
Definition judge (g : playlistGate) (long : bool) : playlistGate * list bool :=
  let v := if long then 2 else 1 in
  (mkGate (origin g) (openMSN g) (openParts g) (closedParts g) (firstPart g) (firstSegment g) (moved g) (longest_gap g)
     (gtarget g) v (retired g), if said g =? v then [] else [long]).

Section clock.
Context (now : nat -> Z).

(** [stamp.mark], which reads the clock whether or not it is marked. *)
Definition mark (at_ : Z) (reads : nat) : Z * nat := (if at_ =? 0 then now reads else at_, S reads).

Definition publish (g : playlistGate) (reads : nat) (origin' openMSN' openParts' : Z) (closed : list Z) : playlistGate * nat :=
  let ' (part, reads) := if ((0 <? openParts') || (origin' <? openMSN'))%bool then mark (firstPart g) reads else (firstPart g, reads) in
  let ' (seg, reads) := if origin' <? openMSN' then mark (firstSegment g) reads else (firstSegment g, reads) in
  let ' (m, gp, reads) :=
    if (negb (openMSN' =? openMSN g) || negb (openParts' =? openParts g))%bool then
      let t := now reads in
      (t, if (negb (moved g =? 0) && (longest_gap g <? t - moved g))%bool then t - moved g else longest_gap g, S reads)
    else (moved g, longest_gap g, reads) in
  (mkGate origin' openMSN' openParts' closed part seg m gp (gtarget g) (said g) (retired g), reads).
End clock.

(** Whether it has not grown for too long, on the clock's [now]. *)
Definition stuck (g : playlistGate) (now from limit : Z) : bool :=
  if moved g =? 0 then false else
  let since := if moved g <? from then from else moved g in
  Z.max limit (3 * Z.min (longest_gap g) (10 * second)) <? now - since.

(** The loop of [ready]; each pass is one segment on. *)
Fixpoint ready_loop (fuel : nat) (g : playlistGate) (msn part : Z) : bool :=
  if openMSN g <=? msn then ((msn =? openMSN g) && (0 <=? part) && (part <? openParts g))%bool else
  match fuel with
  | O => false
  | S fuel =>
      let back := openMSN g - 1 - msn in
      if ((part <? 0) || (zlen (closedParts g) <=? back))%bool then true else
      match closedParts g !! Z.to_nat (zlen (closedParts g) - 1 - back) with
      | None => true
      | Some n => if ((n =? 0) || (part <? n))%bool then true else ready_loop fuel g (msn + 1) 0
      end
  end.
Definition ready (g : playlistGate) (msn part : Z) : bool := ready_loop (S (length (closedParts g))) g msn part.

(** ** The playlist *)

Definition max_of (l : list Z) (m : Z) : Z := fold_left Z.max l m.

(** What a playlist advertises: the target in ticks and in seconds, the part target. *)
Record aims := mkAims { a_target : Z; targetSec : Z; partTarget : Z }.

Definition longest (closed : list packedSeg) (open : list packedPart) : Z :=
  max_of (map pdur open) (max_of (map sdur closed) partTicks).
Definition longCount (closed : list packedSeg) : Z := zlen (List.filter (fun s => longGroup <? sdur s) closed).

(** The targets, and the ceiling they leave. [known] is what the channel's other
    encodes found. *)
Definition aim (split known : bool) (hold : playlistCeiling) (closed : list packedSeg) (open : list packedPart) :
    aims * playlistCeiling :=
  let l := longest closed open in
  let some := 0 <? zlen closed + zlen open in
  let t := Z.max l (2 * 90000) in
  let t := if ((target hold =? 0) && some && ((longGroup <? l) || known))%bool then Z.max t (4 * 90000) else t in
  let t := Z.max t (target hold) in
  let sec := Z.max ((t + 89999) / 90000) 1 in
  let p := if split then splitPartTicks
           else Z.min (Z.max (max_of (map pdur open) partTicks) (sec * 90000 - 90)) (sec * 90000) in
  let p := Z.max p (part hold) in
  (mkAims t sec p, mkCeiling (if some then t else target hold) p).

Definition fmtDur (ticks : Z) : list Z :=
  fixed3 (fdiv (float64 (if ticks <=? 0 then partTicks else ticks)) (float64 90000)).

(** The hold-backs of a player: the full one, and that of parts, under it. *)
Definition hold_backs (split : bool) (a : aims) : spec_float * spec_float :=
  let partHold := fdiv (fmul (float64 3) (float64 (partTarget a))) (float64 90000) in
  let minHold := float64 (targetSec a) in
  let partHold := if (SFltb partHold minHold && negb split)%bool then minHold else partHold in
  let fullHold := float64 (targetSec a * 3) in
  (fullHold, if SFleb fullHold partHold then fsub fullHold (const 1 3) else partHold).

Definition line (l : list Z) : list Z := l ++ [10].
Definition uri (name : list Z) : list Z := lit "URI=" ++ [34] ++ name ++ [34].

Definition appendPackedPTS (name : list Z) (pts : Z) (timed : bool) : list Z :=
  if (negb timed || says name "")%bool then [] else line (lit "#EXT-X-PTS:" ++ name ++ [58] ++ format_int pts).
Definition appendCont (cont : bool) (step : Z) : list Z :=
  if cont then line (lit "#EXT-X-CONT:" ++ format_int step) else [].
Definition partLine (partTarget : Z) (name : list Z) (dur : Z) (sync : bool) : list Z :=
  let dur := if dur <=? 0 then Z.min partTicks partTarget else dur in
  line (lit "#EXT-X-PART:DURATION=" ++ fmtDur dur ++ (if sync then lit ",INDEPENDENT=YES" else []) ++ lit "," ++ uri name).

Definition head_text (split allSync : bool) (a : aims) (origin : Z) : list Z :=
  let ' (fullHold, partHold) := hold_backs split a in
  line (lit "#EXTM3U") ++ line (lit "#EXT-X-VERSION:9") ++
  line (lit "#EXT-X-TARGETDURATION:" ++ format_int (targetSec a)) ++
  line (lit "#EXT-X-SERVER-CONTROL:CAN-BLOCK-RELOAD=YES,HOLD-BACK=" ++ fixed3 fullHold ++ lit ",PART-HOLD-BACK=" ++ fixed3 partHold ++
        lit ",CAN-SKIP-UNTIL=" ++ format_int (targetSec a * 6) ++ lit ".000") ++
  line (lit "#EXT-X-PART-INF:PART-TARGET=" ++ fmtDur (partTarget a)) ++
  (if allSync then line (lit "#EXT-X-INDEPENDENT-SEGMENTS") else []) ++
  line (lit "#EXT-X-MEDIA-SEQUENCE:" ++ format_int origin) ++
  line (lit "#EXT-X-MAP:" ++ uri (lit "init.mp4")).

(** A part list with one longer than the part target is left out whole. *)
Definition closedFits (partTarget : Z) (s : packedSeg) : bool := forallb (fun p => negb (partTarget <? rdur p)) (parts s).
Definition openFits (partTarget : Z) (open : list packedPart) : bool := forallb (fun p => negb (partTarget <? pdur p)) open.

(** The parts of a closed segment the list still names, [fromEnd] before its end. *)
Definition listed_parts (a : aims) (fromEnd : Z) (s : packedSeg) : list partRef :=
  if (fst (partsKept fromEnd (a_target a)) && closedFits (partTarget a) s)%bool then parts s else [].
Definition seg_text (a : aims) (fromEnd : Z) (s : packedSeg) : list Z :=
  (if gap s then line (lit "#EXT-X-DISCONTINUITY") ++ appendCont (cont s) (step s) else []) ++
  concat (map (fun p => appendPackedPTS (rname p) (rpts p) (rtimed p) ++ partLine (partTarget a) (rname p) (rdur p) (rsync p))
    (listed_parts a fromEnd s)) ++
  appendPackedPTS (sname s) (spts s) (stimed s) ++ line (lit "#EXTINF:" ++ fmtDur (sdur s) ++ lit ",") ++ line (sname s).

(** How far each segment ends before the end of the list. *)
Definition open_dur (open : list packedPart) : Z := fold_right (fun p n => pdur p + n) 0 open.
Fixpoint from_ends (closed : list packedSeg) (open : list packedPart) : list Z :=
  match closed with
  | [] => []
  | _ :: rest => (fold_right (fun s n => sdur s + n) 0 rest + open_dur open) :: from_ends rest open
  end.

Definition closed_text (a : aims) (closed : list packedSeg) (open : list packedPart) : list Z :=
  concat (zip_with (seg_text a) (from_ends closed open) closed).
Definition open_text (a : aims) (brk : openBreak) (open : list packedPart) : list Z :=
  (if (bgap brk && (0 <? zlen open))%bool then line (lit "#EXT-X-DISCONTINUITY") ++ appendCont (bcont brk) (bstep brk) else []) ++
  if openFits (partTarget a) open then
    concat (map (fun p => appendPackedPTS (pname p) (ppts p) (ptimed p) ++ partLine (partTarget a) (pname p) (pdur p) (psync p)) open) ++
    (if says (hint brk) "" then [] else line (lit "#EXT-X-PRELOAD-HINT:TYPE=PART," ++ uri (hint brk)))
  else [].

Definition playlist_text (split allSync : bool) (a : aims) (closed : list packedSeg) (open : list packedPart) (origin : Z)
    (brk : openBreak) : list Z :=
  head_text split allSync a origin ++ closed_text a closed open ++ open_text a brk open.

(** What the gate is told: the open segment's listed parts, and those of the last four closed ones. *)
Definition recent (a : aims) (closed : list packedSeg) : list Z :=
  map (fun s => if closedFits (partTarget a) s then zlen (parts s) else 0) (drop (length closed - 4) closed).
Definition listedOpen (a : aims) (open : list packedPart) : Z := if openFits (partTarget a) open then zlen open else 0.

(** * Proofs *)

(** The part of a closed segment is answered for, its own or the next one's first. *)
Definition in_closed (n part : Z) : Prop := n = 0 \/ part < n.

Lemma ready_loop_open fuel g : ready_loop fuel g (openMSN g) 0 = (0 <? openParts g).
Proof. destruct fuel; cbn [ready_loop]; by rewrite (proj2 (Z.leb_le _ _)), Z.eqb_refl by lia. Qed.

(** The next segment's first part, which a closed one always has. *)
Lemma ready_loop_first fuel g msn : Forall (fun n => 0 <= n) (closedParts g) -> msn < openMSN g -> ready_loop (S fuel) g msn 0 = true.
Proof.
  intros Hc Hm. cbn [ready_loop]. rewrite (proj2 (Z.leb_gt _ _)) by lia. cbn [Z.ltb Z.compare orb].
  destruct (zlen (closedParts g) <=? _); [done |]. destruct (closedParts g !! _) as [n |] eqn:E; [| done].
  assert (0 <= n) as Hn by (rewrite Forall_forall in Hc; apply Hc; by eapply list_elem_of_lookup_2).
  destruct (Z.eqb_spec n 0); [done |]. by rewrite (proj2 (Z.ltb_lt 0 n)) by lia.
Qed.

(** A blocking request is answered exactly when what it asks for is listed: the open
    segment's part, once it has it; a whole segment, once it is closed; a part of
    the last closed segment that the segment does not have, once the open one has
    its first; and anything of an older segment. *)
Theorem ready_exact g msn part : Forall (fun n => 0 <= n) (closedParts g) ->
  ready g msn part = true <->
  msn = openMSN g /\ 0 <= part < openParts g \/
  msn < openMSN g /\ (part < 0 \/ msn + 1 < openMSN g \/ 0 < openParts g \/ forall n, last (closedParts g) = Some n -> in_closed n part).
Proof.
  intros Hc. unfold ready. cbn [ready_loop]. destruct (Z.leb_spec (openMSN g) msn).
  { rewrite !andb_true_iff, Z.eqb_eq, Z.leb_le, Z.ltb_lt. lia. }
  destruct (Z.ltb_spec part 0); cbn [orb]; [split; [right; split; [done | by left] | done] |].
  destruct (Z.leb_spec (zlen (closedParts g)) (openMSN g - 1 - msn)).
  { split; [intros _; right; split; [done |] | done]. destruct (Z.eq_dec (msn + 1) (openMSN g)); [| right; left; lia].
    assert (closedParts g = []) as -> by (apply zlen_0_nil; pose proof (zlen_nonneg (closedParts g)); lia). by do 3 right. }
  destruct (closedParts g !! _) as [n |] eqn:E; cycle 1.
  { apply lookup_ge_None in E. unfold zlen in *. lia. }
  destruct (Z.eq_dec (msn + 1) (openMSN g)) as [Em | Em].
  - rewrite Em, ready_loop_open. assert (last (closedParts g) = Some n) as El.
    { rewrite last_lookup, <- E. f_equal. unfold zlen. lia. }
    destruct (Z.eqb_spec n 0) as [-> |]; cbn [orb]; [split; [| done] | destruct (Z.ltb_spec part n); [split; [| done] |]].
    + intros _. right. split; [done |]. do 3 right. rewrite El. intros ? [= <-]. by left.
    + intros _. right. split; [done |]. do 3 right. rewrite El. intros ? [= <-]. by right.
    + rewrite Z.ltb_lt. split; [intros ?; right; split; [lia | auto] |]. intros [[? ?] | [_ [? | [? | [? | Hn]]]]]; [lia | lia | lia | done |]. destruct (Hn n El); lia.
  - destruct (closedParts g) as [| n0 l] eqn:El; [done |]. rewrite <- El in *.
    assert (ready_loop (length (closedParts g)) g (msn + 1) 0 = true) as ->.
    { rewrite El. cbn [length]. apply ready_loop_first; [done | lia]. }
    split; [intros _; right; split; [done |]; right; left; lia | by destruct (_ || _)%bool].
Qed.

Lemma ready_exact_witness : ready (mkGate 0 3 0 [2; 3] 0 0 0 0 0 0 false) 2 3 = false.
Proof.
  apply not_true_is_false. intros H. apply (ready_exact (mkGate 0 3 0 [2; 3] 0 0 0 0 0 0 false) 2 3) in H; [| by repeat constructor].
  cbn in H. destruct H as [[? _] | [_ [? | [? | [? | Hn]]]]]; [lia | lia | lia | lia |]. destruct (Hn 3 eq_refl); lia.
Defined.
