(* ===== verification/LivePack.v ===== *)
(** The packager, [Pack] of [server/internal/live/pack.go]: an encode's fragments
    to parts, segments and playlists on disk.

    The state is [Pack]'s local variables, the files of its directory with the
    writes in their order, its gate and its reader. A write or a rename may fail
    ([takes], [renames]) and ends it; removing a file does not. The log is left out. *)
From S2P Require Import Prelude GoNum GoText GoFloat Fmp4 Fmp4Edits LivePlaylist.
Local Open Scope Z_scope.
Local Open Scope go_scope.

(** Why [Pack] returned. *)
Inductive stop := DiskFailed | NoVideo | HeaderDiffers | TooLarge | Broken.
Definition run (A : Type) : Type := (A + stop)%type.
Definition go {A B} (m : run A) (f : A -> run B) : run B := match m with inl a => f a | inr e => inr e end.
Notation "'let?' x ':=' m 'in' k" := (go m (fun x => k))
  (at level 10, x name, m at level 100, k at level 200) : go_scope.

(** ** The directory *)

Notation bytes := (list Z) (only parsing).
Record disk := mkDisk { files : gmap (list Z) bytes; wrote : list (list Z * bytes) }.
Definition Remove (d : disk) (name : list Z) : disk := mkDisk (delete name (files d)) (wrote d).
Definition remove_all (d : disk) (names : list (list Z)) : disk := fold_left Remove names d.

(** ** The reader *)

Record encodeSpan := mkSpan { seq_no : Z; offset_at : Z; line_at : Z }.
Record packInput := mkInput {
  offset : Z; in_known : bool; encodes : Z; startOK : bool; spans : list encodeSpan; takeover_in : bool;
}.
Definition spanKeep : nat := 1024.
Definition no_input : packInput := mkInput 0 false 0 false [] false.

(** [noteEncodeStart], of the start in ticks of the broadcast clock *)
Definition noteEncodeStart (i : packInput) (off : Z) (ok : bool) : packInput :=
  let same := (takeover_in i && in_known i && startOK i && ok && (off =? offset i))%bool in
  let n := encodes i + 1 in
  mkInput off (ok && ((n =? 1) || same)) n ok (spans i) (takeover_in i).

(** The spans kept are the last ones. *)
Definition noteFirstSegment (line : Z -> Z) (i : packInput) (seq : Z) : packInput :=
  let s := spans i ++ [mkSpan seq (offset i) (if startOK i then line seq else -1)] in
  mkInput (offset i) (in_known i) (encodes i) (startOK i) (drop (length s - spanKeep) s) (takeover_in i).

Definition encodeAt (i : packInput) (seq : Z) : option encodeSpan * bool :=
  match List.find (fun s => seq_no s <=? seq) (reverse (spans i)) with
  | Some s => (Some s, 0 <=? line_at s)
  | None => (None, false)
  end.
Definition broadcastOffset (i : packInput) : Z * bool := (offset i, in_known i).
Definition started (i : packInput) : bool := 0 <? encodes i.

(** ** The state *)

(** A fragment as the packager reads it: its start, its length, and whether its
    first picture is a keyframe. *)
Record fragment := mkFrag { fbody : bytes; fstart : option Z; fdur : Z; fsync : bool }.
(** A short keyframe fragment kept back, or a part being gathered. *)
Record held := mkHeld { hbody : bytes; hpts : Z; hdur : Z; hsync : bool; hfresh : bool; hhandover : bool }.

(** The list: what is open, what is closed, the numbers of the next part and of the open segment. *)
Record listing := mkListing {
  open : list packedPart; closed : list packedSeg; partN : Z; msn : Z; segGap : bool; segCont : bool; segStep : Z;
  allSync : bool; hold : playlistCeiling;
}.
(** The clock: where the last fragment was, and the encodes' places on the broadcast's. *)
Record clocks := mkClocks {
  lastPTS : Z; lastDur : Z; haveLast : bool; encStart : Z; prevStart : Z; encKnown : bool; prevKnown : bool;
}.
(** What is gathered. *)
Record gathering := mkGathering { short : option held; acc : option held; goal : Z; lastKey : Z; haveKey : bool }.
Record packer := mkPacker {
  fs : disk; gate : playlistGate; verdicts : list bool; reads : nat; input : packInput;
  pl : listing; ck : clocks; handover : bool; fresh : bool; gt : gathering;
}.

Definition fresh_listing : listing := mkListing [] [] 0 0 false false 0 true (mkCeiling 0 0).
Definition fresh_gathering : gathering := mkGathering None None splitGoalTicks 0 false.

(** Fields set, the others kept. *)
Definition with_fs (d : disk) (s : packer) : packer :=
  mkPacker d (gate s) (verdicts s) (reads s) (input s) (pl s) (ck s) (handover s) (fresh s) (gt s).
Definition with_input (i : packInput) (s : packer) : packer :=
  mkPacker (fs s) (gate s) (verdicts s) (reads s) i (pl s) (ck s) (handover s) (fresh s) (gt s).
Definition with_pl (l : listing) (s : packer) : packer :=
  mkPacker (fs s) (gate s) (verdicts s) (reads s) (input s) l (ck s) (handover s) (fresh s) (gt s).
Definition with_ck (c : clocks) (s : packer) : packer :=
  mkPacker (fs s) (gate s) (verdicts s) (reads s) (input s) (pl s) c (handover s) (fresh s) (gt s).
Definition with_marks (h f : bool) (s : packer) : packer :=
  mkPacker (fs s) (gate s) (verdicts s) (reads s) (input s) (pl s) (ck s) h f (gt s).
Definition with_gt (g : gathering) (s : packer) : packer :=
  mkPacker (fs s) (gate s) (verdicts s) (reads s) (input s) (pl s) (ck s) (handover s) (fresh s) g.
Definition with_open (o : list packedPart) (l : listing) : listing :=
  mkListing o (closed l) (partN l) (msn l) (segGap l) (segCont l) (segStep l) (allSync l) (hold l).
Definition with_gap (g c : bool) (st : Z) (l : listing) : listing :=
  mkListing (open l) (closed l) (partN l) (msn l) g c st (allSync l) (hold l).
Definition with_sync (b : bool) (l : listing) : listing :=
  mkListing (open l) (closed l) (partN l) (msn l) (segGap l) (segCont l) (segStep l) b (hold l).
Definition with_hold (h : playlistCeiling) (l : listing) : listing :=
  mkListing (open l) (closed l) (partN l) (msn l) (segGap l) (segCont l) (segStep l) (allSync l) h.
Definition with_closed (c : list packedSeg) (l : listing) : listing :=
  mkListing (open l) c (partN l) (msn l) (segGap l) (segCont l) (segStep l) (allSync l) (hold l).
Definition with_short (h : option held) (g : gathering) : gathering := mkGathering h (acc g) (goal g) (lastKey g) (haveKey g).
Definition with_acc (h : option held) (g : gathering) : gathering := mkGathering (short g) h (goal g) (lastKey g) (haveKey g).

(** The segment's first part and its last one. *)
Definition first_pts (o : list packedPart) : Z := match o with p :: _ => ppts p | [] => 0 end.
Definition last_part (o : list packedPart) : packedPart := List.last o (mkPart [] 0 0 [] false false).
(** The end of the open segment by its last part. *)
Definition own_end (o : list packedPart) : Z :=
  let p := last_part o in ppts p + (if 0 <? pdur p then pdur p else partTicks).
(** [open[len(open)-1].dur = d] *)
Definition set_last_dur (o : list packedPart) (d : Z) : list packedPart :=
  match reverse o with
  | p :: ps => reverse ps ++ [mkPart (pname p) (ppts p) d (pbody p) (psync p) (ptimed p)]
  | [] => []
  end.

Section pack.
Context (takes : gmap (list Z) bytes -> list Z -> bytes -> bool) (renames : gmap (list Z) bytes -> bool).
Context (now : nat -> Z) (known_long : bool) (line : Z -> Z) (split : bool).

Definition WriteFile (d : disk) (name : list Z) (b : bytes) : run disk :=
  if takes (files d) name b then inl (mkDisk (<[name := b]> (files d)) (wrote d ++ [(name, b)])) else inr DiskFailed.

(** ** A segment closes *)

(** The parts' files give way to pointers into the segment's. *)
Definition ref_name (part : list Z) : list Z := take (length part - 4) part ++ lit ".ref".
Definition ref_line (seg : list Z) (off size total : Z) : list Z :=
  seg ++ [32] ++ format_int off ++ [32] ++ format_int size ++ [32] ++ format_int total ++ [10].
Fixpoint refer_loop (d : disk) (seg : list Z) (total off : Z) (ps : list partRef) : disk * list (list Z) :=
  match ps with
  | [] => (d, [])
  | p :: ps =>
      let d := Remove d (rname p) in
      let ' (d, ref) :=
        if 0 <? rsize p then
          match WriteFile d (ref_name (rname p)) (ref_line seg off (rsize p) total) with
          | inl d => (d, [ref_name (rname p)])
          | inr _ => (d, [])
          end
        else (d, []) in
      let ' (d, more) := refer_loop d seg total (off + rsize p) ps in
      (d, ref ++ more)
  end.
Definition total_size (ps : list partRef) : Z := fold_right (fun p n => rsize p + n) 0 ps.
Definition referParts (d : disk) (s : packedSeg) : disk * list (list Z) :=
  refer_loop d (sname s) (total_size (parts s)) 0 (parts s).

Definition no_parts (s : packedSeg) : bool := match parts s with [] => true | _ => false end.
Definition with_refs (s : packedSeg) (r : list (list Z)) : packedSeg :=
  mkSeg (sname s) (spts s) (sdur s) [] (gap s) (stimed s) (cont s) (step s) r.

(** The loop over the closed segments from the newest, [fromEnd] before the end;
    it stops at one whose parts are gone before it. *)
Fixpoint refer_old (target : Z) (d : disk) (fromEnd : Z) (newest : list packedSeg) : disk * list packedSeg :=
  match newest with
  | [] => (d, [])
  | s :: older =>
      if snd (partsKept fromEnd target) then
        let ' (d, l) := refer_old target d (fromEnd + sdur s) older in (d, s :: l)
      else
        let ' (d, s) := if no_parts s then (d, s) else let ' (d, r) := referParts d s in (d, with_refs s r) in
        match older with
        | o :: _ => if no_parts o then (d, s :: older) else
                    let ' (d, l) := refer_old target d (fromEnd + sdur s) older in (d, s :: l)
        | [] => (d, [s])
        end
  end.

(** The oldest segments go once the list is longer than the window. *)
Definition durations (l : list packedSeg) : Z := fold_right (fun s n => sdur s + n) 0 l.
Fixpoint trim_window (d : disk) (kept : Z) (l : list packedSeg) : disk * list packedSeg :=
  match l with
  | old :: rest =>
      if ((3 <? zlen l) && (windowTicks <? kept))%bool then
        trim_window (remove_all d (sname old :: map rname (parts old) ++ refs old)) (kept - sdur old) rest
      else (d, l)
  | [] => (d, [])
  end.

Definition ref_of (p : packedPart) : partRef :=
  mkRef (pname p) (pdur p) (psync p) (zlen (pbody p)) (ppts p) (ptimed p).

Definition closeSeg (end_ : Z) (s : packer) : run packer :=
  let l := pl s in
  match open l with
  | [] => inl s
  | p0 :: _ =>
      let name := seg_name (msn l) in
      let? d := WriteFile (fs s) name (concat (map pbody (open l))) in
      let dur := ptsDiff end_ (ppts p0) in
      let dur := if dur <=? 0 then partTicks else dur in
      let seg := mkSeg name (ppts p0) dur (map ref_of (open l)) (segGap l) (ptimed p0) (segGap l && segCont l) (segStep l) [] in
      let ' (d, kept) := trim_window d (durations (closed l ++ [seg])) (closed l ++ [seg]) in
      let ' (d, newest) := refer_old (Z.max (target (hold l)) dur) d 0 (reverse kept) in
      inl (with_fs d (with_pl (mkListing [] (reverse newest) (partN l) (msn l + 1) false false 0 (allSync l) (hold l)) s))
  end.

(** ** The playlist is written *)

Definition flush (init : bytes) (s : packer) : run packer :=
  let l := pl s in
  if zlen init =? 0 then inl s else
  let n := longCount (closed l) in
  let ' (g, said) := if longEvidence <=? n then judge (gate s) true
                     else if ((n =? 0) && (shortEvidence <=? zlen (closed l)))%bool then judge (gate s) false
                     else (gate s, []) in
  let ' (a, h) := aim split known_long (hold l) (closed l) (open l) in
  let brk := mkBreak (segGap l) (segGap l && segCont l) (segStep l) (part_name (partN l)) in
  let org := msn l - zlen (closed l) in
  let text := playlist_text split (allSync l) a (closed l) (open l) org brk in
  let? d := WriteFile (fs s) (lit "index.m3u8.tmp") text in
  if negb (renames (files d)) then inr DiskFailed else
  let d := mkDisk (<[lit "index.m3u8" := text]> (delete (lit "index.m3u8.tmp") (files d))) (wrote d) in
  let g := mkGate (origin g) (openMSN g) (openParts g) (closedParts g) (firstPart g) (firstSegment g) (moved g) (longest_gap g)
             (targetSec a * second) (LivePlaylist.said g) (retired g) in
  let ' (g, reads) := publish now g (reads s) org (org + zlen (closed l)) (listedOpen a (open l)) (recent a (closed l)) in
  inl (mkPacker d g (verdicts s ++ said) reads (input s) (with_hold h l) (ck s) (handover s) (fresh s) (gt s)).

(** ** A part is placed *)

(** A step of the clock that is not one more group of pictures, and what the
    segment after it is told. *)
Definition expected (c : clocks) : Z := if 0 <? lastDur c then lastPTS c + lastDur c else lastPTS c.
Definition jump_at (s : packer) (pts : Z) : bool :=
  let d := ptsDiff pts (expected (ck s)) in
  (haveLast (ck s) && ((d <? - partTicks) || (jumpTicks <? d) || handover s))%bool.
Definition break_line (pts : Z) (s : packer) : run packer :=
  let e := expected (ck s) in
  let? s := closeSeg e s in
  let ' (st, c) := continuation (handover s) (prevKnown (ck s)) (encKnown (ck s)) (e + prevStart (ck s)) (pts + encStart (ck s)) in
  inl (with_pl (with_gap true c st (pl s)) s).

Definition note_first (s : packer) : packer :=
  let s' := with_marks false false s in
  if (fresh s && (zlen (open (pl s)) =? 0))%bool then with_input (noteFirstSegment line (input s) (msn (pl s))) s' else s'.

(** The last part's length from the next start, and the close on a keyframe. *)
Definition close_group (pts : Z) (sync : bool) (s : packer) : run packer :=
  let o := open (pl s) in
  if zlen o =? 0 then inl s else
  let o := if pdur (last_part o) =? 0 then
             let st := ptsDiff pts (ppts (last_part o)) in if 0 <? st then set_last_dur o st else o
           else o in
  let s := with_pl (with_open o (pl s)) s in
  let short := (split && (pdur (last_part o) <? splitMinTicks))%bool in
  if (sync && (short || (partTicks <=? ptsDiff pts (first_pts o))))%bool then closeSeg pts s else inl s.

Definition close_full (frag : bytes) (s : packer) : run packer :=
  let o := open (pl s) in
  if ((0 <? zlen o) && (maxOpenBytes <? openBytes o + zlen frag))%bool then closeSeg (own_end o) s else inl s.

Definition add_part (frag : bytes) (pts dur : Z) (sync : bool) (s : packer) : run packer :=
  let l := pl s in
  let l := if ((zlen (open l) =? 0) && negb sync)%bool then with_sync false l else l in
  let c := ck s in
  let name := part_name (partN l) in
  let? d := WriteFile (fs s) name frag in
  let l := mkListing (open l ++ [mkPart name pts dur frag sync true]) (closed l) (partN l + 1) (msn l) (segGap l) (segCont l)
             (segStep l) (allSync l) (hold l) in
  inl (with_fs d (with_ck (mkClocks pts dur true (encStart c) (prevStart c) (encKnown c) (prevKnown c)) (with_pl l s))).

Definition close_whole (pts dur : Z) (sync : bool) (s : packer) : run packer :=
  if (negb split && sync && (0 <? dur) && (partTicks <=? ptsDiff (pts + dur) (first_pts (open (pl s)))))%bool
  then closeSeg (pts + dur) s else inl s.

Definition place (init frag : bytes) (pts dur : Z) (sync : bool) (s : packer) : run packer :=
  let jumped := jump_at s pts in
  let? s := (if jumped then break_line pts s else inl s) in
  let s := note_first s in
  let? s := (if jumped then inl s else close_group pts sync s) in
  let? s := close_full frag s in
  let? s := add_part frag pts dur sync s in
  let? s := close_whole pts dur sync s in
  flush init s.

(** A part kept back goes out with the marks of the encode it came with. *)
Definition place_held (init : bytes) (h : held) (s : packer) : run packer :=
  let f := fresh s in
  let ho := handover s in
  let? s := place init (hbody h) (hpts h) (hdur h) (hsync h) (with_marks (hhandover h) (hfresh h) s) in
  inl (with_marks ho f s).
Definition placeShort (init : bytes) (s : packer) : run packer :=
  match short (gt s) with
  | None => inl s
  | Some h => place_held init h (with_gt (with_short None (gt s)) s)
  end.
Definition placeAcc (init : bytes) (s : packer) : run packer :=
  match acc (gt s) with
  | None => inl s
  | Some h => place_held init h (with_gt (with_acc None (gt s)) s)
  end.

(** ** Fragments of an encode that cuts inside a group *)

Definition closes (s : packer) (a : held) (pts : Z) : bool :=
  let start := match open (pl s) with p :: _ => ppts p | [] => hpts a end in partTicks <=? ptsDiff pts start.

(** Whether the fragment joins the part being gathered. *)
Definition merges (s : packer) (a : held) (frag : bytes) (pts dur : Z) (sync : bool) : bool :=
  let d := ptsDiff pts (hpts a + hdur a) in
  if (fresh s || handover s || (d <? - partTicks) || (jumpTicks <? d) || (maxOpenBytes <? zlen (hbody a) + zlen frag))%bool then false
  else if (sync && (hdur a <? splitMinTicks) && (hsync a || negb (closes s a pts)))%bool then true
  else if sync then false
  else if ((splitMinTicks <=? hdur a) && ((splitPartTicks <? hdur a + dur) || (2 * goal (gt s) <=? 2 * hdur a + dur)))%bool then false
  else if splitPartTicks <? hdur a + dur then false
  else true.
Definition merged (a : held) (frag : bytes) (pts dur : Z) : held :=
  mkHeld (hbody a ++ frag) (if ptsDiff pts (hpts a) <? 0 then pts else hpts a) (hdur a + dur) (hsync a) (hfresh a) (hhandover a).

(** A keyframe sets the goal by the group before it. *)
Definition note_key (pts : Z) (g : gathering) : gathering :=
  let group := ptsDiff pts (lastKey g) in
  let goal' := if (haveKey g && (0 <? group) && (group <? jumpTicks))%bool then
                 let n := Z.max 1 (Z.quot (group + Z.quot splitGoalTicks 2) splitGoalTicks) in
                 Z.min (Z.max (Z.quot group n) splitMinTicks) splitPartTicks
               else goal g in
  mkGathering (short g) (acc g) goal' pts true.

Definition begin_part (frag : bytes) (pts dur : Z) (sync : bool) (s : packer) : packer :=
  let g := if sync then note_key pts (gt s) else gt s in
  with_marks false false (with_gt (with_acc (Some (mkHeld frag pts dur sync (fresh s) (handover s))) g) s).

Definition gather (init : bytes) (f : fragment) (s : packer) : run packer :=
  match fstart f, acc (gt s) with
  | None, None => inl s
  | None, Some a =>
      if zlen (hbody a) + zlen (fbody f) <=? maxOpenBytes
      then inl (with_gt (with_acc (Some (mkHeld (hbody a ++ fbody f) (hpts a) (hdur a) (hsync a) (hfresh a) (hhandover a))) (gt s)) s)
      else inl s
  | Some pts, None => inl (begin_part (fbody f) pts (fdur f) (fsync f) s)
  | Some pts, Some a =>
      if merges s a (fbody f) pts (fdur f) (fsync f) then inl (with_gt (with_acc (Some (merged a (fbody f) pts (fdur f))) (gt s)) s)
      else let? s := placeAcc init s in inl (begin_part (fbody f) pts (fdur f) (fsync f) s)
  end.

(** ** Fragments of a whole group *)

(** A short keyframe fragment waits for the next one; the two go out as one. *)
Definition hold_or_place (init body : bytes) (pts dur : Z) (sync : bool) (s : packer) : run packer :=
  if (sync && (0 <? dur) && (dur <? minPartTicks) && (zlen body <=? maxOpenBytes))%bool
  then inl (with_marks false false (with_gt (with_short (Some (mkHeld body pts dur true (fresh s) (handover s))) (gt s)) s))
  else place init body pts dur sync s.

Definition take_frag (init : bytes) (f : fragment) (s : packer) : run packer :=
  if split then gather init f s else
  match fstart f, short (gt s) with
  | None, _ => inl s
  | Some pts, None => hold_or_place init (fbody f) pts (fdur f) (fsync f) s
  | Some pts, Some h =>
      let d := ptsDiff pts (hpts h + hdur h) in
      if (fresh s || handover s || (d <? - partTicks) || (jumpTicks <? d))%bool then
        let? s := placeShort init s in hold_or_place init (fbody f) pts (fdur f) (fsync f) s
      else
        let ' (pts, dur) := if 0 <? fdur f then spanCover (hpts h) (hdur h) pts (fdur f) else (hpts h, fdur f) in
        hold_or_place init (hbody h ++ fbody f) pts dur true
          (with_marks (hhandover h) (hfresh h) (with_gt (with_short None (gt s)) s))
  end.

(** The end of the last encode. *)
Definition finish_pack (init : bytes) (s : packer) : run packer :=
  let? s := placeShort init s in
  let? s := placeAcc init s in
  match open (pl s) with
  | [] => inl s
  | o => let? s := closeSeg (own_end o) s in flush init s
  end.
End pack.

(** * The loop over the reader *)

(** [firstSampleFlags] *)
Definition default_flags (tfhd : list Z) : res (option Z) :=
  if zlen tfhd <? 8 then Ok None else
  let! f := flags_of tfhd in
  if negb (bit f 0x20) then Ok None else
  let off := 8 + (if bit f 0x1 then 8 else 0) + (if bit f 0x2 then 4 else 0) + (if bit f 0x8 then 4 else 0) +
    (if bit f 0x10 then 4 else 0) in
  if zlen tfhd <? off + 4 then Ok None else let! v := u32_at tfhd off in Ok (Some v).
Definition run_flags (trun : list Z) : res (option Z) :=
  if zlen trun <? 8 then Ok None else
  let! f := flags_of trun in
  let off := 8 + (if bit f 0x1 then 4 else 0) in
  if bit f 0x4 then (if off + 4 <=? zlen trun then let! v := u32_at trun off in Ok (Some v) else Ok None) else
  if negb (bit f 0x400) then Ok None else
  let! n := u32_at trun 4 in
  let off := off + (if bit f 0x100 then 4 else 0) + (if bit f 0x200 then 4 else 0) in
  if ((0 <? n) && (off + 4 <=? zlen trun))%bool then let! v := u32_at trun off in Ok (Some v) else Ok None.
Definition firstSampleFlags (tfhd trun : list Z) : res (option Z) :=
  let! r := run_flags trun in
  match r with Some v => Ok (Some v) | None => default_flags tfhd end.

Definition fragmentIndependent (seg : list Z) (track : Z) : res bool :=
  let! moof := child seg "moof" in
  let! ts := boxes moof in
  let! t := traf_of ts track in
  match t with
  | None => Ok false
  | Some (bs, tfhd) =>
      let! f := firstSampleFlags tfhd (child_of bs "trun") in
      Ok (match f with Some f => Z.land f 0x10000 =? 0 | None => false end)
  end.

(** What the packager reads of a fragment. *)
Definition read_fragment (track scale : Z) (b : bytes) : res fragment :=
  let! s := fragmentStart b track scale in
  match s with
  | None => Ok (mkFrag b None 0 false)
  | Some pts =>
      let! d := fragmentDuration b track scale in
      let! k := fragmentIndependent b track in
      Ok (mkFrag b (Some pts) (default 0 d) k)
  end.

(** [peelBox]: a whole box and what follows it. *)
Definition peelBox (b : bytes) : res (option (bytes * bytes)) :=
  if zlen b <? 8 then Ok None else
  let! s := u32_at b 0 in
  let! ' (size, head) :=
    if negb (s =? 1) then Ok (Some s, 8)
    else if zlen b <? 16 then Ok (None, 16)
    else let! x := slice b 8 16 in let! n := uint64 x in Ok (Some (int64 n), 16) in
  match size with
  | None => Ok None
  | Some size =>
      if ((size <? head) || (zlen b <? size))%bool then Ok None else
      let! box := slice b 0 size in let! rest := slice_from b size in Ok (Some (box, rest))
  end.

(** [Pack]'s other variables. An encode's first picture is [leadFloor]; the box of
    a fragment's header waits in [moof]; [reinit] is the next encode's header. *)
Record reader := mkReader {
  pk : packer; header : bytes; haveInit : bool; shifts : gmap Z Z; scales : gmap Z Z; track : Z; scale : Z;
  leadIn : bool; leadFloor : Z; reinit : bytes; moof : option bytes; takeover : bool; skipping : bool; skipTo : Z;
  decEnd : Z; haveDec : bool; buf : bytes;
}.
Definition with_pk (p : packer) (r : reader) : reader :=
  mkReader p (header r) (haveInit r) (shifts r) (scales r) (track r) (scale r) (leadIn r) (leadFloor r) (reinit r) (moof r)
    (takeover r) (skipping r) (skipTo r) (decEnd r) (haveDec r) (buf r).
Definition with_moof (m : option bytes) (r : reader) : reader :=
  mkReader (pk r) (header r) (haveInit r) (shifts r) (scales r) (track r) (scale r) (leadIn r) (leadFloor r) (reinit r) m
    (takeover r) (skipping r) (skipTo r) (decEnd r) (haveDec r) (buf r).
Definition with_lead (i : bool) (f : Z) (r : reader) : reader :=
  mkReader (pk r) (header r) (haveInit r) (shifts r) (scales r) (track r) (scale r) i f (reinit r) (moof r)
    (takeover r) (skipping r) (skipTo r) (decEnd r) (haveDec r) (buf r).
Definition with_skip (b : bool) (r : reader) : reader :=
  mkReader (pk r) (header r) (haveInit r) (shifts r) (scales r) (track r) (scale r) (leadIn r) (leadFloor r) (reinit r) (moof r)
    (takeover r) b (skipTo r) (decEnd r) (haveDec r) (buf r).
Definition with_dec (e : Z) (r : reader) : reader :=
  mkReader (pk r) (header r) (haveInit r) (shifts r) (scales r) (track r) (scale r) (leadIn r) (leadFloor r) (reinit r) (moof r)
    (takeover r) (skipping r) (skipTo r) e true (buf r).
Definition with_buf (b : bytes) (r : reader) : reader :=
  mkReader (pk r) (header r) (haveInit r) (shifts r) (scales r) (track r) (scale r) (leadIn r) (leadFloor r) (reinit r) (moof r)
    (takeover r) (skipping r) (skipTo r) (decEnd r) (haveDec r) b.

Section loop.
Context `{FloatText}.
Context (takes : gmap (list Z) bytes -> list Z -> bytes -> bool) (renames : gmap (list Z) bytes -> bool).
Context (now : nat -> Z) (known_long : bool) (line : Z -> Z) (split : bool).

(** Where fragment time zero sits on the broadcast clock, in ticks. *)
Definition start_ticks (first : spec_float) : Z := Z.rem (round_int (fmul first (float64 90000))) ptsWrap.
Definition begin_encode (first : spec_float) (ok : bool) (s : packer) : packer :=
  let off := start_ticks first in
  let c := ck s in
  with_marks (handover s) true
    (with_ck (mkClocks (lastPTS c) (lastDur c) (haveLast c) off (encStart c) ok (encKnown c))
       (with_input (noteEncodeStart (input s) off ok) s)).

(** The first encode's header is read: [moov] ends it. *)
Definition first_header (r : reader) (box : bytes) (is_moov : bool) : res (run reader) :=
  let h := header r ++ box in
  let put h have sh sc tr ts p := mkReader p h have sh sc tr ts (leadIn r) (leadFloor r) (reinit r) (moof r)
    (takeover r) (skipping r) (skipTo r) (decEnd r) (haveDec r) (buf r) in
  if negb is_moov then Ok (inl (put h (haveInit r) (shifts r) (scales r) (track r) (scale r) (pk r))) else
  let! ' (h, sh, first) := flattenEdits h in
  let s := begin_encode first (match sh with Some _ => true | None => false end) (pk r) in
  let c := ck s in
  let s := with_ck (mkClocks (lastPTS c) (lastDur c) (haveLast c) (encStart c) (prevStart (ck (pk r))) (encKnown c) (prevKnown (ck (pk r)))) s in
  let! v := videoTrack h in
  match v with
  | None => Ok (inr NoVideo)
  | Some (id, sc) =>
      let! scs := trackScales h in
      Ok (let? d := WriteFile takes (fs s) (lit "init.mp4") h in
          inl (put h true (default ∅ sh) scs id sc (with_fs d s)))
  end.

(** A later encode's header: it must describe the same streams. *)
Definition next_header (r : reader) (box : bytes) (is_moov : bool) : res (run reader) :=
  let h := reinit r ++ box in
  if negb is_moov then
    Ok (inl (mkReader (pk r) (header r) (haveInit r) (shifts r) (scales r) (track r) (scale r) (leadIn r) (leadFloor r) h (moof r)
      (takeover r) (skipping r) (skipTo r) (decEnd r) (haveDec r) (buf r))) else
  let! ' (next, sh, first) := flattenEdits h in
  let s := begin_encode first (match sh with Some _ => true | None => false end) (pk r) in
  let! same := if bytes_equal next (header r) then Ok true else if takeover r then sameMedia next (header r) else Ok false in
  if negb same then Ok (inr HeaderDiffers) else
  let skips := (takeover r && haveDec r)%bool in
  let to := if skips then Z.rem (Z.rem (decEnd r + prevStart (ck s) - encStart (ck s)) ptsWrap + ptsWrap) ptsWrap else skipTo r in
  let! scs := trackScales next in
  Ok (inl (mkReader s (header r) (haveInit r) (default ∅ sh) scs (track r) (scale r) true (-1) [] (moof r)
    (takeover r) (skips || skipping r)%bool to (decEnd r) (haveDec r) (buf r))).

(** Whether a takeover encode has reached where the lead's pictures ended. *)
Definition reached (r : reader) (frag : bytes) : res (option Z) :=
  let! d := fragmentDecode frag (track r) (scale r) in
  match d with
  | None => Ok None
  | Some (dec, _) =>
      let g := ptsDiff dec (skipTo r) in
      if g <? - spliceSlack then Ok None else
      let! k := fragmentIndependent frag (track r) in
      Ok (if k then Some g else None)
  end.

(** The lead-in of an encode is cut from its first fragment, and from the next
    ones where that one had only the lead-in. *)
Definition trim_lead (r : reader) (frag : bytes) : res (reader * bytes) :=
  let! p := fragmentPTS frag (track r) (scale r) in
  match p with
  | Some _ =>
      if (leadIn r || (0 <=? leadFloor r))%bool then
        let! ' (frag, picture, gone) := trimLeadInFrom frag (track r) (scales r) (if leadIn r then -1 else leadFloor r) in
        Ok (with_lead false (if gone then picture else -1) r, frag)
      else Ok (r, frag)
  | None => Ok (r, frag)
  end.

Definition take_fragment (r : reader) (frag : bytes) : res (run reader) :=
  let! ' (r, frag) := trim_lead r frag in
  let! d := fragmentDecode frag (track r) (scale r) in
  let r := match d with Some (_, e) => with_dec e r | None => r end in
  if negb (haveInit r) then Ok (inl r) else
  let! f := read_fragment (track r) (scale r) frag in
  Ok (let? s := take_frag takes renames now known_long line split (header r) f (pk r) in inl (with_pk s r)).

Definition box_step (r : reader) (box : bytes) : res (run reader) :=
  let! kind := slice box 4 8 in
  if says kind "moof" then Ok (inl (with_moof (Some box) r))
  else if says kind "mdat" then
    match moof r with
    | None => Ok (inl r)
    | Some m =>
        let r := with_moof None r in
        let! frag := shiftTracks (m ++ box) (shifts r) in
        if skipping r then
          let! g := reached r frag in
          match g with
          | None => Ok (inl r)
          | Some g =>
              let r := with_lead false (-1) (with_skip false r) in
              let r := if g <=? spliceSlack then with_pk (with_marks false (fresh (pk r)) (pk r)) r else r in
              take_fragment r frag
          end
        else take_fragment r frag
    end
  else match moof r with
       | Some _ => Ok (inl r)
       | None =>
           if haveInit r then
             if (says kind "ftyp" || (0 <? zlen (reinit r)))%bool then next_header r box (says kind "moov") else Ok (inl r)
           else first_header r box (says kind "moov")
       end.

(** The boxes that are whole. *)
Fixpoint box_loop (fuel : nat) (r : reader) : res (run reader) :=
  let! b := peelBox (buf r) in
  match b with
  | None => Ok (inl r)
  | Some (box, rest) =>
      match fuel with
      | O => NoFuel
      | S fuel =>
          let! q := box_step (with_buf rest r) box in
          match q with inl r => box_loop fuel r | inr e => Ok (inr e) end
      end
  end.

(** What a read gives: bytes, the end of one encode with the next one's output
    behind it ([true] when that one takes over from a sound lead), the end, or an
    error. *)
Inductive event := Bytes (b : bytes) | NextEncode (takes_over : bool) | Eof | Failed.

Definition read_step (r : reader) (e : event) : res (run reader) :=
  let! q := box_loop (length (buf r ++ (match e with Bytes b => b | _ => [] end)))
              (match e with Bytes b => with_buf (buf r ++ b) r | _ => r end) in
  match q with
  | inr e => Ok (inr e)
  | inl r =>
      if maxBox <? zlen (buf r) then Ok (inr TooLarge) else
      match e with
      | Bytes _ => Ok (inl r)
      | NextEncode t =>
          let i := input (pk r) in
          let i := mkInput (offset i) (in_known i) (encodes i) (startOK i) (spans i) t in
          Ok (inl (mkReader (with_marks true (fresh (pk r)) (with_input i (pk r))) (header r) (haveInit r) (shifts r) (scales r)
            (track r) (scale r) (leadIn r) (leadFloor r) [] None t false (skipTo r) (decEnd r) (haveDec r) []))
      | Eof => Ok (let? s := finish_pack takes renames now known_long line split (header r) (pk r) in inl (with_pk s r))
      | Failed => Ok (inr Broken)
      end
  end.
Fixpoint Pack (r : reader) (es : list event) : res (run reader) :=
  match es with
  | [] => Ok (inl r)
  | e :: es => let! q := read_step r e in match q with inl r => Pack r es | inr e => Ok (inr e) end
  end.
End loop.

Definition fresh_packer : packer :=
  mkPacker (mkDisk ∅ []) newPlaylistGate [] 0 no_input fresh_listing (mkClocks 0 0 false 0 0 false false) false false fresh_gathering.
Definition fresh_reader : reader :=
  mkReader fresh_packer [] false ∅ ∅ 0 0 true (-1) [] None false false 0 0 false [].

(** * Proofs *)

(** [ends m Q]: [m], if it did not stop, ends in a state with [Q]. *)
Definition ends {A} (m : run A) (Q : A -> Prop) : Prop := match m with inl a => Q a | inr _ => True end.

Lemma ends_go {A B} (m : run A) (f : A -> run B) (Q : B -> Prop) : ends m (fun a => ends (f a) Q) -> ends (go m f) Q.
Proof. by destruct m. Qed.
Lemma ends_mono {A} (m : run A) (P Q : A -> Prop) : ends m P -> (forall a, P a -> Q a) -> ends m Q.
Proof. destruct m; cbn; auto. Qed.
Lemma ends_if {A} (c : bool) (m n : run A) Q : (c = true -> ends m Q) -> (c = false -> ends n Q) -> ends (if c then m else n) Q.
Proof. destruct c; auto. Qed.
Lemma ends_eq {A} (m : run A) a (Q : A -> Prop) : ends m Q -> m = inl a -> Q a.
Proof. by intros H ->. Qed.

(** ** Names *)

Lemma padded_inj w a b : 0 <= a < 10 ^ 20 -> 0 <= b < 10 ^ 20 -> padded w a = padded w b -> a = b.
Proof. intros Ha Hb E. by rewrite <- (undec_padded w a Ha), <- (undec_padded w b Hb), E. Qed.

(** What a file of the packager is: a segment, a part, or a pointer into a segment. *)
Inductive tag := TSeg (n : Z) | TPart (n : Z) | TRef (n : Z).
Definition tag_num (t : tag) : Z := match t with TSeg n | TPart n | TRef n => n end.
Definition tag_name (t : tag) : list Z :=
  match t with TSeg n => seg_name n | TPart n => part_name n | TRef n => lit "part" ++ padded 5 n ++ lit ".ref" end.
(** The part a part or its pointer stands for. *)
Definition tag_key (t : tag) : bool * Z := match t with TSeg n => (true, n) | TPart n | TRef n => (false, n) end.
Definition tag_ok (t : tag) : Prop := 0 <= tag_num t < 10 ^ 20.

Lemma tail_eq {A} (p p' q q' : list A) : length q = length q' -> p ++ q = p' ++ q' -> p = p' /\ q = q'.
Proof. intros Hl E. apply app_inj_2 in E; [done | done]. Qed.

Lemma tag_name_inj t u : tag_ok t -> tag_ok u -> tag_name t = tag_name u -> t = u.
Proof.
  intros Ht Hu E. destruct t as [a | a | a], u as [b | b | b]; unfold tag_name, seg_name, part_name in E; unfold tag_ok in *; cbn in Ht, Hu;
    try discriminate; try (apply app_inv_head in E; apply tail_eq in E as [E1 E2]; [| done]; try discriminate; f_equal; by eapply padded_inj).
Qed.

Lemma ref_of_part n : ref_name (part_name n) = tag_name (TRef n).
Proof.
  unfold ref_name, part_name, tag_name.
  replace (length (lit "part" ++ padded 5 n ++ lit ".m4s") - 4)%nat with (length (lit "part" ++ padded 5 n))
    by (rewrite !length_app; change (length (lit ".m4s")) with 4%nat; lia).
  by rewrite app_assoc, take_app_length, <- app_assoc.
Qed.
Lemma part_tag n : part_name n = tag_name (TPart n). Proof. done. Qed.
Lemma seg_tag n : seg_name n = tag_name (TSeg n). Proof. done. Qed.

(** No file of the packager is named as the playlist or the header. *)
Lemma tag_other t name : name ∈ map lit ["index.m3u8"; "index.m3u8.tmp"; "init.mp4"] -> tag_name t <> name.
Proof.
  intros Hn E. cbn [map] in Hn. rewrite !elem_of_cons in Hn.
  destruct Hn as [-> | [-> | [-> | Hn]]]; [| | | by apply not_elem_of_nil in Hn];
    destruct t as [a | a | a]; unfold tag_name, seg_name, part_name in E; discriminate.
Qed.

(** ** What a run of the packager is *)

Section runs.
Context (takes : gmap (list Z) bytes -> list Z -> bytes -> bool) (renames : gmap (list Z) bytes -> bool).
Context (now : nat -> Z) (known_long : bool) (line : Z -> Z) (split : bool) (init : bytes).

Notation take_frag := (take_frag takes renames now known_long line split init).

(** The packager once the first header is read. *)
Record begun (s : packer) : Prop := {
  begun_fs : fs s = mkDisk {[lit "init.mp4" := init]} [(lit "init.mp4", init)];
  begun_pl : pl s = fresh_listing; begun_gt : gt s = fresh_gathering; begun_last : haveLast (ck s) = false;
  begun_gate : gate s = newPlaylistGate; begun_reads : reads s = 0%nat; begun_verdicts : verdicts s = [];
}.

(** What the headers of later encodes may change: the marks, the reader, and the
    encodes' places on the broadcast clock. *)
Record same_list (s s' : packer) : Prop := {
  same_fs : fs s' = fs s; same_pl : pl s' = pl s; same_gt : gt s' = gt s; same_gate : gate s' = gate s;
  same_reads : reads s' = reads s; same_verdicts : verdicts s' = verdicts s;
  same_last : lastPTS (ck s') = lastPTS (ck s) /\ lastDur (ck s') = lastDur (ck s) /\ haveLast (ck s') = haveLast (ck s);
}.

(** What is kept of a fragment: sound without a picture is dropped before the first
    picture of a part, and where parts are whole groups. *)
Definition kept (s : packer) (f : fragment) : bytes :=
  match fstart f with
  | Some _ => fbody f
  | None =>
      if split then match acc (gt s) with
                    | Some a => if zlen (hbody a) + zlen (fbody f) <=? maxOpenBytes then fbody f else []
                    | None => []
                    end
      else []
  end.

(** A run: fragments taken, [l] what was kept of them, with [ok] of each step. *)
Inductive packs (ok : packer -> fragment -> Prop) (s0 : packer) : bytes -> packer -> Prop :=
  | packs_here : packs ok s0 [] s0
  | packs_take l s f s' : packs ok s0 l s -> ok s f -> take_frag f s = inl s' -> packs ok s0 (l ++ kept s f) s'
  | packs_between l s s' : packs ok s0 l s -> same_list s s' -> packs ok s0 l s'.

End runs.
