(* ===== verification/LivePackFiles.v ===== *)
(** What the packager's directory holds: every file its playlist names is there,
    with the bytes that were written to it, and a part whose file gave way to a
    pointer is still read whole. *)
From S2P Require Import Prelude GoNum GoText GoFloat Fmp4 Fmp4Edits LivePlaylist LivePack.
Local Open Scope Z_scope.
Local Open Scope go_scope.

(** ** Files by their tags *)

Definition at_tag (d : disk) (t : tag) : option bytes := files d !! tag_name t.

(** Only the files of [P] differ. *)
Definition changes (P : tag -> Prop) (d d' : disk) : Prop := forall t, tag_ok t -> ~ P t -> at_tag d' t = at_tag d t.

Lemma changes_refl P d : changes P d d.
Proof. by intros t _ _. Qed.
Lemma changes_trans (P Q R : tag -> Prop) d1 d2 d3 :
  (forall t, P t -> R t) -> (forall t, Q t -> R t) -> changes P d1 d2 -> changes Q d2 d3 -> changes R d1 d3.
Proof. intros HP HQ H1 H2 t Ht Hn. rewrite (H2 t Ht) by auto. apply H1; auto. Qed.
Lemma changes_mono (P Q : tag -> Prop) d d' : (forall t, P t -> Q t) -> changes P d d' -> changes Q d d'.
Proof. intros H H1 t Ht Hn. apply H1; auto. Qed.

Lemma changes_put t b d w : tag_ok t -> changes (eq t) d (mkDisk (<[tag_name t := b]> (files d)) w).
Proof.
  intros Ht u Hu Hn. unfold at_tag. cbn [files]. apply lookup_insert_ne. intros E. by apply Hn, tag_name_inj.
Qed.
Lemma changes_other name b d w : name ∈ map lit ["index.m3u8"; "index.m3u8.tmp"; "init.mp4"] ->
  changes (fun _ => False) d (mkDisk (<[name := b]> (files d)) w).
Proof. intros Hn t _ _. unfold at_tag. cbn [files]. apply lookup_insert_ne. intros E. by apply (tag_other t name Hn). Qed.
Lemma changes_remove (P : tag -> Prop) d names :
  (forall n, n ∈ names -> exists t, tag_ok t /\ n = tag_name t /\ P t) -> changes P d (remove_all d names).
Proof.
  unfold remove_all. revert d. induction names as [| n names IH]; intros d Hn; [apply changes_refl |]. cbn [fold_left].
  destruct (Hn n (list_elem_of_here _ _)) as (t & Ht & -> & HP).
  eapply (changes_trans P P); [done | done | | apply IH; intros; apply Hn; by apply list_elem_of_further].
  intros u Hu Hnu. unfold at_tag, Remove. cbn [files]. apply lookup_delete_ne. intros E. apply Hnu.
  by rewrite (tag_name_inj u t).
Qed.

(** ** A closed segment and its parts *)

(** What is kept in mind of a segment: its number, and the numbers and the bytes of
    the parts it was made of. *)
Notation made := (Z * list (Z * bytes))%type (only parsing).
Definition bodies (ps : list (Z * bytes)) : bytes := concat (map snd ps).
Definition foot (x : made) (t : tag) : Prop :=
  t = TSeg (fst x) \/ exists p, p ∈ snd x /\ (t = TPart (fst p) \/ t = TRef (fst p)).
Definition made_ok (x : made) : Prop := 0 <= fst x < 10 ^ 20 /\ Forall (fun p => 0 <= fst p < 10 ^ 20) (snd x) /\ snd x <> [].

Definition seg_whole (d : disk) (g : packedSeg) (ps : list (Z * bytes)) : Prop :=
  map (fun r => (rname r, rsize r)) (parts g) = map (fun p => (part_name (fst p), zlen (snd p))) ps /\
  refs g = [] /\ Forall (fun p => at_tag d (TPart (fst p)) = Some (snd p)) ps.
(** The pointers in place of the parts [ps], the first of which starts [off] into its segment. *)
Definition points (d : disk) (seg : list Z) (total off : Z) (ps : list (Z * bytes)) (rs : list (list Z)) : Prop :=
  (forall r, r ∈ rs -> exists p, p ∈ ps /\ r = tag_name (TRef (fst p))) /\
  (forall pre k b post, ps = pre ++ (k, b) :: post -> tag_name (TRef k) ∈ rs ->
     0 < zlen b /\ at_tag d (TRef k) = Some (ref_line seg (off + zlen (bodies pre)) (zlen b) total)).
Definition seg_inv (d : disk) (g : packedSeg) (x : made) : Prop :=
  sname g = seg_name (fst x) /\ at_tag d (TSeg (fst x)) = Some (bodies (snd x)) /\
  (seg_whole d g (snd x) \/ parts g = [] /\ points d (seg_name (fst x)) (zlen (bodies (snd x))) 0 (snd x) (refs g)).

Lemma foot_ok x t : made_ok x -> foot x t -> tag_ok t.
Proof.
  intros (Hn & Hp & _) [-> | (p & Hin & Ht)]; [done |]. rewrite Forall_forall in Hp. specialize (Hp p Hin).
  by destruct Ht as [-> | ->].
Qed.

Lemma seg_inv_frame P d d' g x : made_ok x -> changes P d d' -> (forall t, foot x t -> ~ P t) -> seg_inv d g x -> seg_inv d' g x.
Proof.
  intros Hx Hc Hd (Hs & Hb & H).
  assert (forall t, foot x t -> at_tag d' t = at_tag d t) as Hsame by (intros t Ht; apply Hc; [by eapply foot_ok | by apply Hd]).
  split; [done |]. split; [rewrite Hsame; [done | by left] |]. destruct H as [(H1 & H2 & H3) | (H1 & H2 & H3)].
  - left. split_and!; [done | done |]. apply Forall_forall. intros p Hp. rewrite Forall_forall in H3.
    rewrite Hsame; [by apply H3 |]. right. exists p. auto.
  - right. split; [done |]. split; [done |]. intros pre k b post E Hr. destruct (H3 pre k b post E Hr) as [H4 H5]. split; [done |].
    rewrite Hsame; [done |]. right. exists (k, b). split; [rewrite E; apply elem_of_app; right; by apply list_elem_of_here | by right].
Qed.

Section files.
Context (takes : gmap (list Z) bytes -> list Z -> bytes -> bool).

Lemma WriteFile_at d name b : ends (WriteFile takes d name b) (fun d' => d' = mkDisk (<[name := b]> (files d)) (wrote d ++ [(name, b)])).
Proof. unfold WriteFile. by case_match. Qed.

(** The parts of a segment give way to pointers. *)
Lemma refer_loop_points seg total ps : forall d off qs,
  NoDup (map fst ps) -> Forall (fun p => 0 <= fst p < 10 ^ 20) ps ->
  map (fun r => (rname r, rsize r)) qs = map (fun p => (part_name (fst p), zlen (snd p))) ps ->
  let ' (d', rs) := refer_loop takes d seg total off qs in
  changes (fun t => exists p, p ∈ ps /\ (t = TPart (fst p) \/ t = TRef (fst p))) d d' /\ points d' seg total off ps rs.
Proof.
  induction ps as [| [k b] ps IH]; intros d off qs Hnd Hok E; destruct qs as [| q qs]; try done.
  { cbn [refer_loop]. split; [apply changes_refl |]. split; [intros r Hr; by apply not_elem_of_nil in Hr |].
    intros pre k b post Ep. by destruct pre. }
  cbn [map fst snd] in *. injection E as Eq1 Eq2 E. apply NoDup_cons in Hnd as [Hk Hnd]. apply Forall_cons in Hok as [Hk0 Hok]. cbn in Hk0.
  cbn [refer_loop]. rewrite Eq1, Eq2.
  set (d1 := Remove d (part_name k)). set (w := if 0 <? zlen b then _ else _).
  assert (changes (fun t => t = TPart k \/ t = TRef k) d d1) as Hc1.
  { apply (changes_remove _ d [part_name k]). intros n Hn. apply list_elem_of_singleton in Hn as ->. exists (TPart k). auto. }
  assert (changes (fun t => t = TPart k \/ t = TRef k) d (fst w) /\ (snd w = [] \/ snd w = [tag_name (TRef k)] /\ 0 < zlen b /\
    at_tag (fst w) (TRef k) = Some (ref_line seg off (zlen b) total))) as [Hcw Hw].
  { unfold w. destruct (Z.ltb_spec 0 (zlen b)); [| split; [done | by left]]. unfold WriteFile. destruct (takes _ _ _); [| split; [done | by left]].
    cbn [fst snd]. rewrite ref_of_part. split.
    - eapply changes_trans; [| | exact Hc1 | by apply changes_put]; [auto | intros t <-; auto].
    - right. split_and!; [done | done |]. unfold at_tag. cbn [files]. by rewrite lookup_insert_eq. }
  destruct w as [d2 ref]. cbn [fst snd] in *. specialize (IH d2 (off + zlen b) qs Hnd Hok E).
  destruct (refer_loop takes d2 seg total (off + zlen b) qs) as [d3 more]. destruct IH as [Hc3 [Hm1 Hm2]].
  assert (forall p, p ∈ ps -> fst p <> k) as Hne by (intros p Hp Ep; apply Hk; rewrite <- Ep; by apply list_elem_of_fmap_2).
  split.
  { eapply changes_trans; [| | exact Hcw | exact Hc3].
    - intros t Ht. exists (k, b). split; [by apply list_elem_of_here | done].
    - intros t (p & Hp & Ht). exists p. split; [by apply list_elem_of_further | done]. }
  split.
  - intros r Hr. apply elem_of_app in Hr as [Hr | Hr].
    + destruct Hw as [-> | (-> & _)]; [by apply not_elem_of_nil in Hr |]. apply list_elem_of_singleton in Hr as ->.
      exists (k, b). split; [by apply list_elem_of_here | done].
    + destruct (Hm1 r Hr) as (p & Hp & ->). exists p. split; [by apply list_elem_of_further | done].
  - intros pre k' b' post Ep Hr. destruct pre as [| [k0 b0] pre].
    + injection Ep as <- <- <-. apply elem_of_app in Hr as [Hr | Hr].
      * destruct Hw as [Hw | (_ & Hb & Hat)]; [rewrite Hw in Hr; by apply not_elem_of_nil in Hr |].
        split; [done |]. rewrite (Hc3 (TRef k)); [| done |].
        -- unfold bodies. cbn [map concat]. change (zlen []) with 0. by rewrite Z.add_0_r.
        -- intros (p & Hp & [Ht | Ht]); [done |]. injection Ht as Ht. by apply (Hne p).
      * destruct (Hm1 _ Hr) as (p & Hp & Ht). apply tag_name_inj in Ht; [| done | by rewrite Forall_forall in Hok; apply Hok].
        injection Ht as Ht. by destruct (Hne p).
    + injection Ep as <- <- Ep. assert ((k', b') ∈ ps) as Hin by (rewrite Ep; apply elem_of_app; right; by apply list_elem_of_here).
      assert (tag_name (TRef k') ∈ more) as Hr'.
      { apply elem_of_app in Hr as [Hr | Hr]; [| done]. destruct Hw as [Hw | (Hw & _)]; rewrite Hw in Hr; [by apply not_elem_of_nil in Hr |].
        apply list_elem_of_singleton, tag_name_inj in Hr; [| by rewrite Forall_forall in Hok; apply (Hok (k', b')) | done].
        injection Hr as Hr. by destruct (Hne (k', b') Hin). }
      destruct (Hm2 pre k' b' post Ep Hr') as [H1 H2]. split; [done |]. rewrite H2. unfold bodies. cbn [map concat snd]. rewrite zlen_app.
      do 2 f_equal. lia.
Qed.
End files.

Section closing.
Context (takes : gmap (list Z) bytes -> list Z -> bytes -> bool).

Definition part_nos (G : list made) : list Z := concat (map (fun x => map fst (snd x)) G).
(** Different segments, of different parts. *)
Record apart (G : list made) : Prop := {
  apart_ok : Forall made_ok G; apart_segs : NoDup (map fst G); apart_parts : NoDup (part_nos G);
}.
Definition feet (G : list made) (t : tag) : Prop := exists x, x ∈ G /\ foot x t.

Lemma apart_cons x G : apart (x :: G) -> made_ok x /\ apart G /\ NoDup (map fst (snd x)) /\ forall t, foot x t -> ~ feet G t.
Proof.
  intros [Ho Hs Hp]. apply Forall_cons in Ho as [Hx Ho]. cbn [map] in Hs. apply NoDup_cons in Hs as [Hn Hs].
  unfold part_nos in Hp. cbn [map concat] in Hp. apply NoDup_app in Hp as (Hp1 & Hp2 & Hp3).
  split_and!; [done | by split | done |]. intros t Hf (y & Hy & Hg).
  assert (forall p q, p ∈ snd x -> q ∈ snd y -> fst p <> fst q) as Hne.
  { intros p q Hpx Hqy E. apply (Hp2 (fst p)); [by apply list_elem_of_fmap_2 |]. unfold part_nos. rewrite E.
    apply list_elem_of_In, in_concat. exists (map fst (snd y)). split; apply list_elem_of_In; [by apply (list_elem_of_fmap_2 (fun x => map fst (snd x))) | by apply list_elem_of_fmap_2]. }
  destruct Hf as [-> | (p & Hpx & Hp)], Hg as [E | (q & Hqy & Hq)].
  - injection E as E. apply Hn. rewrite E. by apply list_elem_of_fmap_2.
  - by destruct Hq.
  - destruct Hp as [-> | ->]; discriminate.
  - apply (Hne p q Hpx Hqy). destruct Hp as [-> | ->], Hq as [Hq | Hq]; first [discriminate | by injection Hq].
Qed.

Lemma total_size_of qs ps :
  map (fun r => (rname r, rsize r)) qs = map (fun p : Z * bytes => (part_name (fst p), zlen (snd p))) ps ->
  total_size qs = zlen (bodies ps).
Proof.
  revert qs. induction ps as [| p ps IH]; intros [| q qs] E; try done. cbn [map] in E. injection E as _ E1 E. unfold total_size, bodies.
  cbn [fold_right map concat]. rewrite zlen_app, E1. f_equal. by apply IH.
Qed.

Lemma referParts_inv d g x : made_ok x -> NoDup (map fst (snd x)) -> seg_inv d g x -> no_parts g = false ->
  let ' (d', r) := referParts takes d g in changes (foot x) d d' /\ seg_inv d' (with_refs g r) x.
Proof.
  intros Hx Hnd (Hs & Hb & H) Hn. destruct H as [(H1 & H2 & H3) | (H1 & _)]; [| by unfold no_parts in Hn; rewrite H1 in Hn].
  unfold referParts. pose proof (refer_loop_points takes (sname g) (total_size (parts g)) (snd x) d 0 (parts g) Hnd ltac:(apply Hx) H1) as H.
  destruct (refer_loop takes d (sname g) _ 0 (parts g)) as [d' r]. destruct H as [Hc Hp].
  assert (changes (foot x) d d') as Hf. { eapply changes_mono; [| exact Hc]. intros t (p & Hpx & Ht). right. by exists p. }
  split; [done |]. split; [done |]. split.
  - cbn [fst]. rewrite (Hc (TSeg (fst x))); [done | apply Hx |]. intros (p & _ & [E | E]); discriminate.
  - right. split; [done |]. cbn [refs with_refs]. by rewrite <- Hs, <- (total_size_of _ _ H1).
Qed.

Lemma segs_frame (P : tag -> Prop) d d' l G : Forall made_ok G -> changes P d d' -> (forall t, feet G t -> ~ P t) ->
  Forall2 (seg_inv d) l G -> Forall2 (seg_inv d') l G.
Proof.
  intros Ho Hc Hd H. induction H as [| g x l G Hg H IH]; constructor.
  - apply Forall_cons in Ho as [Hx _]. eapply seg_inv_frame; [done | done | | done]. intros t Ht. apply Hd. exists x.
    split; [by apply list_elem_of_here | done].
  - apply Forall_cons in Ho as [_ Ho]. apply IH; [done |]. intros t (y & Hy & Ht). apply Hd. exists y.
    split; [by apply list_elem_of_further | done].
Qed.

Lemma refer_old_inv target l G : forall d fe, apart G -> Forall2 (seg_inv d) l G ->
  let ' (d', l') := refer_old takes target d fe l in changes (feet G) d d' /\ Forall2 (seg_inv d') l' G.
Proof.
  revert G. induction l as [| g l IH]; intros G d fe Ha H; inversion H as [| g' x l' G' Hg Hl]; subst; clear H.
  { cbn [refer_old]. split; [apply changes_refl | constructor]. }
  apply apart_cons in Ha as (Hx & Ha & Hnd & Hd).
  assert (forall d1 d2, changes (foot x) d1 d2 -> changes (feet (x :: G')) d1 d2) as Hhead.
  { intros d1 d2. apply changes_mono. intros t Ht. exists x. split; [by apply list_elem_of_here | done]. }
  assert (forall d1 d2, changes (feet G') d1 d2 -> changes (feet (x :: G')) d1 d2) as Htail.
  { intros d1 d2. apply changes_mono. intros t (y & Hy & Ht). exists y. split; [by apply list_elem_of_further | done]. }
  assert (forall d1 g1, changes (foot x) d d1 -> seg_inv d1 g1 x ->
    let ' (d', l') := (let ' (d, l) := refer_old takes target d1 (fe + sdur g1) l in (d, g1 :: l)) in
    changes (feet (x :: G')) d d' /\ Forall2 (seg_inv d') l' (x :: G')) as Hrec.
  { intros d1 g1 Hc1 Hg1. assert (Forall2 (seg_inv d1) l G') as Hl1.
    { eapply segs_frame; [apply Ha | exact Hc1 | | exact Hl]. intros t Ht Hf. by apply (Hd t). }
    specialize (IH G' d1 (fe + sdur g1) Ha Hl1). destruct (refer_old takes target d1 (fe + sdur g1) l) as [d2 l2]. destruct IH as [Hc2 H2].
    split; [eapply changes_trans; [done | done | by apply Hhead | by apply Htail] |]. constructor; [| done].
    eapply seg_inv_frame; [done | exact Hc2 | | done]. intros t Hf Ht. by apply (Hd t). }
  cbn [refer_old]. destruct (snd (partsKept fe target)); [exact (Hrec d g (changes_refl _ _) Hg) |].
  assert (exists d1 g1, (if no_parts g then (d, g) else let ' (d, r) := referParts takes d g in (d, with_refs g r)) = (d1, g1) /\
    changes (foot x) d d1 /\ seg_inv d1 g1 x) as (d1 & g1 & -> & Hc1 & Hg1).
  { destruct (no_parts g) eqn:En; [exists d, g; split; [done | split; [apply changes_refl | done]] |].
    pose proof (referParts_inv d g x Hx Hnd Hg En) as Hr. destruct (referParts takes d g) as [d1 r]. by exists d1, (with_refs g r). }
  assert (Forall2 (seg_inv d1) l G') as Hl1.
  { eapply segs_frame; [apply Ha | exact Hc1 | | exact Hl]. intros t Ht Hf. by apply (Hd t). }
  destruct l as [| o older]; [inversion Hl; subst; split; [by apply Hhead | by constructor] |].
  destruct (no_parts o); [split; [by apply Hhead | by constructor] | exact (Hrec d1 g1 Hc1 Hg1)].
Qed.

(** The names of a segment's files are its own. *)
Lemma names_foot d g x n : made_ok x -> seg_inv d g x -> n ∈ sname g :: map rname (parts g) ++ refs g ->
  exists t, tag_ok t /\ n = tag_name t /\ foot x t.
Proof.
  intros Hx (Hs & _ & H) Hn. apply elem_of_cons in Hn as [-> | Hn].
  { exists (TSeg (fst x)). split_and!; [apply Hx | by rewrite Hs | by left]. }
  assert (forall p, p ∈ snd x -> 0 <= fst p < 10 ^ 20) as Hok by (destruct Hx as (_ & Hp & _); by rewrite Forall_forall in Hp).
  destruct H as [(H1 & H2 & _) | (H1 & H2 & _)].
  - rewrite H2, app_nil_r in Hn. assert (map rname (parts g) = map (fun p => part_name (fst p)) (snd x)) as E.
    { apply (f_equal (map fst)) in H1. rewrite !map_map in H1. exact H1. }
    rewrite E in Hn. apply list_elem_of_fmap in Hn as (p & -> & Hp). exists (TPart (fst p)). split_and!; [by apply Hok | done |]. right. eauto.
  - rewrite H1 in Hn. cbn [map app] in Hn. destruct (H2 n Hn) as (p & Hp & ->). exists (TRef (fst p)). split_and!; [by apply Hok | done |].
    right. eauto.
Qed.

Lemma apart_drop n G : apart G -> apart (drop n G).
Proof.
  revert G. induction n as [| n IH]; intros G Ha; [by rewrite drop_0 |]. destruct G as [| x G]; [done |]. cbn [drop]. apply IH.
  by apply apart_cons in Ha as (_ & ? & _).
Qed.

Lemma trim_window_inv l G : forall d kept, apart G -> Forall2 (seg_inv d) l G ->
  let ' (d', l') := trim_window d kept l in
  exists n, l' = drop n l /\ Forall2 (seg_inv d') l' (drop n G) /\ wrote d' = wrote d /\
    (forall name, name ∈ map lit ["index.m3u8"; "index.m3u8.tmp"; "init.mp4"] -> files d' !! name = files d !! name).
Proof.
  revert G. induction l as [| g l IH]; intros G d kept Ha H; inversion H as [| g' x l' G' Hg Hl]; subst; clear H.
  { cbn [trim_window]. exists 0%nat. by split_and!. }
  apply apart_cons in Ha as (Hx & Ha & Hnd & Hd). cbn [trim_window]. destruct (_ && _)%bool.
  - set (d1 := remove_all d _).
    assert (changes (foot x) d d1) as Hc by (apply changes_remove; intros n Hn; by eapply names_foot).
    assert (Forall2 (seg_inv d1) l G') as Hl1 by (eapply segs_frame; [apply Ha | exact Hc | | exact Hl]; intros t Ht Hf; by apply (Hd t)).
    specialize (IH G' d1 (kept - sdur g) Ha Hl1). destruct (trim_window d1 (kept - sdur g) l) as [d2 l2].
    destruct IH as (n & -> & H2 & Hw & Ho).
    assert (wrote d1 = wrote d /\ forall name, name ∈ map lit ["index.m3u8"; "index.m3u8.tmp"; "init.mp4"] -> files d1 !! name = files d !! name) as [Hw1 Ho1].
    { unfold d1, remove_all. assert (forall nm, nm ∈ sname g :: map rname (parts g) ++ refs g -> exists t, nm = tag_name t) as Htag.
      { intros nm Hn. destruct (names_foot d g x nm Hx Hg Hn) as (t & _ & -> & _). by exists t. }
      revert Htag. generalize (sname g :: map rname (parts g) ++ refs g). clear. intros ns. revert d. induction ns as [| nm ns IH]; intros d Htag; [done |].
      cbn [fold_left]. destruct (IH (Remove d nm)) as [H1 H2]; [intros; apply Htag; by apply list_elem_of_further |].
      split; [by rewrite H1 |]. intros name Hn. rewrite (H2 name Hn). unfold Remove. cbn [files]. apply lookup_delete_ne.
      destruct (Htag nm (list_elem_of_here _ _)) as (t & ->). by apply tag_other. }
    exists (S n). split_and!; [done | done | by rewrite Hw |]. intros name Hn. by rewrite Ho, Ho1.
  - exists 0%nat. rewrite !drop_0. split_and!; [done | by constructor | done | done].
Qed.
End closing.

(** ** The other files, and the writes *)

Definition other_names : list (list Z) := map lit ["index.m3u8"; "index.m3u8.tmp"; "init.mp4"].
(** The other files stay, and what is written is pointers. *)
Definition side (d d' : disk) : Prop :=
  (forall name, name ∈ other_names -> files d' !! name = files d !! name) /\
  exists ws, wrote d' = wrote d ++ ws /\ Forall (fun w => exists k, fst w = tag_name (TRef k)) ws.

Lemma side_refl d : side d d.
Proof. split; [done |]. exists []. by rewrite app_nil_r. Qed.
Lemma side_trans d1 d2 d3 : side d1 d2 -> side d2 d3 -> side d1 d3.
Proof.
  intros [H1 (w1 & E1 & F1)] [H2 (w2 & E2 & F2)]. split; [intros; by rewrite H2, H1 |]. exists (w1 ++ w2).
  rewrite E2, E1, app_assoc. split; [done |]. by apply Forall_app.
Qed.

Section sides.
Context (takes : gmap (list Z) bytes -> list Z -> bytes -> bool).

Lemma refer_loop_side seg total qs : forall d off, Forall (fun r => exists k, rname r = part_name k) qs ->
  side d (fst (refer_loop takes d seg total off qs)).
Proof.
  induction qs as [| q qs IH]; intros d off Hq; cbn [refer_loop]; [apply side_refl |]. apply Forall_cons in Hq as [(k & E) Hq].
  rewrite E. set (d1 := Remove d (part_name k)).
  assert (side d d1) as H1.
  { split; [| by exists []; rewrite app_nil_r]. intros name Hn. unfold d1, Remove. cbn [files]. apply lookup_delete_ne.
    rewrite part_tag. by apply tag_other. }
  set (w := if 0 <? rsize q then _ else _).
  assert (side d (fst w)) as Hw.
  { unfold w. case_match; [| done]. unfold WriteFile. destruct (takes _ _ _); [| done]. cbn [fst].
    eapply side_trans; [exact H1 |]. rewrite ref_of_part. split.
    - intros name Hn. cbn [files]. apply lookup_insert_ne. by apply tag_other.
    - eexists. split; [reflexivity |]. constructor; [| constructor]. by exists k. }
  destruct w as [d2 ref]. cbn [fst] in Hw. specialize (IH d2 (off + rsize q) Hq).
  destruct (refer_loop takes d2 seg total (off + rsize q) qs) as [d3 more]. cbn [fst] in *. by eapply side_trans.
Qed.

Lemma whole_names d g x : seg_inv d g x -> Forall (fun r => exists k, rname r = part_name k) (parts g).
Proof.
  intros (_ & _ & [(H1 & _) | (H1 & _)]); [| by rewrite H1]. apply (f_equal (map fst)) in H1. rewrite !map_map in H1.
  apply Forall_forall. intros r Hr. assert (rname r ∈ map (fun x => rname x) (parts g)) as Hin by (by apply (list_elem_of_fmap_2 rname)).
  cbn [fst] in H1. rewrite H1 in Hin. apply list_elem_of_fmap in Hin as (p & E & _). by exists (fst p).
Qed.

Lemma refer_old_side target l G : forall d fe, Forall2 (fun g x => exists d, seg_inv d g x) l G ->
  side d (fst (refer_old takes target d fe l)).
Proof.
  revert G. induction l as [| g l IH]; intros G d fe H; inversion H as [| g' x l' G' (d0 & Hg) Hl]; subst; cbn [refer_old]; [apply side_refl |].
  assert (forall d1 g1 e, side d d1 -> side d (fst (let ' (d, l) := refer_old takes target d1 e l in (d, g1 :: l)))) as Hrec.
  { intros d1 g1 e H1. specialize (IH G' d1 e Hl). destruct (refer_old takes target d1 e l) as [d2 l2]. by eapply side_trans. }
  destruct (snd _); [apply Hrec, side_refl |].
  assert (exists d1 g1, (if no_parts g then (d, g) else let ' (d, r) := referParts takes d g in (d, with_refs g r)) = (d1, g1) /\
    side d d1) as (d1 & g1 & -> & H1).
  { destruct (no_parts g); [by exists d, g; split; [| apply side_refl] |]. unfold referParts.
    pose proof (refer_loop_side (sname g) (total_size (parts g)) (parts g) d 0 (whole_names _ _ _ Hg)) as Hs.
    destruct (refer_loop takes d (sname g) _ 0 (parts g)) as [d1 r]. by exists d1, (with_refs g r). }
  destruct l as [| o older]; [done |]. destruct (no_parts o); [done |]. by apply Hrec.
Qed.
End sides.

(** ** The directory of a state *)

Record dir_inv (s : packer) (G : list made) (O : list (Z * bytes)) : Prop := {
  dir_closed : Forall2 (seg_inv (fs s)) (closed (pl s)) G;
  dir_nums : map fst G = seqZ (msn (pl s) - zlen (closed (pl s))) (zlen (closed (pl s)));
  dir_full : Forall (fun x => snd x <> []) G;
  dir_parts : exists lo, 0 <= lo /\ part_nos G ++ map fst O = seqZ lo (partN (pl s) - lo);
  dir_open : map (fun p => (pname p, pbody p)) (open (pl s)) = map (fun x => (part_name (fst x), snd x)) O;
  dir_at : Forall (fun x => at_tag (fs s) (TPart (fst x)) = Some (snd x)) O;
  dir_bound : 0 <= msn (pl s) - zlen (closed (pl s)) /\ msn (pl s) + zlen O <= partN (pl s);
  dir_wrote : forall x, x ∈ concat (map snd G) ++ O -> (part_name (fst x), snd x) ∈ wrote (fs s);
  dir_once : forall k b, 0 <= k < 10 ^ 20 -> (part_name k, b) ∈ wrote (fs s) ->
    k < partN (pl s) /\ forall b', (part_name k, b') ∈ wrote (fs s) -> b' = b;
}.

Lemma elem_part_nos k G : k ∈ part_nos G <-> exists x p, x ∈ G /\ p ∈ snd x /\ fst p = k.
Proof.
  unfold part_nos. rewrite list_elem_of_In, in_concat. split.
  - intros (l & Hl & Hk). apply in_map_iff in Hl as (x & <- & Hx). apply in_map_iff in Hk as (p & <- & Hp). exists x, p.
    by rewrite !list_elem_of_In.
  - intros (x & p & Hx & Hp & <-). exists (map fst (snd x)). rewrite <- !list_elem_of_In. split.
    + by apply (list_elem_of_fmap_2 (fun x : made => map fst (snd x))).
    + by apply list_elem_of_fmap_2.
Qed.

Lemma dir_made s G O : dir_inv s G O -> partN (pl s) <= 10 ^ 20 -> Forall made_ok G /\ Forall (fun x => 0 <= fst x < 10 ^ 20) O.
Proof.
  intros [H1 H2 H3 (lo & Hlo & H4) _ _ [H5 H6] _ _] Hb. pose proof (zlen_nonneg O) as HO.
  assert (forall k, k ∈ part_nos G ++ map fst O -> 0 <= k < 10 ^ 20) as Hk by (intros k Hk; rewrite H4 in Hk; apply elem_of_seqZ in Hk; lia).
  split; apply Forall_forall; intros x Hx.
  - split; [| split].
    + assert (fst x ∈ map fst G) as Hin by (by apply list_elem_of_fmap_2). rewrite H2 in Hin. apply elem_of_seqZ in Hin. lia.
    + apply Forall_forall. intros p Hp. apply Hk, elem_of_app. left. apply elem_part_nos. eauto.
    + rewrite Forall_forall in H3. by apply H3.
  - apply Hk, elem_of_app. right. by apply list_elem_of_fmap_2.
Qed.

Lemma dir_apart s G O : dir_inv s G O -> partN (pl s) <= 10 ^ 20 -> apart G.
Proof.
  intros H Hb. destruct (dir_made s G O H Hb) as [Hok _]. destruct H as [_ H2 _ (lo & Hlo & H4) _ _ _ _ _]. split; [done | |].
  - rewrite H2. apply NoDup_seqZ.
  - pose proof (NoDup_seqZ lo (partN (pl s) - lo)) as Hnd. rewrite <- H4 in Hnd. by apply NoDup_app in Hnd as (? & _).
Qed.

(** ** What a step keeps *)

Definition dir_ok (s : packer) : Prop := exists G O, dir_inv s G O.

(** The media that is out: the segments written and the parts of the open one. *)
Definition is_seg (w : list Z * bytes) : bool := has_prefix (lit "seg") (fst w).
Definition segments_out (d : disk) : bytes := concat (map snd (List.filter is_seg (wrote d))).
Definition out (s : packer) : bytes := segments_out (fs s) ++ concat (map pbody (open (pl s))).

(** The step leaves the directory sound, puts [b] out, and nothing else; as long as
    part numbers are. *)
Definition keeps (b : bytes) (s s' : packer) : Prop :=
  partN (pl s) <= partN (pl s') /\
  (partN (pl s') <= 10 ^ 20 -> dir_ok s ->
   dir_ok s' /\ out s' = out s ++ b /\ files (fs s') !! lit "init.mp4" = files (fs s) !! lit "init.mp4").

Lemma keeps_trans b c s1 s2 s3 : keeps b s1 s2 -> keeps c s2 s3 -> keeps (b ++ c) s1 s3.
Proof.
  intros [H1 K1] [H2 K2]. split; [lia |]. intros Hb Hd. destruct (K1 ltac:(lia) Hd) as (D1 & O1 & I1).
  destruct (K2 Hb D1) as (D2 & O2 & I2). split_and!; [done | by rewrite O2, O1, app_assoc | by rewrite I2].
Qed.
(** The directory and the list of parts decide it. *)
Lemma keeps_same s s' : fs s' = fs s -> closed (pl s') = closed (pl s) -> partN (pl s') = partN (pl s) -> msn (pl s') = msn (pl s) ->
  map (fun p => (pname p, pbody p)) (open (pl s')) = map (fun p => (pname p, pbody p)) (open (pl s)) -> keeps [] s s'.
Proof.
  intros E1 E2 E3 E4 E5. split; [lia |]. intros _ (G & O & [H1 H2 H3 H4 H5 H6 H7 H8 H9]). split_and!.
  - exists G, O. split; rewrite ?E1, ?E2, ?E3, ?E4; try done. congruence.
  - unfold out. rewrite E1, app_nil_r. f_equal. apply (f_equal (map snd)) in E5. rewrite !map_map in E5.
    by assert (map pbody (open (pl s')) = map pbody (open (pl s))) as -> by exact E5.
  - by rewrite E1.
Qed.
Lemma keeps_refl s : keeps [] s s.
Proof. by apply keeps_same. Qed.

Lemma segments_out_app d d' ws : wrote d' = wrote d ++ ws -> segments_out d' = segments_out d ++ concat (map snd (List.filter is_seg ws)).
Proof. intros E. unfold segments_out. by rewrite E, List.filter_app, map_app, concat_app. Qed.
Lemma tag_is_seg t b : is_seg (tag_name t, b) = match t with TSeg _ => true | _ => false end.
Proof. by destruct t. Qed.
Lemma refs_not_out ws : Forall (fun w : list Z * bytes => exists k, fst w = tag_name (TRef k)) ws -> List.filter is_seg ws = [].
Proof.
  intros H. induction H as [| [n b] ws (k & E) H IH]; [done |]. cbn [List.filter]. cbn [fst] in E. rewrite E, tag_is_seg. done.
Qed.

Lemma part_nos_app G H : part_nos (G ++ H) = part_nos G ++ part_nos H.
Proof. unfold part_nos. by rewrite map_app, concat_app. Qed.
Lemma seqZ_suffix (pre l : list Z) lo n : pre ++ l = seqZ lo n -> 0 <= n -> l = seqZ (lo + zlen pre) (n - zlen pre).
Proof.
  intros E Hn. apply (f_equal (drop (length pre))) in E. rewrite drop_app_length in E. rewrite E. unfold zlen. clear. revert lo n.
  induction (length pre) as [| m IH]; intros lo n; [rewrite drop_0; f_equal; lia |].
  destruct (Z.ltb_spec 0 n).
  - rewrite seqZ_cons by lia. cbn [drop]. rewrite IH. f_equal; lia.
  - rewrite !seqZ_nil by lia. by rewrite drop_nil.
Qed.

(** ** A segment closes *)

Section close.
Context (takes : gmap (list Z) bytes -> list Z -> bytes -> bool).

Lemma apart_snoc s G O : dir_inv s G O -> partN (pl s) <= 10 ^ 20 -> O <> [] -> apart (G ++ [(msn (pl s), O)]).
Proof.
  intros H Hb HO. destruct (dir_made s G O H Hb) as [Hm1 Hm2]. destruct H as [_ H2 _ (lo & Hlo & H4) _ _ [H5 H6] _ _].
  assert (0 < zlen O) as HO0 by (destruct O; [done | unfold zlen; cbn; lia]). pose proof (zlen_nonneg (closed (pl s))). split.
  - apply Forall_app. split; [done |]. constructor; [| done]. split; [cbn [fst]; lia | done].
  - rewrite map_app, H2. cbn [map fst]. apply NoDup_app. split; [apply NoDup_seqZ |]. split; [| apply NoDup_singleton].
    intros k Hk Hm. apply list_elem_of_singleton in Hm as ->. apply elem_of_seqZ in Hk. lia.
  - rewrite part_nos_app. unfold part_nos at 2. cbn [map concat snd]. rewrite app_nil_r, H4. apply NoDup_seqZ.
Qed.

Lemma seg_written s G O g w : dir_inv s G O -> partN (pl s) <= 10 ^ 20 -> O <> [] ->
  sname g = seg_name (msn (pl s)) -> parts g = map ref_of (open (pl s)) -> refs g = [] ->
  Forall2 (seg_inv (mkDisk (<[seg_name (msn (pl s)) := concat (map pbody (open (pl s)))]> (files (fs s))) w)) (closed (pl s) ++ [g])
    (G ++ [(msn (pl s), O)]).
Proof.
  intros H Hb HO Eg1 Eg2 Eg3. pose proof (apart_snoc s G O H Hb HO) as Ha. destruct (dir_made s G O H Hb) as [Hm1 Hm2].
  destruct H as [H1 H2 _ _ H5 H6 [H7 H8] _ _]. assert (0 < zlen O) as HO0 by (destruct O; [done | unfold zlen; cbn; lia]).
  assert (tag_ok (TSeg (msn (pl s)))) as Hmsn.
  { destruct Ha as [Ho _ _]. apply Forall_app in Ho as [_ Ho]. apply Forall_cons in Ho as [[Hx _] _]. exact Hx. }
  rewrite seg_tag. set (d1 := mkDisk _ w).
  assert (changes (eq (TSeg (msn (pl s)))) (fs s) d1) as Hc by (by apply changes_put).
  apply Forall2_app.
  - eapply segs_frame; [exact Hm1 | exact Hc | | exact H1]. intros t (x & Hx & Hf) <-. destruct Hf as [Hf | (p & _ & [Hf | Hf])]; try done.
    injection Hf as Hf. assert (fst x ∈ map fst G) as Hin by (by apply list_elem_of_fmap_2). rewrite H2 in Hin. apply elem_of_seqZ in Hin. lia.
  - constructor; [| constructor]. split; [done |]. cbn [fst snd]. split.
    { unfold at_tag, d1. cbn [files]. rewrite lookup_insert_eq. f_equal. unfold bodies. f_equal.
      apply (f_equal (map snd)) in H5. rewrite !map_map in H5. exact H5. }
    left. split; [| split; [done |]].
    + rewrite Eg2, map_map. apply (f_equal (map (fun x => (fst x, zlen (snd x))))) in H5. rewrite !map_map in H5. exact H5.
    + apply Forall_forall. intros p Hp. rewrite (Hc (TPart (fst p))); [| | done].
      * rewrite Forall_forall in H6. by apply H6.
      * rewrite Forall_forall in Hm2. by apply Hm2.
Qed.

Lemma apart_rev G : apart G -> apart (reverse G).
Proof.
  intros [H1 H2 H3]. split.
  - by apply Forall_reverse.
  - rewrite (Permutation_map fst (reverse_Permutation G)). done.
  - unfold part_nos in *. enough (concat (map (fun x : made => map fst (snd x)) (reverse G)) ≡ₚ concat (map (fun x : made => map fst (snd x)) G)) as -> by done.
    clear. induction G as [| x G IH]; [done |]. rewrite reverse_cons, map_app, concat_app. cbn [map concat]. rewrite app_nil_r, IH. apply Permutation_app_comm.
Qed.

Lemma dir_lens s G O : dir_inv s G O -> zlen O = zlen (open (pl s)).
Proof. intros [_ _ _ _ H _ _ _ _]. apply (f_equal length) in H. rewrite !length_map in H. unfold zlen. by rewrite H. Qed.

Lemma closeSeg_keeps end_ s : ends (closeSeg takes end_ s) (keeps [] s).
Proof.
  unfold closeSeg. destruct (open (pl s)) as [| p0 o] eqn:Eo; [apply keeps_refl |]. rewrite <- Eo. apply ends_go.
  eapply ends_mono; [apply WriteFile_at |]. intros d ->. cbv beta.
  set (seg := mkSeg _ _ _ _ _ _ _ _ _). set (d1 := mkDisk _ _). destruct (trim_window d1 _ _) as [d2 kept] eqn:Et.
  destruct (refer_old takes _ d2 0 (reverse kept)) as [d3 newest] eqn:Er. cbn [ends]. split; [cbn; lia |]. cbn [pl with_fs with_pl partN fs].
  intros Hb (G & O & Hd).
  assert (O <> []) as HO. { intros ->. pose proof (dir_lens _ _ _ Hd) as E. rewrite Eo in E. by cbn in E. }
  pose proof (apart_snoc s G O Hd Hb HO) as Ha.
  pose proof (seg_written s G O seg (wrote (fs s) ++ [(seg_name (msn (pl s)), concat (map pbody (open (pl s))))]) Hd Hb HO eq_refl eq_refl eq_refl) as Hs.
  fold d1 in Hs. set (G1 := G ++ _) in *.
  pose proof (trim_window_inv (closed (pl s) ++ [seg]) G1 d1 (durations (closed (pl s) ++ [seg])) Ha Hs) as Ht. rewrite Et in Ht.
  destruct Ht as (n & Ek & Hk & Hw & Hfo).
  pose proof (refer_old_inv takes (Z.max (target (hold (pl s))) (sdur seg)) (reverse kept) (reverse (drop n G1)) d2 0
    (apart_rev _ (apart_drop n _ Ha)) (Forall2_reverse _ _ _ Hk)) as Hr.
  pose proof (refer_old_side takes (Z.max (target (hold (pl s))) (sdur seg)) (reverse kept) (reverse (drop n G1)) d2 0) as Hsd.
  assert (refer_old takes (Z.max (target (hold (pl s))) (sdur seg)) d2 0 (reverse kept) = (d3, newest)) as Er' by exact Er.
  rewrite Er' in Hr, Hsd. destruct Hr as [_ Hr]. cbn [fst] in Hsd.
  destruct (Hsd ltac:(eapply Forall2_impl; [apply Forall2_reverse; exact Hk | by eauto])) as [Hf3 (ws & Hw3 & Hws)]. clear Hsd Er Er' Et.
  destruct (dir_made s G O Hd Hb) as [Hm1 Hm2]. destruct Hd as [H1 H2 H3 (lo & Hlo & H4) H5 H6 [H7 H8] H9 H10].
  assert (zlen O = zlen (open (pl s))) as HlO by (apply (f_equal length) in H5; rewrite !length_map in H5; unfold zlen; by rewrite H5).
  assert (wrote d3 = wrote (fs s) ++ [(tag_name (TSeg (msn (pl s))), concat (map pbody (open (pl s))))] ++ ws) as Ew.
  { rewrite Hw3, Hw. cbn [wrote d1]. by rewrite <- app_assoc. }
  split; [| split].
  - exists (drop n G1), []. apply Forall2_reverse in Hr. rewrite reverse_involutive in Hr.
    assert (zlen (drop n G1) = zlen (reverse newest)) as Hln by (unfold zlen; by rewrite (Forall2_length _ _ _ Hr)).
    assert (zlen (closed (pl s)) + 1 = zlen G1) as HlG.
    { unfold zlen. pose proof (Forall2_length _ _ _ Hs) as E. rewrite length_app in E. cbn in E. lia. }
    assert (zlen (take n G1) + zlen (drop n G1) = zlen G1) as Htd by (rewrite <- zlen_app; by rewrite take_drop).
    assert (map fst (take n G1) ++ map fst (drop n G1) = seqZ (msn (pl s) - zlen (closed (pl s))) (zlen (closed (pl s)) + 1)) as Efs.
    { rewrite <- map_app, take_drop. unfold G1. rewrite map_app, H2. cbn [map fst].
      rewrite (seqZ_app _ (zlen (closed (pl s))) 1) by (try apply zlen_nonneg; lia). do 2 f_equal. rewrite seqZ_cons by lia. rewrite seqZ_nil by lia.
      f_equal. lia. }
    assert (part_nos (take n G1) ++ part_nos (drop n G1) = seqZ lo (partN (pl s) - lo)) as Eps.
    { rewrite <- part_nos_app, take_drop. unfold G1. rewrite part_nos_app. unfold part_nos at 2. cbn [map concat snd]. by rewrite app_nil_r. }
    pose proof (zlen_nonneg (closed (pl s))). pose proof (zlen_nonneg (take n G1)).
    split; cbn [pl with_fs with_pl fs closed msn open partN map app]; try done.
    + rewrite (seqZ_suffix _ _ _ _ Efs) by lia. rewrite !zlen_map. f_equal; lia.
    + apply Forall_drop. unfold G1. apply Forall_app. split; [done |]. by constructor.
    + assert (zlen (part_nos (take n G1)) <= partN (pl s) - lo \/ part_nos (drop n G1) = []) as [Hl | Hl].
      { destruct (Z.le_gt_cases 0 (partN (pl s) - lo)).
        - left. apply (f_equal zlen) in Eps. rewrite zlen_app in Eps. unfold zlen at 3 in Eps. rewrite length_seqZ in Eps.
          pose proof (zlen_nonneg (part_nos (drop n G1))). lia.
        - right. rewrite seqZ_nil in Eps by lia. by apply app_eq_nil in Eps as [_ ->]. }
      * exists (lo + zlen (part_nos (take n G1))). pose proof (zlen_nonneg (part_nos (take n G1))). split; [lia |]. rewrite app_nil_r.
        rewrite (seqZ_suffix _ _ _ _ Eps) by lia. f_equal. lia.
      * exists (Z.max lo (partN (pl s))). rewrite Hl, seqZ_nil by lia. split; [lia | done].
    + change (zlen (@nil (Z * bytes))) with 0. assert (0 < zlen O) by (destruct O; [done | unfold zlen; cbn; lia]). lia.
    + intros x Hx. rewrite app_nil_r in Hx. rewrite Ew. apply elem_of_app. left. apply H9.
      assert (x ∈ concat (map snd G1)) as Hx1.
      { rewrite <- (take_drop n G1), map_app, concat_app. apply elem_of_app. by right. }
      unfold G1 in Hx1. rewrite map_app, concat_app in Hx1. cbn [map concat snd] in Hx1. by rewrite app_nil_r in Hx1.
    + assert (forall k b, 0 <= k < 10 ^ 20 -> (part_name k, b) ∈ wrote d3 -> (part_name k, b) ∈ wrote (fs s)) as Hold.
      { intros k b Hk0 Hin. rewrite Ew in Hin. apply elem_of_app in Hin as [Hin | Hin]; [done |]. apply elem_of_app in Hin as [Hin | Hin].
        - apply list_elem_of_singleton in Hin. injection Hin as E _. by destruct (tag_name_inj (TPart k) (TSeg (msn (pl s)))).
        - rewrite Forall_forall in Hws. destruct (Hws _ Hin) as (j & E). cbn [fst] in E. exfalso. clear - E.
          unfold tag_name, part_name in E. apply app_inv_head in E. apply tail_eq in E as [_ E]; [discriminate | done]. }
      intros k b Hk0 Hin. destruct (H10 k b Hk0 (Hold k b Hk0 Hin)) as [Hlt Hu]. split; [done |]. intros b' Hin'. by apply Hu, Hold.
  - unfold out. cbn [open with_fs with_pl pl fs map concat]. rewrite !app_nil_r. rewrite (segments_out_app (fs s) d3 _ Ew).
    rewrite List.filter_app, (refs_not_out ws Hws), app_nil_r. cbn [List.filter]. rewrite tag_is_seg. cbn [map concat snd]. by rewrite app_nil_r.
  - rewrite (Hf3 (lit "init.mp4")), (Hfo (lit "init.mp4")) by (unfold other_names; repeat constructor). cbn [files d1 fs with_fs].
    apply lookup_insert_ne. rewrite seg_tag. apply tag_other. repeat constructor.
Qed.
End close.

(** ** The other steps of a part's way out *)

Section steps.
Context (takes : gmap (list Z) bytes -> list Z -> bytes -> bool) (renames : gmap (list Z) bytes -> bool).
Context (now : nat -> Z) (known_long : bool) (line : Z -> Z) (split : bool) (init : bytes).

Notation closeSeg := (closeSeg takes).
Notation flush := (flush takes renames now known_long split init).
Notation place := (place takes renames now known_long line split init).
Notation place_held := (place_held takes renames now known_long line split init).
Notation placeShort := (placeShort takes renames now known_long line split init).
Notation placeAcc := (placeAcc takes renames now known_long line split init).
Notation hold_or_place := (hold_or_place takes renames now known_long line split init).
Notation gather := (gather takes renames now known_long line split init).
Notation take_frag := (take_frag takes renames now known_long line split init).
Notation finish_pack := (finish_pack takes renames now known_long line split init).

(** Steps one after the other. *)
Lemma keeps_after b c (s : packer) (m : run packer) (f : packer -> run packer) :
  ends m (keeps b s) -> (forall s', ends (f s') (keeps c s')) -> ends (go m f) (keeps (b ++ c) s).
Proof. intros Hm Hf. destruct m as [s1 |]; [| done]. cbn in *. eapply ends_mono; [apply Hf |]. intros s2. by apply keeps_trans. Qed.
Lemma keeps_next b s s1 s2 : keeps [] s s1 -> keeps b s1 s2 -> keeps b s s2.
Proof. intros H1 H2. exact (keeps_trans [] b s s1 s2 H1 H2). Qed.
Lemma ends_next b s s1 (m : run packer) : keeps [] s s1 -> ends m (keeps b s1) -> ends m (keeps b s).
Proof. intros H1 H2. eapply ends_mono; [exact H2 |]. intros s2. by apply keeps_next. Qed.

Lemma break_keeps pts s : ends (break_line takes pts s) (keeps [] s).
Proof.
  unfold break_line. apply (keeps_after [] []); [apply closeSeg_keeps |]. intros s'.
  destruct (continuation _ _ _ _ _). by apply keeps_same.
Qed.
Lemma note_first_keeps s : keeps [] s (note_first line s).
Proof. unfold note_first. case_match; by apply keeps_same. Qed.

Lemma set_last_bodies o d : map (fun p => (pname p, pbody p)) (set_last_dur o d) = map (fun p => (pname p, pbody p)) o.
Proof.
  unfold set_last_dur. destruct (reverse o) as [| p ps] eqn:E; [by apply (f_equal reverse) in E; rewrite reverse_involutive in E; subst |].
  apply (f_equal reverse) in E. rewrite reverse_involutive, reverse_cons in E. by rewrite E, !map_app.
Qed.
Lemma close_group_keeps pts sync s : ends (close_group takes split pts sync s) (keeps [] s).
Proof.
  unfold close_group. apply ends_if; intros _; [apply keeps_refl |].
  set (o := if pdur (last_part (open (pl s))) =? 0 then _ else _). set (s1 := with_pl _ s).
  assert (keeps [] s s1) as H1.
  { apply keeps_same; try done. cbn. subst o. repeat case_match; by rewrite ?set_last_bodies. }
  apply ends_if; intros _; [| done]. eapply ends_next; [exact H1 | apply closeSeg_keeps].
Qed.
Lemma close_full_keeps frag s : ends (close_full takes frag s) (keeps [] s).
Proof. unfold close_full. apply ends_if; intros _; [apply closeSeg_keeps | apply keeps_refl]. Qed.
Lemma close_whole_keeps pts dur sync s : ends (close_whole takes split pts dur sync s) (keeps [] s).
Proof. unfold close_whole. apply ends_if; intros _; [apply closeSeg_keeps | apply keeps_refl]. Qed.

Lemma add_part_keeps frag pts dur sync s : ends (add_part takes frag pts dur sync s) (keeps frag s).
Proof.
  unfold add_part. match goal with |- context [part_name (partN ?x)] => set (l := x) end.
  assert (open l = open (pl s) /\ closed l = closed (pl s) /\ partN l = partN (pl s) /\ msn l = msn (pl s)) as (E1 & E2 & E3 & E4)
    by (subst l; by case_match).
  rewrite E1, E2, E3, E4. apply ends_go. eapply ends_mono; [apply WriteFile_at |]. intros d ->. cbv beta. cbn [ends].
  split; [cbn; lia |]. cbn [pl with_fs with_ck with_pl partN fs]. intros Hb (G & O & Hd).
  destruct (dir_made s G O Hd ltac:(lia)) as [Hm1 Hm2]. assert (0 <= partN (pl s)) as Hp0.
  { destruct Hd as [_ _ _ _ _ _ [H7 H8] _ _]. pose proof (zlen_nonneg O). pose proof (zlen_nonneg (closed (pl s))). lia. }
  assert (tag_ok (TPart (partN (pl s)))) as Hn by (unfold tag_ok; cbn [tag_num]; lia). rewrite part_tag.
  set (d1 := mkDisk _ _). assert (changes (eq (TPart (partN (pl s)))) (fs s) d1) as Hc by (by apply changes_put).
  destruct Hd as [H1 H2 H3 (lo & Hlo & H4) H5 H6 [H7 H8] H9 H10].
  assert (forall k, k ∈ part_nos G ++ map fst O -> k <> partN (pl s)) as Hne by (intros k Hk; rewrite H4 in Hk; apply elem_of_seqZ in Hk; lia).
  assert (forall k b, 0 <= k < 10 ^ 20 -> (part_name k, b) ∈ wrote d1 -> (part_name k, b) ∈ wrote (fs s) \/ k = partN (pl s) /\ b = frag) as Hold.
  { intros k b Hk Hin. cbn [wrote d1] in Hin. apply elem_of_app in Hin as [Hin | Hin]; [by left |]. apply list_elem_of_singleton in Hin.
    apply pair_equal_spec in Hin as [E ->]. right. split; [| done]. apply (tag_name_inj (TPart k)) in E; [by injection E | done | done]. }
  split; [| split].
  - exists G, (O ++ [(partN (pl s), frag)]). split; cbn [pl with_fs with_ck with_pl fs closed msn open partN]; try done.
    + eapply segs_frame; [exact Hm1 | exact Hc | | exact H1]. intros t (x & Hx & Hf) <-. destruct Hf as [Hf | (p & Hp & [Hf | Hf])]; try done.
      injection Hf as Hf. apply (Hne (fst p)); [| done]. apply elem_of_app. left. apply elem_part_nos. eauto.
    + destruct (Z.le_gt_cases lo (partN (pl s))).
      * exists lo. split; [done |]. rewrite map_app, app_assoc, H4. cbn [map fst]. replace (partN (pl s) + 1 - lo) with (partN (pl s) - lo + 1) by lia.
        rewrite seqZ_app by lia. f_equal. rewrite seqZ_cons by lia. rewrite seqZ_nil by lia. f_equal. lia.
      * exists (partN (pl s)). split; [lia |]. rewrite map_app, app_assoc, H4, seqZ_nil by lia. rewrite seqZ_cons by lia. by rewrite seqZ_nil by lia.
    + rewrite !map_app, H5. done.
    + apply Forall_app. split.
      * apply Forall_forall. intros x Hx. rewrite (Hc (TPart (fst x))).
        -- rewrite Forall_forall in H6. by apply H6.
        -- rewrite Forall_forall in Hm2. by apply Hm2.
        -- intros E. injection E as E. apply (Hne (fst x)); [| done]. apply elem_of_app. right. by apply list_elem_of_fmap_2.
      * constructor; [| done]. unfold at_tag, d1. cbn [files fst snd]. by rewrite lookup_insert_eq.
    + rewrite zlen_app. unfold zlen at 3. cbn [length]. lia.
    + intros x Hx. rewrite app_assoc in Hx. cbn [wrote d1]. apply elem_of_app in Hx as [Hx | Hx]; apply elem_of_app; [left; by apply H9 | right].
      apply list_elem_of_singleton in Hx as ->. by apply list_elem_of_singleton.
    + intros k b Hk Hin. destruct (Hold k b Hk Hin) as [Ho | [-> ->]].
      * destruct (H10 k b Hk Ho) as [Hlt Hu]. split; [lia |]. intros b' Hin'. destruct (Hold k b' Hk Hin') as [Ho' | [-> _]]; [by apply Hu | lia].
      * split; [lia |]. intros b' Hin'. destruct (Hold _ b' Hk Hin') as [Ho' | [_ ->]]; [| done]. destruct (H10 _ b' Hk Ho'). lia.
  - unfold out. cbn [open with_fs with_ck with_pl pl fs]. rewrite map_app, concat_app. cbn [map concat pbody]. rewrite app_nil_r, app_assoc. f_equal.
    rewrite (segments_out_app (fs s) d1 [(tag_name (TPart (partN (pl s))), frag)] eq_refl).
    change (List.filter is_seg [(tag_name (TPart (partN (pl s))), frag)]) with (@nil (list Z * bytes)). cbn [map concat]. by rewrite app_nil_r.
  - cbn [files d1]. apply lookup_insert_ne, tag_other. repeat constructor.
Qed.

(** The playlist on disk lists the state's segments and parts, with what [aim]
    gives for them. *)
Definition listed (s : packer) : Prop :=
  exists h a, aim split known_long h (closed (pl s)) (open (pl s)) = (a, hold (pl s)) /\
  files (fs s) !! lit "index.m3u8" =
    Some (playlist_text split (allSync (pl s)) a (closed (pl s)) (open (pl s)) (msn (pl s) - zlen (closed (pl s)))
      (mkBreak (segGap (pl s)) (segGap (pl s) && segCont (pl s)) (segStep (pl s)) (part_name (partN (pl s))))).

Lemma keeps_disk s s' ws : pl s' = pl s \/ (exists h, pl s' = with_hold h (pl s)) ->
  (forall t, tag_ok t -> at_tag (fs s') t = at_tag (fs s) t) -> wrote (fs s') = wrote (fs s) ++ ws ->
  Forall (fun w => fst w ∈ other_names) ws -> files (fs s') !! lit "init.mp4" = files (fs s) !! lit "init.mp4" -> keeps [] s s'.
Proof.
  intros Hl Ht Hw Ho Hi. assert (closed (pl s') = closed (pl s) /\ open (pl s') = open (pl s) /\ partN (pl s') = partN (pl s) /\ msn (pl s') = msn (pl s))
    as (E1 & E2 & E3 & E4) by (by destruct Hl as [-> | (h & ->)]).
  split; [by rewrite E3 |]. rewrite E3. intros Hb (G & O & Hd).
  destruct (dir_made s G O Hd Hb) as [Hm1 Hm2]. destruct Hd as [H1 H2 H3 H4 H5 H6 H7 H8 H9]. split; [| split; [| done]].
  - exists G, O. split; rewrite ?E1, ?E2, ?E3, ?E4; try done.
    + eapply (segs_frame (fun _ => False)); [exact Hm1 | | by auto | exact H1]. intros t Hok _. by apply Ht.
    + apply Forall_forall. intros x Hx. rewrite Ht by (rewrite Forall_forall in Hm2; by apply Hm2). rewrite Forall_forall in H6. by apply H6.
    + intros x Hx. rewrite Hw. apply elem_of_app. left. by apply H8.
    + assert (forall k b, (part_name k, b) ∈ wrote (fs s') -> (part_name k, b) ∈ wrote (fs s)) as Hold.
      { intros k b Hin. rewrite Hw in Hin. apply elem_of_app in Hin as [Hin | Hin]; [done |]. rewrite Forall_forall in Ho. specialize (Ho _ Hin).
        cbn [fst] in Ho. by destruct (tag_other (TPart k) _ Ho). }
      intros k b Hk Hin. destruct (H9 k b Hk (Hold _ _ Hin)) as [Hlt Hu]. split; [done |]. intros b' Hin'. apply Hu. by apply Hold.
  - unfold out. rewrite E2, app_nil_r. f_equal. rewrite (segments_out_app _ _ _ Hw).
    enough (List.filter is_seg ws = []) as -> by (cbn; by rewrite app_nil_r).
    clear Hw. induction Ho as [| [n b] ws Hn Ho IH]; [done |]. cbn [List.filter]. rewrite IH. cbn [fst] in Hn. unfold other_names in Hn.
    cbn [map] in Hn. rewrite !elem_of_cons in Hn. by destruct Hn as [-> | [-> | [-> | Hn]]]; [| | | apply not_elem_of_nil in Hn].
Qed.

Lemma flush_keeps s : ends (flush s) (fun s' => keeps [] s s' /\ gt s' = gt s /\ (init <> [] -> listed s')).
Proof.
  unfold flush. destruct (Z.eqb_spec (zlen init) 0) as [Hi |].
  { split; [apply keeps_refl |]. split; [done |]. intros Hn. by destruct Hn, (zlen_0_nil _ Hi). }
  set (js := if longEvidence <=? _ then _ else _). destruct js as [g said].
  destruct (aim split known_long (hold (pl s)) (closed (pl s)) (open (pl s))) as [a h] eqn:Ea.
  apply ends_go. eapply ends_mono; [apply WriteFile_at |]. intros d ->. cbv beta zeta. apply ends_if; intros _; [done |].
  destruct (publish _ _ _ _ _ _ _) as [g' rd]. cbn [ends]. split; [| split; [done |]].
  - eapply keeps_disk; [right; by exists h | | cbn [fs wrote]; reflexivity | |].
    + intros t Ht. unfold at_tag. cbn [fs files]. rewrite lookup_insert_ne by (intros E; symmetry in E; revert E; apply tag_other; repeat constructor).
      rewrite lookup_delete_ne by (intros E; symmetry in E; revert E; apply tag_other; repeat constructor).
      apply lookup_insert_ne. intros E. symmetry in E. revert E. apply tag_other. repeat constructor.
    + constructor; [| done]. cbn [fst]. repeat constructor.
    + cbn [fs files]. rewrite lookup_insert_ne by done. rewrite lookup_delete_ne by done. by rewrite lookup_insert_ne.
  - intros _. exists (hold (pl s)), a. cbn [pl with_hold closed open hold fs files msn allSync segGap segCont segStep partN].
    split; [exact Ea | apply lookup_insert_eq].
Qed.

(** What of the state a part's way out leaves. *)
Definition frame (s s' : packer) : Prop := gt s' = gt s.

Lemma closeSeg_gt end_ s : ends (closeSeg end_ s) (frame s).
Proof.
  unfold closeSeg. destruct (open (pl s)) eqn:E; [done |]. rewrite <- E. apply ends_go. eapply ends_mono; [apply WriteFile_at |]. intros d ->. cbv beta zeta.
  destruct (trim_window _ _ _). by destruct (refer_old _ _ _ _ _).
Qed.
Lemma frame_go (s : packer) (m : run packer) (f : packer -> run packer) :
  ends m (frame s) -> (forall s', frame s s' -> ends (f s') (frame s')) -> ends (go m f) (frame s).
Proof. intros Hm Hf. apply ends_go. eapply ends_mono; [exact Hm |]. intros s1 H1. eapply ends_mono; [by apply Hf |]. unfold frame in *. congruence. Qed.

Lemma place_frame frag pts dur sync s : ends (place frag pts dur sync s) (frame s).
Proof.
  unfold place. apply frame_go.
  { apply ends_if; intros _; [| done]. unfold break_line. apply frame_go; [apply closeSeg_gt |]. intros s' _. by destruct (continuation _ _ _ _ _). }
  intros s1 _. set (s2 := note_first line s1). assert (frame s1 s2) as H2 by (unfold s2, note_first; by case_match).
  enough (ends (let? s := if jump_at s pts then inl s2 else close_group takes split pts sync s2 in let? s := close_full takes frag s in
    let? s := add_part takes frag pts dur sync s in let? s := close_whole takes split pts dur sync s in flush s) (frame s2)) as H3.
  { eapply ends_mono; [exact H3 |]. unfold frame in *. congruence. }
  apply frame_go.
  { apply ends_if; intros _; [done |]. unfold close_group. apply ends_if; intros _; [done |]. apply ends_if; intros _; [| done].
    eapply ends_mono; [apply closeSeg_gt | done]. }
  intros s3 _. apply frame_go; [unfold close_full; apply ends_if; intros _; [apply closeSeg_gt | done] |].
  intros s4 _. apply frame_go.
  { unfold add_part. apply ends_go. eapply ends_mono; [apply WriteFile_at |]. by intros d ->. }
  intros s5 _. apply frame_go; [unfold close_whole; apply ends_if; intros _; [apply closeSeg_gt | done] |].
  intros s6 _. eapply ends_mono; [apply flush_keeps |]. by intros s7 (_ & ? & _).
Qed.

Lemma place_keeps frag pts dur sync s : ends (place frag pts dur sync s) (keeps frag s).
Proof.
  unfold place. apply (keeps_after [] frag); [apply ends_if; intros _; [apply break_keeps | apply keeps_refl] |]. intros s1.
  apply (ends_next _ _ _ _ (note_first_keeps s1)).
  apply (keeps_after [] frag); [apply ends_if; intros _; [apply keeps_refl | apply close_group_keeps] |]. intros s2.
  apply (keeps_after [] frag); [apply close_full_keeps |]. intros s3.
  rewrite <- (app_nil_r frag) at 2. apply (keeps_after frag []); [apply add_part_keeps |]. intros s4.
  apply (keeps_after [] []); [apply close_whole_keeps |]. intros s5. eapply ends_mono; [apply flush_keeps |]. by intros s6 [? _].
Qed.

Lemma ends_go_last {A} (m : run A) (f : A -> run packer) (Q : packer -> Prop) : (forall a, ends (f a) Q) -> ends (go m f) Q.
Proof. intros Hf. destruct m; [apply Hf | done]. Qed.
Lemma place_listed frag pts dur sync s : init <> [] -> ends (place frag pts dur sync s) listed.
Proof.
  intros Hi. unfold place. repeat (apply ends_go_last; intros ?). eapply ends_mono; [apply flush_keeps |]. intros s' (_ & _ & H). by apply H.
Qed.

(** ** A fragment taken *)

Definition held_body (h : option held) : bytes := match h with Some h => hbody h | None => [] end.
Definition pending (s : packer) : bytes := held_body (short (gt s)) ++ held_body (acc (gt s)).
(** All the media taken: what is out, then what is gathered. *)
Definition media (s : packer) : bytes := out s ++ pending s.
(** Only one of the two ways to gather is in use. *)
Definition tidy (s : packer) : Prop := if split then short (gt s) = None else acc (gt s) = None.

(** A part went out, and [g] is gathered after it. *)
Definition sends (b : bytes) (g : gathering) (s s' : packer) : Prop := keeps b s s' /\ gt s' = g /\ (init <> [] -> listed s').

Lemma place_sends s s0 frag pts dur sync : keeps [] s s0 -> ends (place frag pts dur sync s0) (sends frag (gt s0) s).
Proof.
  intros H0. pose proof (place_keeps frag pts dur sync s0) as H1. pose proof (place_frame frag pts dur sync s0) as H2.
  pose proof (place_listed frag pts dur sync s0) as H3. destruct (place _ _ _ _ _) as [s' |]; [| done]. cbn [ends] in *.
  split; [by eapply keeps_next | split; [exact H2 | exact H3]].
Qed.
Lemma place_held_sends s s0 h : keeps [] s s0 -> ends (place_held h s0) (sends (hbody h) (gt s0) s).
Proof.
  intros H0. unfold place_held. apply ends_go. eapply ends_mono.
  { apply (place_sends s (with_marks (hhandover h) (hfresh h) s0)). eapply keeps_next; [exact H0 | by apply keeps_same]. }
  intros s1 (K & E & L). split; [| split; [exact E | exact L]]. rewrite <- (app_nil_r (hbody h)). eapply keeps_trans; [exact K | by apply keeps_same].
Qed.
Lemma placeShort_sends s : ends (placeShort s) (fun s' => s' = s /\ short (gt s) = None \/
  sends (held_body (short (gt s))) (with_short None (gt s)) s s').
Proof.
  unfold placeShort. destruct (short (gt s)) as [h |] eqn:E; [| by left]. eapply ends_mono; [apply (place_held_sends s); by apply keeps_same |].
  intros s' H. by right.
Qed.
Lemma placeAcc_sends s : ends (placeAcc s) (fun s' => s' = s /\ acc (gt s) = None \/
  sends (held_body (acc (gt s))) (with_acc None (gt s)) s s').
Proof.
  unfold placeAcc. destruct (acc (gt s)) as [h |] eqn:E; [| by left]. eapply ends_mono; [apply (place_held_sends s); by apply keeps_same |].
  intros s' H. by right.
Qed.

(** The state after: the directory sound, [b] more media, and the playlist the state's. *)
Definition grows (b : bytes) (s s' : packer) : Prop :=
  partN (pl s) <= partN (pl s') /\
  (partN (pl s') <= 10 ^ 20 -> tidy s -> dir_ok s ->
   tidy s' /\ dir_ok s' /\ media s' = media s ++ b /\ files (fs s') !! lit "init.mp4" = files (fs s) !! lit "init.mp4") /\
  (init <> [] -> listed s' \/ pl s' = pl s /\ fs s' = fs s).

(** Nothing goes out, and [g] is gathered. *)
Lemma grows_gathers b s s' : pl s' = pl s -> fs s' = fs s -> (tidy s -> tidy s' /\ pending s' = pending s ++ b) -> grows b s s'.
Proof.
  intros E1 E2 H. assert (keeps [] s s') as [K1 K2] by (by apply keeps_same; rewrite ?E1). split; [done |]. split; [| by right].
  intros Hb Ht Hd. destruct (K2 Hb Hd) as (D & O & I). destruct (H Ht) as [T P]. split_and!; [done | done | | done].
  unfold media. by rewrite O, P, app_nil_r, app_assoc.
Qed.
(** What was gathered goes out, [c] with it. *)
Lemma grows_sends b c g s s' : sends c g s s' ->
  (tidy s -> tidy s' /\ c ++ held_body (short g) ++ held_body (acc g) = pending s ++ b) -> grows b s s'.
Proof.
  intros ([K1 K2] & E & L) H. split; [done |]. split; [| intros Hi; left; by apply L]. intros Hb Ht Hd. destruct (K2 Hb Hd) as (D & O & I).
  destruct (H Ht) as [T P]. split_and!; [done | done | | done]. unfold media, pending at 1. rewrite O, E, <- !app_assoc. f_equal. exact P.
Qed.
Lemma grows_then b c s s1 s2 : grows b s s1 -> pl s2 = pl s1 -> fs s2 = fs s1 -> (tidy s1 -> tidy s2 /\ pending s2 = pending s1 ++ c) ->
  grows (b ++ c) s s2.
Proof.
  intros (G1 & G2 & G3) E1 E2 H. split; [by rewrite E1 |]. split.
  - rewrite E1. intros Hb Ht Hd. destruct (G2 Hb Ht Hd) as (T1 & D1 & M1 & I1). destruct (H T1) as [T2 P2].
    assert (keeps [] s1 s2) as [_ K] by (by apply keeps_same; rewrite ?E1). rewrite E1 in K. destruct (K Hb D1) as (D2 & O2 & _).
    split_and!; [done | done | | by rewrite E2, I1]. unfold media in *. rewrite O2, P2, app_nil_r, app_assoc, M1. by rewrite app_assoc.
  - intros Hi. destruct (G3 Hi) as [(h & a & L1 & L2) | [L1 L2]]; [left | right; by rewrite E1, E2]. exists h, a. by rewrite E1, E2.
Qed.
Lemma grows_after b c s (m : run packer) (f : packer -> run packer) :
  ends m (grows b s) -> (forall s1, grows b s s1 -> ends (f s1) (grows (b ++ c) s)) -> ends (go m f) (grows (b ++ c) s).
Proof. intros Hm Hf. apply ends_go. eapply ends_mono; [exact Hm |]. exact Hf. Qed.
Lemma grows_refl s : grows [] s s.
Proof. apply grows_gathers; [done | done |]. intros Ht. by rewrite app_nil_r. Qed.
Lemma grows_trans b c s1 s2 s3 : grows b s1 s2 -> grows c s2 s3 -> grows (b ++ c) s1 s3.
Proof.
  intros (A1 & A2 & A3) (B1 & B2 & B3). split; [lia |]. split.
  - intros Hb Ht Hd. destruct (A2 ltac:(lia) Ht Hd) as (T & D & M & I). destruct (B2 Hb T D) as (T' & D' & M' & I').
    split_and!; [done | done | by rewrite M', M, app_assoc | congruence].
  - intros Hi. destruct (B3 Hi) as [H | [H1 H2]]; [by left |]. destruct (A3 Hi) as [(h & a & L1 & L2) | [L1 L2]]; [left | right; by rewrite H1, H2].
    exists h, a. by rewrite H1, H2.
Qed.

Lemma placeShort_grows s : ends (placeShort s) (fun s' => grows [] s s' /\ gt s' = with_short None (gt s)).
Proof.
  eapply ends_mono; [apply placeShort_sends |]. intros s' [[-> E] | H].
  { split; [apply grows_refl |]. unfold with_short. rewrite <- E. by destruct (gt s). }
  pose proof H as (_ & E & _). split; [eapply grows_sends; [exact H |] | done].
  unfold tidy, pending. rewrite E, app_nil_r. by destruct split.
Qed.
Lemma placeAcc_grows s : ends (placeAcc s) (fun s' => grows [] s s' /\ gt s' = with_acc None (gt s)).
Proof.
  eapply ends_mono; [apply placeAcc_sends |]. intros s' [[-> E] | H].
  { split; [apply grows_refl |]. unfold with_acc. rewrite <- E. by destruct (gt s). }
  pose proof H as (_ & E & _). split; [eapply grows_sends; [exact H |] | done].
  unfold tidy, pending. rewrite E. destruct split; cbn; intros ->; cbn; by rewrite !app_nil_r.
Qed.

Lemma begin_part_grows frag pts dur sync s : split = true -> acc (gt s) = None -> grows frag s (begin_part frag pts dur sync s).
Proof.
  intros Es Ea. apply grows_gathers; [done | done |]. unfold tidy, pending, begin_part. rewrite Es, Ea.
  destruct sync; cbn; by intros ->.
Qed.
Lemma gather_grows f s : split = true -> ends (gather f s) (grows (kept split s f) s).
Proof.
  intros Es. unfold gather, kept. destruct (fstart f) as [pts |], (acc (gt s)) as [a |] eqn:Ea.
  - apply ends_if; intros _.
    + apply grows_gathers; [done | done |]. unfold tidy, pending. rewrite Es. cbn. rewrite Ea. cbn. by rewrite <- app_assoc.
    + apply ends_go. eapply ends_mono; [apply placeAcc_grows |]. intros s1 [G1 E1]. cbn [ends].
      eapply (grows_trans []); [exact G1 |]. apply begin_part_grows; [done |]. by rewrite E1.
  - by apply begin_part_grows.
  - rewrite Es. apply ends_if; intros Hb; rewrite Hb; [| apply grows_refl].
    apply grows_gathers; [done | done |]. unfold tidy, pending. rewrite Es. cbn. rewrite Ea. cbn. by rewrite <- app_assoc.
  - rewrite Es. apply grows_refl.
Qed.

Lemma hold_or_place_grows b body pts dur sync s s0 : split = false -> keeps [] s s0 -> short (gt s0) = None -> acc (gt s0) = acc (gt s) ->
  pl s0 = pl s -> fs s0 = fs s -> (tidy s -> body = pending s ++ b) -> ends (hold_or_place body pts dur sync s0) (grows b s).
Proof.
  intros Es K Eh Ea E1 E2 Hb. unfold hold_or_place. apply ends_if; intros _.
  - cbn [ends]. apply grows_gathers; [done | done |]. intros Ht. specialize (Hb Ht). unfold tidy, pending in *. rewrite Es in *. cbn. rewrite Ea, Ht in *.
    rewrite Hb. by rewrite !app_nil_r.
  - eapply ends_mono; [by apply (place_sends s) |]. intros s' H. pose proof H as (_ & E & _). eapply grows_sends; [exact H |].
    intros Ht. specialize (Hb Ht). unfold tidy, pending in *. rewrite Es in *. rewrite E, Eh, Ea, Ht in *. split; [done |]. by rewrite app_nil_r.
Qed.

Lemma take_frag_grows f s : ends (take_frag f s) (grows (kept split s f) s).
Proof.
  unfold take_frag. apply ends_if; intros Es; [by apply gather_grows |]. unfold kept.
  destruct (fstart f) as [pts |]; [| rewrite Es; apply grows_refl]. destruct (short (gt s)) as [h |] eqn:Eh.
  - apply ends_if; intros _.
    + apply ends_go. eapply ends_mono; [apply placeShort_grows |]. intros s1 [G1 E1].
      eapply ends_mono; [apply (hold_or_place_grows (fbody f) _ _ _ _ s1); try done; [apply keeps_refl | by rewrite E1 |] |].
      * unfold tidy, pending. rewrite Es, E1. cbn. by intros ->.
      * intros s2 G2. by apply (grows_trans []  _ _ s1).
    + destruct (if 0 <? fdur f then _ else _) as [p d]. apply hold_or_place_grows; try done; [by apply keeps_same |].
      unfold tidy, pending. rewrite Es, Eh. intros ->. cbn. by rewrite app_nil_r.
  - apply hold_or_place_grows; try done; [apply keeps_refl |]. unfold tidy, pending. rewrite Es, Eh. by intros ->.
Qed.

Lemma finish_grows s : ends (finish_pack s) (fun s' => grows [] s s' /\ pending s' = [] /\ open (pl s') = []).
Proof.
  unfold finish_pack. apply ends_go. eapply ends_mono; [apply placeShort_grows |]. intros s1 [G1 E1].
  apply ends_go. eapply ends_mono; [apply placeAcc_grows |]. intros s2 [G2 E2]. pose proof (grows_trans [] [] _ _ _ G1 G2) as G.
  assert (pending s2 = []) as P2 by (unfold pending; by rewrite E2, E1). clear s1 G1 G2 E1 E2. rename s2 into s1. cbv beta.
  destruct (open (pl s1)) as [| p o] eqn:Eo; [by split_and! |]. rewrite <- Eo. clear Eo.
  pose proof (closeSeg_keeps takes (own_end (open (pl s1))) s1) as K1. pose proof (closeSeg_gt (own_end (open (pl s1))) s1) as T1.
  assert (ends (closeSeg (own_end (open (pl s1))) s1) (fun s' => open (pl s') = [])) as O1.
  { unfold closeSeg. destruct (open (pl s1)) eqn:E; [done |]. apply ends_go_last. intros d.
    destruct (trim_window _ _ _). by destruct (refer_old _ _ _ _ _). }
  destruct (closeSeg _ s1) as [s2 |]; [| done]. cbn [ends go] in *.
  assert (ends (flush s2) (fun s' => open (pl s') = [])) as O2.
  { unfold flush. rewrite O1. apply ends_if; intros _; [done |]. destruct (if longEvidence <=? _ then _ else _). destruct (aim _ _ _ _ _).
    apply ends_go_last. intros d. apply ends_if; intros _; [done |]. by destruct (publish _ _ _ _ _ _ _). }
  pose proof (flush_keeps s2) as F. destruct (flush s2) as [s3 |]; [| done]. cbn [ends] in *. destruct F as (K2 & T2 & L2).
  assert (pending s3 = pending s1) as P3 by (unfold pending; unfold frame in T1; by rewrite T2, T1).
  split; [| split; [by rewrite P3 | done]]. apply (grows_trans [] [] s s1 s3 G). pose proof (keeps_trans [] [] _ _ _ K1 K2) as [K3 K4].
  split; [done |]. split; [| intros Hi; left; by apply L2]. intros Hb Ht Hd. destruct (K4 Hb Hd) as (D & O & I). split_and!; [| done | | done].
  - unfold tidy in *. unfold frame in T1. by rewrite T2, T1.
  - unfold media. by rewrite O, P3, !app_nil_r.
Qed.
End steps.

(** ** Runs *)

Section run.
Context (takes : gmap (list Z) bytes -> list Z -> bytes -> bool) (renames : gmap (list Z) bytes -> bool).
Context (now : nat -> Z) (known_long : bool) (line : Z -> Z) (split : bool) (init : bytes).
Context (ok : packer -> fragment -> Prop) (s0 : packer) (begins : begun init s0).

Notation packs := (packs takes renames now known_long line split init ok s0).
Notation grows := (grows known_long split init).

Lemma begun_dir : dir_ok s0 /\ tidy split s0 /\ media s0 = [] /\ files (fs s0) !! lit "init.mp4" = Some init.
Proof.
  destruct begins as [E1 E2 E3 _ _ _ _]. split; [| split; [| split]].
  - exists [], []. assert (forall k b, (part_name k, b) ∈ wrote (fs s0) -> False) as Hno.
    { intros k b Hin. rewrite E1 in Hin. cbn [wrote] in Hin. apply list_elem_of_singleton, pair_equal_spec in Hin as [E _]. revert E.
      apply (tag_other (TPart k)). repeat constructor. }
    split; rewrite ?E2; cbn [closed open msn partN fresh_listing map].
    + constructor.
    + done.
    + constructor.
    + exists 0. done.
    + done.
    + constructor.
    + done.
    + intros x Hx. by apply not_elem_of_nil in Hx.
    + intros k b _ Hin. by destruct (Hno k b).
  - unfold tidy. rewrite E3. by destruct split.
  - unfold media, out, pending. by rewrite E1, E2, E3.
  - rewrite E1. cbn [files]. apply lookup_singleton_eq.
Qed.

Lemma run_grows l s : packs l s -> grows l s0 s.
Proof.
  intros H. induction H as [| l s f s' H IH Hok Ht | l s s' H IH Hs].
  - apply grows_refl.
  - eapply grows_trans; [exact IH |]. exact (ends_eq _ _ _ (take_frag_grows takes renames now known_long line split init f s) Ht).
  - rewrite <- (app_nil_r l). eapply grows_trans; [exact IH |]. destruct Hs as [E1 E2 E3 _ _ _ _].
    apply grows_gathers; [done | done |]. unfold tidy, pending. rewrite E3, app_nil_r. done.
Qed.

Lemma run_sound l s : packs l s -> partN (pl s) <= 10 ^ 20 ->
  tidy split s /\ dir_ok s /\ media s = l /\ files (fs s) !! lit "init.mp4" = Some init.
Proof.
  intros H Hb. destruct begun_dir as (D & T & M & I). destruct (run_grows l s H) as (_ & G & _). destruct (G Hb T D) as (T' & D' & M' & I').
  split_and!; [done | done | by rewrite M', M | congruence].
Qed.
Lemma run_listed l s : packs l s -> init <> [] -> listed known_long split s \/ pl s = fresh_listing /\ files (fs s) = {[lit "init.mp4" := init]}.
Proof.
  intros H Hi. destruct (run_grows l s H) as (_ & _ & G). destruct (G Hi) as [L | [L1 L2]]; [by left | right].
  destruct begins as [E1 E2 _ _ _ _ _]. by rewrite L1, L2, E1, E2.
Qed.
End run.

(** What [dir_ok] is of the files a playlist names. *)
Lemma dir_files s : dir_ok s ->
  (forall i g, closed (pl s) !! i = Some g -> sname g = seg_name (msn (pl s) - zlen (closed (pl s)) + Z.of_nat i) /\
     exists bs, files (fs s) !! sname g = Some (concat bs) /\
       (parts g = [] \/ Forall2 (fun r b => files (fs s) !! rname r = Some b /\ rsize r = zlen b) (parts g) bs)) /\
  (forall p, p ∈ open (pl s) -> files (fs s) !! pname p = Some (pbody p)).
Proof.
  intros (G & O & [H1 H2 _ _ H5 H6 _ _ _]). split.
  - intros i g Hg. destruct (Forall2_lookup_l _ _ _ _ _ H1 Hg) as (x & Hx & Hs & Hb & H).
    assert (fst x = msn (pl s) - zlen (closed (pl s)) + Z.of_nat i) as Ex.
    { assert (map fst G !! i = Some (fst x)) as Hl by (by rewrite list_lookup_fmap, Hx). rewrite H2 in Hl. apply lookup_seqZ in Hl. lia. }
    rewrite Hs, Ex. split; [done |]. exists (map snd (snd x)). split; [unfold at_tag in Hb; rewrite Ex in Hb; exact Hb |].
    destruct H as [(E1 & E2 & E3) | (E1 & _)]; [right | by left]. revert E1 E3. generalize (parts g) (snd x). clear.
    intros rs ps. revert ps. induction rs as [| r rs IH]; intros [| p ps] E1 E3; try done. cbn [map] in E1. injection E1 as Er1 Er2 E1.
    apply Forall_cons in E3 as [Ep E3]. constructor; [| by apply IH]. rewrite Er1. split; [exact Ep | exact Er2].
  - intros p Hp. apply list_elem_of_lookup in Hp as (i & Hi).
    assert (map (fun x => (part_name (fst x), snd x)) O !! i = Some (pname p, pbody p)) as Hl by (rewrite <- H5; by rewrite list_lookup_fmap, Hi).
    rewrite list_lookup_fmap in Hl. destruct (O !! i) as [x |] eqn:Ex; [| done]. cbn in Hl. injection Hl as E1 E2. rewrite <- E1, <- E2.
    rewrite Forall_forall in H6. apply (H6 x). by apply list_elem_of_lookup_2 in Ex.
Qed.

(** ** The theorems *)

(** C3. What a playlist names is there. After any run of the packager, with an encode
    header that is not empty: the header and the playlist are on disk; the
    playlist is the text of the state's segments and parts at the targets [aim]
    gives them (or nothing was placed yet, and the header is all there is); the
    closed segments are named by consecutive media sequence numbers; each one's
    file is there, and is its parts' files one after the other, unless they gave
    way; and each open part's file has the part's bytes. *)
Theorem playlist_files_exist takes renames now known_long line split init ok s0 l s :
  begun init s0 -> init <> [] -> packs takes renames now known_long line split init ok s0 l s -> partN (pl s) <= 10 ^ 20 ->
  files (fs s) !! lit "init.mp4" = Some init /\
  (listed known_long split s \/ closed (pl s) = [] /\ open (pl s) = [] /\ files (fs s) = {[lit "init.mp4" := init]}) /\
  (forall i g, closed (pl s) !! i = Some g ->
     sname g = seg_name (msn (pl s) - zlen (closed (pl s)) + Z.of_nat i) /\
     exists bs, files (fs s) !! sname g = Some (concat bs) /\
       (parts g = [] \/ Forall2 (fun r b => files (fs s) !! rname r = Some b /\ rsize r = zlen b) (parts g) bs)) /\
  (forall p, p ∈ open (pl s) -> files (fs s) !! pname p = Some (pbody p)).
Proof.
  intros Hs0 Hi Hrun Hb. destruct (run_sound _ _ _ _ _ _ _ _ _ Hs0 l s Hrun Hb) as (_ & Hd & _ & Hin).
  destruct (dir_files s Hd) as [H1 H2]. split; [done |]. split; [| done].
  destruct (run_listed _ _ _ _ _ _ _ _ _ Hs0 l s Hrun Hi) as [L | [L1 L2]]; [by left | right]. by rewrite L1, L2.
Qed.

(** A run, with the fragments taken and the packager as each of them found it *)
Section trace.
Context (takes : gmap (list Z) bytes -> list Z -> bytes -> bool) (renames : gmap (list Z) bytes -> bool).
Context (now : nat -> Z) (known_long : bool) (line : Z -> Z) (split : bool) (init : bytes) (s0 : packer).

Notation take_frag := (take_frag takes renames now known_long line split init).

Inductive ran : list (packer * fragment) -> packer -> Prop :=
  | ran_here : ran [] s0
  | ran_take l s f s' : ran l s -> take_frag f s = inl s' -> ran (l ++ [(s, f)]) s'
  | ran_between l s s' : ran l s -> same_list s s' -> ran l s'.

(** The media of the fragments marked, in their order *)
Definition media_of (l : list (packer * fragment)) (ks : list bool) : bytes :=
  concat (zip_with (fun x (k : bool) => if k then fbody (snd x) else []) l ks).
(** Why the [i]th fragment [f] of a run, taken in the state [s], may be left out: it has
    sound and no picture, and either parts are whole groups, or it comes before the
    first picture, or the part it would join would be over the cap with it. *)
Definition left_out (l : list (packer * fragment)) (i : nat) (s : packer) (f : fragment) : Prop :=
  fstart f = None /\
  (split = false \/ (forall j x, (j < i)%nat -> l !! j = Some x -> fstart (snd x) = None) \/
   exists a, acc (gt s) = Some a /\ 32 * 2 ^ 20 < zlen (hbody a) + zlen (fbody f)).

Lemma gather_acc f s : split = true -> ends (take_frag f s) (fun s' => acc (gt s') = None -> fstart f = None /\ acc (gt s) = None).
Proof.
  intros Es. unfold LivePack.take_frag. rewrite Es. unfold gather. destruct (fstart f) as [pts |], (acc (gt s)) as [a |] eqn:Ea.
  - apply ends_if; intros _; [done |]. apply ends_go. eapply ends_mono; [by apply (placeAcc_grows takes renames now known_long line true init) |].
    intros s1 _. cbn [ends]. unfold begin_part. by destruct (fsync f).
  - cbn [ends]. unfold begin_part. by destruct (fsync f).
  - apply ends_if; intros _; [done |]. cbn [ends]. by rewrite Ea.
  - by cbn [ends].
Qed.

Lemma kept_why s f : kept split s f = fbody f \/ kept split s f = [] /\ fstart f = None /\
  (split = false \/ acc (gt s) = None \/ exists a, acc (gt s) = Some a /\ 32 * 2 ^ 20 < zlen (hbody a) + zlen (fbody f)).
Proof.
  unfold kept. destruct (fstart f); [by left |]. destruct split; [| right; by auto]. destruct (acc (gt s)) as [a |] eqn:Ea; [| right; by auto].
  destruct (Z.leb_spec (zlen (hbody a) + zlen (fbody f)) maxOpenBytes) as [H | H]; [by left | right]. split_and!; [done | done |].
  right; right. exists a. split; [done |]. exact H.
Qed.

Lemma ran_packs l s : acc (gt s0) = None -> ran l s -> exists ks, length ks = length l /\
  packs takes renames now known_long line split init (fun _ _ => True) s0 (media_of l ks) s /\
  (split = true -> acc (gt s) = None -> forall j x, l !! j = Some x -> fstart (snd x) = None) /\
  (forall i s' f, l !! i = Some (s', f) -> ks !! i = Some false -> left_out l i s' f).
Proof.
  intros H0. induction 1 as [| l s f s' H (ks & Hn & Hp & Ha & Hk) Ht | l s s' H (ks & Hn & Hp & Ha & Hk) Hs].
  - exists []. split_and!; [done | constructor | done | done].
  - assert (forall k : bool, kept split s f = (if k then fbody f else []) -> (k = false -> left_out (l ++ [(s, f)]) (length l) s f) ->
      exists ks, length ks = length (l ++ [(s, f)]) /\ packs takes renames now known_long line split init (fun _ _ => True) s0 (media_of (l ++ [(s, f)]) ks) s' /\
      (split = true -> acc (gt s') = None -> forall j x, (l ++ [(s, f)]) !! j = Some x -> fstart (snd x) = None) /\
      (forall i s1 f1, (l ++ [(s, f)]) !! i = Some (s1, f1) -> ks !! i = Some false -> left_out (l ++ [(s, f)]) i s1 f1)) as Hgo.
    { intros k Ek Hwhy. exists (ks ++ [k]). split_and!.
      - rewrite !length_app. cbn. lia.
      - unfold media_of. rewrite zip_with_app by done. rewrite concat_app. cbn [zip_with concat]. rewrite app_nil_r. cbn [snd].
        rewrite <- Ek. by eapply packs_take.
      - intros Es En. pose proof (ends_eq _ _ _ (gather_acc f s Es) Ht En) as [Hf En']. intros j x Hx.
        apply lookup_app_Some in Hx as [Hx | [_ Hx]]; [by apply (Ha Es En' j) |]. apply list_lookup_singleton_Some in Hx as [_ <-]. done.
      - intros i s1 f1 Hi Hki. destruct (decide (i < length l)%nat) as [Hlt | Hge].
        + rewrite lookup_app_l in Hi by done. rewrite lookup_app_l in Hki by lia. destruct (Hk i s1 f1 Hi Hki) as [Hf Hw]. split; [done |].
          destruct Hw as [? | [Hw | ?]]; [by left | right; left | by right; right]. intros j x Hj Hx. rewrite lookup_app_l in Hx by lia. by apply (Hw j).
        + assert (i = length l) as -> by (apply lookup_lt_Some in Hi; rewrite length_app in Hi; cbn in Hi; lia).
          rewrite lookup_app_r, Nat.sub_diag in Hi by lia. injection Hi as <- <-. rewrite lookup_app_r, Hn, Nat.sub_diag in Hki by lia. injection Hki as ->. by apply Hwhy. }
    destruct (kept_why s f) as [E | (E & Hf & Hw)]; [by apply (Hgo true) |]. apply (Hgo false); [done |]. intros _. split; [done |].
    destruct Hw as [? | [En | ?]]; [by left | | by right; right]. destruct split eqn:Es; [| by left]. right; left. intros j x Hj Hx.
    rewrite lookup_app_l in Hx by done. by apply (Ha eq_refl En j).
  - exists ks. split_and!; [done | by eapply packs_between | | done]. intros Es En. apply Ha; [done |]. destruct Hs as [_ _ E _ _ _ _]. by rewrite <- E.
Qed.
End trace.

(** C2. Media is neither lost nor put out of order by being packed. Of the fragments a
    run of the packager has taken, the media of all but the [left_out] ones (sound with
    no picture: in parts of whole groups, before the first picture, or over the cap of
    the part it would join) is the segments written, in the order of their writing, then
    the open segment's parts, then what is still gathered; and when the run ends
    ([finish_pack]), the segments written are all of it. *)
Theorem pack_conserves takes renames now known_long line split init s0 l s :
  begun init s0 -> ran takes renames now known_long line split init s0 l s -> partN (pl s) <= 10 ^ 20 ->
  exists ks, length ks = length l /\ (forall i s' f, l !! i = Some (s', f) -> ks !! i = Some false -> left_out split l i s' f) /\
  media_of l ks = segments_out (fs s) ++ concat (map pbody (open (pl s))) ++ held_body (short (gt s)) ++ held_body (acc (gt s)) /\
  forall s', finish_pack takes renames now known_long line split init s = inl s' -> partN (pl s') <= 10 ^ 20 -> segments_out (fs s') = media_of l ks.
Proof.
  intros Hs0 Hrun Hb. destruct (ran_packs _ _ _ _ _ _ _ _ _ _ ltac:(by rewrite (begun_gt _ _ Hs0)) Hrun) as (ks & Hn & Hp & _ & Hk). exists ks. split; [done |]. split; [done |].
  destruct (run_sound _ _ _ _ _ _ _ _ _ Hs0 _ s Hp Hb) as (Ht & Hd & Hm & _). split.
  - rewrite <- Hm. unfold media, out, pending. by rewrite <- app_assoc.
  - intros s' E Hb'. destruct (ends_eq _ _ _ (finish_grows takes renames now known_long line split init s) E) as ((_ & G & _) & Hp' & Ho).
    destruct (G Hb' Ht Hd) as (_ & _ & M & _). unfold media at 1 in M. unfold out at 1 in M. rewrite Hp', Ho in M. cbn [map concat] in M.
    rewrite !app_nil_r in M. by rewrite M, Hm.
Qed.

(** ** A run *)

Section take_all.
Context (takes : gmap (list Z) bytes -> list Z -> bytes -> bool) (renames : gmap (list Z) bytes -> bool).
Context (now : nat -> Z) (known_long : bool) (line : Z -> Z) (split : bool) (init : bytes).

Fixpoint take_all (l : bytes) (s : packer) (l' : list fragment) : bytes * packer :=
  match l' with
  | [] => (l, s)
  | f :: l' => match take_frag takes renames now known_long line split init f s with
               | inl s' => take_all (l ++ kept split s f) s' l'
               | inr _ => (l, s)
               end
  end.
Lemma take_all_packs s0 l s l' : packs takes renames now known_long line split init (fun _ _ => True) s0 l s ->
  packs takes renames now known_long line split init (fun _ _ => True) s0 (fst (take_all l s l')) (snd (take_all l s l')).
Proof.
  revert l s. induction l' as [| f l' IH]; intros l s H; cbn [take_all]; [done |]. destruct (take_frag _ _ _ _ _ _ _ _ _) eqn:E; [| done].
  apply IH. by eapply packs_take.
Qed.
End take_all.

(** Fragments of four ninths of a second, three to a group. *)
Definition demo_frag (n : Z) : fragment := mkFrag [n; n + 100] (Some (n * 40000)) 40000 (n mod 3 =? 0).
Definition demo_start : packer :=
  with_fs (mkDisk {[lit "init.mp4" := [7]]} [(lit "init.mp4", [7])]) fresh_packer.
Lemma demo_begun : begun [7] demo_start.
Proof. by split. Qed.
Definition demo (n : Z) : bytes * packer :=
  take_all (fun _ _ _ => true) (fun _ => true) (fun n => Z.of_nat n) false (fun n => n) false [7] [] demo_start (map demo_frag (seqZ 0 n)).
Lemma demo_packs n : packs (fun _ _ _ => true) (fun _ => true) (fun n => Z.of_nat n) false (fun n => n) false [7] (fun _ _ => True) demo_start
  (fst (demo n)) (snd (demo n)).
Proof. apply take_all_packs, packs_here. Qed.

Lemma playlist_files_exist_witness :
  exists s, closed (pl s) <> [] /\ listed false false s /\
  forall p, p ∈ open (pl s) -> files (fs s) !! pname p = Some (pbody p).
Proof.
  exists (snd (demo 5)). split; [by vm_compute |].
  destruct (playlist_files_exist _ _ _ _ _ _ _ _ _ _ _ demo_begun ltac:(done) (demo_packs 5) ltac:(by vm_compute)) as (_ & [L | (L & _)] & _ & O).
  - by split.
  - exfalso. by vm_compute in L.
Defined.

(** The same fragments, with the states that took them *)
Fixpoint trace_all (l : list (packer * fragment)) (s : packer) (fs : list fragment) : list (packer * fragment) * packer :=
  match fs with
  | [] => (l, s)
  | f :: fs => match take_frag (fun _ _ _ => true) (fun _ => true) (fun n => Z.of_nat n) false (fun n => n) false [7] f s with
               | inl s' => trace_all (l ++ [(s, f)]) s' fs
               | inr _ => (l, s)
               end
  end.
Lemma trace_ran l s fs : ran (fun _ _ _ => true) (fun _ => true) (fun n => Z.of_nat n) false (fun n => n) false [7] demo_start l s ->
  ran (fun _ _ _ => true) (fun _ => true) (fun n => Z.of_nat n) false (fun n => n) false [7] demo_start (fst (trace_all l s fs)) (snd (trace_all l s fs)).
Proof.
  revert l s. induction fs as [| f fs IH]; intros l s H; cbn [trace_all]; [done |]. destruct (take_frag _ _ _ _ _ _ _ _ _) eqn:E; [| done].
  apply IH. by eapply ran_take.
Qed.
Definition demo_trace : list (packer * fragment) * packer := trace_all [] demo_start (map demo_frag (seqZ 0 5)).
Lemma demo_pictures : forallb (fun x => match fstart (snd x) with Some _ => true | None => false end) (fst demo_trace) = true.
Proof. vm_compute. reflexivity. Qed.
Lemma all_taken l ks : length ks = length l -> forallb (fun x : packer * fragment => match fstart (snd x) with Some _ => true | None => false end) l = true ->
  (forall i s' f, l !! i = Some (s', f) -> ks !! i = Some false -> left_out false l i s' f) -> ks = replicate (length l) true.
Proof.
  intros Hn Hp Hk. apply list_eq. intros i. destruct (ks !! i) as [k |] eqn:Ek.
  - pose proof (lookup_lt_Some _ _ _ Ek) as Hi. rewrite Hn in Hi. destruct (lookup_lt_is_Some_2 l i Hi) as [[s f] Hl]. symmetry.
    assert (k = true) as -> by (destruct k; [done |]; destruct (Hk _ _ _ Hl Ek) as [Hf _]; rewrite forallb_forall in Hp; apply list_elem_of_lookup_2, list_elem_of_In, Hp in Hl; cbn in Hl; by rewrite Hf in Hl).
    by apply lookup_replicate_2.
  - symmetry. apply lookup_ge_None. apply lookup_ge_None in Ek. rewrite length_replicate. by rewrite <- Hn.
Qed.
Lemma demo_ran : ran (fun _ _ _ => true) (fun _ => true) (fun n => Z.of_nat n) false (fun n => n) false [7] demo_start (fst demo_trace) (snd demo_trace).
Proof. apply trace_ran, ran_here. Qed.
Lemma pack_conserves_witness :
  segments_out (fs (snd demo_trace)) ++ concat (map pbody (open (pl (snd demo_trace)))) = [0; 100; 1; 101; 2; 102; 3; 103; 4; 104].
Proof.
  destruct (pack_conserves _ _ _ _ _ _ _ _ _ _ demo_begun demo_ran ltac:(by vm_compute)) as (ks & Hn & Hk & E & _).
  pose proof (all_taken (fst demo_trace) ks Hn demo_pictures Hk) as ->.
  symmetry. transitivity (media_of (fst demo_trace) (replicate (length (fst demo_trace)) true)); [by vm_compute |]. etransitivity; [exact E |]. by vm_compute.
Defined.
