(* ===== verification/LivePart.v ===== *)
(** A part read back from its segment, [PartFromSegment] of
    [server/internal/live/pack.go]: the pointer a part's file gave way to, as
    [Sscanf] of [%s %d %d %d] reads it, and the bytes it stands for. *)
From S2P Require Import Prelude GoNum GoText Timeline GoFloat Fmp4 Fmp4Edits LivePlaylist LivePack LivePackFiles.
Local Open Scope Z_scope.
Local Open Scope go_scope.

(** ** [fmt.Sscanf] *)

(** [fmt]'s own table of spaces *)
Definition space_ranges : list (Z * Z) :=
  [(0x9, 0xd); (0x20, 0x20); (0x85, 0x85); (0xa0, 0xa0); (0x1680, 0x1680); (0x2000, 0x200a); (0x2028, 0x2029);
   (0x202f, 0x202f); (0x205f, 0x205f); (0x3000, 0x3000)].
Definition isSpace (c : Z) : bool := existsb (fun r => (fst r <=? c) && (c <=? snd r))%bool space_ranges.

(** Before a verb: a newline is an error. *)
Fixpoint SkipSpace (s : list Z) : option (list Z) :=
  match s with
  | [] => Some []
  | c :: rest => if c =? 10 then None else if isSpace c then SkipSpace rest else Some s
  end.
(** A space of the format: one at least, or the end. *)
Definition match_space (s : list Z) : option (list Z) :=
  match s with
  | [] => Some []
  | c :: rest =>
      if (negb (isSpace c) || (c =? 10))%bool then None else Some (trim_left_by (fun c => isSpace c && negb (c =? 10))%bool rest)
  end.
Fixpoint span_by (P : Z -> bool) (s : list Z) : list Z * list Z :=
  match s with
  | [] => ([], [])
  | c :: rest => if P c then let ' (a, b) := span_by P rest in (c :: a, b) else ([], s)
  end.

(** [%s] *)
Definition scan_word (s : list Z) : option (list Z * list Z) :=
  match SkipSpace s with
  | None | Some [] => None
  | Some s => Some (span_by (fun c => negb (isSpace c)) s)
  end.
(** [%d] of an [int64] *)
Definition scan_int (s : list Z) : option (Z * list Z) :=
  match SkipSpace s with
  | None | Some [] => None
  | Some (c :: rest) =>
      let ' (sign, s) := if ((c =? 43) || (c =? 45))%bool then ([c], rest) else ([], c :: rest) in
      let ' (ds, rest) := span_by is_digit s in
      match ds, Atoi (sign ++ ds) with
      | [], _ | _, None => None
      | _, Some n => Some (n, rest)
      end
  end.
(** What follows the fourth is not looked at. *)
Definition scan_pointer (s : list Z) : option (list Z * Z * Z * Z) :=
  match scan_word s with
  | None => None
  | Some (seg, s) =>
      match match_space s with
      | None => None
      | Some s =>
          match scan_int s with
          | None => None
          | Some (off, s) =>
              match match_space s with
              | None => None
              | Some s =>
                  match scan_int s with
                  | None => None
                  | Some (size, s) =>
                      match match_space s with
                      | None => None
                      | Some s => match scan_int s with Some (total, _) => Some (seg, off, size, total) | None => None end
                      end
                  end
              end
          end
      end
  end.

(** ** The part *)

(** [^part\d+\.m4s$] *)
Definition partFile (name : list Z) : bool :=
  match cut_prefix name (lit "part") with
  | None => false
  | Some r =>
      let n := (length r - 4)%nat in
      (says (drop n r) ".m4s" && negb (bytes_equal (take n r) []) && forallb is_digit (take n r))%bool
  end.

(** The most [make] gives of bytes; more panics. *)
Definition max_alloc : Z := 2 ^ 48.

(** The directory's files by their base names; [name] is the path's. *)
Definition PartFromSegment (dir : gmap (list Z) bytes) (name : list Z) : res (option bytes) :=
  if negb (partFile name) then Ok None else
  match dir !! (trim_suffix name (lit ".m4s") ++ lit ".ref") with
  | None => Ok None
  | Some raw =>
      match scan_pointer raw with
      | None => Ok None
      | Some (seg, off, size, total) =>
          if (negb (bytes_equal (Base seg) seg) || (off <? 0) || (size <=? 0) || (total <? int64 (off + size)))%bool then Ok None else
          match dir !! seg with
          | None => Ok None
          | Some f =>
              if negb (zlen f =? total) then Ok None
              else if max_alloc <? size then Panic
              else Ok (if off + size <=? zlen f then Some (take (Z.to_nat size) (drop (Z.to_nat off) f)) else None)
          end
      end
  end.

(** * Proofs *)

(** ** Numbers in text *)

Definition all_digits (l : list Z) : Prop := l <> [] /\ Forall (fun c => is_digit c = true) l.

Lemma digit_of v : 0 <= v < 10 -> is_digit (48 + v) = true.
Proof. intros H. unfold is_digit. apply andb_true_iff. split; apply Z.leb_le; lia. Qed.
Lemma digits_loop_all n v acc : 0 <= v -> (0 < n)%nat -> Forall (fun c => is_digit c = true) acc -> all_digits (digits_loop n v acc).
Proof.
  revert v acc. induction n as [| n IH]; intros v acc Hv Hn Ha; [lia |]. cbn [digits_loop]. destruct (Z.ltb_spec v 10).
  - split; [done |]. constructor; [apply digit_of; lia | done].
  - pose proof (Z.mod_pos_bound v 10 ltac:(lia)). pose proof (digit_of (v mod 10) ltac:(lia)) as Hd.
    destruct n as [| n].
    + cbn [digits_loop]. split; [done |]. by constructor.
    + apply IH; [apply Z.div_pos; lia | lia | by constructor].
Qed.
Lemma GoNum_digits_all n v acc : 0 <= v -> (0 < n)%nat -> Forall (fun c => is_digit c = true) acc -> all_digits (GoNum.digits n v acc).
Proof.
  revert v acc. induction n as [| n IH]; intros v acc Hv Hn Ha; [lia |]. cbn [GoNum.digits].
  pose proof (Z.mod_pos_bound v 10 ltac:(lia)). pose proof (digit_of (v mod 10) ltac:(lia)) as Hd.
  destruct (v <? 10); [split; [done | by constructor] |]. destruct n as [| n].
  - cbn [GoNum.digits]. split; [done |]. by constructor.
  - apply IH; [apply Z.div_pos; lia | lia | by constructor].
Qed.
Lemma padded_all w v : 0 <= v -> all_digits (padded w v).
Proof.
  intros Hv. unfold padded, dec. destruct (GoNum_digits_all 20 v [] Hv ltac:(lia) (List.Forall_nil _)) as [H1 H2]. split.
  - intros E. by apply app_eq_nil in E as [_ E].
  - apply Forall_app. split; [| done]. by apply Forall_replicate.
Qed.

Lemma number_loop n v acc a : 0 <= v < 10 ^ Z.of_nat n ->
  number (digits_loop n v acc) a = number acc (a * 10 ^ zlen (digits_loop n v []) + v).
Proof.
  assert (forall n v acc, digits_loop n v acc = digits_loop n v [] ++ acc) as Happ.
  { clear. induction n as [| n IH]; intros v acc; [done |]. cbn [digits_loop]. destruct (v <? 10); [done |].
    rewrite IH, (IH _ [_]), <- app_assoc. done. }
  revert v acc a. induction n as [| n IH]; intros v acc a Hv.
  { cbn [digits_loop]. change (10 ^ Z.of_nat 0) with 1 in Hv. change (zlen []) with 0. f_equal. lia. }
  cbn [digits_loop]. destruct (Z.ltb_spec v 10).
  - cbn [number]. rewrite digit_of by lia. f_equal. change (zlen [48 + v]) with 1. lia.
  - pose proof (Z.mod_pos_bound v 10 ltac:(lia)) as Hm. pose proof (Z.div_mod v 10 ltac:(lia)) as Hd.
    rewrite IH.
    + cbn [number]. rewrite digit_of by lia. f_equal. rewrite (Happ _ _ [_]), zlen_app. change (zlen [48 + v mod 10]) with 1.
      rewrite Z.pow_add_r by (try lia; apply zlen_nonneg). lia.
    + split; [apply Z.div_pos; lia |]. apply Z.div_lt_upper_bound; [lia |]. rewrite Nat2Z.inj_succ, Z.pow_succ_r in Hv by lia. lia.
Qed.
Lemma format_int_reads v : 0 <= v < 2 ^ 63 -> all_digits (format_int v) /\ Atoi (format_int v) = Some v.
Proof.
  intros Hv. assert (format_int v = digits_loop 20 v []) as E by (unfold format_int; by destruct (Z.ltb_spec v 0); [lia |]).
  rewrite E. pose proof (digits_loop_all 20 v [] ltac:(lia) ltac:(lia) (List.Forall_nil _)) as [H1 H2]. split; [done |].
  assert (GoText.digits (digits_loop 20 v []) = Some v) as Hd.
  { unfold GoText.digits, bytes_equal. rewrite bool_decide_eq_false_2 by done.
    rewrite number_loop by (split; [lia |]; change (Z.of_nat 20) with 20; lia). done. }
  unfold Atoi. destruct (digits_loop 20 v []) as [| c l] eqn:El; [done |]. apply Forall_cons in H2 as [Hc _]. unfold is_digit in Hc.
  apply andb_true_iff in Hc as [Hc1 Hc2]. apply Z.leb_le in Hc1, Hc2.
  rewrite (proj2 (Z.eqb_neq c 45)), (proj2 (Z.eqb_neq c 43)) by lia. rewrite Hd.
  by rewrite (proj2 (andb_true_iff _ _)) by (split; [apply Z.leb_le | apply Z.ltb_lt]; lia).
Qed.

(** ** The pointer *)

Lemma not_space c : 33 <= c < 128 -> isSpace c = false /\ c <> 10.
Proof.
  intros H. split; [| lia]. unfold isSpace, space_ranges. cbn [existsb fst snd].
  repeat match goal with |- context [?a <=? ?b] => destruct (Z.leb_spec a b); try lia end.
Qed.
Definition plain (l : list Z) : Prop := Forall (fun c => 33 <= c < 128) l.
Lemma digits_plain l : Forall (fun c => is_digit c = true) l -> plain l.
Proof. intros H. eapply Forall_impl; [exact H |]. intros c Hc. apply andb_true_iff in Hc as [H1 H2]. apply Z.leb_le in H1, H2. lia. Qed.

Lemma skip_plain c l : 33 <= c < 128 -> SkipSpace (c :: l) = Some (c :: l).
Proof. intros H. destruct (not_space c H) as [H1 H2]. cbn [SkipSpace]. by rewrite (proj2 (Z.eqb_neq c 10) H2), H1. Qed.
Lemma span_all (P : Z -> bool) l r : Forall (fun c => P c = true) l -> match r with [] => True | c :: _ => P c = false end ->
  span_by P (l ++ r) = (l, r).
Proof.
  intros Hl Hr. induction Hl as [| c l Hc Hl IH]; cbn [app span_by].
  - destruct r as [| c r]; [done |]. cbn [span_by]. by rewrite Hr.
  - by rewrite Hc, IH.
Qed.

Lemma scan_word_reads w r : plain w -> w <> [] -> scan_word (w ++ 32 :: r) = Some (w, 32 :: r).
Proof.
  intros Hw Hn. destruct w as [| c w]; [done |]. apply Forall_cons in Hw as Hc. destruct Hc as [Hc _]. unfold scan_word.
  rewrite <- app_comm_cons, skip_plain by done. rewrite app_comm_cons, span_all; [done | | done].
  eapply Forall_impl; [exact Hw |]. intros x Hx. by destruct (not_space x Hx) as [-> _].
Qed.
Lemma scan_int_reads v r : 0 <= v < 2 ^ 63 -> match r with [] => True | c :: _ => is_digit c = false end ->
  scan_int (format_int v ++ r) = Some (v, r).
Proof.
  intros Hv Hr. destruct (format_int_reads v Hv) as [[Hn Hd] Ha]. pose proof (digits_plain _ Hd) as Hp. unfold scan_int.
  destruct (format_int v) as [| c l] eqn:E; [done |]. apply Forall_cons in Hp as Hc. destruct Hc as [Hc _].
  rewrite <- app_comm_cons, skip_plain by done. apply Forall_cons in Hd as Hcd. destruct Hcd as [Hcd _]. unfold is_digit in Hcd.
  apply andb_true_iff in Hcd as [Hc1 Hc2]. apply Z.leb_le in Hc1, Hc2.
  rewrite (proj2 (Z.eqb_neq c 43)), (proj2 (Z.eqb_neq c 45)) by lia. cbn [orb]. rewrite app_comm_cons, (span_all is_digit) by done.
  cbn [app]. by rewrite Ha.
Qed.
Lemma match_space_reads v r : 0 <= v < 2 ^ 63 -> match_space (32 :: format_int v ++ r) = Some (format_int v ++ r).
Proof.
  intros Hv. destruct (format_int_reads v Hv) as [[Hn Hd] _]. pose proof (digits_plain _ Hd) as Hp.
  destruct (format_int v) as [| c l]; [done |]. apply Forall_cons in Hp as [Hc _]. destruct (not_space c Hc) as [H1 _].
  unfold match_space. change (isSpace 32) with true. cbn [negb orb Z.eqb app trim_left_by]. by rewrite H1.
Qed.

Lemma scan_pointer_reads seg off size total : plain seg -> seg <> [] -> 0 <= off < 2 ^ 63 -> 0 <= size < 2 ^ 63 -> 0 <= total < 2 ^ 63 ->
  scan_pointer (ref_line seg off size total) = Some (seg, off, size, total).
Proof.
  intros Hs Hn H1 H2 H3. unfold scan_pointer, ref_line. cbn [app]. rewrite scan_word_reads by done.
  rewrite match_space_reads, scan_int_reads, match_space_reads, scan_int_reads, match_space_reads, scan_int_reads by done. done.
Qed.

(** ** Names *)

Lemma seg_plain n : 0 <= n -> plain (seg_name n) /\ Forall (fun c => c <> 47) (seg_name n).
Proof.
  intros Hn. destruct (padded_all 5 n Hn) as [_ Hd]. unfold seg_name, plain. rewrite !Forall_app. split; split; [| split | | split].
  2: by apply digits_plain.
  4: { eapply Forall_impl; [exact Hd |]. intros c Hc. apply andb_true_iff in Hc as [H1 _]. apply Z.leb_le in H1. lia. }
  all: apply (bool_decide_unpack _); vm_compute; exact I.
Qed.
Lemma split_none sep s cur : Forall (fun c => c <> sep) s -> split_on sep s cur = [cur ++ s].
Proof.
  intros H. revert cur. induction H as [| c s Hc H IH]; intros cur; cbn [split_on]; [by rewrite app_nil_r |].
  rewrite (proj2 (Z.eqb_neq c sep) Hc), IH. by rewrite <- app_assoc.
Qed.
Lemma Base_plain s : s <> [] -> Forall (fun c => c <> 47) s -> Base s = s.
Proof.
  intros Hn H. unfold Base, bytes_equal. rewrite bool_decide_eq_false_2 by done.
  assert (trim_left_by (Z.eqb 47) (reverse s) = reverse s) as ->.
  { apply (Forall_reverse (fun c => c <> 47)) in H. destruct (reverse s) as [| c l]; [done |]. apply Forall_cons in H as [Hc _].
    cbn [trim_left_by]. by rewrite (proj2 (Z.eqb_neq 47 c)). }
  rewrite reverse_involutive. unfold after_slash, Split. rewrite split_none by done. cbn [List.last app]. by rewrite bool_decide_eq_false_2.
Qed.
Lemma part_ref_name k : trim_suffix (part_name k) (lit ".m4s") ++ lit ".ref" = tag_name (TRef k).
Proof.
  unfold trim_suffix, part_name, tag_name. rewrite (app_assoc (lit "part")).
  rewrite reverse_app. assert (has_prefix (reverse (lit ".m4s")) (reverse (lit ".m4s") ++ reverse (lit "part" ++ padded 5 k)) = true) as ->
    by (apply has_prefix_spec; eauto).
  rewrite length_app. replace (_ + _ - _)%nat with (length (lit "part" ++ padded 5 k)) by lia. by rewrite take_app_length, <- app_assoc.
Qed.
Lemma part_name_is_part k : 0 <= k -> partFile (part_name k) = true.
Proof.
  intros Hk. unfold partFile, part_name, cut_prefix. assert (has_prefix (lit "part") (lit "part" ++ padded 5 k ++ lit ".m4s") = true) as ->
    by (apply has_prefix_spec; eauto).
  rewrite drop_app_length, length_app. change (length (lit ".m4s")) with 4%nat. replace (_ + 4 - 4)%nat with (length (padded 5 k)) by lia.
  rewrite drop_app_length, take_app_length. destruct (padded_all 5 k Hk) as [H1 H2]. unfold bytes_equal. rewrite bool_decide_eq_false_2 by done.
  apply andb_true_iff. split; [done |]. apply forallb_forall. intros c Hc. rewrite List.Forall_forall in H2. by apply H2.
Qed.

(** A pointer gives the bytes it stands for. *)
Lemma pointer_reads d n ps rs k b pre post : points d (seg_name n) (zlen (bodies ps)) 0 ps rs -> 0 <= n -> 0 <= k ->
  at_tag d (TSeg n) = Some (bodies ps) -> zlen (bodies ps) <= max_alloc ->
  ps = pre ++ (k, b) :: post -> tag_name (TRef k) ∈ rs -> PartFromSegment (files d) (part_name k) = Ok (Some b).
Proof.
  intros [_ Hp] Hn Hk Hs Hmax E Hr. destruct (Hp pre k b post E Hr) as [Hb Hat]. clear Hp. unfold at_tag in Hs, Hat.
  destruct (seg_plain n Hn) as [P1 P2]. assert (seg_name n <> []) as P3 by done.
  assert (bodies ps = bodies pre ++ b ++ bodies post) as Eb by (subst ps; unfold bodies; rewrite map_app, concat_app; done).
  assert (zlen (bodies ps) = zlen (bodies pre) + (zlen b + zlen (bodies post))) as El by (by rewrite Eb, !zlen_app).
  pose proof (zlen_nonneg (bodies pre)). pose proof (zlen_nonneg (bodies post)). unfold max_alloc in *.
  unfold PartFromSegment. rewrite part_name_is_part by done. cbn [negb]. rewrite part_ref_name, Hat, Z.add_0_l.
  rewrite scan_pointer_reads by (done || lia). rewrite Base_plain by done. unfold bytes_equal. rewrite bool_decide_eq_true_2 by done. cbn [negb orb].
  assert (int64 (zlen (bodies pre) + zlen b) = zlen (bodies pre) + zlen b) as -> by (unfold int64; rewrite Z.mod_small by lia; lia). rewrite (proj2 (Z.ltb_ge _ 0)), (proj2 (Z.leb_gt _ 0)), (proj2 (Z.ltb_ge (zlen (bodies ps)) _)) by lia. cbn [orb].
  rewrite seg_tag, Hs, Z.eqb_refl. cbn [negb]. rewrite (proj2 (Z.ltb_ge (2 ^ 48) _)) by lia. rewrite (proj2 (Z.leb_le _ _)) by lia. do 2 f_equal.
  rewrite !zlen_nat, Eb, drop_app_length. apply take_app_length.
Qed.

(** C21. A part whose file gave way to a pointer is still read whole. After any run of
    the packager, each pointer a closed segment keeps stands for a part that was
    written once, and [PartFromSegment] on that part's name gives the bytes that
    were written, without a panic: the pointer's offsets, the segment's name and
    its size all check. *)
Theorem part_from_segment takes renames now known_long line split init ok s0 l s :
  begun init s0 -> packs takes renames now known_long line split init ok s0 l s -> partN (pl s) <= 10 ^ 20 ->
  (forall g f, g ∈ closed (pl s) -> files (fs s) !! sname g = Some f -> zlen f <= max_alloc) ->
  forall g r, g ∈ closed (pl s) -> r ∈ refs g ->
  exists k b, r = ref_name (part_name k) /\ (part_name k, b) ∈ wrote (fs s) /\
    (forall b', (part_name k, b') ∈ wrote (fs s) -> b' = b) /\
    PartFromSegment (files (fs s)) (part_name k) = Ok (Some b).
Proof.
  intros Hs0 Hrun Hb Hmax g r Hg Hr. destruct (run_sound _ _ _ _ _ _ _ _ _ Hs0 l s Hrun Hb) as (_ & (G & O & Hd) & _ & _).
  destruct (dir_made s G O Hd Hb) as [Hm _]. destruct Hd as [H1 _ _ _ _ _ _ Hw Ho].
  apply list_elem_of_lookup in Hg as (i & Hi). destruct (Forall2_lookup_l _ _ _ _ _ H1 Hi) as (x & Hx & Hs & Hat & H).
  assert (g ∈ closed (pl s)) as Hg by (by apply list_elem_of_lookup_2 in Hi).
  apply list_elem_of_lookup_2 in Hx. rewrite Forall_forall in Hm. destruct (Hm x Hx) as (Hn & Hps & _).
  destruct H as [(_ & E & _) | (_ & Hp)]; [rewrite E in Hr; by apply not_elem_of_nil in Hr |].
  destruct Hp as [Hp1 Hp2]. destruct (Hp1 r Hr) as ([k b] & Hin & ->). cbn [fst] in *. exists k, b.
  assert (0 <= k < 10 ^ 20) as Hk by (rewrite Forall_forall in Hps; exact (Hps _ Hin)).
  assert ((part_name k, b) ∈ wrote (fs s)) as Hwr.
  { apply (Hw (k, b)), elem_of_app. left. apply list_elem_of_In, in_concat. exists (snd x). rewrite <- !list_elem_of_In. split; [| done].
    by apply list_elem_of_fmap_2. }
  split; [by rewrite ref_of_part |]. split; [done |]. split; [exact (proj2 (Ho k b Hk Hwr)) |].
  apply list_elem_of_split in Hin as (pre & post & E).
  eapply (pointer_reads (fs s) (fst x) (snd x) (refs g)); [split; [exact Hp1 | exact Hp2] | lia | lia | exact Hat | | exact E | exact Hr].
  apply (Hmax g); [done |]. rewrite Hs. exact Hat.
Qed.

(** Twelve groups: the first one's parts have given way. *)
Lemma part_from_segment_witness : exists k b,
  ref_name (part_name 1) = ref_name (part_name k) /\ (part_name k, b) ∈ wrote (fs (snd (demo 36))) /\
  PartFromSegment (files (fs (snd (demo 36)))) (part_name k) = Ok (Some b).
Proof.
  assert (forallb (fun g => match files (fs (snd (demo 36))) !! sname g with Some f => zlen f <=? max_alloc | None => true end)
    (closed (pl (snd (demo 36)))) = true) as Hmax by (by vm_compute).
  assert (exists g, g ∈ closed (pl (snd (demo 36))) /\ refs g = map (fun k => ref_name (part_name k)) [0; 1; 2]) as (g & Hg & Hr).
  { destruct (closed (pl (snd (demo 36)))) as [| g l] eqn:E; [by vm_compute in E |]. exists g. split; [apply list_elem_of_here |].
    apply (f_equal (fun l => match l with g :: _ => refs g | [] => [] end)) in E. rewrite <- E. by vm_compute. }
  destruct (part_from_segment _ _ _ _ _ _ _ _ _ _ _ demo_begun (demo_packs 36) ltac:(by vm_compute)) with (g := g) (r := ref_name (part_name 1))
    as (k & b & E & Hw & _ & H).
  - intros g' f Hg' Hf. rewrite forallb_forall in Hmax. apply list_elem_of_In in Hg'. specialize (Hmax g' Hg'). rewrite Hf in Hmax. by apply Z.leb_le.
  - exact Hg.
  - rewrite Hr. apply list_elem_of_further, list_elem_of_here.
  - exists k, b. split; [exact E | split; [exact Hw | exact H]].
Defined.
