(* ===== verification/LivePackParts.v ===== *)
(** What the packager's segments are made of: a segment starts with a keyframe as
    long as the playlist says so, and the parts of an encode that cuts inside a
    group are of the lengths a player is promised. *)
From S2P Require Import Prelude GoNum GoText GoFloat Fmp4 Fmp4Edits LivePlaylist LivePack LivePackFiles.
Local Open Scope Z_scope.
Local Open Scope go_scope.

(** ** The parts of a segment *)

(** A part by its length and its keyframe. *)
Definition open_parts (o : list packedPart) : list (Z * bool) := map (fun p => (pdur p, psync p)) o.
Definition seg_parts (g : packedSeg) : list (Z * bool) := map (fun r => (rdur r, rsync r)) (parts g).

(** [Q] of the open segment's parts, and of each closed one's that are still named. *)
Definition shaped (Q : list (Z * bool) -> Prop) (l : listing) : Prop :=
  Q (open_parts (open l)) /\ Forall (fun g => parts g = [] \/ Q (seg_parts g)) (closed l).

Section shapes.
Context (takes : gmap (list Z) bytes -> list Z -> bytes -> bool) (renames : gmap (list Z) bytes -> bool).
Context (now : nat -> Z) (known_long : bool) (line : Z -> Z) (split : bool) (init : bytes).

Notation flush := (flush takes renames now known_long split init).
Notation place := (place takes renames now known_long line split init).

Lemma trim_window_suffix d kept l : exists n, snd (trim_window d kept l) = drop n l.
Proof.
  revert d kept. induction l as [| g l IH]; intros d kept; cbn [trim_window]; [by exists 0%nat |].
  destruct (_ && _)%bool; [| by exists 0%nat]. destruct (IH (remove_all d (sname g :: map rname (parts g) ++ refs g)) (kept - sdur g)) as (n & E).
  by exists (S n).
Qed.
Definition same_or_gone (g g' : packedSeg) : Prop := g' = g \/ parts g' = [] /\ sdur g' = sdur g.
Lemma refer_old_same target l : forall d fe, Forall2 same_or_gone l (snd (refer_old takes target d fe l)).
Proof.
  induction l as [| g l IH]; intros d fe; cbn [refer_old]; [constructor |].
  assert (forall d1 g1 e, same_or_gone g g1 -> Forall2 same_or_gone (g :: l) (snd (let ' (d, l) := refer_old takes target d1 e l in (d, g1 :: l)))) as Hrec.
  { intros d1 g1 e H1. specialize (IH d1 e). destruct (refer_old takes target d1 e l). by constructor. }
  assert (Forall2 same_or_gone l l) as Hl by (clear; induction l; constructor; [by left | done]).
  destruct (snd (partsKept fe target)); [by apply Hrec; left |].
  assert (exists d1 g1, (if no_parts g then (d, g) else let ' (d, r) := referParts takes d g in (d, with_refs g r)) = (d1, g1) /\
    same_or_gone g g1) as (d1 & g1 & -> & H1).
  { destruct (no_parts g); [exists d, g; split; [done | by left] |]. destruct (referParts takes d g) as [d1 r]. exists d1, (with_refs g r).
    split; [done | by right]. }
  destruct l as [| o older]; [by constructor |]. destruct (no_parts o); [by constructor | by apply Hrec].
Qed.

(** A closed segment is the open one's parts; the others stay, or lose their parts. *)
Lemma closeSeg_closed end_ s : ends (closeSeg takes end_ s) (fun s' =>
  s' = s /\ open (pl s) = [] \/
  exists g kept n, kept = drop n (closed (pl s) ++ [g]) /\ seg_parts g = open_parts (open (pl s)) /\
    Forall2 same_or_gone kept (closed (pl s')) /\
    open (pl s') = [] /\ allSync (pl s') = allSync (pl s) /\ hold (pl s') = hold (pl s) /\ ck s' = ck s /\ gt s' = gt s /\
    handover s' = handover s /\ fresh s' = fresh s).
Proof.
  unfold closeSeg. destruct (open (pl s)) as [| p0 o] eqn:E; [by left |]. rewrite <- E. apply ends_go_last. intros d. cbv zeta.
  set (g := mkSeg _ _ _ _ _ _ _ _ _). pose proof (trim_window_suffix d (durations (closed (pl s) ++ [g])) (closed (pl s) ++ [g])) as (n & Hn).
  destruct (trim_window _ _ _) as [d2 kept]. cbn [snd] in Hn. cbn zeta.
  set (t := Z.max _ _). pose proof (refer_old_same t (reverse kept) d2 0) as Hr. destruct (refer_old takes t d2 0 (reverse kept)) as [d3 newest].
  right. exists g, kept, n. split; [done |]. split; [unfold seg_parts, open_parts; cbn [parts g]; rewrite map_map; done |].
  split; [| done]. cbn [snd] in Hr. apply Forall2_reverse in Hr. by rewrite reverse_involutive in Hr.
Qed.

Lemma closeSeg_shaped Q end_ s : Q [] -> shaped Q (pl s) -> ends (closeSeg takes end_ s) (fun s' =>
  shaped Q (pl s') /\ open (pl s') = [] /\ allSync (pl s') = allSync (pl s) /\ hold (pl s') = hold (pl s) /\ ck s' = ck s /\ gt s' = gt s).
Proof.
  intros Q0 [H1 H2]. eapply ends_mono; [apply closeSeg_closed |]. intros s' [[-> E] | (g & kept & n & -> & Eg & Hf & Eo & Ea & Eh & Ec & Et & _)].
  { by split_and!. }
  split; [| done]. split; [by rewrite Eo |].
  assert (Forall (fun g => parts g = [] \/ Q (seg_parts g)) (drop n (closed (pl s) ++ [g]))) as Hk.
  { apply Forall_drop, Forall_app. split; [done |]. constructor; [| done]. right. by rewrite Eg. }
  apply Forall_forall. intros g' Hg'. apply list_elem_of_lookup in Hg' as (i & Hi). destruct (Forall2_lookup_r _ _ _ _ _ Hf Hi) as (g0 & H0 & [-> | [E _]]); [| by left].
  rewrite Forall_forall in Hk. apply Hk. by apply list_elem_of_lookup_2 in H0.
Qed.

Lemma flush_pl s : ends (flush s) (fun s' => exists h, pl s' = with_hold h (pl s) /\ ck s' = ck s /\ gt s' = gt s).
Proof.
  unfold flush. apply ends_if; intros _; [exists (hold (pl s)); split; [by destruct (pl s) | done] |].
  destruct (if longEvidence <=? _ then _ else _). destruct (aim _ _ _ _ _) as [a h]. apply ends_go_last. intros d.
  apply ends_if; intros _; [done |]. destruct (publish _ _ _ _ _ _ _). by exists h.
Qed.

(** A list's shape, unless it is one that starts without a keyframe. *)
Definition fits (strict : bool) (Q : list (Z * bool) -> Prop) (l : listing) : Prop := strict = true \/ allSync l = true -> shaped Q l.

Lemma closeSeg_fits strict Q end_ s : Q [] -> fits strict Q (pl s) -> ends (closeSeg takes end_ s) (fun s' =>
  fits strict Q (pl s') /\ open (pl s') = []).
Proof.
  intros Q0 H. pose proof (closeSeg_closed end_ s) as Hc. pose proof (fun Hs => closeSeg_shaped Q end_ s Q0 Hs) as Hq.
  destruct (closeSeg takes end_ s) as [s' |]; [| done]. cbn [ends] in *.
  destruct Hc as [[-> E] | (g & kept & n & _ & _ & _ & Eo & Ea & _)]; [done |]. split; [| done].
  intros Hs. rewrite Ea in Hs. by destruct (Hq (H Hs)) as (? & _).
Qed.

Lemma last_open o : o <> [] -> exists l, o = l ++ [last_part o].
Proof. intros H. unfold last_part. exists (removelast o). by apply app_removelast_last. Qed.
Lemma open_parts_last o : o <> [] -> exists l, open_parts o = l ++ [(pdur (last_part o), psync (last_part o))].
Proof. intros H. destruct (last_open o H) as (l & E). exists (open_parts l). rewrite E at 1. unfold open_parts. by rewrite map_app. Qed.
Lemma set_last_parts o d l x : open_parts o = l ++ [x] -> open_parts (set_last_dur o d) = l ++ [(d, snd x)].
Proof.
  intros E. unfold set_last_dur. destruct (reverse o) as [| p ps] eqn:Er.
  { apply (f_equal reverse) in Er. rewrite reverse_involutive in Er. subst. by destruct l. }
  apply (f_equal reverse) in Er. rewrite reverse_involutive, reverse_cons in Er. subst o. unfold open_parts in *. rewrite map_app in *. cbn [map] in *.
  apply app_inj_tail in E as [-> <-]. done.
Qed.

(** Before the part is added: the open segment is empty, or it is the one there was,
    its last part given a length if it had none; with a keyframe after a short
    part it is not. *)
Definition ready_for (sync : bool) (o o' : list packedPart) : Prop :=
  o' = [] \/ exists l x0 x, open_parts o = l ++ [x0] /\ open_parts o' = l ++ [x] /\ snd x = snd x0 /\ (fst x0 = 0 \/ x = x0) /\
    (sync && split && (fst x <? splitMinTicks))%bool = false.

Lemma close_group_ready strict Q pts sync s : Q [] -> (forall l b d, Q (l ++ [(0, b)]) -> Q (l ++ [(d, b)])) -> fits strict Q (pl s) ->
  ends (close_group takes split pts sync s) (fun s' => fits strict Q (pl s') /\ ready_for sync (open (pl s)) (open (pl s'))).
Proof.
  intros Q0 Qd H. unfold close_group. destruct (Z.eqb_spec (zlen (open (pl s))) 0) as [E | E].
  { split; [done |]. left. by apply zlen_0_nil. }
  assert (open (pl s) <> []) as Hn by (intros E'; by rewrite E' in E). cbv zeta.
  destruct (open_parts_last _ Hn) as (l & El). set (o := if pdur (last_part (open (pl s))) =? 0 then _ else _).
  assert (exists x, open_parts o = l ++ [x] /\ snd x = psync (last_part (open (pl s))) /\
    (pdur (last_part (open (pl s))) = 0 \/ x = (pdur (last_part (open (pl s))), psync (last_part (open (pl s)))))) as (x & Ex & Esx & Hx).
  { subst o. destruct (Z.eqb_spec (pdur (last_part (open (pl s)))) 0) as [Ez |]; [| by eauto].
    destruct (0 <? _); [| by eauto]. eexists. split; [by apply set_last_parts |]. by auto. }
  set (s1 := with_pl (with_open o (pl s)) s).
  assert (fits strict Q (pl s1)) as H1.
  { intros Hs. destruct (H Hs) as [Ho Hc]. split; [| exact Hc]. cbn [open s1 pl with_pl with_open]. rewrite Ex. rewrite El in Ho.
    destruct Hx as [Hx | ->]; [| done]. rewrite Hx in Ho. destruct x as [d b]. cbn [snd] in Esx. subst b. by eapply Qd. }
  assert (o <> []) as Hno by (intros E'; rewrite E' in Ex; by destruct l).
  destruct (open_parts_last o Hno) as (l' & El'). assert (fst x = pdur (last_part o)) as Efx.
  { rewrite Ex in El'. by apply app_inj_tail in El' as [_ ->]. }
  apply ends_if; intros Hc.
  - eapply ends_mono; [by apply closeSeg_fits |]. intros s' [? E']. split; [done | by left].
  - cbn [ends]. split; [done |]. right. exists l, (pdur (last_part (open (pl s))), psync (last_part (open (pl s)))), x. split_and!; [done | exact Ex | done | done |].
    rewrite Efx. cbn [pl with_pl with_open open s1] in Hc. destruct sync; [| done]. destruct split; [| done]. cbn [andb] in Hc |- *.
    by apply orb_false_iff in Hc as [? _].
Qed.
Lemma close_full_ready strict Q frag sync o s : Q [] -> fits strict Q (pl s) -> ready_for sync o (open (pl s)) ->
  ends (close_full takes frag s) (fun s' => fits strict Q (pl s') /\ ready_for sync o (open (pl s'))).
Proof.
  intros Q0 H Hr. unfold close_full. apply ends_if; intros _; [| done]. eapply ends_mono; [by apply closeSeg_fits |].
  intros s' [? E]. split; [done | by left].
Qed.
Lemma break_fits strict Q pts s : Q [] -> fits strict Q (pl s) -> ends (break_line takes pts s) (fun s' => fits strict Q (pl s') /\ open (pl s') = []).
Proof.
  intros Q0 H. unfold break_line. apply ends_go. eapply ends_mono; [by apply closeSeg_fits |]. intros s' [H' E].
  by destruct (continuation _ _ _ _ _).
Qed.

Lemma place_fits strict Q frag pts dur sync s :
  Q [] -> (forall l b d, Q (l ++ [(0, b)]) -> Q (l ++ [(d, b)])) -> (strict = true \/ sync = true -> Q [(dur, sync)]) ->
  (forall o', Q (open_parts o') -> o' <> [] -> ready_for sync (open (pl s)) o' -> Q (open_parts o' ++ [(dur, sync)])) ->
  fits strict Q (pl s) ->
  ends (place frag pts dur sync s) (fun s' => fits strict Q (pl s') /\
    (split = true -> exists l, open_parts (open (pl s')) = l ++ [(dur, sync)])).
Proof.
  intros Q0 Qd Q1 Qa H. unfold place. apply ends_go.
  assert (ends (if jump_at s pts then break_line takes pts s else inl s) (fun s1 => fits strict Q (pl s1) /\
    (if jump_at s pts then open (pl s1) = [] else open (pl s1) = open (pl s)))) as H1.
  { destruct (jump_at s pts); [by apply break_fits | done]. }
  eapply ends_mono; [exact H1 |]. clear H1. intros s1 [H1 O1]. cbv beta zeta.
  assert (pl (note_first line s1) = pl s1) as E1 by (unfold note_first; by destruct (_ && _)%bool).
  set (s2 := note_first line s1) in *. rewrite <- E1 in H1, O1. clearbody s2. clear E1 s1 H. apply ends_go.
  assert (ends (if jump_at s pts then inl s2 else close_group takes split pts sync s2) (fun s3 => fits strict Q (pl s3) /\
    ready_for sync (open (pl s)) (open (pl s3)))) as H3.
  { destruct (jump_at s pts); [split; [done | by left] |]. rewrite <- O1. by apply close_group_ready. }
  eapply ends_mono; [exact H3 |]. clear H3 H1 O1. intros s3 [H3 R3]. apply ends_go.
  eapply ends_mono; [by apply close_full_ready |]. clear s2 s3 H3 R3. intros s4 [H4 R4]. cbv beta. apply ends_go.
  assert (ends (add_part takes frag pts dur sync s4) (fun s5 => fits strict Q (pl s5) /\ exists l, open_parts (open (pl s5)) = l ++ [(dur, sync)])) as H5.
  { unfold add_part. apply ends_go_last. intros d. cbn [ends pl with_fs with_ck with_pl open]. destruct (zlen (open (pl s4)) =? 0) eqn:Ez; cbn [andb].
    - apply Z.eqb_eq, zlen_0_nil in Ez. split.
      + intros Hs. destruct sync; cbn [negb] in *.
        * rewrite Ez. destruct (H4 Hs) as [_ Hc]. split; [| exact Hc]. cbn. apply Q1. by right.
        * cbn in Hs. destruct Hs as [Hs |]; [| done]. cbn [open closed with_sync]. rewrite Ez. destruct (H4 (or_introl Hs)) as [_ Hc].
          split; [| exact Hc]. apply Q1. by left.
      + exists (open_parts (open (pl s4))). destruct sync; unfold open_parts; cbn; by rewrite map_app.
    - split; [| exists (open_parts (open (pl s4))); unfold open_parts; cbn; by rewrite map_app]. intros Hs. destruct (H4 Hs) as [Ho Hc].
      split; [| exact Hc]. cbn [open]. unfold open_parts. rewrite map_app. apply Qa; [done | | done]. intros E. by rewrite E in Ez. }
  eapply ends_mono; [exact H5 |]. clear H5 H4 R4. intros s5 [H5 L5]. apply ends_go.
  assert (ends (close_whole takes split pts dur sync s5) (fun s6 => fits strict Q (pl s6) /\ (split = true -> open (pl s6) = open (pl s5)))) as H6.
  { unfold close_whole. apply ends_if; intros Hc; [| done]. eapply ends_mono; [by apply closeSeg_fits |]. intros s' [? _]. split; [done |].
    intros Es. exfalso. destruct split; [| done]. discriminate. }
  eapply ends_mono; [exact H6 |]. clear H6 H5. intros s6 [H6 O6]. eapply ends_mono; [apply flush_pl |]. intros s7 (h & E & _). rewrite E. split; [exact H6 |].
  intros Es. cbn [open with_hold]. by rewrite O6.
Qed.
End shapes.

(** ** Steps of the packager *)

Section taken.
Context (takes : gmap (list Z) bytes -> list Z -> bytes -> bool) (renames : gmap (list Z) bytes -> bool).
Context (now : nat -> Z) (known_long : bool) (line : Z -> Z) (split : bool) (init : bytes).

Notation place := (place takes renames now known_long line split init).
Notation place_held := (place_held takes renames now known_long line split init).
Notation take_frag := (take_frag takes renames now known_long line split init).
Notation packs := (packs takes renames now known_long line split init).

(** What every part's way out keeps of the list, a fragment keeps, and a run does. *)
Section lists.
Context (I : listing -> Prop) (keeps_I : forall frag pts dur sync s, I (pl s) -> ends (place frag pts dur sync s) (fun s' => I (pl s'))).

Lemma place_held_list h s : I (pl s) -> ends (place_held h s) (fun s' => I (pl s')).
Proof.
  intros H. unfold place_held. apply ends_go. eapply ends_mono; [by apply keeps_I |]. by intros s' H'.
Qed.
Lemma hold_or_place_list body pts dur sync s : I (pl s) ->
  ends (hold_or_place takes renames now known_long line split init body pts dur sync s) (fun s' => I (pl s')).
Proof. intros H. unfold hold_or_place. apply ends_if; intros _; [done | by apply keeps_I]. Qed.
Lemma take_frag_list f s : I (pl s) -> ends (take_frag f s) (fun s' => I (pl s')).
Proof.
  intros H. unfold take_frag. apply ends_if; intros _.
  - unfold gather. destruct (fstart f) as [pts |], (acc (gt s)) as [a |] eqn:Ea; try done.
    + apply ends_if; intros _; [done |]. unfold placeAcc. rewrite Ea. apply ends_go. eapply ends_mono; [by apply place_held_list |].
      intros s1 H1. unfold begin_part. by destruct (fsync f).
    + apply ends_if; intros _; done.
  - destruct (fstart f) as [pts |]; [| done]. destruct (short (gt s)) as [h |] eqn:Eh; [| by apply hold_or_place_list].
    apply ends_if; intros _.
    + unfold placeShort. rewrite Eh. apply ends_go. eapply ends_mono; [by apply place_held_list |]. intros s1 H1. by apply hold_or_place_list.
    + destruct (if 0 <? fdur f then _ else _) as [p d]. by apply hold_or_place_list.
Qed.
Lemma packs_list ok s0 l s : packs ok s0 l s -> I (pl s0) -> I (pl s).
Proof.
  intros H H0. induction H as [| l s f s' H IH _ Ht | l s s' H IH Hs]; [done | | by rewrite (same_pl _ _ Hs)].
  exact (ends_eq _ _ _ (take_frag_list f s IH) Ht).
Qed.
End lists.

(** *** Keyframes *)

Definition starts_keyed (l : list (Z * bool)) : Prop := match l with x :: _ => snd x = true | [] => True end.

Lemma place_keyed frag pts dur sync s : fits false starts_keyed (pl s) -> ends (place frag pts dur sync s) (fun s' => fits false starts_keyed (pl s')).
Proof.
  intros H. eapply ends_mono; [apply (place_fits takes renames now known_long line split init false starts_keyed); try done |].
  - intros [| x l] b d; cbn; done.
  - by intros [? | ->].
  - intros o' Ho Hn _. destruct (open_parts o') eqn:E; [| done]. unfold open_parts in E. by apply map_eq_nil in E.
  - by intros s' [? _].
Qed.

(** *** The lengths of parts *)

(** Every part is at most as long as promised, and all but the last are at least
    85% of that. *)
Definition even_parts (l : list (Z * bool)) : Prop :=
  Forall (fun x => 0 < fst x <= splitPartTicks) l /\ Forall (fun x => splitMinTicks <= fst x) (removelast l).

Lemma even_snoc l x y : Forall (fun x => 0 < fst x <= splitPartTicks) (l ++ [x]) -> Forall (fun x => splitMinTicks <= fst x) l ->
  splitMinTicks <= fst x -> 0 < fst y <= splitPartTicks -> even_parts ((l ++ [x]) ++ [y]).
Proof.
  intros H1 H2 Hx Hy. split; [apply Forall_app; split; [done | by constructor] |]. rewrite removelast_last.
  apply Forall_app. split; [done | by constructor].
Qed.

(** The fragments of one encode, one after the other, none so long that a part with it
    would be. *)
Definition continues (s : packer) (f : fragment) : Prop :=
  forall pts, fstart f = Some pts ->
    0 < fdur f <= splitPartTicks - splitMinTicks /\
    forall a, acc (gt s) = Some a ->
      fresh s = false /\ handover s = false /\ - partTicks <= ptsDiff pts (hpts a + hdur a) <= jumpTicks /\
      zlen (hbody a) + zlen (fbody f) <= maxOpenBytes.

Definition last_short (o : list packedPart) : Prop := o <> [] /\ pdur (last_part o) < splitMinTicks.
Record even_state (s : packer) : Prop := {
  even_list : shaped even_parts (pl s);
  even_acc : match acc (gt s) with
             | None => open (pl s) = []
             | Some a => 0 < hdur a <= splitPartTicks /\ (last_short (open (pl s)) -> hsync a = true)
             end;
}.

Lemma place_even frag pts dur sync s : split = true -> shaped even_parts (pl s) -> 0 < dur <= splitPartTicks ->
  (last_short (open (pl s)) -> sync = true) ->
  ends (place frag pts dur sync s) (fun s' => shaped even_parts (pl s') /\ pdur (last_part (open (pl s'))) = dur).
Proof.
  intros Es H Hd Hl. eapply ends_mono; [apply (place_fits takes renames now known_long line split init true even_parts) |].
  - by split; constructor.
  - intros l b d [Hf _]. apply Forall_app in Hf as [_ Hf]. apply Forall_cons in Hf as [Hf _]. cbn in Hf. lia.
  - intros _. split; [by constructor | constructor].
  - intros o' [Hf Hm] Hn [-> | (l & x0 & x & E0 & E & _ & Hx & Hc)]; [done |]. destruct H as [[Hf0 _] _].
    assert (x = x0) as ->.
    { destruct Hx as [Hx | ->]; [| done]. rewrite E0 in Hf0. apply Forall_app in Hf0 as [_ Hf0]. apply Forall_cons in Hf0 as [Hf0 _]. lia. }
    rewrite E in *. rewrite removelast_last in Hm. apply even_snoc; try done. destruct (Z.le_gt_cases splitMinTicks (fst x0)); [done |].
    assert (last_short (open (pl s))) as Hs.
    { assert (open (pl s) <> []) as Ho by (intros Eo; rewrite Eo in E0; by destruct l). split; [done |].
      destruct (open_parts_last _ Ho) as (l' & El). rewrite E0 in El. apply app_inj_tail in El as [_ ->]. done. }
    rewrite (Hl Hs), Es in Hc. cbn [andb] in Hc. apply Z.ltb_ge in Hc. lia.
  - by intros _.
  - intros s' [Hs' Ho]. split; [apply Hs'; by left |]. destruct (Ho Es) as (l & El).
    assert (open (pl s') <> []) as Hn by (intros E; rewrite E in El; by destruct l).
    destruct (open_parts_last _ Hn) as (l' & El'). rewrite El in El'. apply app_inj_tail in El' as [_ E]. by injection E.
Qed.

Lemma place_held_even h s : split = true -> shaped even_parts (pl s) -> 0 < hdur h <= splitPartTicks ->
  (last_short (open (pl s)) -> hsync h = true) ->
  ends (place_held h s) (fun s' => shaped even_parts (pl s') /\ pdur (last_part (open (pl s'))) = hdur h).
Proof. intros Es H Hd Hl. unfold place_held. apply ends_go. eapply ends_mono; [by apply place_even |]. by intros s' H'. Qed.

(** Whether a fragment of the same encode joins the part. *)
Lemma merges_spec s a frag pts dur sync : fresh s = false -> handover s = false -> - partTicks <= ptsDiff pts (hpts a + hdur a) <= jumpTicks ->
  zlen (hbody a) + zlen frag <= maxOpenBytes -> dur <= splitPartTicks - splitMinTicks ->
  if merges s a frag pts dur sync then hdur a + dur <= splitPartTicks else hdur a < splitMinTicks -> sync = true.
Proof.
  intros F1 F2 [F3 F4] F5 Hd. unfold merges. rewrite F1, F2, (proj2 (Z.ltb_ge _ _) F3), (proj2 (Z.ltb_ge _ _) F4), (proj2 (Z.ltb_ge _ _) F5). cbn [orb].
  destruct (sync && (hdur a <? splitMinTicks) && _)%bool eqn:E1.
  { rewrite !andb_true_iff in E1. destruct E1 as ((_ & E1) & _). apply Z.ltb_lt in E1. lia. }
  destruct sync; [done |]. clear E1.
  destruct ((splitMinTicks <=? hdur a) && _)%bool eqn:E2; [apply andb_true_iff in E2 as [E2 _]; apply Z.leb_le in E2; lia |].
  destruct (Z.ltb_spec splitPartTicks (hdur a + dur)); [lia | done].
Qed.

Lemma begin_even f pts s : shaped even_parts (pl s) -> 0 < fdur f <= splitPartTicks -> (last_short (open (pl s)) -> fsync f = true) ->
  even_state (begin_part (fbody f) pts (fdur f) (fsync f) s).
Proof. intros H Hd Hl. unfold begin_part. destruct (fsync f) eqn:E; (split; [done |]; cbn; split; [done | intros Hs; auto]). Qed.

Lemma take_even f s : split = true -> even_state s -> continues s f -> ends (take_frag f s) even_state.
Proof.
  intros Es [H Ha] Hc. unfold take_frag. rewrite Es at 1. unfold gather. destruct (fstart f) as [pts |] eqn:Ef.
  - destruct (Hc pts Ef) as [Hd Hca]. clear Hc. assert (0 < fdur f <= splitPartTicks) as Hdf by (change splitMinTicks with 29835 in *; lia).
    destruct (acc (gt s)) as [a |] eqn:Ea.
    + destruct (Hca a eq_refl) as (F1 & F2 & F3 & F4). destruct Ha as [Hda Hla].
      pose proof (merges_spec s a (fbody f) pts (fdur f) (fsync f) F1 F2 F3 F4 (proj2 Hd)) as Hm.
      destruct (merges s a (fbody f) pts (fdur f) (fsync f)).
      * cbn [ends]. split; [done |]. cbn. split; [lia | done].
      * unfold placeAcc. rewrite Ea. apply ends_go. eapply ends_mono; [by apply place_held_even |]. intros s1 [H1 E1]. cbn [ends].
        apply begin_even; [done | done |]. intros [_ Hs]. apply Hm. lia.
    + cbn [ends]. apply begin_even; [done | done |]. intros [Hn _]. by rewrite Ha in Hn.
  - destruct (acc (gt s)) as [a |] eqn:Ea; [| cbn [ends]; split; [done | by rewrite Ea]]. apply ends_if; intros _; [| cbn [ends]; split; [done | by rewrite Ea]].
    cbn [ends]. split; [done | exact Ha].
Qed.
End taken.

(** ** The targets *)

Lemma max_of_le l m : m <= max_of l m /\ Forall (fun x => x <= max_of l m) l.
Proof.
  unfold max_of. revert m. induction l as [| x l IH]; intros m; cbn [fold_left]; [split; [lia | constructor] |].
  destruct (IH (Z.max m x)) as [H1 H2]. split; [lia |]. constructor; [lia | done].
Qed.

Definition nothing (l : listing) : Prop := closed l = [] /\ open l = [].
(** A ceiling's part target is within its target, in whole seconds (two at least). *)
Definition bounded (h : playlistCeiling) : Prop := part h <= 90000 * Z.max ((target h + 89999) / 90000) 2.

Lemma aim_spec split known h cl op a h' : aim split known h cl op = (a, h') ->
  target h <= target h' /\ part h <= part h' /\ partTarget a = part h' /\
  (~ (cl = [] /\ op = []) -> targetSec a = Z.max ((target h' + 89999) / 90000) 1) /\
  Forall (fun g => sdur g <= 90000 * targetSec a) cl /\ Forall (fun p => pdur p <= 90000 * targetSec a) op /\
  (split = false -> Forall (fun p => pdur p <= partTarget a) op) /\
  (split = true -> partTarget a = Z.max splitPartTicks (part h)) /\
  0 < partTarget a /\ 2 <= targetSec a /\ (bounded h -> bounded h').
Proof.
  unfold aim. set (l := longest cl op). set (some := 0 <? zlen cl + zlen op). set (t0 := if (_ && _)%bool then _ else _).
  set (t := Z.max t0 (target h)). set (sec := Z.max ((t + 89999) / 90000) 1). intros E. injection E as <- <-. cbn [target part partTarget targetSec].
  assert (l <= t) as Hl by (unfold t, t0; destruct (_ && _)%bool; lia).
  assert (t <= 90000 * sec) as Ht.
  { unfold sec. pose proof (Z.div_mod (t + 89999) 90000 ltac:(lia)). pose proof (Z.mod_pos_bound (t + 89999) 90000 ltac:(lia)). lia. }
  assert (Forall (fun g => sdur g <= l) cl /\ Forall (fun p => pdur p <= l) op) as [Hc Ho].
  { unfold l, longest. destruct (max_of_le (map sdur cl) partTicks) as [_ H1]. destruct (max_of_le (map pdur op) (max_of (map sdur cl) partTicks)) as [H2 H3].
    rewrite Forall_map in H1, H3. split; (eapply Forall_impl; [eassumption |]); intros ? Hx; cbn in *; lia. }
  split_and!; try lia.
  - destruct some; [unfold t |]; lia.
  - intros Hn. unfold sec. destruct some eqn:Es; [done |]. exfalso. apply Hn. unfold some in Es. apply Z.ltb_ge in Es.
    pose proof (zlen_nonneg cl). pose proof (zlen_nonneg op). split; apply zlen_0_nil; lia.
  - eapply Forall_impl; [exact Hc |]. cbn. lia.
  - eapply Forall_impl; [exact Ho |]. cbn. lia.
  - intros ->. destruct (max_of_le (map pdur op) partTicks) as [_ H1]. rewrite Forall_map in H1. apply Forall_forall. intros p Hp.
    rewrite Forall_forall in H1, Ho. specialize (H1 p Hp). specialize (Ho p Hp). cbn in *. lia.
  - intros ->. done.
  - assert (180000 <= t) by (unfold t, t0; destruct (_ && _)%bool; lia). change splitPartTicks with 35100. destruct split; lia.
  - assert (180000 <= t) by (unfold t, t0; destruct (_ && _)%bool; lia). assert (2 <= (t + 89999) / 90000) by (apply Z.div_le_lower_bound; lia). unfold sec. lia.
  - assert (180000 <= t /\ target h <= t) as [H2 H3] by (unfold t, t0; destruct (_ && _)%bool; lia). intros Hh.
    assert (2 <= (t + 89999) / 90000) by (apply Z.div_le_lower_bound; lia).
    pose proof (Z.div_le_mono (target h + 89999) (t + 89999) 90000 ltac:(lia) ltac:(lia)).
    assert ((if some then t else target h) = t \/ t <= Z.max (target h) 180000) as Hs.
    { destruct some eqn:Es; [by left | right]. unfold some in Es. apply Z.ltb_ge in Es. pose proof (zlen_nonneg cl). pose proof (zlen_nonneg op).
      assert (cl = [] /\ op = []) as [Ec Eo] by (split; apply zlen_0_nil; lia). assert (l = partTicks) as El by (unfold l; by rewrite Ec, Eo). unfold t, t0. rewrite andb_false_r. cbn [andb]. rewrite El. unfold partTicks. lia. }
    unfold bounded in *. cbn [target part]. change splitPartTicks with 35100.
    assert (sec = Z.max ((t + 89999) / 90000) 2) as Hsec by lia.
    assert ((t + 89999) / 90000 <= Z.max (((if some then t else target h) + 89999) / 90000) 2).
    { destruct Hs as [-> | Hs]; [lia |]. destruct some; [lia |]. pose proof (Z.div_le_mono (t + 89999) (Z.max (target h) 180000 + 89999) 90000 ltac:(lia) ltac:(lia)).
      destruct (Z.max_spec (target h) 180000) as [[_ E'] | [_ E']]; rewrite E' in *; [change ((180000 + 89999) / 90000) with 2 in *; lia | lia]. }
    destruct split; lia.
Qed.

Section held.
Context (takes : gmap (list Z) bytes -> list Z -> bytes -> bool) (renames : gmap (list Z) bytes -> bool).
Context (now : nat -> Z) (known_long : bool) (line : Z -> Z) (split : bool) (init : bytes).

(** Only the playlist's writing changes the ceiling. *)
Definition same_hold (s s' : packer) : Prop := hold (pl s') = hold (pl s).
Lemma closeSeg_hold end_ s : ends (closeSeg takes end_ s) (same_hold s).
Proof. eapply ends_mono; [apply closeSeg_closed |]. intros s' [[-> _] | (_ & _ & _ & _ & _ & _ & _ & _ & E & _)]; done. Qed.
Lemma hold_go (s : packer) (m : run packer) (f : packer -> run packer) (Q : packer -> Prop) :
  ends m (same_hold s) -> (forall s', same_hold s s' -> ends (f s') Q) -> ends (go m f) Q.
Proof. intros Hm Hf. apply ends_go. eapply ends_mono; [exact Hm | exact Hf]. Qed.

Lemma place_hold (I : playlistCeiling -> Prop) frag pts dur sync s :
  (forall cl op h, I h -> I (snd (aim split known_long h cl op))) -> I (hold (pl s)) ->
  ends (place takes renames now known_long line split init frag pts dur sync s) (fun s' => I (hold (pl s'))).
Proof.
  intros HI H. unfold place. eapply (hold_go s).
  { destruct (jump_at s pts); [| done]. unfold break_line. eapply (hold_go s); [apply closeSeg_hold |]. intros s' H'.
    by destruct (continuation _ _ _ _ _). }
  intros s1 H1. set (s2 := note_first line s1). assert (same_hold s s2) as H2 by (unfold s2, note_first; by destruct (_ && _)%bool).
  eapply (hold_go s2).
  { destruct (jump_at s pts); [done |]. unfold close_group. apply ends_if; intros _; [done |]. apply ends_if; intros _; [| done].
    eapply ends_mono; [apply closeSeg_hold | done]. }
  intros s3 H3. eapply (hold_go s3); [unfold close_full; apply ends_if; intros _; [apply closeSeg_hold | done] |]. intros s4 H4.
  eapply (hold_go s4); [unfold add_part; apply ends_go_last; intros d; unfold same_hold; cbn; by destruct (_ && _)%bool |]. intros s5 H5.
  eapply (hold_go s5); [unfold close_whole; apply ends_if; intros _; [apply closeSeg_hold | done] |]. intros s6 H6.
  assert (I (hold (pl s6))) as H0 by (unfold same_hold in *; rewrite H6, H5, H4, H3, H2; exact H). clear - HI H0.
  unfold flush. apply ends_if; intros _; [done |]. destruct (if longEvidence <=? _ then _ else _).
  specialize (HI (closed (pl s6)) (open (pl s6)) (hold (pl s6)) H0). destruct (aim _ _ _ _ _) as [a h]. apply ends_go_last. intros d.
  apply ends_if; intros _; [done |]. by destruct (publish _ _ _ _ _ _ _).
Qed.
End held.

(** ** The theorems *)

(** C23. A playlist that says its segments are independent is right. After any run, as
    long as [allSync] stands (the playlist has EXT-X-INDEPENDENT-SEGMENTS), each
    closed segment that still names its parts and the open one start with a part
    whose first picture is a keyframe. *)
Theorem independent_segments takes renames now known_long line split init ok s0 l s :
  begun init s0 -> packs takes renames now known_long line split init ok s0 l s -> allSync (pl s) = true ->
  (forall g r, g ∈ closed (pl s) -> head (parts g) = Some r -> rsync r = true) /\
  (forall p, head (open (pl s)) = Some p -> psync p = true).
Proof.
  intros Hs0 Hrun Ha. assert (fits false starts_keyed (pl s)) as H.
  { eapply packs_list; [apply place_keyed | exact Hrun |]. intros _. rewrite (begun_pl _ _ Hs0). by split; [| constructor]. }
  destruct (H (or_intror Ha)) as [Ho Hc]. split.
  - intros g r Hg Hr. rewrite Forall_forall in Hc. destruct (Hc g Hg) as [E | Hq]; [by rewrite E in Hr |].
    unfold seg_parts in Hq. destruct (parts g) as [| r' rs]; [done |]. injection Hr as ->. exact Hq.
  - intros p Hp. destruct (open (pl s)) as [| p' o]; [done |]. injection Hp as ->. exact Ho.
Qed.

(** C4. The parts of an encode that cuts inside a group are of the lengths players are
    promised. After a run whose fragments follow one another in one encode, none
    longer than the slack between the least and the most a part may last: the
    playlist advertises a part target of [splitPartTicks]; each part listed is at
    most that long; and each that is not the last of its segment is at least 85%
    of it. *)
Theorem split_part_lengths takes renames now known_long line init s0 l s :
  begun init s0 -> packs takes renames now known_long line true init continues s0 l s ->
  (forall h a, aim true known_long h (closed (pl s)) (open (pl s)) = (a, hold (pl s)) -> partTarget a = splitPartTicks) /\
  forall ds, ds = map pdur (open (pl s)) \/ (exists g, g ∈ closed (pl s) /\ ds = map rdur (parts g)) ->
    Forall (fun d => 0 < d <= splitPartTicks) ds /\ Forall (fun d => 85 * splitPartTicks <= 100 * d) (removelast ds).
Proof.
  intros Hs0 Hrun. split.
  - intros h a E. assert (part (hold (pl s)) = 0 \/ part (hold (pl s)) = splitPartTicks) as Hp.
    { eapply (packs_list takes renames now known_long line true init (fun l => part (hold l) = 0 \/ part (hold l) = splitPartTicks)); [| exact Hrun |].
      - intros frag pts dur sync s1 H1.
        apply (place_hold takes renames now known_long line true init (fun h => part h = 0 \/ part h = splitPartTicks)); [| done].
        intros cl op h1 Hh. destruct (aim true known_long h1 cl op) as [a1 h2] eqn:Ea. cbn [snd].
        destruct (aim_spec _ _ _ _ _ _ _ Ea) as (_ & _ & E1 & _ & _ & _ & _ & E2 & _). rewrite <- E1, E2 by done.
        change splitPartTicks with 35100. change splitPartTicks with 35100 in Hh. lia.
      - rewrite (begun_pl _ _ Hs0). by left. }
    destruct (aim_spec _ _ _ _ _ _ _ E) as (_ & Hh & E1 & _ & _ & _ & _ & E2 & _). rewrite E1 in *. specialize (E2 eq_refl).
    change splitPartTicks with 35100 in *. lia.
  - assert (even_state s) as [[Ho Hc] _].
    { induction Hrun as [| l s f s' H IH Hok Ht | l s s' H IH Hs].
      - split; rewrite (begun_pl _ _ Hs0); [| by rewrite (begun_gt _ _ Hs0)]. split; [split |]; constructor.
      - exact (ends_eq _ _ _ (take_even takes renames now known_long line true init f s eq_refl IH Hok) Ht).
      - destruct IH as [H1 H2]. split; [by rewrite (same_pl _ _ Hs) |]. by rewrite (same_gt _ _ Hs), (same_pl _ _ Hs). }
    assert (forall qs, even_parts qs -> Forall (fun d => 0 < d <= splitPartTicks) (map fst qs) /\
      Forall (fun d => 85 * splitPartTicks <= 100 * d) (removelast (map fst qs))) as Heven.
    { intros qs [H1 H2]. split; [by apply Forall_map |]. assert (removelast (map fst qs) = map fst (removelast qs)) as ->.
      { clear. induction qs as [| q [| q' qs] IH]; [done | done |]. cbn [removelast map] in *. by rewrite IH. }
      apply Forall_map. eapply Forall_impl; [exact H2 |]. intros x Hx. cbv beta in Hx. change splitMinTicks with 29835 in Hx. change splitPartTicks with 35100. lia. }
    intros ds [-> | (g & Hg & ->)].
    + specialize (Heven _ Ho). unfold open_parts in Heven. rewrite map_map in Heven. exact Heven.
    + rewrite Forall_forall in Hc. destruct (Hc g Hg) as [-> | Hq]; [by split; constructor |]. specialize (Heven _ Hq).
      unfold seg_parts in Heven. rewrite map_map in Heven. exact Heven.
Qed.

(** A part the playlist lists, by the length its line gives: one of a closed segment
    that is near the end and still names its parts, or of the open segment. *)
Definition said_part (a : aims) (d : Z) : Z := if d <=? 0 then Z.min partTicks (partTarget a) else d.
Inductive lists_part (a : aims) (l : listing) : Z -> Prop :=
| closed_part i e g r : from_ends (closed l) (open l) !! i = Some e -> closed l !! i = Some g -> r ∈ listed_parts a e g ->
    lists_part a l (said_part a (rdur r))
| opened_part p : openFits (partTarget a) (open l) = true -> p ∈ open l -> lists_part a l (said_part a (pdur p)).

Lemma listed_fits a l d : 0 < partTarget a -> lists_part a l d -> 0 < d <= partTarget a.
Proof.
  intros Hp H. assert (exists x, d = said_part a x /\ x <= partTarget a) as (x & -> & Hx).
  { destruct H as [i e g r _ _ Hr | p Ho Hin].
    - unfold listed_parts in Hr. destruct (fst _ && closedFits _ _)%bool eqn:E; [| by apply not_elem_of_nil in Hr].
      apply andb_true_iff in E as [_ E]. unfold closedFits in E. rewrite forallb_forall in E. apply list_elem_of_In, E in Hr.
      apply negb_true_iff, Z.ltb_ge in Hr. by exists (rdur r).
    - unfold openFits in Ho. rewrite forallb_forall in Ho. apply list_elem_of_In, Ho in Hin. apply negb_true_iff, Z.ltb_ge in Hin. by exists (pdur p). }
  unfold said_part, partTicks. destruct (Z.leb_spec x 0); lia.
Qed.


(** *** The theorems at a run *)

Lemma independent_segments_witness :
  allSync (pl (snd (demo 5))) = true /\ forall p, head (open (pl (snd (demo 5)))) = Some p -> psync p = true.
Proof.
  assert (allSync (pl (snd (demo 5))) = true) as Ha by (by vm_compute). split; [exact Ha |].
  exact (proj2 (independent_segments _ _ _ _ _ _ _ _ _ _ _ demo_begun (demo_packs 5) Ha)).
Defined.

(** Pictures of a thirtieth of a second, thirty to a group, in parts. *)
Definition picture_frag (n : Z) : fragment := mkFrag [n] (Some (n * 3000)) 3000 (n mod 30 =? 0).
Definition continuesb (s : packer) (f : fragment) : bool :=
  match fstart f with
  | None => true
  | Some pts =>
      ((0 <? fdur f) && (fdur f <=? splitPartTicks - splitMinTicks) &&
       match acc (gt s) with
       | None => true
       | Some a => negb (fresh s) && negb (handover s) && (- partTicks <=? ptsDiff pts (hpts a + hdur a)) &&
           (ptsDiff pts (hpts a + hdur a) <=? jumpTicks) && (zlen (hbody a) + zlen (fbody f) <=? maxOpenBytes)
       end)%bool
  end.
Lemma continuesb_spec s f : continuesb s f = true -> continues s f.
Proof.
  unfold continuesb, continues. intros H pts E. rewrite E in H. rewrite !andb_true_iff in H. destruct H as ((H1 & H2) & H3).
  apply Z.ltb_lt in H1. apply Z.leb_le in H2. split; [done |]. intros a Ea. rewrite Ea in H3. rewrite !andb_true_iff, !negb_true_iff in H3.
  destruct H3 as ((((F1 & F2) & F3) & F4) & F5). apply Z.leb_le in F3, F4, F5. done.
Qed.
Definition parts_step (s : packer) (f : fragment) : packer :=
  match take_frag (fun _ _ _ => true) (fun _ => true) (fun n => Z.of_nat n) false (fun n => n) true [7] f s with
  | inl s' => if continuesb s f then s' else s
  | inr _ => s
  end.
Definition parts_demo : packer := fold_left parts_step (map picture_frag (seqZ 0 70)) demo_start.
Lemma parts_demo_packs : exists l,
  packs (fun _ _ _ => true) (fun _ => true) (fun n => Z.of_nat n) false (fun n => n) true [7] continues demo_start l parts_demo.
Proof.
  unfold parts_demo. generalize (map picture_frag (seqZ 0 70)). intros fs.
  assert (forall l s, packs (fun _ _ _ => true) (fun _ => true) (fun n => Z.of_nat n) false (fun n => n) true [7] continues demo_start l s -> exists l',
    packs (fun _ _ _ => true) (fun _ => true) (fun n => Z.of_nat n) false (fun n => n) true [7] continues demo_start l' (fold_left parts_step fs s)) as H;
    [| by apply (H []), packs_here].
  induction fs as [| f fs IH]; intros l s H; [by exists l |]. cbn [fold_left]. unfold parts_step at 2.
  destruct (take_frag _ _ _ _ _ _ _ f s) as [s' |] eqn:E; [| by eapply IH]. destruct (continuesb s f) eqn:Ec; [| by eapply IH].
  eapply IH. eapply packs_take; [exact H | by apply continuesb_spec | exact E].
Qed.

Example parts_demo_lists :
  map (fun g => map rdur (parts g)) (closed (pl parts_demo)) = [[33000; 33000; 24000]] /\ map pdur (open (pl parts_demo)) = [30000; 30000; 30000].
Proof. split; vm_compute; reflexivity. Qed.

Lemma split_part_lengths_witness :
  Forall (fun d => 0 < d <= splitPartTicks) [33000; 33000; 24000] /\ Forall (fun d => 85 * splitPartTicks <= 100 * d) [33000; 33000].
Proof.
  destruct parts_demo_packs as (l & H). destruct (split_part_lengths _ _ _ _ _ _ _ _ _ demo_begun H) as [_ Hl].
  apply (Hl [33000; 33000; 24000]). right. destruct parts_demo_lists as [E _].
  destruct (closed (pl parts_demo)) as [| g cl]; [discriminate E |]. exists g. split; [apply list_elem_of_here |]. by injection E.
Defined.

Definition demo_later : bytes * packer :=
  take_all (fun _ _ _ => true) (fun _ => true) (fun n => Z.of_nat n) false (fun n => n) false [7] [] (snd (demo 2)) (map demo_frag (seqZ 2 6)).
Lemma demo_aim s : s = snd (demo 2) \/ s = snd demo_later ->
  aim false false (hold (pl s)) (closed (pl s)) (open (pl s)) =
  (fst (aim false false (hold (pl s)) (closed (pl s)) (open (pl s))), hold (pl s)) /\ ~ nothing (pl s).
Proof. intros [-> | ->]; (split; [by vm_compute | intros [_ E]; by vm_compute in E]). Qed.
