(* ===== verification/LivePlan.v ===== *)
(** The plan of several pictures at once, [server/internal/live/plan.go]: which
    channels of a multiview can play on the tuners there are, and what each
    further one would cost.

    A Go map is a [gmap]; where the code walks one, the order is [range], any
    permutation of its entries. *)
From S2P Require Import Prelude GoNum GoText.
Local Open Scope Z_scope.
Local Open Scope go_scope.

Notation text := (list Z) (only parsing).

Record PlanChannel := mkChannel { cID : Z; FrequencyHz : Z; Number : text; Name : text; Direct : bool }.
Record TunedFreq := mkTuned { tfreq : Z; tlabels : list text; tids : list Z; tdirect : bool }.
Record Playable := mkPlayable { pID : Z; pfreq : Z; Shared : bool }.
Record Blocked := mkBlocked { bID : Z; breason : text; Holders : list text }.
Inductive cost := Same | Tuner | NoTuner | On.
Record Offer := mkOffer { oID : Z; Cost : cost; Label : text }.
Record Stop := mkStop { sID : Z; sreason : text; sat : Z }.
Record Reservation := mkReservation { Channel : PlanChannel; Title : text; At : Z }.
Record MultiviewPlan := mkPlan {
  playable : list Playable; blocked : list Blocked; TunersNeeded : Z; TunersFree : Z; Note : text;
}.

(** What takes one tuner: a link by itself, the channels of a known frequency, a
    channel by itself. *)
Inductive plan_key := KDirect (id : Z) | KHz (hz : Z) | KId (id : Z).
#[global] Instance plan_key_eq_dec : EqDecision plan_key.
Proof. solve_decision. Defined.
Definition key_of (c : PlanChannel) : plan_key :=
  if Direct c then KDirect (cID c) else if 0 <? FrequencyHz c then KHz (FrequencyHz c) else KId (cID c).

Record group := mkGroup { gkey : plan_key; gfreq : Z; gknown : bool; gdirect : bool; gchannels : list PlanChannel }.

(** A map from keys to groups with the list of its keys: the groups by their first channel. *)
Fixpoint add_group (c : PlanChannel) (gs : list group) : list group :=
  match gs with
  | [] => [mkGroup (key_of c) (FrequencyHz c) (0 <? FrequencyHz c) (Direct c) [c]]
  | g :: gs =>
      if decide (gkey g = key_of c) then mkGroup (gkey g) (gfreq g) (gknown g) (gdirect g) (gchannels g ++ [c]) :: gs
      else g :: add_group c gs
  end.
Definition groups_of (l : list PlanChannel) : list group := fold_left (fun gs c => add_group c gs) l [].

Fixpoint dedupe_loop (seen : gset Z) (want : list PlanChannel) : list PlanChannel :=
  match want with
  | [] => []
  | c :: want =>
      if ((cID c =? 0) || bool_decide (cID c ∈ seen))%bool then dedupe_loop seen want
      else c :: dedupe_loop ({[cID c]} ∪ seen) want
  end.
Definition dedupePlans (want : list PlanChannel) : list PlanChannel := dedupe_loop ∅ want.

(** ** Words *)

Definition englishList (items : list text) : text :=
  match items with
  | [] => []
  | [a] => a
  | [a; b] => a ++ lit " and " ++ b
  | _ => Join (removelast items) (lit ", ") ++ lit ", and " ++ List.last items []
  end.
Fixpoint unique_loop (seen : gset text) (l : list text) : list text :=
  match l with
  | [] => []
  | s :: l => if (says s "" || bool_decide (s ∈ seen))%bool then unique_loop seen l else s :: unique_loop ({[s]} ∪ seen) l
  end.
Definition unique (l : list text) : list text := unique_loop ∅ l.
Definition busyReason (tunerCount : Z) (holders : list text) : text :=
  if tunerCount =? 0 then lit "No tuner is available." else
  let lead := if tunerCount =? 1 then lit "The tuner is busy." else if tunerCount =? 2 then lit "Both tuners are busy."
              else lit "Every tuner is busy." in
  if zlen holders =? 0 then lead else
  lead ++ lit " " ++ englishList holders ++ lit " " ++ (if 1 <? zlen holders then lit "are" else lit "is") ++ lit " on.".

Section names.
Context `{Unicode}.

Definition ChannelLabel (number name : text) : text :=
  let number := TrimSpace number in
  let name := TrimSpace name in
  if (negb (says number "") && negb (says name "") && negb (bytes_equal name number))%bool then number ++ lit " " ++ name
  else if negb (says number "") then number else name.
Definition label (c : PlanChannel) : text :=
  let l := ChannelLabel (Number c) (Name c) in if says l "" then format_int (cID c) else l.
Definition labelsOf (l : list PlanChannel) : list text := map label l.

(** ** The plan *)

(** The tuners this server holds: labels by frequency, channels, the labels of
    those on no known frequency, and how many. *)
Record held := mkHeld { oursFreq : gmap Z (list text); oursID : gset Z; unknown : list text; occupied : Z }.
Definition hold_one (h : held) (t : TunedFreq) : held :=
  if tdirect t then h else
  let ids := list_to_set (tids t) ∪ oursID h in
  if tfreq t <=? 0 then mkHeld (oursFreq h) ids (unknown h ++ tlabels t) (occupied h + 1) else
  match oursFreq h !! tfreq t with
  | Some l => mkHeld (<[tfreq t := l ++ tlabels t]> (oursFreq h)) ids (unknown h) (occupied h)
  | None => mkHeld (<[tfreq t := tlabels t]> (oursFreq h)) ids (unknown h) (occupied h + 1)
  end.
Definition hold_all (ours : list TunedFreq) : held := fold_left hold_one ours (mkHeld ∅ ∅ [] 0).

Record planning := mkPlanning {
  pfree : Z; pneeded : Z; ptaken : list text; pplayable : list Playable; pblocked : list Blocked; pnotes : list text;
}.
Definition on_air (h : held) (g : group) : bool :=
  ((gknown g && bool_decide (is_Some (oursFreq h !! gfreq g))) || existsb (fun c => bool_decide (cID c ∈ oursID h)) (gchannels g))%bool.
Definition plan_group (tunerCount : Z) (h : held) (p : planning) (g : group) : planning :=
  let air := on_air h g in
  let shared := ((1 <? zlen (gchannels g)) || air)%bool in
  if (gdirect g || air || (0 <? pfree p))%bool then
    let takes := if (negb (gdirect g) && negb air)%bool then 1 else 0 in
    mkPlanning (pfree p - takes) (pneeded p + takes) (ptaken p ++ labelsOf (gchannels g))
      (pplayable p ++ map (fun c => mkPlayable (cID c) (FrequencyHz c) shared) (gchannels g)) (pblocked p)
      (if 1 <? zlen (gchannels g) then pnotes p ++ [englishList (labelsOf (gchannels g)) ++ lit " share one tuner."] else pnotes p)
  else
    let holders := unique (ptaken p) in
    mkPlanning (pfree p) (pneeded p) (ptaken p) (pplayable p)
      (pblocked p ++ map (fun c => mkBlocked (cID c) (busyReason tunerCount holders) holders) (gchannels g)) (pnotes p).

Definition PlanMultiview (range : gmap Z (list text) -> list (Z * list text)) (want : list PlanChannel) (tunerCount : Z)
    (ours : list TunedFreq) (foreign : list text) : MultiviewPlan :=
  let tunerCount := Z.max tunerCount 0 in
  let h := hold_all ours in
  let busy := occupied h + zlen foreign in
  let taken := foreign ++ unknown h ++ concat (map snd (range (oursFreq h))) in
  let p := fold_left (plan_group tunerCount h) (groups_of (dedupePlans want))
             (mkPlanning (Z.max (tunerCount - busy) 0) busy taken [] [] []) in
  mkPlan (pplayable p) (pblocked p) (pneeded p) (pfree p) (Join (pnotes p) (lit " ")).

(** ** Recordings that are to come *)

Record channelSlot := mkSlot { sfreq : Z; sknown : bool; sdirect : bool; schannels : list PlanChannel; maxID : Z }.
Definition slot_of (g : group) : channelSlot :=
  mkSlot (gfreq g) (gknown g && negb (gdirect g)) (gdirect g) (gchannels g) (fold_left Z.max (map cID (gchannels g)) (match gchannels g with c :: _ => cID c | [] => 0 end)).
Definition slotsOf (l : list PlanChannel) : list channelSlot := map slot_of (groups_of l).

Definition slotClaims (s : channelSlot) (r : Reservation) : bool :=
  (((0 <? FrequencyHz (Channel r)) && sknown s && (sfreq s =? FrequencyHz (Channel r))) ||
   existsb (fun c => cID c =? cID (Channel r)) (schannels s))%bool.
(** The slot with the highest channel that the recording does not use: its place, and it. *)
Fixpoint victim_loop (r : Reservation) (i : nat) (slots : list channelSlot) (best : option (nat * channelSlot)) : option (nat * channelSlot) :=
  match slots with
  | [] => best
  | s :: slots =>
      let best := if (sdirect s || slotClaims s r)%bool then best else
                  match best with
                  | None => Some (i, s)
                  | Some (j, b) => if maxID b <? maxID s then Some (i, s) else best
                  end in
      victim_loop r (S i) slots best
  end.
Definition victimSlot (slots : list channelSlot) (r : Reservation) : option (nat * channelSlot) := victim_loop r 0 slots None.

Definition partnerLabel (c : PlanChannel) (onAir : list PlanChannel) (ours : list TunedFreq) (reserved : list Reservation) : option text :=
  if FrequencyHz c <=? 0 then None else
  match List.find (fun o => negb (cID o =? cID c) && (FrequencyHz o =? FrequencyHz c))%bool onAir with
  | Some o => Some (label o)
  | None =>
      match List.find (fun l => negb (says l "") && negb (bytes_equal l (label c)))%bool
              (concat (map tlabels (List.filter (fun t => tfreq t =? FrequencyHz c) ours))) with
      | Some l => Some l
      | None => label ∘ Channel <$> List.find (fun r => negb (cID (Channel r) =? cID c) && (FrequencyHz (Channel r) =? FrequencyHz c))%bool reserved
      end
  end.
Definition matchesReservation (c : PlanChannel) (reserved : list Reservation) : bool :=
  existsb (fun r => negb (Direct (Channel r)) &&
    ((cID (Channel r) =? cID c) || ((0 <? FrequencyHz c) && (FrequencyHz (Channel r) =? FrequencyHz c))))%bool reserved.
Definition offerFor (c : PlanChannel) (onAir : list PlanChannel) (ours : list TunedFreq) (reserved : list Reservation) (free : Z) : Offer :=
  if (Direct c || existsb (fun o => cID o =? cID c) onAir)%bool then mkOffer (cID c) On [] else
  match partnerLabel c onAir ours reserved with
  | Some l => mkOffer (cID c) Same (lit "Same tune as " ++ l)
  | None =>
      if existsb (fun t => (0 <? FrequencyHz c) && (tfreq t =? FrequencyHz c))%bool ours then mkOffer (cID c) Same (lit "Already tuned")
      else if (matchesReservation c reserved || (0 <? free))%bool then mkOffer (cID c) Tuner (lit "Uses a tuner")
      else mkOffer (cID c) NoTuner (lit "No tuner free")
  end.

(** [LimitPictures], which writes into the offers. *)
Definition LimitPictures (offers : list Offer) (current : list PlanChannel) (used limit : Z) (running : gset Z) : list Offer :=
  if ((limit <=? 0) || (used <? limit))%bool then offers else
  map (fun o => if (match Cost o with NoTuner => true | _ => false end || existsb (fun c => cID c =? oID o) current ||
                    bool_decide (oID o ∈ running))%bool then o else mkOffer (oID o) NoTuner (lit "No picture free")) offers.

Section clock.
Context `{Zone}.

Definition weekday_name (d : Z) : text :=
  if d =? 0 then lit "Sunday" else if d =? 1 then lit "Monday" else if d =? 2 then lit "Tuesday" else
  if d =? 3 then lit "Wednesday" else if d =? 4 then lit "Thursday" else if d =? 5 then lit "Friday" else lit "Saturday".
(** The same [Year()] and [YearDay()] are the same day. *)
Definition clockLabel (at_ now : Z) : text :=
  let h := local_hour at_ in
  let suffix := if 12 <=? h then lit "PM" else lit "AM" in
  let h := if h mod 12 =? 0 then 12 else h mod 12 in
  let tod := format_int h ++ lit ":" ++ padded 2 (local_minute at_) ++ lit " " ++ suffix in
  if local_day at_ =? local_day now then tod else weekday_name (weekday (local_day at_)) ++ lit " at " ++ tod.
Definition StopWarning (numbers : list text) (at_ : Z) (title : text) (now : Z) : text :=
  let title := if says (TrimSpace title) "" then lit "A show" else title in
  let verb := if zlen numbers =? 1 then lit "stops" else lit "stop" in
  englishList numbers ++ lit " " ++ verb ++ lit " at " ++ clockLabel at_ now ++ lit ". " ++ title ++ lit " is recording.".

Record picking := mkPicking { kslots : list channelSlot; heldFreq : gset Z; heldID : gset Z; kfree : Z; kstops : list Stop }.
Definition keep_station (r : Reservation) (p : picking) : picking :=
  mkPicking (kslots p) ((if 0 <? FrequencyHz (Channel r) then {[FrequencyHz (Channel r)]} else ∅) ∪ heldFreq p)
    ({[cID (Channel r)]} ∪ heldID p) (kfree p) (kstops p).
Definition reserve (now : Z) (p : picking) (r : Reservation) : picking :=
  let f := FrequencyHz (Channel r) in
  if (Direct (Channel r) || bool_decide (cID (Channel r) ∈ heldID p) || ((0 <? f) && bool_decide (f ∈ heldFreq p)))%bool
  then keep_station r p
  else if 0 <? kfree p then keep_station r (mkPicking (kslots p) (heldFreq p) (heldID p) (kfree p - 1) (kstops p))
  else match victimSlot (kslots p) r with
       | Some (i, s) =>
           let reason := StopWarning (labelsOf (schannels s)) (At r) (Title r) now in
           keep_station r (mkPicking (delete i (kslots p)) (if sknown s then heldFreq p ∖ {[sfreq s]} else heldFreq p)
             (heldID p ∖ list_to_set (map cID (schannels s))) (kfree p) (kstops p ++ map (fun c => mkStop (cID c) reason (At r)) (schannels s)))
       | None => p
       end.

Definition Picker (range : gmap Z (list text) -> list (Z * list text)) (current candidates : list PlanChannel) (tunerCount : Z)
    (ours : list TunedFreq) (foreign : list text) (reserved : list Reservation) (now : Z) : list Offer * list Stop :=
  let current := dedupePlans current in
  let base := PlanMultiview range current tunerCount ours foreign in
  let onAir := List.filter (fun c => existsb (fun p => pID p =? cID c) (playable base)) current in
  let slots := slotsOf onAir in
  let freqs := list_to_set (map sfreq (List.filter sknown slots)) ∪ list_to_set (List.filter (Z.ltb 0) (map tfreq ours)) in
  let ids := list_to_set (concat (map (fun s => map cID (schannels s)) slots)) in
  let reserved := sort_by (fun a b => At a <? At b) reserved in
  let p := fold_left (reserve now) reserved (mkPicking slots freqs ids (TunersFree base) []) in
  (map (fun c => offerFor c onAir ours reserved (kfree p)) candidates, kstops p).
End clock.
End names.

(** * Proofs *)

(** ** Groups *)

Definition members (gs : list group) : list PlanChannel := concat (map gchannels gs).
Record grouped (gs : list group) : Prop := {
  grouped_keys : NoDup (map gkey gs);
  grouped_members : Forall (fun g => gchannels g <> [] /\ Forall (fun c => key_of c = gkey g) (gchannels g)) gs;
  grouped_head : Forall (fun g => exists c, head (gchannels g) = Some c /\ gfreq g = FrequencyHz c /\ gknown g = (0 <? FrequencyHz c) /\
    gdirect g = Direct c) gs;
}.

Lemma add_group_members c gs : members (add_group c gs) ≡ₚ members gs ++ [c].
Proof.
  unfold members. induction gs as [| g gs IH]; [done |]. cbn [add_group]. destruct (decide _).
  - cbn [map concat gchannels]. rewrite <- !app_assoc. apply Permutation_app_head. apply Permutation_app_comm.
  - cbn [map concat]. by rewrite IH, app_assoc.
Qed.
Lemma add_group_keys c gs : map gkey (add_group c gs) = map gkey gs \/ map gkey (add_group c gs) = map gkey gs ++ [key_of c] /\ key_of c ∉ map gkey gs.
Proof.
  induction gs as [| g gs IH]; [right; split; [done | apply not_elem_of_nil] |]. cbn [add_group]. destruct (decide _); [by left |]. cbn [map].
  destruct IH as [-> | [-> Hn]]; [by left | right]. split; [done |]. apply not_elem_of_cons. done.
Qed.
Lemma add_group_grouped c gs : grouped gs -> grouped (add_group c gs).
Proof.
  intros [Hk Hm Hh]. split.
  - destruct (add_group_keys c gs) as [-> | [-> Hn]]; [done |]. apply NoDup_app. split; [done |]. split; [| apply NoDup_singleton].
    intros k Hin ->%list_elem_of_singleton. done.
  - clear Hk Hh. induction Hm as [| g gs [Hg1 Hg2] Hm IH]; cbn [add_group].
    + constructor; [| constructor]. split; [done |]. by constructor.
    + destruct (decide _) as [E |]; [| by constructor]. constructor; [| done]. cbn [gchannels gkey]. split; [by destruct (gchannels g) |].
      apply Forall_app. split; [done |]. by constructor.
  - clear Hk Hm. induction Hh as [| g gs (c0 & H1 & H2) Hh IH]; cbn [add_group].
    + constructor; [| constructor]. by exists c.
    + destruct (decide _) as [E |]; constructor; try done; [| by exists c0]. exists c0. cbn [gchannels gfreq gknown gdirect]. split; [| done].
      revert H1. by destruct (gchannels g).
Qed.
Lemma groups_of_spec l : grouped (groups_of l) /\ members (groups_of l) ≡ₚ l.
Proof.
  unfold groups_of. assert (forall gs, grouped gs -> grouped (fold_left (fun gs c => add_group c gs) l gs) /\
    members (fold_left (fun gs c => add_group c gs) l gs) ≡ₚ members gs ++ l) as H.
  { induction l as [| c l IH]; intros gs Hg; cbn [fold_left]; [by rewrite app_nil_r |]. destruct (IH (add_group c gs) (add_group_grouped c gs Hg)) as [H1 H2].
    split; [done |]. by rewrite H2, add_group_members, <- app_assoc. }
  apply (H []). split; constructor.
Qed.

(** Two channels of one key are in one group. *)
Lemma grouped_same gs g1 g2 c1 c2 : grouped gs -> g1 ∈ gs -> g2 ∈ gs -> c1 ∈ gchannels g1 -> c2 ∈ gchannels g2 -> key_of c1 = key_of c2 -> g1 = g2.
Proof.
  intros [Hk Hm _] H1 H2 Hc1 Hc2 E. rewrite Forall_forall in Hm. destruct (Hm g1 H1) as [_ F1], (Hm g2 H2) as [_ F2]. rewrite Forall_forall in F1, F2.
  rewrite (F1 c1 Hc1), (F2 c2 Hc2) in E. apply list_elem_of_lookup in H1 as (i & Hi), H2 as (j & Hj).
  assert (i = j) as ->; [| congruence].
  apply (NoDup_lookup _ i j (gkey g1) Hk); rewrite list_lookup_fmap; [by rewrite Hi | by rewrite Hj, E].
Qed.
Lemma elem_of_members c gs : c ∈ members gs <-> exists g, g ∈ gs /\ c ∈ gchannels g.
Proof.
  unfold members. rewrite list_elem_of_In, in_concat. split.
  - intros (l & Hl & Hc). apply in_map_iff in Hl as (g & <- & Hg). exists g. by rewrite !list_elem_of_In.
  - intros (g & Hg & Hc). exists (gchannels g). rewrite !list_elem_of_In in *. split; [by apply in_map | done].
Qed.

Lemma dedupe_spec want : NoDup (map cID (dedupePlans want)) /\ dedupePlans want `sublist_of` want /\
  (forall i c, want !! i = Some c -> cID c <> 0 -> (forall j d, (j < i)%nat -> want !! j = Some d -> cID d <> cID c) -> c ∈ dedupePlans want).
Proof.
  unfold dedupePlans. assert (forall seen, NoDup (map cID (dedupe_loop seen want)) /\ dedupe_loop seen want `sublist_of` want /\
    (forall c, c ∈ dedupe_loop seen want -> cID c ∉ seen) /\
    (forall i c, want !! i = Some c -> cID c <> 0 -> cID c ∉ seen -> (forall j d, (j < i)%nat -> want !! j = Some d -> cID d <> cID c) -> c ∈ dedupe_loop seen want)) as H.
  { induction want as [| x want IH]; intros seen; cbn [dedupe_loop].
    { split_and!; [constructor | constructor | set_solver | done]. }
    assert (forall seen', (forall i c, want !! i = Some c -> cID c <> 0 -> cID c ∉ seen' -> (forall j d, (j < i)%nat -> want !! j = Some d -> cID d <> cID c) -> c ∈ dedupe_loop seen' want) ->
      forall i c, want !! i = Some c -> cID c <> 0 -> cID c ∉ seen' -> (forall j d, (j < S i)%nat -> (x :: want) !! j = Some d -> cID d <> cID c) -> c ∈ dedupe_loop seen' want) as Hlater.
    { intros seen' H i c Hi H0 Hs Hj. apply (H i c); [done | done | done |]. intros j d Hlt Hd. apply (Hj (S j)); [lia | done]. }
    destruct ((cID x =? 0) || bool_decide (cID x ∈ seen))%bool eqn:E.
    { destruct (IH seen) as (H1 & H2 & H3 & H4). split_and!; [done | by constructor | done |]. intros [| i] c Hi H0 Hs Hj; [| by eapply Hlater].
      injection Hi as <-. apply orb_true_iff in E as [E%Z.eqb_eq | E]; [done |]. by apply bool_decide_eq_true in E. }
    apply orb_false_iff in E as [E0 Es]. apply Z.eqb_neq in E0. apply bool_decide_eq_false in Es.
    destruct (IH ({[cID x]} ∪ seen)) as (H1 & H2 & H3 & H4). split_and!.
    - cbn [map]. constructor; [| done]. intros Hin. apply list_elem_of_fmap in Hin as (c & Ec & Hc). apply (H3 c) in Hc. set_solver.
    - by constructor.
    - intros c [-> |]%elem_of_cons; [done |]. intros Hs. apply (H3 c); set_solver.
    - intros [| i] c Hi H0 Hs Hj; [injection Hi as ->; by left |]. right. eapply Hlater; [exact H4 | exact Hi | done | | exact Hj].
      pose proof (Hj 0%nat x ltac:(lia) eq_refl). set_solver. }
  destruct (H ∅) as (H1 & H2 & _ & H4). split_and!; [done | done |]. intros i c Hi H0 Hj. apply (H4 i c); [done | done | set_solver | done].
Qed.

(** ** The plan *)

Section plans.
Context `{Unicode}.

(** A group that takes a tuner. *)
Definition costs (h : held) (g : group) : bool := (negb (gdirect g) && negb (on_air h g))%bool.

(** What a group does to the plan: it plays and takes a tuner or none, or it is
    blocked, and then no tuner is free. *)
Lemma plan_group_spec count h p g :
  let p' := plan_group count h p g in let ids := map cID (gchannels g) in
  if (negb (costs h g) || (0 <? pfree p))%bool then
    let k := if costs h g then 1 else 0 in
    pfree p' = pfree p - k /\ pneeded p' = pneeded p + k /\ map pID (pplayable p') = map pID (pplayable p) ++ ids /\ pblocked p' = pblocked p
  else pfree p' = pfree p /\ pneeded p' = pneeded p /\ pplayable p' = pplayable p /\ map bID (pblocked p') = map bID (pblocked p) ++ ids.
Proof.
  cbv zeta. unfold plan_group, costs. cbv zeta. destruct (gdirect g), (on_air h g), (0 <? pfree p); cbn; rewrite ?map_app, ?map_map; done.
Qed.

Lemma plan_fold count h gs p : 0 <= pfree p ->
  let n := Z.to_nat (pfree p) in
  let cs := List.filter (costs h) gs in
  let p' := fold_left (plan_group count h) gs p in
  pfree p' = pfree p - zlen (take n cs) /\ pneeded p' = pneeded p + zlen (take n cs) /\
  map bID (pblocked p') = map bID (pblocked p) ++ map cID (members (drop n cs)) /\
  map pID (pplayable p') ++ map bID (pblocked p') ≡ₚ (map pID (pplayable p) ++ map bID (pblocked p)) ++ map cID (members gs).
Proof.
  cbv zeta. revert p. induction gs as [| g gs IH]; intros p Hp.
  { cbn. rewrite take_nil, drop_nil. cbn. rewrite !app_nil_r. by rewrite Z.sub_0_r, Z.add_0_r. }
  assert (map cID (members (g :: gs)) = map cID (gchannels g) ++ map cID (members gs)) as Em by (unfold members; cbn [map concat]; by rewrite map_app).
  cbn [fold_left List.filter]. rewrite Em. pose proof (plan_group_spec count h p g) as Hg. cbv zeta in Hg. specialize (IH (plan_group count h p g)).
  set (p1 := plan_group count h p g) in *. clearbody p1.
  destruct (costs h g) eqn:Ec, (Z.ltb_spec 0 (pfree p)); cbn [negb orb] in Hg; destruct Hg as (G1 & G2 & G3 & G4); rewrite G1, G2 in IH.
  - destruct (IH ltac:(lia)) as (H1 & H2 & H3 & H4). replace (Z.to_nat (pfree p)) with (S (Z.to_nat (pfree p - 1))) by lia. cbn [take drop].
    rewrite zlen_cons. split_and!; [lia | lia | by rewrite H3, G4 |]. rewrite H4, G3, G4, <- !app_assoc. apply Permutation_app_head.
    rewrite !app_assoc. apply Permutation_app_tail, Permutation_app_comm.
  - destruct (IH Hp) as (H1 & H2 & H3 & H4). assert (pfree p = 0) as E0 by lia. rewrite E0 in *. change (Z.to_nat 0) with 0%nat in *. cbn [take drop] in *.
    split_and!; [exact H1 | exact H2 | |].
    + rewrite H3, G4. unfold members. cbn [map concat]. by rewrite map_app, <- app_assoc.
    + rewrite H4, G3, G4. by rewrite <- !app_assoc.
  - rewrite Z.sub_0_r, Z.add_0_r in IH. destruct (IH Hp) as (H1 & H2 & H3 & H4). split_and!; [done | done | by rewrite H3, G4 |].
    rewrite H4, G3, G4, <- !app_assoc. apply Permutation_app_head. rewrite !app_assoc. apply Permutation_app_tail, Permutation_app_comm.
  - rewrite Z.sub_0_r, Z.add_0_r in IH. destruct (IH Hp) as (H1 & H2 & H3 & H4). split_and!; [done | done | by rewrite H3, G4 |].
    rewrite H4, G3, G4, <- !app_assoc. apply Permutation_app_head. rewrite !app_assoc. apply Permutation_app_tail, Permutation_app_comm.
Qed.

Lemma members_slots l : concat (map schannels (slotsOf l)) = members (groups_of l).
Proof. unfold slotsOf, members. by rewrite map_map. Qed.

Lemma NoDup_ids (l : list PlanChannel) c1 c2 : NoDup (map cID l) -> c1 ∈ l -> c2 ∈ l -> cID c1 = cID c2 -> c1 = c2.
Proof.
  intros Hn H1 H2 E. apply list_elem_of_lookup in H1 as (i & Hi), H2 as (j & Hj). assert (i = j) as ->; [| congruence].
  apply (NoDup_lookup _ i j (cID c1) Hn); rewrite list_lookup_fmap; [by rewrite Hi | by rewrite Hj, E].
Qed.

(** *** What a plan promises, by itself *)

(** Two channels one tuner shows: one channel, or two of an antenna on one known frequency *)
Definition same_tuner (c d : PlanChannel) : bool :=
  ((cID c =? cID d) || (negb (Direct c) && negb (Direct d) && (0 <? FrequencyHz c) && (FrequencyHz c =? FrequencyHz d)))%bool.
(** A channel a tuner of this server has on already: by its id or its known frequency *)
Definition tuned_to (ours : list TunedFreq) (c : PlanChannel) : bool :=
  existsb (fun t => negb (tdirect t) && (existsb (Z.eqb (cID c)) (tids t) || ((0 <? FrequencyHz c) && (FrequencyHz c =? tfreq t))))%bool ours.
(** A channel that takes a tuner: no link, and nothing that could be on its tuner is on the air *)
Definition takes_tuner (ours : list TunedFreq) (l : list PlanChannel) (c : PlanChannel) : bool :=
  (negb (Direct c) && negb (existsb (fun d => same_tuner c d && tuned_to ours d) l))%bool.
(** The first channel of each tuner that is taken, in order *)
Definition first_each (l : list PlanChannel) : list PlanChannel :=
  fold_left (fun out c => if existsb (same_tuner c) out then out else out ++ [c]) l [].
Definition takers (ours : list TunedFreq) (l : list PlanChannel) : list PlanChannel := List.filter (takes_tuner ours l) (first_each l).
(** The tuners held: one for each known frequency, one for each tuner on none *)
Definition holding (ours : list TunedFreq) : Z :=
  let nd := List.filter (fun t => negb (tdirect t)) ours in
  Z.of_nat (size (list_to_set (List.filter (Z.ltb 0) (map tfreq nd)) : gset Z)) + zlen (List.filter (fun t => tfreq t <=? 0) nd).

Lemma hold_all_spec ours : let h := hold_all ours in
  (forall f, is_Some (oursFreq h !! f) <-> exists t, t ∈ ours /\ tdirect t = false /\ 0 < f /\ tfreq t = f) /\
  (forall id, id ∈ oursID h <-> exists t, t ∈ ours /\ tdirect t = false /\ id ∈ tids t) /\
  dom (oursFreq h) = (list_to_set (List.filter (Z.ltb 0) (map tfreq (List.filter (fun t => negb (tdirect t)) ours))) : gset Z) /\
  occupied h = holding ours.
Proof.
  cbv zeta. unfold hold_all. induction ours as [| t ours IH] using rev_ind.
  { cbn. split_and!; [| | by rewrite dom_empty_L | done].
    - intros f. rewrite lookup_empty. split; [by intros [] | by intros (t & ?%not_elem_of_nil & _)].
    - intros id. split; [by intros ?%not_elem_of_empty | by intros (t & ?%not_elem_of_nil & _)]. }
  rewrite fold_left_app. cbn [fold_left]. set (h := fold_left hold_one ours _) in *. destruct IH as (Hf & Hi & Hd & Ho). unfold hold_one, holding in *.
  rewrite List.filter_app. cbn [List.filter]. destruct (tdirect t) eqn:Et; cbn [negb].
  { rewrite app_nil_r. split_and!; try done.
    - intros f. rewrite Hf. split; intros (u & Hu & H'); exists u; [split; [apply elem_of_app; by left | done] |].
      apply elem_of_app in Hu as [Hu | ->%list_elem_of_singleton]; [done | destruct H' as [? _]; congruence].
    - intros id. rewrite Hi. split; intros (u & Hu & H'); exists u; [split; [apply elem_of_app; by left | done] |].
      apply elem_of_app in Hu as [Hu | ->%list_elem_of_singleton]; [done | destruct H' as [? _]; congruence]. }
  assert (forall id, id ∈ list_to_set (tids t) ∪ oursID h <-> exists u, u ∈ ours ++ [t] /\ tdirect u = false /\ id ∈ tids u) as Hi'.
  { intros id. rewrite elem_of_union, elem_of_list_to_set, Hi. setoid_rewrite elem_of_app. setoid_rewrite list_elem_of_singleton. split.
    - intros [? | (u & Hu & H1)]; [exists t; split_and!; [by right | done | done] | exists u; split; [by left | done]].
    - intros (u & [Hu | ->] & H1 & H2); [right; by exists u | by left]. }
  rewrite map_app, List.filter_app, List.filter_app, zlen_app, list_to_set_app_L. cbn [map List.filter]. destruct (Z.leb_spec (tfreq t) 0) as [L | L].
  { rewrite (proj2 (Z.ltb_ge 0 (tfreq t)) L). cbn [oursFreq oursID occupied list_to_set]. rewrite union_empty_r_L. split_and!; [| exact Hi' | done | change (zlen [t]) with 1; lia].
    intros f. rewrite Hf. setoid_rewrite elem_of_app. setoid_rewrite list_elem_of_singleton. split; [intros (u & Hu & H1); exists u; split; [by left | done] |]. intros (u & [Hu | ->] & H1 & H2 & H3); [by exists u | lia]. }
  rewrite (proj2 (Z.ltb_lt 0 (tfreq t)) L). cbn [list_to_set]. rewrite union_empty_r_L. change (zlen []) with 0.
  assert (forall v f, is_Some (<[tfreq t := v]> (oursFreq h) !! f) <-> exists u, u ∈ ours ++ [t] /\ tdirect u = false /\ 0 < f /\ tfreq u = f) as Hf'.
  { intros v f. rewrite lookup_insert_is_Some', Hf. setoid_rewrite elem_of_app. setoid_rewrite list_elem_of_singleton. split; [intros [<- | (u & Hu & H1)]; [exists t; split_and!; [by right | done | done | done] | exists u; split; [by left | done]] |].
    intros (u & [Hu | ->] & H1 & H2 & H3); [right; by exists u | by left]. }
  assert (forall v, dom (<[tfreq t := v]> (oursFreq h)) = list_to_set (List.filter (Z.ltb 0) (map tfreq (List.filter (fun t => negb (tdirect t)) ours))) ∪ ({[tfreq t]} : gset Z)) as Hd'
    by (intros v; rewrite dom_insert_L, Hd; apply (comm_L _)).
  destruct (oursFreq h !! tfreq t) as [l |] eqn:El; cbn [oursFreq oursID occupied]; (split_and!; [apply Hf' | exact Hi' | apply Hd' |]).
  - assert (tfreq t ∈ (list_to_set (List.filter (Z.ltb 0) (map tfreq (List.filter (fun t => negb (tdirect t)) ours))) : gset Z)) as Hin by (rewrite <- Hd; by apply elem_of_dom; exists l).
    replace (_ ∪ {[tfreq t]}) with (list_to_set (List.filter (Z.ltb 0) (map tfreq (List.filter (fun t => negb (tdirect t)) ours))) : gset Z) by set_solver. lia.
  - assert (tfreq t ∉ (list_to_set (List.filter (Z.ltb 0) (map tfreq (List.filter (fun t => negb (tdirect t)) ours))) : gset Z)) as Hin by (rewrite <- Hd; by apply not_elem_of_dom).
    rewrite size_union, size_singleton by set_solver. lia.
Qed.

Lemma same_tuner_key l c d : NoDup (map cID l) -> c ∈ l -> d ∈ l -> same_tuner c d = true <-> key_of c = key_of d.
Proof.
  intros Hn Hc Hd. unfold same_tuner, key_of. destruct (Z.eqb_spec (cID c) (cID d)) as [E | E].
  { rewrite (NoDup_ids l c d Hn Hc Hd E). done. }
  cbn [orb]. destruct (Direct c), (Direct d); cbn.
  - split; [done | congruence].
  - split; [done | by destruct (0 <? FrequencyHz d)].
  - split; [done | by destruct (0 <? FrequencyHz c)].
  - destruct (Z.ltb_spec 0 (FrequencyHz c)), (Z.ltb_spec 0 (FrequencyHz d)); cbn; rewrite ?Z.eqb_eq; (split; [intros ?; try f_equal; done || lia | intros [=]; done]).
Qed.
Definition head_of (g : group) : PlanChannel := List.hd (mkChannel 0 0 [] [] false) (gchannels g).
Lemma head_of_in g : gchannels g <> [] -> head_of g ∈ gchannels g.
Proof. unfold head_of. destruct (gchannels g); [done | by left]. Qed.
Lemma heads_first l L : NoDup (map cID L) -> l ⊆ L -> map head_of (groups_of l) = first_each l.
Proof.
  intros Hn. unfold groups_of, first_each. induction l as [| c l IH] using rev_ind; intros Hl; [done |]. rewrite !fold_left_app. cbn [fold_left].
  rewrite <- IH by set_solver. fold (groups_of l). destruct (groups_of_spec l) as [[_ Hm _] Hperm].
  assert (forall g, g ∈ groups_of l -> head_of g ∈ L /\ key_of (head_of g) = gkey g /\ gchannels g <> []) as Hheads.
  { intros g Hg. rewrite Forall_forall in Hm. destruct (Hm g Hg) as [H1 H2]. rewrite Forall_forall in H2. pose proof (head_of_in g H1) as H3. split; [| split; [by apply H2 | done]].
    apply Hl, elem_of_app. left. rewrite <- Hperm. apply elem_of_members. eauto. }
  assert (c ∈ L) as Hc by (apply Hl, elem_of_app; right; by left). clear Hm Hperm IH Hl.
  induction (groups_of l) as [| g gs IH]; [done |]. cbn [add_group map existsb]. destruct (Hheads g) as (H1 & H2 & H3); [by left |].
  pose proof (same_tuner_key L c (head_of g) Hn Hc H1) as Hs. rewrite H2 in Hs. destruct (decide (gkey g = key_of c)) as [E | E].
  - rewrite (proj2 Hs) by done. cbn [orb map]. f_equal. unfold head_of. cbn [gchannels]. by destruct (gchannels g).
  - destruct (same_tuner c (head_of g)); [by destruct E; symmetry; apply Hs |]. cbn [orb map]. rewrite IH by (intros; apply Hheads; by right). by destruct (existsb _ _).
Qed.
(** A group takes a tuner when its first channel does. *)
Lemma costs_takes ours l g : NoDup (map cID l) -> g ∈ groups_of l -> costs (hold_all ours) g = takes_tuner ours l (head_of g).
Proof.
  intros Hn Hg. destruct (groups_of_spec l) as [Hgr Hperm]. destruct (hold_all_spec ours) as (Hf & Hi & _). unfold costs, takes_tuner.
  pose proof (grouped_members _ Hgr) as Gm. pose proof (grouped_head _ Hgr) as Gh. rewrite Forall_forall in Gm, Gh.
  destruct (Gm g Hg) as [Hne Gk], (Gh g Hg) as (c0 & E0 & Ef & Ek & Edir). assert (c0 = head_of g) as -> by (unfold head_of; destruct (gchannels g); [done | by injection E0]).
  pose proof (head_of_in g Hne) as Hh. rewrite Forall_forall in Gk. rewrite Edir. destruct (Direct (head_of g)) eqn:Ed; [done |]. cbn [negb andb]. f_equal.
  assert (forall d, d ∈ gchannels g <-> d ∈ l /\ same_tuner (head_of g) d = true) as Hsame.
  { assert (head_of g ∈ l) as Hhl by (rewrite <- Hperm; apply elem_of_members; eauto). intros d. split.
    - intros Hd. assert (d ∈ l) as Hdl by (rewrite <- Hperm; apply elem_of_members; eauto). split; [done |]. apply (same_tuner_key l); [done | done | done |]. by rewrite !Gk.
    - intros [Hd Hs]. apply (same_tuner_key l) in Hs; [| done | done | done]. rewrite <- Hperm in Hd. apply elem_of_members in Hd as (g' & Hg' & Hd).
      by rewrite (grouped_same _ g g' _ _ Hgr Hg Hg' Hh Hd Hs). }
  apply eq_true_iff_eq. unfold on_air. rewrite orb_true_iff, andb_true_iff, bool_decide_eq_true, !existsb_exists, Hf, Ek, Ef. split.
  - intros [[Hk (t & Ht & Htd & Hpos & Htf)] | (d & Hd & Hin)].
    + exists (head_of g). rewrite <- list_elem_of_In. apply Hsame in Hh as [? ->]. split; [done |]. apply existsb_exists. exists t. rewrite <- list_elem_of_In. split; [done |].
      rewrite Htd, Hk, Htf, Z.eqb_refl. cbn. apply orb_true_r.
    + apply list_elem_of_In, Hsame in Hd as [Hd Hds]. exists d. rewrite <- list_elem_of_In, Hds. split; [done |]. apply bool_decide_eq_true, Hi in Hin as (t & Ht & Htd & Hin).
      apply existsb_exists. exists t. rewrite <- list_elem_of_In. split; [done |]. rewrite Htd. cbn. apply orb_true_iff. left. apply existsb_exists. exists (cID d). rewrite <- list_elem_of_In, Z.eqb_refl. done.
  - intros (d & Hd & [Hs Ht]%andb_true_iff). apply list_elem_of_In in Hd. assert (d ∈ gchannels g) as Hdg by (by apply Hsame).
    apply existsb_exists in Ht as (t & Ht & H1). apply list_elem_of_In in Ht. rewrite andb_true_iff, negb_true_iff, orb_true_iff, andb_true_iff, Z.ltb_lt, Z.eqb_eq in H1.
    destruct H1 as [Htd [Hin | [Hpos Hfr]]].
    + right. exists d. rewrite <- list_elem_of_In. split; [done |]. apply bool_decide_eq_true, Hi. exists t. split_and!; [done | done |].
      apply existsb_exists in Hin as (x & Hx & ->%Z.eqb_eq). by apply list_elem_of_In.
    + left. assert (FrequencyHz (head_of g) = FrequencyHz d) as Efd.
      { pose proof (Gk d Hdg) as K. rewrite <- (Gk _ Hh) in K. unfold key_of in K. rewrite Ed in K. rewrite (proj2 (Z.ltb_lt _ _) Hpos) in K.
        destruct (Direct d); [by destruct (0 <? FrequencyHz (head_of g)) |]. destruct (0 <? FrequencyHz (head_of g)); [by injection K | done]. }
      rewrite Efd. split; [by apply Z.ltb_lt |]. exists t. done.
Qed.
Lemma filter_heads (f : group -> bool) (k : PlanChannel -> bool) gs : (forall g, g ∈ gs -> f g = k (head_of g)) ->
  map head_of (List.filter f gs) = List.filter k (map head_of gs).
Proof.
  induction gs as [| g gs IH]; intros Hg; [done |]. cbn [List.filter map]. rewrite <- (Hg g) by (by left). rewrite <- IH by (intros; apply Hg; by right). by destruct (f g).
Qed.
Lemma takers_heads ours l : NoDup (map cID l) -> takers ours l = map head_of (List.filter (costs (hold_all ours)) (groups_of l)).
Proof.
  intros Hn. unfold takers. rewrite <- (heads_first l l) by done. symmetry. apply filter_heads. intros g Hg. by apply costs_takes.
Qed.

(** C32. The plan of a multiview, exactly. What is asked for is each channel once, where it
    was first named, in that order. Each of these plays or is blocked, once. Channels
    are on one tuner when they are of an antenna and on one known frequency. What is
    a link, or on a tuner that is on already (by its id or a known frequency, its own
    or that of one on its tuner), plays and takes none; of the other tuners, in the
    order of their first channels, as many play as are free, with all their channels,
    and the others are blocked with theirs. Free are the tuners that are neither held
    here, one for each known frequency and one for each tuner on none, nor by
    another app; and the tuners counted as needed and as free after are those. *)
Theorem plan_exact range want tunerCount ours foreign :
  let p := PlanMultiview range want tunerCount ours foreign in
  let l := dedupePlans want in
  let busy := holding ours + zlen foreign in
  let free := Z.max (Z.max tunerCount 0 - busy) 0 in
  let run := take (Z.to_nat free) (takers ours l) in
  let wait := drop (Z.to_nat free) (takers ours l) in
  (l `sublist_of` want /\ NoDup (map cID l) /\
   forall i c, want !! i = Some c -> cID c <> 0 -> (forall j d, (j < i)%nat -> want !! j = Some d -> cID d <> cID c) -> c ∈ l) /\
  map pID (playable p) ++ map bID (blocked p) ≡ₚ map cID l /\
  (forall c, c ∈ l -> if existsb (same_tuner c) wait then cID c ∈ map bID (blocked p) else cID c ∈ map pID (playable p)) /\
  TunersNeeded p = busy + zlen run /\ TunersFree p = free - zlen run.
Proof.
  cbv zeta. unfold PlanMultiview. cbv zeta. set (l := dedupePlans want). destruct (hold_all_spec ours) as (_ & _ & _ & <-). set (h := hold_all ours). set (free := Z.max (_ - _) 0).
  destruct (dedupe_spec want) as (Hn & Hsub & Hfirst). fold l in Hn, Hsub, Hfirst. destruct (groups_of_spec l) as [Hg Hm].
  match goal with |- context [fold_left _ (groups_of l) ?q] => pose proof (plan_fold (Z.max tunerCount 0) h (groups_of l) q ltac:(cbn [pfree]; lia)) as Hf end.
  cbv zeta in Hf. cbn [pfree pneeded pplayable pblocked map app] in Hf. set (p := fold_left _ (groups_of l) _) in *. clearbody p.
  destruct Hf as (H1 & H2 & H3 & H4). cbn [playable blocked TunersNeeded TunersFree]. rewrite Hm in H4. rewrite (takers_heads ours l Hn). fold h.
  set (cs := List.filter (costs h) (groups_of l)) in *.
  assert (forall n, zlen (take n (map head_of cs)) = zlen (take n cs)) as Hlen by (intros n; by rewrite firstn_map, zlen_map).
  rewrite Hlen. split_and!; [done | done | done | done | | done | done].
  intros c Hc. assert (existsb (same_tuner c) (drop (Z.to_nat free) (map head_of cs)) = true <-> cID c ∈ map bID (pblocked p)) as Hb.
  { rewrite H3, skipn_map, existsb_exists. setoid_rewrite <- list_elem_of_In. setoid_rewrite list_elem_of_fmap. setoid_rewrite elem_of_members.
    assert (forall g, g ∈ drop (Z.to_nat free) cs -> g ∈ groups_of l) as Hgl.
    { intros g Hgd. assert (g ∈ cs) as Hgc by (rewrite <- (take_drop (Z.to_nat free) cs); apply elem_of_app; by right). by apply list_elem_of_In, filter_In in Hgc as [Hgc%list_elem_of_In _]. }
    assert (forall g, g ∈ groups_of l -> head_of g ∈ gchannels g /\ head_of g ∈ l) as Hhead.
    { intros g Hgg. pose proof (grouped_members _ Hg) as Gm. rewrite Forall_forall in Gm. pose proof (head_of_in g (proj1 (Gm g Hgg))). split; [done |]. rewrite <- Hm. apply elem_of_members. eauto. }
    split.
    - intros (x & (g & -> & Hgd) & Hs). destruct (Hhead g (Hgl g Hgd)) as [Hh Hhl]. apply (same_tuner_key l) in Hs; [| done | done | done].
      exists c. split; [done |]. exists g. split; [done |]. rewrite <- Hm in Hc. apply elem_of_members in Hc as (g' & Hg' & Hcg).
      by rewrite (grouped_same _ g g' _ _ Hg (Hgl g Hgd) Hg' Hh Hcg (eq_sym Hs)).
    - intros (d & Ed & g & Hgd & Hdg). assert (d = c) as -> by (apply (NoDup_ids l); [done | rewrite <- Hm; apply elem_of_members; eauto | done | done]).
      destruct (Hhead g (Hgl g Hgd)) as [Hh Hhl]. exists (head_of g). split; [by exists g |]. apply (same_tuner_key l); [done | done | done |].
      pose proof (grouped_members _ Hg) as Gm. rewrite Forall_forall in Gm. destruct (Gm g (Hgl g Hgd)) as [_ Gk]. rewrite Forall_forall in Gk. by rewrite !Gk. }
  assert (cID c ∈ map pID (pplayable p) ++ map bID (pblocked p)) as Hin by (rewrite H4; by apply list_elem_of_fmap_2).
  destruct (existsb _ _); [by apply Hb |]. apply elem_of_app in Hin as [Hin | Hin]; [done |]. by apply Hb in Hin.
Qed.

(** ** Tiles that stop *)

Lemma victim_loop_spec r slots i best : match victim_loop r i slots best with
  | Some (j, s) => (Some (j, s) = best \/ (i <= j)%nat /\ slots !! (j - i)%nat = Some s /\ sdirect s = false /\ slotClaims s r = false) /\
      (forall k b, best = Some (k, b) -> maxID b <= maxID s) /\
      Forall (fun s' => sdirect s' = false -> slotClaims s' r = false -> maxID s' <= maxID s) slots
  | None => best = None /\ Forall (fun s' => sdirect s' = true \/ slotClaims s' r = true) slots
  end.
Proof.
  revert i best. induction slots as [| s slots IH]; intros i best; cbn [victim_loop].
  { destruct best as [[j s] |]; [| done]. split; [by left |]. split; [| constructor]. intros k b [= <- <-]. lia. }
  set (best' := if (sdirect s || slotClaims s r)%bool then best else _). specialize (IH (S i) best'). destruct (victim_loop r (S i) slots best') as [[j v] |].
  - destruct IH as (H1 & H2 & H3). assert (forall k b, best = Some (k, b) -> exists k' b', best' = Some (k', b') /\ maxID b <= maxID b') as Hb.
    { intros k b ->. unfold best'. destruct (_ || _)%bool; [exists k, b; split; [done | lia] |]. destruct (Z.ltb_spec (maxID b) (maxID s)); eauto with lia. }
    split_and!.
    + destruct H1 as [E | (H1a & H1b & H1c)].
      * unfold best' in E. destruct (sdirect s || slotClaims s r)%bool eqn:Es; [by left |]. apply orb_false_iff in Es as [Es1 Es2].
        destruct best as [[k b] |]; [destruct (maxID b <? maxID s); [| by left] |]; injection E as -> ->; right; rewrite Nat.sub_diag; done.
      * right. split; [lia |]. split; [| done]. replace (j - i)%nat with (S (j - S i)) by lia. done.
    + intros k b E. destruct (Hb k b E) as (k' & b' & E' & Hle). specialize (H2 k' b' E'). lia.
    + constructor; [| done]. intros Ed Ecl. unfold best' in H2. rewrite Ed, Ecl in H2. cbn [orb] in H2. destruct best as [[k b] |].
      * destruct (Z.ltb_spec (maxID b) (maxID s)); [by eapply H2 |]. specialize (H2 k b eq_refl). lia.
      * by eapply H2.
  - destruct IH as [E HF]. unfold best' in E. destruct (sdirect s || slotClaims s r)%bool eqn:Es; [| by destruct best as [[k b] |]; [case_match |]].
    split; [done |]. constructor; [by apply orb_true_iff in Es | done].
Qed.
Lemma victimSlot_Some r slots i s : victimSlot slots r = Some (i, s) ->
  slots !! i = Some s /\ sdirect s = false /\ slotClaims s r = false /\
  Forall (fun s' => sdirect s' = false -> slotClaims s' r = false -> maxID s' <= maxID s) slots.
Proof.
  intros E. pose proof (victim_loop_spec r slots 0 None) as H0. unfold victimSlot in E. rewrite E in H0. destruct H0 as ([? | (_ & H1 & H2 & H3)] & _ & H4); [done |].
  rewrite Nat.sub_0_r in H1. done.
Qed.
End plans.

Lemma NoDup_filter_ids (f : PlanChannel -> bool) l : NoDup (map cID l) -> NoDup (map cID (List.filter f l)).
Proof.
  induction l as [| c l IH]; intros Hnd; [constructor |]. cbn [map] in Hnd. apply NoDup_cons in Hnd as [Hc Hnd]. cbn [List.filter].
  destruct (f c); [| by apply IH]. cbn [map]. constructor; [| by apply IH]. intros Hin. apply Hc.
  apply list_elem_of_fmap in Hin as (c' & Ec & Hc'). rewrite Ec. apply list_elem_of_fmap_2. apply list_elem_of_In, filter_In in Hc' as [Hc' _].
  by apply list_elem_of_In.
Qed.

Section stops.
Context `{Unicode, Zone}.

Lemma plan_free range want tunerCount ours foreign : 0 <= TunersFree (PlanMultiview range want tunerCount ours foreign).
Proof.
  unfold PlanMultiview. cbv zeta. cbn [TunersFree].
  match goal with |- context [fold_left _ ?gs ?q] => destruct (plan_fold (Z.max tunerCount 0) (hold_all ours) gs q) as (-> & _); cbn [pfree]; [lia |] end.
  rewrite zlen_take. lia.
Qed.

(** What is left of the slots, what stopped, and whose recordings did it. *)
Record stopped (slots0 : list channelSlot) (rs : list Reservation) (p : picking) : Prop := {
  stopped_free : 0 <= kfree p;
  stopped_ids : map sID (kstops p) ++ map cID (concat (map schannels (kslots p))) ≡ₚ map cID (concat (map schannels slots0));
  stopped_slots : kslots p ⊆ slots0;
  stopped_why : Forall (fun st => exists s c r, s ∈ slots0 /\ c ∈ schannels s /\ cID c = sID st /\ sdirect s = false /\
    r ∈ rs /\ sat st = At r /\ slotClaims s r = false /\ Direct (Channel r) = false) (kstops p);
  stopped_used : kstops p <> [] -> kfree p = 0;
}.

Lemma delete_concat {A B} (f : A -> list B) (l : list A) i x : l !! i = Some x -> concat (map f l) ≡ₚ f x ++ concat (map f (delete i l)).
Proof.
  revert i. induction l as [| y l IH]; intros [| i] E; try done; [by injection E as -> |]. cbn [delete list_delete map concat]. rewrite (IH i E).
  rewrite !app_assoc. apply Permutation_app_tail, Permutation_app_comm.
Qed.

Lemma reserve_stopped slots0 rs now p r : r ∈ rs -> stopped slots0 rs p -> stopped slots0 rs (reserve now p r).
Proof.
  intros Hr Hp. unfold reserve. destruct (_ || _)%bool eqn:Eh; [destruct Hp; by split |].
  rewrite !orb_false_iff in Eh. destruct Eh as ((Ed & _) & _).
  destruct Hp as [H1 H2 H3 H4 H5]. destruct (Z.ltb_spec 0 (kfree p)).
  { split; try done; cbn; [lia |]. intros Hn. specialize (H5 Hn). lia. }
  destruct (victimSlot (kslots p) r) as [[i s] |] eqn:Ev; [| by split].
  destruct (victimSlot_Some _ _ _ _ Ev) as (Hi & Hsd & Hsc & _). assert (s ∈ kslots p) as Hs by (by eapply list_elem_of_lookup_2).
  split; cbn [keep_station kfree kstops kslots].
  - done.
  - rewrite <- H2, (delete_concat schannels (kslots p) i s Hi), !map_app, map_map. cbn [sID]. rewrite <- !app_assoc. done.
  - intros s' Hs'. apply H3. revert s' Hs'. apply sublist_subseteq, sublist_delete.
  - apply Forall_app. split; [done |]. apply Forall_forall. intros st Hst. apply list_elem_of_fmap in Hst as (c & -> & Hc).
    exists s, c, r. cbn [sID sat]. split_and!; try done. by apply H3.
  - intros _. lia.
Qed.
Lemma reserve_all slots0 rs now l p : l ⊆ rs -> stopped slots0 rs p -> stopped slots0 rs (fold_left (reserve now) l p).
Proof.
  revert p. induction l as [| r l IH]; intros p Hl Hp; [done |]. cbn [fold_left]. apply IH; [set_solver |]. apply reserve_stopped; [set_solver | done].
Qed.

(** A slot that a recording does not claim is not on its station. *)
Lemma unclaimed l s c r : s ∈ slotsOf l -> c ∈ schannels s -> sdirect s = false -> slotClaims s r = false ->
  c ∈ l /\ Direct c = false /\ cID c <> cID (Channel r) /\ (0 < FrequencyHz (Channel r) -> FrequencyHz c <> FrequencyHz (Channel r)).
Proof.
  intros Hs Hc Hd Hcl. unfold slotsOf in Hs. apply list_elem_of_fmap in Hs as (g & -> & Hg). cbn [slot_of schannels sdirect] in *.
  destruct (groups_of_spec l) as [[_ Gm Gh] Hm]. rewrite Forall_forall in Gm, Gh. destruct (Gm g Hg) as [_ Gk]. destruct (Gh g Hg) as (c0 & E0 & Ef & Ek & Edir).
  rewrite Forall_forall in Gk. assert (c0 ∈ gchannels g) as Hc0 by (destruct (gchannels g); [done |]; injection E0 as ->; apply list_elem_of_here).
  pose proof (Gk c Hc) as K. rewrite <- (Gk c0 Hc0) in K. unfold key_of in K. rewrite <- Edir, Hd in K.
  unfold slotClaims, slot_of in Hcl. cbn [sknown sfreq schannels] in Hcl. apply orb_false_iff in Hcl as [C1 C2].
  split; [rewrite <- Hm; apply elem_of_members; eauto |].
  assert (Direct c = false) as Edc by (by destruct (Direct c), (0 <? FrequencyHz c0)). split; [done |]. rewrite Edc in K. split.
  - intros E. assert (existsb (fun c => cID c =? cID (Channel r)) (gchannels g) = true) as Ht; [| congruence].
    apply existsb_exists. exists c. rewrite <- list_elem_of_In. split; [done | by apply Z.eqb_eq].
  - intros Hf E. rewrite E in K. rewrite (proj2 (Z.ltb_lt 0 _) Hf) in K. destruct (Z.ltb_spec 0 (FrequencyHz c0)) as [H0' |]; [| done]. injection K as K.
    assert (FrequencyHz c0 = FrequencyHz (Channel r)) as K' by congruence.
    rewrite Ek, Ef, K', Hd, (proj2 (Z.ltb_lt 0 _) Hf), Z.eqb_refl in C1. done.
Qed.

(** C33. What a coming recording may stop. Each tile the picker says will stop is a
    tile of the multiview that plays now, said once; it is not a link; the
    recording that stops it is one of those reserved, at the time said, of another
    channel and not on the tile's own frequency. None stops while a tuner is free:
    then no further channel is offered a tuner of its own, only one that a
    recording takes. *)
Theorem stops_are_needed range current candidates tunerCount ours foreign reserved now :
  let offers := fst (Picker range current candidates tunerCount ours foreign reserved now) in
  let stops := snd (Picker range current candidates tunerCount ours foreign reserved now) in
  let base := PlanMultiview range (dedupePlans current) tunerCount ours foreign in
  NoDup (map sID stops) /\
  (forall st, st ∈ stops -> exists c r, c ∈ dedupePlans current /\ cID c = sID st /\ cID c ∈ map pID (playable base) /\ Direct c = false /\
     r ∈ reserved /\ sat st = At r /\ Direct (Channel r) = false /\ cID c <> cID (Channel r) /\
     (0 < FrequencyHz (Channel r) -> FrequencyHz c <> FrequencyHz (Channel r))) /\
  (stops <> [] -> forall i c o, candidates !! i = Some c -> offers !! i = Some o -> Cost o = Tuner -> matchesReservation c reserved = true).
Proof.
  cbv zeta. unfold Picker. cbv zeta. cbn [fst snd].
  set (base := PlanMultiview range (dedupePlans current) tunerCount ours foreign).
  set (onAir := List.filter _ (dedupePlans current)). set (rs := sort_by _ reserved).
  match goal with |- context [fold_left (reserve now) rs ?q] => set (p0 := q) end. set (p := fold_left (reserve now) rs p0).
  assert (rs ≡ₚ reserved) as Hrs by apply sort_by_perm.
  assert (stopped (slotsOf onAir) rs p) as [S1 S2 S3 S4 S5].
  { apply reserve_all; [done |]. split; cbn [p0 kfree kstops kslots]; try done.
    apply plan_free. }
  assert (onAir ⊆ dedupePlans current) as Hon by (intros c Hc; apply list_elem_of_In, filter_In in Hc as [Hc _]; by apply list_elem_of_In).
  destruct (dedupe_spec current) as (Hnd & _ & _).
  assert (NoDup (map cID onAir)) as Hnon by (by apply NoDup_filter_ids).
  split_and!.
  - rewrite members_slots in S2. destruct (groups_of_spec onAir) as [_ Hm]. rewrite Hm in S2.
    rewrite <- S2 in Hnon. by apply NoDup_app in Hnon as (? & _).
  - intros st Hst. rewrite Forall_forall in S4. destruct (S4 st Hst) as (s & c & r & Hs & Hc & Ec & Hd & Hr & Hat & Hcl & Hdr).
    destruct (unclaimed onAir s c r Hs Hc Hd Hcl) as (Hcl' & Hdc & Hne & Hfr). exists c, r. rewrite <- Hrs. split_and!; try done; [by apply Hon |].
    unfold onAir in Hcl'. apply list_elem_of_In, filter_In in Hcl' as [_ He]. apply existsb_exists in He as (q & Hq & Eq). apply Z.eqb_eq in Eq. rewrite <- Eq.
    apply list_elem_of_fmap_2. by apply list_elem_of_In.
  - intros Hn i c o Hi Ho Eo. rewrite list_lookup_fmap, Hi in Ho. injection Ho as <-. specialize (S5 Hn). unfold offerFor in Eo. rewrite S5 in Eo.
    destruct (_ || _)%bool; [done |]. destruct (partnerLabel _ _ _ _); [done |]. destruct (existsb _ ours); [done |].
    destruct (matchesReservation c rs) eqn:Em; [| done]. unfold matchesReservation in *. apply existsb_exists in Em as (r & Hr & Er).
    apply existsb_exists. exists r. split; [| done]. apply list_elem_of_In. rewrite <- Hrs. by apply list_elem_of_In.
Qed.
End stops.

(** Two tuners, one held by another app: of three channels, the two on one frequency
    play and the third is blocked. *)
Example plan_example :
  let c id hz n := mkChannel id hz (lit n) [] false in
  let p := @PlanMultiview ascii_unicode map_to_list [c 1 533000000 "4.1"; c 2 569000000 "7.1"; c 3 533000000 "4.2"] 2 [] [lit "9.1"] in
  map pID (playable p) = [1; 3] /\ map bID (blocked p) = [2] /\ TunersNeeded p = 2 /\ TunersFree p = 0 /\
  Note p = lit "4.1 and 4.2 share one tuner." /\ map breason (blocked p) = [lit "Both tuners are busy. 9.1, 4.1, and 4.2 are on."].
Proof. vm_compute. done. Qed.
