(* ===== verification/Rooms.v ===== *)
(** Watch rooms, [server/internal/realtime/rooms.go]: the frame every screen of a
    room shows, and what its controls and its screens do to it.

    Times of the wall are instants of [GoText], read off a clock the caller gives;
    media times are [float64] milliseconds, a product and a sum rounded each on its
    own (a compiler that fuses them may place a room a bit of the float away). The
    lock makes each method one step; a Go map is a [gmap], and the order [Settle]
    walks it in is an argument. The names of the screens, which the message bus
    puts in a frame, are left out. *)
From S2P Require Import Prelude GoNum GoText GoFloat.
Local Open Scope Z_scope.
Local Open Scope go_scope.

Notation text := (list Z) (only parsing).
Notation float := spec_float (only parsing).

Definition Millisecond : Z := 1000000.

(** [latencies] *)
Definition latencies (l : text) : option Z :=
  if says l "lowest" then Some (6 * Second) else if says l "balanced" then Some (16 * Second)
  else if says l "stable" then Some (20 * Second) else None.
Definition balanced : text := lit "balanced".
Definition latency_of (l : text) : Z := default (16 * Second) (latencies l).

(** Go's [min] and [max] of two floats *)
Definition is_nan (f : float) : bool := match f with S754_nan => true | _ => false end.
Definition negative (f : float) : bool := match f with S754_zero s | S754_infinity s | S754_finite s _ _ => s | S754_nan => false end.
Definition fmin (a b : float) : float :=
  if (is_nan a || is_nan b)%bool then S754_nan else if SFltb b a then b else if SFltb a b then a else if negative b then b else a.
Definition fmax (a b : float) : float :=
  if (is_nan a || is_nan b)%bool then S754_nan else if SFltb a b then b else if SFltb b a then a else if negative b then a else b.

Inductive mode := Follow | Group.
Record RoomState := mkRoom {
  Room : text; ChannelID : Z; Mode : mode; AnchorServer : float; AnchorMedia : float; Rate : float;
  Latency : text; LatencyMS : float; Version : Z; Members : Z; Synced : bool;
}.
(** [Target]: the media time the room shows at server time [now]. *)
Definition Target (s : RoomState) (now : float) : float :=
  fadd (AnchorMedia s) (fmul (fsub now (AnchorServer s)) (Rate s)).

Inductive action := APlay | APause | ASeek | ALive | ALatency | AStalled | AAhead | ABehind | ASyncAll | AOther.
Record Command := mkCommand { Action : action; MediaTime : float; cLatency : text }.
Inductive failure := NotInRoom | BadLatency | ErrFollowRoom | UnknownAction.

Record Rooms := mkRooms {
  rooms : gmap text RoomState; stepped : gmap text Z; born : gmap text Z; measured : gset text;
}.
Definition NewRooms : Rooms := mkRooms ∅ ∅ ∅ ∅.
Definition set_room (r : Rooms) (name : text) (s : RoomState) : Rooms :=
  mkRooms (<[name := s]> (rooms r)) (stepped r) (born r) (measured r).

Definition stallStep : Z := 2 * Second.
Definition stallQuiet : Z := 3 * Second.
Definition startCushion : Z := 1500 * Millisecond.
Definition youngTune : Z := 4 * Second.
Definition tileCushion : Z := startCushion + stallStep.
Definition youngRoom : Z := 30 * Second.
Definition aheadMin : Z := 3000 * Millisecond.
Definition behindMin : Z := 300 * Millisecond.
Definition measureMargin : Z := 2500 * Millisecond.
Definition soloMargin : Z := 500 * Millisecond.
Definition settleRate : float := const 975 3.
Definition one : float := float64 1.
#[global] Arguments one : simpl never.
#[global] Arguments settleRate : simpl never.
(** [float64(d / time.Millisecond)] *)
Definition in_ms (d : Z) : float := float64 (Z.quot d Millisecond).

Definition unixMS (t : Z) : float := fdiv (float64 (int64 (t - unix_epoch * Second))) (float64 1000000).
Definition latencyMS (l : text) : float := in_ms (latency_of l).
Definition liveAnchor (now : Z) (l : text) : float := unixMS (now - latency_of l).

#[global] Arguments unixMS : simpl never.
#[global] Arguments latencyMS : simpl never.
#[global] Arguments liveAnchor : simpl never.

Definition isMultiview (room : text) : bool := has_prefix (lit "multiview:") room.
Definition isGroup (room : text) : bool := has_prefix (lit "group:") room.

(** A room at a new place, rate or latency: its version moves. *)
Definition moved (s : RoomState) (server media rate : float) : RoomState :=
  mkRoom (Room s) (ChannelID s) (Mode s) server media rate (Latency s) (LatencyMS s) (Version s + 1) (Members s) (Synced s).
Definition with_members (s : RoomState) (n : Z) : RoomState :=
  mkRoom (Room s) (ChannelID s) (Mode s) (AnchorServer s) (AnchorMedia s) (Rate s) (Latency s) (LatencyMS s) (Version s) n (Synced s).
Definition synced (s : RoomState) : RoomState :=
  mkRoom (Room s) (ChannelID s) (Mode s) (AnchorServer s) (AnchorMedia s) (Rate s) (Latency s) (LatencyMS s) (Version s + 1) (Members s) true.
(** A place without a new version, after one that had it *)
Definition placed (s : RoomState) (server media : float) : RoomState :=
  mkRoom (Room s) (ChannelID s) (Mode s) server media (Rate s) (Latency s) (LatencyMS s) (Version s) (Members s) (Synced s).

Section joining.
Context `{FloatText}.

(** A new room, whose first frame is [earliest] if the channel cannot play where the
    latency would have it. *)
Definition new_room (room : text) (channelID : Z) (earliest : float) (latency : text) (now : Z) : RoomState :=
  let latency := match latencies latency with Some _ => latency | None => balanced end in
  let m := if (isGroup room || isMultiview room)%bool then Group else Follow in
  let media := liveAnchor now latency in
  let server := unixMS now in
  let ' (server, media) :=
    if SFltb media earliest then
      let cushion := if isMultiview room then tileCushion else startCushion in
      let age := truncated (fmul (fsub server earliest) (float64 Millisecond)) in
      let wait := Z.max 0 (cushion - Z.max 0 (int64 (age - youngTune))) in
      (fadd server (in_ms wait), earliest)
    else (server, media) in
  mkRoom room channelID m server media one latency (latencyMS latency) 1 0 false.
Definition JoinAt (r : Rooms) (room : text) (channelID : Z) (earliest : float) (latency : text) (now : Z) : Rooms * RoomState :=
  match rooms r !! room with
  | Some s => let s := with_members s (Members s + 1) in (set_room r room s, s)
  | None =>
      let s := with_members (new_room room channelID earliest latency now) 1 in
      (mkRooms (<[room := s]> (rooms r)) (stepped r) (<[room := now]> (born r)) (measured r), s)
  end.
Definition Join (r : Rooms) (room : text) (channelID : Z) (earliest : float) (now : Z) : Rooms * RoomState :=
  JoinAt r room channelID earliest balanced now.

(** The last one out forgets the room. *)
Definition Leave (r : Rooms) (room : text) : Rooms :=
  match rooms r !! room with
  | None => r
  | Some s =>
      let s := with_members s (Members s - 1) in
      if Members s <=? 0 then
        mkRooms (delete room (rooms r)) (delete room (stepped r)) (delete room (born r)) (measured r ∖ {[room]})
      else set_room r room s
  end.

(** ** Screens that stall, and screens that measure *)

Definition stepBackLocked (r : Rooms) (room : text) (s : RoomState) (now : Z) : Rooms * RoomState :=
  let solo := match Mode s with Follow => Members s =? 1 | Group => false end in
  if ((negb solo && negb (isMultiview room)) || SFeqb (Rate s) f0)%bool then (r, s) else
  if sub_time now (default 0 (stepped r !! room)) <? stallQuiet then (r, s) else
  let nowMS := unixMS now in
  let floor := liveAnchor now (Latency s) in
  let current := Target s nowMS in
  if SFleb current floor then (r, s) else
  let s := moved s nowMS (fmax (fsub current (in_ms stallStep)) floor) (Rate s) in
  (mkRooms (<[room := s]> (rooms r)) (<[room := now]> (stepped r)) (born r) (measured r), s).

(** One screen in a multiview tile's own room, [multiview:ID:CHANNEL] *)
Definition soloTile (room : text) (s : RoomState) : bool :=
  ((Members s =? 1) && isMultiview room && (zlen (List.filter (Z.eqb 58) room) =? 2))%bool.
Definition measureLocked (r : Rooms) (room : text) (s : RoomState) (ahead : bool) (media : float) (now : Z) : Rooms * RoomState :=
  let follows := match Mode s with Follow => true | Group => false end in
  if ((negb follows && negb (soloTile room s)) || negb (SFeqb (Rate s) one) || SFleb media f0)%bool then (r, s) else
  let nowMS := unixMS now in
  let current := Target s nowMS in
  let margin := if Members s <=? 1 then soloMargin else measureMargin in
  let to := fmin (fsub media (in_ms margin)) (unixMS (now - 6 * Second)) in
  let stays :=
    if ahead then ((youngRoom <? sub_time now (default 0 (born r !! room))) || SFltb (fsub media current) (in_ms aheadMin) || SFleb to current)%bool
    else (negb (bool_decide (room ∈ measured r)) || SFltb (fsub current media) (in_ms behindMin))%bool in
  if stays then (r, s) else
  let s := moved s nowMS to (Rate s) in
  (mkRooms (<[room := s]> (rooms r)) (stepped r) (born r) ({[room]} ∪ measured r), s).

(** ** The latency *)

Definition setLatencyLocked (s : RoomState) (latency : text) (now : Z) : RoomState :=
  let ' (server, media, rate) := match Mode s with
                                 | Follow => (unixMS now, liveAnchor now latency, one)
                                 | Group => (AnchorServer s, AnchorMedia s, Rate s)
                                 end in
  mkRoom (Room s) (ChannelID s) (Mode s) server media rate latency (latencyMS latency) (Version s + 1) (Members s) (Synced s).
Definition Floor (r : Rooms) (room latency : text) (now : Z) : Rooms * option RoomState :=
  match rooms r !! room with
  | None => (r, None)
  | Some s =>
      if (bool_decide (room ∈ measured r) || SFleb (latencyMS latency) (latencyMS (Latency s)))%bool then (r, None) else
      let s := setLatencyLocked s latency now in
      let floor := liveAnchor now latency in
      let s := match Mode s with
               | Follow => s
               | Group => if SFltb floor (Target s (unixMS now)) then placed s (unixMS now) floor else s
               end in
      (set_room r room s, Some s)
  end.

(** ** Commands *)

Definition Apply (r : Rooms) (room : text) (c : Command) (now : Z) : Rooms * (RoomState + failure) :=
  match rooms r !! room with
  | None => (r, inr NotInRoom)
  | Some s =>
      let nowMS := unixMS now in
      let current := Target s nowMS in
      let put s := (set_room r room s, inl s) in
      match Action c with
      | ALatency =>
          match latencies (cLatency c) with
          | None => (r, inr BadLatency)
          | Some _ =>
              let s := setLatencyLocked s (cLatency c) now in
              (mkRooms (<[room := s]> (rooms r)) (stepped r) (born r) (measured r ∖ {[room]}), inl s)
          end
      | AStalled => let ' (r, s) := stepBackLocked r room s now in (r, inl s)
      | ASyncAll => if Synced s then (r, inl s) else put (synced s)
      | AAhead => let ' (r, s) := measureLocked r room s true (MediaTime c) now in (r, inl s)
      | ABehind => let ' (r, s) := measureLocked r room s false (MediaTime c) now in (r, inl s)
      | _ =>
          match Mode s with
          | Follow => (r, inr ErrFollowRoom)
          | Group =>
              match Action c with
              | APause => put (moved s nowMS current f0)
              | APlay => put (moved s nowMS current one)
              | ASeek =>
                  let limit := liveAnchor now (Latency s) in
                  put (moved s nowMS (if SFltb limit (MediaTime c) then limit else MediaTime c) (Rate s))
              | ALive => put (moved s nowMS (liveAnchor now (Latency s)) one)
              | _ => (r, inr UnknownAction)
              end
          end
      end
  end.

(** ** Rooms that ease back *)

Record Easing := mkEasing { State : RoomState; Until : Z }.
Definition settle_room (r : Rooms) (channelID : Z) (earliest : float) (ease : bool) (room : text) (now : Z) : Rooms * option Easing :=
  match rooms r !! room with
  | None => (r, None)
  | Some s =>
      let target := liveAnchor now (Latency s) in
      let nowMS := unixMS now in
      if SFltb target earliest then (r, None) else
      let gap := fsub (Target s nowMS) target in
      if SFleb gap (float64 500) then (r, None) else
      if negb ease then let s := moved s nowMS target (Rate s) in (set_room r room s, Some (mkEasing s 0)) else
      let s := moved s nowMS (Target s nowMS) settleRate in
      (set_room r room s, Some (mkEasing s (truncated (fmul (fdiv gap (const 25 3)) (float64 Millisecond)))))
  end.
(** Whether [Settle] looks at the room at all *)
Definition settles (r : Rooms) (channelID : Z) (ease : bool) (room : text) : bool :=
  match rooms r !! room with
  | None => false
  | Some s =>
      ((ChannelID s =? channelID) && match Mode s with Follow => true | Group => false end && SFeqb (Rate s) one &&
       negb (bool_decide (Room s ∈ measured r)) && negb (ease && (Members s <? 2)))%bool
  end.
(** The clock is read for each room it looks at. *)
Fixpoint settle_loop (clock : nat -> Z) (r : Rooms) (channelID : Z) (earliest : float) (eases : text -> bool) (order : list text) (reads : nat)
    : Rooms * list Easing :=
  match order with
  | [] => (r, [])
  | room :: order =>
      if settles r channelID (eases room) room then
        let ' (r, e) := settle_room r channelID earliest (eases room) room (clock reads) in
        let ' (r, l) := settle_loop clock r channelID earliest eases order (S reads) in
        (r, match e with Some e => e :: l | None => l end)
      else settle_loop clock r channelID earliest eases order reads
  end.
Definition Settle (clock : nat -> Z) (r : Rooms) (channelID : Z) (earliest : float) (eases : text -> bool) (order : list text)
    : Rooms * list Easing :=
  if SFleb earliest f0 then (r, []) else settle_loop clock r channelID earliest eases order 0.

Definition EndEase (r : Rooms) (room : text) (version : Z) (now : Z) : Rooms * option RoomState :=
  match rooms r !! room with
  | None => (r, None)
  | Some s =>
      if (negb (Version s =? version) || negb (SFeqb (Rate s) settleRate))%bool then (r, None) else
      let nowMS := unixMS now in
      let s := moved s nowMS (Target s nowMS) one in
      (set_room r room s, Some s)
  end.

(** ** Questions *)

Definition Groups (r : Rooms) (order : list (text * RoomState)) : list RoomState :=
  sort_by (fun a b => text_ltb (Room a) (Room b)) (map snd (List.filter (fun p => isGroup (fst p)) order)).
Definition OnChannel (order : list (text * RoomState)) (channelID : Z) : list text :=
  map fst (List.filter (fun p => ChannelID (snd p) =? channelID) order).
Definition state_of (r : Rooms) (room : text) : option RoomState := rooms r !! room.
End joining.

(** * Proofs *)

(** ** Steps *)

Section steps.
Context `{FloatText}.

(** Any of the methods, by any screen or channel, at any time. *)
Inductive step (r : Rooms) : Rooms -> Prop :=
  | step_join room ch earliest latency now : step r (fst (JoinAt r room ch earliest latency now))
  | step_leave room : step r (Leave r room)
  | step_apply room c now : step r (fst (Apply r room c now))
  | step_floor room latency now : is_Some (latencies latency) -> step r (fst (Floor r room latency now))
  | step_settle clock ch earliest eases order : step r (fst (Settle clock r ch earliest eases order))
  | step_end_ease room version now : step r (fst (EndEase r room version now)).
Inductive reach : Rooms -> Prop :=
  | reach_new : reach NewRooms
  | reach_step r r' : reach r -> step r r' -> reach r'.

(** *** What a room is *)

Definition rate_ok (s : RoomState) : Prop :=
  match Mode s with Follow => Rate s = one \/ Rate s = settleRate | Group => Rate s = one \/ Rate s = f0 end.
Record room_ok (name : text) (s : RoomState) : Prop := {
  ok_name : Room s = name; ok_members : 1 <= Members s; ok_version : 1 <= Version s;
  ok_latency : is_Some (latencies (Latency s)); ok_ms : LatencyMS s = latencyMS (Latency s);
  ok_mode : Mode s = if (isGroup name || isMultiview name)%bool then Group else Follow; ok_rate : rate_ok s;
}.
(** Nothing is kept of a room that is gone. *)
Record sound (r : Rooms) : Prop := {
  sound_rooms : forall name s, rooms r !! name = Some s -> room_ok name s;
  sound_born : dom (born r) = dom (rooms r); sound_stepped : dom (stepped r) ⊆ dom (rooms r); sound_measured : measured r ⊆ dom (rooms r);
}.

(** A room replaced by a sound one leaves all sound. *)
Lemma sound_set r name s s' st me : sound r -> rooms r !! name = Some s -> room_ok name s' ->
  dom st ⊆ {[name]} ∪ dom (stepped r) -> me ⊆ {[name]} ∪ measured r -> sound (mkRooms (<[name := s']> (rooms r)) st (born r) me).
Proof.
  intros [H1 H2 H3 H4] Hs Hok Hst Hme. assert (name ∈ dom (rooms r)) as Hd by (by eapply elem_of_dom_2). split; cbn.
  - intros n x. rewrite lookup_insert. case_decide; [subst; by intros [= <-] | apply H1].
  - rewrite dom_insert_L. set_solver.
  - rewrite dom_insert_L. set_solver.
  - rewrite dom_insert_L. set_solver.
Qed.
Lemma sound_put r name s s' : sound r -> rooms r !! name = Some s -> room_ok name s' -> sound (set_room r name s').
Proof. intros Hr Hs Hok. eapply sound_set; try done; set_solver. Qed.

Lemma moved_ok name s server media rate : room_ok name s -> (Rate s = rate \/ rate = one \/ rate = match Mode s with Follow => settleRate | Group => f0 end) ->
  room_ok name (moved s server media rate).
Proof.
  intros [H1 H2 H3 H4 H5 H6 H7] Hr. split; cbn; try done; [lia |]. unfold rate_ok in *. cbn. destruct (Mode s), Hr as [<- | [-> | ->]]; auto.
Qed.
Lemma members_ok name s n : room_ok name s -> 1 <= n -> room_ok name (with_members s n).
Proof. intros [H1 H2 H3 H4 H5 H6 H7] Hn. by split. Qed.
Lemma latency_ok name s l now : room_ok name s -> is_Some (latencies l) -> room_ok name (setLatencyLocked s l now).
Proof.
  intros [H1 H2 H3 H4 H5 H6 H7] Hl. unfold setLatencyLocked. unfold rate_ok in H7.
  destruct (Mode s) eqn:E; (split; cbn; try done; try lia); unfold rate_ok; cbn; rewrite ?E; auto.
Qed.

Lemma new_room_ok room ch earliest latency now n : 1 <= n -> room_ok room (with_members (new_room room ch earliest latency now) n).
Proof.
  intros Hn. unfold new_room. destruct (SFltb _ _); (split; cbn; try done; [by destruct (latencies latency) eqn:E; rewrite ?E |]);
    unfold rate_ok; cbn; by destruct (isGroup room || isMultiview room)%bool; left.
Qed.

(** *** What the methods leave *)

(** A method's outcome for one room: it stays, or it is replaced by one of a higher
    version; the other rooms stay. *)
Record changes (name : text) (r r' : Rooms) : Prop := {
  changes_sound : sound r -> sound r';
  changes_others : forall n, n <> name -> rooms r' !! n = rooms r !! n;
  changes_room : rooms r' !! name = rooms r !! name \/ exists s s', rooms r !! name = Some s /\ rooms r' !! name = Some s' /\ Version s < Version s';
}.
Lemma changes_none name r : changes name r r.
Proof. split; auto. Qed.
Lemma changes_to name r s s' st me : rooms r !! name = Some s -> (room_ok name s -> room_ok name s') -> Version s < Version s' ->
  dom st ⊆ {[name]} ∪ dom (stepped r) -> me ⊆ {[name]} ∪ measured r -> changes name r (mkRooms (<[name := s']> (rooms r)) st (born r) me).
Proof.
  intros Hs Hok Hv Hst Hme. split.
  - intros Hr. eapply sound_set; try done. apply Hok. by apply (sound_rooms _ Hr).
  - intros n Hn. cbn. by apply lookup_insert_ne.
  - right. exists s, s'. cbn. by rewrite lookup_insert_eq.
Qed.
Lemma room_changes_put name r s s' : rooms r !! name = Some s -> (room_ok name s -> room_ok name s') -> Version s < Version s' -> changes name r (set_room r name s').
Proof. intros Hs Hok Hv. apply (changes_to name r s); try done; set_solver. Qed.

Hint Extern 4 (room_ok _ _) => (eapply moved_ok || eapply latency_ok) : rooms.
Hint Extern 2 (_ < _)%Z => (cbn; lia) : rooms.

Lemma step_back_changes r name s now : rooms r !! name = Some s -> changes name r (fst (stepBackLocked r name s now)).
Proof.
  intros Hs. unfold stepBackLocked. destruct (_ || _)%bool; [apply changes_none |]. destruct (_ <? _); [apply changes_none |].
  destruct (SFleb _ _); [apply changes_none |]. apply (changes_to name r s); [done | | cbn; lia | rewrite dom_insert_L; set_solver | set_solver].
  intros Hok. apply moved_ok; auto.
Qed.
Lemma measure_changes r name s ahead media now : rooms r !! name = Some s -> changes name r (fst (measureLocked r name s ahead media now)).
Proof.
  intros Hs. unfold measureLocked. destruct (_ || _ || _)%bool; [apply changes_none |]. destruct (if ahead then _ else _)%bool; [apply changes_none |].
  apply (changes_to name r s); [done | | cbn; lia | set_solver | set_solver]. intros Hok. apply moved_ok; auto.
Qed.
Lemma apply_changes r name c now : changes name r (fst (Apply r name c now)).
Proof.
  unfold Apply. destruct (rooms r !! name) as [s |] eqn:Hs; [| apply changes_none].
  assert (forall server media rate, Rate s = rate \/ rate = one \/ rate = match Mode s with Follow => settleRate | Group => f0 end ->
    changes name r (set_room r name (moved s server media rate))) as Hm.
  { intros server media rate Hr. apply (room_changes_put name r s); [done | | cbn; lia]. intros Hok. by apply moved_ok. }
  destruct (Action c) eqn:Ea; try (destruct (Mode s) eqn:Em; [apply changes_none |]; first [apply changes_none | cbn [fst]; apply Hm; auto; fail]).
  - destruct (latencies (cLatency c)) eqn:El; [| apply changes_none]. cbn [fst]. apply (changes_to name r s); [done | | | set_solver | set_solver].
    + intros Hok. apply latency_ok; [done | by rewrite El].
    + unfold setLatencyLocked. destruct (Mode s); cbn; lia.
  - pose proof (step_back_changes r name s now Hs) as Hc. by destruct (stepBackLocked r name s now).
  - pose proof (measure_changes r name s true (MediaTime c) now Hs) as Hc. by destruct (measureLocked r name s true (MediaTime c) now).
  - pose proof (measure_changes r name s false (MediaTime c) now Hs) as Hc. by destruct (measureLocked r name s false (MediaTime c) now).
  - destruct (Synced s); [apply changes_none |]. apply (room_changes_put name r s); [done | | cbn; lia]. intros [H1 H2 H3 H4 H5 H6 H7]. split; try done. cbn. lia.
Qed.
Lemma floor_changes r name l now : is_Some (latencies l) -> changes name r (fst (Floor r name l now)).
Proof.
  intros Hl. unfold Floor. destruct (rooms r !! name) as [s |] eqn:Hs; [| apply changes_none]. destruct (_ || _)%bool; [apply changes_none |].
  cbn [fst]. set (s1 := setLatencyLocked s l now). assert (Version s1 = Version s + 1) as Hv by (unfold s1, setLatencyLocked; by destruct (Mode s)).
  apply (room_changes_put name r s); [done | | destruct (Mode s1); [| destruct (SFltb _ _)]; cbn; lia].
  intros Hok. pose proof (latency_ok name s l now Hok Hl) as Hok1. fold s1 in Hok1. destruct (Mode s1) eqn:Em; [done |]. destruct (SFltb _ _); [| done].
  destruct Hok1 as [H1 H2 H3 H4 H5 H6 H7]. split; try done.
Qed.
Lemma settle_changes r ch earliest ease name now : settles r ch ease name = true -> changes name r (fst (settle_room r ch earliest ease name now)).
Proof.
  unfold settles, settle_room. destruct (rooms r !! name) as [s |] eqn:Hs; [| intros _; apply changes_none].
  intros Hset. rewrite !andb_true_iff in Hset. destruct Hset as ((((_ & Hm) & _) & _) & _). destruct (Mode s) eqn:Em; [| done].
  destruct (SFltb _ _); [apply changes_none |]. destruct (SFleb _ _); [apply changes_none |].
  destruct ease; cbn [negb fst]; (apply (room_changes_put name r s); [done | | cbn; lia]); intros Hok; apply moved_ok; auto. rewrite Em. auto.
Qed.
Lemma end_ease_changes r name v now : changes name r (fst (EndEase r name v now)).
Proof.
  unfold EndEase. destruct (rooms r !! name) as [s |] eqn:Hs; [| apply changes_none]. destruct (_ || _)%bool; [apply changes_none |].
  cbn [fst]. apply (room_changes_put name r s); [done | | cbn; lia]. intros Hok. apply moved_ok; auto.
Qed.

Lemma join_sound r name ch earliest l now : sound r -> sound (fst (JoinAt r name ch earliest l now)).
Proof.
  intros Hr. unfold JoinAt. destruct (rooms r !! name) as [s |] eqn:Hs; cbn [fst].
  - apply (sound_put r name s); [done | done |]. pose proof (sound_rooms _ Hr _ _ Hs) as Hok. apply members_ok; [done |]. pose proof (ok_members _ _ Hok). lia.
  - destruct Hr as [H1 H2 H3 H4]. split; cbn.
    + intros n x. rewrite lookup_insert. case_decide; [subst; intros [= <-]; by apply new_room_ok | apply H1].
    + rewrite !dom_insert_L. set_solver.
    + rewrite dom_insert_L. set_solver.
    + rewrite dom_insert_L. set_solver.
Qed.
Lemma leave_sound r name : sound r -> sound (Leave r name).
Proof.
  intros Hr. unfold Leave. destruct (rooms r !! name) as [s |] eqn:Hs; [| done]. destruct (Z.leb_spec (Members (with_members s (Members s - 1))) 0) as [Hm | Hm].
  - destruct Hr as [H1 H2 H3 H4]. split; cbn; rewrite ?dom_delete_L; try set_solver. intros n x Hn. apply lookup_delete_Some in Hn as [_ Hn]. by apply H1.
  - apply (sound_put r name s); [done | done |]. apply members_ok; [by apply (sound_rooms _ Hr) |]. cbn in Hm. lia.
Qed.

(** *** Versions *)

(** Two states of a room with one version are one state, but for who is in it. *)
Definition newer (s s' : RoomState) : Prop := Version s < Version s' \/ exists n, s' = with_members s n.
Definition advances (r r' : Rooms) : Prop :=
  forall name s s', rooms r !! name = Some s -> rooms r' !! name = Some s' -> newer s s'.

Lemma same_newer s : newer s s.
Proof. right. exists (Members s). by destruct s. Qed.
Lemma newer_trans s1 s2 s3 : newer s1 s2 -> newer s2 s3 -> newer s1 s3.
Proof.
  intros [H1 | (n & ->)] [H2 | (k & ->)]; [left; lia | left; cbn; lia | left; by cbn in H2 | right; by exists k].
Qed.
Lemma changes_newer name r r' : changes name r r' -> (forall n s, rooms r !! n = Some s -> exists s', rooms r' !! n = Some s' /\ newer s s').
Proof.
  intros [_ Ho Hr] n s Hs. destruct (decide (n = name)) as [-> |].
  - destruct Hr as [E | (s0 & s1 & E0 & E1 & Hv)]; [exists s; by rewrite E; split; [| apply same_newer] |]. rewrite Hs in E0. injection E0 as <-.
    exists s1. split; [done | by left].
  - exists s. rewrite Ho by done. split; [done | apply same_newer].
Qed.

Lemma settle_loop_sound clock r ch earliest eases order n : sound r -> sound (fst (settle_loop clock r ch earliest eases order n)) /\
  forall m s, rooms r !! m = Some s -> exists s', rooms (fst (settle_loop clock r ch earliest eases order n)) !! m = Some s' /\ newer s s'.
Proof.
  revert r n. induction order as [| name order IH]; intros r n Hr; cbn [settle_loop].
  { split; [done |]. intros m s Hs. exists s. split; [done | apply same_newer]. }
  destruct (settles r ch (eases name) name) eqn:Es; [| by apply IH].
  pose proof (settle_changes r ch earliest (eases name) name (clock n) Es) as Hc.
  destruct (settle_room r ch earliest (eases name) name (clock n)) as [r1 e]. cbn [fst] in Hc.
  specialize (IH r1 (S n) (changes_sound _ _ _ Hc Hr)). destruct (settle_loop clock r1 ch earliest eases order (S n)) as [r2 l]. cbn [fst] in *.
  destruct IH as [H1 H2]. split; [done |]. intros m s Hs. destruct (changes_newer _ _ _ Hc m s Hs) as (s1 & Hs1 & N1). destruct (H2 m s1 Hs1) as (s2 & Hs2 & N2).
  exists s2. split; [done | by eapply newer_trans].
Qed.

Lemma changes_advances name r r' : changes name r r' -> advances r r'.
Proof. intros Hc n s s' Hs Hs'. destruct (changes_newer _ _ _ Hc n s Hs) as (s1 & E & N). rewrite Hs' in E. by injection E as <-. Qed.

Lemma room_step_sound r r' : sound r -> step r r' -> sound r' /\ advances r r'.
Proof.
  intros Hr Hst. destruct Hst as [name ch earliest l now | name | name c now | name l now Hl | clock ch earliest eases order | name v now].
  - split; [by apply join_sound |]. intros n s s' Hs Hs'. unfold JoinAt in Hs'. destruct (rooms r !! name) as [s0 |] eqn:E0; cbn in Hs'; rewrite lookup_insert in Hs';
      case_decide; subst; try congruence; [| rewrite Hs in Hs'; injection Hs' as <-; apply same_newer | rewrite Hs in Hs'; injection Hs' as <-; apply same_newer].
    injection Hs' as <-. rewrite Hs in E0. injection E0 as <-. right. by eexists.
  - split; [by apply leave_sound |]. intros n s s' Hs Hs'. unfold Leave in Hs'. destruct (rooms r !! name) as [s0 |] eqn:E0; [| rewrite Hs in Hs'; injection Hs' as <-; apply same_newer].
    destruct (_ <=? 0); cbn in Hs'.
    + apply lookup_delete_Some in Hs' as [_ Hs']. rewrite Hs in Hs'. injection Hs' as <-. apply same_newer.
    + rewrite lookup_insert in Hs'. case_decide; subst; [injection Hs' as <-; rewrite Hs in E0; injection E0 as <-; right; by eexists |].
      rewrite Hs in Hs'. injection Hs' as <-. apply same_newer.
  - pose proof (apply_changes r name c now) as Hc. split; [by apply (changes_sound _ _ _ Hc) | by eapply changes_advances].
  - pose proof (floor_changes r name l now Hl) as Hc. split; [by apply (changes_sound _ _ _ Hc) | by eapply changes_advances].
  - unfold Settle. destruct (SFleb earliest f0); [split; [done | intros n s s' Hs Hs'; cbn in Hs'; rewrite Hs in Hs'; injection Hs' as <-; apply same_newer] |].
    destruct (settle_loop_sound clock r ch earliest eases order 0 Hr) as [H1 H2]. split; [done |]. intros n s s' Hs Hs'. destruct (H2 n s Hs) as (s1 & E & N).
    rewrite Hs' in E. by injection E as <-.
  - pose proof (end_ease_changes r name v now) as Hc. split; [by apply (changes_sound _ _ _ Hc) | by eapply changes_advances].
Qed.
Lemma room_reach_sound r : reach r -> sound r.
Proof. induction 1 as [| r r' _ IH Hs]; [split; cbn; set_solver | by apply (room_step_sound r)]. Qed.
End steps.

(** ** Places *)

(** A finite time of the wall or of the media, the negative zero apart. *)
Definition finite (f : float) : bool := match f with S754_zero _ | S754_finite _ _ _ => true | _ => false end.
Definition timed (f : float) : bool := match f with S754_zero s => negb s | S754_finite _ _ _ => true | _ => false end.

Lemma fsub_self f : finite f = true -> fsub f f = S754_zero false.
Proof.
  destruct f as [s | s | | s m e]; try done; intros _; [by destruct s |]. unfold fsub, SFsub. cbv zeta. by rewrite Z.sub_diag.
Qed.
Lemma fadd_zero m z : timed m = true -> fadd m (S754_zero z) = m.
Proof. destruct m as [s | s | | s x e]; try done. by destruct s, z. Qed.
Lemma rate_zero s : rate_ok s -> fmul (S754_zero false) (Rate s) = S754_zero false.
Proof. unfold rate_ok. destruct (Mode s); intros [-> | ->]; by vm_compute. Qed.
Lemma rate_stopped f : finite f = true -> exists z, fmul f f0 = S754_zero z.
Proof. destruct f; try done; intros _; by eexists. Qed.

(** At the moment it is placed, a room shows the media it is placed at. *)
Lemma target_placed s now : AnchorServer s = now -> rate_ok s -> finite now = true -> timed (AnchorMedia s) = true -> Target s now = AnchorMedia s.
Proof. intros Ha Hr Hn Hm. unfold Target. by rewrite Ha, fsub_self, rate_zero, fadd_zero. Qed.
Lemma target_stopped s t : Rate s = f0 -> finite (fsub t (AnchorServer s)) = true -> timed (AnchorMedia s) = true -> Target s t = AnchorMedia s.
Proof. intros Hr Hn Hm. unfold Target. rewrite Hr. destruct (rate_stopped _ Hn) as [z ->]. by apply fadd_zero. Qed.

Section places.
Context `{FloatText}.

(** What a control of a group shows once it is applied *)
Definition shown (s : RoomState) (c : Command) (now : Z) : option (float * float) :=
  let current := Target s (unixMS now) in
  let live := liveAnchor now (Latency s) in
  match Action c with
  | APlay => Some (current, one)
  | APause => Some (current, f0)
  | ASeek => Some (if SFltb live (MediaTime c) then live else MediaTime c, Rate s)
  | ALive => Some (live, one)
  | _ => None
  end.

Lemma apply_group r room s c now media rate : rooms r !! room = Some s -> Mode s = Group -> shown s c now = Some (media, rate) ->
  Apply r room c now = (set_room r room (moved s (unixMS now) media rate), inl (moved s (unixMS now) media rate)).
Proof. intros Hs Hm. unfold shown, Apply. rewrite Hs. destruct (Action c); intros [= <- <-]; by rewrite Hm. Qed.
Lemma shown_rate s c now media rate : shown s c now = Some (media, rate) -> Rate s = rate \/ rate = one \/ rate = f0.
Proof. unfold shown. destruct (Action c); intros [= _ <-]; auto. Qed.

(** In every reachable state of the rooms, each kept room carries its own name, counts at least one
    screen, is at version one or later, follows the channel or runs on controls
    as its name says, at the rate that mode allows, with a latency of the table
    and that latency's milliseconds; and what is kept of a room, its birth, its
    last step back and its measure, is of rooms that have a screen. *)
Theorem rooms_sound r : reach r -> sound r.
Proof. apply room_reach_sound. Qed.

(** A step that leaves a room with a screen in it: the last one out forgets it, and a
    room made again after that starts over at version one. *)
Definition stays (name : text) (r r' : Rooms) : Prop := step r r' /\ is_Some (rooms r' !! name).

(** C18. As long as a room has a screen, and whatever the screens and the channel do to the
    rooms meanwhile, its version never falls, and two frames of it with one version are
    the same frame but for its count of screens: a change of place, rate, latency or hold
    always carries a higher version, so a screen that drops the frames it has seen misses
    none. *)
Theorem changes_are_versioned r r' name s s' : reach r -> rtc (stays name) r r' ->
  rooms r !! name = Some s -> rooms r' !! name = Some s' ->
  Version s <= Version s' /\ (Version s = Version s' -> s' = with_members s (Members s')).
Proof.
  intros Hr Hst. revert s. induction Hst as [r | r r1 r' [Hst [s1 Hs1]] _ IH]; intros s Hs Hs'.
  - assert (s' = s) as -> by congruence. split; [lia |]. intros _. by destruct s.
  - destruct (IH ltac:(by eapply reach_step) s1 Hs1 Hs') as [Hle Heq].
    destruct (proj2 (room_step_sound _ _ (room_reach_sound _ Hr) Hst) name s s1 Hs Hs1) as [Hv | (n & ->)]; [split; [lia | intros E; lia] |].
    split; [done |]. intros E. rewrite (Heq E). by destruct s.
Qed.

(** C17. A control puts a group where it says: play and pause leave what the room shows at that
    moment, to the last bit of the float, live goes to the latency behind now,
    seek to its media time or, past it, to the latency behind now; the answer is
    the frame kept, one version on, and a paused room shows that frame at any
    later time. *)
Theorem controls_place_the_room r room s c now media rate : reach r -> rooms r !! room = Some s -> Mode s = Group ->
  shown s c now = Some (media, rate) -> finite (unixMS now) = true -> timed media = true ->
  exists s', Apply r room c now = (set_room r room s', inl s') /\ Version s' = Version s + 1 /\ Rate s' = rate /\
    Target s' (unixMS now) = media /\
    (Action c = APause -> forall t, finite (fsub t (unixMS now)) = true -> Target s' t = media).
Proof.
  intros Hr Hs Hg Hsh Hn Hm. exists (moved s (unixMS now) media rate). rewrite (apply_group r room s c now media rate) by done.
  pose proof (sound_rooms _ (room_reach_sound _ Hr) _ _ Hs) as Hok. split; [done |]. split; [done |]. split; [done |]. split.
  - apply (target_placed (moved s (unixMS now) media rate)); try done. eapply ok_rate, (moved_ok room s _ _ rate Hok).
    rewrite Hg. by eapply shown_rate.
  - intros Ha t Ht. apply (target_stopped (moved s (unixMS now) media rate)); try done. cbn. unfold shown in Hsh. rewrite Ha in Hsh. by injection Hsh as _ <-.
Qed.

(** Easing never jumps: a room that is set to ease keeps the frame it shows at that moment and
    runs at the slow rate until its end, and when that end comes, with the
    version the ease began at, the room goes on at the normal rate from the
    frame it shows then; an end with any other version changes nothing. *)
Theorem easing_never_jumps r ch earliest room now r1 e until v : reach r -> settles r ch true room = true ->
  settle_room r ch earliest true room now = (r1, Some e) ->
  let reached := Target (State e) (unixMS until) in
  finite (unixMS now) = true -> timed (AnchorMedia (State e)) = true -> finite (unixMS until) = true -> timed reached = true ->
  (exists s, rooms r !! room = Some s /\ Target (State e) (unixMS now) = Target s (unixMS now)) /\ Rate (State e) = settleRate /\
  match EndEase r1 room v until with
  | (r2, Some s2) => v = Version (State e) /\ rooms r2 !! room = Some s2 /\ Rate s2 = one /\ Target s2 (unixMS until) = reached
  | (r2, None) => v <> Version (State e) /\ r2 = r1
  end.
Proof.
  intros Hr Hset Hroom reached Hn Hm Hu Ht. pose proof (settle_changes r ch earliest true room now Hset) as Hc. rewrite Hroom in Hc. cbn [fst] in Hc.
  pose proof (changes_sound _ _ _ Hc (room_reach_sound _ Hr)) as Hr1. unfold settle_room in Hroom. destruct (rooms r !! room) as [s |] eqn:Hs; [| done].
  destruct (SFltb _ _); [done |]. destruct (SFleb _ _); [done |]. cbn [negb] in Hroom. injection Hroom as <- <-. unfold reached in *. cbn [State] in *. clear reached Hc.
  set (s1 := moved s (unixMS now) (Target s (unixMS now)) settleRate) in *.
  assert (room_ok room s1) as Hok by (apply (sound_rooms _ Hr1), (lookup_insert_eq (rooms r))).
  split; [exists s; split; [done |]; apply target_placed; try done; by apply (ok_rate room) |]. split; [done |].
  unfold EndEase. cbn [rooms set_room]. rewrite lookup_insert_eq. destruct (Z.eqb_spec (Version s1) v) as [E | E]; cbn [negb orb].
  - replace (SFeqb (Rate s1) settleRate) with true by (symmetry; vm_compute; reflexivity). cbn [negb]. repeat split; [done | apply lookup_insert_eq |].
    apply (target_placed (moved s1 (unixMS until) (Target s1 (unixMS until)) one)); try done. eapply ok_rate, (moved_ok room s1 _ _ one Hok). auto.
  - by split; [intros -> |].
Qed.
End places.

(** ** Examples *)

Section examples.
#[local] Instance plain : FloatText := {| parse_other _ := None; wide_int _ := - 2 ^ 63 |}.

(** A group of one, and a channel's own room that two screens join when the channel
    is eight seconds old *)
Definition t0 : Z := (unix_epoch + 1700000000) * Second.
Definition den : text := lit "group:den".
Definition den_room : RoomState := snd (JoinAt NewRooms den 7 f0 balanced t0).
Definition den_rooms : Rooms := fst (JoinAt NewRooms den 7 f0 balanced t0).
Definition hall : text := lit "channel:7".
Definition hall_rooms : Rooms := fst (Join (fst (Join NewRooms hall 7 (unixMS (t0 - 8 * Second)) t0)) hall 7 f0 t0).
Definition easing_at : Z := t0 + 10 * Second.
Definition hall_eased : Rooms * option Easing := settle_room hall_rooms 7 one true hall easing_at.
Definition hall_easing : Easing := default (mkEasing den_room 0) (snd hall_eased).

Lemma den_reach : reach den_rooms.
Proof. eapply reach_step; [apply reach_new | apply step_join]. Qed.
Lemma hall_reach : reach hall_rooms.
Proof. eapply reach_step; [eapply reach_step; [apply reach_new | apply step_join] | apply step_join]. Qed.

Lemma rooms_sound_witness : sound den_rooms.
Proof. apply (rooms_sound den_rooms den_reach). Defined.

(** A pause, and then a step that leaves the room as it is *)
Definition den_paused : Rooms := fst (Apply den_rooms den (mkCommand APause f0 []) t0).
Lemma changes_are_versioned_witness : rtc (stays den) den_rooms (Leave den_paused (lit "channel:9")) /\
  Version den_room <= 2 /\ (Version den_room = 2 -> moved den_room (unixMS t0) (Target den_room (unixMS t0)) f0 = with_members den_room (Members den_room)).
Proof.
  assert (rtc (stays den) den_rooms (Leave den_paused (lit "channel:9"))) as Hrun.
  { eapply rtc_l; [split; [apply (step_apply den_rooms den (mkCommand APause f0 []) t0) | eexists; vm_compute; reflexivity] |].
    apply rtc_once. split; [apply step_leave | eexists; vm_compute; reflexivity]. }
  split; [exact Hrun |].
  apply (changes_are_versioned den_rooms _ den den_room (moved den_room (unixMS t0) (Target den_room (unixMS t0)) f0) den_reach Hrun); vm_compute; reflexivity.
Defined.

Lemma controls_place_the_room_witness : exists s', Apply den_rooms den (mkCommand APause f0 []) (t0 + Second) = (set_room den_rooms den s', inl s') /\
  Rate s' = f0 /\ Target s' (unixMS (t0 + 60 * Second)) = Target den_room (unixMS (t0 + Second)).
Proof.
  destruct (controls_place_the_room den_rooms den den_room (mkCommand APause f0 []) (t0 + Second) (Target den_room (unixMS (t0 + Second))) f0 den_reach)
    as (s' & H1 & _ & H2 & _ & H3).
  - vm_compute. reflexivity.
  - vm_compute. reflexivity.
  - reflexivity.
  - vm_compute. reflexivity.
  - vm_compute. reflexivity.
  - exists s'. split; [exact H1 |]. split; [exact H2 |]. apply H3; [reflexivity | vm_compute; reflexivity].
Defined.

Lemma easing_never_jumps_witness : Until hall_easing = 320 * Second /\ Rate (State hall_easing) = settleRate /\
  exists s2, snd (EndEase (fst hall_eased) hall 2 (easing_at + Until hall_easing)) = Some s2 /\ Rate s2 = one.
Proof.
  split; [vm_compute; reflexivity |].
  destruct (easing_never_jumps hall_rooms 7 one hall easing_at (fst hall_eased) hall_easing (easing_at + Until hall_easing) 2 hall_reach) as (_ & H1 & H2).
  - vm_compute. reflexivity.
  - vm_compute. reflexivity.
  - vm_compute. reflexivity.
  - vm_compute. reflexivity.
  - vm_compute. reflexivity.
  - vm_compute. reflexivity.
  - split; [exact H1 |]. destruct (EndEase (fst hall_eased) hall 2 (easing_at + Until hall_easing)) as [r2 [s2 |]].
    + exists s2. split; [reflexivity |]. apply H2.
    + destruct H2 as [H2 _]. contradiction H2. vm_compute. reflexivity.
Defined.

(** The live edge is sixteen seconds back, and a seek past it stops there. *)
Example seek_example : shown den_room (mkCommand ASeek (unixMS t0) []) t0 = Some (unixMS (t0 - 16 * Second), one).
Proof. vm_compute. reflexivity. Qed.
End examples.
