(* ===== verification/LiveSplit.v ===== *)
(** The views of an encode, [server/internal/live/split.go]: one track alone, cut
    from the init and from the fragments of an encode that carries every track.

    [errSplit] is [None]; where it is given, nothing else is. *)
From S2P Require Import Prelude GoText Fmp4 Fmp4Trim.
Local Open Scope Z_scope.
Local Open Scope go_scope.

Definition wanted (ids : list Z) (i : Z) : bool := bool_decide (i ∈ ids).

(** ** The init *)

(** The boxes of the [mvex], those of other tracks' defaults left out. *)
Fixpoint mvex_loop (bs : list box) (ids : list Z) : res (option (list Z)) :=
  match bs with
  | [] => Ok (Some [])
  | x :: bs =>
      if is_kind "trex" x then
        if zlen (body x) <? 8 then Ok None else
        let! i := u32_at (body x) 4 in
        let! more := mvex_loop bs ids in
        Ok (if wanted ids i then option_map (app (putBox (bkind x) (body x))) more else more)
      else
        let! more := mvex_loop bs ids in
        Ok (option_map (app (putBox (bkind x) (body x))) more)
  end.
(** The boxes of the [moov], and how many tracks stay. *)
Fixpoint moov_loop (bs : list box) (ids : list Z) : res (option (list Z * Z)) :=
  match bs with
  | [] => Ok (Some ([], 0))
  | b :: bs =>
      if is_kind "trak" b then
        let! t := trackScale (body b) in
        match t with
        | None => Ok None
        | Some (i, _) =>
            let! more := moov_loop bs ids in
            Ok (if wanted ids i then option_map (fun m => (putBox (lit "trak") (body b) ++ fst m, snd m + 1)) more else more)
        end
      else if is_kind "mvex" b then
        let! xs := boxes (body b) in
        let! mvex := mvex_loop xs ids in
        match mvex with
        | None => Ok None
        | Some mvex =>
            let! more := moov_loop bs ids in
            Ok (option_map (fun m => (putBox (lit "mvex") mvex ++ fst m, snd m)) more)
        end
      else
        let! more := moov_loop bs ids in
        Ok (option_map (fun m => (putBox (bkind b) (body b) ++ fst m, snd m)) more)
  end.
Fixpoint tops_loop (bs : list box) (ids : list Z) : res (option (list Z * Z)) :=
  match bs with
  | [] => Ok (Some ([], 0))
  | top :: bs =>
      if negb (is_kind "moov" top) then
        let! more := tops_loop bs ids in
        Ok (option_map (fun m => (putBox (bkind top) (body top) ++ fst m, snd m)) more)
      else
        let! xs := boxes (body top) in
        let! moov := moov_loop xs ids in
        match moov with
        | None => Ok None
        | Some (moov, found) =>
            let! more := tops_loop bs ids in
            Ok (option_map (fun m => (putBox (lit "moov") moov ++ fst m, found + snd m)) more)
        end
  end.
Definition keepTracks (init : list Z) (ids : list Z) : res (option (list Z)) :=
  let! bs := boxes init in
  let! r := tops_loop bs ids in
  Ok (match r with Some (out, found) => if negb (found =? zlen ids) then None else Some out | None => None end).

(** ** The fragments *)

(** The wanted runs, each with its samples' bytes, and the header. *)
Fixpoint keep_loop (bs : list box) (moofSize : Z) (mdat : list Z) (ids : list Z) (mfhd : option (list Z)) :
    res (option (option (list Z) * list (trackRun * list Z))) :=
  match bs with
  | [] => Ok (Some (mfhd, []))
  | b :: bs =>
      if is_kind "mfhd" b then keep_loop bs moofSize mdat ids (Some (body b))
      else if is_kind "traf" b then
        let! r := parseRun (body b) in
        match r with
        | None => Ok None
        | Some r =>
            if negb (hasSizes r) then Ok None else
            if negb (wanted ids (id r)) then keep_loop bs moofSize mdat ids mfhd else
            let n := run_size r (samples r) in
            let start := dataOff r - moofSize - 8 in
            if ((start <? 0) || (zlen mdat <? start + n))%bool then Ok None else
            let! data := slice mdat start (start + n) in
            let! more := keep_loop bs moofSize mdat ids mfhd in
            Ok (option_map (fun m => (fst m, (r, data) :: snd m)) more)
        end
      else Ok None
  end.
(** Each run's data offset, the first at [at_]. *)
Fixpoint lay (rs : list (trackRun * list Z)) (at_ : Z) : list (trackRun * Z) :=
  match rs with [] => [] | (r, d) :: rs => (r, at_) :: lay rs (at_ + zlen d) end.
Definition view_body (mfhd : list Z) (rs : list (trackRun * Z)) : list Z :=
  putBox (lit "mfhd") mfhd ++ concat (map (fun x => build (fst x) (snd x)) rs).
Definition keepMoof (moof mdat : list Z) (ids : list Z) : res (option (list Z)) :=
  let! s := u32_at moof 0 in
  if s =? 1 then Ok None else
  let moofSize := zlen moof in
  let! rest := slice_from moof 8 in
  let! bs := boxes rest in
  let! r := keep_loop bs moofSize mdat ids None in
  Ok (match r with
      | None | Some (None, _) => None
      | Some (Some mfhd, []) => Some []
      | Some (Some mfhd, runs) =>
          let at_ := 8 + zlen (view_body mfhd (map (fun x => (fst x, 0)) runs)) + 8 in
          Some (putBox (lit "moof") (view_body mfhd (lay runs at_)) ++ putBox (lit "mdat") (concat (map snd runs)))
      end).

Definition boxLen (b : list Z) : res (option Z) :=
  if zlen b <? 8 then Ok None else
  let! size := u32_at b 0 in
  let! sh := if size =? 1 then
               if zlen b <? 16 then Ok None else let! s := slice b 8 16 in let! n := uint64 s in Ok (Some (int64 n, 16))
             else Ok (Some (size, 8)) in
  match sh with
  | None => Ok None
  | Some (size, head) =>
      let size := if size =? 0 then zlen b else size in
      Ok (if ((size <? head) || (zlen b <? size))%bool then None else Some size)
  end.

(** [keepTracksFrag], with what is left of the fragment *)
Fixpoint frag_loop (fuel : nat) (frag : list Z) (ids : list Z) : res (option (list Z)) :=
  if zlen frag =? 0 then Ok (Some []) else
  match fuel with
  | O => NoFuel
  | S fuel =>
      let! n := boxLen frag in
      match n with
      | None => Ok None
      | Some moofLen =>
          let! kind := slice frag 4 8 in
          let! top := slice frag 0 moofLen in
          let! rest := slice_from frag moofLen in
          if negb (bytes_equal kind (lit "moof")) then
            let! more := frag_loop fuel rest ids in Ok (option_map (app top) more)
          else
            let! m := boxLen rest in
            match m with
            | None => Ok None
            | Some mdatLen =>
                let! kind := slice rest 4 8 in
                let! s := u32_at rest 0 in
                if (negb (bytes_equal kind (lit "mdat")) || (s =? 1))%bool then Ok None else
                let! mdat := slice rest 8 mdatLen in
                let! cut := keepMoof top mdat ids in
                match cut with
                | None => Ok None
                | Some cut =>
                    let! rest := slice_from rest mdatLen in
                    let! more := frag_loop fuel rest ids in Ok (option_map (app cut) more)
                end
            end
      end
  end.
Definition keepTracksFrag (frag : list Z) (ids : list Z) : res (option (list Z)) := frag_loop (length frag) frag ids.

(** * Proofs *)

(** ** A fragment of a view *)

(** The reader the views are judged by: a moof's header and its runs, each with its
    samples' sizes *)
Fixpoint read_loop (bs : list box) (mfhd : option (list Z)) : res (option (option (list Z) * list trackRun)) :=
  match bs with
  | [] => Ok (Some (mfhd, []))
  | b :: bs =>
      if is_kind "mfhd" b then read_loop bs (Some (body b))
      else if is_kind "traf" b then
        let! r := parseRun (body b) in
        match r with
        | None => Ok None
        | Some r =>
            if negb (hasSizes r) then Ok None else
            let! more := read_loop bs mfhd in Ok (option_map (fun m => (fst m, r :: snd m)) more)
        end
      else Ok None
  end.
Definition moof_read (b : list Z) : res (option (option (list Z) * list trackRun)) :=
  let! bs := boxes b in read_loop bs None.

Definition kept (ids : list Z) (rs : list trackRun) : list trackRun := List.filter (fun r => wanted ids (id r)) rs.
(** A run's bytes, in the mdat that follows its moof *)
Definition run_at (moofSize : Z) (r : trackRun) : Z := dataOff r - moofSize - 8.
Definition inside (moofSize n : Z) (r : trackRun) : Prop := 0 <= run_at moofSize r /\ run_at moofSize r + run_size r (samples r) <= n.
Definition run_media (moofSize : Z) (mdat : list Z) (r : trackRun) : list Z :=
  take (Z.to_nat (run_size r (samples r))) (drop (Z.to_nat (run_at moofSize r)) mdat).
Definition sizes (rs : list trackRun) : Z := fold_right (fun r n => run_size r (samples r) + n) 0 rs.

Definition run_sized (r : trackRun) : Prop := run_wf r /\ hasSizes r = true.

Lemma read_loop_total bs n mfhd : Forall (box_in n) bs -> returns (read_loop bs mfhd) (fun p => match p with
  | Some (m, rs) => Forall run_sized rs /\ runs_len rs <= 8 * boxes_len bs /\ match m with Some m => zlen m <= Z.max n (zlen (default [] mfhd)) | None => True end
  | None => True end).
Proof.
  intros Hbs. revert mfhd. induction Hbs as [| b bs Hb Hbs IH]; intros mfhd; cbn [read_loop].
  { cbn. split_and!; [constructor | lia |]. destruct mfhd; cbn; lia. }
  pose proof (box_in_small n b Hb) as Hl. pose proof Hb as (Hbb & _). cbn [boxes_len]. pose proof (zlen_nonneg (body b)).
  destruct (is_kind "mfhd" b); [| destruct (is_kind "traf" b); [| done]].
  - eapply returns_mono; [apply IH |]. intros [[m rs] |]; [| done]. intros (? & ? & Hm). split_and!; [done | lia |].
    destruct m; [| done]. cbn in Hm. lia.
  - apply returns_bind. eapply returns_mono; [by apply parseRun_sound |]. intros [r |]; [| done]. intros (Hr & Hh & Ht & Hlen).
    destruct (hasSizes r) eqn:E; [| done]. cbn [negb]. apply returns_bind. eapply returns_mono; [apply IH |]. intros [[m rs] |]; [| done].
    intros (Hrs & Hrl & Hm). cbn [option_map returns fst snd]. split_and!; [by constructor | cbn [runs_len]; lia | done].
Qed.

(** What the loop takes, against what is there. *)
Lemma keep_loop_reads bs n moofSize mdat ids mfhd :
  Forall (box_in n) bs ->
  match read_loop bs mfhd with
  | Ok (Some (m, rs)) =>
      returns (keep_loop bs moofSize mdat ids mfhd) (fun p => match p with
        | Some p => Forall (inside moofSize (zlen mdat)) (kept ids rs) /\ p = (m, map (fun r => (r, run_media moofSize mdat r)) (kept ids rs))
        | None => ~ Forall (inside moofSize (zlen mdat)) (kept ids rs) end)
  | _ => returns (keep_loop bs moofSize mdat ids mfhd) (fun p => p = None)
  end.
Proof.
  intros Hbs. revert mfhd.
  induction Hbs as [| b bs Hb Hbs IH]; intros mfhd; cbn [read_loop keep_loop]; [cbn; split; [constructor | done] |].
  destruct (is_kind "mfhd" b); [by apply IH |]. destruct (is_kind "traf" b); [| done]. pose proof Hb as (Hbb & _).
  pose proof (parseRun_sound (body b) Hbb) as Hp. destruct (parseRun (body b)) as [[r |] | |]; [| done..]. cbn [rbind returns] in *.
  destruct Hp as (Hr & Hh & Ht & _). destruct (hasSizes r); [| done]. cbn [negb] in *.
  specialize (IH mfhd). pose proof (read_loop_total bs n mfhd Hbs) as Hrt'.
  assert (0 <= run_size r (samples r)) as Hn by (apply run_size_nonneg; [by split_and! | apply Hr]).
  destruct (read_loop bs mfhd) as [[[m rs] |] | |]; [| | done..]; cbn [rbind option_map] in *.
  - cbn [kept List.filter]. fold (kept ids rs). destruct (wanted ids (id r)); [| done]. cbn [negb].
    change (dataOff r - moofSize - 8) with (run_at moofSize r). destruct (_ || _)%bool eqn:E.
    { intros H. apply Forall_cons in H as [[H1 H2] _]. lia. }
    apply orb_false_iff in E as [E1 E2]. rewrite slice_Ok by lia. cbn [rbind]. apply returns_bind. eapply returns_mono; [exact IH |].
    intros [p |]; cbn [returns option_map].
    + intros [H1 ->]. split; [constructor; [unfold inside; lia | done] |]. cbn [map fst snd]. do 3 f_equal. unfold run_media. do 2 f_equal. lia.
    + intros H1 H2. by apply Forall_cons in H2 as [_ H2].
  - destruct (wanted ids (id r)); [| done]. cbn [negb]. destruct (_ || _)%bool eqn:E; [done |]. apply orb_false_iff in E as [E1 E2].
    change (dataOff r - moofSize - 8) with (run_at moofSize r) in *. rewrite slice_Ok by lia. cbn [rbind]. apply returns_bind.
    eapply returns_mono; [exact IH |]. by intros ? ->.
Qed.

Lemma run_media_len moofSize mdat r : run_sized r -> inside moofSize (zlen mdat) r -> zlen (run_media moofSize mdat r) = run_size r (samples r).
Proof.
  intros [Hr _] [H1 H2]. pose proof (run_size_nonneg r (samples r) Hr ltac:(apply Hr)). unfold run_media. rewrite zlen_take, zlen_drop. lia.
Qed.

(** What a moof of a view carries: the wanted runs in their order, each finding the
    bytes it found in the encode's fragment, and no other byte. *)
Definition carried (moofSize : Z) (mdat mfhd : list Z) (rs : list trackRun) (cut : list Z) : Prop :=
  exists bs b m rs', boxes cut = Ok bs /\ map content bs = [(lit "moof", b); (lit "mdat", m)] /\
    moof_read b = Ok (Some (Some mfhd, rs')) /\
    Forall2 (fun r q => q = set_dataOff r (dataOff q) /\ media cut q = run_media moofSize mdat r) rs rs' /\
    m = concat (map (media cut) rs').
(** A moof without any is left out. *)
Definition carries (moofSize : Z) (mdat mfhd : list Z) (rs : list trackRun) (cut : list Z) : Prop :=
  match rs with [] => cut = [] | _ => carried moofSize mdat mfhd rs cut end.

Lemma view_body_boxes mfhd xs :
  view_body mfhd xs = concat (map put ((lit "mfhd", mfhd) :: map (fun x => (lit "traf", build_body (fst x) (snd x))) xs)).
Proof. unfold view_body. cbn [map concat]. f_equal. by rewrite !map_map. Qed.
Lemma view_body_len mfhd xs : zlen (view_body mfhd xs) = 8 + zlen mfhd + runs_len (map fst xs).
Proof.
  rewrite view_body_boxes, concat_put_len; [| constructor; [done | by apply Forall_map, Forall_true]].
  cbn [fold_right fst snd]. f_equal. induction xs as [| [r o] xs IH]; [done |]. cbn [map fold_right runs_len fst snd].
  rewrite IH, build_body_len. lia.
Qed.
Lemma lay_runs L at_ : map fst (lay L at_) = map fst L.
Proof. revert at_. induction L as [| [r d] L IH]; intros at_; [done |]. cbn. by rewrite IH. Qed.

Lemma read_loop_reads bs mfhd xs :
  Forall (fun x => run_sized (fst x) /\ run_lens (fst x) < 2 ^ 31 /\ - 2 ^ 31 <= snd x < 2 ^ 31) xs ->
  map content bs = map (fun x => (lit "traf", build_body (fst x) (snd x))) xs ->
  read_loop bs mfhd = Ok (Some (mfhd, map (fun x => set_dataOff (fst x) (snd x)) xs)).
Proof.
  intros Hxs. revert bs. induction Hxs as [| [r o] xs [[(Hr & _) Hs] [Hl Ho]] Hxs IH]; intros [| [k b p] bs] E; try done.
  cbn [map content bkind body fst snd] in *. injection E as -> -> E. cbn [read_loop].
  change (is_kind "mfhd" (mkBox (lit "traf") (build_body r o) p)) with false.
  change (is_kind "traf" (mkBox (lit "traf") (build_body r o) p)) with true. cbn [body].
  rewrite build_parse by done. cbn [rbind]. change (hasSizes (set_dataOff _ _)) with (hasSizes r). rewrite Hs. cbn [negb].
  rewrite IH by done. cbn [rbind option_map fst snd]. by rewrite int32_small.
Qed.

Lemma view_body_reads mfhd xs : 8 + zlen mfhd < 2 ^ 31 ->
  Forall (fun x => run_sized (fst x) /\ run_lens (fst x) < 2 ^ 31 - 32 /\ - 2 ^ 31 <= snd x < 2 ^ 31) xs ->
  moof_read (view_body mfhd xs) = Ok (Some (Some mfhd, map (fun x => set_dataOff (fst x) (snd x)) xs)).
Proof.
  intros Hm Hxs. unfold moof_read. rewrite view_body_boxes.
  assert (returns (boxes (concat (map put ((lit "mfhd", mfhd) :: map (fun x => (lit "traf", build_body (fst x) (snd x))) xs))))
    (fun bs => map content bs = (lit "mfhd", mfhd) :: map (fun x => (lit "traf", build_body (fst x) (snd x))) xs)) as Hbs.
  { apply boxes_reads. constructor; [split; cbn [fst snd]; [done | lia] |]. apply Forall_map. eapply Forall_impl; [exact Hxs |].
    intros x (_ & Hl & _). split; cbn [fst snd]; [done |]. rewrite build_body_len. lia. }
  destruct (boxes _) as [[| [k m p] bs] | |]; [done | | done..]. cbn [returns rbind] in *.
  cbn [map content bkind body] in Hbs. injection Hbs as -> -> Hbs. cbn [read_loop].
  change (is_kind "mfhd" (mkBox (lit "mfhd") mfhd p)) with true. cbn [body]. apply read_loop_reads; [| done].
  eapply Forall_impl; [exact Hxs |]. intros x (? & ? & ?). split_and!; [done | lia | lia | lia].
Qed.

(** Each run's bytes, where it is told they are *)
Lemma lay_media L pre post : 
  Forall2 (fun x y => fst y = fst x /\ zlen pre <= snd y /\ snd y + zlen (snd x) <= zlen pre + zlen (concat (map snd L)) /\
    take (length (snd x)) (drop (Z.to_nat (snd y)) (pre ++ concat (map snd L) ++ post)) = snd x) L (lay L (zlen pre)).
Proof.
  revert pre. induction L as [| [r d] L IH]; intros pre; cbn [lay map concat snd]; [constructor |]. pose proof (zlen_nonneg d). constructor.
  - cbn [fst snd]. split_and!; [done | lia | rewrite zlen_app; pose proof (zlen_nonneg (concat (map snd L))); lia |].
    unfold zlen. rewrite Nat2Z.id, drop_app_length, <- app_assoc. apply take_app_length.
  - specialize (IH (pre ++ d)). rewrite (zlen_app pre d) in IH. eapply Forall2_impl; [exact IH |]. intros x y (E & H1 & H2 & H3). rewrite (zlen_app d).
    split_and!; [done | lia | lia |]. rewrite <- app_assoc in H3. by rewrite <- app_assoc.
Qed.

Lemma sizes_media moofSize mdat rs : Forall run_sized rs -> Forall (inside moofSize (zlen mdat)) rs ->
  zlen (concat (map snd (map (fun r => (r, run_media moofSize mdat r)) rs))) = sizes rs.
Proof.
  intros H1 H2. induction H1 as [| r rs H H1 IH]; [done |]. apply Forall_cons in H2 as [H3 H2]. cbn [map concat snd sizes fold_right].
  rewrite zlen_app, run_media_len by done. by rewrite (IH H2).
Qed.

Lemma carry_media moofSize mdat cut rs k : Forall run_sized rs -> Forall (inside moofSize (zlen mdat)) rs ->
  Forall2 (fun x y => fst y = fst x /\ take (length (snd x)) (drop (Z.to_nat (snd y)) cut) = snd x) (map (fun r => (r, run_media moofSize mdat r)) rs) k ->
  Forall2 (fun r q => q = set_dataOff r (dataOff q) /\ media cut q = run_media moofSize mdat r) rs (map (fun x => set_dataOff (fst x) (snd x)) k).
Proof.
  intros Hsized Hin. revert k. induction Hsized as [| r rs Hr Hrs IH]; intros k Hk; inversion Hk as [| x y l1 l2 [E Hm] Hl]; subst; cbn [map]; [constructor |].
  apply Forall_cons in Hin as [Hin1 Hin]. constructor; [| by apply IH]. cbn [fst snd] in *. rewrite E. split; [done |].
  transitivity (take (length (run_media moofSize mdat r)) (drop (Z.to_nat (snd y)) cut)); [| exact Hm]. unfold media. change (run_size _ _) with (run_size r (samples r)). change (dataOff (set_dataOff _ _)) with (snd y).
  f_equal. rewrite <- (run_media_len moofSize mdat r Hr Hin1). unfold zlen. by rewrite Nat2Z.id.
Qed.

Lemma map_pairs {A B C} (P : A -> B -> Prop) (f : B -> C) (g : A -> C) l k : Forall2 (fun x y => P x y /\ f y = g x) l k -> map g l = map f k.
Proof. induction 1 as [| x y l k [_ E] Hl IH]; [done |]. cbn [map]. by rewrite IH, E. Qed.

Section carry.
Context (moofSize : Z) (mdat mfhd : list Z) (rs : list trackRun).
Hypothesis Hsized : Forall run_sized rs.
Hypothesis Hin : Forall (inside moofSize (zlen mdat)) rs.
Hypothesis Hhead : 24 + zlen mfhd + runs_len rs < 2 ^ 30.
Hypothesis Hbytes : sizes rs < 2 ^ 30.

Let L : list (trackRun * list Z) := map (fun r => (r, run_media moofSize mdat r)) rs.
Let at_ : Z := 8 + zlen (view_body mfhd (map (fun x => (fst x, 0)) L)) + 8.
Let cut : list Z := putBox (lit "moof") (view_body mfhd (lay L at_)) ++ putBox (lit "mdat") (concat (map snd L)).

Lemma carry_lens : at_ = 24 + zlen mfhd + runs_len rs /\ zlen (view_body mfhd (lay L at_)) = at_ - 16 /\ zlen (concat (map snd L)) = sizes rs.
Proof.
  assert (map fst L = rs) as EL by (unfold L; rewrite map_map; apply map_id). assert (map fst (map (fun x => (fst x, 0)) L) = rs) as EL0 by (by rewrite map_map).
  split_and!.
  - unfold at_. rewrite view_body_len, EL0. lia.
  - unfold at_ at 2. rewrite !view_body_len, EL0, lay_runs, EL. lia.
  - by apply sizes_media.
Qed.

Lemma carry : carried moofSize mdat mfhd rs cut.
Proof.
  destruct carry_lens as (Ea & Eb & Em). pose proof (runs_len_nonneg rs). pose proof (zlen_nonneg mfhd).
  set (b := view_body mfhd (lay L at_)) in *. set (m := concat (map snd L)) in *.
  set (pre := be32 (8 + zlen b) ++ lit "moof" ++ b ++ be32 (8 + zlen m) ++ lit "mdat").
  assert (cut = pre ++ m ++ []) as Ecut by (unfold cut, pre, putBox; fold b m; by rewrite app_nil_r, <- !app_assoc).
  assert (zlen pre = at_) as Hpre by (unfold pre; rewrite !zlen_app, !be32_len; change (zlen (lit "moof")) with 4; change (zlen (lit "mdat")) with 4; lia).
  pose proof (lay_media L pre []) as Hlay. fold m in Hlay. rewrite <- Ecut, Hpre in Hlay.
  assert (returns (boxes cut) (fun bs => map content bs = [(lit "moof", b); (lit "mdat", m)])) as Htop.
  { replace cut with (concat (map put [(lit "moof", b); (lit "mdat", m)])) by (cbn [map concat]; by rewrite app_nil_r).
    apply boxes_reads. repeat (constructor; [split; cbn [fst snd]; [done | lia] |]). constructor. }
  apply returns_exists in Htop as (bs & Hbs & Hc).
  exists bs, b, m, (map (fun x => set_dataOff (fst x) (snd x)) (lay L at_)). split; [done |]. split; [done |].
  assert (Forall (fun x => run_sized (fst x) /\ run_lens (fst x) < 2 ^ 31 - 32 /\ - 2 ^ 31 <= snd x < 2 ^ 31) (lay L at_)) as Hok.
  { assert (Forall (fun x => run_sized (fst x) /\ fst x ∈ rs) L) as HL.
    { unfold L. apply Forall_map. rewrite Forall_forall in Hsized |- *. intros r Hr. cbn [fst]. split; [by apply Hsized | done]. }
    eapply Forall2_Forall_r; [exact Hlay |]. eapply Forall_impl; [exact HL |]. intros x [Hx Hr] y (E & H1 & H2 & _). rewrite E.
    pose proof (runs_len_elem _ _ Hr). pose proof (zlen_nonneg (snd x)). split; [done |]. lia. }
  assert (Forall2 (fun r q => q = set_dataOff r (dataOff q) /\ media cut q = run_media moofSize mdat r) rs
    (map (fun x => set_dataOff (fst x) (snd x)) (lay L at_))) as Hmed.
  { apply carry_media; [done | done |]. eapply Forall2_impl; [exact Hlay |]. intros x y (H1 & _ & _ & H2). by split. }
  split; [apply view_body_reads; [lia | done] |]. split; [done |].
  unfold m, L. rewrite map_map. cbn [snd]. f_equal. eapply map_pairs, Hmed.
Qed.
End carry.

(** A moof and its mdat, and what a view of them is *)
Definition view (ids : list Z) (moof mdat cut : list Z) : Prop :=
  u32_at moof 0 <> Ok 1 /\ exists mfhd rs, moof_read (drop 8 moof) = Ok (Some (Some mfhd, rs)) /\
    Forall (inside (zlen moof) (zlen mdat)) (kept ids rs) /\
    (sizes (kept ids rs) < 2 ^ 30 -> carries (zlen moof) mdat mfhd (kept ids rs) cut).

Lemma kept_sub ids rs : Forall run_sized rs -> Forall run_sized (kept ids rs) /\ runs_len (kept ids rs) <= runs_len rs.
Proof.
  induction 1 as [| r rs Hr Hrs [H1 H2]]; [done |]. cbn [kept List.filter runs_len]. fold (kept ids rs). pose proof (run_lens_nonneg r).
  destruct (wanted ids (id r)); cbn [runs_len]; split; [by constructor | lia | done | lia].
Qed.

Lemma moof_read_total b : bytes_ok b -> returns (moof_read b) (fun p => match p with
  | Some (m, rs) => Forall run_sized rs /\ runs_len rs <= 8 * zlen b /\ match m with Some m => zlen m <= zlen b | None => True end
  | None => True end).
Proof.
  intros Hb. unfold moof_read. pose proof (boxes_total b Hb) as Hbs. destruct (boxes b) as [bs | |] eqn:E; [| done..]. cbn [returns rbind] in *.
  eapply returns_mono; [by apply read_loop_total |]. intros [[m rs] |]; [| done]. intros (H1 & H2 & H3).
  unfold boxes in E. apply boxes_loop_len in E; [| done]. cbn in H3. pose proof (zlen_nonneg b). change (zlen (@nil Z)) with 0 in H3. split_and!; [done | lia |]. destruct m; [lia | done].
Qed.

Lemma keepMoof_view ids moof mdat : bytes_ok moof -> 8 <= zlen moof -> zlen moof <= 2 ^ 26 ->
  returns (keepMoof moof mdat ids) (fun o => match o with Some cut => view ids moof mdat cut | None => forall cut, ~ view ids moof mdat cut end).
Proof.
  intros Hb H8 Hl. unfold keepMoof. destruct (u32_at moof 0) as [s | |] eqn:E0.
  2-3: pose proof (returns_u32_at moof 0 (fun _ => True) Hb ltac:(lia) ltac:(lia) ltac:(done)) as Hf; by rewrite E0 in Hf.
  cbn [rbind]. destruct (s =? 1) eqn:E1; [intros cut [H _]; apply H; rewrite E0; f_equal; lia |]. rewrite slice_from_Ok by lia. cbn [rbind].
  change (Z.to_nat 8) with 8%nat. assert (bytes_ok (drop 8 moof)) as Hd by (by apply bytes_ok_drop).
  pose proof (moof_read_total _ Hd) as Hr. pose proof (boxes_total _ Hd) as Hbs. unfold view. unfold moof_read in *.
  destruct (boxes (drop 8 moof)) as [bs | |]; [| done..]. cbn [returns rbind] in *.
  pose proof (keep_loop_reads bs _ (zlen moof) mdat ids None Hbs) as Hk.
  destruct (read_loop bs None) as [[[m rs] |] | |]; [| | done..].
  2: { apply returns_bind. eapply returns_mono; [exact Hk |]. intros p ->. cbn [returns]. intros cut (_ & mf & rs & E & _). done. }
  destruct Hr as (Hs & Hrl & Hm). destruct (kept_sub ids rs Hs) as [Hs2 Hrl2]. rewrite zlen_drop in Hrl, Hm.
  apply returns_bind. eapply returns_mono; [exact Hk |]. intros [p |]; cbn [returns].
  2: { intros Hno cut (_ & mf & rs1 & [= -> ->] & H & _). done. }
  intros [Hin ->]. destruct m as [mfhd |]; [| intros cut (_ & mf & rs1 & E & _); done].
  set (L := map (fun r => (r, run_media (zlen moof) mdat r)) (kept ids rs)).
  assert (exists out, (match L with
    | [] => Some []
    | _ => Some (putBox (lit "moof") (view_body mfhd (lay L (8 + zlen (view_body mfhd (map (fun x => (fst x, 0)) L)) + 8))) ++
             putBox (lit "mdat") (concat (map snd L))) end) = Some out /\
    (sizes (kept ids rs) < 2 ^ 30 -> carries (zlen moof) mdat mfhd (kept ids rs) out)) as (out & E & Hc).
  { destruct (kept ids rs) as [| r rs1] eqn:Ek; [by eexists |]. rewrite ?Ek in *. subst L. cbn [map]. eexists. split; [done |]. intros Hsz. unfold carries.
    apply (carry (zlen moof) mdat mfhd (r :: rs1)); [done | done | lia | done]. }
  destruct L; injection E as <-; (split; [rewrite E0; intros [= ->]; lia |]); by exists mfhd, rs.
Qed.

(** ** A whole segment or part *)

Definition box_kind (b : list Z) : list Z := take 4 (drop 4 b).
(** Every box but the fragments as it is, and of each fragment its view *)
Inductive views (ids : list Z) : list Z -> list Z -> Prop :=
  | views_nil : views ids [] []
  | views_other frag n out : boxLen frag = Ok (Some n) -> box_kind frag <> lit "moof" ->
      views ids (drop (Z.to_nat n) frag) out -> views ids frag (take (Z.to_nat n) frag ++ out)
  | views_moof frag n m cut out : boxLen frag = Ok (Some n) -> box_kind frag = lit "moof" ->
      let rest := drop (Z.to_nat n) frag in
      boxLen rest = Ok (Some m) -> box_kind rest = lit "mdat" -> u32_at rest 0 <> Ok 1 ->
      view ids (take (Z.to_nat n) frag) (take (Z.to_nat (m - 8)) (drop 8 rest)) cut ->
      views ids (drop (Z.to_nat m) rest) out -> views ids frag (cut ++ out).

Lemma boxLen_total b : bytes_ok b -> returns (boxLen b) (fun o => match o with Some n => 8 <= n <= zlen b | None => True end).
Proof.
  intros Hb. unfold boxLen. go_step; [done |]. apply returns_bind, returns_u32_at; [done | lia | lia |]. intros size Hs.
  apply returns_bind. eapply (returns_mono _ (fun o => match o with Some (_, h) => 8 <= h | None => True end)).
  { go_step; [| by cbn]. go_step; [done |]. go_step. go_step. apply returns_bind. eapply returns_mono; [apply uint64_total; [done | lia] |].
    intros n _. cbn. lia. }
  intros [[sz head] |]; [| done]. intros Hh. cbn [returns]. destruct (_ || _)%bool eqn:E; [done |]. lia.
Qed.

Lemma frag_loop_views ids fuel frag : bytes_ok frag -> zlen frag <= 2 ^ 26 -> (length frag <= fuel)%nat ->
  returns (frag_loop fuel frag ids) (fun o => match o with Some out => views ids frag out | None => forall out, ~ views ids frag out end).
Proof.
  revert frag. induction fuel as [| fuel IH]; intros frag Hb Hl Hf; cbn [frag_loop];
    (destruct (zlen frag =? 0) eqn:E0; [apply Z.eqb_eq, zlen_0_nil in E0 as ->; constructor |]).
  { destruct frag; [done | cbn in Hf; lia]. }
  pose proof (boxLen_total frag Hb) as Hn. destruct (boxLen frag) as [[n |] | |] eqn:En; [| | done..]; cbn [rbind returns] in *.
  2: { intros out H. inversion H; subst; [done | congruence | congruence]. }
  assert (bytes_ok (drop (Z.to_nat n) frag)) as Hb2 by (by apply bytes_ok_drop).
  assert (zlen (drop (Z.to_nat n) frag) = zlen frag - n) as Hl2 by (rewrite zlen_drop; lia).
  rewrite !slice_Ok by lia. cbn [rbind]. rewrite slice_from_Ok by lia. cbn [rbind].
  change (take (Z.to_nat (8 - 4)) (drop (Z.to_nat 4) frag)) with (box_kind frag).
  rewrite Z.sub_0_r. change (drop (Z.to_nat 0) frag) with frag.
  destruct (bytes_equal (box_kind frag) (lit "moof")) eqn:Ek; cbn [negb].
  2: { assert (box_kind frag <> lit "moof") as Hk by (intros E; rewrite E in Ek; done).
    apply returns_bind. eapply returns_mono; [apply (IH (drop (Z.to_nat n) frag)); [done | lia | unfold zlen in *; lia] |].
    intros [out |] Ho; cbn [option_map returns]; [by apply views_other |].
    intros out H. inversion H as [| ? n' out' En' Hk' Ho' | ? n' m' c' o' En' Hk']; subst; [done | | congruence].
    rewrite En in En'. injection En' as <-. by apply (Ho out'). }
  apply bool_decide_eq_true_1 in Ek. set (rest := drop (Z.to_nat n) frag) in *.
  pose proof (boxLen_total rest Hb2) as Hm. destruct (boxLen rest) as [[m |] | |] eqn:Em; [| | done..]; cbn [rbind returns] in *.
  2: { intros out H. inversion H as [| ? n' out' En' Hk' Ho' | ? n' m' c' o' En' Hk' r' Em']; subst; [done | congruence |].
    rewrite En in En'. injection En' as <-. fold rest in r'. unfold r' in Em'. congruence. }
  rewrite slice_Ok by lia. cbn [rbind]. change (take (Z.to_nat (8 - 4)) (drop (Z.to_nat 4) rest)) with (box_kind rest).
  pose proof (returns_u32_at rest 0 (fun _ => True) Hb2 ltac:(lia) ltac:(lia) ltac:(done)) as Hs.
  destruct (u32_at rest 0) as [s | |] eqn:Es; [| done..]. cbn [rbind]. clear Hs.
  destruct (_ || _)%bool eqn:Ed.
  { intros out H. inversion H as [| ? n' out' En' Hk' Ho' | ? n' m' c' o' En' Hk' r' Em' Hd' Hs']; subst; [done | congruence |].
    rewrite En in En'. injection En' as <-. fold rest in r'. unfold r' in Hd', Hs'. rewrite Hd', Es in *. apply orb_true_iff in Ed as [Ed | Ed]; [by vm_compute in Ed | apply Hs'; f_equal; lia]. }
  apply orb_false_iff in Ed as [Ed%negb_false_iff Es1]. apply bool_decide_eq_true_1 in Ed. rewrite slice_Ok by lia. cbn [rbind].
  apply returns_bind. eapply returns_mono.
  { apply keepMoof_view; [by apply bytes_ok_take | rewrite zlen_take; lia | rewrite zlen_take; lia]. }
  change (Z.to_nat 8) with 8%nat.
  intros [cut |] Hv.
  - rewrite slice_from_Ok by lia. cbn [rbind]. apply returns_bind.
    eapply returns_mono; [apply (IH (drop (Z.to_nat m) rest)); [by apply bytes_ok_drop | rewrite zlen_drop; lia | rewrite length_drop; unfold zlen in *; lia] |].
    intros [out |] Ho; cbn [option_map returns].
    + eapply views_moof; try done. fold rest. rewrite Es. intros [= ->]. done.
    + intros out H. inversion H as [| ? n' out' En' Hk' Ho' | ? n' m' c' o' En' Hk' r' Em' Hd' Hs' Hv' Ho']; subst; [done | congruence |].
      rewrite En in En'. injection En' as <-. fold rest in r'. unfold r' in *. rewrite Em in Em'. injection Em' as <-. by apply (Ho o').
  - cbn [returns]. intros out H. inversion H as [| ? n' out' En' Hk' Ho' | ? n' m' c' o' En' Hk' r' Em' Hd' Hs' Hv']; subst; [done | congruence |].
    rewrite En in En'. injection En' as <-. fold rest in r'. unfold r' in *. rewrite Em in Em'. injection Em' as <-. by apply (Hv c').
Qed.

(** C6. The view of a segment or part is made exactly when the bytes are whole boxes, every moof of
    them of one header and runs with sizes and followed by its mdat, and the
    wanted runs' bytes are in it. It then is every other box as it was and, for
    each moof, one with the same header and the wanted tracks' runs, unchanged
    but for their data offsets, each of which finds in the new mdat exactly the
    bytes it found in the old; the new mdat holds nothing else, and a moof with
    no wanted track is left out with its mdat. *)
Theorem views_keep_their_media frag ids : bytes_ok frag -> zlen frag <= 2 ^ 26 ->
  returns (keepTracksFrag frag ids) (fun o => match o with Some out => views ids frag out | None => forall out, ~ views ids frag out end).
Proof. intros Hb Hl. by apply frag_loop_views. Qed.

(** The picture and the sound of the fragment of [Fmp4Trim]'s example, apart *)
Example ex_views :
  (let! v := keepTracksFrag ex_frag [2] in
   let! p := fragment_parts (default [] v) in
   Ok (match p with Some (_, _, rs, mdat) => Some (map (fun q => (id q, zlen (samples q), decodeTime q, media (default [] v) q)) rs, mdat) | None => None end))
  = Ok (Some ([(2, 3, Ok 93952, [21; 22; 23; 24])], [21; 22; 23; 24])).
Proof. vm_compute. reflexivity. Qed.

Lemma views_keep_their_media_witness : exists out, keepTracksFrag ex_frag [2] = Ok (Some out) /\ views [2] ex_frag out.
Proof.
  pose proof (views_keep_their_media ex_frag [2] ltac:(bytes_dec) ltac:(vm_compute; discriminate)) as H.
  destruct (keepTracksFrag ex_frag [2]) as [[out |] | |] eqn:E; [exists out; split; [reflexivity | exact H] | | destruct H | destruct H].
  exfalso. vm_compute in E. discriminate E.
Defined.

(** ** The init of a view *)

Definition has_kind (k : string) (c : list Z * list Z) : bool := bytes_equal (fst c) (lit k).
(** A default of a track that stays, or another box of the [mvex] *)
Definition stays (ids : list Z) (c : list Z * list Z) : bool :=
  (negb (has_kind "trex" c) || match u32_at (snd c) 4 with Ok i => wanted ids i | _ => false end)%bool.
(** A default says whose it is. *)
Definition named (x : box) : Prop := is_kind "trex" x = true -> 8 <= zlen (body x).
(** The boxes of a [moov] and those of its view, which has [n] tracks *)
Inductive moov_view (ids : list Z) : list (list Z * list Z) -> list (list Z * list Z) -> Z -> Prop :=
  | moov_nil : moov_view ids [] [] 0
  | moov_trak b i s cs vs n : has_kind "trak" b = true -> trackScale (snd b) = Ok (Some (i, s)) -> moov_view ids cs vs n ->
      moov_view ids (b :: cs) (if wanted ids i then b :: vs else vs) (if wanted ids i then n + 1 else n)
  | moov_mvex b v xs ys cs vs n : has_kind "trak" b = false -> has_kind "mvex" b = true -> boxes (snd b) = Ok xs -> boxes v = Ok ys ->
      Forall named xs ->
      map content ys = List.filter (stays ids) (map content xs) -> moov_view ids cs vs n -> moov_view ids (b :: cs) ((fst b, v) :: vs) n
  | moov_other b cs vs n : has_kind "trak" b = false -> has_kind "mvex" b = false -> moov_view ids cs vs n -> moov_view ids (b :: cs) (b :: vs) n.
Inductive tops_view (ids : list Z) : list (list Z * list Z) -> list (list Z * list Z) -> Z -> Prop :=
  | tops_nil : tops_view ids [] [] 0
  | tops_moov b v xs ys cs vs k n : has_kind "moov" b = true -> boxes (snd b) = Ok xs -> boxes v = Ok ys ->
      moov_view ids (map content xs) (map content ys) k -> tops_view ids cs vs n -> tops_view ids (b :: cs) ((fst b, v) :: vs) (k + n)
  | tops_other b cs vs n : has_kind "moov" b = false -> tops_view ids cs vs n -> tops_view ids (b :: cs) (b :: vs) n.

Lemma kind_is k x : is_kind k x = has_kind k (content x).
Proof. done. Qed.
Lemma kind_lit k c : has_kind k c = true -> fst c = lit k.
Proof. apply bool_decide_eq_true_1. Qed.
Lemma put_len c : zlen (fst c) = 4 -> zlen (put c) = 8 + zlen (snd c).
Proof. apply putBox_len. Qed.
Lemma boxes_len_nonneg bs : 0 <= boxes_len bs.
Proof. induction bs as [| b bs IH]; cbn [boxes_len]; [lia |]. pose proof (zlen_nonneg (body b)). lia. Qed.
Lemma in_box_ok n x : n < 2 ^ 31 -> box_in n x -> box_ok (content x).
Proof. intros Hn (_ & Hk & H1 & H2). pose proof (zlen_nonneg (body x)). split; cbn; [done | lia]. Qed.
Lemma reads_back cs : Forall box_ok cs -> exists ys, boxes (concat (map put cs)) = Ok ys /\ map content ys = cs.
Proof. intros H. by apply boxes_reads, returns_exists in H. Qed.

(** What a loop over boxes writes: boxes that can be read, no more bytes than there were *)
Definition wrote (bs : list box) (out : list Z) (cs : list (list Z * list Z)) : Prop :=
  out = concat (map put cs) /\ Forall box_ok cs /\ zlen out <= boxes_len bs.
Lemma wrote_nil : wrote [] [] [].
Proof. split; [done |]. split; [constructor | done]. Qed.
Lemma wrote_skip b bs out cs : wrote bs out cs -> wrote (b :: bs) out cs.
Proof. intros (H1 & H2 & H3). split; [done |]. split; [done |]. cbn [boxes_len]. pose proof (zlen_nonneg (body b)). lia. Qed.
Lemma wrote_cons b c bs out cs : wrote bs out cs -> box_ok c -> zlen (snd c) <= zlen (body b) -> wrote (b :: bs) (put c ++ out) (c :: cs).
Proof.
  intros (-> & H2 & H3) Hc Hl. split; [done |]. split; [by constructor |]. cbn [boxes_len]. rewrite zlen_app, put_len by apply Hc. lia.
Qed.

Section init.
Context (ids : list Z) (n : Z).
Hypothesis Hn : n < 2 ^ 31.

Lemma mvex_view bs : Forall (box_in n) bs -> returns (mvex_loop bs ids) (fun o => match o with
  | Some out => Forall named bs /\ wrote bs out (List.filter (stays ids) (map content bs)) | None => ~ Forall named bs end).
Proof.
  induction 1 as [| x bs Hx Hbs IH]; cbn [mvex_loop map List.filter]; [split; [constructor | apply wrote_nil] |]. pose proof (in_box_ok n x Hn Hx) as Hok.
  unfold stays at 1. rewrite kind_is. destruct (has_kind "trex" (content x)) eqn:Et; cbn [negb orb].
  - destruct (zlen (body x) <? 8) eqn:E8; [intros H; apply Forall_cons in H as [H _]; specialize (H Et); lia |].
    assert (named x) as Hnamed by (intros _; lia). pose proof Hx as (Hb & _).
    pose proof (returns_u32_at (body x) 4 (fun _ => True) Hb ltac:(lia) ltac:(lia) ltac:(done)) as Hu. cbn [content snd].
    destruct (u32_at (body x) 4) as [i | |]; [| done..]. cbn [rbind]. apply returns_bind. eapply returns_mono; [exact IH |].
    intros [out |]; destruct (wanted ids i); cbn [returns option_map]; try (intros Hno H; apply Forall_cons in H as [_ H]; by apply Hno); intros [Ha Hw]; (split; [by constructor |]);
      [apply (wrote_cons x (content x)); [exact Hw | exact Hok | apply Z.le_refl] | by apply wrote_skip].
  - assert (named x) as Hnamed by (unfold named; rewrite kind_is, Et; done).
    apply returns_bind. eapply returns_mono; [exact IH |]. intros [out |]; cbn [returns option_map]; [| intros Hno H; apply Forall_cons in H as [_ H]; by apply Hno].
    intros [Ha Hw]. split; [by constructor |]. apply (wrote_cons x (content x)); [exact Hw | exact Hok | apply Z.le_refl].
Qed.

Lemma trackScale_total b : bytes_ok b -> returns (trackScale b) (fun _ => True).
Proof.
  intros Hb. unfold trackScale, child.
  assert (forall c, bytes_ok c -> forall k, returns (let! bs := boxes c in Ok (child_of bs k)) bytes_ok) as Hc.
  { intros c Hc k. apply returns_bind. eapply returns_mono; [by apply boxes_total |]. intros bs Hbs. cbn [returns]. unfold child_of.
    destruct (List.find (is_kind k) bs) as [x |] eqn:E; [| apply bytes_ok_nil]. apply List.find_some in E as [E _].
    rewrite Forall_forall in Hbs. apply list_elem_of_In in E. by apply (Hbs x E). }
  apply returns_bind. eapply returns_mono; [by apply Hc |]. intros tkhd Ht. apply returns_bind. eapply returns_mono; [by apply Hc |]. intros mdia Hm.
  apply returns_bind. eapply returns_mono; [by apply Hc |]. intros mdhd Hd. go_step; [done |].
  do 2 go_step. apply returns_bind, returns_u32_at; [done | case_match; lia | case_match; lia |]. intros i _.
  do 2 go_step. apply returns_bind, returns_u32_at; [done | case_match; lia | case_match; lia |]. intros s _. done.
Qed.

Lemma moov_views bs : Forall (box_in n) bs -> returns (moov_loop bs ids) (fun o => match o with
  | Some (out, k) => exists cs, wrote bs out cs /\ moov_view ids (map content bs) cs k | None => forall vs k, ~ moov_view ids (map content bs) vs k end).
Proof.
  induction 1 as [| b bs Hb Hbs IH]; cbn [moov_loop map]. { exists []. split; [apply wrote_nil | constructor]. }
  pose proof (in_box_ok n b Hn Hb) as Hok. rewrite !kind_is. pose proof Hb as (Hbb & _). destruct (has_kind "trak" (content b)) eqn:Ek.
  - pose proof (trackScale_total (body b) Hbb) as Ht. destruct (trackScale (body b)) as [[[i s] |] | |] eqn:Et; [| | done..]; cbn [rbind].
    2: { intros vs k H. inversion H; subst; try congruence. cbn in *. congruence. }
    apply returns_bind. eapply returns_mono; [exact IH |]. intros [[out k] |].
    2: { intros Hno. destruct (wanted ids i); cbn [returns option_map]; intros vs k H; inversion H; subst; try congruence; by eapply Hno. }
    intros (cs & Hw & Hv).
    pose proof (moov_trak ids (content b) i s _ _ _ Ek Et Hv) as Hv2. rewrite <- (kind_lit _ _ Ek).
    destruct (wanted ids i); cbn [returns option_map fst snd]; eexists; (split; [| exact Hv2]); [apply (wrote_cons b (content b)); [exact Hw | exact Hok | apply Z.le_refl] | apply wrote_skip; exact Hw].
  - destruct (has_kind "mvex" (content b)) eqn:Em.
    + pose proof (boxes_total (body b) Hbb) as Hxs. destruct (boxes (body b)) as [xs | |] eqn:Ex; [| done..]. cbn [rbind returns] in *.
      assert (Forall (box_in n) xs) as Hxs2.
      { pose proof (box_in_small _ _ Hb). eapply Forall_impl; [exact Hxs |]. intros x (? & ? & ? & ?). split_and!; [done | done | done | lia]. }
      apply returns_bind. eapply returns_mono; [by apply mvex_view |]. intros [mvex |].
      2: { intros Hno vs k H. inversion H; subst; try congruence. cbn [content snd] in *. assert (xs0 = xs) as -> by congruence. done. }
      intros (Hnm & E1 & E2 & E3).
      destruct (reads_back _ E2) as (ys & Ey & Ec). rewrite <- E1 in Ey. unfold boxes in Ex. pose proof (boxes_loop_len _ _ _ _ Hbb Ex) as Hl.
      apply returns_bind. eapply returns_mono; [exact IH |]. intros [[out k] |]; cbn [returns option_map fst snd].
      2: { intros Hno vs k H. inversion H; subst; try congruence. by eapply Hno. }
      intros (cs & Hw & Hv). exists ((lit "mvex", mvex) :: cs). split.
      * apply (wrote_cons b (lit "mvex", mvex)); [done | | cbn; lia]. destruct Hok as [_ Hok]. cbn in Hok. split; cbn; [done | lia].
      * rewrite <- (kind_lit _ _ Em). by eapply moov_mvex.
    + apply returns_bind. eapply returns_mono; [exact IH |]. intros [[out k] |]; cbn [returns option_map fst snd].
      2: { intros Hno vs k H. inversion H; subst; try congruence. by eapply Hno. }
      intros (cs & Hw & Hv).
      exists (content b :: cs). split; [apply (wrote_cons b (content b)); [exact Hw | exact Hok | apply Z.le_refl] | by apply moov_other].
Qed.

Lemma tops_views bs : Forall (box_in n) bs -> returns (tops_loop bs ids) (fun o => match o with
  | Some (out, k) => exists cs, wrote bs out cs /\ tops_view ids (map content bs) cs k | None => forall vs k, ~ tops_view ids (map content bs) vs k end).
Proof.
  induction 1 as [| b bs Hb Hbs IH]; cbn [tops_loop map]. { exists []. split; [apply wrote_nil | constructor]. }
  pose proof (in_box_ok n b Hn Hb) as Hok. rewrite !kind_is. pose proof Hb as (Hbb & _). destruct (has_kind "moov" (content b)) eqn:Ek; cbn [negb].
  - pose proof (boxes_total (body b) Hbb) as Hxs. destruct (boxes (body b)) as [xs | |] eqn:Ex; [| done..]. cbn [rbind returns] in *.
    assert (Forall (box_in n) xs) as Hxs2.
    { pose proof (box_in_small _ _ Hb). eapply Forall_impl; [exact Hxs |]. intros x (? & ? & ? & ?). split_and!; [done | done | done | lia]. }
    apply returns_bind. eapply returns_mono; [by apply moov_views |]. intros [[moov k] |].
    2: { intros Hno vs k H. inversion H; subst; try congruence. cbn [content snd] in *. assert (xs0 = xs) as -> by congruence. by eapply Hno. }
    intros (vs & (E1 & E2 & E3) & Hv).
    destruct (reads_back _ E2) as (ys & Ey & Ec). rewrite <- E1 in Ey. unfold boxes in Ex. pose proof (boxes_loop_len _ _ _ _ Hbb Ex) as Hl.
    apply returns_bind. eapply returns_mono; [exact IH |]. intros [[out j] |]; cbn [returns option_map fst snd].
    2: { intros Hno vs' k' H. inversion H; subst; try congruence. by eapply Hno. }
    intros (cs & Hw & Hvs).
    exists ((lit "moov", moov) :: cs). split.
    + apply (wrote_cons b (lit "moov", moov)); [done | | cbn; lia]. destruct Hok as [_ Hok]. cbn in Hok. split; cbn; [done | lia].
    + rewrite <- (kind_lit _ _ Ek). eapply tops_moov; try done. by rewrite Ec.
  - apply returns_bind. eapply returns_mono; [exact IH |]. intros [[out k] |]; cbn [returns option_map fst snd].
    2: { intros Hno vs k H. inversion H; subst; try congruence. by eapply Hno. }
    intros (cs & Hw & Hv).
    exists (content b :: cs). split; [apply (wrote_cons b (content b)); [exact Hw | exact Hok | apply Z.le_refl] | by apply tops_other].
Qed.
End init.

(** The tracks a [moov] has, by its boxes *)
Fixpoint scales_c (cs : list (list Z * list Z)) (out : gmap Z Z) : res (gmap Z Z) :=
  match cs with
  | [] => Ok out
  | c :: cs =>
      if negb (has_kind "trak" c) then scales_c cs out else
      let! r := trackScale (snd c) in
      scales_c cs (match r with Some (i, s) => <[i := s]> out | None => out end)
  end.
Lemma scales_content bs out : scales_loop bs out = scales_c (map content bs) out.
Proof.
  revert out. induction bs as [| b bs IH]; intros out; cbn [scales_loop map scales_c]; [done |]. rewrite kind_is.
  destruct (negb _); [apply IH |]. cbn [content snd]. destruct (trackScale (body b)); cbn [rbind]; [apply IH | done | done].
Qed.
Definition first_moov (cs : list (list Z * list Z)) : list Z := match List.find (has_kind "moov") cs with Some c => snd c | None => [] end.
Lemma child_content bs : child_of bs "moov" = first_moov (map content bs).
Proof.
  unfold child_of, first_moov. induction bs as [| b bs IH]; cbn [List.find map]; [done |]. rewrite kind_is. by destruct (has_kind "moov" (content b)).
Qed.

Definition of_tracks (ids : list Z) (m : gmap Z Z) : gmap Z Z := filter (fun p => fst p ∈ ids) m.
Lemma moov_view_scales ids cs vs k : moov_view ids cs vs k -> forall m, exists m', scales_c cs m = Ok m' /\ scales_c vs (of_tracks ids m) = Ok (of_tracks ids m').
Proof.
  induction 1 as [| b i s cs vs k Hk Ht Hv IH | b v xs ys cs vs k Hk Hm _ _ _ _ Hv IH | b cs vs k Hk Hm Hv IH]; intros m; cbn [scales_c].
  - by exists m.
  - rewrite Hk. cbn [negb]. rewrite Ht. cbn [rbind]. destruct (IH (<[i := s]> m)) as (m' & E1 & E2). exists m'. split; [done |]. rewrite <- E2.
    unfold wanted, of_tracks. case_bool_decide as Hi.
    + cbn [scales_c]. rewrite Hk. cbn [negb]. rewrite Ht. cbn [rbind]. f_equal. symmetry. by apply map_filter_insert_True.
    + f_equal. rewrite map_filter_insert_False by done. symmetry. by apply map_filter_delete_not.
  - rewrite Hk. assert (has_kind "trak" (fst b, v) = false) as Hk2 by done. cbn [negb]. destruct (IH m) as (m' & E1 & E2). exists m'. by rewrite Hk2.
  - rewrite Hk. cbn [negb]. apply IH.
Qed.

(** Both [moov]s of the same place, or none *)
Lemma tops_first ids cs vs k : tops_view ids cs vs k -> (first_moov cs = [] /\ first_moov vs = []) \/
  exists xs ys n, boxes (first_moov cs) = Ok xs /\ boxes (first_moov vs) = Ok ys /\ moov_view ids (map content xs) (map content ys) n.
Proof.
  induction 1 as [| b v xs ys cs vs k n Hk Ex Ey Hm Hv IH | b cs vs n Hk Hv IH]; unfold first_moov in *; cbn [List.find].
  - by left.
  - rewrite Hk. assert (has_kind "moov" (fst b, v) = true) as -> by done. right. by exists xs, ys, k.
  - by rewrite Hk.
Qed.

Lemma moov_view_count ids cs vs k : moov_view ids cs vs k -> forall vs' k', moov_view ids cs vs' k' -> k = k'.
Proof.
  induction 1 as [| b i s cs vs k Hk Ht Hv IH | b v xs ys cs vs k Hk Hm _ _ _ _ Hv IH | b cs vs k Hk Hm Hv IH]; intros vs' k' H; inversion H; subst; try congruence; eauto.
  assert (i0 = i) as -> by congruence. destruct (wanted ids i); [f_equal |]; eauto.
Qed.
Lemma tops_view_count ids cs vs k : tops_view ids cs vs k -> forall vs' k', tops_view ids cs vs' k' -> k = k'.
Proof.
  induction 1 as [| b v xs ys cs vs k n Hk Ex Ey Hm Hv IH | b cs vs n Hk Hv IH]; intros vs' k' H; inversion H; subst; try congruence; eauto.
  assert (xs0 = xs) as -> by congruence. f_equal; [by eapply moov_view_count | eauto].
Qed.

(** An init and its view: the boxes, read *)
Definition init_view (ids : list Z) (init out : list Z) : Prop :=
  exists bs bs', boxes init = Ok bs /\ boxes out = Ok bs' /\ tops_view ids (map content bs) (map content bs') (zlen ids).

Lemma init_view_scales ids init out : init_view ids init out ->
  exists m, trackScales init = Ok m /\ trackScales out = Ok (of_tracks ids m).
Proof.
  intros (bs & bs' & E1 & E2 & Hv). unfold trackScales, child. rewrite E1, E2. cbn [rbind]. rewrite !child_content.
  destruct (tops_first _ _ _ _ Hv) as [[-> ->] | (xs & ys & n & -> & -> & Hm)].
  - exists empty. cbn. split; [done |]. f_equal.
  - cbn [rbind]. rewrite !scales_content. destruct (moov_view_scales _ _ _ _ Hm empty) as (m' & E3 & E4). exists m'. split; [done |]. rewrite <- E4. by f_equal.
Qed.

(** C7. The init of a view is made exactly when the tracks and the fragment defaults of the init can
    be read and as many of its tracks are wanted as the view has. It reads as
    every box of the init but the tracks, and the defaults of tracks, that are
    not wanted; so the tracks it names are the wanted ones, each at the time
    scale it had. *)
Theorem init_keeps_tracks init ids : bytes_ok init -> zlen init < 2 ^ 31 ->
  returns (keepTracks init ids) (fun o => match o with
    | Some out => init_view ids init out /\ exists m, trackScales init = Ok m /\ trackScales out = Ok (of_tracks ids m)
    | None => forall out, ~ init_view ids init out
    end).
Proof.
  intros Hb Hl. unfold keepTracks. pose proof (boxes_total init Hb) as Hbs. destruct (boxes init) as [bs | |] eqn:E; [| done..]. cbn [rbind returns] in *.
  apply returns_bind. eapply returns_mono; [by eapply tops_views |]. intros [[out k] |]; cbn [returns].
  - intros (cs & (-> & Hok & _) & Hv). destruct (k =? zlen ids) eqn:Ek; cbn [negb].
    + destruct (reads_back _ Hok) as (ys & Ey & Ec). assert (init_view ids init (concat (map put cs))) as Hi.
      { exists bs, ys. split; [done |]. split; [done |]. rewrite Ec. by replace (zlen ids) with k by lia. }
      split; [done |]. by apply init_view_scales.
    + intros o (bs1 & bs2 & E1 & _ & Hv2). rewrite E in E1. injection E1 as <-. pose proof (tops_view_count _ _ _ _ Hv _ _ Hv2). lia.
  - intros Hno o (bs1 & bs2 & E1 & _ & Hv2). rewrite E in E1. injection E1 as <-. by eapply Hno.
Qed.

(** A picture and two sounds *)
Definition ex_track (i scale : Z) : list Z :=
  putBox (lit "trak") (putBox (lit "tkhd") (repeat 0 12 ++ be32 i ++ repeat 0 8) ++
    putBox (lit "mdia") (putBox (lit "mdhd") (repeat 0 12 ++ be32 scale ++ repeat 0 8))).
Definition ex_init : list Z :=
  putBox (lit "ftyp") (lit "iso5") ++
  putBox (lit "moov") (putBox (lit "mvhd") (repeat 0 16) ++ ex_track 1 90000 ++ ex_track 2 48000 ++ ex_track 3 44100 ++
    putBox (lit "mvex") (concat (map (fun i => putBox (lit "trex") (repeat 0 4 ++ be32 i ++ repeat 0 16)) [1; 2; 3]))).
Example ex_sound_init :
  (let! o := keepTracks ex_init [3] in let! m := trackScales (default [] o) in Ok (map_to_list m)) = Ok [(3, 44100)].
Proof. vm_compute. reflexivity. Qed.

Lemma init_keeps_tracks_witness : exists out, keepTracks ex_init [2] = Ok (Some out) /\ init_view [2] ex_init out.
Proof.
  pose proof (init_keeps_tracks ex_init [2] ltac:(bytes_dec) ltac:(vm_compute; reflexivity)) as H.
  destruct (keepTracks ex_init [2]) as [[out |] | |] eqn:E; [exists out; split; [reflexivity | exact (proj1 H)] | | destruct H | destruct H].
  exfalso. vm_compute in E. discriminate E.
Defined.
