(* ===== verification/LiveCuts.v ===== *)
(** The cache of cuts, [cutCache] of [server/internal/live/views.go]: the cuts of
    the files of an encode, kept while they are used, each made by one of the
    screens that ask for it at once while the others wait.

    Each stretch of [file] between two takes of the lock is one step; reading and
    cutting the file happens between two such steps of one screen, with others'
    steps in between. A channel is a number, never used again. What the reading
    and the cutting give for a key is an argument: a relation, for a file may be
    replaced while it is read. *)
From S2P Require Import Prelude GoText.
Local Open Scope Z_scope.
Local Open Scope go_scope.

Definition cutBudget : Z := Z.shiftl 64 20.

Record cutKey := mkKey { path : list Z; tag : list Z; ksize : Z; kmod : Z }.
#[global] Instance cutKey_eq : EqDecision cutKey.
Proof. solve_decision. Defined.
#[global] Instance cutKey_countable : Countable cutKey.
Proof.
  refine (inj_countable' (fun k => (path k, tag k, ksize k, kmod k)) (fun x => let ' (p, t, s, m) := x in mkKey p t s m) _).
  by intros [].
Defined.

Record cutCache := mkCache {
  order : list cutKey; cuts : gmap cutKey (list Z); pending : gmap cutKey nat; held : Z; misses : Z;
}.
Definition no_cuts : cutCache := mkCache [] ∅ ∅ 0 0.

(** [slices.Index] and [slices.Delete], which panics where there is nothing *)
Fixpoint without_key (l : list cutKey) (k : cutKey) : res (list cutKey) :=
  match l with
  | [] => Panic
  | x :: l => if decide (x = k) then Ok l else let! l := without_key l k in Ok (x :: l)
  end.

(** The first stretch of [file], the lock held: a cut that is kept, a cut to wait
    for, or one to make; [fresh] is the channel [make] gives. *)
Inductive found := Hit (body : list Z) | Busy (ch : nat) | Mine.
Definition look (c : cutCache) (k : cutKey) (fresh : nat) : res (cutCache * found) :=
  match cuts c !! k with
  | Some body =>
      let! l := without_key (order c) k in
      Ok (mkCache (l ++ [k]) (cuts c) (pending c) (held c) (misses c), Hit body)
  | None =>
      match pending c !! k with
      | Some ch => Ok (c, Busy ch)
      | None => Ok (mkCache (order c) (cuts c) (<[k := fresh]> (pending c)) (held c) (misses c + 1), Mine)
      end
  end.

(** The loop of [putLocked]: the least recently used goes first. *)
Fixpoint evict (l : list cutKey) (m : gmap cutKey (list Z)) (n : Z) : res (list cutKey * gmap cutKey (list Z) * Z) :=
  if n <=? cutBudget then Ok (l, m, n) else
  match l with
  | [] => Panic
  | old :: l => evict l (delete old m) (n - zlen (default [] (m !! old)))
  end.
Definition putLocked (c : cutCache) (k : cutKey) (body : list Z) : res cutCache :=
  if (bool_decide (is_Some (cuts c !! k)) || (cutBudget <? zlen body))%bool then Ok c else
  let! ' (l, m, n) := evict (order c ++ [k]) (<[k := body]> (cuts c)) (held c + zlen body) in
  Ok (mkCache l m (pending c) n (misses c)).

(** The last stretch of [file]: the channel to close, and the cut if there is one.
    Closing what is not there panics. *)
Definition made (c : cutCache) (k : cutKey) (o : option (list Z)) : res (cutCache * nat) :=
  match pending c !! k with
  | None => Panic
  | Some ch =>
      let c := mkCache (order c) (cuts c) (delete k (pending c)) (held c) (misses c) in
      match o with
      | None => Ok (c, ch)
      | Some body => let! c := putLocked c k body in Ok (c, ch)
      end
  end.

(** ** Screens *)

Inductive at_ :=
  | Looking (k : cutKey)                        (* about to take the lock *)
  | Waiting (k : cutKey) (ch : nat)             (* at the channel *)
  | Making (k : cutKey)                         (* reading and cutting *)
  | Answered (k : cutKey) (o : option (list Z)).
Record world := mkWorld { cache : cutCache; screens : gmap nat at_; closed : gset nat; fresh : nat }.
Definition start : world := mkWorld no_cuts ∅ ∅ 0.

Section steps.
(** What reading and cutting a key's file may give *)
Context (gives : cutKey -> option (list Z) -> Prop).

Definition moves (w : world) (c : cutCache) (t : nat) (a : at_) : world := mkWorld c (<[t := a]> (screens w)) (closed w) (fresh w).
Inductive step (w : world) : world -> Prop :=
  | step_ask t k : screens w !! t = None -> step w (moves w (cache w) t (Looking k))
  | step_hit t k c body : screens w !! t = Some (Looking k) -> look (cache w) k (fresh w) = Ok (c, Hit body) ->
      step w (moves w c t (Answered k (Some body)))
  | step_busy t k c ch : screens w !! t = Some (Looking k) -> look (cache w) k (fresh w) = Ok (c, Busy ch) -> step w (moves w c t (Waiting k ch))
  | step_mine t k c : screens w !! t = Some (Looking k) -> look (cache w) k (fresh w) = Ok (c, Mine) ->
      step w (mkWorld c (<[t := Making k]> (screens w)) (closed w) (S (fresh w)))
  | step_wake t k ch : screens w !! t = Some (Waiting k ch) -> ch ∈ closed w -> step w (moves w (cache w) t (Looking k))
  | step_made t k o c ch : screens w !! t = Some (Making k) -> gives k o -> made (cache w) k o = Ok (c, ch) ->
      step w (mkWorld c (<[t := Answered k o]> (screens w)) ({[ch]} ∪ closed w) (fresh w)).
Inductive reach : world -> Prop :=
  | reach_start : reach start
  | reach_step w w' : reach w -> step w w' -> reach w'.
End steps.

(** * Proofs *)

(** ** What is kept *)

Definition total (m : gmap cutKey (list Z)) (l : list cutKey) : Z := fold_right (fun k n => zlen (default [] (m !! k)) + n) 0 l.
(** The order names each kept cut once, and their bytes are counted and in bounds. *)
Record kept (c : cutCache) : Prop := {
  kept_once : NoDup (order c);
  kept_names : forall k, k ∈ order c <-> is_Some (cuts c !! k);
  kept_held : held c = total (cuts c) (order c);
  kept_bound : held c <= cutBudget;
}.

Lemma total_ext m m' l : (forall k, k ∈ l -> m !! k = m' !! k) -> total m l = total m' l.
Proof.
  induction l as [| k l IH]; intros H; [done |]. cbn [total fold_right]. rewrite (H k) by set_solver. f_equal. apply IH. set_solver.
Qed.
Lemma total_app m a b : total m (a ++ b) = total m a + total m b.
Proof. induction a as [| k a IH]; [done |]. cbn [app total fold_right]. unfold total in IH. rewrite IH. unfold total. lia. Qed.
Lemma total_perm m a b : a ≡ₚ b -> total m a = total m b.
Proof. induction 1; cbn [total fold_right]; unfold total in *; lia. Qed.
Lemma total_nonneg m l : 0 <= total m l.
Proof. induction l as [| k l IH]; cbn [total fold_right]; [lia |]. pose proof (zlen_nonneg (default [] (m !! k))). unfold total in IH. lia. Qed.

Lemma without_key_perm l k : k ∈ l -> exists l', without_key l k = Ok l' /\ l ≡ₚ k :: l'.
Proof.
  induction l as [| x l IH]; [by intros ?%elem_of_nil |]. intros H. cbn [without_key]. destruct (decide (x = k)) as [-> | Hne].
  - by exists l.
  - destruct IH as (l' & E & Hp); [by apply elem_of_cons in H as [-> |] |]. rewrite E. cbn [rbind]. exists (x :: l'). split; [done |].
    rewrite Hp. apply Permutation_swap.
Qed.

(** The oldest keys go, no more of them than the bound asks. *)
Definition evicted (m : gmap cutKey (list Z)) (l l' : list cutKey) (m' : gmap cutKey (list Z)) : Prop :=
  exists d, l = d ++ l' /\ (forall k, m' !! k = if decide (k ∈ d) then None else m !! k) /\ total m l' <= cutBudget /\
    match last d with Some x => cutBudget < total m (x :: l') | None => True end.
Lemma evict_oldest l m n : NoDup l -> n = total m l ->
  returns (evict l m n) (fun p => let ' (l', m', n') := p in evicted m l l' m' /\ n' = total m l').
Proof.
  revert m n. induction l as [| old l IH]; intros m n Hd ->; cbn [evict].
  - change (total m [] <=? cutBudget) with true. cbn [returns]. split; [| done]. exists []. split_and!; [done | | done | done]. intros k. by rewrite decide_False by apply not_elem_of_nil.
  - apply NoDup_cons in Hd as [Hno Hd]. destruct (Z.leb_spec (total m (old :: l)) cutBudget) as [Hle | Hgt].
    { cbn [returns]. split; [| done]. exists []. split_and!; [done | | done | done]. intros k. by rewrite decide_False by apply not_elem_of_nil. }
    assert (forall l2, (forall k, k ∈ l2 -> k ∈ l) -> total (delete old m) l2 = total m l2) as Hext.
    { intros l2 Hsub. apply total_ext. intros k Hk. apply lookup_delete_ne. intros ->. by apply Hno, Hsub. }
    eapply returns_mono; [apply (IH (delete old m)); [done | rewrite Hext by done; cbn [total fold_right]; unfold total; lia] |].
    intros [[l' m'] n'] [(d & -> & Hm & Hb & Hlast) ->].
    rewrite !Hext in * by set_solver. split; [| done]. exists (old :: d). split_and!; [done | | done |].
    + intros k. rewrite Hm. destruct (decide (k ∈ d)) as [Hk | Hk]; [by rewrite decide_True by set_solver |].
      destruct (decide (k = old)) as [-> | Hne]; [rewrite lookup_delete_eq; by rewrite decide_True by set_solver |].
      rewrite lookup_delete_ne by done. by rewrite decide_False by set_solver.
    + rewrite last_cons. destruct (last d) as [x |] eqn:El; [| by apply last_None in El as ->].
      apply last_Some in El as [d0 ->]. by rewrite Hext in Hlast by set_solver.
Qed.

Lemma total_insert m k b l : k ∉ l -> total (<[k := b]> m) l = total m l.
Proof. intros Hk. apply total_ext. intros x Hx. apply lookup_insert_ne. set_solver. Qed.

Lemma put_kept c k body : kept c -> returns (putLocked c k body) (fun c' => kept c' /\ pending c' = pending c /\ misses c' = misses c /\
  if (bool_decide (is_Some (cuts c !! k)) || (cutBudget <? zlen body))%bool then c' = c
  else evicted (<[k := body]> (cuts c)) (order c ++ [k]) (order c') (cuts c')).
Proof.
  intros [Hn Hk Hh Hb]. unfold putLocked. destruct (_ || _)%bool eqn:E; [by split_and!; [constructor | ..] |]. apply orb_false_iff in E as [E1 E2].
  apply bool_decide_eq_false_1 in E1. assert (k ∉ order c) as Hno by (by rewrite Hk).
  apply returns_bind. eapply returns_mono.
  { apply (evict_oldest (order c ++ [k])); [apply NoDup_app; split_and!; [done | set_solver | apply NoDup_singleton] |].
    rewrite total_app, total_insert by done. rewrite Hh. unfold total at 3. cbn [fold_right]. rewrite lookup_insert_eq. cbn [default from_option id]. lia. }
  intros [[l m] n] [Hev ->]. cbn [returns]. split_and!; [| done | done | done]. destruct Hev as (d & El & Hm & Ht & Hlast).
  assert (NoDup (d ++ l)) as Hnd by (rewrite <- El; apply NoDup_app; split_and!; [done | set_solver | apply NoDup_singleton]).
  apply NoDup_app in Hnd as (Hnd & Hdl & Hnl). split; cbn; [done | | |].
  - intros x. rewrite Hm. assert (x ∈ order c ++ [k] <-> x ∈ d ++ l) as Hx by (by rewrite El). rewrite elem_of_app, elem_of_app, list_elem_of_singleton, Hk in Hx.
    destruct (decide (x ∈ d)) as [Hd | Hd]; [split; [intros Hxl; by destruct (Hdl x Hd) | by intros []] |].
    rewrite lookup_insert. destruct (decide (k = x)) as [-> | Hne]; [split; [done | intros _; set_solver] |]. set_solver.
  - symmetry. apply total_ext. intros x Hx. rewrite Hm. rewrite decide_False; [done |]. intros Hd. by destruct (Hdl x Hd).
  - assert (total m l = total (<[k:=body]> (cuts c)) l) as Et; [| lia].
    apply total_ext. intros x Hx. rewrite Hm. rewrite decide_False; [done |]. intros Hd. by destruct (Hdl x Hd).
Qed.

Lemma look_kept c k fresh : kept c -> returns (look c k fresh) (fun p => kept (fst p) /\ match snd p with
  | Hit body => cuts c !! k = Some body /\ cuts (fst p) = cuts c /\ pending (fst p) = pending c /\ exists l, order c ≡ₚ k :: l /\ order (fst p) = l ++ [k]
  | Busy ch => fst p = c /\ pending c !! k = Some ch
  | Mine => cuts (fst p) = cuts c /\ cuts c !! k = None /\ pending c !! k = None /\ pending (fst p) = <[k := fresh]> (pending c)
  end).
Proof.
  intros [Hn Hk Hh Hb]. unfold look. destruct (cuts c !! k) as [body |] eqn:Ec.
  - destruct (without_key_perm (order c) k) as (l & E & Hp); [apply Hk; by rewrite Ec |]. rewrite E. cbn [rbind returns fst snd].
    assert (l ++ [k] ≡ₚ order c) as Hp2 by (by rewrite Hp, Permutation_app_comm).
    split; [| split_and!; [done | done | done | by exists l]]. split; cbn.
    + by rewrite Hp2.
    + intros x. by rewrite <- Hk, Hp2.
    + rewrite Hh. by apply total_perm.
    + done.
  - destruct (pending c !! k) as [ch |] eqn:Ep; cbn [returns fst snd]; split; try done.
Qed.

(** ** The screens *)

Section world.
Context (gives : cutKey -> option (list Z) -> Prop).
Notation reach := (reach gives).
Notation step := (step gives).

Record sound (w : world) : Prop := {
  w_kept : kept (cache w);
  w_given : forall k b, cuts (cache w) !! k = Some b -> gives k (Some b);
  w_answers : forall t k o, screens w !! t = Some (Answered k o) -> gives k o;
  (** One screen makes each pending cut, *)
  w_maker : forall k, is_Some (pending (cache w) !! k) <-> exists t, screens w !! t = Some (Making k);
  w_one : forall t t' k, screens w !! t = Some (Making k) -> screens w !! t' = Some (Making k) -> t = t';
  (** no kept cut is made again, *)
  w_new : forall k, is_Some (pending (cache w) !! k) -> cuts (cache w) !! k = None;
  (** and each screen that waits is at a closed channel or at that of a cut being made. *)
  w_waits : forall t k ch, screens w !! t = Some (Waiting k ch) -> ch ∈ closed w \/ pending (cache w) !! k = Some ch;
  w_open : forall k ch, pending (cache w) !! k = Some ch -> ch ∉ closed w /\ (ch < fresh w)%nat;
  w_apart : forall k k' ch, pending (cache w) !! k = Some ch -> pending (cache w) !! k' = Some ch -> k = k';
  w_closed : forall ch, ch ∈ closed w -> (ch < fresh w)%nat;
}.

Lemma cut_start_sound : sound start.
Proof.
  split; cbn; try set_solver; try (intros; by rewrite lookup_empty in *).
  - split; cbn; [constructor | intros k; rewrite lookup_empty; split; [by intros ?%elem_of_nil | by intros []] | done | by vm_compute].
  - intros k. rewrite lookup_empty. split; [by intros [] | intros [t Ht]; by rewrite lookup_empty in Ht].
Qed.

(** A screen that is not making, and goes elsewhere than to make *)
Definition making (a : at_) : option cutKey := match a with Making k => Some k | _ => None end.
Lemma maker_moves (m : gmap nat at_) t a b k : m !! t = Some a -> making a = None -> making b = None ->
  (exists u, <[t := b]> m !! u = Some (Making k)) <-> (exists u, m !! u = Some (Making k)).
Proof.
  intros Ht Ha Hb. split; intros [u Hu]; exists u.
  - rewrite lookup_insert in Hu. case_decide; [injection Hu as ->; done | done].
  - rewrite lookup_insert_ne; [done |]. intros ->. rewrite Ht in Hu. injection Hu as ->. done.
Qed.
Lemma making_insert (m : gmap nat at_) t b u k : making b = None -> <[t := b]> m !! u = Some (Making k) -> m !! u = Some (Making k).
Proof. intros Hb. rewrite lookup_insert. case_decide; [intros [= ->]; done | done]. Qed.

(** A step that only moves a screen, and the cache as [look] may leave it *)
Lemma moves_sound w c t a b : sound w -> screens w !! t = Some a \/ screens w !! t = None /\ a = b -> making a = None -> making b = None ->
  kept c -> cuts c = cuts (cache w) -> pending c = pending (cache w) ->
  (forall k o, b = Answered k o -> gives k o) -> (forall k ch, b = Waiting k ch -> pending c !! k = Some ch) ->
  sound (moves w c t b).
Proof.
  intros [H1 H2 H3 H4 H5 H6 H7 H8 HA H9] Ht Ha Hb Hk Hc Hp Hans Hwait. split; cbn [cache screens closed fresh moves]; rewrite ?Hc, ?Hp; try done.
  - intros u k o. rewrite lookup_insert. case_decide; [intros [= ->]; by apply Hans | apply H3].
  - intros k. rewrite H4. destruct Ht as [Ht | [Ht ->]]; [symmetry; by eapply maker_moves |].
    split; intros [u Hu]; exists u; [rewrite lookup_insert_ne by (intros ->; congruence); done | by eapply making_insert].
  - intros u u' k Hu Hu'. eapply H5; by eapply making_insert.
  - intros u k ch. rewrite lookup_insert. case_decide; [intros [= ->]; right; rewrite <- Hp; by apply Hwait | apply H7].
Qed.

Lemma mine_sound w c t k : sound w -> screens w !! t = Some (Looking k) -> kept c -> cuts c = cuts (cache w) -> cuts (cache w) !! k = None ->
  pending (cache w) !! k = None -> pending c = <[k := fresh w]> (pending (cache w)) -> sound (mkWorld c (<[t := Making k]> (screens w)) (closed w) (S (fresh w))).
Proof.
  intros [H1 H2 H3 H4 H5 H6 H7 H8 HA H9] Ht Hk Hc Hno Hnp Hp. split; cbn [cache screens closed fresh]; rewrite ?Hc, ?Hp; try done.
  - intros u k' o. rewrite lookup_insert. case_decide; [done | apply H3].
  - intros k'. rewrite lookup_insert. destruct (decide (k = k')) as [<- | Hne].
    + split; [intros _; exists t; apply lookup_insert_eq | done].
    + rewrite H4. split; intros [u Hu]; exists u; [rewrite lookup_insert_ne by (intros ->; congruence); done |].
      rewrite lookup_insert in Hu. case_decide; [congruence | done].
  - intros u u' k'. rewrite !lookup_insert. repeat case_decide; subst; try done; [| | apply H5].
    + intros [= <-] Hu. exfalso. assert (is_Some (pending (cache w) !! k)) as [] by (apply H4; by exists u'). congruence.
    + intros Hu [= <-]. exfalso. assert (is_Some (pending (cache w) !! k)) as [] by (apply H4; by exists u). congruence.
  - intros k'. rewrite lookup_insert. destruct (decide (k = k')) as [<- | Hne]; [done | apply H6].
  - intros u k' ch. rewrite !lookup_insert. destruct (decide (t = u)); [done |]. intros Hu. destruct (H7 u k' ch Hu) as [Hcl | Hpk]; [by left | right].
    rewrite decide_False; [done |]. intros ->. congruence.
  - intros k' ch. rewrite lookup_insert. destruct (decide (k = k')) as [<- | Hne].
    + intros [= <-]. split; [| lia]. intros Hcl. specialize (H9 _ Hcl). lia.
    + intros Hch. destruct (H8 k' ch Hch). split; [done | lia].
  - intros k1 k2 ch. rewrite !lookup_insert. destruct (decide (k = k1)) as [<- |], (decide (k = k2)) as [<- |]; [done | | | apply HA].
    + intros [= <-] Hch. destruct (H8 _ _ Hch). lia.
    + intros Hch [= <-]. destruct (H8 _ _ Hch). lia.
  - intros ch Hch. specialize (H9 ch Hch). lia.
Qed.

Lemma made_sound w t k o c ch : sound w -> screens w !! t = Some (Making k) -> gives k o -> made (cache w) k o = Ok (c, ch) ->
  sound (mkWorld c (<[t := Answered k o]> (screens w)) ({[ch]} ∪ closed w) (fresh w)) /\ pending (cache w) !! k = Some ch.
Proof.
  intros [H1 H2 H3 H4 H5 H6 H7 H8 HA H9] Ht Hg Hm. unfold made in Hm. destruct (pending (cache w) !! k) as [ch' |] eqn:Ep; [| done].
  set (c0 := mkCache (order (cache w)) (cuts (cache w)) (delete k (pending (cache w))) (held (cache w)) (misses (cache w))) in *.
  assert (kept c0) as Hk0 by (destruct H1; split; done).
  assert (kept c /\ pending c = pending c0 /\ ch = ch' /\ forall x b, cuts c !! x = Some b -> (x = k /\ o = Some b) \/ cuts (cache w) !! x = Some b) as (Hk & Hp & -> & Hcuts).
  { destruct o as [body |]; [| injection Hm as <- <-; split_and!; auto]. pose proof (put_kept c0 k body Hk0) as Hput.
    destruct (putLocked c0 k body) as [c1 | |]; [| done..]. cbn [rbind returns] in *. injection Hm as <- <-. destruct Hput as (Hk1 & Hp1 & _ & Hev).
    split_and!; [done | done | done |]. intros x b Hx. destruct (_ || _)%bool; [subst c1; by right |]. destruct Hev as (d & _ & Hmm & _). rewrite Hmm in Hx.
    destruct (decide (x ∈ d)); [done |]. rewrite lookup_insert in Hx. destruct (decide (k = x)) as [-> |]; [left; by injection Hx as -> | by right]. }
  clear Hm. split; [| done]. split; cbn [cache screens closed fresh]; rewrite ?Hp; cbn [pending c0]; try done.
  - intros x b Hx. destruct (Hcuts x b Hx) as [[-> ->] |]; [done | by apply H2].
  - intros u x o'. rewrite lookup_insert. case_decide; [by intros [= <- <-] | apply H3].
  - intros x. rewrite lookup_delete. destruct (decide (k = x)) as [<- | Hne].
    + split; [by intros [] |]. intros [u Hu]. rewrite lookup_insert in Hu. case_decide; [done |]. assert (t = u) by (by eapply H5). done.
    + rewrite H4. split; intros [u Hu]; exists u; [rewrite lookup_insert_ne by (intros ->; congruence); done |]. rewrite lookup_insert in Hu. by case_decide.
  - intros u u' x Hu Hu'. exact (H5 _ _ x (making_insert _ t (Answered k o) _ x eq_refl Hu) (making_insert _ t (Answered k o) _ x eq_refl Hu')).
  - intros x. rewrite lookup_delete. destruct (decide (k = x)) as [| Hne]; [by intros [] |]. intros Hx. destruct (cuts c !! x) as [b |] eqn:Ex; [| done].
    destruct (Hcuts x b Ex) as [[-> _] | Hb]; [done |]. rewrite (H6 x Hx) in Hb. done.
  - intros u x ch Hu. rewrite lookup_insert in Hu. destruct (decide (t = u)); [done |]. destruct (H7 u x ch Hu) as [Hcl | Hpx]; [left; set_solver |].
    rewrite lookup_delete. destruct (decide (k = x)) as [<- | Hne]; [left; set_solver | by right].
  - intros x ch. rewrite lookup_delete. destruct (decide (k = x)) as [| Hne]; [done |]. intros Hx. destruct (H8 x ch Hx) as [Hcl Hf]. split; [| done].
    rewrite not_elem_of_union, not_elem_of_singleton. split; [| done]. intros ->.
    by apply Hne, (HA _ _ _ Ep).
  - intros k1 k2 ch. rewrite !lookup_delete. destruct (decide (k = k1)), (decide (k = k2)); try done. apply HA.
  - intros ch. rewrite elem_of_union, elem_of_singleton. intros [-> | Hch]; [apply (H8 _ _ Ep) | by apply H9].
Qed.

Lemma cut_step_sound w w' : sound w -> step w w' -> sound w'.
Proof.
  intros Hs Hst. pose proof (w_kept _ Hs) as Hk. destruct Hst as [t k Ht | t k c body Ht Hl | t k c ch Ht Hl | t k c Ht Hl | t k ch Ht Hch | t k o c ch Ht Hg Hm].
  - by apply (moves_sound w (cache w) t (Looking k)); auto.
  - pose proof (look_kept (cache w) k (fresh w) Hk) as H. rewrite Hl in H; cbn [returns fst snd] in H; destruct H as (Hk1 & Hb & Hc & Hp & _).
    apply (moves_sound w c t (Looking k)); auto; [| done]. intros k' o [= <- <-]. by eapply w_given.
  - pose proof (look_kept (cache w) k (fresh w) Hk) as H. rewrite Hl in H; cbn [returns fst snd] in H; destruct H as (Hk1 & -> & Hp). cbn [fst] in *.
    apply (moves_sound w (cache w) t (Looking k)); auto; [done |]. by intros k' ch' [= <- <-].
  - pose proof (look_kept (cache w) k (fresh w) Hk) as H. rewrite Hl in H; cbn [returns fst snd] in H; destruct H as (Hk1 & Hc & Hno & Hnp & Hp). by apply mine_sound.
  - apply (moves_sound w (cache w) t (Waiting k ch)); auto; done.
  - by eapply made_sound.
Qed.
Lemma cut_reach_sound w : reach w -> sound w.
Proof. induction 1 as [| w w' _ IH Hs]; [apply cut_start_sound | by eapply cut_step_sound]. Qed.
End world.

(** C9. Whatever the order in which screens ask, wait, read and cut: the order of the cache names
    each kept cut once and its bytes are counted and within 64 MiB, every kept
    cut and every answer is what reading and cutting its file gave, a pending cut
    is being made by exactly one screen and is not also kept, a screen only
    waits for such a cut or for one that is done, and neither stretch of code
    under the lock panics: no channel is closed twice, no key missing. *)
Theorem cuts_sound gives w : reach gives w -> sound gives w /\
  (forall t k, screens w !! t = Some (Looking k) -> returns (look (cache w) k (fresh w)) (fun _ => True)) /\
  (forall t k o, screens w !! t = Some (Making k) -> returns (made (cache w) k o) (fun _ => True)).
Proof.
  intros Hw. pose proof (cut_reach_sound gives w Hw) as Hs. pose proof (w_kept _ _ Hs) as Hk. split; [done |]. split.
  - intros t k _. eapply returns_mono; [by apply look_kept | done].
  - intros t k o Ht. unfold made. assert (is_Some (pending (cache w) !! k)) as [ch ->] by (apply (w_maker _ _ Hs); by exists t).
    destruct o as [body |]; [| done]. apply returns_bind. eapply returns_mono; [| done]. apply put_kept. destruct Hk. by split.
Qed.

(** A cut that fits is kept when it is put. *)
Lemma put_stays c k body : kept c -> cuts c !! k = None -> zlen body <= cutBudget ->
  returns (putLocked c k body) (fun c' => cuts c' !! k = Some body /\ misses c' = misses c).
Proof.
  intros Hk Hno Hl. eapply returns_mono; [by apply put_kept |]. intros c' (_ & _ & Hm & Hev). split; [| done].
  rewrite Hno, bool_decide_eq_false_2 in Hev by (by intros []). rewrite (proj2 (Z.ltb_ge _ _) Hl) in Hev. destruct Hev as (d & El & Hc & _ & Hlast).
  rewrite Hc, lookup_insert_eq, decide_False; [done |]. intros Hd.
  assert (k ∉ order c) as Hnk by (rewrite (kept_names _ Hk), Hno; by intros []).
  destruct (order c') as [| x l] using rev_ind.
  - rewrite app_nil_r in El. rewrite <- El, last_snoc in Hlast. unfold total in Hlast. cbn [fold_right] in Hlast. rewrite lookup_insert_eq in Hlast. cbn in Hlast. lia.
  - rewrite app_assoc in El. apply app_inj_tail in El as [El _]. apply Hnk. rewrite El. set_solver.
Qed.

Lemma making_made gives w t k body : sound gives w -> screens w !! t = Some (Making k) -> zlen body <= cutBudget ->
  exists c ch, made (cache w) k (Some body) = Ok (c, ch) /\ pending (cache w) !! k = Some ch /\ cuts c !! k = Some body /\ misses c = misses (cache w).
Proof.
  intros Hs Ht Hl. assert (is_Some (pending (cache w) !! k)) as Hp by (apply (w_maker _ _ Hs); by exists t).
  pose proof (w_new _ _ Hs k Hp) as Hno. destruct Hp as [ch Hch]. unfold made. rewrite Hch.
  set (c0 := mkCache (order (cache w)) (cuts (cache w)) (delete k (pending (cache w))) (held (cache w)) (misses (cache w))).
  assert (kept c0) as Hk by (destruct (w_kept _ _ Hs); by split). pose proof (put_stays c0 k body Hk Hno Hl) as Hput.
  destruct (putLocked c0 k body) as [c1 | |]; [| done..]. cbn [rbind returns] in *. exists c1, ch. split; [done |]. split; [done |]. exact Hput.
Qed.

(** C10. A screen that waits is never left waiting: its channel is closed, or some one screen is
    making the cut it waits for, and whenever that screen's reading and cutting
    gives a cut that fits the cache, the waiting screen can go on to answer with
    that very cut, read and cut once for both. *)
Theorem cut_waiters_woken gives w t k ch : reach gives w -> screens w !! t = Some (Waiting k ch) ->
  ch ∈ closed w \/
  exists m, screens w !! m = Some (Making k) /\
    forall body, gives k (Some body) -> zlen body <= cutBudget ->
      exists w', rtc (step gives) w w' /\ screens w' !! t = Some (Answered k (Some body)) /\ screens w' !! m = Some (Answered k (Some body)) /\
        misses (cache w') = misses (cache w).
Proof.
  intros Hw Ht. pose proof (cut_reach_sound gives w Hw) as Hs. destruct (w_waits _ _ Hs t k ch Ht) as [| Hp]; [by left | right].
  destruct (proj1 (w_maker _ _ Hs k) (ex_intro _ ch Hp)) as [m Hm]. exists m. split; [done |]. intros body Hg Hl.
  assert (t <> m) as Hne by (intros ->; congruence).
  destruct (making_made gives w m k body Hs Hm Hl) as (c & ch' & Hmade & Hp' & Hcut & Hmiss). assert (ch' = ch) as -> by congruence.
  set (w1 := mkWorld c (<[m := Answered k (Some body)]> (screens w)) ({[ch]} ∪ closed w) (fresh w)).
  assert (step gives w w1) as S1 by (by eapply step_made). assert (screens w1 !! t = Some (Waiting k ch)) as T1 by (cbn; by rewrite lookup_insert_ne).
  set (w2 := moves w1 (cache w1) t (Looking k)). assert (step gives w1 w2) as S2 by (eapply step_wake; [exact T1 | cbn; set_solver]).
  assert (screens w2 !! t = Some (Looking k)) as T2 by (apply lookup_insert_eq).
  pose proof (look_kept (cache w2) k (fresh w2) (w_kept _ _ (cut_step_sound _ _ _ (cut_step_sound _ _ _ Hs S1) S2))) as Hlook.
  assert (cuts (cache w2) !! k = Some body) as Hcut2 by done. unfold look in Hlook. rewrite Hcut2 in Hlook.
  destruct (without_key (order (cache w2)) k) as [l | |] eqn:El; cbn [rbind returns] in Hlook; [| destruct Hlook..].
  set (c3 := mkCache (l ++ [k]) (cuts (cache w2)) (pending (cache w2)) (held (cache w2)) (misses (cache w2))).
  exists (moves w2 c3 t (Answered k (Some body))). split; [| split; [apply lookup_insert_eq | split]].
  - eapply rtc_l; [exact S1 |]. eapply rtc_l; [exact S2 |]. apply rtc_once. eapply step_hit; [exact T2 |]. unfold look. rewrite Hcut2, El. done.
  - cbn. rewrite !lookup_insert_ne by done. by rewrite lookup_insert_eq.
  - exact Hmiss.
Qed.

(** The cache keeps the most recently used: asking for a kept cut makes it the last to go, and
    putting a new one sends the oldest away one after another until what stays
    is within the bound and no sooner; a cut that is there, or is larger than
    the whole bound, changes nothing. *)
Theorem cache_is_lru c k body n : kept c ->
  returns (look c k n) (fun p => match snd p with
    | Hit b => cuts c !! k = Some b /\ exists l, order c ≡ₚ k :: l /\ order (fst p) = l ++ [k]
    | _ => order (fst p) = order c end) /\
  returns (putLocked c k body) (fun c' => kept c' /\
    if (bool_decide (is_Some (cuts c !! k)) || (cutBudget <? zlen body))%bool then c' = c
    else evicted (<[k := body]> (cuts c)) (order c ++ [k]) (order c') (cuts c')).
Proof.
  intros Hk. split.
  - assert (returns (look c k n) (fun p => match snd p with Hit _ => True | _ => order (fst p) = order c end)) as Ho.
    { unfold look. destruct (cuts c !! k) as [b |] eqn:E; [| by destruct (pending c !! k)].
      destruct (without_key_perm (order c) k) as (l & -> & _); [apply (kept_names _ Hk); by exists b | done]. }
    pose proof (look_kept c k n Hk) as Hl. destruct (look c k n) as [[c' f] | |]; [| done..]. cbn [returns fst snd] in *.
    destruct f; [| done..]. destruct Hl as (_ & H1 & _ & _ & H2). done.
  - eapply returns_mono; [by apply put_kept |]. intros c' (H1 & _ & _ & H2). done.
Qed.

(** ** Two screens and one cut *)

Definition ex_key : cutKey := mkKey (lit "seg7.m4s") (lit "v") 900 1.
Definition ex_body : list Z := [1; 2; 3].
Definition ex_gives (k : cutKey) (o : option (list Z)) : Prop := o = Some ex_body.
Definition ex_cache : cutCache := mkCache [] ∅ {[ex_key := 0%nat]} 0 1.
Definition ex_asked : world := moves start no_cuts 0 (Looking ex_key).
Definition ex_making : world := mkWorld ex_cache (<[0%nat := Making ex_key]> (screens ex_asked)) ∅ 1.
Definition ex_second : world := moves ex_making ex_cache 1 (Looking ex_key).
Definition ex_waiting : world := moves ex_second ex_cache 1 (Waiting ex_key 0).

Lemma ex_reach : reach ex_gives ex_waiting.
Proof.
  apply (reach_step _ ex_second); [apply (reach_step _ ex_making); [apply (reach_step _ ex_asked); [apply (reach_step _ start); [apply reach_start |] |] |] |].
  - apply (step_ask ex_gives start 0 ex_key). reflexivity.
  - apply (step_mine ex_gives ex_asked 0 ex_key ex_cache); reflexivity.
  - apply (step_ask ex_gives ex_making 1 ex_key). reflexivity.
  - apply (step_busy ex_gives ex_second 1 ex_key ex_cache 0); reflexivity.
Qed.

Lemma cuts_sound_witness : sound ex_gives ex_waiting.
Proof. apply (cuts_sound ex_gives ex_waiting ex_reach). Defined.
Lemma cut_waiters_woken_witness : exists w', rtc (step ex_gives) ex_waiting w' /\ screens w' !! 1%nat = Some (Answered ex_key (Some ex_body)).
Proof.
  destruct (cut_waiters_woken ex_gives ex_waiting 1 ex_key 0 ex_reach) as [Hc | (m & _ & H)].
  - reflexivity.
  - exfalso. apply not_elem_of_empty in Hc. exact Hc.
  - destruct (H ex_body) as (w' & H1 & H2 & _); [reflexivity | vm_compute; discriminate |]. exists w'. exact (conj H1 H2).
Defined.
Lemma cache_is_lru_witness : kept no_cuts /\ returns (putLocked no_cuts ex_key ex_body) kept.
Proof.
  assert (kept no_cuts) as Hk by (apply (w_kept ex_gives start), cut_start_sound). split; [exact Hk |].
  destruct (cache_is_lru no_cuts ex_key ex_body 0 Hk) as [_ H]. eapply returns_mono; [exact H |]. intros c' [H1 _]. exact H1.
Defined.
