(* ===== verification/LiveDelta.v ===== *)
(** Delta playlists, [server/internal/live/delta.go]: a reload of a long playlist
    without the segments the player has.

    Text is a list of code points. A [lineRef] is the line it is of; the pools
    the code takes its slices from are left out. *)
From S2P Require Import Prelude GoText GoFloat.
Local Open Scope Z_scope.
Local Open Scope go_scope.

Notation text := (list Z) (only parsing).
Notation float := spec_float (only parsing).

Section delta.
Context `{Unicode} `{FloatText}.

(** ** Numbers *)

Definition slowDec (v : text) : float := default f0 (ParseFloat v).
(** The digits of [parseDec], how many, and how many after the point; [None] where it
    turns to [slowDec]. *)
Fixpoint dec_loop (v : text) (mant digits scale : Z) (dot : bool) : option (Z * Z * Z) :=
  match v with
  | [] => if digits =? 0 then None else Some (mant, digits, scale)
  | c :: v =>
      if (is_digit c && (digits <? 15))%bool then dec_loop v (mant * 10 + (c - 48)) (digits + 1) (if dot then scale + 1 else scale) dot
      else if ((c =? 46) && negb dot)%bool then dec_loop v mant digits scale true
      else None
  end.
Definition decScale (scale : Z) : float := float64 (10 ^ scale).
Definition parseDec (v : text) : float :=
  match dec_loop v 0 0 0 false with Some (mant, _, scale) => fdiv (float64 mant) (decScale scale) | None => slowDec v end.

Definition extinf : text := lit "#EXTINF:".
Definition extinfSeconds (line : text) : float :=
  let v := drop (length extinf) line in
  let v := match find_sub [44] v with Some i => take i v | None => v end in
  parseDec (TrimSpace v).

(** The digits and points at the front *)
Fixpoint number_at (v : text) : text :=
  match v with c :: v' => if ((c =? 46) || is_digit c)%bool then c :: number_at v' else [] | [] => [] end.
Definition six : float := float64 6.
#[local] Arguments six : simpl never.
Definition skipUntilSeconds (playlist : text) : float :=
  let key := lit "CAN-SKIP-UNTIL=" in
  match find_sub key playlist with
  | None => six
  | Some i =>
      let v := parseDec (number_at (drop (i + length key) playlist)) in
      if SFleb v f0 then six else v
  end.

(** ** Blocks *)

Record deltaBlock := mkBlock { a : nat; b : nat; dur : float; seg : bool }.
Definition range (lines : list text) (from to : nat) : list text := take (to - from) (drop from lines).
Definition lines_of (lines : list text) (k : deltaBlock) : list text := range lines (a k) (b k).
Definition line (lines : list text) (i : nat) : text := TrimSpace (default [] (lines !! i)).

Definition is_uri (trim : text) : bool := match trim with c :: _ => negb (c =? 35) | [] => false end.
Definition blockHasURI (lines : list text) (k : deltaBlock) : bool := existsb (fun l => is_uri (TrimSpace l)) (lines_of lines k).
Definition blockHas (lines : list text) (k : deltaBlock) (prefix : text) : bool :=
  existsb (fun l => has_prefix prefix (TrimSpace l)) (lines_of lines k).

(** How far back the lines of a segment begin *)
Definition leads (trim : text) : bool :=
  (has_prefix (lit "#EXT-X-PROGRAM-DATE-TIME:") trim || has_prefix (lit "#EXT-X-DISCONTINUITY") trim)%bool.
Fixpoint back (lines : list text) (split cur : nat) : nat :=
  match split with
  | O => O
  | S p => if ((cur <? split)%nat && leads (line lines p))%bool then back lines p cur else split
  end.
(** One line of the loop; the blocks are the newest first. *)
Definition scan_line (lines : list text) (i : nat) (st : nat * list deltaBlock) : nat * list deltaBlock :=
  let ' (cur, blocks) := st in
  let trim := line lines i in
  if has_prefix extinf trim then
    let split := back lines i cur in
    let blocks := if (cur <? split)%nat then mkBlock cur split f0 false :: blocks else blocks in
    (S i, mkBlock split (S i) (extinfSeconds trim) true :: blocks)
  else
    match blocks with
    | k :: rest =>
        if (seg k && negb (blockHasURI lines k) && is_uri trim)%bool then (S i, mkBlock (a k) (S i) (dur k) true :: rest) else st
    | [] => st
    end.
Definition blocks_of (lines : list text) : list deltaBlock :=
  let ' (cur, blocks) := fold_left (fun st i => scan_line lines i st) (seq 0 (length lines)) (O, []) in
  reverse (if (cur <? length lines)%nat then mkBlock cur (length lines) f0 false :: blocks else blocks).

(** The oldest segment that stays: the durations, the newest first *)
Fixpoint start_loop (durs : list float) (acc skipUntil : float) : nat :=
  match durs with
  | d :: ds => if SFltb acc skipUntil then start_loop ds (fadd acc d) skipUntil else length durs
  | [] => O
  end.
(** Where the segment of that number is among the blocks *)
Fixpoint seg_at (blocks : list deltaBlock) (n : nat) (i : nat) : nat :=
  match blocks with
  | [] => i
  | k :: blocks => if seg k then match n with O => i | S n => seg_at blocks n (S i) end else seg_at blocks n (S i)
  end.

(** ** The playlist *)

Definition skip_line (skipped : nat) : text := lit "#EXT-X-SKIP:SKIPPED-SEGMENTS=" ++ format_int (Z.of_nat skipped).
Definition version_line (l : text) : text := if has_prefix (lit "#EXT-X-VERSION:") (TrimSpace l) then lit "#EXT-X-VERSION:9" else l.
Definition sequence_line (l : text) : bool := has_prefix (lit "#EXT-X-MEDIA-SEQUENCE:") (TrimSpace l).
(** The lines of a block, with the skip after the sequence where it goes there *)
Fixpoint put_lines (ls : list text) (last_ header wrote : bool) (start : nat) : list text * bool :=
  match ls with
  | [] => ([], wrote)
  | l :: ls =>
      if (bytes_equal l [] && last_)%bool then put_lines ls last_ header wrote start else
      let here := (negb wrote && negb header && sequence_line l)%bool in
      let ' (out, w) := put_lines ls last_ header (wrote || here)%bool start in
      (version_line l :: (if here then [skip_line start] else []) ++ out, w)
  end.
Fixpoint put_blocks (lines : list text) (blocks : list deltaBlock) (i keep : nat) (header wrote : bool) (start : nat) : list text * bool :=
  match blocks with
  | [] => ([], wrote)
  | k :: blocks =>
      let here := (header && (i =? 1)%nat)%bool in
      let ' (ls, w) :=
        if (seg k && (i <? keep)%nat)%bool then ([], (wrote || here)%bool)
        else put_lines (lines_of lines k) (match blocks with [] => true | _ => false end) header (wrote || here)%bool start in
      let ' (out, w) := put_blocks lines blocks (S i) keep header w start in
      ((if here then [skip_line start] else []) ++ ls ++ out, w)
  end.
Fixpoint has_sequence (lines : list text) (blocks : list deltaBlock) (i keep : nat) : bool :=
  match blocks with
  | [] => false
  | k :: blocks =>
      ((negb (seg k && (i <? keep)%nat) && blockHas lines k (lit "#EXT-X-MEDIA-SEQUENCE:")) || has_sequence lines blocks (S i) keep)%bool
  end.
Definition deltaHasSequence (lines : list text) (blocks : list deltaBlock) (keep : nat) : bool := has_sequence lines blocks 0 keep.

(** The lines of the answer, each to be ended by a newline; [None] is the playlist as
    it came. *)
Definition delta_lines (body : text) : res (option (list text)) :=
  if negb (contains body (lit "#EXTINF")) then Ok None else
  let lines := Split body 10 in
  let blocks := blocks_of lines in
  let segs := List.filter seg blocks in
  match segs with
  | [] => Ok None
  | _ =>
      let start := start_loop (map dur (reverse segs)) f0 (skipUntilSeconds body) in
      if (start =? 0)%nat then Ok None else
      if (length segs <=? start)%nat then Panic else
      let keep := seg_at blocks start 0 in
      if negb (deltaHasSequence lines blocks keep) then Ok None else
      let header := match blocks with k :: _ => (negb (seg k) && blockHas lines k (lit "#EXT-X-MEDIA-SEQUENCE:"))%bool | [] => false end in
      let ' (out, wrote) := put_blocks lines blocks 0 keep header false start in
      Ok (if wrote then Some out else None)
  end.
Definition DeltaPlaylist (body : text) : res text :=
  let! o := delta_lines body in
  Ok (match o with Some out => concat (map (fun l => l ++ [10]) out) | None => body end).
End delta.

(** * Proofs *)

Section blocks.
Context `{Unicode} `{FloatText}.

Definition is_extinf (l : text) : bool := has_prefix extinf (TrimSpace l).
Definition extinfs (ls : list text) : list text := List.filter is_extinf ls.

Lemma range_app lines x y z : (x <= y <= z)%nat -> range lines x z = range lines x y ++ range lines y z.
Proof.
  intros [H1 H2]. unfold range. rewrite <- (take_drop (y - x) (take (z - x) (drop x lines))). rewrite take_take, skipn_firstn_comm, drop_drop.
  f_equal; [f_equal; lia |]. f_equal; [lia |]. f_equal. lia.
Qed.
Lemma range_one lines i l : lines !! i = Some l -> range lines i (S i) = [l].
Proof. intros Hl. unfold range. replace (S i - i)%nat with 1%nat by lia. by rewrite (drop_S _ l _ Hl). Qed.
Lemma range_all lines : range lines 0 (length lines) = lines.
Proof. unfold range. rewrite drop_0, Nat.sub_0_r. by apply take_ge. Qed.
Lemma range_same lines i : range lines i i = [].
Proof. unfold range. by rewrite Nat.sub_diag. Qed.

Lemma leads_not_extinf l : leads (TrimSpace l) = true -> is_extinf l = false.
Proof.
  unfold leads, is_extinf. intros Hl. destruct (has_prefix extinf (TrimSpace l)) eqn:E; [| done]. exfalso. apply has_prefix_spec in E as [r E]. rewrite E in Hl. done.
Qed.

(** The lines a segment takes from before it have no segment. *)
Lemma back_spec lines split cur : (cur <= split <= length lines)%nat ->
  (cur <= back lines split cur <= split)%nat /\ extinfs (range lines (back lines split cur) split) = [] /\
  Forall (fun l => leads (TrimSpace l) = true) (range lines (back lines split cur) split).
Proof.
  induction split as [| p IH]; intros Hc; cbn [back]; [rewrite range_same; split_and!; [lia | lia | done | constructor] |].
  destruct ((cur <? S p)%nat && leads (line lines p))%bool eqn:E; [| rewrite range_same; split_and!; [lia | lia | done | constructor]].
  apply andb_true_iff in E as [E1 E2]. apply Nat.ltb_lt in E1. destruct IH as (H1 & H2 & H3); [lia |]. split; [lia |].
  destruct (lookup_lt_is_Some_2 lines p ltac:(lia)) as [l Hl]. unfold line in E2. rewrite Hl in E2. cbn in E2.
  rewrite (range_app lines _ p (S p)) by lia. rewrite (range_one _ _ _ Hl). split; [| apply Forall_app; split; [done | by constructor]].
  unfold extinfs in *. rewrite List.filter_app, H2. cbn [List.filter]. by rewrite (leads_not_extinf l E2).
Qed.

(** The lines of a segment: those that lead it, its [#EXTINF], what is said of it, and
    its file *)
Definition quiet (l : text) : Prop := is_uri (TrimSpace l) = false.
Definition segment (ls : list text) (e : text) : Prop :=
  exists pre mid u, ls = pre ++ e :: mid ++ u /\ Forall (fun l => leads (TrimSpace l) = true) pre /\ Forall quiet mid /\
    match u with [] => mid = [] | [x] => is_uri (TrimSpace x) = true | _ => False end.
(** A block of one segment holds its line and no other; another block none. *)
Definition block_ok (lines : list text) (k : deltaBlock) : Prop :=
  (a k < b k)%nat /\
  if seg k then exists l, segment (lines_of lines k) l /\ extinfs (lines_of lines k) = [l] /\ dur k = extinfSeconds (TrimSpace l) else extinfs (lines_of lines k) = [].
(** Blocks, the newest first, that cover the lines from the first to [cur] *)
Fixpoint covers (blocks : list deltaBlock) (cur : nat) : Prop :=
  match blocks with [] => cur = O | k :: blocks => b k = cur /\ covers blocks (a k) end.
Record scanned (lines : list text) (i : nat) (st : nat * list deltaBlock) : Prop := {
  sc_cur : (fst st <= i)%nat; sc_covers : covers (snd st) (fst st); sc_ok : Forall (block_ok lines) (snd st);
  sc_rest : extinfs (range lines (fst st) i) = [];
  sc_quiet : match snd st with k :: _ => (seg k && negb (blockHasURI lines k))%bool = true -> Forall quiet (range lines (fst st) i) | [] => True end;
}.

Lemma scan_line_ok lines i st : (i < length lines)%nat -> scanned lines i st -> scanned lines (S i) (scan_line lines i st).
Proof.
  destruct st as [cur blocks]. intros Hi [H1 H2 H3 H4 H5]. cbn [fst snd] in *. unfold scan_line.
  destruct (lookup_lt_is_Some_2 lines i Hi) as [l Hl]. pose proof (range_one _ _ _ Hl) as Hone.
  assert (line lines i = TrimSpace l) as El by (unfold line; by rewrite Hl). rewrite El.
  destruct (has_prefix extinf (TrimSpace l)) eqn:Ee.
  - destruct (back_spec lines i cur) as (Hb1 & Hb2 & Hb3); [lia |]. set (split := back lines i cur) in *. split; cbn [fst snd].
    + lia.
    + cbn [covers b a]. split; [done |]. destruct (Nat.ltb_spec cur split); [by cbn | by replace split with cur by lia].
    + constructor.
      * split; cbn [a b seg]; [lia |]. exists l. cbn [dur]. unfold lines_of. cbn [a b]. rewrite (range_app lines _ i (S i)) by lia.
        split; [exists (range lines split i), [], []; rewrite Hone; split_and!; [done | done | constructor | done] |]. split; [| done]. unfold extinfs in *. rewrite List.filter_app, Hb2, Hone. cbn [List.filter app]. unfold is_extinf. by rewrite Ee.
      * destruct (Nat.ltb_spec cur split); [| done]. constructor; [| done]. split; cbn [a b seg]; [done |]. unfold lines_of. cbn [a b].
        rewrite (range_app lines cur split i) in H4 by lia. unfold extinfs in *. rewrite List.filter_app in H4. by apply app_nil in H4 as [H4 _].
    + by rewrite range_same.
    + intros _. rewrite range_same. constructor.
  - assert (extinfs (range lines cur (S i)) = []) as Hrest.
    { rewrite (range_app lines cur i (S i)) by lia. unfold extinfs in *. rewrite List.filter_app, H4, Hone. cbn [List.filter app]. unfold is_extinf. by rewrite Ee. }
    assert (match blocks with k :: _ => (seg k && negb (blockHasURI lines k))%bool = true -> Forall quiet (range lines cur (S i)) | [] => True end ->
      scanned lines (S i) (cur, blocks)) as Hstay by (intros Hq; split; cbn [fst snd]; [lia | done | done | done | exact Hq]).
    destruct blocks as [| k rest]; [by apply Hstay |]. destruct (seg k && negb (blockHasURI lines k))%bool eqn:Ek; cbn [andb]; [| by apply Hstay].
    specialize (H5 eq_refl). destruct (is_uri (TrimSpace l)) eqn:Eu.
    2: { apply Hstay. intros _. rewrite (range_app lines cur i (S i)), Hone by lia. apply Forall_app. split; [done | by constructor]. }
    apply andb_true_iff in Ek as [Ek Enu%negb_true_iff].
    cbn [covers] in H2. destruct H2 as [Hbk Hcov]. apply Forall_cons in H3 as [[Hab Hk] H3]. rewrite Ek in Hk. destruct Hk as (e & (pre & mid & u & Els & Hpre & Hmid & Hu) & He & Hd). split; cbn [fst snd].
    + lia.
    + by split.
    + constructor; [| done]. split; cbn [a b seg]; [lia |]. exists e. unfold lines_of in *. cbn [a b].
      rewrite (range_app lines (a k) (b k) (S i)) by lia. split.
      { destruct u as [| x [| ? ?]]; [subst mid | | done].
        - exists pre, (range lines (b k) i), [l]. rewrite Els, Hbk, (range_app lines cur i (S i)), Hone by lia. split_and!; [by rewrite <- !app_assoc | done | done | done].
        - exfalso. unfold blockHasURI, lines_of in Enu. rewrite Els, existsb_app in Enu. cbn [existsb] in Enu. rewrite existsb_app in Enu. cbn [existsb] in Enu.
          rewrite Hu in Enu. by rewrite !orb_true_r in Enu. }
      split; [| done]. unfold extinfs in *. rewrite List.filter_app, He, Hbk, Hrest. done.
    + by rewrite range_same.
    + intros _. rewrite range_same. constructor.
Qed.

Lemma scan_ok lines n : (n <= length lines)%nat -> scanned lines n (fold_left (fun st i => scan_line lines i st) (seq 0 n) (O, [])).
Proof.
  induction n as [| n IH]; intros Hn; [by split |]. rewrite seq_S, fold_left_app. cbn [fold_left]. rewrite Nat.add_0_l. apply scan_line_ok; [lia | apply IH; lia].
Qed.

Lemma covers_lines lines blocks cur : (cur <= length lines)%nat -> covers blocks cur -> Forall (block_ok lines) blocks ->
  concat (map (lines_of lines) (reverse blocks)) = range lines 0 cur.
Proof.
  revert cur. induction blocks as [| k blocks IH]; intros cur Hc Hcov Hok; cbn [covers] in *; [subst; by rewrite range_same |].
  destruct Hcov as [<- Hcov]. apply Forall_cons in Hok as [[Hab _] Hok]. rewrite reverse_cons, map_app, concat_app, (IH (a k)) by (done || lia).
  cbn [map concat]. rewrite app_nil_r. unfold lines_of. symmetry. apply range_app. lia.
Qed.

(** The blocks are the playlist's lines, each in one of them, in order. *)
Lemma blocks_ok lines : concat (map (lines_of lines) (blocks_of lines)) = lines /\ Forall (block_ok lines) (blocks_of lines).
Proof.
  unfold blocks_of. pose proof (scan_ok lines (length lines) ltac:(lia)) as Hs.
  destruct (fold_left _ _ _) as [cur blocks]. destruct Hs as [H1 H2 H3 H4 _]. cbn [fst snd] in *.
  destruct (Nat.ltb_spec cur (length lines)) as [Hlt | Hge].
  - assert (Forall (block_ok lines) (mkBlock cur (length lines) f0 false :: blocks)) as Hok by (constructor; [split; [done | exact H4] | done]).
    split; [| by apply Forall_reverse]. rewrite (covers_lines lines _ (length lines)); [apply range_all | lia | by split | done].
  - replace cur with (length lines) in * by lia. split; [| by apply Forall_reverse]. rewrite (covers_lines lines _ (length lines)); [apply range_all | lia | done | done].
Qed.
End blocks.

(** ** What is put *)

Section put.
Context `{Unicode} `{FloatText}.

(** Lines as they are, or with the skip somewhere in them; [w] says whether it was
    put before, [w'] whether it is put after. *)
Definition with_skip (start : nat) (w w' : bool) (out kept : list text) : Prop :=
  if w then w' = true /\ out = kept
  else if w' then exists pre post, kept = pre ++ post /\ out = pre ++ skip_line start :: post
  else out = kept.
Lemma with_skip_app start w w1 w2 o1 k1 o2 k2 : with_skip start w w1 o1 k1 -> with_skip start w1 w2 o2 k2 -> with_skip start w w2 (o1 ++ o2) (k1 ++ k2).
Proof.
  unfold with_skip. destruct w; [intros [-> ->] [-> ->]; done |]. destruct w1.
  - intros (pre & post & -> & ->) [-> ->]. exists pre, (post ++ k2). by rewrite <- !app_assoc.
  - intros -> H2. destruct w2; [| by subst]. destruct H2 as (pre & post & -> & ->). exists (k1 ++ pre), post. by rewrite <- !app_assoc.
Qed.
Lemma with_skip_here start w l : with_skip start w true ((if w then [] else [skip_line start]) ++ [l]) [l].
Proof. destruct w; [by split | by exists [], [l]]. Qed.

Definition strip (last_ : bool) (ls : list text) : list text := List.filter (fun l => negb (bytes_equal l [] && last_)%bool) ls.
Lemma put_lines_skip ls last_ header wrote start : let ' (out, w) := put_lines ls last_ header wrote start in
  with_skip start wrote w out (map version_line (strip last_ ls)).
Proof.
  revert wrote. induction ls as [| l ls IH]; intros wrote; cbn [put_lines strip List.filter]; [by destruct wrote |]. fold (strip last_ ls).
  destruct (bytes_equal l [] && last_)%bool; cbn [negb]; [apply IH |].
  specialize (IH (wrote || (negb wrote && negb header && sequence_line l))%bool). destruct (put_lines ls last_ header _ start) as [out w].
  cbn [map]. destruct wrote; cbn [negb andb orb] in *; [destruct IH as [-> ->]; by split |].
  destruct (negb header && sequence_line l)%bool; cbn [app]; [| by apply (with_skip_app start false false w [version_line l] [version_line l])].
  destruct IH as [-> ->]. exists [version_line l], (map version_line (strip last_ ls)). done.
Qed.

(** The lines of the blocks that are put, the first numbered [i] *)
Fixpoint kept_from (lines : list text) (blocks : list deltaBlock) (i keep : nat) : list text :=
  match blocks with
  | [] => []
  | k :: blocks => (if (seg k && (i <? keep)%nat)%bool then [] else lines_of lines k) ++ kept_from lines blocks (S i) keep
  end.
Fixpoint stripped (lines : list text) (blocks : list deltaBlock) (i keep : nat) : list text :=
  match blocks with
  | [] => []
  | k :: blocks =>
      (if (seg k && (i <? keep)%nat)%bool then [] else strip (match blocks with [] => true | _ => false end) (lines_of lines k)) ++ stripped lines blocks (S i) keep
  end.
Fixpoint removed_from (lines : list text) (blocks : list deltaBlock) (i keep : nat) : list (list text) :=
  match blocks with
  | [] => []
  | k :: blocks => (if (seg k && (i <? keep)%nat)%bool then [lines_of lines k] else []) ++ removed_from lines blocks (S i) keep
  end.

Lemma put_blocks_skip lines blocks i keep header wrote start : (header = true -> wrote = (1 <? i)%nat) ->
  let ' (out, w) := put_blocks lines blocks i keep header wrote start in
  with_skip start wrote w out (map version_line (stripped lines blocks i keep)).
Proof.
  revert i wrote. induction blocks as [| k blocks IH]; intros i wrote Hh; cbn [put_blocks stripped]; [by destruct wrote |].
  set (here := (header && (i =? 1)%nat)%bool).
  assert (here = true -> wrote = false) as Hw.
  { unfold here. intros [-> E]%andb_true_iff. rewrite Hh by done. apply Nat.eqb_eq in E as ->. done. }
  set (ls := if (seg k && (i <? keep)%nat)%bool then [] else strip (match blocks with [] => true | _ => false end) (lines_of lines k)).
  assert (let ' (o, w) := if (seg k && (i <? keep)%nat)%bool then ([], (wrote || here)%bool)
      else put_lines (lines_of lines k) (match blocks with [] => true | _ => false end) header (wrote || here)%bool start in
    with_skip start (wrote || here) w o (map version_line ls) /\ (header = true -> w = (wrote || here)%bool)) as Hls.
  { unfold ls. destruct (seg k && (i <? keep)%nat)%bool; [split; [by destruct (wrote || here)%bool | done] |].
    pose proof (put_lines_skip (lines_of lines k) (match blocks with [] => true | _ => false end) header (wrote || here) start) as Hp.
    destruct (put_lines _ _ _ _ _) as [o w] eqn:Ep. split; [done |]. intros ->. clear -Ep. revert o w Ep.
    generalize (lines_of lines k). generalize (wrote || here)%bool. clear. intros w0 l. induction l as [| x l IH]; intros o w; cbn [put_lines]; [by intros [= _ <-] |].
    destruct (_ && _)%bool; [apply IH |]. rewrite andb_false_r. cbn [andb]. rewrite orb_false_r. destruct (put_lines l _ true w0 start) as [o1 w1]. intros [= _ <-]. by eapply IH. }
  match goal with |- context [if (seg k && _)%bool then (?x, ?y) else ?z] => destruct (if (seg k && (i <? keep)%nat)%bool then (x, y) else z) as [o w] end. destruct Hls as [Hls Hlw]. specialize (IH (S i) w).
  destruct (put_blocks lines blocks (S i) keep header w start) as [out w2]. rewrite map_app.
  assert (with_skip start wrote (wrote || here) (if here then [skip_line start] else []) []) as Hhere.
  { destruct here; [rewrite Hw by done; by exists [], [] | rewrite orb_false_r; by destruct wrote]. }
  rewrite <- (app_nil_l (map version_line ls ++ _)). eapply with_skip_app; [exact Hhere |]. eapply with_skip_app; [exact Hls |]. apply IH.
  intros E. rewrite (Hlw E). rewrite (Hh E). unfold here. rewrite E. cbn [andb]. destruct i as [| [| i]]; done.
Qed.

(** *** What is removed *)

Definition blanks (l : text) : bool := bytes_equal l [].
Definition filled (ls : list text) : list text := List.filter (fun l => negb (blanks l)) ls.
Lemma filled_strip x ls : filled (strip x ls) = filled ls.
Proof.
  unfold filled, strip, blanks. induction ls as [| l ls IH]; [done |]. cbn [List.filter]. destruct (bytes_equal l []) eqn:E; cbn [andb negb].
  - destruct x; cbn [negb List.filter]; [done | by rewrite E].
  - cbn [List.filter]. rewrite E. cbn [negb]. by rewrite IH.
Qed.
Lemma stripped_filled lines blocks i keep : filled (stripped lines blocks i keep) = filled (kept_from lines blocks i keep).
Proof.
  revert i. induction blocks as [| k blocks IH]; intros i; [done |]. cbn [stripped kept_from]. unfold filled in *. rewrite !List.filter_app, IH. f_equal.
  destruct (_ && _)%bool; [done |]. apply (filled_strip _ (lines_of lines k)).
Qed.
Lemma version_not_blank l : blanks (version_line l) = blanks l.
Proof.
  unfold version_line. destruct (has_prefix _ (TrimSpace l)) eqn:E; [| done]. destruct l as [| c l]; [by vm_compute in E |]. by vm_compute.
Qed.
Lemma filled_version ls : filled (map version_line ls) = map version_line (filled ls).
Proof.
  unfold filled. induction ls as [| l ls IH]; [done |]. cbn [map List.filter]. rewrite version_not_blank, IH. by destruct (blanks l).
Qed.

Lemma kept_sublist lines blocks i keep : kept_from lines blocks i keep `sublist_of` concat (map (lines_of lines) blocks).
Proof.
  revert i. induction blocks as [| k blocks IH]; intros i; cbn [kept_from map concat]; [done |]. apply sublist_app; [| apply IH].
  destruct (_ && _)%bool; [apply sublist_nil_l | done].
Qed.
Lemma kept_perm lines blocks i keep : concat (map (lines_of lines) blocks) ≡ₚ concat (removed_from lines blocks i keep) ++ kept_from lines blocks i keep.
Proof.
  revert i. induction blocks as [| k blocks IH]; intros i; cbn [kept_from removed_from map concat]; [done |]. rewrite (IH (S i)).
  destruct (_ && _)%bool; cbn [app concat]; [by rewrite <- app_assoc |]. apply Permutation_app_swap_app.
Qed.

Lemma seg_at_ge blocks n i : (i <= seg_at blocks n i)%nat.
Proof. revert n i. induction blocks as [| k blocks IH]; intros n i; cbn [seg_at]; [lia |]. destruct (seg k); [destruct n as [| n]; [lia |] |]; pose proof (IH n (S i)); lia. Qed.
Lemma kept_all lines blocks i keep : (keep <= i)%nat -> kept_from lines blocks i keep = concat (map (lines_of lines) blocks) /\ removed_from lines blocks i keep = [].
Proof.
  revert i. induction blocks as [| k blocks IH]; intros i Hi; [done |]. cbn [kept_from removed_from map concat]. destruct (IH (S i)) as [-> ->]; [lia |].
  rewrite (proj2 (Nat.ltb_ge i keep)) by lia. by rewrite andb_false_r.
Qed.

Lemma extinfs_app x y : extinfs (x ++ y) = extinfs x ++ extinfs y.
Proof. apply List.filter_app. Qed.
(** Each segment's block gives its line and its duration. *)
Lemma segs_extinfs lines blocks : Forall (block_ok lines) blocks ->
  length (extinfs (concat (map (lines_of lines) blocks))) = length (List.filter seg blocks) /\
  map dur (List.filter seg blocks) = map (fun l => extinfSeconds (TrimSpace l)) (extinfs (concat (map (lines_of lines) blocks))).
Proof.
  induction 1 as [| k blocks [Hab Hk] Hok [IH1 IH2]]; [done |]. cbn [map concat List.filter]. rewrite extinfs_app. destruct (seg k).
  - destruct Hk as (e & _ & -> & Hd). cbn [app length map]. by rewrite IH1, IH2, Hd.
  - rewrite Hk. by cbn [app].
Qed.
Lemma kept_extinfs lines blocks n i : Forall (block_ok lines) blocks -> (n < length (List.filter seg blocks))%nat ->
  extinfs (kept_from lines blocks i (seg_at blocks n i)) = drop n (extinfs (concat (map (lines_of lines) blocks))) /\
  length (removed_from lines blocks i (seg_at blocks n i)) = n.
Proof.
  intros Hok. revert n i. induction Hok as [| k blocks [Hab Hk] Hok IH]; intros n i Hn; cbn [List.filter length] in *; [lia |].
  cbn [kept_from removed_from seg_at map concat]. rewrite !extinfs_app. destruct (seg k) eqn:Es.
  - destruct Hk as (e & _ & He & _). rewrite He. destruct n as [| n].
    + rewrite Nat.ltb_irrefl, andb_false_r. destruct (kept_all lines blocks (S i) i ltac:(lia)) as [-> ->]. by rewrite He.
    + rewrite (proj2 (Nat.ltb_lt _ _)) by (pose proof (seg_at_ge blocks n (S i)); lia). cbn [andb app drop length]. destruct (IH n (S i)) as [-> ->]; [cbn in Hn; lia | done].
  - rewrite Hk. cbn [andb app]. destruct (IH n (S i) Hn) as [E1 E2]. by rewrite Hk, E1, E2.
Qed.
Lemma removed_segments lines blocks i keep : Forall (block_ok lines) blocks -> Forall (fun ls => exists e, segment ls e) (removed_from lines blocks i keep).
Proof.
  intros Hok. revert i. induction Hok as [| k blocks [Hab Hk] Hok IH]; intros i; cbn [removed_from]; [constructor |]. apply Forall_app. split; [| apply IH].
  destruct (seg k); [| constructor]. destruct (i <? keep)%nat; [| constructor]. destruct Hk as (e & Hs & _). constructor; [by exists e | constructor].
Qed.

(** How far back is far enough *)
Definition seconds (ds : list float) (acc : float) : float := fold_left fadd ds acc.
Lemma start_loop_spec ds acc skip : let n := (length ds - start_loop ds acc skip)%nat in
  (start_loop ds acc skip <= length ds)%nat /\ (0 < start_loop ds acc skip -> SFltb (seconds (take n ds) acc) skip = false)%nat /\
  forall j, (j < n)%nat -> SFltb (seconds (take j ds) acc) skip = true.
Proof.
  revert acc. induction ds as [| d ds IH]; intros acc; cbn [start_loop]; [cbn; split_and!; [lia | lia | lia] |].
  destruct (SFltb acc skip) eqn:E; cbv zeta.
  - destruct (IH (fadd acc d)) as (H1 & H2 & H3). cbn [length]. split_and!; [lia | |].
    + intros Hp. replace (S (length ds) - _)%nat with (S (length ds - start_loop ds (fadd acc d) skip)) by lia. cbn [take seconds fold_left]. by apply H2.
    + intros [| j] Hj; cbn [take seconds fold_left]; [done |]. apply H3. lia.
  - rewrite Nat.sub_diag. split_and!; [done | done | lia].
Qed.

(** A delta's lines, against those of the playlist it is of *)
Definition delta_of (body : text) (out : list text) : Prop :=
  let lines := Split body 10 in
  let durs := map (fun l => extinfSeconds (TrimSpace l)) (reverse (extinfs lines)) in
  exists removed kept pre post,
    out = pre ++ skip_line (length removed) :: post /\
    lines ≡ₚ concat removed ++ kept /\ kept `sublist_of` lines /\ Forall (fun ls => exists e, segment ls e) removed /\
    filled (pre ++ post) = map version_line (filled kept) /\
    extinfs kept = drop (length removed) (extinfs lines) /\ (0 < length removed < length (extinfs lines))%nat /\
    SFltb (seconds (take (length (extinfs kept)) durs) f0) (skipUntilSeconds body) = false /\
    forall j, (j < length (extinfs kept))%nat -> SFltb (seconds (take j durs) f0) (skipUntilSeconds body) = true.

Lemma delta_found body : SFltb f0 (skipUntilSeconds body) = true ->
  returns (delta_lines body) (fun o => match o with Some out => delta_of body out | None => True end).
Proof.
  intros Hskip. unfold delta_lines. destruct (negb _); [done |]. set (lines := Split body 10). set (blocks := blocks_of lines).
  destruct (blocks_ok lines) as [Hall Hok]. fold blocks in Hall, Hok. destruct (segs_extinfs lines blocks Hok) as [Hlen Hdur]. rewrite Hall in Hlen, Hdur.
  set (segs := List.filter seg blocks) in *. assert (length (map dur (reverse segs)) = length segs) as Hl by (by rewrite length_map, length_reverse).
  set (start := start_loop (map dur (reverse segs)) f0 (skipUntilSeconds body)).
  pose proof (start_loop_spec (map dur (reverse segs)) f0 (skipUntilSeconds body)) as Hst. fold start in Hst. rewrite Hl in Hst. destruct Hst as (S1 & S2 & S3).
  assert (map dur (reverse segs) = map (fun l => extinfSeconds (TrimSpace l)) (reverse (extinfs lines))) as Hdurs by (etransitivity; [apply (fmap_reverse dur) | symmetry; etransitivity; [apply (fmap_reverse (fun l => extinfSeconds (TrimSpace l))) | by f_equal]]).
  destruct segs as [| k0 segs0] eqn:Esegs; [done |]. rewrite <- Esegs in *. destruct (Nat.eqb_spec start 0) as [| Hz]; [done |].
  assert (start < length segs)%nat as Hlt.
  { assert (start <> length segs) as Hne; [| lia]. intros E. rewrite E, Nat.sub_diag in S2. specialize (S2 ltac:(lia)). change (SFltb f0 (skipUntilSeconds body) = false) in S2. by rewrite Hskip in S2. }
  rewrite (proj2 (Nat.leb_gt _ _) Hlt). set (keep := seg_at blocks start 0). destruct (negb _); [done |].
  set (header := match blocks with [] => false | _ => _ end).
  pose proof (put_blocks_skip lines blocks 0 keep header false start ltac:(done)) as Hput. destruct (put_blocks lines blocks 0 keep header false start) as [out w].
  destruct w; cbn [returns]; [| done]. destruct Hput as (pre & post & Hmap & ->).
  destruct (kept_extinfs lines blocks start 0 Hok) as [Hkx Hrm]; [by fold segs |]. fold keep in Hkx, Hrm. rewrite Hall in Hkx.
  exists (removed_from lines blocks 0 keep), (kept_from lines blocks 0 keep), pre, post. fold lines. rewrite Hrm, Hkx, length_drop, Hlen, <- Hdurs.
  split_and!; [done | | | by apply removed_segments | | done | lia | lia | apply S2; lia | exact S3].
  - rewrite <- Hall at 1. apply kept_perm.
  - rewrite <- Hall at 2. apply kept_sublist.
  - by rewrite <- Hmap, filled_version, stripped_filled.
Qed.

(** C14. A delta playlist leaves out the oldest segments and says how many: it is the playlist's
    lines in their order, the version made 9, less the lines of the first
    segments (what leads each, its [#EXTINF], its file) and less blank lines,
    plus one skip line with their number; the [#EXTINF] lines that stay are
    exactly the playlist's last, at least one, and they are the fewest whose
    durations reach the [CAN-SKIP-UNTIL] the playlist allows. Otherwise the
    playlist comes back as it was. *)
Theorem delta_leaves_the_last body : SFltb f0 (skipUntilSeconds body) = true ->
  returns (DeltaPlaylist body) (fun d =>
    match delta_lines body with
    | Ok (Some out) => d = concat (map (fun l => l ++ [10]) out) /\ delta_of body out
    | _ => d = body
    end).
Proof.
  intros Hs. unfold DeltaPlaylist. pose proof (delta_found body Hs) as Hd. destruct (delta_lines body) as [[out |] | |]; [| | done..]; cbn [rbind returns] in *; [by split | done].
Qed.
End put.

(** *** A playlist of five segments *)

#[local] Instance ascii : Unicode := ascii_unicode.
#[local] Instance plain_floats : FloatText := {| parse_other _ := None; wide_int _ := - 2 ^ 63 |}.
Definition ex_playlist : text := concat (map (fun l => lit l ++ [10])
  ["#EXTM3U"; "#EXT-X-VERSION:6"; "#EXT-X-SERVER-CONTROL:CAN-SKIP-UNTIL=6.0"; "#EXT-X-MEDIA-SEQUENCE:4"; "#EXT-X-MAP:URI=init.mp4";
   "#EXTINF:4.000,"; "seg00004.m4s"; "#EXT-X-PROGRAM-DATE-TIME:x"; "#EXTINF:4.000,"; "seg00005.m4s"; "#EXTINF:3.5,"; "seg00006.m4s"; "#EXT-X-PART:y"; "#EXTINF:2.5,"; "seg00007.m4s"]%string).
Example ex_delta : DeltaPlaylist ex_playlist = Ok (concat (map (fun l => lit l ++ [10])
  ["#EXTM3U"; "#EXT-X-VERSION:9"; "#EXT-X-SERVER-CONTROL:CAN-SKIP-UNTIL=6.0"; "#EXT-X-MEDIA-SEQUENCE:4"; "#EXT-X-MAP:URI=init.mp4"; "#EXT-X-SKIP:SKIPPED-SEGMENTS=2";
   "#EXTINF:3.5,"; "seg00006.m4s"; "#EXT-X-PART:y"; "#EXTINF:2.5,"; "seg00007.m4s"]%string)).
Proof. vm_compute. reflexivity. Qed.
Lemma delta_leaves_the_last_witness : exists out, delta_lines ex_playlist = Ok (Some out) /\ delta_of ex_playlist out.
Proof.
  pose proof (delta_leaves_the_last ex_playlist ltac:(vm_compute; reflexivity)) as Hd.
  destruct (DeltaPlaylist ex_playlist) as [d | |]; [| destruct Hd | destruct Hd].
  cbn [returns] in Hd. destruct (delta_lines ex_playlist) as [[out |] | |] eqn:E.
  - exists out. split; [reflexivity | exact (proj2 Hd)].
  - exfalso. vm_compute in E. discriminate E.
  - exfalso. vm_compute in E. discriminate E.
  - exfalso. vm_compute in E. discriminate E.
Defined.
