(* ===== verification/LiveViews.v ===== *)
(** The views of a rendition, [server/internal/live/views.go]: their names, their
    playlists and their media, cut from the rendition's own on request.

    Text is a list of code points. A rendition is its directory, by the files' base
    names, and its sound tracks; the cache of [LiveCuts] is passed over here, what it
    answers being what is read and cut. *)
From S2P Require Import Prelude GoText GoFloat Timeline Fmp4 LivePlaylist LiveRendition LivePart LiveSplit LiveDelta.
Local Open Scope Z_scope.
Local Open Scope go_scope.

Notation text := (list Z) (only parsing).

(** ** Names *)

(** [strconv.ParseUint(s, 10, 32)] *)
Definition parse_uint32 (s : text) : option Z := match digits s with Some n => if n <? 2 ^ 32 then Some n else None | None => None end.
(** [strings.CutSuffix] *)
Definition cut_suffix (s tail : text) : option text :=
  if has_prefix (reverse tail) (reverse s) then Some (take (length s - length tail) s) else None.

Definition playlistTag (name : text) : option text :=
  if says name "video.m3u8" then Some (lit "v") else
  match cut_prefix name (lit "audio-") with
  | None => None
  | Some raw =>
      match cut_suffix raw (lit ".m3u8") with
      | None => None
      | Some raw =>
          match parse_uint32 raw with
          | Some n => if ((n <? 2) || negb (bytes_equal (format_int n) raw))%bool then None else Some (lit "a" ++ raw)
          | None => None
          end
      end
  end.
Definition IsViewPlaylist (name : text) : bool := match playlistTag name with Some _ => true | None => false end.

(** [\d+] after a word *)
Definition word_digits (word : string) (s : text) : bool :=
  match cut_prefix s (lit word) with Some d => (negb (bytes_equal d []) && forallb is_digit d)%bool | None => false end.
(** [viewFile]: a base name, a tag and an extension *)
Definition viewFile (name : text) : option (text * text * text) :=
  match Split name 46 with
  | [base; t; ext] =>
      if ((says base "init" || word_digits "seg" base || word_digits "part" base) && (says t "v" || word_digits "a" t) &&
          (says ext "mp4" || says ext "m4s"))%bool then Some (base, t, ext) else None
  | _ => None
  end.
Definition diskFile (name : text) : bool :=
  (says name "init.mp4" ||
   match cut_suffix name (lit ".m4s") with Some base => word_digits "seg" base || word_digits "part" base | None => false end)%bool.
(** The file a media name is cut from and the view's tag, empty for the file's own name;
    [Some None] where there is no such file. *)
Definition view_source (name : text) : option (option (text * text)) :=
  match viewFile name with
  | Some (base, t, ext) =>
      if negb (Bool.eqb (says base "init") (says ext "mp4")) then Some None
      else let file := base ++ lit "." ++ ext in if diskFile file then Some (Some (file, t)) else None
  | None => if diskFile name then Some (Some (name, [])) else None
  end.

(** ** Media *)

Definition extraTrackID (i : Z) : Z := i + 3.
(** The sound of a rendition that carries some, of [extras] more tracks *)
Definition soundTracks `{Unicode} (r : Rendition) (extras : nat) : list Z :=
  if says (Audio (normalized r)) "none" then [] else 2 :: map (fun i => extraTrackID (Z.of_nat i)) (seq 0 extras).

Definition viewTracks (init tag_ : text) : res (option (list Z)) :=
  let! video := videoTrack init in
  match video with
  | None => Ok None
  | Some (video, _) =>
      let! scales := trackScales init in
      let sound := sort_by Z.ltb (List.filter (fun i => negb (i =? video)) (map fst (map_to_list scales))) in
      if says tag_ "v" then Ok (Some [video]) else
      match tag_ with
      | [] => Ok (Some (match sound with [] => [video] | s :: _ => [video; s] end))
      | _ :: raw =>
          Ok (match parse_uint32 raw with
              | Some i => if existsb (Z.eqb i) sound then Some [i] else None
              | None => None
              end)
      end
  end.

(** [cuts.file], without the cache *)
Definition cut_file (dir : gmap text (list Z)) (file : text) (cut : list Z -> res (option (list Z))) : res (option (list Z)) :=
  match dir !! file with
  | Some raw => cut raw
  | None =>
      let! part := PartFromSegment dir file in
      match part with Some raw => cut raw | None => Ok None end
  end.
(** [None] where the file is served as it is, [Some None] for an error *)
Definition ViewMedia (rendition : option (gmap text (list Z) * bool)) (name : text) : res (option (option (list Z))) :=
  match view_source name with
  | None => Ok None
  | Some None => Ok (Some None)
  | Some (Some (file, tag_)) =>
      if (bytes_equal tag_ [] && negb (match rendition with Some (_, extras) => extras | None => false end))%bool then Ok None else
      match rendition with
      | None => Ok (Some None)
      | Some (dir, _) =>
          let! init := cut_file dir (lit "init.mp4") (fun raw => Ok (Some raw)) in
          match init with
          | None => Ok (Some None)
          | Some init =>
              let! ids := viewTracks init tag_ in
              match ids with
              | None => Ok (Some None)
              | Some ids =>
                  let! body := cut_file dir file (fun raw => if says file "init.mp4" then keepTracks raw ids else keepTracksFrag raw ids) in
                  Ok (Some body)
              end
          end
      end
  end.

(** ** Playlists *)

(** [strings.Replace(s, old, new, 1)], and [strings.TrimRight(s, "\n")] *)
Definition replace_first (s old new : text) : text :=
  match find_sub old s with Some i => take i s ++ new ++ drop (i + length old) s | None => s end.
Definition trim_newlines (s : text) : text := reverse (trim_left_by (Z.eqb 10) (reverse s)).

(** A line that names a file *)
Definition is_file (l : text) : bool := match l with c :: _ => negb (c =? 35) | [] => false end.
Definition view_line (tag_ l : text) : text :=
  if has_prefix (lit "#EXT-X-MAP:") l then replace_first l (34 :: lit "init.mp4" ++ [34]) (34 :: lit "init." ++ tag_ ++ lit ".mp4" ++ [34])
  else if (has_prefix (lit "#EXT-X-PART:") l || has_prefix (lit "#EXT-X-PRELOAD-HINT:") l)%bool then
    replace_first l (lit ".m4s" ++ [34]) (lit "." ++ tag_ ++ lit ".m4s" ++ [34])
  else if is_file l then
    match cut_suffix l (lit ".m4s") with Some base => base ++ lit "." ++ tag_ ++ lit ".m4s" | None => l end
  else l.
Definition viewPlaylist (body tag_ : text) (reports : list text) : text :=
  concat (map (fun l => view_line tag_ l ++ [10]) (Split (trim_newlines body) 10)) ++ concat (map (fun r => r ++ [10]) reports).

(** What the reports are about: the first number, the segments, the parts after the
    last of them and the parts of that one *)
Record counts := mkCounts { origin : Z; segments : Z; parts : Z; closedParts : Z }.
(** [strconv.Atoi] without its error: what does not read is 0, and what is out of range
    the nearest number. *)
Definition atoi_value (s : text) : Z :=
  match Atoi s with
  | Some n => n
  | None =>
      match s with
      | c :: s' => if c =? 45 then (if digits s' then - 2 ^ 63 else 0) else if digits (if c =? 43 then s' else s) then 2 ^ 63 - 1 else 0
      | [] => 0
      end
  end.
Definition count_line (c : counts) (l : text) : counts :=
  match cut_prefix l (lit "#EXT-X-MEDIA-SEQUENCE:") with
  | Some n => mkCounts (atoi_value n) (segments c) (parts c) (closedParts c)
  | None =>
      if has_prefix (lit "#EXT-X-PART:") l then mkCounts (origin c) (segments c) (parts c + 1) (closedParts c)
      else if is_file l then mkCounts (origin c) (segments c + 1) 0 (parts c) else c
  end.
Definition count_lines (body : text) : counts := fold_left count_line (Split body 10) (mkCounts (-1) 0 0 0).
(** The segment the newest media is of, and its newest part if it has parts *)
Definition newest (c : counts) : Z * option Z :=
  if 0 <? parts c then (int64 (origin c + segments c), Some (parts c - 1))
  else if 0 <? closedParts c then (int64 (origin c + segments c - 1), Some (closedParts c - 1))
  else (int64 (origin c + segments c - 1), None).
Definition renditionReports (body : text) (siblings : list text) : list text :=
  let c := count_lines body in
  if ((zlen siblings =? 0) || (origin c <? 0) || (segments c + parts c =? 0))%bool then [] else
  let ' (msn, part) := newest c in
  let last_ := lit "LAST-MSN=" ++ format_int msn ++ match part with Some p => lit ",LAST-PART=" ++ format_int p | None => [] end in
  map (fun s => lit "#EXT-X-RENDITION-REPORT:URI=" ++ [34] ++ s ++ [34] ++ lit "," ++ last_) siblings.

Section playlists.
Context `{Unicode} `{FloatText}.

(** [audio] is the rendition's sound, [full] its playlist; [Some None] for an error. *)
Definition ViewPlaylist (audio : option (list Z)) (full : option text) (name : text) (skip : bool) : res (option (option text)) :=
  match playlistTag name with
  | None => Ok None
  | Some tag_ =>
      match audio with
      | None => Ok (Some None)
      | Some audio =>
          let picture := says tag_ "v" in
          if (negb picture && negb (existsb (Z.eqb (default 0 (parse_uint32 (drop 1 tag_)))) audio))%bool then Ok (Some None) else
          let siblings := (if picture then [] else [lit "video.m3u8"]) ++
            map (fun i => lit "audio-" ++ format_int i ++ lit ".m3u8") (List.filter (fun i => negb (bytes_equal (lit "a" ++ format_int i) tag_)) audio) in
          match full with
          | None => Ok (Some None)
          | Some full =>
              if negb (contains full (lit "#EXT-X-MAP:")) then Ok (Some None) else
              let! src := if skip then DeltaPlaylist full else Ok full in
              Ok (Some (Some (viewPlaylist src tag_ (renditionReports full siblings))))
          end
      end
  end.
End playlists.

(** * Proofs *)

(** ** First occurrences *)

Definition plain (c : Z) (s : text) : Prop := c ∉ s.

Lemma find_later pat x z : (forall i, (i < length x)%nat -> has_prefix pat (drop i (x ++ z)) = false) ->
  find_sub pat (x ++ z) = option_map (Nat.add (length x)) (find_sub pat z).
Proof.
  induction x as [| c x IH]; intros Hno; [cbn [app]; by destruct (find_sub pat z) |]. cbn [app length find_sub].
  rewrite (Hno 0%nat ltac:(cbn; lia) : has_prefix pat (c :: x ++ z) = false). rewrite IH; [by destruct (find_sub pat z) |].
  intros i Hi. apply (Hno (S i)). cbn. lia.
Qed.
Lemma find_here pat z : find_sub pat (pat ++ z) = Some O.
Proof.
  assert (has_prefix pat (pat ++ z) = true) as Hp by (apply has_prefix_spec; by exists z). destruct (pat ++ z) as [| c l]; cbn [find_sub]; by rewrite Hp.
Qed.
Lemma prefix_at pat s i k c : has_prefix pat (drop i s) = true -> pat !! k = Some c -> s !! (i + k)%nat = Some c.
Proof. intros Hp Hk. apply has_prefix_spec in Hp as [r Hr]. rewrite <- lookup_drop, Hr. by apply lookup_app_l_Some. Qed.
Lemma not_at c s z i : plain c s -> (i < length s)%nat -> (s ++ z) !! i <> Some c.
Proof. intros Hp Hi E. rewrite lookup_app_l in E by done. apply Hp. by eapply list_elem_of_lookup_2. Qed.

(** A pattern that ends, or begins, with a character the text before it lacks *)
Lemma find_ended pa c x y : plain c (x ++ pa) -> find_sub (pa ++ [c]) (x ++ pa ++ c :: y) = Some (length x).
Proof.
  intros Hp. change (pa ++ c :: y) with (pa ++ [c] ++ y). rewrite (app_assoc pa), find_later.
  - rewrite find_here. cbn. by rewrite Nat.add_0_r.
  - intros i Hi. destruct (has_prefix _ _) eqn:E; [| done]. exfalso. apply (prefix_at _ _ _ (length pa) c) in E; [| by rewrite lookup_app_r, Nat.sub_diag by lia].
    revert E. rewrite <- app_assoc, app_assoc. apply not_at; [done |]. rewrite length_app. lia.
Qed.
Lemma find_begun c pb x y : plain c x -> find_sub (c :: pb) (x ++ (c :: pb) ++ y) = Some (length x).
Proof.
  intros Hp. rewrite find_later.
  - rewrite find_here. cbn. by rewrite Nat.add_0_r.
  - intros i Hi. destruct (has_prefix _ _) eqn:E; [| done]. exfalso. apply (prefix_at _ _ _ 0 c) in E; [| done]. rewrite Nat.add_0_r in E. revert E. by apply not_at.
Qed.
Lemma replace_at old new x y : find_sub old (x ++ old ++ y) = Some (length x) -> replace_first (x ++ old ++ y) old new = x ++ new ++ y.
Proof.
  intros E. unfold replace_first. rewrite E, take_app_length. do 2 f_equal. rewrite app_assoc, <- length_app. apply drop_app_length.
Qed.

(** ** Names *)

Lemma split_cons sep s cur r : plain sep s -> split_on sep (s ++ sep :: r) cur = (cur ++ s) :: split_on sep r [].
Proof.
  revert cur. induction s as [| c s IH]; intros cur Hp; cbn [app split_on]; [by rewrite Z.eqb_refl, app_nil_r |].
  destruct (Z.eqb_spec c sep) as [-> |]; [destruct Hp; set_solver |]. rewrite IH by (unfold plain in *; set_solver). by rewrite <- app_assoc.
Qed.
Lemma split_last sep s cur : plain sep s -> split_on sep s cur = [cur ++ s].
Proof.
  revert cur. induction s as [| c s IH]; intros cur Hp; cbn [split_on]; [by rewrite app_nil_r |].
  destruct (Z.eqb_spec c sep) as [-> |]; [destruct Hp; set_solver |]. rewrite IH by (unfold plain in *; set_solver). by rewrite <- app_assoc.
Qed.

Lemma view_digits_plain c d : forallb is_digit d = true -> is_digit c = false -> plain c d.
Proof. intros Hd Hc Hin. rewrite forallb_forall in Hd. apply list_elem_of_In, Hd in Hin. congruence. Qed.
Lemma word_plain w s c : word_digits w s = true -> plain c (lit w) -> is_digit c = false -> plain c s /\ exists d, s = lit w ++ d /\ d <> [] /\ forallb is_digit d = true.
Proof.
  unfold word_digits, cut_prefix. destruct (has_prefix (lit w) s) eqn:E; [| done]. apply has_prefix_spec in E as [d ->]. rewrite drop_app_length.
  intros [Hne Hd]%andb_true_iff Hw Hc. apply negb_true_iff in Hne. pose proof (view_digits_plain c d Hd Hc).
  split; [unfold plain in *; set_solver |]. exists d. split_and!; [done | | done]. intros ->. done.
Qed.
Lemma digits_all s n : digits s = Some n -> s <> [] /\ forallb is_digit s = true.
Proof.
  unfold digits. destruct (bytes_equal s []) eqn:E; [done |]. apply bool_decide_eq_false_1 in E. intros Hn. split; [done |].
  clear E. revert Hn. generalize 0. induction s as [| c s IH]; intros acc Hn; [done |]. cbn [number forallb] in *. destruct (is_digit c); [| done]. by eapply IH.
Qed.

Ltac plain_lit := apply (bool_decide_eq_true_1 (_ ∉ _)); vm_compute; reflexivity.
(** The tags of views *)
Definition tag_ok (t : text) : Prop := t = lit "v" \/ exists d, t = lit "a" ++ d /\ d <> [] /\ forallb is_digit d = true.
Lemma playlistTag_ok name t : playlistTag name = Some t -> tag_ok t.
Proof.
  unfold playlistTag. destruct (says name "video.m3u8"); [intros [= <-]; by left |]. destruct (cut_prefix _ _) as [raw |]; [| done].
  destruct (cut_suffix _ _) as [raw' |]; [| done]. unfold parse_uint32. destruct (digits raw') as [n |] eqn:Ed; [| done].
  destruct (n <? 2 ^ 32); [| done]. destruct (_ || _)%bool; [done |]. intros [= <-]. right. exists raw'. destruct (digits_all _ _ Ed). done.
Qed.
Lemma tag_facts t : tag_ok t -> plain 46 t /\ plain 34 t /\ (says t "v" || word_digits "a" t)%bool = true.
Proof.
  intros [-> | (d & -> & Hne & Hd)]; [split_and!; [plain_lit | plain_lit | done] |].
  assert (forall c, is_digit c = false -> c <> 97 -> plain c (lit "a" ++ d)) as Hp.
  { intros c Hc H97 Hin. apply elem_of_app in Hin as [Hin | Hin]; [change (lit "a") with [97] in Hin; apply list_elem_of_singleton in Hin; done | by apply (view_digits_plain c d Hd Hc)]. }
  split_and!; [by apply Hp | by apply Hp |]. apply orb_true_iff. right. unfold word_digits, cut_prefix.
  rewrite (proj2 (has_prefix_spec (lit "a") (lit "a" ++ d))) by (by exists d). rewrite drop_app_length, Hd. destruct d; done.
Qed.

Lemma cut_suffix_app b tail : cut_suffix (b ++ tail) tail = Some b.
Proof.
  unfold cut_suffix. rewrite reverse_app, (proj2 (has_prefix_spec (reverse tail) (reverse tail ++ reverse b))) by (by exists (reverse b)).
  f_equal. rewrite length_app, Nat.add_sub. apply take_app_length.
Qed.
Lemma cut_suffix_Some s tail b : cut_suffix s tail = Some b -> s = b ++ tail.
Proof.
  unfold cut_suffix. destruct (has_prefix _ _) eqn:E; [| done]. apply has_prefix_spec in E as [r E]. apply (f_equal reverse) in E. rewrite reverse_involutive, reverse_app, reverse_involutive in E.
  intros [= <-]. rewrite E at 2. rewrite E, length_app, Nat.add_sub. by rewrite take_app_length.
Qed.

(** The file of a segment or part, by its base name *)
Definition base_ok (b : text) : Prop := (word_digits "seg" b || word_digits "part" b)%bool = true.
Lemma base_plain b c : base_ok b -> is_digit c = false -> plain c (lit "seg") -> plain c (lit "part") -> plain c b.
Proof. intros [Hb | Hb]%orb_true_iff Hc H1 H2; by eapply word_plain. Qed.
Lemma base_facts b : base_ok b -> plain 46 b /\ plain 34 b /\ says b "init" = false /\ b <> [] /\ is_file (b ++ lit ".m4s") = true /\ forall z, says (b ++ z) "init.mp4" = false.
Proof.
  intros Hb. split_and!; try (apply (base_plain b); [done | done | plain_lit | plain_lit]).
  all: apply orb_true_iff in Hb as [Hb | Hb]; (destruct (word_plain _ b 46 Hb) as (_ & d & -> & _ & _); [plain_lit | done | done]).
Qed.

Lemma diskFile_cases f : diskFile f = true -> f = lit "init.mp4" \/ exists b, f = b ++ lit ".m4s" /\ base_ok b.
Proof.
  unfold diskFile. intros [E | E]%orb_true_iff; [left; by apply says_spec |]. right. destruct (cut_suffix f (lit ".m4s")) as [b |] eqn:Ec; [| done].
  exists b. split; [by apply cut_suffix_Some | done].
Qed.

Lemma viewFile_name b t e : plain 46 b -> plain 46 t -> plain 46 e -> Split (b ++ lit "." ++ t ++ lit "." ++ e) 46 = [b; t; e].
Proof.
  intros Hb Ht He. unfold Split. change (lit "." ++ t ++ lit "." ++ e) with (46 :: t ++ 46 :: e). rewrite split_cons by done. cbn [app]. rewrite split_cons by done. cbn [app].
  by rewrite split_last.
Qed.
Lemma view_source_media b t : base_ok b -> tag_ok t -> view_source (b ++ lit "." ++ t ++ lit ".m4s") = Some (Some (b ++ lit ".m4s", t)).
Proof.
  intros Hb Ht. destruct (base_facts b Hb) as (H1 & _ & H3 & _ & _). destruct (tag_facts t Ht) as (T1 & _ & T3). unfold view_source, viewFile.
  change (lit ".m4s") with (lit "." ++ lit "m4s") at 1. rewrite viewFile_name by (done || plain_lit). rewrite T3. unfold base_ok in Hb.
  rewrite <- orb_assoc, Hb, orb_true_r. change (says (lit "m4s") "mp4" || says (lit "m4s") "m4s")%bool with true. cbn [andb].
  rewrite H3. change (says (lit "m4s") "mp4") with false. cbn [Bool.eqb negb].
  change (b ++ lit "." ++ lit "m4s") with (b ++ lit ".m4s"). unfold diskFile. rewrite cut_suffix_app, Hb. by rewrite orb_true_r.
Qed.
Lemma view_source_init t : tag_ok t -> view_source (lit "init." ++ t ++ lit ".mp4") = Some (Some (lit "init.mp4", t)).
Proof.
  intros Ht. destruct (tag_facts t Ht) as (T1 & _ & T3). unfold view_source, viewFile.
  change (lit "init." ++ t ++ lit ".mp4") with (lit "init" ++ lit "." ++ t ++ lit "." ++ lit "mp4"). rewrite viewFile_name by (done || plain_lit). rewrite T3. done.
Qed.

(** ** Lines *)

(** The file a playlist's line names: the line itself, or what it says is at [URI=],
    its first quotes *)
Definition names (l : text) : option text :=
  match l with
  | [] => None
  | c :: _ =>
      if negb (c =? 35) then Some l else
      match find_sub (lit "URI=" ++ [34]) l with
      | Some i =>
          if existsb (Z.eqb 34) (take i l) then None else
          let rest := drop (i + 5) l in
          match find_sub [34] rest with Some j => Some (take j rest) | None => None end
      | None => None
      end
  end.
(** A line of a rendition's playlist, as [pack.go] writes it: a map names the init,
    a part, a hint of a part and a line of its own a segment or a part. *)
Definition media_line (l f : text) : Prop :=
  names l = Some f /\ diskFile f = true /\
  ((has_prefix (lit "#EXT-X-MAP:") l = true /\ f = lit "init.mp4") \/
   (has_prefix (lit "#EXT-X-MAP:") l = false /\ (has_prefix (lit "#EXT-X-PART:") l || has_prefix (lit "#EXT-X-PRELOAD-HINT:") l)%bool = true /\ f <> lit "init.mp4") \/
   (l = f /\ f <> lit "init.mp4")).

Lemma find_char c s j : find_sub [c] s = Some j -> plain c (take j s).
Proof.
  revert j. induction s as [| x s IH]; intros j; cbn [find_sub has_prefix]; [done |]. destruct (Z.eqb_spec c x) as [-> | Hne]; cbn [andb].
  - intros [= <-]. by intros ?%elem_of_nil.
  - destruct (find_sub [c] s) as [i |]; [| done]. intros [= <-]. cbn [take]. specialize (IH i eq_refl). unfold plain in *. rewrite not_elem_of_cons. done.
Qed.
Lemma no_quote s : existsb (Z.eqb 34) s = false -> plain 34 s.
Proof.
  intros E Hin. assert (existsb (Z.eqb 34) s = true) as Ht; [| congruence]. apply existsb_exists. exists 34. split; [by apply list_elem_of_In | done].
Qed.
Lemma quote_none s : plain 34 s -> existsb (Z.eqb 34) s = false.
Proof.
  intros Hp. destruct (existsb (Z.eqb 34) s) eqn:E; [| done]. apply existsb_exists in E as (x & Hin & Ex). apply Z.eqb_eq in Ex as <-. by apply list_elem_of_In in Hin.
Qed.

Lemma names_shape l f : names (35 :: l) = Some f -> exists x y, 35 :: l = x ++ lit "URI=" ++ 34 :: f ++ 34 :: y /\ plain 34 x /\ plain 34 f.
Proof.
  unfold names. change (35 =? 35) with true. cbn [negb]. set (s := 35 :: l).
  destruct (find_sub (lit "URI=" ++ [34]) s) as [i |] eqn:E; [| done]. destruct (existsb (Z.eqb 34) (take i s)) eqn:Eq; [done |].
  destruct (find_sub [34] (drop (i + 5) s)) as [j |] eqn:Ej; [| done]. intros [= <-]. pose proof (find_char _ _ _ Ej) as Hf.
  apply find_sub_Some in E as (r & E & Hi). apply find_sub_Some in Ej as (r2 & Ej & Hj). exists (take i s), r2. split_and!; [| by apply no_quote | done].
  rewrite <- (take_drop i s) at 1. rewrite E. rewrite <- drop_drop in Ej |- *. rewrite E in Ej |- *. change (drop 5 ((lit "URI=" ++ [34]) ++ r)) with r in *.
  rewrite <- (take_drop j r) at 1. rewrite Ej. by rewrite <- app_assoc.
Qed.
Lemma names_made x f y l : 35 :: l = x ++ lit "URI=" ++ 34 :: f ++ 34 :: y -> plain 34 x -> plain 34 f -> names (35 :: l) = Some f.
Proof.
  intros E Hx Hf. unfold names. change (35 =? 35) with true. cbn [negb]. rewrite E.
  assert (plain 34 (x ++ lit "URI=")) as Hu by (unfold plain; rewrite not_elem_of_app; split; [done | plain_lit]).
  rewrite (find_ended (lit "URI=") 34 x (f ++ 34 :: y) Hu), take_app_length, quote_none by done.
  replace (drop (length x + 5) _) with (f ++ 34 :: y) by (by rewrite <- drop_drop, drop_app_length).
  rewrite (find_ended [] 34 f y : plain 34 (f ++ []) -> find_sub [34] (f ++ 34 :: y) = Some (length f)) by (by rewrite app_nil_r). by rewrite take_app_length.
Qed.

(** A line of the view's playlist that begins with what the rendition's did *)
Lemma names_renamed l f f' x y : 35 :: l = x ++ lit "URI=" ++ 34 :: f ++ 34 :: y -> plain 34 x -> plain 34 f' -> names (x ++ lit "URI=" ++ 34 :: f' ++ 34 :: y) = Some f'.
Proof.
  intros E Hx Hf. destruct x as [| c x]; [done |]. cbn [app] in E. injection E as <- E. cbn [app]. by apply (names_made (35 :: x) f' y).
Qed.

Lemma view_map l x y tag_ : has_prefix (lit "#EXT-X-MAP:") l = true -> l = x ++ lit "URI=" ++ 34 :: lit "init.mp4" ++ 34 :: y -> plain 34 x ->
  view_line tag_ l = x ++ lit "URI=" ++ 34 :: (lit "init." ++ tag_ ++ lit ".mp4") ++ 34 :: y.
Proof.
  intros Hp E Hx. unfold view_line. rewrite Hp. assert (l = (x ++ lit "URI=") ++ (34 :: lit "init.mp4" ++ [34]) ++ y) as El by (rewrite E; by rewrite <- app_assoc).
  rewrite El, replace_at; [by list_simplifier |].
  apply find_begun. unfold plain. rewrite not_elem_of_app. split; [done | plain_lit].
Qed.

Lemma find_part x b y : plain 34 x -> plain 34 b -> find_sub (lit ".m4s" ++ [34]) ((x ++ lit "URI=" ++ 34 :: b) ++ (lit ".m4s" ++ [34]) ++ y) = Some (length (x ++ lit "URI=" ++ 34 :: b)).
Proof.
  intros Hx Hb. set (z := b ++ lit ".m4s" ++ 34 :: y).
  assert (find_sub (lit ".m4s" ++ [34]) z = Some (length b)) as Ez by (apply (find_ended (lit ".m4s")); unfold plain; rewrite not_elem_of_app; split; [done | plain_lit]).
  replace ((x ++ lit "URI=" ++ 34 :: b) ++ (lit ".m4s" ++ [34]) ++ y) with ((x ++ lit "URI=" ++ [34]) ++ z) by (unfold z; by rewrite <- !app_assoc).
  rewrite find_later; [rewrite Ez; cbn [option_map]; f_equal; rewrite !length_app; cbn [length]; lia |].
  intros i Hi. destruct (has_prefix _ _) eqn:E; [| done]. exfalso. rewrite !length_app in Hi. change (length (lit "URI=")) with 4%nat in Hi. cbn [length] in Hi.
  pose proof (prefix_at _ _ _ 0 46 E eq_refl) as E0. pose proof (prefix_at _ _ _ 4 34 E eq_refl) as E4. rewrite Nat.add_0_r in E0. destruct (decide (i < length x)%nat) as [Hlt | Hge].
  - revert E4. rewrite <- !app_assoc, app_assoc. apply not_at; [unfold plain; rewrite not_elem_of_app; split; [done | plain_lit] |]. rewrite length_app. change (length (lit "URI=")) with 4%nat. lia.
  - rewrite <- app_assoc, lookup_app_r in E0 by lia. assert (i - length x < 5)%nat as H5 by lia.
    destruct (i - length x)%nat as [| [| [| [| [| k]]]]]; try lia; by cbn in E0.
Qed.
Lemma view_part l x b y tag_ : has_prefix (lit "#EXT-X-MAP:") l = false -> (has_prefix (lit "#EXT-X-PART:") l || has_prefix (lit "#EXT-X-PRELOAD-HINT:") l)%bool = true ->
  l = x ++ lit "URI=" ++ 34 :: (b ++ lit ".m4s") ++ 34 :: y -> plain 34 x -> plain 34 b ->
  view_line tag_ l = x ++ lit "URI=" ++ 34 :: (b ++ lit "." ++ tag_ ++ lit ".m4s") ++ 34 :: y.
Proof.
  intros Hm Hp E Hx Hb. unfold view_line. rewrite Hm, Hp.
  assert (l = (x ++ lit "URI=" ++ 34 :: b) ++ (lit ".m4s" ++ [34]) ++ y) as El by (rewrite E; by list_simplifier).
  rewrite El, replace_at by (by apply find_part). by list_simplifier.
Qed.

(** C15. What a view's playlist names, the view's media can be made of: every line of a rendition's
    playlist that names the init, a segment or a part of it becomes, in the
    playlist of a view, a line that names a file of the view's, and a request
    for that file is answered from the file the line named, for that view. *)
Theorem view_names_resolve name tag_ l f : playlistTag name = Some tag_ -> media_line l f ->
  exists f', names (view_line tag_ l) = Some f' /\ view_source f' = Some (Some (f, tag_)).
Proof.
  intros Ht (Hn & Hd & Hk). apply playlistTag_ok in Ht. destruct (tag_facts _ Ht) as (T1 & T2 & _). destruct Hk as [[Hm ->] | [(Hm & Hp & Hf) | [-> Hf]]].
  - assert (exists r, l = 35 :: r) as [r ->] by (apply has_prefix_spec in Hm as [r ->]; by eexists). destruct (names_shape _ _ Hn) as (x & y & E & Hx & Hfp).
    exists (lit "init." ++ tag_ ++ lit ".mp4"). split; [| by apply view_source_init]. rewrite (view_map _ x y) by done. eapply names_renamed; [exact E | done |].
    unfold plain in *. rewrite !not_elem_of_app. split_and!; [plain_lit | done | plain_lit].
  - destruct (diskFile_cases _ Hd) as [-> | (b & -> & Hb)]; [done |]. destruct (base_facts b Hb) as (_ & B2 & _).
    assert (exists r, l = 35 :: r) as [r ->] by (apply orb_true_iff in Hp as [Hp | Hp]; apply has_prefix_spec in Hp as [r ->]; by eexists).
    destruct (names_shape _ _ Hn) as (x & y & E & Hx & _). exists (b ++ lit "." ++ tag_ ++ lit ".m4s"). split; [| by apply view_source_media].
    rewrite (view_part _ x b y) by done. eapply names_renamed; [exact E | done |]. unfold plain in *. rewrite !not_elem_of_app. split_and!; [done | plain_lit | done | plain_lit].
  - destruct (diskFile_cases _ Hd) as [-> | (b & -> & Hb)]; [done |]. destruct (base_facts b Hb) as (_ & _ & _ & Hne & Hfile & _).
    exists (b ++ lit "." ++ tag_ ++ lit ".m4s"). split; [| by apply view_source_media]. destruct b as [| c b]; [done |]. cbn [app is_file] in Hfile. apply negb_true_iff in Hfile.
    unfold view_line. cbn [app]. assert (forall w, has_prefix (35 :: w) (c :: b ++ lit ".m4s") = false) as Hno by (intros w; cbn [has_prefix]; rewrite Z.eqb_sym, Hfile; done).
    change (lit "#EXT-X-MAP:") with (35 :: lit "EXT-X-MAP:"). change (lit "#EXT-X-PART:") with (35 :: lit "EXT-X-PART:"). change (lit "#EXT-X-PRELOAD-HINT:") with (35 :: lit "EXT-X-PRELOAD-HINT:").
    rewrite !Hno. cbn [orb is_file]. rewrite Hfile. cbn [negb]. change (c :: b ++ lit ".m4s") with ((c :: b) ++ lit ".m4s"). rewrite cut_suffix_app. cbn [app names]. by rewrite Hfile.
Qed.

Lemma view_names_resolve_witness : view_line (lit "a3") (lit "seg00012.m4s") = lit "seg00012.a3.m4s" /\
  exists f', names (view_line (lit "a3") (lit "seg00012.m4s")) = Some f' /\ view_source f' = Some (Some (lit "seg00012.m4s", lit "a3")).
Proof.
  split; [vm_compute; reflexivity |].
  apply (view_names_resolve (lit "audio-3.m3u8") (lit "a3") (lit "seg00012.m4s") (lit "seg00012.m4s")); [vm_compute; reflexivity |].
  split; [vm_compute; reflexivity |]. split; [vm_compute; reflexivity |]. right. right. split; [reflexivity | vm_compute; discriminate].
Defined.

(** The sound of the fragment of [Fmp4Trim], asked for by its view's name *)
Example ex_media : view_source (lit "part00003.v.m4s") = Some (Some (lit "part00003.m4s", lit "v")) /\ view_source (lit "init.v.m4s") = Some None /\
  view_source (lit "seg1.a2.ts") = None /\
  renditionReports (concat (map (fun l => lit l ++ [10]) ["#EXT-X-MEDIA-SEQUENCE:7"; "seg00007.m4s"; "#EXT-X-PART:a"; "#EXT-X-PART:b"]%string)) [lit "video.m3u8"]
    = [lit "#EXT-X-RENDITION-REPORT:URI=" ++ [34] ++ lit "video.m3u8" ++ [34] ++ lit ",LAST-MSN=8,LAST-PART=1"].
Proof. vm_compute. by split_and!. Qed.
