(* ===== verification/LiveQueue.v ===== *)
(** What a packager reads, [packInput] and [readAhead] of
    [server/internal/live/pack.go]: the outputs of the encodes of one playlist, one
    after another, each read ahead while the one before it finishes.

    The packager, the hub and the encodes' readers interleave: each stretch under a
    lock, and each read of a pipe, is one step. An encode's output is all it will
    have written; a read gives some of it, and its end when there is no more. A
    screen asleep on the condition wakes only at a broadcast. *)
From S2P Require Import Prelude Mpeg GoText.
Local Open Scope Z_scope.
Local Open Scope go_scope.

Notation bytes := (list Z) (only parsing).

Definition readAheadCap : Z := Z.shiftl 64 20.

(** How a source ends: its output's end, or what was read ahead of it grew too much *)
Inductive ending := EOF | TooFar.
(** [readAhead], with the encode it reads and what of its output is still in the pipe;
    [tell] while its first bytes are still to be told ([first]). *)
Record readAhead := mkAhead { src : nat; left : bytes; buf : bytes; aerr : option ending; takeover : bool; tell : bool }.
(** What the packager reads from: the first encode's own pipe, or one read ahead *)
Inductive source := Pipe (e : nat) (left : bytes) | Ahead (r : readAhead).

Record packInput := mkInput {
  cur : source; next : list readAhead; done : bool; hold : bool; ended : bool; parked : bool; abandoned : bool; taking : bool;
}.

(** One pass of the goroutine of [newReadAhead]: [n] bytes of the pipe, or its end;
    bytes past the bound are lost, and end it. *)
Definition fetch (r : readAhead) (n : nat) : readAhead :=
  match left r with
  | [] => mkAhead (src r) [] (buf r) (Some EOF) (takeover r) (tell r)
  | _ =>
      let chunk := take n (left r) in
      let fits := zlen (buf r) + zlen chunk <=? readAheadCap in
      mkAhead (src r) (drop n (left r)) (if fits then buf r ++ chunk else buf r) (if fits then None else Some TooFar) (takeover r) false
  end.
(** It goes on until it has an error, a chunk of up to 64 KiB at a time. *)
Definition fetches (r : readAhead) (n : nat) : Prop := aerr r = None /\ (left r = [] \/ (0 < n <= length (left r))%nat /\ Z.of_nat n <= Z.shiftl 64 10).

(** A source's [Read] of at most [n] bytes, where it does not block *)
Definition read_source (s : source) (n : nat) : option (bytes * source + ending) :=
  match s with
  | Pipe e l => match l with [] => Some (inr EOF) | _ => Some (inl (take n l, Pipe e (drop n l))) end
  | Ahead r =>
      match buf r with
      | [] => match aerr r with Some e => Some (inr e) | None => None end
      | b => Some (inl (take n b, Ahead (mkAhead (src r) (left r) (drop n b) (aerr r) (takeover r) (tell r))))
      end
  end.

Definition set_parked (i : packInput) (b : bool) : packInput :=
  mkInput (cur i) (next i) (done i) (hold i) (ended i) b (abandoned i) (taking i).

(** The end of [Read], the lock held, from the condition of its loop on. *)
Inductive stop := Ended (e : ending) | Abandoned.
Inductive verdict := Sleeps | NextEncode | Stops (s : stop).
Definition check (i : packInput) (e : ending) : packInput * verdict :=
  if ((zlen (next i) =? 0) && hold i && negb (ended i) && negb (done i))%bool then (set_parked i true, Sleeps) else
  let i := set_parked i false in
  if abandoned i then (i, Stops Abandoned) else
  match next i with
  | [] => (i, Stops (Ended e))
  | r :: rs => (mkInput (Ahead r) rs (done i) (hold i) (ended i) (parked i) (abandoned i) (takeover r), NextEncode)
  end.

Definition followAs (i : packInput) (e : nat) (out : bytes) (take_over : bool) : packInput * bool :=
  if (done i || ended i)%bool then (i, false) else
  (mkInput (cur i) (next i ++ [mkAhead e out [] None take_over take_over]) (done i) (hold i) (ended i) (parked i) (abandoned i) (taking i), true).
Definition holding (i : packInput) : bool := (hold i && negb (ended i) && negb (done i))%bool.
Definition end_ (i : packInput) : packInput := mkInput (cur i) (next i) (done i) (hold i) true (parked i) (abandoned i) (taking i).
Definition abandon (i : packInput) : packInput := mkInput (cur i) (next i) (done i) (hold i) true (parked i) true (taking i).
Definition close (i : packInput) : packInput := mkInput (cur i) [] true (hold i) (ended i) (parked i) (abandoned i) (taking i).
(** What [waitParked] waits for, and what it answers *)
Definition park_waits (i : packInput) : bool := (negb (parked i) && negb (done i) && negb (ended i))%bool.
Definition park_answer (i : packInput) : bool := (parked i && negb (done i) && negb (ended i))%bool.

(** ** Steps *)

(** Where the packager is: reading its source, at the loop of [Read] with the source's
    error, asleep there, or told to stop, and gone *)
Inductive at_ := Reading | Ending (e : ending) | Asleep (e : ending) | Stopping (s : stop) | Gone.
(** Where a hub in [waitParked] is *)
Inductive hub_at := Away | Watching | Dozing | Told (b : bool).
(** [got] is what the packager has read, a list for each encode it has turned to;
    [turned] those encodes, [queued] all that were queued, the first one's too. *)
Record world := mkWorld { input : packInput; packager : at_; hub : hub_at; got : list bytes; turned : list nat; queued : list nat }.

(** A broadcast wakes who is asleep. *)
Definition wake (a : at_) : at_ := match a with Asleep e => Ending e | _ => a end.
Definition wake_hub (h : hub_at) : hub_at := match h with Dozing => Watching | _ => h end.
Definition add_got (g : list bytes) (b : bytes) : list bytes :=
  match reverse g with [] => [b] | l :: g' => reverse ((l ++ b) :: g') end.

Section steps.
Context (out : nat -> bytes).

Definition start (hold_ : bool) : world :=
  mkWorld (mkInput (Pipe 0 (out 0)) [] false hold_ false false false false) Reading Away [[]] [0%nat] [0%nat].
Definition set_cur (i : packInput) (s : source) : packInput := mkInput s (next i) (done i) (hold i) (ended i) (parked i) (abandoned i) (taking i).
Definition set_next (i : packInput) (l : list readAhead) : packInput := mkInput (cur i) l (done i) (hold i) (ended i) (parked i) (abandoned i) (taking i).
Definition told (w : world) (i : packInput) : world := mkWorld i (wake (packager w)) (wake_hub (hub w)) (got w) (turned w) (queued w).

Inductive step (w : world) : world -> Prop :=
  | step_read n b s : packager w = Reading -> (0 < n)%nat -> read_source (cur (input w)) n = Some (inl (b, s)) ->
      step w (mkWorld (set_cur (input w) s) Reading (hub w) (add_got (got w) b) (turned w) (queued w))
  | step_end n e : packager w = Reading -> read_source (cur (input w)) n = Some (inr e) ->
      step w (mkWorld (input w) (Ending e) (hub w) (got w) (turned w) (queued w))
  | step_sleep e i : packager w = Ending e -> check (input w) e = (i, Sleeps) ->
      step w (mkWorld i (Asleep e) (wake_hub (hub w)) (got w) (turned w) (queued w))
  | step_next e i : packager w = Ending e -> check (input w) e = (i, NextEncode) ->
      step w (mkWorld i Reading (hub w) (got w ++ [[]]) (turned w ++ match cur i with Ahead r => [src r] | Pipe e _ => [e] end) (queued w))
  | step_stop e i s : packager w = Ending e -> check (input w) e = (i, Stops s) ->
      step w (mkWorld i (Stopping s) (hub w) (got w) (turned w) (queued w))
  (** The packager is done, or fails at something else. *)
  | step_close : (exists s, packager w = Stopping s) \/ packager w = Reading ->
      step w (mkWorld (close (input w)) Gone (wake_hub (hub w)) (got w) (turned w) (queued w))
  | step_fetch_cur r n : cur (input w) = Ahead r -> fetches r n ->
      step w (mkWorld (set_cur (input w) (Ahead (fetch r n))) (packager w) (hub w) (got w) (turned w) (queued w))
  | step_fetch_next l r l' n : next (input w) = l ++ r :: l' -> fetches r n ->
      step w (mkWorld (set_next (input w) (l ++ fetch r n :: l')) (packager w) (hub w) (got w) (turned w) (queued w))
  | step_follow t e i : followAs (input w) e (out e) t = (i, true) ->
      step w (mkWorld i (wake (packager w)) (wake_hub (hub w)) (got w) (turned w) (queued w ++ [e]))
  | step_refused t e : followAs (input w) e (out e) t = (input w, false) -> step w w
  | step_end_ : step w (told w (end_ (input w)))
  | step_abandon : step w (told w (abandon (input w)))
  | step_watch : hub w = Away -> step w (mkWorld (input w) (packager w) Watching (got w) (turned w) (queued w))
  | step_doze : hub w = Watching -> park_waits (input w) = true -> step w (mkWorld (input w) (packager w) Dozing (got w) (turned w) (queued w))
  | step_timer : step w (told w (input w))
  (** It is there, or the time is over. *)
  | step_answer : hub w = Watching -> step w (mkWorld (input w) (packager w) (Told (park_answer (input w))) (got w) (turned w) (queued w)).
Inductive reach (hold_ : bool) : world -> Prop :=
  | reach_start : reach hold_ (start hold_)
  | reach_step w w' : reach hold_ w -> step w w' -> reach hold_ w'.
End steps.

(** ** The encodes' places on the playlist *)

Definition spanKeep : Z := 1024.
(** [encodeSpan] *)
Record encodeSpan := mkSpan { seq : Z; offset : Z; line : Z }.
(** The fields of [packInput] that place its encodes *)
Record places := mkPlaces { poffset : Z; known : bool; encodes : Z; startOK : bool; spans : list encodeSpan }.
Definition no_places : places := mkPlaces 0 false 0 false [].

(** [ticks] is the header's first time in 90 kHz ticks, rounded; [takes] says that the
    packager reads an encode that takes over. *)
Definition noteEncodeStart (p : places) (takes : bool) (ticks : Z) (ok : bool) : places :=
  let encodes' := encodes p + 1 in
  let offset' := Z.rem ticks ptsWrap in
  let same := (takes && known p && startOK p && ok && (offset' =? poffset p))%bool in
  mkPlaces offset' (ok && ((encodes' =? 1) || same)) encodes' ok (spans p).
(** [n] is what the captions' timeline says, 0 without captions. *)
Definition noteFirstSegment (p : places) (seq n : Z) : places :=
  let n := if startOK p then n else -1 in
  let spans := spans p ++ [mkSpan seq (poffset p) n] in
  let spans := if spanKeep <? zlen spans then drop (Z.to_nat (zlen spans - spanKeep)) spans else spans in
  mkPlaces (poffset p) (known p) (encodes p) (startOK p) spans.

Fixpoint last_at (l : list encodeSpan) (at_seq : Z) : option encodeSpan :=
  match l with
  | [] => None
  | s :: l' => match last_at l' at_seq with Some s' => Some s' | None => if seq s <=? at_seq then Some s else None end
  end.
Definition encodeAt (p : places) (at_seq : Z) : encodeSpan * bool :=
  match last_at (spans p) at_seq with Some s => (s, 0 <=? line s) | None => (mkSpan 0 0 0, false) end.
Definition broadcastOffset (p : places) : Z * bool := (poffset p, known p).
Definition encode_started (p : places) : bool := 0 <? encodes p.

(** What the packager tells of its encodes, one after another *)
Inductive note := Started (takes : bool) (ticks : Z) (ok : bool) | First (seq n : Z).
Definition noted (p : places) (n : note) : places :=
  match n with Started takes ticks ok => noteEncodeStart p takes ticks ok | First s n => noteFirstSegment p s n end.
Definition noted_all : list note -> places := foldl noted no_places.

(** * Proofs *)

Lemma add_got_last gs g b : add_got (gs ++ [g]) b = gs ++ [g ++ b].
Proof. unfold add_got. rewrite reverse_snoc, reverse_cons. by rewrite reverse_involutive. Qed.

Section proofs.
Context (out : nat -> bytes).
Notation step := (step out).
Notation reach := (reach out).

(** An encode's output runs too far ahead: with the next bytes read of it, what is held
    of it would be more than the bound. *)
Definition too_far (w : world) (e : nat) : Prop :=
  exists r n, (cur (input w) = Ahead r \/ r ∈ next (input w)) /\ src r = e /\ fetches r n /\ readAheadCap < zlen (buf r) + zlen (take n (left r)).

Section far.
Context (far : nat -> Prop).

(** What was read of a source, what is held of it and what is in its pipe make up its
    encode's output, unless it went too far ahead. *)
Definition ahead_ok (g : bytes) (r : readAhead) : Prop :=
  match aerr r with
  | None => g ++ buf r ++ left r = out (src r)
  | Some EOF => g ++ buf r = out (src r)
  | Some TooFar => g ++ buf r `prefix_of` out (src r) /\ far (src r)
  end.
Definition source_ok (g : bytes) (s : source) (e : nat) : Prop :=
  match s with Pipe e' l => e' = e /\ g ++ l = out e | Ahead r => src r = e /\ ahead_ok g r end.
Definition at_end (s : source) (e : ending) : Prop :=
  match s with Pipe _ l => l = [] /\ e = EOF | Ahead r => buf r = [] /\ aerr r = Some e end.
(** All of an encode's output, or a beginning of one that went too far ahead *)
Definition whole (e : nat) (b : bytes) : Prop := b = out e \/ (b `prefix_of` out e /\ far e).

Record sound (w : world) : Prop := {
  s_read : exists ts t gs g, turned w = ts ++ [t] /\ got w = gs ++ [g] /\ Forall2 whole ts gs /\ source_ok g (cur (input w)) t;
  s_next : Forall (ahead_ok []) (next (input w));
  s_queue : packager w = Gone \/ queued w = turned w ++ map src (next (input w));
  s_end : match packager w with Ending e | Asleep e => at_end (cur (input w)) e | _ => True end;
  s_asleep : forall e, packager w = Asleep e -> next (input w) = [] /\ holding (input w) = true /\ parked (input w) = true;
  s_parked : parked (input w) = true -> exists e, packager w = Ending e \/ packager w = Asleep e;
  s_hub : hub w = Dozing -> park_waits (input w) = true;
  s_gone : packager w = Gone -> done (input w) = true;
  s_alive : ended (input w) = false -> abandoned (input w) = false;
}.

Lemma fetch_ok g r n : fetches r n -> (readAheadCap < zlen (buf r) + zlen (take n (left r)) -> far (src r)) -> ahead_ok g r -> ahead_ok g (fetch r n).
Proof.
  intros [Hn Hl] Hfar Hr. unfold ahead_ok in *. rewrite Hn in Hr. unfold fetch. destruct (left r) as [| c l] eqn:El; cbn [aerr src buf left].
  { by rewrite app_nil_r in Hr. }
  destruct Hl as [? | [Hl _]]; [done |]. rewrite <- El in *. destruct (Z.leb_spec (zlen (buf r) + zlen (take n (left r))) readAheadCap); cbn [aerr src buf left].
  - rewrite <- Hr at 1. rewrite <- (take_drop n (left r)) at 3. by rewrite <- !app_assoc.
  - split; [exists (left r); by rewrite <- app_assoc | by apply Hfar].
Qed.
Lemma fetch_src r n : src (fetch r n) = src r.
Proof. unfold fetch. by destruct (left r). Qed.

Lemma read_ok g s e n b s' : source_ok g s e -> read_source s n = Some (inl (b, s')) -> source_ok (g ++ b) s' e.
Proof.
  destruct s as [e' l | r]; cbn [source_ok read_source].
  - intros [-> Hl]. destruct l as [| c k] eqn:El; [done |]. rewrite <- El in *. intros [= <- <-]. split; [done |]. by rewrite <- app_assoc, take_drop.
  - intros [He Hr]. destruct (buf r) as [| c l] eqn:Eb; [by destruct (aerr r) |]. rewrite <- Eb in *. intros [= <- <-]. split; [done |].
    unfold ahead_ok in *. cbn [aerr src buf left]. destruct (aerr r) as [[] |]; rewrite <- ?app_assoc, ?(app_assoc (take n (buf r))), take_drop; done.
Qed.
Lemma end_ok s n e : read_source s n = Some (inr e) -> at_end s e.
Proof.
  destruct s as [e' l | r]; cbn [at_end read_source]; [destruct l; [by intros [= <-] | done] |].
  destruct (buf r); [| done]. destruct (aerr r); [by intros [= <-] | done].
Qed.
(** A source at its end has given its encode's output. *)
Lemma end_whole g s t e : source_ok g s t -> at_end s e -> whole t g.
Proof.
  destruct s as [e' l | r]; cbn [source_ok at_end].
  - intros [_ Hg] [-> _]. rewrite app_nil_r in Hg. subst. by left.
  - intros [<- Hr] [Hb He]. unfold ahead_ok in Hr. rewrite He, Hb, ?app_nil_r in Hr. unfold whole. destruct e; [by left | by right].
Qed.

Lemma queue_start_sound hold_ : sound (start out hold_).
Proof.
  split; cbn; try done; [| by right]. exists [], 0%nat, [], []. split_and!; done.
Qed.

(** A step that leaves what is read and queued as it was *)
Lemma sound_flags w i p h : sound w -> cur i = cur (input w) -> next i = next (input w) ->
  (p = packager w \/ p = wake (packager w)) ->
  (forall e, p = Asleep e -> holding i = true /\ parked i = true) ->
  (parked i = true -> exists e, p = Ending e \/ p = Asleep e) -> (h = Dozing -> park_waits i = true) -> (p = Gone -> done i = true) -> (ended i = false -> abandoned i = false) ->
  sound (mkWorld i p h (got w) (turned w) (queued w)).
Proof.
  intros [H1 H2 H3 H4 H5 H6 H7 H8 H9] Hc Hn Hp Ha Hk Hh Hg. split; cbn [input packager hub got turned queued]; rewrite ?Hc, ?Hn; try done.
  - destruct H3 as [H3 | H3]; [left | by right]. destruct Hp as [-> | ->]; [done | by rewrite H3].
  - destruct Hp as [-> | ->]; [done |]. by destruct (packager w).
  - intros e He. destruct (Ha e He) as [Hx Hy]. split_and!; [| done | done]. destruct Hp as [-> | ->]; [by destruct (H5 e He) |]. destruct (packager w); done.
Qed.
Lemma wake_not_asleep a e : wake a <> Asleep e.
Proof. by destruct a. Qed.
Lemma wake_gone a : wake a = Gone -> a = Gone.
Proof. by destruct a. Qed.
Lemma wake_hub_not h : wake_hub h <> Dozing.
Proof. by destruct h. Qed.
Lemma wake_parked a : (exists e, a = Ending e \/ a = Asleep e) -> exists e, wake a = Ending e \/ wake a = Asleep e.
Proof. intros (e & [-> | ->]); exists e; by left. Qed.

(** A broadcast, after flags that let the packager and the hub go on *)
Lemma told_sound w i : sound w -> cur i = cur (input w) -> next i = next (input w) -> parked i = parked (input w) -> done i = done (input w) -> (ended i = false -> abandoned i = false) -> sound (told w i).
Proof.
  intros Hs Hc Hn Hp Hd Hab. apply sound_flags; try done; [by right | | | |].
  - intros e He. by apply wake_not_asleep in He.
  - rewrite Hp. intros Hk. by apply wake_parked, (s_parked _ Hs).
  - intros Hh. by apply wake_hub_not in Hh.
  - rewrite Hd. intros Hg. by apply (s_gone _ Hs), wake_gone.
Qed.

Lemma src_split l r l' n : map src (l ++ fetch r n :: l') = map src (l ++ r :: l').
Proof. rewrite !map_app. cbn [map]. by rewrite fetch_src. Qed.

(** The branches of [check] *)
Lemma check_cases i e : match check i e with
  | (i', Sleeps) => i' = set_parked i true /\ next i = [] /\ holding i = true
  | (i', NextEncode) => exists r rs, next i = r :: rs /\ abandoned i = false /\ i' = mkInput (Ahead r) rs (done i) (hold i) (ended i) false (abandoned i) (takeover r)
  | (i', Stops s) => i' = set_parked i false /\ ((abandoned i = true /\ s = Abandoned) \/ (abandoned i = false /\ next i = [] /\ s = Ended e)) /\
      (next i = [] -> holding i = false)
  end.
Proof.
  unfold check, holding. destruct (Z.eqb_spec (zlen (next i)) 0) as [E | E]; cbn [andb].
  - apply zlen_0_nil in E. destruct (hold i && negb (ended i) && negb (done i))%bool eqn:Eh; cbn [andb].
    + by split_and!.
    + cbn [abandoned set_parked next]. rewrite E. destruct (abandoned i) eqn:Ea; (split_and!; [done | auto | done]).
  - cbn [abandoned set_parked next]. destruct (abandoned i) eqn:Ea; [split_and!; [done | auto | intros E'; by rewrite E' in E] |].
    destruct (next i) as [| r rs]; [by destruct E |]. by exists r, rs.
Qed.

Lemma queue_step_sound w w' : (forall e, too_far w e -> far e) -> sound w -> step w w' -> sound w'.
Proof.
  intros Hfar Hs Hst. pose proof Hs as [H1 H2 H3 H4 H5 H6 H7 H8 H9].
  destruct Hst as [n b s Hp Hn Hr | n e Hp Hr | e i Hp Hc | e i Hp Hc | e i s Hp Hc | Hp | r n Hc Hf | l r l' n Hn Hf | t e i Hfo | t e Hfo | | | Hh | Hh Hw | | Hh].
  - destruct H1 as (ts & t & gs & g & Et & Eg & Hall & Hsrc). split; cbn [input packager hub got turned queued set_cur cur next parked]; try done.
    + exists ts, t, gs, (g ++ b). rewrite Eg, add_got_last. split_and!; [done | done | done |]. by eapply read_ok.
    + right. destruct H3 as [H3 | H3]; [by rewrite Hp in H3 | done].
    + intros Hk. destruct (H6 Hk) as (e & [E | E]); by rewrite Hp in E.
  - split; cbn [input packager hub got turned queued]; try done.
    + right. destruct H3 as [H3 | H3]; [by rewrite Hp in H3 | done].
    + by eapply end_ok.
    + intros Hk. exists e. by left.
  - pose proof (check_cases (input w) e) as Hcc. rewrite Hc in Hcc. destruct Hcc as (-> & Hn & Hh). split; cbn [input packager hub got turned queued cur next parked set_parked]; try done.
    + right. destruct H3 as [H3 | H3]; [by rewrite Hp in H3 | done].
    + by rewrite Hp in H4.
    + intros _. exists e. by right.
    + intros Hd. by apply wake_hub_not in Hd.
  - pose proof (check_cases (input w) e) as Hcc. rewrite Hc in Hcc. destruct Hcc as (r & rs & Hn & Ha & ->). rewrite Hp in H4.
    destruct H1 as (ts & t & gs & g & Et & Eg & Hall & Hsrc). rewrite Hn in H2, H3. apply Forall_cons in H2 as [Hr H2].
    split; cbn [input packager hub got turned queued cur next parked]; try done.
    + exists (turned w), (src r), (got w), []. split_and!; [done | done | | by split]. rewrite Et, Eg. apply Forall2_app; [done |]. constructor; [| constructor]. by eapply end_whole.
    + right. destruct H3 as [H3 | H3]; [by rewrite Hp in H3 |]. rewrite H3. cbn [map]. by rewrite <- app_assoc.
    + intros Hd. specialize (H7 Hd). unfold park_waits in *. cbn [parked done ended set_parked]. destruct (parked (input w)), (done (input w)), (ended (input w)); done.
  - pose proof (check_cases (input w) e) as Hcc. rewrite Hc in Hcc. destruct Hcc as (-> & _ & _). split; cbn [input packager hub got turned queued cur next parked set_parked]; try done.
    + right. destruct H3 as [H3 | H3]; [by rewrite Hp in H3 | done].
    + intros Hd. specialize (H7 Hd). unfold park_waits in *. cbn [parked done ended set_parked]. destruct (parked (input w)), (done (input w)), (ended (input w)); done.
  - split; cbn [input packager hub got turned queued cur next parked close]; try done; [by left | | ].
    + intros Hk. destruct (H6 Hk) as (e & [E | E]); destruct Hp as [[s Hp] | Hp]; by rewrite Hp in E.
    + intros Hd. by apply wake_hub_not in Hd.
  - destruct H1 as (ts & t & gs & g & Et & Eg & Hall & Hsrc). rewrite Hc in Hsrc. split; cbn [input packager hub got turned queued cur next parked set_cur]; try done.
    + exists ts, t, gs, g. destruct Hsrc as [He Hsrc]. split_and!; [done | done | done |]. split; [by rewrite fetch_src |]. apply fetch_ok; [done | | done]. intros Hbig. apply Hfar. exists r, n. split_and!; [by left | done | done | done].
    + destruct (packager w); try done; rewrite Hc in H4; destruct H4 as [_ H4]; destruct Hf as [Hf _]; congruence.
  - rewrite Hn in H2, H3. apply Forall_app in H2 as [H2a H2b]. apply Forall_cons in H2b as [Hr H2b].
    split; cbn [input packager hub got turned queued cur next parked set_next]; try done.
    + apply Forall_app. split; [done |]. constructor; [| done]. apply fetch_ok; [done | | done]. intros Hbig. apply Hfar. exists r, n. split_and!; [right; rewrite Hn; set_solver | done | done | done].
    + rewrite src_split. done.
    + intros e He. destruct (H5 e He) as [E _]. rewrite Hn in E. by destruct l.
  - unfold followAs in Hfo. destruct (done (input w) || ended (input w))%bool eqn:Ed; [done |]. injection Hfo as <-. apply orb_false_iff in Ed as [Ed1 Ed2].
    split; cbn [input packager hub got turned queued cur next parked]; try done.
    + apply Forall_app. split; [done |]. constructor; [done | constructor].
    + destruct H3 as [H3 | H3]; [by rewrite (H8 H3) in Ed1 |]. right. rewrite H3, map_app, app_assoc. done.
    + by destruct (packager w).
    + intros e' He. by apply wake_not_asleep in He.
    + intros Hk. by apply wake_parked, H6.
    + intros Hd. by apply wake_hub_not in Hd.
    + intros Hg. by apply H8, wake_gone.
  - done.
  - by apply told_sound.
  - by apply told_sound.
  - by split; cbn [input packager hub got turned queued].
  - by split; cbn [input packager hub got turned queued].
  - by apply told_sound.
  - by split; cbn [input packager hub got turned queued].
Qed.
End far.

Lemma ahead_mono (f f' : nat -> Prop) g r : (forall e, f e -> f' e) -> ahead_ok f g r -> ahead_ok f' g r.
Proof. intros Hf. unfold ahead_ok. destruct (aerr r) as [[] |]; [done | | done]. intros [H1 H2]. split; [done | by apply Hf]. Qed.
Lemma whole_mono (f f' : nat -> Prop) e b : (forall e, f e -> f' e) -> whole f e b -> whole f' e b.
Proof. intros Hf [H | [H1 H2]]; [by left | right]. split; [done | by apply Hf]. Qed.
Lemma sound_mono (f f' : nat -> Prop) w : (forall e, f e -> f' e) -> sound f w -> sound f' w.
Proof.
  intros Hf [H1 H2 H3 H4 H5 H6 H7 H8 H9]. split; try done.
  - destruct H1 as (ts & t & gs & g & Et & Eg & Hall & Hsrc). exists ts, t, gs, g. split_and!; [done | done | |].
    + eapply Forall2_impl; [exact Hall |]. intros x y. by apply whole_mono.
    + destruct (cur (input w)) as [e l | r]; [done |]. destruct Hsrc as [? Hsrc]. split; [done | by eapply ahead_mono].
  - eapply Forall_impl; [exact H2 |]. intros r. by apply ahead_mono.
Qed.

(** An encode went too far ahead at some time before [w]. *)
Definition went_too_far (hold_ : bool) (w : world) (e : nat) : Prop := exists w0, reach hold_ w0 /\ rtc step w0 w /\ too_far w0 e.
Lemma queue_reach_sound hold_ w : reach hold_ w -> sound (went_too_far hold_ w) w.
Proof.
  induction 1 as [| w w' Hw IH Hs]; [apply queue_start_sound |].
  apply (queue_step_sound _ w); [| | done].
  - intros e He. exists w. split_and!; [done | by apply rtc_once | done].
  - eapply sound_mono; [| exact IH]. intros e (w0 & H1 & H2 & H3). exists w0. split_and!; [done | by eapply rtc_r | done].
Qed.

(** C11. However the packager, the hub and the encodes interleave, the packager reads the encodes
    in the order they were queued, one after another: of each it has left it has
    read all of the output, in its order, or, if at some time that encode had run so
    far ahead that more than 64 MiB of it would have had to be held, a beginning; of
    the one it reads, a beginning; the rest are still queued in their order, until it
    is gone. *)
Theorem queue_in_order hold_ w : reach hold_ w ->
  exists ts t gs g, turned w = ts ++ [t] /\ got w = gs ++ [g] /\ Forall2 (whole (went_too_far hold_ w)) ts gs /\ g `prefix_of` out t /\
    (packager w = Gone \/ queued w = ts ++ t :: map src (next (input w))).
Proof.
  intros Hw. destruct (queue_reach_sound hold_ w Hw) as [H1 _ H3 _ _ _ _ _ _]. destruct H1 as (ts & t & gs & g & Et & Eg & Hall & Hsrc).
  exists ts, t, gs, g. split_and!; [done | done | done | |].
  - destruct (cur (input w)) as [e l | r]; cbn [source_ok] in Hsrc; destruct Hsrc as [He Hsrc]; [exists l; by rewrite Hsrc |]. rewrite <- He.
    unfold ahead_ok in Hsrc. destruct (aerr r) as [[] |].
    + exists (buf r). by rewrite Hsrc.
    + destruct Hsrc as [[z Hz] _]. exists (buf r ++ z). by rewrite Hz, <- app_assoc.
    + exists (buf r ++ left r). by rewrite Hsrc.
  - destruct H3 as [H3 | H3]; [by left | right]. by rewrite H3, Et, <- app_assoc.
Qed.

(** C12. No wake-up is lost. A packager asleep at the end of an encode is one that holds, with
    nothing queued, neither ended nor done, and says it is parked; it goes on to
    the next encode as soon as one is queued, ends with the encode's own error
    when it is told to end, and without writing on when it is abandoned. A hub
    asleep in [waitParked] has nothing to report yet. *)
Theorem sleepers_are_woken hold_ w : reach hold_ w ->
  (hub w = Dozing -> park_waits (input w) = true) /\
  forall e, packager w = Asleep e ->
    next (input w) = [] /\ holding (input w) = true /\ parked (input w) = true /\
    (forall e' t, exists i, followAs (input w) e' (out e') t = (i, true) /\
      exists w', rtc step (mkWorld i (wake (packager w)) (wake_hub (hub w)) (got w) (turned w) (queued w ++ [e'])) w' /\
        packager w' = Reading /\ turned w' = turned w ++ [e'] /\ got w' = got w ++ [[]]) /\
    (exists w', rtc step (told w (abandon (input w))) w' /\ packager w' = Stopping Abandoned) /\
    (exists w', rtc step (told w (end_ (input w))) w' /\ packager w' = Stopping (Ended e)).
Proof.
  intros Hw. pose proof (queue_reach_sound hold_ w Hw) as Hs. split; [apply (s_hub _ _ Hs) |]. intros e He. destruct (s_asleep _ _ Hs e He) as (Hn & Hh & Hp).
  unfold holding in Hh. rewrite !andb_true_iff, !negb_true_iff in Hh. destruct Hh as [[Hh1 Hh2] Hh3].
  assert (abandoned (input w) = false) as Ha by (by apply (s_alive _ _ Hs)).
  split_and!; [done | unfold holding; by rewrite Hh1, Hh2, Hh3 | done | | |].
  - intros e' t. set (r := mkAhead e' (out e') [] None t t).
    set (i1 := mkInput (cur (input w)) [r] (done (input w)) (hold (input w)) (ended (input w)) (parked (input w)) (abandoned (input w)) (taking (input w))).
    assert (followAs (input w) e' (out e') t = (i1, true)) as Hf by (assert ((done (input w) || ended (input w))%bool = false) as Hd by (by rewrite Hh2, Hh3); unfold followAs; by rewrite Hd, Hn).
    exists i1. split; [done |].
    eexists. split; [apply rtc_once; eapply (step_next _ _ e); cbn [input packager]; [by rewrite He |] |].
    + unfold check, i1. cbn. by rewrite Ha.
    + cbn [packager turned got]. split_and!; done.
  - eexists. split; [apply rtc_once; eapply (step_stop _ _ e); cbn [input packager told abandon]; [by rewrite He |] |].
    + unfold check. cbn. by rewrite Hn, Hh1.
    + done.
  - eexists. split; [apply rtc_once; eapply (step_stop _ _ e); cbn [input packager told end_]; [by rewrite He |] |].
    + unfold check. cbn. by rewrite Hn, Hh1, Ha.
    + done.
Qed.
End proofs.

(** Two encodes: the packager reads the first to its end, sleeps there, and goes on to
    the second, queued meanwhile. *)
Definition sample_out (e : nat) : bytes := match e with 0%nat => [1; 2] | _ => [3] end.
Definition sample_asleep : world :=
  mkWorld (mkInput (Pipe 0 []) [] false true false true false false) (Asleep EOF) Away [[1; 2]] [0%nat] [0%nat].
Definition sample_next : world :=
  mkWorld (mkInput (Ahead (mkAhead 1 [] [3] None false false)) [] false true false false false false) Reading Away [[1; 2]; []] [0%nat; 1%nat] [0%nat; 1%nat].
Lemma sample_asleep_reach : reach sample_out true sample_asleep.
Proof.
  pose proof (reach_start sample_out true) as H.
  assert (0 < 5)%nat as H5 by lia.
  pose proof (reach_step _ _ _ _ H (step_read sample_out (start sample_out true) 5 [1; 2] (Pipe 0 []) eq_refl H5 eq_refl)) as H1.
  pose proof (reach_step _ _ _ _ H1 ltac:(by eapply (step_end _ _ 5 EOF))) as H2.
  exact (reach_step _ _ _ _ H2 ltac:(by eapply (step_sleep _ _ EOF))).
Qed.
Lemma sample_next_reach : reach sample_out true sample_next.
Proof.
  pose proof (reach_step _ _ _ _ sample_asleep_reach (step_follow sample_out sample_asleep false 1 _ eq_refl)) as H1.
  pose proof (reach_step _ _ _ _ H1 ltac:(by eapply (step_next _ _ EOF))) as H2.
  assert (fetches (mkAhead 1 [3] [] None false false) 1) as Hf by (split; [done | right; split; [cbn; lia | done]]).
  exact (reach_step _ _ _ _ H2 ltac:(by eapply (step_fetch_cur _ _ (mkAhead 1 [3] [] None false false) 1))).
Qed.

Lemma queue_in_order_witness : reach sample_out true sample_next /\
  exists ts t gs g, turned sample_next = ts ++ [t] /\ got sample_next = gs ++ [g] /\ Forall2 (whole sample_out (went_too_far sample_out true sample_next)) ts gs /\ g `prefix_of` sample_out t /\
    (packager sample_next = Gone \/ queued sample_next = ts ++ t :: map src (next (input sample_next))).
Proof. split; [apply sample_next_reach |]. apply (queue_in_order sample_out true). apply sample_next_reach. Defined.

Lemma sleepers_are_woken_witness : reach sample_out true sample_asleep /\
  next (input sample_asleep) = [] /\ holding (input sample_asleep) = true /\ parked (input sample_asleep) = true.
Proof.
  split; [apply sample_asleep_reach |].
  destruct (sleepers_are_woken sample_out true sample_asleep sample_asleep_reach) as [_ H]. destruct (H EOF eq_refl) as (H1 & H2 & H3 & _). by split_and!.
Defined.

(** * Places *)

Lemma noted_snoc l n : noted_all (l ++ [n]) = noted (noted_all l) n.
Proof. unfold noted_all. by rewrite foldl_app. Qed.

Lemma started_count l : 0 <= encodes (noted_all l) /\ (encodes (noted_all l) = 0 -> forall takes ticks ok, Started takes ticks ok ∉ l).
Proof.
  induction l as [| n l [IH1 IH2]] using rev_ind; [split; [done |]; intros _ takes ticks ok H; by apply not_elem_of_nil in H |].
  rewrite noted_snoc. destruct n as [takes ticks ok | s n]; cbn [noted noteEncodeStart noteFirstSegment encodes].
  - split; [lia |]. intros H. lia.
  - split; [done |]. intros H takes ticks ok Hin. apply elem_of_app in Hin as [Hin | Hin]; [by eapply (IH2 H) |]. by apply list_elem_of_singleton in Hin.
Qed.

(** When [broadcastOffset] says it knows, its answer is right for all the playlist: every
    encode that ever fed it had said where it starts, and each at that same offset. *)
Theorem offset_fits_all l takes ticks ok :
  snd (broadcastOffset (noted_all l)) = true -> Started takes ticks ok ∈ l ->
  ok = true /\ Z.rem ticks ptsWrap = fst (broadcastOffset (noted_all l)).
Proof.
  cbn [broadcastOffset fst snd]. induction l as [| n l IH] using rev_ind; [by intros _ H%not_elem_of_nil |].
  rewrite noted_snoc. destruct (started_count l) as [Hc1 Hc2]. destruct n as [takes' ticks' ok' | s n]; cbn [noted noteEncodeStart noteFirstSegment known poffset]; intros Hk Hin; apply elem_of_app in Hin as [Hin | Hin].
  - apply andb_true_iff in Hk as [_ Hk]. apply orb_true_iff in Hk as [Hk | Hk]; [exfalso; eapply Hc2; [lia | done] |].
    rewrite !andb_true_iff in Hk. destruct Hk as [[[[_ Hk] _] _] Ho]. apply Z.eqb_eq in Ho. rewrite Ho. by apply IH.
  - apply list_elem_of_singleton in Hin. injection Hin as <- <- <-. by apply andb_true_iff in Hk as [-> _].
  - by apply IH.
  - by apply list_elem_of_singleton in Hin.
Qed.

Lemma last_at_app l r s : last_at (l ++ r) s = match last_at r s with Some x => Some x | None => last_at l s end.
Proof. induction l as [| x l IH]; cbn [last_at app]; [by destruct (last_at r s) |]. rewrite IH. by destruct (last_at r s). Qed.
Lemma last_at_none l s : Forall (fun x => s < seq x) l -> last_at l s = None.
Proof. induction 1 as [| x l Hx _ IH]; [done |]. cbn [last_at]. rewrite IH. by destruct (Z.leb_spec (seq x) s); [lia |]. Qed.

(** The segments later encodes open: what is left of the notes after one *)
Definition firsts (l : list note) : list Z := omap (fun n => match n with First s _ => Some s | _ => None end) l.
(** What [noteFirstSegment] keeps of an encode, while fewer than [spanKeep] come after it *)
Lemma span_kept l p : zlen (firsts l) < spanKeep -> forall pre x post, spans p = pre ++ x :: post -> zlen post + zlen (firsts l) < spanKeep ->
  exists pre' post', spans (foldl noted p l) = pre' ++ x :: post ++ post' /\ map seq post' = firsts l.
Proof.
  revert p. induction l as [| n l IH]; intros p Hl pre x post Hp Hn; cbn [foldl]; [exists pre, []; split; [by rewrite app_nil_r | done] |].
  destruct n as [takes ticks ok | s n]; cbn [noted firsts omap list_omap] in *; [by apply (IH _ Hl pre x post) |].
  unfold zlen in *. cbn [length] in *.
  set (y := mkSpan s (poffset p) (if startOK p then n else -1)).
  assert (exists pre', spans (noteFirstSegment p s n) = pre' ++ x :: post ++ [y]) as [pre' Hpre].
  { cbn [noteFirstSegment spans]. fold y. rewrite Hp. unfold zlen. case_match; [| exists pre; by rewrite <- app_assoc].
    rewrite <- app_assoc. cbn [app]. rewrite drop_app_le; [by eexists |].
    rewrite length_app. cbn [length]. rewrite length_app. cbn [length]. unfold spanKeep in *. change (omap _ l) with (firsts l) in *. lia. }
  change (omap _ l) with (firsts l) in *.
  destruct (IH (noteFirstSegment p s n) ltac:(lia) pre' x (post ++ [y]) Hpre) as (a & b & Ha & Hb); [rewrite length_app; cbn; lia |].
  exists a, (y :: b). split; [rewrite Ha; by rewrite <- app_assoc |]. cbn [map]. by rewrite Hb.
Qed.

(** [encodeAt] finds the encode that wrote a segment, by its offset and the captions'
    timeline when it opened: the last one that opened at the segment or before it,
    as long as fewer than 1024 have opened since; and it says no where that
    encode's header did not tell its start. *)
Theorem encode_found l s n l' at_seq :
  0 <= n -> s <= at_seq -> Forall (fun s' => at_seq < s') (firsts l') -> zlen (firsts l') < spanKeep ->
  let p := noted_all l in
  encodeAt (noted_all (l ++ First s n :: l')) at_seq =
    (mkSpan s (poffset p) (if startOK p then n else -1), startOK p).
Proof.
  intros Hn Hs Hf Hk p. unfold noted_all. rewrite foldl_app. cbn [foldl]. change (foldl noted no_places l) with p.
  assert (exists pre, spans (noted p (First s n)) = pre ++ [mkSpan s (poffset p) (if startOK p then n else -1)]) as [pre Hpre].
  { cbn [noted noteFirstSegment spans]. case_match; [| by eexists]. rewrite drop_app_le; [by eexists |].
    unfold zlen, spanKeep in *. rewrite length_app in *. cbn [length] in *. lia. }
  destruct (span_kept l' (noted p (First s n)) Hk pre _ [] Hpre) as (a & b & Ha & Hb); [unfold zlen in *; cbn; lia |].
  unfold encodeAt. rewrite Ha, last_at_app. cbn [app last_at].
  rewrite last_at_none.
  - cbn [seq]. destruct (Z.leb_spec s at_seq); [| lia]. cbn [line]. destruct (startOK p); [| done]. by destruct (Z.leb_spec 0 n); [| lia].
  - rewrite <- Hb in Hf. by apply (Forall_fmap seq) in Hf.
Qed.

Lemma encode_found_witness : let p := noted_all [Started false 900 true; First 0 4] in
  encodeAt (noted_all [Started false 900 true; First 0 4; Started false 500 true; First 7 5; First 9 6]) 8 = (mkSpan 7 500 5, true) /\ snd (broadcastOffset p) = true.
Proof.
  split; [| done].
  apply (encode_found [Started false 900 true; First 0 4; Started false 500 true] 7 5 [First 9 6] 8); [lia | lia | repeat constructor; lia | done].
Defined.
Lemma offset_fits_all_witness : let l := [Started false 900 true; First 0 4; Started true (900 + ptsWrap) true] in
  snd (broadcastOffset (noted_all l)) = true /\ Z.rem 900 ptsWrap = fst (broadcastOffset (noted_all l)).
Proof. split; [done |]. apply (offset_fits_all [Started false 900 true; First 0 4; Started true (900 + ptsWrap) true] false 900 true); [done | left]. Defined.
