(* ===== verification/GoRegexp.v ===== *)
(** What the program uses of Go's [regexp]: expressions of characters, sequences,
    alternatives, repetitions, groups and tests of a place, matched leftmost
    first, as a search that goes through the alternatives in the order they are
    written and takes what a repetition can get first.

    Text is a list of code points. [run_exact] ties the search to what an expression
    means, [find_exact] and [find_none] a search in a text. *)
From S2P Require Import Prelude GoText.
Local Open Scope Z_scope.
Local Open Scope go_scope.

Notation text := (list Z) (only parsing).

(** [One] is a character of a set, [Opt] is [?], [Star] is [*], [Cap] a group by its number, [At] a
    test of the characters before and after a place ([^], [$], [\b]). *)
Inductive re :=
  | Emp
  | One (p : Z -> bool)
  | Cat (a b : re)
  | Or (a b : re)
  | Opt (a : re)
  | Star (a : re)
  | Cap (k : nat) (a : re)
  | At (t : option Z -> option Z -> bool).

(** Where a search is: the character before it, the text behind, and the groups so far,
    the last one first *)
Record place := mkPlace { prev : option Z; rest : text; caps : list (nat * text) }.

Fixpoint run (r : re) (s : place) : list place :=
  match r with
  | Emp => [s]
  | One p => match rest s with c :: l => if p c then [mkPlace (Some c) l (caps s)] else [] | [] => [] end
  | Cat a b => concat (map (run b) (run a s))
  | Or a b => run a s ++ run b s
  | Opt a => run a s ++ [s]
  | Star a =>
      (fix star (n : nat) (s : place) : list place :=
         match n with
         | O => [s]
         | S n => concat (map (fun s' => if (length (rest s') <? length (rest s))%nat then star n s' else []) (run a s)) ++ [s]
         end) (length (rest s)) s
  | Cap k a => map (fun s' => mkPlace (prev s') (rest s') ((k, take (length (rest s) - length (rest s')) (rest s)) :: caps s')) (run a s)
  | At t => if t (prev s) (head (rest s)) then [s] else []
  end.
(** [run] of a [Star], with the passes it has left *)
Fixpoint star_run (a : re) (n : nat) (s : place) : list place :=
  match n with
  | O => [s]
  | S n => concat (map (fun s' => if (length (rest s') <? length (rest s))%nat then star_run a n s' else []) (run a s)) ++ [s]
  end.

(** The first place of a text where the expression matches, and how it first does there *)
Fixpoint find_from (r : re) (before : option Z) (l : text) : option place :=
  match run r (mkPlace before l []) with
  | s :: _ => Some s
  | [] => match l with [] => None | c :: l' => find_from r (Some c) l' end
  end.
(** [MatchString], and [FindStringSubmatch]'s group, empty when it took no part *)
Definition MatchString (r : re) (l : text) : bool := match find_from r None l with Some _ => true | None => false end.
Definition FindStringSubmatch (r : re) (l : text) : option (nat -> text) :=
  match find_from r None l with
  | Some s => Some (fun k => match List.find (fun g => (fst g =? k)%nat) (caps s) with Some g => snd g | None => [] end)
  | None => None
  end.

(** ** Notation of the source's expressions *)

Definition word_char (c : Z) : bool := (is_upper c || is_lower c || is_digit c || (c =? 95))%bool.
Definition is_word_at (o : option Z) : bool := match o with Some c => word_char c | None => false end.
Definition Bow : re := At (fun p _ => match p with None => true | Some _ => false end).
Definition Eow : re := At (fun _ n => match n with None => true | Some _ => false end).
Definition WordB : re := At (fun p n => xorb (is_word_at p) (is_word_at n)).
(** [\s] and [\d], which are ASCII *)
Definition is_blank (c : Z) : bool := ((c =? 32) || (9 <=? c) && (c <=? 10) || (12 <=? c) && (c <=? 13))%bool.
Definition Blank : re := One is_blank.
Definition Digit : re := One is_digit.
Definition Char (c : Z) : re := One (Z.eqb c).
Definition Plus (a : re) : re := Cat a (Star a).
Fixpoint Lit (s : text) : re := match s with [] => Emp | c :: s => Cat (Char c) (Lit s) end.
(** [(?i)] of a literal of small letters and digits: Go folds [k] and [s] with two letters more. *)
Definition fold_char (c d : Z) : bool :=
  ((c =? d) || is_lower c && (d =? c - 32) || (c =? 107) && (d =? 0x212A) || (c =? 115) && (d =? 0x17F))%bool.
Fixpoint LitI (s : text) : re := match s with [] => Emp | c :: s => Cat (One (fold_char c)) (LitI s) end.
Fixpoint Any (l : list re) : re := match l with [] => At (fun _ _ => false) | [a] => a | a :: l => Or a (Any l) end.

(** ** What an expression means *)

Definition last_of (before : option Z) (w : text) : option Z := match reverse w with c :: _ => Some c | [] => before end.
(** [sem r before w after c]: the expression is [w], between what is [before] and [after] it,
    its groups [c], the last one first. *)
Inductive sem : re -> option Z -> text -> text -> list (nat * text) -> Prop :=
  | sem_emp before after : sem Emp before [] after []
  | sem_one (p : Z -> bool) c before after : p c = true -> sem (One p) before [c] after []
  | sem_cat a b u v before after c d : sem a before u (v ++ after) c -> sem b (last_of before u) v after d -> sem (Cat a b) before (u ++ v) after (d ++ c)
  | sem_or_l a b w before after c : sem a before w after c -> sem (Or a b) before w after c
  | sem_or_r a b w before after c : sem b before w after c -> sem (Or a b) before w after c
  | sem_opt a w before after c : sem a before w after c -> sem (Opt a) before w after c
  | sem_skip a before after : sem (Opt a) before [] after []
  | sem_star a u v before after c d : u <> [] -> sem a before u (v ++ after) c -> sem (Star a) (last_of before u) v after d -> sem (Star a) before (u ++ v) after (d ++ c)
  | sem_stop a before after : sem (Star a) before [] after []
  | sem_cap k a w before after c : sem a before w after c -> sem (Cap k a) before w after ((k, w) :: c)
  | sem_at (t : option Z -> option Z -> bool) before after : t before (head after) = true -> sem (At t) before [] after [].

(** * Proofs *)

Lemma last_of_app before u v : last_of before (u ++ v) = last_of (last_of before u) v.
Proof. unfold last_of. rewrite reverse_app. destruct (reverse v); [by rewrite app_nil_l | done]. Qed.
Lemma last_of_cons before c w : last_of before (c :: w) = last_of (Some c) w.
Proof. apply (last_of_app before [c] w). Qed.

Lemma run_star a s : run (Star a) s = star_run a (length (rest s)) s.
Proof.
  cbn [run]. generalize (length (rest s)) as n. intros n. revert s. induction n as [| n IH]; intros s; [done |]. cbn [star_run].
  f_equal. f_equal. apply map_ext. intros s'. destruct (_ <? _)%nat; [apply IH | done].
Qed.

(** A place a search reaches: a match lies between *)
Definition reached (P : option Z -> text -> text -> list (nat * text) -> Prop) (s s' : place) : Prop :=
  exists w c, rest s = w ++ rest s' /\ prev s' = last_of (prev s) w /\ caps s' = c ++ caps s /\ P (prev s) w (rest s') c.

Lemma star_sound a : (forall s s', s' ∈ run a s -> reached (sem a) s s') -> forall n s s', s' ∈ star_run a n s -> reached (sem (Star a)) s s'.
Proof.
  intros Ha n. induction n as [| n IH]; intros s s' Hs; cbn [star_run] in Hs.
  - apply list_elem_of_singleton in Hs as ->. exists [], []. split_and!; [done | done | done | constructor].
  - apply elem_of_app in Hs as [Hs | Hs]; [| apply list_elem_of_singleton in Hs as ->; exists [], []; split_and!; [done | done | done | constructor]].
    apply list_elem_of_In, in_concat in Hs as (l & Hl & Hs). apply in_map_iff in Hl as (m & <- & Hm).
    destruct (Nat.ltb_spec (length (rest m)) (length (rest s))) as [Hlt | _]; [| done].
    destruct (Ha s m) as (u & c & Hu & Hp & Hc & Hsu); [by apply list_elem_of_In |]. destruct (IH m s') as (v & d & Hv & Hq & Hd & Hsv); [by apply list_elem_of_In |].
    exists (u ++ v), (d ++ c). split_and!; [by rewrite Hu, Hv, app_assoc | by rewrite Hq, Hp, last_of_app | by rewrite Hd, Hc, app_assoc |].
    apply sem_star; [| by rewrite <- Hv | by rewrite <- Hp]. intros ->. rewrite Hu in Hlt. cbn in Hlt. lia.
Qed.

Lemma regexp_sound r : forall s s', s' ∈ run r s -> reached (sem r) s s'.
Proof.
  induction r as [| p | a IHa b IHb | a IHa b IHb | a IHa | a IHa | k a IHa | t]; intros s s' Hs.
  - apply list_elem_of_singleton in Hs as ->. exists [], []. split_and!; [done | done | done | constructor].
  - cbn [run] in Hs. destruct (rest s) as [| c l] eqn:E; [by apply not_elem_of_nil in Hs |]. destruct (p c) eqn:Ep; [| by apply not_elem_of_nil in Hs].
    apply list_elem_of_singleton in Hs as ->. exists [c], []. split_and!; [by rewrite E | done | done | by constructor].
  - cbn [run] in Hs. apply list_elem_of_In, in_concat in Hs as (l & Hl & Hs). apply in_map_iff in Hl as (m & <- & Hm).
    destruct (IHa s m) as (u & c & Hu & Hp & Hc & Hsu); [by apply list_elem_of_In |]. destruct (IHb m s') as (v & d & Hv & Hq & Hd & Hsv); [by apply list_elem_of_In |].
    exists (u ++ v), (d ++ c). split_and!; [by rewrite Hu, Hv, app_assoc | by rewrite Hq, Hp, last_of_app | by rewrite Hd, Hc, app_assoc |]. apply sem_cat; [by rewrite <- Hv | by rewrite <- Hp].
  - cbn [run] in Hs. apply elem_of_app in Hs as [Hs | Hs]; [destruct (IHa _ _ Hs) as (w & c & H1 & H2 & H3 & H4) | destruct (IHb _ _ Hs) as (w & c & H1 & H2 & H3 & H4)];
      (exists w, c; split_and!; [done | done | done |]); [by apply sem_or_l | by apply sem_or_r].
  - cbn [run] in Hs. apply elem_of_app in Hs as [Hs | Hs]; [destruct (IHa _ _ Hs) as (w & c & H1 & H2 & H3 & H4); exists w, c; split_and!; [done | done | done | by apply sem_opt] |].
    apply list_elem_of_singleton in Hs as ->. exists [], []. split_and!; [done | done | done | apply sem_skip].
  - rewrite run_star in Hs. by eapply star_sound.
  - cbn [run] in Hs. apply list_elem_of_In, in_map_iff in Hs as (m & <- & Hm). destruct (IHa s m) as (w & c & H1 & H2 & H3 & H4); [by apply list_elem_of_In |].
    exists w, ((k, w) :: c). split_and!; [done | done | | by apply sem_cap]. cbn [caps]. rewrite H3, H1, length_app. replace (length w + length (rest m) - length (rest m))%nat with (length w) by lia. by rewrite take_app_length.
  - cbn [run] in Hs. destruct (t (prev s) (head (rest s))) eqn:E; [| by apply not_elem_of_nil in Hs]. apply list_elem_of_singleton in Hs as ->.
    exists [], []. split_and!; [done | done | done | by apply sem_at].
Qed.

Lemma concat_nils {A B} (f : A -> list B) l : (forall x, f x = []) -> concat (map f l) = [].
Proof. intros Hf. induction l as [| x l IH]; [done |]. cbn [map concat]. by rewrite Hf, IH. Qed.
Lemma star_fuel a n : forall m s, (length (rest s) <= n)%nat -> (length (rest s) <= m)%nat -> star_run a n s = star_run a m s.
Proof.
  induction n as [| n IH]; intros m s Hn Hm.
  - destruct m as [| m]; [done |]. cbn [star_run]. rewrite concat_nils; [done |]. intros s'. by destruct (Nat.ltb_spec (length (rest s')) (length (rest s))); [lia |].
  - destruct m as [| m]; cbn [star_run].
    + rewrite concat_nils; [done |]. intros s'. by destruct (Nat.ltb_spec (length (rest s')) (length (rest s))); [lia |].
    + f_equal. f_equal. apply map_ext. intros s'. destruct (Nat.ltb_spec (length (rest s')) (length (rest s))); [apply IH; lia | done].
Qed.

Lemma run_complete r before w after c : sem r before w after c ->
  forall s, prev s = before -> rest s = w ++ after -> exists s', s' ∈ run r s /\ rest s' = after /\ prev s' = last_of before w.
Proof.
  induction 1 as [b f | p c b f Hp | a b u v be f c d Ha IHa Hb IHb | a b w be f c Ha IHa | a b w be f c Ha IHa | a w be f c Ha IHa | a be f | a u v be f c d Hu Ha IHa Hs IHs | a be f | k a w be f c Ha IHa | t be f Ht];
    intros s Hbe Hr.
  - exists s. split_and!; [by left | done | done].
  - exists (mkPlace (Some c) f (caps s)). cbn [run]. rewrite Hr. cbn [app]. rewrite Hp. split_and!; [by left | done | done].
  - destruct (IHa s Hbe) as (m & Hm & Hmr & Hmp); [by rewrite Hr, app_assoc |]. destruct (IHb m Hmp Hmr) as (s' & Hs' & H1 & H2).
    exists s'. split_and!; [| done | by rewrite H2, last_of_app]. cbn [run]. apply list_elem_of_In, in_concat. exists (run b m). split; [by apply in_map, list_elem_of_In | by apply list_elem_of_In].
  - destruct (IHa s Hbe Hr) as (s' & Hs' & H1 & H2). exists s'. split_and!; [| done | done]. cbn [run]. apply elem_of_app. by left.
  - destruct (IHa s Hbe Hr) as (s' & Hs' & H1 & H2). exists s'. split_and!; [| done | done]. cbn [run]. apply elem_of_app. by right.
  - destruct (IHa s Hbe Hr) as (s' & Hs' & H1 & H2). exists s'. split_and!; [| done | done]. cbn [run]. apply elem_of_app. by left.
  - exists s. split_and!; [| done | done]. cbn [run]. apply elem_of_app. right. by left.
  - destruct (IHa s Hbe) as (m & Hm & Hmr & Hmp); [by rewrite Hr, app_assoc |]. destruct (IHs m Hmp Hmr) as (s' & Hs' & H1 & H2).
    exists s'. split_and!; [| done | by rewrite H2, last_of_app]. rewrite run_star in Hs' |- *.
    assert (length (rest m) < length (rest s))%nat as Hlt by (rewrite Hmr, Hr, !length_app; destruct u; [done | cbn; lia]).
    destruct (length (rest s)) as [| n] eqn:En; [lia |]. cbn [star_run]. apply elem_of_app. left. apply list_elem_of_In, in_concat. exists (star_run a n m). split.
    + apply in_map_iff. exists m. split; [| by apply list_elem_of_In]. rewrite En. by destruct (Nat.ltb_spec (length (rest m)) (S n)); [| lia].
    + apply list_elem_of_In. rewrite (star_fuel a n (length (rest m))); [done | lia | lia].
  - exists s. split_and!; [| done | done]. rewrite run_star. destruct (length (rest s)); cbn [star_run]; [by left |]. apply elem_of_app. right. by left.
  - destruct (IHa s Hbe Hr) as (s' & Hs' & H1 & H2). eexists. split_and!; [cbn [run]; apply list_elem_of_In, in_map_iff; exists s'; split; [reflexivity | by apply list_elem_of_In] | done | done].
  - exists s. cbn [run]. rewrite Hbe, Hr. cbn [app]. rewrite Ht. split_and!; [by left | done | done].
Qed.

(** The search finds what the expression means, and no more. *)
Lemma run_exact r s w after : rest s = w ++ after ->
  (exists s', s' ∈ run r s /\ rest s' = after) <-> exists c, sem r (prev s) w after c.
Proof.
  intros Hr. split.
  - intros (s' & Hs' & Ha). destruct (regexp_sound r s s' Hs') as (u & c & Hu & _ & _ & Hsem). rewrite Hr, Ha in Hu. apply (inj (.++ after)) in Hu as ->. exists c. by rewrite Ha in Hsem.
  - intros [c Hsem]. destruct (run_complete r _ _ _ _ Hsem s eq_refl Hr) as (s' & H1 & H2 & _). by exists s'.
Qed.

(** A search in a text finds a match where there is one, the leftmost. *)
Lemma find_some r before l s : find_from r before l = Some s ->
  exists u w, l = u ++ w ++ rest s /\ sem r (last_of before u) w (rest s) (caps s) /\
    forall u' w' after c, l = u' ++ w' ++ after -> sem r (last_of before u') w' after c -> (length u <= length u')%nat.
Proof.
  revert before. induction l as [| c l IH]; intros before Hs; cbn [find_from] in Hs.
  - destruct (run r (mkPlace before [] [])) as [| s' q] eqn:Er; [done |]. injection Hs as ->.
    destruct (regexp_sound r (mkPlace before [] []) s) as (w & c0 & Hw & _ & Hc & Hsem); [rewrite Er; by left |]; cbn [caps] in Hc; rewrite app_nil_r in Hc; subst c0. exists [], w. split_and!; [done | done |]. intros. cbn. lia.
  - destruct (run r (mkPlace before (c :: l) [])) as [| s' q] eqn:Er.
    + destruct (IH _ Hs) as (u & w & Hl & Hsem & Hmin). exists (c :: u), w. split_and!; [by rewrite Hl | by rewrite last_of_cons |].
      intros [| c' u'] w' after d Hu' Hsem'.
      * exfalso. destruct (run_complete r _ _ _ _ Hsem' (mkPlace before (c :: l) []) eq_refl Hu') as (s' & Hin & _). rewrite Er in Hin. by apply not_elem_of_nil in Hin.
      * injection Hu' as <- Hu'. rewrite last_of_cons in Hsem'. cbn [length]. pose proof (Hmin _ _ _ _ Hu' Hsem'). lia.
    + injection Hs as ->. destruct (regexp_sound r (mkPlace before (c :: l) []) s) as (w & c0 & Hw & _ & Hc & Hsem); [rewrite Er; by left |]; cbn [caps] in Hc; rewrite app_nil_r in Hc; subst c0. exists [], w. split_and!; [done | done |]. intros. cbn. lia.
Qed.
Lemma find_none r before l : find_from r before l = None -> forall u w after d, l = u ++ w ++ after -> ~ sem r (last_of before u) w after d.
Proof.
  revert before. induction l as [| c l IH]; intros before Hs u w after d Hl Hsem; cbn [find_from] in Hs.
  - destruct u, w; try done. cbn in Hl. subst. destruct (run_complete r _ _ _ _ Hsem (mkPlace before [] []) eq_refl eq_refl) as (s' & Hin & _).
    cbn in Hin. destruct (run r (mkPlace before [] [])); [by apply not_elem_of_nil in Hin | done].
  - destruct (run r (mkPlace before (c :: l) [])) as [| s' q] eqn:Er; [| done]. destruct u as [| c' u].
    + destruct (run_complete r _ _ _ _ Hsem (mkPlace before (c :: l) []) eq_refl Hl) as (s' & Hin & _). rewrite Er in Hin. by apply not_elem_of_nil in Hin.
    + injection Hl as <- Hl. rewrite last_of_cons in Hsem. by eapply IH.
Qed.
(** [MatchString] is the presence of a match. *)
Lemma MatchString_exact r l : MatchString r l = true <-> exists u w after c, l = u ++ w ++ after /\ sem r (last_of None u) w after c.
Proof.
  unfold MatchString. destruct (find_from r None l) as [s |] eqn:E.
  - split; [intros _ | done]. destruct (find_some r None l s E) as (u & w & Hl & Hsem & _). by exists u, w, (rest s), (caps s).
  - split; [done |]. intros (u & w & after & c & Hl & Hsem). by destruct (find_none r None l E u w after c Hl Hsem).
Qed.

(** The groups a search gives are those of a match. *)
Definition group (c : list (nat * text)) (k : nat) : text := match List.find (fun g => (fst g =? k)%nat) c with Some g => snd g | None => [] end.
Lemma FindStringSubmatch_sound r l m : FindStringSubmatch r l = Some m ->
  exists u w after c, l = u ++ w ++ after /\ sem r (last_of None u) w after c /\ forall k, m k = group c k.
Proof.
  unfold FindStringSubmatch. destruct (find_from r None l) as [s |] eqn:E; [| done]. intros [= <-].
  destruct (find_some r None l s E) as (u & w & Hl & Hsem & _). by exists u, w, (rest s), (caps s).
Qed.
Lemma FindStringSubmatch_none r l : FindStringSubmatch r l = None -> forall u w after c, l = u ++ w ++ after -> ~ sem r (last_of None u) w after c.
Proof. unfold FindStringSubmatch. destruct (find_from r None l) as [s |] eqn:E; [done |]. intros _. by apply find_none. Qed.

(** The expressions' own meanings *)
Section meanings.
Context (before : option Z) (w after : text) (c : list (nat * text)).
Lemma sem_One p : sem (One p) before w after c <-> exists x, w = [x] /\ c = [] /\ p x = true.
Proof. split; [inversion 1; by eexists | intros (x & -> & -> & Hx); by constructor]. Qed.
Lemma sem_Cat a b : sem (Cat a b) before w after c <-> exists u v d e, w = u ++ v /\ c = e ++ d /\ sem a before u (v ++ after) d /\ sem b (last_of before u) v after e.
Proof. split; [inversion 1; by repeat eexists | intros (u & v & d & e & -> & -> & Ha & Hb); by constructor]. Qed.
Lemma sem_Or a b : sem (Or a b) before w after c <-> sem a before w after c \/ sem b before w after c.
Proof. split; [inversion 1; auto | intros [Ha | Hb]; [by apply sem_or_l | by apply sem_or_r]]. Qed.
Lemma sem_Opt a : sem (Opt a) before w after c <-> sem a before w after c \/ (w = [] /\ c = []).
Proof. split; [inversion 1; auto | intros [Ha | [-> ->]]; [by apply sem_opt | by apply sem_skip]]. Qed.
Lemma sem_Cap k a : sem (Cap k a) before w after c <-> exists d, c = (k, w) :: d /\ sem a before w after d.
Proof. split; [inversion 1; by eexists | intros (d & -> & Ha); by constructor]. Qed.
Lemma sem_At t : sem (At t) before w after c <-> w = [] /\ c = [] /\ t before (head after) = true.
Proof. split; [by inversion 1 | intros (-> & -> & Ht); by constructor]. Qed.
End meanings.
Lemma sem_Eow before w after c : sem Eow before w after c <-> w = [] /\ c = [] /\ after = [].
Proof. unfold Eow. rewrite sem_At. destruct after; naive_solver. Qed.
Lemma sem_Bow before w after c : sem Bow before w after c <-> w = [] /\ c = [] /\ before = None.
Proof. unfold Bow. rewrite sem_At. destruct before; naive_solver. Qed.
Lemma sem_Lit s before w after c : sem (Lit s) before w after c <-> w = s /\ c = [].
Proof.
  revert before w c. induction s as [| x s IH]; intros before w c; cbn [Lit].
  - split; [by inversion 1 | intros [-> ->]; constructor].
  - rewrite sem_Cat. split.
    + intros (u & v & d & e & -> & -> & Ha & Hb). apply sem_One in Ha as (y & -> & -> & Hy). apply Z.eqb_eq in Hy as ->. by apply IH in Hb as [-> ->].
    + intros [-> ->]. exists [x], s, [], []. split_and!; [done | done | | by apply IH]. apply sem_One. exists x. by rewrite Z.eqb_refl.
Qed.
Lemma sem_Any l before w after c : sem (Any l) before w after c <-> exists r, r ∈ l /\ sem r before w after c.
Proof.
  induction l as [| a [| b l] IH]; cbn [Any].
  - rewrite sem_At. split; [by intros (_ & _ & ?) | intros (r & H & _); by apply not_elem_of_nil in H].
  - split; [intros Hs; exists a; split; [by left | done] | intros (r & Hr & Hs); by apply list_elem_of_singleton in Hr as ->].
  - rewrite sem_Or, IH. split.
    + intros [Ha | (r & Hr & Hs)]; [exists a; split; [by left | done] | exists r; split; [by right | done]].
    + intros (r & Hr & Hs). apply elem_of_cons in Hr as [-> | Hr]; [by left | right; by exists r].
Qed.
Lemma sem_Any_lit l before w after c : sem (Any (map Lit l)) before w after c <-> w ∈ l /\ c = [].
Proof.
  rewrite sem_Any. split.
  - intros (r & Hr & Hs). apply list_elem_of_In, in_map_iff in Hr as (s & <- & Hs'). apply sem_Lit in Hs as [-> ->]. split; [by apply list_elem_of_In | done].
  - intros [Hw ->]. exists (Lit w). split; [apply list_elem_of_In; by apply in_map, list_elem_of_In | by apply sem_Lit].
Qed.
(** A repetition of one set *)
Lemma sem_Star_One p before w after c : sem (Star (One p)) before w after c <-> forallb p w = true /\ c = [].
Proof.
  split.
  - remember (Star (One p)) as r eqn:E. intros Hsem. revert E.
    induction Hsem as [| | | | | | | a u v be f c d Hu Ha IHa Hs IHs | | |]; intros E; try discriminate E; [| by split]. injection E as ->.
    apply sem_One in Ha as (x & -> & -> & Hx). destruct IHs as [Hv ->]; [done |]. cbn. by rewrite Hx, Hv.
  - intros [Hw ->]. revert before. induction w as [| x w IH]; intros before; [constructor |]. cbn in Hw. apply andb_true_iff in Hw as [Hx Hw].
    apply (sem_star _ [x] w _ _ [] []); [done | by constructor | by apply IH].
Qed.
