(* ===== verification/Network.v ===== *)
(** The broadcast network of a station, [server/internal/network]: from its guide
    names ([brandedNetwork]), else from its call sign ([NormCall], [callRule], the
    table of [calls.go]).

    Text is a list of code points; [blen] is its length in bytes. [unicode.ToUpper]
    past ASCII is an argument. *)
From S2P Require Import Prelude GoText GoRegexp Hdhr.
Local Open Scope Z_scope.
Local Open Scope go_scope.

Notation text := (list Z) (only parsing).

(** [len] of a text, in bytes of UTF-8 *)
Definition rune_len (c : Z) : Z := if c <? 0x80 then 1 else if c <? 0x800 then 2 else if c <? 0x10000 then 3 else 4.
Definition blen (s : text) : Z := fold_right (fun c n => rune_len c + n) 0 s.
(** [strings.TrimSuffix] *)
Definition TrimSuffix (s suf : text) : text := if has_suffix s suf then take (length s - length suf) s else s.

(** ** Tables *)

Record network := mkNetwork { name : text; country : text; aliases : list text }.
Definition net (n c : string) (l : list string) : network := mkNetwork (lit n) (lit c) (map lit l).
(** [UniMás] and [Télé-Québec] *)
Definition unimas : text := lit "UniM" ++ [225] ++ lit "s".
Definition tele_quebec : text := lit "T" ++ [233] ++ lit "l" ++ [233] ++ lit "-Qu" ++ [233] ++ lit "bec".
Definition networks : list network := [
  net "ABC" "US" ["ABC"; "AMERICAN BROADCASTING COMPANY"];
  net "CBS" "US" ["CBS"];
  net "FOX" "US" ["FOX"; "FOX BROADCASTING"; "FOX BROADCASTING COMPANY"];
  net "NBC" "US" ["NBC"; "NATIONAL BROADCASTING COMPANY"];
  net "PBS" "US" ["PBS"; "PUBLIC BROADCASTING SERVICE"];
  net "CW" "US" ["CW"; "THE CW"; "CWTV"; "THE CW NETWORK"];
  net "MyNetworkTV" "US" ["MYNETWORKTV"; "MY NETWORK TV"; "MYNET"; "MYNETTV"; "MNTV"; "MYTV"];
  net "ION" "US" ["ION"; "ION TV"; "IONTV"; "ION TELEVISION"];
  net "Univision" "US" ["UNIVISION"; "UNIVSN"; "UNIVISN"];
  net "Telemundo" "US" ["TELEMUNDO"; "TELEMUN"; "TELMUND"; "TLMD"];
  mkNetwork unimas (lit "US") [lit "UNIMAS"; lit "UNI MAS"];
  net "CBC" "CA" ["CBC"; "CBC TV"; "CBC TELEVISION"];
  net "Radio-Canada" "CA" ["RADIO-CANADA"; "RADIO CANADA"; "ICI RADIO-CANADA"; "ICI RADIO CANADA"; "ICI TELE"; "SRC"; "RADCAN"];
  net "CTV" "CA" ["CTV"];
  net "CTV 2" "CA" ["CTV 2"; "CTV2"; "CTV TWO"];
  net "Global" "CA" ["GLOBAL"; "GLOBAL TV"; "GLOBALTV"];
  net "Citytv" "CA" ["CITYTV"; "CITY TV"; "CITY"];
  net "TVO" "CA" ["TVO"; "TVONTARIO"];
  mkNetwork tele_quebec (lit "CA") [lit "TELE-QUEBEC"; lit "TELE QUEBEC"; lit "TELEQC"; lit "TELEQUE"; lit "TLQ"];
  net "TVA" "CA" ["TVA"];
  net "Noovo" "CA" ["NOOVO"] ]%string.
Definition Main (country : text) : list text :=
  map lit (if says country "CA" then ["CBC"; "CTV"; "Global"; "Citytv"; "Radio-Canada"; "TVA"; "Noovo"] else ["ABC"; "CBS"; "FOX"; "NBC"])%string.
Definition IsMain (name : text) : bool := existsb (fun c => existsb (bytes_equal name) (Main (lit c))) ["US"; "CA"]%string.

(** [byAlias] and [calls] as lists of pairs, the last of a key counting *)
Fixpoint lookup_last (l : list (text * text)) (k : text) : text :=
  match l with
  | [] => []
  | (k', v) :: l => match lookup_last l k with [] => if bytes_equal k' k then v else [] | v' => v' end
  end.
Definition alias_pairs : list (text * text) := concat (map (fun n => map (fun a => (a, name n)) (aliases n)) networks).
Definition byAlias : text -> text := lookup_last alias_pairs.

Section upper.
Context `{Unicode} (upper_rune : Z -> Z).

Definition put (net : string) (l : string) : list (text * text) := map (fun c => (c, lit net)) (Fields (lit l)).
Definition call_pairs : list (text * text) :=
  put "ABC" "WABC KABC WLS WPVI WFAA KGO WSB KTRK WJLA WCVB KNXV KOMO WFTS KSTP WPLG KMGH WFTV WEWS KXTV KDNL KATU WSOC WTAE WTVD WMAR WKRN KTVX KSAT KMBC WSYX WRTV WXYZ KVUE KGTV WTNH WISN WCPO WLOS KOCO KTNV WVEC KOAT KETV WOI WHAS KMIZ" ++
  put "CBS" "WCBS KCBS WBBM KYW KTVT KPIX WANF KHOU WUSA WBZ KPHO KIRO WTSP WCCO WFOR KCNC WKMG WOIO KOVR KMOV KOIN WBTV KDKA WNCN WJZ WTVF KUTV KENS KCTV WBNS WTTV WWJ KEYE KFMB WFSB WDJT WKRC WSPA KWTV KLAS WTKR KRQE KMTV KCCI WLKY" ++
  put "FOX" "WNYW KTTV WFLD WTXF KDFW KTVU WAGA KRIV WTTG WFXT KSAZ KCPQ WTVT KMSP WSVN KDVR WOFL WJW KTXL KTVI KPTV WJZY WPGH WRAZ WBFF WZTV KSTU KABB WDAF WXIN WJBK KTBC KSWB WTIC WITI WXIX WHNS KOKH KVVU WVBT KPTM KDSM" ++
  put "NBC" "WNBC KNBC WMAQ WCAU KXAS KNTV WXIA KPRC WRC WBTS KPNX KING WFLA KARE WTVJ KUSA WESH WKYC KCRA KSDK KGW WCNC WPXI WRAL WBAL WSMV KSL WOAI KSHB WCMH WTHR WDIV KXAN KNSD WVIT WTMJ WLWT WYFF KFOR KSNV WAVY KOB WOWT WHO".
Definition calls : text -> text := lookup_last call_pairs.

(** ** Names *)

Definition accents : list (Z * string) := [
  (233, "e"); (201, "E"); (232, "e"); (200, "E"); (234, "e"); (202, "E"); (225, "a"); (193, "A");
  (224, "a"); (192, "A"); (226, "a"); (194, "A"); (237, "i"); (205, "I"); (243, "o"); (211, "O");
  (244, "o"); (212, "O"); (250, "u"); (218, "U"); (231, "c"); (199, "C"); (241, "n"); (209, "N")]%string.
Definition foldAccents (s : text) : text :=
  concat (map (fun c => match List.find (fun a => fst a =? c) accents with Some a => lit (snd a) | None => [c] end) s).
Definition cleanName (name : text) : text :=
  let s := ToUpper upper_rune (TrimSpace (foldAccents name)) in
  let s := Join (Fields s) (lit " ") in
  fold_left (fun s suf => TrimSuffix s (lit suf)) [" 3.0"; "-3.0"; " HD"; "-HD"; " DT"; "-DT"]%string s.

(** Longer aliases first *)
Definition alts : list text := sort_by (fun a b => blen b <? blen a) (concat (map aliases networks)).
Definition alt : re := Any (map Lit alts).
Definition is_sep (c : Z) : bool := (is_blank c || (c =? 45))%bool.
Definition Sep : re := One is_sep.
Definition Upto2 (a : re) : re := Cat a (Opt a).
Definition branded : re := Cat Bow (Cat (Cap 1 alt) (Cat (Opt Sep) (Cat (Cap 2 (Upto2 Digit)) (Cat (Opt (Cap 3 (Cat (Char 46) (Upto2 Digit)))) Eow)))).
Definition Letter : re := One is_upper.
Definition trailing : re :=
  Cat Bow (Cat (One (fun c => existsb (Z.eqb c) (lit "CKWX"))) (Cat (Cat Letter (Cat Letter (Opt (Cat Letter (Opt Letter)))))
    (Cat (Opt (Cap 1 (Cat (Char 45) (Cap 2 (Any (map (fun s => Lit (lit s)) ["DT"; "TV"; "HD"; "LD"; "CD"]%string))))))
      (Cat (Plus Sep) (Cat (Cap 3 alt) Eow))))).
Definition paren : re := Cat (Char 40) (Cat (Cap 1 alt) (Cat (Char 41) Eow)).
Definition myNumber : re := Cat Bow (Cat (Lit (lit "MY")) (Cat (Opt Sep) (Cat (Upto2 Digit) Eow))).

Definition brandedNetwork (name : text) : text :=
  let s := cleanName name in
  if bytes_equal s [] then [] else
  if negb (bytes_equal (byAlias s) []) then byAlias s else
  match FindStringSubmatch branded s with
  | Some m =>
      if (negb (bytes_equal (byAlias (m 1%nat ++ m 2%nat)) []) && bytes_equal (m 3%nat) [])%bool then byAlias (m 1%nat ++ m 2%nat) else byAlias (m 1%nat)
  | None =>
      if MatchString myNumber s then lit "MyNetworkTV" else
      match FindStringSubmatch trailing s with
      | Some m => byAlias (m 3%nat)
      | None => match FindStringSubmatch paren s with Some m => byAlias (m 1%nat) | None => [] end
      end
  end.

(** ** Call signs *)

Definition NormCall (s : text) : text :=
  let s := without 32 (without 45 (ToUpper upper_rune (TrimSpace s))) in
  fold_left (fun s suf => if (has_suffix s (lit suf) && (3 <=? blen s - blen (lit suf)))%bool then TrimSuffix s (lit suf) else s)
    ["DT1"; "HD"; "DT"; "TV"; "LD"]%string s.
Definition callRule (call : text) : text :=
  if negb (has_prefix (lit "CB") call) then [] else
  if one_of ["CBFT"; "CBVT"; "CBST"] call then lit "Radio-Canada" else
  let third := match call !! 2%nat with Some c => is_upper c | None => false end in
  let fourth := match call !! 3%nat with Some c => c =? 84 | None => false end in
  if ((blen call =? 4) && fourth && third)%bool then lit "CBC"
  else if ((blen call =? 5) && has_suffix call (lit "FT") && third)%bool then lit "Radio-Canada" else [].

Fixpoint branded_loop (names : list text) : text :=
  match names with [] => [] | n :: l => match brandedNetwork n with [] => branded_loop l | net => net end end.
(** [seen] only saves work: the table is asked again and gives the same. *)
Fixpoint call_loop (names : list text) (seen : list text) : text :=
  match names with
  | [] => []
  | n :: l =>
      let call := NormCall n in
      if ((blen call <? 3) || existsb (bytes_equal call) seen)%bool then call_loop l seen else
      match calls call with
      | [] => match callRule call with [] => call_loop l (call :: seen) | net => net end
      | net => net
      end
  end.
Definition Of (guideNames callSigns : list text) : text :=
  match branded_loop guideNames with [] => call_loop (guideNames ++ callSigns) [] | net => net end.
End upper.

(** * Proofs *)

(** ** The forms of a name that is a network's *)

Definition one_or_two (d : text) : Prop := (length d = 1%nat \/ length d = 2%nat) /\ forallb is_digit d = true.
Definition at_most_one (P : Z -> bool) (s : text) : Prop := s = [] \/ exists c, s = [c] /\ P c = true.
(** [form s a]: [s] is the alias [a]; or a number behind it, the two of which may be an
    alias together; or [a] behind a call sign, or in parentheses at the end. *)
Inductive form : text -> text -> Prop :=
  | form_alias a : a ∈ alts -> form a a
  | form_number a sep d dec : a ∈ alts -> at_most_one is_sep sep -> one_or_two d -> (dec = [] \/ exists d', dec = 46 :: d' /\ one_or_two d') -> form (a ++ sep ++ d ++ dec) a
  | form_joined a sep d : a ∈ alts -> a ++ d ∈ alts -> at_most_one is_sep sep -> one_or_two d -> form (a ++ sep ++ d) (a ++ d)
  | form_my sep d : at_most_one is_sep sep -> one_or_two d -> form (lit "MY" ++ sep ++ d) (lit "MYTV")
  | form_call k letters suf seps a : k ∈ lit "CKWX" -> (2 <= length letters <= 4)%nat -> forallb is_upper letters = true ->
      (suf = [] \/ exists t, suf = 45 :: lit t /\ t ∈ ["DT"; "TV"; "HD"; "LD"; "CD"]%string) -> seps <> [] -> forallb is_sep seps = true -> a ∈ alts ->
      form (k :: letters ++ suf ++ seps ++ a) a
  | form_paren pre a : a ∈ alts -> form (pre ++ lit "(" ++ a ++ lit ")") a.

Lemma lookup_last_in l k : lookup_last l k <> [] -> exists v, (k, v) ∈ l.
Proof.
  induction l as [| [k' v] l IH]; [done |]. cbn [lookup_last]. destruct (lookup_last l k) as [| x y].
  - unfold bytes_equal. destruct (bool_decide_reflect (k' = k)) as [-> | _]; [exists v; by left | done].
  - intros _. destruct IH as [v' Hv]; [done |]. exists v'. by right.
Qed.
Lemma alts_exact a : a ∈ alts <-> byAlias a <> [].
Proof.
  assert (Forall (fun a => byAlias a <> []) alts) as H1 by (apply (proj1 (bool_decide_eq_true _)); vm_compute; reflexivity).
  assert (Forall (fun p => fst p ∈ alts) alias_pairs) as H2 by (apply (proj1 (bool_decide_eq_true _)); vm_compute; reflexivity).
  pose proof (proj1 (Forall_forall _ _) H1) as H1'. pose proof (proj1 (Forall_forall _ _) H2) as H2'. split; [apply H1' |]. intros Hb. apply lookup_last_in in Hb as [v Hv]. apply (H2' (a, v) Hv).
Qed.

Lemma sem_upto2 before w after c : sem (Upto2 Digit) before w after c <-> one_or_two w /\ c = [].
Proof.
  unfold Upto2, Digit. rewrite sem_Cat. setoid_rewrite sem_Opt. setoid_rewrite sem_One. unfold one_or_two. split.
  - intros (u & v & d & e & -> & -> & (x & -> & -> & Hx) & [(y & -> & -> & Hy) | [-> ->]]); cbn; rewrite Hx; [rewrite Hy |]; (split; [| done]); auto.
  - intros [[[Hl | Hl] Hd] ->].
    + destruct w as [| x [|]]; try done. cbn in Hd. rewrite andb_true_r in Hd. exists [x], [], [], []. split_and!; [done | done | by exists x | by right].
    + destruct w as [| x [| y [|]]]; try done. cbn in Hd. rewrite !andb_true_iff in Hd. destruct Hd as (Hx & Hy & _). exists [x], [y], [], []. split_and!; [done | done | by exists x | left; by exists y].
Qed.
Lemma sem_sep before w after c : sem (Opt Sep) before w after c <-> at_most_one is_sep w /\ c = [].
Proof. unfold Sep, at_most_one. rewrite sem_Opt, sem_One. naive_solver. Qed.
Lemma sem_seps before w after c : sem (Plus Sep) before w after c <-> w <> [] /\ forallb is_sep w = true /\ c = [].
Proof.
  unfold Plus, Sep. rewrite sem_Cat. setoid_rewrite sem_Star_One. setoid_rewrite sem_One. split.
  - intros (u & v & d & e & -> & -> & (x & -> & -> & Hx) & Hv & ->). cbn. by rewrite Hx, Hv.
  - intros (Hw & Hs & ->). destruct w as [| x w]; [done |]. cbn in Hs. apply andb_true_iff in Hs as [Hx Hs]. exists [x], w, [], []. split_and!; [done | done | by exists x | done | done].
Qed.
Lemma sem_alt before w after c k : sem (Cap k alt) before w after c <-> w ∈ alts /\ c = [(k, w)].
Proof. unfold alt. rewrite sem_Cap. setoid_rewrite sem_Any_lit. naive_solver. Qed.
Lemma last_of_none u : last_of None u = None <-> u = [].
Proof. unfold last_of. destruct u as [| x u] using rev_ind; [done |]. rewrite reverse_snoc. split; [done |]. by destruct u. Qed.

Lemma sem_branded before s after c : sem branded before s after c <->
  exists a sep d dec, s = a ++ sep ++ d ++ dec /\ before = None /\ after = [] /\ a ∈ alts /\ at_most_one is_sep sep /\ one_or_two d /\
    (dec = [] /\ c = [(2%nat, d); (1%nat, a)] \/ exists d', dec = 46 :: d' /\ one_or_two d' /\ c = [(3%nat, dec); (2%nat, d); (1%nat, a)]).
Proof.
  unfold branded. rewrite sem_Cat. split.
  - intros (? & w & ? & e & -> & -> & Hb & H). apply sem_Bow in Hb as (-> & -> & Hb). apply sem_Cat in H as (a & w1 & ? & e1 & -> & -> & Ha & H). apply sem_alt in Ha as [Ha ->].
    apply sem_Cat in H as (sep & w2 & ? & e2 & -> & -> & Hs & H). apply sem_sep in Hs as [Hs ->].
    apply sem_Cat in H as (d & w3 & ? & e3 & -> & -> & Hd & H). apply sem_Cap in Hd as (? & -> & Hd). apply sem_upto2 in Hd as [Hd ->].
    apply sem_Cat in H as (dec & w4 & ? & e4 & -> & -> & Hc & H). apply sem_Eow in H as (-> & -> & ->).
    exists a, sep, d, dec. rewrite !app_nil_r in *. split_and!; [done | done | done | done | done | done |].
    apply sem_Opt in Hc as [Hc | [-> ->]]; [right | by left]. apply sem_Cap in Hc as (? & -> & Hc). apply sem_Cat in Hc as (? & d' & ? & ? & -> & -> & Hp & Hd').
    apply sem_One in Hp as (dot & -> & -> & Hdot). apply Z.eqb_eq in Hdot as <-. apply sem_upto2 in Hd' as [Hd' ->]. by exists d'.
  - intros (a & sep & d & dec & -> & -> & -> & Ha & Hs & Hd & Hc). exists [], (a ++ sep ++ d ++ dec), [], c. split_and!; [done | by rewrite app_nil_r | by apply sem_Bow |].
    apply sem_Cat. exists a, (sep ++ d ++ dec). 
    destruct Hc as [[-> ->] | (d' & -> & Hd' & ->)].
    + exists [(1%nat, a)], [(2%nat, d)]. split_and!; [done | done | by apply sem_alt |]. apply sem_Cat. exists sep, (d ++ []), [], [(2%nat, d)]. split_and!; [done | done | by apply sem_sep |].
      apply sem_Cat. exists d, [], [(2%nat, d)], []. split_and!; [done | done | apply sem_Cap; exists []; split; [done | by apply sem_upto2] |].
      apply sem_Cat. exists [], [], [], []. split_and!; [done | done | apply sem_Opt; by right | by apply sem_Eow].
    + exists [(1%nat, a)], [(3%nat, 46 :: d'); (2%nat, d)]. split_and!; [done | done | by apply sem_alt |]. apply sem_Cat. exists sep, (d ++ 46 :: d'), [], [(3%nat, 46 :: d'); (2%nat, d)]. split_and!; [done | done | by apply sem_sep |].
      apply sem_Cat. exists d, (46 :: d'), [(2%nat, d)], [(3%nat, 46 :: d')]. split_and!; [done | done | apply sem_Cap; exists []; split; [done | by apply sem_upto2] |].
      apply sem_Cat. exists (46 :: d'), [], [(3%nat, 46 :: d')], []. split_and!; [by rewrite app_nil_r | done | | by apply sem_Eow]. apply sem_Opt. left. apply sem_Cap. exists []. split; [done |].
      apply sem_Cat. exists [46], d', [], []. split_and!; [done | done | apply sem_One; by exists 46 | by apply sem_upto2].
Qed.

Lemma sem_letters before w after c : sem (Cat Letter (Cat Letter (Opt (Cat Letter (Opt Letter))))) before w after c <-> (2 <= length w <= 4)%nat /\ forallb is_upper w = true /\ c = [].
Proof.
  unfold Letter. split.
  - intros H. apply sem_Cat in H as (? & w1 & ? & ? & -> & -> & Hx & H). apply sem_One in Hx as (cx & -> & -> & Hx).
    apply sem_Cat in H as (? & w2 & ? & ? & -> & -> & Hy & H). apply sem_One in Hy as (cy & -> & -> & Hy).
    apply sem_Opt in H as [H | [-> ->]]; [| cbn; rewrite Hx, Hy; split_and!; [lia | lia | done | done]].
    apply sem_Cat in H as (? & w3 & ? & ? & -> & -> & Hz & H). apply sem_One in Hz as (cz & -> & -> & Hz).
    apply sem_Opt in H as [H | [-> ->]]; [| cbn; rewrite Hx, Hy, Hz; split_and!; [lia | lia | done | done]].
    apply sem_One in H as (ct & -> & -> & Ht). cbn. rewrite Hx, Hy, Hz, Ht. split_and!; [lia | lia | done | done].
  - intros (Hl & Hu & ->). destruct w as [| x [| y w]]; [cbn in Hl; lia.. |]. cbn in Hu. rewrite !andb_true_iff in Hu. destruct Hu as (Hx & Hy & Hw).
    apply (sem_cat _ _ [x] (y :: w) _ _ [] []); [by constructor |]. apply (sem_cat _ _ [y] w _ _ [] []); [by constructor |].
    destruct w as [| z w]; [apply sem_skip |]. cbn in Hw. apply andb_true_iff in Hw as [Hz Hw]. apply sem_opt, (sem_cat _ _ [z] w _ _ [] []); [by constructor |].
    destruct w as [| t w]; [apply sem_skip |]. cbn in Hw. apply andb_true_iff in Hw as [Ht Hw]. destruct w; [| cbn in Hl; lia]. by apply sem_opt; constructor.
Qed.

Definition ending : re := Opt (Cap 1 (Cat (Char 45) (Cap 2 (Any (map (fun s => Lit (lit s)) ["DT"; "TV"; "HD"; "LD"; "CD"]%string))))).
Definition is_ending (suf : text) : Prop := suf = [] \/ exists t, suf = 45 :: lit t /\ t ∈ ["DT"; "TV"; "HD"; "LD"; "CD"]%string.
Lemma sem_ending before w after : (exists c, sem ending before w after c /\ group c 3 = []) <-> is_ending w.
Proof.
  unfold ending, is_ending. split.
  - intros (c & H & _). apply sem_Opt in H as [H | [-> _]]; [right | by left]. apply sem_Cap in H as (d & -> & H). apply sem_Cat in H as (? & v & ? & ? & -> & -> & Hd & H).
    apply sem_One in Hd as (dash & -> & -> & Hdash). apply Z.eqb_eq in Hdash as <-. apply sem_Cap in H as (? & -> & H). apply sem_Any in H as (r & Hr & H).
    apply list_elem_of_In, in_map_iff in Hr as (t & <- & Ht). apply sem_Lit in H as [-> ->]. exists t. split; [done | by apply list_elem_of_In].
  - intros [-> | (t & -> & Ht)]; [exists []; split; [apply sem_skip | done] |]. exists [(1%nat, 45 :: lit t); (2%nat, lit t)]. split; [| done].
    apply sem_opt, (sem_cap 1). apply (sem_cat _ _ [45] (lit t) _ _ [] [(2%nat, lit t)]); [by constructor |]. apply sem_cap, sem_Any. exists (Lit (lit t)). split; [| by apply sem_Lit].
    apply list_elem_of_In. apply (in_map (fun s => Lit (lit s))), list_elem_of_In, Ht.
Qed.
Lemma sem_ending_group before w after c : sem ending before w after c -> group c 3 = [] /\ is_ending w.
Proof.
  intros H. assert (group c 3 = []) as E.
  { apply sem_Opt in H as [H | [_ ->]]; [| done]. apply sem_Cap in H as (d & -> & H). apply sem_Cat in H as (? & v & ? & ? & -> & -> & Hd & H).
    apply sem_One in Hd as (dash & -> & -> & _). apply sem_Cap in H as (? & -> & H). apply sem_Any in H as (r & Hr & H).
    apply list_elem_of_In, in_map_iff in Hr as (t & <- & Ht). by apply sem_Lit in H as [-> ->]. }
  split; [done |]. eapply sem_ending. by exists c.
Qed.
Lemma sem_trailing before s after c : sem trailing before s after c -> before = None /\ after = [] /\ form s (group c 3).
Proof.
  unfold trailing. intros H. apply sem_Cat in H as (? & w & ? & e & -> & -> & Hb & H). apply sem_Bow in Hb as (-> & -> & ->). split; [done |].
  apply sem_Cat in H as (? & w1 & ? & e1 & -> & -> & Hk & H). apply sem_One in Hk as (k & -> & -> & Hk).
  apply sem_Cat in H as (letters & w2 & ? & e2 & -> & -> & Hl & H). apply sem_letters in Hl as (Hl & Hu & ->).
  apply sem_Cat in H as (suf & w3 & d & e3 & -> & -> & Hs & H). apply sem_ending_group in Hs as [_ Hs].
  apply sem_Cat in H as (seps & w4 & ? & e4 & -> & -> & Hp & H). apply sem_seps in Hp as (Hp1 & Hp2 & ->).
  apply sem_Cat in H as (a & w5 & ? & e5 & -> & -> & Ha & H). apply sem_alt in Ha as [Ha ->]. apply sem_Eow in H as (-> & -> & ->). split; [done |].
  cbn [app]. rewrite app_nil_r. change (group _ 3) with a. apply form_call; try done.
  apply existsb_exists in Hk as (x & Hx & Ex). apply Z.eqb_eq in Ex as ->. by apply list_elem_of_In.
Qed.
Lemma alt_end k before a : a ∈ alts -> sem (Cat (Cap k alt) Eow) before a [] [(k, a)].
Proof. intros Ha. rewrite <- (app_nil_r a) at 1. apply (sem_cat _ _ a [] _ _ [(k, a)] []); [by apply sem_alt | by apply sem_Eow]. Qed.
Lemma trailing_sem k letters suf seps a : k ∈ lit "CKWX" -> (2 <= length letters <= 4)%nat -> forallb is_upper letters = true ->
  is_ending suf -> seps <> [] -> forallb is_sep seps = true -> a ∈ alts -> exists c, sem trailing None (k :: letters ++ suf ++ seps ++ a) [] c.
Proof.
  intros Hk Hl Hu Hs Hp1 Hp2 Ha. unfold trailing. apply (sem_ending (last_of (last_of None [k]) letters) suf ((seps ++ a) ++ [])) in Hs as (d & Hd & _). eexists.
  apply (sem_cat _ _ [] _ _ _ []); [by apply sem_Bow |]. apply (sem_cat _ _ [k] _ _ _ []).
  { constructor. apply existsb_exists. exists k. split; [by apply list_elem_of_In | apply Z.eqb_refl]. }
  apply (sem_cat _ _ letters _ _ _ []); [by apply sem_letters |]. apply sem_cat; [exact Hd |].
  apply (sem_cat _ _ seps _ _ _ []); [by apply sem_seps |]. by apply alt_end.
Qed.

Lemma sem_paren u s after c : sem paren (last_of None u) s after c -> after = [] /\ form (u ++ s) (group c 1).
Proof.
  unfold paren. intros H. apply sem_Cat in H as (? & w & ? & e & -> & -> & Hb & H). apply sem_One in Hb as (open_ & -> & -> & Hopen). apply Z.eqb_eq in Hopen as <-.
  apply sem_Cat in H as (a & w1 & ? & e1 & -> & -> & Ha & H). apply sem_alt in Ha as [Ha ->].
  apply sem_Cat in H as (? & w2 & ? & e2 & -> & -> & Hy & H). apply sem_One in Hy as (close_ & -> & -> & Hclose). apply Z.eqb_eq in Hclose as <-.
  apply sem_Eow in H as (-> & -> & ->). split; [done |]. by apply form_paren.
Qed.
Lemma paren_sem before a : a ∈ alts -> exists c, sem paren before (lit "(" ++ a ++ lit ")") [] c.
Proof.
  intros Ha. eexists. apply (sem_cat _ _ [40] _ _ _ []); [by constructor |]. apply (sem_cat _ _ a _ _ _ [(1%nat, a)]); [by apply sem_alt |].
  apply (sem_cat _ _ [41] [] _ _ [] []); [by constructor | by apply sem_Eow].
Qed.

Lemma sem_myNumber before s after c : sem myNumber before s after c <-> before = None /\ after = [] /\ c = [] /\ exists sep d, s = lit "MY" ++ sep ++ d /\ at_most_one is_sep sep /\ one_or_two d.
Proof.
  unfold myNumber. split.
  - intros H. apply sem_Cat in H as (? & w & ? & e & -> & -> & Hb & H). apply sem_Bow in Hb as (-> & -> & ->).
    apply sem_Cat in H as (? & w1 & ? & e1 & -> & -> & Hm & H). apply sem_Lit in Hm as [-> ->].
    apply sem_Cat in H as (sep & w2 & ? & e2 & -> & -> & Hs & H). apply sem_sep in Hs as [Hs ->].
    apply sem_Cat in H as (d & w3 & ? & e3 & -> & -> & Hd & H). apply sem_upto2 in Hd as [Hd ->]. apply sem_Eow in H as (-> & -> & ->).
    split_and!; [done | done | done |]. exists sep, d. by rewrite app_nil_r.
  - intros (-> & -> & -> & sep & d & -> & Hs & Hd). apply (sem_cat _ _ [] _ _ _ [] []); [by apply sem_Bow |]. apply (sem_cat _ _ (lit "MY") _ _ _ [] []); [by apply sem_Lit |].
    apply (sem_cat _ _ sep _ _ _ [] []); [by apply sem_sep |]. rewrite <- (app_nil_r d). apply (sem_cat _ _ d _ _ _ [] []); [by apply sem_upto2 | by apply sem_Eow].
Qed.

Lemma form_alts s a : form s a -> s <> [] /\ a ∈ alts.
Proof.
  assert (forall d, one_or_two d -> d <> []) as Hd by (intros d [[Hl | Hl] _] ->; done).
  assert ([] ∉ alts) as Hnil by (intros H; by apply alts_exact in H). assert (lit "MYTV" ∈ alts) as Hmy by (by apply alts_exact).
  destruct 1 as [a Ha | a sep d dec Ha _ H _ | a sep d Ha Hj _ H | sep d _ H | | pre a Ha]; (split; [| done]).
  - by intros ->.
  - intros E. apply app_eq_nil in E as [-> _]. done.
  - intros E. apply app_eq_nil in E as [-> _]. done.
  - done.
  - done.
  - by destruct pre.
Qed.

Section branded_proofs.
Context `{Unicode} (upper_rune : Z -> Z).

(** What the searches of [brandedNetwork] find *)
Lemma branded_found s m : FindStringSubmatch branded s = Some m ->
  form s (m 1%nat) /\ (m 1%nat ++ m 2%nat ∈ alts -> m 3%nat = [] -> form s (m 1%nat ++ m 2%nat)).
Proof.
  intros Hm. apply FindStringSubmatch_sound in Hm as (u & w & after & c & -> & Hs & Hg). apply sem_branded in Hs as (a & sep & d & dec & -> & Hu & -> & Ha & Hsep & Hd & Hc).
  apply last_of_none in Hu as ->. cbn [app]. rewrite app_nil_r, !Hg. destruct Hc as [[-> ->] | (d' & -> & Hd' & ->)].
  - change (group _ 1) with a. change (group _ 2) with d. split; [apply form_number; auto |]. intros Hj _. rewrite app_nil_r. by apply form_joined.
  - change (group _ 1) with a. change (group _ 3) with (46 :: d'). split; [apply form_number; eauto | done].
Qed.
Lemma trailing_found s m : FindStringSubmatch trailing s = Some m -> form s (m 3%nat).
Proof.
  intros Hm. apply FindStringSubmatch_sound in Hm as (u & w & after & c & -> & Hs & Hg). apply sem_trailing in Hs as (Hu & -> & Hf).
  apply last_of_none in Hu as ->. cbn [app]. by rewrite app_nil_r, Hg.
Qed.
Lemma paren_found s m : FindStringSubmatch paren s = Some m -> form s (m 1%nat).
Proof.
  intros Hm. apply FindStringSubmatch_sound in Hm as (u & w & after & c & -> & Hs & Hg). apply sem_paren in Hs as (-> & Hf). by rewrite app_nil_r, Hg.
Qed.
Lemma myNumber_found s : MatchString myNumber s = true <-> exists sep d, s = lit "MY" ++ sep ++ d /\ at_most_one is_sep sep /\ one_or_two d.
Proof.
  rewrite MatchString_exact. split.
  - intros (u & w & after & c & -> & Hs). apply sem_myNumber in Hs as (Hu & -> & _ & Hf). apply last_of_none in Hu as ->. by rewrite app_nil_r.
  - intros Hf. exists [], s, [], []. split; [by rewrite app_nil_r |]. by apply sem_myNumber.
Qed.

Lemma bytes_nil (s : text) : negb (bytes_equal s []) = true <-> s <> [].
Proof. unfold bytes_equal. rewrite negb_true_iff, bool_decide_eq_false. done. Qed.

Lemma branded_form nm : brandedNetwork upper_rune nm <> [] -> exists a, form (cleanName upper_rune nm) a /\ byAlias a = brandedNetwork upper_rune nm.
Proof.
  unfold brandedNetwork. set (s := cleanName upper_rune nm). destruct (bytes_equal s []); [done |].
  destruct (negb (bytes_equal (byAlias s) [])) eqn:Eb; [intros _; exists s; split; [by apply form_alias, alts_exact, bytes_nil | done] |].
  destruct (FindStringSubmatch branded s) as [m |] eqn:E1.
  { intros _. destruct (branded_found s m E1) as [Hf Hj]. destruct (_ && _)%bool eqn:E; [| by exists (m 1%nat)].
    apply andb_true_iff in E as [E2 E3]. apply bytes_nil, alts_exact in E2. unfold bytes_equal in E3. apply bool_decide_eq_true in E3. exists (m 1%nat ++ m 2%nat). by split; [apply Hj |]. }
  destruct (MatchString myNumber s) eqn:E2.
  { intros _. apply myNumber_found in E2 as (sep & d & -> & Hs & Hd). exists (lit "MYTV"). split; [by apply form_my | by vm_compute]. }
  destruct (FindStringSubmatch trailing s) as [m |] eqn:E3; [intros _; exists (m 3%nat); split; [by apply trailing_found | done] |].
  destruct (FindStringSubmatch paren s) as [m |] eqn:E4; [intros _; exists (m 1%nat); split; [by apply paren_found | done] | done].
Qed.
Lemma form_branded nm a : form (cleanName upper_rune nm) a -> brandedNetwork upper_rune nm <> [].
Proof.
  intros Hf. destruct (form_alts _ _ Hf) as [Hs _]. unfold brandedNetwork. set (s := cleanName upper_rune nm) in *.
  destruct (bytes_equal s []) eqn:E0; [unfold bytes_equal in E0; by apply bool_decide_eq_true in E0 |].
  destruct (negb (bytes_equal (byAlias s) [])) eqn:Eb; [by apply bytes_nil |].
  destruct (FindStringSubmatch branded s) as [m |] eqn:E1.
  { destruct (branded_found s m E1) as [Hm _]. destruct (_ && _)%bool eqn:E; [apply andb_true_iff in E as [E2 _]; by apply bytes_nil |]. by apply alts_exact, (form_alts s). }
  destruct (MatchString myNumber s) eqn:E2; [done |].
  destruct (FindStringSubmatch trailing s) as [m |] eqn:E3; [by apply alts_exact, (form_alts s), trailing_found |].
  destruct (FindStringSubmatch paren s) as [m |] eqn:E4; [by apply alts_exact, (form_alts s), paren_found |].
  exfalso. pose proof (FindStringSubmatch_none _ _ E1) as N1. pose proof (FindStringSubmatch_none _ _ E3) as N3. pose proof (FindStringSubmatch_none _ _ E4) as N4.
  clear E1 E3 E4. clearbody s. destruct Hf as [a Ha | a sep d dec Ha Hsep Hd Hdec | a sep d Ha Hj Hsep Hd | sep d Hsep Hd | k letters suf seps a Hk Hl Hu Hsuf Hp1 Hp2 Ha | pre a Ha].
  - apply alts_exact, bytes_nil in Ha. by rewrite Ha in Eb.
  - destruct Hdec as [-> | (d' & -> & Hd')].
    + apply (N1 [] (a ++ sep ++ d ++ []) [] [(2%nat, d); (1%nat, a)]); [by rewrite !app_nil_r |]. apply sem_branded. exists a, sep, d, []. split_and!; try done. by left.
    + apply (N1 [] (a ++ sep ++ d ++ 46 :: d') [] [(3%nat, 46 :: d'); (2%nat, d); (1%nat, a)]); [by rewrite !app_nil_r |]. apply sem_branded. exists a, sep, d, (46 :: d'). split_and!; try done. right. by exists d'.
  - apply (N1 [] (a ++ sep ++ d) [] [(2%nat, d); (1%nat, a)]); [by rewrite !app_nil_r |]. apply sem_branded. exists a, sep, d, []. rewrite app_nil_r. split_and!; try done. by left.
  - assert (MatchString myNumber (lit "MY" ++ sep ++ d) = true) as Hm by (apply myNumber_found; by exists sep, d). by rewrite Hm in E2.
  - destruct (trailing_sem k letters suf seps a Hk Hl Hu Hsuf Hp1 Hp2 Ha) as [c Hc]. apply (N3 [] (k :: letters ++ suf ++ seps ++ a) [] c); [by rewrite app_nil_r | done].
  - destruct (paren_sem (last_of None pre) a Ha) as [c Hc]. apply (N4 pre (lit "(" ++ a ++ lit ")") [] c); [by rewrite app_nil_r | done].
Qed.

(** C30. A guide name is read as a network's when, cleaned, it is an alias of that network, or
    has it before a number, behind a call sign or in parentheses at the end; and
    every name of one of these forms is some network's. A name that merely
    contains an alias is none's. *)
Theorem branded_exact nm :
  (brandedNetwork upper_rune nm <> [] -> exists a, form (cleanName upper_rune nm) a /\ byAlias a = brandedNetwork upper_rune nm) /\
  (brandedNetwork upper_rune nm <> [] <-> exists a, form (cleanName upper_rune nm) a).
Proof.
  split; [apply branded_form |]. split; [| intros [a Ha]; by eapply form_branded].
  intros Hn. destruct (branded_form nm Hn) as (a & Ha & _). by exists a.
Qed.
End branded_proofs.

Lemma branded_exact_witness :
  @brandedNetwork ascii_unicode (fun c => c) (lit "KBWV-DT NBC") = lit "NBC" /\
  exists a, form (@cleanName ascii_unicode (fun c => c) (lit "KBWV-DT NBC")) a /\ byAlias a = lit "NBC".
Proof. split; [by vm_compute |]. apply (@branded_exact ascii_unicode (fun c => c) (lit "KBWV-DT NBC")). by vm_compute. Defined.

(** The names of the source's own tests *)
Definition own_cases : list (string * string) := [
  ("FOX 5", "FOX"); ("NBC4", "NBC"); ("ABC7", "ABC"); ("CBS 12", "CBS"); ("abc 7 hd", "ABC"); ("PBS", "PBS"); ("PBS 8", "PBS");
  ("CW", "CW"); ("CW50", "CW"); ("THE CW", "CW"); ("MY20", "MyNetworkTV"); ("MY 9", "MyNetworkTV"); ("MNTV", "MyNetworkTV");
  ("ION TV", "ION"); ("UNIVSN", "Univision"); ("TELEMUNDO 40", "Telemundo"); ("CTV2", "CTV 2"); ("CTV 2", "CTV 2");
  ("ICI TELE", "Radio-Canada"); ("KBWV-NBC", "NBC"); ("WBWV CW", "CW"); ("KBWV-DT (PBS)", "PBS"); ("CBWV CTV", "CTV"); ("ABC7 3.0", "ABC"); ("FOX 3.0", "FOX");
  ("KDVR-DT", "FOX"); ("KDVR-DT2", ""); ("FOX NEWS", ""); ("SHOPNBC", ""); ("KDVR2", ""); ("PBS KIDS", ""); ("CTV NEWS", ""); ("KCITY", ""); ("NBCLX", "");
  ("CBQT-DT", "CBC"); ("CBQFT", "Radio-Canada"); ("CBQX", ""); ("CBQQFT", "")]%string.
Example own_cases_read : forallb (fun c => bytes_equal (@Of ascii_unicode (fun c => c) [lit (fst c)] []) (lit (snd c))) own_cases = true.
Proof. vm_compute. reflexivity. Qed.
