(* ===== verification/Twins.v ===== *)
(** The channels that are one station's, [server/internal/store/twins.go] and
    [duplicates.go]: the ATSC 3.0 and 1.0 copies of a broadcast, and the rows of one
    channel that several tuners carry; which of them is shown, which records, and
    ([server/internal/guide/twins.go]) whose listings they share.

    Text is a list of code points. What the database keeps of devices and listings
    is an argument, as is the order Go walks a map of pairs in ([walk]). Ids are
    the database's keys, so the network of a channel, which the code keeps by its
    id, is asked again here. *)
From S2P Require Import Prelude GoText Hdhr Network Dvr DvrPlan.
From stdpp Require Import gmap.
Local Open Scope Z_scope.
Local Open Scope go_scope.

Notation text := (list Z) (only parsing).

(** ** Channels *)

Module Ch.
Record Channel := mk {
  ID : Z; DeviceID : text; GuideNumber : text; GuideName : text; DisplayNumber : text; DisplayName : text;
  VideoCodec : text; AudioCodec : text; Favorite : bool; Enabled : bool; Hidden : bool; Present : bool;
  GuideKey : text; Network : text; Protected : bool;
  Standard : text; TwinID : Z; TwinChoice : text; PlaysAs : Z; SameAs : Z;
}.
#[export] Instance Channel_inhabited : Inhabited Channel :=
  populate (mk 0 [] [] [] [] [] [] [] false false false false [] [] false [] 0 [] 0 0).
End Ch.
Import Ch.

Definition set_standard (c : Channel) (s : text) : Channel :=
  mk (ID c) (DeviceID c) (GuideNumber c) (GuideName c) (DisplayNumber c) (DisplayName c) (VideoCodec c) (AudioCodec c) (Favorite c) (Enabled c) (Hidden c) (Present c)
    (GuideKey c) (Network c) (Protected c) s (TwinID c) (TwinChoice c) (PlaysAs c) (SameAs c).
Definition set_plays_as (c : Channel) (one : Z) : Channel :=
  mk (ID c) (DeviceID c) (GuideNumber c) (GuideName c) (DisplayNumber c) (DisplayName c) (VideoCodec c) (AudioCodec c) (Favorite c) (Enabled c) (Hidden c) (Present c)
    (GuideKey c) (Network c) (Protected c) (Standard c) (TwinID c) (TwinChoice c) one (SameAs c).
Definition set_twin (c : Channel) (twin : Z) (choice : text) : Channel :=
  mk (ID c) (DeviceID c) (GuideNumber c) (GuideName c) (DisplayNumber c) (DisplayName c) (VideoCodec c) (AudioCodec c) (Favorite c) (Enabled c) (Hidden c) (Present c)
    (GuideKey c) (Network c) (Protected c) (Standard c) twin choice (PlaysAs c) (SameAs c).
Definition set_same (c : Channel) (same : Z) : Channel :=
  mk (ID c) (DeviceID c) (GuideNumber c) (GuideName c) (DisplayNumber c) (DisplayName c) (VideoCodec c) (AudioCodec c) (Favorite c) (Enabled c) (Hidden c) (Present c)
    (GuideKey c) (Network c) (Protected c) (Standard c) (TwinID c) (TwinChoice c) (PlaysAs c) same.
Definition set_shown (c : Channel) (favorite : bool) (number name : text) : Channel :=
  mk (ID c) (DeviceID c) (GuideNumber c) (GuideName c) number name (VideoCodec c) (AudioCodec c) favorite (Enabled c) (Hidden c) (Present c)
    (GuideKey c) (Network c) (Protected c) (Standard c) (TwinID c) (TwinChoice c) (PlaysAs c) (SameAs c).

Definition TwinATSC3 : text := lit "atsc3".
Definition TwinATSC1 : text := lit "atsc1".
Definition TwinBoth : text := lit "both".

(** [strings.Cut] at the first dot: the text itself, and nothing, where there is none *)
Definition cut_dot (s : text) : text * option text :=
  match Cut s (lit ".") with Some (a, b) => (a, Some b) | None => (s, None) end.
Fixpoint minor_loop (s : text) (n : Z) : Z :=
  match s with c :: l => if is_digit c then minor_loop l (int64 (n * 10 + (c - 48))) else n | [] => n end.
Definition minor (number : text) : Z := match snd (cut_dot number) with Some after => minor_loop after 0 | None => 0 end.

(** A row of a playlist or a link, not of a tuner *)
Definition from_source (ch : Channel) : bool := has_prefix (lit "src-") (DeviceID ch).
Definition lowestMinor (cands : list Channel) : list Channel :=
  match cands with
  | [] => []
  | c :: _ =>
      let low := fold_left (fun low c => Z.min low (minor (GuideNumber c))) cands (minor (GuideNumber c)) in
      filter (fun c => ((minor (GuideNumber c) =? low) && negb (Protected c))%bool) cands
  end.

Section twins.
Context `{Unicode} (upper_rune : Z -> Z).
(** [unicode.IsDigit] past ASCII *)
Context (digit_rune : Z -> bool).

Definition ATSC3 (ch : Channel) : bool :=
  let v := ToUpper upper_rune (TrimSpace (VideoCodec ch)) in
  if negb (one_of ["HEVC"; "H265"]%string v) then false else
  contains (ToUpper upper_rune (without 45 (AudioCodec ch))) (lit "AC4").

Definition digit_any (c : Z) : bool := if c <? 128 then is_digit c else digit_rune c.
(** The call sign of a name without the first of the endings it has *)
Fixpoint drop_ending (l : list string) (s : text) : text :=
  match l with
  | [] => s
  | suf :: l => if (has_suffix s (lit suf) && (3 <=? blen s - blen (lit suf)))%bool then TrimSuffix s (lit suf) else drop_ending l s
  end.
Definition callKey (name : text) : text :=
  let s := without 46 (without 32 (without 45 (ToUpper upper_rune (TrimSpace name)))) in
  let s := reverse (trim_left_by digit_any (reverse s)) in
  let s := drop_ending ["HD"; "DT"; "TV"; "LD"; "CD"]%string s in
  if ((blen s <? 3) || (4 <? blen s) || negb (existsb (fun c => bytes_equal (take 1 s) [c]) (lit "KWCX")))%bool then [] else
  if forallb is_upper s then s else [].

Definition major (number : text) : Z :=
  match Atoi (fst (cut_dot (TrimSpace number))) with Some n => n | None => -1 end.
Definition channelNetwork (ch : Channel) : text :=
  match Network ch with [] => Of upper_rune [GuideName ch; DisplayName ch] [] | n => n end.

(** Two channels whose networks, where both have one, are the same *)
Definition agree (c3 c : Channel) : bool :=
  (bytes_equal (channelNetwork c) [] || bytes_equal (channelNetwork c3) [] || bytes_equal (channelNetwork c) (channelNetwork c3))%bool.
Definition pick (c3 : Channel) (ones : list Channel) (match_ : Channel -> bool) : list Channel :=
  lowestMinor (filter (fun c => (match_ c && agree c3 c)%bool) ones).
Definition by_call (c3 : Channel) (ones : list Channel) : list Channel :=
  match callKey (GuideName c3) with [] => [] | key => pick c3 ones (fun c => bytes_equal (callKey (GuideName c)) key) end.
Definition by_guide (c3 : Channel) (ones : list Channel) : list Channel :=
  match TrimSpace (GuideKey c3) with [] => [] | key => pick c3 ones (fun c => EqualFold (TrimSpace (GuideKey c)) key) end.
Definition same_major (c3 c : Channel) : bool := major (GuideNumber c) =? major (GuideNumber c3) - 100.
Definition by_major (c3 : Channel) (ones : list Channel) : list Channel :=
  if major (GuideNumber c3) <? 100 then [] else
  match filter (fun c => (same_major c3 c && (minor (GuideNumber c) =? minor (GuideNumber c3)) && agree c3 c && negb (Protected c))%bool) ones with
  | [] => if bytes_equal (channelNetwork c3) [] then [] else pick c3 ones (fun c => (same_major c3 c && bytes_equal (channelNetwork c) (channelNetwork c3))%bool)
  | exact_ => exact_
  end.
Definition twinMains (c3 : Channel) (ones : list Channel) : list Channel :=
  match by_call c3 ones with [] => match by_guide c3 ones with [] => by_major c3 ones | l => l end | l => l end.

(** The order of a channel's mains: its own device's, those there, by id *)
Definition main_before (c3 a b : Channel) : bool :=
  let own c := bytes_equal (DeviceID c) (DeviceID c3) in
  if negb (Bool.eqb (own a) (own b)) then own a
  else if negb (Bool.eqb (Present a) (Present b)) then Present a else ID a <? ID b.
Definition ones_of (chs : list Channel) : list Channel := filter (fun ch => negb (from_source ch || ATSC3 ch)) chs.
(** A 3.0 row that is looked at: the clear ones, or the encrypted *)
Definition candidate (encrypted : bool) (c : Channel) : bool := (negb (from_source c) && Bool.eqb (Protected c) encrypted && ATSC3 c)%bool.
Definition mains_of (chs : list Channel) (c3 : Channel) : list Z := map ID (sort_by (main_before c3) (twinMains c3 (ones_of chs))).
Definition pair_step (chs : list Channel) (encrypted : bool) (out : gmap Z (list Z)) (c3 : Channel) : gmap Z (list Z) :=
  if negb (candidate encrypted c3) then out else
  match mains_of chs c3 with [] => out | ids => <[ID c3 := default [] (out !! ID c3) ++ ids]> out end.
Definition pairs (chs : list Channel) (encrypted : bool) : gmap Z (list Z) := fold_left (pair_step chs encrypted) chs ∅.
Definition Twins (chs : list Channel) : gmap Z (list Z) := pairs chs false.
Definition StandIns (chs : list Channel) : gmap Z Z := omap head (pairs chs true).
End twins.

(** ** Several tuners' rows of one channel *)

Section same.
Context `{Unicode} (upper_rune : Z -> Z) (digit_rune : Z -> bool).

Definition sameKey (ch : Channel) : text :=
  if (from_source ch || Protected ch || negb (Present ch))%bool then [] else
  let name := match callKey upper_rune digit_rune (GuideName ch) with [] => ToUpper upper_rune (TrimSpace (GuideName ch)) | key => key end in
  GuideNumber ch ++ lit "|" ++ name.
(** [groups] and the order of its keys, as one list *)
Fixpoint add_to_group (groups : list (text * list nat)) (key : text) (i : nat) : list (text * list nat) :=
  match groups with
  | [] => [(key, [i])]
  | (k, l) :: rest => if bytes_equal k key then (k, l ++ [i]) :: rest else (k, l) :: add_to_group rest key i
  end.
Fixpoint group_rows (chs : list Channel) (i : nat) (groups : list (text * list nat)) : list (text * list nat) :=
  match chs with
  | [] => groups
  | ch :: l => group_rows l (S i) (match sameKey ch with [] => groups | key => add_to_group groups key i end)
  end.
Definition device_at (chs : list Channel) (i : nat) : text := match chs !! i with Some ch => DeviceID ch | None => [] end.
Definition several (chs : list Channel) (idx : list nat) : bool := (1 <? length (remove_dups (map (device_at chs) idx)))%nat.
Definition sameGroups (chs : list Channel) : list (list nat) := filter (several chs) (map snd (group_rows chs 0 [])).
Definition SameChannels (chs : list Channel) : list (list Z) :=
  map (map (fun i => match chs !! i with Some ch => ID ch | None => 0 end)) (sameGroups chs).

(** What the database says: a device's priority, whether it answers, and whether a
    channel is listed *)
Context (priority : text -> Z) (answering : text -> bool) (listed : Z -> bool).

Definition on_guide (c : Channel) : bool := (Enabled c && negb (Hidden c))%bool.
Definition shows_first (x y : Channel) : bool :=
  if negb (Bool.eqb (on_guide x) (on_guide y)) then on_guide x
  else if negb (Bool.eqb (answering (DeviceID x)) (answering (DeviceID y))) then answering (DeviceID x)
  else if negb (priority (DeviceID x) =? priority (DeviceID y)) then priority (DeviceID x) <? priority (DeviceID y)
  else if negb (Bool.eqb (listed (ID x)) (listed (ID y))) then listed (ID x)
  else if negb (bytes_equal (DeviceID x) (DeviceID y)) then text_ltb (DeviceID x) (DeviceID y)
  else ID x <? ID y.
Definition row_before (chs : list Channel) (i j : nat) : bool := shows_first (chs !!! i) (chs !!! j).
(** The row shown at [s], and another of its channel at [i] *)
Definition merge_one (s : nat) (chs : list Channel) (i : nat) : list Channel :=
  match chs !! s, chs !! i with
  | Some shown, Some other =>
      let name := if (bytes_equal (DisplayName shown) (GuideName shown) && negb (bytes_equal (DisplayName other) (GuideName other)))%bool then DisplayName other else DisplayName shown in
      let number := if (bytes_equal (DisplayNumber shown) (GuideNumber shown) && negb (bytes_equal (DisplayNumber other) (GuideNumber other)))%bool then DisplayNumber other else DisplayNumber shown in
      <[s := set_shown shown (Favorite shown || Favorite other) number name]> (<[i := set_same other (ID shown)]> chs)
  | _, _ => chs
  end.
Definition mark_group (chs : list Channel) (idx : list nat) : list Channel :=
  match sort_by (row_before chs) idx with
  | s :: rest => fold_left (merge_one s) rest chs
  | [] => chs
  end.
Definition markSameAs (chs : list Channel) : list Channel := fold_left mark_group (sameGroups chs) chs.
End same.

(** ** Pairs *)

Section pairs_use.
Context `{Unicode} (upper_rune : Z -> Z) (digit_rune : Z -> bool).
(** The order a loop over a map goes in *)
Context (walk : forall A : Type, gmap Z A -> list (Z * A)).

Definition index_of (chs : list Channel) (id : Z) : nat := snd (fold_left (fun '(i, found) ch => (S i, if ID ch =? id then i else found)) chs (0%nat, 0%nat)).
Definition mark_standard (ch : Channel) : Channel := if (ATSC3 upper_rune ch && negb (from_source ch))%bool then set_standard ch TwinATSC3 else ch.
Definition mark_one (index : Z -> nat) (c3 : Z) (choice : text) (chs : list Channel) (id : Z) : list Channel :=
  alter (fun c => if TwinID c =? 0 then set_twin c c3 choice else c) (index id) chs.
Definition mark_pair (index : Z -> nat) (choices : gmap Z text) (chs : list Channel) (p : Z * list Z) : list Channel :=
  let '(c3, ones) := p in
  let choice := default [] (choices !! c3) in
  fold_left (mark_one index c3 choice) ones (alter (fun c => set_twin c (hd 0 ones) choice) (index c3) chs).
Definition markTwins (chs : list Channel) (choices : gmap Z text) : list Channel :=
  let index := index_of chs in
  let chs := map mark_standard chs in
  let chs := fold_left (fun l p => alter (fun c => set_plays_as c (snd p)) (index (fst p)) l) (walk Z (StandIns upper_rune digit_rune chs)) chs in
  fold_left (mark_pair index choices) (walk (list Z) (Twins upper_rune digit_rune chs)) chs.

(** The choice of a pair. An update is a channel's id, whether it is hidden and whether
    it is a favorite. *)
Definition by_id (chs : list Channel) (id : Z) : option Channel := List.find (fun c => ID c =? id) (reverse chs).
Definition favorite_of (chs : list Channel) (id : Z) : bool := match by_id chs id with Some c => Favorite c | None => false end.
Definition applyTwinChoice (chs : list Channel) (c3 : Z) (ones : list Z) (choice : text) : list (Z * bool * bool) :=
  let fav := existsb (favorite_of chs) (c3 :: ones) in
  let set id hidden := (id, hidden, if (negb hidden && negb (bytes_equal choice TwinBoth))%bool then fav else favorite_of chs id) in
  set c3 (bytes_equal choice TwinATSC1) :: map (fun id => set id (bytes_equal choice TwinATSC3)) ones.
Inductive twin_error := ErrNoTwin | ErrTwinChoice.
Definition in_pair (id : Z) (p : Z * list Z) : bool := ((fst p =? id) || existsb (Z.eqb id) (snd p))%bool.
Definition SetTwinChoice (chs : list Channel) (id : Z) (choice : text) : (Z * list (Z * bool * bool)) + twin_error :=
  if negb (one_of ["atsc3"; "atsc1"; "both"]%string choice) then inr ErrTwinChoice else
  match List.find (in_pair id) (walk (list Z) (Twins upper_rune digit_rune chs)) with
  | Some (c3, ones) => inl (c3, applyTwinChoice chs c3 ones choice)
  | None => inr ErrNoTwin
  end.
(** The choice [ApplyTwinDefaults] makes of a pair that has none *)
Definition default_choice (heights : gmap Z Z) (c3 : Z) (ones : list Z) : text :=
  let h1 := default 0 (heights !! hd 0 ones) in
  let h3 := default 0 (heights !! c3) in
  if ((0 <? h1) && (0 <? h3) && (h3 <? h1))%bool then TwinATSC1 else TwinATSC3.

(** ** Airings that are one broadcast *)

Definition set_simulcast (r : Air.Airing) (to : Z) : Air.Airing :=
  Air.mk (Air.ID r) (Air.ChannelID r) (Air.Title r) (Air.Subtitle r) (Air.Description r) (Air.Category r) (Air.ProgramID r) (Air.New r)
    (Air.ImageURL r) (Air.ImageWidth r) (Air.ImageHeight r) (Air.Season r) (Air.Episode r) (Air.EpisodeLabel r) (Air.SeriesID r)
    (Air.Rating r) (Air.GameID r) (Air.GuideSource r) (Air.Start r) (Air.End_ r) to (Air.ManualPass r).
(** What is shown when, by its second and its title *)
Definition slot_of (r : Air.Airing) : Z * text := (unix (Air.Start r), ToLower (TrimSpace (Air.Title r))).
Definition shown_as (chs : list Channel) : gmap Z Z :=
  fold_left (fun m ch => if SameAs ch =? 0 then m else <[ID ch := SameAs ch]> m) chs ∅.
Definition listings (rows : list Air.Airing) : gset (Z * (Z * text)) := list_to_set (map (fun r => (Air.ChannelID r, slot_of r)) rows).
(** A row that is listed on the row shown of its channel too, with whether it is one *)
Definition mark_copy (shown : gmap Z Z) (listed : gset (Z * (Z * text))) (r : Air.Airing) : Air.Airing * bool :=
  match shown !! Air.ChannelID r with
  | Some to => if bool_decide ((to, slot_of r) ∈ listed) then (set_simulcast r to, true) else (r, false)
  | None => (r, false)
  end.

Record groups := mkGroups { group : gmap Z Z; atsc3 : gset Z }.
Definition group_twin (g : groups) (p : Z * list Z) : groups :=
  mkGroups (fold_left (fun m id => <[id := fst p]> m) (snd p) (<[fst p := fst p]> (group g))) ({[fst p]} ∪ atsc3 g).
Definition group_stand (g : groups) (p : Z * Z) : groups :=
  let m := match group g !! snd p with Some _ => group g | None => <[snd p := snd p]> (group g) end in
  mkGroups (<[fst p := default 0 (m !! snd p)]> m) ({[fst p]} ∪ atsc3 g).
Definition better (hidden : gset Z) (atsc3 : gset Z) (a b : Z) : bool :=
  let hid x := bool_decide (x ∈ hidden) in
  let three x := bool_decide (x ∈ atsc3) in
  if negb (Bool.eqb (hid a) (hid b)) then negb (hid a)
  else if negb (Bool.eqb (three a) (three b)) then three b else a <? b.
Definition key_of (g : gmap Z Z) (r : Air.Airing * bool) : option (Z * (Z * text)) :=
  if snd r then None else match g !! Air.ChannelID (fst r) with Some k => Some (k, slot_of (fst r)) | None => None end.
Definition best_step (g : groups) (hidden : gset Z) (best : gmap (Z * (Z * text)) Z) (r : Air.Airing * bool) : gmap (Z * (Z * text)) Z :=
  match key_of (group g) r with
  | None => best
  | Some k =>
      match best !! k with
      | Some cur => if better hidden (atsc3 g) (Air.ChannelID (fst r)) cur then <[k := Air.ChannelID (fst r)]> best else best
      | None => <[k := Air.ChannelID (fst r)]> best
      end
  end.
Definition mark_row (g : groups) (best : gmap (Z * (Z * text)) Z) (r : Air.Airing * bool) : Air.Airing :=
  match key_of (group g) r with
  | None => fst r
  | Some k => let b := default 0 (best !! k) in if b =? Air.ChannelID (fst r) then fst r else set_simulcast (fst r) b
  end.
Definition hidden_of (chs : list Channel) : gset Z := list_to_set (map ID (filter Hidden chs)).
Definition groups_of (chs : list Channel) : groups :=
  fold_left group_stand (walk Z (StandIns upper_rune digit_rune chs))
    (fold_left group_twin (walk (list Z) (Twins upper_rune digit_rune chs)) (mkGroups ∅ ∅)).
Definition RecordingAirings (rows : list Air.Airing) (chs : list Channel) : list Air.Airing :=
  let rows := map (mark_copy (shown_as chs) (listings rows)) rows in
  let g := groups_of chs in
  let best := fold_left (best_step g (hidden_of chs)) rows ∅ in
  map (mark_row g best) rows.

(** ** Listings that twins share *)

Definition moved_to (to : Z) (r : Air.Airing) : Air.Airing :=
  Air.mk 0 to (Air.Title r) (Air.Subtitle r) (Air.Description r) (Air.Category r) (Air.ProgramID r) (Air.New r)
    (Air.ImageURL r) (Air.ImageWidth r) (Air.ImageHeight r) (Air.Season r) (Air.Episode r) (Air.EpisodeLabel r) (Air.SeriesID r)
    (Air.Rating r) (Air.GameID r) (Air.GuideSource r) (Air.Start r) (Air.End_ r) (Air.Simulcast r) (Air.ManualPass r).
(** [n] is how many rows there were at first. *)
Definition copyRows (rows : list Air.Airing) (n : nat) (from to : Z) : list Air.Airing :=
  rows ++ map (moved_to to) (filter (fun r => Air.ChannelID r =? from) (take n rows)).
Definition copyArt (art : gmap Z text) (from to : Z) : gmap Z text :=
  let at_ id := default [] (art !! id) in
  if (bytes_equal (at_ to) [] && negb (bytes_equal (at_ from) []))%bool then <[to := at_ from]> art else art.
Definition have_of (rows : list Air.Airing) : gset Z := list_to_set (map Air.ChannelID rows).
Definition share_pair (have : gset Z) (n : nat) (s : list Air.Airing * gmap Z text) (p : Z * list Z) : list Air.Airing * gmap Z text :=
  let '(rows, art) := s in
  let '(c3, ones) := p in
  if bool_decide (c3 ∈ have) then
    if existsb (fun id => bool_decide (id ∈ have)) ones then s else (copyRows rows n c3 (hd 0 ones), copyArt art c3 (hd 0 ones))
  else match List.find (fun id => bool_decide (id ∈ have)) ones with
       | Some from => (copyRows rows n from c3, copyArt art from c3)
       | None => s
       end.
Definition ShareTwins (rows : list Air.Airing) (art : gmap Z text) (lineup : list Channel) : list Air.Airing * gmap Z text :=
  fold_left (share_pair (have_of rows) (length rows)) (walk (list Z) (Twins upper_rune digit_rune lineup)) (rows, art).
Definition share_group (have : gset Z) (n : nat) (s : list Air.Airing * gmap Z text) (ids : list Z) : list Air.Airing * gmap Z text :=
  match List.find (fun id => bool_decide (id ∈ have)) ids with
  | Some from =>
      fold_left (fun '(rows, art) to => if bool_decide (to ∈ have) then (rows, art) else (copyRows rows n from to, copyArt art from to)) ids s
  | None => s
  end.
Definition ShareSame (rows : list Air.Airing) (art : gmap Z text) (lineup : list Channel) : list Air.Airing * gmap Z text :=
  fold_left (share_group (have_of rows) (length rows)) (SameChannels upper_rune digit_rune lineup) (rows, art).
End pairs_use.

(** * Proofs *)

(** ** Pairs *)

Section pairs_proofs.
Context `{Unicode} (upper_rune : Z -> Z) (digit_rune : Z -> bool).
Notation ATSC3 := (ATSC3 upper_rune).
Notation Twins := (Twins upper_rune digit_rune).
Notation pairs := (pairs upper_rune digit_rune).
Notation mains_of := (mains_of upper_rune digit_rune).
Notation candidate := (candidate upper_rune).
Notation agree := (agree upper_rune).
Notation pair_step := (pair_step upper_rune digit_rune).

Lemma lowestMinor_in cands c : c ∈ lowestMinor cands -> c ∈ cands /\ Protected c = false.
Proof.
  unfold lowestMinor. destruct cands as [| c0 l]; [by intros ?%not_elem_of_nil |]. intros Hc. apply list_elem_of_filter in Hc as [Hp Hc]. split; [done |].
  apply Is_true_true, andb_true_iff in Hp as [_ Hp]. by apply negb_true_iff in Hp.
Qed.
Lemma pick_in c3 ones m c : c ∈ pick upper_rune c3 ones m -> c ∈ ones /\ Protected c = false /\ agree c3 c = true.
Proof.
  intros Hc. apply lowestMinor_in in Hc as [Hc Hp]. apply list_elem_of_filter in Hc as [Hm Hc]. apply Is_true_true, andb_true_iff in Hm as [_ Hm]. done.
Qed.
Lemma twinMains_in c3 ones c : c ∈ twinMains upper_rune digit_rune c3 ones -> c ∈ ones /\ Protected c = false /\ agree c3 c = true.
Proof.
  assert (c ∈ by_call upper_rune digit_rune c3 ones -> c ∈ ones /\ Protected c = false /\ agree c3 c = true) as H1
    by (unfold by_call; destruct (callKey _ _ _); [by intros ?%not_elem_of_nil | apply pick_in]).
  assert (c ∈ by_guide upper_rune c3 ones -> c ∈ ones /\ Protected c = false /\ agree c3 c = true) as H2
    by (unfold by_guide; destruct (TrimSpace _); [by intros ?%not_elem_of_nil | apply pick_in]).
  assert (c ∈ by_major upper_rune c3 ones -> c ∈ ones /\ Protected c = false /\ agree c3 c = true) as H3.
  { unfold by_major. destruct (_ <? _); [by intros ?%not_elem_of_nil |]. destruct (filter _ ones) as [| x l] eqn:E; [destruct (bytes_equal _ _); [by intros ?%not_elem_of_nil | apply pick_in] |].
    rewrite <- E. intros Hc. apply list_elem_of_filter in Hc as [Hp Hc]. apply Is_true_true in Hp. rewrite !andb_true_iff, negb_true_iff in Hp. naive_solver. }
  unfold twinMains. destruct (by_call _ _ _ _); [destruct (by_guide _ _ _); [apply H3 | apply H2] | apply H1].
Qed.

(** What a pair's 1.0 channels are *)
Lemma mains_in chs c3 id : id ∈ mains_of chs c3 -> exists c, c ∈ chs /\ ID c = id /\ from_source c = false /\ ATSC3 c = false /\ Protected c = false /\ agree c3 c = true.
Proof.
  unfold mains_of. intros Hid. apply list_elem_of_In, in_map_iff in Hid as (c & <- & Hc). apply list_elem_of_In in Hc. rewrite sort_by_perm in Hc.
  apply twinMains_in in Hc as (Hc & Hp & Ha). apply list_elem_of_filter in Hc as [Hs Hc]. apply Is_true_true, negb_true_iff, orb_false_iff in Hs as [Hs1 Hs2]. by exists c.
Qed.

Lemma pairs_fold chs e l out k ids : NoDup (map ID l) -> (forall c, c ∈ l -> out !! ID c = None) ->
  fold_left (pair_step chs e) l out !! k = Some ids <->
  out !! k = Some ids \/ (exists c3, c3 ∈ l /\ ID c3 = k /\ candidate e c3 = true /\ mains_of chs c3 = ids /\ ids <> []).
Proof.
  revert out. induction l as [| c l IH]; intros out Hnd Hout; cbn [fold_left].
  - split; [by left |]. intros [H' | (c3 & Hc & _)]; [done | by apply not_elem_of_nil in Hc].
  - cbn [map] in Hnd. apply NoDup_cons in Hnd as [Hni Hnd].
    assert (forall x, x ∈ l -> ID x <> ID c) as Hne by (intros x Hx E; apply Hni; rewrite <- E; apply list_elem_of_In, in_map, list_elem_of_In, Hx).
    rewrite IH; [| done |].
    + unfold pair_step. rewrite (Hout c) by (by left). cbn [default app]. destruct (candidate e c) eqn:Ec; cbn [negb].
      * destruct (mains_of chs c) as [| i0 l0] eqn:Em.
        -- split; [intros [? | (c3 & ? & ?)]; [by left | right; exists c3; split; [by right | done]] |]. intros [? | (c3 & Hc & Hid & Hcand & Hm & Hn)]; [by left | right]. apply elem_of_cons in Hc as [-> | Hc]; [congruence | by exists c3].
        -- split.
           ++ intros [Hk | (c3 & ? & ?)]; [| right; exists c3; split; [by right | done]]. destruct (decide (k = ID c)) as [-> | Hk'].
              ** rewrite lookup_insert_eq in Hk. injection Hk as <-. right. exists c. split; [by left | done].
              ** rewrite lookup_insert_ne in Hk by done. by left.
           ++ intros [Hk | (c3 & Hc & Hid & Hcand & Hm & Hn)].
              ** left. rewrite lookup_insert_ne; [done |]. intros E. rewrite <- E, (Hout c) in Hk by (by left). done.
              ** apply elem_of_cons in Hc as [-> | Hc]; [left; rewrite <- Hid, lookup_insert_eq; congruence | right; by exists c3].
      * split; [intros [? | (c3 & ? & ?)]; [by left | right; exists c3; split; [by right | done]] |]. intros [? | (c3 & Hc & Hid & Hcand & Hm & Hn)]; [by left | right]. apply elem_of_cons in Hc as [-> | Hc]; [congruence | by exists c3].
    + intros x Hx. unfold pair_step. destruct (negb _); [apply Hout; by right |]. destruct (mains_of chs c); [apply Hout; by right |]. rewrite lookup_insert_ne; [apply Hout; by right | by apply not_eq_sym, Hne].
Qed.
Lemma pairs_lookup chs e k ids : NoDup (map ID chs) ->
  pairs chs e !! k = Some ids <-> exists c3, c3 ∈ chs /\ ID c3 = k /\ candidate e c3 = true /\ mains_of chs c3 = ids /\ ids <> [].
Proof.
  intros Hnd. unfold pairs. rewrite pairs_fold; [| done | intros; apply lookup_empty]. rewrite lookup_empty. naive_solver.
Qed.
Lemma id_inj chs a b : NoDup (map ID chs) -> a ∈ chs -> b ∈ chs -> ID a = ID b -> a = b.
Proof.
  assert (forall (c : Channel) l, c ∈ l -> ID c ∈ map ID l) as Hin by (intros c l Hc; by apply list_elem_of_In, in_map, list_elem_of_In).
  induction chs as [| c l IH]; cbn [map]; intros Hnd Ha Hb E; [by apply not_elem_of_nil in Ha |]. apply NoDup_cons in Hnd as [Hni Hnd].
  apply elem_of_cons in Ha as [-> | Ha], Hb as [-> | Hb]; [done | | | by apply IH].
  - exfalso. apply Hni. rewrite E. by apply Hin.
  - exfalso. apply Hni. rewrite <- E. by apply Hin.
Qed.

#[local] Instance main_before_weak c3 : WeakOrder (main_before c3).
Proof.
  assert (forall a b, main_before c3 a b = then_by (true_first (fun c => bytes_equal (DeviceID c) (DeviceID c3))) (then_by (true_first Present) (by_number ID)) a b) as E.
  { intros a b. unfold main_before, then_by, true_first, by_number. by destruct (bytes_equal (DeviceID a) _), (bytes_equal (DeviceID b) _), (Present a), (Present b). }
  split; intros *; rewrite !E; [apply less_asym | apply less_neg_trans].
Qed.

(** A pair is one clear 3.0 channel of an antenna and, of the same station as far as their
    networks tell, its clear 1.0 channels, one at least. The first of these, whose
    listings it shares, is on the channel's own device when any of them is. *)
Theorem pairs_are_one_station chs k ids : NoDup (map ID chs) -> Twins chs !! k = Some ids ->
  exists c3, c3 ∈ chs /\ ID c3 = k /\ ATSC3 c3 = true /\ Protected c3 = false /\ from_source c3 = false /\
    (forall id, id ∈ ids -> exists c, c ∈ chs /\ ID c = id /\ from_source c = false /\ ATSC3 c = false /\ Protected c = false /\ agree c3 c = true) /\
    exists main rest, ids = map ID (main :: rest) /\
      forall c, c ∈ main :: rest -> DeviceID c = DeviceID c3 -> DeviceID main = DeviceID c3.
Proof.
  intros Hnd Hk. apply pairs_lookup in Hk as (c3 & Hc & Hid & Hcand & Hm & Hne); [| done]. unfold candidate in Hcand. rewrite !andb_true_iff, negb_true_iff, eqb_true_iff in Hcand.
  exists c3. split_and!; try naive_solver.
  - intros id Hin. rewrite <- Hm in Hin. by apply mains_in.
  - unfold mains_of in Hm. destruct (sort_by _ _) as [| main rest] eqn:E; [by subst |]. exists main, rest. split; [done |]. intros c Hc' Hd.
    pose proof (sort_by_head _ _ _ _ E) as [_ Hmin]. assert (c ∈ twinMains upper_rune digit_rune c3 (ones_of upper_rune chs)) as Hin by (rewrite <- sort_by_perm, E; done).
    specialize (Hmin c Hin). unfold main_before in Hmin. replace (bytes_equal (DeviceID c) (DeviceID c3)) with true in Hmin by (symmetry; by apply bool_decide_eq_true).
    destruct (bytes_equal (DeviceID main) (DeviceID c3)) eqn:Em; [by apply bool_decide_eq_true in Em | done].
Qed.
End pairs_proofs.

(** ** Broadcasts *)

Section broadcast_proofs.
Context `{Unicode} (upper_rune : Z -> Z) (digit_rune : Z -> bool).
Context (walk : forall A : Type, gmap Z A -> list (Z * A)).
Context (Hwalk : forall A (m : gmap Z A), walk A m ≡ₚ map_to_list m).
Context (chs : list Channel) (Hnd : NoDup (map ID chs)).
Lemma stand_in k one : StandIns upper_rune digit_rune chs !! k = Some one <-> exists ids, pairs upper_rune digit_rune chs true !! k = Some ids /\ head ids = Some one.
Proof. unfold StandIns. rewrite lookup_omap. destruct (_ !! k); cbn; naive_solver. Qed.
Notation Twins := (Twins upper_rune digit_rune chs).
Notation StandIns := (StandIns upper_rune digit_rune chs).
Notation the_groups := (groups_of upper_rune digit_rune walk chs).
Notation marked_rows := (RecordingAirings upper_rune digit_rune walk).

(** A row and the one shown for it, or the row shown itself *)
Definition on_row (a top : Z) : Prop := a = top \/ exists ch, ch ∈ chs /\ ID ch = a /\ SameAs ch = top /\ top <> 0.
(** Two channels of one station, by a pair, a stand-in or the row shown *)
Definition mates (a b : Z) : Prop :=
  (exists c3 ones, Twins !! c3 = Some ones /\ a ∈ c3 :: ones /\ b ∈ c3 :: ones) \/ StandIns !! a = Some b \/
  exists ch, ch ∈ chs /\ ID ch = a /\ SameAs ch = b /\ b <> 0.
Definition station : Z -> Z -> Prop := rtsc mates.

Lemma walk_in A (m : gmap Z A) k x : (k, x) ∈ walk A m <-> m !! k = Some x.
Proof. by rewrite Hwalk, elem_of_map_to_list. Qed.
(** Which ids are which channels' *)
Lemma key_channel e k ids : pairs upper_rune digit_rune chs e !! k = Some ids ->
  exists c, c ∈ chs /\ ID c = k /\ ATSC3 upper_rune c = true /\ Protected c = e /\ forall id, id ∈ ids -> exists d, d ∈ chs /\ ID d = id /\ ATSC3 upper_rune d = false.
Proof.
  intros Hk. apply pairs_lookup in Hk as (c & Hc & Hid & Hcand & Hm & _); [| done]. unfold candidate in Hcand. rewrite !andb_true_iff, negb_true_iff, eqb_true_iff in Hcand.
  destruct Hcand as [[_ Hp] Ha]. exists c. split_and!; try done. intros id Hin. rewrite <- Hm in Hin. apply mains_in in Hin as (d & H1 & H2 & _ & H3 & _). by exists d.
Qed.
Lemma key_not_main e1 e2 k1 ids1 k2 ids2 : pairs upper_rune digit_rune chs e1 !! k1 = Some ids1 -> pairs upper_rune digit_rune chs e2 !! k2 = Some ids2 -> k1 ∉ ids2.
Proof.
  intros H1 H2 Hin. apply key_channel in H1 as (c & Hc & Hid & Ha & _). apply key_channel in H2 as (_ & _ & _ & _ & _ & Hm). destruct (Hm k1 Hin) as (d & Hd & Hdid & Hda).
  rewrite (id_inj chs c d) in Ha; congruence.
Qed.
Lemma stand_not_twin k one c3 ones : StandIns !! k = Some one -> Twins !! c3 = Some ones -> k ∉ c3 :: ones.
Proof.
  intros Hs Ht Hin. apply stand_in in Hs as (ids & Hs & _). apply elem_of_cons in Hin as [-> | Hin]; [| exact (key_not_main true false k ids c3 ones Hs Ht Hin)].
  apply key_channel in Hs as (c & Hc & Hid & _ & Hp & _). apply key_channel in Ht as (d & Hd & Hdid & _ & Hq & _). rewrite (id_inj chs c d) in Hp; congruence.
Qed.
Lemma stand_not_stand k1 one1 k2 one2 : StandIns !! k1 = Some one1 -> StandIns !! k2 = Some one2 -> k1 <> one2.
Proof.
  intros H1 H2 ->. apply stand_in in H1 as (ids1 & H1 & _), H2 as (ids2 & H2 & Hh). eapply key_not_main; [exact H1 | exact H2 |]. destruct ids2; [done |]. injection Hh as ->. by left.
Qed.

(** Groups *)
Lemma group_ones c3 ones m x : fold_left (fun m id => <[id := c3]> m) ones m !! x = if decide (x ∈ ones) then Some c3 else (m : gmap Z Z) !! x.
Proof.
  revert m. induction ones as [| i l IH]; intros m; cbn [fold_left]; [by rewrite decide_False by apply not_elem_of_nil |]. rewrite IH.
  destruct (decide (x ∈ l)) as [Hx | Hx]; [by rewrite decide_True by (by right) |]. destruct (decide (x = i)) as [-> | Hi].
  - rewrite lookup_insert_eq. by rewrite decide_True by (by left).
  - rewrite lookup_insert_ne by done. rewrite decide_False; [done |]. intros [? | ?]%elem_of_cons; done.
Qed.
Lemma group_twin_lookup g p x : group (group_twin g p) !! x = if decide (x ∈ fst p :: snd p) then Some (fst p) else group g !! x.
Proof.
  unfold group_twin. cbn [group]. rewrite group_ones. destruct (decide (x ∈ snd p)) as [Hx | Hx]; [by rewrite decide_True by (by right) |].
  destruct (decide (x = fst p)) as [-> | Hi]; [rewrite lookup_insert_eq; by rewrite decide_True by (by left) |].
  rewrite lookup_insert_ne by done. rewrite decide_False; [done |]. intros [? | ?]%elem_of_cons; done.
Qed.
Lemma twin_fold ps : forall g x, (forall p, p ∈ ps -> x ∉ fst p :: snd p) -> group (fold_left group_twin ps g) !! x = group g !! x.
Proof.
  induction ps as [| p ps IH]; intros g x Hx; [done |]. cbn [fold_left]. rewrite IH by (intros q Hq; apply Hx; by right).
  rewrite group_twin_lookup, decide_False; [done |]. apply Hx. by left.
Qed.
Lemma twin_fold_in ps : forall g p x, p ∈ ps -> x ∈ fst p :: snd p -> (forall q, q ∈ ps -> x ∈ fst q :: snd q -> fst q = fst p) ->
  group (fold_left group_twin ps g) !! x = Some (fst p).
Proof.
  induction ps as [| q ps IH]; intros g p x Hp Hx Huniq; [by apply not_elem_of_nil in Hp |]. cbn [fold_left].
  destruct (decide (Exists (fun q => x ∈ fst q :: snd q) ps)) as [He | He].
  - apply Exists_exists in He as (p' & Hp' & Hx'). rewrite <- (Huniq p' (ltac:(by right)) Hx'). apply IH; [done | done |].
    intros r Hr Hxr. rewrite (Huniq p' (ltac:(by right)) Hx'). apply Huniq; [by right | done].
  - assert (forall r, r ∈ ps -> x ∉ fst r :: snd r) as Hno by (intros r Hr Hxr; apply He, Exists_exists; by exists r).
    rewrite twin_fold by done. apply elem_of_cons in Hp as [-> | Hp]; [by rewrite group_twin_lookup, decide_True | by destruct (Hno p Hp)].
Qed.
Lemma stand_keep ss : forall g x v, group g !! x = Some v -> (forall s, s ∈ ss -> fst s <> x) -> group (fold_left group_stand ss g) !! x = Some v.
Proof.
  induction ss as [| s ss IH]; intros g x v Hv Hs; [done |]. cbn [fold_left]. apply IH; [| intros t Ht; apply Hs; by right].
  unfold group_stand. cbn [group]. rewrite lookup_insert_ne by (apply Hs; by left). destruct (group g !! snd s) eqn:E; [done |].
  rewrite lookup_insert_ne; [done |]. congruence.
Qed.
Lemma stand_linked ss : forall g s, s ∈ ss -> NoDup (map fst ss) -> (forall t, t ∈ ss -> fst t <> snd s) ->
  exists v, group (fold_left group_stand ss g) !! fst s = Some v /\ group (fold_left group_stand ss g) !! snd s = Some v.
Proof.
  induction ss as [| t ss IH]; intros g s Hs Hk Hne; [by apply not_elem_of_nil in Hs |]. cbn [fold_left map] in *. apply NoDup_cons in Hk as [Hni Hk].
  apply elem_of_cons in Hs as [<- | Hs]; [| apply IH; [done | done | intros; apply Hne; by right]].
  assert (exists v, group (group_stand g s) !! fst s = Some v /\ group (group_stand g s) !! snd s = Some v) as (v & H1 & H2).
  { unfold group_stand. cbn [group]. rewrite lookup_insert_eq, lookup_insert_ne by (apply Hne; by left). destruct (group g !! snd s) as [v |] eqn:E; [rewrite E | rewrite lookup_insert_eq]; by eexists. }
  exists v. split; (apply stand_keep; [done |]); intros u Hu E; [apply Hni; rewrite <- E; by apply list_elem_of_In, in_map, list_elem_of_In | by apply (Hne u); [right |]].
Qed.

Context (Hdisjoint : forall c1 ones1 c2 ones2 id, Twins !! c1 = Some ones1 -> Twins !! c2 = Some ones2 -> id ∈ ones1 -> id ∈ ones2 -> c1 = c2).

Lemma stands_nodup : NoDup (map fst (walk Z StandIns)).
Proof. rewrite (Hwalk Z StandIns). apply (NoDup_fst_map_to_list StandIns). Qed.
(** All of a station are in one group. *)
Lemma group_pair c3 ones x : Twins !! c3 = Some ones -> x ∈ c3 :: ones -> group the_groups !! x = Some c3.
Proof.
  intros Ht Hx. unfold groups_of. apply stand_keep.
  - apply (twin_fold_in _ _ (c3, ones)); [by apply walk_in | done |]. intros [c2 ones2] Hq Hxq. cbn [fst snd] in *. apply walk_in in Hq.
    apply elem_of_cons in Hx, Hxq. destruct Hx as [-> | Hx], Hxq as [Hxq | Hxq]; [by symmetry | | |].
    + destruct (key_not_main false false c3 ones c2 ones2 Ht Hq Hxq).
    + subst. destruct (key_not_main false false c2 ones2 c3 ones Hq Ht Hx).
    + by eapply Hdisjoint.
  - intros [k one] Hs <-. apply walk_in in Hs. by eapply (stand_not_twin k one).
Qed.
Lemma group_stand_in k one : StandIns !! k = Some one -> exists v, group the_groups !! k = Some v /\ group the_groups !! one = Some v.
Proof.
  intros Hs. unfold groups_of. apply (stand_linked _ _ (k, one)); [by apply walk_in | apply stands_nodup |].
  intros [k2 one2] Hin. apply walk_in in Hin. cbn. by eapply stand_not_stand.
Qed.
(** And a group is of one station. *)
Lemma station_pair c3 ones x : Twins !! c3 = Some ones -> x ∈ c3 :: ones -> station x c3.
Proof. intros Ht Hx. apply rtc_once. left. left. exists c3, ones. split_and!; [done | done | by left]. Qed.
Lemma group_station x v : group the_groups !! x = Some v -> station x v.
Proof.
  unfold groups_of. 
  assert (forall ps g, (forall p, p ∈ ps -> Twins !! fst p = Some (snd p)) -> (forall y w, group g !! y = Some w -> station y w) ->
    forall y w, group (fold_left group_twin ps g) !! y = Some w -> station y w) as H1.
  { induction ps as [| p ps IH]; intros g Hps Hg y w; [apply Hg |]. cbn [fold_left]. apply IH; [intros; apply Hps; by right |].
    intros z u. rewrite group_twin_lookup. destruct (decide _) as [Hz |]; [| apply Hg]. intros [= <-]. eapply station_pair; [apply Hps; by left | done]. }
  assert (forall ss g, (forall s, s ∈ ss -> StandIns !! fst s = Some (snd s)) -> (forall y w, group g !! y = Some w -> station y w) ->
    forall y w, group (fold_left group_stand ss g) !! y = Some w -> station y w) as H2.
  { induction ss as [| s ss IH]; intros g Hss Hg y w; [apply Hg |]. cbn [fold_left]. apply IH; [intros; apply Hss; by right |].
    assert (station (fst s) (snd s)) as Hl by (apply rtc_once; left; right; left; apply Hss; by left).
    intros z u. unfold group_stand. cbn [group]. destruct (decide (z = fst s)) as [-> | Hz].
    - rewrite lookup_insert_eq. intros [= <-]. destruct (group g !! snd s) as [w' |] eqn:E; [rewrite E | rewrite lookup_insert_eq]; cbn [default]; [| done].
      etrans; [exact Hl | by apply Hg].
    - rewrite lookup_insert_ne by done. destruct (group g !! snd s) as [w' |] eqn:E; [apply Hg |]. destruct (decide (z = snd s)) as [-> | Hz2].
      + rewrite lookup_insert_eq. intros [= <-]. apply rtc_refl.
      + rewrite lookup_insert_ne by done. apply Hg. }
  apply H2; [intros [k one] Hs; by apply walk_in in Hs |]. apply H1; [intros [c ones] Hs; by apply walk_in in Hs |]. intros y w Hy. cbn [group] in Hy. by rewrite lookup_empty in Hy.
Qed.

(** The channel that records what is shown at a time *)
#[local] Instance better_weak h t : WeakOrder (better h t).
Proof.
  assert (forall a b, better h t a b = then_by (true_first (fun x => negb (bool_decide (x ∈ h)))) (then_by (true_first (fun x => negb (bool_decide (x ∈ t)))) (by_number (fun x => x))) a b) as E.
  { intros a b. unfold better, then_by, true_first, by_number.
    by destruct (bool_decide (a ∈ h)), (bool_decide (b ∈ h)), (bool_decide (a ∈ t)), (bool_decide (b ∈ t)). }
  split; intros *; rewrite !E; [apply less_asym | apply less_neg_trans].
Qed.
Definition chan (r : Air.Airing * bool) : Z := Air.ChannelID (fst r).
Definition best_ok (g : groups) (h : gset Z) (rows : list (Air.Airing * bool)) (best : gmap (Z * (Z * text)) Z) : Prop := forall k,
  match best !! k with
  | Some b => (exists r, r ∈ rows /\ key_of (group g) r = Some k /\ chan r = b) /\ (forall r, r ∈ rows -> key_of (group g) r = Some k -> better h (atsc3 g) (chan r) b = false)
  | None => forall r, r ∈ rows -> key_of (group g) r <> Some k
  end.
Lemma better_irrefl h t a : better h t a a = false.
Proof. destruct (better h t a a) eqn:E; [| done]. pose proof (less_asym _ _ E). congruence. Qed.
Lemma best_exact g h rows : best_ok g h rows (fold_left (best_step g h) rows ∅).
Proof.
  induction rows as [| r rows IH] using rev_ind; [intros k; cbn [fold_left]; rewrite lookup_empty; by intros r ?%not_elem_of_nil |].
  rewrite fold_left_app. cbn [fold_left]. set (best := fold_left _ rows ∅) in *. intros k. specialize (IH k). unfold best_step.
  assert (forall s, s ∈ rows ++ [r] <-> s ∈ rows \/ s = r) as Hin by (intros s; rewrite elem_of_app, list_elem_of_singleton; done).
  destruct (key_of (group g) r) as [k' |] eqn:Ek.
  2: { destruct (best !! k) as [b |].
       - destruct IH as [(s & Hs & Hk & Hb) Hall]. split; [exists s; split_and!; [apply Hin; by left | done | done] |]. intros u Hu Hku. apply Hin in Hu as [Hu | ->]; [by apply Hall | congruence].
       - intros u Hu Hku. apply Hin in Hu as [Hu | ->]; [by eapply IH | congruence]. }
  destruct (decide (k = k')) as [-> | Hk].
  - destruct (best !! k') as [b |] eqn:Eb.
    + destruct IH as [(s & Hs & Hk & Hb) Hall]. fold (chan r). destruct (better h (atsc3 g) (chan r) b) eqn:Ebt.
      * rewrite lookup_insert_eq. split; [exists r; split_and!; [apply Hin; by right | done | done] |]. intros u Hu Hku. apply Hin in Hu as [Hu | ->]; [| apply better_irrefl].
        eapply less_neg_trans; [by apply less_asym | by apply Hall].
      * rewrite Eb. split; [exists s; split_and!; [apply Hin; by left | done | done] |]. intros u Hu Hku. apply Hin in Hu as [Hu | ->]; [by apply Hall | done].
    + rewrite lookup_insert_eq. split; [exists r; split_and!; [apply Hin; by right | done | done] |]. intros u Hu Hku. apply Hin in Hu as [Hu | ->]; [by destruct (IH u Hu) | apply better_irrefl].
  - assert (forall m, (<[k' := Air.ChannelID (fst r)]> m : gmap (Z * (Z * text)) Z) !! k = m !! k) as Hm by (intros m; by rewrite lookup_insert_ne by congruence).
    replace (_ !! k) with (best !! k) by (destruct (best !! k') as [b |]; [destruct (better _ _ _ _) |]; by rewrite ?Hm).
    destruct (best !! k) as [b |].
    + destruct IH as [(s & Hs & Hks & Hb) Hall]. split; [exists s; split_and!; [apply Hin; by left | done | done] |]. intros u Hu Hku. apply Hin in Hu as [Hu | ->]; [by apply Hall | congruence].
    + intros u Hu Hku. apply Hin in Hu as [Hu | ->]; [by eapply IH | congruence].
Qed.

Lemma shown_as_in c to : shown_as chs !! c = Some to -> to <> 0 /\ exists ch, ch ∈ chs /\ ID ch = c /\ SameAs ch = to.
Proof.
  unfold shown_as. assert (forall l (m : gmap Z Z), (forall x y, m !! x = Some y -> y <> 0 /\ exists ch, ch ∈ chs /\ ID ch = x /\ SameAs ch = y) -> (forall ch, ch ∈ l -> ch ∈ chs) ->
    forall x y, fold_left (fun m ch => if SameAs ch =? 0 then m else <[ID ch := SameAs ch]> m) l m !! x = Some y -> y <> 0 /\ exists ch, ch ∈ chs /\ ID ch = x /\ SameAs ch = y) as H1.
  { induction l as [| ch l IH]; intros m Hm Hl; [done |]. cbn [fold_left]. apply IH; [| intros; apply Hl; by right]. destruct (Z.eqb_spec (SameAs ch) 0); [done |].
    intros x y. destruct (decide (x = ID ch)) as [-> | Hx]; [rewrite lookup_insert_eq; intros [= <-]; split; [done |]; exists ch; split_and!; [apply Hl; by left | done | done] |].
    rewrite lookup_insert_ne by done. apply Hm. }
  apply H1; [| done]. intros x y. by rewrite lookup_empty.
Qed.
Lemma shown_as_some ch : ch ∈ chs -> SameAs ch <> 0 -> shown_as chs !! ID ch = Some (SameAs ch).
Proof.
  intros Hch Hs. destruct (shown_as chs !! ID ch) as [y |] eqn:E.
  - apply shown_as_in in E as (_ & c & Hc & Hid & Hy). rewrite (id_inj chs c ch) in Hy by done. congruence.
  - exfalso. revert E. unfold shown_as. generalize (∅ : gmap Z Z). clear - Hch Hs. 
    induction chs as [| c l IH]; intros m; [by apply not_elem_of_nil in Hch |]. cbn [fold_left]. apply elem_of_cons in Hch as [<- | Hch]; [| by apply IH].
    destruct (Z.eqb_spec (SameAs ch) 0); [done |].
    assert (forall l (m : gmap Z Z) x, is_Some (m !! x) -> is_Some (fold_left (fun m ch => if SameAs ch =? 0 then m else <[ID ch := SameAs ch]> m) l m !! x)) as Hmono.
    { induction l0 as [| d l0 IH0]; intros m0 x Hm0; [done |]. cbn [fold_left]. apply IH0. destruct (_ =? 0); [done |]. destruct (decide (x = ID d)) as [-> | ?]; [by rewrite lookup_insert_eq; eexists | by rewrite lookup_insert_ne]. }
    intros E. assert (is_Some (fold_left (fun m ch => if SameAs ch =? 0 then m else <[ID ch := SameAs ch]> m) l (<[ID ch := SameAs ch]> m) !! ID ch)) as [? Hx] by (apply Hmono; rewrite lookup_insert_eq; by eexists). congruence.
Qed.

Context (Hshown : forall a b, a ∈ chs -> b ∈ chs -> SameAs a <> 0 -> ID b = SameAs a -> SameAs b = 0).
Context (rows : list Air.Airing) (Hrows : forall r, r ∈ rows -> Air.Simulcast r = 0 /\ Air.ManualPass r = 0 /\ Air.ChannelID r <> 0).
Notation listed := (listings rows).
Notation copied := (map (mark_copy (shown_as chs) listed) rows).
Notation best := (fold_left (best_step the_groups (hidden_of chs)) copied ∅).

Lemma listings_in c s : (c, s) ∈ listed <-> exists r, r ∈ rows /\ Air.ChannelID r = c /\ slot_of r = s.
Proof.
  unfold listings. rewrite elem_of_list_to_set, list_elem_of_In, in_map_iff. split.
  - intros (r & [= <- <-] & Hr). apply list_elem_of_In in Hr. by exists r.
  - intros (r & Hr & <- & <-). exists r. split; [done | by apply list_elem_of_In].
Qed.
(** A row after the copies of shown rows are marked *)
Lemma copied_in p : p ∈ copied -> exists r, r ∈ rows /\ chan p = Air.ChannelID r /\ slot_of (fst p) = slot_of r /\ Air.ManualPass (fst p) = 0 /\
  if snd p then exists to, shown_as chs !! Air.ChannelID r = Some to /\ (to, slot_of r) ∈ listed /\ Air.Simulcast (fst p) = to
  else fst p = r /\ forall to, shown_as chs !! Air.ChannelID r = Some to -> (to, slot_of r) ∉ listed.
Proof.
  intros Hp. apply list_elem_of_In, in_map_iff in Hp as (r & <- & Hr). apply list_elem_of_In in Hr. exists r. destruct (Hrows r Hr) as (_ & Hm & _). unfold mark_copy, chan.
  destruct (shown_as chs !! Air.ChannelID r) as [to |] eqn:E; [| by split_and!].
  destruct (bool_decide_reflect ((to, slot_of r) ∈ listed)) as [Hl | Hl]; cbn [fst snd]; split_and!; try done; [by exists to | by intros ? [= <-]].
Qed.
Lemma best_at k : match best !! k with
  | Some b => (exists p, p ∈ copied /\ key_of (group the_groups) p = Some k /\ chan p = b)
  | None => forall p, p ∈ copied -> key_of (group the_groups) p <> Some k
  end.
Proof. pose proof (best_exact the_groups (hidden_of chs) copied k) as Hb. destruct (best !! k); [by destruct Hb | done]. Qed.

(** A row of the result: what it is made of, and when it has no mark *)
Lemma marked_in o : o ∈ marked_rows rows chs -> exists p, p ∈ copied /\ Air.ChannelID o = chan p /\ slot_of o = slot_of (fst p) /\ Air.ManualPass o = 0 /\
  (Air.Simulcast o = 0 <-> snd p = false /\ forall k, key_of (group the_groups) p = Some k -> best !! k = Some (chan p)).
Proof.
  intros Ho. unfold RecordingAirings in Ho. apply list_elem_of_In, in_map_iff in Ho as (p & <- & Hp). apply list_elem_of_In in Hp. exists p. split; [done |].
  destruct (copied_in p Hp) as (r & Hr & Hc & Hs & Hmp & Hf). destruct (Hrows r Hr) as (H0 & _ & _). unfold mark_row. destruct (key_of (group the_groups) p) as [k |] eqn:Ek.
  - assert (snd p = false) as Ef by (unfold key_of in Ek; by destruct (snd p)). rewrite Ef in Hf. destruct Hf as [Hf _].
    pose proof (best_at k) as Hb. destruct (best !! k) as [b |] eqn:Eb; [| by destruct (Hb p Hp)]. cbn [from_option id].
    destruct (Z.eqb_spec b (Air.ChannelID (fst p))) as [-> | Hne]; split_and!; try done.
    + rewrite Hf. split; [intros _; split; [done |]; intros ? [= <-]; exact Eb | done].
    + destruct Hb as (q & Hq & _ & <-). destruct (copied_in q Hq) as (r' & Hr' & Hc' & _). destruct (Hrows r' Hr') as (_ & _ & Hn). cbn. rewrite Hc'. split; [done |].
      intros [_ Hk]. specialize (Hk k eq_refl). rewrite Eb in Hk. injection Hk as Hk. rewrite Hk in Hne. done.
  - split_and!; try done. destruct (snd p) eqn:Ef; [| destruct Hf as [-> _]; split; [intros _; split; [done | by intros ? ?] | done]].
    destruct Hf as (to & Hto & _ & ->). apply shown_as_in in Hto as [Hto _]. naive_solver.
Qed.
Lemma marked_of p : p ∈ copied -> snd p = false -> (forall k, key_of (group the_groups) p = Some k -> best !! k = Some (chan p)) -> fst p ∈ marked_rows rows chs.
Proof.
  intros Hp Hf Hk. unfold RecordingAirings. apply list_elem_of_In, in_map_iff. exists p. split; [| by apply list_elem_of_In]. unfold mark_row.
  destruct (key_of (group the_groups) p) as [k |]; [| done]. rewrite (Hk k eq_refl). cbn [from_option id]. by rewrite Z.eqb_refl.
Qed.

(** Two channels that show one broadcast at a time, for a pass: two of a pair, a
    stand-in and its clear twin, or rows of one channel, whose row shown lists it *)
Definition one_broadcast (slot : Z * text) (a b : Z) : Prop :=
  (exists c3 ones, Twins !! c3 = Some ones /\ a ∈ c3 :: ones /\ b ∈ c3 :: ones) \/ StandIns !! a = Some b \/
  exists top, on_row a top /\ on_row b top /\ exists r, r ∈ rows /\ Air.ChannelID r = top /\ slot_of r = slot.

(** Rows that show one broadcast are recorded on one of them. *)
Lemma recorded_once o1 o2 : o1 ∈ marked_rows rows chs -> o2 ∈ marked_rows rows chs -> one_broadcast (slot_of o1) (Air.ChannelID o1) (Air.ChannelID o2) -> slot_of o1 = slot_of o2 ->
  Air.Simulcast o1 = 0 -> Air.Simulcast o2 = 0 -> Air.ChannelID o1 = Air.ChannelID o2.
Proof.
  intros H1 H2 Hm Hs E1 E2. apply marked_in in H1 as (p1 & Hp1 & Hc1 & Hs1 & _ & Hz1), H2 as (p2 & Hp2 & Hc2 & Hs2 & _ & Hz2).
  apply Hz1 in E1 as [Hf1 Hk1]. apply Hz2 in E2 as [Hf2 Hk2].
  assert (forall v, group the_groups !! chan p1 = Some v -> group the_groups !! chan p2 = Some v -> chan p1 = chan p2) as Hgroup.
  { intros v G1 G2. assert (best !! (v, slot_of (fst p1)) = Some (chan p1)) as B1 by (apply Hk1; unfold key_of; unfold chan in G1; by rewrite Hf1, G1).
    assert (best !! (v, slot_of (fst p2)) = Some (chan p2)) as B2 by (apply Hk2; unfold key_of; unfold chan in G2; by rewrite Hf2, G2). congruence. }
  assert (forall p top, p ∈ copied -> snd p = false -> slot_of (fst p) = slot_of (fst p1) -> on_row (chan p) top -> (top, slot_of (fst p1)) ∈ listed -> chan p = top) as Htop.
  { intros p top Hp Hf Hsp [? | (ch & Hch & Hid & Hsame & Hne)] Hl; [done |]. exfalso. destruct (copied_in p Hp) as (r & Hr & Hcr & Hsr & _ & Hfr). rewrite Hf in Hfr.
    destruct Hfr as [_ Hfr]. apply (Hfr top); [rewrite <- Hcr, <- Hid, <- Hsame; apply shown_as_some; [done | by rewrite Hsame] |]. by rewrite <- Hsr, Hsp. }
  rewrite Hc1, Hc2, Hs1 in *. destruct Hm as [(c3 & ones & Ht & Hi1 & Hi2) | [Hst | (top & Ha & Hb & r & Hr & Hrc & Hrs)]].
  - apply (Hgroup c3); by eapply group_pair.
  - destruct (group_stand_in _ _ Hst) as (v & G1 & G2). by apply (Hgroup v).
  - assert ((top, slot_of (fst p1)) ∈ listed) as Hl by (apply listings_in; by exists r).
    rewrite (Htop p1 top), (Htop p2 top); try done. congruence.
Qed.
(** And no row is without one that is recorded, of its group and its station. *)
Lemma recorded_in_group p k : p ∈ copied -> key_of (group the_groups) p = Some k ->
  exists o, o ∈ rows /\ o ∈ marked_rows rows chs /\ slot_of o = slot_of (fst p) /\ group the_groups !! Air.ChannelID o = group the_groups !! chan p /\
    is_Some (group the_groups !! chan p).
Proof.
  intros Hp Ek. pose proof (best_at k) as Hb. destruct (best !! k) as [b |] eqn:Eb; [| by destruct (Hb p Hp)]. destruct Hb as (q & Hq & Hkq & Hcq).
  assert (snd q = false) as Hfq by (unfold key_of in Hkq; by destruct (snd q)).
  assert (fst q ∈ marked_rows rows chs) as Ho by (apply marked_of; [done | done |]; intros k' Hk'; rewrite Hkq in Hk'; injection Hk' as <-; by rewrite Eb, Hcq).
  exists (fst q). destruct (copied_in q Hq) as (r' & Hr' & _ & _ & _ & Hfr). rewrite Hfq in Hfr. destruct Hfr as [Hqr _]. split; [by rewrite Hqr |]. split; [done |].
  unfold key_of in Ek, Hkq. destruct (snd p); [done |]. rewrite Hfq in Hkq. fold (chan p) in Ek. fold (chan q) in Hkq |- *.
  destruct (group the_groups !! chan p) as [v |]; [| done]. destruct (group the_groups !! chan q) as [w |]; [| done].
  injection Ek as <-. injection Hkq as -> Hstart Htitle. split_and!; [unfold slot_of; by rewrite Hstart, Htitle | done | done].
Qed.
Lemma not_copied r : r ∈ rows -> shown_as chs !! Air.ChannelID r = None -> (r, false) ∈ copied.
Proof. intros Hr E. apply list_elem_of_In, in_map_iff. exists r. unfold mark_copy. rewrite E. split; [done | by apply list_elem_of_In]. Qed.
Lemma recorded_plain p : p ∈ copied -> snd p = false -> exists o, o ∈ rows /\ o ∈ marked_rows rows chs /\ slot_of o = slot_of (fst p) /\ station (chan p) (Air.ChannelID o).
Proof.
  intros Hp Hf. destruct (key_of (group the_groups) p) as [k |] eqn:Ek.
  - destruct (recorded_in_group p k Hp Ek) as (o & H1 & H2 & H3 & H4 & [v Hv]). exists o. split_and!; try done. rewrite Hv in H4. etrans; [by apply group_station | symmetry; by apply group_station].
  - exists (fst p). destruct (copied_in p Hp) as (r' & Hr' & _ & _ & _ & Hfr). rewrite Hf in Hfr. destruct Hfr as [Hfr _].
    split_and!; [by rewrite Hfr | apply marked_of; [done | done | by rewrite Ek] | done | apply rtc_refl].
Qed.
Lemma recorded_somewhere r : r ∈ rows -> exists o, o ∈ rows /\ o ∈ marked_rows rows chs /\ slot_of o = slot_of r /\ station (Air.ChannelID r) (Air.ChannelID o).
Proof.
  intros Hr. set (p := mark_copy (shown_as chs) listed r). assert (p ∈ copied) as Hp by (apply list_elem_of_In, in_map, list_elem_of_In, Hr).
  assert (chan p = Air.ChannelID r /\ slot_of (fst p) = slot_of r) as [Hcp Hsp] by (subst p; unfold mark_copy, chan; destruct (shown_as chs !! _); [case_bool_decide |]; done).
  destruct (snd p) eqn:Hf; [| destruct (recorded_plain p Hp Hf) as (o & H1 & H2 & H3 & H4); exists o; rewrite Hcp in H4; rewrite Hsp in H3; done].
  assert (exists to, shown_as chs !! Air.ChannelID r = Some to /\ (to, slot_of r) ∈ listed) as (to & Hto & Hl)
    by (subst p; unfold mark_copy in Hf; destruct (shown_as chs !! _) as [to |]; [| done]; case_bool_decide; [by exists to | done]).
  apply listings_in in Hl as (r2 & Hr2 & Hc2 & Hs2). apply shown_as_in in Hto as (Hne & ch & Hch & Hid & Hsame).
  assert (shown_as chs !! to = None) as Hnone.
  { destruct (shown_as chs !! to) as [z |] eqn:E; [| done]. apply shown_as_in in E as (Hz & d & Hd & Hdid & Hds). exfalso. apply Hz. rewrite <- Hds. apply (Hshown ch d); [done | done | by rewrite Hsame | by rewrite Hsame]. }
  destruct (recorded_plain (r2, false)) as (o & H1 & H2 & H3 & H4); [by apply not_copied; [| rewrite Hc2] | done |]. exists o. cbn [fst] in H3. split_and!; [done | done | by rewrite H3 |].
  eapply rtc_l; [left; right; right; exists ch; split_and!; [done | exact Hid | exact Hsame | done] |]. rewrite <- Hc2. exact H4.
Qed.

(** C26. A pass for any channel records a broadcast once. The listings are as the guide has them, with
    no marks and of no manual pass. Of two at a time, of one title, the pass takes those of one channel only, when the two channels are of one pair, or an
    encrypted 3.0 channel and the 1.0 one that stands in for it, or two tuners' rows
    of one channel and the row shown for it lists the broadcast too; in whatever
    order Go walks its maps, as long as no 1.0 channel is in two pairs and no row
    shown for another points at a third. And each listing has one of the listings,
    of its time and title and its station, that is left as it was, to be recorded. *)
Theorem passes_record_once `{Zone} pass : Pas.ChannelID pass = 0 -> Pas.Kind pass <> lit "manual" ->
  (forall o1 o2, o1 ∈ marked_rows rows chs -> o2 ∈ marked_rows rows chs -> one_broadcast (slot_of o1) (Air.ChannelID o1) (Air.ChannelID o2) -> slot_of o1 = slot_of o2 ->
    passMatches pass o1 = true -> passMatches pass o2 = true -> Air.ChannelID o1 = Air.ChannelID o2) /\
  (forall r, r ∈ rows -> exists o, o ∈ rows /\ o ∈ marked_rows rows chs /\ slot_of o = slot_of r /\ station (Air.ChannelID r) (Air.ChannelID o)).
Proof.
  intros Hany Hkind. split; [| apply recorded_somewhere]. intros o1 o2 H1 H2 Hm Hs M1 M2.
  assert (forall o, o ∈ marked_rows rows chs -> passMatches pass o = true -> Air.Simulcast o = 0) as Hfree.
  { intros o Ho Hmo. apply marked_in in Ho as (_ & _ & _ & _ & Hmp & _). unfold passMatches in Hmo.
    replace (bytes_equal (Pas.Kind pass) (lit "manual")) with false in Hmo by (symmetry; by apply bool_decide_eq_false). rewrite Hmp, Hany in Hmo. cbn in Hmo.
    by destruct (Z.eqb_spec (Air.Simulcast o) 0). }
  apply recorded_once; auto.
Qed.

(** C27. Where two tuners carry the 3.0 copy of a station, its 1.0 channel is in two pairs, and a
    broadcast is recorded twice when Go happens to walk one of them last: of any
    lineup with two pairs that have a 1.0 channel in common, and any unmarked listings of
    one broadcast on that channel and on the other pair's 3.0 channel (neither a
    row that another is shown for), two are left as they were, on two channels of
    that station, and a pass that takes them takes both. *)
Theorem two_tuners_record_twice `{Zone} c3 ones3 c4 ones4 one before r3 r1 :
  Twins !! c3 = Some ones3 -> Twins !! c4 = Some ones4 -> c3 <> c4 -> one ∈ ones3 -> one ∈ ones4 ->
  walk (list Z) Twins = before ++ [(c4, ones4)] ->
  r3 ∈ rows -> r1 ∈ rows -> Air.ChannelID r3 = c3 -> Air.ChannelID r1 = one -> slot_of r3 = slot_of r1 ->
  (forall ch, ch ∈ chs -> ID ch = c3 \/ ID ch = one -> SameAs ch = 0) ->
  exists o3 o1, o3 ∈ rows /\ o1 ∈ rows /\ o3 ∈ marked_rows rows chs /\ o1 ∈ marked_rows rows chs /\
    slot_of o3 = slot_of r1 /\ slot_of o1 = slot_of r1 /\ Air.ChannelID o3 <> Air.ChannelID o1 /\
    station one (Air.ChannelID o3) /\ station one (Air.ChannelID o1) /\
    forall pass, (forall r, r ∈ rows -> slot_of r = slot_of r1 -> passMatches pass r = true) -> passMatches pass o3 = true /\ passMatches pass o1 = true.
Proof.
  clear Hdisjoint. intros H3 H4 Hne Hi3 Hi4 Hw Hr3 Hr1 Hc3 Hc1 Hs Hsame.
  assert (forall x, x = c3 \/ x = one -> shown_as chs !! x = None) as Hnone.
  { intros x Hx. destruct (shown_as chs !! x) as [z |] eqn:E; [| done]. apply shown_as_in in E as (Hz & d & Hd & Hid & <-). exfalso. apply Hz, Hsame; [done | by rewrite Hid]. }
  assert (forall x v, group (fold_left group_twin (walk (list Z) Twins) (mkGroups ∅ ∅)) !! x = Some v -> (exists c ones, Twins !! c = Some ones /\ x ∈ c :: ones) ->
    group the_groups !! x = Some v) as Hstay.
  { intros x v Hx (c & ones & Ht & Hin). unfold groups_of. apply stand_keep; [done |]. intros [k o] Ho <-. apply walk_in in Ho. by eapply (stand_not_twin k o). }
  assert (group the_groups !! c3 = Some c3) as G3.
  { apply Hstay; [| exists c3, ones3; split; [done | by left]]. rewrite Hw, fold_left_app. cbn [fold_left]. rewrite group_twin_lookup. cbn [fst snd]. rewrite decide_False.
    - apply (twin_fold_in before _ (c3, ones3)); [| by left |].
      + assert ((c3, ones3) ∈ walk (list Z) Twins) as Hin by (by apply walk_in). rewrite Hw in Hin. apply elem_of_app in Hin as [? | [= ? ?]%list_elem_of_singleton]; [done | congruence].
      + intros [q ones] Hq Hx. cbn [fst snd] in *. assert (Twins !! q = Some ones) as Hqt by (apply walk_in; rewrite Hw; apply elem_of_app; by left).
        apply elem_of_cons in Hx as [-> | Hx]; [done |]. destruct (key_not_main false false c3 ones3 q ones H3 Hqt Hx).
    - intros [? | Hx]%elem_of_cons; [congruence |]. exact (key_not_main false false c3 ones3 c4 ones4 H3 H4 Hx). }
  assert (group the_groups !! one = Some c4) as G1.
  { apply Hstay; [| exists c4, ones4; split; [done | by right]]. rewrite Hw, fold_left_app. cbn [fold_left]. rewrite group_twin_lookup. cbn [fst snd]. by rewrite decide_True by (by right). }
  destruct (recorded_in_group (r3, false) (c3, slot_of r3)) as (o3 & A1 & A2 & A3 & A4 & _); [by apply not_copied; [| rewrite Hc3; apply Hnone; left] | unfold key_of; cbn [fst snd]; by rewrite Hc3, G3 |].
  destruct (recorded_in_group (r1, false) (c4, slot_of r1)) as (o1 & B1 & B2 & B3 & B4 & _); [by apply not_copied; [| rewrite Hc1; apply Hnone; right] | unfold key_of; cbn [fst snd]; by rewrite Hc1, G1 |].
  unfold chan in A4, B4. cbn [fst] in *. rewrite Hc3, G3 in A4. rewrite Hc1, G1 in B4.
  assert (station one c3) as Hone3 by (apply (station_pair c3 ones3); [done | by right]). assert (station one c4) as Hone4 by (apply (station_pair c4 ones4); [done | by right]).
  exists o3, o1. repeat (split; [first [done | congruence] |]).
  split_and!; [etrans; [exact Hone3 |] | etrans; [exact Hone4 |] | intros pass Hp; split; apply Hp; [done | congruence | done | done]]; symmetry; by apply group_station.
Qed.
End broadcast_proofs.

(** ** Rows of one channel *)

Section same_proofs.
Context `{Unicode} (upper_rune : Z -> Z) (digit_rune : Z -> bool).
Context (priority : text -> Z) (answering : text -> bool) (listed : Z -> bool).
Notation sameKey := (sameKey upper_rune digit_rune).
Notation shown_first := (shows_first priority answering listed).
Notation marked_group := (mark_group priority answering listed).

(** The groups of the rows looked at so far: their keys, each once, and under each the
    rows that have it *)
Record grouped (chs : list Channel) (n : nat) (gs : list (text * list nat)) : Prop := {
  g_keys : NoDup (map fst gs);
  g_rows : forall k l, (k, l) ∈ gs -> k <> [] /\ NoDup l /\ forall i, i ∈ l <-> (i < n)%nat /\ exists c, chs !! i = Some c /\ sameKey c = k;
  g_all : forall i c, (i < n)%nat -> chs !! i = Some c -> sameKey c <> [] -> sameKey c ∈ map fst gs;
}.
Lemma add_to_group_keys gs key i : map fst (add_to_group gs key i) = if bool_decide (key ∈ map fst gs) then map fst gs else map fst gs ++ [key].
Proof.
  induction gs as [| [k l] gs IH]; cbn [add_to_group map fst]; [done |]. unfold bytes_equal. destruct (bool_decide_reflect (k = key)) as [-> | Hk]; cbn [map fst].
  - rewrite bool_decide_true by (by left). done.
  - rewrite IH. destruct (bool_decide_reflect (key ∈ map fst gs)) as [Hi | Hi]; [rewrite bool_decide_true by (by right); done |].
    rewrite bool_decide_false; [done |]. intros [? | ?]%elem_of_cons; [congruence | done].
Qed.
Lemma add_to_group_in gs key i k idx : NoDup (map fst gs) -> (k, idx) ∈ add_to_group gs key i ->
  (k <> key /\ (k, idx) ∈ gs) \/ (k = key /\ exists l, idx = l ++ [i] /\ ((k, l) ∈ gs \/ (l = [] /\ key ∉ map fst gs))).
Proof.
  induction gs as [| [k' l'] gs IH]; cbn [add_to_group map fst].
  - intros _ Hin. apply list_elem_of_singleton in Hin as [= -> ->]. right. split; [done |]. exists []. split; [done |]. right. split; [done | by intros ?%not_elem_of_nil].
  - intros [Hni Hnd']%NoDup_cons. assert (forall x l, (x, l) ∈ gs -> x ∈ map fst gs) as Hfst by (intros x l Hx; apply list_elem_of_In; apply (in_map fst gs (x, l)), list_elem_of_In, Hx).
    unfold bytes_equal. destruct (bool_decide_reflect (k' = key)) as [-> | Hk]; intros Hin; apply elem_of_cons in Hin as [E | Hin].
    + injection E as -> ->. right. split; [done |]. exists l'. split; [done | left; by left].
    + left. split; [intros ->; by apply Hni, (Hfst _ idx) | by right].
    + injection E as -> ->. left. split; [done | by left].
    + destruct (IH Hnd' Hin) as [[H1 H2] | (-> & l & -> & [H1 | [-> H1]])].
      * left. split; [done | by right].
      * right. split; [done |]. exists l. split; [done | left; by right].
      * right. split; [done |]. exists []. split; [done |]. right. split; [done |]. intros [? | ?]%elem_of_cons; [congruence | done].
Qed.
Lemma grouped_step chs n gs c : grouped chs n gs -> chs !! n = Some c ->
  grouped chs (S n) (match sameKey c with [] => gs | key => add_to_group gs key n end).
Proof.
  intros [Hk Hl Ha] Hc. destruct (sameKey c) as [| x key'] eqn:E.
  - split; [done | |].
    + intros k l Hin. destruct (Hl k l Hin) as (Hne & Hnd' & Hi). split_and!; [done | done |]. intros i. rewrite Hi. split; [intros [? ?]; split; [lia | done] |].
      intros [Hlt (d & Hd & Hdk)]. split; [| by exists d]. destruct (decide (i = n)) as [-> |]; [congruence | lia].
    + intros i d Hi Hd Hne. destruct (decide (i = n)) as [-> |]; [congruence | by apply (Ha i d); [lia | |]].
  - rewrite <- E in *. set (key := sameKey c) in *. assert (key <> []) as Hkey by (by rewrite E). split.
    + rewrite add_to_group_keys. destruct (bool_decide_reflect (key ∈ map fst gs)) as [Hi | Hi]; [done |]. apply NoDup_app. split_and!; [done | | apply NoDup_singleton].
      intros y Hy ->%list_elem_of_singleton. done.
    + intros k idx Hin. apply add_to_group_in in Hin as [[Hne Hin] | (-> & l & -> & Hin)]; [| | done].
      * destruct (Hl k idx Hin) as (H1 & H2 & Hi). split_and!; [done | done |]. intros i. rewrite Hi. split; [intros [? ?]; split; [lia | done] |].
        intros [Hlt (d & Hd & Hdk)]. split; [| by exists d]. destruct (decide (i = n)) as [-> |]; [subst key; congruence | lia].
      * assert (NoDup l /\ forall i, i ∈ l <-> (i < n)%nat /\ exists d, chs !! i = Some d /\ sameKey d = key) as [Hnd' Hall].
        { destruct Hin as [Hin | [-> Hni]]; [by destruct (Hl _ _ Hin) as (_ & ? & ?) |]. split; [constructor |]. intros i. split; [by intros ?%not_elem_of_nil |].
          intros [Hlt (d & Hd & Hdk)]. exfalso. apply Hni. rewrite <- Hdk. apply (Ha i d); [done | done | by rewrite Hdk]. }
        split_and!; [done | |].
        -- apply NoDup_app. split_and!; [done | | apply NoDup_singleton]. intros y Hy ->%list_elem_of_singleton. apply Hall in Hy as [? _]. lia.
        -- intros i. rewrite elem_of_app, list_elem_of_singleton, Hall. split; [intros [[? ?] | ->]; [split; [lia | done] | split; [lia | by exists c]] |].
           intros [Hlt (d & Hd & Hdk)]. destruct (decide (i = n)) as [-> |]; [by right | left; split; [lia | by exists d]].
    + intros i d Hi Hd Hne. rewrite add_to_group_keys. destruct (decide (i = n)) as [-> | Hin].
      * assert (d = c) as -> by congruence. fold key. destruct (bool_decide_reflect (key ∈ map fst gs)); [done | apply elem_of_app; right; by left].
      * pose proof (Ha i d ltac:(lia) Hd Hne). destruct (bool_decide _); [done | apply elem_of_app; by left].
Qed.
Lemma group_rows_ok chs : forall l n gs, drop n chs = l -> grouped chs n gs -> grouped chs (length chs) (group_rows upper_rune digit_rune l n gs) \/ (length chs < n)%nat.
Proof.
  induction l as [| c l IH]; intros n gs Hd Hg; cbn [group_rows].
  - apply (f_equal length) in Hd. rewrite length_drop in Hd. cbn in Hd. destruct (decide (n = length chs)) as [<- |]; [by left | right; lia].
  - assert (chs !! n = Some c) as Hc by (rewrite <- (Nat.add_0_r n), <- lookup_drop, Hd; done). destruct (IH (S n) (match sameKey c with [] => gs | key => add_to_group gs key n end)) as [H1 | H1].
    + by rewrite <- (Nat.add_1_r n), <- drop_drop, Hd.
    + by apply grouped_step.
    + left. exact H1.
    + apply lookup_lt_Some in Hc. lia.
Qed.
Lemma all_grouped chs : grouped chs (length chs) (group_rows upper_rune digit_rune chs 0 []).
Proof.
  destruct (group_rows_ok chs chs 0 []) as [? | ?]; [done | | done | lia]. split; [constructor | by intros k l ?%not_elem_of_nil | intros; lia].
Qed.

Lemma then_true_first {A} (f : A -> bool) less (a b : A) : then_by (true_first f) less a b = if negb (Bool.eqb (f a) (f b)) then f a else less a b.
Proof. unfold then_by, true_first. by destruct (f a), (f b). Qed.
Lemma then_by_number {A} (f : A -> Z) less (a b : A) : then_by (by_number f) less a b = if negb (f a =? f b) then f a <? f b else less a b.
Proof. unfold then_by, by_number. destruct (Z.ltb_spec (f a) (f b)), (Z.ltb_spec (f b) (f a)), (Z.eqb_spec (f a) (f b)); try done; lia. Qed.
Lemma then_by_text {A} (f : A -> text) less (a b : A) : then_by (by_text f) less a b = if negb (bytes_equal (f a) (f b)) then text_ltb (f a) (f b) else less a b.
Proof.
  unfold then_by, by_text, bytes_equal. destruct (bool_decide_reflect (f a = f b)) as [E | E]; cbn [negb]; [by rewrite E, text_ltb_irrefl |].
  destruct (text_ltb_total (f a) (f b)) as [H1 | [H1 | H1]]; [by rewrite H1 | done |]. rewrite H1. by destruct (text_ltb (f a) (f b)).
Qed.
#[local] Instance shows_first_weak : WeakOrder shown_first.
Proof.
  assert (forall a b, shown_first a b = then_by (true_first on_guide) (then_by (true_first (fun c => answering (DeviceID c))) (then_by (by_number (fun c => priority (DeviceID c)))
    (then_by (true_first (fun c => listed (ID c))) (then_by (by_text DeviceID) (by_number ID))))) a b) as E.
  { intros a b. by rewrite then_true_first, then_true_first, then_by_number, then_true_first, then_by_text. }
  split; intros *; rewrite !E; [apply less_asym | apply less_neg_trans].
Qed.
#[local] Instance row_before_weak chs : WeakOrder (row_before priority answering listed chs).
Proof. split; intros *; unfold row_before; [apply less_asym | apply less_neg_trans]. Qed.

(** A name or number that a viewer set on a row, where it is not the guide's: that of the
    row shown stays, and else it is one set on another row, if any is. *)
Definition kept_set (get guide : Channel -> text) (cur : list Channel) (shown : Channel) (rest : list nat) (v : text) : Prop :=
  (get shown <> guide shown -> v = get shown) /\
  (v = get shown /\ (get shown = guide shown -> forall i c, i ∈ rest -> cur !! i = Some c -> get c = guide c) \/
   get shown = guide shown /\ exists i c, i ∈ rest /\ cur !! i = Some c /\ get c <> guide c /\ v = get c).
Definition take_set (own own_guide other other_guide : text) : text :=
  if (bytes_equal own own_guide && negb (bytes_equal other other_guide))%bool then other else own.
Lemma kept_set_cons get guide cur cur' shown shown' other j rest v : cur !! j = Some other -> (forall i, i ∈ rest -> cur' !! i = cur !! i) ->
  guide shown' = guide shown -> get shown' = take_set (get shown) (guide shown) (get other) (guide other) ->
  kept_set get guide cur' shown' rest v -> kept_set get guide cur shown (j :: rest) v.
Proof.
  intros Hj Hc Hg Hs [H1 H2]. unfold take_set, bytes_equal in Hs. unfold kept_set in *. rewrite Hg in *.
  assert (forall i c, i ∈ j :: rest -> cur !! i = Some c -> i ∈ rest /\ cur' !! i = Some c \/ c = other) as Hin.
  { intros i c Hi Hic. apply elem_of_cons in Hi as [-> | Hi]; [right; congruence | left; split; [done | by rewrite Hc]]. }
  assert (forall i c, i ∈ rest -> cur' !! i = Some c -> i ∈ j :: rest /\ cur !! i = Some c) as Hin' by (intros i c Hi Hic; split; [by right | by rewrite <- Hc]).
  destruct (bool_decide_reflect (get shown = guide shown)) as [E1 | E1], (bool_decide_reflect (get other = guide other)) as [E2 | E2]; cbn [andb negb] in Hs; rewrite Hs in *.
  - split; [done |]. destruct H2 as [[-> H2] | [_ (i & c & Hi & Hic & Hne & ->)]]; [left | right].
    + split; [done |]. intros _ i c Hi Hic. destruct (Hin i c Hi Hic) as [[? ?] | ->]; [by eapply H2 | done].
    + split; [done |]. exists i, c. destruct (Hin' i c Hi Hic). done.
  - split; [done |]. right. split; [done |]. destruct H2 as [[-> _] | [_ (i & c & Hi & Hic & Hne & ->)]].
    + exists j, other. split_and!; [by left | done | done | done].
    + exists i, c. destruct (Hin' i c Hi Hic). done.
  - split; [done |]. destruct H2 as [[-> _] | [? _]]; [by left | done].
  - split; [done |]. destruct H2 as [[-> _] | [? _]]; [by left | done].
Qed.
(** One row after another merged into the row shown *)
Lemma merge_fold rest : forall cur s shown, s ∉ rest -> NoDup rest -> cur !! s = Some shown -> (forall i, i ∈ rest -> is_Some (cur !! i)) ->
  let r := fold_left (merge_one s) rest cur in
  (exists number name, r !! s = Some (set_shown shown (Favorite shown || existsb (fun i => Favorite (cur !!! i)) rest) number name) /\
    kept_set DisplayNumber GuideNumber cur shown rest number /\ kept_set DisplayName GuideName cur shown rest name) /\
  (forall i c, i ∈ rest -> cur !! i = Some c -> r !! i = Some (set_same c (ID shown))) /\
  (forall i, i <> s -> i ∉ rest -> r !! i = cur !! i).
Proof.
  induction rest as [| j rest IH]; intros cur s shown Hs Hnd Hshown Hr; cbn zeta; cbn [fold_left existsb].
  - split_and!; [| by intros i c ?%not_elem_of_nil | done]. exists (DisplayNumber shown), (DisplayName shown). rewrite Hshown, orb_false_r.
    split_and!; [by destruct shown | |]; (split; [done | left; split; [done | by intros _ i c ?%not_elem_of_nil]]).
  - apply not_elem_of_cons in Hs as [Hsj Hs]. apply NoDup_cons in Hnd as [Hj Hnd]. destruct (Hr j) as [other Hother]; [by left |].
    set (shown' := set_shown shown (Favorite shown || Favorite other) (take_set (DisplayNumber shown) (GuideNumber shown) (DisplayNumber other) (GuideNumber other))
      (take_set (DisplayName shown) (GuideName shown) (DisplayName other) (GuideName other))).
    set (cur' := <[s := shown']> (<[j := set_same other (ID shown)]> cur)). assert (merge_one s cur j = cur') as -> by (unfold merge_one; by rewrite Hshown, Hother).
    assert (s < length cur)%nat as Hls by (by eapply lookup_lt_Some). assert (j < length cur)%nat as Hlj by (by eapply lookup_lt_Some).
    assert (cur' !! s = Some shown') as Hs' by (apply list_lookup_insert_eq; by rewrite length_insert).
    assert (forall i, i <> s -> i <> j -> cur' !! i = cur !! i) as Hkeep by (intros i H1 H2; unfold cur'; by rewrite !list_lookup_insert_ne by done).
    assert (cur' !! j = Some (set_same other (ID shown))) as Hj' by (unfold cur'; rewrite list_lookup_insert_ne by done; by apply list_lookup_insert_eq).
    assert (forall i, i ∈ rest -> cur' !! i = cur !! i) as Hrest by (intros i Hi; apply Hkeep; intros ->; done).
    destruct (IH cur' s shown' Hs Hnd Hs') as ((num & nam & H1 & Hnum & Hnam) & H2 & H3); [intros i Hi; rewrite Hrest by done; apply Hr; by right |]. cbn zeta in *.
    split_and!.
    + exists num, nam. split_and!; [| by eapply (kept_set_cons _ _ cur cur' shown shown' other) | by eapply (kept_set_cons _ _ cur cur' shown shown' other)]. rewrite H1. f_equal. unfold shown' at 1 2. cbn [Favorite set_shown].
      assert (existsb (fun i => Favorite (cur' !!! i)) rest = existsb (fun i => Favorite (cur !!! i)) rest) as ->.
      { clear - Hrest. induction rest as [| i l IHl]; [done |]. cbn [existsb]. rewrite IHl by (intros; apply Hrest; by right). by rewrite !list_lookup_total_alt, Hrest by (by left). }
      rewrite (list_lookup_total_correct _ _ _ Hother). rewrite orb_assoc. done.
    + intros i c Hi Hc. apply elem_of_cons in Hi as [-> | Hi].
      * rewrite H3 by done. rewrite Hj'. congruence.
      * rewrite (H2 i c Hi); [done |]. by rewrite Hrest.
    + intros i H4 H5. apply not_elem_of_cons in H5 as [H5 H6]. rewrite H3 by done. by apply Hkeep.
Qed.

(** The order rows of one channel are shown in *)
Definition first_by (better : Channel -> Prop) (next : Prop) (x y : Channel) : Prop := better x /\ ~ better y \/ (better x <-> better y) /\ next.
Definition comes_before (x y : Channel) : Prop :=
  first_by (fun c => Enabled c = true /\ Hidden c = false)
    (first_by (fun c => answering (DeviceID c) = true)
      (priority (DeviceID x) < priority (DeviceID y) \/ priority (DeviceID x) = priority (DeviceID y) /\
        first_by (fun c => listed (ID c) = true)
          (text_ltb (DeviceID x) (DeviceID y) = true \/ DeviceID x = DeviceID y /\ ID x < ID y) x y) x y) x y.
Lemma first_by_bool (P : Channel -> Prop) (f : Channel -> bool) Q q x y : (forall c, P c <-> f c = true) -> (Q <-> q = true) ->
  first_by P Q x y <-> (if negb (Bool.eqb (f x) (f y)) then f x else q) = true.
Proof. intros HP HQ. unfold first_by. rewrite !HP, HQ. destruct (f x), (f y); cbn; intuition congruence. Qed.
Lemma comes_before_iff x y : comes_before x y <-> shown_first x y = true.
Proof.
  unfold comes_before, shows_first. apply first_by_bool; [intros c; unfold on_guide; by rewrite andb_true_iff, negb_true_iff |].
  apply (first_by_bool _ (fun c => answering (DeviceID c))); [done |].
  assert (first_by (fun c => listed (ID c) = true) (text_ltb (DeviceID x) (DeviceID y) = true \/ DeviceID x = DeviceID y /\ ID x < ID y) x y <->
    (if negb (Bool.eqb (listed (ID x)) (listed (ID y))) then listed (ID x) else if negb (bytes_equal (DeviceID x) (DeviceID y)) then text_ltb (DeviceID x) (DeviceID y) else ID x <? ID y) = true) as Hl.
  { apply (first_by_bool _ (fun c => listed (ID c))); [done |]. unfold bytes_equal. destruct (bool_decide_reflect (DeviceID x = DeviceID y)) as [E | E]; cbn [negb].
    - rewrite E, text_ltb_irrefl, Z.ltb_lt. intuition congruence.
    - intuition congruence. }
  rewrite Hl. destruct (Z.eqb_spec (priority (DeviceID x)) (priority (DeviceID y))) as [E | E]; cbn [negb]; [| rewrite Z.ltb_lt; intuition lia].
  rewrite E. intuition lia.
Qed.

(** What becomes of the rows of one channel: the first of them is shown, with their
    favorite and a name and a number set on any, and the others point at it. *)
Definition one_shown (chs out : list Channel) (idx : list nat) : Prop :=
  exists s shown number name, s ∈ idx /\ chs !! s = Some shown /\
    out !! s = Some (set_shown shown (existsb (fun i => Favorite (chs !!! i)) idx) number name) /\
    kept_set DisplayNumber GuideNumber chs shown idx number /\ kept_set DisplayName GuideName chs shown idx name /\
    forall i c, i ∈ idx -> i <> s -> chs !! i = Some c -> out !! i = Some (set_same c (ID shown)) /\ ~ comes_before c shown.
Lemma kept_set_all get guide cur shown s rest idx v : cur !! s = Some shown -> idx ≡ₚ s :: rest -> kept_set get guide cur shown rest v -> kept_set get guide cur shown idx v.
Proof.
  intros Hs Hp [H1 H2]. split; [done |]. destruct H2 as [[-> H2] | [E (i & c & Hi & H2)]]; [left; split; [done |] | right; split; [done |]].
  - intros E i c Hi Hc. rewrite Hp in Hi. apply elem_of_cons in Hi as [-> | Hi]; [congruence | by eapply H2].
  - exists i, c. split; [| done]. rewrite Hp. by right.
Qed.
Lemma mark_group_ok cur idx : idx <> [] -> NoDup idx -> (forall i, i ∈ idx -> is_Some (cur !! i)) ->
  one_shown cur (marked_group cur idx) idx /\ forall i, i ∉ idx -> marked_group cur idx !! i = cur !! i.
Proof.
  intros Hne Hnd Hin. unfold mark_group. destruct (sort_by (row_before priority answering listed cur) idx) as [| s rest] eqn:E.
  { exfalso. apply Hne. assert (idx ≡ₚ []) as Hp by (by rewrite <- E, sort_by_perm). by apply Permutation_nil_r in Hp. }
  assert (idx ≡ₚ s :: rest) as Hp by (by rewrite <- E, sort_by_perm). pose proof (sort_by_head _ _ _ _ E) as [Hs Hmin].
  rewrite Hp in Hnd. apply NoDup_cons in Hnd as [Hni Hnd]. destruct (Hin s Hs) as [shown Hshown].
  assert (forall i, i ∈ rest -> is_Some (cur !! i)) as Hrest by (intros i Hi; apply Hin; rewrite Hp; by right).
  destruct (merge_fold rest cur s shown Hni Hnd Hshown Hrest) as ((num & nam & H1 & Hnum & Hnam) & H2 & H3). cbn zeta in *. split.
  - exists s, shown, num, nam. split_and!; [done | done | | by eapply kept_set_all | by eapply kept_set_all |].
    + rewrite H1. do 2 f_equal. assert (existsb (fun i => Favorite (cur !!! i)) idx = existsb (fun i => Favorite (cur !!! i)) (s :: rest)) as ->.
      { apply eq_true_iff_eq. rewrite !existsb_exists. setoid_rewrite <- list_elem_of_In. by setoid_rewrite Hp. }
      cbn [existsb]. by rewrite (list_lookup_total_correct _ _ _ Hshown).
    + intros i c Hi Hne' Hc. rewrite Hp in Hi. apply elem_of_cons in Hi as [-> | Hi]; [done |]. split; [by apply H2 |].
      assert (i ∈ idx) as Hi' by (rewrite Hp; by right). specialize (Hmin i Hi'). unfold row_before in Hmin.
      rewrite (list_lookup_total_correct _ _ _ Hshown), (list_lookup_total_correct _ _ _ Hc) in Hmin. rewrite comes_before_iff. congruence.
  - intros i Hi. rewrite Hp in Hi. apply not_elem_of_cons in Hi as [Hi1 Hi2]. by apply H3.
Qed.
Lemma kept_set_ext get guide a b shown idx v : (forall i, i ∈ idx -> a !! i = b !! i) -> kept_set get guide a shown idx v -> kept_set get guide b shown idx v.
Proof.
  intros Hab [H1 H2]. split; [done |]. destruct H2 as [[-> H2] | [E (i & c & Hi & Hic & H2)]]; [left; split; [done |] | right; split; [done |]].
  - intros E i c Hi Hc. apply (H2 E i); [done | by rewrite Hab].
  - exists i, c. split; [done |]. split; [by rewrite <- Hab | done].
Qed.
Lemma one_shown_ext a b out out' idx : (forall i, i ∈ idx -> a !! i = b !! i) -> (forall i, i ∈ idx -> out !! i = out' !! i) -> one_shown a out idx -> one_shown b out' idx.
Proof.
  intros Hab Ho (s & shown & num & nam & Hs & Hsh & Hout & Hnum & Hnam & Hr). exists s, shown, num, nam.
  split_and!; [done | by rewrite <- Hab | | by eapply kept_set_ext | by eapply kept_set_ext |].
  - rewrite <- Ho by done. rewrite Hout. do 2 f_equal. clear - Hab. induction idx as [| i l IH]; [done |]. cbn [existsb].
    rewrite IH by (intros; apply Hab; by right). by rewrite !list_lookup_total_alt, Hab by (by left).
  - intros i c Hi Hne Hc. rewrite <- Hab in Hc by done. rewrite <- Ho by done. by apply Hr.
Qed.

(** Several groups, of rows of their own *)
Lemma marked_groups (gs : list (list nat)) : forall chs cur, NoDup (concat gs) -> (forall i, i ∈ concat gs -> is_Some (chs !! i) /\ cur !! i = chs !! i) -> Forall (fun l => l <> []) gs ->
  let out := fold_left marked_group gs cur in
  (forall i, i ∉ concat gs -> out !! i = cur !! i) /\ forall l, l ∈ gs -> one_shown chs out l.
Proof.
  induction gs as [| l gs IH]; intros chs cur Hnd Hin Hne; cbn zeta; cbn [fold_left concat] in *; [split; [done | by intros l ?%not_elem_of_nil] |].
  apply NoDup_app in Hnd as (Hnd1 & Hdis & Hnd2). apply Forall_cons in Hne as [Hl Hne].
  destruct (mark_group_ok cur l Hl Hnd1) as [Hone Hkeep]; [intros i Hi; destruct (Hin i) as [? ->]; [apply elem_of_app; by left | done] |].
  destruct (IH chs (marked_group cur l) Hnd2) as [Hk Hg]; [| done |].
  { intros i Hi. destruct (Hin i) as [? ?]; [apply elem_of_app; by right |]. split; [done |]. rewrite Hkeep; [done |]. intros Hil. by apply (Hdis i). }
  cbn zeta in *. split.
  - intros i Hi. rewrite Hk, Hkeep; [done | |]; intros ?; apply Hi, elem_of_app; auto.
  - intros l' [-> | Hl']%elem_of_cons; [| by apply Hg]. eapply one_shown_ext; [| | exact Hone].
    + intros i Hi. apply Hin, elem_of_app. by left.
    + intros i Hi. symmetry. apply Hk. intros Hc. by apply (Hdis i).
Qed.
Lemma nodup_concat_filter {A} (f : list A -> bool) (gs : list (list A)) : NoDup (concat gs) -> NoDup (concat (filter f gs)).
Proof.
  induction gs as [| l gs IH]; [done |]. cbn [concat]. intros (H1 & H2 & H3)%NoDup_app. rewrite filter_cons. case_decide; [| by apply IH]. cbn [concat].
  apply NoDup_app. split_and!; [done | | by apply IH]. intros x Hx Hc. apply (H2 x Hx). apply list_elem_of_In, in_concat in Hc as (m & Hm & Hxm). apply list_elem_of_In, in_concat. exists m.
  split; [| done]. apply list_elem_of_In in Hm. apply list_elem_of_filter in Hm as [_ Hm]. by apply list_elem_of_In.
Qed.
Lemma grouped_nodup chs n gs : grouped chs n gs -> NoDup (concat (map snd gs)).
Proof.
  intros [Hk Hl _]. induction gs as [| [k l] gs IH]; [constructor |]. cbn [map fst snd concat] in *. apply NoDup_cons in Hk as [Hni Hk]. destruct (Hl k l) as (_ & Hnd & Hi); [by left |].
  apply NoDup_app. split_and!; [done | | apply IH; [done | intros; apply Hl; by right]].
  intros i Hil Hc. apply list_elem_of_In, in_concat in Hc as (m & Hm & Him). apply in_map_iff in Hm as ([k' l'] & <- & Hin). cbn in Him. apply list_elem_of_In in Him, Hin.
  destruct (Hl k' l') as (_ & _ & Hi'); [by right |]. apply Hi in Hil as (_ & c & Hc & Hck). apply Hi' in Him as (_ & d & Hd & Hdk). apply Hni. replace k with k' by congruence.
  apply list_elem_of_In. apply (in_map fst gs (k', l')), list_elem_of_In, Hin.
Qed.

(** Two rows of one channel: both of tuners there are, in the clear, with one guide number
    and one name, the call sign where the name has one *)
Definition own_row (c : Channel) : Prop := has_prefix (lit "src-") (DeviceID c) = false /\ Protected c = false /\ Present c = true.
Definition called (c : Channel) : text :=
  match callKey upper_rune digit_rune (GuideName c) with [] => ToUpper upper_rune (TrimSpace (GuideName c)) | key => key end.
Definition one_channel (c d : Channel) : Prop :=
  own_row c /\ own_row d /\ GuideNumber c ++ lit "|" ++ called c = GuideNumber d ++ lit "|" ++ called d.
Lemma sameKey_own c : own_row c /\ sameKey c = GuideNumber c ++ lit "|" ++ called c \/ ~ own_row c /\ sameKey c = [].
Proof.
  unfold own_row, Twins.sameKey, from_source, called. destruct (has_prefix _ _), (Protected c), (Present c); cbn [orb negb]; try (right; split; [by intros (? & ? & ?) | done]). by left.
Qed.
Lemma own_key c : own_row c -> sameKey c <> [].
Proof. intros Ho. destruct (sameKey_own c) as [[_ ->] | [? _]]; [| done]. intros E%app_eq_nil. by destruct E. Qed.
Lemma one_channel_iff c d : one_channel c d <-> sameKey c <> [] /\ sameKey c = sameKey d.
Proof.
  unfold one_channel. pose proof (own_key c). pose proof (own_key d).
  destruct (sameKey_own c) as [[Hc Ec] | [Hc Ec]], (sameKey_own d) as [[Hd Ed] | [Hd Ed]]; rewrite Ec, Ed in *; naive_solver.
Qed.
(** The rows of the channel of row [i], and whether more than one tuner has it *)
Definition rows_of (chs : list Channel) (i : nat) (idx : list nat) : Prop :=
  NoDup idx /\ forall j, j ∈ idx <-> exists c d, chs !! i = Some c /\ chs !! j = Some d /\ one_channel c d.
Definition on_tuners (chs : list Channel) (i : nat) : Prop :=
  exists j k a b c, chs !! i = Some a /\ chs !! j = Some b /\ chs !! k = Some c /\ one_channel a b /\ one_channel a c /\ DeviceID b <> DeviceID c.

Lemma several_iff chs idx : (forall i, i ∈ idx -> is_Some (chs !! i)) ->
  several chs idx = true <-> exists j k b c, j ∈ idx /\ k ∈ idx /\ chs !! j = Some b /\ chs !! k = Some c /\ DeviceID b <> DeviceID c.
Proof.
  intros Hin. unfold several. rewrite Nat.ltb_lt.
  assert (forall x, x ∈ remove_dups (map (device_at chs) idx) <-> exists i c, i ∈ idx /\ chs !! i = Some c /\ x = DeviceID c) as Hd.
  { intros x. rewrite elem_of_remove_dups, list_elem_of_In, in_map_iff. split.
    - intros (i & <- & Hi). apply list_elem_of_In in Hi. destruct (Hin i Hi) as [c Hc]. exists i, c. unfold device_at. by rewrite Hc.
    - intros (i & c & Hi & Hc & ->). exists i. unfold device_at. rewrite Hc. split; [done | by apply list_elem_of_In]. }
  pose proof (NoDup_remove_dups (map (device_at chs) idx)) as Hn. split.
  - intros Hl. destruct (remove_dups (map (device_at chs) idx)) as [| x [| y l]]; [cbn in Hl; lia | cbn in Hl; lia |].
    destruct (proj1 (Hd x)) as (j & b & Hj & Hb & ->); [by left |]. destruct (proj1 (Hd y)) as (k & c & Hk & Hc & ->); [by right; left |].
    exists j, k, b, c. split_and!; try done. apply NoDup_cons in Hn as [Hn _]. intros E. apply Hn. rewrite E. by left.
  - intros (j & k & b & c & Hj & Hk & Hb & Hc & Hne). assert (DeviceID b ∈ remove_dups (map (device_at chs) idx)) as H1 by (apply Hd; by exists j, b).
    assert (DeviceID c ∈ remove_dups (map (device_at chs) idx)) as H2 by (apply Hd; by exists k, c).
    destruct (remove_dups (map (device_at chs) idx)) as [| x [| y l]]; [by apply not_elem_of_nil in H1 | | cbn; lia].
    apply list_elem_of_singleton in H1, H2. congruence.
Qed.
(** The group of a row's channel *)
Lemma row_group chs i a : chs !! i = Some a -> own_row a ->
  exists idx, (sameKey a, idx) ∈ group_rows upper_rune digit_rune chs 0 [] /\ rows_of chs i idx /\ (several chs idx = true <-> on_tuners chs i).
Proof.
  intros Ha Ho. pose proof (all_grouped chs) as [_ Hl Hall]. pose proof (own_key a Ho) as Hk.
  pose proof (Hall i a ltac:(by eapply lookup_lt_Some) Ha Hk) as Hin. apply list_elem_of_In, in_map_iff in Hin as ([k idx] & Ek & Hin). cbn in Ek. subst k. apply list_elem_of_In in Hin.
  destruct (Hl _ _ Hin) as (_ & Hnd & Hi). exists idx. split; [done |].
  assert (rows_of chs i idx) as Hr.
  { split; [done |]. intros j. rewrite Hi. split.
    - intros (_ & d & Hd & Hdk). exists a, d. split_and!; [done | done |]. by apply one_channel_iff.
    - intros (c & d & Hc & Hd & Hcd). apply one_channel_iff in Hcd as [_ E]. split; [by eapply lookup_lt_Some | exists d; split; [done | congruence]]. }
  split; [done |]. destruct Hr as [_ Hr]. rewrite several_iff; [| intros j Hj; apply Hr in Hj as (_ & d & _ & ? & _); by exists d]. unfold on_tuners. setoid_rewrite Hr. split.
  - intros (j & k & b & c & (x & b' & Hx & Hb' & H1) & (y & c' & Hy & Hc' & H2) & Hb & Hc & Hne). exists j, k, a, b, c. split_and!; congruence.
  - intros (j & k & x & b & c & Hx & Hb & Hc & H1 & H2 & Hne). exists j, k, b, c. split_and!; [by exists x, b | by exists x, c | done | done | done].
Qed.

(** C28. Of the rows of one channel that several tuners carry, one stays on the guide, with their
    favorite when any has it, and the name and number set on it or, where it has
    none, one set on another; the others point at it, and none of them comes before
    it: shown rather than hidden, on a tuner that answers, by priority, listed, by
    device and id. Two rows are of one channel when both are of tuners, there and in
    the clear, and their guide numbers and their call signs (or names) are the same.
    Every other row, and one whose channel one tuner only carries, stays as it was. *)
Theorem one_row_is_shown chs i a : chs !! i = Some a ->
  let out := markSameAs upper_rune digit_rune priority answering listed chs in
  (on_tuners chs i -> exists idx, rows_of chs i idx /\ i ∈ idx /\ one_shown chs out idx) /\
  (~ on_tuners chs i -> out !! i = Some a).
Proof.
  intros Ha. cbn zeta. pose proof (all_grouped chs) as Hg. pose proof (grouped_nodup _ _ _ Hg) as Hnd. destruct Hg as [_ Hl _].
  assert (forall idx, idx ∈ sameGroups upper_rune digit_rune chs <-> several chs idx = true /\ exists k, (k, idx) ∈ group_rows upper_rune digit_rune chs 0 []) as Hgroups.
  { intros idx. unfold sameGroups. rewrite list_elem_of_filter, Is_true_true. split; intros [Hs Hi]; (split; [done |]).
    - apply list_elem_of_In, in_map_iff in Hi as ([k l] & <- & Hi). exists k. by apply list_elem_of_In.
    - destruct Hi as [k Hi]. apply list_elem_of_In, in_map_iff. exists (k, idx). split; [done | by apply list_elem_of_In]. }
  destruct (marked_groups (sameGroups upper_rune digit_rune chs) chs chs) as [Hkeep Hone].
  - by apply nodup_concat_filter.
  - intros j Hj. split; [| done]. apply list_elem_of_In, in_concat in Hj as (l & Hl' & Hj). apply list_elem_of_In in Hl', Hj. apply Hgroups in Hl' as (_ & k & Hkl).
    destruct (Hl k l Hkl) as (_ & _ & Hrows). destruct (proj1 (Hrows j) Hj) as (_ & c & Hc & _). by exists c.
  - apply Forall_forall. intros l Hl' ->. by apply Hgroups in Hl' as [Hs _].
  - cbn zeta in *. split.
    + intros Ht. assert (own_row a) as Ho by (destruct Ht as (j & k & x & b & c & Hx & _ & _ & Hob & _); assert (x = a) as <- by congruence; apply Hob).
      destruct (row_group chs i a Ha Ho) as (idx & Hidx & Hr & Hs). exists idx. split; [done |]. split.
      * apply Hr. exists a, a. split_and!; [done | done |]. by apply one_channel_iff; split; [apply own_key |].
      * apply Hone, Hgroups. split; [by apply Hs | by eexists].
    + intros Ht. rewrite <- Ha. apply Hkeep. intros Hc. apply list_elem_of_In, in_concat in Hc as (l & Hl' & Hil). apply list_elem_of_In in Hl', Hil.
      apply Hgroups in Hl' as (Hs & k & Hkl). destruct (Hl k l Hkl) as (Hne & _ & Hi). apply Hi in Hil as Hil'. destruct Hil' as (_ & c & Hc & Hck). assert (c = a) as -> by congruence.
      assert (forall j, j ∈ l -> exists b, chs !! j = Some b /\ one_channel a b) as Hall.
      { intros j Hj. apply Hi in Hj as (_ & b & Hb & Hbk). exists b. split; [done |]. apply one_channel_iff. rewrite Hck, Hbk. done. }
      apply several_iff in Hs as (j & m & b & d & Hj & Hm & Hb & Hd & Hne'); [| intros j Hj; destruct (Hall j Hj) as (b & ? & _); by exists b].
      apply Ht. destruct (Hall j Hj) as (b' & Hb' & H1), (Hall m Hm) as (d' & Hd' & H2). exists j, m, a, b, d. split_and!; congruence.
Qed.
End same_proofs.

(** ** Listings that twins share *)

Section share_proofs.
Context `{Unicode} (upper_rune : Z -> Z) (digit_rune : Z -> bool).
Context (walk : forall A : Type, gmap Z A -> list (Z * A)).
Context (Hwalk : forall A (m : gmap Z A), walk A m ≡ₚ map_to_list m).
Context (lineup : list Channel) (rows : list Air.Airing).
Notation pair_lists := (walk (list Z) (Twins upper_rune digit_rune lineup)).

(** A row that a channel of a pair has of another one's *)
Definition shared (r : Air.Airing) : Prop :=
  exists c3 ones from to o, Twins upper_rune digit_rune lineup !! c3 = Some ones /\ from ∈ c3 :: ones /\ to ∈ c3 :: ones /\
    o ∈ rows /\ Air.ChannelID o = from /\ r = moved_to to o.
Definition lists (l : list Air.Airing) (id : Z) : Prop := exists r, r ∈ l /\ Air.ChannelID r = id.

Lemma have_in id : id ∈ have_of rows <-> lists rows id.
Proof.
  unfold have_of, lists. rewrite elem_of_list_to_set, list_elem_of_In, in_map_iff. split.
  - intros (r & <- & Hr). exists r. split; [by apply list_elem_of_In | done].
  - intros (r & Hr & <-). exists r. split; [done | by apply list_elem_of_In].
Qed.
Lemma share_step s extra c3 ones : fst s = rows ++ extra -> Twins upper_rune digit_rune lineup !! c3 = Some ones -> ones <> [] ->
  exists extra', fst (share_pair (have_of rows) (length rows) s (c3, ones)) = rows ++ extra ++ extra' /\ Forall shared extra' /\
    ((exists id, id ∈ c3 :: ones /\ lists rows id) -> lists (rows ++ extra ++ extra') c3 /\ exists id, id ∈ ones /\ lists (rows ++ extra ++ extra') id).
Proof.
  intros Hs Ht Hne. destruct s as [l art]. cbn [fst] in Hs. subst l. cbn [share_pair]. assert (hd 0 ones ∈ ones) as Hhd by (destruct ones; [done | by left]).
  assert (forall x y, lists rows x -> exists extra', copyRows (rows ++ extra) (length rows) x y = rows ++ extra ++ extra' /\ lists (rows ++ extra ++ extra') y /\
    (x ∈ c3 :: ones -> y ∈ c3 :: ones -> Forall shared extra')) as Hcopy.
  { intros x y (o & Ho & Hox). unfold copyRows. rewrite take_app_length. eexists. split; [by rewrite <- app_assoc |]. split.
    - exists (moved_to y o). split; [| done]. rewrite app_assoc. apply elem_of_app. right. apply list_elem_of_In, in_map, list_elem_of_In, list_elem_of_filter. split; [by apply Is_true_true, Z.eqb_eq | done].
    - intros Hx Hy. apply Forall_forall. intros r Hr. apply list_elem_of_In, in_map_iff in Hr as (q & <- & Hq). apply list_elem_of_In, list_elem_of_filter in Hq as [Hqx Hq].
      apply Is_true_true, Z.eqb_eq in Hqx. by exists c3, ones, x, y, q. }
  assert (forall x e, lists rows x -> lists (rows ++ e) x) as Hmono by (intros x e (r & Hr & E); exists r; split; [apply elem_of_app; by left | done]).
  destruct (bool_decide_reflect (c3 ∈ have_of rows)) as [H3 | H3]; rewrite have_in in H3.
  - destruct (existsb _ ones) eqn:Ex.
    + exists []. rewrite app_nil_r. split_and!; [done | constructor |]. intros _. apply existsb_exists in Ex as (id & Hid & E). apply list_elem_of_In in Hid. apply bool_decide_eq_true, have_in in E.
      split; [by apply Hmono | exists id; split; [done | by apply Hmono]].
    + cbn [fst]. destruct (Hcopy c3 (hd 0 ones) H3) as (e & -> & Hl & Hf). exists e. split_and!; [done | apply Hf; [by left | by right] |]. intros _. split; [by apply Hmono | by exists (hd 0 ones)].
  - destruct (List.find _ ones) as [from |] eqn:Ef.
    + apply find_some in Ef as [Hin E]. apply list_elem_of_In in Hin. apply bool_decide_eq_true, have_in in E. cbn [fst]. destruct (Hcopy from c3 E) as (e & -> & Hl & Hf).
      exists e. split_and!; [done | apply Hf; [by right | by left] |]. intros _. split; [done | exists from; split; [done | by apply Hmono]].
    + exists []. rewrite app_nil_r. split_and!; [done | constructor |]. intros (id & Hid & Hl). apply elem_of_cons in Hid as [-> | Hid]; [done |].
      exfalso. apply list_elem_of_In in Hid. pose proof (find_none _ _ Ef id Hid) as E. apply bool_decide_eq_false in E. apply E. by apply have_in.
Qed.

(** Twins share their listings: of a pair with a listing on any of its channels, the 3.0
    channel and one of its 1.0 channels are listed afterwards. The rows there were
    stay, first, and the others are copies of them between channels of a pair. *)
Theorem twins_share art : NoDup (map ID lineup) ->
  exists extra, fst (ShareTwins upper_rune digit_rune walk rows art lineup) = rows ++ extra /\ Forall shared extra /\
    forall c3 ones, Twins upper_rune digit_rune lineup !! c3 = Some ones -> (exists id, id ∈ c3 :: ones /\ lists rows id) ->
      lists (rows ++ extra) c3 /\ exists id, id ∈ ones /\ lists (rows ++ extra) id.
Proof.
  intros Hnd. unfold ShareTwins.
  assert (forall ps s extra, fst s = rows ++ extra -> Forall shared extra -> (forall p, p ∈ ps -> Twins upper_rune digit_rune lineup !! fst p = Some (snd p) /\ snd p <> []) ->
    exists extra', fst (fold_left (share_pair (have_of rows) (length rows)) ps s) = rows ++ extra ++ extra' /\ Forall shared (extra ++ extra') /\
      forall c3 ones, (c3, ones) ∈ ps -> (exists id, id ∈ c3 :: ones /\ lists rows id) -> lists (rows ++ extra ++ extra') c3 /\ exists id, id ∈ ones /\ lists (rows ++ extra ++ extra') id) as Hfold.
  { induction ps as [| [c ones] ps IH]; intros s extra Hs Hf Hps; cbn [fold_left].
    - exists []. rewrite !app_nil_r. split_and!; [done | done | by intros ? ? ?%not_elem_of_nil].
    - destruct (Hps (c, ones)) as [Ht Hne]; [by left |]. cbn [fst snd] in Ht, Hne. destruct (share_step s extra c ones Hs Ht Hne) as (e & He & Hfe & Hl).
      destruct (IH (share_pair (have_of rows) (length rows) s (c, ones)) (extra ++ e) He) as (e' & He' & Hfe' & Hl'); [by apply Forall_app | intros; apply Hps; by right |].
      exists (e ++ e'). rewrite !app_assoc in *. split_and!; [done | done |]. intros c3 o [E | Hin]%elem_of_cons Hany; [| by apply Hl'].
      injection E as -> ->. destruct (Hl Hany) as [(r & Hr & Hrc) (id & Hid & (q & Hq & Hqc))]. split; [exists r; split; [apply elem_of_app; by left | done] |].
      exists id. split; [done |]. exists q. split; [apply elem_of_app; by left | done]. }
  assert (forall p, p ∈ pair_lists <-> Twins upper_rune digit_rune lineup !! fst p = Some (snd p)) as Hp by (intros [k x]; by rewrite Hwalk, elem_of_map_to_list).
  destruct (Hfold pair_lists (rows, art) []) as (e & He & Hfe & Hl); [by rewrite app_nil_r | constructor | |].
  - intros p Hin. apply Hp in Hin. split; [exact Hin |]. destruct (proj1 (pairs_lookup upper_rune digit_rune lineup false (fst p) (snd p) Hnd) Hin) as (_ & _ & _ & _ & _ & Hne). exact Hne.
  - exists e. split_and!; [done | done |]. intros c3 ones Ht. apply Hl. by apply Hp.
Qed.
End share_proofs.

(** ** Examples *)

Definition sample_row (id : Z) (device number nm video audio : string) (same : Z) : Channel :=
  mk id (lit device) (lit number) (lit nm) (lit number) (lit nm) (lit video) (lit audio) false true false true [] [] false [] 0 [] 0 same.
Definition sample_airing (id channel : Z) : Air.Airing :=
  Air.mk id channel (lit "Football") [] [] [] [] true [] 0 0 0 0 [] [] [] [] [] (1000 * Second) (4600 * Second) 0 0.
(** A pass for any channel *)
Definition sample_pass : Pas.Pass := Pas.mk 7 (lit "football") 0 (lit "series") 0 0 0 [] [] 0 0 false false [] [] [] [] 0 0.
(** Two tuners with 4.1, one of them with 104.1 too *)
Definition sample_lineup : list Channel := [
  sample_row 1 "FLEX1" "4.1" "KBWV-DT" "MPEG2" "AC3" 0;
  sample_row 2 "DUO1" "4.1" "KBWV-DT" "MPEG2" "AC3" 1;
  sample_row 3 "FLEX1" "104.1" "KBWV" "HEVC" "AC4" 0].
Definition sample_rows : list Air.Airing := map (fun c => sample_airing c c) [1; 2; 3].
(** And both of them with 104.1 *)
Definition two_tuners : list Channel := sample_lineup ++ [sample_row 4 "DUO1" "104.1" "KBWV" "HEVC" "AC4" 3].
Definition two_rows : list Air.Airing := map (fun c => sample_airing c c) [1; 2; 3; 4].

Definition up (A : Type) (m : gmap Z A) : list (Z * A) := map_to_list m.
Definition down (A : Type) (m : gmap Z A) : list (Z * A) := reverse (map_to_list m).
Lemma up_walks A (m : gmap Z A) : up A m ≡ₚ map_to_list m.
Proof. done. Qed.
Lemma down_walks A (m : gmap Z A) : down A m ≡ₚ map_to_list m.
Proof. apply reverse_Permutation. Qed.

#[local] Existing Instance ascii_unicode.
#[local] Existing Instance utc.
Notation upper := (fun c : Z => c) (only parsing).
Notation no_digit := (fun _ : Z => false) (only parsing).

Example call_keys : map (callKey upper no_digit) (map lit ["KBWV-DT"; "KRVT-1"; "WTSTDT1"; "KOPQ-TV"; "WGN-TV"; "ZLiving"; "beIN"; "MTRSPR1"]%string) =
  map lit ["KBWV"; "KRVT"; "WTST"; "KOPQ"; "WGN"; ""; ""; ""]%string.
Proof. vm_compute. reflexivity. Qed.

(** What two walks of the two pairs mark *)
Example two_tuners_marks :
  let marked walk := RecordingAirings upper no_digit walk two_rows two_tuners in
  let taken walk := map Air.ChannelID (filter (fun r => passMatches sample_pass r) (marked walk)) in
  (map SameAs (markSameAs upper no_digit (fun d => if has_prefix (lit "DUO") d then 1 else 0) (fun _ => true) (fun _ => true) (map (fun c => set_same c 0) two_tuners)) = [0; 1; 0; 3]) /\
  map Air.Simulcast (marked up) = [0; 1; 0; 3] /\ taken up = [1; 3] /\ map Air.Simulcast (marked down) = [0; 1; 1; 3] /\ taken down = [1].
Proof. vm_compute. done. Qed.
(** Two rows that point at a third, which does not list what they do, both record. *)
Example shown_row_lists_nothing :
  let lineup := [sample_row 1 "FLEX1" "4.1" "KBWV-DT" "MPEG2" "AC3" 0; sample_row 2 "DUO1" "4.1" "KBWV-DT" "MPEG2" "AC3" 1; sample_row 3 "DUO2" "4.1" "KBWV-DT" "MPEG2" "AC3" 1] in
  map Air.Simulcast (RecordingAirings upper no_digit up (map (fun c => sample_airing c c) [2; 3]) lineup) = [0; 0].
Proof. vm_compute. reflexivity. Qed.

Lemma sample_ids : NoDup (map ID sample_lineup).
Proof. apply (proj1 (bool_decide_eq_true _)). vm_compute. reflexivity. Qed.
Lemma sample_twins : Twins upper no_digit sample_lineup = {[3 := [1; 2]]}.
Proof. vm_compute. reflexivity. Qed.
Lemma pairs_are_one_station_witness : NoDup (map ID sample_lineup) /\ Twins upper no_digit sample_lineup !! 3 = Some [1; 2] /\
  exists c3, c3 ∈ sample_lineup /\ ID c3 = 3 /\ Protected c3 = false.
Proof.
  split; [apply sample_ids |]. split; [by rewrite sample_twins |].
  destruct (pairs_are_one_station upper no_digit sample_lineup 3 [1; 2] sample_ids) as (c3 & H1 & H2 & _ & H3 & _); [by rewrite sample_twins |]. by exists c3.
Defined.
Lemma sample_disjoint c1 ones1 c2 ones2 id : Twins upper no_digit sample_lineup !! c1 = Some ones1 -> Twins upper no_digit sample_lineup !! c2 = Some ones2 -> id ∈ ones1 -> id ∈ ones2 -> c1 = c2.
Proof. rewrite sample_twins. intros [<- _]%lookup_singleton_Some [<- _]%lookup_singleton_Some. done. Qed.
Lemma sample_shown a b : a ∈ sample_lineup -> b ∈ sample_lineup -> SameAs a <> 0 -> ID b = SameAs a -> SameAs b = 0.
Proof.
  assert (Forall (fun a => Forall (fun b => SameAs a = 0 \/ ID b <> SameAs a \/ SameAs b = 0) sample_lineup) sample_lineup) as Hall by (apply (proj1 (bool_decide_eq_true _)); vm_compute; reflexivity).
  rewrite Forall_forall in Hall. intros Ha Hb. specialize (Hall a Ha). rewrite Forall_forall in Hall. specialize (Hall b Hb). intros H1 H2. destruct Hall as [? | [? | ?]]; done.
Qed.
Lemma sample_fresh r : r ∈ sample_rows -> Air.Simulcast r = 0 /\ Air.ManualPass r = 0 /\ Air.ChannelID r <> 0.
Proof.
  assert (Forall (fun r => Air.Simulcast r = 0 /\ Air.ManualPass r = 0 /\ Air.ChannelID r <> 0) sample_rows) as Hall by (apply (proj1 (bool_decide_eq_true _)); vm_compute; reflexivity).
  rewrite Forall_forall in Hall. apply Hall.
Qed.
Lemma passes_record_once_witness :
  map (fun r => (Air.ChannelID r, Air.Simulcast r)) (RecordingAirings upper no_digit up sample_rows sample_lineup) = [(1, 0); (2, 1); (3, 1)] /\
  exists o, o ∈ sample_rows /\ o ∈ RecordingAirings upper no_digit up sample_rows sample_lineup /\ slot_of o = slot_of (sample_airing 3 3).
Proof.
  split; [by vm_compute |].
  destruct (passes_record_once upper no_digit up up_walks sample_lineup sample_ids sample_disjoint sample_shown sample_rows sample_fresh sample_pass eq_refl) as [_ Hall]; [done |].
  destruct (Hall (sample_airing 3 3)) as (o & H1 & H2 & H3 & _); [right; right; by left |]. by exists o.
Defined.
Lemma two_tuners_ids : NoDup (map ID two_tuners).
Proof. apply (proj1 (bool_decide_eq_true _)). vm_compute. reflexivity. Qed.
Lemma two_tuners_twins : Twins upper no_digit two_tuners = {[3 := [1; 2]; 4 := [2; 1]]}.
Proof. vm_compute. reflexivity. Qed.
Lemma two_tuners_shown a b : a ∈ two_tuners -> b ∈ two_tuners -> SameAs a <> 0 -> ID b = SameAs a -> SameAs b = 0.
Proof.
  assert (Forall (fun a => Forall (fun b => SameAs a = 0 \/ ID b <> SameAs a \/ SameAs b = 0) two_tuners) two_tuners) as Hall by (apply (proj1 (bool_decide_eq_true _)); vm_compute; reflexivity).
  rewrite Forall_forall in Hall. intros Ha Hb. specialize (Hall a Ha). rewrite Forall_forall in Hall. specialize (Hall b Hb). intros H1 H2. destruct Hall as [? | [? | ?]]; done.
Qed.
Lemma two_rows_fresh r : r ∈ two_rows -> Air.Simulcast r = 0 /\ Air.ManualPass r = 0 /\ Air.ChannelID r <> 0.
Proof.
  assert (Forall (fun r => Air.Simulcast r = 0 /\ Air.ManualPass r = 0 /\ Air.ChannelID r <> 0) two_rows) as Hall by (apply (proj1 (bool_decide_eq_true _)); vm_compute; reflexivity).
  rewrite Forall_forall in Hall. apply Hall.
Qed.
Lemma two_tuners_shows_itself ch : ch ∈ two_tuners -> ID ch = 3 \/ ID ch = 1 -> SameAs ch = 0.
Proof.
  assert (Forall (fun ch => (ID ch <> 3 /\ ID ch <> 1) \/ SameAs ch = 0) two_tuners) as Hall by (apply (proj1 (bool_decide_eq_true _)); vm_compute; reflexivity).
  rewrite Forall_forall in Hall. intros Hc Hid. destruct (Hall ch Hc) as [[? ?] | ?]; [destruct Hid; done | done].
Qed.
Lemma two_tuners_record_twice_witness : exists o3 o1, o3 ∈ two_rows /\ o1 ∈ two_rows /\
  o3 ∈ RecordingAirings upper no_digit up two_rows two_tuners /\ o1 ∈ RecordingAirings upper no_digit up two_rows two_tuners /\ Air.ChannelID o3 <> Air.ChannelID o1.
Proof.
  destruct (two_tuners_record_twice upper no_digit up up_walks two_tuners two_tuners_ids two_rows two_rows_fresh 3 [1; 2] 4 [2; 1] 1 [(3, [1; 2])] (sample_airing 3 3) (sample_airing 1 1))
    as (o3 & o1 & H1 & H2 & H3 & H4 & _ & _ & H5 & _); [.. | by exists o3, o1];
    first [by rewrite two_tuners_twins | by vm_compute | by apply (proj1 (bool_decide_eq_true _)) | apply two_tuners_shows_itself].
Defined.
(** The rows of 4.1 on the two tuners *)
Lemma sample_one_channel c d : GuideNumber c = GuideNumber d -> called upper no_digit c = called upper no_digit d -> own_row c -> own_row d -> one_channel upper no_digit c d.
Proof. intros E1 E2 Hc Hd. unfold one_channel. by rewrite E1, E2. Qed.
Lemma one_row_is_shown_witness : let prio d := if has_prefix (lit "DUO") d then 1 else 0 in let fresh := map (fun c => set_same c 0) two_tuners in
  fresh !! 1%nat = Some (sample_row 2 "DUO1" "4.1" "KBWV-DT" "MPEG2" "AC3" 0) /\
  exists idx, rows_of upper no_digit fresh 1 idx /\ 1%nat ∈ idx /\
    one_shown prio (fun _ => true) (fun _ => true) fresh (markSameAs upper no_digit prio (fun _ => true) (fun _ => true) fresh) idx.
Proof.
  intros prio fresh. split; [done |].
  apply (proj1 (one_row_is_shown upper no_digit prio (fun _ => true) (fun _ => true) fresh 1 (sample_row 2 "DUO1" "4.1" "KBWV-DT" "MPEG2" "AC3" 0) eq_refl)).
  eexists 0%nat, 1%nat, _, _, _. split_and!; [done | done | done | by apply sample_one_channel; [| vm_compute | |] | by apply sample_one_channel; [| vm_compute | |] | done].
Defined.
Lemma twins_share_witness : let rows := [sample_airing 1 1] in
  map (fun r => (Air.ID r, Air.ChannelID r)) (fst (ShareTwins upper no_digit up rows ∅ sample_lineup)) = [(1, 1); (0, 3)] /\
  exists extra, fst (ShareTwins upper no_digit up rows ∅ sample_lineup) = rows ++ extra.
Proof.
  split; [by vm_compute |]. destruct (twins_share upper no_digit up up_walks sample_lineup [sample_airing 1 1] ∅ sample_ids) as (e & He & _). by exists e.
Defined.
