(* ===== verification/GuideMatch.v ===== *)
(** Which channel of a guide is which of the lineup, [server/internal/guide/match.go],
    and the networks a guide names ([guide/networks.go]).

    Text is a list of code points; [unicode.ToUpper] past ASCII is an argument. What
    [sort.Slice] does with equal pairs does not show: they are the same. *)
From S2P Require Import Prelude GoText Hdhr Network Dvr Twins.
From stdpp Require Import gmap sorting.
Local Open Scope Z_scope.
Local Open Scope go_scope.

Notation text := (list Z) (only parsing).
Import Ch.

(** A channel of an XMLTV document *)
Record channel := mkXml { xid : text; Names : list text }.
Record pair := mkPair { xml : text; line : Z; rank : Z }.
(** What is matched so far *)
Record matched := mkMatched { out : gmap text Z; usedXML : gset text; usedLine : gset Z }.
Definition nothing : matched := mkMatched ∅ ∅ ∅.
Definition take_pair (m : matched) (x : text) (l : Z) : matched := mkMatched (<[x := l]> (out m)) ({[x]} ∪ usedXML m) ({[l]} ∪ usedLine m).

Section match_.
Context `{Unicode} (upper_rune : Z -> Z).

Definition same (a b : text) : bool := EqualFold (TrimSpace a) (TrimSpace b).
Definition nameIs (ch : channel) (want : text) : bool := existsb (fun n => same n want) (Names ch).
Definition tokenHas (ch : channel) (number : text) : bool :=
  match TrimSpace number with
  | [] => false
  | number => existsb (fun n => existsb (fun tok => same tok number) (Fields n)) (xid ch :: Names ch)
  end.
Definition normCall : text -> text := NormCall upper_rune.
Definition namesCall (ch : channel) (call : text) : bool :=
  (bytes_equal (normCall (xid ch)) call || existsb (fun n => existsb (fun tok => bytes_equal (normCall tok) call) (Fields n)) (Names ch))%bool.

Definition rankMatch (ch : channel) (l : Channel) (sharedNumber : bool) : Z :=
  let call := normCall (GuideName l) in
  let named := (same (xid ch) (GuideName l) || nameIs ch (GuideName l) || nameIs ch (DisplayName l))%bool in
  let called := ((3 <=? blen call) && (bytes_equal (normCall (xid ch)) call || namesCall ch call))%bool in
  if (same (xid ch) (GuideNumber l) || tokenHas ch (GuideNumber l))%bool then
    if negb sharedNumber then 100 else if (named || called)%bool then 110 else 0
  else if named then 90 else if called then 80 else 0.

(** The numbers of two stations: the station of a row is its call sign. *)
Definition stations_of (lineup : list Channel) (number : text) : gset text :=
  list_to_set (map (fun l => normCall (GuideName l)) (filter (fun l => bytes_equal (TrimSpace (GuideNumber l)) number) lineup)).
Definition sharedNumbers (lineup : list Channel) (number : text) : bool :=
  if bytes_equal number [] then false else (1 <? size (stations_of lineup number))%nat.

(** A row with a guide key takes the first channel that is it and is not taken. *)
Definition key_step (xmlCh : list channel) (m : matched) (l : Channel) : matched :=
  match TrimSpace (GuideKey l) with
  | [] => m
  | key =>
      match List.find (fun ch => (negb (bool_decide (xid ch ∈ usedXML m)) && (same (xid ch) key || nameIs ch key))%bool) xmlCh with
      | Some ch => take_pair m (xid ch) (ID l)
      | None => m
      end
  end.
Definition pairs_of (xmlCh : list channel) (lineup : list Channel) (m : matched) : list pair :=
  concat (map (fun ch =>
    concat (map (fun l =>
      let r := rankMatch ch l (sharedNumbers lineup (TrimSpace (GuideNumber l))) in
      if 0 <? r then [mkPair (xid ch) (ID l) r] else [])
    (filter (fun l => negb (bool_decide (ID l ∈ usedLine m))) lineup)))
  (filter (fun ch => negb (bool_decide (xid ch ∈ usedXML m))) xmlCh)).
Definition better_pair (a b : pair) : bool :=
  if negb (rank a =? rank b) then rank b <? rank a
  else if negb (bytes_equal (xml a) (xml b)) then text_ltb (xml a) (xml b) else line a <? line b.
Definition pair_taken (m : matched) (p : pair) : bool := (bool_decide (xml p ∈ usedXML m) || bool_decide (line p ∈ usedLine m))%bool.
Definition greedy (m : matched) (p : pair) : matched := if pair_taken m p then m else take_pair m (xml p) (line p).
Definition keyed (xmlCh : list channel) (lineup : list Channel) : matched := fold_left (key_step xmlCh) lineup nothing.
Definition assign (xmlCh : list channel) (lineup : list Channel) : gmap text Z :=
  let m := keyed xmlCh lineup in
  out (fold_left greedy (sort_by better_pair (pairs_of xmlCh lineup m)) m).

(** ** Networks *)

(** The names of the document's channels matched to a row, in the document's order *)
Definition names_of (xmlCh : list channel) (assigned : gmap text Z) (id : Z) : list text :=
  concat (map Names (filter (fun ch => negb (id =? 0) && bool_decide (assigned !! xid ch = Some id))%bool xmlCh)).
Definition Networks (xmlCh : list channel) (lineup : list Channel) : gmap Z text :=
  let assigned := assign xmlCh lineup in
  fold_left (fun m id =>
      match by_id lineup id with
      | Some l => match Of upper_rune (names_of xmlCh assigned id) [GuideName l; DisplayName l] with [] => m | net => <[id := net]> m end
      | None => m
      end)
    (remove_dups (filter (fun id => negb (id =? 0)) (omap (fun ch => assigned !! xid ch) xmlCh))) ∅.
End match_.

(** * Proofs *)

(** What is matched is told by [out] alone, and no row twice. *)
Record matched_ok (m : matched) : Prop := {
  ok_xml : forall x, x ∈ usedXML m <-> is_Some (out m !! x);
  ok_line : forall l, l ∈ usedLine m <-> exists x, out m !! x = Some l;
  ok_inj : forall x y l, out m !! x = Some l -> out m !! y = Some l -> x = y;
}.
Lemma nothing_ok : matched_ok nothing.
Proof.
  split; cbn [usedXML usedLine out nothing].
  - intros x. rewrite lookup_empty. split; [by intros ?%not_elem_of_empty | by intros [? ?]].
  - intros l. split; [by intros ?%not_elem_of_empty | intros [x Hx]; by rewrite lookup_empty in Hx].
  - intros x y l. by rewrite lookup_empty.
Qed.
Lemma take_ok m x l : matched_ok m -> x ∉ usedXML m -> l ∉ usedLine m -> matched_ok (take_pair m x l) /\ out m ⊆ out (take_pair m x l).
Proof.
  intros [H1 H2 H3] Hx Hl. assert (out m !! x = None) as Hn by (rewrite <- eq_None_not_Some, <- H1 || (apply eq_None_not_Some; by rewrite <- H1); done).
  split; [| by apply insert_subseteq]. split; cbn [usedXML usedLine out take_pair].
  - intros y. rewrite elem_of_union, elem_of_singleton, H1. destruct (decide (x = y)) as [<- | Hxy]; [rewrite lookup_insert_eq; split; [by eexists | by left] |]. rewrite lookup_insert_ne by done.
    split; [intros [? | ?]; [congruence | done] | by right].
  - intros k. rewrite elem_of_union, elem_of_singleton, H2. split.
    + intros [-> | [y Hy]]; [exists x; by rewrite lookup_insert_eq |]. exists y. rewrite lookup_insert_ne; [done |]. congruence.
    + intros [y Hy]. destruct (decide (x = y)) as [<- | Hxy]; [rewrite lookup_insert_eq in Hy; injection Hy as ->; by left | rewrite lookup_insert_ne in Hy by done; right; by exists y].
  - intros y z k. destruct (decide (x = y)) as [<- | Hxy], (decide (x = z)) as [<- | Hxz]; rewrite ?lookup_insert_eq, ?lookup_insert_ne by done; [done | | | apply H3].
    + intros [= <-] Hz. exfalso. apply Hl, H2. by exists z.
    + intros Hy [= <-]. exfalso. apply Hl, H2. by exists y.
Qed.

Section match_proofs.
Context `{Unicode} (upper_rune : Z -> Z).

#[local] Instance better_pair_weak : WeakOrder better_pair.
Proof.
  assert (forall a b, better_pair a b = then_by (by_number (fun p => - rank p)) (then_by (by_text xml) (by_number line)) a b) as E.
  { intros a b. rewrite then_by_number, then_by_text. unfold better_pair, by_number.
    replace (- rank a =? - rank b) with (rank a =? rank b) by (destruct (Z.eqb_spec (rank a) (rank b)), (Z.eqb_spec (- rank a) (- rank b)); lia || done).
    replace (- rank a <? - rank b) with (rank b <? rank a) by (destruct (Z.ltb_spec (rank b) (rank a)), (Z.ltb_spec (- rank a) (- rank b)); lia || done). done. }
  split; intros *; rewrite !E; [apply less_asym | apply less_neg_trans].
Qed.

(** Pairs taken one after another: what is left out meets one taken before it. *)
Lemma greedy_ok m p : matched_ok m -> matched_ok (greedy m p) /\ out m ⊆ out (greedy m p) /\
  (pair_taken m p = false -> out (greedy m p) !! xml p = Some (line p)) /\
  forall x l, out (greedy m p) !! x = Some l -> out m !! x = Some l \/ (x = xml p /\ l = line p).
Proof.
  intros Hm. unfold greedy, pair_taken. destruct (bool_decide_reflect (xml p ∈ usedXML m)) as [Hx | Hx]; cbn [orb]; [split_and!; auto; done |].
  destruct (bool_decide_reflect (line p ∈ usedLine m)) as [Hl | Hl]; [split_and!; auto; done |]. destruct (take_ok m _ _ Hm Hx Hl) as [H1 H2]. split_and!; [done | done | |].
  - intros _. apply lookup_insert_eq.
  - intros x l. cbn [out take_pair]. destruct (decide (xml p = x)) as [<- | Hne]; [rewrite lookup_insert_eq; intros [= <-]; by right | rewrite lookup_insert_ne by done; by left].
Qed.
Lemma greedy_fold ps : forall m, matched_ok m -> let r := fold_left greedy ps m in
  matched_ok r /\ out m ⊆ out r /\ (forall x l, out r !! x = Some l -> out m !! x = Some l \/ exists q, q ∈ ps /\ xml q = x /\ line q = l) /\
  forall p ps1 ps2, ps = ps1 ++ p :: ps2 ->
    out r !! xml p = Some (line p) \/ xml p ∈ usedXML m \/ line p ∈ usedLine m \/
    exists q, q ∈ ps1 /\ out r !! xml q = Some (line q) /\ (xml q = xml p \/ line q = line p).
Proof.
  induction ps as [| p ps IH]; intros m Hm; cbn zeta; cbn [fold_left].
  - split_and!; [done | done | auto | by intros p [| ? ?] ps2].
  - destruct (greedy_ok m p Hm) as (Hg & Hsub & Htake & Hfrom). destruct (IH _ Hg) as (H1 & H2 & H3 & H4). cbn zeta in *. split_and!; [done | by etrans | |].
    + intros x l Hx. destruct (H3 x l Hx) as [Hx' | (q & Hq & E1 & E2)]; [| right; exists q; split; [by right | done]].
      destruct (Hfrom x l Hx') as [? | [-> ->]]; [by left | right; exists p; split; [by left | done]].
    + intros p' [| q ps1] ps2 E; injection E as <- E.
      * destruct (pair_taken m p) eqn:Et.
        -- right. unfold pair_taken in Et. apply orb_true_iff in Et as [Et | Et]; apply bool_decide_eq_true in Et; auto.
        -- left. eapply lookup_weaken; [by apply Htake | done].
      * destruct (H4 p' ps1 ps2 E) as [? | [Hu | [Hu | (r & Hr & Hor & Hs)]]]; [by left | | | do 3 right; exists r; split; [by right | done]].
        -- apply (ok_xml _ Hg) in Hu as [l Hl]. destruct (Hfrom _ _ Hl) as [Hl' | [Ex El]]; [right; left; apply (ok_xml _ Hm); by exists l |].
           destruct (pair_taken m p) eqn:Et; [unfold greedy in Hl; rewrite Et in Hl; right; left; apply (ok_xml _ Hm); by exists l |].
           do 3 right. exists p. split; [by left |]. split; [eapply lookup_weaken; [by apply Htake | done] | by left].
        -- apply (ok_line _ Hg) in Hu as [x Hx]. destruct (Hfrom _ _ Hx) as [Hx' | [Ex El]]; [right; right; left; apply (ok_line _ Hm); by exists x |].
           destruct (pair_taken m p) eqn:Et; [unfold greedy in Hx; rewrite Et in Hx; right; right; left; apply (ok_line _ Hm); by exists x |].
           do 3 right. exists p. split; [by left |]. split; [eapply lookup_weaken; [by apply Htake | done] | by right].
Qed.

(** The rows with a guide key, one after another *)
Definition by_key (xmlCh : list channel) (rows : list Channel) (x : text) (l : Z) : Prop :=
  exists ch row, ch ∈ xmlCh /\ row ∈ rows /\ xid ch = x /\ ID row = l /\ TrimSpace (GuideKey row) <> [] /\
    (same (xid ch) (TrimSpace (GuideKey row)) || nameIs ch (TrimSpace (GuideKey row)))%bool = true.
Lemma key_step_ok xmlCh m row : matched_ok m -> ID row ∉ usedLine m -> let r := key_step xmlCh m row in
  matched_ok r /\ (forall l, l ∈ usedLine r -> l ∈ usedLine m \/ l = ID row) /\ forall x l, out r !! x = Some l -> out m !! x = Some l \/ by_key xmlCh [row] x l.
Proof.
  intros Hm Hu. cbn zeta. unfold key_step. destruct (TrimSpace (GuideKey row)) as [| c key] eqn:Ek; [auto |]. destruct (List.find _ xmlCh) as [ch |] eqn:Ef; [| auto].
  apply find_some in Ef as [Hin Hp]. apply list_elem_of_In in Hin. apply andb_true_iff in Hp as [Hx Hp]. apply negb_true_iff, bool_decide_eq_false in Hx.
  destruct (take_ok m _ _ Hm Hx Hu) as [Hok _]. split_and!; [done | |].
  - intros l Hl. cbn [usedLine take_pair] in Hl. apply elem_of_union in Hl as [Hl | Hl]; [right; by apply elem_of_singleton in Hl | by left].
  - intros x l. cbn [out take_pair]. destruct (decide (xid ch = x)) as [<- | Hne]; [rewrite lookup_insert_eq; intros [= <-] | rewrite lookup_insert_ne by done; by left].
    right. exists ch, row. rewrite Ek. split_and!; try done. by left.
Qed.
Lemma keyed_fold xmlCh rows : forall m, matched_ok m -> NoDup (map ID rows) -> (forall l, l ∈ rows -> ID l ∉ usedLine m) ->
  let r := fold_left (key_step xmlCh) rows m in
  matched_ok r /\ forall x l, out r !! x = Some l -> out m !! x = Some l \/ by_key xmlCh rows x l.
Proof.
  induction rows as [| row rows IH]; intros m Hm Hnd Hu; cbn zeta; cbn [fold_left map] in *; [split; [done | auto] |].
  apply NoDup_cons in Hnd as [Hni Hnd]. assert (forall l, l ∈ rows -> ID l <> ID row) as Hne by (intros l Hl E; apply Hni; rewrite <- E; by apply list_elem_of_In, in_map, list_elem_of_In).
  destruct (key_step_ok xmlCh m row Hm) as (Hok & Hline & Hfrom); [apply Hu; by left |]. cbn zeta in *.
  destruct (IH (key_step xmlCh m row) Hok Hnd) as [H1 H2].
  - intros l Hl Hin. apply Hline in Hin as [Hin | Hin]; [by apply (Hu l); [right |] | by apply (Hne l)].
  - split; [done |]. intros x l Hx. destruct (H2 x l Hx) as [Hx' | (ch & r & A & B & C)]; [| right; exists ch, r; split_and!; [done | by right | naive_solver..]].
    destruct (Hfrom x l Hx') as [? | (ch & r & A & B & C)]; [by left | right]. apply list_elem_of_singleton in B as ->. exists ch, row. split; [done |]. split; [by left | done].
Qed.
Lemma keyed_ok xmlCh lineup : NoDup (map ID lineup) -> matched_ok (keyed xmlCh lineup) /\ forall x l, out (keyed xmlCh lineup) !! x = Some l -> by_key xmlCh lineup x l.
Proof.
  intros Hnd. destruct (keyed_fold xmlCh lineup nothing nothing_ok Hnd) as [H1 H2]; [by intros l _ ?%not_elem_of_empty |]. cbn zeta in *. split; [done |].
  intros x l Hx. destruct (H2 x l Hx) as [Hx' | ?]; [cbn [out nothing] in Hx'; by rewrite lookup_empty in Hx' | done].
Qed.

Definition rank_of (lineup : list Channel) (ch : channel) (row : Channel) : Z := rankMatch upper_rune ch row (sharedNumbers upper_rune lineup (TrimSpace (GuideNumber row))).
Lemma pairs_of_in xmlCh lineup m p : p ∈ pairs_of upper_rune xmlCh lineup m <->
  exists ch row, ch ∈ xmlCh /\ row ∈ lineup /\ xid ch ∉ usedXML m /\ ID row ∉ usedLine m /\ 0 < rank_of lineup ch row /\ p = mkPair (xid ch) (ID row) (rank_of lineup ch row).
Proof.
  unfold pairs_of. rewrite list_elem_of_In, in_concat. split.
  - intros (l1 & Hl1 & Hp). apply in_map_iff in Hl1 as (ch & <- & Hch). apply list_elem_of_In, list_elem_of_filter in Hch as [Hcu Hch]. apply Is_true_true, negb_true_iff, bool_decide_eq_false in Hcu.
    apply in_concat in Hp as (l2 & Hl2 & Hp). apply in_map_iff in Hl2 as (row & <- & Hrow). apply list_elem_of_In, list_elem_of_filter in Hrow as [Hru Hrow]. apply Is_true_true, negb_true_iff, bool_decide_eq_false in Hru.
    exists ch, row. fold (rank_of lineup ch row) in Hp. cbn zeta in Hp. destruct (Z.ltb_spec 0 (rank_of lineup ch row)); [| done]. destruct Hp as [<- | []]. done.
  - intros (ch & row & Hch & Hrow & Hcu & Hru & Hr & ->). eexists. split; [apply in_map, list_elem_of_In, list_elem_of_filter; split; [apply Is_true_true, negb_true_iff, bool_decide_eq_false; exact Hcu | exact Hch] |].
    apply in_concat. eexists. split; [apply in_map, list_elem_of_In, list_elem_of_filter; split; [apply Is_true_true, negb_true_iff, bool_decide_eq_false; exact Hru | exact Hrow] |].
    fold (rank_of lineup ch row). cbn zeta. destruct (Z.ltb_spec 0 (rank_of lineup ch row)); [by left | lia].
Qed.

(** C29. A guide's channels and the lineup's rows are matched one to one, each match by a guide
    key or a rank, and stably: a channel and a row with a rank that are not matched
    to each other are one of them matched by a guide key, or one of them matched in
    a pair that comes first, by its rank or, at the same rank, by its name and id. *)
Theorem assign_stable xmlCh lineup : NoDup (map ID lineup) ->
  let a := assign upper_rune xmlCh lineup in
  (forall x y l, a !! x = Some l -> a !! y = Some l -> x = y) /\
  (forall x l, a !! x = Some l -> by_key xmlCh lineup x l \/ exists ch row, ch ∈ xmlCh /\ row ∈ lineup /\ xid ch = x /\ ID row = l /\ 0 < rank_of lineup ch row) /\
  (forall ch row, ch ∈ xmlCh -> row ∈ lineup -> 0 < rank_of lineup ch row ->
    a !! xid ch = Some (ID row) \/
    (exists x l, by_key xmlCh lineup x l /\ a !! x = Some l /\ (x = xid ch \/ l = ID row)) \/
    exists ch' row', ch' ∈ xmlCh /\ row' ∈ lineup /\ a !! xid ch' = Some (ID row') /\ (xid ch' = xid ch \/ ID row' = ID row) /\
      better_pair (mkPair (xid ch) (ID row) (rank_of lineup ch row)) (mkPair (xid ch') (ID row') (rank_of lineup ch' row')) = false).
Proof.
  intros Hnd. cbn zeta. unfold assign. cbn zeta. set (m := keyed xmlCh lineup). set (ps := pairs_of upper_rune xmlCh lineup m). destruct (keyed_ok xmlCh lineup Hnd) as [Hm Hkey]. fold m in Hm, Hkey.
  destruct (greedy_fold (sort_by better_pair ps) m Hm) as (Hok & Hsub & Hfrom & Hst). cbn zeta in *. split_and!.
  - apply (ok_inj _ Hok).
  - intros x l Hx. destruct (Hfrom x l Hx) as [Hx' | (q & Hq & <- & <-)]; [left; by apply Hkey | right]. rewrite sort_by_perm in Hq. apply pairs_of_in in Hq as (ch & row & H1 & H2 & _ & _ & H3 & ->). by exists ch, row.
  - intros ch row Hch Hrow Hr. set (p := mkPair (xid ch) (ID row) (rank_of lineup ch row)).
    destruct (decide (xid ch ∈ usedXML m)) as [Hx | Hx].
    { right. left. apply (ok_xml _ Hm) in Hx as [l Hl]. exists (xid ch), l. split_and!; [by apply Hkey | by eapply lookup_weaken | by left]. }
    destruct (decide (ID row ∈ usedLine m)) as [Hl | Hl].
    { right. left. apply (ok_line _ Hm) in Hl as [x Hx']. exists x, (ID row). split_and!; [by apply Hkey | by eapply lookup_weaken | by right]. }
    assert (p ∈ sort_by better_pair ps) as Hp by (rewrite sort_by_perm; apply pairs_of_in; by exists ch, row).
    apply list_elem_of_split in Hp as (ps1 & ps2 & Esort). destruct (Hst p ps1 ps2 Esort) as [? | [? | [? | (q & Hq & Hoq & Hs)]]]; [by left | done | done |].
    right. right. assert (q ∈ ps) as Hqin by (rewrite <- (sort_by_perm better_pair ps), Esort; apply elem_of_app; by left).
    apply pairs_of_in in Hqin as (ch' & row' & H1 & H2 & _ & _ & H3 & ->). exists ch', row'. split_and!; [done | done | done | done |].
    pose proof (sort_by_sorted better_pair ps) as Hsorted. rewrite Esort in Hsorted.
    apply (StronglySorted_app_1_elem_of _ ps1 (p :: ps2) _ p Hsorted Hq). by left.
Qed.
End match_proofs.

(** A guide whose first channel has the number of both rows, one of which has its name,
    and whose second is the other's guide key *)
Definition sample_xml : list channel := [mkXml (lit "I4") [lit "4.1 KBWV"]; mkXml (lit "I5") [lit "WTST"]].
Definition sample_guide_row (id : Z) (nm key : string) : Channel :=
  mk id (lit "FLEX1") (lit "4.1") (lit nm) (lit "4.1") (lit nm) [] [] false true false true (lit key) [] false [] 0 [] 0 0.
Definition sample_home : list Channel := [sample_guide_row 1 "KXYZ" "I5"; sample_guide_row 2 "KBWV-DT" ""].
#[local] Existing Instance ascii_unicode.
Notation upper := (fun c : Z => c) (only parsing).
Lemma assign_stable_witness : NoDup (map ID sample_home) /\
  assign upper sample_xml sample_home !! lit "I4" = Some 2 /\ assign upper sample_xml sample_home !! lit "I5" = Some 1 /\
  forall x y l, assign upper sample_xml sample_home !! x = Some l -> assign upper sample_xml sample_home !! y = Some l -> x = y.
Proof.
  assert (NoDup (map ID sample_home)) as Hnd by (apply (proj1 (bool_decide_eq_true _)); vm_compute; reflexivity).
  split; [exact Hnd |]. split; [by vm_compute |]. split; [by vm_compute |]. apply (assign_stable upper sample_xml sample_home Hnd).
Defined.
