(* ===== verification/Sports.v ===== *)
(** Live games, [server/internal/sports]: which game takes the big tile ([focus.go]), what
    is worth a toast ([alerts.go], with the looks of [httpapi/alerts.go]), the
    scoreboards kept ([cache.go]), and the games and leagues of [sports.go].

    Text is a list of code points; an instant is nanoseconds after the zero time. The
    feed itself, JSON of a score service, is what is fetched: an argument. A call of
    [Scoreboard] is two steps, around the fetch, that others may come between. What only
    dresses a game (colors, logos, broadcasts, the situation) is left out, and so is how
    [gamesOnAir] finds a game's channel in the database: its games are an argument. *)
From S2P Require Import Prelude GoText GoRegexp.
From stdpp Require Import gmap.
Local Open Scope Z_scope.
Local Open Scope go_scope.

Notation text := (list Z) (only parsing).

(** ** Games *)

Record Team := mkTeam { tName : text; Short : text; Abbr : text; Score : text; isHome : bool }.
Record Game := mkGame {
  gID : text; League : text; gName : text; ShortName : text; Start : Z; State : text; Completed : bool; Detail : text; Clock : text; Period : Z;
  Teams : list Team; RedZone : bool; PowerPlay : bool;
}.
(** A league's id and its sport, in the source's order *)
Definition Leagues : list (text * text) := map (fun p => (lit (fst p), lit (snd p))) [
  ("nfl", "football"); ("ncaaf", "football"); ("fcs", "football"); ("nba", "basketball"); ("wnba", "basketball"); ("ncaab", "basketball"); ("ncaaw", "basketball");
  ("mlb", "baseball"); ("nhl", "hockey"); ("mls", "soccer"); ("nwsl", "soccer"); ("epl", "soccer"); ("ligamx", "soccer"); ("f1", "racing"); ("nascar", "racing"); ("indycar", "racing")]%string.
Definition FindLeague (id : text) : option (text * text) := List.find (fun l => bytes_equal (fst l) id) Leagues.
Definition sportOf (league : text) : text := match FindLeague league with Some l => snd l | None => [] end.

Definition Home (g : Game) : option Team := List.find isHome (Teams g).
Definition Away (g : Game) : option Team :=
  match Home g with
  | Some home => List.find (fun t => (negb (bytes_equal (Abbr t) (Abbr home)) || negb (bytes_equal (tName t) (tName home)))%bool) (Teams g)
  | None => None
  end.
Definition Live (g : Game) : bool := says (State g) "in".
Definition set_score (t : Team) (s : text) : Team := mkTeam (tName t) (Short t) (Abbr t) s (isHome t).
Definition HideScore (g : Game) : Game :=
  mkGame (gID g) (League g) (gName g) (ShortName g) (Start g) (State g) (Completed g) (if (Completed g || says (State g) "post")%bool then [] else Detail g) (Clock g) (Period g)
    (map (fun t => set_score t []) (Teams g)) (RedZone g) (PowerPlay g).

(** ** Expressions *)

Definition not_digit (c : Z) : bool := negb (is_digit c).
Definition clockRE : re := Cat (Or Bow (One not_digit)) (Cat (Cap 1 (Cat Digit (Opt Digit))) (Cat (Char 58) (Cat (Cap 2 (Cat Digit Digit)) (Or (One not_digit) Eow)))).
Definition words (l : list string) : re := Cat WordB (Cat (Any (map (fun s => LitI (lit s)) l)) WordB).
Definition lastQuarter : re := words ["4th"; "fourth"; "ot"; "overtime"]%string.
Definition lastHockey : re := words ["3rd"; "third"; "ot"; "overtime"]%string.
Definition lastHalf : re := words ["2nd half"; "second half"; "2h"]%string.
Definition overtime : re := words ["ot"; "overtime"; "extra time"; "et"]%string.
Definition extraSoccer : re := words ["extra time"; "stoppage"; "penalties"; "aet"; "et"]%string.
Definition soccerMinute : re :=
  Cat (Cap 1 (Cat Digit (Opt (Cat Digit (Opt Digit)))))
    (Cat (Opt (Cat (Star Blank) (Cat (Char 43) (Cat (Star Blank) (Cat Digit (Opt Digit)))))) (Cat (Star Blank) (Char 39))).

Section focus.
Context `{Unicode}.

(** ** The clock *)

(** [strings.IndexAny(s, ". ")]'s text before it *)
Fixpoint before_any (s : text) : text := match s with [] => [] | c :: l => if ((c =? 46) || (c =? 32))%bool then [] else c :: before_any l end.
Definition parseClock (raw : text) : option Z :=
  match Split raw 58 with
  | [m; s] =>
      match Atoi (TrimSpace m), Atoi (before_any s) with
      | Some min, Some sec => if ((min <? 0) || (sec <? 0) || (59 <? sec))%bool then None else Some (int64 (dur min Minute + dur sec Second))
      | _, _ => None
      end
  | _ => None
  end.
Definition clockIn (raw : text) : option Z :=
  let raw := TrimSpace raw in
  match parseClock raw with
  | Some t => Some t
  | None => match FindStringSubmatch clockRE raw with Some m => parseClock (m 1%nat ++ lit ":" ++ m 2%nat) | None => None end
  end.
Definition remainingClock (g : Game) : option Z := match clockIn (Clock g) with Some t => Some t | None => clockIn (Detail g) end.

Definition betweenPeriods (detail : text) : bool :=
  let d := ToLower (TrimSpace detail) in
  (one_of ["ht"; "halftime"; "half time"]%string d || existsb (fun s => contains d (lit s)) ["halftime"; "half time"; "end of"; "intermission"; "delay"; "suspended"]%string)%bool.
Definition actionable (g : Game) : bool := (Live g && negb (betweenPeriods (Detail g)))%bool.

(** ** A game near its end *)

Definition finalPeriod (league : text) : Z :=
  if says league "ncaab" then 2 else
  let s := sportOf league in
  if says s "hockey" then 3 else if says s "soccer" then 2 else if (says s "football" || says s "basketball")%bool then 4 else 0.
Definition detailIsLastPeriod (g : Game) : bool :=
  let s := sportOf (League g) in
  if says s "hockey" then MatchString lastHockey (Detail g)
  else if (says (League g) "ncaab" || says s "soccer")%bool then (MatchString lastHalf (Detail g) || MatchString overtime (Detail g))%bool
  else if (says s "football" || says s "basketball")%bool then MatchString lastQuarter (Detail g) else false.
Definition late_minute (src : text) : bool :=
  match FindStringSubmatch soccerMinute src with Some m => match Atoi (m 1%nat) with Some n => 85 <=? n | None => false end | None => false end.
Definition soccerClockLate (g : Game) : bool :=
  if negb (says (sportOf (League g)) "soccer") then false else
  (MatchString extraSoccer (Detail g ++ lit " " ++ Clock g) || late_minute (Clock g) || late_minute (Detail g))%bool.
Definition inFinalMinutes (g : Game) : bool :=
  if negb (actionable g) then false else
  if soccerClockLate g then true else
  let need := finalPeriod (League g) in
  if need =? 0 then false else
  if negb ((need <=? Period g) || detailIsLastPeriod g)%bool then false else
  match remainingClock g with Some t => t <? 5 * Minute | None => false end.

(** The scores, where every one is a number *)
Fixpoint scores (l : list Team) : option (list Z) :=
  match l with
  | [] => Some []
  | t :: l => match Atoi (TrimSpace (Score t)), scores l with Some n, Some ns => Some (n :: ns) | _, _ => None end
  end.
Definition scoreGap (g : Game) : option Z :=
  if (length (Teams g) <? 2)%nat then None else
  match scores (Teams g) with
  | Some (n :: ns) => Some (int64 (fold_left Z.max ns n - fold_left Z.min ns n))
  | _ => None
  end.
Definition closeMargin (league : text) : option Z :=
  let s := sportOf league in
  if (says s "football" || says s "basketball")%bool then Some 8 else if (says s "hockey" || says s "soccer")%bool then Some 1 else None.
Definition closeFinish (g : Game) : bool :=
  match closeMargin (League g) with
  | Some margin => if negb (inFinalMinutes g) then false else match scoreGap g with Some gap => gap <=? margin | None => false end
  | None => false
  end.

(** ** Who leads *)

Definition teamLabel (t : Team) : text := match Abbr t with [] => match Short t with [] => tName t | s => s end | a => a end.
(** The best score so far, whose it is, whether another has it *)
Fixpoint leader_loop (l : list Team) (seen : nat) (best : Z) (key : text) (tied : bool) : option (nat * text * bool) :=
  match l with
  | [] => Some (seen, key, tied)
  | t :: l =>
      match Atoi (TrimSpace (Score t)) with
      | None => None
      | Some n =>
          if ((seen =? 0)%nat || (best <? n))%bool then leader_loop l (S seen) n (teamLabel t) false
          else leader_loop l (S seen) best key (if n =? best then true else tied)
      end
  end.
Definition leaderKey (g : Game) : option text :=
  if (length (Teams g) <? 2)%nat then None else
  match leader_loop (Teams g) 0 0 [] false with
  | Some (seen, key, tied) => if (seen <? 2)%nat then None else Some (if tied then [] else key)
  | None => None
  end.
Definition leadChanged (cur prev : Game) : bool :=
  match leaderKey prev, leaderKey cur with
  | Some p, Some c => (negb (bytes_equal p []) && negb (bytes_equal c []) && negb (bytes_equal p c))%bool
  | _, _ => false
  end.

(** ** The big tile *)

Record Switch := mkSwitch { KeepManual : bool; GameID : text; Banner : text }.
Definition manualHolds (now manualAt : Z) : bool :=
  if IsZero manualAt then false else let delta := sub_time now manualAt in ((0 <=? delta) && (delta <? 2 * Minute))%bool.
(** [kindNone] is 0, [kindFinish] 1, [kindLead] 2, [kindChance] 3. *)
Definition classify (g : Game) (prev : option Game) : text * Z :=
  if (RedZone g && says (sportOf (League g)) "football")%bool then (lit "Red zone", 3)
  else if (PowerPlay g && says (sportOf (League g)) "hockey")%bool then (lit "Power play", 3)
  else if match prev with Some p => leadChanged g p | None => false end then (lit "Lead change", 2)
  else if closeFinish g then (lit "Final minutes", 1) else ([], 0).
(** [strings.ReplaceAll(s, " @ ", " at ")] *)
Fixpoint at_for (n : nat) (s : text) : text :=
  match n with
  | O => s
  | S n => match find_sub (lit " @ ") s with Some i => take i s ++ lit " at " ++ at_for n (drop (i + 3) s) | None => s end
  end.
Definition matchup (g : Game) : text :=
  match Home g, Away g with
  | Some home, Some away => teamLabel away ++ lit " at " ++ teamLabel home
  | _, _ => match ShortName g with [] => gName g | s => at_for (length s) s end
  end.
Definition banner (why : text) (g : Game) : text := match matchup g with [] => why | who => why ++ lit ": " ++ who end.
Definition last_board (previous : list Game) (id : text) : option Game := List.find (fun g => bytes_equal (gID g) id) (reverse previous).
Definition focus_step (previous : list Game) (s : Z * option (Game * text)) (g : Game) : Z * option (Game * text) :=
  if negb (actionable g) then s else
  let '(label, rank) := classify g (last_board previous (gID g)) in
  if fst s <? rank then (rank, Some (g, label)) else s.
Definition PickFocus (now manualAt : Z) (games previous : list Game) : Switch :=
  if manualHolds now manualAt then mkSwitch true [] [] else
  match fold_left (focus_step previous) games (0, None) with
  | (_, Some (g, why)) => mkSwitch false (gID g) (banner why g)
  | (_, None) => mkSwitch false [] []
  end.

(** ** Toasts *)

Record Alert := mkAlert { aID : text; Kind : text; aGame : text; aChannelID : Z; aChannel : text; aText : text; aDetail : text }.
Record OnAir := mkOnAir { oGame : Game; oChannelID : Z; oChannel : text; Followed : bool; Spoiler : bool }.
(** The scores, as long as every side has one *)
Fixpoint score_parts (l : list Team) : option (list text) :=
  match l with
  | [] => Some []
  | t :: l => match Score t with [] => None | s => option_map (cons (teamLabel t ++ [32] ++ s)) (score_parts l) end
  end.
Definition scoreLine (g : Game) : text :=
  let teams := match Away g, Home g with Some away, Some home => [away; home] | _, _ => Teams g end in
  match score_parts teams with
  | None => Detail g
  | Some parts => GoText.Join parts (lit ", ") ++ match Detail g with [] => [] | d => [32; 183; 32] ++ d end
  end.
Definition add_alert (s : list Alert * gset text) (a : Alert) : list Alert * gset text :=
  if bool_decide (aID a ∈ snd s) then s else (fst s ++ [a], {[aID a]} ∪ snd s).
Definition starts_now (prev : gmap text Game) (on : OnAir) : bool :=
  (Followed on && Live (oGame on) && match prev !! gID (oGame on) with Some before => says (State before) "pre" | None => false end)%bool.
Definition ends_close (closeGames : bool) (on : OnAir) : bool :=
  ((closeGames || Followed on) && negb (Spoiler on) && Live (oGame on) && closeFinish (oGame on))%bool.
Definition start_alert (on : OnAir) : Alert :=
  mkAlert (gID (oGame on) ++ lit ":start") (lit "start") (gID (oGame on)) (oChannelID on) (oChannel on) (banner (lit "Starting now") (oGame on)) [].
Definition close_alert (on : OnAir) : Alert :=
  mkAlert (gID (oGame on) ++ lit ":close") (lit "close") (gID (oGame on)) (oChannelID on) (oChannel on) (banner (lit "Close game") (oGame on)) (scoreLine (oGame on)).
Definition alert_step (prev : gmap text Game) (closeGames : bool) (s : list Alert * gset text) (on : OnAir) : list Alert * gset text :=
  let s := if starts_now prev on then add_alert s (start_alert on) else s in
  if ends_close closeGames on then add_alert s (close_alert on) else s.
Definition Alerts (prev : gmap text Game) (games : list OnAir) (sent : gset text) (closeGames : bool) : list Alert * gset text :=
  fold_left (alert_step prev closeGames) games ([], sent).

Definition plays_team (nm short abbr : text) (t : Team) : bool :=
  if (negb (bytes_equal abbr []) && EqualFold abbr (Abbr t))%bool then true
  else if (negb (bytes_equal nm []) && EqualFold nm (tName t))%bool then true
  else (negb (bytes_equal short []) && EqualFold short (Short t) && (bytes_equal abbr [] || bytes_equal (Abbr t) []))%bool.
Definition Plays (g : Game) (nm short abbr league : text) : bool :=
  let known := match FindLeague (ToLower league) with Some _ => true | None => false end in
  if (known && negb (bytes_equal (League g) []) && negb (EqualFold league (League g)))%bool then false else
  existsb (plays_team nm short abbr) (Teams g).
End focus.

(** ** Scoreboards *)

Definition liveTTL : Z := 30 * Second.
Definition quietTTL : Z := 2 * Hour.
Definition minBackoff : Z := 30 * Second.
Definition maxBackoff : Z := 30 * Minute.
Record cached := mkCached { games : list Game; at_ : Z; ttl : Z }.
(** [Cache], of a league's boards by their day *)
Record Cache := mkCache { items : gmap text cached; wait : gmap text Z; delay : gmap text Z }.
Definition NewCache : Cache := mkCache ∅ ∅ ∅.

(** The first stretch of [Scoreboard]: the board as kept, an error, or a fetch *)
Inductive looked := Serve (games : list Game) | Waiting | Fetch (item : option cached).
Definition look (c : Cache) (key : text) (now : Z) : looked :=
  let item := items c !! key in
  let fresh := match item with Some i => sub_time now (at_ i) <? ttl i | None => false end in
  let cooling := now <? default 0 (wait c !! key) in
  if cooling then match item with Some i => Serve (games i) | None => Waiting end
  else match item with Some i => if fresh then Serve (games i) else Fetch item | None => Fetch None end.
(** How long a board is fresh. [now] is what the clock says at the [n]th look at it. *)
Fixpoint ttl_loop (now : nat -> Z) (n : nat) (l : list Game) (ttl : Z) : Z :=
  match l with
  | [] => ttl
  | g :: l =>
      if Live g then liveTTL else
      if (says (State g) "pre" && negb (IsZero (Start g)))%bool then ttl_loop now (S n) l (Z.min ttl (Z.max liveTTL (sub_time (Start g) (now n))))
      else ttl_loop now n l ttl
  end.
Definition next_delay (d : Z) : Z := if d <? minBackoff then minBackoff else let d := int64 (d * 2) in if maxBackoff <? d then maxBackoff else d.
(** The second stretch: what the fetch gave, none for an error; [last] is a look at the
    clock *)
Definition fetched (c : Cache) (key : text) (item : option cached) (result : option (list Game)) (now : nat -> Z) (last : Z) : Cache * option (list Game) :=
  match result with
  | None =>
      let d := next_delay (default 0 (delay c !! key)) in
      (mkCache (items c) (<[key := last + d]> (wait c)) (<[key := d]> (delay c)), option_map games item)
  | Some gs => (mkCache (<[key := mkCached gs last (ttl_loop now 0 gs quietTTL)]> (items c)) (delete key (wait c)) (delete key (delay c)), Some gs)
  end.
(** The boards of a day, of what [Scoreboard] answers for each league: none is an error. *)
Definition Boards (boards : list (option (list Game))) : option (list Game) :=
  let out := concat (omap (fun b => b) boards) in
  if ((length out =? 0)%nat && existsb (fun b => match b with None => true | Some _ => false end) boards)%bool then None else Some out.

(** ** Looks at the scoreboard, [gameAlerts] of [httpapi/alerts.go] *)

Record Looks := mkLooks { alertPrev : gmap text Game; alertSent : gset text }.
Definition no_looks : Looks := mkLooks ∅ ∅.
(** [id[:max(0, strings.LastIndex(id, ":"))]] *)
Fixpoint before_last (c : Z) (s : text) : text := match s with [] => [] | d :: l => if existsb (Z.eqb c) l then d :: before_last c l else [] end.

(** One look: are the toasts off, the boards around now by their ids (none when the
    settings could not be read: the look ends the same way), the games of them on the
    air, and whether every close game is told of *)
Record Look := mkLook { isOff : bool; byID : gmap text Game; onAir : list OnAir; closeGames : bool }.
Definition gameAlerts `{Unicode} (s : Looks) (k : Look) : Looks * list Alert :=
  if isOff k then (mkLooks ∅ (alertSent s), []) else
  if decide (byID k = ∅) then (s, []) else
  let '(alerts, sent) := Alerts (alertPrev s) (onAir k) (alertSent s) (closeGames k) in
  (mkLooks (byID k) (filter (fun id => is_Some (byID k !! before_last 58 id)) sent), alerts).
(** What a run of looks tells *)
Fixpoint looks `{Unicode} (s : Looks) (l : list Look) : list (list Alert) :=
  match l with [] => [] | k :: l => let '(s, out) := gameAlerts s k in out :: looks s l end.

(** * Proofs *)

Section focus_proofs.
Context `{Unicode}.

(** The rank a game has on a board, none when nothing can be going on in it *)
Definition rank_on (previous : list Game) (g : Game) : Z := if actionable g then snd (classify g (last_board previous (gID g))) else 0.
Definition label_on (previous : list Game) (g : Game) : text := fst (classify g (last_board previous (gID g))).
Lemma classify_rank g prev : 0 <= snd (classify g prev) <= 3.
Proof. unfold classify. repeat case_match; cbn; lia. Qed.
Lemma rank_bounds previous g : 0 <= rank_on previous g <= 3.
Proof. unfold rank_on. case_match; [apply classify_rank | lia]. Qed.
Lemma focus_step_eq previous r0 c0 g : 0 <= r0 ->
  focus_step previous (r0, c0) g = if r0 <? rank_on previous g then (rank_on previous g, Some (g, label_on previous g)) else (r0, c0).
Proof.
  intros H0. unfold focus_step, rank_on, label_on. destruct (actionable g); cbn [negb fst].
  - by destruct (classify g _).
  - by destruct (Z.ltb_spec r0 0); [lia |].
Qed.

(** What the tile may show: a game in progress, not between its periods, and for what *)
Definition on_tile (previous : list Game) (g : Game) : Prop :=
  Live g = true /\ betweenPeriods (Detail g) = false /\
  ((RedZone g = true /\ label_on previous g = lit "Red zone") \/ (PowerPlay g = true /\ label_on previous g = lit "Power play") \/
   (exists p, p ∈ previous /\ gID p = gID g /\ leadChanged g p = true /\ label_on previous g = lit "Lead change") \/
   (closeFinish g = true /\ label_on previous g = lit "Final minutes")).
Lemma last_board_some previous id p : last_board previous id = Some p -> p ∈ previous /\ gID p = id.
Proof.
  unfold last_board. intros Hf. apply List.find_some in Hf as [Hin E]. apply bool_decide_eq_true in E. apply list_elem_of_In in Hin.
  split; [| done]. by rewrite elem_of_reverse in Hin.
Qed.
Lemma ranked_on_tile previous g : 0 < rank_on previous g -> on_tile previous g.
Proof.
  unfold rank_on, on_tile, label_on. destruct (actionable g) eqn:Ha; [| lia]. unfold actionable in Ha. apply andb_true_iff in Ha as [-> Hb%negb_true_iff]. intros Hr. split; [done |]. split; [done |].
  revert Hr. unfold classify. repeat case_match; cbn; intros Hr; try lia; repeat match goal with H : (_ && _)%bool = true |- _ => apply andb_true_iff in H as [??] end; auto.
  right; right; left. match goal with H : last_board _ _ = Some ?p |- _ => apply last_board_some in H as [??]; by exists p end.
Qed.

Definition first_best (previous l : list Game) (r0 r : Z) (g : Game) : Prop :=
  r0 < r /\ rank_on previous g = r /\ exists l1 l2, l = l1 ++ g :: l2 /\ (forall g', g' ∈ l1 -> rank_on previous g' < r) /\ forall g', g' ∈ l2 -> rank_on previous g' <= r.
Lemma focus_fold previous l : forall r0 c0 r c, 0 <= r0 -> fold_left (focus_step previous) l (r0, c0) = (r, c) ->
  (r = r0 /\ c = c0 /\ forall g, g ∈ l -> rank_on previous g <= r0) \/ exists g, c = Some (g, label_on previous g) /\ first_best previous l r0 r g.
Proof.
  induction l as [| g l IH]; intros r0 c0 r c H0; cbn [fold_left]; [intros [= <- <-]; left; split_and!; [done | done | by intros g ?%not_elem_of_nil] |].
  rewrite focus_step_eq by done. destruct (Z.ltb_spec r0 (rank_on previous g)) as [Hlt | Hle]; intros E.
  - right. destruct (IH _ _ _ _ (ltac:(lia) : 0 <= rank_on previous g) E) as [(-> & -> & Hall) | (g' & -> & Hlt' & Hr & l1 & l2 & -> & Hb & Ha)].
    + exists g. split; [done |]. split_and!; [done | done |]. exists [], l. split_and!; [done | by intros x ?%not_elem_of_nil | done].
    + exists g'. split; [done |]. split_and!; [lia | done |]. exists (g :: l1), l2. split_and!; [done | | done]. intros x [-> | Hx]%elem_of_cons; [lia | by apply Hb].
  - destruct (IH _ _ _ _ H0 E) as [(-> & -> & Hall) | (g' & -> & Hlt' & Hr & l1 & l2 & -> & Hb & Ha)].
    + left. split_and!; [done | done |]. intros x [-> | Hx]%elem_of_cons; [done | by apply Hall].
    + right. exists g'. split; [done |]. split_and!; [done | done |]. exists (g :: l1), l2. split_and!; [done | | done]. intros x [-> | Hx]%elem_of_cons; [lia | by apply Hb].
Qed.

(** The big tile: while the viewer's own pick is younger than two minutes nothing
    moves; else the tile goes to the first of the games of the highest rank, named
    with what is going on in it, and to none when no game has anything going on. *)
Theorem focus_exact (now manualAt : Z) (gs previous : list Game) :
  if manualHolds now manualAt then PickFocus now manualAt gs previous = mkSwitch true [] []
  else (PickFocus now manualAt gs previous = mkSwitch false [] [] /\ forall g, g ∈ gs -> rank_on previous g = 0) \/
    exists g r, PickFocus now manualAt gs previous = mkSwitch false (gID g) (banner (label_on previous g) g) /\ first_best previous gs 0 r g /\ on_tile previous g.
Proof.
  unfold PickFocus. destruct (manualHolds now manualAt); [done |]. destruct (fold_left _ gs _) as [r c] eqn:E.
  pose proof (focus_fold _ _ _ _ _ _ (Z.le_refl 0) E) as [(-> & -> & Hall) | (g & -> & Hb)].
  - left. split; [done |]. intros g Hg. specialize (Hall g Hg). pose proof (rank_bounds previous g). lia.
  - right. exists g, r. split_and!; [done | done |]. apply ranked_on_tile. destruct Hb as (? & ? & _). lia.
Qed.

End focus_proofs.

(** ** Toasts *)

Section alert_proofs.
Context `{Unicode}.

(** Why a game is told of, and what is told: a game of a followed team, in play, that
    the last look had as yet to start; or a game in play, of any team when every close
    game is asked for, of a followed one otherwise, whose score is not kept from the
    viewer, and which is in its final minutes with the sides within the margin. *)
Definition margin_of (sport : text) (margin : Z) : Prop :=
  (sport = lit "football" \/ sport = lit "basketball") /\ margin = 8 \/ (sport = lit "hockey" \/ sport = lit "soccer") /\ margin = 1.
Definition final_minutes (g : Game) : Prop :=
  State g = lit "in" /\ betweenPeriods (Detail g) = false /\
  (soccerClockLate g = true \/
   exists left, remainingClock g = Some left /\ left < 5 * 60 * 1000000000 /\ finalPeriod (League g) <> 0 /\
     (finalPeriod (League g) <= Period g \/ detailIsLastPeriod g = true)).
Inductive due (prev : gmap text Game) (closeGames : bool) (on : OnAir) : Alert -> Prop :=
| due_start before :
    Followed on = true -> State (oGame on) = lit "in" -> prev !! gID (oGame on) = Some before -> State before = lit "pre" ->
    due prev closeGames on (mkAlert (gID (oGame on) ++ lit ":start") (lit "start") (gID (oGame on)) (oChannelID on) (oChannel on)
      (banner (lit "Starting now") (oGame on)) [])
| due_close margin gap :
    closeGames = true \/ Followed on = true -> Spoiler on = false -> final_minutes (oGame on) ->
    margin_of (sportOf (League (oGame on))) margin -> scoreGap (oGame on) = Some gap -> gap <= margin ->
    due prev closeGames on (mkAlert (gID (oGame on) ++ lit ":close") (lit "close") (gID (oGame on)) (oChannelID on) (oChannel on)
      (banner (lit "Close game") (oGame on)) (scoreLine (oGame on))).

Lemma final_minutes_iff g : inFinalMinutes g = true <-> final_minutes g.
Proof.
  unfold inFinalMinutes, final_minutes, actionable, Live. rewrite <- says_spec. destruct (says (State g) "in"); [| split; [done | by intros []]].
  destruct (betweenPeriods (Detail g)); cbn; [split; [done | by intros (_ & ? & _)] |].
  destruct (soccerClockLate g); [split; [intros _; split_and!; auto | done] |].
  destruct (Z.eqb_spec (finalPeriod (League g)) 0) as [E | E].
  { split; [done |]. intros (_ & _ & [? | (? & _ & _ & ? & _)]); done. }
  assert ((finalPeriod (League g) <=? Period g) || detailIsLastPeriod g = true <-> finalPeriod (League g) <= Period g \/ detailIsLastPeriod g = true)%bool as Hp
    by by rewrite orb_true_iff, Z.leb_le.
  destruct ((finalPeriod (League g) <=? Period g) || detailIsLastPeriod g)%bool; cbn [negb].
  - change (5 * Minute) with (5 * 60 * 1000000000). destruct (remainingClock g) as [t |].
    + rewrite Z.ltb_lt. split; [intros Ht; split_and!; [done | done | right; exists t; split_and!; [done | done | done | by apply Hp]] |].
      by intros (_ & _ & [? | (? & [= <-] & ? & _)]).
    + split; [done |]. by intros (_ & _ & [? | (? & ? & _)]).
  - split; [done |]. intros (_ & _ & [? | (? & _ & _ & _ & Hl)]); [done |]. by apply Hp in Hl.
Qed.
Lemma close_finish_iff g : closeFinish g = true <->
  exists margin gap, final_minutes g /\ margin_of (sportOf (League g)) margin /\ scoreGap g = Some gap /\ gap <= margin.
Proof.
  unfold closeFinish, closeMargin. setoid_rewrite <- final_minutes_iff.
  assert (forall m, (if (says (sportOf (League g)) "football" || says (sportOf (League g)) "basketball")%bool then Some 8
    else if (says (sportOf (League g)) "hockey" || says (sportOf (League g)) "soccer")%bool then Some 1 else None) = Some m <-> margin_of (sportOf (League g)) m) as Hm.
  { intros m. unfold margin_of. rewrite <- !says_spec. generalize (sportOf (League g)). intros s.
    destruct (says s "football") eqn:E1.
    { rewrite says_spec in E1. subst s. split; [intros [= <-]; auto | intros [[_ ->] | [[E | E] _]]; [done | by vm_compute in E | by vm_compute in E]]. }
    destruct (says s "basketball") eqn:E2.
    { rewrite says_spec in E2. subst s. split; [intros [= <-]; auto | intros [[_ ->] | [[E | E] _]]; [done | by vm_compute in E | by vm_compute in E]]. }
    cbn. destruct (says s "hockey"), (says s "soccer"); cbn; (split; [by intros [= <-]; auto | intros [[[? | ?] _] | [[? | ?] ->]]; done]). }
  destruct (if (_ || _)%bool then Some 8 else _) as [m |].
  - assert (margin_of (sportOf (League g)) m) as Hmm by (by apply Hm). destruct (inFinalMinutes g); cbn [negb].
    + destruct (scoreGap g) as [gap |]; [destruct (Z.leb_spec gap m) |].
      * split; [intros _; by exists m, gap | done].
      * split; [done |]. intros (m' & gap' & _ & Hm' & [= <-] & ?). apply Hm in Hm' as [= <-]. lia.
      * split; [done |]. by intros (? & ? & _ & _ & ? & _).
    + split; [done |]. by intros (? & ? & ? & _).
  - split; [done |]. intros (m & ? & _ & Hm' & _). by apply Hm in Hm'.
Qed.
Lemma due_iff prev cg on a :
  due prev cg on a <-> (a = start_alert on /\ starts_now prev on = true) \/ (a = close_alert on /\ ends_close cg on = true).
Proof.
  unfold starts_now, ends_close, Live. rewrite !andb_true_iff, orb_true_iff, negb_true_iff, close_finish_iff, says_spec. split.
  - intros [before H1 H2 H3 H4 | m gap H1 H2 H3 H4 H5 H6]; [left | right].
    + split; [done |]. rewrite H3. split_and!; [done | done | by apply says_spec].
    + split; [done |]. split_and!; [done | done | apply H3 | by exists m, gap].
  - intros [[-> [[H1 H2] H3]] | [-> [[[H1 H2] _] (m & gap & H3 & H4 & H5 & H6)]]].
    + destruct (prev !! gID (oGame on)) as [b |] eqn:E; [| done]. apply says_spec in H3. by eapply due_start.
    + by eapply due_close.
Qed.

(** The toasts of the games gone through, and the ids sent since *)
Record told (prev : gmap text Game) (cg : bool) (l : list OnAir) (sent0 : gset text) (s : list Alert * gset text) : Prop := {
  told_due : forall a, a ∈ fst s -> exists on, on ∈ l /\ due prev cg on a;
  told_once : NoDup (map aID (fst s));
  told_new : forall a, a ∈ fst s -> aID a ∉ sent0;
  told_sent : snd s = sent0 ∪ list_to_set (map aID (fst s));
}.
Lemma add_told prev cg l sent0 s a : told prev cg l sent0 s -> (exists on, on ∈ l /\ due prev cg on a) -> told prev cg l sent0 (add_alert s a).
Proof.
  intros [Hd Hn Hs He] Hdue. unfold add_alert. case_bool_decide as Hin; [by constructor |]. constructor; cbn [fst snd].
  - intros b [? | ->%list_elem_of_singleton]%elem_of_app; auto.
  - rewrite map_app. apply NoDup_app. split_and!; [done | | apply NoDup_singleton]. intros x Hx ->%list_elem_of_singleton. apply Hin. rewrite He. set_solver.
  - intros b [? | ->%list_elem_of_singleton]%elem_of_app; [by apply Hs |]. rewrite He in Hin. set_solver.
  - rewrite He, map_app, list_to_set_app_L. cbn. set_solver.
Qed.
Lemma add_sent s a : snd s ⊆ snd (add_alert s a) /\ aID a ∈ snd (add_alert s a).
Proof. unfold add_alert. case_bool_decide; cbn; set_solver. Qed.

Lemma step_told prev cg l sent0 s on : on ∈ l -> told prev cg l sent0 s -> told prev cg l sent0 (alert_step prev cg s on).
Proof.
  intros Hon Hs. unfold alert_step.
  assert (told prev cg l sent0 (if starts_now prev on then add_alert s (start_alert on) else s)) as Hs'.
  { destruct (starts_now prev on) eqn:E; [| done]. apply add_told; [done |]. exists on. split; [done |]. apply due_iff. by left. }
  destruct (ends_close cg on) eqn:E; [| done]. apply add_told; [done |]. exists on. split; [done |]. apply due_iff. by right.
Qed.
Lemma step_sent prev cg s on : snd s ⊆ snd (alert_step prev cg s on) /\ forall a, due prev cg on a -> aID a ∈ snd (alert_step prev cg s on).
Proof.
  unfold alert_step. pose proof (add_sent s (start_alert on)) as [H1 H2]. set (s' := if starts_now prev on then add_alert s (start_alert on) else s).
  assert (snd s ⊆ snd s') as Hsub by (subst s'; by destruct (starts_now prev on)). pose proof (add_sent s' (close_alert on)) as [H3 H4]. split.
  - destruct (ends_close cg on); set_solver.
  - intros a [[-> E] | [-> E]]%due_iff; [| by rewrite E]. assert (aID (start_alert on) ∈ snd s') by (subst s'; by rewrite E). destruct (ends_close cg on); set_solver.
Qed.
Lemma fold_told prev cg l0 sent0 l : forall s, (forall on, on ∈ l -> on ∈ l0) -> told prev cg l0 sent0 s ->
  let s' := fold_left (alert_step prev cg) l s in
  told prev cg l0 sent0 s' /\ snd s ⊆ snd s' /\ forall on a, on ∈ l -> due prev cg on a -> aID a ∈ snd s'.
Proof.
  induction l as [| on l IH]; intros s Hl Hs; cbn [fold_left]; [split_and!; [done | done | by intros ? ? ?%not_elem_of_nil] |].
  pose proof (step_sent prev cg s on) as [Hsub Hdue].
  destruct (IH (alert_step prev cg s on)) as (Ht & Hsub' & Hall); [intros x Hx; apply Hl; by right | apply step_told; [apply Hl; by left | done] |].
  split_and!; [done | set_solver |]. intros x a [-> | Hx]%elem_of_cons Ha; [apply Hsub'; by apply Hdue | by apply (Hall x)].
Qed.
Lemma alerts_told prev l sent cg :
  told prev cg l sent (Alerts prev l sent cg) /\ forall on a, on ∈ l -> due prev cg on a -> aID a ∈ snd (Alerts prev l sent cg).
Proof.
  destruct (fold_told prev cg l sent l ([], sent)) as (? & _ & ?); [done | | done].
  constructor; cbn; [by intros a ?%not_elem_of_nil | by apply NoDup_nil | by intros a ?%not_elem_of_nil | set_solver].
Qed.

(** *** Ids *)
Lemma before_last_app c s t : existsb (Z.eqb c) t = false -> before_last c (s ++ c :: t) = s.
Proof.
  intros Ht. induction s as [| d s IH]; cbn; [by rewrite Ht |]. rewrite existsb_app. cbn. rewrite Z.eqb_refl, orb_true_r. by rewrite IH.
Qed.
Lemma due_game prev cg on a : due prev cg on a -> before_last 58 (aID a) = gID (oGame on) /\ aGame a = gID (oGame on).
Proof.
  intros [[-> _] | [-> _]]%due_iff; (split; [| done]); unfold start_alert, close_alert; cbn [aID].
  - change (lit ":start") with (58 :: lit "start"). by apply before_last_app.
  - change (lit ":close") with (58 :: lit "close"). by apply before_last_app.
Qed.

(** *** Looks *)
Definition at_game (game : text) (out : list Alert) : list text := map aID (filter (fun a => aGame a = game) out).
Definition on_boards (game : text) (k : Look) : Prop := isOff k = true \/ byID k = ∅ \/ is_Some (byID k !! game).
(** What one look tells, of a state [s] *)
Definition look_exact (s : Looks) (k : Look) (out : list Alert) : Prop :=
  (isOff k = true \/ byID k = ∅ -> out = []) /\ NoDup (map aID out) /\
  (forall a, a ∈ out -> aID a ∉ alertSent s /\ exists on, on ∈ onAir k /\ due (alertPrev s) (closeGames k) on a) /\
  (isOff k = false -> byID k <> ∅ -> forall on a, on ∈ onAir k -> due (alertPrev s) (closeGames k) on a -> aID a ∈ alertSent s \/ aID a ∈ map aID out).
Lemma look_tells s k : look_exact s k (snd (gameAlerts s k)).
Proof.
  unfold gameAlerts, look_exact. destruct (isOff k); [cbn; split_and!; [done | constructor | by intros a ?%not_elem_of_nil | done] |].
  case_decide as Hk; [cbn; split_and!; [done | constructor | by intros a ?%not_elem_of_nil | done] |].
  pose proof (alerts_told (alertPrev s) (onAir k) (alertSent s) (closeGames k)) as [[Hd Hn Hs He] Hall]. destruct (Alerts _ _ _ _) as [out sent]. cbn [fst snd] in *. split_and!.
  - by intros [? | ?].
  - done.
  - intros a Ha. split; [by apply Hs | by apply Hd].
  - intros _ _ on a Hon Ha. specialize (Hall on a Hon Ha). rewrite He in Hall. set_solver.
Qed.
Lemma look_keeps s k game id : on_boards game k -> before_last 58 id = game ->
  (id ∈ alertSent s \/ id ∈ map aID (snd (gameAlerts s k))) -> id ∈ alertSent (fst (gameAlerts s k)).
Proof.
  unfold gameAlerts. intros Hb Hid. destruct (isOff k) eqn:Eo; [cbn; set_solver |]. case_decide as Hk; [cbn; set_solver |].
  destruct Hb as [? | [? | Hb]]; [congruence | done |].
  pose proof (alerts_told (alertPrev s) (onAir k) (alertSent s) (closeGames k)) as [[_ _ _ He] _]. destruct (Alerts _ _ _ _) as [out sent]. cbn [fst snd alertSent] in *.
  intros Hin. apply elem_of_filter. rewrite Hid. split; [done |]. rewrite He. set_solver.
Qed.
Lemma at_game_sub s k game id : id ∈ at_game game (snd (gameAlerts s k)) -> id ∈ map aID (snd (gameAlerts s k)) /\ before_last 58 id = game /\ id ∉ alertSent s.
Proof.
  unfold at_game. intros (a & -> & [Hg Ha]%list_elem_of_filter)%list_elem_of_fmap.
  pose proof (look_tells s k) as (_ & _ & Hd & _). destruct (Hd a Ha) as (Hns & on & _ & Hdue). apply due_game in Hdue as [E E'].
  split_and!; [by apply list_elem_of_fmap_2 | congruence | done].
Qed.
Lemma at_game_concat game l : at_game game (concat l) = concat (map (at_game game) l).
Proof. unfold at_game. induction l as [| o l IH]; [done |]. cbn. by rewrite filter_app, map_app, IH. Qed.
Lemma looks_once game l : forall s, (forall k, k ∈ l -> on_boards game k) ->
  NoDup (at_game game (concat (looks s l))) /\ forall id, id ∈ at_game game (concat (looks s l)) -> id ∉ alertSent s.
Proof.
  induction l as [| k l IH]; intros s Hb; cbn [looks]; [split; [constructor | by intros id ?%not_elem_of_nil] |].
  pose proof (look_tells s k) as (_ & Hn & _ & _). pose proof (at_game_sub s k game) as Hsub. pose proof (look_keeps s k game) as Hkeep.
  destruct (gameAlerts s k) as [s' out]. cbn [fst snd] in *. destruct (IH s') as [Hn' Hs']; [intros x Hx; apply Hb; by right |].
  cbn [concat]. replace (at_game game (out ++ concat (looks s' l))) with (at_game game out ++ at_game game (concat (looks s' l))) by (unfold at_game; by rewrite filter_app, map_app).
  assert (forall id, id ∈ at_game game (concat (looks s' l)) -> before_last 58 id = game) as Hgame.
  { clear -l. revert s'. induction l as [| k l IH]; intros s' id; cbn [looks]; [by intros ?%not_elem_of_nil |].
    pose proof (at_game_sub s' k game id) as Hs. destruct (gameAlerts s' k) as [s2 out]. cbn [concat snd] in *. unfold at_game. rewrite filter_app, map_app. intros [? | ?]%elem_of_app; [by apply Hs | by apply (IH s2)]. }
  split.
  - apply NoDup_app. split_and!; [| | done].
    + unfold at_game. clear -Hn. induction out as [| a out IH]; [constructor |]. cbn in Hn. apply NoDup_cons in Hn as [Ha Hn]. rewrite filter_cons. case_decide; [| by apply IH]. cbn. apply NoDup_cons. split; [| by apply IH].
      intros (b & E & [_ Hb]%list_elem_of_filter)%list_elem_of_fmap. apply Ha. rewrite E. by apply list_elem_of_fmap_2.
    + intros id Hin Hin'. apply (Hs' id Hin'). destruct (Hsub id Hin) as (Hm & Hid & _). apply (Hkeep id); [apply Hb; by left | done | by right].
  - intros id [Hin | Hin]%elem_of_app; [by apply Hsub |]. intros Hs. apply (Hs' id Hin). apply (Hkeep id); [apply Hb; by left | by apply Hgame | by left].
Qed.

End alert_proofs.

(** ** Scoreboards *)

(** What happens to the boards: the second stretch of a call, for whatever its first
    stretch had read *)
Record call := mkCall { ckey : text; read : option cached; result : option (list Game); cnow : nat -> Z; clast : Z }.
Definition after_call (c : Cache) (k : call) : Cache := fst (fetched c (ckey k) (read k) (result k) (cnow k) (clast k)).
Definition after_calls : list call -> Cache := fun l => fold_left after_call l NewCache.

Record cache_ok (c : Cache) : Prop := {
  ok_delay : forall k d, delay c !! k = Some d -> minBackoff <= d <= maxBackoff;
  ok_wait : forall k, is_Some (wait c !! k) <-> is_Some (delay c !! k);
  ok_ttl : forall k i, items c !! k = Some i -> liveTTL <= ttl i <= quietTTL;
}.
Lemma next_delay_first : next_delay 0 = minBackoff.
Proof. done. Qed.
Lemma next_delay_doubles d : minBackoff <= d <= maxBackoff -> next_delay d = Z.min (2 * d) maxBackoff.
Proof.
  unfold next_delay, minBackoff, maxBackoff, Minute, Second. intros Hd. destruct (Z.ltb_spec d (30 * 1000000000)); [lia |].
  unfold int64. rewrite Z.mod_small by lia. destruct (Z.ltb_spec (30 * (60 * 1000000000)) (d * 2 + 2 ^ 63 - 2 ^ 63)); lia.
Qed.
Lemma next_delay_bounds c k : cache_ok c -> minBackoff <= next_delay (default 0 (delay c !! k)) <= maxBackoff.
Proof.
  intros [Hd _ _]. destruct (delay c !! k) as [d |] eqn:E; cbn [default id]; [| by unfold minBackoff, maxBackoff, Minute, Second]. specialize (Hd k d E).
  unfold id. rewrite next_delay_doubles by done. unfold minBackoff, maxBackoff, Minute, Second in *. lia.
Qed.
Lemma ttl_bounds now l : forall n t, liveTTL <= t <= quietTTL -> liveTTL <= ttl_loop now n l t <= quietTTL.
Proof.
  induction l as [| g l IH]; intros n t Ht; cbn [ttl_loop]; [done |]. destruct (Live g); [unfold liveTTL, quietTTL, Hour, Minute, Second; lia |].
  destruct (_ && _)%bool; apply IH; lia.
Qed.
Lemma ttl_live now l : forall n t, existsb Live l = true -> ttl_loop now n l t = liveTTL.
Proof. induction l as [| g l IH]; intros n t; cbn [ttl_loop existsb]; [done |]. destruct (Live g); [done |]. intros Hl. case_match; by apply IH. Qed.

Lemma after_call_ok c k : cache_ok c -> cache_ok (after_call c k).
Proof.
  intros Hc. pose proof (next_delay_bounds c (ckey k) Hc) as Hn. destruct Hc as [Hd Hw Ht]. unfold after_call, fetched. destruct (result k) as [gs |]; cbn [fst]; constructor; cbn [delay wait items].
  - intros x d [_ ?]%lookup_delete_Some. by apply (Hd x).
  - intros x. rewrite !lookup_delete_is_Some. by rewrite Hw.
  - intros x i [[<- <-] | [_ ?]]%lookup_insert_Some; [cbn [ttl]; apply ttl_bounds; by unfold liveTTL, quietTTL, Hour, Minute, Second | by apply (Ht x)].
  - intros x d [[<- <-] | [_ ?]]%lookup_insert_Some; [done | by apply (Hd x)].
  - intros x. rewrite !lookup_insert_is_Some'. by rewrite Hw.
  - done.
Qed.
Lemma after_calls_ok l : cache_ok (after_calls l).
Proof.
  unfold after_calls. assert (cache_ok NewCache) as H0 by (constructor; cbn; intros *; rewrite ?lookup_empty; [done | split; by intros [] | done]).
  revert H0. generalize NewCache. induction l as [| k l IH]; intros c Hc; cbn; [done |]. by apply IH, after_call_ok.
Qed.

Definition failed (key : text) (k : call) : Prop := ckey k = key /\ result k = None.
Lemma fails_double key l : forall c d, Forall (failed key) l -> delay c !! key = Some d -> minBackoff <= d <= maxBackoff ->
  delay (fold_left after_call l c) !! key = Some (Z.min (d * 2 ^ Z.of_nat (length l)) maxBackoff).
Proof.
  induction l as [| k l IH]; intros c d Hl Hd Hb; cbn [fold_left length]; [rewrite Hd; f_equal; change (2 ^ Z.of_nat 0) with 1; lia |].
  apply Forall_cons in Hl as [[Hk Hr] Hl]. rewrite (IH _ (next_delay d)); [| done | |].
  - f_equal. rewrite next_delay_doubles by done. rewrite Nat2Z.inj_succ, Z.pow_succ_r by lia. pose proof (Z.pow_pos_nonneg 2 (Z.of_nat (length l)) ltac:(lia) ltac:(lia)).
    destruct (Z.min_spec (2 * d) maxBackoff) as [[? ->] | [? ->]]; nia.
  - unfold after_call, fetched. rewrite Hr. cbn [fst delay]. rewrite Hk, Hd; cbn [default]; unfold id. apply lookup_insert_eq.
  - rewrite next_delay_doubles by done. unfold minBackoff, maxBackoff, Minute, Second in *. lia.
Qed.

(** What a call answers, of the board its first stretch found and what it fetched *)
Definition answer (c : Cache) (k : call) : option (list Game) := snd (fetched c (ckey k) (read k) (result k) (cnow k) (clast k)).
(** What a call answers and leaves: after a failure its answer is the board it had found,
    an error when there was none, nobody asks again until the delay is over and the
    last good board is served; after a success that board is the answer, and served
    for half a minute at least, two hours at most, and half a minute exactly with a
    game in progress. *)
Definition call_leaves (c : Cache) (k : call) : Prop :=
  let c' := after_call c k in
  answer c k = match result k with Some gs => Some gs | None => option_map games (read k) end /\
  match result k with
  | None =>
      exists d, delay c' !! ckey k = Some d /\ minBackoff <= d <= maxBackoff /\
        (forall now, now < clast k + d -> look c' (ckey k) now = match items c !! ckey k with Some i => Serve (games i) | None => Waiting end)
  | Some gs =>
      exists t, liveTTL <= t <= quietTTL /\ (existsb Live gs = true -> t = liveTTL) /\ delay c' !! ckey k = None /\
        (forall now, 0 <= now < clast k + t -> look c' (ckey k) now = Serve gs) /\
        (forall now, 0 <= now -> clast k + t <= now -> exists i, look c' (ckey k) now = Fetch (Some i) /\ games i = gs)
  end.
Lemma call_leaves_it c k : cache_ok c -> call_leaves c k.
Proof.
  intros Hc. pose proof (next_delay_bounds c (ckey k) Hc) as Hn. unfold call_leaves, answer, after_call, fetched. destruct (result k) as [gs |]; cbn [fst snd delay]; (split; [done |]).
  - pose proof (ttl_bounds (cnow k) gs 0 quietTTL ltac:(by unfold liveTTL, quietTTL, Hour, Minute, Second)) as Ht. exists (ttl_loop (cnow k) 0 gs quietTTL).
    split_and!; [lia | lia | by apply ttl_live | apply lookup_delete_eq | |]; intros now; unfold look; cbn [items wait]; rewrite lookup_insert_eq, lookup_delete_eq; cbn [default].
    + intros Hnow. destruct (Z.ltb_spec now 0); [lia |]. unfold sub_time. cbn [at_ ttl games].
      destruct (Z.ltb_spec (Z.max (- 2 ^ 63) (Z.min (2 ^ 63 - 1) (now - clast k))) (ttl_loop (cnow k) 0 gs quietTTL)); [done |]. unfold liveTTL, quietTTL, Hour, Minute, Second in *. lia.
    + intros H0 Hnow. destruct (Z.ltb_spec now 0); [lia |]. unfold sub_time. cbn [at_ ttl games].
      destruct (Z.ltb_spec (Z.max (- 2 ^ 63) (Z.min (2 ^ 63 - 1) (now - clast k))) (ttl_loop (cnow k) 0 gs quietTTL)); [unfold liveTTL, quietTTL, Hour, Minute, Second in *; lia |]. by eexists.
  - set (nd := next_delay _) in *. clearbody nd. eexists. split; [apply lookup_insert_eq |]. split; [done |]. intros now Hnow. unfold look. cbn [items wait]. rewrite lookup_insert_eq. cbn [default]. unfold id.
    apply Z.ltb_lt in Hnow. by rewrite Hnow.
Qed.

(** C24. Kept scoreboards, whatever calls overlap and whatever their fetches give: a call
    whose fetch fails answers the board it had found, an error when there was none,
    one whose fetch does not answers what came. After a failed fetch the last good board is served and nobody asks again for half a minute, a delay
    that doubles with each failure in a row up to half an hour; a board that came is
    served for half a minute to two hours, half a minute when a game is on, and then
    asked for again. *)
Theorem boards_back_off (before : list call) (k : call) :
  call_leaves (after_calls before) k /\
  forall key fails, delay (after_calls before) !! key = None -> Forall (failed key) (k :: fails) ->
    delay (after_calls (before ++ k :: fails)) !! key = Some (Z.min (minBackoff * 2 ^ Z.of_nat (length fails)) maxBackoff).
Proof.
  split; [apply call_leaves_it, after_calls_ok |]. intros key fails Hd Hf. apply Forall_cons in Hf as [[Hk Hr] Hf].
  unfold after_calls in *. rewrite fold_left_app. cbn [fold_left]. apply fails_double; [done | | by unfold minBackoff, maxBackoff, Minute, Second].
  unfold after_call at 1, fetched. rewrite Hr. cbn [fst delay]. rewrite Hk, Hd; cbn [default]; unfold id. apply lookup_insert_eq.
Qed.

(** ** On boards *)

#[local] Instance ascii : Unicode := ascii_unicode.
Definition kc (score : string) : Team := mkTeam (lit "Kansas City Chiefs") (lit "Chiefs") (lit "KC") (lit score) true.
Definition lv (score : string) : Team := mkTeam (lit "Las Vegas Raiders") (lit "Raiders") (lit "LV") (lit score) false.
Definition nfl (id state detail : string) (red : bool) (teams : list Team) : Game :=
  mkGame (lit id) (lit "nfl") [] [] 1 (lit state) false (lit detail) [] 0 teams red false.
Definition quiet : Game := nfl "1" "in" "Q2 8:00" false [kc "3"; lv "0"].
Definition drive : Game := nfl "2" "in" "Q1 2:11" true [kc "0"; lv "0"].
Definition ending : Game := nfl "3" "in" "4th 3:12" false [kc "21"; lv "20"].
Example tile_of_the_drive : PickFocus (100 * Minute) 0 [quiet; ending; drive] [] = mkSwitch false (lit "2") (lit "Red zone: LV at KC").
Proof. vm_compute. reflexivity. Qed.
Example tile_of_the_ending : PickFocus (100 * Minute) (98 * Minute) [quiet; ending] [] = mkSwitch false (lit "3") (lit "Final minutes: LV at KC").
Proof. vm_compute. reflexivity. Qed.
Example tile_held : PickFocus (100 * Minute) (99 * Minute) [quiet; ending; drive] [] = mkSwitch true [] [].
Proof. vm_compute. reflexivity. Qed.
Example tile_of_the_lead : PickFocus 0 0 [nfl "1" "in" "Q2 7:00" false [kc "3"; lv "7"]] [quiet] = mkSwitch false (lit "1") (lit "Lead change: LV at KC").
Proof. vm_compute. reflexivity. Qed.
Example late_goal : inFinalMinutes (mkGame (lit "9") (lit "epl") [] [] 1 (lit "in") false (lit "87'") [] 2 [] false false) = true.
Proof. vm_compute. reflexivity. Qed.

Definition board (g : Game) : gmap text Game := {[gID g := g]}.
Definition look_at (g : Game) : Look := mkLook false (board g) [mkOnAir g 7 (lit "5.1") true false] true.
Definition looked_at : list Look := [look_at (nfl "3" "pre" "8:15 PM" false [kc ""; lv ""]); look_at (nfl "3" "in" "1st 15:00" false [kc "0"; lv "0"]); look_at ending; look_at ending].
Example toasts_of_a_game : map (map aText) (looks no_looks looked_at) = [[]; [lit "Starting now: LV at KC"]; [lit "Close game: LV at KC"]; []].
Proof. vm_compute. reflexivity. Qed.
(** A game that leaves the boards for a look is told of again. *)
Example told_again : map (map aText) (looks no_looks [look_at ending; look_at drive; look_at ending]) = [[lit "Close game: LV at KC"]; []; [lit "Close game: LV at KC"]].
Proof. vm_compute. reflexivity. Qed.

Definition failing : call := mkCall (lit "nfl:20260104") None None (fun _ => Hour) Hour.
Lemma boards_back_off_witness :
  delay (after_calls ([] ++ failing :: repeat failing 6)) !! lit "nfl:20260104" = Some maxBackoff /\
  delay (after_calls ([] ++ failing :: repeat failing 2)) !! lit "nfl:20260104" = Some (2 * Minute).
Proof.
  split.
  - apply (proj2 (boards_back_off [] failing) (lit "nfl:20260104") (repeat failing 6)); [done | repeat constructor].
  - apply (proj2 (boards_back_off [] failing) (lit "nfl:20260104") (repeat failing 2)); [done | repeat constructor].
Defined.
